(* ===== verification/_CoqProject ===== *)
-Q . S2P
Prelude.v
FwCommon.v
FwCidr.v
FwBpf.v
FwMaps.v
FwNet.v
FwDemo.v
FwDatapath.v
FwLimits.v
FwDetect.v
FwRuntime.v
FwTick.v
FwRules.v
FwOps.v
FwSynProxy.v
FwEgress.v
FwPublish.v
TryProcedure.v
IpAlloc.v
NetText.v
FwUpgrade.v
FwApi.v
FwApiProofs.v
FwApiLists.v
FwApiLoop.v
Network.v
HostTypes.v
Capacity.v
CapacityProofs.v
FloatErr.v
Exchange.v
SubDb.v
Pricing.v
PricingMath.v
PricingProofs.v
IpProvision.v
IpProvisionProofs.v
IpProvWitness.v
SubLife.v
SubLifeProofs.v
SubWorkerProofs.v
SubExpiry.v
SubPurge.v
SubWitness.v
PricingWitness.v
OnChain.v
Renewal.v
OnChainProofs.v
OnChainWitness.v
RenewalProofs.v
RenewalWitness.v
Settlement.v
SettlementProofs.v
SettlementWitness.v
FwWitness.v
FwApiWitness.v
VmNet.v
VmLive.v
VmCell.v
VmSpawn.v
VmStages.v
VmAlloc.v
VmSpawnProofs.v
VmDelete.v
VmReturns.v
VmWitness.v
Referral.v
ReferralApi.v
ReferralProofs.v
ReferralHistory.v
ReferralWitness.v
Orders.v
Upgrade.v
OrderProofs.v
OrderPlaced.v
UpgradeProofs.v
UpgradeSize.v
UpgradePipeline.v
OrderTheorems.v
OrderWitness.v
