(* ===== verification/Prelude.v ===== *)
(** * LNVPS: a verification library

    LNVPS sells virtual servers and address space. This library models, in Rocq,
    the parts of the repository that carry its own core logic: the DDoS firewall
    ([lnvps_fw]), an XDP/TC datapath in eBPF with a control daemon; the retry and
    rollback procedures that provisioning runs on ([try-procedure]); the choice of
    a host and of addresses for a new machine ([lnvps_api_common]); and the life
    of a subscription, from its payment through its expiry to the removal of what
    it paid for, the commission that it earns a referrer, and the orders, spawning and
    upgrades of machines ([lnvps_api]). Definitions keep the names of the source and are
    executable; closed examples and witnesses evaluate them.

    ** Conventions

    This file is the prelude: machine integers are [Z] with their wrap-around
    written out ([wrap], [wadd], [wsub], [sat_sub]); Rust's [Result] is [res];
    stateful code is a state monad [ST], stepped by [wp] and [keeps]; [zbool]
    turns comparisons into propositions. What is not Rust under [src/] is an
    interface: the kernel's eBPF maps ([FwBpf.BpfKernel] with [BpfKernelLaws]),
    the packet header crate ([FwNet.NetTypes]), the order of hash-map iteration
    ([FwRuntime.HashIter], [FwPublish.IterOrder]), address parsing
    ([FwRules.ParseIp]), the ipnetwork and hex crates and the random generator
    ([IpAlloc.IpNetLib], [NetText.HexLib], [Network.Rand]), the sleep of
    [TryProcedure], currencies and amounts ([Exchange.PaymentsRs]), countries
    ([Exchange.IsoCountry]), the last moment of chrono ([Pricing.Chrono]) and its
    calendar ([Renewal.Datelike]), what payment services answer
    ([Renewal.PaymentServices], [Settlement.SettlementServices]), what hosts, routers
    and DNS servers answer ([VmNet.Services]), what nodes, wallets and the bitcoin
    crate do ([Referral.PayServices], [Referral.Bitcoin]), what hosts have and answer to
    orders ([Orders.OrderServices]), and the clock, the calendar and the
    outcomes of remote calls of [SubDb]. Each has a concrete
    instance at which the witnesses run.

    ** The firewall

    An ingress packet goes through [xdp_lnvps]; the maps it reads are written by
    the control loop once a second from the counters it leaves.

    - [FwCommon] ([lnvps_fw_common/src/lib.rs]): the records in the maps, flags,
      the SYN cookie hash. [FwCidr] ([cidr.rs]): prefix masks.
    - [FwBpf], [FwMaps] ([lnvps_ebpf/src/maps.rs]): hash maps and
      longest-prefix-match tries, and the helpers over the datapath's state
      [XState]: a record of maps per family, shared by the programs and the
      daemon.
    - [FwNet], [FwDatapath] ([lnvps_ebpf/src/main.rs]): parsing and the ingress
      program. Proved: what is never touched, verdicts of each mode, exact
      accounting, when the SYN proxy is reached, and that policy is userspace's.
    - [FwLimits]: the per-source gate and the learning leak over sequences of
      packets and any clock: exact drops, blocks that hold, a budget that bounds.
    - [FwSynProxy]: the rewriting of a SYN into a SYN-ACK with its checksums, and
      the verification of the echo. Proved: the handshake verifies, nothing else
      does, and the checksums are right.
    - [FwEgress]: the TC program and what it learns.
    - [FwDetect] ([detect.rs]), [FwRuntime], [FwTick] ([runtime.rs]): rates, the
      hysteresis state machine, and the control tick [run_control]. A tick over
      batched maps is proved to be one detection step per destination
      ([tick_pointwise]); from that, floods are mitigated in the datapath and
      silence releases. [FwDetect.reaches] and [FwTick.quiet_ticks] are the step
      relations.
    - [FwRules], [FwOps] ([main.rs], [gc.rs], [api.rs]): rules reconciled into the
      tries, limits, sweeps. [FwOps.Runs] is a concrete daemon whose runs show
      three ways in which rules and detection disturb each other.
    - [FwPublish] ([publish.rs], [api.rs]): mitigation events and the ring they are
      polled from, refined by the log of everything that happened.
    - [FwApi] ([api.rs]): the control API: authentication and one function per
      handler on the shared state. [FwApiProofs]: nobody without the token is
      served, what a request stores is canonical and removable under any text of
      their network. [FwApiLists]: pages and origins.
    - [FwApiLoop] ([main.rs]): the handlers beside the loop that reloads what they
      edit, as a relation on every interleaving ([reach]). A reconciliation that meets
      a full trie stops there, and is not tried again. Proved: no edit is lost when the
      tries have room. [FwApiWitness.FullTrie] is one that is lost.
    - [FwUpgrade] ([upgrade.rs]): only a verified package is installed.
    - [FwDemo], [FwWitness], [FwApiWitness]: concrete states, packets and requests,
      and the theorems applied to them.

    The clock is a function from the number of readings to nanoseconds; theorems
    assume of it what they need. Every hash map of the datapath is an LRU map: an
    insert succeeds and may evict another key, which the laws leave open; a theorem that
    needs it not to happen asks for [BpfKernelFull]. The tries are bounded: an insert
    fails ([linsert] is [None]) when there is no room, and succeeds when there is
    ([lfree]). Detection ignores a failed insert, the rules stop at it, as the code
    does; theorems about what ends up in a trie ask for room ([FwTick.tick_wf],
    [FwRules.fits_rules]), and those about ticks that no protected prefix is a single
    address, since such a prefix shares the entry of its host.

    ** Procedures

    [TryProcedure] ([try-procedure/src/lib.rs]): closures act on a world and may
    panic; backoff is computed in IEEE doubles. The loops have fuel, one more than
    [max_retries], and never run out of it. A pipeline is proved to run its steps
    or exactly the rollbacks of the completed ones, and to be atomic when
    rollbacks undo.

    ** Addresses and capacity

    - [IpAlloc] ([provisioner/ip_range.rs]): [allocate_subnet] at the width of
      [u128]. Its loop has fuel for one round per allocation, which is proved
      enough; it returns the first free subnet whenever there is one.
    - [NetText]: addresses and networks with their text, hexadecimal digits, the
      reverse-DNS names and the modified EUI-64 addresses.
    - [Network] ([lnvps_api_common/src/network.rs]): the picking of an address in
      a range by its mode. Proved: what is picked is free, the counts that are
      advertised are what the picker can give, and machines assigned one after
      the other get distinct addresses, except in ranges allocated by EUI-64, where
      [slaac_assignment_repeats] gives one twice.
    - [HostTypes], [Capacity], [CapacityProofs] ([capacity.rs]): load of a host in
      IEEE singles, the filter and the order of the candidates, the custom
      templates a region can serve, the placement of apps on clusters.

    ** Subscriptions

    - [SubDb] ([lnvps_db]): the rows, the queries and updates of the database as
      functions on a [World], which also logs every call to a remote service.
      [Act] is a computation that may fail; what it did before it failed stays.
      [SubDb.Clock] gives the n-th reading of the clock, [SubDb.Remote] the outcome
      of the n-th call, [SubDb.Calendar] the months.
    - [IpProvision] ([provisioner/ip_range.rs]): address space sold, published in
      the registry and in RPKI, withdrawn and cancelled. [IpProvisionProofs]: the
      allocations of a block never overlap; a payment allocates or says why not;
      what was published is withdrawn.
    - [SubLife] ([subscription/mod.rs], [worker.rs]): a payment completes, the
      worker's check of subscriptions, and its clean-up of machines that nobody paid for.
      [SubLifeProofs]: a payment counts once; [SubWorkerProofs]: the grace period;
      [SubExpiry]: the notices; [SubPurge]: a paid machine is not removed.
    - [IpProvWitness], [SubWitness]: runs of both.

    ** Prices

    - [FloatErr]: what rounding to a double or a single costs, as bounds on reals.
    - [Exchange] ([exchange.rs], [vat.rs]): rates, their cache, conversion of
      amounts, VAT rates and the text of VAT numbers.
    - [Pricing] ([pricing.rs]): the tax that is due, fees, the cost of machines and
      subscriptions, an amount turned into time, upgrades and refunds. The rows that
      prices are read from are a [Catalog]. [PricingMath], [PricingProofs]: what was
      paid is accounted for to the unit, a quote paid in full buys what it quoted,
      tax is due only where it is, prices survive conversion. [PricingWitness]: a
      catalog, and the theorems at it.

    ** Payments

    - [Renewal] ([subscription/mod.rs]): a renewal is priced, asked for at a service
      and stored; saved methods, automatic renewal, upgrades. [RenewalProofs]: one
      request, for what is stored, and nothing else changes; the prepay window;
      [Kept], what a relation needs to be kept by all of these.
    - [OnChain] ([payments/onchain.rs]): deposits. [OnChainProofs]: the payments are
      a [Ledger], and a deposit is credited once, for what arrived.
    - [Settlement] ([payments/invoice.rs], [revolut.rs], [stripe.rs]): reports of
      the other services. [SettlementProofs]: over any sequence of [BillingEvent]s
      a settled row is final, and a payment is settled only when announced.
    - [OnChainWitness], [RenewalWitness], [SettlementWitness]: runs, with what the
      documentation does not say.

    ** Machines

    - [VmNet] ([provisioner/vm_network.rs], [dns/mod.rs], [router/mod.rs]): the row of
      an address, its entry at a router and its records at DNS servers, on a
      [VmWorld] that logs every call with its answer. [VmSpawn] ([provisioner/vm.rs]):
      spawning as a pipeline of [TryProcedure] with its rollbacks; deleting,
      re-installing, starting, stopping. The loops of retries have the fuel of
      [TryProcedure].
    - [VmLive]: what exists at the services ([live]), from the log; [reliable], what
      the theorems ask of the services: a removal is answered, what is created is
      new, and the database refuses insertions at most. Creations, updates, starts and
      hosts may fail at any call. [VmCell]: an address and what it owns, kept together
      by every operation.
    - [VmStages], [VmAlloc], [VmSpawnProofs]: each step of a spawn leads from its stage
      to the next and each rollback back ([TryProcedure.staged]). Proved: a spawn that
      fails leaves nothing behind, one that succeeds has a row for all that it made.
      [VmDelete]: deleting undoes spawning. [VmReturns]: these operations return,
      whatever is answered.
    - [VmWitness]: a machine spawned and deleted; two runs in which a failing database
      leaves a row or an entry behind, because the step that failed has a rollback of
      its own that does not run.

    ** Referrals

    - [Referral] ([referral/mod.rs]): the commission of a sale, the balance of a
      referrer, and the job that pays it over Lightning one by one and on chain in one
      transaction, on a [RefWorld]. A statement may be refused, executed with its
      answer lost, or be the last before the process dies ([Fate]); a call may answer,
      fail or not return, and whether it moved money is separate from its answer.
    - [ReferralApi] ([api/referral.rs], [admin/referrals.rs]): enrolment, changes,
      leaving, balances and manual payouts.
    - [ReferralProofs]: the money that moved is backed by rows of its own ([backed]),
      kept by every step ([ends], [kept], [only]); the fee of a batch is split to the
      unit. [ReferralHistory]: over any history nobody is paid more than he earned, but
      for payments that moved money and were reported as failed ([sent_by_failures])
      and for what invoices asked beyond the amounts requested ([sent_beyond]); runs pay
      whom they can; a payout pays and says so, or reports an error and leaves no row.
      [ReferralWitness] shows both exceptions, and concurrent runs.

    ** Orders and upgrades

    - [Orders] ([provisioner/vm.rs], [mysql.rs]): machines sold from a template or to
      measure, and imported from a host, as rows on an [OrderWorld]: the tables of
      [SubDb.World], those of [Pricing.Catalog] and [Capacity.CapDb], the next keys. A
      statement may be refused at any point ([OrderServices]); there is no transaction
      around an order. [Upgrade] ([provisioner/vm.rs], [worker.rs], [host/mod.rs]): a
      paid upgrade, a pipeline of [TryProcedure] that changes the rows, then stops,
      resizes, configures and starts the machine.
    - [OrderProofs], [OrderPlaced]: what an order adds ([grown]), when it
      is placed, and the invariant of the tables ([sound]). [UpgradeProofs],
      [UpgradeSize], [UpgradePipeline]: what an upgrade may change of rows
      and sizes, and what the host is told. [OrderTheorems]: orders are placed whole,
      what fails is never billed, no upgrade shrinks a machine, and a machine that was
      upgraded runs with what was paid for.
    - [OrderWitness]: a region with one host, the theorems there, and runs in which
      quote, order, host and worker disagree.

    [SubLife] takes automatic renewal as an argument; [Renewal.auto_renew] is it,
    and [RenewalProofs.auto_renew_quiet] is what [SubWorkerProofs] asks of it.

    Times are nanoseconds where the code has a [DateTime] and whole seconds where
    SQL stores them. Texts of messages are left out where nothing depends on them.
    A task's copy of a row may be older than the row: theorems that need a fresh
    one say so, and [SubWitness] shows what a stale one does. Text is ASCII: its
    case is changed letter by letter.

    ** What is not modelled

    Memory layout and the verifier of eBPF programs, concurrent updates of one
    map entry by several CPUs (counters are per CPU), log lines, HTTP and TLS,
    files, the text of SQL, and what remote services do beyond success and failure of
    a call and the answers named above. Of the worker's [check_vms] only the part before
    the hosts are asked about their machines is modelled ([SubLife.purge_unpaid_vms]).
    Statements of the database may fail in [VmNet],
    [Referral] and [Orders] and do not elsewhere. The order in which the plan continues:
    the jobs of the worker that assign addresses. *)

From stdpp Require Export base tactics option list gmap strings.
From Stdlib Require Export ZArith Lia.

#[global] Set Default Goal Selector "!".
#[global] Open Scope Z_scope.

(** ** Machine integers

    An unsigned [w]-bit integer is a [Z]; the Rust operators that the release
    profile compiles to wrapping instructions are written with [wrap]. *)

Definition wrap (w z : Z) : Z := z mod 2 ^ w.
Definition wadd (w a b : Z) : Z := wrap w (a + b).
Definition wsub (w a b : Z) : Z := wrap w (a - b).
Definition wmul (w a b : Z) : Z := wrap w (a * b).

(** [saturating_sub], [saturating_mul] of an unsigned type. *)
Definition sat_sub (a b : Z) : Z := Z.max 0 (a - b).
Definition sat_mul (w a b : Z) : Z := Z.min (2 ^ w - 1) (a * b).

(** The values of an unsigned [w]-bit integer. *)
Definition fits (w z : Z) : Prop := 0 <= z < 2 ^ w.

Declare Scope u64_scope.
Delimit Scope u64_scope with u64.
Notation "a +w b" := (wadd 64 a b) (at level 50, left associativity) : u64_scope.
Notation "a -w b" := (wsub 64 a b) (at level 50, left associativity) : u64_scope.
Notation "a -s b" := (sat_sub a b) (at level 50, left associativity) : u64_scope.

(** [flags & m != 0] *)
Definition has_flag (flags m : Z) : bool := negb (Z.land flags m =? 0).

(** ** Results

    Rust's [Result<A, E>]. *)
Inductive res (E A : Type) : Type :=
| Ok (a : A)
| Err (e : E).
Arguments Ok {E A} a.
Arguments Err {E A} e.

#[export] Instance res_ret {E} : MRet (res E) := fun A => Ok.
#[export] Instance res_bind {E} : MBind (res E) := fun A B k m =>
  match m with Ok a => k a | Err e => Err e end.
#[export] Instance res_fmap {E} : FMap (res E) := fun A B f m =>
  match m with Ok a => Ok (f a) | Err e => Err e end.

Definition is_ok {E A} (r : res E A) : bool :=
  match r with Ok _ => true | Err _ => false end.
Definition ok_or {E A} (e : E) (o : option A) : res E A :=
  match o with Some a => Ok a | None => Err e end.
(** Rust's [ensure!]. *)
Definition ensure {E} (b : bool) (e : E) : res E unit :=
  if b then Ok tt else Err e.

(** ** A state monad *)
Definition ST (S A : Type) : Type := S -> A * S.
#[export] Instance ST_ret {S} : MRet (ST S) := fun A a s => (a, s).
#[export] Instance ST_bind {S} : MBind (ST S) := fun A B k m s =>
  let '(a, s') := m s in k a s'.
Definition gets {S A} (f : S -> A) : ST S A := fun s => (f s, s).
Definition modify {S} (f : S -> S) : ST S unit := fun s => (tt, f s).

Lemma bind_run {S A B} (m : ST S A) (k : A -> ST S B) s :
  (m ≫= k) s = k (m s).1 (m s).2.
Proof. unfold mbind, ST_bind. by destruct (m s). Qed.
Lemma ret_run {S A} (a : A) (s : S) : (mret a : ST S A) s = (a, s).
Proof. done. Qed.
Lemma gets_run {S A} (f : S -> A) s : gets f s = (f s, s).
Proof. done. Qed.

(** The weakest precondition of a stateful computation: [Q] holds of its value
    and of the state it leaves. *)
Definition wp {S A} (m : ST S A) (Q : A -> S -> Prop) (s : S) : Prop :=
  Q (m s).1 (m s).2.

Section wp.
Context {S : Type}.

Lemma wp_ret {A} (a : A) (Q : A -> S -> Prop) s : Q a s -> wp (mret a) Q s.
Proof. done. Qed.
Lemma wp_bind {A B} (m : ST S A) (k : A -> ST S B) Q s :
  wp m (fun a => wp (k a) Q) s -> wp (m ≫= k) Q s.
Proof. unfold wp, mbind, ST_bind, ST in *. intros HQ. by destruct (m s). Qed.
Lemma wp_bind_inv {A B} (m : ST S A) (k : A -> ST S B) Q s :
  wp (m ≫= k) Q s -> wp m (fun a => wp (k a) Q) s.
Proof. unfold wp, mbind, ST_bind, ST in *. intros HQ. by destruct (m s). Qed.
Lemma wp_gets {A} (f : S -> A) Q s : Q (f s) s -> wp (gets f) Q s.
Proof. done. Qed.
Lemma wp_modify (f : S -> S) Q s : Q tt (f s) -> wp (modify f) Q s.
Proof. done. Qed.
Lemma wp_mono {A} (m : ST S A) (P Q : A -> S -> Prop) s :
  wp m P s -> (forall a s', P a s' -> Q a s') -> wp m Q s.
Proof. unfold wp. auto. Qed.
Lemma wp_and {A} (m : ST S A) (P Q : A -> S -> Prop) s :
  wp m P s -> wp m Q s -> wp m (fun a s' => P a s' /\ Q a s') s.
Proof. done. Qed.
Lemma wp_run {A} (m : ST S A) (Q : A -> S -> Prop) s a s' :
  wp m Q s -> m s = (a, s') -> Q a s'.
Proof. unfold wp. intros HQ E. by rewrite E in HQ. Qed.
End wp.

(** One step of symbolic execution of a stateful computation. *)
Ltac wp_step :=
  lazymatch goal with
  | |- wp (mbind _ _) _ _ => apply wp_bind
  | |- wp (mret _) _ _ => apply wp_ret
  | |- wp (gets _) _ _ => apply wp_gets
  | |- wp (modify _) _ _ => apply wp_modify
  | |- wp (if ?b then _ else _) _ _ => destruct b eqn:?
  | |- wp (match ?x with _ => _ end) _ _ => destruct x eqn:?
  end.
Ltac wp_steps := repeat (wp_step; cbv beta).

(** A computation whose steps all relate the state before to the state after:
    the frame conditions of the datapath are stated so. *)
Definition keeps {S A} (R : relation S) (m : ST S A) : Prop := forall s, R s (m s).2.

Section keeps.
Context {S : Type} (R : relation S) `{!PreOrder R}.

Lemma keeps_ret {A} (a : A) : keeps R (mret a).
Proof. intros s. apply reflexivity. Qed.
Lemma keeps_gets {A} (f : S -> A) : keeps R (gets f).
Proof. intros s. apply reflexivity. Qed.
Lemma keeps_bind {A B} (m : ST S A) (k : A -> ST S B) :
  keeps R m -> (forall a, keeps R (k a)) -> keeps R (m ≫= k).
Proof.
  intros Hm Hk s. unfold mbind, ST_bind. specialize (Hm s).
  destruct (m s) as [a s'] eqn:E. etrans; [exact Hm|apply Hk].
Qed.
Lemma keeps_modify (f : S -> S) : (forall s, R s (f s)) -> keeps R (modify f).
Proof. intros H s. apply H. Qed.
Lemma keeps_wp {A} (m : ST S A) s (Q : A -> S -> Prop) :
  keeps R m -> wp m Q s -> wp m (fun a s' => Q a s' /\ R s s') s.
Proof. intros Hk Hq. split; [exact Hq|apply Hk]. Qed.
End keeps.

Create HintDb keeps.
#[export] Hint Resolve keeps_ret keeps_gets : keeps.

(** Decompose a computation down to its primitive updates. *)
Ltac keeps_tac :=
  repeat first
    [ solve [eauto 2 with keeps]
    | apply keeps_bind; [apply _| |intros ?]
    | match goal with
      | |- keeps _ (if ?b then _ else _) => destruct b
      | |- keeps _ (match ?x with _ => _ end) => destruct x
      | |- keeps _ (let '(_, _) := ?x in _) => destruct x
      end ].

(** ** Lists *)

(** A filter that nothing passes. *)
Lemma filter_none {A} (P : A -> Prop) `{!forall x, Decision (P x)} (l : list A) : (forall x, x ∈ l -> ~ P x) -> filter P l = [].
Proof.
  induction l as [|x l IH]; intros Hn; [done|]. rewrite filter_cons_False by (apply Hn; left). apply IH. intros y Hy. apply Hn. by right.
Qed.

Lemma NoDup_map_filter {A B} (f : A -> B) (P : A -> Prop) `{forall x, Decision (P x)} (l : list A) :
  NoDup (map f l) -> NoDup (map f (filter P l)).
Proof.
  induction l as [|a l IH]; [done|]. cbn [map]. rewrite NoDup_cons. intros [Hn Hl].
  rewrite filter_cons. destruct (decide (P a)); [|auto]. cbn [map].
  apply NoDup_cons. split; [|auto]. intros (x & E & Hx)%list_elem_of_fmap. apply Hn.
  apply list_elem_of_filter in Hx as [_ Hx]. rewrite E. by apply (list_elem_of_fmap_2 f).
Qed.

(** A key without repetitions determines the element. *)
Lemma NoDup_key {A B} (f : A -> B) (l : list A) x y :
  NoDup (f <$> l) -> x ∈ l -> y ∈ l -> f x = f y -> x = y.
Proof.
  induction l as [|a l IH]; [by intros _ ?%not_elem_of_nil|]. rewrite fmap_cons, NoDup_cons.
  intros [Ha Hl] [->|Hx]%elem_of_cons [->|Hy]%elem_of_cons E; [done| | |by apply IH];
    exfalso; apply Ha; [rewrite E|rewrite <- E]; by apply list_elem_of_fmap_2.
Qed.

(** ** Boolean comparisons *)

(** Turn boolean comparisons of the context and the goal into propositions. *)
Ltac zbool :=
  repeat match goal with
  | H : _ && _ = true |- _ => apply andb_prop in H as [? ?]
  | H : _ || _ = false |- _ => apply orb_false_elim in H as [? ?]
  | H : negb _ = true |- _ => apply negb_true_iff in H
  | H : negb _ = false |- _ => apply negb_false_iff in H
  end;
  rewrite ?Z.eqb_eq, ?Z.eqb_neq, ?Z.ltb_lt, ?Z.ltb_ge, ?Z.leb_le, ?Z.leb_gt in *.

Lemma wrap_small w z : fits w z -> wrap w z = z.
Proof. apply Z.mod_small. Qed.

Lemma wrap_fits w z : 0 <= w -> fits w (wrap w z).
Proof. intros ?. apply Z.mod_pos_bound. by apply Z.pow_pos_nonneg. Qed.

Lemma wadd_small w a b : 0 <= a -> 0 <= b -> a + b < 2 ^ w -> wadd w a b = a + b.
Proof. intros. apply wrap_small. unfold fits. lia. Qed.

Lemma wsub_small w a b : 0 <= b <= a -> a < 2 ^ w -> wsub w a b = a - b.
Proof. intros. apply wrap_small. unfold fits. lia. Qed.

Lemma sat_sub_nonneg a b : 0 <= sat_sub a b.
Proof. unfold sat_sub. lia. Qed.

Lemma sat_sub_le a b : 0 <= a -> 0 <= b -> sat_sub a b <= a.
Proof. unfold sat_sub. lia. Qed.

Lemma sat_mul_le w a b : sat_mul w a b <= a * b.
Proof. unfold sat_mul. lia. Qed.

(** Bit-mask lemmas: a flag set in one operand stays set in an OR. *)
Lemma has_flag_lor_l a b m :
  0 <= a -> 0 <= b -> 0 <= m -> has_flag a m = true -> has_flag (Z.lor a b) m = true.
Proof.
  unfold has_flag. intros Ha Hb Hm H. zbool.
  apply negb_true_iff, Z.eqb_neq. intros E. apply H.
  rewrite Z.land_lor_distr_l in E. by apply Z.lor_eq_0_iff in E as [? _].
Qed.

Lemma has_flag_lor_r a b m :
  0 <= a -> 0 <= b -> 0 <= m -> has_flag b m = true -> has_flag (Z.lor a b) m = true.
Proof. intros. rewrite Z.lor_comm. by apply has_flag_lor_l. Qed.

Lemma has_flag_lor a b m :
  has_flag (Z.lor a b) m = has_flag a m || has_flag b m.
Proof.
  unfold has_flag. rewrite Z.land_lor_distr_l.
  destruct (Z.eqb_spec (Z.lor (Z.land a m) (Z.land b m)) 0) as [E|E].
  - apply Z.lor_eq_0_iff in E as [-> ->]. done.
  - destruct (Z.eqb_spec (Z.land a m) 0), (Z.eqb_spec (Z.land b m) 0); try done.
    by rewrite e, e0 in E.
Qed.

Lemma has_flag_0_l m : has_flag 0 m = false.
Proof. unfold has_flag. by rewrite Z.land_0_l. Qed.

(** The bits above an integer's width, and its complement in that width. *)
Lemma testbit_high w x n : fits w x -> 0 <= w <= n -> Z.testbit x n = false.
Proof.
  unfold fits. intros Hx Hn. destruct (Z.eq_dec x 0) as [->|]; [apply Z.bits_0|].
  apply Z.bits_above_log2; [lia|]. apply Z.log2_lt_pow2; [lia|].
  eapply Z.lt_le_trans; [apply Hx|]. apply Z.pow_le_mono_r; lia.
Qed.

Lemma lxor_ones w x : 0 <= w -> fits w x -> Z.lxor x (Z.ones w) = Z.ones w - x.
Proof.
  intros Hw Hx. rewrite <- Z.sub_lor_land.
  assert (Z.lor x (Z.ones w) = Z.ones w) as ->.
  { apply Z.bits_inj'. intros n Hn. rewrite Z.lor_spec.
    destruct (Z.ltb_spec n w); [rewrite Z.ones_spec_low by lia; apply orb_true_r|].
    rewrite (testbit_high w x); [done|done|lia]. }
  rewrite Z.land_ones by done. unfold fits in Hx. by rewrite Z.mod_small.
Qed.

(** Disjoint bits: an OR is a sum. *)
Lemma lor_shiftl_add a b w : 0 <= w -> fits w b -> Z.lor (Z.shiftl a w) b = a * 2 ^ w + b.
Proof.
  intros Hw Hb. rewrite <- Z.shiftl_mul_pow2 by done. rewrite <- Z.add_lor_land.
  replace (Z.land (Z.shiftl a w) b) with 0; [lia|]. symmetry.
  apply Z.bits_inj'. intros n Hn. rewrite Z.land_spec, Z.bits_0.
  destruct (Z.ltb_spec n w).
  - by rewrite Z.shiftl_spec_low.
  - rewrite (testbit_high w b); [apply andb_false_r|done|lia].
Qed.

Create HintDb ints.
Create Rewrite HintDb ints.
#[export] Hint Resolve wrap_fits sat_sub_nonneg sat_sub_le : ints.
#[export] Hint Rewrite has_flag_lor has_flag_0_l : ints.
