(* ===== verification/FwCommon.v ===== *)
(** * Types shared by the eBPF programs and the firewall daemon
    ([lnvps_fw/lnvps_fw_common/src/lib.rs]). *)

From S2P Require Import Prelude.

(** An IP address is the list of its header bytes: four of them for IPv4,
    sixteen for IPv6.  Ports and other multi-byte header fields are byte lists
    where the code keeps them raw, and numbers where it decodes them. *)
Abbreviation Addr := (list Z).

Definition PROTO_ICMP : Z := 1.
Definition PROTO_TCP : Z := 6.
Definition PROTO_GRE : Z := 47.
Definition PROTO_UDP : Z := 17.
Definition PROTO_ICMPV6 : Z := 58.

Definition DEST_MODE_NORMAL : Z := 0.
Definition DEST_MODE_PORT_FILTER : Z := Z.shiftl 1 0.
Definition DEST_MODE_SYN_PROXY : Z := Z.shiftl 1 1.
Definition DEST_MODE_RATE_CAPS : Z := Z.shiftl 1 2.
Definition DEST_MODE_SOURCE_BLOCK : Z := Z.shiftl 1 3.

Record DestCounters := {
  packets : Z;
  bytes : Z;
  syn_packets : Z;
  tcp_packets : Z;
  udp_packets : Z;
  icmp_packets : Z;
  dropped : Z }.

(** [DestCounters::default()] *)
Definition DestCounters_default : DestCounters :=
  {| packets := 0; bytes := 0; syn_packets := 0; tcp_packets := 0;
     udp_packets := 0; icmp_packets := 0; dropped := 0 |}.

Record SrcState := {
  window_start_ns : Z;
  count : Z;
  blocked_until_ns : Z }.

Record SrcRateConfig := {
  max_per_window : Z;
  window_ns : Z;
  cooldown_ns : Z }.

Record GlobalConfig := {
  src_rate : SrcRateConfig;
  verified_ttl_ns : Z;
  scoped_flag : Z;
  manual_blocks : Z;
  learn_leak_pps : Z }.

Record DestState := {
  ds_mode : Z;
  ds_entered_at : Z }.

(** ** SYN cookies *)

Definition mix64 (h b : Z) : Z := wmul 64 (Z.lxor h b) 0x00000100000001b3.

Definition finalize32 (h : Z) : Z :=
  let h := Z.lxor h (Z.shiftr h 33) in
  let h := wmul 64 h 0xff51afd7ed558ccd in
  let h := Z.lxor h (Z.shiftr h 33) in
  let h := wmul 64 h 0xc4ceb9fe1a85ec53 in
  let h := Z.lxor h (Z.shiftr h 33) in
  wrap 32 (Z.lxor h (Z.shiftr h 32)).

(** The body both cookie functions share: absorb the four header fields byte by
    byte, re-bind the key, finalize. *)
Definition cookie_of (secret : Z) (fields : list (list Z)) : Z :=
  let h := Z.lxor 0xcbf29ce484222325 secret in
  let h := fold_left (fun h f => fold_left mix64 f h) fields h in
  finalize32 (Z.lxor h secret).

Definition syn_cookie_v4 (secret : Z) (saddr daddr : Addr) (sport dport : list Z) : Z :=
  cookie_of secret [saddr; daddr; sport; dport].

Definition syn_cookie_v6 (secret : Z) (saddr daddr : Addr) (sport dport : list Z) : Z :=
  cookie_of secret [saddr; daddr; sport; dport].

Definition COOKIE_SECRET_CURRENT : nat := 0.
Definition COOKIE_SECRET_PREVIOUS : nat := 1.
Definition SLOT_SYN_PROXY_V4 : Z := 0.
Definition SLOT_SYN_PROXY_V6 : Z := 1.

Record LastSeen := { last_seen : Z }.

(** [PortKeyV4] and [PortKeyV6]: the padding byte is always zero, and the
    address bytes tell the families apart. *)
Record PortKey := {
  pk_addr : Addr;
  pk_port : Z;
  pk_proto : Z }.

(** [PortKeyV4::new], [PortKeyV6::new] *)
Definition PortKey_new (addr : Addr) (port proto : Z) : PortKey :=
  {| pk_addr := addr; pk_port := port; pk_proto := proto |}.

(** ** Decidable equality *)

#[export] Instance DestCounters_eq_dec : EqDecision DestCounters.
Proof. solve_decision. Defined.
#[export] Instance SrcState_eq_dec : EqDecision SrcState.
Proof. solve_decision. Defined.
#[export] Instance DestState_eq_dec : EqDecision DestState.
Proof. solve_decision. Defined.
#[export] Instance PortKey_eq_dec : EqDecision PortKey.
Proof. solve_decision. Defined.
#[export] Instance PortKey_countable : Countable PortKey.
Proof.
  refine (inj_countable' (fun k => (pk_addr k, pk_port k, pk_proto k))
            (fun '(a, p, q) => PortKey_new a p q) _).
  by intros [].
Defined.

(** ** Lemmas on cookies *)

Lemma finalize32_fits h : fits 32 (finalize32 h).
Proof. apply wrap_fits. lia. Qed.

Lemma cookie_fits secret fields : fits 32 (cookie_of secret fields).
Proof. apply finalize32_fits. Qed.

#[export] Hint Resolve finalize32_fits cookie_fits : ints.
