(* ===== verification/FwCidr.v ===== *)
(** * CIDR masks ([lnvps_fw/lnvps_fw_service/src/cidr.rs]): the network part of
    an address, for prefix lengths that need not be byte-aligned. *)

From S2P Require Import Prelude FwCommon.

Record CidrV4 := { prefix_len4 : Z; network4 : Addr }.
Record CidrV6 := { prefix_len6 : Z; network6 : Addr }.

Definition DEFAULT_AGG_MAX_PREFIX_V4 : Z := 24.
Definition DEFAULT_AGG_MAX_PREFIX_V6 : Z := 48.

(** The byte [mask_bytes] writes at index [i]. *)
Definition mask_byte (prefix : Z) (i : nat) (b : Z) : Z :=
  let bit_start := Z.of_nat i * 8 in
  if bit_start + 8 <=? prefix then b
  else if bit_start <? prefix then
    let keep := prefix - bit_start in
    Z.land b (wrap 8 (Z.shiftl 255 (8 - keep)))
  else 0.

Definition mask_bytes (addr : Addr) (prefix : Z) : Addr :=
  imap (mask_byte prefix) addr.

Definition mask_v4 (addr : Addr) (prefix : Z) : Addr := mask_bytes addr (Z.min prefix 32).
Definition mask_v6 (addr : Addr) (prefix : Z) : Addr := mask_bytes addr (Z.min prefix 128).

(** ** What masking does, bit by bit

    Bit [j] of an address counts from the most significant bit of its first
    byte, as prefix lengths do. *)
Definition addr_bit (a : Addr) (j : Z) : bool :=
  Z.testbit (nth (Z.to_nat (j / 8)) a 0) (7 - j mod 8).

Lemma mask_bytes_length a p : length (mask_bytes a p) = length a.
Proof. apply length_imap. Qed.

Lemma mask_bytes_nth a p i :
  nth i (mask_bytes a p) 0 = if decide (i < length a)%nat then mask_byte p i (nth i a 0) else 0.
Proof.
  unfold mask_bytes. case_decide as Hi.
  - destruct (lookup_lt_is_Some_2 _ _ Hi) as [b Hb].
    rewrite (nth_lookup_Some (imap _ a) i 0 (mask_byte p i b)).
    + by rewrite (nth_lookup_Some a i 0 b).
    + rewrite list_lookup_imap, Hb. done.
  - rewrite nth_overflow; [done|]. rewrite length_imap. lia.
Qed.

(** A partial byte keeps its [keep] leading bits. *)
Lemma keep_bits keep k :
  1 <= keep <= 7 -> 0 <= k < 8 ->
  Z.testbit (wrap 8 (Z.shiftl 255 (8 - keep))) k = (8 - keep <=? k).
Proof.
  intros. unfold wrap. rewrite Z.mod_pow2_bits_low by lia.
  rewrite Z.shiftl_spec by lia. replace 255 with (Z.ones 8) by done.
  destruct (Z.leb_spec (8 - keep) k).
  - rewrite Z.ones_spec_low; [done|lia].
  - rewrite Z.testbit_neg_r; [done|lia].
Qed.

Lemma mask_byte_bit p i b k :
  0 <= k < 8 ->
  Z.testbit (mask_byte p i b) k = (Z.of_nat i * 8 + (7 - k) <? p) && Z.testbit b k.
Proof.
  intros Hk. unfold mask_byte.
  destruct (Z.leb_spec (Z.of_nat i * 8 + 8) p).
  - destruct (Z.ltb_spec (Z.of_nat i * 8 + (7 - k)) p); [done|lia].
  - destruct (Z.ltb_spec (Z.of_nat i * 8) p).
    + rewrite Z.land_spec, keep_bits by lia.
      rewrite andb_comm. f_equal.
      destruct (Z.leb_spec (8 - (p - Z.of_nat i * 8)) k),
        (Z.ltb_spec (Z.of_nat i * 8 + (7 - k)) p); lia.
    + rewrite Z.testbit_0_l. destruct (Z.ltb_spec (Z.of_nat i * 8 + (7 - k)) p); [lia|done].
Qed.

Lemma mask_bit a p j :
  0 <= j < 8 * Z.of_nat (length a) ->
  addr_bit (mask_bytes a p) j = (j <? p) && addr_bit a j.
Proof.
  intros Hj. unfold addr_bit. rewrite mask_bytes_nth.
  pose proof (Z.mod_pos_bound j 8 ltac:(lia)).
  pose proof (Z.div_mod j 8 ltac:(lia)).
  assert (0 <= j / 8) by (apply Z.div_pos; lia).
  rewrite decide_True by lia.
  rewrite mask_byte_bit by lia. rewrite Z2Nat.id by lia.
  do 2 f_equal. lia.
Qed.

Lemma mask_byte_full p i b : Z.of_nat i * 8 + 8 <= p -> mask_byte p i b = b.
Proof.
  intros. unfold mask_byte. destruct (Z.leb_spec (Z.of_nat i * 8 + 8) p); [done|lia].
Qed.

Lemma mask_bytes_full a p : Z.of_nat (length a) * 8 <= p -> mask_bytes a p = a.
Proof.
  intros Hp. apply list_eq. intros i. unfold mask_bytes. rewrite list_lookup_imap.
  destruct (a !! i) as [b|] eqn:E; cbn; [|done].
  apply lookup_lt_Some in E. rewrite mask_byte_full; [done|lia].
Qed.

(** Masking twice is masking once: parsed networks are canonical. *)
Lemma mask_bytes_idemp a p : mask_bytes (mask_bytes a p) p = mask_bytes a p.
Proof.
  apply list_eq. intros i. unfold mask_bytes. rewrite !list_lookup_imap.
  destruct (a !! i) as [b|]; cbn; [|done]. f_equal. unfold mask_byte.
  destruct (_ <=? p); [done|]. destruct (_ <? p); [|done].
  by rewrite <- Z.land_assoc, Z.land_diag.
Qed.
