(* ===== verification/FwBpf.v ===== *)
(** * The kernel's BPF maps, as an interface

    The maps of the datapath live in the kernel: the sources only call them
    through [aya].  [BpfKernel] is the set of calls they make and
    [BpfKernelLaws] what the documentation of the map types promises.  Every hash
    map of the source is an LRU map ([maps.rs]): an insert succeeds and may evict
    any other entry, so the laws say nothing that an eviction would break;
    [BpfKernelFull] adds that no eviction happens (a map below its capacity).  A
    trie has a capacity and no eviction: an insert that finds it full fails and
    changes nothing. *)

From S2P Require Import Prelude FwCommon FwCidr.

Class BpfKernel := {
  (** An LRU hash map, shared or per-CPU. *)
  hmap : forall (K : Type) `{Countable K}, Type -> Type;
  hget : forall {K} `{Countable K} {V}, K -> hmap K V -> option V;
  (** [insert]: create or replace an entry. *)
  hput : forall {K} `{Countable K} {V}, K -> V -> hmap K V -> hmap K V;
  (** A store through the pointer [get_ptr_mut] returned. *)
  hset : forall {K} `{Countable K} {V}, K -> V -> hmap K V -> hmap K V;
  hdel : forall {K} `{Countable K} {V}, K -> hmap K V -> hmap K V;
  hentries : forall {K} `{Countable K} {V}, hmap K V -> list (K * V);
  hempty : forall {K} `{Countable K} {V}, hmap K V;
  (** A longest-prefix-match trie, its keys being (prefix length, address). *)
  lpm : Type -> Type;
  lget : forall {V}, Z -> Addr -> lpm V -> option V;
  (** [insert]: create or replace an entry, or fail. *)
  linsert : forall {V}, Z -> Addr -> V -> lpm V -> option (lpm V);
  ldel : forall {V}, Z -> Addr -> lpm V -> lpm V;
  (** The entry stored under exactly this prefix. *)
  lexact : forall {V}, Z -> Addr -> lpm V -> option V;
  lempty : forall {V}, lpm V;
  (** How many entries there is room for. *)
  lfree : forall {V}, lpm V -> Z }.

(** [let _ = trie.insert(..)] *)
Definition lput `{!BpfKernel} {V} (len : Z) (a : Addr) (v : V) (t : lpm V) : lpm V := default t (linsert len a v t).

Class BpfKernelLaws `{BpfKernel} := {
  hget_hput : forall {K} `{Countable K} {V} (k : K) (v : V) m, hget k (hput k v m) = Some v;
  hget_hput_ne : forall {K} `{Countable K} {V} (k k' : K) (v w : V) m,
    k <> k' -> hget k' (hput k v m) = Some w -> hget k' m = Some w;
  hget_hset : forall {K} `{Countable K} {V} (k : K) (v : V) m,
    is_Some (hget k m) -> hget k (hset k v m) = Some v;
  hget_hset_ne : forall {K} `{Countable K} {V} (k k' : K) (v : V) m,
    k <> k' -> hget k' (hset k v m) = hget k' m;
  hget_hdel : forall {K} `{Countable K} {V} (k : K) (m : hmap K V), hget k (hdel k m) = None;
  hget_hdel_ne : forall {K} `{Countable K} {V} (k k' : K) (m : hmap K V),
    k <> k' -> hget k' (hdel k m) = hget k' m;
  hget_hempty : forall {K} `{Countable K} {V} (k : K), hget k (hempty : hmap K V) = None;
  hentries_spec : forall {K} `{Countable K} {V} (k : K) (v : V) m,
    (k, v) ∈ hentries m <-> hget k m = Some v;
  hentries_nodup : forall {K} `{Countable K} {V} (m : hmap K V), NoDup (hentries m).*1;
  lexact_linsert : forall {V} len a (v : V) t t', linsert len a v t = Some t' -> lexact len a t' = Some v;
  lexact_ldel : forall {V} len a (t : lpm V), lexact len a (ldel len a t) = None;
  lexact_linsert_ne : forall {V} len a b (v : V) t t',
    mask_bytes a len <> mask_bytes b len -> linsert len a v t = Some t' -> lexact len b t' = lexact len b t;
  lexact_ldel_ne : forall {V} len a b (t : lpm V),
    mask_bytes a len <> mask_bytes b len -> lexact len b (ldel len a t) = lexact len b t;
  lexact_linsert_len : forall {V} len len' a b (v : V) t t',
    len <> len' -> linsert len' a v t = Some t' -> lexact len b t' = lexact len b t;
  lexact_ldel_len : forall {V} len len' a b (t : lpm V),
    len <> len' -> lexact len b (ldel len' a t) = lexact len b t;
  (** The longest stored prefix of at most the key's length wins. *)
  lget_longest : forall {V} len a (t : lpm V), 0 <= len ->
    lget len a t = match lexact len a t with
                   | Some v => Some v
                   | None => if len =? 0 then None else lget (len - 1) a t
                   end;
  lget_lempty : forall {V} len a, lget len a (lempty : lpm V) = None;
  (** An insert succeeds where there is room, and takes at most one place; a removal
      takes none. *)
  linsert_room : forall {V} len a (v : V) t, 0 < lfree t -> is_Some (linsert len a v t);
  lfree_linsert : forall {V} len a (v : V) t t', linsert len a v t = Some t' -> lfree t - 1 <= lfree t';
  lfree_ldel : forall {V} len a (t : lpm V), lfree t <= lfree (ldel len a t) }.

(** No entry is evicted. *)
Class BpfKernelFull `{BpfKernel} := {
  hget_hput_keep : forall {K} `{Countable K} {V} (k k' : K) (v : V) m,
    k <> k' -> hget k' (hput k v m) = hget k' m }.

Section laws.
Context `{!BpfKernel, !BpfKernelLaws}.

(** A full-length entry is the longest match. *)
Lemma lget_full {V} len a (v : V) t :
  0 <= len -> lexact len a t = Some v -> lget len a t = Some v.
Proof. intros Hl E. by rewrite lget_longest, E. Qed.

(** An insert whose failure is ignored. *)
Lemma lexact_lput {V} len a (v : V) t : 0 < lfree t -> lexact len a (lput len a v t) = Some v.
Proof. intros Hf. unfold lput. destruct (linsert_room len a v t Hf) as [t' E]. rewrite E. by eapply lexact_linsert. Qed.
Lemma lexact_lput_ne {V} len a b (v : V) t :
  mask_bytes a len <> mask_bytes b len -> lexact len b (lput len a v t) = lexact len b t.
Proof. intros Hm. unfold lput. destruct (linsert len a v t) as [t'|] eqn:E; [|done]. by eapply lexact_linsert_ne. Qed.
Lemma lexact_lput_len {V} len len' a b (v : V) t : len <> len' -> lexact len b (lput len' a v t) = lexact len b t.
Proof. intros Hl. unfold lput. destruct (linsert len' a v t) as [t'|] eqn:E; [|done]. by eapply lexact_linsert_len. Qed.
Lemma lfree_lput {V} len a (v : V) t : lfree t - 1 <= lfree (lput len a v t).
Proof. unfold lput. destruct (linsert len a v t) as [t'|] eqn:E; cbn; [by eapply lfree_linsert|lia]. Qed.

(** Removing several keys. *)
Lemma hget_hdel_list {K} `{Countable K} {V} (ks : list K) (m : hmap K V) k :
  hget k (foldl (fun m k => hdel k m) m ks) = if decide (k ∈ ks) then None else hget k m.
Proof.
  revert m; induction ks as [|k' ks IH]; intros m; cbn [foldl]; [done|].
  rewrite IH. destruct (decide (k ∈ ks)) as [Hk|Hk].
  { rewrite decide_True; [done|]. by apply list_elem_of_further. }
  destruct (decide (k' = k)) as [->|Hne].
  - rewrite decide_True by apply list_elem_of_here. apply hget_hdel.
  - rewrite decide_False; [by apply hget_hdel_ne|].
    rewrite elem_of_cons. by intros [->|].
Qed.

(** Sweeping the entries that satisfy a test removes exactly those. *)
Lemma hget_sweep {K} `{Countable K} {V} (P : K * V -> Prop) `{forall e, Decision (P e)}
    (m : hmap K V) k :
  hget k (foldl (fun m k => hdel k m) m (map fst (filter P (hentries m)))) =
  match hget k m with
  | Some v => if decide (P (k, v)) then None else Some v
  | None => None
  end.
Proof.
  rewrite hget_hdel_list. destruct (decide _) as [Hin|Hn].
  - apply list_elem_of_fmap in Hin as ([k' v] & -> & Hin).
    apply list_elem_of_filter in Hin as [HP Hin]. apply hentries_spec in Hin. cbn.
    by rewrite Hin, decide_True.
  - destruct (hget k m) as [v|] eqn:E; [|done]. destruct (decide (P (k, v))) as [HP|]; [|done].
    destruct Hn. apply (list_elem_of_fmap_2 fst _ (k, v)), list_elem_of_filter.
    split; [done|]. by apply hentries_spec.
Qed.
End laws.

(** ** A reference kernel

    Unbounded hash maps over [gmap]; a trie of [cap] places stores its networks
    masked and looks the prefixes of an address up from the longest to the
    shortest. *)
Module RefKernel.

Definition covers {V} (t : gmap (Z * Addr) V) (len : Z) (a : Addr) : option V :=
  t !! (len, mask_bytes a len).

Fixpoint longest {V} (fuel : nat) (len : Z) (a : Addr) (t : gmap (Z * Addr) V) : option V :=
  match covers t len a with
  | Some v => Some v
  | None => match fuel with O => None | S f => longest f (len - 1) a t end
  end.

Definition kernel_of (cap : Z) : BpfKernel := {|
  hmap K _ _ V := gmap K V;
  hget K _ _ V k m := m !! k;
  hput K _ _ V k v m := <[k := v]> m;
  hset K _ _ V k v m := <[k := v]> m;
  hdel K _ _ V k m := delete k m;
  hentries K _ _ V m := map_to_list m;
  hempty K _ _ V := ∅;
  lpm V := gmap (Z * Addr) V;
  lget V len a t := longest (Z.to_nat len) len a t;
  linsert V len a v t :=
    if Z.of_nat (size t) <? cap then Some (<[(len, mask_bytes a len) := v]> t) else None;
  ldel V len a t := delete (len, mask_bytes a len) t;
  lexact V len a t := t !! (len, mask_bytes a len);
  lempty V := ∅;
  lfree V t := cap - Z.of_nat (size t) |}.

Lemma longest_empty {V} fuel len a : longest fuel len a (∅ : gmap (Z * Addr) V) = None.
Proof.
  revert len; induction fuel as [|f IH]; intros len; cbn; unfold covers;
    rewrite lookup_empty; auto.
Qed.

Lemma kernel_laws cap : @BpfKernelLaws (kernel_of cap).
Proof.
  constructor; cbn; intros.
  - by rewrite lookup_insert_eq.
  - by simplify_map_eq.
  - by rewrite lookup_insert_eq.
  - by rewrite lookup_insert_ne.
  - by rewrite lookup_delete_eq.
  - by rewrite lookup_delete_ne.
  - by rewrite lookup_empty.
  - apply elem_of_map_to_list.
  - apply NoDup_fst_map_to_list.
  - case_match; [|done]. simplify_eq. by rewrite lookup_insert_eq.
  - by rewrite lookup_delete_eq.
  - case_match; [|done]. simplify_eq. rewrite lookup_insert_ne; [done|]. congruence.
  - rewrite lookup_delete_ne; [done|]. congruence.
  - case_match; [|done]. simplify_eq. rewrite lookup_insert_ne; [done|]. congruence.
  - rewrite lookup_delete_ne; [done|]. congruence.
  - destruct (Z.eqb_spec len 0) as [->|Hne]; [done|].
    replace (Z.to_nat len) with (S (Z.to_nat (len - 1))) by lia. done.
  - apply longest_empty.
  - case_match; [by eexists|zbool; lia].
  - case_match; [|done]. simplify_eq. rewrite map_size_insert. case_match; cbn; lia.
  - rewrite map_size_delete. case_match; cbn; lia.
Qed.

(** The capacity of the largest tries of the source. *)
#[export] Instance ref_kernel : BpfKernel := kernel_of 65536.
#[export] Instance ref_kernel_laws : BpfKernelLaws := kernel_laws 65536.
#[export] Instance ref_kernel_full : BpfKernelFull.
Proof. constructor; cbn; intros. by rewrite lookup_insert_ne. Qed.

End RefKernel.
