(* ===== verification/FwMaps.v ===== *)
(** * The datapath's maps and the gates over them
    ([lnvps_fw/lnvps_ebpf/src/maps.rs]).

    Every map the macros generate for the two address families is a field of
    [FamMaps]; a generated function takes the family as its first argument.
    Time comes from [ktime], one reading of the clock per call, as the code
    calls [bpf_ktime_get_ns]. *)

From S2P Require Import Prelude FwCommon FwCidr FwBpf.

Inductive family := V4 | V6.
#[export] Instance family_eq_dec : EqDecision family.
Proof. solve_decision. Defined.

(** The key length in bits of the family's longest-prefix tries. *)
Definition bits (f : family) : Z := match f with V4 => 32 | V6 => 128 end.

Definition MAX_DST_IPS : Z := 16 * 1024.
Definition MAX_OPEN_PORTS : Z := 1024 * 1024.
Definition MAX_SRC_IPS : Z := 256 * 1024.
Definition MAX_CIDR_BLOCKS : Z := 64 * 1024.
Definition MAX_LEAK_PROBES : Z := 256 * 1024.

Definition LEARN_GRACE_NS : Z := 3000000000.
Definition LEARN_REPROBE_NS : Z := 30000000000.
Definition PORT_REFRESH_THROTTLE_NS : Z := 1000000000.

Section maps.
Context `{!BpfKernel}.

(** The maps of one address family.  A per-CPU map holds one slot per CPU. *)
Record FamMaps := {
  DEST_COUNTERS : hmap Addr (list DestCounters);
  TX_COUNTERS : hmap Addr (list DestCounters);
  SRC_STATE : hmap Addr SrcState;
  LEARN_LEAK : hmap Addr SrcState;
  LEARN_PROBE : hmap PortKey LastSeen;
  DEST_STATE : lpm DestState;
  OPEN_PORTS : hmap PortKey LastSeen;
  PROTECTED : lpm Z;
  MANUAL_BLOCK : lpm Z;
  VERIFIED : hmap Addr Z }.

(** All the maps: two families, the config array, the cookie secrets, which
    slots of the tail-call table hold a program; and how often the clock has
    been read. *)
Record XState := {
  x_fam : family -> FamMaps;
  GLOBAL_CFG : list GlobalConfig;
  COOKIE_SECRET : list Z;
  SYN_PROXY_JUMP : family -> bool;
  x_reads : nat }.

Abbreviation X := (ST XState).

Definition set_fam (f : family) (m : FamMaps) (s : XState) : XState :=
  {| x_fam := fun g => if decide (f = g) then m else x_fam s g;
     GLOBAL_CFG := GLOBAL_CFG s; COOKIE_SECRET := COOKIE_SECRET s;
     SYN_PROXY_JUMP := SYN_PROXY_JUMP s; x_reads := x_reads s |}.

Definition set_DEST_COUNTERS v (m : FamMaps) : FamMaps :=
  Build_FamMaps v (TX_COUNTERS m) (SRC_STATE m) (LEARN_LEAK m) (LEARN_PROBE m)
    (DEST_STATE m) (OPEN_PORTS m) (PROTECTED m) (MANUAL_BLOCK m) (VERIFIED m).
Definition set_TX_COUNTERS v (m : FamMaps) : FamMaps :=
  Build_FamMaps (DEST_COUNTERS m) v (SRC_STATE m) (LEARN_LEAK m) (LEARN_PROBE m)
    (DEST_STATE m) (OPEN_PORTS m) (PROTECTED m) (MANUAL_BLOCK m) (VERIFIED m).
Definition set_SRC_STATE v (m : FamMaps) : FamMaps :=
  Build_FamMaps (DEST_COUNTERS m) (TX_COUNTERS m) v (LEARN_LEAK m) (LEARN_PROBE m)
    (DEST_STATE m) (OPEN_PORTS m) (PROTECTED m) (MANUAL_BLOCK m) (VERIFIED m).
Definition set_LEARN_LEAK v (m : FamMaps) : FamMaps :=
  Build_FamMaps (DEST_COUNTERS m) (TX_COUNTERS m) (SRC_STATE m) v (LEARN_PROBE m)
    (DEST_STATE m) (OPEN_PORTS m) (PROTECTED m) (MANUAL_BLOCK m) (VERIFIED m).
Definition set_LEARN_PROBE v (m : FamMaps) : FamMaps :=
  Build_FamMaps (DEST_COUNTERS m) (TX_COUNTERS m) (SRC_STATE m) (LEARN_LEAK m) v
    (DEST_STATE m) (OPEN_PORTS m) (PROTECTED m) (MANUAL_BLOCK m) (VERIFIED m).
Definition set_DEST_STATE v (m : FamMaps) : FamMaps :=
  Build_FamMaps (DEST_COUNTERS m) (TX_COUNTERS m) (SRC_STATE m) (LEARN_LEAK m)
    (LEARN_PROBE m) v (OPEN_PORTS m) (PROTECTED m) (MANUAL_BLOCK m) (VERIFIED m).
Definition set_OPEN_PORTS v (m : FamMaps) : FamMaps :=
  Build_FamMaps (DEST_COUNTERS m) (TX_COUNTERS m) (SRC_STATE m) (LEARN_LEAK m)
    (LEARN_PROBE m) (DEST_STATE m) v (PROTECTED m) (MANUAL_BLOCK m) (VERIFIED m).
Definition set_VERIFIED v (m : FamMaps) : FamMaps :=
  Build_FamMaps (DEST_COUNTERS m) (TX_COUNTERS m) (SRC_STATE m) (LEARN_LEAK m)
    (LEARN_PROBE m) (DEST_STATE m) (OPEN_PORTS m) (PROTECTED m) (MANUAL_BLOCK m) v.

(** A map accessor together with its setter. *)
Definition upd_fam (f : family) (g : FamMaps -> FamMaps) : X unit :=
  modify (fun s => set_fam f (g (x_fam s f)) s).
Definition getm {A} (f : family) (g : FamMaps -> A) : X A :=
  gets (fun s => g (x_fam s f)).

(** The clock: [clk i] is what the [i]-th reading returns.  [cpu] is the CPU
    the program runs on, out of [ncpus]. *)
Context (clk : nat -> Z) (cpu ncpus : nat).

Definition ktime : X Z := fun s =>
  (clk (x_reads s),
   {| x_fam := x_fam s; GLOBAL_CFG := GLOBAL_CFG s; COOKIE_SECRET := COOKIE_SECRET s;
      SYN_PROXY_JUMP := SYN_PROXY_JUMP s; x_reads := S (x_reads s) |}).

(** ** Configuration and secrets *)

Definition GlobalConfig_zero : GlobalConfig :=
  {| src_rate := {| max_per_window := 0; window_ns := 0; cooldown_ns := 0 |};
     verified_ttl_ns := 0; scoped_flag := 0; manual_blocks := 0; learn_leak_pps := 0 |}.

Definition global_cfg : X GlobalConfig :=
  gets (fun s => default GlobalConfig_zero (GLOBAL_CFG s !! 0%nat)).

Definition scoped : X bool :=
  cfg ← global_cfg; mret (negb (scoped_flag cfg =? 0)).

Definition cookie_secrets : X (Z * Z) :=
  gets (fun s => (default 0 (COOKIE_SECRET s !! COOKIE_SECRET_CURRENT),
                  default 0 (COOKIE_SECRET s !! COOKIE_SECRET_PREVIOUS))).

(** ** Longest-prefix lookups *)

Definition dest_mode (f : family) (dst : Addr) : X Z :=
  t ← getm f DEST_STATE;
  mret (match lget (bits f) dst t with
        | Some s => ds_mode s
        | None => DEST_MODE_NORMAL
        end).

Definition protected (f : family) (src : Addr) : X bool :=
  t ← getm f PROTECTED; mret (bool_decide (is_Some (lget (bits f) src t))).

Definition manual_blocked (f : family) (src : Addr) : X bool :=
  t ← getm f MANUAL_BLOCK; mret (bool_decide (is_Some (lget (bits f) src t))).

(** ** Per-destination counters

    The pointer the accessor returns designates the current CPU's slot of the
    entry it found or created: it is modelled as the entry's key. *)

Definition counters (f : family) (dst : Addr) : X (option Addr) :=
  m ← getm f DEST_COUNTERS;
  match hget dst m with
  | Some _ => mret (Some dst)
  | None =>
      let zero := DestCounters_default in
      upd_fam f (fun fm => set_DEST_COUNTERS
        (hput dst (replicate ncpus zero) (DEST_COUNTERS fm)) fm);;
      m ← getm f DEST_COUNTERS;
      mret (match hget dst m with Some _ => Some dst | None => None end)
  end.

Definition tx_counters (f : family) (dst : Addr) : X (option Addr) :=
  m ← getm f TX_COUNTERS;
  match hget dst m with
  | Some _ => mret (Some dst)
  | None =>
      let zero := DestCounters_default in
      upd_fam f (fun fm => set_TX_COUNTERS
        (hput dst (replicate ncpus zero) (TX_COUNTERS fm)) fm);;
      m ← getm f TX_COUNTERS;
      mret (match hget dst m with Some _ => Some dst | None => None end)
  end.

(** A read-modify-write of the slot behind a counters pointer. *)
Definition bump (g : DestCounters -> DestCounters) (p : Addr)
    (m : hmap Addr (list DestCounters)) : hmap Addr (list DestCounters) :=
  match hget p m with
  | Some slots => hset p (alter g cpu slots) m
  | None => m
  end.

(** ** The per-source rate gate *)

Definition src_gate (f : family) (src : Addr) (cfg : SrcRateConfig) (enforce : bool)
    : X bool :=
  if (max_per_window cfg =? 0) || (window_ns cfg =? 0) then mret false
  else
    now ← ktime;
    m ← getm f SRC_STATE;
    match hget src m with
    | Some st =>
        let '(start, cnt) :=
          if window_ns cfg <=? wsub 64 now (window_start_ns st)
          then (now, 0) else (window_start_ns st, count st) in
        let cnt := wadd 64 cnt 1 in
        let blocked :=
          if enforce && (max_per_window cfg <? cnt)
          then wadd 64 now (cooldown_ns cfg) else blocked_until_ns st in
        let st' := {| window_start_ns := start; count := cnt;
                      blocked_until_ns := blocked |} in
        upd_fam f (fun fm => set_SRC_STATE (hset src st' (SRC_STATE fm)) fm);;
        mret (enforce && (now <? blocked))
    | None =>
        let st := {| window_start_ns := now; count := 1; blocked_until_ns := 0 |} in
        upd_fam f (fun fm => set_SRC_STATE (hput src st (SRC_STATE fm)) fm);;
        mret false
    end.

(** ** The learning leak *)

Definition learn_budget (f : family) (dst : Addr) (budget : Z) : X bool :=
  if budget =? 0 then mret false
  else
    now ← ktime;
    m ← getm f LEARN_LEAK;
    match hget dst m with
    | Some b =>
        let '(start, cnt) :=
          if 1000000000 <=? wsub 64 now (window_start_ns b)
          then (now, 0) else (window_start_ns b, count b) in
        let store cnt :=
          upd_fam f (fun fm => set_LEARN_LEAK
            (hset dst {| window_start_ns := start; count := cnt;
                         blocked_until_ns := blocked_until_ns b |} (LEARN_LEAK fm)) fm) in
        if budget <=? cnt then store cnt;; mret false
        else store (wadd 64 cnt 1);; mret true
    | None =>
        let b := {| window_start_ns := now; count := 1; blocked_until_ns := 0 |} in
        upd_fam f (fun fm => set_LEARN_LEAK (hput dst b (LEARN_LEAK fm)) fm);;
        mret true
    end.

(** Where a probe cycle stands: [None] when the packet is suppressed, else
    whether it opens a new cycle. *)
Definition probe_phase (now : Z) (st : option LastSeen) : option bool :=
  match st with
  | Some st =>
      let elapsed := wsub 64 now (last_seen st) in
      if elapsed <? LEARN_GRACE_NS then Some false
      else if elapsed <? LEARN_REPROBE_NS then None else Some true
  | None => Some true
  end.

Definition learn_leak (f : family) (dst : Addr) (port proto budget : Z) : X bool :=
  if budget =? 0 then mret false
  else
    now ← ktime;
    let pk := PortKey_new dst port proto in
    m ← getm f LEARN_PROBE;
    match probe_phase now (hget pk m) with
    | None => mret false
    | Some new_cycle =>
        ok ← learn_budget f dst budget;
        if negb ok then mret false
        else
          (if (new_cycle : bool)
           then upd_fam f (fun fm => set_LEARN_PROBE
                  (hput pk {| last_seen := now |} (LEARN_PROBE fm)) fm)
           else mret tt);;
          mret true
    end.

(** ** Learned open ports *)

Definition learn_port (f : family) (key : PortKey) : X unit :=
  now ← ktime;
  m ← getm f OPEN_PORTS;
  match hget key m with
  | Some _ =>
      upd_fam f (fun fm => set_OPEN_PORTS
        (hset key {| last_seen := now |} (OPEN_PORTS fm)) fm)
  | None =>
      upd_fam f (fun fm => set_OPEN_PORTS
        (hput key {| last_seen := now |} (OPEN_PORTS fm)) fm)
  end.

Definition port_is_open (f : family) (addr : Addr) (port proto : Z) : X bool :=
  m ← getm f OPEN_PORTS;
  mret (bool_decide (is_Some (hget (PortKey_new addr port proto) m))).

Definition port_open_refresh (f : family) (addr : Addr) (port proto : Z) : X bool :=
  let key := PortKey_new addr port proto in
  m ← getm f OPEN_PORTS;
  match hget key m with
  | Some v =>
      now ← ktime;
      (if PORT_REFRESH_THROTTLE_NS <? wsub 64 now (last_seen v)
       then upd_fam f (fun fm => set_OPEN_PORTS
              (hset key {| last_seen := now |} (OPEN_PORTS fm)) fm)
       else mret tt);;
      mret true
  | None => mret false
  end.

(** ** Verified sources *)

Definition src_verified (f : family) (src : Addr) (ttl_ns : Z) : X bool :=
  m ← getm f VERIFIED;
  match hget src m with
  | Some ts =>
      if ttl_ns =? 0 then mret true
      else now ← ktime; mret (wsub 64 now ts <? ttl_ns)
  | None => mret false
  end.

Definition mark_verified (f : family) (src : Addr) : X unit :=
  now ← ktime;
  upd_fam f (fun fm => set_VERIFIED (hput src now (VERIFIED fm)) fm).

(** ** The functions each macro invocation declares *)
Definition dest_mode_v4 := dest_mode V4.
Definition dest_mode_v6 := dest_mode V6.
Definition counters_v4 := counters V4.
Definition counters_v6 := counters V6.
Definition tx_counters_v4 := tx_counters V4.
Definition tx_counters_v6 := tx_counters V6.
Definition src_gate_v4 := src_gate V4.
Definition src_gate_v6 := src_gate V6.
Definition learn_budget_v4 := learn_budget V4.
Definition learn_budget_v6 := learn_budget V6.
Definition learn_leak_v4 := learn_leak V4.
Definition learn_leak_v6 := learn_leak V6.
Definition learn_port_v4 := learn_port V4.
Definition learn_port_v6 := learn_port V6.
Definition port_is_open_v4 := port_is_open V4.
Definition port_is_open_v6 := port_is_open V6.
Definition port_open_refresh_v4 := port_open_refresh V4.
Definition port_open_refresh_v6 := port_open_refresh V6.
Definition protected_v4 := protected V4.
Definition protected_v6 := protected V6.
Definition manual_blocked_v4 := manual_blocked V4.
Definition manual_blocked_v6 := manual_blocked V6.
Definition src_verified_v4 := src_verified V4.
Definition src_verified_v6 := src_verified V6.
Definition mark_verified_v4 := mark_verified V4.
Definition mark_verified_v6 := mark_verified V6.
End maps.

Create HintDb fw.
#[export] Hint Unfold dest_mode_v4 dest_mode_v6 counters_v4 counters_v6 tx_counters_v4
  tx_counters_v6 src_gate_v4 src_gate_v6 learn_budget_v4 learn_budget_v6 learn_leak_v4
  learn_leak_v6 learn_port_v4 learn_port_v6 port_is_open_v4 port_is_open_v6
  port_open_refresh_v4 port_open_refresh_v6 protected_v4 protected_v6 manual_blocked_v4
  manual_blocked_v6 src_verified_v4 src_verified_v6 mark_verified_v4 mark_verified_v6 : fw.

(** ** Frames

    A relation on one family's maps, lifted to the state: the other components
    are equal. *)
Section frames.
Context `{!BpfKernel}.

Definition lift_rel (R : relation FamMaps) : relation XState := fun s s' =>
  (forall f, R (x_fam s f) (x_fam s' f)) /\
  GLOBAL_CFG s' = GLOBAL_CFG s /\ COOKIE_SECRET s' = COOKIE_SECRET s /\
  SYN_PROXY_JUMP s' = SYN_PROXY_JUMP s.

#[export] Instance lift_rel_preorder R : PreOrder R -> PreOrder (lift_rel R).
Proof.
  intros HR. split.
  - intros s. split; [intros f; apply reflexivity|done].
  - intros s1 s2 s3 (Ha & E1 & E2 & E3) (Hb & E4 & E5 & E6).
    split; [|by rewrite E4, E5, E6]. intros f. etrans; [apply Ha|apply Hb].
Qed.

Lemma lift_upd_fam R f g :
  PreOrder R -> (forall fm, R fm (g fm)) -> keeps (lift_rel R) (upd_fam f g).
Proof.
  intros HR Hg. apply keeps_modify. intros s. split; [|done].
  intros h. cbn. case_decide; [subst; apply Hg|apply reflexivity].
Qed.

Lemma lift_ktime R clk : PreOrder R -> keeps (lift_rel R) (ktime clk).
Proof. intros HR s. split; [intros f; cbn; apply reflexivity|done]. Qed.

Lemma lift_getm R {A} f (g : FamMaps -> A) : PreOrder R -> keeps (lift_rel R) (getm f g).
Proof. intros HR. apply keeps_gets, _. Qed.

(** The maps only userspace writes. *)
Definition policy_eq : relation FamMaps := fun m m' =>
  DEST_STATE m' = DEST_STATE m /\ PROTECTED m' = PROTECTED m /\
  MANUAL_BLOCK m' = MANUAL_BLOCK m.
#[export] Instance policy_eq_preorder : PreOrder policy_eq.
Proof. split; [done|]. intros ??? (?&?&?) (?&?&?). split_and!; etrans; eauto. Qed.

(** Ingress frame: the policy, the verified sources and the set of learned
    ports are as before. *)
Definition same_ports : relation FamMaps := fun m m' =>
  forall k, is_Some (hget k (OPEN_PORTS m')) <-> is_Some (hget k (OPEN_PORTS m)).
Definition ingress_frame : relation FamMaps := fun m m' =>
  policy_eq m m' /\ VERIFIED m' = VERIFIED m /\ same_ports m m' /\
  TX_COUNTERS m' = TX_COUNTERS m.
#[export] Instance ingress_frame_preorder : PreOrder ingress_frame.
Proof.
  split.
  - intros m. by split_and!.
  - intros ??? (?&E1&Ha&?) (?&E2&Hb&?). split_and!; try (by etrans; eauto).
    intros k. etrans; [apply Hb|apply Ha].
Qed.

(** The counters of destinations are as before. *)
Definition same_counters : relation FamMaps := fun m m' =>
  DEST_COUNTERS m' = DEST_COUNTERS m.
#[export] Instance same_counters_preorder : PreOrder same_counters.
Proof. split; [done|]. intros ??? E1 E2. red. by rewrite E2. Qed.

End frames.

#[export] Hint Extern 1 (keeps (lift_rel _) (ktime _)) =>
  apply lift_ktime; apply _ : keeps.
#[export] Hint Extern 1 (keeps (lift_rel _) (getm _ _)) =>
  apply lift_getm; apply _ : keeps.
#[export] Hint Extern 1 (keeps (lift_rel _) (gets _)) =>
  apply keeps_gets; apply _ : keeps.
#[export] Hint Extern 1 (keeps (lift_rel _) (mret _)) =>
  apply keeps_ret; apply _ : keeps.
#[export] Hint Extern 2 (keeps (lift_rel ?R) (upd_fam _ _)) =>
  apply lift_upd_fam; [apply _|intros ?; try done] : keeps.

Section gate_frames.
Context `{!BpfKernel, !BpfKernelLaws} (clk : nat -> Z) (cpu ncpus : nat).

Lemma same_ports_hset (m : FamMaps) k v :
  is_Some (hget k (OPEN_PORTS m)) ->
  same_ports m (set_OPEN_PORTS (hset k v (OPEN_PORTS m)) m).
Proof.
  intros Hk k'. cbn. destruct (decide (k = k')) as [->|Hne].
  - rewrite hget_hset; [|done]. split; [done|eauto].
  - by rewrite hget_hset_ne.
Qed.

Lemma src_gate_frame f src cfg enforce :
  keeps (lift_rel ingress_frame) (src_gate clk f src cfg enforce).
Proof. unfold src_gate. keeps_tac. Qed.
Lemma src_gate_counters f src cfg enforce :
  keeps (lift_rel same_counters) (src_gate clk f src cfg enforce).
Proof. unfold src_gate. keeps_tac. Qed.

Lemma learn_budget_frame f dst budget :
  keeps (lift_rel ingress_frame) (learn_budget clk f dst budget).
Proof. unfold learn_budget. keeps_tac. Qed.
Lemma learn_budget_counters f dst budget :
  keeps (lift_rel same_counters) (learn_budget clk f dst budget).
Proof. unfold learn_budget. keeps_tac. Qed.
#[local] Hint Resolve learn_budget_frame learn_budget_counters : keeps.

Lemma learn_leak_frame f dst port proto budget :
  keeps (lift_rel ingress_frame) (learn_leak clk f dst port proto budget).
Proof. unfold learn_leak. keeps_tac. Qed.
Lemma learn_leak_counters f dst port proto budget :
  keeps (lift_rel same_counters) (learn_leak clk f dst port proto budget).
Proof. unfold learn_leak. keeps_tac. Qed.

(** Without enforcement the gate only counts. *)
Lemma src_gate_off f src cfg s : (src_gate clk f src cfg false s).1 = false.
Proof.
  unfold src_gate. destruct (_ || _); [done|]. rewrite !bind_run. cbn.
  destruct (hget _ _) as [st|]; [|by rewrite bind_run].
  destruct (window_ns cfg <=? _); by rewrite bind_run.
Qed.

(** What [port_open_refresh] answers, and how it leaves the ports. *)
Lemma port_open_refresh_spec f addr port proto s :
  wp (port_open_refresh clk f addr port proto)
    (fun b s' =>
       b = bool_decide (is_Some (hget (PortKey_new addr port proto) (OPEN_PORTS (x_fam s f)))) /\
       lift_rel ingress_frame s s' /\ lift_rel same_counters s s') s.
Proof.
  unfold port_open_refresh, getm. apply wp_bind, wp_gets. cbv beta.
  destruct (hget _ _) as [v|] eqn:E; [|apply wp_ret].
  - apply wp_bind. red; cbn -[bool_decide]. unfold mbind, ST_bind.
    rewrite bool_decide_true by eauto.
    destruct (_ <? _); cbn; [|by split_and!; [|split; cbn|split; cbn]].
    split_and!; [done|split; [|done]..].
    + intros g. cbn. case_decide; [subst|reflexivity].
      split_and!; try done. apply same_ports_hset; eauto.
    + intros g. cbn. by case_decide; [subst|].
  - rewrite bool_decide_false by (intros [? ?]; congruence). split_and!; reflexivity.
Qed.

Lemma port_open_refresh_frame f addr port proto :
  keeps (lift_rel ingress_frame) (port_open_refresh clk f addr port proto).
Proof. intros s. apply (port_open_refresh_spec f addr port proto s). Qed.
Lemma port_open_refresh_counters f addr port proto :
  keeps (lift_rel same_counters) (port_open_refresh clk f addr port proto).
Proof. intros s. apply (port_open_refresh_spec f addr port proto s). Qed.

Lemma port_is_open_frame R f addr port proto :
  PreOrder R -> keeps (lift_rel R) (port_is_open f addr port proto).
Proof. intros. unfold port_is_open. keeps_tac. Qed.
Lemma src_verified_frame R f src ttl :
  PreOrder R -> keeps (lift_rel R) (src_verified clk f src ttl).
Proof. intros. unfold src_verified. keeps_tac. Qed.
Lemma manual_blocked_frame R f src :
  PreOrder R -> keeps (lift_rel R) (manual_blocked f src).
Proof. intros. unfold manual_blocked. keeps_tac. Qed.
Lemma protected_frame R f src :
  PreOrder R -> keeps (lift_rel R) (protected f src).
Proof. intros. unfold protected. keeps_tac. Qed.
Lemma dest_mode_frame R f dst :
  PreOrder R -> keeps (lift_rel R) (dest_mode f dst).
Proof. intros. unfold dest_mode. keeps_tac. Qed.
Lemma counters_frame f dst : keeps (lift_rel ingress_frame) (counters ncpus f dst).
Proof. unfold counters. keeps_tac. Qed.

(** The current CPU's counters of a destination. *)
Definition slot (f : family) (dst : Addr) (s : XState) : DestCounters :=
  default DestCounters_default
    (hget dst (DEST_COUNTERS (x_fam s f)) ≫= (fun l => l !! cpu)).

(** The entry of [dst] exists and has a slot for every CPU. *)
Definition has_slots (f : family) (dst : Addr) (s : XState) : Prop :=
  exists l, hget dst (DEST_COUNTERS (x_fam s f)) = Some l /\ length l = ncpus.

(** Well-formed counters: every entry has a slot per CPU. *)
Definition slots_wf (m : hmap Addr (list DestCounters)) : Prop :=
  forall dst l, hget dst m = Some l -> length l = ncpus.
Definition counters_wf (s : XState) : Prop :=
  forall f, slots_wf (DEST_COUNTERS (x_fam s f)) /\ slots_wf (TX_COUNTERS (x_fam s f)).
Definition keeps_slots : relation FamMaps := fun m m' =>
  (slots_wf (DEST_COUNTERS m) -> slots_wf (DEST_COUNTERS m')) /\
  (slots_wf (TX_COUNTERS m) -> slots_wf (TX_COUNTERS m')).
#[export] Instance keeps_slots_preorder : PreOrder keeps_slots.
Proof. split; [done|]. intros ??? [? ?] [? ?]. split; auto. Qed.

Lemma slots_wf_bump g p m : slots_wf m -> slots_wf (bump cpu g p m).
Proof.
  intros Hm dst l. unfold bump. destruct (hget p m) as [l0|] eqn:E; [|apply Hm].
  destruct (decide (p = dst)) as [->|Hne].
  - rewrite hget_hset by eauto. intros [= <-]. rewrite length_alter. eauto.
  - rewrite hget_hset_ne by done. apply Hm.
Qed.
Lemma slots_wf_new dst m :
  slots_wf m -> slots_wf (hput dst (replicate ncpus DestCounters_default) m).
Proof.
  intros Hm d l E. destruct (decide (dst = d)) as [->|Hne].
  - rewrite hget_hput in E. simplify_eq. apply length_replicate.
  - eapply Hm, hget_hput_ne; eauto.
Qed.
Lemma counters_wf_lift s s' : lift_rel keeps_slots s s' -> counters_wf s -> counters_wf s'.
Proof. intros [Hr _] Hs f. destruct (Hr f), (Hs f). split; auto. Qed.

Lemma counters_slots f dst : keeps (lift_rel keeps_slots) (counters ncpus f dst).
Proof. unfold counters. keeps_tac. apply lift_upd_fam; [apply _|]. split; cbn; auto using slots_wf_new. Qed.
Lemma tx_counters_slots f dst : keeps (lift_rel keeps_slots) (tx_counters ncpus f dst).
Proof. unfold tx_counters. keeps_tac. apply lift_upd_fam; [apply _|]. split; cbn; auto using slots_wf_new. Qed.
Lemma same_counters_slots {A} (m : ST XState A) :
  keeps (lift_rel same_counters) m -> keeps (lift_rel ingress_frame) m ->
  keeps (lift_rel keeps_slots) m.
Proof.
  intros H1 H2 s. destruct (H1 s) as [Hc ?], (H2 s) as [Hi _]. split; [|done].
  intros f. destruct (Hi f) as (_ & _ & _ & E). split; [by rewrite (Hc f)|by rewrite E].
Qed.

(** Everything but the destination counters. *)
Definition but_counters : relation FamMaps := fun m m' =>
  m' = set_DEST_COUNTERS (DEST_COUNTERS m') m.
#[export] Instance but_counters_preorder : PreOrder but_counters.
Proof.
  split; [by intros []|].
  unfold but_counters. intros x y z Hy Hz. rewrite Hz, Hy. done.
Qed.

Lemma counters_but f dst : keeps (lift_rel but_counters) (counters ncpus f dst).
Proof. unfold counters. keeps_tac. Qed.

(** The accessor always finds or creates the entry, and does not change the
    destination's counters. *)
Lemma counters_spec f dst s :
  counters_wf s -> (cpu < ncpus)%nat ->
  wp (counters ncpus f dst)
    (fun c s' => c = Some dst /\ has_slots f dst s' /\ slot f dst s' = slot f dst s) s.
Proof.
  intros Hwf Hcpu. unfold counters, getm, upd_fam. apply wp_bind, wp_gets. cbv beta.
  destruct (hget dst _) as [l|] eqn:E.
  - apply wp_ret. split_and!; [done| |done]. exists l. split; [done|]. by apply (proj1 (Hwf f) dst).
  - wp_steps; cbn in *; rewrite decide_True in * by done; cbn in *;
      rewrite hget_hput in *; simplify_eq.
    split_and!; [done| |].
    + eexists. cbn. rewrite decide_True by done. cbn. rewrite hget_hput.
      split; [done|]. apply length_replicate.
    + unfold slot. cbn. rewrite decide_True by done. cbn. rewrite hget_hput, E. cbn.
      by rewrite lookup_replicate_2.
Qed.

(** A counter update through the pointer. *)
Lemma bump_spec g f dst s :
  has_slots f dst s -> (cpu < ncpus)%nat ->
  slot f dst (upd_fam f (fun fm => set_DEST_COUNTERS (bump cpu g dst (DEST_COUNTERS fm)) fm) s).2
  = g (slot f dst s).
Proof.
  intros (l & E & Hl) Hcpu. unfold slot, upd_fam, modify, bump. cbn.
  rewrite decide_True by done. cbn. rewrite E, hget_hset by eauto. cbn.
  rewrite list_lookup_alter, decide_True by done.
  destruct (lookup_lt_is_Some_2 l cpu) as [c Hc]; [lia|]. by rewrite Hc.
Qed.

Lemma slot_same f dst s s' :
  lift_rel same_counters s s' -> slot f dst s' = slot f dst s.
Proof. intros [Hc _]. unfold slot. by rewrite (Hc f). Qed.
Lemma has_slots_same f dst s s' :
  lift_rel same_counters s s' -> has_slots f dst s -> has_slots f dst s'.
Proof. intros [Hc _]. unfold has_slots. by rewrite (Hc f). Qed.

End gate_frames.

#[export] Hint Resolve src_gate_frame src_gate_counters learn_budget_frame
  learn_budget_counters learn_leak_frame learn_leak_counters port_open_refresh_frame
  port_open_refresh_counters counters_frame counters_but counters_slots
  tx_counters_slots : keeps.
#[export] Hint Extern 3 (keeps (lift_rel (keeps_slots _)) _) =>
  apply same_counters_slots; [solve [eauto with keeps]|solve [eauto with keeps]] : keeps.
#[export] Hint Extern 2 (keeps (lift_rel _) (port_is_open _ _ _ _)) =>
  apply port_is_open_frame; apply _ : keeps.
#[export] Hint Extern 2 (keeps (lift_rel _) (src_verified _ _ _ _)) =>
  apply src_verified_frame; apply _ : keeps.
#[export] Hint Extern 2 (keeps (lift_rel _) (manual_blocked _ _)) =>
  apply manual_blocked_frame; apply _ : keeps.
#[export] Hint Extern 2 (keeps (lift_rel _) (protected _ _)) =>
  apply protected_frame; apply _ : keeps.
#[export] Hint Extern 2 (keeps (lift_rel _) (dest_mode _ _)) =>
  apply dest_mode_frame; apply _ : keeps.
