(* ===== verification/FwNet.v ===== *)
(** * Packets and headers

    The header structs and their accessors come from the [network-types] crate;
    [NetTypes] is what the datapath uses of it: the sizes of the structs, their
    layout (decoding bytes to a struct and back) and the accessors.  The fields
    are those the sources name; a field no source line names is part of an
    opaque tail.  [WireNet] instantiates the interface with the wire formats of
    Ethernet II, IPv4, IPv6, TCP and UDP. *)

From S2P Require Import Prelude FwCommon.

Inductive EtherType := EtherType_Ipv4 | EtherType_Ipv6 | EtherType_other.

Record EthHdr := { eth_dst_addr : list Z; eth_src_addr : list Z; eth_type : list Z }.

Record Ipv4Hdr := {
  vihl : Z; tos : Z; tot_len : list Z; ip_id : list Z; frags : list Z;
  ttl : Z; proto4 : Z; ip_check : list Z; src_addr4 : Addr; dst_addr4 : Addr }.

Record Ipv6Hdr := {
  vcf : list Z; payload_len : list Z; next_hdr : Z; hop_limit : Z;
  src_addr6 : Addr; dst_addr6 : Addr }.

(** [tcp_b12] and [tcp_b13] are the wire bytes at offsets 12 and 13 (data
    offset and flags), which the SYN proxy writes directly. *)
Record TcpHdr := {
  source : list Z; dest : list Z; seq_no : list Z; ack_seq : list Z;
  tcp_b12 : Z; tcp_b13 : Z;
  window : list Z; tcp_check : list Z; urg_ptr : list Z }.

Record UdpHdr := { udp_src : list Z; udp_dst : list Z; udp_len : list Z; udp_check : list Z }.

(** Well-formed headers: every field has its width in bytes. *)
Definition bytesn (n : nat) (l : list Z) : Prop := length l = n /\ Forall (fits 8) l.

Definition eth_wf (h : EthHdr) : Prop :=
  bytesn 6 (eth_dst_addr h) /\ bytesn 6 (eth_src_addr h) /\ bytesn 2 (eth_type h).
Definition ip4_wf (h : Ipv4Hdr) : Prop :=
  fits 8 (vihl h) /\ fits 8 (tos h) /\ bytesn 2 (tot_len h) /\ bytesn 2 (ip_id h) /\
  bytesn 2 (frags h) /\ fits 8 (ttl h) /\ fits 8 (proto4 h) /\ bytesn 2 (ip_check h) /\
  bytesn 4 (src_addr4 h) /\ bytesn 4 (dst_addr4 h).
Definition ip6_wf (h : Ipv6Hdr) : Prop :=
  bytesn 4 (vcf h) /\ bytesn 2 (payload_len h) /\ fits 8 (next_hdr h) /\
  fits 8 (hop_limit h) /\ bytesn 16 (src_addr6 h) /\ bytesn 16 (dst_addr6 h).
Definition tcp_wf (h : TcpHdr) : Prop :=
  bytesn 2 (source h) /\ bytesn 2 (dest h) /\ bytesn 4 (seq_no h) /\ bytesn 4 (ack_seq h) /\
  fits 8 (tcp_b12 h) /\ fits 8 (tcp_b13 h) /\
  bytesn 2 (window h) /\ bytesn 2 (tcp_check h) /\ bytesn 2 (urg_ptr h).

Class NetTypes := {
  EthHdr_LEN : nat; Ipv4Hdr_LEN : nat; Ipv6Hdr_LEN : nat; TcpHdr_LEN : nat; UdpHdr_LEN : nat;
  eth_of : list Z -> EthHdr; eth_to : EthHdr -> list Z;
  ip4_of : list Z -> Ipv4Hdr; ip4_to : Ipv4Hdr -> list Z;
  ip6_of : list Z -> Ipv6Hdr; ip6_to : Ipv6Hdr -> list Z;
  tcp_of : list Z -> TcpHdr; tcp_to : TcpHdr -> list Z;
  udp_of : list Z -> UdpHdr;
  ether_type : EthHdr -> EtherType;
  ihl : Ipv4Hdr -> Z;
  frag_offset : Ipv4Hdr -> Z;
  tcp_syn : TcpHdr -> Z;
  tcp_ack : TcpHdr -> Z }.

(** Documented layout facts: a struct occupies its length, and decoding what
    was encoded gives the struct back; the flags are bits of byte 13. *)
Class NetTypesLaws `{NetTypes} := {
  eth_to_length : forall h, eth_wf h -> length (eth_to h) = EthHdr_LEN;
  ip4_to_length : forall h, ip4_wf h -> length (ip4_to h) = Ipv4Hdr_LEN;
  ip6_to_length : forall h, ip6_wf h -> length (ip6_to h) = Ipv6Hdr_LEN;
  tcp_to_length : forall h, tcp_wf h -> length (tcp_to h) = TcpHdr_LEN;
  eth_of_to : forall h, eth_wf h -> eth_of (eth_to h) = h;
  ip4_of_to : forall h, ip4_wf h -> ip4_of (ip4_to h) = h;
  ip6_of_to : forall h, ip6_wf h -> ip6_of (ip6_to h) = h;
  tcp_of_to : forall h, tcp_wf h -> tcp_of (tcp_to h) = h;
  eth_of_wf : forall l, bytesn EthHdr_LEN l -> eth_wf (eth_of l);
  ip4_of_wf : forall l, bytesn Ipv4Hdr_LEN l -> ip4_wf (ip4_of l);
  ip6_of_wf : forall l, bytesn Ipv6Hdr_LEN l -> ip6_wf (ip6_of l);
  tcp_of_wf : forall l, bytesn TcpHdr_LEN l -> tcp_wf (tcp_of l);
  eth_of_type : forall h h', eth_type h = eth_type h' -> ether_type h = ether_type h';
  ihl_vihl : forall h h', vihl h = vihl h' -> ihl h = ihl h';
  frag_offset_frags : forall h h', frags h = frags h' -> frag_offset h = frag_offset h';
  tcp_syn_bit : forall h, tcp_syn h <> 0 <-> Z.testbit (tcp_b13 h) 1 = true;
  tcp_ack_bit : forall h, tcp_ack h <> 0 <-> Z.testbit (tcp_b13 h) 4 = true }.

(** The XDP actions the programs return. *)
Inductive Verdict := XDP_DROP | XDP_PASS | XDP_TX.
#[export] Instance Verdict_eq_dec : EqDecision Verdict.
Proof. solve_decision. Defined.

(** Big-endian numbers. *)
Definition from_be_bytes (l : list Z) : Z := fold_left (fun acc b => acc * 256 + b) l 0.

(** An XDP or TC context: the linear head of the packet and the length on the
    wire, fragments included. *)
Record Ctx := { data : list Z; buff_len : Z }.

(** [ptr_at], [ptr_at_mut], [tc_ptr_at]: a bounds-checked view of a struct of
    [size] bytes at [off]. *)
Definition ptr_at {T} (dec : list Z -> T) (size : nat) (ctx : Ctx) (off : nat) : option T :=
  if (length (data ctx) <? off + size)%nat then None
  else Some (dec (take size (drop off (data ctx)))).

(** A store of a struct's bytes at [off]. *)
Definition store_at (off : nat) (bs : list Z) (l : list Z) : list Z :=
  take off l ++ bs ++ drop (off + length bs) l.

(** ** The wire formats *)
Module WireNet.

Definition sub (off n : nat) (l : list Z) : list Z := take n (drop off l).
Definition byte (off : nat) (l : list Z) : Z := nth off l 0.

#[export] Instance wire : NetTypes := {
  EthHdr_LEN := 14; Ipv4Hdr_LEN := 20; Ipv6Hdr_LEN := 40; TcpHdr_LEN := 20; UdpHdr_LEN := 8;
  eth_of l := {| eth_dst_addr := sub 0 6 l; eth_src_addr := sub 6 6 l; eth_type := sub 12 2 l |};
  eth_to h := eth_dst_addr h ++ eth_src_addr h ++ eth_type h;
  ip4_of l := {| vihl := byte 0 l; tos := byte 1 l; tot_len := sub 2 2 l; ip_id := sub 4 2 l;
                 frags := sub 6 2 l; ttl := byte 8 l; proto4 := byte 9 l;
                 ip_check := sub 10 2 l; src_addr4 := sub 12 4 l; dst_addr4 := sub 16 4 l |};
  ip4_to h := [vihl h; tos h] ++ tot_len h ++ ip_id h ++ frags h ++ [ttl h; proto4 h] ++
              ip_check h ++ src_addr4 h ++ dst_addr4 h;
  ip6_of l := {| vcf := sub 0 4 l; payload_len := sub 4 2 l; next_hdr := byte 6 l;
                 hop_limit := byte 7 l; src_addr6 := sub 8 16 l; dst_addr6 := sub 24 16 l |};
  ip6_to h := vcf h ++ payload_len h ++ [next_hdr h; hop_limit h] ++ src_addr6 h ++ dst_addr6 h;
  tcp_of l := {| source := sub 0 2 l; dest := sub 2 2 l; seq_no := sub 4 4 l;
                 ack_seq := sub 8 4 l; tcp_b12 := byte 12 l; tcp_b13 := byte 13 l;
                 window := sub 14 2 l; tcp_check := sub 16 2 l; urg_ptr := sub 18 2 l |};
  tcp_to h := source h ++ dest h ++ seq_no h ++ ack_seq h ++ [tcp_b12 h; tcp_b13 h] ++
              window h ++ tcp_check h ++ urg_ptr h;
  udp_of l := {| udp_src := sub 0 2 l; udp_dst := sub 2 2 l; udp_len := sub 4 2 l;
                 udp_check := sub 6 2 l |};
  ether_type h := match eth_type h with
                  | [8; 0] => EtherType_Ipv4
                  | [134; 221] => EtherType_Ipv6
                  | _ => EtherType_other
                  end;
  ihl h := Z.land (vihl h) 15 * 4;
  frag_offset h := Z.land (from_be_bytes (frags h)) 0x1fff;
  tcp_syn h := Z.land (Z.shiftr (tcp_b13 h) 1) 1;
  tcp_ack h := Z.land (Z.shiftr (tcp_b13 h) 4) 1 }.

(** Spell the lists of known length of the context out. *)
Ltac spell :=
  unfold eth_wf, ip4_wf, ip6_wf, tcp_wf, bytesn in *; cbn in *; destruct_and?;
  repeat match goal with
  | H : length ?l = S _ |- _ => destruct l; [discriminate H|]; cbn in H; injection H as H
  | H : length ?l = O |- _ => destruct l; [clear H|discriminate H]
  end.
Ltac bytes_ok :=
  rewrite ?Forall_cons in *; destruct_and?;
  repeat match goal with |- _ /\ _ => split end; cbn;
  rewrite ?Forall_cons, ?Forall_nil; auto 20.

Lemma flag_bit b n : 0 <= n -> Z.land (Z.shiftr b n) 1 <> 0 <-> Z.testbit b n = true.
Proof.
  intros Hn. change 1 with (Z.ones 1) at 1. rewrite Z.land_ones, Z.shiftr_div_pow2 by lia.
  change (2 ^ 1) with 2. rewrite <- Z.testbit_spec' by lia.
  destruct (Z.testbit b n); cbn; split; intros; lia || done.
Qed.

#[export] Instance wire_laws : NetTypesLaws.
Proof.
  constructor.
  1-4: intros [] ?; cbn in *; spell; reflexivity.
  1-4: intros [] ?; cbn in *; spell; reflexivity.
  1-4: cbn; intros l Hl; spell; bytes_ok.
  - intros h h' E. cbn in *. by rewrite E.
  - intros h h' E. cbn in *. by rewrite E.
  - intros h h' E. cbn in *. by rewrite E.
  - intros h. by apply flag_bit.
  - intros h. by apply flag_bit.
Qed.

End WireNet.

(** ** Lemmas on packet memory *)

Lemma store_at_length off bs l :
  (off + length bs <= length l)%nat -> length (store_at off bs l) = length l.
Proof.
  intros. unfold store_at. rewrite !length_app, length_take, length_drop. lia.
Qed.

Lemma store_at_read off bs l :
  (off + length bs <= length l)%nat ->
  take (length bs) (drop off (store_at off bs l)) = bs.
Proof.
  intros. unfold store_at. rewrite drop_app_ge; rewrite length_take; [|lia].
  replace (off - off `min` length l)%nat with 0%nat by lia.
  rewrite drop_0. by rewrite take_app_length.
Qed.

(** A store leaves a disjoint range alone. *)
Lemma store_at_other off bs l off' n :
  (off + length bs <= length l)%nat ->
  (off' + n <= off \/ off + length bs <= off')%nat ->
  take n (drop off' (store_at off bs l)) = take n (drop off' l).
Proof.
  intros Hl [Hd|Hd]; apply list_eq; intros i; unfold store_at;
    rewrite !lookup_take; case_decide; try done; rewrite !lookup_drop.
  - rewrite lookup_app_l; [|rewrite length_take; lia]. apply lookup_take_lt. lia.
  - rewrite lookup_app_r; rewrite length_take; [|lia].
    rewrite lookup_app_r; [|lia]. rewrite lookup_drop. f_equal. lia.
Qed.
