(* ===== verification/FwDemo.v ===== *)
(** * Concrete inputs

    A small network on the reference kernel and the wire formats: the states
    and packets at which the theorems' witnesses evaluate the datapath. *)

From S2P Require Import Prelude FwCommon FwCidr FwBpf FwMaps FwNet.
Export RefKernel WireNet.

Definition demo_maps : FamMaps :=
  Build_FamMaps hempty hempty hempty hempty hempty lempty hempty lempty lempty hempty.

(** No map holds anything; the cookie secrets are set, both families' SYN-proxy
    programs are loaded. *)
Definition demo_state : XState :=
  {| x_fam := fun _ => demo_maps;
     GLOBAL_CFG := [{| src_rate := {| max_per_window := 2; window_ns := 1000000000;
                                      cooldown_ns := 5000000000 |};
                       verified_ttl_ns := 0; scoped_flag := 0; manual_blocks := 1;
                       learn_leak_pps := 0 |}];
     COOKIE_SECRET := [4660; 22136];
     SYN_PROXY_JUMP := fun _ => true; x_reads := 0 |}.

(** One millisecond between two readings of the clock. *)
Definition demo_clk (i : nat) : Z := 1000000000 + Z.of_nat i * 1000000.
Definition still_clk (i : nat) : Z := 1000000000.

Definition server : Addr := [10; 0; 0; 1].
Definition client : Addr := [192; 0; 2; 7].

Definition eth_frame (ty : list Z) (payload : list Z) : list Z :=
  [2; 0; 0; 0; 0; 1] ++ [2; 0; 0; 0; 0; 2] ++ ty ++ payload.
Definition ipv4_packet (proto : Z) (src dst : Addr) (payload : list Z) : list Z :=
  [69; 0; 0; 40; 0; 1; 0; 0; 64; proto; 0; 0] ++ src ++ dst ++ payload.
(** [flags] is the TCP flag byte: 2 a SYN, 16 an ACK. *)
Definition tcp_segment (sport dport seq ack : list Z) (flags : Z) : list Z :=
  sport ++ dport ++ seq ++ ack ++ [80; flags; 1; 0; 0; 0; 0; 0].
Definition in_ctx (l : list Z) : Ctx := {| data := l; buff_len := Z.of_nat (length l) |}.

Definition syn_to (port : Z) : Ctx :=
  in_ctx (eth_frame [8; 0] (ipv4_packet 6 client server
    (tcp_segment [200; 0] [port / 256; port mod 256] [0; 0; 0; 1] [0; 0; 0; 0] 2))).
(** The server's answer from that port. *)
Definition reply_from (port : Z) : Ctx :=
  in_ctx (eth_frame [8; 0] (ipv4_packet 6 server client
    (tcp_segment [port / 256; port mod 256] [200; 0] [0; 0; 0; 9] [0; 0; 0; 2] 18))).
Definition ping : Ctx :=
  in_ctx (eth_frame [8; 0] (ipv4_packet 1 client server [8; 0; 0; 0])).

(** The server under mitigation, with these flags. *)
Definition under (flags : Z) (s : XState) : XState :=
  set_fam V4 (set_DEST_STATE (lput 32 server {| ds_mode := flags; ds_entered_at := 0 |}
    (DEST_STATE (x_fam s V4))) (x_fam s V4)) s.
(** A port of the server learned at time 0. *)
Definition with_port (port : Z) (s : XState) : XState :=
  set_fam V4 (set_OPEN_PORTS (hput (PortKey_new server port PROTO_TCP) {| last_seen := 0 |}
    (OPEN_PORTS (x_fam s V4))) (x_fam s V4)) s.

Lemma demo_wf : counters_wf 1 demo_state.
Proof. intros []; split; intros ? ?; cbn; by rewrite lookup_empty. Qed.
