(* ===== verification/FwDatapath.v ===== *)
(** * The XDP ingress program and the TC egress learner
    ([lnvps_fw/lnvps_ebpf/src/main.rs]).

    A [Result<_, ()>] is an [option]; a function that touches the maps is a
    state transformer.  [TailCall f] is the tail call into the SYN-proxy program
    of family [f], which replaces the running program. *)

From S2P Require Import Prelude FwCommon FwCidr FwBpf FwMaps FwNet FwDemo.

Definition ETH_P_IP : Z := 0x0800.
Definition ETH_P_IPV6 : Z := 0x86DD.
Definition WG_MSG_HANDSHAKE_INIT : Z := 1.
Definition WG_HANDSHAKE_INIT_UDP_LEN : Z := 156.

Record L4Meta := {
  proto : Z;
  is_syn : bool;
  is_fragment : bool;
  dst_port : Z;
  has_port : bool;
  is_wg_init : bool }.

Definition L4Meta_new (proto : Z) (is_fragment : bool) : L4Meta :=
  {| proto := proto; is_syn := false; is_fragment := is_fragment; dst_port := 0;
     has_port := false; is_wg_init := false |}.

Inductive Outcome :=
| Return (v : Verdict)
| TailCall (f : family).

(** What [mitigate_v4] and [mitigate_v6] end with. *)
Inductive Mitigated :=
| Decided (v : Verdict) (accounted : bool)
| Jumped (f : family).

Definition icmp_of (f : family) : Z := match f with V4 => PROTO_ICMP | V6 => PROTO_ICMPV6 end.

Section datapath.
Context `{!BpfKernel} `{!NetTypes} (clk : nat -> Z) (cpu ncpus : nat).
Abbreviation X := (ST XState).

(** [?] on a [Result<_, ()>] inside a program. *)
Definition try_opt {A B} (o : option A) (k : A -> X (option B)) : X (option B) :=
  match o with Some a => k a | None => mret None end.
Definition try_x {A B} (m : X (option A)) (k : A -> X (option B)) : X (option B) :=
  o ← m; try_opt o k.
(** Short-circuit conjunction. *)
Definition andx (b : bool) (m : X bool) : X bool := if b then m else mret false.
Definition negx (m : X bool) : X bool := b ← m; mret (negb b).

(** ** Ingress *)

Definition fill_l4 (ctx : Ctx) (meta : L4Meta) (l4_off : nat) : option L4Meta :=
  if proto meta =? PROTO_TCP then
    match ptr_at tcp_of TcpHdr_LEN ctx l4_off with
    | None => None
    | Some tcp =>
        Some {| proto := proto meta;
                is_syn := negb (tcp_syn tcp =? 0) && (tcp_ack tcp =? 0);
                is_fragment := is_fragment meta;
                dst_port := from_be_bytes (dest tcp);
                has_port := true;
                is_wg_init := is_wg_init meta |}
    end
  else if proto meta =? PROTO_UDP then
    match ptr_at udp_of UdpHdr_LEN ctx l4_off with
    | None => None
    | Some udp =>
        let wg :=
          (from_be_bytes (udp_len udp) =? WG_HANDSHAKE_INIT_UDP_LEN) &&
          match ptr_at (fun l => nth 0 l 0) 1 ctx (l4_off + UdpHdr_LEN) with
          | Some t => t =? WG_MSG_HANDSHAKE_INIT
          | None => false
          end in
        Some {| proto := proto meta; is_syn := is_syn meta;
                is_fragment := is_fragment meta;
                dst_port := from_be_bytes (udp_dst udp);
                has_port := true;
                is_wg_init := if wg then true else is_wg_init meta |}
    end
  else Some meta.

(** One packet added to a destination's counters. *)
Definition count_packet (len : Z) (meta : L4Meta) (icmp_proto : Z) (verdict : Verdict)
    (c : DestCounters) : DestCounters :=
  let tcp := proto meta =? PROTO_TCP in
  let udp := proto meta =? PROTO_UDP in
  {| packets := wadd 64 (packets c) 1;
     bytes := wadd 64 (bytes c) len;
     syn_packets := if tcp && is_syn meta then wadd 64 (syn_packets c) 1 else syn_packets c;
     tcp_packets := if tcp then wadd 64 (tcp_packets c) 1 else tcp_packets c;
     udp_packets := if negb tcp && udp then wadd 64 (udp_packets c) 1 else udp_packets c;
     icmp_packets := if negb tcp && negb udp && (proto meta =? icmp_proto)
                     then wadd 64 (icmp_packets c) 1 else icmp_packets c;
     dropped := if bool_decide (verdict = XDP_DROP) then wadd 64 (dropped c) 1
                else dropped c |}.

Definition account (f : family) (ctx : Ctx) (counters : option Addr) (meta : L4Meta)
    (icmp_proto : Z) (verdict : Verdict) : X unit :=
  match counters with
  | None => mret tt
  | Some c =>
      upd_fam f (fun fm => set_DEST_COUNTERS
        (bump cpu (count_packet (buff_len ctx) meta icmp_proto verdict) c
           (DEST_COUNTERS fm)) fm)
  end.

(** The body the two [dest_policy] functions share. *)
Definition dest_policy (f : family) (dst : Addr) (meta : L4Meta) (leak_budget : Z)
    : X Verdict :=
  let tcp := proto meta =? PROTO_TCP in
  let udp := proto meta =? PROTO_UDP in
  if tcp || udp then
    open ← andx (has_port meta)
             (port_open_refresh clk f dst (dst_port meta) (proto meta));
    if (open : bool) then mret XDP_PASS
    else
      leak ← andx (tcp && is_syn meta)
               (learn_leak clk f dst (dst_port meta) PROTO_TCP leak_budget);
      if (leak : bool) then mret XDP_PASS
      else
        wg ← andx (udp && is_wg_init meta) (learn_budget clk f dst leak_budget);
        if (wg : bool) then mret XDP_PASS
        else
          leak ← andx udp (learn_leak clk f dst (dst_port meta) PROTO_UDP leak_budget);
          mret (if (leak : bool) then XDP_PASS else XDP_DROP)
  else if proto meta =? icmp_of f then mret XDP_PASS
  else mret XDP_DROP.

Definition dest_policy_v4 := dest_policy V4.
Definition dest_policy_v6 := dest_policy V6.

(** The body the two [mitigate] functions share. *)
Definition mitigate (f : family) (ctx : Ctx) (dst src : Addr) (meta : L4Meta) (flags : Z)
    (allow_syn_proxy : bool) (counters : option Addr) (cfg : GlobalConfig) : X Mitigated :=
  gate ← src_gate clk f src (src_rate cfg) (has_flag flags DEST_MODE_SOURCE_BLOCK);
  if (gate : bool) then mret (Decided XDP_DROP false)
  else
    challenge ← andx (allow_syn_proxy && has_flag flags DEST_MODE_SYN_PROXY &&
                      (proto meta =? PROTO_TCP) && has_port meta)
      (open ← port_is_open f dst (dst_port meta) PROTO_TCP;
       andx open (negx (src_verified clk f src (verified_ttl_ns cfg))));
    if (challenge : bool) then
      account f ctx counters meta (icmp_of f) XDP_DROP;;
      jump ← gets (fun s => SYN_PROXY_JUMP s f);
      mret (if (jump : bool) then Jumped f else Decided XDP_DROP true)
    else if has_flag flags DEST_MODE_PORT_FILTER then
      if is_fragment meta then mret (Decided XDP_DROP false)
      else
        v ← dest_policy f dst meta (learn_leak_pps cfg);
        mret (Decided v false)
    else mret (Decided XDP_PASS false).

Definition mitigate_v4 := mitigate V4.
Definition mitigate_v6 := mitigate V6.

(** From the mitigation decision to the end of the handler: manual source
    blocks, mitigation when the destination has flags, accounting. *)
Definition decide_and_account (f : family) (ctx : Ctx) (dst src : Addr) (meta : L4Meta)
    (allow_syn_proxy : bool) (cfg : GlobalConfig) : X (option Outcome) :=
  c ← counters ncpus f dst;
  blocked ← andx (negb (manual_blocks cfg =? 0)) (manual_blocked f src);
  r ← (if (blocked : bool) then mret (Decided XDP_DROP false)
       else
         flags ← dest_mode f dst;
         if negb (flags =? DEST_MODE_NORMAL)
         then mitigate f ctx dst src meta flags allow_syn_proxy c cfg
         else mret (Decided XDP_PASS false));
  match r with
  | Jumped g => mret (Some (TailCall g))
  | Decided verdict accounted =>
      (if (accounted : bool) then mret tt
       else account f ctx c meta (icmp_of f) verdict);;
      mret (Some (Return verdict))
  end.

Definition handle_ipv4 (ctx : Ctx) (ip_off : nat) (allow_syn_proxy : bool)
    : X (option Outcome) :=
  try_opt (ptr_at ip4_of Ipv4Hdr_LEN ctx ip_off) (fun ip =>
  let dst := dst_addr4 ip in
  cfg ← global_cfg;
  out ← andx (negb (scoped_flag cfg =? 0)) (negx (protected V4 dst));
  if (out : bool) then mret (Some (Return XDP_PASS))
  else
    let is_fragment := negb (frag_offset ip =? 0) in
    let meta := L4Meta_new (proto4 ip) is_fragment in
    try_opt (if negb is_fragment && (ihl ip =? Z.of_nat Ipv4Hdr_LEN)
             then fill_l4 ctx meta (ip_off + Ipv4Hdr_LEN) else Some meta) (fun meta =>
    decide_and_account V4 ctx dst (src_addr4 ip) meta allow_syn_proxy cfg)).

Definition handle_ipv6 (ctx : Ctx) (ip_off : nat) (allow_syn_proxy : bool)
    : X (option Outcome) :=
  try_opt (ptr_at ip6_of Ipv6Hdr_LEN ctx ip_off) (fun ip =>
  let dst := dst_addr6 ip in
  cfg ← global_cfg;
  out ← andx (negb (scoped_flag cfg =? 0)) (negx (protected V6 dst));
  if (out : bool) then mret (Some (Return XDP_PASS))
  else
    try_opt (fill_l4 ctx (L4Meta_new (next_hdr ip) false) (ip_off + Ipv6Hdr_LEN))
      (fun meta => decide_and_account V6 ctx dst (src_addr6 ip) meta allow_syn_proxy cfg)).

(** What the GRE header at [gre_off] says of its payload: the inner protocol
    and where it starts, for a version-0 header without routing. *)
Definition gre_inner (gre : list Z) (gre_off : nat) : option (Z * nat) :=
  let flags0 := nth 0 gre 0 in
  let version := Z.land (nth 1 gre 0) 7 in
  if (version =? 0) && (Z.land flags0 0x40 =? 0) then
    let c := has_flag flags0 0x80 in
    let k := has_flag flags0 0x20 in
    let s := has_flag flags0 0x10 in
    let gre_len := (4 + (if c then 4 else 0) + (if k then 4 else 0) +
                    (if s then 4 else 0))%nat in
    let ptype := Z.lor (Z.shiftl (nth 2 gre 0) 8) (nth 3 gre 0) in
    Some (ptype, gre_off + gre_len)%nat
  else None.

Definition handle_outer_ipv4 (ctx : Ctx) : X (option Outcome) :=
  try_opt (ptr_at ip4_of Ipv4Hdr_LEN ctx EthHdr_LEN) (fun ip =>
  if (proto4 ip =? PROTO_GRE) && (ihl ip =? Z.of_nat Ipv4Hdr_LEN) && (frag_offset ip =? 0)
  then
    let gre_off := (EthHdr_LEN + Ipv4Hdr_LEN)%nat in
    try_opt (ptr_at id 4 ctx gre_off) (fun gre =>
    match gre_inner gre gre_off with
    | Some (ptype, inner_off) =>
        if ptype =? ETH_P_IP then handle_ipv4 ctx inner_off false
        else if ptype =? ETH_P_IPV6 then handle_ipv6 ctx inner_off false
        else handle_ipv4 ctx EthHdr_LEN true
    | None => handle_ipv4 ctx EthHdr_LEN true
    end)
  else handle_ipv4 ctx EthHdr_LEN true).

Definition try_handle (ctx : Ctx) : X (option Outcome) :=
  try_opt (ptr_at eth_of EthHdr_LEN ctx 0) (fun eth =>
  match ether_type eth with
  | EtherType_Ipv4 => handle_outer_ipv4 ctx
  | EtherType_Ipv6 => handle_ipv6 ctx EthHdr_LEN true
  | EtherType_other => mret (Some (Return XDP_PASS))
  end).

(** The main program, up to its tail call. *)
Definition xdp_lnvps (ctx : Ctx) : X Outcome :=
  r ← try_handle ctx;
  mret (match r with Some o => o | None => Return XDP_PASS end).

(** ** Egress *)

Record EgressService := { svc_port : Z; svc_proto : Z }.

Definition egress_service (ctx : Ctx) (proto : Z) (l4_off : nat)
    : option (option EgressService) :=
  if proto =? PROTO_TCP then
    match ptr_at tcp_of TcpHdr_LEN ctx l4_off with
    | Some tcp => Some (Some {| svc_port := from_be_bytes (source tcp);
                                svc_proto := PROTO_TCP |})
    | None => None
    end
  else if proto =? PROTO_UDP then
    match ptr_at udp_of UdpHdr_LEN ctx l4_off with
    | Some udp => Some (Some {| svc_port := from_be_bytes (udp_src udp);
                                svc_proto := PROTO_UDP |})
    | None => None
    end
  else Some None.

Definition tx_count (pkt_len proto icmp_proto : Z) (c : DestCounters) : DestCounters :=
  let tcp := proto =? PROTO_TCP in
  let udp := proto =? PROTO_UDP in
  {| packets := wadd 64 (packets c) 1;
     bytes := wadd 64 (bytes c) pkt_len;
     syn_packets := syn_packets c;
     tcp_packets := if tcp then wadd 64 (tcp_packets c) 1 else tcp_packets c;
     udp_packets := if negb tcp && udp then wadd 64 (udp_packets c) 1 else udp_packets c;
     icmp_packets := if negb tcp && negb udp && (proto =? icmp_proto)
                     then wadd 64 (icmp_packets c) 1 else icmp_packets c;
     dropped := dropped c |}.

Definition tx_account (f : family) (c : Addr) (pkt_len proto icmp_proto : Z) : X unit :=
  upd_fam f (fun fm => set_TX_COUNTERS
    (bump cpu (tx_count pkt_len proto icmp_proto) c (TX_COUNTERS fm)) fm).

Definition learn_ipv4 (ctx : Ctx) : X (option unit) :=
  try_opt (ptr_at ip4_of Ipv4Hdr_LEN ctx EthHdr_LEN) (fun ip =>
  sc ← scoped;
  out ← andx sc (negx (protected V4 (src_addr4 ip)));
  if (out : bool) then mret (Some tt)
  else
    c ← tx_counters ncpus V4 (src_addr4 ip);
    (match c with
     | Some c => tx_account V4 c (buff_len ctx) (proto4 ip) PROTO_ICMP
     | None => mret tt
     end);;
    if negb (ihl ip =? Z.of_nat Ipv4Hdr_LEN) then mret (Some tt)
    else
      try_opt (egress_service ctx (proto4 ip) (EthHdr_LEN + Ipv4Hdr_LEN)) (fun o =>
      match o with
      | Some svc =>
          learn_port clk V4 {| pk_addr := src_addr4 ip; pk_port := svc_port svc;
                               pk_proto := svc_proto svc |};;
          mret (Some tt)
      | None => mret (Some tt)
      end)).

Definition learn_ipv6 (ctx : Ctx) : X (option unit) :=
  try_opt (ptr_at ip6_of Ipv6Hdr_LEN ctx EthHdr_LEN) (fun ip =>
  sc ← scoped;
  out ← andx sc (negx (protected V6 (src_addr6 ip)));
  if (out : bool) then mret (Some tt)
  else
    c ← tx_counters ncpus V6 (src_addr6 ip);
    (match c with
     | Some c => tx_account V6 c (buff_len ctx) (next_hdr ip) PROTO_ICMPV6
     | None => mret tt
     end);;
    try_opt (egress_service ctx (next_hdr ip) (EthHdr_LEN + Ipv6Hdr_LEN)) (fun o =>
    match o with
    | Some svc =>
        learn_port clk V6 {| pk_addr := src_addr6 ip; pk_port := svc_port svc;
                             pk_proto := svc_proto svc |};;
        mret (Some tt)
    | None => mret (Some tt)
    end)).

Definition try_learn (ctx : Ctx) : X (option unit) :=
  try_opt (ptr_at eth_of EthHdr_LEN ctx 0) (fun eth =>
  match ether_type eth with
  | EtherType_Ipv4 => learn_ipv4 ctx
  | EtherType_Ipv6 => learn_ipv6 ctx
  | EtherType_other => mret (Some tt)
  end).

Definition TC_ACT_OK : Z := 0.

Definition tc_lnvps_egress (ctx : Ctx) : X Z :=
  try_learn ctx;; mret TC_ACT_OK.

(** ** Specification: parse, then decide

    What a packet is, as far as the datapath is concerned: the datagram it
    filters on (the inner one of a GRE tunnel packet) and whether the SYN proxy
    may answer it.  [None] when a header does not fit in the linear head, or
    the frame carries no IP datagram. *)
Record Parsed := {
  p_fam : family; p_dst : Addr; p_src : Addr; p_meta : L4Meta; p_proxy : bool }.

Definition parse_ipv4 (ctx : Ctx) (off : nat) (allow : bool) : option Parsed :=
  ip ← ptr_at ip4_of Ipv4Hdr_LEN ctx off;
  let is_fragment := negb (frag_offset ip =? 0) in
  let meta := L4Meta_new (proto4 ip) is_fragment in
  meta ← (if negb is_fragment && (ihl ip =? Z.of_nat Ipv4Hdr_LEN)
          then fill_l4 ctx meta (off + Ipv4Hdr_LEN) else Some meta);
  Some {| p_fam := V4; p_dst := dst_addr4 ip; p_src := src_addr4 ip;
          p_meta := meta; p_proxy := allow |}.

Definition parse_ipv6 (ctx : Ctx) (off : nat) (allow : bool) : option Parsed :=
  ip ← ptr_at ip6_of Ipv6Hdr_LEN ctx off;
  meta ← fill_l4 ctx (L4Meta_new (next_hdr ip) false) (off + Ipv6Hdr_LEN);
  Some {| p_fam := V6; p_dst := dst_addr6 ip; p_src := src_addr6 ip;
          p_meta := meta; p_proxy := allow |}.

Definition parse_outer (ctx : Ctx) : option Parsed :=
  ip ← ptr_at ip4_of Ipv4Hdr_LEN ctx EthHdr_LEN;
  if (proto4 ip =? PROTO_GRE) && (ihl ip =? Z.of_nat Ipv4Hdr_LEN) && (frag_offset ip =? 0)
  then
    let gre_off := (EthHdr_LEN + Ipv4Hdr_LEN)%nat in
    gre ← ptr_at id 4 ctx gre_off;
    match gre_inner gre gre_off with
    | Some (ptype, inner_off) =>
        if ptype =? ETH_P_IP then parse_ipv4 ctx inner_off false
        else if ptype =? ETH_P_IPV6 then parse_ipv6 ctx inner_off false
        else parse_ipv4 ctx EthHdr_LEN true
    | None => parse_ipv4 ctx EthHdr_LEN true
    end
  else parse_ipv4 ctx EthHdr_LEN true.

Definition parse (ctx : Ctx) : option Parsed :=
  eth ← ptr_at eth_of EthHdr_LEN ctx 0;
  match ether_type eth with
  | EtherType_Ipv4 => parse_outer ctx
  | EtherType_Ipv6 => parse_ipv6 ctx EthHdr_LEN true
  | EtherType_other => None
  end.

(** Whether the destination is defended. *)
Definition in_scope (f : family) (dst : Addr) (s : XState) : bool :=
  (scoped_flag (global_cfg s).1 =? 0) ||
  bool_decide (is_Some (lget (bits f) dst (PROTECTED (x_fam s f)))).

(** Whether an operator block covers the source. *)
Definition blocked_source (f : family) (src : Addr) (s : XState) : bool :=
  negb (manual_blocks (global_cfg s).1 =? 0) &&
  bool_decide (is_Some (lget (bits f) src (MANUAL_BLOCK (x_fam s f)))).

Definition decide_parsed (ctx : Ctx) (p : Parsed) : X Outcome := fun s =>
  if in_scope (p_fam p) (p_dst p) s then
    let '(o, s') := decide_and_account (p_fam p) ctx (p_dst p) (p_src p) (p_meta p)
                      (p_proxy p) (global_cfg s).1 s in
    (default (Return XDP_PASS) o, s')
  else (Return XDP_PASS, s).

End datapath.

#[export] Hint Unfold dest_policy_v4 dest_policy_v6 mitigate_v4 mitigate_v6 : fw.
#[export] Hint Unfold try_opt andx negx : fw.

(** ** Frames of the ingress path *)
Section ingress.
Context `{!BpfKernel, !BpfKernelLaws} `{!NetTypes} (clk : nat -> Z) (cpu ncpus : nat).

Lemma account_frame f ctx c meta icmp v :
  keeps (lift_rel ingress_frame) (account cpu f ctx c meta icmp v).
Proof. unfold account. keeps_tac. Qed.
#[local] Hint Resolve account_frame : keeps.

Lemma dest_policy_frame f dst meta budget :
  keeps (lift_rel ingress_frame) (dest_policy clk f dst meta budget).
Proof. unfold dest_policy, andx. keeps_tac. Qed.
Lemma dest_policy_counters f dst meta budget :
  keeps (lift_rel same_counters) (dest_policy clk f dst meta budget).
Proof. unfold dest_policy, andx. keeps_tac. Qed.
#[local] Hint Resolve dest_policy_frame dest_policy_counters : keeps.

Lemma mitigate_frame f ctx dst src meta flags allow c cfg :
  keeps (lift_rel ingress_frame) (mitigate clk cpu f ctx dst src meta flags allow c cfg).
Proof. unfold mitigate, andx, negx. keeps_tac. Qed.
#[local] Hint Resolve mitigate_frame : keeps.

Lemma decide_frame f ctx dst src meta allow cfg :
  keeps (lift_rel ingress_frame)
    (decide_and_account clk cpu ncpus f ctx dst src meta allow cfg).
Proof. unfold decide_and_account, andx. keeps_tac. Qed.

(** The mode of a destination, as the datapath reads it. *)
Definition mode_of (f : family) (dst : Addr) (s : XState) : Z := (dest_mode f dst s).1.

Lemma decide_run f ctx dst src meta allow s :
  decide_and_account clk cpu ncpus f ctx dst src meta allow (global_cfg s).1 s =
  let '(c, s1) := counters ncpus f dst s in
  let finish v s2 := (Some (Return v), (account cpu f ctx c meta (icmp_of f) v s2).2) in
  if blocked_source f src s then finish XDP_DROP s1
  else if mode_of f dst s =? DEST_MODE_NORMAL then finish XDP_PASS s1
  else
    let '(r, s2) := mitigate clk cpu f ctx dst src meta (mode_of f dst s) allow c
                      (global_cfg s).1 s1 in
    match r with
    | Jumped g => (Some (TailCall g), s2)
    | Decided v true => (Some (Return v), s2)
    | Decided v false => finish v s2
    end.
Proof.
  unfold decide_and_account. rewrite bind_run.
  pose proof (counters_frame ncpus f dst s) as [Hf _].
  destruct (counters ncpus f dst s) as [c s1]. cbn [fst snd] in *.
  destruct (Hf f) as [(Ed & _ & Em) _].
  rewrite bind_run.
  replace (andx _ (manual_blocked f src) s1) with (blocked_source f src s, s1).
  2: { unfold blocked_source, andx. destruct (manual_blocks _ =? 0); [done|].
       cbn [negb andb]. unfold manual_blocked, getm. rewrite bind_run. cbn -[bool_decide]. by rewrite Em. }
  cbn [fst snd]. destruct (blocked_source f src s).
  - rewrite !bind_run. cbn. by rewrite bind_run.
  - rewrite !bind_run.
    assert ((dest_mode f dst s1).1 = mode_of f dst s) as ->
      by (unfold mode_of, dest_mode, getm; rewrite !bind_run; cbn; by rewrite Ed).
    assert ((dest_mode f dst s1).2 = s1) as -> by done.
    destruct (mode_of f dst s =? DEST_MODE_NORMAL); cbn [negb fst snd].
    + rewrite ret_run. cbn. by rewrite bind_run.
    + destruct (mitigate _ _ _ _ _ _ _ _ _ _ _ s1) as [[v [|]|g] s2]; cbn; try done.
      by rewrite bind_run.
Qed.

Lemma decide_some f ctx dst src meta allow cfg s :
  is_Some (decide_and_account clk cpu ncpus f ctx dst src meta allow cfg s).1.
Proof.
  unfold decide_and_account. unfold mbind, ST_bind.
  repeat case_match; simplify_eq; cbn; eauto.
Qed.

Lemma account_slots f ctx c meta icmp v :
  keeps (lift_rel (keeps_slots ncpus)) (account cpu f ctx c meta icmp v).
Proof. unfold account. keeps_tac. apply lift_upd_fam; [apply _|]. split; cbn; auto using slots_wf_bump. Qed.
#[local] Hint Resolve account_slots : keeps.
Lemma mitigate_slots f ctx dst src meta flags allow c cfg :
  keeps (lift_rel (keeps_slots ncpus))
    (mitigate clk cpu f ctx dst src meta flags allow c cfg).
Proof. unfold mitigate, andx, negx. keeps_tac. Qed.
#[local] Hint Resolve mitigate_slots : keeps.
Lemma decide_slots f ctx dst src meta allow cfg :
  keeps (lift_rel (keeps_slots ncpus))
    (decide_and_account clk cpu ncpus f ctx dst src meta allow cfg).
Proof. unfold decide_and_account, andx. keeps_tac. Qed.

(** *** The handlers, unfolded to parsing and deciding *)

Lemma scope_step f dst s :
  andx (negb (scoped_flag (global_cfg s).1 =? 0)) (negx (protected f dst)) s
  = (negb (in_scope f dst s), s).
Proof.
  unfold andx, in_scope. destruct (scoped_flag _ =? 0); [done|].
  cbn -[bool_decide]. done.
Qed.

Lemma handle_ipv4_parse ctx off allow s :
  handle_ipv4 clk cpu ncpus ctx off allow s =
  match ptr_at ip4_of Ipv4Hdr_LEN ctx off with
  | None => (None, s)
  | Some ip =>
      if in_scope V4 (dst_addr4 ip) s then
        match parse_ipv4 ctx off allow with
        | Some p => decide_and_account clk cpu ncpus V4 ctx (p_dst p) (p_src p) (p_meta p)
                      (p_proxy p) (global_cfg s).1 s
        | None => (None, s)
        end
      else (Some (Return XDP_PASS), s)
  end.
Proof.
  unfold handle_ipv4, parse_ipv4, try_opt. destruct (ptr_at _ _ ctx off) as [ip|]; [|done].
  rewrite !bind_run, scope_step. cbn [fst snd global_cfg gets].
  destruct (in_scope V4 (dst_addr4 ip) s); cbn [negb]; [|done].
  cbn. destruct (negb _ && _); [|done]. by destruct (fill_l4 _ _ _).
Qed.

Lemma handle_ipv6_parse ctx off allow s :
  handle_ipv6 clk cpu ncpus ctx off allow s =
  match ptr_at ip6_of Ipv6Hdr_LEN ctx off with
  | None => (None, s)
  | Some ip =>
      if in_scope V6 (dst_addr6 ip) s then
        match parse_ipv6 ctx off allow with
        | Some p => decide_and_account clk cpu ncpus V6 ctx (p_dst p) (p_src p) (p_meta p)
                      (p_proxy p) (global_cfg s).1 s
        | None => (None, s)
        end
      else (Some (Return XDP_PASS), s)
  end.
Proof.
  unfold handle_ipv6, parse_ipv6, try_opt. destruct (ptr_at _ _ ctx off) as [ip|]; [|done].
  rewrite !bind_run, scope_step. cbn [fst snd global_cfg gets].
  destruct (in_scope V6 (dst_addr6 ip) s); cbn [negb]; [|done].
  cbn. by destruct (fill_l4 _ _ _).
Qed.

(** Running a handler and failing open is running the decision on the parse. *)
Definition fail_open (r : option Outcome) : Outcome := default (Return XDP_PASS) r.
Definition decide_opt (ctx : Ctx) (p : option Parsed) (s : XState) : Outcome * XState :=
  match p with
  | None => (Return XDP_PASS, s)
  | Some p => decide_parsed clk cpu ncpus ctx p s
  end.

Lemma parse_ipv4_fam ctx off allow p ip :
  ptr_at ip4_of Ipv4Hdr_LEN ctx off = Some ip -> parse_ipv4 ctx off allow = Some p ->
  p_fam p = V4 /\ p_dst p = dst_addr4 ip /\ p_proxy p = allow.
Proof.
  unfold parse_ipv4. intros ->. cbn.
  destruct (if negb _ && _ then _ else _) as [m|]; [|done]. cbn. by intros [= <-].
Qed.
Lemma parse_ipv6_fam ctx off allow p ip :
  ptr_at ip6_of Ipv6Hdr_LEN ctx off = Some ip -> parse_ipv6 ctx off allow = Some p ->
  p_fam p = V6 /\ p_dst p = dst_addr6 ip /\ p_proxy p = allow.
Proof.
  unfold parse_ipv6. intros ->. cbn.
  destruct (fill_l4 _ _ _) as [m|]; [|done]. cbn. by intros [= <-].
Qed.

Lemma handle_ipv4_open ctx off allow s :
  prod_map fail_open id (handle_ipv4 clk cpu ncpus ctx off allow s)
  = decide_opt ctx (parse_ipv4 ctx off allow) s.
Proof.
  rewrite handle_ipv4_parse.
  destruct (ptr_at ip4_of _ ctx off) as [ip|] eqn:Ei.
  - destruct (parse_ipv4 ctx off allow) as [p|] eqn:Ep; cbn.
    + destruct (parse_ipv4_fam _ _ _ _ _ Ei Ep) as (Ef & Ed & _).
      unfold decide_parsed. rewrite Ef, Ed.
      destruct (in_scope V4 (dst_addr4 ip) s); [|done].
      by destruct (decide_and_account _ _ _ _ _ _ _ _ _ _ _) as [[o|] s'].
    + by destruct (in_scope V4 (dst_addr4 ip) s).
  - unfold parse_ipv4. by rewrite Ei.
Qed.

Lemma handle_ipv6_open ctx off allow s :
  prod_map fail_open id (handle_ipv6 clk cpu ncpus ctx off allow s)
  = decide_opt ctx (parse_ipv6 ctx off allow) s.
Proof.
  rewrite handle_ipv6_parse.
  destruct (ptr_at ip6_of _ ctx off) as [ip|] eqn:Ei.
  - destruct (parse_ipv6 ctx off allow) as [p|] eqn:Ep; cbn.
    + destruct (parse_ipv6_fam _ _ _ _ _ Ei Ep) as (Ef & Ed & _).
      unfold decide_parsed. rewrite Ef, Ed.
      destruct (in_scope V6 (dst_addr6 ip) s); [|done].
      by destruct (decide_and_account _ _ _ _ _ _ _ _ _ _ _) as [[o|] s'].
    + by destruct (in_scope V6 (dst_addr6 ip) s).
  - unfold parse_ipv6. by rewrite Ei.
Qed.

Lemma handle_outer_open ctx s :
  prod_map fail_open id (handle_outer_ipv4 clk cpu ncpus ctx s)
  = decide_opt ctx (parse_outer ctx) s.
Proof.
  unfold handle_outer_ipv4, parse_outer, try_opt.
  destruct (ptr_at ip4_of _ ctx EthHdr_LEN) as [ip|]; [|done]. cbn [mbind option_bind].
  destruct (_ && _ && _); [|apply handle_ipv4_open].
  destruct (ptr_at id 4 ctx _) as [gre|]; [|done]. cbn [mbind option_bind].
  destruct (gre_inner _ _) as [[ptype off]|]; [|apply handle_ipv4_open].
  destruct (_ =? ETH_P_IP); [apply handle_ipv4_open|].
  destruct (_ =? ETH_P_IPV6); [apply handle_ipv6_open|apply handle_ipv4_open].
Qed.

Lemma xdp_open ctx s :
  xdp_lnvps clk cpu ncpus ctx s
  = prod_map fail_open id (try_handle clk cpu ncpus ctx s).
Proof. unfold xdp_lnvps. rewrite bind_run. by destruct (try_handle _ _ _ ctx s) as [[o|] s']. Qed.

Lemma xdp_decide ctx s :
  xdp_lnvps clk cpu ncpus ctx s = decide_opt ctx (parse ctx) s.
Proof.
  rewrite xdp_open. unfold try_handle, parse, try_opt.
  destruct (ptr_at eth_of _ ctx 0) as [eth|]; [|done]. cbn [mbind option_bind].
  destruct (ether_type eth); [apply handle_outer_open|apply handle_ipv6_open|done].
Qed.

(** *** Mitigation *)

(** A counters pointer that designates [dst]'s slot. *)
Definition counts (f : family) (dst : Addr) (c : option Addr) (s : XState) : Prop :=
  c = Some dst /\ has_slots ncpus f dst s.

Lemma account_spec f ctx dst meta icmp v s :
  has_slots ncpus f dst s -> (cpu < ncpus)%nat ->
  slot cpu f dst (account cpu f ctx (Some dst) meta icmp v s).2
  = count_packet (buff_len ctx) meta icmp v (slot cpu f dst s).
Proof. intros. unfold account. by apply (bump_spec cpu ncpus). Qed.

(** What a computation that leaves the counters alone leaves of them. *)
Lemma same_slots {A} (m : ST XState A) (Q : A -> XState -> Prop) f dst s :
  keeps (lift_rel same_counters) m ->
  (forall a s', has_slots ncpus f dst s' -> slot cpu f dst s' = slot cpu f dst s -> Q a s') ->
  has_slots ncpus f dst s -> wp m Q s.
Proof.
  intros Hk HQ Hs. red. apply HQ.
  - eapply has_slots_same; [apply Hk|done].
  - eapply slot_same, Hk.
Qed.

(** Whether the packet is accounted by [mitigate] itself, and as what. *)
Lemma mitigate_accounts f ctx dst src meta flags allow cfg s :
  has_slots ncpus f dst s -> (cpu < ncpus)%nat ->
  wp (mitigate clk cpu f ctx dst src meta flags allow (Some dst) cfg)
    (fun r s' =>
       let counted := count_packet (buff_len ctx) meta (icmp_of f) XDP_DROP (slot cpu f dst s) in
       match r with
       | Decided v false => has_slots ncpus f dst s' /\ slot cpu f dst s' = slot cpu f dst s
       | Decided v true => v = XDP_DROP /\ slot cpu f dst s' = counted
       | Jumped g => g = f /\ slot cpu f dst s' = counted
       end) s.
Proof.
  intros Hs Hcpu. unfold mitigate.
  apply wp_bind, (same_slots _ _ f dst); [apply src_gate_counters| |done].
  intros gate s1 Hs1 E1. destruct gate; [by apply wp_ret|].
  apply wp_bind, (same_slots _ _ f dst); [unfold andx, negx; keeps_tac| |done].
  intros ch s2 Hs2 E2. destruct ch.
  - pose proof (account_spec f ctx dst meta (icmp_of f) XDP_DROP s2 Hs2 Hcpu) as Ha.
    rewrite E2, E1 in Ha. apply wp_bind, wp_modify, wp_bind, wp_gets, wp_ret.
    by destruct (SYN_PROXY_JUMP _ f).
  - destruct (has_flag _ _); [|by apply wp_ret; rewrite E2, E1].
    destruct (is_fragment meta); [by apply wp_ret; rewrite E2, E1|].
    apply wp_bind, (same_slots _ _ f dst); [apply dest_policy_counters| |done].
    intros v s3 Hs3 E3. apply wp_ret. by rewrite E3, E2, E1.
Qed.

Lemma decide_accounts f ctx dst src meta allow s :
  counters_wf ncpus s -> (cpu < ncpus)%nat ->
  wp (decide_and_account clk cpu ncpus f ctx dst src meta allow (global_cfg s).1)
    (fun o s' =>
       exists r, o = Some r /\
       slot cpu f dst s' = count_packet (buff_len ctx) meta (icmp_of f)
         (match r with Return v => v | TailCall _ => XDP_DROP end) (slot cpu f dst s)) s.
Proof.
  intros Hwf Hcpu. unfold wp. rewrite decide_run.
  pose proof (counters_spec cpu ncpus f dst s Hwf Hcpu) as Hc. unfold wp in Hc.
  destruct (counters ncpus f dst s) as [c s1]. cbn [fst snd] in Hc.
  destruct Hc as (-> & Hs1 & E1). rewrite <- E1.
  destruct (blocked_source f src s); [eexists; split; [done|by apply account_spec]|].
  destruct (_ =? DEST_MODE_NORMAL); [eexists; split; [done|by apply account_spec]|].
  pose proof (mitigate_accounts f ctx dst src meta (mode_of f dst s) allow (global_cfg s).1
                s1 Hs1 Hcpu) as Hm. unfold wp in Hm.
  destruct (mitigate _ _ _ _ _ _ _ _ _ _ _ s1) as [[v [|]|g] s2]; cbn [fst snd] in *.
  - destruct Hm as [-> Hm]. by eexists.
  - destruct Hm as [Hs2 <-]. eexists. split; [done|]. by apply account_spec.
  - destruct Hm as [-> Hm]. by eexists.
Qed.

(** Whether the port filter lets a packet through because of what it is: an
    ICMP packet, or one to a learned port. *)
Definition learned (f : family) (dst : Addr) (meta : L4Meta) (s : XState) : bool :=
  has_port meta &&
  bool_decide (is_Some (hget (PortKey_new dst (dst_port meta) (proto meta))
                          (OPEN_PORTS (x_fam s f)))).
Definition is_l4 (meta : L4Meta) : bool :=
  (proto meta =? PROTO_TCP) || (proto meta =? PROTO_UDP).
Definition port_allowed (f : family) (dst : Addr) (meta : L4Meta) (s : XState) : bool :=
  if is_l4 meta then learned f dst meta s else proto meta =? icmp_of f.

Lemma learned_frame f dst meta s s' :
  lift_rel ingress_frame s s' -> learned f dst meta s' = learned f dst meta s.
Proof.
  intros [Hr _]. destruct (Hr f) as (_ & _ & Hp & _). unfold learned. f_equal.
  apply bool_decide_ext, Hp.
Qed.
Lemma port_allowed_frame f dst meta s s' :
  lift_rel ingress_frame s s' -> port_allowed f dst meta s' = port_allowed f dst meta s.
Proof. intros Hr. unfold port_allowed. by erewrite learned_frame. Qed.

Lemma dest_policy_allowed f dst meta budget s :
  port_allowed f dst meta s = true -> (dest_policy clk f dst meta budget s).1 = XDP_PASS.
Proof.
  unfold port_allowed, is_l4, dest_policy. destruct (_ || _).
  - intros Hl. rewrite bind_run. unfold learned in Hl.
    destruct (has_port meta); [|done]. cbn [andb andx] in *.
    pose proof (port_open_refresh_spec clk f dst (dst_port meta) (proto meta) s) as [Eb _].
    rewrite Hl in Eb. by rewrite Eb.
  - by intros ->.
Qed.

Lemma dest_policy_denied f dst meta s :
  port_allowed f dst meta s = false -> (dest_policy clk f dst meta 0 s).1 = XDP_DROP.
Proof.
  unfold port_allowed, is_l4, dest_policy. destruct (_ || _); [|by intros ->].
  intros Hl. rewrite bind_run. unfold learned in Hl.
  assert ((andx (has_port meta) (port_open_refresh clk f dst (dst_port meta) (proto meta)) s).1
          = false) as ->.
  { destruct (has_port meta); [|done]. cbn [andb andx] in *.
    pose proof (port_open_refresh_spec clk f dst (dst_port meta) (proto meta) s) as [Eb _].
    by rewrite Eb. }
  rewrite !bind_run. unfold andx, learn_leak, learn_budget. cbn.
  destruct (_ && is_syn meta), (_ && is_wg_init meta), (_ =? PROTO_UDP); done.
Qed.

Lemma mitigate_port_filter f ctx dst src meta flags allow c cfg s :
  has_flag flags DEST_MODE_PORT_FILTER = true ->
  has_flag flags DEST_MODE_SOURCE_BLOCK = false ->
  has_flag flags DEST_MODE_SYN_PROXY = false ->
  exists s1, lift_rel ingress_frame s s1 /\
    (mitigate clk cpu f ctx dst src meta flags allow c cfg s).1 =
    Decided (if is_fragment meta then XDP_DROP
             else (dest_policy clk f dst meta (learn_leak_pps cfg) s1).1) false.
Proof.
  intros Hp Hb Hs. unfold mitigate. rewrite Hp, Hb, Hs.
  rewrite bind_run, src_gate_off. cbv iota.
  replace (allow && false && _ && _) with false by (destruct allow; done).
  rewrite bind_run. cbn [andx fst snd]. rewrite ret_run. cbn [fst snd].
  exists (src_gate clk f src (src_rate cfg) false s).2.
  split; [apply src_gate_frame|].
  destruct (is_fragment meta); [done|]. by rewrite bind_run.
Qed.

(** The end of [mitigate], without a challenge, never jumps. *)
Lemma filter_no_jump f dst meta flags cfg (Q : Mitigated -> XState -> Prop) s :
  (forall v a s', Q (Decided v a) s') ->
  wp (if has_flag flags DEST_MODE_PORT_FILTER then
        if is_fragment meta then mret (Decided XDP_DROP false)
        else v ← dest_policy clk f dst meta (learn_leak_pps cfg); mret (Decided v false)
      else mret (Decided XDP_PASS false)) Q s.
Proof.
  intros HQ. destruct (has_flag _ _), (is_fragment meta); try (by apply wp_ret).
  apply wp_bind. red. by apply wp_ret.
Qed.

(** A source that has to be challenged: never verified, or not recently. *)
Definition unverified (f : family) (src : Addr) (ttl : Z) (s : XState) : Prop :=
  hget src (VERIFIED (x_fam s f)) = None \/
  exists ts i, hget src (VERIFIED (x_fam s f)) = Some ts /\
    ttl <> 0 /\ ttl <= wsub 64 (clk i) ts.

Lemma src_verified_false f src ttl s :
  (src_verified clk f src ttl s).1 = false -> unverified f src ttl s.
Proof.
  unfold src_verified, getm, unverified. rewrite bind_run. cbn.
  destruct (hget src _) as [ts|]; [|by left].
  destruct (ttl =? 0) eqn:Et; [done|]. rewrite bind_run. cbn. intros Hv. zbool.
  right. by exists ts, (x_reads s).
Qed.

(** When the SYN proxy takes a packet over. *)
Lemma mitigate_jump f ctx dst src meta flags allow c cfg s :
  wp (mitigate clk cpu f ctx dst src meta flags allow c cfg)
    (fun r _ => match r with
     | Jumped g =>
         g = f /\ allow = true /\ has_flag flags DEST_MODE_SYN_PROXY = true /\
         proto meta = PROTO_TCP /\ learned f dst meta s = true /\
         SYN_PROXY_JUMP s f = true /\ unverified f src (verified_ttl_ns cfg) s
     | _ => True
     end) s.
Proof.
  unfold mitigate. apply wp_bind.
  pose proof (src_gate_frame clk f src (src_rate cfg) (has_flag flags DEST_MODE_SOURCE_BLOCK) s)
    as Hf.
  unfold wp at 1. destruct (src_gate _ _ _ _ _ s) as [gate s1]. cbn [fst snd] in *.
  destruct gate; [by apply wp_ret|].
  assert (Hl : learned f dst meta s1 = learned f dst meta s) by by apply learned_frame.
  destruct Hf as [Hf (_ & _ & Ej)]. destruct (Hf f) as (_ & Ev & _).
  destruct (allow && _ && _ && _) eqn:Hc; cbn [andx];
    [|by apply wp_bind, wp_ret, filter_no_jump].
  zbool. destruct allow; [|done].
  rewrite <- Hl. unfold learned. replace (has_port meta) with true by done.
  replace (proto meta) with PROTO_TCP by done.
  unfold port_is_open, getm. apply wp_bind, wp_bind, wp_bind, wp_gets, wp_ret. cbv beta.
  destruct (bool_decide _) eqn:Ho; cbn [andx]; [|by apply wp_ret, filter_no_jump].
  unfold negx. apply wp_bind.
  pose proof (src_verified_false f src (verified_ttl_ns cfg) s1) as Hv.
  pose proof (src_verified_frame clk ingress_frame f src (verified_ttl_ns cfg) _ s1)
    as (_ & _ & _ & Ej2).
  unfold wp at 1. destruct (src_verified _ _ _ _ s1) as [v s2]. cbn [fst snd] in *.
  apply wp_ret. destruct v; cbn [negb]; [by apply filter_no_jump|].
  apply wp_bind. red.
  pose proof (account_frame f ctx c meta (icmp_of f) XDP_DROP s2) as (_ & _ & _ & Ej3).
  apply wp_bind, wp_gets, wp_ret. rewrite Ej3, Ej2, Ej.
  destruct (SYN_PROXY_JUMP s f); [|done].
  split_and!; try done. specialize (Hv eq_refl). unfold unverified in *. by rewrite Ev in Hv.
Qed.

End ingress.

(** ** What the ingress program guarantees *)
Section ingress_theorems.
Context `{!BpfKernel, !BpfKernelLaws} `{!NetTypes} (clk : nat -> Z) (cpu ncpus : nat).
Abbreviation xdp := (xdp_lnvps clk cpu ncpus).

Lemma xdp_run ctx p s :
  parse ctx = Some p -> in_scope (p_fam p) (p_dst p) s = true ->
  xdp ctx s = prod_map fail_open id
    (decide_and_account clk cpu ncpus (p_fam p) ctx (p_dst p) (p_src p) (p_meta p)
       (p_proxy p) (global_cfg s).1 s).
Proof.
  intros Hp Hs. rewrite xdp_decide, Hp. cbn. unfold decide_parsed. rewrite Hs.
  by destruct (decide_and_account _ _ _ _ _ _ _ _ _ _ s).
Qed.

(** A frame that does not parse as an IP datagram (truncated headers
    included), or whose destination is not defended, is passed and leaves every
    map as it was: a forwarding router never touches transit traffic, and the
    program fails open. *)
Theorem xdp_untouched ctx s :
  match parse ctx with
  | None => True
  | Some p => in_scope (p_fam p) (p_dst p) s = false
  end ->
  xdp ctx s = (Return XDP_PASS, s).
Proof.
  intros Hu. rewrite xdp_decide. unfold decide_opt, decide_parsed.
  destruct (parse ctx) as [p|]; [|done]. by rewrite Hu.
Qed.

Lemma xdp_frame ctx s : lift_rel ingress_frame s (xdp ctx s).2.
Proof.
  rewrite xdp_decide. unfold decide_opt, decide_parsed.
  destruct (parse ctx) as [p|]; [|reflexivity].
  destruct (in_scope _ _ s); [|reflexivity].
  pose proof (decide_frame clk cpu ncpus (p_fam p) ctx (p_dst p) (p_src p) (p_meta p)
                (p_proxy p) (global_cfg s).1 s) as Hf.
  by destruct (decide_and_account _ _ _ _ _ _ _ _ _ _ s).
Qed.

(** Whatever the packet, the ingress program changes none of userspace's
    policy (mitigation flags, protected prefixes, manual blocks, configuration,
    secrets, tail-call table), learns and forgets no port, and verifies no
    source. *)
Theorem xdp_policy_frame ctx s :
  let s' := (xdp_lnvps clk cpu ncpus ctx s).2 in
  GLOBAL_CFG s' = GLOBAL_CFG s /\ COOKIE_SECRET s' = COOKIE_SECRET s /\
  SYN_PROXY_JUMP s' = SYN_PROXY_JUMP s /\
  forall f, DEST_STATE (x_fam s' f) = DEST_STATE (x_fam s f) /\
    PROTECTED (x_fam s' f) = PROTECTED (x_fam s f) /\
    MANUAL_BLOCK (x_fam s' f) = MANUAL_BLOCK (x_fam s f) /\
    VERIFIED (x_fam s' f) = VERIFIED (x_fam s f) /\
    TX_COUNTERS (x_fam s' f) = TX_COUNTERS (x_fam s f) /\
    forall k, is_Some (hget k (OPEN_PORTS (x_fam s' f))) <-> is_Some (hget k (OPEN_PORTS (x_fam s f))).
Proof.
  destruct (xdp_frame ctx s) as (Hf & ? & ? & ?). split_and!; [done..|]. intros f.
  destruct (Hf f) as ((? & ? & ?) & ? & ? & ?). by split_and!.
Qed.

(** Towards a defended destination, a packet from a manually blocked source
    is dropped whatever the destination's mode; any other packet to a
    destination that is not under mitigation is passed. *)
Theorem xdp_steady_verdict ctx p s :
  parse ctx = Some p -> in_scope (p_fam p) (p_dst p) s = true ->
  (blocked_source (p_fam p) (p_src p) s = true -> (xdp ctx s).1 = Return XDP_DROP) /\
  (blocked_source (p_fam p) (p_src p) s = false ->
   mode_of (p_fam p) (p_dst p) s = DEST_MODE_NORMAL -> (xdp ctx s).1 = Return XDP_PASS).
Proof.
  intros Hp Hs. rewrite (xdp_run _ p), decide_run by done.
  destruct (counters ncpus (p_fam p) (p_dst p) s) as [c s1].
  split; [by intros ->|]. by intros -> ->.
Qed.

(** A packet is of one protocol. *)
Lemma count_packet_protocols f m :
  negb (proto m =? PROTO_TCP) && (proto m =? PROTO_UDP) = (proto m =? PROTO_UDP) /\
  negb (proto m =? PROTO_TCP) && negb (proto m =? PROTO_UDP) && (proto m =? icmp_of f) =
    (proto m =? icmp_of f).
Proof. destruct f; unfold PROTO_TCP, PROTO_UDP, icmp_of, PROTO_ICMP, PROTO_ICMPV6; split; lia. Qed.

(** [count += 1] under a condition. *)
Definition tick (b : bool) (n : Z) : Z := if b then wadd 64 n 1 else n.

(** What one packet with these headers adds to its destination's counters. *)
Definition accounted (ctx : Ctx) (p : Parsed) (o : Outcome) (c c' : DestCounters) : Prop :=
  let m := p_meta p in
  packets c' = wadd 64 (packets c) 1 /\
  bytes c' = wadd 64 (bytes c) (buff_len ctx) /\
  dropped c' = tick (match o with
                     | Return XDP_DROP | TailCall _ => true
                     | _ => false end) (dropped c) /\
  tcp_packets c' = tick (proto m =? PROTO_TCP) (tcp_packets c) /\
  syn_packets c' = tick ((proto m =? PROTO_TCP) && is_syn m) (syn_packets c) /\
  udp_packets c' = tick (proto m =? PROTO_UDP) (udp_packets c) /\
  icmp_packets c' = tick (proto m =? icmp_of (p_fam p)) (icmp_packets c).

(** C6: a packet whose headers parse and whose destination is defended is counted
    exactly once, with its wire length and under its own protocol only, and counted
    as dropped exactly when the program drops it or hands it to the SYN proxy, which
    counts as a drop. Any other packet, one with a truncated TCP or UDP header
    included, passes uncounted. The counters, with a slot for every CPU, stay
    well-formed. *)
Theorem xdp_accounts_once ctx s (Hwf : counters_wf ncpus s) (Hcpu : (cpu < ncpus)%nat) :
  counters_wf ncpus (xdp ctx s).2 /\
  match parse ctx with
  | Some p =>
      if in_scope (p_fam p) (p_dst p) s
      then accounted ctx p (xdp ctx s).1 (slot cpu (p_fam p) (p_dst p) s)
             (slot cpu (p_fam p) (p_dst p) (xdp ctx s).2)
      else xdp ctx s = (Return XDP_PASS, s)
  | None => xdp ctx s = (Return XDP_PASS, s)
  end.
Proof.
  pose proof (xdp_untouched ctx s) as Hu.
  destruct (parse ctx) as [p|] eqn:Hp; [|by rewrite (Hu I)].
  destruct (in_scope (p_fam p) (p_dst p) s) eqn:Hs; [clear Hu|by rewrite (Hu eq_refl)].
  rewrite (xdp_run _ p) by done.
  pose proof (decide_accounts clk cpu ncpus (p_fam p) ctx (p_dst p) (p_src p) (p_meta p)
                (p_proxy p) s Hwf Hcpu) as Hd.
  pose proof (decide_slots clk cpu ncpus (p_fam p) ctx (p_dst p) (p_src p) (p_meta p)
                (p_proxy p) (global_cfg s).1 s) as Hw.
  unfold wp in Hd. destruct (decide_and_account _ _ _ _ _ _ _ _ _ _ s) as [o s'].
  cbn [fst snd] in Hd. destruct Hd as (r & -> & Hd).
  split; [by eapply counters_wf_lift|].
  cbv zeta. cbn [prod_map fail_open fst snd id]. rewrite Hd.
  destruct (count_packet_protocols (p_fam p) (p_meta p)) as [Hpu Hpi].
  unfold accounted, tick, count_packet. cbn [packets bytes dropped tcp_packets syn_packets udp_packets icmp_packets].
  rewrite Hpu, Hpi. split_and!; [done..| |done|done|done|done]. by destruct r as [[]|].
Qed.

(** A destination under the port filter alone: a non-first fragment is
    dropped, an ICMP packet or one to a learned port is passed (whatever the
    leak budget), and with the learning leak off everything else is dropped. *)
Theorem xdp_port_filter ctx p s :
  parse ctx = Some p -> in_scope (p_fam p) (p_dst p) s = true ->
  blocked_source (p_fam p) (p_src p) s = false ->
  let flags := mode_of (p_fam p) (p_dst p) s in
  has_flag flags DEST_MODE_PORT_FILTER = true ->
  has_flag flags DEST_MODE_SOURCE_BLOCK = false ->
  has_flag flags DEST_MODE_SYN_PROXY = false ->
  let allowed := port_allowed (p_fam p) (p_dst p) (p_meta p) s in
  let frag := is_fragment (p_meta p) in
  (frag = true -> (xdp ctx s).1 = Return XDP_DROP) /\
  (frag = false -> allowed = true -> (xdp ctx s).1 = Return XDP_PASS) /\
  (frag = false -> allowed = false -> learn_leak_pps (global_cfg s).1 = 0 ->
   (xdp ctx s).1 = Return XDP_DROP).
Proof.
  intros Hp Hs Hb flags Hpf Hsb Hsp allowed frag.
  rewrite (xdp_run _ p), decide_run, Hb by done.
  pose proof (counters_frame ncpus (p_fam p) (p_dst p) s) as Hc.
  destruct (counters ncpus (p_fam p) (p_dst p) s) as [c s1]. cbn [snd] in Hc.
  replace (mode_of (p_fam p) (p_dst p) s =? DEST_MODE_NORMAL) with false.
  2: { symmetry. apply Z.eqb_neq. intros E. subst flags. by rewrite E in Hpf. }
  destruct (mitigate_port_filter clk cpu (p_fam p) ctx (p_dst p) (p_src p) (p_meta p) _
              (p_proxy p) c (global_cfg s).1 s1 Hpf Hsb Hsp) as (s2 & Hf & Hm).
  destruct (mitigate _ _ _ _ _ _ _ _ _ _ _ s1) as [r s3]. cbn [fst] in Hm. subst r.
  assert (Ha : port_allowed (p_fam p) (p_dst p) (p_meta p) s2 = allowed).
  { erewrite port_allowed_frame by exact Hf. by apply port_allowed_frame. }
  unfold fail_open; cbn. fold frag. split_and!.
  - by intros ->.
  - intros -> Hal. rewrite dest_policy_allowed by congruence. done.
  - intros -> Hal Hl. rewrite Hl, dest_policy_denied by congruence. done.
Qed.

(** A packet reaches the SYN proxy only as a TCP packet, not decapsulated,
    to a learned port of a defended destination whose SYN_PROXY flag is set,
    from a source that is not verified; in particular a GRE-encapsulated packet
    never does. *)
Theorem xdp_tail_call ctx s g :
  (xdp ctx s).1 = TailCall g ->
  exists p, parse ctx = Some p /\ p_fam p = g /\ p_proxy p = true /\
    in_scope g (p_dst p) s = true /\ blocked_source g (p_src p) s = false /\
    has_flag (mode_of g (p_dst p) s) DEST_MODE_SYN_PROXY = true /\
    proto (p_meta p) = PROTO_TCP /\ learned g (p_dst p) (p_meta p) s = true /\
    SYN_PROXY_JUMP s g = true /\
    unverified clk g (p_src p) (verified_ttl_ns (global_cfg s).1) s.
Proof.
  destruct (parse ctx) as [p|] eqn:Hp; [|by rewrite xdp_decide, Hp].
  destruct (in_scope (p_fam p) (p_dst p) s) eqn:Hs.
  2: { rewrite xdp_decide, Hp. cbn. unfold decide_parsed. by rewrite Hs. }
  rewrite (xdp_run _ p), decide_run by done.
  pose proof (counters_frame ncpus (p_fam p) (p_dst p) s) as Hc.
  destruct (counters ncpus (p_fam p) (p_dst p) s) as [c s1]. cbn [snd] in Hc.
  destruct (blocked_source (p_fam p) (p_src p) s) eqn:Hb; [done|].
  destruct (mode_of _ _ s =? DEST_MODE_NORMAL); [done|].
  pose proof (mitigate_jump clk cpu (p_fam p) ctx (p_dst p) (p_src p) (p_meta p)
                (mode_of (p_fam p) (p_dst p) s) (p_proxy p) c (global_cfg s).1 s1) as Hm.
  unfold wp in Hm. destruct (mitigate _ _ _ _ _ _ _ _ _ _ _ s1) as [r s3].
  destruct r as [v [|]|h]; try done. intros [= ->].
  destruct Hm as (-> & ? & ? & ? & Hl & Hj & Hv). exists p.
  rewrite (learned_frame _ _ _ _ _ Hc) in Hl.
  destruct Hc as [Hc (_ & _ & Ej)]. destruct (Hc (p_fam p)) as (_ & Ev & _).
  rewrite Ej in Hj. unfold unverified in *. rewrite Ev in Hv. by split_and!.
Qed.
End ingress_theorems.
