(* ===== verification/FwLimits.v ===== *)
(** * The rate machines of the datapath

    Bounds on the two fixed-window machines of [lnvps_ebpf/src/maps.rs]: the
    per-source gate and the per-destination learning leak.  The statements run
    the definitions of [FwMaps] and [FwDatapath] on sequences of packets. *)

From S2P Require Import Prelude FwCommon FwCidr FwBpf FwMaps FwNet FwDemo FwDatapath.

(** Run a computation once per element, collecting the results. *)
Fixpoint run_list {S A B} (m : A -> ST S B) (l : list A) : ST S (list B) :=
  match l with
  | [] => mret []
  | a :: l => b ← m a; bs ← run_list m l; mret (b :: bs)
  end.

(** How many elements satisfy a test. *)
Definition count_if {A} (p : A -> bool) (l : list A) : Z :=
  Z.of_nat (length (List.filter p l)).

Lemma count_if_cons {A} (p : A -> bool) a l :
  count_if p (a :: l) = (if p a then 1 else 0) + count_if p l.
Proof. unfold count_if. cbn. destruct (p a); cbn; lia. Qed.

(** Stepping a clock-reading computation. *)
Section limits.
Context `{!BpfKernel, !BpfKernelLaws} (clk : nat -> Z).

(** ** The per-source gate *)

(** The machine on one source's entry: the entry it stores and its verdict. *)
Definition gate_step (cfg : SrcRateConfig) (enforce : bool) (now : Z) (o : option SrcState)
    : SrcState * bool :=
  match o with
  | None => ({| window_start_ns := now; count := 1; blocked_until_ns := 0 |}, false)
  | Some st =>
      let rolled := window_ns cfg <=? wsub 64 now (window_start_ns st) in
      let cnt := wadd 64 (if rolled then 0 else count st) 1 in
      let blocked := if enforce && (max_per_window cfg <? cnt)
                     then wadd 64 now (cooldown_ns cfg) else blocked_until_ns st in
      ({| window_start_ns := if rolled then now else window_start_ns st;
          count := cnt; blocked_until_ns := blocked |}, enforce && (now <? blocked))
  end.

Definition gate_on (cfg : SrcRateConfig) : Prop := max_per_window cfg <> 0 /\ window_ns cfg <> 0.

Lemma src_gate_step f src cfg enforce s :
  gate_on cfg ->
  wp (src_gate clk f src cfg enforce)
    (fun b s' =>
       let r := gate_step cfg enforce (clk (x_reads s)) (hget src (SRC_STATE (x_fam s f))) in
       b = r.2 /\ hget src (SRC_STATE (x_fam s' f)) = Some r.1 /\ x_reads s' = S (x_reads s) /\
       (forall k st, k <> src -> hget k (SRC_STATE (x_fam s' f)) = Some st ->
          hget k (SRC_STATE (x_fam s f)) = Some st)) s.
Proof.
  intros [Hm Hw]. unfold src_gate, getm.
  rewrite (proj2 (Z.eqb_neq _ _) Hm), (proj2 (Z.eqb_neq _ _) Hw). cbn [orb].
  apply wp_bind. red. cbn [ktime fst snd]. apply wp_bind, wp_gets. cbn [x_fam].
  unfold gate_step. destruct (hget src _) as [st|] eqn:E.
  - destruct (window_ns cfg <=? _); cbn [fst snd]; apply wp_bind, wp_modify, wp_ret;
      cbn; rewrite !decide_True by done; cbn; rewrite hget_hset by eauto;
      split_and!; try done; intros k st' Hk; by rewrite hget_hset_ne.
  - apply wp_bind, wp_modify, wp_ret. cbn. rewrite !decide_True by done. cbn.
    rewrite hget_hput. split_and!; try done.
    intros k st' Hk. by apply hget_hput_ne.
Qed.

Lemma src_gate_disabled f src cfg enforce s :
  ~ gate_on cfg -> src_gate clk f src cfg enforce s = (false, s).
Proof.
  unfold gate_on, src_gate. intros Hg.
  destruct (Z.eqb_spec (max_per_window cfg) 0), (Z.eqb_spec (window_ns cfg) 0); try done.
  destruct Hg. done.
Qed.

(** Without SOURCE_BLOCK enforcement the gate drops nothing and flags no
    source: whatever the source's rate, no entry's [blocked_until] moves, and a
    new entry is unblocked. *)
Theorem gate_never_flags_unenforced f src cfg s :
  let '(b, s') := src_gate clk f src cfg false s in
  b = false /\
  forall k st', hget k (SRC_STATE (x_fam s' f)) = Some st' ->
    match hget k (SRC_STATE (x_fam s f)) with
    | Some st => blocked_until_ns st' = blocked_until_ns st
    | None => blocked_until_ns st' = 0
    end.
Proof.
  pose proof (src_gate_off clk f src cfg s) as Hb.
  destruct (decide (max_per_window cfg <> 0 /\ window_ns cfg <> 0)) as [Hon|Hoff].
  - pose proof (src_gate_step f src cfg false s Hon) as Hg. unfold wp in Hg.
    destruct (src_gate clk f src cfg false s) as [b s']. cbn [fst snd] in *.
    destruct Hg as (_ & Es & _ & Eo). split; [done|]. intros k st' Hk.
    destruct (decide (k = src)) as [->|Hne].
    + rewrite Es in Hk. simplify_eq.
      by destruct (hget src (SRC_STATE (x_fam s f))) as [st|].
    + by rewrite (Eo _ _ Hne Hk).
  - rewrite src_gate_disabled by done. split; [done|]. intros k st' ->. done.
Qed.

(** A source that floods for one window, [n] packets of it already counted. *)
Lemma gate_flood {A} f src cfg (l : list A) : forall n s,
  gate_on cfg -> 0 < cooldown_ns cfg -> 0 <= max_per_window cfg ->
  0 <= n -> n + Z.of_nat (length l) < 2 ^ 64 ->
  forall start blocked,
  hget src (SRC_STATE (x_fam s f)) =
    Some {| window_start_ns := start; count := n; blocked_until_ns := blocked |} ->
  (n <= max_per_window cfg -> blocked = 0) ->
  (forall i, (x_reads s <= i)%nat -> 0 <= start <= clk i /\ clk i < start + window_ns cfg /\
     clk i + cooldown_ns cfg < 2 ^ 64) ->
  (run_list (fun _ => src_gate clk f src cfg true) l s).1 =
  imap (fun k _ => max_per_window cfg <? n + Z.of_nat k + 1) l.
Proof.
  induction l as [|a l IH]; intros n s Hon Hcd Hmax Hn Hm start blocked E Hb Hclk; [done|].
  cbn [run_list]. rewrite bind_run.
  pose proof (src_gate_step f src cfg true s Hon) as Hg. unfold wp in Hg.
  destruct (src_gate clk f src cfg true s) as [b s1]. cbn [fst snd] in *.
  destruct Hg as (-> & Es & Er & _). rewrite E in *.
  destruct (Hclk (x_reads s) (le_n _)) as (Hs & Hw & Hc). cbn [length] in Hm.
  assert (Hroll : (window_ns cfg <=? wsub 64 (clk (x_reads s)) start) = false).
  { apply Z.leb_gt. rewrite wsub_small by lia. lia. }
  cbn in Es. rewrite Hroll, (wadd_small 64 n 1), (wadd_small 64 (clk _)) in Es by lia.
  rewrite bind_run, ret_run, imap_cons. cbn [fst snd]. f_equal.
  - unfold gate_step; cbn. rewrite Hroll, wadd_small, wadd_small by lia.
    replace (n + Z.of_nat 0 + 1) with (n + 1) by lia.
    destruct (Z.ltb_spec (max_per_window cfg) (n + 1)).
    + apply Z.ltb_lt. lia.
    + rewrite Hb by lia. apply Z.ltb_ge. lia.
  - erewrite (IH (n + 1)); [|done|lia..|exact Es| |].
    + apply imap_ext. intros k ? ?. cbn. f_equal. lia.
    + intros Hle. cbn. destruct (Z.ltb_spec (max_per_window cfg) (n + 1)); [lia|].
      apply Hb. lia.
    + intros i Hi. apply Hclk. lia.
Qed.

(** A source the gate has not seen, sending any number of packets within
    one window, has exactly the packets beyond [max_per_window] dropped while
    SOURCE_BLOCK is enforced. *)
Theorem gate_drops_excess {A} f src cfg (l : list A) s :
  gate_on cfg -> 0 < cooldown_ns cfg -> 0 <= max_per_window cfg ->
  Z.of_nat (length l) < 2 ^ 64 ->
  hget src (SRC_STATE (x_fam s f)) = None ->
  (forall i, (x_reads s <= i)%nat ->
     0 <= clk (x_reads s) <= clk i /\ clk i < clk (x_reads s) + window_ns cfg /\
     clk i + cooldown_ns cfg < 2 ^ 64) ->
  (run_list (fun _ => src_gate clk f src cfg true) l s).1 =
  imap (fun k _ => max_per_window cfg <? Z.of_nat k + 1) l.
Proof.
  intros Hon Hcd Hmax Hl E Hclk. destruct l as [|a l]; [done|].
  cbn [run_list]. rewrite bind_run.
  pose proof (src_gate_step f src cfg true s Hon) as Hg. unfold wp in Hg.
  destruct (src_gate clk f src cfg true s) as [b s1]. cbn [fst snd] in *.
  destruct Hg as (-> & Es & Er & _). rewrite E in *. cbn in Es. cbn [length] in Hl.
  rewrite bind_run, ret_run, imap_cons. cbn [fst snd]. f_equal.
  - cbn. destruct Hon. symmetry. apply Z.ltb_ge. lia.
  - erewrite (gate_flood _ _ _ _ 1); [|done|lia..|exact Es|done|].
    + apply imap_ext. intros k ? ?. cbn. f_equal. lia.
    + intros i Hi. apply Hclk. lia.
Qed.

(** Once a source is blocked, every packet it sends before [blocked_until]
    is dropped under enforcement, and the block is never shortened. *)
Theorem gate_block_holds f src cfg s st :
  gate_on cfg -> hget src (SRC_STATE (x_fam s f)) = Some st ->
  0 <= clk (x_reads s) < blocked_until_ns st ->
  blocked_until_ns st <= clk (x_reads s) + cooldown_ns cfg < 2 ^ 64 ->
  let '(b, s') := src_gate clk f src cfg true s in
  b = true /\
  exists st', hget src (SRC_STATE (x_fam s' f)) = Some st' /\
    blocked_until_ns st <= blocked_until_ns st'.
Proof.
  intros Hon E Hnow Hcd. pose proof (src_gate_step f src cfg true s Hon) as Hg.
  unfold wp in Hg. destruct (src_gate clk f src cfg true s) as [b s']. cbn [fst snd] in *.
  destruct Hg as (-> & Es & _). rewrite E in *. cbn in *.
  rewrite (wadd_small 64 (clk _)) in * by lia.
  split; [|eexists; split; [exact Es|cbn]].
  - apply Z.ltb_lt. destruct (_ <? wadd _ _ _); lia.
  - destruct (_ <? wadd _ _ _); lia.
Qed.

(** ** The learning leak *)
Section leak.
Context `{!BpfKernelFull} (f : family) (d : Addr) (budget t : Z).
Hypothesis (Hbudget : 0 < budget < 2 ^ 32).
Hypothesis (Ht : 0 <= t).

(** How many more packets the machine may let through to [d] before a second
    has passed since [t]. *)
Definition leak_left (s : XState) : Z :=
  match hget d (LEARN_LEAK (x_fam s f)) with
  | None => budget
  | Some b => Z.max 0 (budget - count b) + (if window_start_ns b <? t then budget else 0)
  end.

(** The clock stays within one second of [t] and never goes back past the
    start of [d]'s window. *)
Definition leak_ok (s : XState) : Prop :=
  (forall i, (x_reads s <= i)%nat -> t <= clk i < t + 1000000000 /\ clk i < 2 ^ 64) /\
  (forall i j, (x_reads s <= i <= j)%nat -> clk i <= clk j) /\
  (forall b, hget d (LEARN_LEAK (x_fam s f)) = Some b ->
     0 <= count b /\ 0 <= window_start_ns b /\
     forall i, (x_reads s <= i)%nat -> window_start_ns b <= clk i).

Lemma leak_left_bound s : leak_ok s -> 0 <= leak_left s <= 2 * budget.
Proof.
  intros (_ & _ & Hb). unfold leak_left. destruct (hget d _) as [b|]; [|lia].
  destruct (Hb b eq_refl) as (? & ? & _). destruct (_ <? t); lia.
Qed.

(** The states that agree on [d]'s entry, with a clock that moved on. *)
Lemma leak_ok_step s s' :
  leak_ok s -> (x_reads s <= x_reads s')%nat ->
  hget d (LEARN_LEAK (x_fam s' f)) = hget d (LEARN_LEAK (x_fam s f)) ->
  leak_ok s' /\ leak_left s' = leak_left s.
Proof.
  intros (Hclk & Hmono & Hent) Hr E. unfold leak_left. rewrite E. split; [|done].
  split_and!; [intros; apply Hclk; lia|intros; apply Hmono; lia|].
  rewrite E. intros b Hb. destruct (Hent b Hb) as (? & ? & Hs).
  split_and!; [done..|]. intros i Hi. apply Hs. lia.
Qed.

(** A leaked packet to [d] costs one; nothing gives credit back. *)
Definition pays (d' : Addr) (b : bool) (s s' : XState) : Prop :=
  leak_ok s' /\ leak_left s' + (if decide (d' = d) then if b then 1 else 0 else 0) <= leak_left s.

Lemma pays_same s s' d' :
  leak_ok s -> (x_reads s <= x_reads s')%nat ->
  hget d (LEARN_LEAK (x_fam s' f)) = hget d (LEARN_LEAK (x_fam s f)) ->
  pays d' false s s'.
Proof.
  intros Hs Hr E. destruct (leak_ok_step s s' Hs Hr E) as [? E']. unfold pays. rewrite E'.
  split; [done|]. destruct (decide _); lia.
Qed.

(** A new window of [d] opened at the clock's reading. *)
Lemma pays_write s s' b st :
  leak_ok s -> x_reads s' = S (x_reads s) ->
  hget d (LEARN_LEAK (x_fam s' f)) = Some st ->
  0 <= count st -> 0 <= window_start_ns st <= clk (x_reads s) ->
  Z.max 0 (budget - count st) + (if window_start_ns st <? t then budget else 0)
    + (if b : bool then 1 else 0) <= leak_left s ->
  pays d b s s'.
Proof.
  intros (Hclk & Hmono & _) Hr E Hc Hst Hle. unfold pays, leak_left at 1, leak_ok.
  rewrite E, Hr, decide_True by done. split; [|done].
  split_and!; [intros; apply Hclk; lia|intros; apply Hmono; lia|].
  intros b' [= <-]. split_and!; [lia..|]. intros i Hi.
  etrans; [apply Hst|apply Hmono; lia].
Qed.

Lemma learn_budget_pays d' s :
  leak_ok s -> wp (learn_budget clk f d' budget) (fun b s' => pays d' b s s') s.
Proof.
  intros Hs. unfold learn_budget, getm, upd_fam.
  rewrite (proj2 (Z.eqb_neq budget 0)) by lia.
  apply wp_bind. red. cbn [ktime fst snd]. apply wp_bind, wp_gets. cbn [x_fam].
  destruct (decide (d' = d)) as [->|Hne].
  - pose proof Hs as (Hclk & _ & Hent). specialize (Hclk (x_reads s) (le_n _)).
    assert (El : leak_left s = leak_left s) by done. unfold leak_left in El at 1.
    destruct (hget d _) as [b|] eqn:E.
    + destruct (Hent b eq_refl) as (Hc & Hst & Hle). specialize (Hle _ (le_n _)).
      rewrite wsub_small by lia.
      destruct (Z.leb_spec 1000000000 (clk (x_reads s) - window_start_ns b)).
      * rewrite (proj2 (Z.leb_gt budget 0)) by lia.
        apply wp_bind, wp_modify, wp_ret. eapply pays_write; [done|done| |..].
        { cbn. rewrite decide_True by done. cbn. by rewrite hget_hset by eauto. }
        all: cbn; rewrite ?(wadd_small 64 0 1) by lia; try lia.
        rewrite (proj2 (Z.ltb_ge (clk _) t)) by lia.
        rewrite (proj2 (Z.ltb_lt (window_start_ns b) t)) in El by lia. lia.
      * destruct (Z.leb_spec budget (count b)).
        -- apply wp_bind, wp_modify, wp_ret. eapply pays_write; [done|done| |..].
           { cbn. rewrite decide_True by done. cbn. by rewrite hget_hset by eauto. }
           all: cbn; lia.
        -- apply wp_bind, wp_modify, wp_ret. eapply pays_write; [done|done| |..].
           { cbn. rewrite decide_True by done. cbn. by rewrite hget_hset by eauto. }
           all: cbn; rewrite ?(wadd_small 64 (count b) 1) by lia; lia.
    + apply wp_bind, wp_modify, wp_ret. eapply pays_write; [done|done| |..].
      { cbn. rewrite decide_True by done. cbn. by rewrite hget_hput. }
      all: cbn; try lia.
      rewrite (proj2 (Z.ltb_ge (clk _) t)) by lia. lia.
  - assert (forall b s', x_reads s' = S (x_reads s) ->
      hget d (LEARN_LEAK (x_fam s' f)) = hget d (LEARN_LEAK (x_fam s f)) ->
      pays d' b s s') as Hsame.
    { intros b s' Hr E. destruct (leak_ok_step s s' Hs) as [? El]; [lia|done|].
      unfold pays. rewrite El, decide_False by done. split; [done|lia]. }
    repeat case_match; apply wp_bind, wp_modify, wp_ret; apply Hsame; try done;
      cbn; rewrite decide_True by done; cbn;
      by rewrite ?hget_hset_ne, ?hget_hput_keep by congruence.
Qed.

Lemma learn_leak_pays d' port proto s :
  leak_ok s -> wp (learn_leak clk f d' port proto budget) (fun b s' => pays d' b s s') s.
Proof.
  intros Hs. unfold learn_leak, getm, upd_fam.
  rewrite (proj2 (Z.eqb_neq budget 0)) by lia.
  apply wp_bind. red. cbn [ktime fst snd]. apply wp_bind, wp_gets. cbn [x_fam].
  match goal with |- wp _ _ ?st => set (s1 := st) end.
  destruct (leak_ok_step s s1 Hs) as [Hs1 E1]; [cbn; lia|done|].
  destruct (probe_phase _ _) as [new|]; [|apply wp_ret, pays_same; cbn; eauto].
  apply wp_bind. eapply wp_mono; [apply (learn_budget_pays d' s1 Hs1)|].
  intros b s2 [Hs2 E2]. rewrite E1 in E2. cbv beta.
  destruct b; cbn [negb]; [|by apply wp_ret].
  apply wp_bind. destruct new; [apply wp_modify|apply wp_ret]; apply wp_ret; [|by split].
  edestruct (leak_ok_step s2) as [? El]; [done| | |split; [done|rewrite El; done]];
    cbn; rewrite ?decide_True by done; done.
Qed.

(** The packets of [l] sent to [d] and let through. *)
Definition leaked (l : list (Addr * Z * Z)) (passed : list bool) : Z :=
  count_if (fun x => bool_decide (x.1.1.1 = d) && x.2) (zip l passed).

Lemma leak_run l s :
  leak_ok s ->
  wp (run_list (fun x : Addr * Z * Z => learn_leak clk f x.1.1 x.1.2 x.2 budget) l)
     (fun bs s' => leak_ok s' /\ leak_left s' + leaked l bs <= leak_left s) s.
Proof.
  revert s. induction l as [|x l IH]; intros s Hs; cbn [run_list].
  - apply wp_ret. split; [done|]. unfold leaked, count_if. cbn. lia.
  - apply wp_bind. eapply wp_mono; [by apply learn_leak_pays|]. intros b s1 [Hs1 E1].
    apply wp_bind. eapply wp_mono; [by apply IH|]. intros bs s2 [Hs2 E2].
    apply wp_ret. split; [done|].
    unfold leaked in *. cbn [zip zip_with]. rewrite count_if_cons. cbn [fst snd].
    destruct (decide (x.1.1 = d)) as [Ed|Ed];
      [rewrite (bool_decide_true _ Ed)|rewrite (bool_decide_false _ Ed)];
      destruct b; cbn [andb]; lia.
Qed.
End leak.

(** Over any second, whatever packets to unlearned ports arrive at whatever
    destinations, the learning leak lets at most twice the budget through to
    one destination, and at most the budget if it had no window open. *)
Theorem leak_bounded `{!BpfKernelFull} f d budget l s :
  0 < budget < 2 ^ 32 ->
  leak_ok f d (clk (x_reads s)) s ->
  0 <= clk (x_reads s) ->
  let passed := leaked d l (run_list (fun x : Addr * Z * Z =>
                  learn_leak clk f x.1.1 x.1.2 x.2 budget) l s).1 in
  passed <= 2 * budget /\
  (hget d (LEARN_LEAK (x_fam s f)) = None -> passed <= budget).
Proof.
  intros Hb Hs Ht. pose proof (leak_run f d budget _ Hb Ht l s Hs) as Hr.
  unfold wp in Hr. destruct (run_list _ l s) as [bs s']. cbn [fst snd] in *.
  destruct Hr as [Hs' Hr].
  pose proof (leak_left_bound f d budget _ Hb s Hs).
  pose proof (leak_left_bound f d budget _ Hb s' Hs').
  split; [lia|]. intros E. unfold leak_left in Hr at 2. rewrite E in Hr. lia.
Qed.
End limits.
