(* ===== verification/FwDetect.v ===== *)
(** * Attack detection ([lnvps_fw/lnvps_fw_service/src/detect.rs])

    Counter snapshots become rates, rates drive the per-destination
    NORMAL/PORT_FILTER machine with entry thresholds, exit hysteresis and a
    cooldown.  The code's [&mut] arguments are returned values here. *)

From S2P Require Import Prelude FwCommon.

(** ** Data *)

Record Rates := { pps : Z; syn_pps : Z; bps : Z; drop_pps : Z; pass_pps : Z }.
Definition Rates_default : Rates :=
  {| pps := 0; syn_pps := 0; bps := 0; drop_pps := 0; pass_pps := 0 |}.

Record DetectionConfig := {
  entry_pps : Z; entry_syn_pps : Z; entry_bps : Z; exit_pct : Z; exit_cooldown_ns : Z }.

Inductive Transition := TNone | TEntered | TExited.
#[export] Instance Transition_eq_dec : EqDecision Transition.
Proof. solve_decision. Defined.

Record DestTracker := {
  tr_prev : DestCounters;
  tr_mode : Z;
  tr_flags : Z;
  below_since_ns : option Z;
  tr_peak : Rates;
  tr_last : Rates;
  tr_last_ns : Z }.

Definition DestTracker_default : DestTracker :=
  {| tr_prev := DestCounters_default; tr_mode := DEST_MODE_NORMAL; tr_flags := DEST_MODE_NORMAL;
     below_since_ns := None; tr_peak := Rates_default; tr_last := Rates_default; tr_last_ns := 0 |}.

(** ** Rates *)

(** [((delta as u128 * 1_000_000_000) / elapsed as u128) as u64]: the product of
    two 64-bit numbers does not wrap in 128 bits. *)
Definition per_sec (elapsed_ns delta : Z) : Z := wrap 64 (delta * 1000000000 / elapsed_ns).

Definition compute_rates (pre cur : DestCounters) (elapsed_ns : Z) : Rates :=
  if elapsed_ns =? 0 then Rates_default
  else
    let cur_pass := sat_sub (packets cur) (dropped cur) in
    let prev_pass := sat_sub (packets pre) (dropped pre) in
    {| pps := per_sec elapsed_ns (sat_sub (packets cur) (packets pre));
       syn_pps := per_sec elapsed_ns (sat_sub (syn_packets cur) (syn_packets pre));
       bps := per_sec elapsed_ns (sat_sub (bytes cur) (bytes pre));
       drop_pps := per_sec elapsed_ns (sat_sub (dropped cur) (dropped pre));
       pass_pps := per_sec elapsed_ns (sat_sub cur_pass prev_pass) |}.

Definition exceeds_entry (rates : Rates) (cfg : DetectionConfig) : bool :=
  (entry_pps cfg <=? pps rates) || (entry_syn_pps cfg <=? syn_pps rates)
  || (entry_bps cfg <=? bps rates).

Definition exit_threshold (cfg : DetectionConfig) (threshold : Z) : Z :=
  sat_mul 64 threshold (exit_pct cfg) / 100.

Definition below_exit (rates : Rates) (cfg : DetectionConfig) : bool :=
  (pps rates <? exit_threshold cfg (entry_pps cfg))
  && (syn_pps rates <? exit_threshold cfg (entry_syn_pps cfg))
  && (bps rates <? exit_threshold cfg (entry_bps cfg)).

(** ** The state machine *)

Definition evaluate (md : Z) (rates : Rates) (cfg : DetectionConfig) (now_ns : Z)
    (below : option Z) : Z * Transition * option Z :=
  if md =? DEST_MODE_NORMAL then
    if exceeds_entry rates cfg then (DEST_MODE_PORT_FILTER, TEntered, None)
    else (DEST_MODE_NORMAL, TNone, below)
  else if below_exit rates cfg then
    let since := default now_ns below in
    if exit_cooldown_ns cfg <=? sat_sub now_ns since
    then (DEST_MODE_NORMAL, TExited, None)
    else (DEST_MODE_PORT_FILTER, TNone, Some since)
  else (DEST_MODE_PORT_FILTER, TNone, None).

Definition max_rates (a b : Rates) : Rates :=
  {| pps := Z.max (pps a) (pps b); syn_pps := Z.max (syn_pps a) (syn_pps b);
     bps := Z.max (bps a) (bps b); drop_pps := Z.max (drop_pps a) (drop_pps b);
     pass_pps := Z.max (pass_pps a) (pass_pps b) |}.

Definition process_sample (cur : DestCounters) (tracker : DestTracker)
    (cfg : DetectionConfig) (now_ns elapsed_ns : Z) : Transition * Rates * DestTracker :=
  let rates := compute_rates (tr_prev tracker) cur elapsed_ns in
  let '(md, transition, below) :=
    evaluate (tr_mode tracker) rates cfg now_ns (below_since_ns tracker) in
  let pk :=
    match transition with
    | TEntered => rates
    | _ => if md =? DEST_MODE_PORT_FILTER then max_rates (tr_peak tracker) rates
           else tr_peak tracker
    end in
  (transition, rates,
   {| tr_prev := cur; tr_mode := md; tr_flags := tr_flags tracker; below_since_ns := below;
      tr_peak := pk; tr_last := rates; tr_last_ns := now_ns |}).

(** ** Rates: the window's delta, per second *)

Lemma per_sec_bounds elapsed delta :
  0 < elapsed -> 0 <= delta -> delta * 1000000000 / elapsed < 2 ^ 64 ->
  per_sec elapsed delta = delta * 1000000000 / elapsed.
Proof. intros. apply wrap_small. split; [apply Z.div_pos; lia|done]. Qed.

(** A counter that did not grow. *)
Lemma per_sec_reset elapsed cur pre : cur <= pre -> per_sec elapsed (sat_sub cur pre) = 0.
Proof. intros. unfold sat_sub. by rewrite Z.max_l by lia. Qed.

(** What the caller may change of a tracker between two samples: the flags it
    wrote to the trie, and the peak once the episode is over. *)
Record retag (t t' : DestTracker) : Prop := {
  retag_prev : tr_prev t' = tr_prev t;
  retag_mode : tr_mode t' = tr_mode t;
  retag_below : below_since_ns t' = below_since_ns t;
  retag_peak : tr_mode t <> DEST_MODE_NORMAL -> tr_peak t' = tr_peak t }.

Lemma retag_refl t : retag t t.
Proof. by constructor. Qed.

(** One processed sample, as seen from outside. *)
Record Obs := { o_now : Z; o_rates : Rates; o_transition : Transition }.

(** The trackers a sequence of samples leads to. *)
Inductive reaches (cfg : DetectionConfig) : list Obs -> DestTracker -> Prop :=
| reaches_init : reaches cfg [] DestTracker_default
| reaches_step h t cur now elapsed x r t1 t' :
    reaches cfg h t -> process_sample cur t cfg now elapsed = (x, r, t1) -> retag t1 t' ->
    reaches cfg (h ++ [{| o_now := now; o_rates := r; o_transition := x |}]) t'.

(** [a] is at least [b] on every axis. *)
Definition rates_le (b a : Rates) : Prop :=
  pps b <= pps a /\ syn_pps b <= syn_pps a /\ bps b <= bps a /\
  drop_pps b <= drop_pps a /\ pass_pps b <= pass_pps a.
#[export] Instance rates_le_preorder : PreOrder rates_le.
Proof. split; [|intros ???]; unfold rates_le; [intros ?|]; lia. Qed.
Lemma max_rates_l a b : rates_le a (max_rates a b).
Proof. unfold rates_le; cbn; lia. Qed.
Lemma max_rates_r a b : rates_le b (max_rates a b).
Proof. unfold rates_le; cbn; lia. Qed.

Definition keeps_going (o : Obs) : Prop := o_transition o = TNone.
Definition is_quiet (cfg : DetectionConfig) (o : Obs) : Prop := below_exit (o_rates o) cfg = true.

(** A running episode: entered by [e], since [q] quiet. *)
Record episode (cfg : DetectionConfig) (h : list Obs) (t : DestTracker) (e : Obs)
    (mid q : list Obs) : Prop := {
  ep_entered : o_transition e = TEntered /\ exceeds_entry (o_rates e) cfg = true;
  ep_steady : Forall keeps_going (mid ++ q);
  ep_quiet : Forall (is_quiet cfg) q;
  ep_since : below_since_ns t = o_now <$> head q;
  ep_peak : Forall (fun o => rates_le (o_rates o) (tr_peak t)) (e :: mid ++ q) }.

Definition tracker_inv (cfg : DetectionConfig) (h : list Obs) (t : DestTracker) : Prop :=
  (tr_mode t = DEST_MODE_NORMAL /\ below_since_ns t = None) \/
  (tr_mode t = DEST_MODE_PORT_FILTER /\
   exists pre e mid q, h = pre ++ e :: mid ++ q /\ episode cfg h t e mid q).

Lemma reaches_inv cfg h t : reaches cfg h t -> tracker_inv cfg h t.
Proof.
  induction 1 as [|h t cur now el x r t1 t' Hr IH Hp [Ep Em Eb Ek]]; [by left|].
  unfold process_sample, evaluate in Hp.
  remember (compute_rates _ _ _) as rs eqn:Ers in Hp; clear Ers.
  destruct IH as [[Hm Hb]|(Hm & pre & e & mid & q & -> & Hep)]; rewrite Hm in Hp; cbn in Hp.
  - destruct (exceeds_entry rs cfg) eqn:Ex; injection Hp as <- <- <-; cbn in *.
    + right. split; [done|]. exists h, {| o_now := now; o_rates := rs; o_transition := TEntered |}, [], [].
      split; [done|]. constructor; cbn; [done|constructor|constructor|done|].
      specialize (Ek ltac:(done)). repeat constructor; cbn; by rewrite Ek.
    + left. by rewrite Em, Eb.
  - destruct Hep as [He Hs Hq Hsince Hpk]. destruct (below_exit rs cfg) eqn:Ex.
    + destruct (exit_cooldown_ns cfg <=? _) eqn:Ec; injection Hp as <- <- <-; cbn in *; [by left; rewrite Em, Eb|].
      right. split; [done|]. specialize (Ek ltac:(done)).
      exists pre, e, mid, (q ++ [{| o_now := now; o_rates := rs; o_transition := TNone |}]).
      split; [by rewrite <- !app_assoc; cbn; rewrite <- app_assoc|].
      constructor; [done| | | |].
      * rewrite app_assoc. apply Forall_app_2; [done|]. by repeat constructor.
      * apply Forall_app_2; [done|]. by repeat constructor.
      * rewrite Eb, Hsince. by destruct q.
      * rewrite app_assoc, app_comm_cons. rewrite Ek. apply Forall_app_2.
        -- eapply Forall_impl; [exact Hpk|]. intros o Ho. etrans; [exact Ho|apply max_rates_l].
        -- repeat constructor; apply max_rates_r.
    + injection Hp as <- <- <-; cbn in *. right. split; [done|]. specialize (Ek ltac:(done)).
      exists pre, e, (mid ++ q ++ [{| o_now := now; o_rates := rs; o_transition := TNone |}]), [].
      rewrite !app_nil_r, <- app_assoc; cbn. rewrite <- !app_assoc. split; [done|].
      constructor; [done| |done|done|].
      * rewrite app_nil_r, app_assoc. apply Forall_app_2; [done|]. by repeat constructor.
      * rewrite app_nil_r, app_assoc, app_comm_cons, Ek. apply Forall_app_2.
        -- eapply Forall_impl; [exact Hpk|]. intros o Ho. etrans; [exact Ho|apply max_rates_l].
        -- repeat constructor; apply max_rates_r.
Qed.

(** A destination leaves mitigation only at the end of an episode: some
    earlier sample tripped an entry threshold, every sample since kept it
    mitigating, and the samples that end with the exiting one were all below the
    exit thresholds for at least the cooldown. *)
Theorem exit_after_cooldown cfg h t cur now elapsed r t1 :
  reaches cfg h t ->
  process_sample cur t cfg now elapsed = (TExited, r, t1) ->
  exists pre e mid q,
    h = pre ++ e :: mid ++ q /\
    o_transition e = TEntered /\ exceeds_entry (o_rates e) cfg = true /\
    Forall keeps_going (mid ++ q) /\
    Forall (is_quiet cfg) q /\ below_exit r cfg = true /\
    exit_cooldown_ns cfg <= sat_sub now (default now (o_now <$> head q)).
Proof.
  intros Hr Hp. apply reaches_inv in Hr as [[Hm _]|(Hm & pre & e & mid & q & -> & [[] ? ? Hs _])].
  - unfold process_sample, evaluate in Hp. rewrite Hm in Hp. cbn in Hp.
    by destruct (exceeds_entry _ cfg).
  - exists pre, e, mid, q. unfold process_sample, evaluate in Hp. rewrite Hm, Hs in Hp. cbn in Hp.
    destruct (below_exit _ cfg) eqn:Ex; [|by simplify_eq].
    destruct (Z.leb_spec (exit_cooldown_ns cfg) (sat_sub now (default now (o_now <$> head q))));
      cbn in Hp; [|by simplify_eq].
    injection Hp as <- <-. by split_and!.
Qed.

(** During an episode the recorded peak is at least the rates of every sample
    since the destination entered mitigation. *)
Theorem peak_dominates cfg h t :
  reaches cfg h t -> tr_mode t <> DEST_MODE_NORMAL ->
  exists pre e rest,
    h = pre ++ e :: rest /\ o_transition e = TEntered /\ Forall keeps_going rest /\
    Forall (fun o => rates_le (o_rates o) (tr_peak t)) (e :: rest).
Proof.
  intros Hr Hm. apply reaches_inv in Hr as [[Hn _]|(_ & pre & e & mid & q & -> & [[] ? ? _ ?])];
    [done|]. by exists pre, e, (mid ++ q).
Qed.

(** ** Hysteresis *)

Lemma exit_threshold_le cfg th :
  0 <= th -> 0 <= exit_pct cfg <= 100 -> exit_threshold cfg th <= th.
Proof.
  intros. unfold exit_threshold. apply Z.div_le_upper_bound; [lia|].
  etrans; [apply sat_mul_le|]. nia.
Qed.

Lemma exceeds_not_below cfg r :
  0 <= entry_pps cfg -> 0 <= entry_syn_pps cfg -> 0 <= entry_bps cfg ->
  0 <= exit_pct cfg <= 100 -> below_exit r cfg && exceeds_entry r cfg = false.
Proof.
  intros Hp Hs Hb Hx. apply not_true_iff_false. unfold below_exit, exceeds_entry. intros H.
  apply andb_prop in H as [H1 H2]. apply andb_prop in H1 as [H1 H5].
  apply andb_prop in H1 as [H3 H4]. rewrite !orb_true_iff in H2. zbool.
  pose proof (exit_threshold_le cfg _ Hp Hx). pose proof (exit_threshold_le cfg _ Hs Hx).
  pose proof (exit_threshold_le cfg _ Hb Hx). lia.
Qed.

(** With an exit percentage of at most 100, no rates both leave mitigation
    and re-enter it: a sample that is below the exit thresholds keeps a normal
    destination normal, and one at an entry threshold keeps a mitigated
    destination mitigated, whatever the cooldown. *)
Theorem no_flapping cfg r now below :
  0 <= entry_pps cfg -> 0 <= entry_syn_pps cfg -> 0 <= entry_bps cfg ->
  0 <= exit_pct cfg <= 100 ->
  (below_exit r cfg = true ->
   evaluate DEST_MODE_NORMAL r cfg now below = (DEST_MODE_NORMAL, TNone, below)) /\
  (exceeds_entry r cfg = true ->
   evaluate DEST_MODE_PORT_FILTER r cfg now below = (DEST_MODE_PORT_FILTER, TNone, None)).
Proof.
  intros Hp Hs Hb Hx.
  pose proof (exceeds_not_below cfg r Hp Hs Hb Hx) as Hno.
  unfold evaluate; cbn. destruct (below_exit r cfg), (exceeds_entry r cfg); done.
Qed.

(** ** Silence ends mitigation *)

Lemma compute_rates_same c elapsed : compute_rates c c elapsed = Rates_default.
Proof.
  unfold compute_rates. destruct (elapsed =? 0); [done|].
  rewrite !per_sec_reset by lia. done.
Qed.

(** The samples of a destination that went silent, at the given times: the
    cumulative counters do not move. *)
Fixpoint silent_run (cfg : DetectionConfig) (t : DestTracker) (ticks : list (Z * Z))
    : list Transition * DestTracker :=
  match ticks with
  | [] => ([], t)
  | (now, elapsed) :: ticks =>
      let '(x, _, t1) := process_sample (tr_prev t) t cfg now elapsed in
      let '(xs, t2) := silent_run cfg t1 ticks in
      (x :: xs, t2)
  end.

(** The exit thresholds are not zero: silence is below them. *)
Definition can_exit (cfg : DetectionConfig) : Prop :=
  0 < exit_threshold cfg (entry_pps cfg) /\ 0 < exit_threshold cfg (entry_syn_pps cfg) /\
  0 < exit_threshold cfg (entry_bps cfg).

Lemma silent_below cfg : can_exit cfg -> below_exit Rates_default cfg = true.
Proof.
  intros (H1 & H2 & H3). unfold below_exit; cbn.
  by rewrite (proj2 (Z.ltb_lt _ _) H1), (proj2 (Z.ltb_lt _ _) H2), (proj2 (Z.ltb_lt _ _) H3).
Qed.

(** A silent sample of a mitigated destination. *)
Lemma silent_step cfg t now elapsed :
  can_exit cfg -> tr_mode t <> DEST_MODE_NORMAL ->
  let since := default now (below_since_ns t) in
  exists t1,
    process_sample (tr_prev t) t cfg now elapsed =
      (if exit_cooldown_ns cfg <=? sat_sub now since then TExited else TNone, Rates_default, t1) /\
    ((exit_cooldown_ns cfg <=? sat_sub now since) = false ->
     tr_mode t1 = DEST_MODE_PORT_FILTER /\ below_since_ns t1 = Some since).
Proof.
  intros Hc Hm since. unfold process_sample, evaluate.
  rewrite compute_rates_same, (proj2 (Z.eqb_neq _ _) Hm), silent_below by done. cbn. fold since.
  destruct (exit_cooldown_ns cfg <=? _); eexists; split; try done.
Qed.

(** A mitigated destination whose traffic stops leaves mitigation: once the
    silent samples span the cooldown, one of them exits. *)
Theorem silence_exits cfg t now0 elapsed0 ticks now1 elapsed1 :
  can_exit cfg -> tr_mode t <> DEST_MODE_NORMAL ->
  default now0 (below_since_ns t) <= now0 ->
  exit_cooldown_ns cfg <= now1 - now0 ->
  TExited ∈ (silent_run cfg t ((now0, elapsed0) :: ticks ++ [(now1, elapsed1)])).1.
Proof.
  intros Hc Hm Hle Hcd.
  assert (forall ticks t since, tr_mode t <> DEST_MODE_NORMAL ->
    below_since_ns t = Some since -> exit_cooldown_ns cfg <= now1 - since ->
    TExited ∈ fst (silent_run cfg t (ticks ++ [(now1, elapsed1)]))) as Hrun.
  { clear t Hm Hle. intros l. induction l as [|[now el] l IH]; intros t since Hm Hb Hs;
      cbn [silent_run app].
    - destruct (silent_step cfg t now1 elapsed1 Hc Hm) as (t1 & -> & _). rewrite Hb; cbn.
      rewrite (proj2 (Z.leb_le _ _)) by (unfold sat_sub; lia). apply list_elem_of_here.
    - destruct (silent_step cfg t now el Hc Hm) as (t1 & -> & Hn). rewrite Hb in *; cbn in *.
      destruct (_ <=? sat_sub _ _); [destruct (silent_run _ _ _); apply list_elem_of_here|].
      destruct Hn as [Hm1 Hb1]; [done|]. specialize (IH t1 since ltac:(by rewrite Hm1) Hb1 Hs).
      destruct (silent_run _ t1 _). by apply list_elem_of_further. }
  cbn [silent_run]. destruct (silent_step cfg t now0 elapsed0 Hc Hm) as (t1 & -> & Hn).
  destruct (_ <=? sat_sub _ _); [destruct (silent_run _ _ _); apply list_elem_of_here|].
  destruct Hn as [Hm1 Hb1]; [done|]. specialize (Hrun ticks t1 _ ltac:(by rewrite Hm1) Hb1).
  destruct (silent_run _ t1 _). apply list_elem_of_further, Hrun. cbn. lia.
Qed.

(** ** Rates are what they say *)

Definition in_u64 (c : DestCounters) : Prop :=
  fits 64 (packets c) /\ fits 64 (bytes c) /\ fits 64 (syn_packets c) /\
  fits 64 (dropped c) /\ dropped c <= packets c.

(** The traffic of one window: no counter goes back. *)
Definition grows (pre cur : DestCounters) : Prop :=
  packets pre <= packets cur /\ dropped pre <= dropped cur /\
  packets pre - dropped pre <= packets cur - dropped cur.

(** Over a window of at least a second, the packet rate is the floor of the
    window's packets per second, and it splits into the dropped and the passed
    rate up to the rounding of one packet. *)
Theorem rates_split pre cur elapsed :
  1000000000 <= elapsed -> in_u64 pre -> in_u64 cur -> grows pre cur ->
  let r := compute_rates pre cur elapsed in
  pps r * elapsed <= (packets cur - packets pre) * 1000000000 < (pps r + 1) * elapsed /\
  drop_pps r + pass_pps r <= pps r <= drop_pps r + pass_pps r + 1.
Proof.
  unfold in_u64, fits, grows. intros He Hp Hc Hg. unfold compute_rates.
  rewrite (proj2 (Z.eqb_neq elapsed 0)) by lia. cbn. unfold sat_sub.
  rewrite !Z.max_r by lia.
  assert (forall d, 0 <= d < 2 ^ 64 -> exists q, per_sec elapsed d = q /\
    q * elapsed <= d * 1000000000 < (q + 1) * elapsed) as Hq.
  { intros d Hd. pose proof (Z_div_mod_eq_full (d * 1000000000) elapsed).
    pose proof (Z.mod_pos_bound (d * 1000000000) elapsed).
    exists (d * 1000000000 / elapsed). rewrite per_sec_bounds; [split; [done|lia]|lia..|].
    apply Z.div_lt_upper_bound; nia. }
  destruct (Hq (packets cur - packets pre)) as (a & -> & Ha); [lia|].
  destruct (Hq (dropped cur - dropped pre)) as (b & -> & Hb); [lia|].
  destruct (Hq (packets cur - dropped cur - (packets pre - dropped pre))) as (c & -> & Hcc); [lia|].
  split; [done|]. nia.
Qed.

(** A counter that went backwards (its entry was evicted or reset) reads as no
    traffic, never as a spike; and no time elapsed reads as no traffic at all. *)
Theorem reset_is_not_a_spike pre cur elapsed :
  let r := compute_rates pre cur elapsed in
  (packets cur <= packets pre -> pps r = 0) /\
  (syn_packets cur <= syn_packets pre -> syn_pps r = 0) /\
  (bytes cur <= bytes pre -> bps r = 0) /\
  (dropped cur <= dropped pre -> drop_pps r = 0) /\
  compute_rates pre cur 0 = Rates_default.
Proof.
  cbv zeta. unfold compute_rates. destruct (elapsed =? 0); cbn; [done|].
  split_and!; intros; by rewrite ?per_sec_reset.
Qed.
