(* ===== verification/FwRuntime.v ===== *)
(** * The control loop ([lnvps_fw/lnvps_fw_service/src/runtime.rs],
    [gc.rs])

    One tick drains the datapath's counters, advances the per-destination and
    per-prefix detection machines and writes the protection flags into the
    dest-state trie.  A [&mut] argument of the code is passed in and returned. *)

From S2P Require Import Prelude FwCommon FwCidr FwBpf FwMaps FwDetect.

(** [HashMap::iter]: the entries, in an order the standard library does not
    specify. *)
Class HashIter := {
  hash_iter : forall {K} `{Countable K} {V}, gmap K V -> list (K * V);
  hash_iter_perm : forall {K} `{Countable K} {V} (m : gmap K V),
    hash_iter m ≡ₚ map_to_list m }.

#[export] Instance list_order_iter : HashIter | 100.
Proof. refine {| hash_iter K _ _ V m := map_to_list m |}. done. Defined.

(** [mask_v4] or [mask_v6] *)
Definition mask (f : family) : Addr -> Z -> Addr :=
  match f with V4 => mask_v4 | V6 => mask_v6 end.

(** ** Configuration and state *)

Record RuntimeConfig := {
  detection : DetectionConfig;
  network : DetectionConfig;
  protected_nets : family -> list (Z * Addr);
  manual : family -> list (Z * Addr * Z);
  src_rate_pps : Z;
  src_cooldown_ns : Z;
  escalate_pass_pps : Z;
  syn_proxy_pps : Z;
  rt_learn_leak_pps : Z }.

(** [manual_flags_v4], [manual_flags_v6] *)
Definition manual_flags (f : family) (cfg : RuntimeConfig) (addr : Addr) : Z :=
  foldl (fun a '(_, _, fl) => Z.lor a fl) 0
    (filter (fun '(len, net, _) => mask f addr len = net) (manual cfg f)).

Record DetectionState := {
  dests : family -> gmap Addr DestTracker;
  last_sample_ns : Z;
  prefixes : family -> gmap (Z * Addr) DestTracker;
  src_snapshot : family -> list (Addr * SrcState);
  src_sampled_ns : Z;
  tx_rates : family -> gmap Addr Rates }.

(** ** Counters *)

Definition add_counters (acc v : DestCounters) : DestCounters :=
  {| packets := wadd 64 (packets acc) (packets v);
     bytes := wadd 64 (bytes acc) (bytes v);
     syn_packets := wadd 64 (syn_packets acc) (syn_packets v);
     tcp_packets := wadd 64 (tcp_packets acc) (tcp_packets v);
     udp_packets := wadd 64 (udp_packets acc) (udp_packets v);
     icmp_packets := wadd 64 (icmp_packets acc) (icmp_packets v);
     dropped := wadd 64 (dropped acc) (dropped v) |}.

Definition sum_counters (values : list DestCounters) : DestCounters :=
  foldl add_counters DestCounters_default values.

Definition dest_state (level now_ns : Z) : DestState :=
  {| ds_mode := level; ds_entered_at := now_ns |}.

Definition enforced_flags (rates : Rates) (escalate_pass syn_proxy : Z) : Z :=
  let flags := DEST_MODE_PORT_FILTER in
  let flags := if negb (syn_proxy =? 0) && (syn_proxy <=? syn_pps rates)
               then Z.lor flags DEST_MODE_SYN_PROXY else flags in
  if escalate_pass <=? pass_pps rates then Z.lor flags DEST_MODE_SOURCE_BLOCK else flags.

(** The one call a detection step makes on the trie, if any. *)
Inductive TrieEdit := EKeep | EPut (st : DestState) | EDel.

Definition set_flags (fl : Z) (t : DestTracker) : DestTracker :=
  {| tr_prev := tr_prev t; tr_mode := tr_mode t; tr_flags := fl;
     below_since_ns := below_since_ns t; tr_peak := tr_peak t; tr_last := tr_last t;
     tr_last_ns := tr_last_ns t |}.
Definition reset_peak (t : DestTracker) : DestTracker :=
  {| tr_prev := tr_prev t; tr_mode := tr_mode t; tr_flags := tr_flags t;
     below_since_ns := below_since_ns t; tr_peak := Rates_default; tr_last := tr_last t;
     tr_last_ns := tr_last_ns t |}.

(** What a step does after [process_sample]: the tracker and its trie call.  The
    per-destination variant also forgets the peak when it exits. *)
Definition level_edit (per_dest : bool) (transition : Transition) (rates : Rates)
    (tracker : DestTracker) (escalate_pass syn_proxy now_ns manual : Z)
    : DestTracker * TrieEdit :=
  if tr_mode tracker =? DEST_MODE_NORMAL then
    match transition with
    | TExited =>
        let edit := if negb (manual =? DEST_MODE_NORMAL)
                    then EPut (dest_state manual now_ns) else EDel in
        (set_flags DEST_MODE_NORMAL (if per_dest then reset_peak tracker else tracker), edit)
    | _ => (tracker, EKeep)
    end
  else
    let target := Z.lor (enforced_flags rates escalate_pass syn_proxy) manual in
    match transition with
    | TEntered => (set_flags target tracker, EPut (dest_state target now_ns))
    | _ =>
        if negb (target =? tr_flags tracker)
        then (set_flags target tracker, EPut (dest_state target now_ns))
        else if negb (manual =? DEST_MODE_NORMAL)
        then (tracker, EPut (dest_state target now_ns))
        else (tracker, EKeep)
    end.

Section runtime.
Context `{!BpfKernel, !HashIter}.

Definition run_edit (len : Z) (net : Addr) (e : TrieEdit) (trie : lpm DestState)
    : lpm DestState :=
  match e with
  | EKeep => trie
  | EPut st => lput len net st trie
  | EDel => ldel len net trie
  end.

Definition apply_dest_decision (key : Addr) (cur : DestCounters) (tracker : DestTracker)
    (trie : lpm DestState) (nbits : Z) (cfg : DetectionConfig)
    (escalate_pass syn_proxy now_ns elapsed_ns manual : Z) : DestTracker * lpm DestState :=
  let '(transition, rates, tracker) := process_sample cur tracker cfg now_ns elapsed_ns in
  let '(tracker, edit) :=
    level_edit true transition rates tracker escalate_pass syn_proxy now_ns manual in
  (tracker, run_edit nbits key edit trie).

(** The bodies of [detect_family]'s two loops: a destination with traffic, and a
    mitigating one without. *)
Definition sampled_body (nbits : Z) (cfg : DetectionConfig)
    (escalate_pass syn_proxy now_ns elapsed_ns : Z) (manual_of : Addr -> Z)
    (s : gmap Addr DestTracker * lpm DestState) (sample : Addr * DestCounters)
    : gmap Addr DestTracker * lpm DestState :=
  let '(trackers, trie) := s in
  let '(key, delta) := sample in
  let tracker := default DestTracker_default (trackers !! key) in
  let '(tracker, trie) :=
    apply_dest_decision key (add_counters (tr_prev tracker) delta) tracker trie nbits cfg
      escalate_pass syn_proxy now_ns elapsed_ns (manual_of key) in
  (<[key := tracker]> trackers, trie).

Definition silent_body (nbits : Z) (cfg : DetectionConfig)
    (escalate_pass syn_proxy now_ns elapsed_ns : Z) (manual_of : Addr -> Z)
    (s : gmap Addr DestTracker * lpm DestState) (key : Addr)
    : gmap Addr DestTracker * lpm DestState :=
  let '(trackers, trie) := s in
  match trackers !! key with
  | Some tracker =>
      let '(tracker, trie) :=
        apply_dest_decision key (tr_prev tracker) tracker trie nbits cfg
          escalate_pass syn_proxy now_ns elapsed_ns (manual_of key) in
      (<[key := tracker]> trackers, trie)
  | None => (trackers, trie)
  end.

Definition is_silent (seen : gset Addr) (e : Addr * DestTracker) : Prop :=
  (e.1 ∉ seen) /\ tr_mode e.2 <> DEST_MODE_NORMAL.
#[export] Instance is_silent_dec seen e : Decision (is_silent seen e).
Proof. unfold is_silent. apply _. Defined.

Definition detect_family (samples : list (Addr * DestCounters)) (trie : lpm DestState)
    (nbits : Z) (trackers : gmap Addr DestTracker) (cfg : DetectionConfig)
    (escalate_pass syn_proxy now_ns elapsed_ns : Z) (manual_of : Addr -> Z)
    : gmap Addr DestTracker * lpm DestState :=
  let seen : gset Addr := list_to_set (map fst samples) in
  let '(trackers, trie) :=
    foldl (sampled_body nbits cfg escalate_pass syn_proxy now_ns elapsed_ns manual_of)
      (trackers, trie) samples in
  let silent := map fst (filter (is_silent seen) (hash_iter trackers)) in
  foldl (silent_body nbits cfg escalate_pass syn_proxy now_ns elapsed_ns manual_of)
    (trackers, trie) silent.

Definition detect_prefix (samples : list (Addr * DestCounters)) (trie : lpm DestState)
    (prefix_len : Z) (net : Addr) (maskf : Addr -> Z -> Addr)
    (trackers : gmap (Z * Addr) DestTracker) (cfg : DetectionConfig)
    (escalate_pass syn_proxy now_ns elapsed_ns manual : Z)
    : gmap (Z * Addr) DestTracker * lpm DestState :=
  let agg := foldl (fun agg '(addr, c) =>
                      if decide (maskf addr prefix_len = net) then add_counters agg c else agg)
                   DestCounters_default samples in
  let tracker := default DestTracker_default (trackers !! (prefix_len, net)) in
  let cur := add_counters (tr_prev tracker) agg in
  let '(transition, rates, tracker) := process_sample cur tracker cfg now_ns elapsed_ns in
  let '(tracker, edit) :=
    level_edit false transition rates tracker escalate_pass syn_proxy now_ns manual in
  (<[(prefix_len, net) := tracker]> trackers, run_edit prefix_len net edit trie).

(** ** Reading the kernel's maps *)

Definition scan_plain {K} `{Countable K} {V} (m : hmap K V) : list (K * V) := hentries m.

(** Read every entry and remove it. *)
Definition read_counters (m : hmap Addr (list DestCounters))
    : list (Addr * DestCounters) * hmap Addr (list DestCounters) :=
  let entries := hentries m in
  (map (fun '(k, values) => (k, sum_counters values)) entries,
   foldl (fun m k => hdel k m) m entries.*1).

Definition delete_keys {K} `{Countable K} {V} (m : hmap K V) (keys : list K) : hmap K V :=
  foldl (fun m k => hdel k m) m keys.

Definition compute_tx (m : hmap Addr (list DestCounters)) (elapsed_ns : Z)
    : gmap Addr Rates * hmap Addr (list DestCounters) :=
  let '(cur, m) := read_counters m in
  (foldl (fun out '(k, c) =>
            <[k := compute_rates DestCounters_default c elapsed_ns]> out) ∅ cur, m).

(** ** One tick

    [mono] is the monotonic clock's reading for the source snapshot. *)

(** One family's detection: its destinations, then its protected prefixes. *)
Definition detect_all (f : family) (cfg : RuntimeConfig) (now_ns elapsed : Z)
    (samples : list (Addr * DestCounters)) (trie : lpm DestState)
    (ds : gmap Addr DestTracker) (ps : gmap (Z * Addr) DestTracker)
    : gmap Addr DestTracker * gmap (Z * Addr) DestTracker * lpm DestState :=
  let '(ds, trie) :=
    detect_family samples trie (bits f) ds (detection cfg) (escalate_pass_pps cfg)
      (syn_proxy_pps cfg) now_ns elapsed (manual_flags f cfg) in
  let '(ps, trie) :=
    foldl (fun '(ps, trie) '(len, net) =>
             detect_prefix samples trie len net (mask f) ps (network cfg)
               (escalate_pass_pps cfg) (syn_proxy_pps cfg) now_ns elapsed
               (manual_flags f cfg net))
          (ps, trie) (protected_nets cfg f) in
  (ds, ps, trie).

Definition upd {A} (f : family) (a : A) (g : family -> A) : family -> A :=
  fun h => if decide (f = h) then a else g h.

Definition run_control_family (f : family) (cfg : RuntimeConfig) (now_ns elapsed : Z)
    (bpf : XState) (st : DetectionState) : XState * DetectionState :=
  let fm := x_fam bpf f in
  let '(samples, dc) := read_counters (DEST_COUNTERS fm) in
  let '(ds, ps, trie) :=
    detect_all f cfg now_ns elapsed samples (DEST_STATE fm) (dests st f) (prefixes st f) in
  (set_fam f (set_DEST_COUNTERS dc (set_DEST_STATE trie fm)) bpf,
   {| dests := upd f ds (dests st); last_sample_ns := last_sample_ns st;
      prefixes := upd f ps (prefixes st); src_snapshot := src_snapshot st;
      src_sampled_ns := src_sampled_ns st; tx_rates := tx_rates st |}).

Definition run_tx (f : family) (elapsed : Z) (bpf : XState) (st : DetectionState)
    : XState * DetectionState :=
  let fm := x_fam bpf f in
  let '(out, tc) := compute_tx (TX_COUNTERS fm) elapsed in
  (set_fam f (set_TX_COUNTERS tc fm) bpf,
   {| dests := dests st; last_sample_ns := last_sample_ns st; prefixes := prefixes st;
      src_snapshot := src_snapshot st; src_sampled_ns := src_sampled_ns st;
      tx_rates := upd f out (tx_rates st) |}).

Definition run_control (cfg : RuntimeConfig) (now_ns mono : Z) (bpf : XState)
    (st : DetectionState) : XState * DetectionState :=
  let elapsed := if last_sample_ns st =? 0 then 0 else sat_sub now_ns (last_sample_ns st) in
  let st := {| dests := dests st; last_sample_ns := now_ns; prefixes := prefixes st;
               src_snapshot := fun f => scan_plain (SRC_STATE (x_fam bpf f));
               src_sampled_ns := mono; tx_rates := tx_rates st |} in
  let '(bpf, st) := run_tx V4 elapsed bpf st in
  let '(bpf, st) := run_tx V6 elapsed bpf st in
  let '(bpf, st) := run_control_family V4 cfg now_ns elapsed bpf st in
  run_control_family V6 cfg now_ns elapsed bpf st.

(** ** Configuration writes *)

Definition SRC_WINDOW_NS : Z := 1000000000.

(** [arr.get(&0).unwrap_or_default()], the change, [arr.set(0, ..)]. *)
Definition update_global_cfg (g : GlobalConfig -> GlobalConfig) (bpf : XState) : XState :=
  let cfg := default GlobalConfig_zero (GLOBAL_CFG bpf !! 0%nat) in
  {| x_fam := x_fam bpf; GLOBAL_CFG := <[0%nat := g cfg]> (GLOBAL_CFG bpf);
     COOKIE_SECRET := COOKIE_SECRET bpf; SYN_PROXY_JUMP := SYN_PROXY_JUMP bpf;
     x_reads := x_reads bpf |}.

Definition write_src_rate_cfg (cfg : RuntimeConfig) : XState -> XState :=
  let sr := {| max_per_window := sat_mul 64 (src_rate_pps cfg) SRC_WINDOW_NS / 1000000000;
               window_ns := SRC_WINDOW_NS; cooldown_ns := src_cooldown_ns cfg |} in
  update_global_cfg (fun c =>
    {| src_rate := sr; verified_ttl_ns := verified_ttl_ns c; scoped_flag := scoped_flag c;
       manual_blocks := manual_blocks c; learn_leak_pps := learn_leak_pps c |}).

Definition write_learn_leak_cfg (cfg : RuntimeConfig) : XState -> XState :=
  let v := Z.min (rt_learn_leak_pps cfg) (2 ^ 32 - 1) in
  update_global_cfg (fun c =>
    {| src_rate := src_rate c; verified_ttl_ns := verified_ttl_ns c;
       scoped_flag := scoped_flag c; manual_blocks := manual_blocks c;
       learn_leak_pps := v |}).

(** ** Garbage collection *)

Definition is_expired (last_seen_ns now_ns ttl_ns : Z) : bool :=
  ttl_ns <? sat_sub now_ns last_seen_ns.

Definition expired_ports (entries : list (PortKey * LastSeen))
    (now_ns tcp_ttl_ns udp_ttl_ns : Z) : list PortKey :=
  map fst (filter (fun e : PortKey * LastSeen =>
     is_expired (last_seen e.2) now_ns
       (if pk_proto e.1 =? PROTO_UDP then udp_ttl_ns else tcp_ttl_ns) = true) entries).

Definition src_stale (now_ns idle_ttl_ns : Z) (st : SrcState) : bool :=
  (blocked_until_ns st <=? now_ns)
  && (idle_ttl_ns <=? sat_sub now_ns (window_start_ns st)).

Definition gc_src_state_map (now_ns idle_ttl_ns : Z) (m : hmap Addr SrcState)
    : hmap Addr SrcState :=
  let stale := map fst (filter (fun e : Addr * SrcState =>
                  src_stale now_ns idle_ttl_ns e.2 = true) (scan_plain m)) in
  delete_keys m stale.

Definition gc_src_states (now_ns idle_ttl_ns : Z) (bpf : XState) : XState :=
  let gc f bpf := set_fam f
    (set_SRC_STATE (gc_src_state_map now_ns idle_ttl_ns (SRC_STATE (x_fam bpf f)))
       (x_fam bpf f)) bpf in
  gc V6 (gc V4 bpf).
End runtime.

(** ** The decision, on one key

    What a detection step does to a tracker and to the trie entry of its key:
    the reference the whole pass is compared with. *)

Definition edit_entry (e : TrieEdit) (o : option DestState) : option DestState :=
  match e with EKeep => o | EPut st => Some st | EDel => None end.

Definition decide_entry (per_dest : bool) (cfg : DetectionConfig)
    (escalate_pass syn_proxy now_ns elapsed_ns manual : Z) (cur : DestCounters)
    (te : DestTracker * option DestState) : DestTracker * option DestState :=
  let '(transition, rates, t) := process_sample cur te.1 cfg now_ns elapsed_ns in
  let '(t, edit) := level_edit per_dest transition rates t escalate_pass syn_proxy now_ns manual in
  (t, edit_entry edit te.2).

Lemma process_sample_last cur t cfg now el x r t1 :
  process_sample cur t cfg now el = (x, r, t1) ->
  tr_last t1 = r /\ tr_flags t1 = tr_flags t /\ tr_prev t1 = cur /\
  r = compute_rates (tr_prev t) cur el.
Proof.
  unfold process_sample. destruct (evaluate _ _ _ _ _) as [[md y] b]. intros [= <- <- <-]. done.
Qed.

(** The transition tells the modes on both sides. *)
Lemma process_sample_mode cur t cfg now el x r t1 :
  process_sample cur t cfg now el = (x, r, t1) ->
  match x with
  | TEntered => tr_mode t = DEST_MODE_NORMAL /\ tr_mode t1 = DEST_MODE_PORT_FILTER
  | TExited => tr_mode t <> DEST_MODE_NORMAL /\ tr_mode t1 = DEST_MODE_NORMAL
  | TNone => (tr_mode t = DEST_MODE_NORMAL /\ tr_mode t1 = DEST_MODE_NORMAL) \/
             (tr_mode t <> DEST_MODE_NORMAL /\ tr_mode t1 = DEST_MODE_PORT_FILTER)
  end.
Proof.
  unfold process_sample, evaluate.
  destruct (Z.eqb_spec (tr_mode t) DEST_MODE_NORMAL).
  - destruct (exceeds_entry _ _); intros [= <- <- <-]; cbn; auto.
  - destruct (below_exit _ _); [destruct (_ <=? _)|]; intros [= <- <- <-]; cbn; auto.
Qed.

Lemma level_edit_retag b x r t esc syn now man :
  let t' := (level_edit b x r t esc syn now man).1 in
  retag t t' /\ tr_last t' = tr_last t.
Proof.
  unfold level_edit. destruct (Z.eqb_spec (tr_mode t) DEST_MODE_NORMAL).
  - destruct x, b; cbn; (split; [constructor|]); cbn; done.
  - destruct x; repeat (destruct (negb _)); cbn; (split; [constructor|]); done.
Qed.

(** A tracker and its trie entry agree: a mitigating tracker's flags are what the
    trie holds. *)
Definition synced (te : DestTracker * option DestState) : Prop :=
  tr_mode te.1 <> DEST_MODE_NORMAL ->
  exists st, te.2 = Some st /\ ds_mode st = tr_flags te.1.

(** The step writes the level its rates ask for, never below the manual floor,
    and on exit restores the floor. *)
Lemma decide_entry_enforces b cfg esc syn now el man cur te te' :
  synced te \/ man <> DEST_MODE_NORMAL ->
  decide_entry b cfg esc syn now el man cur te = te' ->
  synced te' /\
  (tr_mode te'.1 <> DEST_MODE_NORMAL ->
   tr_flags te'.1 = Z.lor (enforced_flags (tr_last te'.1) esc syn) man) /\
  (tr_mode te.1 <> DEST_MODE_NORMAL -> tr_mode te'.1 = DEST_MODE_NORMAL ->
   te'.2 = if man =? DEST_MODE_NORMAL then None else Some (dest_state man now)) /\
  (tr_mode te.1 = DEST_MODE_NORMAL -> tr_mode te'.1 = DEST_MODE_NORMAL -> te'.2 = te.2).
Proof.
  intros Hs <-. unfold decide_entry.
  destruct (process_sample _ _ _ _ _) as [[x r] t1] eqn:Ep.
  pose proof (process_sample_mode _ _ _ _ _ _ _ _ Ep) as Hm.
  destruct (process_sample_last _ _ _ _ _ _ _ _ Ep) as (El & Ef & _).
  unfold synced, level_edit in *. destruct te as [t e]; cbn in *.
  destruct x; [destruct Hm as [[Hn Hm]|[Hn Hm]]|destruct Hm as [Hn Hm]..]; rewrite Hm;
    try change (DEST_MODE_PORT_FILTER =? DEST_MODE_NORMAL) with false;
    try change (DEST_MODE_NORMAL =? DEST_MODE_NORMAL) with true; cbn -[enforced_flags].
  - by rewrite Hm, Hn.
  - destruct (Z.eqb_spec (Z.lor (enforced_flags r esc syn) man) (tr_flags t1)) as [E|E];
      cbn -[enforced_flags]; [destruct (Z.eqb_spec man DEST_MODE_NORMAL)|];
      cbn -[enforced_flags]; rewrite ?Hm, ?El; split_and!; try done.
    + intros _. destruct Hs as [Hs|]; [|done]. destruct (Hs Hn) as (st & -> & Eds). exists st. by rewrite Eds, Ef.
    + intros _. eexists. split; [done|]. cbn -[enforced_flags]. by rewrite E.
    + by eexists.
  - rewrite Hm, ?El, Hn. split_and!; try done. by eexists.
  - destruct b; cbn; rewrite Hm; split_and!; try done; by destruct (man =? DEST_MODE_NORMAL).
Qed.

(** ** A whole detection pass is the decision on every key *)
Section pointwise.
Context `{!BpfKernel, !BpfKernelLaws, !HashIter} (nbits : Z).

Lemma lexact_run_edit len net e (trie : lpm DestState) : 0 < lfree trie ->
  lexact len net (run_edit len net e trie) = edit_entry e (lexact len net trie).
Proof. intros Hf. destruct e; cbn; [done|by apply lexact_lput|apply lexact_ldel]. Qed.
Lemma lfree_run_edit len net e (trie : lpm DestState) : lfree trie - 1 <= lfree (run_edit len net e trie).
Proof. destruct e; cbn; [lia|apply lfree_lput|]. pose proof (lfree_ldel len net trie). lia. Qed.
Lemma lexact_run_edit_ne len a b e (trie : lpm DestState) :
  mask_bytes a len <> mask_bytes b len -> lexact len b (run_edit len a e trie) = lexact len b trie.
Proof. intros. destruct e; cbn; [done|by apply lexact_lput_ne|by apply lexact_ldel_ne]. Qed.
Lemma lexact_run_edit_len len len' a b e (trie : lpm DestState) :
  len <> len' -> lexact len b (run_edit len' a e trie) = lexact len b trie.
Proof. intros. destruct e; cbn; [done|by apply lexact_lput_len|by apply lexact_ldel_len]. Qed.

(** A key as long as the trie's. *)
Definition full_key (k : Addr) : Prop := Z.of_nat (length k) * 8 = nbits.
Lemma full_key_mask a b : full_key a -> full_key b -> a <> b -> mask_bytes a nbits <> mask_bytes b nbits.
Proof. unfold full_key. intros Ha Hb Hne. by rewrite !mask_bytes_full by lia. Qed.

Abbreviation St := (gmap Addr DestTracker * lpm DestState)%type.

(** What the two maps hold of a key. *)
Definition view (s : St) (k : Addr) : option DestTracker * option DestState :=
  (s.1 !! k, lexact nbits k s.2).

(** A fold of steps that each take at most one place of the trie. *)
Lemma fold_lfree {A} (step : St -> A -> St) : (forall s a, lfree s.2 - 1 <= lfree (step s a).2) ->
  forall l s, lfree s.2 - Z.of_nat (length l) <= lfree (foldl step s l).2.
Proof.
  intros Hstep l. induction l as [|a l IH]; intros s; cbn [foldl length]; [lia|].
  pose proof (IH (step s a)). pose proof (Hstep s a). lia.
Qed.
(** A fold of steps that each act on their own key, seen from one key, while the trie
    has room for them. *)
Lemma fold_view {A} (key : A -> Addr) (step : St -> A -> St)
    (act : A -> option DestTracker * option DestState -> option DestTracker * option DestState)
    (l : list A) :
  (forall s a, 0 < lfree s.2 -> view (step s a) (key a) = act a (view s (key a))) ->
  (forall s a k, full_key (key a) -> full_key k -> key a <> k -> view (step s a) k = view s k) ->
  (forall s a, lfree s.2 - 1 <= lfree (step s a).2) ->
  NoDup (map key l) -> Forall full_key (map key l) ->
  forall k, full_key k -> forall s, Z.of_nat (length l) <= lfree s.2 ->
  (k ∉ map key l -> view (foldl step s l) k = view s k) /\
  (forall a, a ∈ l -> key a = k -> view (foldl step s l) k = act a (view s k)).
Proof.
  intros Hact Hne Hfree Hnd Hwf k Hk. induction l as [|a l IH]; intros s Hroom; cbn [foldl map length] in *.
  - split; [done|]. intros a Ha. by apply elem_of_nil in Ha.
  - apply NoDup_cons in Hnd as [Hni Hnd]. apply Forall_cons in Hwf as [Ha Hwf].
    pose proof (Hfree s a) as Hf. specialize (IH Hnd Hwf (step s a) ltac:(lia)). destruct IH as [IH1 IH2]. split.
    + rewrite not_elem_of_cons. intros [Hka Hkl]. rewrite IH1 by done. by apply Hne.
    + intros b Hb Ekb. apply elem_of_cons in Hb as [->|Hb].
      * subst k. rewrite IH1 by done. apply Hact. lia.
      * rewrite (IH2 b Hb Ekb). f_equal. apply Hne; [done|done|]. intros E. apply Hni.
        rewrite E, <- Ekb. by apply list_elem_of_fmap_2.
Qed.

Section pass.
Context (cfg : DetectionConfig) (esc syn now el : Z) (manual_of : Addr -> Z).

(** The decision on one key, as an action on what the maps hold of it. *)
Definition act_on (k : Addr) (cur : DestCounters -> DestCounters) (t : DestTracker)
    (e : option DestState) : option DestTracker * option DestState :=
  let '(t', e') := decide_entry true cfg esc syn now el (manual_of k) (cur (tr_prev t)) (t, e) in
  (Some t', e').

(** What one pass does to a key, given the key's own delta if it had traffic. *)
Definition pass_on (k : Addr) (delta : option DestCounters)
    (v : option DestTracker * option DestState) : option DestTracker * option DestState :=
  match delta, v.1 with
  | Some d, t => act_on k (fun p => add_counters p d) (default DestTracker_default t) v.2
  | None, Some t =>
      if decide (tr_mode t <> DEST_MODE_NORMAL) then act_on k id t v.2 else v
  | None, None => v
  end.

Definition dest_step (key : Addr) (cur : DestCounters) (t : DestTracker)
    (trie : lpm DestState) : DestTracker * lpm DestState :=
  apply_dest_decision key cur t trie nbits cfg esc syn now el (manual_of key).

Lemma dest_step_view (key : Addr) (cur : DestCounters -> DestCounters) (t : DestTracker) (trie : lpm DestState) (m : gmap Addr DestTracker) :
  0 < lfree trie ->
  view (let '(t', trie') := dest_step key (cur (tr_prev t)) t trie in
        (<[key := t']> m, trie')) key
  = act_on key cur t (lexact nbits key trie).
Proof.
  intros Hf. unfold dest_step, apply_dest_decision, act_on, decide_entry. cbn [fst snd].
  destruct (process_sample _ _ _ _ _) as [[x r] t1].
  destruct (level_edit _ _ _ _ _ _ _ _) as [t2 ed]. unfold view; cbn [fst snd].
  by rewrite lookup_insert_eq, lexact_run_edit.
Qed.
Lemma dest_step_lfree (key : Addr) (cur : DestCounters) (t : DestTracker) (trie : lpm DestState) :
  lfree trie - 1 <= lfree (dest_step key cur t trie).2.
Proof.
  unfold dest_step, apply_dest_decision. destruct (process_sample _ _ _ _ _) as [[x r] t1].
  destruct (level_edit _ _ _ _ _ _ _ _) as [t2 ed]. apply lfree_run_edit.
Qed.
Lemma sampled_lfree (s : St) a : lfree s.2 - 1 <= lfree (sampled_body nbits cfg esc syn now el manual_of s a).2.
Proof.
  destruct s as [m tr], a as [k d]. cbn.
  match goal with |- context [apply_dest_decision k ?c ?t tr _ _ _ _ _ _ _] => pose proof (dest_step_lfree k c t tr) as Hl end.
  unfold dest_step in Hl. by destruct (apply_dest_decision _ _ _ _ _ _ _ _ _ _ _).
Qed.
Lemma silent_lfree (s : St) k : lfree s.2 - 1 <= lfree (silent_body nbits cfg esc syn now el manual_of s k).2.
Proof.
  destruct s as [m tr]. cbn. destruct (m !! k) as [t|]; [|cbn; lia].
  pose proof (dest_step_lfree k (tr_prev t) t tr) as Hl. unfold dest_step in Hl.
  by destruct (apply_dest_decision _ _ _ _ _ _ _ _ _ _ _).
Qed.
Lemma dest_step_view_ne (key : Addr) (cur : DestCounters) (t : DestTracker) (trie : lpm DestState) (m : gmap Addr DestTracker) (k : Addr) :
  full_key key -> full_key k -> key <> k ->
  view (let '(t', trie') := dest_step key cur t trie in (<[key := t']> m, trie')) k
  = view (m, trie) k.
Proof.
  intros Ha Hk Hne. unfold dest_step, apply_dest_decision.
  destruct (process_sample _ _ _ _ _) as [[x r] t1].
  destruct (level_edit _ _ _ _ _ _ _ _) as [t2 ed]. unfold view; cbn [fst snd].
  rewrite lookup_insert_ne by done. by rewrite lexact_run_edit_ne by by apply full_key_mask.
Qed.

Definition full_keys (m : gmap Addr DestTracker) : Prop :=
  forall k, is_Some (m !! k) -> full_key k.

Lemma full_keys_insert m k t : full_keys m -> full_key k -> full_keys (<[k := t]> m).
Proof.
  intros Hm Hk j [t' E]. destruct (decide (k = j)) as [<-|Hne]; [done|].
  rewrite lookup_insert_ne in E by done. apply Hm. by eexists.
Qed.

Lemma sampled_full samples : forall s : St,
  Forall full_key (map fst samples) -> full_keys s.1 ->
  full_keys (foldl (sampled_body nbits cfg esc syn now el manual_of) s samples).1.
Proof.
  induction samples as [|[k d] l IH]; intros [m tr] Hwf Hm; [done|].
  apply Forall_cons in Hwf as [Hk Hwf]. cbn [foldl]. apply IH; [done|].
  cbn. destruct (apply_dest_decision _ _ _ _ _ _ _ _ _ _ _). by apply full_keys_insert.
Qed.
Lemma silent_full ks : forall s : St,
  full_keys s.1 ->
  full_keys (foldl (silent_body nbits cfg esc syn now el manual_of) s ks).1.
Proof.
  induction ks as [|k l IH]; intros [m tr] Hm; [done|]. cbn [foldl]. apply IH. cbn in *.
  destruct (m !! k) as [t|] eqn:E; [|done].
  destruct (apply_dest_decision _ _ _ _ _ _ _ _ _ _ _). apply full_keys_insert; [done|].
  apply Hm. by eexists.
Qed.

(** Every key a pass leaves in the trackers is as long as the trie's. *)
Lemma detect_family_full samples trie trackers :
  Forall full_key (map fst samples) -> full_keys trackers ->
  full_keys (detect_family samples trie nbits trackers cfg esc syn now el manual_of).1.
Proof.
  intros Hwf Hm. unfold detect_family. pose proof (sampled_full samples (trackers, trie) Hwf Hm).
  destruct (foldl (sampled_body _ _ _ _ _ _ _) _ _) as [m tr]. by apply silent_full.
Qed.

(** The trie has room for an entry of every destination that a pass looks at. *)
Definition roomy (samples : list (Addr * DestCounters)) (trie : lpm DestState) (trackers : gmap Addr DestTracker) : Prop :=
  Z.of_nat (length samples) + Z.of_nat (size trackers) <= lfree trie.
(** A pass over the samples is, on every destination, the decision on that
    destination alone. *)
Lemma detect_family_view samples trie trackers k :
  roomy samples trie trackers -> NoDup (map fst samples) -> Forall full_key (map fst samples) -> full_keys trackers ->
  full_key k ->
  view (detect_family samples trie nbits trackers cfg esc syn now el manual_of) k
  = pass_on k ((list_to_map samples : gmap Addr DestCounters) !! k) (view (trackers, trie) k).
Proof.
  intros Hroom Hnd Hwf Htr Hk. unfold roomy in Hroom. unfold detect_family.
  set (step1 := sampled_body _ _ _ _ _ _ _). set (step2 := silent_body _ _ _ _ _ _ _).
  pose (act1 := fun (a : Addr * DestCounters) (v : option DestTracker * option DestState) =>
                act_on a.1 (fun p => add_counters p a.2) (default DestTracker_default v.1) v.2).
  pose (act2 := fun (a : Addr) (v : option DestTracker * option DestState) =>
                match v.1 with Some t => act_on a id t v.2 | None => v end).
  assert (forall j, full_key j ->
    view (foldl step1 (trackers, trie) samples) j =
    match (list_to_map samples : gmap Addr DestCounters) !! j with
    | Some d => act1 (j, d) (view (trackers, trie) j)
    | None => view (trackers, trie) j
    end) as Hone.
  { intros j Hj. destruct (fold_view fst step1 act1 samples) with (k := j) (s := (trackers, trie))
      as [F1 F2]; [| |intros s a; apply sampled_lfree|done..|cbn; lia|].
    - intros [m tr] [a d]. apply (dest_step_view a (fun p => add_counters p d)).
    - intros [m tr] [a d] k'. apply dest_step_view_ne.
    - destruct (list_to_map samples !! j) as [d|] eqn:E.
      + apply elem_of_list_to_map in E; [|done]. by rewrite (F2 (j, d)).
      + apply F1. by apply not_elem_of_list_to_map. }
  pose proof (fold_lfree step1 sampled_lfree samples (trackers, trie)) as Hleft.
  destruct (foldl step1 (trackers, trie) samples) as [m tr] eqn:Ef. cbn [snd] in Hleft.
  set (silent := map fst (filter _ (hash_iter m))).
  assert (forall j, j ∈ silent <-> exists t, m !! j = Some t /\ (j ∉ map fst samples) /\
    tr_mode t <> DEST_MODE_NORMAL) as Hsil.
  { intros j. unfold silent. rewrite list_elem_of_fmap. split.
    - intros ([j' t] & -> & Hin). apply list_elem_of_filter in Hin as [[Hs Hm] Hin].
      exists t. rewrite hash_iter_perm, elem_of_map_to_list in Hin.
      cbn in Hs, Hm. rewrite elem_of_list_to_set in Hs. done.
    - intros (t & Et & Hs & Hm). exists (j, t). split; [done|]. apply list_elem_of_filter.
      rewrite hash_iter_perm, elem_of_map_to_list. split; [|done]. split; [|done].
      cbn. by rewrite elem_of_list_to_set. }
  assert (NoDup silent) as Hsnd.
  { apply NoDup_map_filter.
    rewrite (Permutation_map fst (hash_iter_perm m)). apply NoDup_fst_map_to_list. }
  assert (Forall full_key silent) as Hsf.
  { pose proof (sampled_full samples (trackers, trie) Hwf Htr) as Hfull. fold step1 in Hfull.
    rewrite Ef in Hfull. apply Forall_forall. intros j Hj.
    apply Hsil in Hj as (t & Et & _). apply Hfull. by eexists. }
  assert (length silent <= size trackers)%nat as Hsz.
  { rewrite <- size_dom, <- (size_list_to_set (C := gset Addr) silent) by done. apply subseteq_size. intros j Hj.
    apply elem_of_list_to_set in Hj. pose proof (proj1 (Forall_forall _ _) Hsf j Hj) as Hfj.
    apply Hsil in Hj as (t & Et & Hs & _). pose proof (Hone j Hfj) as Ej.
    rewrite (proj1 (not_elem_of_list_to_map samples j) Hs) in Ej. apply (f_equal fst) in Ej. unfold view in Ej. cbn in Ej.
    apply elem_of_dom. by exists t; rewrite <- Ej. }
  destruct (fold_view id step2 act2 silent) with (k := k) (s := (m, tr)) as [F1 F2];
    rewrite ?map_id; [| |intros s a; apply silent_lfree|done..|cbn [snd]; lia|].
  - intros [m' tr'] j. unfold act2, step2, id, silent_body, view; cbn [fst snd].
    destruct (m' !! j) as [t|] eqn:E; [|by cbn; rewrite E].
    apply (dest_step_view j id).
  - intros [m' tr'] j k' Hj Hk' Hne. unfold step2, id, silent_body.
    destruct (m' !! j) as [t|] eqn:E; [|done]. by apply dest_step_view_ne.
  - pose proof (Hone k Hk) as Ek. rewrite map_id in F1. unfold pass_on.
    destruct (list_to_map samples !! k) as [d|] eqn:Ed.
    + rewrite F1, Ek; [done|]. intros (t & _ & Hs & _)%Hsil. apply Hs.
      apply elem_of_list_to_map in Ed; [|done]. by apply (list_elem_of_fmap_2 fst _ (k, d)).
    + assert (k ∉ map fst samples) as Hns by (by apply not_elem_of_list_to_map).
      assert (m !! k = (view (trackers, trie) k).1) as Em by (by rewrite <- Ek).
      destruct (view (trackers, trie) k) as [[t|] e] eqn:Ev; cbn [fst snd] in *.
      * destruct (decide (tr_mode t <> DEST_MODE_NORMAL)) as [Hm|Hm].
        -- rewrite (F2 k), Ek; [done| |done]. apply Hsil. by exists t.
        -- rewrite F1, Ek; [done|]. intros (t' & Et & _ & Hm')%Hsil. rewrite Em in Et. by simplify_eq.
      * rewrite F1, Ek; [done|]. intros (t' & Et & _)%Hsil. by rewrite Em in Et.
Qed.

(** *** What a pass guarantees *)

(** Every mitigating tracker's flags are in the trie. *)
Definition all_synced (s : St) : Prop :=
  forall k t, full_key k -> s.1 !! k = Some t -> synced (t, lexact nbits k s.2).

Definition clean (samples : list (Addr * DestCounters)) (trackers : gmap Addr DestTracker) : Prop :=
  NoDup (map fst samples) /\ Forall full_key (map fst samples) /\ full_keys trackers.

(** A key that has a tracker after the pass: its tracker and entry are a
    decision's, or it is normal and untouched. *)
Lemma pass_on_some k delta v t' e' :
  pass_on k delta v = (Some t', e') ->
  (exists cur, decide_entry true cfg esc syn now el (manual_of k)
                 (cur (tr_prev (default DestTracker_default v.1)))
                 (default DestTracker_default v.1, v.2) = (t', e')) \/
  (v = (Some t', e') /\ tr_mode t' = DEST_MODE_NORMAL).
Proof.
  unfold pass_on, act_on. destruct delta as [d|].
  - destruct (decide_entry _ _ _ _ _ _ _ _ _) as [t e] eqn:E. intros [= <- <-].
    left. by exists (fun p => add_counters p d).
  - destruct v as [[t|] e]; cbn; [|done]. destruct (decide _) as [Hm|Hm].
    + destruct (decide_entry _ _ _ _ _ _ _ _ _) as [t2 e2] eqn:E. intros [= <- <-].
      left. by exists id.
    + intros [= <- <-]. right. split; [done|]. by apply dec_stable.
Qed.

(** A detection pass keeps trackers and trie in agreement, and after it every
    mitigating destination's trie entry holds the flags its latest rates call
    for together with the operator's manual floor; a destination that left
    mitigation is back to exactly the floor. *)
Theorem mitigation_enforced samples trie trackers :
  roomy samples trie trackers -> clean samples trackers -> all_synced (trackers, trie) ->
  let s' := detect_family samples trie nbits trackers cfg esc syn now el manual_of in
  all_synced s' /\
  forall k t', full_key k -> s'.1 !! k = Some t' ->
    (tr_mode t' <> DEST_MODE_NORMAL ->
     exists st, lexact nbits k s'.2 = Some st /\
       ds_mode st = Z.lor (enforced_flags (tr_last t') esc syn) (manual_of k)) /\
    (forall t, trackers !! k = Some t -> tr_mode t <> DEST_MODE_NORMAL ->
       tr_mode t' = DEST_MODE_NORMAL ->
       lexact nbits k s'.2 = if manual_of k =? DEST_MODE_NORMAL then None
                             else Some (dest_state (manual_of k) now)).
Proof.
  intros Hroom (Hnd & Hwf & Hfull) Hs s'.
  assert (forall k t', full_key k -> s'.1 !! k = Some t' ->
    synced (t', lexact nbits k s'.2) /\
    (tr_mode t' <> DEST_MODE_NORMAL ->
     tr_flags t' = Z.lor (enforced_flags (tr_last t') esc syn) (manual_of k)) /\
    (forall t, trackers !! k = Some t -> tr_mode t <> DEST_MODE_NORMAL ->
       tr_mode t' = DEST_MODE_NORMAL ->
       lexact nbits k s'.2 = if manual_of k =? DEST_MODE_NORMAL then None
                             else Some (dest_state (manual_of k) now))) as Hk.
  { intros k t' Hk Et'.
    pose proof (detect_family_view samples trie trackers k Hroom Hnd Hwf Hfull Hk) as Hp.
    fold s' in Hp. unfold view at 1 in Hp. rewrite Et' in Hp. symmetry in Hp.
    apply pass_on_some in Hp as [[cur Hd]|[Hv Hm]].
    - assert (synced (default DestTracker_default (view (trackers, trie) k).1,
                      (view (trackers, trie) k).2)) as Hsy.
      { cbn. destruct (trackers !! k) as [t|] eqn:Et; cbn; [by apply Hs|by destruct 1]. }
      destruct (decide_entry_enforces _ _ _ _ _ _ _ _ _ _ (or_introl Hsy) Hd) as (? & ? & Hx & _).
      split_and!; [done..|]. intros t Et Hm Hm'. cbn in Hx. rewrite Et in Hx. by apply Hx.
    - unfold view in Hv. cbn in Hv. injection Hv as Ev Ee. split_and!.
      + intros ?. done.
      + done.
      + intros t Et. by simplify_eq. }
  split.
  - intros k t' Hf E. by apply Hk.
  - intros k t' Hf E. destruct (Hk k t' Hf E) as (Hsy & Hfl & Hex). split; [|done].
    intros Hm. destruct (Hsy Hm) as (st & Ee & Eds). exists st. split; [done|].
    rewrite Eds. by apply Hfl.
Qed.
End pass.
End pointwise.

(** ** Drained counters and whole ticks *)
Section ticks.
Context `{!BpfKernel, !BpfKernelLaws, !HashIter}.

Lemma drain_keys (m : hmap Addr (list DestCounters)) :
  map fst (read_counters m).1 = (hentries m).*1.
Proof.
  unfold read_counters; cbn. rewrite map_map. apply map_ext. by intros [].
Qed.

(** Draining reports each destination's per-CPU slots summed, once, and leaves
    nothing behind to be counted again. *)
Lemma drain_spec (m : hmap Addr (list DestCounters)) k :
  (list_to_map (read_counters m).1 : gmap Addr DestCounters) !! k = sum_counters <$> hget k m /\
  hget k (read_counters m).2 = None.
Proof.
  pose proof (hentries_nodup m) as Hnd. split.
  - destruct (hget k m) as [l|] eqn:E; cbn.
    + apply elem_of_list_to_map; [change (NoDup (map fst (read_counters m).1)); by rewrite drain_keys|].
      apply hentries_spec in E. apply (list_elem_of_fmap_2 (fun '(k, v) => (k, sum_counters v)) _ _ E).
    + apply not_elem_of_list_to_map. change (k ∉ map fst (read_counters m).1).
      rewrite drain_keys. intros ([k' l] & -> & Hin)%list_elem_of_fmap.
      apply hentries_spec in Hin. cbn in E. congruence.
  - unfold read_counters; cbn. rewrite hget_hdel_list. destruct (decide _) as [|Hn]; [done|].
    destruct (hget k m) as [l|] eqn:E; [|done]. destruct Hn.
    apply hentries_spec in E. by apply (list_elem_of_fmap_2 fst _ _ E).
Qed.

Lemma drain_clean (m : hmap Addr (list DestCounters)) nbits trackers :
  (forall k, is_Some (hget k m) -> full_key nbits k) -> full_keys nbits trackers ->
  clean nbits (read_counters m).1 trackers.
Proof.
  intros Hm Ht. split_and!; [|apply Forall_forall; intros k|done]; rewrite drain_keys.
  - apply hentries_nodup.
  - intros ([k' l] & -> & Hin)%list_elem_of_fmap. apply Hm. apply hentries_spec in Hin. by eexists.
Qed.

(** A prefix shorter than a full address does not touch a host's entry. *)
Lemma prefixes_keep_hosts samples nbits k esc syn now el cfg maskf man nets :
  Forall (fun n : Z * Addr => n.1 <> nbits) nets -> forall ps trie,
  lexact nbits k (foldl (fun '(ps, trie) '(len, net) =>
    detect_prefix samples trie len net maskf ps cfg esc syn now el (man net))
    (ps, trie) nets).2 = lexact nbits k trie.
Proof.
  induction 1 as [|[len net] nets Hlen _ IH]; intros ps trie; [done|]. cbn [foldl].
  unfold detect_prefix at 2. destruct (process_sample _ _ _ _ _) as [[x r] t1].
  destruct (level_edit _ _ _ _ _ _ _ _) as [t2 ed]. rewrite IH.
  apply lexact_run_edit_len. cbn in Hlen. done.
Qed.

(** The host part of one family's detection. *)
Lemma detect_all_view f cfg now el samples trie ds ps k :
  Forall (fun n : Z * Addr => n.1 <> bits f) (protected_nets cfg f) ->
  let r := detect_all f cfg now el samples trie ds ps in
  (r.1.1 !! k, lexact (bits f) k r.2) =
  view (bits f) (detect_family samples trie (bits f) ds (detection cfg) (escalate_pass_pps cfg)
                   (syn_proxy_pps cfg) now el (manual_flags f cfg)) k.
Proof.
  intros Hp. unfold detect_all. destruct (detect_family _ _ _ _ _ _ _ _ _ _) as [ds' trie'].
  pose proof (prefixes_keep_hosts samples (bits f) k (escalate_pass_pps cfg) (syn_proxy_pps cfg)
                now el (network cfg) (mask f) (manual_flags f cfg) _ Hp ps trie') as Hk.
  destruct (foldl _ (ps, trie') _) as [ps' tr']. cbn in *. unfold view; cbn. by rewrite Hk.
Qed.

(** The state between two ticks: keys are full addresses, protected prefixes are
    not single hosts, and the trie has room for an entry of every destination that
    was counted or is tracked. *)
Definition tick_wf (cfg : RuntimeConfig) (bpf : XState) (st : DetectionState) : Prop :=
  forall f,
    (forall k, is_Some (hget k (DEST_COUNTERS (x_fam bpf f))) -> full_key (bits f) k) /\
    full_keys (bits f) (dests st f) /\
    Forall (fun n : Z * Addr => n.1 <> bits f) (protected_nets cfg f) /\
    Z.of_nat (length (hentries (DEST_COUNTERS (x_fam bpf f)))) + Z.of_nat (size (dests st f)) <= lfree (DEST_STATE (x_fam bpf f)).

(** A destination as one tick sees it. *)
Definition host_view (f : family) (k : Addr) (s : XState * DetectionState)
    : option DestTracker * option DestState :=
  (dests s.2 f !! k, lexact (bits f) k (DEST_STATE (x_fam s.1 f))).
Definition tick_elapsed (now : Z) (st : DetectionState) : Z :=
  if last_sample_ns st =? 0 then 0 else sat_sub now (last_sample_ns st).

(** What detection reads and writes of a family. *)
Definition det_view (f : family) (s : XState * DetectionState) :=
  (DEST_COUNTERS (x_fam s.1 f), DEST_STATE (x_fam s.1 f), dests s.2 f, prefixes s.2 f).
Definition det_step (f : family) (cfg : RuntimeConfig) (now el : Z)
    (v : hmap Addr (list DestCounters) * lpm DestState * gmap Addr DestTracker *
         gmap (Z * Addr) DestTracker) :=
  let '(dc, trie, ds, ps) := v in
  let '(l, dc) := read_counters dc in
  let '(ds, ps, trie) := detect_all f cfg now el l trie ds ps in
  (dc, trie, ds, ps).

Lemma run_tx_view f g el bpf st :
  let s := run_tx f el bpf st in
  det_view g s = det_view g (bpf, st) /\ last_sample_ns s.2 = last_sample_ns st.
Proof.
  unfold run_tx, det_view. destruct (compute_tx _ _) as [o m]. cbn.
  split; [|done]. by destruct (decide (f = g)) as [<-|].
Qed.

Lemma run_control_family_view f g cfg now el bpf st :
  let s := run_control_family f cfg now el bpf st in
  det_view g s = (if decide (f = g) then det_step f cfg now el else id) (det_view g (bpf, st)) /\
  last_sample_ns s.2 = last_sample_ns st.
Proof.
  unfold run_control_family, det_view, det_step, upd. cbn [fst snd].
  destruct (decide (f = g)) as [<-|Hne].
  - destruct (read_counters _) as [l m]. destruct (detect_all _ _ _ _ _ _ _ _) as [[d p] tr].
    cbn. by rewrite !decide_True.
  - destruct (read_counters _) as [l m]. destruct (detect_all _ _ _ _ _ _ _ _) as [[d p] tr].
    cbn. by rewrite !decide_False.
Qed.

(** A tick computes each family from that family alone. *)
Lemma run_control_view cfg now mono bpf st f :
  let s := run_control cfg now mono bpf st in
  det_view f s = det_step f cfg now (tick_elapsed now st) (det_view f (bpf, st)) /\
  last_sample_ns s.2 = now.
Proof.
  unfold run_control. cbv zeta. fold (tick_elapsed now st).
  match goal with |- context [run_tx V4 ?e ?b ?s] => set (st0 := s);
    pose proof (run_tx_view V4 f e b st0) as T4; destruct (run_tx V4 e b st0) as [b1 s1] end.
  pose proof (run_tx_view V6 f (tick_elapsed now st) b1 s1) as T6.
  destruct (run_tx V6 _ b1 s1) as [b2 s2].
  pose proof (run_control_family_view V4 f cfg now (tick_elapsed now st) b2 s2) as C4.
  destruct (run_control_family V4 _ _ _ b2 s2) as [b3 s3].
  pose proof (run_control_family_view V6 f cfg now (tick_elapsed now st) b3 s3) as C6.
  destruct (run_control_family V6 _ _ _ b3 s3) as [b4 s4].
  cbv zeta in *. cbn [fst snd] in *.
  destruct T4 as [T4 L4], T6 as [T6 L6], C4 as [C4 M4], C6 as [C6 M6].
  split; [|by rewrite M6, M4, L6, L4]. rewrite C6, C4, T6, T4.
  by destruct f; rewrite ?(decide_True (P := V4 = V4)), ?(decide_False (P := V6 = V4)),
    ?(decide_True (P := V6 = V6)), ?(decide_False (P := V4 = V6)) by done.
Qed.
End ticks.
