(* ===== verification/FwTick.v ===== *)
(** * The control loop against the datapath

    Theorems that run whole ticks of [run_control] on the maps the datapath
    writes and reads. *)

From S2P Require Import Prelude FwCommon FwCidr FwBpf FwMaps FwNet FwDemo FwDatapath FwDetect FwRuntime.

Section tick.
Context `{!BpfKernel, !BpfKernelLaws, !HashIter}.

Lemma full_key_bits f k : full_key (bits f) k -> 0 <= bits f.
Proof. unfold full_key. intros <-. lia. Qed.

(** The manual floor is all a trie entry holds. *)
Definition at_floor (man : Z) (e : option DestState) : Prop :=
  ds_mode <$> e = if man =? DEST_MODE_NORMAL then None else Some man.

Lemma tick_view cfg now mono bpf st f k :
  tick_wf cfg bpf st -> full_key (bits f) k ->
  host_view f k (run_control cfg now mono bpf st) =
  pass_on (detection cfg) (escalate_pass_pps cfg) (syn_proxy_pps cfg) now
    (tick_elapsed now st) (manual_flags f cfg) k
    (sum_counters <$> hget k (DEST_COUNTERS (x_fam bpf f))) (host_view f k (bpf, st)).
Proof.
  intros Hwf Hk. destruct (Hwf f) as (Hc & Hd & Hp & Hroom).
  pose proof (run_control_view cfg now mono bpf st f) as [Hv _]. cbv zeta in Hv.
  set (s' := run_control cfg now mono bpf st) in *.
  unfold det_view, det_step in Hv. cbn [fst snd] in Hv.
  pose proof (drain_spec (DEST_COUNTERS (x_fam bpf f)) k) as [Hl _].
  pose proof (drain_clean _ _ _ Hc Hd) as (Hnd & Hfk & _).
  assert (roomy (read_counters (DEST_COUNTERS (x_fam bpf f))).1 (DEST_STATE (x_fam bpf f)) (dests st f)) as Hr.
  { unfold roomy, read_counters. cbn. by rewrite length_map. }
  destruct (read_counters _) as [l m]. cbn [fst snd] in *.
  pose proof (detect_all_view f cfg now (tick_elapsed now st) l (DEST_STATE (x_fam bpf f))
                (dests st f) (prefixes st f) k Hp) as Ha.
  destruct (detect_all _ _ _ _ _ _ _ _) as [[ds ps] trie]. cbv zeta in Ha. cbn [fst snd] in Ha.
  injection Hv as _ Et Ed _. unfold host_view at 1. rewrite Ed, Et, Ha, <- Hl.
  by apply detect_family_view.
Qed.

(** C34: A control tick is, on every destination of either family, the detection
    decision on that destination alone: with the sum of its per-CPU counters if it had
    traffic, with no traffic if it had none but is mitigating, and nothing otherwise;
    and the counters it read are gone, so no packet is counted twice. Protected
    prefixes do not interfere, as long as none is a single address; and the bounded
    trie of the states has room for the destinations counted or tracked. *)
Theorem tick_pointwise cfg now mono bpf st f k :
  tick_wf cfg bpf st -> full_key (bits f) k ->
  let s' := run_control cfg now mono bpf st in
  host_view f k s' =
    pass_on (detection cfg) (escalate_pass_pps cfg) (syn_proxy_pps cfg) now
      (tick_elapsed now st) (manual_flags f cfg) k
      (sum_counters <$> hget k (DEST_COUNTERS (x_fam bpf f))) (host_view f k (bpf, st)) /\
  hget k (DEST_COUNTERS (x_fam s'.1 f)) = None.
Proof.
  intros Hwf Hk s'. split; [by apply tick_view|].
  pose proof (run_control_view cfg now mono bpf st f) as [Hv _]. fold s' in Hv.
  unfold det_view, det_step in Hv. cbn [fst snd] in Hv.
  pose proof (drain_spec (DEST_COUNTERS (x_fam bpf f)) k) as [_ Hd].
  destruct (read_counters _) as [l m]. destruct (detect_all _ _ _ _ _ _ _ _) as [[ds ps] trie].
  injection Hv as -> _ _ _. done.
Qed.

(** ** A flood is filtered from the next packet on *)

Lemma enforced_port_filter r esc syn man :
  has_flag (Z.lor (enforced_flags r esc syn) man) DEST_MODE_PORT_FILTER = true.
Proof.
  rewrite has_flag_lor. unfold enforced_flags.
  by destruct (negb _ && _), (_ <=? _).
Qed.

Lemma mode_of_exact f k s st :
  full_key (bits f) k -> lexact (bits f) k (DEST_STATE (x_fam s f)) = Some st ->
  mode_of f k s = ds_mode st.
Proof.
  intros Hk E. unfold mode_of, dest_mode, getm. rewrite bind_run. cbn.
  by rewrite (lget_full _ _ st) by (eauto using full_key_bits).
Qed.

(** C1: A destination whose drained window reaches an entry threshold is under the port
    filter when the tick ends, whether or not it already was: the datapath reads a mode
    with that flag, and the mode is exactly the flags that the rates of that window call
    for together with the operator's manual floor. The destination's tracker agrees with
    its trie entry before the tick, as every pass leaves it; no threshold is negative and the
    exit percentage is at most 100; the bounded trie of the states has room for the
    destinations counted or tracked; and no protected prefix is a single address. *)
Theorem flood_is_mitigated cfg now mono bpf st f k slots :
  tick_wf cfg bpf st -> full_key (bits f) k ->
  0 <= entry_pps (detection cfg) -> 0 <= entry_syn_pps (detection cfg) ->
  0 <= entry_bps (detection cfg) -> 0 <= exit_pct (detection cfg) <= 100 ->
  hget k (DEST_COUNTERS (x_fam bpf f)) = Some slots ->
  (forall t, dests st f !! k = Some t ->
     synced (t, lexact (bits f) k (DEST_STATE (x_fam bpf f)))) ->
  let p := tr_prev (default DestTracker_default (dests st f !! k)) in
  let rates := compute_rates p (add_counters p (sum_counters slots)) (tick_elapsed now st) in
  exceeds_entry rates (detection cfg) = true ->
  let s' := run_control cfg now mono bpf st in
  has_flag (mode_of f k s'.1) DEST_MODE_PORT_FILTER = true /\
  mode_of f k s'.1 =
    Z.lor (enforced_flags rates (escalate_pass_pps cfg) (syn_proxy_pps cfg)) (manual_flags f cfg k).
Proof.
  intros Hwf Hk Hp Hs Hb Hx Hc Hsy p rates Hex s'.
  pose proof (tick_view cfg now mono bpf st f k Hwf Hk) as Hv. fold s' in Hv.
  rewrite Hc in Hv. change (sum_counters <$> Some slots) with (Some (sum_counters slots)) in Hv.
  unfold pass_on, act_on in Hv.
  destruct (decide_entry _ _ _ _ _ _ _ _ _) as [t' e'] eqn:Ed.
  unfold host_view at 1 in Hv. injection Hv as Et Ee.
  change (host_view f k (bpf, st)).1 with (dests st f !! k) in Ed.
  assert (synced (default DestTracker_default (dests st f !! k), (host_view f k (bpf, st)).2)) as Hs0.
  { cbn. destruct (dests st f !! k) as [t|] eqn:E; cbn; [by apply Hsy|by destruct 1]. }
  pose proof (decide_entry_enforces _ _ _ _ _ _ _ _ _ _ (or_introl Hs0) Ed) as (Hsy' & Hfl & _).
  assert (tr_mode t' <> DEST_MODE_NORMAL /\ tr_last t' = rates) as [Hm Hlast].
  { unfold decide_entry in Ed. cbn [fst snd] in Ed. fold p in Ed.
    destruct (process_sample _ _ _ _ _) as [[x r] t1] eqn:Ep.
    destruct (process_sample_last _ _ _ _ _ _ _ _ Ep) as (El & _ & _ & Er).
    pose proof (level_edit_retag true x r t1 (escalate_pass_pps cfg) (syn_proxy_pps cfg) now
                  (manual_flags f cfg k)) as [[_ Em _ _] El'].
    destruct (level_edit _ _ _ _ _ _ _ _) as [t2 ed]. injection Ed as -> _. cbn in Em, El'.
    split; [|by rewrite El', El, Er]. clear Er El El'.
    rewrite Em. unfold process_sample, evaluate in Ep. fold p rates in Ep. rewrite Hex in Ep.
    pose proof (exceeds_not_below _ rates Hp Hs Hb Hx) as Hno. rewrite Hex, andb_true_r in Hno.
    rewrite Hno in Ep. by destruct (_ =? DEST_MODE_NORMAL); injection Ep as <- <- <-. }
  destruct (Hsy' Hm) as (st' & Es & Eds). cbn [fst snd] in Es, Eds.
  rewrite Es in Ee. rewrite (mode_of_exact f k s'.1 st' Hk Ee), Eds. cbn [fst] in Hfl. rewrite (Hfl Hm), Hlast.
  split; [apply enforced_port_filter|done].
Qed.

(** ** Silence releases the destination *)

(** Ticks during which a destination has no traffic; in between, the datapath
    may change anything but the dest-state trie. *)
Inductive quiet_ticks (cfg : RuntimeConfig) (f : family) (k : Addr)
    : XState * DetectionState -> list Z -> XState * DetectionState -> Prop :=
| quiet_nil s : quiet_ticks cfg f k s [] s
| quiet_cons bpf bpf1 st now mono l s' :
    DEST_STATE (x_fam bpf1 f) = DEST_STATE (x_fam bpf f) ->
    tick_wf cfg bpf1 st -> hget k (DEST_COUNTERS (x_fam bpf1 f)) = None ->
    quiet_ticks cfg f k (run_control cfg now mono bpf1 st) l s' ->
    quiet_ticks cfg f k (bpf, st) (now :: l) s'.

(** Released: back to normal, nothing in the trie but the manual floor. *)
Definition released (cfg : RuntimeConfig) (f : family) (k : Addr)
    (v : option DestTracker * option DestState) : Prop :=
  exists t, v.1 = Some t /\ tr_mode t = DEST_MODE_NORMAL /\ at_floor (manual_flags f cfg k) v.2.
Definition cooling (since : Z) (v : option DestTracker * option DestState) : Prop :=
  exists t, v.1 = Some t /\ tr_mode t <> DEST_MODE_NORMAL /\ below_since_ns t = Some since.

Lemma quiet_pass cfg f k now el t e :
  can_exit (detection cfg) -> tr_mode t <> DEST_MODE_NORMAL ->
  let since := default now (below_since_ns t) in
  let v' := pass_on (detection cfg) (escalate_pass_pps cfg) (syn_proxy_pps cfg) now el
              (manual_flags f cfg) k None (Some t, e) in
  if exit_cooldown_ns (detection cfg) <=? sat_sub now since
  then released cfg f k v' else cooling since v'.
Proof.
  intros Hc Hm since. unfold pass_on, act_on, decide_entry, id. cbn [fst snd].
  rewrite decide_True by done.
  destruct (silent_step (detection cfg) t now el Hc Hm) as (t1 & Ep & Hn). fold since in Ep, Hn.
  rewrite Ep. apply process_sample_mode in Ep as Hmd.
  pose proof (level_edit_retag true
    (if exit_cooldown_ns (detection cfg) <=? sat_sub now since then TExited else TNone)
    Rates_default t1 (escalate_pass_pps cfg) (syn_proxy_pps cfg) now
    (manual_flags f cfg k)) as [[_ Em Eb _] _].
  destruct (_ <=? sat_sub now since).
  - destruct Hmd as [_ Hm1]. unfold level_edit in *. rewrite Hm1 in *. cbn [Z.eqb fst] in *.
    change (DEST_MODE_NORMAL =? DEST_MODE_NORMAL) with true in *. cbv iota in *.
    eexists. split; [done|]. split; [done|].
    unfold at_floor. cbn [snd]. by destruct (manual_flags f cfg k =? DEST_MODE_NORMAL).
  - destruct (Hn eq_refl) as [Hm1 Hb1].
    destruct (level_edit _ _ _ _ _ _ _ _) as [t2 ed]. cbn in Em, Eb.
    exists t2. by rewrite Em, Eb, Hm1, Hb1.
Qed.

Lemma released_pass cfg f k now el v :
  released cfg f k v ->
  pass_on (detection cfg) (escalate_pass_pps cfg) (syn_proxy_pps cfg) now el
    (manual_flags f cfg) k None v = v.
Proof.
  intros (t & E & Hm & _). destruct v as [[t'|] e]; [|done]. cbn in E. simplify_eq.
  unfold pass_on. cbn. by rewrite decide_False by (by intros []).
Qed.

(** A tick without traffic for [k], after the datapath ran. *)
Lemma quiet_view cfg now mono bpf bpf1 st f k :
  DEST_STATE (x_fam bpf1 f) = DEST_STATE (x_fam bpf f) ->
  tick_wf cfg bpf1 st -> full_key (bits f) k ->
  hget k (DEST_COUNTERS (x_fam bpf1 f)) = None ->
  host_view f k (run_control cfg now mono bpf1 st) =
  pass_on (detection cfg) (escalate_pass_pps cfg) (syn_proxy_pps cfg) now
    (tick_elapsed now st) (manual_flags f cfg) k None (host_view f k (bpf, st)).
Proof.
  intros Et Hwf Hk Hn. rewrite tick_view by done. rewrite Hn.
  change (sum_counters <$> None) with (@None DestCounters). f_equal.
  unfold host_view. cbn [fst snd]. by rewrite Et.
Qed.

(** Quiet ticks, on one destination. *)
Lemma quiet_released cfg f k s l s' :
  full_key (bits f) k -> quiet_ticks cfg f k s l s' ->
  released cfg f k (host_view f k s) -> released cfg f k (host_view f k s').
Proof.
  intros Hk. induction 1 as [|bpf bpf1 st now mono l s' Et Hwf Hn _ IH]; [done|].
  intros Hr. apply IH. rewrite (quiet_view _ _ _ bpf) by done. by rewrite released_pass.
Qed.

Lemma quiet_cooling cfg f k s l now1 s' since :
  full_key (bits f) k -> can_exit (detection cfg) ->
  quiet_ticks cfg f k s (l ++ [now1]) s' ->
  cooling since (host_view f k s) -> exit_cooldown_ns (detection cfg) <= now1 - since ->
  released cfg f k (host_view f k s').
Proof.
  intros Hk Hc. revert s. induction l as [|now l IH]; intros s Hq Hcool Hle;
    inversion Hq as [|bpf bpf1 st n mono l' s'' Et Hwf Hn Hrest E1 E2]; subst;
    destruct Hcool as (t & E & Hm & Hb).
  - pose proof (quiet_pass cfg f k now1 (tick_elapsed now1 st) t
      (lexact (bits f) k (DEST_STATE (x_fam bpf f))) Hc Hm) as Hp.
    rewrite Hb in Hp. cbn [default from_option id] in Hp.
    rewrite (proj2 (Z.leb_le _ _)) in Hp by (unfold sat_sub; lia).
    inversion Hrest; subst. rewrite (quiet_view _ _ _ bpf) by done.
    unfold host_view in *; cbn [fst snd] in *. by rewrite E.
  - pose proof (quiet_pass cfg f k now (tick_elapsed now st) t
      (lexact (bits f) k (DEST_STATE (x_fam bpf f))) Hc Hm) as Hp.
    rewrite Hb in Hp. cbn [default from_option id] in Hp.
    assert (host_view f k (run_control cfg now mono bpf1 st) =
      pass_on (detection cfg) (escalate_pass_pps cfg) (syn_proxy_pps cfg) now
        (tick_elapsed now st) (manual_flags f cfg) k None
        (Some t, lexact (bits f) k (DEST_STATE (x_fam bpf f)))) as Ev.
    { rewrite (quiet_view _ _ _ bpf) by done. unfold host_view in *; cbn [fst snd] in *. by rewrite E. }
    destruct (_ <=? _); rewrite <- Ev in Hp.
    + by eapply quiet_released.
    + by eapply IH.
Qed.

(** A mitigated destination that goes silent is released: after quiet ticks
    that span the cooldown its tracker is normal and its trie entry is gone, or
    is exactly the operator's manual floor; later quiet ticks keep it so. *)
Theorem silence_releases cfg f k s now0 l now1 s' t :
  full_key (bits f) k -> can_exit (detection cfg) ->
  quiet_ticks cfg f k s (now0 :: l ++ [now1]) s' ->
  dests s.2 f !! k = Some t -> tr_mode t <> DEST_MODE_NORMAL ->
  default now0 (below_since_ns t) <= now0 ->
  exit_cooldown_ns (detection cfg) <= now1 - now0 ->
  exists t', dests s'.2 f !! k = Some t' /\ tr_mode t' = DEST_MODE_NORMAL /\
    at_floor (manual_flags f cfg k) (lexact (bits f) k (DEST_STATE (x_fam s'.1 f))).
Proof.
  intros Hk Hc Hq Et Hm Hle Hcd. change (released cfg f k (host_view f k s')).
  inversion Hq as [|bpf bpf1 st n mono l' s'' Etr Hwf Hn Hrest E1 E2]; subst.
  pose proof (quiet_pass cfg f k now0 (tick_elapsed now0 st) t
    (lexact (bits f) k (DEST_STATE (x_fam bpf f))) Hc Hm) as Hp. cbv zeta in Hp.
  assert (host_view f k (run_control cfg now0 mono bpf1 st) =
    pass_on (detection cfg) (escalate_pass_pps cfg) (syn_proxy_pps cfg) now0
      (tick_elapsed now0 st) (manual_flags f cfg) k None
      (Some t, lexact (bits f) k (DEST_STATE (x_fam bpf f)))) as Ev.
  { rewrite (quiet_view _ _ _ bpf) by done. unfold host_view in *; cbn [fst snd] in *. by rewrite Et. }
  rewrite <- Ev in Hp. destruct (_ <=? _).
  - by eapply quiet_released.
  - eapply quiet_cooling; [done..|exact Hp|lia].
Qed.
End tick.
