(* ===== verification/FwRules.v ===== *)
(** * Rules, limits and housekeeping of the firewall daemon
    ([lnvps_fw/lnvps_fw_service/src/main.rs], the wire types of [api.rs])

    The operator's ruleset is reconciled into the datapath's tries, the limits
    into the detection configuration; timers rotate the cookie secret and sweep
    the learned ports and verified sources. *)

From S2P Require Import Prelude FwCommon FwCidr FwBpf FwMaps FwDetect FwRuntime.
From Stdlib Require Import Ascii.

(** ** CIDR strings *)

(** [CidrKey]: the family is the enum's constructor. *)
Record CidrKey := { ck_fam : family; ck_bits : Z; ck_net : Addr }.
#[export] Instance CidrKey_eq_dec : EqDecision CidrKey.
Proof. solve_decision. Defined.

(** [str::split_once('/')] *)
Fixpoint split_once (s : string) : string * option string :=
  match s with
  | EmptyString => (EmptyString, None)
  | String c s =>
      if Ascii.eqb c "/"%char then (EmptyString, Some s)
      else let '(a, l) := split_once s in (String c a, l)
  end.

(** [str::parse::<u32>()]: an optional plus sign, decimal digits, no overflow. *)
Definition digit (c : Ascii.ascii) : option Z :=
  let n := Z.of_N (Ascii.N_of_ascii c) in
  if (48 <=? n) && (n <=? 57) then Some (n - 48) else None.
Fixpoint parse_digits (acc : Z) (s : string) : option Z :=
  match s with
  | EmptyString => Some acc
  | String c s =>
      d ← digit c;
      let acc := acc * 10 + d in
      if acc <? 2 ^ 32 then parse_digits acc s else None
  end.
Definition parse_u32 (s : string) : option Z :=
  match s with
  | EmptyString => None
  | String c (String _ _ as s') => if Ascii.eqb c "+"%char then parse_digits 0 s' else parse_digits 0 s
  | String _ EmptyString => parse_digits 0 s
  end.

(** The standard library's [str::parse::<IpAddr>()]: the family and the octets. *)
Class ParseIp := parse_ip : string -> option (family * Addr).

Definition parse_cidr `{!ParseIp} (s : string) : option CidrKey :=
  let '(addr, len) := split_once s in
  '(f, octets) ← parse_ip addr;
  nbits ← match len with None => Some (bits f) | Some l => parse_u32 l end;
  if bits f <? nbits then None
  else Some {| ck_fam := f; ck_bits := nbits; ck_net := mask f octets nbits |}.

(** ** Wire types *)
Record Override := { ov_cidr : string; ov_flags : Z }.
Record RuleSet := {
  rs_protected : list string;
  rs_overrides : list Override;
  rs_source_blocks : list string }.
Record Limits := {
  l_pps : Z; l_syn_pps : Z; l_bps : Z;
  l_net_pps : Z; l_net_syn_pps : Z; l_net_bps : Z;
  l_exit_pct : Z; l_cooldown_secs : Z;
  l_src_rate_pps : Z; l_src_cooldown_secs : Z;
  l_syn_proxy_pps : Z; l_learn_leak_pps : Z }.

Definition apply_limits (rt : RuntimeConfig) (l : Limits) : RuntimeConfig :=
  let cooldown := sat_mul 64 (l_cooldown_secs l) 1000000000 in
  {| detection := {| entry_pps := l_pps l; entry_syn_pps := l_syn_pps l; entry_bps := l_bps l;
                     exit_pct := l_exit_pct l; exit_cooldown_ns := cooldown |};
     network := {| entry_pps := l_net_pps l; entry_syn_pps := l_net_syn_pps l;
                   entry_bps := l_net_bps l; exit_pct := l_exit_pct l;
                   exit_cooldown_ns := cooldown |};
     protected_nets := protected_nets rt; manual := manual rt;
     src_rate_pps := l_src_rate_pps l;
     src_cooldown_ns := sat_mul 64 (l_src_cooldown_secs l) 1000000000;
     escalate_pass_pps := escalate_pass_pps rt;
     syn_proxy_pps := l_syn_proxy_pps l; rt_learn_leak_pps := l_learn_leak_pps l |}.

(** ** Views *)

(** [st.count as u128 * 10^9 / elapsed as u128], as [u64]. *)
Definition src_pps_estimate (st : SrcState) (now_ns : Z) : Z :=
  let elapsed := Z.max (sat_sub now_ns (window_start_ns st)) 100000000 in
  wrap 64 (count st * 1000000000 / elapsed).

Definition drop_pct (drop total : Z) : Z :=
  if total =? 0 then 0 else Z.min (sat_mul 64 drop 100 / total) 100.

Definition load_pct (p s b : Z) (cfg : DetectionConfig) : Z :=
  let r v th := if th =? 0 then 0 else wrap 32 (sat_mul 64 v 100 / th) in
  Z.max (Z.max (r p (entry_pps cfg)) (r s (entry_syn_pps cfg))) (r b (entry_bps cfg)).

(** Why a write to a map fails. *)
Inductive MapError : Type := MapFull.

(** The loops of a reconciliation: what is gone is removed; what is wanted is
    installed, up to the first insert that fails. *)
Definition remove_all {S} (del : CidrKey -> S -> S) (s : S) (ap : gmap string CidrKey)
    (l : list (string * CidrKey)) : S * gmap string CidrKey :=
  foldl (fun '(s, ap) '(c, k) => (del k s, delete c ap)) (s, ap) l.
Fixpoint install_all {A S} (key : A -> CidrKey) (put : A -> S -> option S) (s : S)
    (ap : gmap string CidrKey) (l : list (string * A)) : res MapError unit * (S * gmap string CidrKey) :=
  match l with
  | [] => (Ok tt, (s, ap))
  | (c, x) :: l =>
      match put x s with
      | Some s => install_all key put s (<[c := key x]> ap) l
      | None => (Err MapFull, (s, ap))
      end
  end.

Section rules.
Context `{!BpfKernel, !HashIter, !ParseIp}.

(** [ManualOverrides::from_overrides], one family. *)
Definition from_overrides (f : family) (ovs : list Override) : list (Z * Addr * Z) :=
  omap (fun o => k ← parse_cidr (ov_cidr o);
                 if decide (ck_fam k = f)
                 then Some (ck_bits k, mask f (ck_net k) (ck_bits k), ov_flags o) else None) ovs.

(** One family's protected prefixes. *)
Definition protected_of (f : family) (cs : list string) : list (Z * Addr) :=
  omap (fun c => k ← parse_cidr c;
                 if decide (ck_fam k = f) then Some (ck_bits k, ck_net k) else None) cs.

(** [None]: the insert failed, nothing is changed. *)
Definition write_dest_state (key : CidrKey) (flags now_ns : Z) (bpf : XState) : option XState :=
  let fm := x_fam bpf (ck_fam key) in
  t ← linsert (ck_bits key) (ck_net key) (dest_state flags now_ns) (DEST_STATE fm);
  Some (set_fam (ck_fam key) (set_DEST_STATE t fm) bpf).

Definition remove_dest_state (key : CidrKey) (bpf : XState) : XState :=
  let fm := x_fam bpf (ck_fam key) in
  set_fam (ck_fam key) (set_DEST_STATE (ldel (ck_bits key) (ck_net key) (DEST_STATE fm)) fm) bpf.

Definition set_MANUAL_BLOCK v (m : FamMaps) : FamMaps :=
  Build_FamMaps (DEST_COUNTERS m) (TX_COUNTERS m) (SRC_STATE m) (LEARN_LEAK m)
    (LEARN_PROBE m) (DEST_STATE m) (OPEN_PORTS m) (PROTECTED m) v (VERIFIED m).
Definition set_PROTECTED v (m : FamMaps) : FamMaps :=
  Build_FamMaps (DEST_COUNTERS m) (TX_COUNTERS m) (SRC_STATE m) (LEARN_LEAK m)
    (LEARN_PROBE m) (DEST_STATE m) (OPEN_PORTS m) v (MANUAL_BLOCK m) (VERIFIED m).

Definition manual_block (key : CidrKey) (set : bool) (bpf : XState) : option XState :=
  let fm := x_fam bpf (ck_fam key) in
  t ← (if set then linsert (ck_bits key) (ck_net key) 1 (MANUAL_BLOCK fm)
       else Some (ldel (ck_bits key) (ck_net key) (MANUAL_BLOCK fm)));
  Some (set_fam (ck_fam key) (set_MANUAL_BLOCK t fm) bpf).

(** What [apply_rules] mutates. *)
Record RuleState := {
  r_bpf : XState;
  applied : gmap string CidrKey;
  applied_blocks : gmap string CidrKey;
  r_rt : RuntimeConfig }.

Definition desired_of (rules : RuleSet) : gmap string (CidrKey * Z) :=
  foldl (fun m o => match parse_cidr (ov_cidr o) with
                    | Some k => <[ov_cidr o := (k, ov_flags o)]> m
                    | None => m
                    end) ∅ (rs_overrides rules).
Definition want_of (rules : RuleSet) : gmap string CidrKey :=
  foldl (fun m c => match parse_cidr c with Some k => <[c := k]> m | None => m end)
    ∅ (rs_source_blocks rules).

(** The keys that are applied and no longer wanted. *)
Definition gone {A B} (applied : gmap string A) (wanted : gmap string B) : list (string * A) :=
  filter (fun e : string * A => wanted !! e.1 = None) (hash_iter applied).

Definition apply_overrides (rules : RuleSet) (now_ns : Z) (bpf : XState)
    (ap : gmap string CidrKey) : res MapError unit * (XState * gmap string CidrKey) :=
  let desired := desired_of rules in
  let '(bpf, ap) := remove_all remove_dest_state bpf ap (gone ap desired) in
  install_all fst (fun x => write_dest_state x.1 x.2 now_ns) bpf ap (hash_iter desired).

(** A removal does not fail. *)
Definition unblock (key : CidrKey) (bpf : XState) : XState := default bpf (manual_block key false bpf).
Definition apply_blocks (rules : RuleSet) (bpf : XState) (ab : gmap string CidrKey)
    : res MapError unit * (XState * gmap string CidrKey) :=
  let want := want_of rules in
  let '(bpf, ab) := remove_all unblock bpf ab (gone ab want) in
  install_all id (fun k => manual_block k true) bpf ab (hash_iter want).

(** A failed insert returns at once; what was done before it stays. *)
Definition apply_rules (rules : RuleSet) (now_ns : Z) (s : RuleState) : res MapError unit * RuleState :=
  let rt := r_rt s in
  let rt := {| detection := detection rt; network := network rt;
               protected_nets := fun f => protected_of f (rs_protected rules);
               manual := fun f => from_overrides f (rs_overrides rules);
               src_rate_pps := src_rate_pps rt; src_cooldown_ns := src_cooldown_ns rt;
               escalate_pass_pps := escalate_pass_pps rt; syn_proxy_pps := syn_proxy_pps rt;
               rt_learn_leak_pps := rt_learn_leak_pps rt |} in
  let '(r, (bpf, ap)) := apply_overrides rules now_ns (r_bpf s) (applied s) in
  match r with
  | Err e => (Err e, {| r_bpf := bpf; applied := ap; applied_blocks := applied_blocks s; r_rt := rt |})
  | Ok _ =>
      let '(r, (bpf, ab)) := apply_blocks rules bpf (applied_blocks s) in
      match r with
      | Err e => (Err e, {| r_bpf := bpf; applied := ap; applied_blocks := ab; r_rt := rt |})
      | Ok _ =>
          let have_blocks := negb (bool_decide (ab = ∅)) in
          let bpf := update_global_cfg (fun c =>
            {| src_rate := src_rate c; verified_ttl_ns := verified_ttl_ns c;
               scoped_flag := scoped_flag c; manual_blocks := Z.b2z have_blocks;
               learn_leak_pps := learn_leak_pps c |}) bpf in
          (Ok tt, {| r_bpf := bpf; applied := ap; applied_blocks := ab; r_rt := rt |})
      end
  end.

(** One family of [sync_protected]: drop what was applied, install the list up to the
    first insert that fails; and what is applied then. *)
Fixpoint protect_all (t : lpm Z) (nets : list (Z * Addr)) : res MapError unit * list (Z * Addr) * lpm Z :=
  match nets with
  | [] => (Ok tt, [], t)
  | (len, net) :: nets =>
      match linsert len net 1 t with
      | Some t => let '(r, done, t) := protect_all t nets in (r, (len, net) :: done, t)
      | None => (Err MapFull, [], t)
      end
  end.
Definition sync_family (f : family) (nets old : list (Z * Addr)) (bpf : XState)
    : res MapError unit * list (Z * Addr) * XState :=
  let fm := x_fam bpf f in
  let t := foldl (fun t '(len, net) => ldel len net t) (PROTECTED fm) old in
  let '(r, done, t) := protect_all t nets in
  (r, done, set_fam f (set_PROTECTED t fm) bpf).
Definition sync_protected (nets old : family -> list (Z * Addr)) (bpf : XState)
    : res MapError unit * (family -> list (Z * Addr)) * XState :=
  let '(r, done, bpf) := sync_family V4 (nets V4) (old V4) bpf in
  let old := upd V4 done old in
  match r with
  | Err e => (Err e, old, bpf)
  | Ok _ =>
      let '(r, done, bpf) := sync_family V6 (nets V6) (old V6) bpf in
      let old := upd V6 done old in
      match r with
      | Err e => (Err e, old, bpf)
      | Ok _ =>
          let scoped := negb (bool_decide (nets V4 = []) && bool_decide (nets V6 = [])) in
          (Ok tt, old, update_global_cfg (fun c =>
             {| src_rate := src_rate c; verified_ttl_ns := verified_ttl_ns c;
                scoped_flag := Z.b2z scoped; manual_blocks := manual_blocks c;
                learn_leak_pps := learn_leak_pps c |}) bpf)
      end
  end.

(** ** Timers *)

Definition rotate_cookie_secret (new : Z) (bpf : XState) : XState :=
  let cur := default 0 (COOKIE_SECRET bpf !! COOKIE_SECRET_CURRENT) in
  {| x_fam := x_fam bpf; GLOBAL_CFG := GLOBAL_CFG bpf;
     COOKIE_SECRET := <[COOKIE_SECRET_CURRENT := new]>
                        (<[COOKIE_SECRET_PREVIOUS := cur]> (COOKIE_SECRET bpf));
     SYN_PROXY_JUMP := SYN_PROXY_JUMP bpf; x_reads := x_reads bpf |}.

(** The secret made of eight random bytes is never zero. *)
Definition fresh_cookie_secret (random : Z) : Z := Z.lor random 1.

Definition gc_learned_ports (now_ns tcp_ttl_ns udp_ttl_ns : Z) (bpf : XState) : XState :=
  let gc f bpf :=
    let fm := x_fam bpf f in
    let expired := expired_ports (scan_plain (OPEN_PORTS fm)) now_ns tcp_ttl_ns udp_ttl_ns in
    set_fam f (set_OPEN_PORTS (delete_keys (OPEN_PORTS fm) expired) fm) bpf in
  gc V6 (gc V4 bpf).

Definition gc_verified_map (now_ns ttl_ns : Z) (m : hmap Addr Z) : hmap Addr Z :=
  delete_keys m (map fst (filter (fun e : Addr * Z => is_expired e.2 now_ns ttl_ns = true)
                            (scan_plain m))).
Definition gc_verified (now_ns ttl_ns : Z) (bpf : XState) : XState :=
  let gc f bpf := let fm := x_fam bpf f in
    set_fam f (set_VERIFIED (gc_verified_map now_ns ttl_ns (VERIFIED fm)) fm) bpf in
  gc V6 (gc V4 bpf).
End rules.

(** ** Reconciliation *)

Definition canonical (k : CidrKey) : Prop := mask_bytes (ck_net k) (ck_bits k) = ck_net k.

Lemma parse_cidr_canonical `{!ParseIp} s k : parse_cidr s = Some k -> canonical k.
Proof.
  unfold parse_cidr. destruct (split_once s) as [addr len].
  destruct (parse_ip addr) as [[f a]|]; cbn; [|done].
  destruct (match len with None => _ | Some l => _ end) as [n|]; cbn; [|done].
  destruct (Z.ltb_spec (bits f) n); [done|]. intros [= <-]. unfold canonical; cbn.
  destruct f; cbn in *; unfold mask_v4, mask_v6; rewrite Z.min_l by lia;
    apply mask_bytes_idemp.
Qed.

(** The two loops, over any keyed store. *)
Section reconcile.
Context {A B S : Type} `{!HashIter}.
Context (key : A -> CidrKey) (val : A -> B).
Context (put : A -> S -> option S) (del : CidrKey -> S -> S) (entry : CidrKey -> S -> option B).
Hypothesis put_entry : forall k a s s', canonical k -> canonical (key a) -> put a s = Some s' ->
  entry k s' = if decide (k = key a) then Some (val a) else entry k s.
Hypothesis del_entry : forall k k' s, canonical k -> canonical k' ->
  entry k (del k' s) = if decide (k = k') then None else entry k s.
Notation remove_all := (remove_all del).
Notation install_all := (install_all key put).

Lemma remove_all_spec l : Forall (fun e => canonical e.2) l -> forall s ap,
  (forall k, canonical k ->
     entry k (remove_all s ap l).1 = if decide (k ∈ map snd l) then None else entry k s) /\
  (forall c, (remove_all s ap l).2 !! c = if decide (c ∈ map fst l) then None else ap !! c).
Proof.
  induction 1 as [|[c k] l Hk _ IH]; intros s ap; [done|]. unfold remove_all. cbn [foldl].
  destruct (IH (del k s) (delete c ap)) as [I1 I2]. fold (remove_all (del k s) (delete c ap) l).
  cbn [map fst snd] in *. split.
  - intros k0 Hk0. rewrite I1, del_entry by done. destruct (decide (k0 ∈ map snd l)) as [Hi|Hn].
    + rewrite decide_True; [done|]. by apply list_elem_of_further.
    + destruct (decide (k0 = k)) as [->|Hne].
      * by rewrite decide_True by apply list_elem_of_here.
      * rewrite decide_False; [done|]. rewrite elem_of_cons. by intros [].
  - intros c0. rewrite I2. destruct (decide (c0 ∈ map fst l)) as [Hi|Hn].
    + rewrite decide_True; [done|]. by apply list_elem_of_further.
    + destruct (decide (c = c0)) as [->|Hne].
      * rewrite lookup_delete_eq. by rewrite decide_True by apply list_elem_of_here.
      * rewrite lookup_delete_ne by done. rewrite decide_False; [done|].
        rewrite elem_of_cons. by intros [].
Qed.

Lemma install_all_spec l : Forall (fun e => canonical (key e.2)) l ->
  NoDup (map fst l) -> NoDup (map (fun e => key e.2) l) -> forall s ap s' ap',
  install_all s ap l = (Ok tt, (s', ap')) ->
  (forall c a, (c, a) ∈ l -> entry (key a) s' = Some (val a)) /\
  (forall k, canonical k -> (k ∉ map (fun e => key e.2) l) -> entry k s' = entry k s) /\
  (forall c, ap' !! c =
     match (list_to_map l : gmap string A) !! c with Some a => Some (key a) | None => ap !! c end).
Proof.
  induction 1 as [|[c a] l Hk Hl IH]; intros Hf Hs s ap s' ap' Hrun.
  { injection Hrun as <- <-. split_and!; [|done|done]. intros c a Hin. by apply elem_of_nil in Hin. }
  cbn [map fst snd] in *. apply NoDup_cons in Hf as [Hcf Hf]. apply NoDup_cons in Hs as [Hks Hs].
  cbn [FwRules.install_all] in Hrun. destruct (put a s) as [s1|] eqn:Ep; [|done].
  destruct (IH Hf Hs _ _ _ _ Hrun) as (I1 & I2 & I3). split_and!.
  - intros c' a' Hin. apply elem_of_cons in Hin as [[= -> ->]|Hin]; [|by eapply I1].
    rewrite I2, (put_entry _ _ _ _ Hk Hk Ep) by done. by rewrite decide_True.
  - intros k0 Hk0 Hn. apply not_elem_of_cons in Hn as [Hne Hn].
    rewrite I2, (put_entry _ _ _ _ Hk0 Hk Ep) by done. by rewrite decide_False.
  - intros c0. rewrite I3. cbn [list_to_map foldr uncurry]. destruct (decide (c = c0)) as [->|Hne].
    + rewrite lookup_insert_eq. cbn. rewrite lookup_insert_eq.
      by rewrite not_elem_of_list_to_map_1.
    + cbn. by rewrite !lookup_insert_ne.
Qed.
End reconcile.

Section rules_theorems.
Context `{!BpfKernel, !BpfKernelLaws, !HashIter, !ParseIp}.

(** What the tries hold under a key. *)
Definition dest_entry (k : CidrKey) (bpf : XState) : option DestState :=
  lexact (ck_bits k) (ck_net k) (DEST_STATE (x_fam bpf (ck_fam k))).
Definition block_entry (k : CidrKey) (bpf : XState) : option Z :=
  lexact (ck_bits k) (ck_net k) (MANUAL_BLOCK (x_fam bpf (ck_fam k))).

(** Distinct canonical keys are distinct entries. *)
Lemma lexact_put {V} (k k' : CidrKey) (v : V) (t : family -> lpm V) t' :
  canonical k -> canonical k' -> linsert (ck_bits k') (ck_net k') v (t (ck_fam k')) = Some t' ->
  lexact (ck_bits k) (ck_net k) (if decide (ck_fam k' = ck_fam k) then t' else t (ck_fam k))
  = if decide (k = k') then Some v else lexact (ck_bits k) (ck_net k) (t (ck_fam k)).
Proof.
  unfold canonical. destruct k as [f b n], k' as [f' b' n'];
    cbn [ck_fam ck_bits ck_net]. intros Hk Hk' Ht.
  destruct (decide (f' = f)) as [->|Hf]; [|by rewrite decide_False by congruence].
  destruct (decide (b = b')) as [->|Hb].
  - destruct (decide (n = n')) as [->|Hn].
    + rewrite decide_True by done. by eapply lexact_linsert.
    + rewrite (decide_False (P := _ = _)) by (intros [=]; done).
      eapply lexact_linsert_ne; [|exact Ht]. rewrite Hk, Hk'. done.
  - rewrite (decide_False (P := _ = _)) by (intros [=]; done). by eapply lexact_linsert_len.
Qed.
Lemma lexact_del {V} (k k' : CidrKey) (t : family -> lpm V) :
  canonical k -> canonical k' ->
  lexact (ck_bits k) (ck_net k)
    (if decide (ck_fam k' = ck_fam k) then ldel (ck_bits k') (ck_net k') (t (ck_fam k'))
     else t (ck_fam k))
  = if decide (k = k') then None else lexact (ck_bits k) (ck_net k) (t (ck_fam k)).
Proof.
  unfold canonical. destruct k as [f b n], k' as [f' b' n'];
    cbn [ck_fam ck_bits ck_net]. intros Hk Hk'.
  destruct (decide (f' = f)) as [->|Hf]; [|by rewrite decide_False by congruence].
  destruct (decide (b = b')) as [->|Hb].
  - destruct (decide (n = n')) as [->|Hn].
    + by rewrite decide_True, lexact_ldel.
    + rewrite (decide_False (P := _ = _)) by (intros [=]; done).
      apply lexact_ldel_ne. rewrite Hk, Hk'. done.
  - rewrite (decide_False (P := _ = _)) by (intros [=]; done). by apply lexact_ldel_len.
Qed.

Lemma dest_entry_write k k' fl now bpf bpf' :
  canonical k -> canonical k' -> write_dest_state k' fl now bpf = Some bpf' ->
  dest_entry k bpf' = if decide (k = k') then Some (dest_state fl now) else dest_entry k bpf.
Proof.
  intros Hk Hk'. unfold dest_entry, write_dest_state.
  destruct (linsert _ _ _ _) as [t|] eqn:E; cbn; [|done]. intros [= <-].
  rewrite <- (lexact_put k k' (dest_state fl now) (fun f => DEST_STATE (x_fam bpf f)) t) by done.
  cbn. by destruct (decide (ck_fam k' = ck_fam k)).
Qed.
Lemma dest_entry_remove k k' bpf :
  canonical k -> canonical k' ->
  dest_entry k (remove_dest_state k' bpf) = if decide (k = k') then None else dest_entry k bpf.
Proof.
  intros Hk Hk'. unfold dest_entry, remove_dest_state.
  rewrite <- (lexact_del k k' (fun f => DEST_STATE (x_fam bpf f))) by done.
  cbn. by destruct (decide (ck_fam k' = ck_fam k)).
Qed.
Lemma block_entry_set k k' bpf bpf' :
  canonical k -> canonical k' -> manual_block k' true bpf = Some bpf' ->
  block_entry k bpf' = if decide (k = k') then Some 1 else block_entry k bpf.
Proof.
  intros Hk Hk'. unfold block_entry, manual_block.
  destruct (linsert _ _ _ _) as [t|] eqn:E; cbn; [|done]. intros [= <-].
  rewrite <- (lexact_put k k' 1 (fun f => MANUAL_BLOCK (x_fam bpf f)) t) by done.
  cbn. by destruct (decide (ck_fam k' = ck_fam k)).
Qed.
Lemma block_entry_unset k k' bpf :
  canonical k -> canonical k' ->
  block_entry k (unblock k' bpf) = if decide (k = k') then None else block_entry k bpf.
Proof.
  intros Hk Hk'. unfold block_entry, unblock, manual_block. cbn [default mbind option_bind from_option id].
  rewrite <- (lexact_del k k' (fun f => MANUAL_BLOCK (x_fam bpf f))) by done.
  cbn. by destruct (decide (ck_fam k' = ck_fam k)).
Qed.

(** The wanted maps only hold parsed strings of the ruleset. *)
Lemma desired_of_parse rules c k fl :
  desired_of rules !! c = Some (k, fl) ->
  parse_cidr c = Some k /\
  exists o, o ∈ rs_overrides rules /\ ov_cidr o = c /\ ov_flags o = fl.
Proof.
  unfold desired_of. set (P := fun m : gmap string (CidrKey * Z) => forall c k fl,
    m !! c = Some (k, fl) -> parse_cidr c = Some k /\
    exists o, o ∈ rs_overrides rules /\ ov_cidr o = c /\ ov_flags o = fl).
  revert c k fl. change (P (foldl (fun m o => match parse_cidr (ov_cidr o) with
    | Some k => <[ov_cidr o := (k, ov_flags o)]> m | None => m end) ∅ (rs_overrides rules))).
  assert (forall l m, (forall o, o ∈ l -> o ∈ rs_overrides rules) -> P m ->
    P (foldl (fun m o => match parse_cidr (ov_cidr o) with
      | Some k => <[ov_cidr o := (k, ov_flags o)]> m | None => m end) m l)) as Hl.
  { intros l. induction l as [|o l IH]; intros m Hin Hm; [done|]. cbn [foldl]. apply IH.
    - intros o' Ho. apply Hin. by apply list_elem_of_further.
    - destruct (parse_cidr (ov_cidr o)) as [k|] eqn:E; [|done]. intros c k' fl Hc.
      apply lookup_insert_Some in Hc as [[<- [= <- <-]]|[_ Hc]]; [|by eapply Hm].
      split; [done|]. exists o. split; [|done]. apply Hin, list_elem_of_here. }
  apply Hl; [done|]. intros c k fl. by rewrite lookup_empty.
Qed.
Lemma want_of_parse rules c k :
  want_of rules !! c = Some k ->
  parse_cidr c = Some k /\ c ∈ rs_source_blocks rules.
Proof.
  unfold want_of. set (P := fun m : gmap string CidrKey => forall c k,
    m !! c = Some k -> parse_cidr c = Some k /\ c ∈ rs_source_blocks rules).
  revert c k. change (P (foldl (fun m c => match parse_cidr c with
    | Some k => <[c := k]> m | None => m end) ∅ (rs_source_blocks rules))).
  assert (forall l m, (forall o, o ∈ l -> o ∈ rs_source_blocks rules) -> P m ->
    P (foldl (fun m c => match parse_cidr c with Some k => <[c := k]> m | None => m end) m l)) as Hl.
  { intros l. induction l as [|o l IH]; intros m Hin Hm; [done|]. cbn [foldl]. apply IH.
    - intros o' Ho. apply Hin. by apply list_elem_of_further.
    - destruct (parse_cidr o) as [k|] eqn:E; [|done]. intros c k' Hc.
      apply lookup_insert_Some in Hc as [[<- <-]|[_ Hc]]; [|by eapply Hm].
      split; [done|]. apply Hin, list_elem_of_here. }
  apply Hl; [done|]. intros c k. by rewrite lookup_empty.
Qed.

(** The strings of a ruleset and of what was applied before name distinct keys:
    [put_rules] stores them in canonical form. *)
Definition canonical_strings (P : string -> Prop) : Prop :=
  forall c c' k, P c -> P c' -> parse_cidr c = Some k -> parse_cidr c' = Some k -> c = c'.
Definition tracks (ap : gmap string CidrKey) : Prop :=
  forall c k, ap !! c = Some k -> parse_cidr c = Some k.

(** One reconciliation that succeeds: the wanted keys hold their value, the gone ones
    nothing, the others what they held; and what is applied is exactly what was wanted. *)
Lemma reconciled {A B} (key : A -> CidrKey) (val : A -> B) put del (entry : CidrKey -> XState -> option B)
    (wanted : gmap string A) ap bpf (P : string -> Prop) bpf' ap' :
  (forall k a s s', canonical k -> canonical (key a) -> put a s = Some s' ->
     entry k s' = if decide (k = key a) then Some (val a) else entry k s) ->
  (forall k k' s, canonical k -> canonical k' ->
     entry k (del k' s) = if decide (k = k') then None else entry k s) ->
  canonical_strings P -> tracks ap -> (forall c k, ap !! c = Some k -> P c) ->
  (forall c a, wanted !! c = Some a -> parse_cidr c = Some (key a) /\ P c) ->
  let r1 := remove_all del bpf ap (gone ap wanted) in
  install_all key put r1.1 r1.2 (hash_iter wanted) = (Ok tt, (bpf', ap')) ->
  (forall c a, wanted !! c = Some a -> entry (key a) bpf' = Some (val a)) /\
  (forall c k, ap !! c = Some k -> wanted !! c = None -> entry k bpf' = None) /\
  (forall k, canonical k -> (forall c, ap !! c <> Some k) ->
     (forall c a, wanted !! c = Some a -> key a <> k) -> entry k bpf' = entry k bpf) /\
  ap' = key <$> wanted.
Proof.
  intros Hput Hdel Hcs Hap HP Hw r1 Hrun.
  assert (forall c k, (c, k) ∈ gone ap wanted <-> ap !! c = Some k /\ wanted !! c = None) as Hg.
  { intros c k. unfold gone. rewrite list_elem_of_filter, hash_iter_perm, elem_of_map_to_list.
    cbn. tauto. }
  assert (forall c a, (c, a) ∈ hash_iter wanted <-> wanted !! c = Some a) as Hh.
  { intros c a. by rewrite hash_iter_perm, elem_of_map_to_list. }
  destruct (remove_all_spec del entry Hdel (gone ap wanted)) with (s := bpf) (ap := ap)
    as [R1 R2].
  { apply Forall_forall. intros [c k] Hin. apply Hg in Hin as [Hin _].
    by eapply parse_cidr_canonical, Hap. }
  assert (NoDup (map fst (hash_iter wanted))) as Hnf.
  { rewrite (Permutation_map fst (hash_iter_perm wanted)). apply NoDup_fst_map_to_list. }
  destruct (install_all_spec key val put entry Hput (hash_iter wanted))
    with (s := r1.1) (ap := r1.2) (s' := bpf') (ap' := ap') as (I1 & I2 & I3); [|done| |done|].
  { apply Forall_forall. intros [c a] Hin. apply Hh, Hw in Hin as [Hin _].
    by eapply parse_cidr_canonical. }
  { apply (NoDup_fmap_2_strong (fun e : string * A => key e.2)); [|by eapply NoDup_fmap_1].
    intros [c a] [c' a'] Hin Hin' Hkey. cbn in Hkey. apply Hh in Hin, Hin'.
    destruct (Hw _ _ Hin) as [E1 P1], (Hw _ _ Hin') as [E2 P2]. rewrite Hkey in E1.
    pose proof (Hcs c c' _ P1 P2 E1 E2) as ->. congruence. }
  fold r1 in R1, R2. split_and!.
  - intros c a Hc. apply (I1 c), Hh, Hc.
  - intros c k Hc Hn. pose proof (Hap _ _ Hc) as Hck.
    rewrite I2; [|by eapply parse_cidr_canonical|].
    + rewrite R1 by by eapply parse_cidr_canonical. rewrite decide_True; [done|].
      apply (list_elem_of_fmap_2 snd _ (c, k)). by apply Hg.
    + intros ([c' a] & -> & Hin)%list_elem_of_fmap. cbn in Hck. apply Hh in Hin.
      destruct (Hw _ _ Hin) as [E2 P2].
      pose proof (Hcs c c' _ (HP _ _ Hc) P2 Hck E2) as ->. congruence.
  - intros k Hk Hna Hnw. rewrite I2; [|done|].
    + rewrite R1 by done. rewrite decide_False; [done|].
      intros ([c k'] & -> & Hin)%list_elem_of_fmap. apply Hg in Hin as [Hin _].
      by apply (Hna c).
    + intros ([c a] & -> & Hin)%list_elem_of_fmap. apply Hh in Hin. by eapply Hnw.
  - apply map_eq. intros c. rewrite I3, lookup_fmap.
    replace ((list_to_map (hash_iter wanted) : gmap string A) !! c) with (wanted !! c).
    2: { symmetry. destruct (wanted !! c) as [a|] eqn:E.
         - apply elem_of_list_to_map; [done|]. by apply Hh.
         - apply not_elem_of_list_to_map. intros ([c' a] & -> & Hin)%list_elem_of_fmap.
           apply Hh in Hin. cbn in E. congruence. }
    destruct (wanted !! c) as [a|] eqn:E; cbn; [done|]. rewrite R2.
    destruct (decide _) as [|Hn]; [done|]. destruct (ap !! c) as [k|] eqn:Ec; [|done].
    destruct Hn. apply (list_elem_of_fmap_2 fst _ (c, k)). by apply Hg.
Qed.

Lemma apply_overrides_run rules now bpf ap :
  apply_overrides rules now bpf ap =
  let r1 := remove_all remove_dest_state bpf ap (gone ap (desired_of rules)) in
  install_all fst (fun x => write_dest_state x.1 x.2 now) r1.1 r1.2 (hash_iter (desired_of rules)).
Proof. unfold apply_overrides. by destruct (remove_all _ _ _ _). Qed.
Lemma apply_blocks_run rules bpf ab :
  apply_blocks rules bpf ab =
  let r1 := remove_all unblock bpf ab (gone ab (want_of rules)) in
  install_all id (fun k => manual_block k true) r1.1 r1.2 (hash_iter (want_of rules)).
Proof. unfold apply_blocks. by destruct (remove_all _ _ _ _). Qed.

(** Source blocks and overrides live in different tries. *)
Lemma install_keeps {A B} key (put : A -> XState -> option XState) (g : XState -> B) :
  (forall a s s', put a s = Some s' -> g s' = g s) ->
  forall l s ap, g (install_all key put s ap l).2.1 = g s.
Proof.
  intros Hp l. induction l as [|[c a] l IH]; intros s ap; [done|]. cbn.
  destruct (put a s) as [s'|] eqn:E; [|done]. rewrite IH. by eapply Hp.
Qed.
Lemma remove_keeps {B} (del : CidrKey -> XState -> XState) (g : XState -> B) :
  (forall k s, g (del k s) = g s) ->
  forall l s ap, g (remove_all del s ap l).1 = g s.
Proof.
  intros Hp l. unfold remove_all. induction l as [|[c a] l IH]; intros s ap; [done|].
  cbn [foldl]. rewrite IH. apply Hp.
Qed.
(** Installing succeeds where there is room. *)
Lemma install_room {A} key (put : A -> XState -> option XState) (free : XState -> Z) :
  (forall a s, 0 < free s -> exists s', put a s = Some s' /\ free s - 1 <= free s') ->
  forall l s ap, Z.of_nat (length l) <= free s -> (install_all key put s ap l).1 = Ok tt.
Proof.
  intros Hp l. induction l as [|[c a] l IH]; intros s ap Hl; [done|]. cbn [length] in Hl.
  destruct (Hp a s ltac:(lia)) as (s' & E & Hf). cbn. rewrite E. apply IH. lia.
Qed.

(** What the parts of the datapath's state that a write leaves are. *)
Lemma write_dest_state_keeps k fl now bpf bpf' f : write_dest_state k fl now bpf = Some bpf' ->
  GLOBAL_CFG bpf' = GLOBAL_CFG bpf /\ MANUAL_BLOCK (x_fam bpf' f) = MANUAL_BLOCK (x_fam bpf f) /\
  PROTECTED (x_fam bpf' f) = PROTECTED (x_fam bpf f).
Proof.
  unfold write_dest_state. destruct (linsert _ _ _ _) as [t|]; cbn; [|done]. intros [= <-]. cbn.
  by destruct (decide (ck_fam k = f)) as [<-|].
Qed.
Lemma remove_dest_state_keeps k bpf f : GLOBAL_CFG (remove_dest_state k bpf) = GLOBAL_CFG bpf /\
  MANUAL_BLOCK (x_fam (remove_dest_state k bpf) f) = MANUAL_BLOCK (x_fam bpf f) /\
  PROTECTED (x_fam (remove_dest_state k bpf) f) = PROTECTED (x_fam bpf f).
Proof. unfold remove_dest_state. cbn. by destruct (decide (ck_fam k = f)) as [<-|]. Qed.
Lemma manual_block_keeps k b bpf bpf' f : manual_block k b bpf = Some bpf' ->
  GLOBAL_CFG bpf' = GLOBAL_CFG bpf /\ DEST_STATE (x_fam bpf' f) = DEST_STATE (x_fam bpf f) /\
  PROTECTED (x_fam bpf' f) = PROTECTED (x_fam bpf f).
Proof.
  unfold manual_block. intros Hb. destruct (if b then _ else _) as [t|]; cbn in Hb; [|done]. injection Hb as <-. cbn.
  by destruct (decide (ck_fam k = f)) as [<-|].
Qed.
Lemma unblock_keeps k bpf f : GLOBAL_CFG (unblock k bpf) = GLOBAL_CFG bpf /\
  DEST_STATE (x_fam (unblock k bpf) f) = DEST_STATE (x_fam bpf f) /\
  PROTECTED (x_fam (unblock k bpf) f) = PROTECTED (x_fam bpf f).
Proof. by apply (manual_block_keeps k false). Qed.

Lemma apply_overrides_keeps rules now bpf ap f : let bpf' := (apply_overrides rules now bpf ap).2.1 in
  GLOBAL_CFG bpf' = GLOBAL_CFG bpf /\ MANUAL_BLOCK (x_fam bpf' f) = MANUAL_BLOCK (x_fam bpf f) /\
  PROTECTED (x_fam bpf' f) = PROTECTED (x_fam bpf f).
Proof.
  rewrite apply_overrides_run. cbv zeta.
  split_and!; [set (g := GLOBAL_CFG)|set (g := fun s => MANUAL_BLOCK (x_fam s f))|set (g := fun s => PROTECTED (x_fam s f))];
    match goal with |- ?l = ?r => change (g (install_all fst (fun x => write_dest_state x.1 x.2 now)
      (remove_all remove_dest_state bpf ap (gone ap (desired_of rules))).1
      (remove_all remove_dest_state bpf ap (gone ap (desired_of rules))).2 (hash_iter (desired_of rules))).2.1 = g bpf) end;
    rewrite install_keeps by (intros a s s' E; by apply (write_dest_state_keeps _ _ _ _ _ f) in E as (? & ? & ?));
    apply remove_keeps; intros k s; apply (remove_dest_state_keeps k s f).
Qed.
Lemma apply_blocks_keeps rules bpf ab f : let bpf' := (apply_blocks rules bpf ab).2.1 in
  GLOBAL_CFG bpf' = GLOBAL_CFG bpf /\ DEST_STATE (x_fam bpf' f) = DEST_STATE (x_fam bpf f) /\
  PROTECTED (x_fam bpf' f) = PROTECTED (x_fam bpf f).
Proof.
  rewrite apply_blocks_run. cbv zeta.
  split_and!; [set (g := GLOBAL_CFG)|set (g := fun s => DEST_STATE (x_fam s f))|set (g := fun s => PROTECTED (x_fam s f))];
    match goal with |- ?l = ?r => change (g (install_all id (fun k => manual_block k true)
      (remove_all unblock bpf ab (gone ab (want_of rules))).1
      (remove_all unblock bpf ab (gone ab (want_of rules))).2 (hash_iter (want_of rules))).2.1 = g bpf) end;
    rewrite install_keeps by (intros a s s' E; by apply (manual_block_keeps _ _ _ _ f) in E as (? & ? & ?));
    apply remove_keeps; intros k s; apply (unblock_keeps k s f).
Qed.

(** The strings a reconciliation compares. *)
Definition names (rules : RuleSet) (s : RuleState) (c : string) : Prop :=
  is_Some (applied s !! c) \/ is_Some (applied_blocks s !! c) \/
  c ∈ map ov_cidr (rs_overrides rules) \/ c ∈ rs_source_blocks rules.

(** The two reconciliations that a successful [apply_rules] runs. *)
Lemma apply_rules_fields rules now s s' : apply_rules rules now s = (Ok tt, s') ->
  exists bpf1 bpf2,
  apply_overrides rules now (r_bpf s) (applied s) = (Ok tt, (bpf1, applied s')) /\
  apply_blocks rules bpf1 (applied_blocks s) = (Ok tt, (bpf2, applied_blocks s')) /\
  (forall k, dest_entry k (r_bpf s') = dest_entry k bpf1) /\
  (forall k, block_entry k (r_bpf s') = block_entry k bpf2) /\
  (GLOBAL_CFG (r_bpf s) <> [] ->
   manual_blocks (global_cfg (r_bpf s')).1 = if decide (applied_blocks s' = ∅) then 0 else 1).
Proof.
  unfold apply_rules. destruct (apply_overrides _ _ _ _) as [[[]|e] [bpf1 ap]] eqn:Eo; [|done].
  destruct (apply_blocks _ _ _) as [[[]|e] [bpf2 ab]] eqn:Eb; [|done]. intros [= <-]. exists bpf1, bpf2.
  cbn [applied applied_blocks r_bpf]. split_and!; try done.
  - intros k. unfold dest_entry. pose proof (apply_blocks_keeps rules bpf1 (applied_blocks s) (ck_fam k)) as (_ & Hk & _).
    rewrite Eb in Hk. cbn in *. by rewrite Hk.
  - pose proof (apply_overrides_keeps rules now (r_bpf s) (applied s) V4) as (Eg1 & _).
    pose proof (apply_blocks_keeps rules bpf1 (applied_blocks s) V4) as (Eg2 & _).
    rewrite Eo in Eg1. rewrite Eb in Eg2. cbn in Eg1, Eg2. rewrite <- Eg1, <- Eg2.
    unfold update_global_cfg, global_cfg. cbn. destruct (GLOBAL_CFG bpf2) as [|c l]; [done|]. intros _. cbn.
    destruct (decide (ab = ∅)) as [E|E]; [by rewrite bool_decide_true|by rewrite bool_decide_false].
Qed.

(** The override half of a reconciliation. *)
Lemma overrides_reconciled rules now s s' :
  canonical_strings (names rules s) -> tracks (applied s) -> apply_rules rules now s = (Ok tt, s') ->
  let desired := desired_of rules in
  (forall c k fl, desired !! c = Some (k, fl) -> dest_entry k (r_bpf s') = Some (dest_state fl now)) /\
  (forall c k, applied s !! c = Some k -> desired !! c = None -> dest_entry k (r_bpf s') = None) /\
  (forall k, canonical k -> (forall c, applied s !! c <> Some k) ->
     (forall c x, desired !! c = Some x -> x.1 <> k) ->
     dest_entry k (r_bpf s') = dest_entry k (r_bpf s)) /\
  applied s' = fst <$> desired.
Proof.
  intros Hcs Hap Hrun desired. destruct (apply_rules_fields _ _ _ _ Hrun) as (bpf1 & bpf2 & Eo & _ & Hd & _).
  rewrite apply_overrides_run in Eo. cbv zeta in Eo. fold desired in Eo.
  destruct (reconciled fst (fun x : CidrKey * Z => dest_state x.2 now)
    (fun x => write_dest_state x.1 x.2 now) remove_dest_state dest_entry desired (applied s)
    (r_bpf s) (names rules s) bpf1 (applied s')) as (O1 & O2 & O3 & O4); try done.
  { intros. by eapply dest_entry_write. }
  { intros. by apply dest_entry_remove. }
  { intros c k Hc. left. by eexists. }
  { intros c [k fl] Hc. apply desired_of_parse in Hc as (? & o & Ho & <- & _). split; [done|].
    right; right; left. by apply list_elem_of_fmap_2. }
  split_and!; [| | |done].
  - intros c k fl Hc. rewrite Hd. by apply (O1 c (k, fl)).
  - intros c k Hc Hn. rewrite Hd. by eapply O2.
  - intros k Hk Hna Hnd. rewrite Hd. by apply O3.
Qed.

(** The source-block half. *)
Lemma blocks_reconciled rules now s s' :
  canonical_strings (names rules s) -> tracks (applied_blocks s) -> apply_rules rules now s = (Ok tt, s') ->
  let want := want_of rules in
  (forall c k, want !! c = Some k -> block_entry k (r_bpf s') = Some 1) /\
  (forall c k, applied_blocks s !! c = Some k -> want !! c = None ->
     block_entry k (r_bpf s') = None) /\
  (forall k, canonical k -> (forall c, applied_blocks s !! c <> Some k) -> (forall c k', want !! c = Some k' -> k' <> k) ->
     block_entry k (r_bpf s') = block_entry k (r_bpf s)) /\
  applied_blocks s' = want /\
  (GLOBAL_CFG (r_bpf s) <> [] ->
   manual_blocks (global_cfg (r_bpf s')).1 = if decide (want = ∅) then 0 else 1).
Proof.
  intros Hcs Hab Hrun want. destruct (apply_rules_fields _ _ _ _ Hrun) as (bpf1 & bpf2 & Eo & Eb & _ & Hb & Em).
  rewrite apply_blocks_run in Eb. cbv zeta in Eb. fold want in Eb.
  destruct (reconciled id (fun _ : CidrKey => 1)
    (fun k => manual_block k true) unblock block_entry want
    (applied_blocks s) bpf1 (names rules s) bpf2 (applied_blocks s')) as (B1 & B2 & B3 & B4); try done.
  { intros. by eapply block_entry_set. }
  { intros. by apply block_entry_unset. }
  { intros c k Hc. right; left. by eexists. }
  { intros c k Hc. apply want_of_parse in Hc as [? ?]. split; [done|]. right; right. by right. }
  rewrite map_fmap_id in B4. split_and!; [| | |done|by rewrite B4 in Em].
  - intros c k Hc. rewrite Hb. by apply (B1 c k).
  - intros c k Hc Hn. rewrite Hb. by eapply B2.
  - intros k Hk Hna Hnw. rewrite Hb, (B3 k Hk Hna Hnw). unfold block_entry.
    pose proof (apply_overrides_keeps rules now (r_bpf s) (applied s) (ck_fam k)) as (_ & Hk' & _).
    rewrite Eo in Hk'. cbn in Hk'. by rewrite Hk'.
Qed.

(** Applying a ruleset reconciles the tries with it, unless one of them is full:
    every wanted override and every wanted source block is installed under its
    network, everything that had been applied and is no longer wanted is removed,
    no other entry is touched, what is remembered as applied is exactly what was
    wanted, and the datapath looks source blocks up exactly when there is one. *)
Theorem apply_rules_reconciles rules now s s' :
  canonical_strings (names rules s) -> tracks (applied s) -> tracks (applied_blocks s) ->
  apply_rules rules now s = (Ok tt, s') ->
  let desired := desired_of rules in
  let want := want_of rules in
  (forall c k fl, desired !! c = Some (k, fl) -> dest_entry k (r_bpf s') = Some (dest_state fl now)) /\
  (forall c k, applied s !! c = Some k -> desired !! c = None -> dest_entry k (r_bpf s') = None) /\
  (forall k, canonical k -> (forall c, applied s !! c <> Some k) ->
     (forall c x, desired !! c = Some x -> x.1 <> k) ->
     dest_entry k (r_bpf s') = dest_entry k (r_bpf s)) /\
  (forall c k, want !! c = Some k -> block_entry k (r_bpf s') = Some 1) /\
  (forall c k, applied_blocks s !! c = Some k -> want !! c = None ->
     block_entry k (r_bpf s') = None) /\
  applied s' = fst <$> desired /\ applied_blocks s' = want /\
  (GLOBAL_CFG (r_bpf s) <> [] ->
   manual_blocks (global_cfg (r_bpf s')).1 = if decide (want = ∅) then 0 else 1).
Proof.
  intros Hcs Hap Hab Hrun desired want.
  destruct (overrides_reconciled rules now s s' Hcs Hap Hrun) as (O1 & O2 & O3 & O4).
  destruct (blocks_reconciled rules now s s' Hcs Hab Hrun) as (B1 & B2 & _ & B3 & B4).
  by split_and!.
Qed.

(** ** Room *)

Definition free_dests (bpf : XState) : Z := Z.min (lfree (DEST_STATE (x_fam bpf V4))) (lfree (DEST_STATE (x_fam bpf V6))).
Definition free_blocks (bpf : XState) : Z := Z.min (lfree (MANUAL_BLOCK (x_fam bpf V4))) (lfree (MANUAL_BLOCK (x_fam bpf V6))).
(** Every trie has room for all that the rules name, whatever of it is there already. *)
Definition fits_rules (rules : RuleSet) (bpf : XState) : Prop :=
  Z.of_nat (size (desired_of rules)) <= free_dests bpf /\ Z.of_nat (size (want_of rules)) <= free_blocks bpf /\
  forall f, Z.of_nat (length (protected_of f (rs_protected rules))) <= lfree (PROTECTED (x_fam bpf f)).

Lemma hash_iter_length {K} `{Countable K} {V} (m : gmap K V) : length (hash_iter m) = size m.
Proof. rewrite (Permutation_length (hash_iter_perm m)). apply length_map_to_list. Qed.
Lemma write_dest_state_room x now bpf : 0 < free_dests bpf ->
  exists bpf', write_dest_state x.1 x.2 now bpf = Some bpf' /\ free_dests bpf - 1 <= free_dests bpf'.
Proof.
  unfold free_dests, write_dest_state. intros Hf. destruct x as [[f b n] fl]. cbn [fst snd ck_fam ck_bits ck_net].
  destruct (linsert_room b n (dest_state fl now) (DEST_STATE (x_fam bpf f))) as [t E]; [destruct f; lia|]. rewrite E. cbn.
  eexists. split; [done|]. apply lfree_linsert in E. destruct f; cbn; repeat case_decide; try done; cbn; lia.
Qed.
Lemma manual_block_room k bpf : 0 < free_blocks bpf ->
  exists bpf', manual_block k true bpf = Some bpf' /\ free_blocks bpf - 1 <= free_blocks bpf'.
Proof.
  unfold free_blocks, manual_block. intros Hf. destruct k as [f b n]. cbn [ck_fam ck_bits ck_net].
  destruct (linsert_room b n 1 (MANUAL_BLOCK (x_fam bpf f))) as [t E]; [destruct f; lia|]. rewrite E. cbn.
  eexists. split; [done|]. apply lfree_linsert in E. destruct f; cbn; repeat case_decide; try done; cbn; lia.
Qed.
Lemma remove_room (del : CidrKey -> XState -> XState) (free : XState -> Z) :
  (forall k s, free s <= free (del k s)) -> forall l s ap, free s <= free (remove_all del s ap l).1.
Proof.
  intros Hd l. unfold remove_all. induction l as [|[c k] l IH]; intros s ap; cbn [foldl]; [done|].
  etrans; [apply Hd|apply IH].
Qed.
Lemma apply_rules_room rules now s : fits_rules rules (r_bpf s) -> (apply_rules rules now s).1 = Ok tt.
Proof.
  intros (Hd & Hw & _). unfold apply_rules.
  assert ((apply_overrides rules now (r_bpf s) (applied s)).1 = Ok tt) as Eo.
  { rewrite apply_overrides_run. cbv zeta. apply (install_room _ _ free_dests); [intros; apply write_dest_state_room; done|].
    rewrite hash_iter_length. etrans; [exact Hd|]. apply remove_room. intros [f b n] bpf. unfold free_dests, remove_dest_state. cbn.
    pose proof (lfree_ldel b n (DEST_STATE (x_fam bpf f))). destruct f; cbn; repeat case_decide; try done; cbn; lia. }
  assert (free_blocks (apply_overrides rules now (r_bpf s) (applied s)).2.1 = free_blocks (r_bpf s)) as Ef.
  { unfold free_blocks. by rewrite (proj1 (proj2 (apply_overrides_keeps rules now (r_bpf s) (applied s) V4))),
      (proj1 (proj2 (apply_overrides_keeps rules now (r_bpf s) (applied s) V6))). }
  destruct (apply_overrides _ _ _ _) as [r [bpf1 ap]]. cbn [fst snd] in *. rewrite Eo.
  assert ((apply_blocks rules bpf1 (applied_blocks s)).1 = Ok tt) as Eb.
  { rewrite apply_blocks_run. cbv zeta. apply (install_room _ _ free_blocks); [intros; by apply manual_block_room|].
    rewrite hash_iter_length. rewrite <- Ef in Hw. etrans; [exact Hw|]. apply remove_room. intros [f b n] bpf.
    unfold free_blocks, unblock, manual_block. cbn.
    pose proof (lfree_ldel b n (MANUAL_BLOCK (x_fam bpf f))). destruct f; cbn; repeat case_decide; try done; cbn; lia. }
  destruct (apply_blocks _ _ _) as [r2 [bpf2 ab]]. cbn [fst] in Eb. by rewrite Eb.
Qed.
Lemma protect_all_room nets t : Z.of_nat (length nets) <= lfree t -> (protect_all t nets).1 = (Ok tt, nets).
Proof.
  revert t. induction nets as [|[len net] nets IH]; intros t Hl; [done|]. cbn [length] in Hl. cbn.
  destruct (linsert_room len net 1 t) as [t' E]; [lia|]. rewrite E. apply lfree_linsert in E.
  specialize (IH t' ltac:(lia)). destruct (protect_all t' nets) as [[r done] t2]. cbn in *. by injection IH as -> ->.
Qed.
Lemma sync_family_room f nets old bpf : Z.of_nat (length nets) <= lfree (PROTECTED (x_fam bpf f)) ->
  (sync_family f nets old bpf).1 = (Ok tt, nets).
Proof.
  intros Hl. unfold sync_family.
  assert (forall (l : list (Z * Addr)) (t : lpm Z), lfree t <= lfree (foldl (fun t '(len, net) => ldel len net t) t l)) as Hd.
  { intros l. induction l as [|[n a] l IH]; intros t; cbn [foldl]; [done|]. etrans; [apply lfree_ldel|apply IH]. }
  specialize (Hd old (PROTECTED (x_fam bpf f))).
  pose proof (protect_all_room nets (foldl (fun t '(len, net) => ldel len net t) (PROTECTED (x_fam bpf f)) old) ltac:(lia)) as Hp.
  destruct (protect_all _ _) as [[r done] t]. cbn in *. by injection Hp as -> ->.
Qed.
Lemma sync_protected_room nets old bpf : (forall f, Z.of_nat (length (nets f)) <= lfree (PROTECTED (x_fam bpf f))) ->
  (sync_protected nets old bpf).1.1 = Ok tt.
Proof.
  intros Hn. unfold sync_protected. pose proof (sync_family_room V4 (nets V4) (old V4) bpf (Hn V4)) as E4.
  assert (PROTECTED (x_fam (sync_family V4 (nets V4) (old V4) bpf).2 V6) = PROTECTED (x_fam bpf V6)) as Ef
    by (unfold sync_family; by destruct (protect_all _ _) as [[? ?] ?]).
  destruct (sync_family V4 _ _ _) as [[r4 d4] b4]. cbn in E4. injection E4 as -> ->. cbn [snd] in Ef.
  pose proof (sync_family_room V6 (nets V6) (upd V4 (nets V4) old V6) b4 ltac:(rewrite Ef; apply Hn)) as E6.
  change (upd V4 (nets V4) old V6) with (old V6) in E6. change (upd V4 (nets V4) old V6) with (old V6).
  destruct (sync_family V6 _ _ _) as [[r6 d6] b6]. cbn in E6. by injection E6 as -> ->.
Qed.
End rules_theorems.
