(* ===== verification/FwOps.v ===== *)
(** * Operating the firewall: rules, limits, sweeps and ticks together

    Theorems on sequences of the daemon's actions, and the interleavings in which
    a destination's trie entry and its tracker come apart. *)

From S2P Require Import Prelude FwCommon FwCidr FwBpf FwMaps FwNet FwDemo FwDatapath FwLimits FwDetect FwRuntime FwTick FwRules.

Section ops.
Context `{!BpfKernel, !BpfKernelLaws, !HashIter, !ParseIp}.

(** ** Sweeps *)

Lemma sweep_entry {K} `{Countable K} {V} (P : K * V -> Prop) `{forall e, Decision (P e)} m k :
  hget k (delete_keys m (map fst (filter P (scan_plain m)))) =
  v ← hget k m; if decide (P (k, v)) then None else Some v.
Proof. apply hget_sweep. Qed.

Lemma src_sweep now idle bpf f k :
  hget k (SRC_STATE (x_fam (gc_src_states now idle bpf) f)) =
  st ← hget k (SRC_STATE (x_fam bpf f)); if src_stale now idle st then None else Some st.
Proof.
  transitivity (hget k (gc_src_state_map now idle (SRC_STATE (x_fam bpf f)))); [by destruct f|].
  unfold gc_src_state_map. rewrite sweep_entry.
  destruct (hget k _) as [v|]; cbn -[src_stale]; [|done]. by destruct (src_stale _ _ _).
Qed.

(** The port sweep forgets exactly the learned ports whose last traffic is
    older than their protocol's TTL, in both families; the verified-source
    sweep exactly the verifications older than the TTL; the source sweep
    exactly the sources that are neither blocked nor recently active. *)
Theorem sweeps_are_exact now tcp udp ttl idle bpf f :
  (forall k, hget k (OPEN_PORTS (x_fam (gc_learned_ports now tcp udp bpf) f)) =
     v ← hget k (OPEN_PORTS (x_fam bpf f));
     if is_expired (last_seen v) now (if pk_proto k =? PROTO_UDP then udp else tcp)
     then None else Some v) /\
  (forall k, hget k (VERIFIED (x_fam (gc_verified now ttl bpf) f)) =
     ts ← hget k (VERIFIED (x_fam bpf f));
     if is_expired ts now ttl then None else Some ts) /\
  (forall k, hget k (SRC_STATE (x_fam (gc_src_states now idle bpf) f)) =
     st ← hget k (SRC_STATE (x_fam bpf f));
     if src_stale now idle st then None else Some st).
Proof.
  split_and!; intros k.
  - transitivity (hget k (delete_keys (OPEN_PORTS (x_fam bpf f))
      (expired_ports (scan_plain (OPEN_PORTS (x_fam bpf f))) now tcp udp))); [by destruct f|].
    unfold expired_ports. rewrite sweep_entry.
    destruct (hget k _) as [v|]; cbn -[is_expired]; [|done]. by destruct (is_expired _ _ _).
  - transitivity (hget k (gc_verified_map now ttl (VERIFIED (x_fam bpf f)))); [by destruct f|].
    unfold gc_verified_map. rewrite sweep_entry.
    destruct (hget k _) as [v|]; cbn -[is_expired]; [|done]. by destruct (is_expired _ _ _).
  - apply src_sweep.
Qed.

(** Sweeping a source's state cannot be noticed by the rate gate: with an idle
    time of at least the window, the next packet of any source gets the verdict
    it would have got without the sweep. *)
Theorem sweep_keeps_verdicts clk f src cfg enforce now idle s :
  gate_on cfg -> 1 <= max_per_window cfg -> 0 < window_ns cfg <= idle ->
  0 <= now <= clk (x_reads s) -> clk (x_reads s) < 2 ^ 64 ->
  (forall st, hget src (SRC_STATE (x_fam s f)) = Some st -> 0 <= window_start_ns st) ->
  (src_gate clk f src cfg enforce (gc_src_states now idle s)).1 =
  (src_gate clk f src cfg enforce s).1.
Proof.
  intros Hon Hmax Hw Hnow Hclk Hst.
  pose proof (src_gate_step clk f src cfg enforce s Hon) as [E1 _].
  pose proof (src_gate_step clk f src cfg enforce (gc_src_states now idle s) Hon) as [E2 _].
  rewrite E1, E2. change (x_reads (gc_src_states now idle s)) with (x_reads s).
  rewrite src_sweep.
  destruct (hget src _) as [st|] eqn:E; cbn; [|done].
  destruct (src_stale now idle st) eqn:Es; cbn; [|done].
  unfold src_stale in Es. zbool. specialize (Hst st eq_refl). unfold sat_sub in *.
  rewrite wsub_small by lia. rewrite (proj2 (Z.leb_le (window_ns cfg) _)) by lia.
  rewrite wadd_small by lia. rewrite (proj2 (Z.ltb_ge (max_per_window cfg) _)) by lia.
  rewrite andb_false_r. rewrite (proj2 (Z.ltb_ge (clk _) _)) by lia. by rewrite andb_false_r.
Qed.

(** ** Limits *)

(** Pushed limits reach the datapath unchanged: the gate's window is one
    second, its limit the pushed packets per second and its cooldown the pushed
    seconds (saturating), the leak budget is capped to 32 bits, and writing them
    leaves the scoping, block and verification settings alone. *)
Theorem limits_reach_datapath rt l bpf :
  GLOBAL_CFG bpf <> [] -> 0 <= l_src_rate_pps l -> l_src_rate_pps l * 1000000000 < 2 ^ 64 ->
  let rt' := apply_limits rt l in
  let c := (global_cfg bpf).1 in
  let c' := (global_cfg (write_learn_leak_cfg rt' (write_src_rate_cfg rt' bpf))).1 in
  src_rate c' = {| max_per_window := l_src_rate_pps l; window_ns := 1000000000;
                   cooldown_ns := sat_mul 64 (l_src_cooldown_secs l) 1000000000 |} /\
  learn_leak_pps c' = Z.min (l_learn_leak_pps l) (2 ^ 32 - 1) /\
  scoped_flag c' = scoped_flag c /\ manual_blocks c' = manual_blocks c /\
  verified_ttl_ns c' = verified_ttl_ns c.
Proof.
  intros Hne Hpos Hlt rt' c c'. subst c c'. unfold write_learn_leak_cfg, write_src_rate_cfg,
    update_global_cfg, global_cfg, gets. cbn [fst GLOBAL_CFG].
  destruct (GLOBAL_CFG bpf) as [|g gs]; [done|]. cbn -[Z.mul Z.div].
  split_and!; try done. f_equal. unfold sat_mul, SRC_WINDOW_NS.
  rewrite Z.min_r by lia. by rewrite Z.div_mul.
Qed.

(** ** The manual floor *)

Definition host_key (f : family) (k : Addr) : CidrKey :=
  {| ck_fam := f; ck_bits := bits f; ck_net := k |}.

Lemma mask_host f k : full_key (bits f) k -> mask f k (bits f) = k.
Proof.
  unfold full_key. intros Hk. destruct f; cbn in *; unfold mask_v4, mask_v6;
    apply mask_bytes_full; lia.
Qed.

(** [a]'s flags are all in [b]. *)
Definition subflags (a b : Z) : Prop := Z.lor a b = b.
Lemma subflags_lor_l a b c : subflags a b -> subflags a (Z.lor b c).
Proof. unfold subflags. intros E. by rewrite Z.lor_assoc, E. Qed.
Lemma subflags_lor_r a b c : subflags a c -> subflags a (Z.lor b c).
Proof. rewrite Z.lor_comm. apply subflags_lor_l. Qed.
Lemma subflags_refl a : subflags a a.
Proof. apply Z.lor_diag. Qed.

Lemma fold_flags (l : list (Z * Addr * Z)) : forall a,
  subflags a (foldl (fun a '(_, _, fl) => Z.lor a fl) a l) /\
  forall e, e ∈ l -> subflags e.2 (foldl (fun a '(_, _, fl) => Z.lor a fl) a l).
Proof.
  induction l as [|[[n a] fl] l IH]; intros acc; cbn [foldl].
  - split; [apply subflags_refl|]. intros e He. by apply elem_of_nil in He.
  - destruct (IH (Z.lor acc fl)) as [I1 I2]. unfold subflags in I1. split.
    + rewrite <- I1. apply subflags_lor_l, subflags_lor_l, subflags_refl.
    + intros e [->|He]%elem_of_cons; [|by apply I2].
      rewrite <- I1. apply subflags_lor_l, subflags_lor_r, subflags_refl.
Qed.

(** An override of the ruleset is part of the floor of every address it covers. *)
Lemma override_in_floor f rt ovs o n k :
  manual rt f = from_overrides f ovs -> o ∈ ovs ->
  parse_cidr (ov_cidr o) = Some {| ck_fam := f; ck_bits := n; ck_net := mask f k n |} ->
  subflags (ov_flags o) (manual_flags f rt k).
Proof.
  intros Em Ho Hp. unfold manual_flags. rewrite Em.
  apply (fold_flags _ 0) with (e := (n, mask f (mask f k n) n, ov_flags o)).
  apply list_elem_of_filter. split.
  - symmetry. destruct f; apply mask_bytes_idemp.
  - unfold from_overrides. apply list_elem_of_omap. exists o. split; [done|].
    rewrite Hp. cbn. by rewrite decide_True.
Qed.

(** The tick that follows a push of rules, on a host with an override of its own. *)
Lemma floor_after_pass cfg f k now el st e fl :
  fl <> 0 -> ds_mode <$> e = Some fl -> subflags fl (manual_flags f cfg k) ->
  forall delta st',
  (pass_on (detection cfg) (escalate_pass_pps cfg) (syn_proxy_pps cfg) now el
     (manual_flags f cfg) k delta (st, e)).2 = st' ->
  exists d, st' = Some d /\ subflags fl (ds_mode d).
Proof.
  intros Hfl He Hsub delta st' <-.
  assert (manual_flags f cfg k <> DEST_MODE_NORMAL) as Hman.
  { unfold subflags in Hsub. intros E. rewrite E in Hsub. change DEST_MODE_NORMAL with 0 in Hsub.
    by rewrite Z.lor_0_r in Hsub. }
  assert (forall cur t, exists d, (decide_entry true (detection cfg) (escalate_pass_pps cfg)
    (syn_proxy_pps cfg) now el (manual_flags f cfg k) cur (t, e)).2 = Some d /\
    subflags fl (ds_mode d)) as Hd.
  { intros cur t. destruct (decide_entry _ _ _ _ _ _ _ _ _) as [t' e'] eqn:Ed.
    pose proof (decide_entry_enforces _ _ _ _ _ _ _ _ _ _ (or_intror Hman) Ed)
      as (Hsy & Hf & Hx & Hn). cbn [fst snd] in *.
    destruct (decide (tr_mode t' = DEST_MODE_NORMAL)) as [Em|Em].
    - destruct (decide (tr_mode t = DEST_MODE_NORMAL)) as [Em0|Em0].
      + rewrite (Hn Em0 Em). destruct e as [d|]; [|done]. exists d. split; [done|].
        cbn in He. injection He as ->. apply subflags_refl.
      + rewrite (Hx Em0 Em). rewrite (proj2 (Z.eqb_neq _ _) Hman). by eexists.
    - destruct (Hsy Em) as (d & Ee & Edm). cbn [fst snd] in Ee, Edm. exists d. split; [done|].
      rewrite Edm. rewrite (Hf Em). by apply subflags_lor_r. }
  assert (exists d, e = Some d /\ subflags fl (ds_mode d)) as Hkeep.
  { destruct e as [d|]; [|done]. exists d. split; [done|]. cbn in He. injection He as ->.
    apply subflags_refl. }
  unfold pass_on, act_on. destruct delta as [c|]; cbn [fst snd].
  - specialize (Hd (add_counters (tr_prev (default DestTracker_default st)) c)
      (default DestTracker_default st)). by destruct (decide_entry _ _ _ _ _ _ _ _ _).
  - destruct st as [t|]; [|done]. destruct (decide _); [|done].
    specialize (Hd (id (tr_prev t)) t). by destruct (decide_entry _ _ _ _ _ _ _ _ _).
Qed.

(** An operator's override on a host holds through detection: after the rules
    are applied and a tick has run, whatever the traffic, the datapath's mode for
    the host has every flag of the override, and detection only adds to it. *)
Theorem override_holds rules now now' mono s s1 st f k c fl :
  canonical_strings (names rules s) -> tracks (applied s) -> tracks (applied_blocks s) ->
  full_key (bits f) k ->
  desired_of rules !! c = Some (host_key f k, fl) -> fl <> 0 ->
  apply_rules rules now s = (Ok tt, s1) ->
  tick_wf (r_rt s1) (r_bpf s1) st ->
  subflags fl (mode_of f k (run_control (r_rt s1) now' mono (r_bpf s1) st).1).
Proof.
  intros Hcs Hap Hab Hk Hc Hfl Hrun Hwf.
  assert (subflags fl (manual_flags f (r_rt s1) k)) as Hsub.
  { apply desired_of_parse in Hc as (Hp & o & Ho & <- & <-).
    apply (override_in_floor f _ (rs_overrides rules) o (bits f)); [|done|].
    - revert Hrun. unfold apply_rules. destruct (apply_overrides _ _ _ _) as [[[]|e] [b1 ap]]; [|done].
      destruct (apply_blocks _ _ _) as [[[]|e] [b2 ab]]; [|done]. by intros [= <-].
    - by rewrite mask_host. }
  assert (dest_entry (host_key f k) (r_bpf s1) = Some (dest_state fl now)) as He.
  { by eapply (proj1 (overrides_reconciled rules now s s1 Hcs Hap Hrun)). }
  pose proof (tick_view (r_rt s1) now' mono (r_bpf s1) st f k Hwf Hk) as Hv.
  apply (f_equal snd) in Hv. unfold host_view at 1 in Hv. cbn [snd] in Hv. symmetry in Hv.
  unfold host_view in Hv. cbn [fst snd] in Hv.
  change (lexact (bits f) k (DEST_STATE (x_fam (r_bpf s1) f)))
    with (dest_entry (host_key f k) (r_bpf s1)) in Hv. rewrite He in Hv.
  edestruct (floor_after_pass (r_rt s1) f k) as (d & Ed & Hd); [exact Hfl| |exact Hsub|exact Hv|].
  { done. }
  by rewrite (mode_of_exact f k _ d Hk Ed).
Qed.
End ops.

(** ** Interleavings in which a trie entry and its tracker come apart

    Concrete runs from an empty kernel, on the reference maps. *)
Module Runs.

Definition thresholds : DetectionConfig :=
  {| entry_pps := 1000; entry_syn_pps := 500; entry_bps := 1000000; exit_pct := 50;
     exit_cooldown_ns := 2000000000 |}.
Definition net_thresholds : DetectionConfig :=
  {| entry_pps := 3000; entry_syn_pps := 3000; entry_bps := 3000000; exit_pct := 100;
     exit_cooldown_ns := 0 |}.
Definition demo_rt : RuntimeConfig :=
  {| detection := thresholds; network := net_thresholds; protected_nets := fun _ => [];
     manual := fun _ => []; src_rate_pps := 1000; src_cooldown_ns := 1000000000;
     escalate_pass_pps := 1000000; syn_proxy_pps := 0; rt_learn_leak_pps := 0 |}.
Definition demo_det : DetectionState :=
  {| dests := fun _ => ∅; last_sample_ns := 0; prefixes := fun _ => ∅;
     src_snapshot := fun _ => []; src_sampled_ns := 0; tx_rates := fun _ => ∅ |}.

(** Addresses of the runs, as [parse_ip] reads them. *)
#[export] Instance demo_parse : ParseIp := fun s =>
  if bool_decide (s = "10.0.0.1"%string) then Some (V4, server)
  else if bool_decide (s = "10.0.0.0"%string) then Some (V4, [10; 0; 0; 0])
  else None.

(** [n] packets of 100 bytes arrive at the server. *)
Definition traffic (n : Z) (bpf : XState) : XState :=
  set_fam V4 (set_DEST_COUNTERS
    (hput server [{| packets := n; bytes := 100 * n; syn_packets := 0; tcp_packets := 0;
                     udp_packets := n; icmp_packets := 0; dropped := 0 |}]
       (DEST_COUNTERS (x_fam bpf V4))) (x_fam bpf V4)) bpf.

(** The daemon's state, and its two actions at second [i]. *)
Record Daemon := { d_rules : RuleState; d_det : DetectionState }.
Definition boot : Daemon :=
  {| d_rules := {| r_bpf := demo_state; applied := ∅; applied_blocks := ∅; r_rt := demo_rt |};
     d_det := demo_det |}.
Definition push (rules : RuleSet) (i : Z) (d : Daemon) : Daemon :=
  {| d_rules := (apply_rules rules (i * 1000000000) (d_rules d)).2; d_det := d_det d |}.
Definition second (n i : Z) (d : Daemon) : Daemon :=
  let s := d_rules d in
  let bpf := if n =? 0 then r_bpf s else traffic n (r_bpf s) in
  let '(bpf, det) := run_control (r_rt s) (i * 1000000000) (i * 1000000000) bpf (d_det d) in
  {| d_rules := {| r_bpf := bpf; applied := applied s; applied_blocks := applied_blocks s;
                   r_rt := r_rt s |}; d_det := det |}.

(** What the daemon believes of the server, and what the datapath enforces. *)
Definition believed (d : Daemon) : option Z := tr_mode <$> (dests (d_det d) V4 !! server).
Definition enforced (d : Daemon) : Z := mode_of V4 server (r_bpf (d_rules d)).

Definition no_rules : RuleSet := {| rs_protected := []; rs_overrides := []; rs_source_blocks := [] |}.
Definition override (cidr : string) : RuleSet :=
  {| rs_protected := []; rs_overrides := [{| ov_cidr := cidr; ov_flags := DEST_MODE_PORT_FILTER |}];
     rs_source_blocks := [] |}.
Definition protect (cidr : string) : RuleSet :=
  {| rs_protected := [cidr]; rs_overrides := []; rs_source_blocks := [] |}.

(** A flood is detected; an override for the same host is pushed and removed. *)
Definition under_attack : Daemon := second 5000 2 (second 5000 1 boot).
Definition override_removed : Daemon :=
  push no_rules 4 (second 5000 3 (push (override "10.0.0.1/32") 3 under_attack)).
Fixpoint flood (n : nat) (i : Z) (d : Daemon) : Daemon :=
  match n with O => d | S n => flood n (i + 1) (second 5000 i d) end.

(** A destination floods under an override for its network, and goes quiet; the
    override is then removed. *)
Definition quiet_after (cidr : string) : Daemon :=
  second 0 7 (second 0 6 (second 0 5 (second 5000 3 (push (override cidr) 3 under_attack)))).
(** A single protected address floods, then slows down to a third of it. *)
Definition protected_attack : Daemon :=
  second 5000 3 (second 5000 2 (second 5000 1 (push (protect "10.0.0.1/32") 1 boot))).

(** Removing an operator's override deletes the trie entry of a destination that
    auto-detection is mitigating, and detection does not write it back while the
    flags it wants are unchanged: the flood goes on, the daemon believes the
    destination mitigated, the datapath lets everything through. *)
Example override_removal_unprotects :
  (believed under_attack, enforced under_attack)
    = (Some DEST_MODE_PORT_FILTER, DEST_MODE_PORT_FILTER) /\
  Forall (fun n => let d := flood n 4 override_removed in
            (believed d, enforced d) = (Some DEST_MODE_PORT_FILTER, DEST_MODE_NORMAL)) (seq 0 30).
Proof. split_and!; [vm_compute; reflexivity..|]. repeat constructor; vm_compute; reflexivity. Qed.

(** A destination that leaves mitigation while an override on a wider network
    covers it gets a host entry with the override's flags, which nothing removes
    when the override is: long after, without attack or override, the datapath
    still filters the host. *)
Example exit_leaves_host_entry :
  let d := quiet_after "10.0.0.0/24" in
  believed d = Some DEST_MODE_NORMAL /\
  let d := second 100 10 (second 100 9 (second 0 8 (push no_rules 8 d))) in
  (believed d, enforced d, manual_flags V4 (r_rt (d_rules d)) server)
    = (Some DEST_MODE_NORMAL, DEST_MODE_PORT_FILTER, DEST_MODE_NORMAL).
Proof. cbv zeta. split_and!; vm_compute; reflexivity. Qed.

(** A protected prefix that is a single address shares its trie entry with that
    destination's own detection: when the prefix's tracker exits first, it
    removes the entry of a destination that is still mitigated, and the flood
    passes. *)
Example single_host_prefix_unprotects :
  (believed protected_attack, enforced protected_attack)
    = (Some DEST_MODE_PORT_FILTER, DEST_MODE_PORT_FILTER) /\
  let d := second 1500 5 (second 1500 4 protected_attack) in
  exceeds_entry (default Rates_default (tr_last <$> (dests (d_det d) V4 !! server))) thresholds = true /\
  (believed d, enforced d) = (Some DEST_MODE_PORT_FILTER, DEST_MODE_NORMAL).
Proof. cbv zeta. split_and!; vm_compute; reflexivity. Qed.
End Runs.
