(* ===== verification/FwSynProxy.v ===== *)
(** * The SYN proxy ([lnvps_fw/lnvps_ebpf/src/main.rs], the tail-call programs)

    A SYN is answered in place with a SYN-ACK whose sequence number is a keyed
    cookie; an ACK that echoes the cookie verifies its source.  The programs
    rewrite the packet: the context they return is the frame as sent. *)

From S2P Require Import Prelude FwCommon FwCidr FwBpf FwMaps FwNet FwDatapath FwRules.

(** [fold]: two end-around carries, then the complement, in 16 bits. *)
Definition fold (sum : Z) : Z :=
  let sum := wadd 32 (Z.land sum 0xffff) (Z.shiftr sum 16) in
  let sum := wadd 32 (Z.land sum 0xffff) (Z.shiftr sum 16) in
  Z.lxor (wrap 16 sum) 0xffff.

Definition be16 (hi lo : Z) : Z := Z.lor (Z.shiftl hi 8) lo.
(** [be16(a[i], a[i + 1])] *)
Definition be16_at (a : list Z) (i : nat) : Z := be16 (nth i a 0) (nth (S i) a 0).
(** A sum of [u32]s, left to right. *)
Definition sum32 (l : list Z) : Z := foldl (wadd 32) 0 l.
(** The two bytes of a [u16], the four of a [u32], most significant first. *)
Definition to_be16 (v : Z) : list Z := [wrap 8 (Z.shiftr v 8); wrap 8 v].
Definition to_be32 (v : Z) : list Z :=
  [wrap 8 (Z.shiftr v 24); wrap 8 (Z.shiftr v 16); wrap 8 (Z.shiftr v 8); wrap 8 v].
Definition u32_of (b : list Z) : Z :=
  Z.lor (Z.lor (Z.lor (Z.shiftl (nth 0 b 0) 24) (Z.shiftl (nth 1 b 0) 16))
               (Z.shiftl (nth 2 b 0) 8)) (nth 3 b 0).

Section proxy.
Context `{!BpfKernel, !NetTypes} (clk : nat -> Z).

Definition TCP_OFF : nat := EthHdr_LEN + Ipv4Hdr_LEN.
Definition TCP_OFF_V6 : nat := EthHdr_LEN + Ipv6Hdr_LEN.

Definition swap_eth (eth : EthHdr) : EthHdr :=
  {| eth_dst_addr := eth_src_addr eth; eth_src_addr := eth_dst_addr eth;
     eth_type := eth_type eth |}.

(** The SYN-ACK's TCP header, its checksum field still to be filled; the sum of
    its words that both families share. *)
Definition synack_tcp (tcp : TcpHdr) (cookie : Z) (check : list Z) : TcpHdr :=
  let ackn := wadd 32 (u32_of (seq_no tcp)) 1 in
  {| source := dest tcp; dest := source tcp; seq_no := to_be32 cookie;
     ack_seq := to_be32 ackn; tcp_b12 := 0x50; tcp_b13 := 0x12;
     window := [0xff; 0xff]; tcp_check := check; urg_ptr := [0; 0] |}.
Definition synack_words (tcp : TcpHdr) (cookie : Z) : list Z :=
  let ackn := wadd 32 (u32_of (seq_no tcp)) 1 in
  [PROTO_TCP; 20; be16_at (dest tcp) 0; be16_at (source tcp) 0;
   Z.shiftr cookie 16; Z.land cookie 0xffff; Z.shiftr ackn 16; Z.land ackn 0xffff;
   0x5012; 0xffff].

(** The IPv4 header of the answer, before and after its checksum. *)
Definition synack_ip4 (ip : Ipv4Hdr) (check : list Z) : Ipv4Hdr :=
  {| vihl := vihl ip; tos := tos ip; tot_len := [0; 40]; ip_id := ip_id ip;
     frags := frags ip; ttl := 64; proto4 := proto4 ip; ip_check := check;
     src_addr4 := dst_addr4 ip; dst_addr4 := src_addr4 ip |}.
Definition ip4_words (ip : Ipv4Hdr) : list Z :=
  [be16 (vihl ip) (tos ip); be16_at (tot_len ip) 0; be16_at (ip_id ip) 0;
   be16_at (frags ip) 0; be16 (ttl ip) (proto4 ip);
   be16_at (src_addr4 ip) 0; be16_at (src_addr4 ip) 2;
   be16_at (dst_addr4 ip) 0; be16_at (dst_addr4 ip) 2].

Definition tx_synack_v4 (ctx : Ctx) (cookie : Z) : Verdict * Ctx :=
  match ptr_at eth_of EthHdr_LEN ctx 0, ptr_at ip4_of Ipv4Hdr_LEN ctx EthHdr_LEN,
        ptr_at tcp_of TcpHdr_LEN ctx TCP_OFF with
  | Some eth, Some ip, Some tcp =>
      let ip' := synack_ip4 ip [0; 0] in
      let ipck := fold (sum32 (ip4_words ip')) in
      let ip' := synack_ip4 ip (to_be16 ipck) in
      let tck := fold (sum32 ([be16_at (src_addr4 ip') 0; be16_at (src_addr4 ip') 2;
                               be16_at (dst_addr4 ip') 0; be16_at (dst_addr4 ip') 2]
                              ++ synack_words tcp cookie)) in
      let tcp' := synack_tcp tcp cookie (to_be16 tck) in
      (XDP_TX,
       {| data := store_at TCP_OFF (tcp_to tcp')
                    (store_at EthHdr_LEN (ip4_to ip')
                       (store_at 0 (eth_to (swap_eth eth)) (data ctx)));
          buff_len := buff_len ctx |})
  | _, _, _ => (XDP_PASS, ctx)
  end.

Definition synack_ip6 (ip : Ipv6Hdr) : Ipv6Hdr :=
  {| vcf := vcf ip; payload_len := [0; 20]; next_hdr := next_hdr ip; hop_limit := 64;
     src_addr6 := dst_addr6 ip; dst_addr6 := src_addr6 ip |}.
Definition addr6_words (a : Addr) : list Z :=
  map (be16_at a) [0; 2; 4; 6; 8; 10; 12; 14]%nat.

Definition tx_synack_v6 (ctx : Ctx) (cookie : Z) : Verdict * Ctx :=
  match ptr_at eth_of EthHdr_LEN ctx 0, ptr_at ip6_of Ipv6Hdr_LEN ctx EthHdr_LEN,
        ptr_at tcp_of TcpHdr_LEN ctx TCP_OFF_V6 with
  | Some eth, Some ip, Some tcp =>
      let ip' := synack_ip6 ip in
      let addr_sum := sum32 (addr6_words (src_addr6 ip') ++ addr6_words (dst_addr6 ip')) in
      let tck := fold (sum32 (addr_sum :: synack_words tcp cookie)) in
      let tcp' := synack_tcp tcp cookie (to_be16 tck) in
      (XDP_TX,
       {| data := store_at TCP_OFF_V6 (tcp_to tcp')
                    (store_at EthHdr_LEN (ip6_to ip')
                       (store_at 0 (eth_to (swap_eth eth)) (data ctx)));
          buff_len := buff_len ctx |})
  | _, _, _ => (XDP_PASS, ctx)
  end.

(** The segment a tail-call program reads at its fixed offsets. *)
Record Seg := { sg_src : Addr; sg_dst : Addr; sg_tcp : TcpHdr }.
Definition read_seg (f : family) (ctx : Ctx) : option Seg :=
  match f with
  | V4 =>
      ip ← ptr_at ip4_of Ipv4Hdr_LEN ctx EthHdr_LEN;
      tcp ← ptr_at tcp_of TcpHdr_LEN ctx TCP_OFF;
      Some {| sg_src := src_addr4 ip; sg_dst := dst_addr4 ip; sg_tcp := tcp |}
  | V6 =>
      ip ← ptr_at ip6_of Ipv6Hdr_LEN ctx EthHdr_LEN;
      tcp ← ptr_at tcp_of TcpHdr_LEN ctx TCP_OFF_V6;
      Some {| sg_src := src_addr6 ip; sg_dst := dst_addr6 ip; sg_tcp := tcp |}
  end.

Definition cookie_for (f : family) (secret : Z) (g : Seg) : Z :=
  match f with
  | V4 => syn_cookie_v4 secret (sg_src g) (sg_dst g) (source (sg_tcp g)) (dest (sg_tcp g))
  | V6 => syn_cookie_v6 secret (sg_src g) (sg_dst g) (source (sg_tcp g)) (dest (sg_tcp g))
  end.
Definition tx_synack (f : family) : Ctx -> Z -> Verdict * Ctx :=
  match f with V4 => tx_synack_v4 | V6 => tx_synack_v6 end.

(** [try_syn_proxy], [try_syn_proxy_v6]: they differ in the header read, the
    cookie and the answer. *)
Definition try_syn_proxy (f : family) (ctx : Ctx) : ST XState (option (Verdict * Ctx)) :=
  match read_seg f ctx with
  | None => mret None
  | Some g =>
      let syn := negb (tcp_syn (sg_tcp g) =? 0) in
      let ack := negb (tcp_ack (sg_tcp g) =? 0) in
      let client_ack := from_be_bytes (ack_seq (sg_tcp g)) in
      '(cur, prev) ← cookie_secrets;
      if syn && negb ack then mret (Some (tx_synack f ctx (cookie_for f cur g)))
      else if ack && negb syn then
        let echoed := wsub 32 client_ack 1 in
        (if (echoed =? cookie_for f cur g) || (echoed =? cookie_for f prev g)
         then mark_verified clk f (sg_src g) else mret tt);;
        mret (Some (XDP_DROP, ctx))
      else mret (Some (XDP_DROP, ctx))
  end.

Definition xdp_syn_proxy (f : family) (ctx : Ctx) : ST XState (Verdict * Ctx) :=
  r ← try_syn_proxy f ctx;
  mret (match r with Some v => v | None => (XDP_DROP, ctx) end).
End proxy.

(** ** Bytes and words *)

Lemma be16_val hi lo : fits 8 lo -> be16 hi lo = hi * 256 + lo.
Proof. intros. unfold be16. by rewrite lor_shiftl_add. Qed.

Lemma byte_shift v n : 0 <= n -> wrap 8 (Z.shiftr v n) = v / 2 ^ n mod 256.
Proof. intros. unfold wrap. by rewrite Z.shiftr_div_pow2. Qed.

Lemma to_be16_val v : fits 16 v -> be16_at (to_be16 v) 0 = v.
Proof.
  unfold fits. intros Hv. unfold be16_at, to_be16. cbn [nth].
  rewrite be16_val by (apply wrap_fits; lia). rewrite byte_shift by lia. unfold wrap.
  change (2 ^ 8) with 256. Z.div_mod_to_equations. lia.
Qed.

Lemma from_to_be32 v : fits 32 v -> from_be_bytes (to_be32 v) = v.
Proof.
  unfold fits. intros Hv. unfold from_be_bytes, to_be32. cbn [fold_left].
  rewrite !byte_shift by lia. unfold wrap.
  change (2 ^ 24) with 16777216. change (2 ^ 16) with 65536. change (2 ^ 8) with 256.
  Z.div_mod_to_equations. lia.
Qed.

Lemma u32_of_val b : bytesn 4 b -> u32_of b = from_be_bytes b.
Proof.
  intros [Hl Hb]. destruct b as [|b0 [|b1 [|b2 [|b3 []]]]]; try done.
  rewrite !Forall_cons in Hb. destruct Hb as (F0 & F1 & F2 & F3 & _).
  unfold u32_of, from_be_bytes. cbn [nth fold_left].
  replace (Z.shiftl b0 24) with (Z.shiftl (Z.shiftl (Z.shiftl b0 8) 8) 8)
    by (rewrite !Z.shiftl_shiftl by lia; f_equal; lia).
  replace (Z.shiftl b1 16) with (Z.shiftl (Z.shiftl b1 8) 8)
    by (rewrite !Z.shiftl_shiftl by lia; f_equal; lia).
  rewrite <- !Z.shiftl_lor. fold (be16 b0 b1). unfold fits in *.
  rewrite (be16_val b0 b1) by (unfold fits; lia).
  fold (be16 (b0 * 256 + b1) b2). rewrite be16_val by (unfold fits; lia).
  fold (be16 ((b0 * 256 + b1) * 256 + b2) b3). rewrite be16_val by (unfold fits; lia). lia.
Qed.

Lemma to_be16_wf v : bytesn 2 (to_be16 v).
Proof. split; [done|]. repeat constructor; apply wrap_fits; lia. Qed.
Lemma to_be32_wf v : bytesn 4 (to_be32 v).
Proof. split; [done|]. repeat constructor; apply wrap_fits; lia. Qed.

(** ** The Internet checksum *)

(** The folded sum, before the complement. *)
Definition folded (s : Z) : Z :=
  let s := Z.land s 0xffff + Z.shiftr s 16 in Z.land s 0xffff + Z.shiftr s 16.

Lemma land_ffff s : Z.land s 0xffff = s mod 65536.
Proof. change 0xffff with (Z.ones 16). by rewrite Z.land_ones by lia. Qed.

Lemma folded_spec s : 0 <= s < 2 ^ 32 ->
  0 <= folded s <= 0xffff /\ (folded s = 0 <-> s = 0) /\ exists k, s = folded s + 0xffff * k.
Proof.
  intros Hs. unfold folded. rewrite !land_ffff, !Z.shiftr_div_pow2 by lia.
  change (2 ^ 16) with 65536. set (t := s mod 65536 + s / 65536).
  assert (s = t + 65535 * (s / 65536)) as Es by (unfold t; Z.div_mod_to_equations; lia).
  assert (t = t mod 65536 + t / 65536 + 65535 * (t / 65536)) as Et by (Z.div_mod_to_equations; lia).
  split_and!; [Z.div_mod_to_equations; lia..|split; Z.div_mod_to_equations; lia|].
  exists (s / 65536 + t / 65536). lia.
Qed.

Lemma fold_folded s : 0 <= s < 2 ^ 32 -> fold s = 0xffff - folded s.
Proof.
  intros Hs. pose proof (folded_spec s Hs) as (Hb & _). unfold fold.
  assert (wadd 32 (Z.land s 65535) (Z.shiftr s 16) = Z.land s 65535 + Z.shiftr s 16) as ->.
  { rewrite land_ffff, Z.shiftr_div_pow2 by lia. apply wadd_small; Z.div_mod_to_equations; lia. }
  set (t := Z.land s 65535 + Z.shiftr s 16).
  assert (0 <= t < 2 ^ 17) as Ht.
  { unfold t. rewrite land_ffff, Z.shiftr_div_pow2 by lia. Z.div_mod_to_equations; lia. }
  assert (wadd 32 (Z.land t 65535) (Z.shiftr t 16) = folded s) as ->.
  { unfold folded. fold t. rewrite land_ffff, Z.shiftr_div_pow2 by lia.
    apply wadd_small; Z.div_mod_to_equations; lia. }
  rewrite wrap_small by (unfold fits; lia).
  change 0xffff with (Z.ones 16). apply lxor_ones; [done|unfold fits; lia].
Qed.

(** What a receiver computes over words that include the checksum of the others:
    zero, that is, the segment is accepted. *)
Lemma checksum_verifies s c :
  0 <= s -> s + 0xffff < 2 ^ 32 -> c = fold s -> fold (s + c) = 0 /\ fits 16 c.
Proof.
  intros H0 Hs ->. rewrite (fold_folded s) by lia.
  pose proof (folded_spec s ltac:(lia)) as (Hb & Hz & k & Hk).
  assert (0 <= s + (65535 - folded s) < 2 ^ 32) as Hr by lia.
  split; [|unfold fits; lia]. rewrite fold_folded by done.
  pose proof (folded_spec _ Hr) as (Hb' & Hz' & k' & Hk').
  destruct (Z.eq_dec (folded (s + (65535 - folded s))) 0) as [E|E]; [|nia].
  apply Hz' in E. lia.
Qed.

Definition word (w : Z) : Prop := fits 16 w.

(** Small sums do not wrap. *)
Lemma sum32_val l : Forall word l -> Z.of_nat (length l) <= 65536 ->
  sum32 l = foldr Z.add 0 l /\ 0 <= sum32 l <= 0xffff * Z.of_nat (length l).
Proof.
  unfold sum32. assert (forall l acc, Forall word l -> 0 <= acc ->
    acc + 65535 * Z.of_nat (length l) < 2 ^ 32 ->
    foldl (wadd 32) acc l = acc + foldr Z.add 0 l /\
    acc <= foldl (wadd 32) acc l <= acc + 65535 * Z.of_nat (length l)) as Hg.
  { clear. intros l. induction l as [|w l IH]; intros acc Hf Ha Hl; cbn; [lia|].
    apply Forall_cons in Hf as [Hw Hf]. unfold word, fits in Hw. cbn [length] in Hl.
    rewrite wadd_small by lia. destruct (IH (acc + w)) as [-> ?]; [done|lia..|lia]. }
  intros Hf Hl. destruct (Hg l 0); [done|lia..|lia].
Qed.

(** A partial sum may be a first word. *)
Lemma sum32_nested l l' : Forall word l -> Z.of_nat (length l) <= 65536 ->
  sum32 (sum32 l :: l') = sum32 (l ++ l').
Proof.
  intros Hw Hl. destruct (sum32_val l Hw Hl) as [_ Hb]. unfold sum32 at 1 3. rewrite foldl_app.
  cbn [foldl]. f_equal. apply wadd_small; lia.
Qed.

(** ** What the proxy sends and what it remembers *)
Section answers.
Context `{!BpfKernel, !BpfKernelLaws, !NetTypes, !NetTypesLaws} (clk : nat -> Z).

Definition pkt_wf (ctx : Ctx) : Prop := Forall (fits 8) (data ctx).

Lemma ptr_at_len {T} (dec : list Z -> T) n ctx off h :
  ptr_at dec n ctx off = Some h -> (off + n <= length (data ctx))%nat.
Proof. unfold ptr_at. destruct (Nat.ltb_spec (length (data ctx)) (off + n)); [done|lia]. Qed.
Lemma ptr_at_dec {T} (dec : list Z -> T) n ctx off :
  (off + n <= length (data ctx))%nat ->
  ptr_at dec n ctx off = Some (dec (take n (drop off (data ctx)))).
Proof. intros. unfold ptr_at. by destruct (Nat.ltb_spec (length (data ctx)) (off + n)); [lia|]. Qed.
Lemma ptr_at_bytes {T} (dec : list Z -> T) n ctx off h :
  pkt_wf ctx -> ptr_at dec n ctx off = Some h ->
  exists l, bytesn n l /\ h = dec l.
Proof.
  intros Hwf Hp. pose proof (ptr_at_len _ _ _ _ _ Hp) as Hl. rewrite ptr_at_dec in Hp by done.
  simplify_eq. eexists. split; [split|done].
  - rewrite length_take, length_drop. lia.
  - by apply Forall_take, Forall_drop.
Qed.

Lemma store_at_app p b r :
  store_at (length p) b (p ++ r) = p ++ b ++ drop (length b) r.
Proof.
  unfold store_at. rewrite take_app_length. do 2 f_equal.
  rewrite drop_app_ge by lia. f_equal. lia.
Qed.

(** Three headers rewritten in place: each reads back, the rest is as it was. *)
Lemma rewrite_headers l a b c :
  (length a + length b + length c <= length l)%nat ->
  let l' := store_at (length a + length b) c (store_at (length a) b (store_at 0 a l)) in
  length l' = length l /\
  take (length b) (drop (length a) l') = b /\
  take (length c) (drop (length a + length b) l') = c /\
  take (length a) l' = a /\
  drop (length a + length b + length c) l' = drop (length a + length b + length c) l.
Proof.
  intros Hl l'. assert (l' = a ++ b ++ c ++ drop (length a + length b + length c) l) as ->.
  { unfold l'. rewrite (store_at_app [] a l : store_at 0 a l = _). cbn [app].
    rewrite store_at_app, app_assoc, <- length_app, store_at_app, !drop_drop, <- app_assoc.
    rewrite length_app. do 4 f_equal. lia. }
  split_and!.
  - rewrite !length_app, length_drop. lia.
  - by rewrite drop_app_length, take_app_length.
  - rewrite app_assoc, <- length_app, drop_app_length. by rewrite take_app_length.
  - by rewrite take_app_length.
  - rewrite !app_assoc, <- !length_app. by rewrite drop_app_length.
Qed.

Lemma eth_wf_swap eth : eth_wf eth -> eth_wf (swap_eth eth).
Proof. unfold eth_wf. cbn. tauto. Qed.
Lemma synack_tcp_wf tcp cookie v :
  tcp_wf tcp -> tcp_wf (synack_tcp tcp cookie (to_be16 v)).
Proof.
  unfold tcp_wf. intros (Hs & Hd & _). cbn. split_and!; try done;
    try (by repeat constructor); auto using to_be16_wf, to_be32_wf.
Qed.
Lemma synack_ip4_wf ip v : ip4_wf ip -> ip4_wf (synack_ip4 ip (to_be16 v)).
Proof.
  unfold ip4_wf. intros (?&?&?&?&?&?&?&?&?&?). cbn.
  split_and!; try done; try (by repeat constructor); auto using to_be16_wf.
Qed.
Lemma synack_ip6_wf ip : ip6_wf ip -> ip6_wf (synack_ip6 ip).
Proof.
  unfold ip6_wf. intros (?&?&?&?&?&?). cbn.
  split_and!; try done; try (by repeat constructor).
Qed.

(** The answer to a SYN: the same frame, with these three headers. *)
Lemma tx_synack_v4_frame ctx cookie eth ip tcp :
  pkt_wf ctx ->
  ptr_at eth_of EthHdr_LEN ctx 0 = Some eth ->
  ptr_at ip4_of Ipv4Hdr_LEN ctx EthHdr_LEN = Some ip ->
  ptr_at tcp_of TcpHdr_LEN ctx TCP_OFF = Some tcp ->
  exists ctx' ick tck,
    tx_synack_v4 ctx cookie = (XDP_TX, ctx') /\
    ick = to_be16 (fold (sum32 (ip4_words (synack_ip4 ip [0; 0])))) /\
    tck = to_be16 (fold (sum32 ([be16_at (dst_addr4 ip) 0; be16_at (dst_addr4 ip) 2;
            be16_at (src_addr4 ip) 0; be16_at (src_addr4 ip) 2] ++ synack_words tcp cookie))) /\
    ptr_at eth_of EthHdr_LEN ctx' 0 = Some (swap_eth eth) /\
    ptr_at ip4_of Ipv4Hdr_LEN ctx' EthHdr_LEN = Some (synack_ip4 ip ick) /\
    ptr_at tcp_of TcpHdr_LEN ctx' TCP_OFF = Some (synack_tcp tcp cookie tck) /\
    length (data ctx') = length (data ctx) /\ buff_len ctx' = buff_len ctx /\
    drop (TCP_OFF + TcpHdr_LEN) (data ctx') = drop (TCP_OFF + TcpHdr_LEN) (data ctx).
Proof.
  intros Hwf He Hi Ht. unfold tx_synack_v4. rewrite He, Hi, Ht. cbn [src_addr4 dst_addr4 synack_ip4].
  do 3 eexists. split; [reflexivity|]. split; [done|]. split; [done|].
  pose proof (ptr_at_len _ _ _ _ _ Ht) as Hlen. unfold TCP_OFF in *.
  destruct (ptr_at_bytes _ _ _ _ _ Hwf He) as (le & Ble & ->).
  destruct (ptr_at_bytes _ _ _ _ _ Hwf Hi) as (li & Bli & ->).
  destruct (ptr_at_bytes _ _ _ _ _ Hwf Ht) as (lt & Blt & ->).
  pose proof (eth_wf_swap _ (eth_of_wf _ Ble)) as We.
  set (ip' := synack_ip4 (ip4_of li) _). set (tcp' := synack_tcp (tcp_of lt) cookie _).
  assert (ip4_wf ip') as Wi by apply synack_ip4_wf, ip4_of_wf, Bli.
  assert (tcp_wf tcp') as Wt by apply synack_tcp_wf, tcp_of_wf, Blt.
  pose proof (eth_to_length _ We) as Le. pose proof (ip4_to_length _ Wi) as Li.
  pose proof (tcp_to_length _ Wt) as Lt.
  pose proof (rewrite_headers (data ctx) (eth_to (swap_eth (eth_of le))) (ip4_to ip') (tcp_to tcp'))
    as Hr. rewrite Le, Li, Lt in Hr. destruct Hr as (R0 & R1 & R2 & R3 & R4); [lia|].
  rewrite !ptr_at_dec by (cbn [data]; rewrite ?R0; lia). cbn [data buff_len].
  rewrite drop_0, R1, R2, R3. by rewrite eth_of_to, ip4_of_to, tcp_of_to.
Qed.

Lemma tx_synack_v6_frame ctx cookie eth ip tcp :
  pkt_wf ctx ->
  ptr_at eth_of EthHdr_LEN ctx 0 = Some eth ->
  ptr_at ip6_of Ipv6Hdr_LEN ctx EthHdr_LEN = Some ip ->
  ptr_at tcp_of TcpHdr_LEN ctx TCP_OFF_V6 = Some tcp ->
  exists ctx' tck,
    tx_synack_v6 ctx cookie = (XDP_TX, ctx') /\
    tck = to_be16 (fold (sum32 (sum32 (addr6_words (dst_addr6 ip) ++ addr6_words (src_addr6 ip))
                                :: synack_words tcp cookie))) /\
    ptr_at eth_of EthHdr_LEN ctx' 0 = Some (swap_eth eth) /\
    ptr_at ip6_of Ipv6Hdr_LEN ctx' EthHdr_LEN = Some (synack_ip6 ip) /\
    ptr_at tcp_of TcpHdr_LEN ctx' TCP_OFF_V6 = Some (synack_tcp tcp cookie tck) /\
    length (data ctx') = length (data ctx) /\ buff_len ctx' = buff_len ctx /\
    drop (TCP_OFF_V6 + TcpHdr_LEN) (data ctx') = drop (TCP_OFF_V6 + TcpHdr_LEN) (data ctx).
Proof.
  intros Hwf He Hi Ht. unfold tx_synack_v6. rewrite He, Hi, Ht. cbn [src_addr6 dst_addr6 synack_ip6].
  do 2 eexists. split; [reflexivity|]. split; [done|].
  pose proof (ptr_at_len _ _ _ _ _ Ht) as Hlen. unfold TCP_OFF_V6 in *.
  destruct (ptr_at_bytes _ _ _ _ _ Hwf He) as (le & Ble & ->).
  destruct (ptr_at_bytes _ _ _ _ _ Hwf Hi) as (li & Bli & ->).
  destruct (ptr_at_bytes _ _ _ _ _ Hwf Ht) as (lt & Blt & ->).
  pose proof (eth_wf_swap _ (eth_of_wf _ Ble)) as We.
  set (ip' := synack_ip6 (ip6_of li)). set (tcp' := synack_tcp (tcp_of lt) cookie _).
  assert (ip6_wf ip') as Wi by apply synack_ip6_wf, ip6_of_wf, Bli.
  assert (tcp_wf tcp') as Wt by apply synack_tcp_wf, tcp_of_wf, Blt.
  pose proof (eth_to_length _ We) as Le. pose proof (ip6_to_length _ Wi) as Li.
  pose proof (tcp_to_length _ Wt) as Lt.
  pose proof (rewrite_headers (data ctx) (eth_to (swap_eth (eth_of le))) (ip6_to ip') (tcp_to tcp'))
    as Hr. rewrite Le, Li, Lt in Hr. destruct Hr as (R0 & R1 & R2 & R3 & R4); [lia|].
  rewrite !ptr_at_dec by (cbn [data]; rewrite ?R0; lia). cbn [data buff_len].
  rewrite drop_0, R1, R2, R3. by rewrite eth_of_to, ip6_of_to, tcp_of_to.
Qed.

Definition is_syn_only (tcp : TcpHdr) : bool := negb (tcp_syn tcp =? 0) && (tcp_ack tcp =? 0).
Definition is_ack_only (tcp : TcpHdr) : bool := negb (tcp_ack tcp =? 0) && (tcp_syn tcp =? 0).
(** The segment acknowledges this cookie. *)
Definition echoes (f : family) (secret : Z) (g : Seg) : bool :=
  wsub 32 (from_be_bytes (ack_seq (sg_tcp g))) 1 =? cookie_for f secret g.

Lemma try_syn_proxy_run f ctx s g :
  read_seg f ctx = Some g ->
  xdp_syn_proxy clk f ctx s =
  if is_syn_only (sg_tcp g) then (tx_synack f ctx (cookie_for f (cookie_secrets s).1.1 g), s)
  else if is_ack_only (sg_tcp g) &&
          (echoes f (cookie_secrets s).1.1 g || echoes f (cookie_secrets s).1.2 g)
  then ((XDP_DROP, ctx), (mark_verified clk f (sg_src g) s).2)
  else ((XDP_DROP, ctx), s).
Proof.
  intros Hg. unfold xdp_syn_proxy, try_syn_proxy. rewrite Hg, bind_run, bind_run.
  unfold is_syn_only, is_ack_only, echoes. destruct (cookie_secrets s) as [[cur prev] s1] eqn:E.
  assert (s1 = s) as -> by by injection E. cbn [fst snd].
  destruct (tcp_syn (sg_tcp g) =? 0), (tcp_ack (sg_tcp g) =? 0); cbn [negb andb]; try done.
  rewrite bind_run. by destruct (_ || _).
Qed.

(** The read headers, and what they say about the frame. *)
Lemma read_seg_v4 ctx g : read_seg V4 ctx = Some g ->
  exists eth ip, ptr_at eth_of EthHdr_LEN ctx 0 = Some eth /\
    ptr_at ip4_of Ipv4Hdr_LEN ctx EthHdr_LEN = Some ip /\
    ptr_at tcp_of TcpHdr_LEN ctx TCP_OFF = Some (sg_tcp g) /\
    sg_src g = src_addr4 ip /\ sg_dst g = dst_addr4 ip.
Proof.
  unfold read_seg. destruct (ptr_at ip4_of _ _ _) as [ip|] eqn:Ei; [|done]. cbn.
  destruct (ptr_at tcp_of _ _ _) as [tcp|] eqn:Et; [|done]. cbn. intros [= <-].
  pose proof (ptr_at_len _ _ _ _ _ Ei). rewrite (ptr_at_dec eth_of EthHdr_LEN ctx 0) by lia.
  by do 2 eexists.
Qed.
Lemma read_seg_v6 ctx g : read_seg V6 ctx = Some g ->
  exists eth ip, ptr_at eth_of EthHdr_LEN ctx 0 = Some eth /\
    ptr_at ip6_of Ipv6Hdr_LEN ctx EthHdr_LEN = Some ip /\
    ptr_at tcp_of TcpHdr_LEN ctx TCP_OFF_V6 = Some (sg_tcp g) /\
    sg_src g = src_addr6 ip /\ sg_dst g = dst_addr6 ip.
Proof.
  unfold read_seg. destruct (ptr_at ip6_of _ _ _) as [ip|] eqn:Ei; [|done]. cbn.
  destruct (ptr_at tcp_of _ _ _) as [tcp|] eqn:Et; [|done]. cbn. intros [= <-].
  pose proof (ptr_at_len _ _ _ _ _ Ei). rewrite (ptr_at_dec eth_of EthHdr_LEN ctx 0) by lia.
  by do 2 eexists.
Qed.

(** The segment of an answer. *)
Lemma synack_seg f ctx g cookie :
  pkt_wf ctx -> read_seg f ctx = Some g ->
  exists ctx' tck, tx_synack f ctx cookie = (XDP_TX, ctx') /\
    length (data ctx') = length (data ctx) /\
    read_seg f ctx' = Some {| sg_src := sg_dst g; sg_dst := sg_src g;
                              sg_tcp := synack_tcp (sg_tcp g) cookie tck |}.
Proof.
  intros Hwf Hg. destruct f.
  - destruct (read_seg_v4 _ _ Hg) as (eth & ip & He & Hi & Ht & -> & ->).
    destruct (tx_synack_v4_frame ctx cookie eth ip (sg_tcp g) Hwf He Hi Ht)
      as (ctx' & ick & tck & E & _ & _ & _ & Ri & Rt & Hl & _).
    exists ctx', tck. split_and!; [done|done|]. unfold read_seg. by rewrite Ri; cbn; rewrite Rt.
  - destruct (read_seg_v6 _ _ Hg) as (eth & ip & He & Hi & Ht & -> & ->).
    destruct (tx_synack_v6_frame ctx cookie eth ip (sg_tcp g) Hwf He Hi Ht)
      as (ctx' & tck & E & _ & _ & Ri & Rt & Hl & _).
    exists ctx', tck. split_and!; [done|done|]. unfold read_seg. by rewrite Ri; cbn; rewrite Rt.
Qed.

(** Whatever its bytes, a segment that was read can be answered. *)
Lemma synack_verdict f ctx g cookie :
  read_seg f ctx = Some g -> exists ctx', tx_synack f ctx cookie = (XDP_TX, ctx').
Proof.
  intros Hg. destruct f; cbn [tx_synack].
  - destruct (read_seg_v4 _ _ Hg) as (eth & ip & He & Hi & Ht & _).
    unfold tx_synack_v4. rewrite He, Hi, Ht. by eexists.
  - destruct (read_seg_v6 _ _ Hg) as (eth & ip & He & Hi & Ht & _).
    unfold tx_synack_v6. rewrite He, Hi, Ht. by eexists.
Qed.
Lemma seg_tcp_wf f ctx g : pkt_wf ctx -> read_seg f ctx = Some g -> tcp_wf (sg_tcp g).
Proof.
  intros Hwf Hg. destruct f.
  - destruct (read_seg_v4 _ _ Hg) as (eth & ip & _ & _ & Ht & _).
    destruct (ptr_at_bytes _ _ _ _ _ Hwf Ht) as (l & Bl & ->). by apply tcp_of_wf.
  - destruct (read_seg_v6 _ _ Hg) as (eth & ip & _ & _ & Ht & _).
    destruct (ptr_at_bytes _ _ _ _ _ Hwf Ht) as (l & Bl & ->). by apply tcp_of_wf.
Qed.
Lemma cookie_for_fits f secret g : fits 32 (cookie_for f secret g).
Proof. destruct f; apply cookie_fits. Qed.

(** The proxy answers a SYN with a SYN-ACK in the same frame, and changes no
    map: addresses and ports are swapped, the sequence number is the cookie of
    the connection under the current secret, the acknowledgement is the client's
    sequence number plus one, modulo 2^32. *)
Theorem syn_answered f ctx s g :
  pkt_wf ctx -> read_seg f ctx = Some g -> is_syn_only (sg_tcp g) = true ->
  exists ctx' g',
    xdp_syn_proxy clk f ctx s = ((XDP_TX, ctx'), s) /\
    length (data ctx') = length (data ctx) /\
    read_seg f ctx' = Some g' /\
    sg_src g' = sg_dst g /\ sg_dst g' = sg_src g /\
    source (sg_tcp g') = dest (sg_tcp g) /\ dest (sg_tcp g') = source (sg_tcp g) /\
    from_be_bytes (seq_no (sg_tcp g')) = cookie_for f (cookie_secrets s).1.1 g /\
    from_be_bytes (ack_seq (sg_tcp g')) = wadd 32 (from_be_bytes (seq_no (sg_tcp g))) 1 /\
    tcp_syn (sg_tcp g') <> 0 /\ tcp_ack (sg_tcp g') <> 0.
Proof.
  intros Hwf Hg Hs. rewrite (try_syn_proxy_run f ctx s g Hg), Hs.
  pose proof (seg_tcp_wf f ctx g Hwf Hg) as Wt.
  destruct (synack_seg f ctx g (cookie_for f (cookie_secrets s).1.1 g) Hwf Hg)
    as (ctx' & tck & -> & Hl & Hr).
  do 2 eexists. split; [done|]. split; [done|]. split; [exact Hr|].
  cbn [sg_src sg_dst sg_tcp synack_tcp source dest seq_no ack_seq]. split_and!; try done.
  - apply from_to_be32, cookie_for_fits.
  - rewrite from_to_be32 by (apply wrap_fits; lia). rewrite u32_of_val; [done|].
    by destruct Wt as (_ & _ & ? & _).
  - by apply tcp_syn_bit.
  - by apply tcp_ack_bit.
Qed.

(** C19: a client that completes the handshake is verified, also when the cookie
    secret was rotated once in between: if the SYN was answered and an ACK of
    the same connection acknowledges the answer's sequence number plus one, the
    client's address is in the verified map afterwards. *)
Theorem handshake_verifies f syn ctx' s s1 ack g g' ga s2 new :
  pkt_wf syn -> read_seg f syn = Some g -> is_syn_only (sg_tcp g) = true ->
  xdp_syn_proxy clk f syn s = ((XDP_TX, ctx'), s1) -> read_seg f ctx' = Some g' ->
  COOKIE_SECRET s2 = COOKIE_SECRET s1 \/
  COOKIE_SECRET s2 = COOKIE_SECRET (rotate_cookie_secret new s1) ->
  length (COOKIE_SECRET s1) = 2%nat ->
  read_seg f ack = Some ga -> is_ack_only (sg_tcp ga) = true ->
  sg_src ga = sg_src g -> sg_dst ga = sg_dst g ->
  source (sg_tcp ga) = source (sg_tcp g) -> dest (sg_tcp ga) = dest (sg_tcp g) ->
  from_be_bytes (ack_seq (sg_tcp ga)) = wadd 32 (from_be_bytes (seq_no (sg_tcp g'))) 1 ->
  is_Some (hget (sg_src g) (VERIFIED (x_fam (xdp_syn_proxy clk f ack s2).2 f))).
Proof.
  intros Hwf Hg Hs Hrun Hg' Hsec Hlen Hga Ha Esrc Edst Esp Edp Eack.
  rewrite (try_syn_proxy_run f syn s g Hg), Hs in Hrun.
  destruct (synack_seg f syn g (cookie_for f (cookie_secrets s).1.1 g) Hwf Hg)
    as (ctx2 & tck & E & _ & Hr). rewrite E in Hrun. injection Hrun as <- <-.
  rewrite Hr in Hg'. injection Hg' as <-. cbn [sg_tcp synack_tcp seq_no] in Eack.
  rewrite from_to_be32 in Eack by apply cookie_for_fits.
  pose proof (cookie_for_fits f (cookie_secrets s).1.1 g) as Hfit.
  assert (forall sec, cookie_for f sec ga = cookie_for f sec g) as Ec.
  { intros sec. destruct f; cbn; by rewrite Esrc, Edst, Esp, Edp. }
  assert (forall sec, sec = (cookie_secrets s).1.1 -> echoes f sec ga = true) as Hecho.
  { intros sec ->. unfold echoes. rewrite Eack, Ec. apply Z.eqb_eq.
    unfold wsub, wadd, wrap. rewrite Zminus_mod_idemp_l.
    rewrite Z.add_simpl_r. by apply wrap_small. }
  rewrite (try_syn_proxy_run f ack s2 ga Hga).
  assert (is_syn_only (sg_tcp ga) = false) as ->.
  { unfold is_syn_only, is_ack_only in *. zbool.
    by rewrite (proj2 (Z.eqb_eq (tcp_syn _) 0)). }
  rewrite Ha. cbn [andb].
  assert (echoes f (cookie_secrets s2).1.1 ga || echoes f (cookie_secrets s2).1.2 ga = true) as ->.
  { apply orb_true_iff. unfold cookie_secrets, gets. cbn [fst snd].
    destruct Hsec as [->|Hrot]; [left; by apply Hecho|right; rewrite Hrot].
    unfold rotate_cookie_secret. cbn [COOKIE_SECRET]. apply Hecho.
    destruct (COOKIE_SECRET s) as [|c [|p [|]]] eqn:El; cbn in Hlen; try discriminate Hlen.
    unfold cookie_secrets, gets. cbn [fst]. by rewrite El. }
  cbn [snd]. unfold mark_verified. rewrite bind_run. cbn. rewrite decide_True by done. cbn.
  rewrite Esrc, hget_hput. by eexists.
Qed.

(** C20: nothing but such an echo verifies a source: the proxy either leaves every
    map as it was, or the packet is an ACK without SYN that acknowledges the
    connection's cookie under one of the two secrets, and then only that
    source's verification is written.  It never passes a packet, and what it
    does not answer it drops unmodified. *)
Theorem only_echo_verifies f ctx s :
  let '((v, ctx'), s') := xdp_syn_proxy clk f ctx s in
  v <> XDP_PASS /\ (v <> XDP_TX -> ctx' = ctx) /\
  (s' = s \/
   exists g, read_seg f ctx = Some g /\ is_ack_only (sg_tcp g) = true /\ v = XDP_DROP /\
     (echoes f (cookie_secrets s).1.1 g = true \/ echoes f (cookie_secrets s).1.2 g = true) /\
     s' = (mark_verified clk f (sg_src g) s).2).
Proof.
  destruct (read_seg f ctx) as [g|] eqn:Hg.
  2: { unfold xdp_syn_proxy, try_syn_proxy. rewrite Hg. cbn. split_and!; [done|done|by left]. }
  rewrite (try_syn_proxy_run f ctx s g Hg). destruct (is_syn_only (sg_tcp g)).
  - destruct (synack_verdict f ctx g (cookie_for f (cookie_secrets s).1.1 g) Hg) as [ctx' ->].
    split_and!; [done|done|by left].
  - destruct (is_ack_only (sg_tcp g)) eqn:Ha; cbn [andb]; [|split_and!; [done|done|by left]].
    destruct (echoes f (cookie_secrets s).1.1 g || _) eqn:He; [|split_and!; [done|done|by left]].
    split_and!; [done|done|]. right. exists g. apply orb_true_iff in He. done.
Qed.
End answers.

(** ** The answers' checksums, on the wire formats *)
Module Checksums.
Import WireNet.

(** The 16-bit words of a header. *)
Fixpoint words (l : list Z) : list Z :=
  match l with
  | a :: b :: l => be16 a b :: words l
  | _ => []
  end.

Lemma be16_word a b : fits 8 a -> fits 8 b -> word (be16 a b).
Proof. intros Ha Hb. unfold word. rewrite be16_val by done. unfold fits in *. lia. Qed.

Definition total (l : list Z) : Z := foldr Z.add 0 l.

(** Words that add up to another sum and its checksum are accepted. *)
Lemma checksum_of ws ws' :
  Forall word ws -> Forall word ws' -> (length ws <= 64)%nat -> (length ws' <= 64)%nat ->
  total ws' = total ws + fold (sum32 ws) -> fold (sum32 ws') = 0.
Proof.
  intros Hw Hw' Hl Hl' E. unfold total in E.
  destruct (sum32_val ws Hw) as [Es Hb]; [lia|]. destruct (sum32_val ws' Hw') as [-> _]; [lia|].
  destruct (checksum_verifies (sum32 ws) _ (proj1 Hb) ltac:(lia) eq_refl) as [Hz _].
  by rewrite E, <- Es.
Qed.

Lemma fold_word ws : Forall word ws -> (length ws <= 64)%nat -> word (fold (sum32 ws)).
Proof.
  intros Hw Hl. destruct (sum32_val ws Hw) as [_ Hb]; [lia|].
  by destruct (checksum_verifies (sum32 ws) _ (proj1 Hb) ltac:(lia) eq_refl).
Qed.

Lemma words_app k a b : length a = (2 * k)%nat -> words (a ++ b) = words a ++ words b.
Proof.
  revert a. induction k as [|k IH]; intros a Ha.
  - by destruct a.
  - destruct a as [|x [|y a]]; cbn in Ha; try lia. cbn. f_equal. apply IH. lia.
Qed.
Lemma words2 l : bytesn 2 l -> words l = [be16_at l 0] /\ word (be16_at l 0).
Proof.
  intros [Hl Hf]. destruct l as [|x [|y []]]; try done.
  rewrite !Forall_cons in Hf. split; [done|]. apply be16_word; apply Hf.
Qed.
Lemma words4 l : bytesn 4 l ->
  words l = [be16_at l 0; be16_at l 2] /\ word (be16_at l 0) /\ word (be16_at l 2).
Proof.
  intros [Hl Hf]. destruct l as [|x [|y [|z [|w []]]]]; try done.
  rewrite !Forall_cons in Hf. split; [done|]. split; apply be16_word; apply Hf.
Qed.
Lemma words16 l : bytesn 16 l -> words l = addr6_words l /\ Forall word (words l).
Proof.
  intros [Hl Hf]. do 16 (destruct l as [|? l]; [done|]). destruct l; [|done].
  split; [done|]. cbn [words]. rewrite !Forall_cons in Hf.
  repeat (apply Forall_cons; split; [apply be16_word; apply Hf|]). constructor.
Qed.

(** The halves of a [u32], as numbers and as bytes. *)
Lemma halves v : fits 32 v ->
  word (Z.shiftr v 16) /\ word (Z.land v 0xffff) /\
  words (to_be32 v) = [Z.shiftr v 16; Z.land v 0xffff].
Proof.
  unfold word, fits. intros Hv. rewrite land_ffff, Z.shiftr_div_pow2 by lia.
  split_and!; [Z.div_mod_to_equations; lia..|]. unfold to_be32. cbn [words].
  rewrite !be16_val by (apply wrap_fits; lia). rewrite !byte_shift by lia. unfold wrap.
  change (2 ^ 24) with 16777216. change (2 ^ 16) with 65536. change (2 ^ 8) with 256.
  f_equal; [Z.div_mod_to_equations; lia|]. f_equal. Z.div_mod_to_equations; lia.
Qed.

(** The TCP header's words against the sum the program computes. *)
Lemma synack_tcp_words tcp cookie v :
  tcp_wf tcp -> fits 32 cookie -> word v ->
  let ws := words (tcp_to (synack_tcp tcp cookie (to_be16 v))) in
  Forall word ws /\ length ws = 10%nat /\
  Forall word (synack_words tcp cookie) /\
  PROTO_TCP + (20 + total ws) = total (synack_words tcp cookie) + v.
Proof.
  intros (Hso & Hde & Hse & _) Hc Hv ws.
  set (ackn := wadd 32 (u32_of (seq_no tcp)) 1).
  assert (fits 32 ackn) as Ha by (apply wrap_fits; lia).
  destruct (halves cookie Hc) as (W1 & W2 & E1), (halves ackn Ha) as (W3 & W4 & E2).
  destruct (words2 _ Hso) as [Es Ws], (words2 _ Hde) as [Ed Wd].
  assert (ws = [be16_at (dest tcp) 0; be16_at (source tcp) 0; Z.shiftr cookie 16;
                Z.land cookie 0xffff; Z.shiftr ackn 16; Z.land ackn 0xffff;
                0x5012; 0xffff; v; 0]) as ->.
  { unfold ws. cbn [tcp_to wire synack_tcp source dest seq_no ack_seq tcp_b12 tcp_b13
                    window tcp_check urg_ptr]. fold ackn.
    rewrite (words_app 1), (words_app 1), (words_app 2), (words_app 2), (words_app 1),
      (words_app 1), (words_app 1), Ed, Es, E1, E2 by (done || apply Hde || apply Hso).
    pose proof (to_be16_val v Hv) as Ev. unfold be16_at in Ev. cbn [nth to_be16] in Ev.
    cbn [app words to_be16]. by rewrite Ev. }
  unfold synack_words, total. fold ackn. cbn [foldr].
  rewrite !Forall_cons, Forall_nil. unfold word, fits, PROTO_TCP in *.
  split; [lia|]. split; [done|]. split; lia.
Qed.

(** The IPv4 header's words against the sum the program computes. *)
Lemma synack_ip4_words ip v :
  ip4_wf ip -> word v ->
  let ws := words (ip4_to (synack_ip4 ip (to_be16 v))) in
  Forall word ws /\ length ws = 10%nat /\
  Forall word (ip4_words (synack_ip4 ip [0; 0])) /\
  total ws = total (ip4_words (synack_ip4 ip [0; 0])) + v.
Proof.
  intros (Hvi & Hto & _ & Hid & Hfr & _ & Hpr & _ & Hsr & Hds) Hv ws.
  destruct (words2 _ Hid) as [Ei Wi], (words2 _ Hfr) as [Ef Wf].
  destruct (words4 _ Hsr) as (Es & Ws & Ws'), (words4 _ Hds) as (Ed & Wd & Wd').
  assert (ws = [be16 (vihl ip) (tos ip); 40; be16_at (ip_id ip) 0; be16_at (frags ip) 0;
                be16 64 (proto4 ip); v; be16_at (dst_addr4 ip) 0; be16_at (dst_addr4 ip) 2;
                be16_at (src_addr4 ip) 0; be16_at (src_addr4 ip) 2]) as ->.
  { unfold ws. cbn [ip4_to wire synack_ip4 vihl tos tot_len ip_id frags ttl proto4 ip_check
                    src_addr4 dst_addr4]. cbn [app words].
    rewrite (words_app 1 (ip_id ip)), (words_app 1 (frags ip)) by (apply Hid || apply Hfr).
    cbn [app words]. rewrite (words_app 1 (to_be16 v)) by done.
    rewrite (words_app 2 (dst_addr4 ip)), Ei, Ef, Ed, Es by apply Hds.
    pose proof (to_be16_val v Hv) as Ev. unfold be16_at in Ev. cbn [nth to_be16] in Ev.
    cbn [app words to_be16]. by rewrite Ev. }
  pose proof (be16_word _ _ Hvi Hto). pose proof (be16_word 64 _ ltac:(unfold fits; lia) Hpr).
  unfold ip4_words, total. cbn [synack_ip4 vihl tos tot_len ip_id frags ttl proto4 ip_check
    src_addr4 dst_addr4 foldr]. change (be16_at [0; 40] 0) with 40.
  rewrite !Forall_cons, Forall_nil. unfold word, fits in *.
  split; [lia|]. split; [done|]. split; lia.
Qed.

(** The wire formats lose nothing. *)
Lemma ip4_to_of l : length l = 20%nat -> ip4_to (ip4_of l) = l.
Proof. intros Hl. do 20 (destruct l as [|? l]; [done|]). by destruct l. Qed.
Lemma tcp_to_of l : length l = 20%nat -> tcp_to (tcp_of l) = l.
Proof. intros Hl. do 20 (destruct l as [|? l]; [done|]). by destruct l. Qed.

(** The bytes a header was read from. *)
Lemma header_bytes {T} (dec : list Z -> T) (enc : T -> list Z) n ctx off h :
  (forall l, length l = n -> enc (dec l) = l) ->
  ptr_at dec n ctx off = Some h -> take n (drop off (data ctx)) = enc h.
Proof.
  intros He Hp. pose proof (ptr_at_len _ _ _ _ _ Hp) as Hl. rewrite ptr_at_dec in Hp by done.
  injection Hp as <-. rewrite He; [done|]. rewrite length_take, length_drop. lia.
Qed.

(** The IPv4 header the proxy wrote. *)
Lemma ip4_accepted ip : ip4_wf ip ->
  fold (sum32 (words (ip4_to (synack_ip4 ip
    (to_be16 (fold (sum32 (ip4_words (synack_ip4 ip [0; 0]))))))))) = 0.
Proof.
  intros Hwf. set (ck := fold (sum32 (ip4_words _))).
  assert (Forall word (ip4_words (synack_ip4 ip [0; 0]))) as Hw.
  { by apply (synack_ip4_words ip 0 Hwf). }
  pose proof (fold_word _ Hw ltac:(cbn; lia)) as Hck. fold ck in Hck.
  destruct (synack_ip4_words ip ck Hwf Hck) as (W & L & _ & T).
  apply (checksum_of (ip4_words (synack_ip4 ip [0; 0]))); [done|done|cbn; lia|lia|done].
Qed.

(** The TCP header the proxy wrote, after pseudo-header words [ps]. *)
Lemma tcp_accepted tcp cookie ps ph :
  tcp_wf tcp -> fits 32 cookie -> Forall word ps -> (length ps <= 16)%nat ->
  Forall word ph -> (length ph <= 2)%nat -> total ph = PROTO_TCP + 20 ->
  fold (sum32 (ps ++ ph ++ words (tcp_to (synack_tcp tcp cookie
    (to_be16 (fold (sum32 (ps ++ synack_words tcp cookie)))))))) = 0.
Proof.
  intros Hwf Hc Hps Hl Hph Hlh Hth. set (ck := fold (sum32 (ps ++ synack_words tcp cookie))).
  assert (Forall word (ps ++ synack_words tcp cookie)) as Hw.
  { apply Forall_app. split; [done|]. by apply (synack_tcp_words tcp cookie 0). }
  assert (length (ps ++ synack_words tcp cookie) <= 64)%nat as Hlen.
  { rewrite length_app. cbn [synack_words length]. lia. }
  pose proof (fold_word _ Hw Hlen) as Hck. fold ck in Hck.
  destruct (synack_tcp_words tcp cookie ck Hwf Hc Hck) as (W & L & _ & T).
  apply (checksum_of (ps ++ synack_words tcp cookie)); [done| |done| |].
  - rewrite !Forall_app. done.
  - rewrite !length_app, L. lia.
  - unfold total in *. rewrite !foldr_app.
    assert (forall l a, foldr Z.add a l = foldr Z.add 0 l + a) as Hf.
    { intros l. induction l as [|x l IH]; intros a; cbn; [lia|]. rewrite IH. lia. }
    rewrite (Hf ps), (Hf ph), (Hf ps (foldr _ _ (synack_words _ _))). fold ck. lia.
Qed.

Section accepted.
Context `{!BpfKernel, !BpfKernelLaws} (clk : nat -> Z).

(** The headers of the answer carry valid checksums: a receiver that sums the
    20 bytes of its IPv4 header, and its TCP header with the pseudo-header of
    either family, finds zero. *)
Theorem answers_verify f ctx s g ctx' s' :
  pkt_wf ctx -> read_seg f ctx = Some g -> is_syn_only (sg_tcp g) = true ->
  xdp_syn_proxy clk f ctx s = ((XDP_TX, ctx'), s') ->
  match f with
  | V4 =>
      fold (sum32 (words (take 20 (drop 14 (data ctx'))))) = 0 /\
      fold (sum32 ((words (sg_dst g) ++ words (sg_src g)) ++ [PROTO_TCP; 20] ++
                   words (take 20 (drop 34 (data ctx'))))) = 0
  | V6 =>
      fold (sum32 ((words (sg_dst g) ++ words (sg_src g)) ++ [20; PROTO_TCP] ++
                   words (take 20 (drop 54 (data ctx'))))) = 0
  end.
Proof.
  intros Hwf Hg Hs Hrun. rewrite (try_syn_proxy_run clk f ctx s g Hg), Hs in Hrun.
  pose proof (seg_tcp_wf f ctx g Hwf Hg) as Wt.
  assert (fits 32 (cookie_for f (cookie_secrets s).1.1 g)) as Hc by apply cookie_for_fits.
  generalize dependent (cookie_for f (cookie_secrets s).1.1 g). intros cookie Hrun Hc.
  injection Hrun as Hrun _.
  assert (Forall word [PROTO_TCP; 20] /\ Forall word [20; PROTO_TCP]) as [Hp Hp'].
  { rewrite !Forall_cons, Forall_nil. unfold word, fits, PROTO_TCP. lia. }
  destruct f; cbn [tx_synack] in Hrun.
  - destruct (read_seg_v4 _ _ Hg) as (eth & ip & He & Hi & Ht & -> & ->).
    destruct (tx_synack_v4_frame ctx cookie eth ip (sg_tcp g) Hwf He Hi Ht)
      as (c2 & ick & tck & E & -> & -> & _ & Ri & Rt & _).
    rewrite E in Hrun. injection Hrun as ->.
    destruct (ptr_at_bytes _ _ _ _ _ Hwf Hi) as (li & Bli & ->).
    pose proof (ip4_of_wf _ Bli) as Wi. pose proof Wi as (_&_&_&_&_&_&_&_& Hsr & Hds).
    destruct (words4 _ Hsr) as (Es & Ws & Ws'), (words4 _ Hds) as (Ed & Wd & Wd').
    rewrite (header_bytes _ _ _ _ _ _ ip4_to_of Ri : take 20 (drop 14 (data ctx')) = _).
    rewrite (header_bytes _ _ _ _ _ _ tcp_to_of Rt : take 20 (drop 34 (data ctx')) = _).
    split; [by apply ip4_accepted|]. rewrite Ed, Es. apply tcp_accepted; try done.
    + by repeat (apply Forall_cons; split).
    + cbn; lia.
  - destruct (read_seg_v6 _ _ Hg) as (eth & ip & He & Hi & Ht & -> & ->).
    destruct (tx_synack_v6_frame ctx cookie eth ip (sg_tcp g) Hwf He Hi Ht)
      as (c2 & tck & E & -> & _ & Ri & Rt & _).
    rewrite E in Hrun. injection Hrun as ->.
    destruct (ptr_at_bytes _ _ _ _ _ Hwf Hi) as (li & Bli & ->).
    pose proof (ip6_of_wf _ Bli) as (_&_&_&_& Hsr & Hds).
    destruct (words16 _ Hsr) as [Es Ws], (words16 _ Hds) as [Ed Wd].
    rewrite (header_bytes _ _ _ _ _ _ tcp_to_of Rt : take 20 (drop 54 (data ctx')) = _).
    rewrite Ed, Es in *. rewrite sum32_nested by (by apply Forall_app_2 || (cbn; lia)).
    apply tcp_accepted; try done. by apply Forall_app_2.
Qed.
End accepted.
End Checksums.
