(* ===== verification/FwEgress.v ===== *)
(** * What the egress program learns

    The TC program stamps the (address, port, protocol) a server answers from;
    the port filter lets packets to it through.  The file states exactly which
    key one egress packet adds, and that ingress traffic cannot remove it. *)

From S2P Require Import Prelude FwCommon FwCidr FwBpf FwMaps FwNet FwDemo FwDatapath FwLimits.

Section egress.
Context `{!BpfKernel, !BpfKernelLaws} `{!NetTypes} (clk : nat -> Z) (cpu ncpus : nat).

(** The key an egress packet is learned under, if any: the source of a defended
    server's TCP or UDP packet. *)
Definition egress_key (ctx : Ctx) (s : XState) : option (family * PortKey) :=
  eth ← ptr_at eth_of EthHdr_LEN ctx 0;
  match ether_type eth with
  | EtherType_Ipv4 =>
      ip ← ptr_at ip4_of Ipv4Hdr_LEN ctx EthHdr_LEN;
      if in_scope V4 (src_addr4 ip) s && (ihl ip =? Z.of_nat Ipv4Hdr_LEN) then
        o ← egress_service ctx (proto4 ip) (EthHdr_LEN + Ipv4Hdr_LEN);
        svc ← o;
        Some (V4, PortKey_new (src_addr4 ip) (svc_port svc) (svc_proto svc))
      else None
  | EtherType_Ipv6 =>
      ip ← ptr_at ip6_of Ipv6Hdr_LEN ctx EthHdr_LEN;
      if in_scope V6 (src_addr6 ip) s then
        o ← egress_service ctx (next_hdr ip) (EthHdr_LEN + Ipv6Hdr_LEN);
        svc ← o;
        Some (V6, PortKey_new (src_addr6 ip) (svc_port svc) (svc_proto svc))
      else None
  | EtherType_other => None
  end.

(** Learned in [s'], given what was learned in [s]. *)
Definition learns (key : option (family * PortKey)) (s s' : XState) : Prop :=
  (forall f k, key = Some (f, k) -> is_Some (hget k (OPEN_PORTS (x_fam s' f)))) /\
  (forall f k, key <> Some (f, k) -> is_Some (hget k (OPEN_PORTS (x_fam s' f))) ->
     is_Some (hget k (OPEN_PORTS (x_fam s f)))).

Definition ports_eq : relation FamMaps := fun m m' => OPEN_PORTS m' = OPEN_PORTS m.
#[export] Instance ports_eq_preorder : PreOrder ports_eq.
Proof. split; [done|]. intros ??? E1 E2. red. by rewrite E2. Qed.

Lemma tx_part_ports f c len pr icmp :
  keeps (lift_rel ports_eq) (match c with
    | Some c => tx_account cpu f c len pr icmp | None => mret tt end).
Proof. unfold tx_account. destruct c; keeps_tac. Qed.
Lemma tx_counters_ports f a : keeps (lift_rel ports_eq) (tx_counters ncpus f a).
Proof. unfold tx_counters. keeps_tac. Qed.

Lemma learn_port_learns f key s0 s :
  lift_rel ports_eq s0 s -> learns (Some (f, key)) s0 (learn_port clk f key s).2.
Proof.
  intros [Hp _]. unfold learn_port, getm, upd_fam. rewrite bind_run, bind_run. cbn [ktime fst snd gets x_fam].
  assert (forall st, learns (Some (f, key)) s0
    (set_fam f (set_OPEN_PORTS (hput key st (OPEN_PORTS (x_fam s f))) (x_fam s f)) s)) as Hput.
  { intros st. split; intros g k.
    - intros [= <- <-]. cbn. rewrite decide_True by done. cbn. rewrite hget_hput. by eexists.
    - intros Hne. cbn. destruct (decide (f = g)) as [<-|Hf]; cbn.
      + intros [v E]. apply hget_hput_ne in E; [|congruence]. rewrite <- (Hp f). by eexists.
      + by rewrite <- (Hp g). }
  assert (forall st, is_Some (hget key (OPEN_PORTS (x_fam s f))) -> learns (Some (f, key)) s0
    (set_fam f (set_OPEN_PORTS (hset key st (OPEN_PORTS (x_fam s f))) (x_fam s f)) s)) as Hset.
  { intros st Hk. split; intros g k.
    - intros [= <- <-]. cbn. rewrite decide_True by done. cbn. rewrite hget_hset by done. by eexists.
    - intros Hne. cbn. destruct (decide (f = g)) as [<-|Hf]; cbn.
      + rewrite hget_hset_ne by congruence. by rewrite <- (Hp f).
      + by rewrite <- (Hp g). }
  destruct (hget key _) as [v|] eqn:E; [apply (Hset {| last_seen := clk (x_reads s) |})|
    apply (Hput {| last_seen := clk (x_reads s) |})]. by eexists.
Qed.

Lemma learns_none s s' : lift_rel ports_eq s s' -> learns None s s'.
Proof. intros [Hp _]. split; [done|]. intros f k _. by rewrite <- (Hp f). Qed.

(** The scope test of the egress program reads, and changes nothing. *)
Lemma scope_bind {A} f a (k : bool -> ST XState A) s :
  (sc ← scoped; out ← andx sc (negx (protected f a)); k out) s = k (negb (in_scope f a s)) s.
Proof.
  unfold scoped, global_cfg, in_scope. rewrite !bind_run. cbn.
  destruct (scoped_flag _ =? 0); [done|]. cbn -[bool_decide]. done.
Qed.

(** The accounting, then the learning, of one defended source's packet. *)
Lemma account_then_learn f a len pr icmp (svc : option (option EgressService)) s :
  learns (o ← svc; v ← o; Some (f, PortKey_new a (svc_port v) (svc_proto v))) s
    ((c ← tx_counters ncpus f a;
      (match c with Some c => tx_account cpu f c len pr icmp | None => mret tt end);;
      try_opt svc (fun o =>
        match o with
        | Some v => learn_port clk f {| pk_addr := a; pk_port := svc_port v;
                                        pk_proto := svc_proto v |};; mret (Some tt)
        | None => mret (Some tt)
        end)) s).2.
Proof.
  rewrite !bind_run. pose proof (tx_counters_ports f a s) as Hc.
  destruct (tx_counters ncpus f a s) as [c s1]. cbn [fst snd] in *.
  pose proof (tx_part_ports f c len pr icmp s1) as Ha.
  match type of Ha with lift_rel _ _ (snd ?r) => destruct r as [[] s2] end. cbn [fst snd] in *.
  assert (lift_rel ports_eq s s2) as Hs by (etrans; [exact Hc|exact Ha]).
  destruct svc as [[v|]|]; cbn [try_opt mbind option_bind]; [|by apply learns_none..].
  rewrite bind_run. by apply learn_port_learns.
Qed.

Lemma egress_run ctx s : learns (egress_key ctx s) s (tc_lnvps_egress clk cpu ncpus ctx s).2.
Proof.
  unfold tc_lnvps_egress, try_learn, egress_key, try_opt. rewrite bind_run. cbn [snd mret ST_ret].
  destruct (ptr_at eth_of _ ctx 0) as [eth|]; cbn [mbind option_bind]; [|by apply learns_none].
  destruct (ether_type eth); [| |by apply learns_none].
  - unfold learn_ipv4. unfold try_opt at 1.
    destruct (ptr_at ip4_of _ ctx _) as [ip|]; cbn [mbind option_bind]; [|by apply learns_none].
    rewrite scope_bind. destruct (in_scope V4 (src_addr4 ip) s); cbn [negb andb];
      [|by apply learns_none].
    destruct (ihl ip =? _); cbn [negb].
    + apply account_then_learn.
    + pose proof (account_then_learn V4 (src_addr4 ip) (buff_len ctx) (proto4 ip) PROTO_ICMP None s)
        as Hl. cbn [mbind option_bind try_opt] in Hl. unfold mbind, ST_bind in *.
      destruct (tx_counters _ _ _ s) as [c s1].
      by match type of Hl with learns _ _ (snd (let '(_, _) := ?r in _)) => destruct r end.
  - unfold learn_ipv6. unfold try_opt at 1.
    destruct (ptr_at ip6_of _ ctx _) as [ip|]; cbn [mbind option_bind]; [|by apply learns_none].
    rewrite scope_bind. destruct (in_scope V6 (src_addr6 ip) s); cbn [negb];
      [|by apply learns_none].
    apply account_then_learn.
Qed.

Lemma egress_key_l4 ctx s f k :
  egress_key ctx s = Some (f, k) -> pk_proto k = PROTO_TCP \/ pk_proto k = PROTO_UDP.
Proof.
  assert (forall pr off v, egress_service ctx pr off = Some (Some v) ->
    svc_proto v = PROTO_TCP \/ svc_proto v = PROTO_UDP) as Hs.
  { intros pr off v. unfold egress_service. destruct (_ =? PROTO_TCP).
    - destruct (ptr_at _ _ _ _); [|done]. intros [= <-]. by left.
    - destruct (_ =? PROTO_UDP); [|done]. destruct (ptr_at _ _ _ _); [|done].
      intros [= <-]. by right. }
  unfold egress_key. destruct (ptr_at eth_of _ ctx 0) as [eth|]; cbn; [|done].
  destruct (ether_type eth); [| |done].
  - destruct (ptr_at ip4_of _ ctx _) as [ip|]; cbn; [|done]. destruct (_ && _); [|done].
    destruct (egress_service _ _ _) as [[v|]|] eqn:E; cbn; try done. intros [= <- <-].
    by eapply Hs.
  - destruct (ptr_at ip6_of _ ctx _) as [ip|]; cbn; [|done]. destruct (in_scope _ _ _); [|done].
    destruct (egress_service _ _ _) as [[v|]|] eqn:E; cbn; try done. intros [= <- <-].
    by eapply Hs.
Qed.

(** An egress packet is always passed; it makes exactly one port known, the
    source of a defended server's TCP or UDP packet, and no other; a port may
    be forgotten only by the kernel evicting it. *)
Theorem egress_learns_exactly ctx s :
  let '(act, s') := tc_lnvps_egress clk cpu ncpus ctx s in
  act = TC_ACT_OK /\ learns (egress_key ctx s) s s'.
Proof.
  pose proof (egress_run ctx s) as Hl. unfold tc_lnvps_egress in *. rewrite bind_run in *. done.
Qed.

(** A port a server answered from stays open to the world, for as long as
    only ingress packets are processed: whatever they are, the port filter
    lets a later packet to that address, port and protocol through. *)
Theorem answered_port_stays_open (ctx : Ctx) s f k (pkts : list Ctx) meta :
  egress_key ctx s = Some (f, k) ->
  has_port meta = true -> dst_port meta = pk_port k -> proto meta = pk_proto k ->
  let s1 := (tc_lnvps_egress clk cpu ncpus ctx s).2 in
  let s2 := (run_list (xdp_lnvps clk cpu ncpus) pkts s1).2 in
  forall budget, (dest_policy clk f (pk_addr k) meta budget s2).1 = XDP_PASS.
Proof.
  intros Hk Hp Hd Hpr s1 s2 budget.
  assert (forall l s', is_Some (hget k (OPEN_PORTS (x_fam s' f))) ->
    is_Some (hget k (OPEN_PORTS (x_fam (run_list (xdp_lnvps clk cpu ncpus) l s').2 f)))) as Hrun.
  { intros l. induction l as [|c l IH]; intros s' Hs'; [done|]. cbn [run_list].
    rewrite !bind_run. cbn [snd mret ST_ret]. apply IH.
    destruct (xdp_frame clk cpu ncpus c s') as [Hf _].
    destruct (Hf f) as (_ & _ & Hports & _). by apply Hports. }
  apply dest_policy_allowed. unfold port_allowed, is_l4, learned.
  pose proof (egress_run ctx s) as [Hl _].
  assert (k = PortKey_new (pk_addr k) (dst_port meta) (proto meta)) as Ek.
  { destruct k. unfold PortKey_new. cbn in *. by rewrite Hd, Hpr. }
  assert (bool_decide (is_Some (hget (PortKey_new (pk_addr k) (dst_port meta) (proto meta))
    (OPEN_PORTS (x_fam s2 f)))) = true) as ->.
  { apply bool_decide_eq_true. rewrite <- Ek. apply Hrun, Hl, Hk. }
  rewrite Hp, Hpr. destruct (egress_key_l4 _ _ _ _ Hk) as [-> | ->]; done.
Qed.
End egress.

(** ** Fragments *)

(** A non-first fragment (offset 185 * 8) of a UDP datagram the server sends: what
    follows the IP header is the middle of the payload. *)
Definition udp_fragment (hi lo : Z) : Ctx :=
  in_ctx (eth_frame [8; 0]
    ([69; 0; 0; 28; 0; 1; 0; 185; 64; 17; 0; 0] ++ server ++ client ++ [hi; lo; 0; 0; 0; 0; 0; 0])).

(** The egress program does not look at the fragment offset (the ingress program
    does): for a non-first fragment of a UDP datagram it takes two bytes of the
    payload for a source port and opens that port, whichever it is. *)
Theorem fragment_payload_opens_port hi lo :
  let s' := (tc_lnvps_egress demo_clk 0 1 (udp_fragment hi lo) demo_state).2 in
  (exists ip, ptr_at ip4_of Ipv4Hdr_LEN (udp_fragment hi lo) EthHdr_LEN = Some ip /\
     frag_offset ip <> 0) /\
  hget (PortKey_new server (hi * 256 + lo) PROTO_UDP) (OPEN_PORTS (x_fam demo_state V4)) = None /\
  is_Some (hget (PortKey_new server (hi * 256 + lo) PROTO_UDP) (OPEN_PORTS (x_fam s' V4))).
Proof.
  cbv zeta. split; [|split; [done|]].
  - eexists. split; [reflexivity|]. vm_compute. done.
  - pose proof (egress_run demo_clk 0 1 (udp_fragment hi lo) demo_state) as [Hl _].
    apply Hl. cbn. done.
Qed.
