(* ===== verification/FwPublish.v ===== *)
(** * Publishing mitigations: the tracker of transitions and the event ring
    ([lnvps_fw_service/src/publish.rs], [collect_active] of [main.rs], the
    [EventRing] of [api.rs])

    Each tick the active mitigations are diffed against the last tick's; the
    start, flags and stop events go into a bounded ring that the API service
    polls with a cursor. Iterating a [HashMap] visits its entries in some order:
    [IterOrder]. *)

From S2P Require Import Prelude FwCommon FwDetect FwRuntime.

Record MitInput := {
  mi_cidr : string; mi_flags : Z; mi_pps : Z; mi_bps : Z; mi_syn_pps : Z
}.
Inductive EventKind := EvStart | EvFlags | EvStop.
#[export] Instance EventKind_eq_dec : EqDecision EventKind.
Proof. solve_decision. Defined.
Record PendingEvent := {
  pe_kind : EventKind; pe_cidr : string; pe_flags : Z;
  pe_pps : Z; pe_bps : Z; pe_syn_pps : Z
}.
(** The live rates and the GeoIP fields are the default's. *)
Record Mitigation := {
  m_cidr : string; m_flags : Z; m_since_unix : Z; m_manual : bool;
  m_peak_pps : Z; m_peak_bps : Z; m_peak_syn_pps : Z
}.

(** ** The tracker *)

Record MitTracker := {
  prev_flags : gmap string Z;
  since : gmap string Z;
  peaks : gmap string (Z * Z * Z)
}.
Definition MitTracker_default : MitTracker :=
  {| prev_flags := ∅; since := ∅; peaks := ∅ |}.

Class IterOrder := iter_order : gmap string Z -> list (string * Z).
Class IterOrderLaws `{!IterOrder} := iter_order_perm m : iter_order m ≡ₚ map_to_list m.

Definition event_of (kind : EventKind) (m : MitInput) : PendingEvent :=
  {| pe_kind := kind; pe_cidr := mi_cidr m; pe_flags := mi_flags m;
     pe_pps := mi_pps m; pe_bps := mi_bps m; pe_syn_pps := mi_syn_pps m |}.

(** The locals of [step]: [since], [peak] and the vectors being filled. *)
Record StepAcc := {
  sa_cur : gmap string Z;
  sa_since : gmap string Z;
  sa_peaks : gmap string (Z * Z * Z);
  sa_active : list Mitigation;
  sa_events : list PendingEvent
}.

(** One active mitigation of this tick. *)
Definition step_one (prev : gmap string Z) (now_unix : Z) (a : StepAcc) (m : MitInput) : StepAcc :=
  let ev := match prev !! mi_cidr m with
    | None => [event_of EvStart m]
    | Some pf => if pf =? mi_flags m then [] else [event_of EvFlags m]
    end in
  let since' := match prev !! mi_cidr m with
    | None => <[mi_cidr m := now_unix]> (sa_since a)
    | Some _ => sa_since a
    end in
  {| sa_cur := <[mi_cidr m := mi_flags m]> (sa_cur a);
     sa_since := since';
     sa_peaks := <[mi_cidr m := (mi_pps m, mi_bps m, mi_syn_pps m)]> (sa_peaks a);
     sa_active := sa_active a ++
       [{| m_cidr := mi_cidr m; m_flags := mi_flags m;
           m_since_unix := default now_unix (since' !! mi_cidr m); m_manual := false;
           m_peak_pps := mi_pps m; m_peak_bps := mi_bps m; m_peak_syn_pps := mi_syn_pps m |}];
     sa_events := sa_events a ++ ev |}.

(** One mitigation of the last tick. *)
Definition stop_one (a : StepAcc) (p : string * Z) : StepAcc :=
  match sa_cur a !! p.1 with
  | Some _ => a
  | None =>
      let '(pps, bps, syn_pps) := default (0, 0, 0) (sa_peaks a !! p.1) in
      {| sa_cur := sa_cur a;
         sa_since := delete p.1 (sa_since a);
         sa_peaks := delete p.1 (sa_peaks a);
         sa_active := sa_active a;
         sa_events := sa_events a ++
           [{| pe_kind := EvStop; pe_cidr := p.1; pe_flags := p.2;
               pe_pps := pps; pe_bps := bps; pe_syn_pps := syn_pps |}] |}
  end.

Definition MitTracker_step `{!IterOrder} (t : MitTracker) (cur : list MitInput) (now_unix : Z)
  : MitTracker * list Mitigation * list PendingEvent :=
  let a := foldl (step_one (prev_flags t) now_unix)
    {| sa_cur := ∅; sa_since := since t; sa_peaks := peaks t; sa_active := []; sa_events := [] |} cur in
  let a := foldl stop_one a (iter_order (prev_flags t)) in
  ({| prev_flags := sa_cur a; since := sa_since a; peaks := sa_peaks a |},
   sa_active a, sa_events a).

(** ** The event ring *)

Record Event := { ev_seq : Z; ev_ts_unix : Z; ev_body : PendingEvent }.
Record EventRing := { er_buf : list Event; er_next_seq : Z; er_cap : nat }.

Definition EventRing_new (cap : nat) : EventRing :=
  {| er_buf := []; er_next_seq := 1; er_cap := Nat.max cap 1 |}.
Fixpoint pop_to (cap : nat) (buf : list Event) : list Event :=
  match buf with
  | [] => []
  | _ :: buf' => if (cap <? length buf)%nat then pop_to cap buf' else buf
  end.
Definition EventRing_push (now_unix : Z) (e : PendingEvent) (r : EventRing) : EventRing :=
  let ev := {| ev_seq := er_next_seq r; ev_ts_unix := now_unix; ev_body := e |} in
  {| er_buf := pop_to (er_cap r) (er_buf r ++ [ev]);
     er_next_seq := wadd 64 (er_next_seq r) 1;
     er_cap := er_cap r |}.
Definition EventRing_since (cursor : Z) (r : EventRing) : list Event * Z :=
  (filter (fun e => cursor < ev_seq e) (er_buf r),
   Z.max (wsub 64 (er_next_seq r) 1) cursor).

(** The control loop records a tick's events one by one; [ts i] is the clock
    when the [i]-th is pushed. *)
Fixpoint record_events (ts : nat -> Z) (evs : list PendingEvent) (r : EventRing) : EventRing :=
  match evs with
  | [] => r
  | e :: evs => record_events (fun i => ts (S i)) evs (EventRing_push (ts 0%nat) e r)
  end.

(** The control loop's part of the shared state, and one tick of it. *)
Record Publisher := { p_tracker : MitTracker; p_ring : EventRing }.
Record Tick := { tk_cur : list MitInput; tk_now : Z; tk_ts : nat -> Z }.
Definition publish_tick `{!IterOrder} (p : Publisher) (tk : Tick) : Publisher * list PendingEvent :=
  let '(t, _, evs) := MitTracker_step (p_tracker p) (tk_cur tk) (tk_now tk) in
  ({| p_tracker := t; p_ring := record_events (tk_ts tk) evs (p_ring p) |}, evs).
Fixpoint publish_run `{!IterOrder} (p : Publisher) (tks : list Tick) : Publisher * list PendingEvent :=
  match tks with
  | [] => (p, [])
  | tk :: tks =>
      let '(p, evs) := publish_tick p tk in
      let '(p, evs') := publish_run p tks in (p, evs ++ evs')
  end.

(** ** What the log says is active

    A reader of the log keeps a table of its own. *)
Definition replay_one (active : gmap string Z) (e : PendingEvent) : gmap string Z :=
  match pe_kind e with
  | EvStart | EvFlags => <[pe_cidr e := pe_flags e]> active
  | EvStop => delete (pe_cidr e) active
  end.
Definition replay (active : gmap string Z) (log : list PendingEvent) : gmap string Z :=
  foldl replay_one active log.

(** Every episode of a network is a start, flags changes, and a stop: the
    event may follow when this set of networks is active. *)
Definition admissible (active : gmap string Z) (e : PendingEvent) : Prop :=
  match pe_kind e with
  | EvStart => active !! pe_cidr e = None
  | EvFlags => exists f, active !! pe_cidr e = Some f /\ f <> pe_flags e
  | EvStop => active !! pe_cidr e = Some (pe_flags e)
  end.
Fixpoint bracketed (active : gmap string Z) (log : list PendingEvent) : Prop :=
  match log with
  | [] => True
  | e :: log => admissible active e /\ bracketed (replay_one active e) log
  end.

Lemma bracketed_app active l1 l2 :
  bracketed active (l1 ++ l2) <-> bracketed active l1 /\ bracketed (replay active l1) l2.
Proof.
  revert active. induction l1 as [|e l1 IH]; intros active; cbn; [tauto|].
  rewrite IH. tauto.
Qed.

(** What the input says is active. *)
Definition flags_of (cur : list MitInput) : gmap string Z :=
  list_to_map ((fun m => (mi_cidr m, mi_flags m)) <$> cur).

(** ** One tick of the tracker *)
Section tracker.
Context `{!IterOrder, !IterOrderLaws}.
Implicit Types (prev active : gmap string Z) (cur : list MitInput).

Lemma replay_app active l1 l2 : replay active (l1 ++ l2) = replay (replay active l1) l2.
Proof. apply foldl_app. Qed.

(** While the current mitigations are visited, the reader's table is the
    current flags over the previous ones. *)
Definition log_inv prev (rest : gmap string Z) (a : StepAcc) : Prop :=
  bracketed prev (sa_events a) /\ replay prev (sa_events a) = sa_cur a ∪ rest.

Lemma log_inv_push prev rest (rest' : gmap string Z) a e (cur' : gmap string Z) events' :
  log_inv prev rest a -> events' = sa_events a ++ [e] ->
  admissible (sa_cur a ∪ rest) e -> replay_one (sa_cur a ∪ rest) e = cur' ∪ rest' ->
  bracketed prev events' /\ replay prev events' = cur' ∪ rest'.
Proof.
  intros [Hb Hr] -> Ha He. rewrite bracketed_app, replay_app, Hr. cbn. by rewrite He.
Qed.

Lemma step_one_inv prev now a m :
  sa_cur a !! mi_cidr m = None -> log_inv prev prev a -> log_inv prev prev (step_one prev now a m).
Proof.
  intros Hn Hi. unfold log_inv, step_one. cbn [sa_events sa_cur].
  destruct (prev !! mi_cidr m) as [pf|] eqn:Ep.
  - destruct (Z.eqb_spec pf (mi_flags m)) as [->|Hne].
    + destruct Hi as [Hb Hr]. rewrite app_nil_r. split; [done|]. rewrite Hr.
      rewrite <- insert_union_l. symmetry. apply insert_id. by rewrite lookup_union_r.
    + eapply log_inv_push; [done|done| |apply insert_union_l].
      exists pf. by rewrite lookup_union_r.
  - eapply log_inv_push; [done|done| |apply insert_union_l].
    cbn. by rewrite lookup_union_r.
Qed.

Lemma steps_inv prev now cur a :
  NoDup (mi_cidr <$> cur) -> (forall m, m ∈ cur -> sa_cur a !! mi_cidr m = None) ->
  log_inv prev prev a -> log_inv prev prev (foldl (step_one prev now) a cur).
Proof.
  revert a. induction cur as [|m cur IH]; intros a Hnd Hdis Hi; cbn [foldl]; [done|].
  rewrite fmap_cons, NoDup_cons in Hnd. destruct Hnd as [Hm Hnd]. apply IH; [done| |].
  - intros m' Hm'. cbn. rewrite lookup_insert_ne; [apply Hdis; by right|].
    intros E. apply Hm. rewrite E. by apply list_elem_of_fmap_2.
  - apply step_one_inv; [apply Hdis; by left|done].
Qed.

Lemma stop_one_inv prev p (rest : gmap string Z) a :
  rest !! p.1 = None -> log_inv prev (<[p.1 := p.2]> rest) a -> log_inv prev rest (stop_one a p).
Proof.
  intros Hp Hi. unfold stop_one. destruct (sa_cur a !! p.1) as [f|] eqn:Ec.
  - destruct Hi as [Hb Hr]. split; [done|]. rewrite Hr. apply map_eq. intros c.
    destruct (decide (c = p.1)) as [->|Hc].
    + by rewrite !lookup_union, Ec, Hp, lookup_insert_eq.
    + by rewrite !lookup_union, lookup_insert_ne.
  - destruct (default _ _) as [[pps bps] syn]. eapply log_inv_push; [done|done| |].
    + cbn. by rewrite lookup_union_r, lookup_insert_eq.
    + cbn. rewrite delete_union, delete_insert_eq, !delete_id; done.
Qed.

Lemma stop_one_cur a p : sa_cur (stop_one a p) = sa_cur a.
Proof.
  unfold stop_one. destruct (sa_cur a !! p.1); [done|]. by destruct (default _ _) as [[? ?] ?].
Qed.
Lemma stops_cur l a : sa_cur (foldl stop_one a l) = sa_cur a.
Proof. revert a. induction l as [|p l IH]; intros a; cbn; [done|]. by rewrite IH, stop_one_cur. Qed.

Lemma stops_inv prev l a :
  NoDup l.*1 -> log_inv prev (list_to_map l) a -> log_inv prev ∅ (foldl stop_one a l).
Proof.
  revert a. induction l as [|p l IH]; intros a Hnd Hi; cbn [foldl]; [done|].
  rewrite fmap_cons, NoDup_cons in Hnd. destruct Hnd as [Hp Hnd]. apply IH; [done|].
  apply stop_one_inv; [by apply not_elem_of_list_to_map_1|].
  destruct p as [c f]. exact Hi.
Qed.

Lemma order_prev prev :
  NoDup (iter_order prev).*1 /\ list_to_map (iter_order prev) = prev.
Proof.
  pose proof (iter_order_perm prev) as Hp.
  assert (NoDup (iter_order prev).*1) as Hnd.
  { rewrite Hp. apply NoDup_fst_map_to_list. }
  split; [done|]. rewrite <- (list_to_map_to_list prev) at 2. by apply list_to_map_proper.
Qed.

Lemma steps_cur prev now cur a :
  sa_cur (foldl (step_one prev now) a cur) =
  foldl (fun fs m => <[mi_cidr m := mi_flags m]> fs) (sa_cur a) cur.
Proof. revert a. induction cur as [|m cur IH]; intros a; cbn; [done|]. by rewrite IH. Qed.

Lemma fold_flags_of cur active :
  NoDup (mi_cidr <$> cur) ->
  foldl (fun fs m => <[mi_cidr m := mi_flags m]> fs) active cur = flags_of cur ∪ active.
Proof.
  unfold flags_of. revert active. induction cur as [|m cur IH]; intros active; cbn.
  { by rewrite (left_id_L ∅ _). }
  rewrite NoDup_cons. intros [Hm Hnd]. rewrite IH by done.
  rewrite <- insert_union_r, insert_union_l; [done|].
  apply not_elem_of_list_to_map_1. rewrite <- list_fmap_compose. exact Hm.
Qed.

Lemma tick_log t cur now t' snap evs :
  NoDup (mi_cidr <$> cur) -> MitTracker_step t cur now = (t', snap, evs) ->
  prev_flags t' = flags_of cur /\ bracketed (prev_flags t) evs /\
  replay (prev_flags t) evs = flags_of cur.
Proof.
  intros Hnd. unfold MitTracker_step.
  set (a0 := {| sa_cur := ∅ |}). set (a1 := foldl (step_one _ _) _ _). intros [= <- _ <-].
  destruct (order_prev (prev_flags t)) as [Hnd' Hord].
  assert (log_inv (prev_flags t) (prev_flags t) a1) as H1.
  { apply steps_inv; [done|done|]. split; [done|]. cbn. by rewrite (left_id_L ∅ _). }
  assert (sa_cur a1 = flags_of cur) as Hc.
  { unfold a1. rewrite steps_cur, fold_flags_of by done. apply (right_id_L ∅ _). }
  rewrite <- Hord in H1 at 2.
  destruct (stops_inv (prev_flags t) (iter_order (prev_flags t)) a1 Hnd' H1) as [Hb Hr].
  rewrite stops_cur, Hc in Hr. rewrite (right_id_L ∅ _) in Hr.
  cbn [prev_flags]. by rewrite stops_cur, Hc.
Qed.
End tracker.

(** ** Episodes: since when, and with which rates *)
Section episodes.
Context `{!IterOrder, !IterOrderLaws}.
Implicit Types (prev : gmap string Z) (cur : list MitInput) (a : StepAcc).

Definition rates (m : MitInput) : Z * Z * Z := (mi_pps m, mi_bps m, mi_syn_pps m).
Definition rates_of cur : gmap string (Z * Z * Z) :=
  list_to_map ((fun m => (mi_cidr m, rates m)) <$> cur).

(** The three tables hold the same networks. *)
Definition tracker_wf (t : MitTracker) : Prop :=
  forall c, (is_Some (since t !! c) <-> is_Some (prev_flags t !! c)) /\
            (is_Some (peaks t !! c) <-> is_Some (prev_flags t !! c)).

(** When the episode of a network active now began. *)
Definition began (t : MitTracker) (now : Z) (c : string) : Z := default now (since t !! c).
Definition snapshot_of (t : MitTracker) (now : Z) (m : MitInput) : Mitigation :=
  {| m_cidr := mi_cidr m; m_flags := mi_flags m; m_since_unix := began t now (mi_cidr m);
     m_manual := false; m_peak_pps := mi_pps m; m_peak_bps := mi_bps m;
     m_peak_syn_pps := mi_syn_pps m |}.

Lemma steps_since prev now cur a c :
  sa_since (foldl (step_one prev now) a cur) !! c =
  match prev !! c with
  | None => if decide (c ∈ mi_cidr <$> cur) then Some now else sa_since a !! c
  | Some _ => sa_since a !! c
  end.
Proof.
  revert a. induction cur as [|m cur IH]; intros a; cbn [foldl].
  { destruct (prev !! c); [done|]. by rewrite decide_False by (apply not_elem_of_nil). }
  rewrite IH. unfold step_one. cbn [sa_since]. rewrite fmap_cons.
  destruct (decide (mi_cidr m = c)) as [->|Hne].
  - destruct (prev !! c); [done|]. rewrite (decide_True (P := c ∈ c :: _)) by left.
    destruct (decide _); [done|]. apply lookup_insert_eq.
  - destruct (prev !! mi_cidr m), (prev !! c); rewrite ?lookup_insert_ne by done; try done.
    all: destruct (decide (c ∈ mi_cidr <$> cur)) as [Hc|Hc];
      [rewrite decide_True; [done|by right]|rewrite decide_False; [done|]].
    all: by rewrite elem_of_cons; intros [->|?].
Qed.

Lemma steps_peaks prev now cur a :
  sa_peaks (foldl (step_one prev now) a cur) =
  foldl (fun ps m => <[mi_cidr m := rates m]> ps) (sa_peaks a) cur.
Proof. revert a. induction cur as [|m cur IH]; intros a; cbn; [done|]. by rewrite IH. Qed.

Lemma steps_active prev now cur t a :
  (forall c, prev !! c = None -> since t !! c = None) ->
  (forall c, is_Some (prev !! c) -> sa_since a !! c = since t !! c) ->
  sa_active (foldl (step_one prev now) a cur) = sa_active a ++ (snapshot_of t now <$> cur).
Proof.
  intros Hnone. revert a. induction cur as [|m cur IH]; intros a Hs; cbn [foldl].
  { by rewrite app_nil_r. }
  rewrite IH; unfold step_one; cbn [sa_active sa_since].
  - rewrite <- app_assoc. f_equal. rewrite fmap_cons. cbn. f_equal. unfold snapshot_of, began.
    f_equal. destruct (prev !! mi_cidr m) as [pf|] eqn:Ep.
    + by rewrite Hs.
    + by rewrite lookup_insert_eq, Hnone.
  - intros c Hc. destruct (prev !! mi_cidr m) eqn:Ep; [by apply Hs|].
    rewrite lookup_insert_ne; [by apply Hs|]. intros <-. rewrite Ep in Hc. by destruct Hc.
Qed.

Lemma stops_active l a : sa_active (foldl stop_one a l) = sa_active a.
Proof.
  revert a. induction l as [|p l IH]; intros a; cbn; [done|]. rewrite IH. unfold stop_one.
  destruct (sa_cur a !! p.1); [done|]. by destruct (default _ _) as [[? ?] ?].
Qed.

(** What the second loop leaves of a table it deletes from. *)
Lemma stop_one_tables a p c :
  let gone := bool_decide (c = p.1 /\ sa_cur a !! c = None) in
  sa_since (stop_one a p) !! c = (if gone then None else sa_since a !! c) /\
  sa_peaks (stop_one a p) !! c = (if gone then None else sa_peaks a !! c).
Proof.
  intros gone. unfold gone, stop_one. case_bool_decide as Hc.
  - destruct Hc as [-> ->]. destruct (default _ _) as [[? ?] ?]. cbn.
    by rewrite !lookup_delete_eq.
  - destruct (sa_cur a !! p.1) eqn:Ec; [done|]. destruct (default _ _) as [[? ?] ?]. cbn.
    rewrite !lookup_delete_ne; [done| |]; intros <-; by apply Hc.
Qed.

Lemma stops_tables l a c :
  let gone := bool_decide (c ∈ l.*1 /\ sa_cur a !! c = None) in
  sa_since (foldl stop_one a l) !! c = (if gone then None else sa_since a !! c) /\
  sa_peaks (foldl stop_one a l) !! c = (if gone then None else sa_peaks a !! c).
Proof.
  intros gone. unfold gone. clear gone. revert a. induction l as [|p l IH]; intros a; cbn [foldl].
  { rewrite bool_decide_eq_false_2; [done|]. by intros [?%not_elem_of_nil _]. }
  destruct (IH (stop_one a p)) as [-> ->]. destruct (stop_one_tables a p c) as [-> ->].
  rewrite stop_one_cur, fmap_cons.
  destruct (sa_cur a !! c) as [f|] eqn:Ec.
  { rewrite !(bool_decide_eq_false_2 (_ /\ _)); [done| | |]; by intros [_ ?]. }
  clear IH. repeat case_bool_decide; try done; exfalso; rewrite ?elem_of_cons in *; tauto.
Qed.

(** The stop events of the second loop. *)
Lemma stops_events l a e : NoDup l.*1 -> e ∈ sa_events (foldl stop_one a l) ->
  e ∈ sa_events a \/
  (sa_cur a !! pe_cidr e = None /\ pe_cidr e ∈ l.*1 /\
   (pe_pps e, pe_bps e, pe_syn_pps e) = default (0, 0, 0) (sa_peaks a !! pe_cidr e)).
Proof.
  revert a. induction l as [|p l IH]; intros a Hnd; cbn [foldl]; [by left|].
  rewrite fmap_cons, NoDup_cons in Hnd. destruct Hnd as [Hp Hnd].
  intros [He|(Hc & Hin & Hr)]%IH; [| |done].
  - revert He. unfold stop_one. destruct (sa_cur a !! p.1) eqn:Ec; [by left|].
    destruct (default (0, 0, 0) (sa_peaks a !! p.1)) as [[pps bps] syn] eqn:Ed. cbn [sa_events].
    rewrite elem_of_app, list_elem_of_singleton. intros [?| ->]; [by left|right].
    cbn. split_and!; [done|by left|done].
  - right. rewrite stop_one_cur in Hc. split_and!; [done|by right|].
    rewrite Hr. destruct (stop_one_tables a p (pe_cidr e)) as [_ ->].
    rewrite bool_decide_eq_false_2; [done|]. intros [E _]. by rewrite E in Hin.
Qed.

Lemma fold_rates_of cur ps : NoDup (mi_cidr <$> cur) ->
  foldl (fun ps m => <[mi_cidr m := rates m]> ps) ps cur = rates_of cur ∪ ps.
Proof.
  unfold rates_of. revert ps. induction cur as [|m cur IH]; intros ps; cbn.
  { by rewrite (left_id_L ∅ _). }
  rewrite NoDup_cons. intros [Hm Hnd]. rewrite IH by done.
  rewrite <- insert_union_r, insert_union_l; [done|].
  apply not_elem_of_list_to_map_1. rewrite <- list_fmap_compose. exact Hm.
Qed.

Lemma flags_of_Some cur c : is_Some (flags_of cur !! c) <-> c ∈ mi_cidr <$> cur.
Proof.
  unfold flags_of. rewrite <- not_eq_None_Some, <- not_elem_of_list_to_map.
  rewrite <- list_fmap_compose. split; [|tauto]. intros Hn.
  destruct (decide (c ∈ mi_cidr <$> cur)); [done|]. tauto.
Qed.
Lemma rates_of_Some cur c : is_Some (rates_of cur !! c) <-> c ∈ mi_cidr <$> cur.
Proof.
  unfold rates_of. rewrite <- not_eq_None_Some, <- not_elem_of_list_to_map.
  rewrite <- list_fmap_compose. split; [|tauto]. intros Hn.
  destruct (decide (c ∈ mi_cidr <$> cur)); [done|]. tauto.
Qed.
End episodes.

Section ticks.
Context `{!IterOrder, !IterOrderLaws}.
Implicit Types (cur : list MitInput) (t : MitTracker).

Lemma steps_events prev now cur a e :
  e ∈ sa_events (foldl (step_one prev now) a cur) -> e ∈ sa_events a \/ pe_kind e <> EvStop.
Proof.
  revert a. induction cur as [|m cur IH]; intros a; cbn [foldl]; [by left|].
  intros [He|]%IH; [|by right]. revert He. unfold step_one. cbn [sa_events].
  rewrite elem_of_app. intros [?|He]; [by left|right].
  destruct (prev !! mi_cidr m) as [pf|]; [destruct (pf =? mi_flags m)|];
    [by apply not_elem_of_nil in He| |];
    apply list_elem_of_singleton in He; by rewrite He.
Qed.

Lemma order_dom (prev : gmap string Z) c : c ∈ (iter_order prev).*1 <-> is_Some (prev !! c).
Proof.
  destruct (order_prev prev) as [Hnd Hm]. rewrite <- Hm at 2.
  rewrite <- not_eq_None_Some, <- not_elem_of_list_to_map.
  destruct (decide (c ∈ (iter_order prev).*1)); tauto.
Qed.

Lemma tick_tables t cur now t' snap evs :
  tracker_wf t -> NoDup (mi_cidr <$> cur) -> MitTracker_step t cur now = (t', snap, evs) ->
  snap = snapshot_of t now <$> cur /\
  (forall c, since t' !! c =
    if decide (c ∈ mi_cidr <$> cur) then Some (began t now c) else None) /\
  peaks t' = rates_of cur /\
  (forall e, e ∈ evs -> pe_kind e = EvStop ->
    peaks t !! pe_cidr e = Some (pe_pps e, pe_bps e, pe_syn_pps e)).
Proof.
  intros Hwf Hnd Hstep. destruct (tick_log _ _ _ _ _ _ Hnd Hstep) as [Hcur _].
  revert Hstep Hcur. unfold MitTracker_step.
  set (a0 := {| sa_cur := ∅ |}). set (a1 := foldl (step_one _ _) _ _). intros [= <- <- <-].
  cbn [prev_flags since peaks]. rewrite stops_cur. intros Hcur.
  destruct (order_prev (prev_flags t)) as [Hnd' _].
  assert (forall c, sa_cur a1 !! c = None <-> c ∉ mi_cidr <$> cur) as Hin.
  { intros c. rewrite Hcur, <- flags_of_Some, <- not_eq_None_Some.
    destruct (flags_of cur !! c); naive_solver. }
  assert (sa_peaks a1 = rates_of cur ∪ peaks t) as Hpk.
  { unfold a1. by rewrite steps_peaks, fold_rates_of. }
  assert (forall c, c ∈ (iter_order (prev_flags t)).*1 <-> is_Some (peaks t !! c)) as Hord.
  { intros c. rewrite order_dom. symmetry. apply Hwf. }
  split_and!.
  - rewrite stops_active. unfold a1. rewrite (steps_active _ _ _ t); [done| |done].
    intros c Hc. apply eq_None_not_Some. intros Hs%Hwf. rewrite Hc in Hs. by destruct Hs.
  - intros c. rewrite (proj1 (stops_tables _ _ _)).
    rewrite (steps_since (prev_flags t) now cur a0 c : sa_since a1 !! c = _).
    unfold began. pose proof (proj1 (Hwf c)) as Hsc. pose proof (order_dom (prev_flags t) c) as Hoc.
    destruct (decide (c ∈ mi_cidr <$> cur)) as [Hc|Hc].
    + rewrite bool_decide_eq_false_2 by (rewrite Hin; tauto).
      destruct (prev_flags t !! c) as [f|] eqn:Ep; [|].
      * cbn [sa_since a0]. by destruct (proj2 Hsc ltac:(done)) as [s ->].
      * destruct (since t !! c); [|done]. by destruct (proj1 Hsc ltac:(done)).
    + destruct (prev_flags t !! c) as [f|] eqn:Ep.
      * by rewrite bool_decide_eq_true_2 by (rewrite Hin, Hoc; done).
      * case_bool_decide; [done|]. cbn [sa_since a0].
        destruct (since t !! c); [|done]. by destruct (proj1 Hsc ltac:(done)).
  - apply map_eq. intros c. rewrite (proj2 (stops_tables _ _ _)), Hpk, lookup_union.
    case_bool_decide as Hg.
    + destruct Hg as [_ Hc%Hin]. symmetry. apply eq_None_not_Some. by rewrite rates_of_Some.
    + destruct (rates_of cur !! c) eqn:Er; [by destruct (peaks t !! c)|].
      destruct (peaks t !! c) eqn:Ep; [|done]. exfalso. apply Hg.
      rewrite Hord, Ep, Hin, <- rates_of_Some, Er. split; [done|by intros []].
  - intros e He Hk. apply stops_events in He as [He|(Hc & Ho & Hr)]; [| |done].
    { apply steps_events in He as [He|]; [|done]. by apply not_elem_of_nil in He. }
    rewrite Hord in Ho. destruct Ho as [p Hp].
    rewrite Hr, Hpk, lookup_union, Hp.
    replace (rates_of cur !! pe_cidr e) with (None : option (Z * Z * Z)); [done|].
    symmetry. apply eq_None_not_Some. rewrite rates_of_Some. by apply Hin.
Qed.

Lemma tick_wf t cur now t' snap evs :
  tracker_wf t -> NoDup (mi_cidr <$> cur) -> MitTracker_step t cur now = (t', snap, evs) ->
  tracker_wf t'.
Proof.
  intros Hwf Hnd Hstep c. destruct (tick_log _ _ _ _ _ _ Hnd Hstep) as [-> _].
  destruct (tick_tables _ _ _ _ _ _ Hwf Hnd Hstep) as (_ & -> & -> & _).
  rewrite flags_of_Some, rates_of_Some. split; [|done].
  destruct (decide (c ∈ mi_cidr <$> cur)); split; try done; by intros [].
Qed.

Lemma tracker_wf_default : tracker_wf MitTracker_default.
Proof. intros c. cbn. by rewrite !lookup_empty. Qed.
End ticks.

(** A tick keeps the three tables in step, reports every active network with
    the time its episode began (kept while it lasts, now for a new one), and a
    stop event carries the rates the network was last active with, never
    zeros. *)
Theorem episodes_are_tracked `{!IterOrder, !IterOrderLaws} t cur now t' snap evs
    (Hwf : tracker_wf t) (Hnd : NoDup (mi_cidr <$> cur))
    (Hstep : MitTracker_step t cur now = (t', snap, evs)) :
  tracker_wf t' /\
  snap = snapshot_of t now <$> cur /\
  (forall c, since t' !! c =
    if decide (c ∈ mi_cidr <$> cur) then Some (began t now c) else None) /\
  peaks t' = rates_of cur /\
  (forall e, e ∈ evs -> pe_kind e = EvStop ->
    peaks t !! pe_cidr e = Some (pe_pps e, pe_bps e, pe_syn_pps e)).
Proof. split; [by eapply tick_wf|by eapply tick_tables]. Qed.

(** ** The ring holds the end of the log *)
Section ring.
Implicit Types (log l : list Event) (r : EventRing).

(** Numbered from [n + 1] on. *)
Definition numbered (n : Z) l : Prop := forall i e, l !! i = Some e -> ev_seq e = n + Z.of_nat i + 1.
(** [log] is every event ever pushed. *)
Record ring_holds log r : Prop := {
  rh_seq : numbered 0 log;
  rh_next : er_next_seq r = Z.of_nat (length log) + 1;
  rh_u64 : Z.of_nat (length log) + 1 < 2 ^ 64;
  rh_buf : er_buf r = drop (length log - er_cap r) log
}.

Lemma pop_to_drop cap l : pop_to cap l = drop (length l - cap) l.
Proof.
  induction l as [|e l IH]; cbn [pop_to]; [by rewrite drop_nil|].
  destruct (Nat.ltb_spec cap (length (e :: l))) as [Hlt|Hge].
  - rewrite IH. cbn [length] in *. by replace (S (length l) - cap)%nat with (S (length l - cap)) by lia.
  - by replace (length (e :: l) - cap)%nat with 0%nat by lia.
Qed.

Lemma numbered_snoc n l e :
  numbered n l -> ev_seq e = n + Z.of_nat (length l) + 1 -> numbered n (l ++ [e]).
Proof.
  intros Hl He i e'. destruct (Nat.lt_ge_cases i (length l)) as [Hi|Hi].
  - rewrite lookup_app_l by done. apply Hl.
  - rewrite lookup_app_r by done. intros Hs.
    apply list_lookup_singleton_Some in Hs as [Hz <-]. rewrite He. lia.
Qed.

Lemma filter_numbered n k l : numbered n l ->
  filter (fun e => k < ev_seq e) l = drop (Z.to_nat (k - n)) l.
Proof.
  revert n. induction l as [|e l IH]; intros n Hl; [by rewrite drop_nil|].
  assert (numbered (n + 1) l) as Hl'.
  { intros i e' Hi. rewrite (Hl (S i) e' Hi). lia. }
  pose proof (Hl 0%nat e eq_refl) as He. rewrite filter_cons, (IH (n + 1) Hl').
  destruct (decide (k < ev_seq e)) as [Hd|Hd].
  - replace (Z.to_nat (k - n)) with 0%nat by lia.
    by replace (Z.to_nat (k - (n + 1))) with 0%nat by lia.
  - by replace (Z.to_nat (k - n)) with (S (Z.to_nat (k - (n + 1)))) by lia.
Qed.

Lemma ring_push log r ts e : ring_holds log r -> Z.of_nat (length log) + 2 < 2 ^ 64 ->
  exists ev, ev_body ev = e /\ er_cap (EventRing_push ts e r) = er_cap r /\ ring_holds (log ++ [ev]) (EventRing_push ts e r).
Proof.
  intros [Hs Hn Hu Hb] Hlt.
  exists {| ev_seq := er_next_seq r; ev_ts_unix := ts; ev_body := e |}. split_and!; [done|done|].
  split; cbn [EventRing_push er_next_seq er_buf er_cap].
  - apply numbered_snoc; [done|]. cbn. lia.
  - rewrite wadd_small by lia. rewrite length_app. cbn. lia.
  - rewrite length_app. cbn. lia.
  - rewrite pop_to_drop, Hb, !length_app, length_drop. cbn [length].
    rewrite <- (drop_app_le log) by lia. rewrite drop_drop. f_equal. lia.
Qed.

Lemma ring_records evs log r ts :
  ring_holds log r -> Z.of_nat (length log) + Z.of_nat (length evs) + 1 < 2 ^ 64 ->
  exists log', ev_body <$> log' = evs /\ er_cap (record_events ts evs r) = er_cap r /\ ring_holds (log ++ log') (record_events ts evs r).
Proof.
  revert log r ts. induction evs as [|e evs IH]; intros log r ts Hr Hu; cbn [record_events].
  { exists []. by rewrite app_nil_r. }
  cbn [length] in Hu. destruct (ring_push log r (ts 0%nat) e Hr) as (ev & <- & Hc & Hr'); [lia|].
  destruct (IH _ _ (fun i => ts (S i)) Hr') as (log' & <- & Hc' & Hr'').
  { rewrite length_app. cbn. lia. }
  exists (ev :: log'). split_and!; [done|by rewrite Hc'|]. by rewrite <- app_assoc in Hr''.
Qed.

Lemma ring_since log r k : ring_holds log r -> (k <= length log)%nat ->
  (length log - er_cap r <= k)%nat ->
  EventRing_since (Z.of_nat k) r = (drop k log, Z.of_nat (length log)).
Proof.
  intros [Hs Hn Hu Hb] Hk Hc. unfold EventRing_since. rewrite Hn, Hb.
  rewrite wsub_small by lia. f_equal; [|lia].
  rewrite (filter_numbered (Z.of_nat (length log - er_cap r))).
  - rewrite drop_drop. f_equal. lia.
  - intros i e He. rewrite lookup_drop in He. rewrite (Hs _ _ He). lia.
Qed.

Lemma ring_new cap : ring_holds [] (EventRing_new cap).
Proof. split; [by intros i e Hi; rewrite lookup_nil in Hi|done|done|done]. Qed.
End ring.

(** ** The reader of the log *)
Section reader.
Context `{!IterOrder, !IterOrderLaws}.

(** Ticks report each network once. *)
Definition tick_ok (tk : Tick) : Prop := NoDup (mi_cidr <$> tk_cur tk).

Lemma publish_run_log p log tks : ring_holds log (p_ring p) -> Forall tick_ok tks ->
  Z.of_nat (length log) + Z.of_nat (length (publish_run p tks).2) + 1 < 2 ^ 64 ->
  exists log', ev_body <$> log' = (publish_run p tks).2 /\
    er_cap (p_ring (publish_run p tks).1) = er_cap (p_ring p) /\
    ring_holds (log ++ log') (p_ring (publish_run p tks).1) /\
    bracketed (prev_flags (p_tracker p)) (publish_run p tks).2 /\
    replay (prev_flags (p_tracker p)) (publish_run p tks).2 =
      prev_flags (p_tracker (publish_run p tks).1).
Proof.
  revert p log. induction tks as [|tk tks IH]; intros p log Hr Hok; cbn [publish_run].
  { intros _. exists []. by rewrite app_nil_r. }
  apply Forall_cons in Hok as [Htk Hok]. unfold publish_tick.
  destruct (MitTracker_step _ _ _) as [[t snap] evs] eqn:Es.
  destruct (tick_log _ _ _ _ _ _ Htk Es) as (Hf & Hb & Hrep).
  set (p1 := {| p_tracker := t |}). specialize (IH p1).
  destruct (publish_run p1 tks) as [p2 evs2]. cbn [fst snd] in *.
  rewrite length_app. intros Hu.
  destruct (ring_records evs log (p_ring p) (tk_ts tk) Hr) as (l1 & E1 & Hc1 & Hr1); [lia|].
  destruct (IH (log ++ l1)) as (l2 & E2 & Hc2 & Hr2 & Hb2 & Hrep2); [done|done| |].
  { rewrite length_app, <- (length_fmap ev_body l1), E1. lia. }
  exists (l1 ++ l2). rewrite fmap_app, E1, E2, app_assoc. split_and!; [done| |done| |].
  - rewrite Hc2. exact Hc1.
  - rewrite bracketed_app, Hrep, <- Hf. done.
  - rewrite replay_app, Hrep, <- Hf. done.
Qed.

(** The reader has read everything: its table is the daemon's. *)
Definition in_sync (p : Publisher) (table : gmap string Z) (cursor : Z) : Prop :=
  table = prev_flags (p_tracker p) /\
  exists log, ring_holds log (p_ring p) /\ cursor = Z.of_nat (length log).
End reader.


(** ** A concrete daemon *)
Module Demo.
#[export] Instance map_order : IterOrder := map_to_list.
#[export] Instance map_order_laws : IterOrderLaws.
Proof. intros m. done. Qed.

Definition mit (c : string) (flags pps : Z) : MitInput :=
  {| mi_cidr := c; mi_flags := flags; mi_pps := pps; mi_bps := 20; mi_syn_pps := 5 |}.
Definition at_time (now : Z) (cur : list MitInput) : Tick :=
  {| tk_cur := cur; tk_now := now; tk_ts := fun _ => now |}.
Definition fresh : Publisher :=
  {| p_tracker := MitTracker_default; p_ring := EventRing_new 4 |}.
Definition history : list Tick :=
  [at_time 100 [mit "a/32" 1 10; mit "b/32" 2 7]; at_time 150 [mit "a/32" 3 12];
   at_time 160 [mit "a/32" 3 11]].

Example history_events :
  (fun e => (pe_kind e, pe_cidr e, pe_flags e, pe_pps e)) <$> (publish_run fresh history).2 =
  [(EvStart, "a/32", 1, 10); (EvStart, "b/32", 2, 7); (EvFlags, "a/32", 3, 12);
   (EvStop, "b/32", 2, 7)]%string.
Proof. vm_compute. reflexivity. Qed.

(** A network reported twice, as a protected /32 and as a host, makes the
    tracker log a change at every tick. *)
Example duplicate_never_settles :
  let twice := [mit "a/32" 1 10; mit "a/32" 3 10] in
  pe_kind <$> (publish_run fresh [at_time 1 twice; at_time 2 twice; at_time 3 twice]).2 =
  [EvStart; EvStart; EvFlags; EvFlags].
Proof. vm_compute. reflexivity. Qed.
End Demo.
Import Demo.

Lemma episodes_are_tracked_witness :
  let t := p_tracker (publish_run fresh (take 1 history)).1 in
  let cur := [mit "a/32" 3 12] in
  let r := MitTracker_step t cur 150 in
  tracker_wf r.1.1 /\
  (forall e, e ∈ r.2 -> pe_kind e = EvStop ->
    peaks t !! pe_cidr e = Some (pe_pps e, pe_bps e, pe_syn_pps e)) /\
  m_since_unix <$> r.1.2 = [100].
Proof.
  intros t cur r.
  assert (tracker_wf t) as Hwf.
  { eapply (tick_wf MitTracker_default [mit "a/32" 1 10; mit "b/32" 2 7] 100);
      [exact tracker_wf_default| |vm_compute; reflexivity].
    apply (bool_decide_unpack _). vm_compute. exact I. }
  assert (NoDup (mi_cidr <$> cur)) as Hnd by (apply (bool_decide_unpack _); vm_compute; exact I).
  destruct (episodes_are_tracked t cur 150 r.1.1 r.1.2 r.2 Hwf Hnd) as (H1 & _ & _ & _ & H5).
  - vm_compute. reflexivity.
  - split; [exact H1|]. split; [exact H5|vm_compute; reflexivity].
Defined.

