(* ===== verification/TryProcedure.v ===== *)
(** * try-procedure: retries and pipelines with rollback

    [try-procedure/src/lib.rs]: [OpError], [RetryPolicy] and its backoff in IEEE
    double arithmetic, [RetryOp::execute], [retry_async] and
    [Pipeline::execute].

    A closure that returns a future is a function of the world it mutates; it
    answers, or it panics ([None]). The loops run with fuel, and running out of
    it is an outcome of its own ([Stuck]), which the theorems exclude.
    [tokio::time::sleep] is a parameter; log lines are not modelled. *)

From S2P Require Import Prelude.
From Stdlib Require Import Floats.SpecFloat.

(** ** Errors that classify themselves *)

Inductive OpError (E : Type) : Type :=
| Transient (e : E)
| Fatal (e : E).
Arguments Transient {E} e.
Arguments Fatal {E} e.

Definition into_inner {E} (o : OpError E) : E :=
  match o with Transient e | Fatal e => e end.
Definition is_transient {E} (o : OpError E) : bool :=
  match o with Transient _ => true | Fatal _ => false end.
Definition is_fatal {E} (o : OpError E) : bool :=
  match o with Fatal _ => true | Transient _ => false end.
Definition inner {E} (o : OpError E) : E :=
  match o with Transient e | Fatal e => e end.
Definition OpError_map {E U} (f : E -> U) (o : OpError E) : OpError U :=
  match o with
  | Transient e => Transient (f e)
  | Fatal e => Fatal (f e)
  end.
(** [?] on a plain error makes it fatal. *)
Definition OpError_from {E} (e : E) : OpError E := Fatal e.
Definition OpResult (T E : Type) : Type := res (OpError E) T.

(** ** The standard library's durations and doubles *)

Record Duration := { secs : Z; nanos : Z }.
Definition from_secs (s : Z) : Duration := {| secs := s; nanos := 0 |}.
Definition from_millis (ms : Z) : Duration :=
  {| secs := ms / 1000; nanos := ms mod 1000 * 1000000 |}.
Definition as_nanos (d : Duration) : Z := secs d * 10 ^ 9 + nanos d.

Module F64.
Definition t : Type := spec_float.
(** [z as f64]: round to nearest, ties to even. *)
Definition of_Z (z : Z) : t := binary_normalize 53 1024 z 0 false.
Definition add : t -> t -> t := SFadd 53 1024.
Definition mul : t -> t -> t := SFmul 53 1024.
Definition div : t -> t -> t := SFdiv 53 1024.
(** [f64::min] ignores a NaN. *)
Definition min (a b : t) : t :=
  match a, b with
  | S754_nan, _ => b
  | _, S754_nan => a
  | _, _ => if SFltb b a then b else a
  end.
(** [x.powi(n)]: square and multiply on [|n|], and the reciprocal for a
    negative exponent. *)
Fixpoint powi_pos (x : t) (n : positive) (r : t) : t :=
  match n with
  | xH => mul r x
  | xO n => powi_pos (mul x x) n r
  | xI n => powi_pos (mul x x) n (mul r x)
  end.
Definition powi (x : t) (n : Z) : t :=
  match n with
  | Z0 => of_Z 1
  | Zpos n => powi_pos x n (of_Z 1)
  | Zneg n => div (of_Z 1) (powi_pos x n (of_Z 1))
  end.
(** The integer nearest to [m * 2^e * k], ties to even. *)
Definition scale (k : Z) (m : positive) (e : Z) : Z :=
  let n := Zpos m * k in
  if 0 <=? e then n * 2 ^ e else
  let d := 2 ^ (- e) in
  let q := n / d in let r := n mod d in
  if (2 * r <? d) || ((2 * r =? d) && Z.even q) then q else q + 1.
End F64.

Definition as_secs_f64 (d : Duration) : F64.t :=
  F64.add (F64.of_Z (secs d)) (F64.div (F64.of_Z (nanos d)) (F64.of_Z (10 ^ 9))).

(** [Duration::from_secs_f64] panics on a negative, infinite or too large
    number and on a NaN. *)
Definition from_secs_f64 (x : F64.t) : option Duration :=
  match x with
  | S754_zero _ => Some (from_secs 0)
  | S754_finite false m e =>
      let n := F64.scale (10 ^ 9) m e in
      if n / 10 ^ 9 <? 2 ^ 64
      then Some {| secs := n / 10 ^ 9; nanos := n mod 10 ^ 9 |}
      else None
  | _ => None
  end.

(** [n as i32] of a [u32]. *)
Definition as_i32 (n : Z) : Z := if n <? 2 ^ 31 then n else n - 2 ^ 32.

(** ** The retry policy *)

Record RetryPolicy := {
  min_delay : Duration;
  max_delay : Duration;
  max_retries : Z;
  factor : F64.t
}.

Definition RetryPolicy_default : RetryPolicy :=
  {| min_delay := from_secs 1; max_delay := from_secs 30;
     max_retries := 3; factor := F64.of_Z 2 |}.
Definition with_min_delay (d : Duration) (p : RetryPolicy) : RetryPolicy :=
  {| min_delay := d; max_delay := max_delay p;
     max_retries := max_retries p; factor := factor p |}.
Definition with_max_delay (d : Duration) (p : RetryPolicy) : RetryPolicy :=
  {| min_delay := min_delay p; max_delay := d;
     max_retries := max_retries p; factor := factor p |}.
Definition with_max_retries (n : Z) (p : RetryPolicy) : RetryPolicy :=
  {| min_delay := min_delay p; max_delay := max_delay p;
     max_retries := n; factor := factor p |}.
Definition with_factor (x : F64.t) (p : RetryPolicy) : RetryPolicy :=
  {| min_delay := min_delay p; max_delay := max_delay p;
     max_retries := max_retries p; factor := x |}.

Definition delay_for_attempt (p : RetryPolicy) (attempt : Z) : option Duration :=
  let delay := F64.mul (as_secs_f64 (min_delay p)) (F64.powi (factor p) (as_i32 attempt)) in
  let clamped := F64.min delay (as_secs_f64 (max_delay p)) in
  from_secs_f64 clamped.

(** The default policy waits 1, 2 and 4 seconds; at most 30. *)
Example default_backoff :
  delay_for_attempt RetryPolicy_default <$> [0; 1; 2; 5; 60] =
  Some <$> [from_secs 1; from_secs 2; from_secs 4; from_secs 30; from_secs 30].
Proof. vm_compute. reflexivity. Qed.
(** The tests' one millisecond, which no double represents. *)
Example millisecond_backoff :
  delay_for_attempt (with_min_delay (from_millis 1) RetryPolicy_default) <$> [0; 1; 2] =
  Some <$> [from_millis 1; from_millis 2; from_millis 4].
Proof. vm_compute. reflexivity. Qed.
(** A negative factor panics on the first odd attempt. *)
Example negative_factor_panics :
  delay_for_attempt (with_factor (F64.of_Z (-2)) RetryPolicy_default) <$> [0; 1] =
  [Some (from_secs 1); None].
Proof. vm_compute. reflexivity. Qed.

(** ** Asynchronous code over a world [W] *)

Inductive Out (A : Type) : Type :=
| Done (a : A)
| Panic
| Stuck.
Arguments Done {A} a.
Arguments Panic {A}.
Arguments Stuck {A}.

Definition Async (W A : Type) : Type := W -> Out A * W.
#[export] Instance Async_ret {W} : MRet (Async W) := fun A a w => (Done a, w).
#[export] Instance Async_bind {W} : MBind (Async W) := fun A B k m w =>
  match m w with
  | (Done a, w') => k a w'
  | (Panic, w') => (Panic, w')
  | (Stuck, w') => (Stuck, w')
  end.

(** A caller's closure: it answers or panics. *)
Definition Closure (W A : Type) : Type := W -> option A * W.
Definition await {W A} (f : Closure W A) : Async W A := fun w =>
  match f w with
  | (Some a, w') => (Done a, w')
  | (None, w') => (Panic, w')
  end.
Definition or_panic {W A} (o : option A) : Async W A := fun w =>
  match o with Some a => (Done a, w) | None => (Panic, w) end.
Definition effect {W} (f : W -> W) : Async W unit := fun w => (Done tt, f w).
Definition stuck {W A} : Async W A := fun w => (Stuck, w).

Section Retry.
Context {W : Type} (sleep : Duration -> W -> W).

(** The loop that [RetryOp::execute], [retry_async] and [Pipeline::execute]
    each write out; [on_retry] is what runs before the sleep. *)
Fixpoint retry_loop {T E} (fuel : nat) (policy : RetryPolicy)
    (on_retry : E -> Z -> Duration -> Async W unit)
    (f : Closure W (OpResult T E)) (attempt : Z) : Async W (res E T) :=
  match fuel with
  | O => stuck
  | S fuel =>
      r ← await f;
      match r with
      | Ok val => mret (Ok val)
      | Err (Fatal e) => mret (Err e)
      | Err (Transient e) =>
          if max_retries policy <=? attempt then mret (Err e) else
          delay ← or_panic (delay_for_attempt policy attempt);
          _ ← on_retry e (wadd 32 attempt 1) delay;
          _ ← effect (sleep delay);
          retry_loop fuel policy on_retry f (wadd 32 attempt 1)
      end
  end.

(** One attempt more than the retries. *)
Definition retry_fuel (policy : RetryPolicy) : nat := S (Z.to_nat (max_retries policy)).
Definition no_callback {E} (e : E) (n : Z) (d : Duration) : Async W unit := mret tt.

Definition retry_async {T E} (policy : RetryPolicy) (f : Closure W (OpResult T E))
  : Async W (res E T) :=
  retry_loop (retry_fuel policy) policy no_callback f 0.

Record RetryOp (T E : Type) := {
  factory : Closure W (OpResult T E);
  ro_policy : RetryPolicy;
  ro_on_retry : option (E -> Z -> Duration -> Closure W unit)
}.
Definition RetryOp_new {T E} (policy : RetryPolicy) (f : Closure W (OpResult T E)) : RetryOp T E :=
  {| factory := f; ro_policy := policy; ro_on_retry := None |}.
Definition on_retry {T E} (cb : E -> Z -> Duration -> Closure W unit) (op : RetryOp T E)
  : RetryOp T E :=
  {| factory := factory _ _ op; ro_policy := ro_policy _ _ op; ro_on_retry := Some cb |}.
Definition with_retry {T E} (f : Closure W (OpResult T E)) (policy : RetryPolicy) : RetryOp T E :=
  RetryOp_new policy f.
Definition call_back {E} (cb : option (E -> Z -> Duration -> Closure W unit))
    (e : E) (n : Z) (d : Duration) : Async W unit :=
  match cb with Some cb => await (cb e n d) | None => mret tt end.
Definition RetryOp_execute {T E} (op : RetryOp T E) : Async W (res E T) :=
  retry_loop (retry_fuel (ro_policy _ _ op)) (ro_policy _ _ op)
    (call_back (ro_on_retry _ _ op)) (factory _ _ op) 0.
End Retry.

(** ** Pipelines

    Closures mutate the pipeline's context and the world around it. *)
Section Pipeline.
Context {Ctx W E : Type} (sleep : Duration -> W -> W).

Definition StepFn : Type := Closure (Ctx * W) (OpResult unit E).
Definition RollbackFn : Type := Closure (Ctx * W) (OpResult unit E).
Record PipelineStep := { name : string; action : StepFn; rollback : option RollbackFn }.
Record Pipeline := { ctx : Ctx; steps : list PipelineStep; retry_policy : option RetryPolicy }.

Definition Pipeline_new (c : Ctx) : Pipeline :=
  {| ctx := c; steps := []; retry_policy := None |}.
Definition with_retry_policy (policy : RetryPolicy) (p : Pipeline) : Pipeline :=
  {| ctx := ctx p; steps := steps p; retry_policy := Some policy |}.
Definition step (n : string) (a : StepFn) (p : Pipeline) : Pipeline :=
  {| ctx := ctx p; retry_policy := retry_policy p;
     steps := steps p ++ [{| name := n; action := a; rollback := None |}] |}.
Definition step_with_rollback (n : string) (a : StepFn) (r : RollbackFn) (p : Pipeline) : Pipeline :=
  {| ctx := ctx p; retry_policy := retry_policy p;
     steps := steps p ++ [{| name := n; action := a; rollback := Some r |}] |}.

Definition psleep (d : Duration) (s : Ctx * W) : Ctx * W := (s.1, sleep d s.2).

(** The [result] of one step. *)
Definition run_action (policy : option RetryPolicy) (a : StepFn) : Async (Ctx * W) (res E unit) :=
  match policy with
  | Some policy => retry_loop psleep (retry_fuel policy) policy no_callback a 0
  | None =>
      r ← await a;
      match r with
      | Ok _ => mret (Ok tt)
      | Err op_err => mret (Err (into_inner op_err))
      end
  end.
(** A rollback's failure is logged and the next one runs. *)
Definition run_rollback (policy : option RetryPolicy) (r : RollbackFn) : Async (Ctx * W) unit :=
  match policy with
  | Some policy =>
      _ ← retry_loop psleep (retry_fuel policy) policy no_callback r 0; mret tt
  | None => _ ← await r; mret tt
  end.
Fixpoint run_rollbacks (policy : option RetryPolicy) (rs : list RollbackFn) : Async (Ctx * W) unit :=
  match rs with
  | [] => mret tt
  | r :: rs => _ ← run_rollback policy r; run_rollbacks policy rs
  end.
Definition completed_push (st : PipelineStep) (completed : list RollbackFn) : list RollbackFn :=
  match rollback st with Some r => completed ++ [r] | None => completed end.
Fixpoint run_steps (policy : option RetryPolicy) (sts : list PipelineStep)
    (completed : list RollbackFn) : Async (Ctx * W) (res E unit) :=
  match sts with
  | [] => mret (Ok tt)
  | st :: sts =>
      result ← run_action policy (action st);
      match result with
      | Ok _ => run_steps policy sts (completed_push st completed)
      | Err e => _ ← run_rollbacks policy (reverse completed); mret (Err e)
      end
  end.
Definition Pipeline_run (p : Pipeline) (w : W) : Out (res E unit) * (Ctx * W) :=
  run_steps (retry_policy p) (steps p) [] (ctx p, w).
(** The context goes to the caller on success. *)
Definition Pipeline_execute (p : Pipeline) (w : W) : Out (res E Ctx) * W :=
  match Pipeline_run p w with
  | (Done (Ok _), (c, w')) => (Done (Ok c), w')
  | (Done (Err e), (_, w')) => (Done (Err e), w')
  | (Panic, (_, w')) => (Panic, w')
  | (Stuck, (_, w')) => (Stuck, w')
  end.
End Pipeline.

(** ** What a retried operation does

    A specification without the loop: some rounds of a transient failure, the
    callback and a sleep, then one last attempt that decides. *)
Section retry_spec.
Context {W T E : Type} (sleep : Duration -> W -> W).
Context (policy : RetryPolicy) (cb : option (E -> Z -> Duration -> Closure W unit)).
Context (f : Closure W (OpResult T E)).

(** The [n]-th attempt fails transiently and is retried. *)
Inductive round (n : nat) (w : W) : W -> Prop :=
| round_intro e d w1 w2 :
    f w = (Some (Err (Transient e)), w1) ->
    delay_for_attempt policy (Z.of_nat n) = Some d ->
    call_back cb e (Z.of_nat n + 1) d w1 = (Done tt, w2) ->
    round n w (sleep d w2).
Inductive rounds (w : W) : nat -> W -> Prop :=
| rounds_0 : rounds w 0 w
| rounds_S n w1 w2 : rounds w n w1 -> round n w1 w2 -> rounds w (S n) w2.

(** The attempt after which there is no other. *)
Inductive last_attempt (n : nat) (w : W) : Out (res E T) * W -> Prop :=
| last_ok v w' : f w = (Some (Ok v), w') -> last_attempt n w (Done (Ok v), w')
| last_fatal e w' : f w = (Some (Err (Fatal e)), w') -> last_attempt n w (Done (Err e), w')
| last_exhausted e w' :
    f w = (Some (Err (Transient e)), w') -> Z.of_nat n = max_retries policy ->
    last_attempt n w (Done (Err e), w')
| last_panicked w' : f w = (None, w') -> last_attempt n w (Panic, w')
| last_no_delay e w' :
    f w = (Some (Err (Transient e)), w') -> delay_for_attempt policy (Z.of_nat n) = None ->
    last_attempt n w (Panic, w')
| last_callback e d w1 w' :
    f w = (Some (Err (Transient e)), w1) ->
    delay_for_attempt policy (Z.of_nat n) = Some d ->
    call_back cb e (Z.of_nat n + 1) d w1 = (Panic, w') ->
    last_attempt n w (Panic, w').

Lemma call_back_outcome e n d w :
  (exists w', call_back cb e n d w = (Done tt, w')) \/
  (exists w', call_back cb e n d w = (Panic, w')).
Proof.
  unfold call_back, await. destruct cb as [c|]; [|left; by eexists].
  destruct (c e n d w) as [[[]|] w']; [left|right]; by eexists.
Qed.

Lemma retry_loop_rounds w : fits 32 (max_retries policy) -> forall fuel n w1,
  fuel = S (Z.to_nat (max_retries policy) - n) ->
  (n <= Z.to_nat (max_retries policy))%nat -> rounds w n w1 ->
  exists k wk, Z.of_nat k <= max_retries policy /\ rounds w k wk /\
    last_attempt k wk (retry_loop sleep fuel policy (call_back cb) f (Z.of_nat n) w1).
Proof.
  unfold fits. intros Hm fuel. induction fuel as [|fuel IH]; [done|].
  intros n w1 Hf Hn Hr. cbn [retry_loop]. unfold mbind, Async_bind, await at 1.
  assert (Z.of_nat n <= max_retries policy) as Hle by lia.
  destruct (f w1) as [[[v|[e|e]]|] w2] eqn:Ef.
  - exists n, w1. split_and!; [done|done|]. by apply last_ok.
  - destruct (Z.leb_spec (max_retries policy) (Z.of_nat n)) as [Hge|Hlt].
    { exists n, w1. split_and!; [done|done|]. apply last_exhausted; [done|lia]. }
    destruct (delay_for_attempt policy (Z.of_nat n)) as [d|] eqn:Ed.
    2: { exists n, w1. split_and!; [done|done|]. cbn. by eapply last_no_delay. }
    cbn [or_panic]. rewrite wadd_small by lia.
    destruct (call_back_outcome e (Z.of_nat n + 1) d w2) as [[w3 E3]|[w3 E3]]; rewrite E3.
    2: { exists n, w1. split_and!; [done|done|]. by eapply last_callback. }
    cbn [effect]. replace (Z.of_nat n + 1) with (Z.of_nat (S n)) by lia.
    apply IH; [lia|lia|]. eapply rounds_S; [done|]. by eapply round_intro.
  - exists n, w1. split_and!; [done|done|]. by apply last_fatal.
  - exists n, w1. split_and!; [done|done|]. by apply last_panicked.
Qed.

Lemma retry_loop_spec w : fits 32 (max_retries policy) ->
  exists n w1, Z.of_nat n <= max_retries policy /\ rounds w n w1 /\
    last_attempt n w1 (retry_loop sleep (retry_fuel policy) policy (call_back cb) f 0 w).
Proof.
  intros Hm. apply (retry_loop_rounds w Hm (retry_fuel policy) 0 w); [|lia|constructor].
  unfold retry_fuel. f_equal. lia.
Qed.

Lemma retry_loop_not_stuck w w' : fits 32 (max_retries policy) ->
  retry_loop sleep (retry_fuel policy) policy (call_back cb) f 0 w <> (Stuck, w').
Proof.
  intros Hm E1. destruct (retry_loop_spec w Hm) as (n & w1 & _ & _ & Hl).
  rewrite E1 in Hl. inversion Hl.
Qed.
End retry_spec.

(** Awaiting a [RetryOp] always comes to an end, and as the policy says: for
    some [n] at most [max_retries], [n] attempts failed transiently, each
    followed by the callback (numbered from one) and the sleep of its attempt,
    and the attempt after them decided: its value is returned, a fatal error is
    returned at once, a transient error only when [n] is [max_retries]. The only
    other outcomes are panics of the closures or of the backoff arithmetic. *)
Theorem retry_follows_policy {W T E} (sleep : Duration -> W -> W) (op : @RetryOp W T E) w
    (Hu32 : fits 32 (max_retries (ro_policy _ _ op))) :
  exists n w1,
    Z.of_nat n <= max_retries (ro_policy _ _ op) /\
    rounds sleep (ro_policy _ _ op) (ro_on_retry _ _ op) (factory _ _ op) w n w1 /\
    last_attempt (ro_policy _ _ op) (ro_on_retry _ _ op) (factory _ _ op) n w1
      (RetryOp_execute sleep op w).
Proof. by apply retry_loop_spec. Qed.

(** The inline function is the boxed operation without a callback. *)
Lemma retry_async_is_retry_op {W T E} (sleep : Duration -> W -> W) policy
    (f : Closure W (OpResult T E)) :
  retry_async sleep policy f = RetryOp_execute sleep (RetryOp_new policy f).
Proof. done. Qed.

(** ** What a pipeline does *)
Section pipeline_spec.
Context {Ctx W E : Type} (sleep : Duration -> W -> W).
Context (policy : option RetryPolicy).
Context (policy_u32 : forall p, policy = Some p -> fits 32 (max_retries p)).
Implicit Types st : @PipelineStep Ctx W E.
Implicit Types s : Ctx * W.

(** These steps succeed one after the other. *)
Inductive completes s : list (@PipelineStep Ctx W E) -> Ctx * W -> Prop :=
| completes_nil : completes s [] s
| completes_snoc sts st s1 s2 :
    completes s sts s1 -> run_action sleep policy (action st) s1 = (Done (Ok tt), s2) ->
    completes s (sts ++ [st]) s2.

Definition rollbacks_of (sts : list (@PipelineStep Ctx W E)) : list RollbackFn :=
  omap rollback sts.

Lemma rollbacks_push sts st :
  completed_push st (rollbacks_of sts) = rollbacks_of (sts ++ [st]).
Proof.
  unfold completed_push, rollbacks_of. rewrite omap_app. cbn.
  destruct (rollback st); [done|by rewrite app_nil_r].
Qed.

Lemma run_action_not_stuck (a : @StepFn Ctx W E) s s' : run_action sleep policy a s <> (Stuck, s').
Proof.
  unfold run_action. destruct policy as [p|].
  - apply (retry_loop_not_stuck (psleep sleep) p None a). auto.
  - unfold mbind, Async_bind, await. by destruct (a s) as [[[]|] ?].
Qed.

Lemma run_rollbacks_not_stuck (rs : list (@RollbackFn Ctx W E)) s s' :
  run_rollbacks sleep policy rs s <> (Stuck, s').
Proof.
  revert s s'. induction rs as [|r rs IH]; intros s s'; cbn [run_rollbacks]; [done|].
  unfold mbind, Async_bind. destruct (run_rollback sleep policy r s) as [[[]| |] s1] eqn:Er;
    [apply IH|done|]. exfalso.
  apply (run_action_not_stuck r s s1). revert Er. unfold run_rollback, run_action.
  destruct policy as [p|]; unfold mbind, Async_bind.
  - destruct (retry_loop _ _ _ _ _ _ _) as [[x| |] ?]; [done|done|by intros [= ->]].
  - destruct (await r s) as [[x| |] ?]; [done|done|by intros [= ->]].
Qed.

(** The outcomes of a pipeline of the steps [sts]. *)
Inductive pipeline_outcome (sts : list (@PipelineStep Ctx W E)) s
    : Out (res E unit) * (Ctx * W) -> Prop :=
| outcome_ok s' : completes s sts s' -> pipeline_outcome sts s (Done (Ok tt), s')
| outcome_rolled_back don st rest e s1 s2 s3 :
    sts = don ++ st :: rest -> completes s don s1 ->
    run_action sleep policy (action st) s1 = (Done (Err e), s2) ->
    run_rollbacks sleep policy (reverse (rollbacks_of don)) s2 = (Done tt, s3) ->
    pipeline_outcome sts s (Done (Err e), s3)
| outcome_step_panic don st rest s1 s2 :
    sts = don ++ st :: rest -> completes s don s1 ->
    run_action sleep policy (action st) s1 = (Panic, s2) ->
    pipeline_outcome sts s (Panic, s2)
| outcome_rollback_panic don st rest e s1 s2 s3 :
    sts = don ++ st :: rest -> completes s don s1 ->
    run_action sleep policy (action st) s1 = (Done (Err e), s2) ->
    run_rollbacks sleep policy (reverse (rollbacks_of don)) s2 = (Panic, s3) ->
    pipeline_outcome sts s (Panic, s3).

Lemma run_steps_outcome rest don s s1 :
  completes s don s1 ->
  pipeline_outcome (don ++ rest) s (run_steps sleep policy rest (rollbacks_of don) s1).
Proof.
  revert don s1. induction rest as [|st rest IH]; intros don s1 Hc; cbn [run_steps].
  { apply outcome_ok. by rewrite app_nil_r. }
  unfold mbind, Async_bind at 1.
  destruct (run_action sleep policy (action st) s1) as [[[[]|e]| |] s2] eqn:Ea.
  - rewrite rollbacks_push. replace (don ++ st :: rest) with ((don ++ [st]) ++ rest)
      by by rewrite <- app_assoc.
    apply IH. by eapply completes_snoc.
  - unfold Async_bind.
    destruct (run_rollbacks sleep policy (reverse (rollbacks_of don)) s2)
      as [[[]| |] s3] eqn:Er.
    + by eapply outcome_rolled_back.
    + by eapply outcome_rollback_panic.
    + by apply run_rollbacks_not_stuck in Er.
  - by eapply outcome_step_panic.
  - by apply run_action_not_stuck in Ea.
Qed.
(** The same without the loops of the code: an operation is [attempted] as the
    policy says, the steps [pass] one after the other, and a failure [unwinds]
    the steps before it. *)
Definition attempted (f : Closure (Ctx * W) (OpResult unit E)) s (o : Out (res E unit)) s' : Prop :=
  match policy with
  | Some p => exists n s1, Z.of_nat n <= max_retries p /\
      rounds (psleep sleep) p None f s n s1 /\ last_attempt p None f n s1 (o, s')
  | None => exists a, f s = (a, s') /\
      o = match a with Some (Ok _) => Done (Ok tt) | Some (Err e) => Done (Err (into_inner e)) | None => Panic end
  end.
Inductive pass s : list (@PipelineStep Ctx W E) -> Ctx * W -> Prop :=
| pass_nil : pass s [] s
| pass_snoc sts st s1 s2 :
    pass s sts s1 -> attempted (action st) s1 (Done (Ok tt)) s2 -> pass s (sts ++ [st]) s2.
(** The last step's rollback is attempted first, whether the attempts succeed or
    not, then those of the steps before it; a step without a rollback is passed
    over; a panic ends the unwinding. *)
Inductive unwinds : list (@PipelineStep Ctx W E) -> Ctx * W -> Out unit -> Ctx * W -> Prop :=
| unwinds_nil s : unwinds [] s (Done tt) s
| unwinds_bare sts st s o s' :
    rollback st = None -> unwinds sts s o s' -> unwinds (sts ++ [st]) s o s'
| unwinds_back sts st r x s s1 o s' :
    rollback st = Some r -> attempted r s (Done x) s1 -> unwinds sts s1 o s' -> unwinds (sts ++ [st]) s o s'
| unwinds_panic sts st r s s1 :
    rollback st = Some r -> attempted r s Panic s1 -> unwinds (sts ++ [st]) s Panic s1.
Inductive pipeline_story (sts : list (@PipelineStep Ctx W E)) s
    : Out (res E unit) * (Ctx * W) -> Prop :=
| story_ok s' : pass s sts s' -> pipeline_story sts s (Done (Ok tt), s')
| story_unwound don st rest e s1 s2 s3 :
    sts = don ++ st :: rest -> pass s don s1 -> attempted (action st) s1 (Done (Err e)) s2 ->
    unwinds don s2 (Done tt) s3 -> pipeline_story sts s (Done (Err e), s3)
| story_step_panic don st rest s1 s2 :
    sts = don ++ st :: rest -> pass s don s1 -> attempted (action st) s1 Panic s2 ->
    pipeline_story sts s (Panic, s2)
| story_rollback_panic don st rest e s1 s2 s3 :
    sts = don ++ st :: rest -> pass s don s1 -> attempted (action st) s1 (Done (Err e)) s2 ->
    unwinds don s2 Panic s3 -> pipeline_story sts s (Panic, s3).

Lemma run_action_attempted f s o s' : run_action sleep policy f s = (o, s') -> attempted f s o s'.
Proof using policy_u32.
  unfold run_action, attempted. destruct policy as [p|].
  - intros <-. destruct (retry_loop_spec (psleep sleep) p None f s (policy_u32 p eq_refl)) as (n & s1 & Hn & Hr & Hl).
    by exists n, s1.
  - unfold mbind, Async_bind, await. destruct (f s) as [[[]|] s1]; intros [= <- <-]; by eexists.
Qed.
Lemma run_rollback_attempted r s o s' : run_rollback sleep policy r s = (o, s') ->
  match o with Done _ => exists x, attempted r s (Done x) s' | Panic => attempted r s Panic s' | Stuck => False end.
Proof using policy_u32.
  intros Hr. destruct (run_action sleep policy r s) as [o1 s1] eqn:Ea.
  assert (o1 <> Stuck) as Hn by (intros ->; by apply run_action_not_stuck in Ea). pose proof (run_action_attempted _ _ _ _ Ea) as Ha.
  revert Hr Ea. unfold run_rollback, run_action. destruct policy as [p|]; unfold mbind, Async_bind.
  - intros Hr Ea. rewrite Ea in Hr. destruct o1; injection Hr as <- <-; [by eexists|done|by apply Hn].
  - intros Hr Ea. destruct (await r s) as [[[]| |] s2] eqn:Ew; injection Hr as <- <-;
      injection Ea as <- <-; first [by eexists|done|by apply Hn].
Qed.
Lemma completes_pass s sts s' : completes s sts s' -> pass s sts s'.
Proof using policy_u32.
  induction 1 as [|sts st s1 s2 _ IH Ha]; [constructor|]. eapply pass_snoc; [done|by apply run_action_attempted].
Qed.
Lemma run_rollbacks_unwind don s o s' :
  run_rollbacks sleep policy (reverse (rollbacks_of don)) s = (o, s') -> unwinds don s o s'.
Proof using policy_u32.
  revert s. induction don as [|st don IH] using rev_ind; intros s; [intros [= <- <-]; constructor|].
  rewrite <- rollbacks_push. unfold completed_push. destruct (rollback st) as [r|] eqn:Er.
  - rewrite reverse_snoc. cbn [run_rollbacks]. unfold mbind, Async_bind.
    destruct (run_rollback sleep policy r s) as [o1 s1] eqn:E1. apply run_rollback_attempted in E1.
    destruct o1 as [[]| |]; [|by intros [= <- <-]; eapply unwinds_panic|done].
    destruct E1 as [x Hx]. intros Hr%IH. by eapply unwinds_back.
  - intros Hr%IH. by apply unwinds_bare.
Qed.
Lemma outcome_story sts s x : pipeline_outcome sts s x -> pipeline_story sts s x.
Proof using policy_u32.
  intros [s' Hc|don st rest e s1 s2 s3 -> Hc Ha Hr|don st rest s1 s2 -> Hc Ha|don st rest e s1 s2 s3 -> Hc Ha Hr];
    apply completes_pass in Hc; try apply run_action_attempted in Ha; try apply run_rollbacks_unwind in Hr.
  - by apply story_ok.
  - by eapply story_unwound.
  - by eapply story_step_panic.
  - by eapply story_rollback_panic.
Qed.
End pipeline_spec.

(** C39: executing a pipeline always comes to an end. Either every step succeeded
    in order, each attempted as the retry policy says; or a first step failed for
    good, and then the rollbacks of exactly the steps before it have been
    attempted, all of them, the last one first and whether they succeed or not, no
    later step has run, and the step's own error is returned; or a closure or the
    backoff panicked, in a step or in a rollback, and everything stopped there. *)
Theorem pipeline_runs_or_rolls_back {Ctx W E} (sleep : Duration -> W -> W)
    (p : @Pipeline Ctx W E) w
    (Hu32 : forall q, retry_policy p = Some q -> fits 32 (max_retries q)) :
  pipeline_story sleep (retry_policy p) (steps p) (ctx p, w) (Pipeline_run sleep p w).
Proof. apply outcome_story; [done|]. apply (run_steps_outcome _ _ Hu32 (steps p) [] _ _). constructor. Qed.

(** ** Compensation: rollbacks that undo make a pipeline atomic *)
Section compensation.
Context {Ctx W E A : Type} (sleep : Duration -> W -> W).
Context (policy : option RetryPolicy).
(** What of the state is to be restored. *)
Context (view : Ctx * W -> A).

(** A failing attempt leaves no trace; a step without rollback changes
    nothing; a rollback, run when the view is the one its step left, restores
    the view the step started from. *)
Record compensated (st : @PipelineStep Ctx W E) : Prop := {
  failure_is_clean : forall s e s',
    action st s = (Some (Err e), s') -> view s' = view s;
  success_is_undone : forall s s1,
    action st s = (Some (Ok tt), s1) ->
    match rollback st with
    | None => view s1 = view s
    | Some r => forall s2 s3, view s2 = view s1 ->
        run_rollback sleep policy r s2 = (Done tt, s3) -> view s3 = view s
    end
}.
Context (sleep_clean : forall d s, view (psleep sleep d s) = view s).

Lemma retry_loop_view st p fuel n s o s' : compensated st ->
  retry_loop (psleep sleep) fuel p no_callback (action st) n s = (Done o, s') ->
  match o with
  | Err _ => view s' = view s
  | Ok _ => exists s0, view s0 = view s /\ action st s0 = (Some (Ok tt), s')
  end.
Proof.
  intros Hst. revert n s. induction fuel as [|fuel IH]; intros n s; cbn [retry_loop]; [done|].
  unfold mbind, Async_bind, await at 1.
  destruct (action st s) as [[[[]|[e|e]]|] s1] eqn:Ea; [| | |done].
  - intros [= <- <-]. by exists s.
  - apply (failure_is_clean _ Hst) in Ea.
    destruct (max_retries p <=? n); [by intros [= <- <-]|].
    destruct (delay_for_attempt p n) as [d|]; [|done].
    cbn [or_panic no_callback effect mret Async_ret]. intros Hl%IH.
    rewrite sleep_clean, Ea in Hl. exact Hl.
  - apply (failure_is_clean _ Hst) in Ea. by intros [= <- <-].
Qed.

Lemma run_action_view st s o s' : compensated st ->
  run_action sleep policy (action st) s = (Done o, s') ->
  match o with
  | Err _ => view s' = view s
  | Ok _ => exists s0, view s0 = view s /\ action st s0 = (Some (Ok tt), s')
  end.
Proof.
  intros Hst. unfold run_action. destruct policy as [p|] eqn:Ep.
  - intros Hl. by eapply retry_loop_view.
  - unfold mbind, Async_bind, await. destruct (action st s) as [[[[]|e]|] s1] eqn:Ea; [| |done].
    + intros [= <- <-]. by exists s.
    + intros [= <- <-]. by apply (failure_is_clean _ Hst) in Ea.
Qed.

Lemma rollbacks_restore don s s1 : Forall compensated don ->
  completes sleep policy s don s1 -> forall s2 s3, view s2 = view s1 ->
  run_rollbacks sleep policy (reverse (rollbacks_of don)) s2 = (Done tt, s3) ->
  view s3 = view s.
Proof.
  intros Hd Hc. induction Hc as [|don st s1 s1' Hc IH Ha]; intros s2 s3 Hv.
  { cbn. by intros [= <-]. }
  apply Forall_app in Hd as [Hd [Hst _]%Forall_cons].
  destruct (run_action_view _ _ _ _ Hst Ha) as (s0 & Hv0 & Es0).
  pose proof (success_is_undone _ Hst _ _ Es0) as Hu.
  rewrite <- rollbacks_push. unfold completed_push. destruct (rollback st) as [r|].
  - rewrite reverse_app. cbn [reverse rev_append app run_rollbacks].
    change (reverse [r] ++ reverse (rollbacks_of don)) with (r :: reverse (rollbacks_of don)).
    cbn [run_rollbacks]. unfold mbind, Async_bind at 1.
    destruct (run_rollback sleep policy r s2) as [[[]| |] s4] eqn:Er; [|done|done].
    apply (IH Hd). rewrite (Hu s2 s4 Hv Er). exact Hv0.
  - apply (IH Hd). by rewrite Hv, Hu.
Qed.

Lemma outcome_restores sts s e s' : Forall compensated sts ->
  pipeline_outcome sleep policy sts s (Done (Err e), s') -> view s' = view s.
Proof.
  intros Hall Ho. inversion Ho as [|don st rest e' s1 s2 s3 -> Hc Ha Hr| |]; subst.
  apply Forall_app in Hall as [Hd [Hst _]%Forall_cons].
  pose proof (run_action_view _ _ _ _ Hst Ha) as Hv. cbn in Hv.
  exact (rollbacks_restore _ _ _ Hd Hc _ _ Hv Hr).
Qed.
End compensation.

(** C30: a pipeline is atomic: when failing attempts and sleeps leave the view of
    the state alone and each rollback restores the view its step started from,
    a pipeline that returns an error leaves the view as it found it, whichever
    step failed and after however many retries. *)
Theorem failed_pipeline_restores {Ctx W E A} (sleep : Duration -> W -> W)
    (p : @Pipeline Ctx W E) (view : Ctx * W -> A) w e s'
    (Hu32 : forall q, retry_policy p = Some q -> fits 32 (max_retries q))
    (Hsleep : forall d s, view (psleep sleep d s) = view s)
    (Hcomp : Forall (compensated sleep (retry_policy p) view) (steps p))
    (Hrun : Pipeline_run sleep p w = (Done (Err e), s')) :
  view s' = view (ctx p, w).
Proof.
  eapply outcome_restores; [done|done|]. rewrite <- Hrun.
  apply (run_steps_outcome _ _ Hu32 (steps p) [] _ _). constructor.
Qed.

(** ** Stages: what holds between the steps of a pipeline *)
Section staged.
Context {Ctx W E : Type} (sleep : Duration -> W -> W).
Context (policy : option RetryPolicy).
Implicit Types P Q U : Ctx * W -> Prop.

(** From [P] the step, as often as it is tried, leads to [Q] or fails back into [P]. *)
Definition attempts P (st : @PipelineStep Ctx W E) Q : Prop := forall s r s',
  P s -> action st s = (Some r, s') -> match r with Ok _ => Q s' | Err _ => P s' end.
(** Its rollback leads from [V] to [U]. *)
Definition undoes V (st : @PipelineStep Ctx W E) U : Prop :=
  match rollback st with
  | None => forall s, V s -> U s
  | Some r => forall s r' s', V s -> r s = (Some r', s') -> r' = Ok tt /\ U s'
  end.
(** The stage that a step leaves is one that the rollbacks so far can undo. *)
Fixpoint staged P U (sts : list (@PipelineStep Ctx W E)) Q : Prop :=
  match sts with
  | [] => forall s, P s -> Q s
  | st :: sts' => (forall s, P s -> U s) /\
      exists R V : Ctx * W -> Prop, attempts P st R /\ undoes V st U /\ staged R V sts' Q
  end.

Context (sleep_kept : forall d w, sleep d w = w).
Lemma retry_attempts P st Q p fuel n s r s' : attempts P st Q -> P s ->
  retry_loop (psleep sleep) fuel p no_callback (action st) n s = (Done r, s') ->
  match r with Ok _ => Q s' | Err _ => P s' end.
Proof.
  intros Ha. revert n s. induction fuel as [|fuel IH]; intros n s Hs; cbn [retry_loop]; [done|].
  unfold mbind, Async_bind, await at 1. destruct (action st s) as [[r1|] s1] eqn:Ea; [|done].
  pose proof (Ha _ _ _ Hs Ea) as H1. destruct r1 as [[]|[e|e]]; [by intros [= <- <-]| |by intros [= <- <-]].
  destruct (max_retries p <=? n); [by intros [= <- <-]|].
  destruct (delay_for_attempt p n) as [d|]; [|done].
  cbn [or_panic no_callback effect mret Async_ret]. apply IH.
  unfold psleep. rewrite sleep_kept. by destruct s1.
Qed.
Lemma run_attempts P st Q s r s' : attempts P st Q -> P s ->
  run_action sleep policy (action st) s = (Done r, s') -> match r with Ok _ => Q s' | Err _ => P s' end.
Proof.
  intros Ha Hs. unfold run_action. destruct policy as [p|]; [by apply retry_attempts|].
  unfold mbind, Async_bind, await. destruct (action st s) as [[[[]|e]|] s1] eqn:Ea; [| |done]; intros [= <- <-];
    exact (Ha _ _ _ Hs Ea).
Qed.
Lemma rollback_undoes (r : @RollbackFn Ctx W E) V U s s' :
  (forall s r' s', V s -> r s = (Some r', s') -> r' = Ok tt /\ U s') -> V s ->
  run_rollback sleep policy r s = (Done tt, s') -> U s'.
Proof.
  intros Hr Hs. unfold run_rollback. destruct policy as [p|].
  - unfold retry_fuel. cbn [retry_loop]. unfold mbind, Async_bind, await at 1.
    destruct (r s) as [[r1|] s1] eqn:Er; [|done]. destruct (Hr _ _ _ Hs Er) as [-> H1]. by intros [= <-].
  - unfold mbind, Async_bind, await. destruct (r s) as [[r1|] s1] eqn:Er; [|done].
    destruct (Hr _ _ _ Hs Er) as [-> H1]. by intros [= <-].
Qed.

Lemma staged_runs U0 P U sts Q completed s r s' : staged P U sts Q -> P s ->
  (forall s s', U s -> run_rollbacks sleep policy (reverse completed) s = (Done tt, s') -> U0 s') ->
  run_steps sleep policy sts completed s = (Done r, s') -> match r with Ok _ => Q s' | Err _ => U0 s' end.
Proof.
  revert P U completed s. induction sts as [|st sts IH]; intros P U completed s Hst Hs Hu.
  { cbn. intros [= <- <-]. by apply Hst. }
  destruct Hst as (HPU & R & V & Ha & Hr & Hst).
  cbn [run_steps]. unfold mbind, Async_bind at 1.
  destruct (run_action sleep policy (action st) s) as [[[[]|e]| |] s1] eqn:Er; [| |done|done].
  - apply (IH R V); [done|exact (run_attempts _ _ _ _ _ _ Ha Hs Er)|]. intros s2 s3 H2.
    unfold completed_push, undoes in *. destruct (rollback st) as [rb|]; [|by apply Hu, Hr].
    rewrite reverse_snoc. cbn [run_rollbacks]. unfold mbind, Async_bind.
    destruct (run_rollback sleep policy rb s2) as [[[]| |] s4] eqn:Eb; [|done|done].
    apply Hu. exact (rollback_undoes _ _ _ _ _ Hr H2 Eb).
  - unfold Async_bind. destruct (run_rollbacks _ _ _ s1) as [[[]| |] s2] eqn:Eb; [|done|done].
    intros [= <- <-]. apply (Hu s1); [|done]. apply HPU. exact (run_attempts _ _ _ _ _ _ Ha Hs Er).
Qed.
End staged.

(** A staged pipeline ends in its last stage, or undone. *)
Lemma staged_pipeline {Ctx W E} (sleep : Duration -> W -> W) (p : @Pipeline Ctx W E) P U Q w r s' :
  (forall d w, sleep d w = w) -> staged P U (steps p) Q -> P (ctx p, w) ->
  Pipeline_run sleep p w = (Done r, s') -> match r with Ok _ => Q s' | Err _ => U s' end.
Proof.
  intros Hsl Hst Hs. apply (staged_runs sleep (retry_policy p) Hsl U P U); [done|done|].
  cbn. by intros s s2 ? [= <-].
Qed.

(** ** A concrete pipeline

    The world is the clock in nanoseconds; the context collects what was
    created. *)
Module Demo.
Definition sleep (d : Duration) (now : Z) : Z := now + as_nanos d.
Definition create (r : Z) : @StepFn (list Z) Z string :=
  fun '(c, now) => (Some (Ok tt), (r :: c, now)).
Definition remove : @RollbackFn (list Z) Z string :=
  fun '(c, now) => (Some (Ok tt), (tail c, now)).
(** Times out until [ready]. *)
Definition slow (ready r : Z) : @StepFn (list Z) Z string :=
  fun '(c, now) => if now <? ready then (Some (Err (Transient "timeout"%string)), (c, now))
                   else (Some (Ok tt), (r :: c, now)).
Definition denied : @StepFn (list Z) Z string :=
  fun s => (Some (Err (Fatal "denied"%string)), s).
Definition happy : Pipeline :=
  step_with_rollback "vm" (slow 2000000000 2) remove
    (step_with_rollback "ip" (create 1) remove
      (with_retry_policy RetryPolicy_default (Pipeline_new []))).
Definition failing : Pipeline := step "dns" denied happy.

(** Two retries, one and two seconds, before the second step succeeds. *)
Example happy_runs : Pipeline_execute sleep happy 0 = (Done (Ok [2; 1]), 3000000000).
Proof. vm_compute. reflexivity. Qed.
Example failing_runs : Pipeline_run sleep failing 0 = (Done (Err "denied"%string), ([], 3000000000)).
Proof. vm_compute. reflexivity. Qed.

(** A counter that answers on its third attempt. *)
Definition third : Closure Z (OpResult Z string) := fun n =>
  (Some (if n <? 2 then Err (Transient "busy"%string) else Ok n), n + 1).

Lemma remove_removes s2 s3 :
  run_rollback sleep (Some RetryPolicy_default) remove s2 = (Done tt, s3) -> s3.1 = tail s2.1.
Proof. destruct s2 as [c now]. vm_compute. by intros [= <-]. Qed.

Lemma failing_compensated :
  Forall (compensated sleep (retry_policy failing) fst) (steps failing).
Proof.
  repeat constructor; cbn.
  - by intros [c now] e s'.
  - intros [c now] s1 [= <-] s2 s3 Hv Hr. apply remove_removes in Hr. by rewrite Hr, Hv.
  - intros [c now] e s'. unfold slow. destruct (_ <? _); [by intros [= <- <-]|done].
  - intros [c now] s1 Hs s2 s3 Hv Hr. apply remove_removes in Hr. rewrite Hr, Hv.
    revert Hs. unfold slow. destruct (_ <? _); [done|by intros [= <-]].
  - intros s e s'. unfold denied. by intros [= _ <-].
  - done.
Qed.
End Demo.

Lemma retry_follows_policy_witness :
  RetryOp_execute (fun _ n => n) (RetryOp_new RetryPolicy_default Demo.third) 0 = (Done (Ok 2), 3) /\
  exists n w1, Z.of_nat n <= 3 /\
    rounds (fun _ n => n) RetryPolicy_default None Demo.third 0 n w1 /\
    last_attempt RetryPolicy_default None Demo.third n w1 (Done (Ok 2), 3).
Proof.
  split; [vm_compute; reflexivity|].
  exact (retry_follows_policy (fun _ n => n) (RetryOp_new RetryPolicy_default Demo.third) 0
    (conj (Zle_0_pos 3) eq_refl)).
Defined.

Lemma pipeline_runs_or_rolls_back_witness :
  pipeline_story Demo.sleep (Some RetryPolicy_default) (steps Demo.failing) ([], 0)
    (Done (Err "denied"%string), ([], 3000000000)).
Proof.
  rewrite <- Demo.failing_runs. apply (pipeline_runs_or_rolls_back Demo.sleep Demo.failing 0).
  intros q [= <-]. split; vm_compute; [discriminate|reflexivity].
Defined.

Lemma failed_pipeline_restores_witness :
  exists s', Pipeline_run Demo.sleep Demo.failing 0 = (Done (Err "denied"%string), s') /\
    fst s' = [].
Proof.
  eexists. split; [exact Demo.failing_runs|].
  apply (failed_pipeline_restores Demo.sleep Demo.failing fst 0 "denied"%string).
  - intros q [= <-]. split; vm_compute; [discriminate|reflexivity].
  - by intros d [c now].
  - exact Demo.failing_compensated.
  - exact Demo.failing_runs.
Defined.
