(* ===== verification/IpAlloc.v ===== *)
(** * Carving subnets out of a block
    ([lnvps_api/src/provisioner/ip_range.rs]: [net_bounds], [make_net],
    [allocate_subnet])

    The [ipnetwork] crate is a parameter ([IpNetLib]) with its documented
    behaviour as laws. Arithmetic is on [u128]; the release profile wraps. *)

From stdpp Require Import sorting.
From S2P Require Import Prelude.

(** ** The ipnetwork crate *)

(** [IpNetwork::V4] and [IpNetwork::V6]: an address and a prefix length. *)
Record IpNetwork := { is_v4 : bool; ip : Z; prefix : Z }.
#[export] Instance IpNetwork_eq_dec : EqDecision IpNetwork.
Proof. solve_decision. Defined.
Definition max_bits (v4 : bool) : Z := if v4 then 32 else 128.
Definition net_wf (n : IpNetwork) : Prop :=
  0 <= ip n < 2 ^ max_bits (is_v4 n) /\ 0 <= prefix n <= max_bits (is_v4 n).

Class IpNetLib := {
  network : IpNetwork -> Z;
  IpNetwork_new : bool -> Z -> Z -> option IpNetwork
}.
(** [network] clears the host bits; [new] accepts the prefix lengths of the
    family. *)
Class IpNetLaws `{!IpNetLib} := {
  network_clears n : net_wf n ->
    network n = ip n / 2 ^ (max_bits (is_v4 n) - prefix n) * 2 ^ (max_bits (is_v4 n) - prefix n);
  new_accepts v4 a p : 0 <= p <= max_bits v4 ->
    IpNetwork_new v4 a p = Some {| is_v4 := v4; ip := a; prefix := p |}
}.

(** ** The allocator *)

Definition u128_MAX : Z := 2 ^ 128 - 1.
(** [!x] *)
Definition not128 (x : Z) : Z := Z.lxor x u128_MAX.
Definition checked_add128 (a b : Z) : option Z := if a + b <? 2 ^ 128 then Some (a + b) else None.

Definition bounds_le (a b : Z * Z) : Prop := a.1 < b.1 \/ (a.1 = b.1 /\ a.2 <= b.2).
#[export] Instance bounds_le_dec : RelDecision bounds_le.
Proof. intros a b. unfold bounds_le. apply _. Defined.

Section allocator.
Context `{!IpNetLib}.

Definition net_bounds (n : IpNetwork) : Z * Z :=
  if is_v4 n then
    let base := network n in
    let size := Z.shiftl 1 (32 - prefix n) in
    (base, wsub 128 (wadd 128 base size) 1)
  else
    let base := network n in
    let host_bits := 128 - prefix n in
    if 128 <=? host_bits then (0, u128_MAX)
    else (base, wsub 128 (wadd 128 base (Z.shiftl 1 host_bits)) 1).

Definition make_net (start prefix : Z) (v4 : bool) : option IpNetwork :=
  if v4 then IpNetwork_new true (wrap 32 start) prefix
  else IpNetwork_new false start prefix.

Definition overlaps (cur cand_end : Z) (t : Z * Z) : bool :=
  (cur <=? t.2) && (t.1 <=? cand_end).

(** [None] when the fuel runs out. *)
Fixpoint alloc_loop (fuel : nat) (v4 : bool) (target_len size block_end : Z)
    (taken_bounds : list (Z * Z)) (cur : Z) : option (option IpNetwork) :=
  match fuel with
  | O => None
  | S fuel =>
      if block_end <? cur then Some None else
      match checked_add128 cur (wsub 128 size 1) with
      | None => Some None
      | Some cand_end =>
          if block_end <? cand_end then Some None else
          match list_find (fun t => overlaps cur cand_end t = true) taken_bounds with
          | Some (_, (_, te)) =>
              match checked_add128 te 1 with
              | None => Some None
              | Some after =>
                  let aligned :=
                    Z.land (wsub 128 (wadd 128 after size) 1) (not128 (wsub 128 size 1)) in
                  alloc_loop fuel v4 target_len size block_end taken_bounds
                    (if aligned <=? cur then wadd 128 cur size else aligned)
              end
          | None => Some (make_net cur target_len v4)
          end
      end
  end.

(** One round per allocation, and one that ends. *)
Definition allocate_subnet (block : IpNetwork) (target_len : Z) (taken : list IpNetwork)
  : option (option IpNetwork) :=
  let v4 := is_v4 block in
  let mb := max_bits v4 in
  if (target_len <? prefix block) || (mb <? target_len) then Some None else
  let host_bits := mb - target_len in
  if 128 <=? host_bits then Some None else
  let size := Z.shiftl 1 host_bits in
  let '(block_start, block_end) := net_bounds block in
  let taken_bounds :=
    merge_sort bounds_le (net_bounds <$> filter (fun t => is_v4 t = v4) taken) in
  alloc_loop (S (length taken)) v4 target_len size block_end taken_bounds block_start.
End allocator.

(** ** A reference implementation of the crate *)
Module RefIpNet.
#[export] Instance ref_net : IpNetLib := {
  network n := ip n / 2 ^ (max_bits (is_v4 n) - prefix n) * 2 ^ (max_bits (is_v4 n) - prefix n);
  IpNetwork_new v4 a p :=
    if (0 <=? p) && (p <=? max_bits v4) then Some {| is_v4 := v4; ip := a; prefix := p |} else None
}.
#[export] Instance ref_laws : IpNetLaws.
Proof.
  split; cbn; [done|]. intros v4 a p Hp.
  by rewrite (proj2 (Z.leb_le 0 p)), (proj2 (Z.leb_le p _)) by lia.
Qed.
Definition v4 (a b c d p : Z) : IpNetwork :=
  {| is_v4 := true; ip := ((a * 256 + b) * 256 + c) * 256 + d; prefix := p |}.

Example first_slot : allocate_subnet (v4 10 0 0 0 24) 26 [] = Some (Some (v4 10 0 0 0 26)).
Proof. vm_compute. reflexivity. Qed.
Example between_taken :
  allocate_subnet (v4 10 0 0 0 24) 26 [v4 10 0 0 70 32; v4 10 0 0 0 26] =
  Some (Some (v4 10 0 0 128 26)).
Proof. vm_compute. reflexivity. Qed.
Example exhausted :
  allocate_subnet (v4 10 0 0 0 25) 26 [v4 10 0 0 70 32; v4 10 0 0 0 26] = Some None.
Proof. vm_compute. reflexivity. Qed.
End RefIpNet.

(** ** Aligned arithmetic *)

Lemma wadd_wsub128 a s : 0 <= a -> 1 <= s -> a + s <= 2 ^ 128 ->
  wsub 128 (wadd 128 a s) 1 = a + s - 1.
Proof.
  intros Ha Hs Hb. destruct (Z.eq_dec (a + s) (2 ^ 128)) as [E|E].
  - unfold wsub, wadd, wrap. rewrite E, Z_mod_same_full. reflexivity.
  - rewrite wadd_small by lia. apply wsub_small; lia.
Qed.

Lemma land_not128 x h : 0 <= h <= 128 -> fits 128 x ->
  Z.land x (not128 (2 ^ h - 1)) = x / 2 ^ h * 2 ^ h.
Proof.
  intros Hh Hx. rewrite <- Z.shiftr_div_pow2, <- Z.shiftl_mul_pow2 by lia.
  rewrite <- Z.ldiff_ones_r by lia.
  apply Z.bits_inj'. intros n Hn. unfold not128, u128_MAX.
  change (2 ^ 128 - 1) with (Z.ones 128). replace (2 ^ h - 1) with (Z.ones h) by (rewrite Z.ones_equiv; lia).
  rewrite Z.land_spec, Z.ldiff_spec, Z.lxor_spec.
  destruct (Z.ltb_spec n 128).
  - rewrite (Z.ones_spec_low 128) by lia. by rewrite xorb_true_r.
  - by rewrite (testbit_high 128 x) by (done || lia).
Qed.

(** Rounding up to a multiple. *)
Lemma round_up a s : 0 < s -> (s | (a + s - 1) / s * s) /\ a <= (a + s - 1) / s * s < a + s.
Proof.
  intros Hs. split; [apply Z.divide_factor_r|].
  pose proof (Z.div_mod (a + s - 1) s ltac:(lia)). pose proof (Z.mod_pos_bound (a + s - 1) s Hs). lia.
Qed.

(** Neighbouring multiples are [s] apart. *)
Lemma divide_lt_le s a b : 0 < s -> (s | a) -> (s | b) -> a < b -> a + s <= b.
Proof. intros Hs [x ->] [y ->] Hlt%Z.mul_lt_mono_pos_r; [nia|done]. Qed.

(** ** What the allocator finds *)
Section spec.
Context (size bs be : Z) (h : Z).
Context (Hh : 0 <= h < 128) (Hsize : size = 2 ^ h).
(** The block: aligned, and not at the end of the address space. *)
Context (Hbs : 0 <= bs) (Hbsd : (size | bs)) (Hbed : (size | be + 1)) (Hbe : be + 1 < 2 ^ 128).
Implicit Types (tb : list (Z * Z)) (t : Z * Z).

(** A subnet of the wanted size. *)
Definition slot (s : Z) : Prop := (size | s) /\ bs <= s /\ s + size - 1 <= be.
Definition hit (s : Z) t : Prop := s <= t.2 /\ t.1 <= s + size - 1.
Definition free tb (s : Z) : Prop := forall t, t ∈ tb -> ~ hit s t.
Definition occupied tb (s : Z) : Prop := exists t, t ∈ tb /\ hit s t.
(** The bounds of a CIDR. *)
Definition cidr_bounds t : Prop :=
  exists k, 0 <= k <= 128 /\ (2 ^ k | t.1) /\ 0 <= t.1 /\ t.2 = t.1 + 2 ^ k - 1 /\ t.2 < 2 ^ 128.

Lemma size_pos : 1 <= size.
Proof. rewrite Hsize. pose proof (Z.pow_pos_nonneg 2 h). lia. Qed.
Lemma size_2_128 : (size | 2 ^ 128).
Proof. rewrite Hsize. exists (2 ^ (128 - h)). rewrite <- Z.pow_add_r by lia. f_equal. lia. Qed.

(** Jumping past an occupied range does not leave the address space. *)
Lemma jump_room cur t : slot cur -> cidr_bounds t -> hit cur t -> t.2 + 1 < 2 ^ 128 ->
  t.2 + 1 + size <= 2 ^ 128.
Proof.
  pose proof size_pos as Hs1. pose proof size_2_128 as Hs2.
  intros (Hcd & Hc & Hce) (k & Hk & Hkd & Ht0 & Ht2 & Htm) [Hh1 Hh2] Hlt.
  assert (be + 1 + size <= 2 ^ 128) as Hroom by (apply divide_lt_le; (done || lia)).
  destruct (Z.le_gt_cases h k) as [Hle|Hgt].
  - assert ((size | t.2 + 1)) as Hd.
    { replace (t.2 + 1) with (t.1 + 2 ^ k) by lia.
      assert ((size | 2 ^ k)) as Hsk.
      { rewrite Hsize. exists (2 ^ (k - h)). rewrite <- Z.pow_add_r by lia. f_equal. lia. }
      apply Z.divide_add_r; [by etrans|done]. }
    apply divide_lt_le; (done || lia).
  - (* the range lies in one slot, the candidate *)
    assert (t.2 + 1 <= cur + size) as Hin; [|lia].
    assert ((2 ^ k | cur + size)) as Hd.
    { assert ((2 ^ k | size)) as Hks.
      { rewrite Hsize. exists (2 ^ (h - k)). rewrite <- Z.pow_add_r by lia. f_equal. lia. }
      apply Z.divide_add_r; [by etrans|done]. }
    assert (t.1 + 2 ^ k <= cur + size); [|lia].
    apply divide_lt_le; [apply Z.pow_pos_nonneg; lia|done|done|lia].
Qed.

Lemma aligned_jump cur t : slot cur -> cidr_bounds t -> hit cur t -> t.2 + 1 < 2 ^ 128 ->
  let aligned := Z.land (wsub 128 (wadd 128 (t.2 + 1) size) 1) (not128 (wsub 128 size 1)) in
  (size | aligned) /\ t.2 + 1 <= aligned < t.2 + 1 + size /\ cur < aligned.
Proof.
  intros Hc Ht Hhit Hlt. pose proof (jump_room _ _ Hc Ht Hhit Hlt) as Hroom.
  pose proof size_pos as Hs1. pose proof size_2_128 as Hs2.
  destruct Hc as (Hcd & Hc & Hce), Hhit as [Hh1 Hh2].
  rewrite wadd_wsub128 by lia. rewrite (wsub_small 128 size 1) by lia.
  replace (size - 1) with (2 ^ h - 1) by by rewrite Hsize.
  rewrite land_not128 by (unfold fits; lia). rewrite <- Hsize.
  pose proof (round_up (t.2 + 1) size) as [Hd [Hl Hu]]; [lia|].
  cbn zeta. split; [exact Hd|]. split; [lia|]. lia.
Qed.

(** The slots before [cur] are occupied. *)
Definition before_occupied tb (cur : Z) : Prop := forall s, slot s -> s < cur -> occupied tb s.

Lemma jump_occupied tb cur t aligned : slot cur -> t ∈ tb -> hit cur t ->
  (size | aligned) -> aligned < t.2 + 1 + size ->
  before_occupied tb cur -> before_occupied tb aligned.
Proof.
  pose proof size_pos as Hs1.
  intros (Hcd & Hc & Hce) Ht [Hh1 Hh2] Hd Hlt Hb s Hs Hsa.
  destruct (Z.lt_ge_cases s cur) as [?|Hge]; [by apply Hb|].
  exists t. split; [done|]. destruct Hs as (Hsd & _ & _).
  assert (s + size <= aligned) by (apply divide_lt_le; (done || lia)). split; lia.
Qed.

Lemma overlaps_hit s t : overlaps s (s + size - 1) t = true <-> hit s t.
Proof. unfold overlaps, hit. rewrite andb_true_iff, !Z.leb_le. done. Qed.

(** The allocations still to be passed. *)
Definition ahead (cur : Z) tb : nat := length (filter (fun t => cur <= t.2) tb).

Lemma jump_progress tb cur t aligned : t ∈ tb -> hit cur t -> t.2 < aligned -> cur < aligned ->
  (ahead aligned tb < ahead cur tb)%nat.
Proof.
  intros Ht [Hh1 _] Ha Hc. unfold ahead. induction tb as [|u tb IH]; [by apply not_elem_of_nil in Ht|].
  assert (ahead aligned tb <= ahead cur tb)%nat as Hle.
  { unfold ahead. clear - Hc. induction tb as [|u tb IH]; [done|]. rewrite !filter_cons.
    destruct (decide (aligned <= u.2)), (decide (cur <= u.2)); cbn; lia. }
  unfold ahead in Hle. rewrite !filter_cons. apply elem_of_cons in Ht as [<-|Ht].
  - rewrite (decide_False (P := aligned <= t.2)), (decide_True (P := cur <= t.2)) by lia.
    cbn. lia.
  - specialize (IH Ht). destruct (decide (aligned <= u.2)), (decide (cur <= u.2)); cbn; lia.
Qed.

(** The loop ends with the first free slot, or with every slot occupied. *)
Definition first_free tb (r : option IpNetwork) (mk : Z -> option IpNetwork) : Prop :=
  (exists s, slot s /\ free tb s /\ before_occupied tb s /\ r = mk s) \/
  (r = None /\ forall s, slot s -> occupied tb s).

Lemma alloc_loop_spec `{!IpNetLib} v4 tl tb fuel cur : Forall cidr_bounds tb ->
  (size | cur) -> bs <= cur -> before_occupied tb cur ->
  (ahead cur tb < fuel)%nat ->
  exists r, alloc_loop fuel v4 tl size be tb cur = Some r /\
    first_free tb r (fun s => make_net s tl v4).
Proof.
  intros Htb. pose proof size_pos as Hs1. pose proof size_2_128 as Hs2.
  revert cur. induction fuel as [|fuel IH]; intros cur Hd Hb Hbo Hf; [lia|]. cbn [alloc_loop].
  destruct (Z.ltb_spec be cur) as [Hlt|Hge].
  { exists None. split; [done|right]. split; [done|]. intros s Hs. apply Hbo; [done|].
    destruct Hs as (_ & _ & ?). lia. }
  assert (cur + size <= be + 1) as Hin by (apply divide_lt_le; (done || lia)).
  assert (slot cur) as Hslot by (split_and!; (done || lia)).
  assert (wsub 128 size 1 = size - 1) as Ew by (apply wsub_small; lia).
  unfold checked_add128 at 1. rewrite Ew, (proj2 (Z.ltb_lt _ _)) by lia.
  replace (cur + (size - 1)) with (cur + size - 1) by lia.
  rewrite (proj2 (Z.ltb_ge be (cur + size - 1))) by lia.
  destruct (list_find _ tb) as [[i [ts te]]|] eqn:Ef.
  2: { eexists. split; [done|left]. exists cur. split_and!; [done| |done|done].
       intros t Ht Hhit. apply list_find_None in Ef. rewrite Forall_forall in Ef.
       by apply (Ef t Ht), overlaps_hit. }
  apply list_find_Some in Ef as (Hi & Hov & _). apply overlaps_hit in Hov.
  apply list_elem_of_lookup_2 in Hi. pose proof (proj1 (Forall_forall _ _) Htb _ Hi) as Hcb.
  unfold checked_add128. destruct (Z.ltb_spec (te + 1) (2 ^ 128)) as [Hte|Hte].
  2: { exists None. split; [done|right]. split; [done|]. intros s Hs.
       destruct (Z.lt_ge_cases s cur); [by apply Hbo|]. exists (ts, te). split; [done|].
       destruct Hs as (_ & _ & ?), Hov as [? ?]. split; cbn in *; lia. }
  destruct (aligned_jump cur (ts, te) Hslot Hcb Hov Hte) as (Had & [Hal Hau] & Hca).
  rewrite Ew in Had, Hal, Hau, Hca. cbn [snd] in Had, Hal, Hau, Hca.
  rewrite (proj2 (Z.leb_gt _ _) Hca).
  apply IH; [exact Had|lia|by eapply (jump_occupied tb cur (ts, te))|].
  eapply Nat.lt_le_trans; [|apply Nat.lt_succ_r, Hf].
  apply (jump_progress tb cur (ts, te)); [done|done|cbn; lia|done].
Qed.
End spec.

(** ** CIDRs and their bounds *)
Section nets.
Context `{NL : !IpNetLib, LAWS : !IpNetLaws}.
Implicit Types n t : IpNetwork.

Lemma max_bits_128 v4 : max_bits v4 <= 128.
Proof. by destruct v4. Qed.

Lemma network_bounds n : net_wf n ->
  let k := max_bits (is_v4 n) - prefix n in
  (2 ^ k | network n) /\ 0 <= network n /\ network n + 2 ^ k <= 2 ^ max_bits (is_v4 n).
Proof.
  intros Hn k. pose proof (network_clears n Hn) as E. fold k in E. destruct Hn as [Hip Hp].
  assert (0 < 2 ^ k) as Hk by (apply Z.pow_pos_nonneg; lia).
  assert ((2 ^ k | network n)) as Hd by (rewrite E; apply Z.divide_factor_r).
  pose proof (Z.div_mod (ip n) (2 ^ k) ltac:(lia)).
  pose proof (Z.mod_pos_bound (ip n) (2 ^ k) Hk).
  assert (0 <= ip n / 2 ^ k) by (apply Z.div_pos; lia).
  split_and!; [done|rewrite E; nia|].
  apply divide_lt_le; [done|done| |].
  - exists (2 ^ prefix n). rewrite <- Z.pow_add_r by lia. f_equal. lia.
  - rewrite E. lia.
Qed.

Lemma net_bounds_eq n : net_wf n ->
  net_bounds n = (network n, network n + 2 ^ (max_bits (is_v4 n) - prefix n) - 1).
Proof.
  intros Hn. destruct (network_bounds n Hn) as (Hd & Hlo & Hhi). destruct Hn as [Hip Hp].
  assert (0 < 2 ^ (max_bits (is_v4 n) - prefix n)) as Hk by (apply Z.pow_pos_nonneg; lia).
  unfold net_bounds. destruct (is_v4 n); cbn [max_bits] in *.
  - assert (2 ^ 32 < 2 ^ 128) by done. rewrite Z.shiftl_mul_pow2, Z.mul_1_l by lia.
    by rewrite wadd_wsub128 by lia.
  - destruct (Z.leb_spec 128 (128 - prefix n)).
    + assert (prefix n = 0) as E by lia. rewrite E in *.
      change (128 - 0) with 128 in *. assert (network n = 0) as -> by lia. done.
    + rewrite Z.shiftl_mul_pow2, Z.mul_1_l by lia. by rewrite wadd_wsub128 by lia.
Qed.

Lemma net_cidr_bounds n : net_wf n -> cidr_bounds (net_bounds n).
Proof.
  intros Hn. destruct (network_bounds n Hn) as (Hd & Hlo & Hhi). rewrite net_bounds_eq by done.
  destruct Hn as [Hip Hp]. pose proof (max_bits_128 (is_v4 n)).
  exists (max_bits (is_v4 n) - prefix n). cbn [fst snd].
  pose proof (Z.pow_le_mono_r 2 (max_bits (is_v4 n)) 128 ltac:(lia) ltac:(lia)).
  split_and!; [lia|lia|done|done|done|lia].
Qed.

(** No address in common. *)
Definition disjoint_nets n t : Prop :=
  (net_bounds n).2 < (net_bounds t).1 \/ (net_bounds t).2 < (net_bounds n).1.
End nets.

Section allocate.
Context `{NL : !IpNetLib, LAWS : !IpNetLaws}.
Implicit Types n t block : IpNetwork.

Definition same_family (v4 : bool) (taken : list IpNetwork) : list (Z * Z) :=
  net_bounds <$> filter (fun t => is_v4 t = v4) taken.
(** The subnets of a block of the wanted length, by first address. *)
Definition subnet (block : IpNetwork) (len s : Z) : Prop :=
  slot (2 ^ (max_bits (is_v4 block) - len)) (net_bounds block).1 (net_bounds block).2 s.
Definition taken_at (block : IpNetwork) (len : Z) (taken : list IpNetwork) (s : Z) : Prop :=
  occupied (2 ^ (max_bits (is_v4 block) - len)) (same_family (is_v4 block) taken) s.
(** The lengths the allocator serves. *)
Definition servable (block : IpNetwork) (len : Z) : Prop :=
  prefix block <= len <= max_bits (is_v4 block) /\ max_bits (is_v4 block) - len < 128.
(** The block does not end with the last IPv6 address. *)
Definition room_above (block : IpNetwork) : Prop := (net_bounds block).2 < u128_MAX.

#[export] Instance servable_dec block len : Decision (servable block len).
Proof. unfold servable. apply _. Defined.

Lemma allocate_unservable block len taken :
  ~ servable block len -> allocate_subnet block len taken = Some None.
Proof.
  unfold servable, allocate_subnet. intros Hs.
  destruct (Z.ltb_spec len (prefix block)); [done|].
  destruct (Z.ltb_spec (max_bits (is_v4 block)) len); [done|]. cbn [orb].
  by rewrite (proj2 (Z.leb_le _ _)) by lia.
Qed.

Lemma v4_room_above n : net_wf n -> is_v4 n = true -> room_above n.
Proof.
  intros Hn Hv. unfold room_above. rewrite net_bounds_eq by done.
  destruct (network_bounds n Hn) as (_ & _ & Hhi). rewrite Hv in *. cbn [max_bits snd] in *.
  assert (2 ^ 32 < u128_MAX) by done. lia.
Qed.

Lemma sorted_same tb s size :
  (free size (merge_sort bounds_le tb) s <-> free size tb s) /\
  (occupied size (merge_sort bounds_le tb) s <-> occupied size tb s).
Proof.
  unfold free, occupied. pose proof (merge_sort_Permutation bounds_le tb) as Hp.
  setoid_rewrite Hp. done.
Qed.

(** What [make_net] makes of a slot. *)
Lemma make_net_bounds block len s : net_wf block -> servable block len -> subnet block len s ->
  exists n, make_net s len (is_v4 block) = Some n /\ is_v4 n = is_v4 block /\ prefix n = len /\
    net_wf n /\ net_bounds n = (s, s + 2 ^ (max_bits (is_v4 block) - len) - 1).
Proof.
  intros Hb Hs (Hd & Hlo & Hhi). unfold servable in Hs.
  destruct (network_bounds block Hb) as (_ & Hn0 & Hnhi).
  rewrite (net_bounds_eq block Hb) in Hlo, Hhi. cbn [fst snd] in Hlo, Hhi.
  assert (0 <= prefix block) by apply Hb.
  set (k := max_bits (is_v4 block) - len) in *. set (v4 := is_v4 block) in *.
  assert (0 < 2 ^ k) as Hk by (apply Z.pow_pos_nonneg; lia).
  set (n := {| is_v4 := v4; ip := s; prefix := len |}).
  assert (net_wf n) as Hn by (split; cbn; lia).
  exists n. split.
  { unfold make_net. assert (0 <= len <= max_bits v4 /\ fits (max_bits v4) s) as [Hl Hf].
    { unfold fits. lia. }
    subst n. fold v4. clear - Hl Hf LAWS. destruct v4; [rewrite wrap_small by done|]; by apply new_accepts. }
  split_and!; [done|done|done|].
  rewrite (net_bounds_eq n Hn), (network_clears n Hn). cbn [is_v4 prefix ip n]. fold k.
  destruct Hd as [q ->]. by rewrite Z.div_mul by lia.
Qed.

Lemma allocate_spec block len taken : net_wf block -> Forall net_wf taken ->
  room_above block -> servable block len ->
  exists r, allocate_subnet block len taken = Some r /\
    first_free (2 ^ (max_bits (is_v4 block) - len)) (net_bounds block).1 (net_bounds block).2
      (same_family (is_v4 block) taken) r (fun s => make_net s len (is_v4 block)).
Proof.
  intros Hb Ht Hroom Hs. unfold allocate_subnet. unfold room_above, u128_MAX in Hroom.
  unfold servable in Hs. set (v4 := is_v4 block) in *. remember (max_bits v4 - len) as h eqn:Eh.
  rewrite (proj2 (Z.ltb_ge len (prefix block))), (proj2 (Z.ltb_ge (max_bits v4) len)) by lia. cbn [orb].
  rewrite (proj2 (Z.leb_gt 128 h)) by lia. rewrite Z.shiftl_mul_pow2, Z.mul_1_l by lia.
  assert (0 <= prefix block) as Hp0 by apply Hb.
  destruct (network_bounds block Hb) as (Hd & Hn0 & Hnhi).
  assert ((2 ^ h | 2 ^ (max_bits (is_v4 block) - prefix block))) as Hdiv.
  { exists (2 ^ (len - prefix block)). rewrite <- Z.pow_add_r by lia.
    f_equal. fold v4. lia. }
  rewrite (net_bounds_eq block Hb) in *. cbn [fst snd] in *.
  set (bs := network block) in *. set (bk := 2 ^ _) in *.
  set (tb := merge_sort _ _).
  assert ((2 ^ h | bs)) as Hbsd by by etrans.
  assert ((2 ^ h | bs + bk - 1 + 1)) as Hbed.
  { replace (bs + bk - 1 + 1) with (bs + bk) by lia. by apply Z.divide_add_r. }
  destruct (alloc_loop_spec (2 ^ h) bs (bs + bk - 1) h ltac:(lia) eq_refl Hn0 Hbed ltac:(lia)
    v4 len tb (S (length taken)) bs) as (r & Hr & Hff).
  - unfold tb. rewrite merge_sort_Permutation. apply Forall_fmap, Forall_forall.
    intros t [_ Hin]%list_elem_of_filter. apply net_cidr_bounds.
    exact (proj1 (Forall_forall _ _) Ht t Hin).
  - done.
  - lia.
  - intros s Hsl ?. destruct Hsl as (_ & ? & _). lia.
  - unfold ahead. eapply Nat.le_lt_trans; [apply length_filter|]. unfold tb.
    rewrite merge_sort_Permutation, length_fmap. apply Nat.lt_succ_r, length_filter.
  - exists r. split; [exact Hr|]. unfold first_free, before_occupied in *.
    destruct Hff as [(s & H1 & H2 & H3 & H4)|[H1 H2]].
    + left. exists s. split_and!; [done|by apply sorted_same| |done].
      intros s' Hs' Hlt. by apply sorted_same, H3.
    + right. split; [done|]. intros s' Hs'. by apply sorted_same, H2.
Qed.
End allocate.

(** The network handed out, in full. *)
Lemma allocate_answer `{NL : !IpNetLib, LAWS : !IpNetLaws} block len taken :
  net_wf block -> Forall net_wf taken -> room_above block ->
  exists r, allocate_subnet block len taken = Some r /\
    match r with
    | Some n =>
        net_wf n /\ is_v4 n = is_v4 block /\ prefix n = len /\ subnet block len (net_bounds n).1 /\
        (net_bounds n).2 = (net_bounds n).1 + 2 ^ (max_bits (is_v4 block) - len) - 1 /\
        (forall t, t ∈ taken -> is_v4 t = is_v4 block -> disjoint_nets n t) /\
        (forall s, subnet block len s -> s < (net_bounds n).1 -> taken_at block len taken s)
    | None => ~ servable block len \/ forall s, subnet block len s -> taken_at block len taken s
    end.
Proof.
  intros Hblock Htaken Hroom.
  destruct (decide (servable block len)) as [Hs|Hs].
  2: { exists None. split; [by apply allocate_unservable|by left]. }
  destruct (allocate_spec block len taken Hblock Htaken Hroom) as (r & Hr & Hff); [exact Hs|].
  exists r. split; [exact Hr|]. destruct Hff as [(s & Hsl & Hfree & Hbef & ->)|[-> Hall]]; [|by right].
  destruct (make_net_bounds block len s Hblock) as (n & -> & Hv & Hp & Hwf & Hbn); [exact Hs|done|].
  rewrite Hbn. cbn [fst snd]. split_and!; [done|done|done|exact Hsl|done| |exact Hbef].
  intros t Ht Hvt. unfold disjoint_nets. rewrite Hbn. cbn [fst snd].
  assert (net_bounds t ∈ same_family (is_v4 block) taken) as Hin.
  { apply list_elem_of_fmap_2. by apply list_elem_of_filter. }
  specialize (Hfree _ Hin). unfold hit in Hfree. lia.
Qed.

(** C37: [allocate_subnet] always answers, within one round per allocation, and
    answers right: a network of the wanted length inside the block, disjoint
    from every allocation of its family, and the lowest such (every lower one
    overlaps an allocation); or nothing, when the length cannot be served or
    every subnet of the block overlaps an allocation. *)
Theorem allocate_subnet_first_fit `{NL : !IpNetLib, LAWS : !IpNetLaws} block len taken
    (Hblock : net_wf block) (Htaken : Forall net_wf taken) (Hroom : room_above block) :
  exists r, allocate_subnet block len taken = Some r /\
    match r with
    | Some n =>
        is_v4 n = is_v4 block /\ prefix n = len /\ subnet block len (net_bounds n).1 /\
        (net_bounds n).2 = (net_bounds n).1 + 2 ^ (max_bits (is_v4 block) - len) - 1 /\
        (forall t, t ∈ taken -> is_v4 t = is_v4 block -> disjoint_nets n t) /\
        (forall s, subnet block len s -> s < (net_bounds n).1 -> taken_at block len taken s)
    | None => ~ servable block len \/ forall s, subnet block len s -> taken_at block len taken s
    end.
Proof.
  destruct (allocate_answer block len taken Hblock Htaken Hroom) as (r & Hr & Hs).
  exists r. split; [exact Hr|]. destruct r; [apply Hs|exact Hs].
Qed.

Import RefIpNet.

Lemma allocate_subnet_first_fit_witness :
  exists n, allocate_subnet (v4 10 0 0 0 24) 26
      [v4 10 0 0 70 32; v4 10 0 0 0 26] = Some (Some n) /\
    n = v4 10 0 0 128 26 /\
    disjoint_nets n (v4 10 0 0 70 32) /\
    (forall s, subnet (v4 10 0 0 0 24) 26 s -> s < (net_bounds n).1 ->
      taken_at (v4 10 0 0 0 24) 26
        [v4 10 0 0 70 32; v4 10 0 0 0 26] s).
Proof.
  pose (block := v4 10 0 0 0 24).
  pose (taken := [v4 10 0 0 70 32; v4 10 0 0 0 26]).
  destruct (allocate_subnet_first_fit block 26 taken) as (r & Hr & Hspec).
  - vm_compute. repeat split; discriminate.
  - repeat constructor; vm_compute; (reflexivity || discriminate).
  - vm_compute. reflexivity.
  - assert (r = Some (v4 10 0 0 128 26)) as ->.
    { assert (Some r = Some (Some (v4 10 0 0 128 26))) as Hb; [|by injection Hb].
      rewrite <- Hr. exact between_taken. }
    destruct Hspec as (_ & _ & _ & _ & Hdis & Hlow).
    exists (v4 10 0 0 128 26). split; [exact Hr|]. split; [reflexivity|].
    split; [|exact Hlow]. apply Hdis; [by left|reflexivity].
Defined.

(** In a block that ends with the last IPv6 address the arithmetic wraps:
    rounding up past an allocation in the last slot gives 0, so does stepping to
    the next slot, and the network handed out is [::/127], outside the block. *)
Theorem top_block_wraps :
  let net (a p : Z) := {| is_v4 := false; ip := a; prefix := p |} in
  let block := net (2 ^ 128 - 4) 126 in
  let taken := [net (2 ^ 128 - 4) 127; net (2 ^ 128 - 2) 128] in
  allocate_subnet block 127 taken = Some (Some (net 0 127)) /\
  net_wf block /\ Forall net_wf taken /\
  (net_bounds (net 0 127)).2 < (net_bounds block).1.
Proof.
  cbv zeta. split; [vm_compute; reflexivity|].
  split; [split; vm_compute; split; (reflexivity || discriminate)|].
  split; [|vm_compute; reflexivity].
  repeat constructor; vm_compute; (reflexivity || discriminate).
Qed.
