(* ===== verification/NetText.v ===== *)
(** * Addresses and their text

    [std::net::IpAddr]: the value, the parser behind
    [str::parse::<IpAddr>()] and the dotted form [to_string] gives an IPv4
    address. Addresses reach the program as text from the database, so what it
    picks and counts is defined on this parser. *)

From Stdlib Require Import Ascii String.
From stdpp Require Import list_numbers strings.
From S2P Require Import Prelude.

(** [IpAddr::V4]/[IpAddr::V6]: the family and the address as a number. *)
Record IpAddr := { a_v4 : bool; a_bits : Z }.
#[export] Instance IpAddr_eq_dec : EqDecision IpAddr.
Proof. solve_decision. Defined.
#[export] Instance IpAddr_countable : Countable IpAddr.
Proof.
  refine (inj_countable' (fun a => (a_v4 a, a_bits a))
    (fun p => {| a_v4 := p.1; a_bits := p.2 |}) _).
  by intros [].
Defined.

(** ** Text as a list *)

Definition text : string -> list ascii := String.list_ascii_of_string.
Definition untext : list ascii -> string := String.string_of_list_ascii.
(** [split(c)]: what is between the characters that satisfy [p]; never empty. *)
Fixpoint split_on (p : ascii -> bool) (s : list ascii) : list (list ascii) :=
  match s with
  | [] => [[]]
  | c :: s =>
      match split_on p s with
      | l :: ls => if p c then [] :: l :: ls else (c :: l) :: ls
      | [] => []
      end
  end.

(** ** The parser of the standard library *)

(** A parser consumes a prefix of its input; one that fails consumes nothing
    ([read_atomically]). *)
Definition parser (A : Type) : Type := list ascii -> option (A * list ascii).

Definition to_digit (radix : Z) (c : ascii) : option Z :=
  let n := Z.of_N (N_of_ascii c) in
  let d :=
    if (48 <=? n) && (n <=? 57) then Some (n - 48)
    else if (97 <=? n) && (n <=? 122) then Some (n - 87)
    else if (65 <=? n) && (n <=? 90) then Some (n - 55)
    else None in
  match d with Some d => if d <? radix then Some d else None | None => None end.

Definition read_given_char (c : ascii) : parser unit := fun s =>
  match s with c' :: s' => if Ascii.eqb c' c then Some (tt, s') else None | [] => None end.

(** The digits of a number: its value and how many there are. [None] once there
    are more than [max]. *)
Fixpoint read_digits (radix : Z) (max : nat) (acc : Z) (count : nat) (s : list ascii)
  : option (Z * nat * list ascii) :=
  match s with
  | c :: s' =>
      match to_digit radix c with
      | Some d =>
          if (max <? S count)%nat then None
          else read_digits radix max (acc * radix + d) (S count) s'
      | None => Some (acc, count, s)
      end
  | [] => Some (acc, count, s)
  end.

(** [read_number::<uW>(radix, Some(max_digits), allow_zero_prefix)] *)
Definition read_number (w radix : Z) (max : nat) (allow_zero_prefix : bool) : parser Z := fun s =>
  let has_leading_zero := match s with c :: _ => Ascii.eqb c "0" | [] => false end in
  match read_digits radix max 0 0 s with
  | Some (v, count, s') =>
      if Nat.eqb count 0 then None
      else if negb allow_zero_prefix && has_leading_zero && (1 <? count)%nat then None
      else if v <? 2 ^ w then Some (v, s') else None
  | None => None
  end.

Definition read_separator {A} (sep : ascii) (index : nat) (inner : parser A) : parser A := fun s =>
  match index with
  | O => inner s
  | S _ => match read_given_char sep s with Some (_, s') => inner s' | None => None end
  end.

(** The groups of a dotted quad from group [i] on, most significant first. *)
Fixpoint read_quad (n i : nat) (acc : Z) (s : list ascii) : option (Z * list ascii) :=
  match n with
  | O => Some (acc, s)
  | S n =>
      match read_separator "." i (read_number 8 10 3 false) s with
      | Some (g, s') => read_quad n (S i) (acc * 256 + g) s'
      | None => None
      end
  end.
Definition read_ipv4_addr : parser Z := read_quad 4 0 0.

(** [read_groups]: up to [limit] 16-bit groups from group [i] on, and whether
    they end with a dotted quad. *)
Fixpoint read_groups (n i limit : nat) (s : list ascii) : list Z * bool * list ascii :=
  match n with
  | O => ([], false, s)
  | S n =>
      match (if (i <? limit - 1)%nat then read_separator ":" i read_ipv4_addr s else None) with
      | Some (v4, s') => ([v4 / 65536; v4 mod 65536], true, s')
      | None =>
          match read_separator ":" i (read_number 16 16 4 true) s with
          | Some (g, s') =>
              let '(gs, v4, s'') := read_groups n (S i) limit s' in (g :: gs, v4, s'')
          | None => ([], false, s)
          end
      end
  end.

Definition of_groups (gs : list Z) : Z := foldl (fun acc g => acc * 65536 + g) 0 gs.

Definition read_ipv6_addr : parser Z := fun s =>
  let '(head, head_ipv4, s1) := read_groups 8 0 8 s in
  if Nat.eqb (length head) 8 then Some (of_groups head, s1)
  else if head_ipv4 then None
  else
    match read_given_char ":" s1 with
    | Some (_, s2) =>
        match read_given_char ":" s2 with
        | Some (_, s3) =>
            let limit := (8 - (length head + 1))%nat in
            let '(tail, _, s4) := read_groups limit 0 limit s3 in
            Some (of_groups (head ++ replicate (8 - length head - length tail) 0 ++ tail), s4)
        | None => None
        end
    | None => None
    end.

Definition read_ip_addr : parser IpAddr := fun s =>
  match read_ipv4_addr s with
  | Some (a, s') => Some ({| a_v4 := true; a_bits := a |}, s')
  | None =>
      match read_ipv6_addr s with
      | Some (a, s') => Some ({| a_v4 := false; a_bits := a |}, s')
      | None => None
      end
  end.

(** [s.parse::<IpAddr>().ok()]: the whole text must be used. *)
Definition parse_ip (s : string) : option IpAddr :=
  match read_ip_addr (String.list_ascii_of_string s) with
  | Some (a, []) => Some a
  | _ => None
  end.

(** ** Printing an IPv4 address *)

Definition digit (d : Z) : ascii := ascii_of_N (Z.to_N (48 + d)).
(** The decimal form of an octet. *)
Definition show_octet (n : Z) : list ascii :=
  if n <? 10 then [digit n]
  else if n <? 100 then [digit (n / 10); digit (n mod 10)]
  else [digit (n / 100); digit (n / 10 mod 10); digit (n mod 10)].

(** ** Printing an IPv6 address *)

(** [Ipv6Addr::segments] *)
Definition segments (a : Z) : list Z :=
  (fun i => a / 2 ^ (16 * i) mod 65536) <$> [7; 6; 5; 4; 3; 2; 1; 0].

Definition hex_digit (d : Z) : ascii :=
  ascii_of_N (Z.to_N (if d <? 10 then 48 + d else 87 + d)).
(** ["{:x}"] of a segment. *)
Definition show_hex (n : Z) : list ascii :=
  if n <? 16 then [hex_digit n]
  else if n <? 256 then [hex_digit (n / 16); hex_digit (n mod 16)]
  else if n <? 4096 then
    [hex_digit (n / 256); hex_digit (n / 16 mod 16); hex_digit (n mod 16)]
  else
    [hex_digit (n / 4096); hex_digit (n / 256 mod 16); hex_digit (n / 16 mod 16);
     hex_digit (n mod 16)].

(** The longest run of zero segments, the first of them: [(start, len)]. *)
Fixpoint zero_span (segs : list Z) (i : nat) (current longest : nat * nat) : nat * nat :=
  match segs with
  | [] => longest
  | g :: segs =>
      if g =? 0 then
        let current := (if Nat.eqb current.2 0 then i else current.1, S current.2) in
        zero_span segs (S i) current (if (longest.2 <? current.2)%nat then current else longest)
      else zero_span segs (S i) (0%nat, 0%nat) longest
  end.

Definition fmt_tail (gs : list Z) : list ascii := gs ≫= (fun g => ":"%char :: show_hex g).
Definition fmt_subslice (gs : list Z) : list ascii :=
  match gs with [] => [] | g :: gs => show_hex g ++ fmt_tail gs end.

(** The octets of the dotted form. *)
Definition dotted (a : Z) : list ascii :=
  show_octet (a / 2 ^ 24 mod 256) ++ "."%char :: show_octet (a / 2 ^ 16 mod 256) ++
  "."%char :: show_octet (a / 2 ^ 8 mod 256) ++ "."%char :: show_octet (a mod 256).

Definition fmt_v6 (a : Z) : list ascii :=
  if a / 2 ^ 32 =? 0xffff then (* to_ipv4_mapped *)
    String.list_ascii_of_string "::ffff:" ++ dotted (a mod 2 ^ 32)
  else
    let segs := segments a in
    let '(start, len) := zero_span segs 0 (0%nat, 0%nat) (0%nat, 0%nat) in
    if (1 <? len)%nat then
      fmt_subslice (take start segs) ++ ":"%char :: ":"%char ::
      fmt_subslice (drop (start + len) segs)
    else fmt_subslice segs.

(** [IpAddr::to_string] *)
Definition show_ip (a : IpAddr) : string :=
  String.string_of_list_ascii (if a_v4 a then dotted (a_bits a) else fmt_v6 (a_bits a)).

Example parse_v4 : parse_ip "10.0.0.1" = Some {| a_v4 := true; a_bits := 167772161 |}.
Proof. reflexivity. Qed.
Example parse_leading_zero : parse_ip "10.0.0.01" = None.
Proof. reflexivity. Qed.
Example parse_v6 : parse_ip "fd00::1:ff" = Some {| a_v4 := false; a_bits := 0xfd0000000000000000000000000100ff |}.
Proof. reflexivity. Qed.
Example parse_mapped : parse_ip "::ffff:10.0.0.1" = Some {| a_v4 := false; a_bits := 0xffff0a000001 |}.
Proof. reflexivity. Qed.
Example parse_full_v6 : parse_ip "1:2:3:4:5:6:7:8" = Some {| a_v4 := false; a_bits := 0x10002000300040005000600070008 |}.
Proof. reflexivity. Qed.
Example parse_two_gaps : parse_ip "1::2::3" = None.
Proof. reflexivity. Qed.
Example show_v4_ex : show_ip {| a_v4 := true; a_bits := 167772161 |} = "10.0.0.1".
Proof. reflexivity. Qed.
Example show_v6_ex : show_ip {| a_v4 := false; a_bits := 0xfd0000000000000000000000000100ff |} = "fd00::1:ff".
Proof. reflexivity. Qed.
Example show_mapped_ex : show_ip {| a_v4 := false; a_bits := 0xffff0a000001 |} = "::ffff:10.0.0.1".
Proof. reflexivity. Qed.

(** ** Reading back what is printed *)

Definition octets : list Z := seqZ 0 256.

Lemma octet_read n r : 0 <= n < 256 ->
  read_number 8 10 3 false (show_octet n ++ "."%char :: r) = Some (n, "."%char :: r) /\
  read_number 8 10 3 false (show_octet n) = Some (n, []).
Proof.
  intros Hn.
  assert (Forall (fun n =>
    read_number 8 10 3 false (show_octet n ++ "."%char :: r) = Some (n, "."%char :: r) /\
    read_number 8 10 3 false (show_octet n) = Some (n, [])) octets) as Hall.
  { let l := eval vm_compute in octets in change octets with l.
    repeat (constructor; [split; vm_compute; reflexivity|]). constructor. }
  rewrite Forall_forall in Hall. apply Hall. unfold octets. apply elem_of_seqZ. lia.
Qed.

Lemma quad_sum a : fits 32 a ->
  (((0 * 256 + a / 2 ^ 24 mod 256) * 256 + a / 2 ^ 16 mod 256) * 256 + a / 2 ^ 8 mod 256) * 256 +
  a mod 256 = a.
Proof.
  unfold fits. intros Ha.
  assert (a / 2 ^ 16 = a / 2 ^ 8 / 256 /\ a / 2 ^ 24 = a / 2 ^ 8 / 256 / 256) as [-> ->]
    by (rewrite !Z.div_div by lia; by split).
  assert (a / 2 ^ 8 / 256 / 256 < 256) by (rewrite !Z.div_div by lia; apply Z.div_lt_upper_bound; lia).
  change (2 ^ 8) with 256 in *.
  pose proof (Z.div_mod a 256 ltac:(lia)) as E0.
  pose proof (Z.div_mod (a / 256) 256 ltac:(lia)) as E1.
  pose proof (Z.div_mod (a / 256 / 256) 256 ltac:(lia)) as E2.
  rewrite (Z.mod_small (a / 256 / 256 / 256)) by (split; [repeat apply Z.div_pos; lia|done]).
  lia.
Qed.

Lemma dotted_read a : fits 32 a -> read_ipv4_addr (dotted a) = Some (a, []).
Proof.
  intros Ha. unfold dotted, read_ipv4_addr.
  assert (forall m, 0 <= m mod 256 < 256) as Ho by (intros; apply Z.mod_pos_bound; lia).
  cbn [read_quad read_separator].
  rewrite (proj1 (octet_read _ _ (Ho _))). cbn [read_given_char Ascii.eqb Bool.eqb].
  rewrite (proj1 (octet_read _ _ (Ho _))). cbn [read_given_char Ascii.eqb Bool.eqb].
  rewrite (proj1 (octet_read _ _ (Ho _))). cbn [read_given_char Ascii.eqb Bool.eqb].
  rewrite (proj2 (octet_read _ [] (Ho _))). by rewrite quad_sum.
Qed.

(** *** Segments *)

Lemma hex_digit_value d : 0 <= d < 16 -> to_digit 16 (hex_digit d) = Some d.
Proof.
  intros Hd. assert (Forall (fun d => to_digit 16 (hex_digit d) = Some d) (seqZ 0 16)) as Hall.
  { let l := eval vm_compute in (seqZ 0 16) in change (seqZ 0 16) with l.
    repeat (constructor; [reflexivity|]). constructor. }
  rewrite Forall_forall in Hall. apply Hall, elem_of_seqZ. lia.
Qed.

(** What ends a number: the end of the text or a separator. *)
Definition ends (s : list ascii) : Prop :=
  match s with [] => True | c :: _ => to_digit 16 c = None end.

Lemma read_digits_ends max acc count s : ends s ->
  read_digits 16 max acc count s = Some (acc, count, s).
Proof. destruct s as [|c s]; [done|]. cbn. by intros ->. Qed.

Lemma read_hex_digit max acc count d s : 0 <= d < 16 -> (count < max)%nat ->
  read_digits 16 max acc count (hex_digit d :: s) = read_digits 16 max (acc * 16 + d) (S count) s.
Proof.
  intros Hd Hc. cbn [read_digits]. rewrite hex_digit_value by done.
  by rewrite (proj2 (Nat.ltb_ge max (S count))) by lia.
Qed.

Lemma segment_read g r : 0 <= g < 65536 -> ends r ->
  read_number 16 16 4 true (show_hex g ++ r) = Some (g, r).
Proof.
  intros Hg Hr. unfold read_number.
  enough (exists n, read_digits 16 4 0 0 (show_hex g ++ r) = Some (g, S n, r)) as [n ->].
  { cbn. by rewrite (proj2 (Z.ltb_lt g _)) by lia. }
  assert (forall m, 0 <= m mod 16 < 16) as Hm by (intros; apply Z.mod_pos_bound; lia).
  pose proof (Z.div_mod g 16 ltac:(lia)). pose proof (Z.div_mod (g / 16) 16 ltac:(lia)).
  pose proof (Z.div_mod (g / 16 / 16) 16 ltac:(lia)). pose proof (Hm g). pose proof (Hm (g / 16)).
  pose proof (Hm (g / 16 / 16)).
  assert (g / 256 = g / 16 / 16) as E1 by (by rewrite Z.div_div by lia).
  assert (g / 4096 = g / 16 / 16 / 16) as E2 by (by rewrite !Z.div_div by lia).
  unfold show_hex. rewrite E1, E2.
  destruct (Z.ltb_spec g 16); [|destruct (Z.ltb_spec g 256); [|destruct (Z.ltb_spec g 4096)]];
    cbn [app]; repeat rewrite read_hex_digit by lia; rewrite read_digits_ends by done;
    eexists; f_equal; f_equal; f_equal; lia.
Qed.

Lemma read_digits_suffix radix max acc count s v n s' :
  read_digits radix max acc count s = Some (v, n, s') -> s' `suffix_of` s.
Proof.
  revert acc count. induction s as [|c s IH]; intros acc count; cbn [read_digits].
  { by intros [= _ _ <-]. }
  destruct (to_digit radix c); [|by intros [= _ _ <-]].
  destruct (_ <? _)%nat; [done|]. intros Hs%IH. by apply suffix_cons_r.
Qed.

(** Without a dot there is no dotted quad. *)
Lemma no_dot_no_quad s : ("."%char ∉ s) -> read_ipv4_addr s = None.
Proof.
  intros Hs. unfold read_ipv4_addr. cbn [read_quad read_separator].
  unfold read_number at 1. destruct (read_digits _ _ _ _ s) as [[[v n] s']|] eqn:E; [|done].
  apply read_digits_suffix in E as [pre E].
  destruct (Nat.eqb n 0); [done|]. destruct (negb false && _ && _); [done|].
  destruct (v <? _); [|done]. destruct s' as [|c s']; [done|]. cbn [read_given_char].
  destruct (Ascii.eqb_spec c "."); [|done]. subst. exfalso. apply Hs.
  apply elem_of_app. right. by left.
Qed.

(** *** Lists of segments *)

Definition segment (g : Z) : Prop := 0 <= g < 65536.
Definition no_dot (s : list ascii) : Prop := "."%char ∉ s.
(** Where a list of segments stops. *)
Definition stop (r : list ascii) : Prop := r = [] \/ exists x, r = ":"%char :: ":"%char :: x.
(** The text of segments that follow [i] others. *)
Definition fmt_from (i : nat) (gs : list Z) : list ascii :=
  match i with O => fmt_subslice gs | S _ => fmt_tail gs end.

Lemma no_dot_app s t : no_dot s -> no_dot t -> no_dot (s ++ t).
Proof. unfold no_dot. rewrite elem_of_app. tauto. Qed.
Lemma no_dot_cons c s : c <> "."%char -> no_dot s -> no_dot (c :: s).
Proof. unfold no_dot. rewrite elem_of_cons. intros ? ? [?|?]; [congruence|done]. Qed.
Lemma hex_digit_no_dot d : 0 <= d < 16 -> hex_digit d <> "."%char.
Proof. intros Hd E. pose proof (hex_digit_value d Hd) as Hv. rewrite E in Hv. discriminate Hv. Qed.

Lemma show_hex_no_dot g : segment g -> no_dot (show_hex g).
Proof.
  unfold segment, show_hex. intros Hg.
  assert (forall m, 0 <= m mod 16 < 16) as Hm by (intros; apply Z.mod_pos_bound; lia).
  assert (no_dot []) as Hnil by apply not_elem_of_nil.
  assert (0 <= g / 4096) by (apply Z.div_pos; lia). assert (0 <= g / 256) by (apply Z.div_pos; lia).
  assert (0 <= g / 16) by (apply Z.div_pos; lia).
  assert (g / 4096 < 16) by (apply Z.div_lt_upper_bound; lia).
  destruct (Z.ltb_spec g 16); [|destruct (Z.ltb_spec g 256); [|destruct (Z.ltb_spec g 4096)]];
    repeat (apply no_dot_cons;
      [apply hex_digit_no_dot; first [apply Hm|split; (lia || apply Z.div_lt_upper_bound; lia)]|]);
    done.
Qed.

Lemma fmt_no_dot i gs : Forall segment gs -> no_dot (fmt_from i gs).
Proof.
  intros Hgs. assert (forall gs, Forall segment gs -> no_dot (fmt_tail gs)) as Htail.
  { clear. intros gs. induction 1 as [|g gs Hg _ IH]; [apply not_elem_of_nil|].
    apply (no_dot_app (":"%char :: show_hex g)); [|exact IH].
    apply no_dot_cons; [done|by apply show_hex_no_dot]. }
  destruct i; [|by apply Htail]. destruct Hgs as [|g gs Hg Hgs]; [apply not_elem_of_nil|].
  apply no_dot_app; [by apply show_hex_no_dot|by apply Htail].
Qed.

Lemma fmt_tail_ends gs r : stop r -> ends (fmt_tail gs ++ r).
Proof. intros Hr. destruct gs; [|done]. by destruct Hr as [->|[x ->]]. Qed.

Lemma groups_stop n i limit r : stop r -> no_dot r -> read_groups n i limit r = ([], false, r).
Proof.
  intros Hr Hd. destruct n as [|n]; [done|]. cbn [read_groups].
  assert (read_separator ":" i read_ipv4_addr r = None) as E1.
  { destruct i; [by apply no_dot_no_quad|]. destruct Hr as [->|[x ->]]; reflexivity. }
  assert (read_separator ":" i (read_number 16 16 4 true) r = None) as E2.
  { destruct i, Hr as [->|[x ->]]; reflexivity. }
  rewrite E1, E2. by destruct (_ <? _)%nat.
Qed.

(** The parser reads back the segments it finds, and stops after them. *)
Lemma groups_read gs n i limit r : Forall segment gs -> (length gs <= n)%nat -> stop r -> no_dot r ->
  read_groups n i limit (fmt_from i gs ++ r) = (gs, false, r).
Proof.
  intros Hgs. revert n i. induction Hgs as [|g gs Hg Hgs IH]; intros n i Hn Hr Hd.
  { replace (fmt_from i [] ++ r) with r by (by destruct i). by apply groups_stop. }
  destruct n as [|n]; [cbn in Hn; lia|]. cbn [read_groups].
  assert (no_dot (fmt_from i (g :: gs) ++ r)) as Hnd.
  { apply no_dot_app; [|done]. apply fmt_no_dot. by constructor. }
  assert (read_separator ":" i read_ipv4_addr (fmt_from i (g :: gs) ++ r) = None) as E1.
  { destruct i as [|i]; [by apply no_dot_no_quad|]. cbn. apply no_dot_no_quad.
    intros Hin. apply Hnd. cbn. by right. }
  assert (read_separator ":" i (read_number 16 16 4 true) (fmt_from i (g :: gs) ++ r) =
    Some (g, fmt_tail gs ++ r)) as E2.
  { destruct i as [|i]; [cbn [fmt_from fmt_subslice read_separator]|cbn].
    all: rewrite <- (assoc_L (++)); apply segment_read; [exact Hg|by apply fmt_tail_ends]. }
  rewrite E1, E2. destruct (_ <? _)%nat; change (fmt_tail gs) with (fmt_from (S i) gs);
    rewrite IH by (done || (cbn in Hn; lia)); done.
Qed.

(** *** The longest run *)
Definition zeros (segs : list Z) (p : nat * nat) : Prop :=
  (p.1 + p.2 <= length segs)%nat /\ take p.2 (drop p.1 segs) = replicate p.2 0.

Lemma zero_span_zeros segs pre cur best :
  zeros pre best -> zeros pre cur -> (cur.2 <> 0%nat -> (cur.1 + cur.2 = length pre)%nat) ->
  zeros (pre ++ segs) (zero_span segs (length pre) cur best).
Proof.
  assert (forall pre t p, zeros pre p -> zeros (pre ++ t) p) as Hmono.
  { clear. intros pre t [s l] [Hl Hz]. cbn in *. split; cbn; [rewrite length_app; lia|].
    rewrite drop_app_le by lia. rewrite take_app_le; [done|]. rewrite length_drop. lia. }
  revert pre cur best. induction segs as [|g segs IH]; intros pre cur best Hb Hc Hcur; cbn [zero_span].
  { by rewrite app_nil_r. }
  replace (pre ++ g :: segs) with ((pre ++ [g]) ++ segs) by by rewrite <- (assoc_L (++)).
  replace (S (length pre)) with (length (pre ++ [g])) by (rewrite length_app; cbn; lia).
  destruct (Z.eqb_spec g 0) as [->|Hg].
  2: { apply IH; [by apply Hmono| |done]. split; cbn; [lia|done]. }
  set (cur' := (if Nat.eqb cur.2 0 then length pre else cur.1, S cur.2)).
  assert (zeros (pre ++ [0]) cur' /\ (cur'.1 + cur'.2 = length (pre ++ [0%Z]))%nat) as [Hz Hlen].
  { unfold cur'. rewrite length_app. cbn. destruct (Nat.eqb_spec cur.2 0) as [E|E].
    - rewrite E. split; [|lia]. split; cbn; [rewrite length_app; cbn; lia|].
      by rewrite drop_app_length.
    - specialize (Hcur E). split; [|lia]. destruct Hc as [_ Hcz].
      split; cbn [fst snd]; [rewrite length_app; cbn; lia|].
      rewrite drop_app_le by lia. rewrite (take_ge (drop cur.1 pre ++ [0])).
      2: { rewrite length_app, length_drop. cbn. lia. }
      rewrite take_ge in Hcz by (rewrite length_drop; lia). rewrite Hcz.
      change [0] with (replicate 1 0). rewrite <- replicate_add. f_equal. lia. }
  apply IH; [|done|done]. destruct (_ <? _)%nat; [done|by apply Hmono].
Qed.

Lemma zero_span_split segs s l : zero_span segs 0 (0%nat, 0%nat) (0%nat, 0%nat) = (s, l) ->
  (s + l <= length segs)%nat /\ segs = take s segs ++ replicate l 0 ++ drop (s + l) segs.
Proof.
  intros E. assert (zeros [] (0%nat, 0%nat)) as Hnil by (by split).
  pose proof (zero_span_zeros segs [] (0%nat, 0%nat) (0%nat, 0%nat) Hnil Hnil ltac:(done)) as Hz.
  cbn [length app] in Hz. rewrite E in Hz. destruct Hz as [Hl Hz]. cbn [fst snd] in *. split; [done|].
  rewrite <- Hz, <- drop_drop, take_drop. by rewrite take_drop.
Qed.

(** *** The round trip *)

Lemma of_segments a : fits 128 a -> of_groups (segments a) = a.
Proof.
  unfold fits. intros Ha. unfold of_groups, segments. cbn [fmap list_fmap foldl].
  assert (forall i, 0 <= i -> a / 2 ^ (16 * (i + 1)) = a / 2 ^ (16 * i) / 65536) as Hd.
  { intros i Hi. rewrite Z.div_div by (try apply Z.pow_nonzero; lia). f_equal.
    change 65536 with (2 ^ 16). rewrite <- Z.pow_add_r by lia. f_equal. lia. }
  pose proof (Hd 0 ltac:(lia) : a / 2 ^ (16 * 1) = a / 2 ^ (16 * 0) / 65536) as E0.
  pose proof (Hd 1 ltac:(lia) : a / 2 ^ (16 * 2) = a / 2 ^ (16 * 1) / 65536) as E1.
  pose proof (Hd 2 ltac:(lia) : a / 2 ^ (16 * 3) = a / 2 ^ (16 * 2) / 65536) as E2.
  pose proof (Hd 3 ltac:(lia) : a / 2 ^ (16 * 4) = a / 2 ^ (16 * 3) / 65536) as E3.
  pose proof (Hd 4 ltac:(lia) : a / 2 ^ (16 * 5) = a / 2 ^ (16 * 4) / 65536) as E4.
  pose proof (Hd 5 ltac:(lia) : a / 2 ^ (16 * 6) = a / 2 ^ (16 * 5) / 65536) as E5.
  pose proof (Hd 6 ltac:(lia) : a / 2 ^ (16 * 7) = a / 2 ^ (16 * 6) / 65536) as E6.
  assert (0 <= a / 2 ^ (16 * 7) < 65536) as E7.
  { split; [apply Z.div_pos; lia|]. apply Z.div_lt_upper_bound; lia. }
  change (16 * 0) with 0 in *. rewrite Z.pow_0_r, Z.div_1_r in *.
  assert (forall x, x / 65536 * 65536 + x mod 65536 = x) as Hdm.
  { intros x. pose proof (Z.div_mod x 65536 ltac:(lia)). lia. }
  rewrite (Z.mod_small (a / 2 ^ (16 * 7))) by done.
  rewrite Z.mul_0_l, Z.add_0_l.
  rewrite E6, Hdm, E5, Hdm, E4, Hdm, E3, Hdm, E2, Hdm, E1, Hdm, E0. apply Hdm.
Qed.

Lemma segments_segment a : Forall segment (segments a).
Proof. unfold segments. apply Forall_fmap, Forall_true. intros i. apply Z.mod_pos_bound. lia. Qed.

Lemma read_v6 a : fits 128 a -> read_ipv6_addr (fmt_v6 a) = Some (a, []).
Proof.
  intros Ha. unfold fmt_v6. destruct (Z.eqb_spec (a / 2 ^ 32) 65535) as [E|E].
  { assert (fits 32 (a mod 2 ^ 32)) as Hm by (apply Z.mod_pos_bound; lia).
    pose proof (dotted_read _ Hm) as Hd. pose proof (Z.div_mod a (2 ^ 32) ltac:(lia)) as Ea.
    assert (a = 65535 * 2 ^ 32 + a mod 2 ^ 32) as -> by lia.
    replace ((65535 * 2 ^ 32 + a mod 2 ^ 32) mod 2 ^ 32) with (a mod 2 ^ 32)
      by (rewrite Z.add_comm, Z_mod_plus_full, Z.mod_mod; lia).
    set (v := a mod 2 ^ 32) in *. unfold read_ipv6_addr. cbn [String.list_ascii_of_string app].
    set (t := "f"%char :: "f"%char :: "f"%char :: "f"%char :: ":"%char :: dotted v).
    assert (read_groups 8 0 8 (":"%char :: ":"%char :: t) = ([], false, ":"%char :: ":"%char :: t))
      as -> by reflexivity.
    assert (read_groups 7 0 7 t = ([65535; v / 65536; v mod 65536], true, [])) as Et.
    { unfold t. generalize dependent (dotted v). clear. intros u Hd. cbn [read_groups Nat.ltb Nat.leb Nat.sub].
      assert (read_separator ":" 0 read_ipv4_addr
        ("f"%char :: "f"%char :: "f"%char :: "f"%char :: ":"%char :: u) = None) as -> by reflexivity.
      assert (read_separator ":" 0 (read_number 16 16 4 true)
        ("f"%char :: "f"%char :: "f"%char :: "f"%char :: ":"%char :: u) =
        Some (65535, ":"%char :: u)) as -> by reflexivity.
      cbn [read_separator read_given_char Ascii.eqb Bool.eqb]. by rewrite Hd. }
    cbn -[t read_groups Z.mul Z.add Z.div Z.modulo Z.pow]. rewrite Et.
    cbn -[Z.mul Z.add Z.div Z.modulo Z.pow]. f_equal. f_equal.
    pose proof (Z.div_mod v 65536 ltac:(lia)). lia. }
  pose proof (of_segments a Ha) as Hof. pose proof (segments_segment a) as Hs.
  assert (length (segments a) = 8%nat) as Hlen by done.
  destruct (zero_span (segments a) 0 _ _) as [s l] eqn:Ez.
  destruct (zero_span_split _ s l Ez) as [Hl Hsplit]. rewrite Hlen in Hl.
  unfold read_ipv6_addr. destruct (Nat.ltb_spec 1 l) as [Hl1|Hl1].
  - set (r := fmt_subslice (drop (s + l) (segments a))).
    assert (no_dot r) as Hr by (apply (fmt_no_dot 0), Forall_drop, Hs).
    change (fmt_subslice (take s (segments a))) with (fmt_from 0 (take s (segments a))).
    rewrite groups_read.
    2: by apply Forall_take. 2: rewrite length_take; lia. 2: right; by eexists.
    2: repeat (apply no_dot_cons; [done|]); exact Hr.
    rewrite length_take, Hlen, Nat.min_l by lia.
    rewrite (proj2 (Nat.eqb_neq s 8)) by lia. cbn [read_given_char Ascii.eqb Bool.eqb].
    replace r with (fmt_from 0 (drop (s + l) (segments a)) ++ []) by (by rewrite app_nil_r).
    rewrite groups_read.
    2: by apply Forall_drop. 2: rewrite length_drop, Hlen; lia. 2: by left.
    2: apply not_elem_of_nil.
    rewrite length_drop, Hlen. replace (8 - s - (8 - (s + l)))%nat with l by lia.
    by rewrite <- Hsplit, Hof.
  - replace (fmt_subslice (segments a)) with (fmt_from 0 (segments a) ++ []) by (by rewrite app_nil_r).
    rewrite groups_read; [|done|by rewrite Hlen|by left|apply not_elem_of_nil].
    by rewrite Hlen, Hof.
Qed.

Definition ip_fits (a : IpAddr) : Prop := fits (if a_v4 a then 32 else 128) (a_bits a).

(** The first segment of an IPv6 address is not the first octet of a dotted quad. *)
Lemma v6_no_quad a : fits 128 a -> read_ipv4_addr (fmt_v6 a) = None.
Proof.
  intros Ha. unfold fmt_v6. destruct (Z.eqb_spec (a / 2 ^ 32) 65535); [done|].
  apply no_dot_no_quad. pose proof (segments_segment a) as Hs.
  destruct (zero_span (segments a) 0 _ _) as [s l]. destruct (_ <? _)%nat.
  - apply no_dot_app; [apply (fmt_no_dot 0), Forall_take, Hs|].
    repeat (apply no_dot_cons; [done|]). apply (fmt_no_dot 0), Forall_drop, Hs.
  - by apply (fmt_no_dot 0).
Qed.

(** An address survives its text: parsing what [to_string] prints gives the
    address back, for both families, the compressed and the mapped forms of
    IPv6 included. *)
Lemma parse_show a : ip_fits a -> parse_ip (show_ip a) = Some a.
Proof.
  intros Ha. unfold parse_ip, show_ip, read_ip_addr. rewrite String.list_ascii_of_string_of_list_ascii.
  destruct a as [[] a]; cbn [a_v4 a_bits]; unfold ip_fits in Ha; cbn in Ha.
  - by rewrite dotted_read.
  - by rewrite v6_no_quad, read_v6.
Qed.
