(* ===== verification/FwUpgrade.v ===== *)
(** * The daemon upgrades itself
    ([lnvps_fw/lnvps_fw_service/src/upgrade.rs])

    The latest release of the repository is looked up, compared with the running
    version, and on request downloaded, verified and installed. The answers of the
    network, SHA-256 and minisign are parameters; files are the staged path and the
    command that installs it. *)

From Stdlib Require Import Ascii String.
From S2P Require Import Prelude NetText FwRules.

(** ** Text *)

(** [char::is_whitespace] of an ASCII character. *)
Definition is_space (c : ascii) : bool :=
  let n := Z.of_N (N_of_ascii c) in ((9 <=? n) && (n <=? 13)) || (n =? 32).
Fixpoint drop_while (p : ascii -> bool) (s : list ascii) : list ascii :=
  match s with [] => [] | c :: s' => if p c then drop_while p s' else s end.
(** [str::trim] *)
Definition trim (s : list ascii) : list ascii := reverse (drop_while is_space (reverse (drop_while is_space s))).
(** [parse::<u64>()] *)
Fixpoint digits64 (acc : Z) (s : list ascii) : option Z :=
  match s with
  | [] => Some acc
  | c :: s => d ← FwRules.digit c; let acc := acc * 10 + d in if acc <? 2 ^ 64 then digits64 acc s else None
  end.
Definition parse_u64 (s : list ascii) : option Z :=
  match s with
  | [] => None
  | c :: s' => if Ascii.eqb c "+" && negb (bool_decide (s' = [])) then digits64 0 s' else digits64 0 s
  end.
(** [ends_with], [strip_prefix] *)
Definition ends_with (s suffix : list ascii) : bool := bool_decide (drop (length s - length suffix) s = suffix).
Definition strip_prefix (prefix s : list ascii) : option (list ascii) :=
  if decide (take (length prefix) s = prefix) then Some (drop (length prefix) s) else None.
Definition lower_char (c : ascii) : ascii :=
  let n := N_of_ascii c in
  if (65 <=? Z.of_N n) && (Z.of_N n <=? 90) then ascii_of_N (n + 32) else c.
Definition to_lowercase (s : string) : string := untext (lower_char <$> text s).

(** ** Versions *)

Definition no_v (s : list ascii) : list ascii := drop_while (Ascii.eqb "v") (trim s).
Definition parse_version (v : string) : option (Z * Z * Z) :=
  let number x := parse_u64 (default x (head (split_on (fun c => Ascii.eqb c "-" || Ascii.eqb c "+") x))) in
  match number <$> split_on (Ascii.eqb ".") (no_v (text v)) with
  | Some a :: Some b :: Some c :: _ => Some (a, b, c)
  | _ => None
  end.
Definition version_lt (x y : Z * Z * Z) : bool :=
  let '(a, b, c) := x in let '(a', b', c') := y in
  (a <? a') || (a =? a') && ((b <? b') || (b =? b') && (c <? c')).
Definition is_newer (latest current : string) : bool :=
  match parse_version latest, parse_version current with
  | Some l, Some c => version_lt c l
  | _, _ => negb (bool_decide (no_v (text latest) = trim (text current)))
  end.

(** ** Releases *)

Record GhAsset := { ga_name : string; ga_url : string; ga_digest : option string }.
Record GhRelease := { gr_tag_name : string; gr_assets : list GhAsset }.
Record DebAsset := { db_url : string; db_sha256 : option string; db_sig_url : option string }.
Record UpgradeStatus := {
  us_current : string; us_latest : option string; us_available : bool; us_deb_url : option string;
  us_deb_sha256 : option string; us_deb_sig_url : option string; us_checked_at : Z; us_error : option string
}.
Definition UpgradeStatus_default : UpgradeStatus :=
  {| us_current := ""; us_latest := None; us_available := false; us_deb_url := None; us_deb_sha256 := None;
     us_deb_sig_url := None; us_checked_at := 0; us_error := None |}.

Definition latest_release (rel : GhRelease) : string * option DebAsset :=
  let find suffix := head (filter (fun a => ends_with (text (ga_name a)) (text suffix) = true) (gr_assets rel)) in
  let sig_url := ga_url <$> find ".deb.minisig"%string in
  (gr_tag_name rel,
   (fun a => {| db_url := ga_url a;
                db_sha256 := d ← ga_digest a; h ← strip_prefix (text "sha256:") (text d);
                             Some (untext (lower_char <$> h));
                db_sig_url := sig_url |}) <$> find ".deb"%string).

(** [answer] is what the release's page answered: the release, or an error. *)
Definition check (answer : GhRelease + string) (current : string) (now_unix : Z) : UpgradeStatus :=
  match answer with
  | inl rel =>
      let '(tag, deb) := latest_release rel in
      {| us_current := current; us_latest := Some tag;
         us_available := bool_decide (is_Some deb) && is_newer tag current;
         us_deb_url := db_url <$> deb; us_deb_sha256 := deb ≫= db_sha256; us_deb_sig_url := deb ≫= db_sig_url;
         us_checked_at := now_unix; us_error := None |}
  | inr e =>
      {| us_current := current; us_latest := None; us_available := false; us_deb_url := None; us_deb_sha256 := None;
         us_deb_sig_url := None; us_checked_at := now_unix; us_error := Some e |}
  end.

(** ** Installing *)

Class Download := {
  fetch : string -> option (list Z);
  fetch_text : string -> option string;
  sha256 : list Z -> list Z;
  minisign_ok : string -> string -> list Z -> bool
}.

(** ["{b:02x}"] of each byte. *)
Definition hex (bytes : list Z) : string :=
  untext (bytes ≫= (fun b => [NetText.hex_digit (b / 16); NetText.hex_digit (b mod 16)])).

Inductive UpgradeError : Type := Unfetched | NotAnArchive | ShaMismatch | NoSignature | BadSignature | SpawnFailed.

Section install.
Context `{!Download}.

Definition AR_MAGIC : list Z := [33; 60; 97; 114; 99; 104; 62; 10].
Definition fetch_deb (url : string) : res UpgradeError (list Z) :=
  match fetch url with
  | None => Err Unfetched
  | Some bytes =>
      if (Z.of_nat (length bytes) <? 128) || negb (bool_decide (take 8 bytes = AR_MAGIC)) then Err NotAnArchive
      else Ok bytes
  end.

(** The base64 line of a key: neither blank nor a comment. *)
Definition key_line (key : string) : string :=
  let lines := split_on (Ascii.eqb (ascii_of_nat 10)) (text key) in
  let usable l := negb (bool_decide (trim l = [])) && negb (bool_decide (is_Some (strip_prefix (text "untrusted comment:") l))) in
  untext (trim (default (text key) (head (filter (fun l => usable l = true) lines)))).
Definition verify_minisign (key sig_url : string) (bytes : list Z) : res UpgradeError unit :=
  match fetch_text sig_url with
  | None => Err BadSignature
  | Some sig_text => if minisign_ok (key_line key) sig_text bytes then Ok tt else Err BadSignature
  end.

(** What is staged under the claimed path, and the packages handed to the
    installer. [spawned]: the installing unit started. *)
Record Staging := { st_staged : option (list Z); st_installed : list (list Z) }.

Definition download_verify_install (url : string) (sha : option string) (sig_url pubkey : option string)
    (spawned : bool) (s : Staging) : res UpgradeError unit * Staging :=
  let clear := {| st_staged := None; st_installed := st_installed s |} in
  (* [staging_path] claims an empty file *)
  let claimed := {| st_staged := Some []; st_installed := st_installed s |} in
  match fetch_deb url with
  | Err e => (Err e, claimed)
  | Ok bytes =>
      let got := hex (sha256 bytes) in
      if match sha with Some want => negb (String.eqb want got) | None => false end then (Err ShaMismatch, clear) else
      let verified :=
        match pubkey with
        | None => Ok tt
        | Some key =>
            match sig_url with
            | None => Err NoSignature
            | Some sig => verify_minisign key sig bytes
            end
        end in
      match verified with
      | Err e => (Err e, clear)
      | Ok _ =>
          if spawned then (Ok tt, {| st_staged := Some bytes; st_installed := st_installed s ++ [bytes] |})
          else (Err SpawnFailed, clear)
      end
  end.

(** ** What is guaranteed *)

(** A package that may be installed: an archive, with the digest of the release
    when it has one, and signed by the operator's key when there is one. *)
Definition trusted (url : string) (sha sig_url pubkey : option string) (bytes : list Z) : Prop :=
  fetch url = Some bytes /\ take 8 bytes = AR_MAGIC /\
  (forall want, sha = Some want -> want = hex (sha256 bytes)) /\
  (forall key, pubkey = Some key -> exists u sig, sig_url = Some u /\ fetch_text u = Some sig /\
     minisign_ok (key_line key) sig bytes = true).

(** C40: Nothing but a verified package reaches the installer; any failure leaves the
    installed packages as they were. *)
Theorem only_verified_installed url sha sig_url pubkey spawned s :
  let '(r, s') := download_verify_install url sha sig_url pubkey spawned s in
  match r with
  | Ok _ => exists bytes, st_installed s' = st_installed s ++ [bytes] /\ trusted url sha sig_url pubkey bytes
  | Err _ => st_installed s' = st_installed s
  end.
Proof.
  unfold download_verify_install, fetch_deb. destruct (fetch url) as [bytes|] eqn:Ef; [|done].
  destruct (_ || _) eqn:Ea; [done|]. apply orb_false_iff in Ea as [_ Ea%negb_false_iff%bool_decide_eq_true].
  destruct (match sha with Some _ => _ | None => _ end) eqn:Esha; [done|].
  destruct (match pubkey with Some _ => _ | None => _ end) as [[]|e] eqn:Ek; [|done]. destruct spawned; [|done].
  exists bytes. split; [done|]. split; [done|]. split; [done|]. split.
  - intros want ->. by apply negb_false_iff, String.eqb_eq in Esha.
  - intros key ->. destruct sig_url as [u|]; [|done]. unfold verify_minisign in Ek.
    destruct (fetch_text u) as [sig|] eqn:Eu; [|done]. destruct (minisign_ok _ _ _) eqn:Em; [|done]. by exists u, sig.
Qed.
End install.

Lemma is_newer_irrefl v : parse_version v <> None -> is_newer v v = false.
Proof.
  unfold is_newer. destruct (parse_version v) as [[[a b] c]|]; [|done]. intros _. cbn.
  by rewrite !Z.ltb_irrefl, !Z.eqb_refl.
Qed.
Example newer_1 : is_newer "v0.1.1" "0.1.0" = true. Proof. reflexivity. Qed.
Example newer_2 : is_newer "v0.10.0" "0.9.9" = true. Proof. reflexivity. Qed.
Example newer_3 : is_newer "v1.0.0-rc1" "1.0.0" = false. Proof. reflexivity. Qed.
Example newer_4 : is_newer "nightly" "0.1.0" = true. Proof. reflexivity. Qed.

(** An older release is not an upgrade, and is offered for installation all the same. *)
Definition old_release : GhRelease :=
  {| gr_tag_name := "v0.1.0"; gr_assets := [{| ga_name := "fw.deb"; ga_url := "u"; ga_digest := Some "sha256:AB" |}] |}%string.
Example older_offered :
  let s := check (inl old_release) "0.2.0" 0 in
  us_available s = false /\ us_deb_url s = Some "u"%string /\ us_deb_sha256 s = Some "ab"%string.
Proof. by vm_compute. Qed.
