(* ===== verification/FwApi.v ===== *)
(** * The control API of the firewall daemon
    ([lnvps_fw/lnvps_fw_service/src/api.rs])

    The handlers read and write a shared state: the ruleset and the limits that the
    billing service pushes, and the snapshots that the control loop publishes.
    Every request is authenticated first. A request is its handler's input, already
    routed and decoded; what it leaves is a response and a state. *)

From Stdlib Require Import Ascii String.
From stdpp Require Import list_numbers pretty.
From S2P Require Import Prelude FwCommon FwCidr FwBpf FwMaps FwDetect FwRuntime FwRules FwPublish NetText FwUpgrade.

(** ** Addresses as text *)

Fixpoint be_bytes (n : nat) (a : Z) : Addr :=
  match n with O => [] | S n => be_bytes n (a / 256) ++ [a mod 256] end.
Definition of_be (l : Addr) : Z := foldl (fun acc b => acc * 256 + b) 0 l.
Definition bytes_of (f : family) : nat := match f with V4 => 4 | V6 => 16 end.
(** [str::parse::<IpAddr>()] and [IpAddr::to_string], on octets. *)
#[export] Instance std_parse_ip : ParseIp := fun s =>
  a ← NetText.parse_ip s;
  let f := if a_v4 a then V4 else V6 in Some (f, be_bytes (bytes_of f) (a_bits a)).
Definition show_addr (f : family) (octets : Addr) : string :=
  NetText.show_ip {| a_v4 := bool_decide (f = V4); a_bits := of_be octets |}.

(** ["{addr}/{bits}"] *)
Definition to_cidr_string (k : CidrKey) : string :=
  String.append (show_addr (ck_fam k) (ck_net k))
    (String "/" (untext (show_octet (ck_bits k)))).

(** ** The shared state *)

Record GeoInfo := { g_asn : option Z; g_org : option string; g_country : option string }.
Definition GeoInfo_default : GeoInfo := {| g_asn := None; g_org := None; g_country := None |}.

Record TrackedIp := {
  ti_ip : string; ti_rx_pps : Z; ti_rx_bps : Z; ti_rx_syn_pps : Z; ti_rx_drop_pps : Z; ti_tx_pps : Z; ti_tx_bps : Z;
  ti_rx_drop_pct : Z; ti_mitigating : bool; ti_flags : Z; ti_load_pct : Z
}.
Record PrefixLoad := {
  pl_cidr : string; pl_rx_pps : Z; pl_rx_bps : Z; pl_rx_syn_pps : Z; pl_rx_drop_pps : Z; pl_tx_pps : Z; pl_tx_bps : Z;
  pl_rx_drop_pct : Z; pl_mitigating : bool; pl_flags : Z; pl_load_pct : Z
}.
Record Totals := {
  to_rx_pps : Z; to_rx_bps : Z; to_rx_syn_pps : Z; to_rx_drop_pps : Z; to_rx_drop_pct : Z; to_tx_pps : Z; to_tx_bps : Z
}.
Record SourceBlock := { sb_cidr : string; sb_age_secs : Z; sb_pps : Z; sb_manual : bool; sb_cooling : bool }.
Record TrackedSource := { ts_ip : string; ts_pps : Z; ts_state : string; ts_manual : bool; ts_age_secs : Z }.
Record LearnedPort := { lp_ip : string; lp_port : Z; lp_proto : string; lp_age_secs : Z }.
Record InterfaceInfo := { if_name : string; if_speed_mbps : option Z; if_role : string }.
Record OriginStat := { og_country : string; og_sources : Z; og_pps : Z; og_drop_pps : Z; og_dropping : Z }.

(** What the control loop publishes. *)
Record Snapshots := {
  sn_active : list Mitigation; sn_tracked : list TrackedIp; sn_prefixes : list PrefixLoad;
  sn_blocks : list SourceBlock; sn_sources : list TrackedSource; sn_ports : list LearnedPort;
  sn_totals : Totals; sn_nics : list InterfaceInfo; sn_events : EventRing
}.
(** What the daemon was started with. *)
Record ApiConfig := {
  cf_token : string; cf_allow_ips : list (family * Addr); cf_version : string; cf_interfaces : list string;
  cf_upgrade_repo : string; cf_allow_remote_upgrade : bool; cf_upgrade_pubkey : option string
}.
Record SharedState := {
  a_config : ApiConfig;
  a_rules : RuleSet; a_rules_version : Z;
  a_limits : Limits; a_limits_version : Z;
  a_upgrade : UpgradeStatus;
  a_snapshots : Snapshots;
  a_geo_overrides : gmap string GeoInfo; a_geoip : option (family * Addr -> GeoInfo);
  (** the installs that were started: url, digest, signature, key *)
  a_installs : list (string * option string * option string * option string)
}.

Definition set_rules (r : RuleSet) (s : SharedState) : SharedState :=
  {| a_config := a_config s; a_rules := r; a_rules_version := a_rules_version s; a_limits := a_limits s;
     a_limits_version := a_limits_version s; a_upgrade := a_upgrade s; a_snapshots := a_snapshots s;
     a_geo_overrides := a_geo_overrides s; a_geoip := a_geoip s; a_installs := a_installs s |}.
(** [fetch_add(1)] *)
Definition bump_rules (s : SharedState) : SharedState :=
  {| a_config := a_config s; a_rules := a_rules s; a_rules_version := wadd 64 (a_rules_version s) 1;
     a_limits := a_limits s; a_limits_version := a_limits_version s; a_upgrade := a_upgrade s;
     a_snapshots := a_snapshots s; a_geo_overrides := a_geo_overrides s; a_geoip := a_geoip s; a_installs := a_installs s |}.
Definition set_limits (l : Limits) (s : SharedState) : SharedState :=
  {| a_config := a_config s; a_rules := a_rules s; a_rules_version := a_rules_version s; a_limits := l;
     a_limits_version := a_limits_version s; a_upgrade := a_upgrade s; a_snapshots := a_snapshots s;
     a_geo_overrides := a_geo_overrides s; a_geoip := a_geoip s; a_installs := a_installs s |}.
Definition bump_limits (s : SharedState) : SharedState :=
  {| a_config := a_config s; a_rules := a_rules s; a_rules_version := a_rules_version s; a_limits := a_limits s;
     a_limits_version := wadd 64 (a_limits_version s) 1; a_upgrade := a_upgrade s; a_snapshots := a_snapshots s;
     a_geo_overrides := a_geo_overrides s; a_geoip := a_geoip s; a_installs := a_installs s |}.
Definition set_upgrade (u : UpgradeStatus) (s : SharedState) : SharedState :=
  {| a_config := a_config s; a_rules := a_rules s; a_rules_version := a_rules_version s; a_limits := a_limits s;
     a_limits_version := a_limits_version s; a_upgrade := u; a_snapshots := a_snapshots s;
     a_geo_overrides := a_geo_overrides s; a_geoip := a_geoip s; a_installs := a_installs s |}.
Definition publish (sn : Snapshots) (s : SharedState) : SharedState :=
  {| a_config := a_config s; a_rules := a_rules s; a_rules_version := a_rules_version s; a_limits := a_limits s;
     a_limits_version := a_limits_version s; a_upgrade := a_upgrade s; a_snapshots := sn;
     a_geo_overrides := a_geo_overrides s; a_geoip := a_geoip s; a_installs := a_installs s |}.
Definition start_install (i : string * option string * option string * option string) (s : SharedState) : SharedState :=
  {| a_config := a_config s; a_rules := a_rules s; a_rules_version := a_rules_version s; a_limits := a_limits s;
     a_limits_version := a_limits_version s; a_upgrade := a_upgrade s; a_snapshots := a_snapshots s;
     a_geo_overrides := a_geo_overrides s; a_geoip := a_geoip s; a_installs := a_installs s ++ [i] |}.

Definition Limits_default : Limits :=
  {| l_pps := 0; l_syn_pps := 0; l_bps := 0; l_net_pps := 0; l_net_syn_pps := 0; l_net_bps := 0; l_exit_pct := 0;
     l_cooldown_secs := 0; l_src_rate_pps := 0; l_src_cooldown_secs := 0; l_syn_proxy_pps := 0; l_learn_leak_pps := 0 |}.
Definition Totals_default : Totals :=
  {| to_rx_pps := 0; to_rx_bps := 0; to_rx_syn_pps := 0; to_rx_drop_pps := 0; to_rx_drop_pct := 0; to_tx_pps := 0; to_tx_bps := 0 |}.
Definition SharedState_new (config : ApiConfig) (initial : RuleSet) (events_cap : nat) : SharedState :=
  {| a_config := config; a_rules := initial; a_rules_version := 1; a_limits := Limits_default; a_limits_version := 1;
     a_upgrade := UpgradeStatus_default;
     a_snapshots := {| sn_active := []; sn_tracked := []; sn_prefixes := []; sn_blocks := []; sn_sources := [];
                       sn_ports := []; sn_totals := Totals_default; sn_nics := []; sn_events := EventRing_new events_cap |};
     a_geo_overrides := ∅; a_geoip := None; a_installs := [] |}.

(** What [split('/').next()] leaves. *)
Definition geo_for (s : SharedState) (ip_or_cidr : string) : GeoInfo :=
  let head := (split_once ip_or_cidr).1 in
  match a_geo_overrides s !! ip_or_cidr with
  | Some g => g
  | None =>
      match a_geo_overrides s !! head with
      | Some g => g
      | None =>
          match a_geoip s with
          | None => GeoInfo_default
          | Some lookup => match FwRules.parse_ip head with Some ip => lookup ip | None => GeoInfo_default end
          end
      end
  end.

(** ** Authentication *)

Definition string_bytes (s : string) : list Z := (fun c => Z.of_N (N_of_ascii c)) <$> text s.
Definition constant_time_eq (a b : list Z) : bool :=
  if negb (Nat.eqb (length a) (length b)) then false
  else foldl (fun diff '(x, y) => Z.lor diff (Z.lxor x y)) 0 (zip a b) =? 0.
Definition token_matches (c : ApiConfig) (presented : string) : bool :=
  constant_time_eq (string_bytes presented) (string_bytes (cf_token c)).
Definition ip_allowed (c : ApiConfig) (peer : option (family * Addr)) : bool :=
  if bool_decide (cf_allow_ips c = []) then true
  else match peer with Some ip => bool_decide (ip ∈ cf_allow_ips c) | None => false end.

Inductive StatusCode : Type := Success | NoContent | Accepted | BadRequest | Unauthorized | Forbidden | NotFoundCode.
Inductive AuthResult : Type := Allow | Refuse (c : StatusCode).
(** [header]: the text of the Authorization header, when it is text. *)
Definition auth (c : ApiConfig) (peer : option (family * Addr)) (header : option string) : AuthResult :=
  if negb (ip_allowed c peer) then Refuse Forbidden else
  match h ← header; strip_prefix (text "Bearer ") (text h) with
  | Some tok => if token_matches c (untext tok) then Allow else Refuse Unauthorized
  | None => Refuse Unauthorized
  end.

(** ** Lists and pages *)

(** The stable [sort_by]: [lt x y] when [x] comes strictly before [y]. *)
Fixpoint insert_by {A} (lt : A -> A -> bool) (x : A) (l : list A) : list A :=
  match l with
  | [] => [x]
  | y :: l' => if lt y x then y :: insert_by lt x l' else x :: l
  end.
Definition sort_by {A} (lt : A -> A -> bool) (l : list A) : list A := foldr (insert_by lt) [] l.

(** [str::cmp] *)
Definition str_lt (a b : string) : bool := match String.compare a b with Lt => true | _ => false end.
(** [contains] *)
Fixpoint contains (needle s : list ascii) : bool :=
  bool_decide (take (length needle) s = needle) || match s with [] => false | _ :: s => contains needle s end.
Definition needle_of (q : string) : string := to_lowercase (untext (trim (text q))).
Definition matches (needle s : string) : bool :=
  bool_decide (needle = ""%string) || contains (text needle) (text (to_lowercase s)).

Record Query := { q_offset : nat; q_limit : option nat; q_q : string }.
Record Page (A : Type) := { pg_total : nat; pg_offset : nat; pg_limit : nat; pg_items : list A }.
Arguments pg_total {A}. Arguments pg_offset {A}. Arguments pg_limit {A}. Arguments pg_items {A}.
Definition limit_of (q : Query) : nat := Nat.min 1000 (Nat.max 1 (default 100%nat (q_limit q))).
Definition page {A} (q : Query) (l : list A) : Page A :=
  {| pg_total := length l; pg_offset := q_offset q; pg_limit := limit_of q;
     pg_items := take (limit_of q) (drop (q_offset q) l) |}.

Definition block_lt (a b : SourceBlock) : bool :=
  if eqb (sb_manual a) (sb_manual b) then
    if sb_pps a =? sb_pps b then str_lt (sb_cidr a) (sb_cidr b) else sb_pps b <? sb_pps a
  else sb_manual a.
Definition all_blocks (s : SharedState) (q : Query) : list SourceBlock :=
  let manual := (fun c => {| sb_cidr := c; sb_age_secs := 0; sb_pps := 0; sb_manual := true; sb_cooling := false |})
                  <$> rs_source_blocks (a_rules s) in
  sort_by block_lt (filter (fun b => matches (needle_of (q_q q)) (sb_cidr b) = true) (manual ++ sn_blocks (a_snapshots s))).
Definition source_lt (a b : TrackedSource) : bool :=
  if eqb (ts_manual a) (ts_manual b) then
    if ts_pps a =? ts_pps b then
      if String.eqb (ts_state a) (ts_state b) then str_lt (ts_ip a) (ts_ip b) else str_lt (ts_state a) (ts_state b)
    else ts_pps b <? ts_pps a
  else ts_manual a.
Definition all_sources (s : SharedState) (q : Query) : list TrackedSource :=
  let manual := (fun c => {| ts_ip := c; ts_pps := 0; ts_state := "dropping"; ts_manual := true; ts_age_secs := 0 |}%string)
                  <$> rs_source_blocks (a_rules s) in
  sort_by source_lt (filter (fun x => matches (needle_of (q_q q)) (ts_ip x) = true) (manual ++ sn_sources (a_snapshots s))).
Definition port_text (p : LearnedPort) : string :=
  String.append (lp_ip p) (String " " (String.append (pretty (Z.to_N (lp_port p))) (String " " (lp_proto p)))).
Definition all_ports (s : SharedState) (q : Query) : list LearnedPort :=
  filter (fun p => matches (needle_of (q_q q)) (port_text p) = true) (sn_ports (a_snapshots s)).

(** *** Origins *)

Definition sat_add (a b : Z) : Z := Z.min (2 ^ 64 - 1) (a + b).
Definition no_origin (country : string) : OriginStat :=
  {| og_country := country; og_sources := 0; og_pps := 0; og_drop_pps := 0; og_dropping := 0 |}.
Definition count_source (s : TrackedSource) (e : OriginStat) : OriginStat :=
  let dropping := String.eqb (ts_state s) "dropping" in
  {| og_country := og_country e; og_sources := og_sources e + 1; og_pps := sat_add (og_pps e) (ts_pps s);
     og_drop_pps := if dropping then sat_add (og_drop_pps e) (ts_pps s) else og_drop_pps e;
     og_dropping := if dropping then og_dropping e + 1 else og_dropping e |}.
Definition origin_lt (a b : OriginStat) : bool :=
  if og_pps a =? og_pps b then
    if og_sources a =? og_sources b then str_lt (og_country a) (og_country b) else og_sources b <? og_sources a
  else og_pps b <? og_pps a.
Definition fold_origins (country_of : string -> option string) (sources : list TrackedSource) : gmap string OriginStat :=
  foldl (fun m s =>
    let cc := default "??"%string (country_of (ts_ip s)) in
    <[cc := count_source s (default (no_origin cc) (m !! cc))]> m) ∅ sources.
Record OriginsResponse := { or_items : list OriginStat; or_total_pps : Z; or_total_sources : nat }.
Definition aggregate_origins (sources : list TrackedSource) (country_of : string -> option string) : OriginsResponse :=
  {| or_items := sort_by origin_lt ((map_to_list (fold_origins country_of sources)).*2);
     or_total_pps := foldl (fun t s => sat_add t (ts_pps s)) 0 sources;
     or_total_sources := length sources |}.

(** ** Editing the rules *)

Definition MAX_RULESET_ENTRIES : Z := 100000.
Definition canonicalize (c : string) : option string := to_cidr_string <$> parse_cidr c.
(** The stored form of a text, or the text itself. *)
Definition stored_form (c : string) : string := default c (canonicalize c).

Definition canonicalize_all (l : list string) : option (list string) := mapM canonicalize l.
Definition canonicalize_overrides (l : list Override) : option (list Override) :=
  mapM (fun o => c ← canonicalize (ov_cidr o); Some {| ov_cidr := c; ov_flags := ov_flags o |}) l.
Definition canonical_rules (r : RuleSet) : option RuleSet :=
  p ← canonicalize_all (rs_protected r);
  o ← canonicalize_overrides (rs_overrides r);
  b ← canonicalize_all (rs_source_blocks r);
  Some {| rs_protected := p; rs_overrides := o; rs_source_blocks := b |}.

Definition put_rules (new_rules : RuleSet) (s : SharedState) : StatusCode * SharedState :=
  let too_many {A} (l : list A) := MAX_RULESET_ENTRIES <? Z.of_nat (length l) in
  if too_many (rs_protected new_rules) || too_many (rs_overrides new_rules) || too_many (rs_source_blocks new_rules)
  then (BadRequest, s) else
  match canonical_rules new_rules with
  | Some r => (NoContent, bump_rules (set_rules r s))
  | None => (BadRequest, s)
  end.
Definition with_overrides (f : list Override -> list Override) (r : RuleSet) : RuleSet :=
  {| rs_protected := rs_protected r; rs_overrides := f (rs_overrides r); rs_source_blocks := rs_source_blocks r |}.
Definition with_blocks (f : list string -> list string) (r : RuleSet) : RuleSet :=
  {| rs_protected := rs_protected r; rs_overrides := rs_overrides r; rs_source_blocks := f (rs_source_blocks r) |}.

Definition post_override (ov : Override) (s : SharedState) : StatusCode * SharedState :=
  match canonicalize (ov_cidr ov) with
  | None => (BadRequest, s)
  | Some c =>
      let put l := filter (fun o => ov_cidr o <> c) l ++ [{| ov_cidr := c; ov_flags := ov_flags ov |}] in
      (NoContent, bump_rules (set_rules (with_overrides put (a_rules s)) s))
  end.
Definition delete_override (cidr : string) (s : SharedState) : StatusCode * SharedState :=
  let c := stored_form cidr in
  let r := with_overrides (filter (fun o => ov_cidr o <> c)) (a_rules s) in
  if Nat.eqb (length (rs_overrides r)) (length (rs_overrides (a_rules s))) then (NotFoundCode, set_rules r s)
  else (NoContent, bump_rules (set_rules r s)).
Definition post_block (cidr : string) (s : SharedState) : StatusCode * SharedState :=
  match canonicalize cidr with
  | None => (BadRequest, s)
  | Some c => (NoContent, bump_rules (set_rules (with_blocks (fun l => filter (fun x => x <> c) l ++ [c]) (a_rules s)) s))
  end.
Definition delete_block (cidr : string) (s : SharedState) : StatusCode * SharedState :=
  let c := stored_form cidr in
  let r := with_blocks (filter (fun x => x <> c)) (a_rules s) in
  if Nat.eqb (length (rs_source_blocks r)) (length (rs_source_blocks (a_rules s))) then (NotFoundCode, set_rules r s)
  else (NoContent, bump_rules (set_rules r s)).

Definition put_limits (l : Limits) (s : SharedState) : StatusCode * SharedState :=
  if existsb (fun t => t =? 0)
       [l_pps l; l_syn_pps l; l_bps l; l_net_pps l; l_net_syn_pps l; l_net_bps l; l_src_rate_pps l]
  then (BadRequest, s) else
  if (l_exit_pct l =? 0) || (100 <=? l_exit_pct l) then (BadRequest, s) else
  (NoContent, bump_limits (set_limits l s)).

(** ** Requests *)

Record Status := {
  sr_version : string; sr_uptime_secs : Z; sr_interfaces : list string; sr_nics : list InterfaceInfo;
  sr_protected_prefixes : nat; sr_active_mitigations : nat; sr_learned_ports : nat; sr_events_cursor : Z; sr_totals : Totals
}.
Inductive Request : Type :=
| GetStatus (uptime_secs : Z) | GetRules | PutRules (r : RuleSet)
| GetMitigations | PostOverride (o : Override) | DeleteOverride (cidr : string)
| GetEvents (since : Z) | GetPorts (q : Query) | GetTracked | GetPrefixes
| GetBlocks (q : Query) | PostBlock (cidr : string) | DeleteBlock (cidr : string)
| GetSources (q : Query) | GetOrigins | GetLimits | PutLimits (l : Limits)
| GetUpgrade (checked : option UpgradeStatus) | PostUpgrade.
Inductive Body : Type :=
| NoBody | StatusBody (s : Status) | RulesBody (r : RuleSet) | MitigationsBody (l : list (Mitigation * GeoInfo))
| EventsBody (l : list Event) (cursor : Z) | PortsBody (p : Page LearnedPort) | TrackedBody (l : list (TrackedIp * GeoInfo))
| PrefixesBody (l : list (PrefixLoad * GeoInfo)) | BlocksBody (p : Page (SourceBlock * GeoInfo))
| SourcesBody (p : Page (TrackedSource * GeoInfo)) | OriginsBody (o : OriginsResponse) | LimitsBody (l : Limits)
| UpgradeBody (u : UpgradeStatus).

Definition with_geo {A} (s : SharedState) (key : A -> string) (x : A) : A * GeoInfo := (x, geo_for s (key x)).
(** Only the items of the page are looked up. *)
Definition geo_page {A} (s : SharedState) (key : A -> string) (p : Page A) : Page (A * GeoInfo) :=
  {| pg_total := pg_total p; pg_offset := pg_offset p; pg_limit := pg_limit p;
     pg_items := with_geo s key <$> pg_items p |}.

Definition get_status (uptime_secs : Z) (s : SharedState) : Status :=
  {| sr_version := cf_version (a_config s); sr_uptime_secs := uptime_secs; sr_interfaces := cf_interfaces (a_config s);
     sr_nics := sn_nics (a_snapshots s); sr_protected_prefixes := length (rs_protected (a_rules s));
     sr_active_mitigations := length (sn_active (a_snapshots s)); sr_learned_ports := length (sn_ports (a_snapshots s));
     sr_events_cursor := wsub 64 (er_next_seq (sn_events (a_snapshots s))) 1; sr_totals := sn_totals (a_snapshots s) |}.

Definition post_upgrade (s : SharedState) : StatusCode * SharedState :=
  if negb (cf_allow_remote_upgrade (a_config s)) then (Forbidden, s) else
  match us_deb_url (a_upgrade s) with
  | None => (BadRequest, s)
  | Some url =>
      (Accepted, start_install (url, us_deb_sha256 (a_upgrade s), us_deb_sig_url (a_upgrade s),
                                cf_upgrade_pubkey (a_config s)) s)
  end.

Definition handle (r : Request) (s : SharedState) : StatusCode * Body * SharedState :=
  let sn := a_snapshots s in
  let edit (x : StatusCode * SharedState) := (x.1, NoBody, x.2) in
  match r with
  | GetStatus uptime => (Success, StatusBody (get_status uptime s), s)
  | GetRules => (Success, RulesBody (a_rules s), s)
  | PutRules rules => edit (put_rules rules s)
  | GetMitigations => (Success, MitigationsBody (with_geo s m_cidr <$> sn_active sn), s)
  | PostOverride ov => edit (post_override ov s)
  | DeleteOverride c => edit (delete_override c s)
  | GetEvents since => let '(l, cursor) := EventRing_since since (sn_events sn) in (Success, EventsBody l cursor, s)
  | GetPorts q => (Success, PortsBody (page q (all_ports s q)), s)
  | GetTracked => (Success, TrackedBody (with_geo s ti_ip <$> sn_tracked sn), s)
  | GetPrefixes => (Success, PrefixesBody (with_geo s pl_cidr <$> sn_prefixes sn), s)
  | GetBlocks q => (Success, BlocksBody (geo_page s sb_cidr (page q (all_blocks s q))), s)
  | PostBlock c => edit (post_block c s)
  | DeleteBlock c => edit (delete_block c s)
  | GetSources q => (Success, SourcesBody (geo_page s ts_ip (page q (all_sources s q))), s)
  | GetOrigins => (Success, OriginsBody (aggregate_origins (sn_sources sn) (fun ip => g_country (geo_for s ip))), s)
  | GetLimits => (Success, LimitsBody (a_limits s), s)
  | PutLimits l => edit (put_limits l s)
  | GetUpgrade (Some status) => (Success, UpgradeBody status, set_upgrade status s)
  | GetUpgrade None => (Success, UpgradeBody (a_upgrade s), s)
  | PostUpgrade => edit (post_upgrade s)
  end.

(** A request as it arrives: from whom, with which header. *)
Definition router (peer : option (family * Addr)) (header : option string) (r : Request) (s : SharedState)
  : StatusCode * Body * SharedState :=
  match auth (a_config s) peer header with
  | Allow => handle r s
  | Refuse c => (c, NoBody, s)
  end.
