(* ===== verification/FwApiProofs.v ===== *)
(** * What the control API guarantees

    Nobody without the token reads or changes anything; the rules that are stored
    are in canonical form, so that what was pushed can be removed; no edit is lost
    by the control loop; pages cover their list and origins their sources. *)

From Stdlib Require Import Ascii String.
From stdpp Require Import list_numbers pretty.
From S2P Require Import Prelude FwCommon FwCidr FwBpf FwMaps FwDetect FwRuntime FwRules FwPublish NetText FwUpgrade FwApi.

(** ** Authentication *)

Lemma lor_zero (l : list (Z * Z)) acc : foldl (fun diff '(x, y) => Z.lor diff (Z.lxor x y)) acc l = 0 <->
  acc = 0 /\ Forall (fun p => p.1 = p.2) l.
Proof.
  revert acc. induction l as [|[x y] l IH]; intros acc; cbn [foldl]; [rewrite Forall_nil; tauto|].
  rewrite IH, Z.lor_eq_0_iff, Z.lxor_eq_0_iff, Forall_cons. cbn. tauto.
Qed.
(** The comparison that looks at every byte is equality. *)
Lemma constant_time_eq_spec a b : constant_time_eq a b = bool_decide (a = b).
Proof.
  unfold constant_time_eq. destruct (Nat.eqb_spec (length a) (length b)) as [El|El]; cbn [negb].
  2: { rewrite bool_decide_eq_false_2; [done|]. by intros ->. }
  apply eq_bool_prop_intro. rewrite bool_decide_spec, Is_true_true, Z.eqb_eq, lor_zero. split; [|intros ->].
  - intros [_ Hz]. revert b El Hz. induction a as [|x a IH]; intros [|y b] El Hz; try done.
    cbn in Hz. apply Forall_cons in Hz as [E Hz]. cbn in E. f_equal; [done|]. apply IH; [by injection El|done].
  - split; [done|]. clear. induction b as [|y b IH]; cbn; [by constructor|by constructor].
Qed.

Lemma untext_text s : untext (text s) = s.
Proof. apply String.string_of_list_ascii_of_string. Qed.
Lemma text_untext l : text (untext l) = l.
Proof. apply String.list_ascii_of_string_of_list_ascii. Qed.
Lemma text_inj a b : text a = text b -> a = b.
Proof. intros E. by rewrite <- (untext_text a), E, untext_text. Qed.
Lemma text_app a b : text (String.append a b) = text a ++ text b.
Proof. unfold text. induction a as [|c a IH]; [done|]. change (String.append (String c a) b) with (String c (String.append a b)). cbn [list_ascii_of_string app]. f_equal. exact IH. Qed.
Lemma string_bytes_inj a b : string_bytes a = string_bytes b -> a = b.
Proof.
  unfold string_bytes. intros E. apply text_inj. revert E. generalize (text a), (text b).
  induction l as [|c l IH]; intros [|d l'] E; try done. cbn in E. injection E as E1 E2. f_equal; [|by apply IH].
  rewrite <- (ascii_N_embedding c), <- (ascii_N_embedding d). f_equal. lia.
Qed.
Lemma strip_prefix_spec p s r : strip_prefix p s = Some r <-> s = p ++ r.
Proof.
  unfold strip_prefix. case_decide as E; split; [|intros ->|done|intros ->].
  - intros [= <-]. by rewrite <- E at 1; rewrite take_drop.
  - by rewrite drop_app_length.
  - by rewrite take_app_length in E.
Qed.

(** The header that the billing service sends. *)
Definition bearer (c : ApiConfig) : string := String.append "Bearer " (cf_token c).
Lemma token_header c header :
  match h ← header; strip_prefix (text "Bearer ") (text h) with
  | Some tok => token_matches c (untext tok)
  | None => false
  end = bool_decide (header = Some (bearer c)).
Proof.
  destruct header as [h|]; [|done]. cbn [mbind option_bind].
  destruct (strip_prefix _ _) as [tok|] eqn:E.
  - apply strip_prefix_spec in E. unfold token_matches. rewrite constant_time_eq_spec.
    apply eq_bool_prop_intro. rewrite !bool_decide_spec. unfold bearer. split.
    + intros Et%string_bytes_inj. f_equal. apply text_inj. by rewrite E, text_app, <- Et, text_untext.
    + intros [= ->]. rewrite text_app in E. apply app_inv_head in E. by rewrite <- E, untext_text.
  - symmetry. apply bool_decide_eq_false_2. intros [= ->].
    assert (strip_prefix (text "Bearer ") (text (bearer c)) = Some (text (cf_token c))) as E2
      by (apply strip_prefix_spec; unfold bearer; by rewrite text_app).
    congruence.
Qed.

(** C22: A request is handled when it comes from an allowed address with the token, and
    answered with nothing otherwise. *)
Theorem only_token_admitted peer header r s :
  router peer header r s =
  if ip_allowed (a_config s) peer then
    if bool_decide (header = Some (bearer (a_config s))) then handle r s else (Unauthorized, NoBody, s)
  else (Forbidden, NoBody, s).
Proof.
  unfold router, auth. destruct (ip_allowed _ peer); [|done]. cbn [negb]. rewrite <- token_header.
  destruct (_ ≫= _) as [tok|]; [|done]. by destruct (token_matches _ _).
Qed.

(** ** The canonical form of a CIDR *)

(** *** Octets and numbers *)

Definition octet (b : Z) : Prop := 0 <= b < 256.
Lemma of_be_snoc l b : of_be (l ++ [b]) = of_be l * 256 + b.
Proof. unfold of_be. by rewrite foldl_app. Qed.
Lemma of_be_fits l : Forall octet l -> 0 <= of_be l < 256 ^ Z.of_nat (length l).
Proof.
  induction l as [|b l IH] using rev_ind; [done|]. rewrite Forall_app, Forall_singleton, of_be_snoc, length_app. cbn [length].
  intros [Hl Hb]. specialize (IH Hl). unfold octet in Hb. rewrite Nat2Z.inj_add, Z.pow_add_r by lia.
  change (256 ^ Z.of_nat 1) with 256. nia.
Qed.
Lemma be_of_be l n : Forall octet l -> length l = n -> be_bytes n (of_be l) = l.
Proof.
  revert n. induction l as [|b l IH] using rev_ind; intros n; [by intros _ <-|].
  rewrite Forall_app, Forall_singleton, of_be_snoc, length_app. cbn [length]. intros [Hl Hb] <-.
  rewrite Nat.add_1_r. cbn [be_bytes]. unfold octet in Hb.
  rewrite Z.div_add_l, (Z.div_small b), Z.add_0_r, Z.add_comm, Z.mod_add, Z.mod_small by lia. by rewrite IH.
Qed.
Lemma be_bytes_length n a : length (be_bytes n a) = n.
Proof. revert a. induction n as [|n IH]; intros a; [done|]. cbn. rewrite length_app, IH. cbn. lia. Qed.
Lemma be_bytes_octets n a : Forall octet (be_bytes n a).
Proof.
  revert a. induction n as [|n IH]; intros a; cbn; [constructor|]. apply Forall_app. split; [apply IH|].
  apply Forall_singleton, Z.mod_pos_bound. lia.
Qed.

Lemma mask_octets l p : Forall octet l -> Forall octet (mask_bytes l p).
Proof.
  intros Hl. apply Forall_lookup. intros i b. unfold mask_bytes. rewrite list_lookup_imap.
  destruct (l !! i) as [x|] eqn:E; [|done]. cbn. intros [= <-].
  pose proof (Forall_lookup_1 _ _ _ _ Hl E) as Hx. unfold octet, mask_byte in *. repeat case_match; [done| |lia].
  rewrite <- (Z.mod_small x (2 ^ 8)), <- Z.land_ones, <- Z.land_assoc, (Z.land_comm (Z.ones 8)), Z.land_assoc, Z.land_ones by lia.
  apply Z.mod_pos_bound. lia.
Qed.

(** A key as [parse_cidr] makes it. *)
Definition key_ok (k : CidrKey) : Prop :=
  length (ck_net k) = bytes_of (ck_fam k) /\ Forall octet (ck_net k) /\ 0 <= ck_bits k <= bits (ck_fam k) /\ canonical k.

Lemma parse_digits_pos acc s n : 0 <= acc -> parse_digits acc s = Some n -> 0 <= n.
Proof.
  revert acc. induction s as [|c s IH]; intros acc Ha; cbn; [by intros [= <-]|].
  unfold FwRules.digit. destruct (_ && _) eqn:Ed; cbn; [|done]. case_match; [|done]. apply IH. zbool. lia.
Qed.
Lemma parse_u32_pos s n : parse_u32 s = Some n -> 0 <= n.
Proof.
  unfold parse_u32. destruct s as [|c [|d s]]; [done| |]; [by apply parse_digits_pos|].
  case_match; by apply parse_digits_pos.
Qed.
Lemma parse_key_ok s k : parse_cidr s = Some k -> key_ok k.
Proof.
  intros H. pose proof (parse_cidr_canonical s k H) as Hc. unfold parse_cidr in H.
  destruct (split_once s) as [addr len]. unfold FwRules.parse_ip, std_parse_ip in H.
  destruct (NetText.parse_ip addr) as [a|]; cbn in H; [|done].
  set (f := if a_v4 a then V4 else V6) in *.
  destruct (match len with None => _ | Some l => _ end) as [n|] eqn:En; cbn in H; [|done].
  destruct (Z.ltb_spec (bits f) n) as [|Hn]; [done|]. injection H as <-. cbn [ck_fam ck_net ck_bits] in *.
  assert (0 <= n) as Hn0 by (destruct len; [by eapply parse_u32_pos|injection En as <-; by destruct f]).
  split; cbn [ck_fam ck_net ck_bits].
  - destruct f; cbn [mask]; unfold mask_v4, mask_v6; by rewrite mask_bytes_length, be_bytes_length.
  - split; [|by split]. destruct f; cbn [mask]; unfold mask_v4, mask_v6; apply mask_octets, be_bytes_octets.
Qed.

(** *** Printing and reading *)

Definition no_slash (s : list ascii) : Prop := "/"%char ∉ s.
Lemma no_slash_app s t : no_slash s -> no_slash t -> no_slash (s ++ t).
Proof. unfold no_slash. rewrite elem_of_app. tauto. Qed.
Lemma no_slash_cons c s : c <> "/"%char -> no_slash s -> no_slash (c :: s).
Proof. unfold no_slash. rewrite elem_of_cons. intros ? ? [?|?]; [congruence|done]. Qed.
Lemma octet_no_slash n : 0 <= n < 256 -> no_slash (show_octet n).
Proof.
  intros Hn. assert (forallb (fun n => negb (existsb (Ascii.eqb "/") (show_octet n))) octets = true) as E by (vm_compute; reflexivity).
  rewrite forallb_forall in E. specialize (E n). rewrite <- list_elem_of_In in E. unfold octets in E. rewrite elem_of_seqZ in E.
  specialize (E ltac:(lia)). apply negb_true_iff in E. intros Hin. apply not_true_iff_false in E. apply E, existsb_exists.
  exists "/"%char. by rewrite <- list_elem_of_In.
Qed.
Lemma hex_digit_no_slash d : 0 <= d < 16 -> NetText.hex_digit d <> "/"%char.
Proof. intros Hd E. pose proof (hex_digit_value d Hd) as Hv. rewrite E in Hv. discriminate Hv. Qed.
Lemma mod_octet x : 0 <= x mod 256 < 256.
Proof. apply Z.mod_pos_bound. lia. Qed.
Lemma dotted_no_slash a : no_slash (dotted a).
Proof.
  unfold dotted. repeat first [ apply no_slash_app; [apply octet_no_slash, mod_octet|] | apply no_slash_cons; [done|] ].
  apply octet_no_slash, mod_octet.
Qed.
Lemma show_hex_no_slash g : segment g -> no_slash (show_hex g).
Proof.
  unfold segment, show_hex. intros Hg.
  assert (forall m, 0 <= m mod 16 < 16) as Hm by (intros; apply Z.mod_pos_bound; lia).
  assert (no_slash []) as Hnil by apply not_elem_of_nil.
  assert (forall q, 0 < q -> g < 16 * q -> 0 <= g / q < 16) as Hd
    by (intros q Hq Hb; split; [apply Z.div_pos; lia|apply Z.div_lt_upper_bound; lia]).
  repeat case_match; zbool; repeat (apply no_slash_cons; [apply hex_digit_no_slash; first [apply Hm|apply (Hd _); lia|lia]|]); done.
Qed.
Lemma fmt_no_slash gs : Forall segment gs -> no_slash (fmt_subslice gs) /\ no_slash (fmt_tail gs).
Proof.
  assert (forall gs, Forall segment gs -> no_slash (fmt_tail gs)) as Htail.
  { clear. intros gs. induction 1 as [|g gs Hg _ IH]; [apply not_elem_of_nil|].
    apply (no_slash_app (":"%char :: show_hex g)); [|exact IH].
    apply no_slash_cons; [done|by apply show_hex_no_slash]. }
  intros Hgs. split; [|by apply Htail]. destruct Hgs as [|g gs Hg Hgs]; [apply not_elem_of_nil|].
  apply no_slash_app; [by apply show_hex_no_slash|by apply Htail].
Qed.
Lemma v6_no_slash a : no_slash (fmt_v6 a).
Proof.
  unfold fmt_v6. case_match; [apply no_slash_app; [|apply dotted_no_slash]|].
  { by apply (bool_decide_eq_true (no_slash _)). }
  pose proof (segments_segment a) as Hs. destruct (zero_span (segments a) 0 _ _) as [i l]. case_match.
  - apply no_slash_app; [by apply fmt_no_slash, Forall_take|]. do 2 (apply no_slash_cons; [done|]).
    by apply fmt_no_slash, Forall_drop.
  - by apply fmt_no_slash.
Qed.
Lemma addr_no_slash f l : no_slash (text (show_addr f l)).
Proof.
  unfold show_addr, show_ip. change (text (String.string_of_list_ascii ?x)) with (text (untext x)). rewrite text_untext. case_match; [apply dotted_no_slash|apply v6_no_slash].
Qed.

Lemma split_once_printed a b : no_slash (text a) -> split_once (String.append a (String "/" b)) = (a, Some b).
Proof.
  unfold text, no_slash. induction a as [|c a IH]; intros Hn; [done|].
  change (String.append (String c a) (String "/" b)) with (String c (String.append a (String "/" b))). cbn [split_once].
  cbn [list_ascii_of_string] in Hn. rewrite not_elem_of_cons in Hn. destruct Hn as [Hc Hn].
  destruct (Ascii.eqb_spec c "/"); [congruence|]. by rewrite IH.
Qed.
Lemma length_text n : 0 <= n <= 128 -> parse_u32 (untext (show_octet n)) = Some n.
Proof.
  intros Hn. assert (forallb (fun n => bool_decide (parse_u32 (untext (show_octet n)) = Some n)) octets = true) as E by (vm_compute; reflexivity).
  rewrite forallb_forall in E. specialize (E n). rewrite <- list_elem_of_In in E. unfold octets in E. rewrite elem_of_seqZ in E.
  by apply (bool_decide_eq_true (_ = Some n)), E; lia.
Qed.

(** A key survives its text. *)
Lemma parse_printed k : key_ok k -> parse_cidr (to_cidr_string k) = Some k.
Proof.
  intros (Hlen & Hoct & Hbits & Hcan). unfold parse_cidr, to_cidr_string. rewrite split_once_printed by apply addr_no_slash.
  unfold FwRules.parse_ip, std_parse_ip, show_addr. destruct k as [f n net]. cbn [ck_fam ck_bits ck_net] in *.
  rewrite parse_show.
  - cbn [mbind option_bind a_v4 a_bits]. pose proof (of_be_fits net Hoct). rewrite length_text by (destruct f; cbn in Hbits; lia).
    cbn [mbind option_bind]. destruct f; rewrite ?bool_decide_eq_true_2, ?bool_decide_eq_false_2 by done;
      rewrite (proj2 (Z.ltb_ge _ _)) by lia; rewrite be_of_be by done; do 2 f_equal;
      unfold mask, mask_v4, mask_v6; cbn in Hbits; rewrite Z.min_l by lia; exact Hcan.
  - unfold ip_fits. cbn [a_v4 a_bits]. pose proof (of_be_fits net Hoct) as Hf. rewrite Hlen in Hf. unfold fits. destruct f; exact Hf.
Qed.
(** Storing a text stores its canonical form. *)
Lemma canonicalize_idem c c' : canonicalize c = Some c' -> canonicalize c' = Some c'.
Proof.
  unfold canonicalize. destruct (parse_cidr c) as [k|] eqn:E; [|done]. intros [= <-].
  rewrite parse_printed; [done|by eapply parse_key_ok].
Qed.

(** ** The stored rules *)

(** A text as it is stored: printing what it parses to gives it back. *)
Definition canonical_text (c : string) : Prop := canonicalize c = Some c.
Definition wf_names (r : RuleSet) : Prop :=
  Forall (fun o => canonical_text (ov_cidr o)) (rs_overrides r) /\ Forall canonical_text (rs_source_blocks r).
Definition wf_rules (r : RuleSet) : Prop := Forall canonical_text (rs_protected r) /\ wf_names r.
Definition wf_limits (l : Limits) : Prop :=
  Forall (fun t => t <> 0) [l_pps l; l_syn_pps l; l_bps l; l_net_pps l; l_net_syn_pps l; l_net_bps l; l_src_rate_pps l] /\
  l_exit_pct l <> 0 /\ l_exit_pct l < 100.
(** The texts of [s] are stored texts or, where no request has replaced them, those of
    [s0]; a list that is put as a whole is replaced as a whole. *)
Definition stored_since (s0 s : SharedState) : Prop :=
  (rs_protected (a_rules s) = rs_protected (a_rules s0) \/ Forall canonical_text (rs_protected (a_rules s))) /\
  Forall (fun o => canonical_text (ov_cidr o) \/ o ∈ rs_overrides (a_rules s0)) (rs_overrides (a_rules s)) /\
  Forall (fun c => canonical_text c \/ c ∈ rs_source_blocks (a_rules s0)) (rs_source_blocks (a_rules s)) /\
  (a_limits s = a_limits s0 \/ wf_limits (a_limits s)).

Lemma canonicalize_canonical c c' : canonicalize c = Some c' -> canonical_text c'.
Proof. apply canonicalize_idem. Qed.
Lemma canonicalize_all_canonical l l' : canonicalize_all l = Some l' -> Forall canonical_text l'.
Proof.
  unfold canonicalize_all. rewrite mapM_Some.
  induction 1; constructor; [by eapply canonicalize_canonical|done].
Qed.
Lemma canonicalize_overrides_canonical l l' :
  canonicalize_overrides l = Some l' -> Forall (fun o => canonical_text (ov_cidr o)) l'.
Proof.
  unfold canonicalize_overrides. rewrite mapM_Some.
  induction 1 as [|o o' l l' Ho _ IH]; constructor; [|done].
  destruct (canonicalize (ov_cidr o)) as [c|] eqn:Ec; cbn in Ho; [|done]. injection Ho as <-.
  by eapply canonicalize_canonical.
Qed.
Lemma canonical_rules_wf r r' : canonical_rules r = Some r' -> wf_rules r'.
Proof.
  unfold canonical_rules. destruct (canonicalize_all (rs_protected r)) as [p|] eqn:Ep; cbn; [|done].
  destruct (canonicalize_overrides (rs_overrides r)) as [o|] eqn:Eo; cbn; [|done].
  destruct (canonicalize_all (rs_source_blocks r)) as [b|] eqn:Eb; cbn; [|done]. intros [= <-].
  unfold wf_rules, wf_names. split_and!; cbn; eauto using canonicalize_all_canonical, canonicalize_overrides_canonical.
Qed.
Lemma Forall_filter_keep {A} (P Q : A -> Prop) `{!forall x, Decision (Q x)} l : Forall P l -> Forall P (filter Q l).
Proof. intros Hl. apply Forall_forall. intros x Hx%list_elem_of_filter. eapply Forall_forall in Hl; [done|apply Hx]. Qed.
Lemma Forall_snoc_keep {A} (P : A -> Prop) l x : Forall P l -> P x -> Forall P (l ++ [x]).
Proof. intros. apply Forall_app; split; [done|by constructor]. Qed.
#[local] Hint Resolve Forall_filter_keep Forall_snoc_keep canonicalize_canonical : wf.

Lemma put_limits_wf l s : a_limits (put_limits l s).2 = a_limits s \/ wf_limits (a_limits (put_limits l s).2).
Proof.
  unfold put_limits. destruct (existsb _ _) eqn:Ee; [by left|].
  destruct (_ || _) eqn:Ex; [by left|]. apply orb_false_iff in Ex as [Ex1 Ex2]. zbool. right.
  split; [|by split]. apply Forall_forall. intros t Ht ->.
  apply not_true_iff_false in Ee. apply Ee, existsb_exists. exists 0. split; [|done].
  by apply list_elem_of_In.
Qed.
Lemma put_limits_rules l s : a_rules (put_limits l s).2 = a_rules s.
Proof. unfold put_limits. by repeat case_match. Qed.
Lemma post_upgrade_kept s : a_rules (post_upgrade s).2 = a_rules s /\ a_limits (post_upgrade s).2 = a_limits s.
Proof. unfold post_upgrade. by repeat case_match. Qed.

(** What each handler leaves of the rules and the limits: properties that canonical
    texts have stay true of every text. *)
Lemma handle_texts (P : Override -> Prop) (Q : string -> Prop) r s :
  (forall o, canonical_text (ov_cidr o) -> P o) -> (forall c, canonical_text c -> Q c) ->
  Forall P (rs_overrides (a_rules s)) -> Forall Q (rs_source_blocks (a_rules s)) ->
  Forall P (rs_overrides (a_rules (handle r s).2)) /\ Forall Q (rs_source_blocks (a_rules (handle r s).2)).
Proof.
  intros HP HQ Ho Hb. destruct r as [| |rs| |ov|c|since| | | | |c|c| | | |l|[u|]|]; try done; cbn.
  - unfold put_rules. case_match; [done|]. destruct (canonical_rules rs) as [r'|] eqn:E; [|done].
    apply canonical_rules_wf in E as [_ [Ho' Hb']]. cbn. split; eapply Forall_impl; eauto.
  - unfold post_override. destruct (canonicalize _) as [c|] eqn:E; [|done]. split; cbn; eauto 6 with wf.
  - unfold delete_override. case_match; split; cbn; eauto with wf.
  - unfold post_block. destruct (canonicalize _) as [c'|] eqn:E; [|done]. split; cbn; eauto 6 with wf.
  - unfold delete_block. case_match; split; cbn; eauto with wf.
  - by rewrite put_limits_rules.
  - by rewrite (proj1 (post_upgrade_kept s)).
Qed.
Lemma handle_names r s : wf_names (a_rules s) -> wf_names (a_rules (handle r s).2).
Proof. intros [Ho Hb]. by apply handle_texts. Qed.
Lemma handle_protected r s : rs_protected (a_rules (handle r s).2) = rs_protected (a_rules s) \/
  Forall canonical_text (rs_protected (a_rules (handle r s).2)).
Proof.
  destruct r as [| |rs| |ov|c|since| | | | |c|c| | | |l|[u|]|]; try (by left); cbn.
  - unfold put_rules. case_match; [by left|]. destruct (canonical_rules rs) as [r'|] eqn:E; [|by left].
    right. by apply canonical_rules_wf in E as [? _].
  - unfold post_override. case_match; by left.
  - unfold delete_override. case_match; by left.
  - unfold post_block. case_match; by left.
  - unfold delete_block. case_match; by left.
  - left. by rewrite put_limits_rules.
  - left. by rewrite (proj1 (post_upgrade_kept s)).
Qed.
Lemma handle_limits r s : a_limits (handle r s).2 = a_limits s \/ wf_limits (a_limits (handle r s).2).
Proof.
  destruct r as [| |rs| |ov|c|since| | | | |c|c| | | |l|[u|]|]; try (by left); cbn.
  - left. unfold put_rules. by repeat case_match.
  - left. unfold post_override. by case_match.
  - left. unfold delete_override. by case_match.
  - left. unfold post_block. by case_match.
  - left. unfold delete_block. by case_match.
  - apply put_limits_wf.
  - left. by rewrite (proj2 (post_upgrade_kept s)).
Qed.
Lemma handle_stored r s0 s : stored_since s0 s -> stored_since s0 (handle r s).2.
Proof.
  intros (Hp & Ho & Hb & Hl). unfold stored_since. split_and!.
  - destruct (handle_protected r s) as [->|?]; tauto.
  - eapply (handle_texts _ (fun _ => True)); [by left|done|exact Ho|by apply Forall_true].
  - eapply (handle_texts (fun _ => True)); [done|by left|by apply Forall_true|exact Hb].
  - destruct (handle_limits r s) as [->|?]; tauto.
Qed.

(** The requests of a history, one after the other. *)
Definition serve_all (l : list (option (family * Addr) * option string * Request)) (s : SharedState) : SharedState :=
  foldl (fun s '(peer, header, r) => (router peer header r s).2) s l.

(** C23: Whatever requests arrive, from whomever and in whatever order: the protected
    networks are those of the start or each is stored as the text that its own parsing
    prints; so is every other network of the rules that was not there at the start; and
    the limits are those of the start, or have no threshold at zero and an exit
    percentage between 1 and 99. *)
Theorem rules_stay_canonical l s : stored_since s (serve_all l s).
Proof.
  assert (stored_since s s) as Hs.
  { split_and!; [by left|apply Forall_forall; by right|apply Forall_forall; by right|by left]. }
  revert Hs. unfold serve_all. generalize s at 2 4 as u. induction l as [|[[peer header] r] l IH]; intros u Hu; [done|].
  cbn [foldl]. apply IH. unfold router. case_match; [by apply handle_stored|done].
Qed.

(** *** Pushing and removing *)

Lemma canonicalize_key c k : parse_cidr c = Some k -> canonicalize c = Some (to_cidr_string k).
Proof. unfold canonicalize. by intros ->. Qed.
(** Among stored texts, the network's own text is the only one that names it. *)
Lemma canonical_names x k : canonical_text x -> parse_cidr x = Some k -> x = to_cidr_string k.
Proof. intros Hx Hk. unfold canonical_text in Hx. rewrite (canonicalize_key x k Hk) in Hx. congruence. Qed.
Lemma canonical_text_unique x y k : canonical_text x -> canonical_text y ->
  parse_cidr x = Some k -> parse_cidr y = Some k -> x = y.
Proof. intros Hx Hy Ex Ey. by rewrite (canonical_names x k), (canonical_names y k). Qed.
Lemma key_text_parses t k : parse_cidr t = Some k -> parse_cidr (to_cidr_string k) = Some k.
Proof. intros E. by eapply parse_printed, parse_key_ok. Qed.
Lemma not_named x k t : parse_cidr t = Some k -> canonical_text x -> x <> to_cidr_string k <-> parse_cidr x <> Some k.
Proof.
  intros Et Hx. split; intros Hn E; apply Hn; [by apply canonical_names|].
  rewrite E. by eapply key_text_parses.
Qed.

(** What [retain] followed by [push], and [retain], leave of a list of which each item has a text. *)
Section retained.
Context {A : Type} (text_of : A -> string) (c : string).
Notation dropped l := (filter (fun x => text_of x <> c) l).
Lemma dropped_pushed (l : list A) x : text_of x = c -> dropped (dropped l ++ [x]) = dropped l.
Proof.
    intros E. rewrite filter_app, list_filter_filter_l, filter_cons_False, app_nil_r; [done|by intros Hn; apply Hn|].
    by intros y.
Qed.
Lemma pushed_length (l : list A) x : text_of x = c ->
    Nat.eqb (length (dropped (dropped l ++ [x]))) (length (dropped l ++ [x])) = false.
Proof. intros E. rewrite dropped_pushed by done. apply Nat.eqb_neq. rewrite length_app. cbn. lia. Qed.
Lemma dropped_again (l : list A) : dropped (dropped l) = dropped l.
Proof. by apply list_filter_filter_l; intros. Qed.
End retained.

(** Posting, then deleting under any text of the same network. *)
Lemma block_round_trip t t' k s : parse_cidr t = Some k -> parse_cidr t' = Some k ->
  let s1 := (post_block t s).2 in
  let s2 := (delete_block t' s1).2 in
  let l := filter (fun x => x <> to_cidr_string k) (rs_source_blocks (a_rules s)) in
  (post_block t s).1 = NoContent /\ rs_source_blocks (a_rules s1) = l ++ [to_cidr_string k] /\
  (delete_block t' s1).1 = NoContent /\ rs_source_blocks (a_rules s2) = l /\ (delete_block t' s2).1 = NotFoundCode /\
  rs_source_blocks (a_rules (delete_block t' s2).2) = l.
Proof.
  intros Et Et'. unfold post_block, delete_block, stored_form. rewrite !(canonicalize_key _ k) by done. cbn -[filter].
  rewrite (pushed_length (fun x => x) _ _ (to_cidr_string k)) by done. cbn -[filter].
  rewrite (dropped_pushed (fun x => x) _ _ (to_cidr_string k)), (dropped_again (fun x => x)), Nat.eqb_refl by done.
  cbn -[filter]. by rewrite !(dropped_pushed (fun x => x) _ _ (to_cidr_string k)), !(dropped_again (fun x => x)).
Qed.
Lemma override_round_trip t t' fl k s : parse_cidr t = Some k -> parse_cidr t' = Some k ->
  let s1 := (post_override {| ov_cidr := t; ov_flags := fl |} s).2 in
  let s2 := (delete_override t' s1).2 in
  let l := filter (fun o => ov_cidr o <> to_cidr_string k) (rs_overrides (a_rules s)) in
  (post_override {| ov_cidr := t; ov_flags := fl |} s).1 = NoContent /\
  rs_overrides (a_rules s1) = l ++ [{| ov_cidr := to_cidr_string k; ov_flags := fl |}] /\
  (delete_override t' s1).1 = NoContent /\ rs_overrides (a_rules s2) = l /\ (delete_override t' s2).1 = NotFoundCode /\
  rs_overrides (a_rules (delete_override t' s2).2) = l.
Proof.
  intros Et Et'. unfold post_override, delete_override, stored_form. cbn [ov_cidr ov_flags].
  rewrite !(canonicalize_key _ k) by done. cbn -[filter].
  rewrite pushed_length by done. cbn -[filter]. rewrite dropped_pushed, dropped_again, Nat.eqb_refl by done.
  cbn -[filter]. by rewrite !dropped_pushed, !dropped_again.
Qed.

Definition blocks_of (s : SharedState) (k : CidrKey) : list string :=
  filter (fun x => parse_cidr x = Some k) (rs_source_blocks (a_rules s)).
Definition overrides_of (s : SharedState) (k : CidrKey) : list Override :=
  filter (fun o => parse_cidr (ov_cidr o) = Some k) (rs_overrides (a_rules s)).

Lemma named_after {A} (text_of : A -> string) t k l x :
  parse_cidr t = Some k -> Forall (fun y => canonical_text (text_of y)) l ->
  filter (fun y => parse_cidr (text_of y) = Some k) (filter (fun y => text_of y <> to_cidr_string k) l) = [] /\
  (text_of x = to_cidr_string k ->
   filter (fun y => parse_cidr (text_of y) = Some k) (filter (fun y => text_of y <> to_cidr_string k) l ++ [x]) = [x]).
Proof.
  intros Et Hl.
  assert (filter (fun y => parse_cidr (text_of y) = Some k) (filter (fun y => text_of y <> to_cidr_string k) l) = []) as E.
  { induction Hl as [|y l Hy _ IH]; [done|]. rewrite (filter_cons (fun y => text_of y <> _)).
    case_decide as Hd; [|done]. rewrite filter_cons_False; [done|]. by eapply not_named. }
  split; [done|]. intros Ex. rewrite filter_app, E, filter_cons_True; [done|]. rewrite Ex. by eapply key_text_parses.
Qed.

(** A network that was pushed as a block or as an override is stored once, whatever
    text it was pushed under, and can be removed under any other text that parses to
    the same network: the removal is accepted, nothing that names the network is
    left, the other entries stay, and a second removal finds nothing. *)
Theorem pushed_is_removable t t' fl k s :
  parse_cidr t = Some k -> parse_cidr t' = Some k -> wf_rules (a_rules s) ->
  let b1 := (post_block t s).2 in
  let o1 := (post_override {| ov_cidr := t; ov_flags := fl |} s).2 in
  let kept := filter (fun x => x <> to_cidr_string k) (rs_source_blocks (a_rules s)) in
  let kept_ov := filter (fun o => ov_cidr o <> to_cidr_string k) (rs_overrides (a_rules s)) in
  blocks_of b1 k = [to_cidr_string k] /\
  overrides_of o1 k = [{| ov_cidr := to_cidr_string k; ov_flags := fl |}] /\
  (exists b2, delete_block t' b1 = (NoContent, b2) /\ blocks_of b2 k = [] /\ rs_source_blocks (a_rules b2) = kept /\
     (delete_block t' b2).1 = NotFoundCode) /\
  (exists o2, delete_override t' o1 = (NoContent, o2) /\ overrides_of o2 k = [] /\ rs_overrides (a_rules o2) = kept_ov /\
     (delete_override t' o2).1 = NotFoundCode).
Proof.
  intros Et Et' (_ & Ho & Hb) b1 o1 kept kept_ov.
  destruct (block_round_trip t t' k s Et Et') as (B1 & B2 & B3 & B4 & B5 & _).
  destruct (override_round_trip t t' fl k s Et Et') as (O1 & O2 & O3 & O4 & O5 & _).
  destruct (named_after (fun x => x) t k _ (to_cidr_string k) Et Hb) as [Nb1 Nb2].
  destruct (named_after ov_cidr t k _ {| ov_cidr := to_cidr_string k; ov_flags := fl |} Et Ho) as [No1 No2].
  unfold blocks_of, overrides_of, b1, o1, kept, kept_ov. cbv zeta in *. split_and!.
  - rewrite B2. by apply Nb2.
  - rewrite O2. by apply No2.
  - eexists. split; [rewrite <- B3; apply surjective_pairing|]. by rewrite B4.
  - eexists. split; [rewrite <- O3; apply surjective_pairing|]. by rewrite O4.
Qed.
