(* ===== verification/FwApiLists.v ===== *)
(** * The lists that the control API answers with

    What [sort_by], [page] and [aggregate_origins] compute: a list that is sorted and
    complete, pages that together are the list, and one row for each country that
    counts exactly its own sources. *)

From Stdlib Require Import Ascii String Sorting.
From stdpp Require Import list_numbers.
From S2P Require Import Prelude FwCommon FwDetect FwRuntime FwRules FwPublish NetText FwApi.

(** ** Sorting *)

Section sorting.
Context {A : Type} (lt : A -> A -> bool).
  (** [x] may stand before [y]. *)
Definition before (x y : A) : Prop := lt y x = false.
Lemma insert_by_perm x l : insert_by lt x l ≡ₚ x :: l.
Proof.
    induction l as [|y l IH]; [done|]. cbn [insert_by]. destruct (lt y x); [|done].
    rewrite IH. apply Permutation_swap.
Qed.
Lemma sort_by_perm l : sort_by lt l ≡ₚ l.
Proof. induction l as [|x l IH]; [done|]. cbn. by rewrite insert_by_perm, IH. Qed.
Context (asym : forall x y, lt x y = true -> lt y x = false).
Lemma insert_by_sorted x l : Sorted before l -> Sorted before (insert_by lt x l).
Proof.
    induction 1 as [|y l Hl IH Hy]; [repeat constructor|]. cbn [insert_by].
    destruct (lt y x) eqn:E; [|by repeat constructor].
    constructor; [done|]. destruct l as [|z l]; cbn [insert_by]; [by constructor; apply asym|].
    inversion_clear Hy. destruct (lt z x); constructor; [done|by apply asym].
Qed.
Lemma sort_by_sorted l : Sorted before (sort_by lt l).
Proof. induction l as [|x l IH]; [constructor|]. by apply insert_by_sorted. Qed.
End sorting.

Lemma str_lt_asym a b : str_lt a b = true -> str_lt b a = false.
Proof. unfold str_lt. rewrite (String.compare_antisym a b). by destruct (String.compare b a). Qed.
Ltac lt_cases :=
  repeat match goal with
  | |- context [if ?a =? ?b then _ else _] => destruct (Z.eqb_spec a b)
  | |- context [if String.eqb ?a ?b then _ else _] => destruct (String.eqb_spec a b)
  end; try congruence; try apply str_lt_asym; rewrite ?Z.ltb_lt, ?Z.ltb_ge; try lia.
Lemma block_lt_asym a b : block_lt a b = true -> block_lt b a = false.
Proof. unfold block_lt. destruct (sb_manual a), (sb_manual b); cbn; lt_cases; done. Qed.
Lemma source_lt_asym a b : source_lt a b = true -> source_lt b a = false.
Proof. unfold source_lt. destruct (ts_manual a), (ts_manual b); cbn; lt_cases; done. Qed.
Lemma origin_lt_asym a b : origin_lt a b = true -> origin_lt b a = false.
Proof. unfold origin_lt. lt_cases. Qed.

(** ** Pages *)

(** The [i]th page of a query, as a client walks them. *)
Definition nth_page (q : Query) (i : nat) : Query :=
  {| q_offset := i * limit_of q; q_limit := q_limit q; q_q := q_q q |}.
Lemma limit_pos q : (1 <= limit_of q <= 1000)%nat.
Proof. unfold limit_of. lia. Qed.
Lemma pages_concat {A} (q : Query) (l : list A) n :
  concat ((fun i => pg_items (page (nth_page q i) l)) <$> seq 0 n) = take (n * limit_of q) l.
Proof.
  induction n as [|n IH]; [done|]. rewrite seq_S, fmap_app, concat_app, IH.
  change (take (n * limit_of q) l ++ take (limit_of q) (drop (n * limit_of q) l) ++ [] = take (limit_of q + n * limit_of q) l).
  rewrite app_nil_r, Nat.add_comm. apply take_take_drop.
Qed.
Lemma all_blocks_text s q i : all_blocks s (nth_page q i) = all_blocks s q.
Proof. done. Qed.

(** The blocks a client reads by asking for page after page are all the blocks
    that match, manual and automatic, each once, in order; a page never holds more
    than a thousand, and states how many there are. *)
Theorem pages_cover s q n :
  (length (all_blocks s q) <= n * limit_of q)%nat ->
  let get i := handle (GetBlocks (nth_page q i)) s in
  exists pages : nat -> Page (SourceBlock * GeoInfo),
    (forall i, get i = (Success, BlocksBody (pages i), s) /\ (length (pg_items (pages i)) <= 1000)%nat /\
       pg_total (pages i) = length (all_blocks s q)) /\
    concat ((fun i => (pg_items (pages i)).*1) <$> seq 0 n) = all_blocks s q /\
    Sorted (before block_lt) (all_blocks s q) /\
    (forall b, b ∈ all_blocks s q <->
       matches (needle_of (q_q q)) (sb_cidr b) = true /\
       (b ∈ sn_blocks (a_snapshots s) \/
        exists c, c ∈ rs_source_blocks (a_rules s) /\
          b = {| sb_cidr := c; sb_age_secs := 0; sb_pps := 0; sb_manual := true; sb_cooling := false |})).
Proof.
  intros Hn get. exists (fun i => geo_page s sb_cidr (page (nth_page q i) (all_blocks s q))). split_and!.
  - intros i. split_and!; [done| |done]. cbn. rewrite length_fmap, length_take. pose proof (limit_pos q).
    unfold limit_of in *. cbn in *. lia.
  - transitivity (concat ((fun i => pg_items (page (nth_page q i) (all_blocks s q))) <$> seq 0 n)).
    + f_equal. apply list_fmap_ext. intros _ i _. cbn. rewrite <- list_fmap_compose. apply list_fmap_id.
    + rewrite pages_concat. by apply take_ge.
  - apply sort_by_sorted, block_lt_asym.
  - intros b. unfold all_blocks. rewrite sort_by_perm, list_elem_of_filter, elem_of_app, list_elem_of_fmap.
    split; intros [? [?|?]]; (split; [done|]); naive_solver.
Qed.

(** ** Origins *)

Definition country_key (country_of : string -> option string) (s : TrackedSource) : string :=
  default "??"%string (country_of (ts_ip s)).
Definition dropping (s : TrackedSource) : Prop := ts_state s = "dropping"%string.
#[export] Instance dropping_dec s : Decision (dropping s) := _.
Definition pps_sum (l : list TrackedSource) : Z := foldr (fun s t => ts_pps s + t) 0 l.
Definition saturated (z : Z) : Z := Z.min (2 ^ 64 - 1) z.
(** The row a list of sources adds up to. *)
Definition row (cc : string) (l : list TrackedSource) : OriginStat :=
  {| og_country := cc; og_sources := Z.of_nat (length l); og_pps := saturated (pps_sum l);
     og_drop_pps := saturated (pps_sum (filter dropping l)); og_dropping := Z.of_nat (length (filter dropping l)) |}.

Lemma pps_sum_app l1 l2 : pps_sum (l1 ++ l2) = pps_sum l1 + pps_sum l2.
Proof. induction l1 as [|x l IH]; [done|]. cbn [app pps_sum foldr]. fold (pps_sum (l ++ l2)) (pps_sum l). lia. Qed.
Lemma sat_add_sat a b : 0 <= b -> sat_add (saturated a) b = saturated (a + b).
Proof. unfold sat_add, saturated. lia. Qed.
Lemma row_snoc cc l x : 0 <= ts_pps x -> count_source x (row cc l) = row cc (l ++ [x]).
Proof.
  intros Hx. unfold count_source, row. cbn [og_country og_sources og_pps og_drop_pps og_dropping].
  rewrite filter_app, !pps_sum_app, !length_app. cbn [length].
  destruct (String.eqb_spec (ts_state x) "dropping") as [E|E].
  - rewrite filter_cons_True by exact E. change (filter dropping []) with (@nil TrackedSource).
    rewrite !sat_add_sat by done. cbn [pps_sum foldr length]. rewrite !Nat2Z.inj_add, !Z.add_0_r. done.
  - rewrite filter_cons_False by exact E. change (filter dropping []) with (@nil TrackedSource).
    rewrite sat_add_sat by done. cbn [pps_sum foldr length]. by rewrite !Nat2Z.inj_add, !Z.add_0_r.
Qed.
Section origins.
Context (country_of : string -> option string).
Notation of_country cc := (filter (fun s => country_key country_of s = cc)).
Lemma fold_origins_lookup l cc : Forall (fun s => 0 <= ts_pps s) l ->
    fold_origins country_of l !! cc = if decide (of_country cc l = []) then None else Some (row cc (of_country cc l)).
Proof.
    unfold fold_origins. induction l as [|x l IH] using rev_ind; intros Hl; [done|].
    apply Forall_app in Hl as [Hl Hx]. apply (proj1 (Forall_singleton _ _)) in Hx. rewrite foldl_app. cbn [foldl].
    fold (country_key country_of x). rewrite filter_app.
    destruct (decide (country_key country_of x = cc)) as [<-|Hne].
    - rewrite lookup_insert, filter_cons_True by done. rewrite decide_True by done.
      rewrite decide_False by (intros E; apply app_eq_nil in E as [_ E]; discriminate E). rewrite (IH Hl). f_equal.
      change (filter _ []) with (@nil TrackedSource). case_decide as E; cbn [from_option id]; [|exact (row_snoc _ _ _ Hx)].
      rewrite E. change (no_origin _) with (row (country_key country_of x) []). exact (row_snoc _ _ _ Hx).
    - rewrite lookup_insert_ne, filter_cons_False, (IH Hl) by done. by rewrite app_nil_r.
Qed.
End origins.

(** The traffic origins account for every tracked source: a country has a row exactly
    when a source comes from it, one row, which counts its sources and adds up
    their rates, as does the total, saturating at 64 bits; the rows are ranked by
    rate. *)
Theorem origins_account s country_of sources :
  country_of = (fun ip => g_country (geo_for s ip)) -> sources = sn_sources (a_snapshots s) ->
  Forall (fun x => 0 <= ts_pps x) sources ->
  exists o, handle GetOrigins s = (Success, OriginsBody o, s) /\
    (forall r, r ∈ or_items o <->
       exists cc, let mine := filter (fun x => country_key country_of x = cc) sources in mine <> [] /\ r = row cc mine) /\
    NoDup (og_country <$> or_items o) /\ Sorted (before origin_lt) (or_items o) /\
    or_total_sources o = length sources /\ or_total_pps o = saturated (pps_sum sources).
Proof.
  intros -> -> Hs. set (country_of := fun ip => g_country (geo_for s ip)). set (sources := sn_sources _) in *.
  eexists. split; [reflexivity|]. fold country_of sources. cbn [or_items or_total_sources or_total_pps aggregate_origins].
  assert (forall cc r, fold_origins country_of sources !! cc = Some r <->
    filter (fun x => country_key country_of x = cc) sources <> [] /\
    r = row cc (filter (fun x => country_key country_of x = cc) sources)) as Hrow.
  { intros cc r. rewrite fold_origins_lookup by done. case_decide; naive_solver. }
  split_and!.
  - intros r. rewrite sort_by_perm, list_elem_of_fmap. setoid_rewrite <- Hrow. split.
    + intros ([cc r'] & -> & Hin). exists cc. by apply elem_of_map_to_list.
    + intros [cc Hcc]. exists (cc, r). split; [done|]. by apply elem_of_map_to_list.
  - rewrite sort_by_perm. rewrite <- list_fmap_compose. erewrite list_fmap_ext; [apply NoDup_fst_map_to_list|].
    intros i [cc r] Hi. apply list_elem_of_lookup_2, elem_of_map_to_list, Hrow in Hi as [_ ->]. done.
  - apply sort_by_sorted, origin_lt_asym.
  - done.
  - clear Hrow. change 0 with (saturated (pps_sum [])) at 1. rewrite <- (app_nil_l sources) at 2.
    generalize (@nil TrackedSource). induction Hs as [|x l Hx _ IH]; intros l0; [by rewrite app_nil_r|].
    cbn [foldl]. rewrite sat_add_sat by done. rewrite (cons_middle x l0 l), app_assoc. rewrite <- IH.
    do 2 f_equal. rewrite pps_sum_app. cbn. lia.
Qed.
