(* ===== verification/FwApiLoop.v ===== *)
(** * The control API beside the control loop
    ([lnvps_fw/lnvps_fw_service/src/main.rs], the first half of a tick)

    A handler that edits the rules writes them and then bumps a version; the loop
    reads the version, remembers it and reads the rules. The two run in parallel,
    so their steps interleave. The same holds of the limits. *)

From Stdlib Require Import Ascii String.
From stdpp Require Import list_numbers.
From S2P Require Import Prelude FwCommon FwCidr FwBpf FwMaps FwDetect FwRuntime FwRules FwPublish NetText FwUpgrade FwApi FwApiProofs.

Section loop.
Context `{!BpfKernel, !HashIter}.

(** Where a tick is: before it looks at the rules' version, having found it changed,
    before it looks at the limits' version, having found that one changed. *)
Inductive Phase : Type := Idle | RulesChanged | RulesDone | LimitsChanged.
Record Loop := {
  lo_shared : SharedState;
  (** handlers between their write and their bump *)
  lo_rules_pending : nat; lo_limits_pending : nat;
  lo_seen_rules : Z; lo_seen_limits : Z;
  lo_phase : Phase;
  lo_state : RuleState;
  (** [applied_protected_v4], [applied_protected_v6] *)
  lo_protected : family -> list (Z * Addr);
  (** what the last reconciliation of the rules returned, which is only logged *)
  lo_result : res MapError unit
}.
Definition set_shared (s : SharedState) (d : Loop) : Loop :=
  {| lo_shared := s; lo_rules_pending := lo_rules_pending d; lo_limits_pending := lo_limits_pending d;
     lo_seen_rules := lo_seen_rules d; lo_seen_limits := lo_seen_limits d; lo_phase := lo_phase d;
     lo_state := lo_state d; lo_protected := lo_protected d; lo_result := lo_result d |}.
Definition set_pending (r l : nat) (d : Loop) : Loop :=
  {| lo_shared := lo_shared d; lo_rules_pending := r; lo_limits_pending := l;
     lo_seen_rules := lo_seen_rules d; lo_seen_limits := lo_seen_limits d; lo_phase := lo_phase d;
     lo_state := lo_state d; lo_protected := lo_protected d; lo_result := lo_result d |}.
Definition set_seen (r l : Z) (p : Phase) (d : Loop) : Loop :=
  {| lo_shared := lo_shared d; lo_rules_pending := lo_rules_pending d; lo_limits_pending := lo_limits_pending d;
     lo_seen_rules := r; lo_seen_limits := l; lo_phase := p;
     lo_state := lo_state d; lo_protected := lo_protected d; lo_result := lo_result d |}.
Definition set_state (st : RuleState) (old : family -> list (Z * Addr)) (d : Loop) : Loop :=
  {| lo_shared := lo_shared d; lo_rules_pending := lo_rules_pending d; lo_limits_pending := lo_limits_pending d;
     lo_seen_rules := lo_seen_rules d; lo_seen_limits := lo_seen_limits d; lo_phase := lo_phase d;
     lo_state := st; lo_protected := old; lo_result := lo_result d |}.
Definition set_result (r : res MapError unit) (d : Loop) : Loop :=
  {| lo_shared := lo_shared d; lo_rules_pending := lo_rules_pending d; lo_limits_pending := lo_limits_pending d;
     lo_seen_rules := lo_seen_rules d; lo_seen_limits := lo_seen_limits d; lo_phase := lo_phase d;
     lo_state := lo_state d; lo_protected := lo_protected d; lo_result := r |}.
Definition set_bpf (bpf : XState) (st : RuleState) : RuleState :=
  {| r_bpf := bpf; applied := applied st; applied_blocks := applied_blocks st; r_rt := r_rt st |}.
Definition set_rt (rt : RuntimeConfig) (st : RuleState) : RuleState :=
  {| r_bpf := r_bpf st; applied := applied st; applied_blocks := applied_blocks st; r_rt := rt |}.

(** ** A tick *)

Definition look_rules (d : Loop) : Loop :=
  let v := a_rules_version (lo_shared d) in
  if v =? lo_seen_rules d then set_seen (lo_seen_rules d) (lo_seen_limits d) RulesDone d
  else set_seen v (lo_seen_limits d) RulesChanged d.
(** [apply_rules], then [sync_protected] with the lists it left, whether or not it
    failed. An error of either is logged, and the version counts as seen. *)
Definition reconcile (rules : RuleSet) (now : Z) (st : RuleState) (old : family -> list (Z * Addr))
  : res MapError unit * RuleState * (family -> list (Z * Addr)) :=
  let '(r1, st) := apply_rules rules now st in
  let '(r2, old, bpf) := sync_protected (protected_nets (r_rt st)) old (r_bpf st) in
  (match r1 with Err e => Err e | Ok _ => r2 end, set_bpf bpf st, old).
Definition reload_rules (now : Z) (d : Loop) : Loop :=
  let '(r, st, old) := reconcile (a_rules (lo_shared d)) now (lo_state d) (lo_protected d) in
  set_seen (lo_seen_rules d) (lo_seen_limits d) RulesDone (set_result r (set_state st old d)).
Definition look_limits (d : Loop) : Loop :=
  let v := a_limits_version (lo_shared d) in
  if v =? lo_seen_limits d then set_seen (lo_seen_rules d) (lo_seen_limits d) Idle d
  else set_seen (lo_seen_rules d) v LimitsChanged d.
Definition limit_state (l : Limits) (st : RuleState) : RuleState :=
  let rt := apply_limits (r_rt st) l in
  set_bpf (write_learn_leak_cfg rt (write_src_rate_cfg rt (r_bpf st))) (set_rt rt st).
Definition reload_limits (d : Loop) : Loop :=
  set_seen (lo_seen_rules d) (lo_seen_limits d) Idle
    (set_state (limit_state (a_limits (lo_shared d)) (lo_state d)) (lo_protected d) d).
(** The part of a tick that reconciles, with no request in between. *)
Definition reload (now : Z) (d : Loop) : Loop :=
  let d := look_rules d in
  let d := match lo_phase d with RulesChanged => reload_rules now d | _ => d end in
  let d := look_limits d in
  match lo_phase d with LimitsChanged => reload_limits d | _ => d end.

(** What [main] starts the loop with. *)
Definition Loop_start (s : SharedState) (bpf : XState) (rt : RuntimeConfig) (old : family -> list (Z * Addr)) : Loop :=
  {| lo_shared := s; lo_rules_pending := 0; lo_limits_pending := 0; lo_seen_rules := 0; lo_seen_limits := 0;
     lo_phase := Idle; lo_state := {| r_bpf := bpf; applied := ∅; applied_blocks := ∅; r_rt := rt |};
     lo_protected := old; lo_result := Ok tt |}.

(** ** Every interleaving *)

Definition edits_rules (r : Request) : bool :=
  match r with PutRules _ | PostOverride _ | DeleteOverride _ | PostBlock _ | DeleteBlock _ => true | _ => false end.
Definition edits_limits (r : Request) : bool := match r with PutLimits _ => true | _ => false end.

(** The numbers count the edits of the rules and of the limits. *)
Inductive reach (d0 : Loop) : nat -> nat -> Loop -> Prop :=
| reach_start : reach d0 0 0 d0
(** an accepted edit of the rules: its write, and later its bump *)
| reach_write n m d peer header r b s' :
    reach d0 n m d -> edits_rules r = true -> router peer header r (lo_shared d) = (NoContent, b, s') ->
    reach d0 (S n) m (set_pending (S (lo_rules_pending d)) (lo_limits_pending d)
                        (set_shared (set_rules (a_rules s') (lo_shared d)) d))
| reach_bump n m d k :
    reach d0 n m d -> lo_rules_pending d = S k ->
    reach d0 n m (set_pending k (lo_limits_pending d) (set_shared (bump_rules (lo_shared d)) d))
| reach_write_limits n m d peer header r b s' :
    reach d0 n m d -> edits_limits r = true -> router peer header r (lo_shared d) = (NoContent, b, s') ->
    reach d0 n (S m) (set_pending (lo_rules_pending d) (S (lo_limits_pending d))
                        (set_shared (set_limits (a_limits s') (lo_shared d)) d))
| reach_bump_limits n m d k :
    reach d0 n m d -> lo_limits_pending d = S k ->
    reach d0 n m (set_pending (lo_rules_pending d) k (set_shared (bump_limits (lo_shared d)) d))
(** any other request, and any edit that is refused *)
| reach_request n m d peer header r c b s' :
    reach d0 n m d -> router peer header r (lo_shared d) = (c, b, s') ->
    edits_rules r || edits_limits r = false \/ c <> NoContent -> reach d0 n m (set_shared s' d)
| reach_publish n m d sn : reach d0 n m d -> reach d0 n m (set_shared (publish sn (lo_shared d)) d)
(** packets, detection and timers: they write other maps *)
| reach_datapath n m d bpf :
    reach d0 n m d -> (forall k, block_entry k bpf = block_entry k (r_bpf (lo_state d))) ->
    GLOBAL_CFG bpf = GLOBAL_CFG (r_bpf (lo_state d)) ->
    reach d0 n m (set_state (set_bpf bpf (lo_state d)) (lo_protected d) d)
| reach_look_rules n m d : reach d0 n m d -> lo_phase d = Idle -> reach d0 n m (look_rules d)
| reach_reload_rules n m d now : reach d0 n m d -> lo_phase d = RulesChanged -> reach d0 n m (reload_rules now d)
| reach_look_limits n m d : reach d0 n m d -> lo_phase d = RulesDone -> reach d0 n m (look_limits d)
| reach_reload_limits n m d : reach d0 n m d -> lo_phase d = LimitsChanged -> reach d0 n m (reload_limits d).

(** ** A version that is bumped after its value is written *)

(** [n] edits were started of which [pending] have not bumped yet; [good]: what the loop
    applied last is the value. *)
Definition versioned (n pending : nat) (version seen : Z) (woken : bool) (good : Prop) : Prop :=
  Z.of_nat n + 1 < 2 ^ 64 ->
  (pending <= n)%nat /\ version = 1 + Z.of_nat n - Z.of_nat pending /\ 0 <= seen <= version /\
  (woken = false -> pending = 0%nat -> seen = version -> good).
Lemma versioned_weaken n p v s w (good good' : Prop) : (good -> good') -> versioned n p v s w good -> versioned n p v s w good'.
Proof. unfold versioned. naive_solver. Qed.
Lemma versioned_start good : versioned 0 0 1 0 false good.
Proof. intros _. split_and!; try lia. Qed.
Lemma versioned_write n p v s w (good good' : Prop) : versioned n p v s w good -> versioned (S n) (S p) v s w good'.
Proof. intros Hv Hn. destruct Hv as (? & ? & ? & _); [lia|]. split_and!; lia || done. Qed.
Lemma versioned_bump n p v s w (good good' : Prop) : versioned n (S p) v s w good -> versioned n p (wadd 64 v 1) s w good'.
Proof.
  intros Hv Hn. destruct Hv as (? & ? & ? & _); [lia|].
  assert (wadd 64 v 1 = v + 1) as ->. { unfold wadd, wrap. apply Z.mod_small. lia. }
  split_and!; lia || (intros; lia).
Qed.
Lemma versioned_look n p v s (good : Prop) : versioned n p v s false good ->
  versioned n p v v (negb (v =? s)) good.
Proof.
  intros Hv Hn. destruct (Hv Hn) as (? & ? & ? & Hg). split_and!; try lia.
  destruct (Z.eqb_spec v s); [|done]. intros _ Hp _. by apply Hg.
Qed.
Lemma versioned_reload n p v s w (good good' : Prop) : good' -> versioned n p v s w good -> versioned n p v s false good'.
Proof. unfold versioned. naive_solver. Qed.

(** ** What is in force *)

Definition cfg0 (bpf : XState) : GlobalConfig := default GlobalConfig_zero (GLOBAL_CFG bpf !! 0%nat).
Definition rules_in_force (rules : RuleSet) (st : RuleState) (old : family -> list (Z * Addr)) : Prop :=
  applied st = fst <$> desired_of rules /\ applied_blocks st = want_of rules /\
  protected_nets (r_rt st) = (fun f => protected_of f (rs_protected rules)) /\
  manual (r_rt st) = (fun f => from_overrides f (rs_overrides rules)) /\
  (forall f, old f = protected_of f (rs_protected rules)) /\
  manual_blocks (cfg0 (r_bpf st)) = if decide (want_of rules = ∅) then 0 else 1.
Definition limits_in_force (l : Limits) (st : RuleState) : Prop :=
  r_rt st = apply_limits (r_rt st) l /\
  src_rate (cfg0 (r_bpf st)) = {| max_per_window := sat_mul 64 (l_src_rate_pps l) SRC_WINDOW_NS / 1000000000;
    window_ns := SRC_WINDOW_NS; cooldown_ns := sat_mul 64 (l_src_cooldown_secs l) 1000000000 |} /\
  learn_leak_pps (cfg0 (r_bpf st)) = Z.min (l_learn_leak_pps l) (2 ^ 32 - 1).

(** What counts as applied is stored texts, each with its network. *)
Definition tracked (ap : gmap string CidrKey) : Prop :=
  forall c k, ap !! c = Some k -> canonical_text c /\ parse_cidr c = Some k.
(** The manual blocks that the kernel holds are those that count as applied. *)
Record mirrors (bpf : XState) (ab : gmap string CidrKey) : Prop := {
  mi_tracked : tracked ab;
  mi_blocked : forall c k, ab !! c = Some k -> block_entry k bpf = Some 1;
  mi_clear : forall k, canonical k -> (forall c, ab !! c <> Some k) -> block_entry k bpf = None
}.
Record sound (st : RuleState) : Prop := {
  so_cfg : GLOBAL_CFG (r_bpf st) <> [];
  so_applied : tracked (applied st);
  so_blocks : mirrors (r_bpf st) (applied_blocks st)
}.

Lemma cfg0_update g bpf : GLOBAL_CFG bpf <> [] -> cfg0 (update_global_cfg g bpf) = g (cfg0 bpf) /\
  GLOBAL_CFG (update_global_cfg g bpf) <> [] /\ forall k, block_entry k (update_global_cfg g bpf) = block_entry k bpf.
Proof. unfold cfg0, update_global_cfg. cbn. by destruct (GLOBAL_CFG bpf). Qed.
Lemma sync_family_kept f nets old bpf : let bpf' := (sync_family f nets old bpf).2 in
  GLOBAL_CFG bpf' = GLOBAL_CFG bpf /\ forall k, block_entry k bpf' = block_entry k bpf.
Proof.
  unfold sync_family. destruct (protect_all _ _) as [[r done] t]. cbn [snd]. split; [done|].
  intros k. unfold block_entry, set_fam. cbn. case_decide as E; [by rewrite ?E, <- ?E|done].
Qed.
(** Whatever it returns. *)
Lemma sync_protected_kept nets old bpf : GLOBAL_CFG bpf <> [] ->
  let bpf' := (sync_protected nets old bpf).2 in
  GLOBAL_CFG bpf' <> [] /\ (forall k, block_entry k bpf' = block_entry k bpf) /\
  manual_blocks (cfg0 bpf') = manual_blocks (cfg0 bpf) /\ src_rate (cfg0 bpf') = src_rate (cfg0 bpf) /\
  learn_leak_pps (cfg0 bpf') = learn_leak_pps (cfg0 bpf).
Proof.
  intros Hg. unfold sync_protected.
  destruct (sync_family_kept V4 (nets V4) (old V4) bpf) as [G1 B1].
  destruct (sync_family V4 _ _ _) as [[r4 d4] b4]. cbn [snd] in *.
  assert (cfg0 b4 = cfg0 bpf) as E4 by (unfold cfg0; by rewrite G1).
  destruct r4 as [[]|e]; cbn [snd]; [|rewrite E4, G1; by split_and!].
  destruct (sync_family_kept V6 (nets V6) (upd V4 d4 old V6) b4) as [G2 B2].
  destruct (sync_family V6 _ _ _) as [[r6 d6] b6]. cbn [snd] in *. rewrite G1 in G2.
  assert (cfg0 b6 = cfg0 bpf) as E6 by (unfold cfg0; by rewrite G2).
  assert (forall k, block_entry k b6 = block_entry k bpf) as B6 by (intros k; by rewrite B2, B1).
  destruct r6 as [[]|e]; cbn [snd]; [|rewrite E6, G2; by split_and!].
  assert (GLOBAL_CFG b6 <> []) as Hg2 by (by rewrite G2).
  match goal with |- context [update_global_cfg ?g b6] => destruct (cfg0_update g b6 Hg2) as (-> & ? & B3) end.
  rewrite E6. split_and!; first [done|intros k; by rewrite B3, B6].
Qed.
(** What it counts as applied when it succeeds. *)
Lemma sync_protected_done nets old bpf : (sync_protected nets old bpf).1.1 = Ok tt ->
  forall f, (sync_protected nets old bpf).1.2 f = nets f.
Proof.
  assert (forall nets t, (protect_all t nets).1.1 = Ok tt -> (protect_all t nets).1.2 = nets) as Hall.
  { clear. intros nets. induction nets as [|[len net] nets IH]; intros t; [done|]. cbn.
    destruct (linsert len net 1 t) as [t'|]; [|done]. specialize (IH t'). destruct (protect_all t' nets) as [[r done] t2].
    cbn in *. intros ->. by rewrite IH. }
  assert (forall f l l' b, (sync_family f l l' b).1.1 = Ok tt -> (sync_family f l l' b).1.2 = l) as Hf.
  { intros f l l' b. unfold sync_family. match goal with |- context [protect_all ?t l] => specialize (Hall l t) end.
    by destruct (protect_all _ _) as [[r done] t]. }
  unfold sync_protected. pose proof (Hf V4 (nets V4) (old V4) bpf) as H4.
  destruct (sync_family V4 _ _ _) as [[[[]|e] d4] b4]; [|done]. specialize (H4 eq_refl). cbn in H4. subst d4.
  pose proof (Hf V6 (nets V6) (upd V4 (nets V4) old V6) b4) as H6.
  destruct (sync_family V6 _ _ _) as [[[[]|e] d6] b6]; [|done]. specialize (H6 eq_refl). cbn in H6. subst d6.
  intros _ []; reflexivity.
Qed.

(** Where [apply_rules] stops: after the overrides, after the blocks, or not at all. *)
Lemma apply_rules_cases rules now st :
  let o := apply_overrides rules now (r_bpf st) (applied st) in
  let b := apply_blocks rules o.2.1 (applied_blocks st) in
  let st' := (apply_rules rules now st).2 in
  applied st' = o.2.2 /\
  ((r_bpf st' = o.2.1 /\ applied_blocks st' = applied_blocks st) \/
   (applied_blocks st' = b.2.2 /\ (r_bpf st' = b.2.1 \/
    exists v, r_bpf st' = update_global_cfg (fun c => {| src_rate := src_rate c; verified_ttl_ns := verified_ttl_ns c;
      scoped_flag := scoped_flag c; manual_blocks := v; learn_leak_pps := learn_leak_pps c |}) b.2.1))).
Proof.
  unfold apply_rules. destruct (apply_overrides _ _ _ _) as [[[]|e] [b1 ap]]; cbn; [|by split; [|left]].
  destruct (apply_blocks _ _ _) as [[[]|e] [b2 ab]]; cbn; (split; [done|right; split; [done|]]); [right|by left]. by eexists.
Qed.
Lemma apply_rules_cfg rules now st : GLOBAL_CFG (r_bpf st) <> [] ->
  let st' := (apply_rules rules now st).2 in
  GLOBAL_CFG (r_bpf st') <> [] /\ src_rate (cfg0 (r_bpf st')) = src_rate (cfg0 (r_bpf st)) /\
  learn_leak_pps (cfg0 (r_bpf st')) = learn_leak_pps (cfg0 (r_bpf st)).
Proof.
  intros Hg st'. destruct (apply_rules_cases rules now st) as [_ Hc]. fold st' in Hc.
  pose proof (proj1 (apply_overrides_keeps rules now (r_bpf st) (applied st) V4)) as E1.
  set (o := apply_overrides _ _ _ _) in *. cbv zeta in E1.
  pose proof (proj1 (apply_blocks_keeps rules o.2.1 (applied_blocks st) V4)) as E2. cbv zeta in E2.
  set (b := apply_blocks _ _ _) in *. rewrite E1 in E2. unfold cfg0.
  destruct Hc as [[-> _]|[_ [->|[v ->]]]]; [by rewrite E1|by rewrite E2|].
  assert (GLOBAL_CFG b.2.1 <> []) as Hg2 by (by rewrite E2). unfold update_global_cfg. cbn.
  rewrite E2. by destruct (GLOBAL_CFG (r_bpf st)).
Qed.
Lemma apply_rules_rt rules now st : r_rt (apply_rules rules now st).2 =
  {| detection := detection (r_rt st); network := network (r_rt st);
     protected_nets := (fun f => protected_of f (rs_protected rules));
     manual := (fun f => from_overrides f (rs_overrides rules));
     src_rate_pps := src_rate_pps (r_rt st); src_cooldown_ns := src_cooldown_ns (r_rt st);
     escalate_pass_pps := escalate_pass_pps (r_rt st); syn_proxy_pps := syn_proxy_pps (r_rt st);
     rt_learn_leak_pps := rt_learn_leak_pps (r_rt st) |}.
Proof.
  unfold apply_rules. destruct (apply_overrides _ _ _ _) as [[[]|e] [b1 ap]]; [|done].
  by destruct (apply_blocks _ _ _) as [[[]|e] [b2 ab]].
Qed.

Context `{!BpfKernelLaws}.

(** Stored texts, applied or wanted, name distinct keys. *)
Lemma tracked_tracks ap : tracked ap -> tracks ap.
Proof. intros Ht c k Hc. by apply Ht. Qed.
Lemma names_canonical rules st : wf_names rules -> sound st -> canonical_strings (names rules st).
Proof.
  intros [Ho Hb] Hs c c' k Hc Hc'.
  assert (forall c, names rules st c -> canonical_text c) as Hn.
  { clear -Ho Hb Hs. intros c [[k Hc]|[[k Hc]|[Hc|Hc]]].
    - by apply (so_applied _ Hs c k).
    - by apply (mi_tracked _ _ (so_blocks _ Hs) c k).
    - apply list_elem_of_fmap in Hc as (o & -> & Hin). by eapply Forall_forall in Ho.
    - by eapply Forall_forall in Hb. }
  apply canonical_text_unique; by apply Hn.
Qed.
Lemma desired_tracked rules c x : wf_names rules -> (c, x) ∈ hash_iter (desired_of rules) -> canonical_text c /\ parse_cidr c = Some x.1.
Proof.
  intros [Ho _]. rewrite hash_iter_perm, elem_of_map_to_list. destruct x as [k fl].
  intros (E & o & Hin & <- & _)%desired_of_parse. split; [by eapply Forall_forall in Ho|done].
Qed.
Lemma want_tracked rules c k : wf_names rules -> (c, k) ∈ hash_iter (want_of rules) -> canonical_text c /\ parse_cidr c = Some k.
Proof.
  intros [_ Hb]. rewrite hash_iter_perm, elem_of_map_to_list. intros [E Hin]%want_of_parse. split; [by eapply Forall_forall in Hb|done].
Qed.
Lemma gone_applied {A B} (ap : gmap string A) (wanted : gmap string B) c k : (c, k) ∈ gone ap wanted -> ap !! c = Some k.
Proof. unfold gone. rewrite list_elem_of_filter, hash_iter_perm, elem_of_map_to_list. by intros [_ ?]. Qed.
Lemma gone_nodup {A B} (ap : gmap string A) (wanted : gmap string B) : NoDup (gone ap wanted).*1.
Proof.
  unfold gone. apply NoDup_map_filter. change (NoDup (map fst (hash_iter ap))).
  rewrite (Permutation_map fst (hash_iter_perm ap)). apply NoDup_fst_map_to_list.
Qed.

(** *** The loops, wherever they stop *)

Lemma remove_tracked {S} (del : CidrKey -> S -> S) l : forall s ap, tracked ap -> tracked (remove_all del s ap l).2.
Proof.
  unfold remove_all. induction l as [|[c k] l IH]; intros s ap Ht; [done|]. cbn [foldl]. apply IH.
  intros c' k' [_ Hc]%lookup_delete_Some. by apply Ht.
Qed.
Lemma install_tracked {A S} (key : A -> CidrKey) (put : A -> S -> option S) l :
  (forall c x, (c, x) ∈ l -> canonical_text c /\ parse_cidr c = Some (key x)) ->
  forall s ap, tracked ap -> tracked (install_all key put s ap l).2.2.
Proof.
  induction l as [|[c x] l IH]; intros Hl s ap Ht; [done|]. cbn. destruct (put x s) as [s'|]; [|done].
  apply IH; [intros c' x' Hin; apply Hl; by right|]. intros c' k' [[<- <-]|[_ Hc]]%lookup_insert_Some; [apply Hl; by left|by apply Ht].
Qed.
Lemma unblock_mirrors bpf ab c k : mirrors bpf ab -> ab !! c = Some k -> mirrors (unblock k bpf) (delete c ab).
Proof.
  intros [Ht Hb Hc] Hk. assert (canonical k) as Hcan by (by eapply parse_cidr_canonical, Ht). split.
  - intros c' k' [_ Hc']%lookup_delete_Some. by apply Ht.
  - intros c' k' [Hne Hc']%lookup_delete_Some. destruct (Ht _ _ Hc') as [T' E'], (Ht _ _ Hk) as [T E].
    rewrite block_entry_unset by (done || by eapply parse_cidr_canonical). rewrite decide_False; [by eapply Hb|].
    intros ->. by apply Hne, (canonical_text_unique c c' k).
  - intros k' Hk' Hno. rewrite block_entry_unset by done. case_decide as E; [done|]. apply Hc; [done|].
    intros c' Hc'. destruct (decide (c' = c)) as [->|Hne]; [congruence|]. apply (Hno c'). by rewrite lookup_delete_ne.
Qed.
Lemma block_mirrors bpf ab c k bpf' : mirrors bpf ab -> canonical_text c -> parse_cidr c = Some k ->
  manual_block k true bpf = Some bpf' -> mirrors bpf' (<[c := k]> ab).
Proof.
  intros [Ht Hb Hc] Hcc Hk E. assert (canonical k) as Hcan by (by eapply parse_cidr_canonical). split.
  - intros c' k' [[<- <-]|[_ Hc']]%lookup_insert_Some; [done|by apply Ht].
  - intros c' k' Hc'. assert (canonical k') as Hcan'.
    { apply lookup_insert_Some in Hc' as [[_ <-]|[_ Hc']]; [done|]. by eapply parse_cidr_canonical, Ht. }
    rewrite (block_entry_set k' k bpf) by done. case_decide; [done|].
    apply lookup_insert_Some in Hc' as [[_ <-]|[_ Hc']]; [done|]. by eapply Hb.
  - intros k' Hk' Hno. rewrite (block_entry_set k' k bpf) by done. rewrite decide_False.
    + apply Hc; [done|]. intros c' Hc'. destruct (decide (c = c')) as [->|Hne].
      * destruct (Ht _ _ Hc') as [_ E']. apply (Hno c'). rewrite lookup_insert_eq. congruence.
      * apply (Hno c'). by rewrite lookup_insert_ne.
    + intros ->. apply (Hno c). apply lookup_insert_eq.
Qed.
Lemma remove_mirrors l : forall bpf ab, NoDup l.*1 -> (forall c k, (c, k) ∈ l -> ab !! c = Some k) -> mirrors bpf ab ->
  mirrors (remove_all unblock bpf ab l).1 (remove_all unblock bpf ab l).2.
Proof.
  unfold remove_all. induction l as [|[c k] l IH]; intros bpf ab Hn Hl Hm; [done|]. cbn [foldl].
  cbn in Hn. apply NoDup_cons in Hn as [Hnot Hn]. apply IH; [done| |].
  - intros c' k' Hin. rewrite lookup_delete_ne; [apply Hl; by right|]. intros <-. apply Hnot. by apply (list_elem_of_fmap_2 fst _ (c, k')).
  - apply unblock_mirrors; [done|]. apply Hl. by left.
Qed.
Lemma install_mirrors l : (forall c k, (c, k) ∈ l -> canonical_text c /\ parse_cidr c = Some k) -> forall bpf ab, mirrors bpf ab ->
  let r := (install_all id (fun k => manual_block k true) bpf ab l).2 in mirrors r.1 r.2.
Proof.
  induction l as [|[c k] l IH]; intros Hl bpf ab Hm; [done|]. cbn. destruct (linsert _ _ _ _) as [t|] eqn:E; cbn; [|done].
  apply IH; [intros c' k' Hin; apply Hl; by right|]. destruct (Hl c k ltac:(by left)) as [Hc Hk].
  apply (block_mirrors bpf); [done..|]. unfold manual_block. by rewrite E.
Qed.
Lemma mirrors_same bpf bpf' ab : (forall k, block_entry k bpf' = block_entry k bpf) -> mirrors bpf ab -> mirrors bpf' ab.
Proof. intros E [Ht Hb Hc]. split; [done| |]; intros; rewrite E; [by eapply Hb|by apply Hc]. Qed.

(** A reconciliation keeps the state sound, wherever it stops, and puts the rules in
    force if it does not. *)
Lemma apply_rules_sound rules now st : wf_names rules -> sound st -> sound (apply_rules rules now st).2.
Proof.
  intros Hw Hs. set (st' := (apply_rules rules now st).2).
  destruct (apply_rules_cases rules now st) as [Ea Hc]. fold st' in Ea, Hc.
  pose proof (apply_overrides_keeps rules now (r_bpf st) (applied st)) as Ko.
  assert (tracked (apply_overrides rules now (r_bpf st) (applied st)).2.2) as Hto.
  { rewrite apply_overrides_run. apply install_tracked; [intros c x Hin; by eapply desired_tracked|]. apply remove_tracked, Hs. }
  set (o := apply_overrides _ _ _ _) in *.
  assert (mirrors o.2.1 (applied_blocks st)) as Hmo.
  { eapply mirrors_same; [|apply Hs]. intros k. unfold block_entry. by rewrite (proj1 (proj2 (Ko (ck_fam k)))). }
  assert (mirrors (apply_blocks rules o.2.1 (applied_blocks st)).2.1 (apply_blocks rules o.2.1 (applied_blocks st)).2.2) as Hmb.
  { rewrite apply_blocks_run. cbv zeta. apply install_mirrors; [intros c k Hin; by eapply want_tracked|].
    apply remove_mirrors; [apply gone_nodup|intros c k; apply gone_applied|done]. }
  constructor; [by apply (apply_rules_cfg rules now st), Hs|by rewrite Ea|].
  destruct Hc as [[-> ->]|[-> [->|[v ->]]]]; [done|done|]. eapply mirrors_same; [|exact Hmb]. done.
Qed.
Lemma apply_rules_applied rules now st st' : wf_names rules -> sound st -> apply_rules rules now st = (Ok tt, st') ->
  applied st' = fst <$> desired_of rules /\ applied_blocks st' = want_of rules /\
  manual_blocks (cfg0 (r_bpf st')) = if decide (want_of rules = ∅) then 0 else 1.
Proof.
  intros Hw Hs Hrun. pose proof (names_canonical rules st Hw Hs) as Hn. pose proof Hs as [Hg Ha Hb].
  destruct (overrides_reconciled rules now st st' Hn (tracked_tracks _ Ha) Hrun) as (_ & _ & _ & O4).
  destruct (blocks_reconciled rules now st st' Hn (tracked_tracks _ (mi_tracked _ _ Hb)) Hrun) as (_ & _ & _ & B4 & B5).
  split_and!; [done|done|by apply B5].
Qed.

(** The datapath and the configuration may move under a sound state. *)
Lemma sound_moved st bpf rt : sound st -> GLOBAL_CFG bpf <> [] ->
  (forall k, block_entry k bpf = block_entry k (r_bpf st)) -> sound (set_bpf bpf (set_rt rt st)).
Proof. intros [? ? Hm] ? Hk. constructor; cbn; [done|done|]. by eapply mirrors_same. Qed.
Lemma set_rt_same st : set_rt (r_rt st) st = st.
Proof. by destruct st. Qed.
Lemma reconcile_sound rules now st old : wf_names rules -> sound st ->
  let r := reconcile rules now st old in
  sound r.1.2 /\ (r.1.1 = Ok tt -> rules_in_force rules r.1.2 r.2) /\ forall l, limits_in_force l st -> limits_in_force l r.1.2.
Proof.
  intros Hw Hs. unfold reconcile. pose proof (apply_rules_sound rules now st Hw Hs) as Hs'.
  pose proof (apply_rules_applied rules now st) as Happ.
  destruct (apply_rules_cfg rules now st (so_cfg _ Hs)) as (_ & Es & El).
  pose proof (apply_rules_rt rules now st) as Er. destruct (apply_rules rules now st) as [r1 st']. cbn [snd] in *.
  pose proof (sync_protected_kept (protected_nets (r_rt st')) old (r_bpf st') (so_cfg _ Hs')) as (Kg & Kb & Km & Ks & Kl).
  pose proof (sync_protected_done (protected_nets (r_rt st')) old (r_bpf st')) as Hd.
  destruct (sync_protected _ _ _) as [[r2 old'] bpf]. cbn [fst snd] in *. split_and!.
  - rewrite <- (set_rt_same st'). by apply sound_moved.
  - destruct r1 as [[]|e]; [|done]. intros ->. destruct (Happ st' Hw Hs eq_refl) as (Ea & Eb & Em).
    unfold rules_in_force. cbn. rewrite Km. specialize (Hd eq_refl). rewrite Er in *. by split_and!.
  - intros l (Lr & Ls & Ll). unfold limits_in_force. cbn. rewrite Ks, Kl, Es, El, Er. split_and!; [|done|done].
    rewrite Lr. done.
Qed.
Lemma limit_state_sound l st : sound st ->
  sound (limit_state l st) /\ limits_in_force l (limit_state l st) /\
  forall rules old, rules_in_force rules st old -> rules_in_force rules (limit_state l st) old.
Proof.
  intros Hs. unfold limit_state, write_learn_leak_cfg, write_src_rate_cfg.
  match goal with |- context [update_global_cfg ?g (update_global_cfg ?g0 ?b)] =>
    destruct (cfg0_update g0 b (so_cfg _ Hs)) as (E1 & G1 & B1);
    destruct (cfg0_update g (update_global_cfg g0 b) G1) as (E2 & G2 & B2) end.
  split_and!.
  - apply sound_moved; [done|done|]. intros k. by rewrite B2, B1.
  - unfold limits_in_force. cbn [set_bpf set_rt r_bpf r_rt]. rewrite E2, E1. by split_and!.
  - intros rules old (? & ? & ? & ? & ? & ?). unfold rules_in_force. cbn [set_bpf set_rt r_bpf r_rt applied applied_blocks].
    rewrite E2, E1. by split_and!.
Qed.

(** ** The invariant *)

Definition rules_phase (d : Loop) : bool := match lo_phase d with RulesChanged => true | _ => false end.
Definition limits_phase (d : Loop) : bool := match lo_phase d with LimitsChanged => true | _ => false end.
Record loop_inv (n m : nat) (d : Loop) : Prop := {
  li_names : wf_names (a_rules (lo_shared d));
  li_sound : sound (lo_state d);
  li_rules : versioned n (lo_rules_pending d) (a_rules_version (lo_shared d)) (lo_seen_rules d) (rules_phase d)
    (lo_result d = Ok tt -> rules_in_force (a_rules (lo_shared d)) (lo_state d) (lo_protected d));
  li_limits : versioned m (lo_limits_pending d) (a_limits_version (lo_shared d)) (lo_seen_limits d) (limits_phase d)
    (limits_in_force (a_limits (lo_shared d)) (lo_state d))
}.
Lemma look_rules_inv n m d : lo_phase d = Idle -> loop_inv n m d -> loop_inv n m (look_rules d).
Proof.
  intros Hp [Hn Hs Hr Hl]. unfold rules_phase, limits_phase in *. rewrite Hp in *.
  apply versioned_look in Hr. unfold look_rules. destruct (Z.eqb_spec (a_rules_version (lo_shared d)) (lo_seen_rules d)) as [E|E];
    constructor; unfold rules_phase, limits_phase; cbn in *; try done. by rewrite E in *.
Qed.
Lemma look_limits_inv n m d : lo_phase d = RulesDone -> loop_inv n m d -> loop_inv n m (look_limits d).
Proof.
  intros Hp [Hn Hs Hr Hl]. unfold rules_phase, limits_phase in *. rewrite Hp in *.
  apply versioned_look in Hl. unfold look_limits. destruct (Z.eqb_spec (a_limits_version (lo_shared d)) (lo_seen_limits d)) as [E|E];
    constructor; unfold rules_phase, limits_phase; cbn in *; try done. by rewrite E in *.
Qed.
Lemma reload_rules_inv n m now d : lo_phase d = RulesChanged -> loop_inv n m d -> loop_inv n m (reload_rules now d).
Proof.
  intros Hp [Hn Hs Hr Hl]. unfold rules_phase, limits_phase in *. rewrite Hp in *.
  destruct (reconcile_sound (a_rules (lo_shared d)) now (lo_state d) (lo_protected d) Hn Hs) as (Hs' & Hf & Hk).
  unfold reload_rules. destruct (reconcile _ _ _ _) as [[r st] old]. cbn [fst snd] in *.
  constructor; unfold rules_phase, limits_phase; cbn; [done|done| |].
  - by eapply versioned_reload.
  - eapply versioned_weaken; [apply Hk|done].
Qed.
Lemma reload_limits_inv n m d : lo_phase d = LimitsChanged -> loop_inv n m d -> loop_inv n m (reload_limits d).
Proof.
  intros Hp [Hn Hs Hr Hl]. unfold rules_phase, limits_phase in *. rewrite Hp in *.
  destruct (limit_state_sound (a_limits (lo_shared d)) (lo_state d) Hs) as (Hs' & Hf & Hk).
  constructor; unfold rules_phase, limits_phase; cbn; [done|done| |].
  - eapply versioned_weaken; [|exact Hr]. intros Hg Hres. by apply Hk, Hg.
  - by eapply versioned_reload.
Qed.
Lemma reload_inv n m now d : lo_phase d = Idle -> loop_inv n m d -> loop_inv n m (reload now d).
Proof.
  intros Hp Hi. apply (look_rules_inv n m d Hp) in Hi. unfold reload.
  assert (lo_phase (look_rules d) = RulesChanged \/ lo_phase (look_rules d) = RulesDone) as Hq
    by (unfold look_rules; case_match; auto).
  set (d1 := look_rules d) in *. clearbody d1.
  set (d2 := match lo_phase d1 with RulesChanged => reload_rules now d1 | _ => d1 end).
  assert (loop_inv n m d2 /\ lo_phase d2 = RulesDone) as [Hi2 Hp2].
  { unfold d2. destruct Hq as [Hq|Hq]; rewrite Hq; [|done]. split; [by apply reload_rules_inv|].
    unfold reload_rules. by destruct (reconcile _ _ _ _) as [[? ?] ?]. }
  apply (look_limits_inv n m d2 Hp2) in Hi2. destruct (lo_phase (look_limits d2)) eqn:E; try done. by apply reload_limits_inv.
Qed.

(** A request that edits nothing, or is refused, leaves the rules and the limits. *)
Definition same_settings (s s' : SharedState) : Prop :=
  a_rules s' = a_rules s /\ a_rules_version s' = a_rules_version s /\
  a_limits s' = a_limits s /\ a_limits_version s' = a_limits_version s.
Lemma filter_full {A} (P : A -> Prop) `{!forall x, Decision (P x)} (l : list A) :
  length (filter P l) = length l -> filter P l = l.
Proof.
  induction l as [|x l IH]; [done|]. rewrite filter_cons. case_decide; cbn.
  - intros [= E]. by rewrite IH.
  - pose proof (length_filter P l). lia.
Qed.
Lemma router_quiet peer header r s c b s' : router peer header r s = (c, b, s') ->
  edits_rules r || edits_limits r = false \/ c <> NoContent -> same_settings s s'.
Proof.
  unfold router. destruct (auth _ _ _) as [|c']; [|by intros [= _ _ <-]].
  intros Eh Hq. replace s' with (handle r s).2 by (by rewrite Eh).
  assert (c = (handle r s).1.1) as -> by (by rewrite Eh). clear Eh.
  destruct r as [| |rs| |ov|c0|since| | | | |c0|c0| | | |l|[u|]|]; try done; destruct Hq as [Hq|Hq]; try discriminate Hq; cbn in *.
  - unfold put_rules in *. repeat case_match; done.
  - unfold post_override in *. case_match; done.
  - unfold delete_override in *. case_match eqn:E; [|done]. apply Nat.eqb_eq in E. split_and!; try done. cbn in *.
    apply filter_full in E. unfold with_overrides. rewrite E. by destruct (a_rules s).
  - unfold post_block in *. case_match; done.
  - unfold delete_block in *. case_match eqn:E; [|done]. apply Nat.eqb_eq in E. split_and!; try done. cbn in *.
    apply filter_full in E. unfold with_blocks. rewrite E. by destruct (a_rules s).
  - unfold put_limits in *. repeat case_match; done.
  - unfold post_upgrade. by repeat case_match.
  - unfold post_upgrade. by repeat case_match.
Qed.
Lemma router_names peer header r s c b s' : router peer header r s = (c, b, s') ->
  wf_names (a_rules s) -> wf_names (a_rules s').
Proof.
  unfold router. destruct (auth _ _ _) as [|c']; [|by intros [= _ _ <-]].
  intros Eh Hn. apply (handle_names r) in Hn. by rewrite Eh in Hn.
Qed.

Lemma reach_inv d0 n m d : loop_inv 0 0 d0 -> reach d0 n m d -> loop_inv n m d.
Proof.
  intros Hi0. induction 1 as [|n m d p h r b s' _ IH Hr E|n m d k _ IH E|n m d p h r b s' _ IH Hr E|n m d k _ IH E
    |n m d p h r c b s' _ IH E Hq|n m d sn _ IH|n m d bpf _ IH Hb Hg|n m d _ IH Hp|n m d now _ IH Hp|n m d _ IH Hp|n m d _ IH Hp];
    [done|..]; try (pose proof IH as [Hn Hs Hv Hw]).
  - constructor; cbn; [by eapply router_names|done| |done]. by eapply versioned_write.
  - rewrite E in Hv. constructor; cbn; [done|done| |done]. by eapply versioned_bump.
  - constructor; cbn; [done|done|done|]. by eapply versioned_write.
  - rewrite E in Hw. constructor; cbn; [done|done|done|]. by eapply versioned_bump.
  - apply router_quiet in E as (E1 & E2 & E3 & E4); [|done]. constructor; cbn; rewrite ?E1, ?E2, ?E3, ?E4; done.
  - by constructor.
  - assert (cfg0 bpf = cfg0 (r_bpf (lo_state d))) as Ec by (unfold cfg0; by rewrite Hg).
    constructor; cbn; [done| | |].
    + rewrite <- (set_rt_same (lo_state d)). apply sound_moved; [done| |done]. rewrite Hg. apply Hs.
    + eapply versioned_weaken; [|exact Hv]. intros Hf Hres. destruct (Hf Hres) as (? & ? & ? & ? & ? & ?). unfold rules_in_force. cbn. by rewrite Ec.
    + eapply versioned_weaken; [|exact Hw]. intros (? & ? & ?). unfold limits_in_force. cbn. by rewrite Ec.
  - by apply look_rules_inv.
  - by apply reload_rules_inv.
  - by apply look_limits_inv.
  - by apply reload_limits_inv.
Qed.
Lemma loop_start_inv s bpf rt old : GLOBAL_CFG bpf <> [] -> (forall k, block_entry k bpf = None) ->
  wf_names (a_rules s) -> a_rules_version s = 1 -> a_limits_version s = 1 -> loop_inv 0 0 (Loop_start s bpf rt old).
Proof.
  intros Hg Hb Hn Er El. constructor; cbn; [done| |rewrite Er; apply versioned_start|rewrite El; apply versioned_start].
  constructor; cbn; [done|done|]. split; [done|done|done].
Qed.

(** After a tick the loop has seen the versions that there are. *)
Lemma reload_seen now d : lo_phase d = Idle ->
  lo_shared (reload now d) = lo_shared d /\ lo_phase (reload now d) = Idle /\
  lo_rules_pending (reload now d) = lo_rules_pending d /\ lo_limits_pending (reload now d) = lo_limits_pending d /\
  lo_seen_rules (reload now d) = a_rules_version (lo_shared d) /\
  lo_seen_limits (reload now d) = a_limits_version (lo_shared d).
Proof.
  intros Hp. unfold reload, look_rules, look_limits, reload_rules, reload_limits.
  destruct (Z.eqb_spec (a_rules_version (lo_shared d)) (lo_seen_rules d)); cbn; try destruct (reconcile _ _ _ _) as [[? ?] ?]; cbn;
    destruct (Z.eqb_spec (a_limits_version (lo_shared d)) (lo_seen_limits d)); cbn; by split_and!.
Qed.
Lemma want_of_complete rules c k : c ∈ rs_source_blocks rules -> parse_cidr c = Some k -> want_of rules !! c = Some k.
Proof.
  unfold want_of. intros Hin E.
  assert (forall l (m : gmap string CidrKey), c ∈ l \/ m !! c = Some k -> foldl (fun m c => match parse_cidr c with Some k => <[c := k]> m | None => m end) m l !! c = Some k) as Hl.
  { intros l. induction l as [|c' l IH]; intros m Hm; cbn [foldl]; [destruct Hm as [Hm|Hm]; [by apply not_elem_of_nil in Hm|done]|].
    apply IH. destruct (decide (c' = c)) as [->|Hne].
    - right. rewrite E. apply lookup_insert_eq.
    - destruct Hm as [Hm|Hm].
      + apply elem_of_cons in Hm as [Hm|Hm]; [congruence|by left].
      + right. case_match; [by rewrite lookup_insert_ne|done]. }
  apply Hl. by left.
Qed.
(** The kernel blocks exactly the networks that the rules in force name. *)
Lemma blocked_exactly rules st old k : sound st -> rules_in_force rules st old -> canonical k ->
  block_entry k (r_bpf st) = Some 1 <-> exists c, c ∈ rs_source_blocks rules /\ parse_cidr c = Some k.
Proof.
  intros Hs (_ & Eb & _) Hk. split.
  - intros Hbl. destruct (decide (map_Exists (fun _ k' => k' = k) (applied_blocks st))) as [(c & k' & Hc & ->)|Hno].
    + rewrite Eb in Hc. apply want_of_parse in Hc as [? ?]. by exists c.
    + rewrite (mi_clear _ _ (so_blocks _ Hs) k Hk) in Hbl; [done|]. intros c Hc. apply Hno. by exists c, k.
  - intros (c & Hin & E). apply (mi_blocked _ _ (so_blocks _ Hs) c). rewrite Eb. by apply want_of_complete.
Qed.

(** A tick that finds the version changed and room in the tries reconciles without error. *)
Lemma reload_room now d : a_rules_version (lo_shared d) <> lo_seen_rules d ->
  fits_rules (a_rules (lo_shared d)) (r_bpf (lo_state d)) -> lo_result (reload now d) = Ok tt.
Proof.
  intros Hv Hfit. unfold reload, look_rules. rewrite (proj2 (Z.eqb_neq _ _) Hv). cbn [lo_phase set_seen].
  set (d1 := set_seen _ _ RulesChanged d).
  assert (lo_result (reload_rules now d1) = Ok tt) as E.
  { unfold reload_rules, reconcile. cbn [lo_shared lo_state lo_protected d1 set_seen].
    pose proof (apply_rules_room (a_rules (lo_shared d)) now (lo_state d) Hfit) as E1.
    pose proof (apply_rules_rt (a_rules (lo_shared d)) now (lo_state d)) as Er.
    assert (forall f, PROTECTED (x_fam (r_bpf (apply_rules (a_rules (lo_shared d)) now (lo_state d)).2) f) =
      PROTECTED (x_fam (r_bpf (lo_state d)) f)) as Ep.
    { intros f. destruct (apply_rules_cases (a_rules (lo_shared d)) now (lo_state d)) as [_ Hc].
      pose proof (apply_overrides_keeps (a_rules (lo_shared d)) now (r_bpf (lo_state d)) (applied (lo_state d)) f) as (_ & _ & Eo).
      set (o := apply_overrides _ _ _ _) in *.
      pose proof (apply_blocks_keeps (a_rules (lo_shared d)) o.2.1 (applied_blocks (lo_state d)) f) as (_ & _ & Eb).
      cbv zeta in Eo, Eb. rewrite <- Eo. destruct Hc as [[-> _]|[_ [->|[v ->]]]]; done. }
    destruct (apply_rules _ _ _) as [r1 st1]. cbn [fst snd] in *. rewrite E1.
    pose proof (sync_protected_room (protected_nets (r_rt st1)) (lo_protected d) (r_bpf st1)) as Hs.
    destruct (sync_protected _ _ _) as [[r2 old] bpf]. cbn [fst] in Hs. cbn. apply Hs. intros f. rewrite Er, Ep. apply Hfit. }
  unfold look_limits. destruct (_ =? _); cbn; [exact E|]. exact E.
Qed.

(** C21: However the requests, the two halves of each edit, the loop's own steps and the
    datapath interleave: whenever no handler stands between its write and its bump, one
    tick leaves the rules that are stored in force (the configuration carries their
    protected networks and overrides, the overrides and blocks that count as applied
    are exactly theirs, the kernel blocks exactly the networks that they name and looks
    blocks up exactly when there are some), unless the reconciliation that read them
    was cut short by a full trie; it is not when the tick reads them and each of the
    kernel's bounded tries has room for as many entries as they name. The limits that
    are stored are in force likewise, without exception. The daemon starts with its
    configuration's protected networks, no override and no block, in the rules as in the
    kernel, and makes fewer edits than 64 bits count. *)
Theorem no_lost_edit config initial cap l bpf rt old n m d now :
  rs_overrides initial = [] -> rs_source_blocks initial = [] ->
  GLOBAL_CFG bpf <> [] -> (forall k, block_entry k bpf = None) ->
  reach (Loop_start (set_limits l (SharedState_new config initial cap)) bpf rt old) n m d -> lo_phase d = Idle ->
  let d' := reload now d in
  let rules := a_rules (lo_shared d) in
  lo_shared d' = lo_shared d /\ lo_phase d' = Idle /\
  (Z.of_nat n + 1 < 2 ^ 64 -> lo_rules_pending d = 0%nat -> lo_result d' = Ok tt ->
   rules_in_force rules (lo_state d') (lo_protected d') /\
   forall k, canonical k -> block_entry k (r_bpf (lo_state d')) = Some 1 <->
     exists c, c ∈ rs_source_blocks rules /\ parse_cidr c = Some k) /\
  (a_rules_version (lo_shared d) <> lo_seen_rules d -> fits_rules rules (r_bpf (lo_state d)) -> lo_result d' = Ok tt) /\
  (Z.of_nat m + 1 < 2 ^ 64 -> lo_limits_pending d = 0%nat -> limits_in_force (a_limits (lo_shared d)) (lo_state d')).
Proof.
  intros Eo Eb Hg Hb Hr Hp d' rules.
  apply reach_inv in Hr; [|by apply loop_start_inv; cbn; rewrite ?Eo, ?Eb; try split; cbn; rewrite ?Eo, ?Eb; try constructor].
  destruct (reload_seen now d Hp) as (Es & Ep & Epr & Epl & Er & El). fold d' in Es, Ep, Epr, Epl, Er, El.
  pose proof (reload_inv n m now d Hp Hr) as [_ Hs Hv Hw]. fold d' in Hs, Hv, Hw.
  rewrite Es, Epr, Er in Hv. rewrite Es, Epl, El in Hw. unfold rules_phase, limits_phase in *. rewrite Ep in Hv, Hw.
  split; [done|]. split; [done|]. split_and!.
  - intros Hn Hpr Hres. destruct (Hv Hn) as (_ & _ & _ & Hf). specialize (Hf eq_refl Hpr eq_refl Hres).
    split; [done|]. intros k Hk. by apply (blocked_exactly rules _ (lo_protected d')).
  - intros Hver Hfit. by apply reload_room.
  - intros Hm Hpl. destruct (Hw Hm) as (_ & _ & _ & Hf). by apply Hf.
Qed.
End loop.
