(* ===== verification/Network.v ===== *)
(** * Picking addresses for VMs
    ([lnvps_api_common/src/network.rs])

    [NetworkProvisioner]: the address a new VM gets, how many a range has left
    and which, EUI-64 interface identifiers and reverse-DNS names. The
    [ipnetwork] crate and the random numbers are parameters ([NetLib],
    [Rand]). *)

From Stdlib Require Import Ascii String.
From stdpp Require Import sorting list_numbers fin_sets.
From S2P Require Import Prelude NetText IpAlloc.

(** ** The ipnetwork crate *)

(** More of the crate: its parser, and what a network contains. *)
Class NetLib := {
  net_new :: IpNetLib;
  parse_net : string -> option IpNetwork;
  net_contains : IpNetwork -> IpAddr -> bool;
  net_size : IpNetwork -> Z;
  net_nth : IpNetwork -> Z -> option Z;
  net_iter : IpNetwork -> list Z
}.
Definition host_bits (n : IpNetwork) : Z := max_bits (is_v4 n) - prefix n.
(** [size] of [0.0.0.0/0] is capped, which is left out. *)
Class NetLaws `{!NetLib} := {
  net_new_laws :: IpNetLaws;
  parse_net_wf s n : parse_net s = Some n -> net_wf n;
  net_contains_spec n a : net_wf n ->
    net_contains n a = true <->
    a_v4 a = is_v4 n /\ network n <= a_bits a < network n + 2 ^ host_bits n;
  net_size_pow n : net_wf n -> 1 <= prefix n -> net_size n = 2 ^ host_bits n;
  net_nth_spec n k : net_wf n -> 0 <= k < net_size n -> net_nth n k = Some (network n + k);
  net_iter_seq n : net_wf n -> net_iter n = seqZ (network n) (2 ^ host_bits n)
}.

(** [rng.random_range(0..size)]: the values drawn, in order. *)
Class Rand := draw : Z -> nat -> Z.

(** ** Rows *)
Inductive IpRangeAllocationMode : Type := Random | Sequential | SlaacEui64.
#[export] Instance mode_eq_dec : EqDecision IpRangeAllocationMode.
Proof. solve_decision. Defined.

Record IpRange := {
  r_id : Z; cidr : string; gateway : string; enabled : bool; region_id : Z;
  allocation_mode : IpRangeAllocationMode; use_full_range : bool
}.
Record VmIpAssignment := { vm_id : Z; ip_range_id : Z; a_ip : string; a_deleted : bool }.

(** The tables this component reads. *)
Record NetDb := { ip_ranges : list IpRange; assignments : list VmIpAssignment }.
Definition list_vm_ip_assignments_in_range (db : NetDb) (range_id : Z) : list VmIpAssignment :=
  filter (fun a => ip_range_id a = range_id /\ a_deleted a = false) (assignments db).
Definition list_ip_range_in_region (db : NetDb) (region : Z) : list IpRange :=
  filter (fun r => region_id r = region /\ enabled r = true) (ip_ranges db).
Definition get_ip_range (db : NetDb) (id : Z) : option IpRange :=
  snd <$> list_find (fun r => r_id r = id) (ip_ranges db).

Inductive NetError : Type :=
| InvalidCidr | InvalidGateway | RangeFull | NoEui64ForV4 | NoIpsInRange
| NoRangeInRegion | NoIpsInRegion | NotFound | NotForIpv6 | InvalidMac
| InvalidIp | NotInRange | PolicyFailed | Panic.

Record AvailableIp := {
  av_ip : IpNetwork; av_gateway : IpNetwork; av_range_id : Z; av_region_id : Z;
  av_mode : IpRangeAllocationMode
}.
Record AvailableIps := { ip4 : option AvailableIp; ip6 : option AvailableIp }.
Inductive IpAddrKind : Type := IPv4 | IPv6.

Definition unwrap {A} (o : option A) : res NetError A := ok_or Panic o.
Definition net_addr (n : IpNetwork) (a : Z) : IpAddr := {| a_v4 := is_v4 n; a_bits := a |}.
(** [n.ip()] *)
Definition addr_of (n : IpNetwork) : IpAddr := net_addr n (ip n).

(** ** Operations *)
Section network.
Context `{!NetLib, !Rand}.

Definition parse_gateway (s : string) : res NetError IpNetwork :=
  match parse_net s with
  | Some n => Ok n
  | None =>
      match parse_ip s with
      | Some a =>
          ok_or InvalidGateway
            (IpNetwork_new (a_v4 a) (a_bits a) (if a_v4 a then 32 else 128))
      | None => Err InvalidGateway
      end
  end.

(** The addresses of rows, those whose text parses. *)
Definition parsed_ips (rows : list VmIpAssignment) : gset IpAddr :=
  list_to_set (omap (fun r => parse_ip (a_ip r)) rows).

(** The set [ips] of [pick_ip_from_range]: assigned, and marked as used. *)
Definition used_ips (rows : list VmIpAssignment) (range : IpRange) (net gw : IpNetwork)
  : res NetError (gset IpAddr) :=
  let ips := parsed_ips rows in
  ips ← (if negb (use_full_range range) && is_v4 net then
    first ← unwrap (head (net_iter net));
    lst ← unwrap (last (net_iter net));
    mret ({[net_addr net lst]} ∪ ({[net_addr net first]} ∪ ips))
  else mret ips);
  mret (if net_contains net (addr_of gw) then {[addr_of gw]} ∪ ips else ips).

(** The [loop] of [IpRangeAllocationMode::Random], from the [i]-th draw; [None]
    when it has not ended. *)
Fixpoint random_loop (fuel i : nat) (net : IpNetwork) (max_net : Z) (ips : gset IpAddr)
  : option (res NetError (option IpNetwork)) :=
  match fuel with
  | O => None
  | S fuel =>
      match net_nth net (draw (net_size net) i) with
      | Some a =>
          if decide (net_addr net a ∈ ips) then random_loop fuel (S i) net max_net ips
          else Some (Ok (IpNetwork_new (is_v4 net) a max_net))
      | None => Some (Err Panic)
      end
  end.

Definition sequential_pick (net : IpNetwork) (max_net : Z) (ips : gset IpAddr) : option IpNetwork :=
  '(_, a) ← list_find (fun a => net_addr net a ∉ ips) (net_iter net);
  IpNetwork_new (is_v4 net) a max_net.

(** [ip_pick.context(..)?], and the answer. *)
Definition found (range : IpRange) (gw : IpNetwork) (pick : res NetError (option IpNetwork))
  : res NetError AvailableIp :=
  p ← pick;
  i ← ok_or NoIpsInRange p;
  mret {| av_ip := i; av_gateway := gw; av_range_id := r_id range;
          av_region_id := region_id range; av_mode := allocation_mode range |}.

(** [None]: the call has not returned. *)
Definition pick_ip_from_range (fuel : nat) (db : NetDb) (range : IpRange)
  : option (res NetError AvailableIp) :=
  match parse_net (cidr range) with
  | None => Some (Err InvalidCidr)
  | Some net =>
      match parse_gateway (gateway range) with
      | Err e => Some (Err e)
      | Ok gw =>
          let max_net := Z.min (prefix net) (prefix gw) in
          match used_ips (list_vm_ip_assignments_in_range db (r_id range)) range net gw with
          | Err e => Some (Err e)
          | Ok ips =>
              if is_v4 net && (net_size net <=? wrap 32 (Z.of_nat (size ips))) then Some (Err RangeFull) else
              let pick :=
                match allocation_mode range with
                | Sequential => Some (Ok (sequential_pick net max_net ips))
                | Random => random_loop fuel 0 net max_net ips
                | SlaacEui64 => Some (if is_v4 net then Err NoEui64ForV4 else Ok (Some net))
                end in
              found range gw <$> pick
          end
      end
  end.

Definition pick_ip_from_range_id (fuel : nat) (db : NetDb) (range_id : Z)
  : option (res NetError AvailableIp) :=
  match get_ip_range db range_id with
  | Some range => pick_ip_from_range fuel db range
  | None => Some (Err NotFound)
  end.

(** The [match] of the [retain] that filters by kind. *)
Definition kind_keeps (net : option IpNetwork) (kind : option IpAddrKind) : bool :=
  match net, kind with
  | Some n, k =>
      match is_v4 n, k with
      | true, Some IPv4 => true
      | false, Some IPv6 => true
      | _, _ => true
      end
  | None, _ => false
  end.

(** [Ok(i) => Some(i), Err(_) => None] of a pick. *)
Definition picked (r : res NetError AvailableIp) : option AvailableIp :=
  match r with Ok i => Some i | Err _ => None end.

(** The [for range in ip_ranges]; both fields are tried for every range. *)
Fixpoint pick_loop (fuel : nat) (db : NetDb) (ranges : list IpRange) (ret : AvailableIps)
  : option (res NetError AvailableIps) :=
  match ranges with
  | [] => Some (Ok ret)
  | range :: ranges =>
      match parse_net (cidr range) with
      | None => Some (Err InvalidCidr)
      | Some net =>
          ret ← (if bool_decide (ip4 ret = None) && is_v4 net then
                   r ← pick_ip_from_range fuel db range;
                   Some {| ip4 := picked r; ip6 := ip6 ret |}
                 else Some ret);
          ret ← (if bool_decide (ip6 ret = None) && negb (is_v4 net) then
                   r ← pick_ip_from_range fuel db range;
                   Some {| ip4 := ip4 ret; ip6 := picked r |}
                 else Some ret);
          pick_loop fuel db ranges ret
      end
  end.

(** [shuffle]: the order the ranges are tried in. *)
Definition pick_ip_kind_for_region (shuffle : list IpRange -> list IpRange) (fuel : nat)
    (db : NetDb) (region : Z) (kind : option IpAddrKind) : option (res NetError AvailableIps) :=
  let ranges := list_ip_range_in_region db region in
  if bool_decide (ranges = []) then Some (Err NoRangeInRegion) else
  let ranges := filter (fun r => kind_keeps (parse_net (cidr r)) kind = true) ranges in
  match pick_loop fuel db (shuffle ranges) {| ip4 := None; ip6 := None |} with
  | None => None
  | Some (Err e) => Some (Err e)
  | Some (Ok ret) =>
      Some (if bool_decide (ip4 ret = None) && bool_decide (ip6 ret = None) then Err NoIpsInRegion
            else Ok ret)
  end.
Definition pick_ip_for_region shuffle fuel db region :=
  pick_ip_kind_for_region shuffle fuel db region None.

(** *** Assigning to a VM
    ([lnvps_api/src/worker.rs]: [assign_vm_ip]; [provisioner/vm_network.rs]) *)

(** [str::trim], on the blanks the database may hold. *)
Definition is_space (c : ascii) : bool :=
  let n := Z.of_N (N_of_ascii c) in (n =? 32) || ((9 <=? n) && (n <=? 13)).
Fixpoint trim_start (s : list ascii) : list ascii :=
  match s with c :: s' => if is_space c then trim_start s' else s | [] => [] end.
Definition trim (s : string) : string :=
  String.string_of_list_ascii
    (rev (trim_start (rev (trim_start (String.list_ascii_of_string s))))).

Definition validate_ip_assignment (assignment : VmIpAssignment) (range : IpRange)
  : res NetError unit :=
  provided_ip ← ok_or InvalidIp (parse_ip (trim (a_ip assignment)));
  net ← ok_or InvalidCidr (parse_net (cidr range));
  ensure (net_contains net provided_ip) NotInRange.

Definition insert_vm_ip_assignment (a : VmIpAssignment) (db : NetDb) : NetDb :=
  {| ip_ranges := ip_ranges db; assignments := assignments db ++ [a] |}.

(** [save_ip_assignment] of a new row; [policy] is the answer of the router and
    the DNS servers ([update_ip_assignment_policy]). *)
Definition save_ip_assignment (policy : VmIpAssignment -> bool) (assignment : VmIpAssignment)
    (db : NetDb) : res NetError NetDb :=
  range ← ok_or NotFound (get_ip_range db (ip_range_id assignment));
  _ ← validate_ip_assignment assignment range;
  _ ← ensure (policy assignment) PolicyFailed;
  mret (insert_vm_ip_assignment assignment db).

(** [assign_vm_ip] up to the row it saves, for a VM that is not deleted. *)
Definition assign_vm_ip (policy : VmIpAssignment -> bool) (fuel : nat) (vm range_id : Z)
    (given : option string) (db : NetDb) : option (res NetError (VmIpAssignment * NetDb)) :=
  (fun r =>
    assigned_ip ← r;
    let assignment :=
      {| vm_id := vm; ip_range_id := range_id; a_ip := assigned_ip; a_deleted := false |} in
    db ← save_ip_assignment policy assignment db;
    mret (assignment, db)) <$>
  match given with
  | Some s => Some (Ok (trim s))
  | None =>
      (fun r => a ← r; mret (show_ip (addr_of (av_ip a)))) <$> pick_ip_from_range_id fuel db range_id
  end.

(** *** How many are left, and which *)

Definition count_available_ips (range : IpRange) (assignment_count : Z) : option Z :=
  match parse_net (cidr range) with
  | None => None
  | Some net =>
      if is_v4 net then
        let total := net_size net in
        let reserved :=
          (match parse_gateway (gateway range) with
           | Ok gw => if net_contains net (addr_of gw) then 1 else 0
           | Err _ => 0
           end) + (if use_full_range range then 0 else 2) in
        Some (sat_sub (sat_sub total reserved) assignment_count)
      else None
  end.

Definition compute_free_ips (db : NetDb) (range : IpRange) : res NetError (list IpAddr) :=
  net ← ok_or InvalidCidr (parse_net (cidr range));
  _ ← ensure (is_v4 net) NotForIpv6;
  gw ← parse_gateway (gateway range);
  let assigned_ips := parsed_ips (list_vm_ip_assignments_in_range db (r_id range)) in
  let reserved_ips : gset IpAddr := {[addr_of gw]} in
  let insert_opt (o : option Z) (s : gset IpAddr) :=
    match o with Some a => {[net_addr net a]} ∪ s | None => s end in
  let reserved_ips :=
    if use_full_range range then reserved_ips
    else insert_opt (last (net_iter net)) (insert_opt (head (net_iter net)) reserved_ips) in
  mret (filter (fun a => (a ∉ assigned_ips) /\ (a ∉ reserved_ips)) (net_addr net <$> net_iter net)).

Definition list_free_ips_in_range (db : NetDb) (range_id : Z) : res NetError (list IpAddr) :=
  range ← ok_or NotFound (get_ip_range db range_id);
  compute_free_ips db range.
End network.

(** ** Interface identifiers *)

(** [Ipv6Addr::octets] and [Ipv6Addr::from]. *)
Definition octets16 (a : Z) : list Z :=
  (fun i => a / 2 ^ (8 * i) mod 256) <$> [15; 14; 13; 12; 11; 10; 9; 8; 7; 6; 5; 4; 3; 2; 1; 0].
Definition from_octets (l : list Z) : Z := foldl (fun acc b => acc * 256 + b) 0 l.

(** [mac[i]] of a 6-byte array. *)
Definition byte_at (mac : list Z) (i : nat) : Z := nth i mac 0.

Definition eui64 (mac : list Z) : list Z :=
  [Z.lxor (byte_at mac 0) 2; byte_at mac 1; byte_at mac 2; 255; 254;
   byte_at mac 3; byte_at mac 4; byte_at mac 5].

Definition calculate_eui64 `{!NetLib} (mac : list Z) (prefix : IpNetwork) : res NetError IpAddr :=
  if is_v4 prefix then Err NoEui64ForV4
  else Ok {| a_v4 := false; a_bits := from_octets (take 8 (octets16 (network prefix)) ++ eui64 mac) |}.

(** The [hex] crate. *)
Class HexLib := hex_decode : string -> option (list Z).

(** [mac.replace(":", "")] *)
Definition strip_colons (s : string) : string :=
  String.string_of_list_ascii
    (filter (fun c => c <> ":"%char) (String.list_ascii_of_string s)).
(** Six bytes or an error. *)
Definition parse_mac `{!HexLib} (mac : string) : option (list Z) :=
  b ← hex_decode (strip_colons mac);
  if Nat.eqb (length b) 6 then Some b else None.

(** [VmProvisioner::v6_to_allocation] ([lnvps_api/src/provisioner/vm.rs]): under
    SLAAC the address is known once the MAC is. *)
Definition v6_to_allocation `{!NetLib, !HexLib} (v6 : AvailableIp) (vm : Z) (mac_address : string)
  : res NetError (AvailableIp * VmIpAssignment) :=
  v6 ← (if bool_decide (av_mode v6 = SlaacEui64) then
    mac ← ok_or InvalidMac (parse_mac mac_address);
    addr ← calculate_eui64 mac (av_ip v6);
    n ← ok_or InvalidCidr (IpNetwork_new (a_v4 addr) (a_bits addr) (prefix (av_ip v6)));
    mret {| av_ip := n; av_gateway := av_gateway v6; av_range_id := av_range_id v6;
            av_region_id := av_region_id v6; av_mode := av_mode v6 |}
  else mret v6);
  mret (v6, {| vm_id := vm; ip_range_id := av_range_id v6; a_ip := show_ip (addr_of (av_ip v6));
               a_deleted := false |}).

(** ** Reverse DNS names *)
Definition low_nibble (b : Z) : Z := Z.land b 15.
Definition high_nibble (b : Z) : Z := Z.land (Z.shiftr b 4) 15.
Definition nibbles (a : Z) : list Z :=
  mbind (fun b => [low_nibble b; high_nibble b]) (rev (octets16 a)).

(** [nibbles.join(".")] *)
Fixpoint join_dots (l : list (list ascii)) : list ascii :=
  match l with
  | [] => []
  | [x] => x
  | x :: l => x ++ "."%char :: join_dots l
  end.
Definition ipv6_to_ptr (a : Z) : string :=
  String.string_of_list_ascii
    (join_dots (show_hex <$> nibbles a) ++ String.list_ascii_of_string ".ip6.arpa").

(** ** What is used, what is free *)
Lemma size_insert_le (x : IpAddr) (s : gset IpAddr) :
  Z.of_nat (size ({[x]} ∪ s)) <= 1 + Z.of_nat (size s).
Proof.
  pose proof (size_union_alt {[x]} s). pose proof (size_singleton (C:=gset IpAddr) x).
  assert (size (s ∖ {[x]}) <= size s)%nat by (apply subseteq_size; set_solver). lia.
Qed.

Lemma size_insert_bound (x : IpAddr) (s : gset IpAddr) k :
  Z.of_nat (size s) <= k -> Z.of_nat (size ({[x]} ∪ s)) <= 1 + k.
Proof. pose proof (size_insert_le x s). lia. Qed.

Section facts.
Context `{NL : !NetLib, LAWS : !NetLaws}.
Implicit Types (net gw : IpNetwork) (range : IpRange) (rows : list VmIpAssignment).

(** An address of a network. *)
Definition in_net net (a : IpAddr) : Prop :=
  a_v4 a = is_v4 net /\ network net <= a_bits a < network net + 2 ^ host_bits net.

(** The ends of an IPv4 range, kept back unless the full range is used. *)
Definition boundary range net (a : IpAddr) : Prop :=
  use_full_range range = false /\ is_v4 net = true /\
  (a = net_addr net (network net) \/ a = net_addr net (network net + 2 ^ host_bits net - 1)).
(** Assigned, reserved, or the gateway. *)
Definition taken rows range net gw (a : IpAddr) : Prop :=
  a ∈ parsed_ips rows \/ boundary range net a \/ (in_net net a /\ a = addr_of gw).

(** The addresses kept back from a range. *)
Definition reserved_count range net gw : Z :=
  (if net_contains net (addr_of gw) then 1 else 0) + (if use_full_range range then 0 else 2).

Lemma host_pos net : net_wf net -> 0 < 2 ^ host_bits net.
Proof. intros [_ Hp]. apply Z.pow_pos_nonneg; unfold host_bits; lia. Qed.

Lemma iter_ends net : net_wf net ->
  head (net_iter net) = Some (network net) /\
  last (net_iter net) = Some (network net + 2 ^ host_bits net - 1).
Proof.
  intros Hn. pose proof (host_pos net Hn) as Hp. rewrite net_iter_seq by done. split.
  - rewrite seqZ_cons by done. done.
  - replace (2 ^ host_bits net) with (Z.of_nat (S (Z.to_nat (2 ^ host_bits net - 1)))) at 1 by lia.
    rewrite seqZ_S, last_snoc. f_equal. lia.
Qed.

Lemma in_net_spec net a : net_wf net -> net_contains net a = true <-> in_net net a.
Proof. apply net_contains_spec. Qed.

Lemma iter_in net a : net_wf net -> a ∈ net_iter net <-> in_net net (net_addr net a).
Proof. intros Hn. rewrite net_iter_seq by done. rewrite elem_of_seqZ. unfold in_net. cbn. tauto. Qed.

Lemma used_ips_spec rows range net gw : net_wf net ->
  exists ips, used_ips rows range net gw = Ok ips /\
    (forall a, a ∈ ips <-> taken rows range net gw a) /\
    Z.of_nat (size ips) <= Z.of_nat (length rows) + reserved_count range net gw.
Proof.
  intros Hn. destruct (iter_ends net Hn) as [Eh El]. unfold used_ips, taken, boundary, reserved_count.
  rewrite Eh, El. cbn [unwrap ok_or].
  assert (Z.of_nat (size (parsed_ips rows)) <= Z.of_nat (length rows)) as Hsz.
  { unfold parsed_ips. clear. induction rows as [|r rows IH]; [done|]. cbn.
    destruct (parse_ip _); cbn; [|lia]. pose proof (size_insert_le i (list_to_set (omap (fun r => parse_ip (a_ip r)) rows))). lia. }
  pose proof (in_net_spec net (addr_of gw) Hn) as Hgw.
  destruct (use_full_range range), (is_v4 net) eqn:Ev, (net_contains net (addr_of gw)) eqn:Ec; cbn;
    (eexists; split; [reflexivity|split;
      [intros a; rewrite ?elem_of_union, ?elem_of_singleton; naive_solver
      |eapply Z.le_trans; [repeat (apply Hsz || eapply size_insert_bound)|lia]]]).
Qed.

(** Fewer used addresses than the range has: one is free. *)
Lemma pigeonhole net (ips : gset IpAddr) : net_wf net ->
  Z.of_nat (size ips) < 2 ^ host_bits net ->
  exists a, a ∈ net_iter net /\ (net_addr net a ∉ ips).
Proof.
  intros Hn Hs. destruct (decide (Exists (fun a => net_addr net a ∉ ips) (net_iter net))) as [He|He].
  { by apply Exists_exists in He. }
  exfalso. apply not_Exists_Forall in He; [|apply _].
  assert (list_to_set (net_addr net <$> net_iter net) ⊆ ips) as Hsub.
  { intros x (a & -> & Ha)%elem_of_list_to_set%list_elem_of_fmap. rewrite Forall_forall in He.
    specialize (He a Ha). cbn in He. by destruct (decide (net_addr net a ∈ ips)). }
  apply subseteq_size in Hsub. rewrite size_list_to_set in Hsub.
  - rewrite length_fmap, net_iter_seq, length_seqZ in Hsub by done. lia.
  - apply NoDup_fmap_2; [|rewrite net_iter_seq by done; apply NoDup_seqZ]. by intros x y [= ->].
Qed.
End facts.

(** ** Picking from a range *)
Section picking.
Context `{NL : !NetLib, LAWS : !NetLaws}.
Implicit Types (net gw : IpNetwork) (range : IpRange) (db : NetDb).

Notation rows db range := (list_vm_ip_assignments_in_range db (r_id range)).

Lemma gateway_prefix s gw : parse_gateway s = Ok gw -> 0 <= prefix gw.
Proof.
  unfold parse_gateway. destruct (parse_net s) as [n|] eqn:En.
  { intros [= <-]. by apply parse_net_wf in En as [_ [? _]]. }
  destruct (parse_ip s) as [[[] b]|]; [| |done]; cbn; rewrite new_accepts by (cbn; lia);
    cbn; intros [= <-]; cbn; lia.
Qed.

(** The range and its gateway parse. *)
Definition Ready range net gw : Prop :=
  parse_net (cidr range) = Some net /\ parse_gateway (gateway range) = Ok gw.

Lemma pick_ready `{!Rand} fuel db range net gw : Ready range net gw ->
  exists ips, (forall a, a ∈ ips <-> taken (rows db range) range net gw a) /\
    Z.of_nat (size ips) <= Z.of_nat (length (rows db range)) + reserved_count range net gw /\
    pick_ip_from_range fuel db range =
      if is_v4 net && (net_size net <=? wrap 32 (Z.of_nat (size ips))) then Some (Err RangeFull)
      else found range gw <$>
        match allocation_mode range with
        | Sequential => Some (Ok (sequential_pick net (Z.min (prefix net) (prefix gw)) ips))
        | Random => random_loop fuel 0 net (Z.min (prefix net) (prefix gw)) ips
        | SlaacEui64 => Some (if is_v4 net then Err NoEui64ForV4 else Ok (Some net))
        end.
Proof.
  intros [En Eg]. destruct (used_ips_spec (rows db range) range net gw) as (ips & Eu & Hin & Hsz).
  { by eapply parse_net_wf. }
  exists ips. split; [done|]. split; [done|]. unfold pick_ip_from_range. by rewrite En, Eg, Eu.
Qed.

(** The network made for a picked address. *)
Lemma new_picked net gw a : net_wf net -> 0 <= prefix gw ->
  let p := Z.min (prefix net) (prefix gw) in
  IpNetwork_new (is_v4 net) a p = Some {| is_v4 := is_v4 net; ip := a; prefix := p |}.
Proof. intros [_ Hp] Hg. apply new_accepts. lia. Qed.

Lemma found_ok range gw p a : found range gw p = Ok a ->
  exists i, p = Ok (Some i) /\
    a = {| av_ip := i; av_gateway := gw; av_range_id := r_id range;
           av_region_id := region_id range; av_mode := allocation_mode range |}.
Proof. unfold found. destruct p as [[i|]|e]; cbn; intros E; inversion E; eauto. Qed.

(** What the loop ends with: the first draw that is free. *)
Lemma random_loop_spec `{!Rand} fuel i net max_net ips r :
  random_loop fuel i net max_net ips = Some r ->
  r = Err Panic \/ exists k a, (i <= k)%nat /\ net_nth net (draw (net_size net) k) = Some a /\
    (net_addr net a ∉ ips) /\ r = Ok (IpNetwork_new (is_v4 net) a max_net).
Proof.
  revert i. induction fuel as [|fuel IH]; intros i; cbn [random_loop]; [done|].
  destruct (net_nth net _) as [a|] eqn:Ea; [|intros [= <-]; by left].
  case_decide as Hin.
  - intros [->|(k & b & Hk & E)]%IH; [by left|right]. exists k, b. split; [lia|done].
  - intros [= <-]. right. exists i, a. done.
Qed.

Lemma sequential_pick_spec net max_net ips r : sequential_pick net max_net ips = r ->
  (r = None /\ forall a, a ∈ net_iter net -> net_addr net a ∈ ips) \/
  exists k a, net_iter net !! k = Some a /\ (net_addr net a ∉ ips) /\
    (forall j b, (j < k)%nat -> net_iter net !! j = Some b -> net_addr net b ∈ ips) /\
    r = IpNetwork_new (is_v4 net) a max_net.
Proof.
  intros <-. unfold sequential_pick.
  destruct (list_find _ (net_iter net)) as [[k a]|] eqn:Ef; cbn.
  - apply list_find_Some in Ef as (Hk & Ha & Hlt). right. exists k, a. split_and!; try done.
    intros j b Hj Hb. specialize (Hlt j b Hb Hj). cbn in Hlt. by destruct (decide (net_addr net b ∈ ips)).
  - apply list_find_None in Ef. left. split; [done|]. intros a Ha.
    rewrite Forall_forall in Ef. specialize (Ef a Ha). cbn in Ef.
    by destruct (decide (net_addr net a ∈ ips)).
Qed.

(** The draws of a range: in bounds. *)
Definition draws_fit `{!Rand} : Prop := forall n i, 0 < n -> 0 <= draw n i < n.
(** Every value is drawn some time. *)
Definition draws_fair `{!Rand} : Prop := forall n k, 0 <= k < n -> exists i, draw n i = k.

Lemma net_size_pos net : net_wf net -> 1 <= prefix net -> 0 < net_size net.
Proof. intros Hn Hp. rewrite net_size_pow by done. by apply host_pos. Qed.

Lemma nth_drawn `{!Rand} net i : draws_fit -> net_wf net -> 1 <= prefix net ->
  net_nth net (draw (net_size net) i) = Some (network net + draw (net_size net) i) /\
  in_net net (net_addr net (network net + draw (net_size net) i)).
Proof.
  intros Hd Hn Hp. pose proof (net_size_pos net Hn Hp) as Hs. pose proof (Hd _ i Hs) as Hi.
  split; [by apply net_nth_spec|]. split; [done|]. cbn. rewrite <- net_size_pow by done. lia.
Qed.

(** A pick that answers has parsed the range and its gateway. *)
Lemma pick_ok_ready `{!Rand} fuel db range a : pick_ip_from_range fuel db range = Some (Ok a) ->
  exists net gw, Ready range net gw.
Proof.
  unfold pick_ip_from_range, Ready. destruct (parse_net (cidr range)) as [net|]; [|done].
  destruct (parse_gateway (gateway range)) as [gw|]; [|done]. eauto.
Qed.

(** What a picked address is. *)
Record Picked db range (a : AvailableIp) net gw : Prop := {
  pk_ready : Ready range net gw;
  pk_net : in_net net (addr_of (av_ip a));
  pk_free : ~ taken (rows db range) range net gw (addr_of (av_ip a));
  pk_prefix : prefix (av_ip a) = Z.min (prefix net) (prefix gw);
  pk_rest : av_gateway a = gw /\ av_range_id a = r_id range /\ av_region_id a = region_id range /\
    av_mode a = allocation_mode range
}.

Lemma pick_spec `{!Rand} fuel db range a : draws_fit ->
  (forall net, parse_net (cidr range) = Some net -> 1 <= prefix net) ->
  allocation_mode range <> SlaacEui64 ->
  pick_ip_from_range fuel db range = Some (Ok a) -> exists net gw, Picked db range a net gw.
Proof.
  intros Hd Hp Hmode Hpick. destruct (pick_ok_ready _ _ _ _ Hpick) as (net & gw & Hr).
  exists net, gw. destruct (pick_ready fuel db range net gw Hr) as (ips & Hin & _ & E).
  rewrite E in Hpick. clear E. destruct Hr as [En Eg]. pose proof (parse_net_wf _ _ En) as Hn.
  pose proof (gateway_prefix _ _ Eg) as Hg. destruct (_ && _) eqn:Efull in Hpick; [done|].
  assert (forall x m, (net_addr net x ∉ ips) -> x ∈ net_iter net -> m = Z.min (prefix net) (prefix gw) ->
    found range gw (Ok (IpNetwork_new (is_v4 net) x m)) = Ok a -> Picked db range a net gw) as Hfin.
  { intros x m Hx Hit -> Hf. rewrite new_picked in Hf by done.
    apply found_ok in Hf as (i & [= <-] & ->). split; cbn; try done.
    - by apply (iter_in net x Hn).
    - by rewrite <- Hin. }
  destruct (allocation_mode range) eqn:Em; [| |done].
  - destruct (random_loop _ _ _ _ _) as [r|] eqn:Er; [|done]. cbn in Hpick. injection Hpick as Hf.
    apply random_loop_spec in Er as [->|(k & x & _ & Hk & Hx & ->)]; [done|].
    destruct (nth_drawn net k Hd Hn (Hp _ En)) as [Hk' Hi]. rewrite Hk' in Hk. injection Hk as <-.
    eapply Hfin; [exact Hx|by apply iter_in|done|exact Hf].
  - cbn in Hpick. injection Hpick as Hf.
    destruct (sequential_pick_spec net (Z.min (prefix net) (prefix gw)) ips _ eq_refl)
      as [[E _]|(k & x & Hk & Hx & _ & E)]; rewrite E in Hf; [done|].
    eapply Hfin; [exact Hx|by eapply list_elem_of_lookup_2|done|exact Hf].
Qed.

(** The loop, once it has ended, has ended for more fuel. *)
Lemma random_loop_mono `{!Rand} f f' i net m ips r : (f <= f')%nat ->
  random_loop f i net m ips = Some r -> random_loop f' i net m ips = Some r.
Proof.
  revert f' i. induction f as [|f IH]; intros f' i Hf; [done|].
  destruct f' as [|f']; [lia|]. cbn [random_loop]. destruct (net_nth _ _); [|done].
  case_decide; [|done]. apply IH. lia.
Qed.

(** It ends by the draw of a free address. *)
Lemma random_loop_ends `{!Rand} net m ips k i : draws_fit -> net_wf net -> 1 <= prefix net ->
  (i <= k)%nat -> (net_addr net (network net + draw (net_size net) k) ∉ ips) ->
  exists x, random_loop (S (k - i)) i net m ips = Some (Ok (IpNetwork_new (is_v4 net) x m)).
Proof.
  intros Hd Hn Hp Hik Hfree. remember (k - i)%nat as d eqn:Ed. revert i Hik Ed.
  induction d as [|d IH]; intros i Hik Ed; cbn [random_loop];
    rewrite (proj1 (nth_drawn net i Hd Hn Hp)); case_decide as Hin; [|by eauto| |by eauto].
  - assert (i = k) as -> by lia. done.
  - apply (IH (S i)); lia.
Qed.
End picking.

(** ** Theorems about picking *)
Section theorems.
Context `{NL : !NetLib, LAWS : !NetLaws}.
Implicit Types (net gw : IpNetwork) (range : IpRange) (db : NetDb).

Notation rows db range := (list_vm_ip_assignments_in_range db (r_id range)).

(** A picked address is in the range and free: no row of the range holds
    it, it is not the gateway and, unless the full range is used, not the first
    or last address of an IPv4 range; its prefix length is the shorter of the
    range's and the gateway's. *)
Theorem picked_is_free `{!Rand} fuel db range a (Hd : draws_fit)
    (Hp : forall net, parse_net (cidr range) = Some net -> 1 <= prefix net)
    (Hmode : allocation_mode range <> SlaacEui64)
    (Hpick : pick_ip_from_range fuel db range = Some (Ok a)) :
  exists net gw, parse_net (cidr range) = Some net /\ parse_gateway (gateway range) = Ok gw /\
    in_net net (addr_of (av_ip a)) /\
    (forall r, r ∈ rows db range -> parse_ip (a_ip r) <> Some (addr_of (av_ip a))) /\
    (in_net net (addr_of gw) -> addr_of (av_ip a) <> addr_of gw) /\
    (use_full_range range = false -> is_v4 net = true ->
      ip (av_ip a) <> network net /\ ip (av_ip a) <> network net + 2 ^ host_bits net - 1) /\
    prefix (av_ip a) = Z.min (prefix net) (prefix gw) /\
    av_gateway a = gw /\ av_range_id a = r_id range /\ av_mode a = allocation_mode range.
Proof.
  destruct (pick_spec fuel db range a Hd Hp Hmode Hpick) as (net & gw & [[En Eg] Hin Hfree Epre (E1 & E2 & _ & E4)]).
  exists net, gw. split_and!; try done.
  - intros r Hr Ea. apply Hfree. left. apply elem_of_list_to_set, list_elem_of_omap. eauto.
  - intros Hgw E. apply Hfree. right. right. done.
  - intros Hu Hv4. destruct Hin as [Hv _]. unfold addr_of, net_addr in *. cbn in Hv.
    split; intros E; apply Hfree; right; left; (split_and!; [done|done|]); rewrite Hv, E; auto.
Qed.

(** A sequential pick answers at once with the lowest free address of the
    range; it fails only when an IPv4 range has no more addresses than rows and
    reserved ones, or when every address is taken. *)
Theorem sequential_lowest `{!Rand} fuel db range net gw (Hr : Ready range net gw)
    (Hmode : allocation_mode range = Sequential)
    (Hsz : Z.of_nat (length (rows db range)) + 3 < 2 ^ 32) :
  match pick_ip_from_range fuel db range with
  | Some (Ok a) =>
      in_net net (addr_of (av_ip a)) /\ ~ taken (rows db range) range net gw (addr_of (av_ip a)) /\
      forall b, in_net net b -> a_bits b < ip (av_ip a) -> taken (rows db range) range net gw b
  | Some (Err RangeFull) =>
      is_v4 net = true /\
      net_size net <= Z.of_nat (length (rows db range)) + reserved_count range net gw
  | Some (Err NoIpsInRange) => forall b, in_net net b -> taken (rows db range) range net gw b
  | _ => False
  end.
Proof.
  destruct (pick_ready fuel db range net gw Hr) as (ips & Hin & Hcount & ->). rewrite Hmode.
  destruct Hr as [En Eg]. pose proof (parse_net_wf _ _ En) as Hn. pose proof (gateway_prefix _ _ Eg) as Hg.
  assert (0 <= reserved_count range net gw <= 3) as Hrc.
  { unfold reserved_count. destruct (net_contains _ _), (use_full_range _); lia. }
  rewrite wrap_small by (unfold fits; lia).
  destruct (is_v4 net && _) eqn:Efull; [zbool; split; [done|lia]|]. cbn [fmap option_fmap option_map].
  destruct (sequential_pick_spec net (Z.min (prefix net) (prefix gw)) ips _ eq_refl)
    as [[-> Hall]|(k & x & Hk & Hx & Hlow & ->)]; cbn.
  - intros b Hb. apply Hin. assert (b = net_addr net (a_bits b)) as Eb.
    { destruct b, Hb as [E _]. unfold net_addr. cbn in *. by rewrite E. }
    rewrite Eb in Hb |- *. apply Hall. by apply iter_in.
  - rewrite new_picked by done. cbn. split_and!.
    + apply (iter_in net x Hn). by eapply list_elem_of_lookup_2.
    + by rewrite <- Hin.
    + intros [v b] [Ev Hb] Hlt. cbn in *. subst v. apply Hin. rewrite net_iter_seq in Hk, Hlow by done.
      apply lookup_seqZ in Hk as [-> Hk2]. apply (Hlow (Z.to_nat (b - network net))); [lia|].
      apply lookup_seqZ. lia.
Qed.

(** A positive count: a pick returns an address. *)
Lemma count_pickable `{!Rand} db range gw n c : draws_fit -> draws_fair ->
  (forall net, parse_net (cidr range) = Some net -> 1 <= prefix net) ->
  parse_gateway (gateway range) = Ok gw -> allocation_mode range <> SlaacEui64 ->
  Z.of_nat (length (rows db range)) <= n -> n + 3 < 2 ^ 32 ->
  count_available_ips range n = Some c -> 1 <= c ->
  exists fuel a, forall fuel', (fuel <= fuel')%nat -> pick_ip_from_range fuel' db range = Some (Ok a).
Proof.
  intros Hd Hfair Hp Hgw Hmode Hn Hsz Hc Hpos.
  unfold count_available_ips in Hc. destruct (parse_net (cidr range)) as [net|] eqn:En; [|done].
  destruct (is_v4 net) eqn:Ev; [|done]. rewrite Hgw in Hc. injection Hc as Ec.
  pose proof (parse_net_wf _ _ En) as Hwf. pose proof (Hp _ eq_refl) as Hp1.
  pose proof (gateway_prefix _ _ Hgw) as Hg.
  change ((if net_contains net (addr_of gw) then 1 else 0) + (if use_full_range range then 0 else 2))
    with (reserved_count range net gw) in Ec.
  assert (0 <= reserved_count range net gw <= 3) as Hrc.
  { unfold reserved_count. destruct (net_contains _ _), (use_full_range _); lia. }
  unfold sat_sub in Ec.
  assert (Hroom : Z.of_nat (length (rows db range)) + reserved_count range net gw < net_size net) by lia.
  assert (exists ips, (Z.of_nat (size ips) < net_size net) /\ forall fuel,
    pick_ip_from_range fuel db range = found range gw <$>
      match allocation_mode range with
      | Sequential => Some (Ok (sequential_pick net (Z.min (prefix net) (prefix gw)) ips))
      | Random => random_loop fuel 0 net (Z.min (prefix net) (prefix gw)) ips
      | SlaacEui64 => Some (Ok (Some net))
      end) as (ips & Hlt & Hpick).
  { destruct (used_ips_spec (rows db range) range net gw Hwf) as (ips & Eu & _ & Hcount).
    exists ips. split; [lia|]. intros fuel. unfold pick_ip_from_range. rewrite En, Hgw, Eu, Ev.
    rewrite wrap_small by (unfold fits; lia). rewrite (proj2 (Z.leb_gt _ _)) by lia.
    by destruct (allocation_mode range). }
  rewrite net_size_pow in Hlt by done.
  destruct (pigeonhole net ips Hwf Hlt) as (x & Hx & Hfree).
  destruct (allocation_mode range) eqn:Em; [| |done].
  - rewrite net_iter_seq, elem_of_seqZ in Hx by done.
    destruct (Hfair (net_size net) (x - network net)) as [k Hk].
    { rewrite net_size_pow by done. lia. }
    destruct (random_loop_ends net (Z.min (prefix net) (prefix gw)) ips k 0 Hd Hwf Hp1 ltac:(lia))
      as [y Hy].
    { by replace (network net + draw (net_size net) k) with x by lia. }
    rewrite new_picked in Hy by done.
    eexists _, _. intros fuel' Hf. rewrite Hpick, (random_loop_mono _ _ _ _ _ _ _ Hf Hy). reflexivity.
  - destruct (sequential_pick_spec net (Z.min (prefix net) (prefix gw)) ips _ eq_refl)
      as [[E Hall]|(k & y & _ & _ & _ & E)].
    + exfalso. apply Hfree. by apply Hall.
    + rewrite new_picked in E by done. eexists 0%nat, _. intros fuel' _. rewrite Hpick, E. reflexivity.
Qed.

(** What the API advertises can be had: when [count_available_ips] of an
    IPv4 range is positive, for at least the rows there are, a pick in either
    order of allocation returns an address, under draws that reach every value. *)
Theorem advertised_is_pickable `{!Rand} db range gw n c (Hd : draws_fit) (Hfair : draws_fair)
    (Hp : forall net, parse_net (cidr range) = Some net -> 1 <= prefix net)
    (Hgw : parse_gateway (gateway range) = Ok gw)
    (Hmode : allocation_mode range <> SlaacEui64)
    (Hn : Z.of_nat (length (rows db range)) <= n) (Hsz : n + 3 < 2 ^ 32)
    (Hc : count_available_ips range n = Some c) (Hpos : 1 <= c) :
  exists fuel a, forall fuel', (fuel <= fuel')%nat -> pick_ip_from_range fuel' db range = Some (Ok a).
Proof. by eapply count_pickable. Qed.

(** *** The rows of a range hold distinct addresses *)
#[local] Arguments show_ip : simpl never.
#[local] Arguments parse_ip : simpl never.
#[local] Arguments trim : simpl never.

Definition distinct db (range_id : Z) : Prop :=
  NoDup (omap (fun r => parse_ip (a_ip r)) (list_vm_ip_assignments_in_range db range_id)).

Lemma insert_rows a db id : ip_range_id a = id -> a_deleted a = false ->
  list_vm_ip_assignments_in_range (insert_vm_ip_assignment a db) id =
  list_vm_ip_assignments_in_range db id ++ [a].
Proof.
  intros Hi Hd. unfold list_vm_ip_assignments_in_range. cbn. rewrite filter_app. f_equal.
  by rewrite filter_cons_True by done.
Qed.

Lemma insert_rows_other a db id : ip_range_id a <> id ->
  list_vm_ip_assignments_in_range (insert_vm_ip_assignment a db) id =
  list_vm_ip_assignments_in_range db id.
Proof.
  intros Hi. unfold list_vm_ip_assignments_in_range. cbn. rewrite filter_app.
  rewrite filter_cons_False by (by intros [? _]). apply app_nil_r.
Qed.

Lemma in_net_fits net a : net_wf net -> in_net net a -> ip_fits a.
Proof.
  intros Hn [Hv Hb]. destruct (network_bounds net Hn) as (_ & Hlo & Hhi). unfold ip_fits, fits.
  rewrite Hv. unfold host_bits in Hb. fold (max_bits (is_v4 net)). lia.
Qed.

Lemma get_ip_range_id db id range : get_ip_range db id = Some range -> r_id range = id.
Proof.
  unfold get_ip_range. destruct (list_find _ _) as [[k r]|] eqn:E; [|done]. intros [= <-].
  by apply list_find_Some in E as (_ & ? & _).
Qed.

Lemma assign_keeps_distinct `{!Rand} policy fuel vm id db a db' : draws_fit ->
  (forall range net, get_ip_range db id = Some range -> parse_net (cidr range) = Some net -> 1 <= prefix net) ->
  (forall range, get_ip_range db id = Some range -> allocation_mode range <> SlaacEui64) ->
  assign_vm_ip policy fuel vm id None db = Some (Ok (a, db')) -> distinct db id ->
  distinct db' id /\ db' = insert_vm_ip_assignment a db /\ ip_range_id a = id.
Proof.
  intros Hd Hp Hmode. unfold assign_vm_ip, pick_ip_from_range_id.
  destruct (get_ip_range db id) as [range|] eqn:Er; [|done].
  pose proof (get_ip_range_id _ _ _ Er) as Hid.
  destruct (pick_ip_from_range fuel db range) as [[av|e]|] eqn:Epick; [|done|done].
  destruct (pick_spec fuel db range av Hd (fun net => Hp range net eq_refl) (Hmode _ eq_refl) Epick)
    as (net & gw & [[En Eg] Hin Hfree _ _]).
  cbn. unfold save_ip_assignment. cbn. rewrite Er. cbn. unfold validate_ip_assignment. cbn.
  destruct (parse_ip _) as [p|]; [|done]. cbn. rewrite En. cbn. unfold ensure.
  destruct (net_contains net p); [|done]. cbn. destruct (policy _); [|done].
  cbn. intros [= <- <-] Hdis. split; [|done]. unfold distinct in *.
  rewrite insert_rows by done. rewrite omap_app. cbn. rewrite parse_show.
  2: { eapply in_net_fits; [by eapply parse_net_wf|exact Hin]. }
  apply NoDup_app. split_and!; [done| |apply NoDup_singleton].
  intros b Hb ->%list_elem_of_singleton. apply Hfree. left. unfold parsed_ips. rewrite Hid.
  by apply elem_of_list_to_set.
Qed.

(** Automatic assignments one after the other, each of a VM from a range of its
    own, with its own draws and its own answers of the router and the DNS servers.
    An assignment that fails, or that does not return and is given up, leaves the
    rows as they were; the answers are collected. *)
Record Assign := { as_vm : Z; as_range : Z; as_draws : Rand; as_policy : VmIpAssignment -> bool; as_fuel : nat }.
Definition assign_one (r : Assign) db : option (res NetError (VmIpAssignment * NetDb)) :=
  @assign_vm_ip _ (as_draws r) (as_policy r) (as_fuel r) (as_vm r) (as_range r) None db.
Fixpoint assign_run (runs : list Assign) db : list VmIpAssignment * NetDb :=
  match runs with
  | [] => ([], db)
  | r :: runs =>
      match assign_one r db with
      | Some (Ok (a, db1)) => prod_map (cons a) id (assign_run runs db1)
      | _ => assign_run runs db
      end
  end.
(** What the ranges of a database are to be for their addresses to stay distinct. *)
Definition plain_range db (id : Z) : Prop := forall range, get_ip_range db id = Some range ->
  allocation_mode range <> SlaacEui64 /\ forall net, parse_net (cidr range) = Some net -> 1 <= prefix net.
Lemma assign_one_spec r db a db1 : assign_one r db = Some (Ok (a, db1)) ->
  db1 = insert_vm_ip_assignment a db /\ ip_range_id a = as_range r /\ vm_id a = as_vm r /\ a_deleted a = false.
Proof.
  unfold assign_one, assign_vm_ip. destruct (pick_ip_from_range_id _ _ _) as [[av|]|]; cbn; [|done|done].
  unfold save_ip_assignment. destruct (ok_or _ (get_ip_range _ _)); cbn; [|done].
  destruct (validate_ip_assignment _ _); cbn; [|done]. destruct (ensure _ _); cbn; [|done]. by intros [= <- <-].
Qed.
Lemma assign_one_distinct r db a db1 id : @draws_fit (as_draws r) -> plain_range db id ->
  assign_one r db = Some (Ok (a, db1)) -> distinct db id -> distinct db1 id.
Proof.
  intros Hd Hp Ea Hdis. destruct (assign_one_spec _ _ _ _ Ea) as (-> & Hid & _ & _).
  destruct (decide (as_range r = id)) as [E|E].
  - unfold assign_one in Ea. rewrite E in Ea.
    eapply (assign_keeps_distinct _ _ _ id db); [done| | |exact Ea|done].
    + intros range net Er. by apply (Hp range Er).
    + intros range Er. by apply (Hp range Er).
  - unfold distinct. by rewrite insert_rows_other by congruence.
Qed.

(** C31: automatic assignment never gives an address of a range twice: over any
    sequence of assignments, from any ranges, whatever is drawn and whichever of
    them fail or do not return, the rows of every range that is not allocated by
    EUI-64 (and is not a whole family of addresses) keep distinct addresses if they
    were; every assignment that answers adds exactly its
    row, for its VM, and the others add none. *)
Theorem assigned_addresses_distinct runs db rows db'
    (Hfit : Forall (fun r => @draws_fit (as_draws r)) runs)
    (Hrun : assign_run runs db = (rows, db')) :
  assignments db' = assignments db ++ rows /\ ip_ranges db' = ip_ranges db /\
  (exists answered, answered `sublist_of` runs /\
     Forall2 (fun r a => vm_id a = as_vm r /\ ip_range_id a = as_range r /\ a_deleted a = false) answered rows) /\
  forall id, plain_range db id -> distinct db id -> distinct db' id.
Proof.
  revert db rows Hrun. induction Hfit as [|r runs Hd _ IH]; intros db rows; cbn [assign_run].
  { intros [= <- <-]. rewrite app_nil_r. split_and!; [done|done|by exists []|done]. }
  destruct (assign_one r db) as [[[a db1]|e]|] eqn:Ea.
  2,3: intros Hrun; destruct (IH _ _ Hrun) as (E1 & E2 & (ans & Hs & Ha) & H); split_and!;
    [done|done|exists ans; split; [by apply sublist_cons|done]|done].
  pose proof (fun id => assign_one_distinct r db a db1 id Hd) as Hkeep.
  destruct (assign_one_spec _ _ _ _ Ea) as (-> & Hid & Hvm & Hdel).
  destruct (assign_run runs _) as [rows' db2] eqn:Er. cbn. intros [= <- <-].
  destruct (IH _ _ Er) as (E1 & E2 & (ans & Hs & Ha) & H). cbn in E1, E2. split_and!.
  - by rewrite E1, <- app_assoc.
  - done.
  - exists (r :: ans). split; [by apply sublist_skip|by constructor].
  - intros id Hp Hdis. apply H; [exact Hp|]. by eapply Hkeep.
Qed.

(** On a range allocated by EUI-64 an automatic assignment picks the network's own
    address whatever rows there are: a second assignment gives the same one. *)
Theorem slaac_assignment_repeats `{!Rand} policy fuel vm id db a db' range net
    (Er : get_ip_range db id = Some range) (En : parse_net (cidr range) = Some net)
    (Hmode : allocation_mode range = SlaacEui64)
    (Hrun : assign_vm_ip policy fuel vm id None db = Some (Ok (a, db'))) :
  a_ip a = show_ip (addr_of net).
Proof.
  revert Hrun. unfold assign_vm_ip, pick_ip_from_range_id. rewrite Er. unfold pick_ip_from_range. rewrite En.
  destruct (parse_gateway _) as [gw|]; [|done]. destruct (used_ips _ _ _ _) as [ips|]; [|done].
  destruct (_ && _); [done|]. rewrite Hmode. destruct (is_v4 net); [done|]. cbn.
  destruct (save_ip_assignment _ _ _); cbn; [|done]. by intros [= <- _].
Qed.

(** The random order on an IPv6 range has no such check: once every address
    of a range is taken the loop never returns, whatever is drawn. *)
Theorem random_full_v6_never_returns `{!Rand} db range net gw (Hd : draws_fit)
    (Hr : Ready range net gw) (Hv6 : is_v4 net = false) (Hp : 1 <= prefix net)
    (Hmode : allocation_mode range = Random)
    (Hfull : forall b, in_net net b -> taken (rows db range) range net gw b) fuel :
  pick_ip_from_range fuel db range = None.
Proof.
  destruct (pick_ready fuel db range net gw Hr) as (ips & Hin & _ & ->). rewrite Hv6, Hmode. cbn.
  pose proof (parse_net_wf _ _ (proj1 Hr)) as Hn.
  assert (forall i, random_loop fuel i net (Z.min (prefix net) (prefix gw)) ips = None) as Hl; [|by rewrite Hl].
  induction fuel as [|fuel IH]; intros i; [done|]. cbn [random_loop].
  destruct (nth_drawn net i Hd Hn Hp) as [-> Hi]. case_decide as Hx; [apply IH|].
  exfalso. by apply Hx, Hin, Hfull.
Qed.

(** The kind a caller asks for has no effect: ranges of the other family
    are kept, since the last arm of the filter keeps whatever parses. *)
Theorem kind_filter_ignored `{!Rand} shuffle fuel db region k :
  pick_ip_kind_for_region shuffle fuel db region (Some k) =
  pick_ip_kind_for_region shuffle fuel db region None.
Proof.
  unfold pick_ip_kind_for_region.
  assert (forall r : IpRange, kind_keeps (parse_net (cidr r)) (Some k) = kind_keeps (parse_net (cidr r)) None)
    as E by (intros r; unfold kind_keeps; destruct (parse_net _) as [n|]; [|done]; by destruct (is_v4 n), k).
  rewrite (list_filter_iff _ (fun r => kind_keeps (parse_net (cidr r)) None = true)); [done|].
  intros r. by rewrite E.
Qed.

(** The list of free addresses of an IPv4 range is exact, without
    repetitions, and the count that the API shows never exceeds it. *)
Theorem free_list_exact db range net gw l (Hr : Ready range net gw)
    (Hl : compute_free_ips db range = Ok l) :
  NoDup l /\
  (forall a, a ∈ l <-> in_net net a /\ ~ taken (rows db range) range net gw a) /\
  (forall n c, 1 <= prefix net -> Z.of_nat (length (rows db range)) <= n ->
    count_available_ips range n = Some c -> c <= Z.of_nat (length l)).
Proof.
  destruct Hr as [En Eg]. pose proof (parse_net_wf _ _ En) as Hn.
  destruct (iter_ends net Hn) as [Eh El]. unfold compute_free_ips in Hl.
  rewrite En in Hl. cbn in Hl. destruct (is_v4 net) eqn:Ev; [|done]. cbn in Hl. rewrite Eg in Hl.
  cbn in Hl. rewrite Eh, El in Hl. injection Hl as <-.
  set (free := fun a => _ /\ _). set (all := net_addr net <$> net_iter net).
  assert (NoDup all) as Hnd.
  { apply NoDup_fmap_2; [by intros x y [= ->]|]. rewrite net_iter_seq by done. apply NoDup_seqZ. }
  assert (forall a, a ∈ all <-> in_net net a) as Hall.
  { intros a. unfold all. rewrite list_elem_of_fmap. split.
    - intros (x & -> & Hx). by apply iter_in.
    - intros Ha. exists (a_bits a). assert (a = net_addr net (a_bits a)) as E.
      { destruct a, Ha as [Hv _]. unfold net_addr. cbn in *. by rewrite Hv. }
      split; [done|]. apply iter_in; [done|]. by rewrite <- E. }
  assert (forall a, in_net net a -> free a <-> ~ taken (rows db range) range net gw a) as Hfree.
  { intros a Ha. unfold free, taken, boundary. rewrite Ev.
    destruct (use_full_range range); rewrite ?elem_of_union, ?elem_of_singleton; naive_solver. }
  split_and!; [by apply NoDup_filter| |].
  { intros a. rewrite list_elem_of_filter, Hall. naive_solver. }
  intros n c Hp Hrows Hc. unfold count_available_ips in Hc. rewrite En, Ev, Eg in Hc. injection Hc as <-.
  destruct (used_ips_spec (rows db range) range net gw Hn) as (ips & _ & Hin & Hcount).
  unfold reserved_count in Hcount. rewrite net_size_pow by done.
  assert (2 ^ host_bits net <= Z.of_nat (length (filter free all)) + Z.of_nat (size ips)) as Hcov.
  2: { unfold sat_sub. lia. }
  assert (length all = Z.to_nat (2 ^ host_bits net)) as Elen.
  { unfold all. by rewrite length_fmap, net_iter_seq, length_seqZ by done. }
  assert (length (filter (fun a => ~ free a) all) <= size ips)%nat as Hle.
  { rewrite <- (size_list_to_set (C:=gset IpAddr)) by (by apply NoDup_filter).
    apply subseteq_size. intros a Ha%elem_of_list_to_set.
    apply list_elem_of_filter in Ha as [Hf Ha%Hall]. apply Hin.
    pose proof (Hfree a Ha). destruct (decide (a ∈ ips)) as [Hi|Hi]; [by apply Hin|]. rewrite Hin in Hi. tauto. }
  pose proof (Permutation_length (filter_app_complement free all)) as Hperm.
  rewrite length_app, Elen in Hperm. pose proof (host_pos net Hn). lia.
Qed.

(** *** Picks return *)

Lemma pick_mono `{!Rand} f f' db range r : (f <= f')%nat ->
  pick_ip_from_range f db range = Some r -> pick_ip_from_range f' db range = Some r.
Proof.
  intros Hf. unfold pick_ip_from_range. destruct (parse_net _) as [net|]; [|done].
  destruct (parse_gateway _) as [gw|]; [|done]. destruct (used_ips _ _ _ _) as [ips|]; [|done].
  destruct (_ && _); [done|]. destruct (allocation_mode range); [|done|done].
  destruct (random_loop f _ _ _ _) as [x|] eqn:E; [|done].
  by rewrite (random_loop_mono _ _ _ _ _ _ _ Hf E).
Qed.

(** A range on which the random order ends: IPv4, or with a free address. *)
Definition random_ends db range : Prop :=
  allocation_mode range = Random -> forall net gw, Ready range net gw -> is_v4 net = false ->
  exists b, in_net net b /\ ~ taken (rows db range) range net gw b.

Lemma pick_returns `{!Rand} db range : draws_fit -> draws_fair ->
  (forall net, parse_net (cidr range) = Some net -> 1 <= prefix net) ->
  Z.of_nat (length (rows db range)) + 3 < 2 ^ 32 -> random_ends db range ->
  exists f r, pick_ip_from_range f db range = Some r.
Proof.
  intros Hd Hfair Hp Hsz Hends.
  destruct (parse_net (cidr range)) as [net|] eqn:En.
  2: { exists 0%nat. unfold pick_ip_from_range. rewrite En. eauto. }
  destruct (parse_gateway (gateway range)) as [gw|e] eqn:Eg.
  2: { exists 0%nat. unfold pick_ip_from_range. rewrite En, Eg. eauto. }
  pose proof (parse_net_wf _ _ En) as Hn. pose proof (Hp _ eq_refl) as Hp1.
  destruct (used_ips_spec (rows db range) range net gw Hn) as (ips & Eu & Hin & Hcount).
  assert (0 <= reserved_count range net gw <= 3) as Hrc.
  { unfold reserved_count. destruct (net_contains _ _), (use_full_range _); lia. }
  enough (exists f, is_v4 net && (net_size net <=? wrap 32 (Z.of_nat (size ips))) = false ->
    allocation_mode range = Random ->
    exists r, random_loop f 0 net (Z.min (prefix net) (prefix gw)) ips = Some r) as [f Hf].
  { exists f. unfold pick_ip_from_range. rewrite En, Eg, Eu.
    destruct (_ && _) eqn:Efull; [eauto|]. destruct (allocation_mode range) eqn:Em; [|cbn; eauto..].
    destruct (Hf eq_refl eq_refl) as [r ->]. cbn. eauto. }
  destruct (decide (Exists (fun x => net_addr net x ∉ ips) (net_iter net)))
    as [(x & Hx & Hfree)%Exists_exists|Hno].
  - rewrite net_iter_seq, elem_of_seqZ in Hx by done.
    destruct (Hfair (net_size net) (x - network net)) as [k Hk]; [rewrite net_size_pow by done; lia|].
    destruct (random_loop_ends net (Z.min (prefix net) (prefix gw)) ips k 0 Hd Hn Hp1 ltac:(lia))
      as [y Hy]; [by replace (network net + draw (net_size net) k) with x by lia|].
    eexists. intros _ _. eauto.
  - exists 0%nat. intros Efull Em. exfalso. apply Hno, Exists_exists. destruct (is_v4 net) eqn:Ev.
    + apply pigeonhole; [done|]. rewrite wrap_small in Efull by (unfold fits; lia).
      rewrite net_size_pow in Efull by done. cbn in Efull. zbool. lia.
    + destruct (Hends Em net gw (conj En Eg) Ev) as (b & Hb & Hnt). exists (a_bits b).
      assert (b = net_addr net (a_bits b)) as Eb.
      { destruct b, Hb as [E _]. unfold net_addr. cbn in *. by rewrite E. }
      rewrite <- Eb. split; [apply iter_in; [done|by rewrite <- Eb]|by rewrite Hin].
Qed.

(** The loop over ranges returns, with an IPv4 address if some range gives one. *)
Lemma pick_loop_returns `{!Rand} db ranges ret :
  (forall r, r ∈ ranges -> is_Some (parse_net (cidr r))) ->
  (forall r, r ∈ ranges -> exists f x, pick_ip_from_range f db r = Some x) ->
  exists f ret', pick_loop f db ranges ret = Some (Ok ret') /\
    (is_Some (ip4 ret) \/ (exists r net f a, r ∈ ranges /\ parse_net (cidr r) = Some net /\
      is_v4 net = true /\ pick_ip_from_range f db r = Some (Ok a)) -> is_Some (ip4 ret')).
Proof.
  assert (forall f f' ranges ret x, (f <= f')%nat -> pick_loop f db ranges ret = Some x ->
    pick_loop f' db ranges ret = Some x) as Hmono.
  { clear. intros f f' ranges. induction ranges as [|r ranges IH]; intros ret x Hf; cbn [pick_loop]; [done|].
    destruct (parse_net _) as [net|]; [|done].
    destruct (pick_ip_from_range f db r) as [p|] eqn:Ep.
    - rewrite (pick_mono _ _ _ _ _ Hf Ep). destruct (_ && _); cbn; destruct (_ && _); cbn; by apply IH.
    - destruct (_ && _); cbn; [done|]. destruct (_ && _); cbn; [done|]. by apply IH. }
  revert ret. induction ranges as [|r ranges IH]; intros ret Hparse Hret.
  { exists 0%nat, ret. split; [done|]. intros [?|(r & _ & _ & _ & Hr & _)]; [done|by apply not_elem_of_nil in Hr]. }
  destruct (Hparse r) as [net En]; [by left|]. destruct (Hret r) as (f0 & x & Ex); [by left|].
  assert (forall q, q ∈ ranges -> is_Some (parse_net (cidr q))) as Hparse' by (intros; apply Hparse; by right).
  assert (forall q, q ∈ ranges -> exists f x, pick_ip_from_range f db q = Some x) as Hret'
    by (intros; apply Hret; by right).
  set (r1 := if bool_decide (ip4 ret = None) && is_v4 net then {| ip4 := picked x; ip6 := ip6 ret |} else ret).
  set (r2 := if bool_decide (ip6 r1 = None) && negb (is_v4 net) then {| ip4 := ip4 r1; ip6 := picked x |} else r1).
  destruct (IH r2 Hparse' Hret') as (f1 & ret' & E1 & Hsome).
  exists (f0 `max` f1)%nat, ret'. split.
  - cbn [pick_loop]. rewrite En, (pick_mono f0 (f0 `max` f1) _ _ _ ltac:(lia) Ex). unfold r2, r1 in E1.
    destruct (bool_decide (ip4 ret = None) && is_v4 net); cbn;
      destruct (bool_decide _ && negb _); cbn; (eapply Hmono; [|exact E1]; lia).
  - assert (ip4 r2 = ip4 r1) as E2 by (unfold r2; by destruct (bool_decide (ip6 r1 = None) && negb (is_v4 net))).
    intros Hor. apply Hsome. rewrite E2. unfold r1. destruct Hor as [[a Ha]|(q & nq & f & a & Hq & Eq & Hv & Hp)].
    + left. rewrite Ha. cbn. eauto.
    + apply elem_of_cons in Hq as [->|Hq]; [|right; by exists q, nq, f, a].
      rewrite En in Eq. injection Eq as <-. left. rewrite Hv.
      assert (x = Ok a) as ->.
      { assert (Some x = Some (Ok a)) as [=]; [|done].
        by rewrite <- (pick_mono f0 (f0 `max` f) _ _ _ ltac:(lia) Ex), <- (pick_mono f (f0 `max` f) _ _ _ ltac:(lia) Hp). }
      destruct (ip4 ret) eqn:E4; cbn; [rewrite E4|]; eauto.
Qed.
End theorems.


(** ** Interface identifiers and reverse names *)

Definition mac_wf (mac : list Z) : Prop := length mac = 6%nat /\ Forall (fun b => 0 <= b < 256) mac.

Lemma from_octets_app l k : from_octets (l ++ k) =
  from_octets l * 256 ^ Z.of_nat (length k) + from_octets k.
Proof.
  unfold from_octets. revert l. induction k as [|b k IH]; intros l.
  { rewrite app_nil_r. cbn. lia. }
  replace (l ++ b :: k) with ((l ++ [b]) ++ k) by by rewrite <- (assoc_L (++)).
  rewrite (IH (l ++ [b])). change (b :: k) with ([b] ++ k). rewrite (IH [b]), foldl_app. cbn [foldl length app].
  rewrite Nat2Z.inj_succ, Z.pow_succ_r by lia. nia.
Qed.

Lemma from_octets_snoc l b : from_octets (l ++ [b]) = from_octets l * 256 + b.
Proof. unfold from_octets. by rewrite foldl_app. Qed.

Lemma from_octets_bound l : Forall (fun b => 0 <= b < 256) l ->
  0 <= from_octets l < 256 ^ Z.of_nat (length l).
Proof.
  induction l as [|b l IH] using rev_ind; [done|]. intros [Hl Hb]%Forall_app. specialize (IH Hl).
  apply Forall_cons in Hb as [Hb _]. rewrite from_octets_snoc, length_app. cbn [length].
  rewrite Nat2Z.inj_add, Z.pow_add_r by lia. change (256 ^ Z.of_nat 1) with 256. cbn beta in Hb. nia.
Qed.

(** Two lists of octets with one value. *)
Lemma from_octets_inj l k : length l = length k ->
  Forall (fun b => 0 <= b < 256) l -> Forall (fun b => 0 <= b < 256) k ->
  from_octets l = from_octets k -> l = k.
Proof.
  revert k. induction l as [|b l IH] using rev_ind; intros k Hlen Hl Hk E.
  { by destruct k. }
  destruct k as [|c k _] using rev_ind; [rewrite length_app in Hlen; cbn in Hlen; lia|].
  rewrite !length_app in Hlen. cbn in Hlen. apply Forall_app in Hl as [Hl Hb], Hk as [Hk Hc].
  apply Forall_cons in Hb as [Hb _], Hc as [Hc _]. cbn beta in Hb, Hc. rewrite !from_octets_snoc in E.
  assert (from_octets l = from_octets k /\ b = c) as [El ->] by lia.
  f_equal. apply IH; (done || lia).
Qed.

Lemma flip_local b : 0 <= b < 256 -> 0 <= Z.lxor b 2 < 256.
Proof.
  intros Hb. assert (0 <= Z.lxor b 2) by (apply Z.lxor_nonneg; lia). split; [done|].
  destruct (Z.eq_dec (Z.lxor b 2) 0); [lia|]. apply (Z.log2_lt_pow2 _ 8); [lia|].
  pose proof (Z.log2_lxor b 2 ltac:(lia) ltac:(lia)). cbn in *.
  pose proof (Z.log2_le_mono b 255 ltac:(lia)). cbn in *. lia.
Qed.

Lemma eui64_wf mac : mac_wf mac -> length (eui64 mac) = 8%nat /\ Forall (fun b => 0 <= b < 256) (eui64 mac).
Proof.
  intros [Hl Hf]. split; [done|]. destruct mac as [|a [|b [|c [|d [|e [|f []]]]]]]; try done.
  apply Forall_cons in Hf as [? Hf]. apply Forall_cons in Hf as [? Hf].
  apply Forall_cons in Hf as [? Hf]. apply Forall_cons in Hf as [? Hf].
  apply Forall_cons in Hf as [? Hf]. apply Forall_cons in Hf as [? _].
  unfold eui64. cbn. repeat (constructor; [first [lia|by apply flip_local]|]). constructor.
Qed.

Lemma eui64_inj m1 m2 : mac_wf m1 -> mac_wf m2 -> eui64 m1 = eui64 m2 -> m1 = m2.
Proof.
  intros [Hl1 _] [Hl2 _]. destruct m1 as [|a [|b [|c [|d [|e [|f []]]]]]]; try done.
  destruct m2 as [|a' [|b' [|c' [|d' [|e' [|f' []]]]]]]; try done. unfold eui64. cbn.
  intros [= E -> -> -> -> ->]. f_equal. apply (f_equal (fun x => Z.lxor x 2)) in E.
  by rewrite !Z.lxor_assoc, !Z.lxor_nilpotent, !Z.lxor_0_r in E.
Qed.

(** The upper half of an address. *)
Lemma upper_octets a : fits 128 a -> from_octets (take 8 (octets16 a)) = a / 2 ^ 64.
Proof.
  unfold fits. intros Ha. unfold octets16, from_octets. cbn [take fmap list_fmap foldl].
  assert (forall i, 0 <= i -> a / 2 ^ (8 * (i + 1)) = a / 2 ^ (8 * i) / 256) as Hd.
  { intros i Hi. rewrite Z.div_div by (try apply Z.pow_nonzero; lia). f_equal.
    change 256 with (2 ^ 8). rewrite <- Z.pow_add_r by lia. f_equal. lia. }
  assert (0 <= a / 2 ^ (8 * 15) < 256) as Etop.
  { split; [apply Z.div_pos; lia|]. apply Z.div_lt_upper_bound; lia. }
  pose proof (Hd 8 ltac:(lia) : a / 2 ^ (8 * 9) = a / 2 ^ (8 * 8) / 256) as E8.
  pose proof (Hd 9 ltac:(lia) : a / 2 ^ (8 * 10) = a / 2 ^ (8 * 9) / 256) as E9.
  pose proof (Hd 10 ltac:(lia) : a / 2 ^ (8 * 11) = a / 2 ^ (8 * 10) / 256) as E10.
  pose proof (Hd 11 ltac:(lia) : a / 2 ^ (8 * 12) = a / 2 ^ (8 * 11) / 256) as E11.
  pose proof (Hd 12 ltac:(lia) : a / 2 ^ (8 * 13) = a / 2 ^ (8 * 12) / 256) as E12.
  pose proof (Hd 13 ltac:(lia) : a / 2 ^ (8 * 14) = a / 2 ^ (8 * 13) / 256) as E13.
  pose proof (Hd 14 ltac:(lia) : a / 2 ^ (8 * 15) = a / 2 ^ (8 * 14) / 256) as E14.
  change (2 ^ 64) with (2 ^ (8 * 8)).
  assert (forall x, x / 256 * 256 + x mod 256 = x) as Hdm.
  { intros x. pose proof (Z.div_mod x 256 ltac:(lia)). lia. }
  rewrite (Z.mod_small (a / 2 ^ (8 * 15))) by done.
  rewrite Z.mul_0_l, Z.add_0_l.
  rewrite E14, Hdm, E13, Hdm, E12, Hdm, E11, Hdm, E10, Hdm, E9, Hdm, E8. apply Hdm.
Qed.

Section eui.
Context `{NL : !NetLib, LAWS : !NetLaws}.

Lemma calculate_eui64_value mac pre : net_wf pre -> is_v4 pre = false -> prefix pre <= 64 ->
  calculate_eui64 mac pre = Ok {| a_v4 := false; a_bits := network pre + from_octets (eui64 mac) |}.
Proof.
  intros Hn Hv Hp. destruct (network_bounds pre Hn) as (Hd & Hlo & Hhi). rewrite Hv in *. cbn in Hd, Hhi.
  unfold calculate_eui64. rewrite Hv. do 2 f_equal. rewrite from_octets_app.
  change (256 ^ Z.of_nat (length (eui64 mac))) with (2 ^ 64).
  assert (0 < 2 ^ (128 - prefix pre)) by (apply Z.pow_pos_nonneg; lia).
  rewrite upper_octets by (unfold fits; lia). f_equal.
  assert ((2 ^ 64 | network pre)) as [k ->].
  { etrans; [|exact Hd]. exists (2 ^ (64 - prefix pre)). rewrite <- Z.pow_add_r by lia. f_equal. lia. }
  by rewrite Z.div_mul by done.
Qed.

(** Under SLAAC a VM's address is in the range its prefix was picked from,
    for prefixes of at most 64 bits, and VMs with different MAC addresses get
    different addresses. *)
Theorem eui64_unique_in_prefix m1 m2 pre (Hn : net_wf pre) (Hv : is_v4 pre = false)
    (Hp : prefix pre <= 64) (Hm1 : mac_wf m1) (Hm2 : mac_wf m2) :
  exists a1 a2, calculate_eui64 m1 pre = Ok a1 /\ calculate_eui64 m2 pre = Ok a2 /\
    in_net pre a1 /\ (a1 = a2 -> m1 = m2).
Proof.
  destruct (eui64_wf m1 Hm1) as [Hl1 Hf1], (eui64_wf m2 Hm2) as [Hl2 Hf2].
  pose proof (from_octets_bound _ Hf1) as Hb. rewrite Hl1 in Hb. change (256 ^ Z.of_nat 8) with (2 ^ 64) in Hb.
  eexists _, _. split_and!; [by apply calculate_eui64_value|by apply calculate_eui64_value| |].
  - split; [done|]. unfold host_bits. rewrite Hv. cbn [a_bits max_bits].
    assert (2 ^ 64 <= 2 ^ (128 - prefix pre)) by (apply Z.pow_le_mono_r; lia). lia.
  - intros E%(f_equal a_bits). cbn [a_bits] in E. apply Z.add_reg_l in E.
    apply eui64_inj; [done|done|]. by apply from_octets_inj.
Qed.
End eui.

(** What a reverse name says: its nibbles, least significant first. *)
Fixpoint read_nibbles (n : nat) (s : list ascii) : option (Z * list ascii) :=
  match n, s with
  | O, _ => Some (0, s)
  | S n, c :: "."%char :: s =>
      d ← to_digit 16 c;
      '(v, r) ← read_nibbles n s;
      Some (d + 16 * v, r)
  | _, _ => None
  end.
Definition ptr_value (s : string) : option Z :=
  match read_nibbles 32 (String.list_ascii_of_string s) with
  | Some (v, r) => if bool_decide (String.string_of_list_ascii r = "ip6.arpa") then Some v else None
  | None => None
  end.

Lemma low_nibble_mod b : low_nibble b = b mod 16.
Proof. unfold low_nibble. change 15 with (Z.ones 4). by rewrite Z.land_ones by lia. Qed.
Lemma high_nibble_div b : 0 <= b < 256 -> high_nibble b = b / 16.
Proof.
  intros Hb. unfold high_nibble. change 15 with (Z.ones 4). rewrite Z.land_ones, Z.shiftr_div_pow2 by lia.
  change (2 ^ 4) with 16. apply Z.mod_small. split; [apply Z.div_pos; lia|]. apply Z.div_lt_upper_bound; lia.
Qed.

Lemma show_hex_small d : 0 <= d < 16 -> show_hex d = [hex_digit d].
Proof. intros Hd. unfold show_hex. by rewrite (proj2 (Z.ltb_lt d 16)) by lia. Qed.

(** The nibbles of octets, least significant first, give the octets' value. *)
Lemma read_nibbles_octets l r : Forall (fun b => 0 <= b < 256) l ->
  read_nibbles (2 * length l)
    ((l ≫= (fun b => show_hex (low_nibble b) ++ "."%char :: show_hex (high_nibble b) ++ ["."%char])) ++ r) =
  Some (from_octets (rev l), r).
Proof.
  induction l as [|b l IH]; [done|]. intros [Hb Hl]%Forall_cons. specialize (IH Hl).
  assert (0 <= b mod 16 < 16) as Hlo by (apply Z.mod_pos_bound; lia).
  assert (0 <= b / 16 < 16) as Hhi
    by (split; [apply Z.div_pos; lia|apply Z.div_lt_upper_bound; lia]).
  rewrite bind_cons. cbn [length rev]. rewrite low_nibble_mod, high_nibble_div by done.
  rewrite (show_hex_small (b mod 16)), (show_hex_small (b / 16)) by done.
  replace (2 * S (length l))%nat with (S (S (2 * length l)))%nat by lia. cbn [app read_nibbles].
  rewrite !hex_digit_value by done. cbn [mbind option_bind].
  rewrite IH. cbn [mbind option_bind]. rewrite from_octets_snoc. do 2 f_equal.
  pose proof (Z.div_mod b 16 ltac:(lia)). lia.
Qed.

Example ptr_ex : ipv6_to_ptr 0x20010db8000000000000000000000001 =
  "1.0.0.0.0.0.0.0.0.0.0.0.0.0.0.0.0.0.0.0.0.0.0.0.8.b.d.0.1.0.0.2.ip6.arpa".
Proof. reflexivity. Qed.

Lemma join_dots_bind l r : l <> [] ->
  join_dots l ++ "."%char :: r = (l ≫= (fun x : list ascii => x ++ ["."%char])) ++ r.
Proof.
  induction l as [|x l IH]; [done|]. intros _. cbn [mbind list_bind]. destruct l as [|y l].
  - cbn. rewrite app_nil_r. by rewrite <- (assoc_L (++)).
  - specialize (IH ltac:(done)). rewrite <- (assoc_L (++)). rewrite <- IH.
    change (join_dots (x :: y :: l)) with (x ++ "."%char :: join_dots (y :: l)).
    by rewrite <- !(assoc_L (++)).
Qed.

Lemma octets16_wf a : Forall (fun b => 0 <= b < 256) (octets16 a).
Proof. unfold octets16. apply Forall_fmap, Forall_true. intros i. apply Z.mod_pos_bound. lia. Qed.

Lemma octets16_value a : fits 128 a -> from_octets (octets16 a) = a.
Proof.
  intros Ha. rewrite <- (take_drop 8 (octets16 a)). rewrite from_octets_app, upper_octets by done.
  change (256 ^ Z.of_nat (length (drop 8 (octets16 a)))) with (2 ^ 64).
  assert (from_octets (drop 8 (octets16 a)) = a mod 2 ^ 64) as ->.
  { assert (fits 128 (a mod 2 ^ 64 * 2 ^ 64)) as Hf.
    { unfold fits. pose proof (Z.mod_pos_bound a (2 ^ 64) ltac:(lia)). lia. }
    pose proof (upper_octets _ Hf) as E. rewrite Z.div_mul in E by done. rewrite <- E.
    f_equal. unfold octets16. cbn [take drop fmap list_fmap].
    assert (forall i, 0 <= i < 8 ->
      a / 2 ^ (8 * i) mod 256 = a mod 2 ^ 64 * 2 ^ 64 / 2 ^ (8 * (i + 8)) mod 256) as Hbyte.
    { intros i Hi. replace (8 * (i + 8)) with (8 * i + 64) by lia.
      rewrite Z.pow_add_r by lia. rewrite Z.div_mul_cancel_r by (try apply Z.pow_nonzero; lia).
      change 256 with (2 ^ 8). apply Z.bits_inj'. intros n Hn.
      rewrite <- !Z.shiftr_div_pow2 by lia. destruct (Z.ltb_spec n 8).
      - rewrite !Z.mod_pow2_bits_low by lia. rewrite !Z.shiftr_spec by lia.
        by rewrite Z.mod_pow2_bits_low by lia.
      - by rewrite !Z.mod_pow2_bits_high by lia. }
    apply (f_equal2 cons (Hbyte 7 ltac:(lia))).
    apply (f_equal2 cons (Hbyte 6 ltac:(lia))).
    apply (f_equal2 cons (Hbyte 5 ltac:(lia))).
    apply (f_equal2 cons (Hbyte 4 ltac:(lia))).
    apply (f_equal2 cons (Hbyte 3 ltac:(lia))).
    apply (f_equal2 cons (Hbyte 2 ltac:(lia))).
    apply (f_equal2 cons (Hbyte 1 ltac:(lia))).
    apply (f_equal2 cons (Hbyte 0 ltac:(lia))).
    done. }
  pose proof (Z.div_mod a (2 ^ 64) ltac:(lia)). lia.
Qed.

(** A reverse-DNS name determines its address: reading its nibbles back
    gives the address it was made for. *)
Theorem ptr_roundtrip a (Ha : fits 128 a) : ptr_value (ipv6_to_ptr a) = Some a.
Proof.
  unfold ptr_value, ipv6_to_ptr. rewrite String.list_ascii_of_string_of_list_ascii.
  change (String.list_ascii_of_string ".ip6.arpa")
    with ("."%char :: String.list_ascii_of_string "ip6.arpa").
  assert (length (nibbles a) = 32%nat) as Hlen by reflexivity.
  rewrite join_dots_bind by (by destruct (nibbles a)).
  assert (((show_hex <$> nibbles a) ≫= (fun x : list ascii => x ++ ["."%char])) =
    (rev (octets16 a) ≫= (fun b : Z => show_hex (low_nibble b) ++ "."%char :: show_hex (high_nibble b) ++ ["."%char])))
    as ->.
  { unfold nibbles. induction (rev (octets16 a)) as [|b l IH]; [done|].
    rewrite !bind_cons, fmap_app, bind_app, IH.
    cbn [fmap list_fmap mbind list_bind]. rewrite app_nil_r, <- !(assoc_L (++)).
    cbn [app]. by rewrite <- !(assoc_L (++)). }
  change 32%nat with (2 * length (rev (octets16 a)))%nat.
  rewrite read_nibbles_octets by (apply Forall_rev, octets16_wf).
  rewrite rev_involutive, octets16_value by done. reflexivity.
Qed.

Lemma ptr_roundtrip_witness :
  ptr_value (ipv6_to_ptr 0x20010db8000000000000000000000001) = Some 0x20010db8000000000000000000000001.
Proof. apply ptr_roundtrip. split; vm_compute; [discriminate|reflexivity]. Defined.

(** ** A reference implementation, and the theorems at concrete ranges *)
Module RefNet.
Import RefIpNet.

(** [addr/prefix], or an address alone. *)
Definition split_slash (s : string) : list ascii * option (list ascii) :=
  let l := String.list_ascii_of_string s in
  match list_find (fun c => c = "/"%char) l with
  | Some (i, _) => (take i l, Some (drop (S i) l))
  | None => (l, None)
  end.
Definition ref_parse (s : string) : option IpNetwork :=
  let '(a, p) := split_slash s in
  a ← parse_ip (String.string_of_list_ascii a);
  p ← match p with
      | None => Some (max_bits (a_v4 a))
      | Some p =>
          match read_number 8 10 3 true p with Some (n, []) => Some n | _ => None end
      end;
  if (p <=? max_bits (a_v4 a)) && (0 <=? p) && (0 <=? a_bits a) && (a_bits a <? 2 ^ max_bits (a_v4 a))
  then Some {| is_v4 := a_v4 a; ip := a_bits a; prefix := p |} else None.

#[export] Instance ref_netlib : NetLib := {
  net_new := ref_net;
  parse_net := ref_parse;
  net_contains n a :=
    Bool.eqb (a_v4 a) (is_v4 n) && (network n <=? a_bits a) && (a_bits a <? network n + 2 ^ host_bits n);
  net_size n := 2 ^ host_bits n;
  net_nth n k := if (0 <=? k) && (k <? 2 ^ host_bits n) then Some (network n + k) else None;
  net_iter n := seqZ (network n) (2 ^ host_bits n)
}.
#[export] Instance ref_netlaws : NetLaws.
Proof.
  split; cbn -[host_bits network].
  - apply ref_laws.
  - intros s n. unfold ref_parse. destruct (split_slash s) as [a p].
    destruct (parse_ip _) as [b|]; [|done]. cbn. destruct (match p with Some _ => _ | None => _ end); [|done].
    cbn. destruct (_ && _) eqn:E; [|done]. intros [= <-]. zbool. split; cbn; lia.
  - intros n a _. rewrite !andb_true_iff, eqb_true_iff, Z.leb_le, Z.ltb_lt. tauto.
  - done.
  - intros n k _ Hk. by rewrite (proj2 (Z.leb_le 0 k)), (proj2 (Z.ltb_lt k _)) by lia.
  - done.
Qed.

(** Draws that count up. *)
#[export] Instance counting : Rand := fun n i => Z.of_nat i mod n.
Lemma counting_fit : draws_fit.
Proof. intros n i Hn. by apply Z.mod_pos_bound. Qed.
Lemma counting_fair : draws_fair.
Proof.
  intros n k Hk. exists (Z.to_nat k). unfold draw, counting. rewrite Z2Nat.id by lia. by apply Z.mod_small.
Qed.

Definition range (mode : IpRangeAllocationMode) (net gw : string) : IpRange :=
  {| r_id := 1; cidr := net; gateway := gw; enabled := true; region_id := 1;
     allocation_mode := mode; use_full_range := false |}.
Definition row (a : string) : VmIpAssignment :=
  {| vm_id := 1; ip_range_id := 1; a_ip := a; a_deleted := false |}.
Definition db (r : IpRange) (l : list string) : NetDb :=
  {| ip_ranges := [r]; assignments := row <$> l |}.

Definition seq8 := range Sequential "10.0.0.0/29" "10.0.0.1".
Definition rand8 := range Random "10.0.0.0/29" "10.0.0.1/24".

Example picks_third : pick_ip_from_range 0 (db seq8 ["10.0.0.2"]) seq8 =
  Some (Ok {| av_ip := v4 10 0 0 3 29; av_gateway := v4 10 0 0 1 32; av_range_id := 1;
              av_region_id := 1; av_mode := Sequential |}).
Proof. vm_compute. reflexivity. Qed.
Example picks_random : pick_ip_from_range 4 (db rand8 ["10.0.0.2"]) rand8 =
  Some (Ok {| av_ip := v4 10 0 0 3 24; av_gateway := v4 10 0 0 1 24; av_range_id := 1;
              av_region_id := 1; av_mode := Random |}).
Proof. vm_compute. reflexivity. Qed.

Lemma rand8_prefix net : parse_net (cidr rand8) = Some net -> 1 <= prefix net.
Proof.
  assert (parse_net (cidr rand8) = Some (v4 10 0 0 0 29)) as -> by (vm_compute; reflexivity).
  intros [= <-]. discriminate.
Qed.

Lemma picked_is_free_witness :
  exists net gw, parse_net (cidr rand8) = Some net /\ parse_gateway (gateway rand8) = Ok gw /\
    in_net net {| a_v4 := true; a_bits := 0x0a000003 |} /\ addr_of gw <> {| a_v4 := true; a_bits := 0x0a000003 |}.
Proof.
  destruct (picked_is_free 4 (db rand8 ["10.0.0.2"]) rand8 _ counting_fit
    rand8_prefix ltac:(discriminate) picks_random)
    as (net & gw & En & Eg & Hin & _ & Hgw & _).
  exists net, gw. split_and!; [done|done|exact Hin|].
  intros E. apply Hgw; [|done]. rewrite E. exact Hin.
Defined.

Lemma sequential_lowest_witness :
  match pick_ip_from_range 0 (db seq8 ["10.0.0.2"]) seq8 with
  | Some (Ok a) => ip (av_ip a) = 0x0a000003 /\ forall b, in_net (v4 10 0 0 0 29) b -> a_bits b < 0x0a000003 ->
      taken [row "10.0.0.2"] seq8 (v4 10 0 0 0 29) (v4 10 0 0 1 32) b
  | _ => False
  end.
Proof.
  pose proof (sequential_lowest 0 (db seq8 ["10.0.0.2"]) seq8 (v4 10 0 0 0 29) (v4 10 0 0 1 32)) as Hs.
  rewrite picks_third in Hs |- *. cbn -[in_net taken] in Hs. split; [reflexivity|].
  apply Hs; [split; reflexivity|reflexivity|vm_compute; reflexivity].
Defined.

Lemma advertised_is_pickable_witness :
  count_available_ips rand8 1 = Some 4 /\
  exists fuel a, forall fuel', (fuel <= fuel')%nat ->
    pick_ip_from_range fuel' (db rand8 ["10.0.0.2"]) rand8 = Some (Ok a).
Proof.
  split; [vm_compute; reflexivity|].
  apply (advertised_is_pickable (db rand8 ["10.0.0.2"]) rand8 (v4 10 0 0 1 24) 1 4 counting_fit counting_fair rand8_prefix).
  - vm_compute. reflexivity.
  - discriminate.
  - vm_compute. discriminate.
  - vm_compute. reflexivity.
  - vm_compute. reflexivity.
  - lia.
Defined.

(** Three assignments, of which the router refuses the second. *)
Definition three_runs : list Assign :=
  (fun x => {| as_vm := x.1; as_range := 1; as_draws := counting; as_policy := fun _ => x.2; as_fuel := 9 |}) <$>
  [(7, true); (8, false); (9, true)].
Lemma assigned_addresses_distinct_witness :
  exists rows db', assign_run three_runs (db rand8 []) = (rows, db') /\
    a_ip <$> rows = ["10.0.0.2"; "10.0.0.3"]%string /\ vm_id <$> rows = [7; 9] /\ distinct db' 1.
Proof.
  destruct (assign_run three_runs (db rand8 [])) as [rows db'] eqn:Erun.
  exists rows, db'. split; [reflexivity|]. split; [revert Erun; vm_compute; by intros [= <- _]|].
  split; [revert Erun; vm_compute; by intros [= <- _]|].
  refine (proj2 (proj2 (proj2 (assigned_addresses_distinct three_runs (db rand8 []) rows db' _ Erun))) 1 _ _).
  - do 3 (constructor; [exact counting_fit|]). constructor.
  - intros r Er. assert (r = rand8) as -> by (revert Er; vm_compute; by intros [= <-]).
    split; [discriminate|]. intros net. apply rand8_prefix.
  - constructor.
Defined.
Definition slaac6 := range SlaacEui64 "fd00::/64" "fd00::1".
Lemma slaac_assignment_repeats_witness :
  match assign_vm_ip (fun _ => true) 1 8 1 None (db slaac6 ["fd00::"]) with
  | Some (Ok (a, _)) => a_ip a = "fd00::"%string
  | _ => False
  end.
Proof.
  pose proof (slaac_assignment_repeats (fun _ => true) 1 8 1 (db slaac6 ["fd00::"])) as Hr.
  destruct (assign_vm_ip _ _ _ _ _ _) as [[[a db']|]|] eqn:Ea; [|revert Ea; vm_compute; discriminate..].
  rewrite (Hr a db' slaac6 {| is_v4 := false; ip := 0xfd000000000000000000000000000000; prefix := 64 |}
    ltac:(vm_compute; reflexivity) ltac:(vm_compute; reflexivity) eq_refl eq_refl). vm_compute. reflexivity.
Defined.

(** A one-address range whose address is the gateway. *)
Definition full6 := range Random "fd00::1/128" "fd00::1".
Lemma random_full_v6_never_returns_witness :
  pick_ip_from_range 1000 (db full6 []) full6 = None.
Proof.
  pose (gw := {| is_v4 := false; ip := 0xfd000000000000000000000000000001; prefix := 128 |}).
  apply (random_full_v6_never_returns (db full6 []) full6 gw gw counting_fit);
    [split; vm_compute; reflexivity|reflexivity|vm_compute; discriminate|reflexivity|].
  intros [v b] [Hv Hb]. right. right. split; [by split|]. cbn in Hv. subst v.
  revert Hb. cbn [a_bits]. change (network gw) with (ip gw). change (2 ^ host_bits gw) with 1.
  intros Hb. unfold addr_of, net_addr. f_equal. lia.
Defined.

Lemma free_list_exact_witness :
  exists l, compute_free_ips (db seq8 ["10.0.0.2"]) seq8 = Ok l /\ length l = 4%nat /\ NoDup l.
Proof.
  destruct (compute_free_ips (db seq8 ["10.0.0.2"]) seq8) as [l|] eqn:El;
    [|exfalso; revert El; vm_compute; discriminate].
  exists l. split; [reflexivity|]. split; [revert El; vm_compute; intros [= <-]; reflexivity|].
  refine (proj1 (free_list_exact (db seq8 ["10.0.0.2"]) seq8 (v4 10 0 0 0 29) (v4 10 0 0 1 32) l _ El)).
  split; vm_compute; reflexivity.
Defined.

Lemma eui64_unique_in_prefix_witness :
  let pre := {| is_v4 := false; ip := 0xfd000000000000000000000000000000; prefix := 64 |} in
  exists a, calculate_eui64 [2; 1; 1; 1; 1; 1] pre = Ok a /\ in_net pre a.
Proof.
  intros pre.
  destruct (eui64_unique_in_prefix [2; 1; 1; 1; 1; 1] [2; 1; 1; 1; 1; 1] pre) as (a & _ & Ha & _ & Hin & _).
  - split; cbn; split; (discriminate || reflexivity).
  - reflexivity.
  - discriminate.
  - split; [reflexivity|]. repeat (constructor; [split; (discriminate || reflexivity)|]). constructor.
  - split; [reflexivity|]. repeat (constructor; [split; (discriminate || reflexivity)|]). constructor.
  - exists a. split; [exact Ha|exact Hin].
Defined.
End RefNet.
