(* ===== verification/HostTypes.v ===== *)
(** * Hosts, templates and what they are made of
    ([lnvps_db/src/model.rs], [lnvps_api_common/src/model.rs])

    The rows that host capacity is computed from, the enumerations with their
    text forms, and the [Template] trait. *)

From Stdlib Require Import String SpecFloat.
From S2P Require Import Prelude.

(** ** Enumerations *)

Inductive CpuMfg : Type := MfgUnknown | Intel | Amd | Apple | Nvidia | Arm.
Inductive CpuArch : Type := ArchUnknown | X86_64 | ARM64.
Inductive DiskType : Type := HDD | SSD.
Inductive DiskInterface : Type := SATA | SCSI | PCIe.
Inductive CpuFeature : Type :=
| SSE | SSE2 | SSE3 | SSSE3 | SSE4_1 | SSE4_2
| AVX | AVX2 | FMA | F16C | AVX512F | AVX512VNNI
| AVX512BF16 | AVXVNNI | NEON | SVE | SVE2 | AES
| SHA | SHA512 | PCLMULQDQ | RNG | GFNI | VAES
| VPCLMULQDQ | VMX | NestedVirt | AMX | SME | SGX
| SEV | TDX | EncodeH264 | EncodeHEVC | EncodeAV1 | EncodeVP9
| EncodeJPEG | DecodeH264 | DecodeHEVC | DecodeAV1 | DecodeVP9 | DecodeJPEG
| DecodeMPEG2 | DecodeVC1 | VideoScaling | VideoDeinterlace | VideoCSC | VideoComposition.

#[export] Instance CpuMfg_eq_dec : EqDecision CpuMfg.
Proof. solve_decision. Defined.
#[export] Instance CpuArch_eq_dec : EqDecision CpuArch.
Proof. solve_decision. Defined.
#[export] Instance DiskType_eq_dec : EqDecision DiskType.
Proof. solve_decision. Defined.
#[export] Instance DiskInterface_eq_dec : EqDecision DiskInterface.
Proof. solve_decision. Defined.

(** [Display] *)
Definition mfg_string (m : CpuMfg) : string :=
  match m with
  | MfgUnknown => "unknown" | Intel => "intel" | Amd => "amd" | Apple => "apple"
  | Nvidia => "nvidia" | Arm => "arm"
  end.
Definition arch_string (a : CpuArch) : string :=
  match a with ArchUnknown => "unknown" | X86_64 => "x86_64" | ARM64 => "arm64" end.
Definition feature_string (f : CpuFeature) : string :=
  match f with
  | SSE => "SSE" | SSE2 => "SSE2" | SSE3 => "SSE3" | SSSE3 => "SSSE3"
  | SSE4_1 => "SSE4_1" | SSE4_2 => "SSE4_2" | AVX => "AVX" | AVX2 => "AVX2"
  | FMA => "FMA" | F16C => "F16C" | AVX512F => "AVX512F" | AVX512VNNI => "AVX512VNNI"
  | AVX512BF16 => "AVX512BF16" | AVXVNNI => "AVXVNNI" | NEON => "NEON" | SVE => "SVE"
  | SVE2 => "SVE2" | AES => "AES" | SHA => "SHA" | SHA512 => "SHA512"
  | PCLMULQDQ => "PCLMULQDQ" | RNG => "RNG" | GFNI => "GFNI" | VAES => "VAES"
  | VPCLMULQDQ => "VPCLMULQDQ" | VMX => "VMX" | NestedVirt => "NestedVirt" | AMX => "AMX"
  | SME => "SME" | SGX => "SGX" | SEV => "SEV" | TDX => "TDX"
  | EncodeH264 => "EncodeH264" | EncodeHEVC => "EncodeHEVC" | EncodeAV1 => "EncodeAV1" | EncodeVP9 => "EncodeVP9"
  | EncodeJPEG => "EncodeJPEG" | DecodeH264 => "DecodeH264" | DecodeHEVC => "DecodeHEVC" | DecodeAV1 => "DecodeAV1"
  | DecodeVP9 => "DecodeVP9" | DecodeJPEG => "DecodeJPEG" | DecodeMPEG2 => "DecodeMPEG2" | DecodeVC1 => "DecodeVC1"
  | VideoScaling => "VideoScaling" | VideoDeinterlace => "VideoDeinterlace" | VideoCSC => "VideoCSC" | VideoComposition => "VideoComposition"
  end.
(** [FromStr] *)
Definition feature_of_string (s : string) : option CpuFeature :=
  if String.eqb s "SSE" then Some SSE else
  if String.eqb s "SSE2" then Some SSE2 else
  if String.eqb s "SSE3" then Some SSE3 else
  if String.eqb s "SSSE3" then Some SSSE3 else
  if String.eqb s "SSE4_1" then Some SSE4_1 else
  if String.eqb s "SSE4_2" then Some SSE4_2 else
  if String.eqb s "AVX" then Some AVX else
  if String.eqb s "AVX2" then Some AVX2 else
  if String.eqb s "FMA" then Some FMA else
  if String.eqb s "F16C" then Some F16C else
  if String.eqb s "AVX512F" then Some AVX512F else
  if String.eqb s "AVX512VNNI" then Some AVX512VNNI else
  if String.eqb s "AVX512BF16" then Some AVX512BF16 else
  if String.eqb s "AVXVNNI" then Some AVXVNNI else
  if String.eqb s "NEON" then Some NEON else
  if String.eqb s "SVE" then Some SVE else
  if String.eqb s "SVE2" then Some SVE2 else
  if String.eqb s "AES" then Some AES else
  if String.eqb s "SHA" then Some SHA else
  if String.eqb s "SHA512" then Some SHA512 else
  if String.eqb s "PCLMULQDQ" then Some PCLMULQDQ else
  if String.eqb s "RNG" then Some RNG else
  if String.eqb s "GFNI" then Some GFNI else
  if String.eqb s "VAES" then Some VAES else
  if String.eqb s "VPCLMULQDQ" then Some VPCLMULQDQ else
  if String.eqb s "VMX" then Some VMX else
  if String.eqb s "NestedVirt" then Some NestedVirt else
  if String.eqb s "AMX" then Some AMX else
  if String.eqb s "SME" then Some SME else
  if String.eqb s "SGX" then Some SGX else
  if String.eqb s "SEV" then Some SEV else
  if String.eqb s "TDX" then Some TDX else
  if String.eqb s "EncodeH264" then Some EncodeH264 else
  if String.eqb s "EncodeHEVC" then Some EncodeHEVC else
  if String.eqb s "EncodeAV1" then Some EncodeAV1 else
  if String.eqb s "EncodeVP9" then Some EncodeVP9 else
  if String.eqb s "EncodeJPEG" then Some EncodeJPEG else
  if String.eqb s "DecodeH264" then Some DecodeH264 else
  if String.eqb s "DecodeHEVC" then Some DecodeHEVC else
  if String.eqb s "DecodeAV1" then Some DecodeAV1 else
  if String.eqb s "DecodeVP9" then Some DecodeVP9 else
  if String.eqb s "DecodeJPEG" then Some DecodeJPEG else
  if String.eqb s "DecodeMPEG2" then Some DecodeMPEG2 else
  if String.eqb s "DecodeVC1" then Some DecodeVC1 else
  if String.eqb s "VideoScaling" then Some VideoScaling else
  if String.eqb s "VideoDeinterlace" then Some VideoDeinterlace else
  if String.eqb s "VideoCSC" then Some VideoCSC else
  if String.eqb s "VideoComposition" then Some VideoComposition else
  None.

(** A feature survives its text, so features are told apart by it. *)
Lemma feature_roundtrip f : feature_of_string (feature_string f) = Some f.
Proof. by destruct f. Qed.
#[export] Instance CpuFeature_eq_dec : EqDecision CpuFeature.
Proof.
  refine (fun a b => cast_if (decide (feature_string a = feature_string b))).
  - abstract (apply (inj Some); by rewrite <- !feature_roundtrip, e).
  - abstract (by intros ->).
Defined.

(** ** Floating point *)

(** [f32] and [f64]: IEEE formats, rounding to nearest even. *)
Module Flt.
Section format.
Context (prec emax : Z).
(** [z as f32] or [z as f64] *)
Definition of_Z (z : Z) : spec_float := binary_normalize prec emax z 0 false.
Definition add : spec_float -> spec_float -> spec_float := SFadd prec emax.
Definition sub : spec_float -> spec_float -> spec_float := SFsub prec emax.
Definition mul : spec_float -> spec_float -> spec_float := SFmul prec emax.
Definition div : spec_float -> spec_float -> spec_float := SFdiv prec emax.
End format.
(** [x as f64] of an [f32]: exact. *)
Definition widen (x : spec_float) : spec_float :=
  match x with
  | S754_finite s m e => binary_normalize 53 1024 (if s then Zneg m else Zpos m) e s
  | _ => x
  end.
(** [x.floor() as uW]: a NaN gives 0, the rest saturates. *)
Definition floor_to (w : Z) (x : spec_float) : Z :=
  match x with
  | S754_infinity false => 2 ^ w - 1
  | S754_finite false m e =>
      Z.min (2 ^ w - 1) (if 0 <=? e then Zpos m * 2 ^ e else Zpos m / 2 ^ (- e))
  | _ => 0
  end.
(** [x.ceil() as uW], [x.round() as uW] (ties away from zero). *)
Definition ceil_to (w : Z) (x : spec_float) : Z :=
  match x with
  | S754_finite false m e =>
      Z.min (2 ^ w - 1) (if 0 <=? e then Zpos m * 2 ^ e else (Zpos m + 2 ^ (- e) - 1) / 2 ^ (- e))
  | _ => floor_to w x
  end.
Definition round_to (w : Z) (x : spec_float) : Z :=
  match x with
  | S754_finite false m e =>
      Z.min (2 ^ w - 1) (if 0 <=? e then Zpos m * 2 ^ e else (2 * Zpos m + 2 ^ (- e)) / 2 ^ (1 - e))
  | _ => floor_to w x
  end.
(** [a.max(b)]: of a NaN and a number, the number. *)
Definition max (a b : spec_float) : spec_float :=
  match a, b with
  | S754_nan, _ => b
  | _, S754_nan => a
  | _, _ => if SFltb a b then b else a
  end.
Definition is_nan (x : spec_float) : bool := match x with S754_nan => true | _ => false end.
(** [a <= b] *)
Definition le (a b : spec_float) : bool := SFleb a b.
End Flt.

(** ** Rows *)

Record VmHost := {
  h_id : Z; h_region_id : Z; h_enabled : bool;
  h_cpu : Z; h_cpu_mfg : CpuMfg; h_cpu_arch : CpuArch; h_cpu_features : list CpuFeature;
  h_memory : Z; load_cpu : spec_float; load_memory : spec_float; load_disk : spec_float;
  h_sunset_date : option Z
}.
Record VmHostDisk := {
  d_id : Z; d_host_id : Z; d_size : Z; d_kind : DiskType; d_interface : DiskInterface;
  d_enabled : bool
}.
Record VmTemplate := {
  t_id : Z; t_enabled : bool; t_region_id : Z; t_cpu : Z; t_memory : Z; t_disk_size : Z;
  t_disk_type : DiskType; t_disk_interface : DiskInterface;
  t_cpu_mfg : CpuMfg; t_cpu_arch : CpuArch; t_cpu_features : list CpuFeature; t_cost_plan_id : Z
}.
Record VmCustomTemplate := {
  ct_id : Z; ct_cpu : Z; ct_memory : Z; ct_disk_size : Z;
  ct_disk_type : DiskType; ct_disk_interface : DiskInterface;
  ct_cpu_mfg : CpuMfg; ct_cpu_arch : CpuArch; ct_cpu_features : list CpuFeature; ct_pricing_id : Z
}.
Record Vm := {
  v_id : Z; v_host_id : Z; v_template_id : option Z; v_custom_template_id : option Z;
  v_subscription_line_item_id : Z; v_disk_id : Z; v_deleted : bool;
  v_user_id : Z; v_ssh_key_id : option Z; v_mac_address : string
}.

(** [trait Template] *)
Class Template (T : Type) := {
  cpu : T -> Z;
  memory : T -> Z;
  disk_size : T -> Z;
  disk_type : T -> DiskType;
  disk_interface : T -> DiskInterface;
  cpu_mfg : T -> CpuMfg;
  cpu_arch : T -> CpuArch;
  cpu_features : T -> list CpuFeature
}.
#[export] Instance VmTemplate_Template : Template VmTemplate := {
  cpu := t_cpu; memory := t_memory; disk_size := t_disk_size; disk_type := t_disk_type;
  disk_interface := t_disk_interface; cpu_mfg := t_cpu_mfg; cpu_arch := t_cpu_arch;
  cpu_features := t_cpu_features
}.
#[export] Instance VmCustomTemplate_Template : Template VmCustomTemplate := {
  cpu := ct_cpu; memory := ct_memory; disk_size := ct_disk_size; disk_type := ct_disk_type;
  disk_interface := ct_disk_interface; cpu_mfg := ct_cpu_mfg; cpu_arch := ct_cpu_arch;
  cpu_features := ct_cpu_features
}.
