(* ===== verification/Capacity.v ===== *)
(** * What hosts and clusters have left
    ([lnvps_api_common/src/capacity.rs])

    [HostCapacityService] picks the host of a new VM and says what can be sold;
    [AppClusterCapacityService] does the same for managed apps. The database is
    a record of tables, its queries are the SQL of [lnvps_db/src/mysql.rs]. *)

From Stdlib Require Import String SpecFloat.
From S2P Require Import Prelude NetText IpAlloc Network HostTypes.

(** ** The tables *)
Record CapDb := {
  regions : gmap Z bool;                      (* id, enabled *)
  vm_hosts : list VmHost;
  host_disks : list VmHostDisk;
  vms : list Vm;
  vm_templates : list VmTemplate;
  custom_templates : gmap Z VmCustomTemplate;
  line_items : gmap Z Z;                      (* line item, subscription *)
  subscription_is_setup : gmap Z bool;
  net_db : NetDb
}.

Definition list_hosts (db : CapDb) : list VmHost :=
  filter (fun h => h_enabled h = true /\ regions db !! h_region_id h = Some true) (vm_hosts db).
Definition list_host_disks (db : CapDb) (host : Z) : list VmHostDisk :=
  filter (fun d => d_host_id d = host /\ d_enabled d = true) (host_disks db).
Definition list_vms_on_host (db : CapDb) (host : Z) : list Vm :=
  filter (fun v => v_deleted v = false /\ v_host_id v = host) (vms db).
Definition list_vm_templates (db : CapDb) : list VmTemplate :=
  filter (fun t => t_enabled t = true) (vm_templates db).
(** [get_subscription_by_line_item_id(..).map(|s| s.is_setup)] *)
Definition line_item_is_setup (db : CapDb) (line_item : Z) : option bool :=
  s ← line_items db !! line_item; subscription_is_setup db !! s.

(** ** Capacity of a host *)

Record DiskCapacity := { dc_load_factor : spec_float; disk : VmHostDisk; d_usage : Z }.
Record IPRangeCapacity := { rc_range : IpRange; r_usage : Z }.
Record LoadFactors := { lf_cpu : spec_float; lf_memory : spec_float; lf_disk : spec_float }.
Record HostCapacity := {
  load_factor : LoadFactors; host : VmHost; hc_cpu : Z; hc_memory : Z;
  disks : list DiskCapacity; ranges : list IPRangeCapacity
}.

Notation f32_of := (Flt.of_Z 24 128).
Notation f32_add := (Flt.add 24 128).
Notation f32_mul := (Flt.mul 24 128).
Notation f32_div := (Flt.div 24 128).
Notation f64_of := (Flt.of_Z 53 1024).
Notation f64_mul := (Flt.mul 53 1024).

Definition d_available_capacity (d : DiskCapacity) : Z :=
  let loaded_disk_size :=
    Flt.floor_to 64 (f64_mul (f64_of (d_size (disk d))) (Flt.widen (dc_load_factor d))) in
  sat_sub loaded_disk_size (d_usage d).
Definition d_load (d : DiskCapacity) : spec_float :=
  f32_mul (f32_div (f32_of (d_usage d)) (f32_of (d_size (disk d))))
    (f32_div (f32_of 1) (dc_load_factor d)).

Definition cpu_load (h : HostCapacity) : spec_float :=
  f32_div (f32_of (hc_cpu h)) (f32_mul (f32_of (h_cpu (host h))) (lf_cpu (load_factor h))).
Definition available_cpu (h : HostCapacity) : Z :=
  let loaded_host_cpu :=
    Flt.floor_to 16 (f32_mul (f32_of (h_cpu (host h))) (lf_cpu (load_factor h))) in
  sat_sub loaded_host_cpu (hc_cpu h).
Definition memory_load (h : HostCapacity) : spec_float :=
  f32_div (f32_of (hc_memory h)) (f32_mul (f32_of (h_memory (host h))) (lf_memory (load_factor h))).
Definition available_memory (h : HostCapacity) : Z :=
  let loaded_host_memory :=
    Flt.floor_to 64 (f64_mul (f64_of (h_memory (host h))) (Flt.widen (lf_memory (load_factor h)))) in
  sat_sub loaded_host_memory (hc_memory h).
Definition disk_load (h : HostCapacity) : spec_float :=
  f32_div (foldl (fun acc d => f32_add acc (d_load d)) (f32_of 0) (disks h))
    (f32_of (Z.of_nat (length (disks h)))).
(** Total average usage. *)
Definition load (h : HostCapacity) : spec_float :=
  f32_div (f32_add (f32_add (cpu_load h) (memory_load h)) (disk_load h)) (f32_of 3).

Section ranges.
Context `{!NetLib}.

Definition rc_is_ipv4 (r : IPRangeCapacity) : bool :=
  match parse_net (cidr (rc_range r)) with Some n => is_v4 n | None => false end.

(** [None]: the [unwrap] of the CIDR panics. *)
Definition available_capacity (r : IPRangeCapacity) : option Z :=
  net ← parse_net (cidr (rc_range r));
  let total := net_size net in
  let gw_reserved :=
    match parse_gateway (gateway (rc_range r)) with
    | Ok gw => if net_contains net (addr_of gw) then 1 else 0
    | Err _ => 0
    end in
  let boundary_reserved := if use_full_range (rc_range r) then 0 else 2 in
  Some (sat_sub (sat_sub (sat_sub total (r_usage r)) gw_reserved) boundary_reserved).

(** [r.is_ipv4() && r.available_capacity() >= 1]: the CIDR parses by then. *)
Definition has_free_ipv4 (r : IPRangeCapacity) : bool :=
  rc_is_ipv4 r && match available_capacity r with Some c => 1 <=? c | None => false end.

(** Can this host and its available capacity accommodate the given template *)
Definition can_accommodate {T} `{!Template T} (h : HostCapacity) (t : T) : bool :=
  let mfg_ok := bool_decide (cpu_mfg t = MfgUnknown) || bool_decide (h_cpu_mfg (host h) = cpu_mfg t) in
  let arch_ok := bool_decide (cpu_arch t = ArchUnknown) || bool_decide (h_cpu_arch (host h) = cpu_arch t) in
  let features_ok :=
    bool_decide (cpu_features t = []) ||
    forallb (fun f => bool_decide (f ∈ h_cpu_features (host h))) (cpu_features t) in
  mfg_ok && arch_ok && features_ok &&
  (cpu t <=? available_cpu h) && (memory t <=? available_memory h) &&
  existsb (fun d => disk_size t <=? d_available_capacity d) (disks h) &&
  existsb has_free_ipv4 (ranges h).
End ranges.

(** ** Measuring a host *)

Record VmResources := { vr_cpu : Z; vr_memory : Z; vr_disk : Z; vr_disk_id : Z }.

Section measure.
Context (db : CapDb).

(** [unwrap_or(false)] of the subscription's [is_setup]. *)
Definition is_paid (v : Vm) : bool :=
  default false (line_item_is_setup db (v_subscription_line_item_id v)).
Definition paid_vms (host_id : Z) : list Vm :=
  filter (fun v => v_deleted v = false /\ is_paid v = true) (list_vms_on_host db host_id).

(** The closure of the [filter_map]. *)
Definition resources_of (v : Vm) : option VmResources :=
  match v_template_id v with
  | Some x =>
      '(_, t) ← list_find (fun t => t_id t = x) (list_vm_templates db);
      Some {| vr_cpu := t_cpu t; vr_memory := t_memory t; vr_disk := t_disk_size t;
              vr_disk_id := v_disk_id v |}
  | None =>
      x ← v_custom_template_id v;
      t ← custom_templates db !! x;
      Some {| vr_cpu := ct_cpu t; vr_memory := ct_memory t; vr_disk := ct_disk_size t;
              vr_disk_id := v_disk_id v |}
  end.

(** [collect()] into a [HashMap] by VM id. *)
Definition vm_resources (host_id : Z) : gmap Z VmResources :=
  foldl (fun m v => match resources_of v with Some r => <[v_id v := r]> m | None => m end) ∅
    (paid_vms host_id).

Definition consumed (w : Z) (f : VmResources -> Z) (m : gmap Z VmResources) : Z :=
  map_fold (fun _ r acc => wadd w acc (f r)) 0 m.

(** [want.map(|t| x == t).unwrap_or(true)] *)
Definition wanted {A} `{!EqDecision A} (want : option A) (x : A) : bool :=
  match want with Some t => bool_decide (x = t) | None => true end.

(** [None]: comparing load factors that are not numbers panics. The disks of a
    host share its load factor, so the stable sort by it keeps their order. *)
Definition get_host_capacity (h : VmHost) (want_type : option DiskType)
    (want_interface : option DiskInterface) : option HostCapacity :=
  let vm_resources := vm_resources (h_id h) in
  let ip_ranges := list_ip_range_in_region (net_db db) (h_region_id h) in
  let ip_range_assigned :=
    ip_ranges ≫= (fun r => list_vm_ip_assignments_in_range (net_db db) (r_id r)) in
  let storage :=
    filter (fun d => wanted want_type (d_kind d) && wanted want_interface (d_interface d) = true)
      (list_host_disks db (h_id h)) in
  let storage_disks :=
    (fun s => {| dc_load_factor := load_disk h; disk := s;
                 d_usage := consumed 64 vr_disk
                   (filter (fun kv => d_id s = vr_disk_id kv.2) vm_resources) |}) <$> storage in
  if Flt.is_nan (load_disk h) && (1 <? length storage_disks)%nat then None else
  Some {|
    load_factor := {| lf_cpu := load_cpu h; lf_memory := load_memory h; lf_disk := load_disk h |};
    host := h;
    hc_cpu := consumed 16 vr_cpu vm_resources;
    hc_memory := consumed 64 vr_memory vm_resources;
    disks := storage_disks;
    ranges := (fun r => {| rc_range := r;
      r_usage := Z.of_nat (length (filter (fun z => ip_range_id z = r_id r) ip_range_assigned)) |})
      <$> ip_ranges
  |}.

(** ** Choosing a host *)

Inductive CapacityError : Type := NoAvailableHosts | Panicked.

(** [sort_by(load)]: stable; comparing with a NaN panics. *)
Fixpoint insert_by_load (h : HostCapacity) (l : list HostCapacity) : list HostCapacity :=
  match l with
  | [] => [h]
  | x :: l' => if Flt.le (load h) (load x) then h :: l else x :: insert_by_load h l'
  end.
Definition sort_by_load (l : list HostCapacity) : list HostCapacity := foldr insert_by_load [] l.
Definition sort_panics (l : list HostCapacity) : bool :=
  (1 <? length l)%nat && existsb (fun h => Flt.is_nan (load h)) l.

Context `{!NetLib}.

(** Pick a host for the purposes of provisioning a new VM *)
Definition get_host_for_template {T} `{!Template T} (region : Z) (t : T)
  : res CapacityError HostCapacity :=
  let hosts := filter (fun h => h_region_id h = region) (list_hosts db) in
  match mapM (fun h => get_host_capacity h (Some (disk_type t)) (Some (disk_interface t))) hosts with
  | None => Err Panicked
  | Some caps =>
      let host_cap := filter (fun c => can_accommodate c t = true) caps in
      if sort_panics host_cap then Err Panicked else
      match sort_by_load host_cap with
      | f :: _ => Ok f
      | [] => Err NoAvailableHosts
      end
  end.

(** List templates which can be sold, based on available capacity *)
Definition list_available_vm_templates : option (list VmTemplate) :=
  caps ← mapM (fun h => get_host_capacity h None None) (list_hosts db);
  Some (filter (fun t =>
      existsb (fun c => (t_region_id t =? h_region_id (host c)) && can_accommodate c t) caps = true)
    (list_vm_templates db)).

(** ** Limits of custom templates *)

Record ApiCustomTemplateDiskParam := {
  min_disk : Z; max_disk : Z; p_disk_type : DiskType; p_disk_interface : DiskInterface
}.
Record ApiCustomTemplateParams := {
  p_id : Z; p_region_id : Z; p_cpu_features : list string;
  p_cpu_mfg : option string; p_cpu_arch : option string;
  max_cpu : Z; min_cpu : Z; min_memory : Z; max_memory : Z;
  p_disks : list ApiCustomTemplateDiskParam
}.

(** The filter [hosts_in_region]. *)
Definition host_matches (t : ApiCustomTemplateParams) (c : HostCapacity) : bool :=
  (h_region_id (host c) =? p_region_id t) &&
  match p_cpu_mfg t with
  | Some m => bool_decide (h_cpu_mfg (host c) = MfgUnknown) || String.eqb (mfg_string (h_cpu_mfg (host c))) m
  | None => true
  end &&
  match p_cpu_arch t with
  | Some a => bool_decide (h_cpu_arch (host c) = ArchUnknown) || String.eqb (arch_string (h_cpu_arch (host c))) a
  | None => true
  end &&
  (bool_decide (p_cpu_features t = []) ||
   forallb (fun f => existsb (fun hf => String.eqb (feature_string hf) f) (h_cpu_features (host c)))
     (p_cpu_features t)).

Definition host_has_ipv4 (c : HostCapacity) : bool := existsb has_free_ipv4 (ranges c).
Definition disk_matches (d : ApiCustomTemplateDiskParam) (c : DiskCapacity) : bool :=
  bool_decide (d_kind (disk c) = p_disk_type d) && bool_decide (d_interface (disk c) = p_disk_interface d).
(** [.max().unwrap_or(0)] of unsigned numbers. *)
Definition max_or_0 (l : list Z) : Z := foldr Z.max 0 l.

(** Hosts that match, have an address, and can serve the minimum. *)
Definition serving (t : ApiCustomTemplateParams) (caps : list HostCapacity) : list HostCapacity :=
  filter (fun c => host_matches t c && host_has_ipv4 c && (min_cpu t <=? available_cpu c) &&
                   (min_memory t <=? available_memory c) = true) caps.

Definition limit_disk (t : ApiCustomTemplateParams) (caps : list HostCapacity)
    (d : ApiCustomTemplateDiskParam) : ApiCustomTemplateDiskParam :=
  let max_disk_size :=
    max_or_0 (d_available_capacity <$>
      (serving t caps ≫= (fun c => filter (fun x => disk_matches d x = true) (disks c)))) in
  {| min_disk := min_disk d; max_disk := Z.min (max_disk d) max_disk_size;
     p_disk_type := p_disk_type d; p_disk_interface := p_disk_interface d |}.

(** The hosts [servable_max] looks at: those that also serve one of the disks
    [ds] the template still offers. *)
Definition offering (t : ApiCustomTemplateParams) (ds : list ApiCustomTemplateDiskParam)
    (caps : list HostCapacity) : list HostCapacity :=
  filter (fun c =>
      existsb (fun d => existsb (fun x => disk_matches d x && (min_disk d <=? d_available_capacity x))
        (disks c)) ds = true)
    (serving t caps).

(** The body of the loop over the templates. *)
Definition limit_template (caps : list HostCapacity) (t : ApiCustomTemplateParams)
  : ApiCustomTemplateParams :=
  let ds := filter (fun d => (min_disk d <=? max_disk d) && (0 <? max_disk d) = true)
    (limit_disk t caps <$> p_disks t) in
  let servable (select : HostCapacity -> Z) : Z := max_or_0 (select <$> offering t ds caps) in
  {| p_id := p_id t; p_region_id := p_region_id t; p_cpu_features := p_cpu_features t;
     p_cpu_mfg := p_cpu_mfg t; p_cpu_arch := p_cpu_arch t;
     max_cpu := Z.min (max_cpu t) (wrap 16 (servable available_cpu)); min_cpu := min_cpu t;
     min_memory := min_memory t; max_memory := Z.min (max_memory t) (servable available_memory);
     p_disks := ds |}.

Definition apply_host_capacity_limits (templates : list ApiCustomTemplateParams)
  : option (list ApiCustomTemplateParams) :=
  if bool_decide (templates = []) then Some [] else
  let region_ids := p_region_id <$> templates in
  caps ← mapM (fun h => get_host_capacity h None None)
    (filter (fun h => h_region_id h ∈ region_ids) (list_hosts db));
  Some (filter (fun t => (0 <? max_cpu t) && (0 <? max_memory t) && negb (bool_decide (p_disks t = [])) = true)
    (limit_template caps <$> templates)).
End measure.

(** ** Clusters of managed apps *)
Module AppClusters.

Record AppCapacity := { cpu_milli : Z; memory_bytes : Z; storage_bytes : Z }.
Record App := { app_id : Z; app_need : AppCapacity }.
Record AppCluster := {
  cl_id : Z; cl_region_id : Z; ingress_domain : string; cl_enabled : bool; capacity : AppCapacity
}.
Record AppDeployment := { dep_app_id : Z; dep_cluster_id : Z; dep_deleted : bool }.
Record AppDb := { apps : list App; clusters : list AppCluster; deployments : list AppDeployment }.

Definition list_app_clusters (enabled_only : bool) (db : AppDb) : list AppCluster :=
  filter (fun c => negb enabled_only || cl_enabled c = true) (clusters db).
Definition get_app_cluster (db : AppDb) (id : Z) : option AppCluster :=
  snd <$> list_find (fun c => cl_id c = id) (clusters db).
Definition list_all_app_deployments (db : AppDb) : list AppDeployment :=
  filter (fun d => dep_deleted d = false) (deployments db).

Definition add_footprint (used a : AppCapacity) : AppCapacity :=
  {| cpu_milli := wadd 64 (cpu_milli used) (cpu_milli a);
     memory_bytes := wadd 64 (memory_bytes used) (memory_bytes a);
     storage_bytes := wadd 64 (storage_bytes used) (storage_bytes a) |}.
Definition no_capacity : AppCapacity := {| cpu_milli := 0; memory_bytes := 0; storage_bytes := 0 |}.

Definition used (db : AppDb) (cluster_id : Z) : AppCapacity :=
  let index : gmap Z App := foldl (fun m a => <[app_id a := a]> m) ∅ (apps db) in
  foldl (fun used d =>
    if dep_cluster_id d =? cluster_id then
      match index !! dep_app_id d with
      | Some a => add_footprint used (app_need a)
      | None => used
      end
    else used) no_capacity (list_all_app_deployments db).

(** [None]: no such cluster. *)
Definition available (db : AppDb) (cluster_id : Z) : option AppCapacity :=
  cluster ← get_app_cluster db cluster_id;
  let u := used db cluster_id in
  Some {| cpu_milli := sat_sub (cpu_milli (capacity cluster)) (cpu_milli u);
          memory_bytes := sat_sub (memory_bytes (capacity cluster)) (memory_bytes u);
          storage_bytes := sat_sub (storage_bytes (capacity cluster)) (storage_bytes u) |}.

Definition within (need avail : AppCapacity) : bool :=
  (cpu_milli need <=? cpu_milli avail) && (memory_bytes need <=? memory_bytes avail) &&
  (storage_bytes need <=? storage_bytes avail).
Definition fits (db : AppDb) (cluster_id : Z) (need : AppCapacity) : option bool :=
  avail ← available db cluster_id; Some (within need avail).

(** The [for] of [select_in_region]; the [?] of [fits] ends it. *)
Fixpoint select_loop (db : AppDb) (region : Z) (need : AppCapacity) (l : list AppCluster)
  : option (option AppCluster) :=
  match l with
  | [] => Some None
  | c :: l =>
      if cl_region_id c =? region then
        ok ← fits db (cl_id c) need;
        if (ok : bool) then Some (Some c) else select_loop db region need l
      else select_loop db region need l
  end.
Definition select_in_region (db : AppDb) (region : Z) (need : AppCapacity) : option (option AppCluster) :=
  select_loop db region need (list_app_clusters true db).

Record AppRegionAvailability := { ra_region_id : Z; ra_available : bool; ra_ingress_domain : string }.

(** The distinct regions, in the order they are met. *)
Definition region_ids (l : list AppCluster) : list Z :=
  foldl (fun ids c => if bool_decide (cl_region_id c ∈ ids) then ids else ids ++ [cl_region_id c]) [] l.

(** The first cluster of a region that fits. *)
Fixpoint choose_loop (db : AppDb) (need : AppCapacity) (l : list AppCluster)
  : option (option AppCluster) :=
  match l with
  | [] => Some None
  | c :: l =>
      ok ← fits db (cl_id c) need;
      if (ok : bool) then Some (Some c) else choose_loop db need l
  end.

Definition region_availability (db : AppDb) (need : AppCapacity) (l : list AppCluster) (rid : Z)
  : option (option AppRegionAvailability) :=
  let region_clusters := filter (fun c => cl_region_id c = rid) l in
  fit ← choose_loop db need region_clusters;
  let chosen := match fit with Some c => Some c | None => head region_clusters end in
  Some ((fun c => {| ra_region_id := rid; ra_available := bool_decide (is_Some fit);
                     ra_ingress_domain := ingress_domain c |}) <$> chosen).

Definition regions_availability (db : AppDb) (need : AppCapacity) : option (list AppRegionAvailability) :=
  let l := list_app_clusters true db in
  omap (fun x => x) <$> mapM (region_availability db need l) (region_ids l).

(** *** What [used] adds up *)
Section apps.
Context (db : AppDb).

(** The footprint of a deployment on a cluster; nothing for an unknown app. *)
Definition footprint (f : AppCapacity -> Z) (d : AppDeployment) : Z :=
  match (foldl (fun m a => <[app_id a := a]> m) (∅ : gmap Z App) (apps db)) !! dep_app_id d with
  | Some a => f (app_need a)
  | None => 0
  end.
Definition live_on (cluster_id : Z) : list AppDeployment :=
  filter (fun d => dep_cluster_id d = cluster_id) (list_all_app_deployments db).
Definition total (f : AppCapacity -> Z) (l : list AppDeployment) : Z :=
  foldr (fun d acc => footprint f d + acc) 0 l.
End apps.
End AppClusters.
