(* ===== verification/CapacityProofs.v ===== *)
(** * Capacity: what admission guarantees

    Theorems about [Capacity]: a host chosen for a template has room for it and
    an address to give; the measured consumption is what the paid VMs use; the
    advertised limits can be served; app placement agrees with the region
    picker. *)

From Stdlib Require Import String SpecFloat.
From S2P Require Import Prelude NetText IpAlloc Network HostTypes Capacity.

(** ** Floating-point order *)

(** The order as a lexicographic one: sign and size class, exponent, mantissa. *)
Definition le_key (a b : spec_float) : Prop :=
  match a, b with
  | S754_nan, _ | _, S754_nan => False
  | S754_infinity true, _ | _, S754_infinity false => True
  | S754_infinity false, _ | _, S754_infinity true => False
  | S754_zero _, S754_zero _ => True
  | S754_zero _, S754_finite s _ _ => s = false
  | S754_finite s _ _, S754_zero _ => s = true
  | S754_finite true _ _, S754_finite false _ _ => True
  | S754_finite false _ _, S754_finite true _ _ => False
  | S754_finite false m1 e1, S754_finite false m2 e2 => e1 < e2 \/ (e1 = e2 /\ (m1 <= m2)%positive)
  | S754_finite true m1 e1, S754_finite true m2 e2 => e2 < e1 \/ (e1 = e2 /\ (m2 <= m1)%positive)
  end.

Lemma le_spec a b : Flt.le a b = true <-> le_key a b.
Proof.
  unfold Flt.le, SFleb.
  destruct a as [sa|[]| |[] ma ea], b as [sb|[]| |[] mb eb]; cbn; try (split; (done || congruence)).
  - change (Pos.compare_cont Eq ma mb) with (Pos.compare ma mb).
    destruct (Z.compare_spec ea eb); [destruct (Pos.compare_spec ma mb)|..]; cbn; split; intros; try done; lia.
  - change (Pos.compare_cont Eq ma mb) with (Pos.compare ma mb).
    destruct (Z.compare_spec ea eb); [destruct (Pos.compare_spec ma mb)|..]; cbn; split; intros; try done; lia.
Qed.

Lemma le_trans a b c : Flt.le a b = true -> Flt.le b c = true -> Flt.le a c = true.
Proof.
  rewrite !le_spec.
  destruct a as [sa|[]| |[] ma ea], b as [sb|[]| |[] mb eb], c as [sc|[]| |[] mc ec];
    cbn; try done; try congruence; lia.
Qed.
Lemma le_total a b : Flt.is_nan a = false -> Flt.is_nan b = false -> Flt.le a b = false ->
  Flt.le b a = true.
Proof.
  intros Ha Hb Hle. apply le_spec. destruct (Flt.le a b) eqn:E; [done|].
  assert (~ le_key a b) as Hn by (rewrite <- le_spec; congruence).
  destruct a as [sa|[]| |[] ma ea], b as [sb|[]| |[] mb eb]; cbn in *; try done;
    try (by destruct sa); try (by destruct sb); lia.
Qed.
Lemma le_refl a : Flt.is_nan a = false -> Flt.le a a = true.
Proof. intros Ha. apply le_spec. destruct a as [sa|[]| |[] ma ea]; cbn in *; try done; lia. Qed.

(** ** The chosen host is the least loaded *)

Lemma insert_by_load_perm h l : insert_by_load h l ≡ₚ h :: l.
Proof.
  induction l as [|x l IH]; cbn; [done|]. destruct (Flt.le _ _); [done|]. rewrite IH. apply Permutation_swap.
Qed.
Lemma sort_by_load_perm l : sort_by_load l ≡ₚ l.
Proof. induction l as [|x l IH]; cbn; [done|]. by rewrite insert_by_load_perm, IH. Qed.

Lemma sort_by_load_min l h t : Forall (fun c => Flt.is_nan (load c) = false) l ->
  sort_by_load l = h :: t -> Forall (fun c => Flt.le (load h) (load c) = true) l.
Proof.
  revert h t. induction l as [|x l IH]; intros h t Hl; [done|].
  change (sort_by_load (x :: l)) with (insert_by_load x (sort_by_load l)).
  apply Forall_cons in Hl as [Hx Hl]. destruct (sort_by_load l) as [|y l'] eqn:E.
  - intros [= <- _]. assert (l = []) as ->.
    { apply Permutation_nil_r. by rewrite <- (sort_by_load_perm l), E. }
    constructor; [by apply le_refl|constructor].
  - specialize (IH y l' Hl eq_refl). cbn.
    assert (y ∈ l) as Hy by (rewrite <- (sort_by_load_perm l), E; by left).
    destruct (Flt.le (load x) (load y)) eqn:Exy; intros [= <- _].
    + constructor; [by apply le_refl|]. eapply Forall_impl; [exact IH|]. intros c Hc. by eapply le_trans.
    + constructor; [|exact IH]. apply le_total; [done| |done].
      by apply (proj1 (Forall_forall _ _) Hl y).
Qed.

Lemma sort_by_load_nil l : sort_by_load l = [] <-> l = [].
Proof.
  split; [|by intros ->]. intros E. apply Permutation_nil_r. by rewrite <- (sort_by_load_perm l), E.
Qed.

Lemma sort_panics_false l : sort_panics l = false ->
  Forall (fun c => Flt.is_nan (load c) = false) l \/ length l = 1%nat.
Proof.
  unfold sort_panics. destruct l as [|x [|y l]]; [by left; constructor|by right|]. cbn [length Nat.ltb Nat.leb andb].
  intros E. left. apply Forall_forall. intros c Hc. destruct (Flt.is_nan (load c)) eqn:En; [|done].
  assert (existsb (fun h => Flt.is_nan (load h)) (x :: y :: l) = true) as Ht; [|congruence].
  apply existsb_exists. exists c. split; [by apply list_elem_of_In|done].
Qed.

(** ** What a host's consumption adds up to *)

Lemma wadd_fits w a b : 0 <= w -> fits w (wadd w a b).
Proof. apply wrap_fits. Qed.
Lemma wadd_swap w a b c : wadd w (wadd w a b) c = wadd w (wadd w a c) b.
Proof. unfold wadd, wrap. rewrite !Zplus_mod_idemp_l. f_equal. lia. Qed.

Lemma consumed_insert w f m k r : m !! k = None ->
  consumed w f (<[k := r]> m) = wadd w (consumed w f m) (f r).
Proof.
  intros Hk. unfold consumed.
  rewrite (map_fold_insert_L (fun _ r acc => wadd w acc (f r)) 0 k r m); [done| |done].
  intros. apply wadd_swap.
Qed.
Lemma consumed_fits w f m : 0 <= w -> fits w (consumed w f m).
Proof.
  intros Hw. induction m as [|k r m Hk IH] using map_ind.
  - unfold consumed. rewrite map_fold_empty. split; [lia|]. by apply Z.pow_pos_nonneg.
  - rewrite consumed_insert by done. by apply wadd_fits.
Qed.
Lemma consumed_filter w f (P : VmResources -> Prop) `{!forall r, Decision (P r)} m : 0 <= w ->
  consumed w f (filter (fun kv => P kv.2) m) =
  consumed w (fun r => if decide (P r) then f r else 0) m.
Proof.
  intros Hw. induction m as [|k r m Hk IH] using map_ind.
  - rewrite map_filter_empty. unfold consumed. by rewrite !map_fold_empty.
  - rewrite consumed_insert by done. destruct (decide (P r)).
    + rewrite map_filter_insert_True by done. rewrite consumed_insert; [by rewrite IH|].
      by apply map_lookup_filter_None_2; left.
    + rewrite map_filter_insert_False by done. rewrite delete_id by done. rewrite IH.
      unfold wadd. rewrite Z.add_0_r. symmetry. apply wrap_small. by apply consumed_fits.
Qed.

Section consumption.
Context (db : CapDb).

(** What the code counts for VMs: nothing for a VM whose template it does not find. *)
Definition counted (f : VmResources -> Z) (l : list Vm) : Z :=
  foldr (fun v acc => match resources_of db v with Some r => f r + acc | None => acc end) 0 l.

Lemma counted_app f l k : counted f (l ++ k) = counted f l + counted f k.
Proof.
  unfold counted. induction l as [|v l IH]; cbn [app foldr]; [done|]. destruct (resources_of db v); lia.
Qed.

Lemma counted_none f l : Forall (fun v => resources_of db v = None) l -> counted f l = 0.
Proof. induction 1 as [|v l Hv _ IH]; [done|]. unfold counted in *. cbn. by rewrite Hv. Qed.

Definition collect (m : gmap Z VmResources) (l : list Vm) : gmap Z VmResources :=
  foldl (fun m v => match resources_of db v with Some r => <[v_id v := r]> m | None => m end) m l.

Lemma collect_lookup m l k : (k ∉ v_id <$> l) -> collect m l !! k = m !! k.
Proof.
  revert m. induction l as [|v l IH]; intros m; [done|]. cbn. rewrite not_elem_of_cons. intros [Hv Hl].
  rewrite IH by done. destruct (resources_of db v); [|done]. by rewrite lookup_insert_ne.
Qed.

Lemma consumed_collect w f l : NoDup (v_id <$> l) ->
  consumed w f (collect ∅ l) = wrap w (counted f l).
Proof.
  induction l as [|v l IH] using rev_ind.
  - intros _. cbn. unfold consumed. rewrite map_fold_empty. symmetry. apply Zmod_0_l.
  - rewrite fmap_app, NoDup_app. intros (Hl & Hv & _). specialize (IH Hl).
    assert (v_id v ∉ v_id <$> l) as Hn by (intros Hin; by apply (Hv _ Hin); left).
    unfold collect in *. rewrite foldl_app, counted_app. cbn [foldl counted foldr].
    destruct (resources_of db v) as [r|].
    + rewrite consumed_insert; [|by rewrite (collect_lookup ∅ l)]. rewrite IH.
      unfold wadd, wrap. rewrite Zplus_mod_idemp_l. f_equal. lia.
    + rewrite IH. f_equal. lia.
Qed.

Lemma paid_vms_nodup h : NoDup (v_id <$> vms db) -> NoDup (v_id <$> paid_vms db h).
Proof. intros Hd. unfold paid_vms, list_vms_on_host. apply NoDup_map_filter, NoDup_map_filter, Hd. Qed.

Lemma consumed_vms w f h : NoDup (v_id <$> vms db) ->
  consumed w f (vm_resources db h) = wrap w (counted f (paid_vms db h)).
Proof. intros Hd. apply consumed_collect, paid_vms_nodup, Hd. Qed.

(** The disk space of the VMs on one disk. *)
Definition on_disk (d : Z) (r : VmResources) : Z := if decide (d = vr_disk_id r) then vr_disk r else 0.

(** What [get_host_capacity] reports. *)
Lemma get_host_capacity_spec h wt wi cap : NoDup (v_id <$> vms db) ->
  get_host_capacity db h wt wi = Some cap ->
  host cap = h /\
  load_factor cap = {| lf_cpu := load_cpu h; lf_memory := load_memory h; lf_disk := load_disk h |} /\
  hc_cpu cap = wrap 16 (counted vr_cpu (paid_vms db (h_id h))) /\
  hc_memory cap = wrap 64 (counted vr_memory (paid_vms db (h_id h))) /\
  (forall d, d ∈ disks cap ->
    disk d ∈ list_host_disks db (h_id h) /\ dc_load_factor d = load_disk h /\
    wanted wt (d_kind (disk d)) = true /\ wanted wi (d_interface (disk d)) = true /\
    d_usage d = wrap 64 (counted (on_disk (d_id (disk d))) (paid_vms db (h_id h)))) /\
  (forall r, r ∈ ranges cap -> rc_range r ∈ list_ip_range_in_region (net_db db) (h_region_id h) /\
    Z.of_nat (length (list_vm_ip_assignments_in_range (net_db db) (r_id (rc_range r)))) <= r_usage r).
Proof.
  intros Hd. unfold get_host_capacity. destruct (_ && _); [done|]. intros [= <-]. cbn.
  split; [done|]. split; [done|]. split; [by apply consumed_vms|]. split; [by apply consumed_vms|]. split.
  - intros d (s & -> & Hs)%list_elem_of_fmap. apply list_elem_of_filter in Hs as [Hw Hs]. zbool.
    cbn. split_and!; try done. 
    etrans; [exact (consumed_filter 64 vr_disk (fun r => d_id s = vr_disk_id r) _ ltac:(lia))|].
    by apply consumed_vms.
  - intros r (q & -> & Hq)%list_elem_of_fmap. split; [done|]. cbn. apply inj_le.
    apply list_elem_of_split in Hq as (l1 & l2 & ->).
    rewrite bind_app, bind_cons, !filter_app, !length_app.
    assert (filter (fun z => ip_range_id z = r_id q) (list_vm_ip_assignments_in_range (net_db db) (r_id q)) =
      list_vm_ip_assignments_in_range (net_db db) (r_id q)) as ->; [|lia].
    unfold list_vm_ip_assignments_in_range. rewrite list_filter_filter. apply list_filter_iff. naive_solver.
Qed.
End consumption.

(** ** Admission *)

Lemma sat_sub_room a b x : 0 < x -> x <= sat_sub a b -> b + x <= a.
Proof. unfold sat_sub. lia. Qed.

Section admission.
Context `{NL : !NetLib} (db : CapDb).

(** What a host offers: its size times its load factor, rounded down. *)
Definition loaded_cpu (h : VmHost) : Z := Flt.floor_to 16 (f32_mul (f32_of (h_cpu h)) (load_cpu h)).
Definition loaded_memory (h : VmHost) : Z :=
  Flt.floor_to 64 (f64_mul (f64_of (h_memory h)) (Flt.widen (load_memory h))).
Definition loaded_disk (h : VmHost) (d : VmHostDisk) : Z :=
  Flt.floor_to 64 (f64_mul (f64_of (d_size d)) (Flt.widen (load_disk h))).

(** The sums do not overflow. *)
Definition sums_fit (h : VmHost) : Prop :=
  Prelude.fits 16 (counted db vr_cpu (paid_vms db (h_id h))) /\
  Prelude.fits 64 (counted db vr_memory (paid_vms db (h_id h))) /\
  forall d, d ∈ list_host_disks db (h_id h) ->
    Prelude.fits 64 (counted db (on_disk (d_id d)) (paid_vms db (h_id h))).

(** What a VM was sold with: the row its template has, on sale or not. *)
Definition sold_with (v : Vm) : option VmResources :=
  match v_template_id v with
  | Some x =>
      '(_, t) ← list_find (fun t => t_id t = x) (vm_templates db);
      Some {| vr_cpu := t_cpu t; vr_memory := t_memory t; vr_disk := t_disk_size t;
              vr_disk_id := v_disk_id v |}
  | None => resources_of db v
  end.
Definition demand (f : VmResources -> Z) (l : list Vm) : Z :=
  foldr (fun v acc => from_option f 0 (sold_with v) + acc) 0 l.
(** The paid VMs of a host whose template is off sale. *)
Definition off_sale (v : Vm) : bool :=
  match v_template_id v with
  | Some x =>
      match list_find (fun t => t_id t = x) (vm_templates db) with
      | Some (_, t) => negb (t_enabled t)
      | None => false
      end
  | None => false
  end.
Definition off_sale_vms (h : VmHost) : list Vm := filter (fun v => off_sale v = true) (paid_vms db (h_id h)).

(** A lookup among the rows on sale. *)
Lemma find_on_sale (l : list VmTemplate) x : NoDup (t_id <$> l) ->
  snd <$> list_find (fun t => t_id t = x) (filter (fun t => t_enabled t = true) l) =
  '(_, t) ← list_find (fun t => t_id t = x) l; if t_enabled t then Some t else None.
Proof.
  induction l as [|t l IH]; [done|]. cbn [fmap list_fmap]. intros [Ht Hl]%NoDup_cons. rewrite filter_cons.
  destruct (t_enabled t) eqn:Een; cbn [decide].
  - rewrite decide_True by done. cbn. destruct (decide (t_id t = x)) as [E|E].
    + cbn. by rewrite Een.
    + specialize (IH Hl). destruct (list_find _ (filter _ l)) as [[i u]|], (list_find _ l) as [[j u']|]; cbn in *; done.
  - rewrite decide_False by done. cbn. destruct (decide (t_id t = x)) as [E|E]; cbn.
    + rewrite Een. rewrite (IH Hl). destruct (list_find _ l) as [[j u]|] eqn:Ef; [|done]. exfalso.
      apply list_find_Some in Ef as (Hj & Hu & _). apply Ht. rewrite E, <- Hu.
      by eapply list_elem_of_fmap_2, list_elem_of_lookup_2.
    + rewrite (IH Hl). by destruct (list_find _ l) as [[j u]|].
Qed.
(** The code counts a VM unless its template is off sale. *)
Lemma counted_on_sale v : NoDup (t_id <$> vm_templates db) ->
  resources_of db v = if off_sale v then None else sold_with v.
Proof.
  intros Hd. unfold off_sale, sold_with, resources_of, list_vm_templates. destruct (v_template_id v) as [x|]; [|done].
  pose proof (find_on_sale (vm_templates db) x Hd) as Ef.
  destruct (list_find _ (filter _ _)) as [[i u]|], (list_find _ (vm_templates db)) as [[j u']|]; cbn in *;
    try destruct (t_enabled u') eqn:Een; cbn in *; by simplify_eq.
Qed.
Lemma demand_counted f l : NoDup (t_id <$> vm_templates db) ->
  demand f l = counted db f l + demand f (filter (fun v => off_sale v = true) l).
Proof.
  intros Hd. induction l as [|v l IH]; [done|]. rewrite filter_cons. cbn [demand counted foldr].
  fold (demand f l) (counted db f l). rewrite IH, (counted_on_sale v Hd).
  destruct (off_sale v) eqn:Eo.
  - rewrite decide_True by done. cbn [demand foldr]. unfold demand. lia.
  - rewrite decide_False by done. destruct (sold_with v); cbn; lia.
Qed.

Lemma chosen {T} `{!Template T} region (t : T) cap : get_host_for_template db region t = Ok cap ->
  exists caps, mapM (fun h => get_host_capacity db h (Some (disk_type t)) (Some (disk_interface t)))
      (filter (fun h => h_region_id h = region) (list_hosts db)) = Some caps /\
    cap ∈ caps /\ can_accommodate cap t = true /\
    (forall c, c ∈ caps -> can_accommodate c t = true -> c = cap \/ Flt.le (load cap) (load c) = true).
Proof.
  unfold get_host_for_template. destruct (mapM _ _) as [caps|]; [|done].
  set (fitting := filter _ caps). destruct (sort_panics fitting) eqn:Ep; [done|].
  destruct (sort_by_load fitting) as [|c l] eqn:Es; [done|]. intros [= ->].
  assert (cap ∈ fitting) as Hc by (rewrite <- (sort_by_load_perm fitting), Es; by left).
  apply list_elem_of_filter in Hc as [Hfit Hin]. exists caps. split_and!; try done.
  intros c Hc Hcf. assert (c ∈ fitting) as Hcin by (by apply list_elem_of_filter).
  destruct (sort_panics_false _ Ep) as [Hnan|Hone].
  - right. pose proof (sort_by_load_min _ _ _ Hnan Es) as Hmin. rewrite Forall_forall in Hmin. by apply Hmin.
  - left. assert (cap ∈ fitting) as Hcap by (by apply list_elem_of_filter).
    destruct fitting as [|x [|]]; try done. apply list_elem_of_singleton in Hcin, Hcap. congruence.
Qed.

(** The conjuncts of [can_accommodate]. *)
Lemma can_accommodate_spec {T} `{!Template T} (c : HostCapacity) (t : T) : can_accommodate c t = true ->
  (cpu_mfg t = MfgUnknown \/ h_cpu_mfg (host c) = cpu_mfg t) /\
  (cpu_arch t = ArchUnknown \/ h_cpu_arch (host c) = cpu_arch t) /\
  (forall f, f ∈ cpu_features t -> f ∈ h_cpu_features (host c)) /\
  cpu t <= available_cpu c /\ memory t <= available_memory c /\
  (exists d, d ∈ disks c /\ disk_size t <= d_available_capacity d) /\
  (exists r, r ∈ ranges c /\ has_free_ipv4 r = true).
Proof.
  unfold can_accommodate. rewrite !andb_true_iff, !orb_true_iff, !bool_decide_eq_true.
  rewrite !Z.leb_le. intros ((((((Hm & Ha) & Hf) & Hc) & Hmem) & Hd) & Hr). split_and!; try done.
  - intros f Hin. destruct Hf as [E|Hf]; [rewrite E in Hin; by apply not_elem_of_nil in Hin|].
    rewrite forallb_forall in Hf. apply list_elem_of_In in Hin. specialize (Hf f Hin).
    by apply bool_decide_eq_true in Hf.
  - apply existsb_exists in Hd as (d & Hin & Hd%Z.leb_le). exists d. by rewrite list_elem_of_In.
  - apply existsb_exists in Hr as (r & Hin & Hr). exists r. by rewrite list_elem_of_In.
Qed.

(** C14: admission is sound: the host chosen for a template is an enabled host of
    the region, of the CPU maker and architecture wanted and with the CPU features
    asked for, on which what its paid VMs were sold with and the template's request
    together stay within its load-factored cores, memory and the size of one of
    its disks of the wanted kind, but for the paid VMs whose template is off sale,
    which are not counted; and no other host that can take the template is less
    loaded. The keys of VMs and templates are unique, the template asks for
    something of each, and the code's own sums are assumed not to overflow. *)
Theorem host_admission {T} `{!Template T} region (t : T) cap (Hids : NoDup (v_id <$> vms db))
    (Htids : NoDup (t_id <$> vm_templates db)) (Hsums : forall h, h ∈ list_hosts db -> sums_fit h)
    (Hcpu : 0 < cpu t) (Hmem : 0 < memory t) (Hdisk : 0 < disk_size t)
    (Hok : get_host_for_template db region t = Ok cap) :
  let paid := paid_vms db (h_id (host cap)) in let uncounted := off_sale_vms (host cap) in
  host cap ∈ list_hosts db /\ h_region_id (host cap) = region /\
  (cpu_mfg t = MfgUnknown \/ h_cpu_mfg (host cap) = cpu_mfg t) /\
  (cpu_arch t = ArchUnknown \/ h_cpu_arch (host cap) = cpu_arch t) /\
  (forall f, f ∈ cpu_features t -> f ∈ h_cpu_features (host cap)) /\
  demand vr_cpu paid + cpu t <= loaded_cpu (host cap) + demand vr_cpu uncounted /\
  demand vr_memory paid + memory t <= loaded_memory (host cap) + demand vr_memory uncounted /\
  (exists d, d ∈ list_host_disks db (h_id (host cap)) /\
    d_kind d = disk_type t /\ d_interface d = disk_interface t /\
    demand (on_disk (d_id d)) paid + disk_size t <=
      loaded_disk (host cap) d + demand (on_disk (d_id d)) uncounted) /\
  (forall h c, h ∈ list_hosts db -> h_region_id h = region ->
    get_host_capacity db h (Some (disk_type t)) (Some (disk_interface t)) = Some c ->
    can_accommodate c t = true -> c = cap \/ Flt.le (load cap) (load c) = true).
Proof.
  intros paid uncounted.
  destruct (chosen region t cap Hok) as (caps & Hm & Hcap & Hfit & Hmin).
  apply mapM_Some in Hm. destruct (list_elem_of_lookup_1 _ _ Hcap) as [i Hi].
  destruct (Forall2_lookup_r _ _ _ _ _ Hm Hi) as (h & Hh & Eh).
  apply list_elem_of_lookup_2, list_elem_of_filter in Hh as [Hreg Hh].
  destruct (get_host_capacity_spec db h _ _ cap Hids Eh) as (E1 & E2 & E3 & E4 & Hds & _).
  destruct (Hsums h Hh) as (Hs1 & Hs2 & Hs3).
  destruct (can_accommodate_spec cap t Hfit) as (Hmf & Har & Hf & Hc & Hme & (d & Hd & Hsz) & _).
  unfold available_cpu in Hc. unfold available_memory in Hme. rewrite E2, E1 in Hc, Hme. rewrite E3 in Hc.
  rewrite E4 in Hme. rewrite wrap_small in Hc, Hme by done. unfold paid, uncounted, off_sale_vms. rewrite E1 in Hmf, Har, Hf |- *. split_and!; try done.
  - apply sat_sub_room in Hc; [|done]. rewrite demand_counted by done. unfold loaded_cpu. cbn [lf_cpu load_factor] in Hc. lia.
  - apply sat_sub_room in Hme; [|done]. rewrite demand_counted by done. unfold loaded_memory. cbn [lf_memory load_factor] in Hme. lia.
  - destruct (Hds d Hd) as (Hin & El & Hwt & Hwi & Eu). exists (disk d).
    apply bool_decide_eq_true in Hwt, Hwi. split_and!; try done.
    unfold d_available_capacity in Hsz. rewrite Eu, El, wrap_small in Hsz by (by apply Hs3).
    apply sat_sub_room in Hsz; [|done]. rewrite demand_counted by done. unfold loaded_disk. lia.
  - intros h' c Hh' Hreg' Ec Hcf. apply Hmin; [|done].
    assert (h' ∈ filter (fun h => h_region_id h = region) (list_hosts db)) as Hin
      by (by apply list_elem_of_filter).
    apply list_elem_of_lookup_1 in Hin as [j Hj].
    destruct (Forall2_lookup_l _ _ _ _ _ Hm Hj) as (c' & Hc' & Ec'). cbn in Ec'. rewrite Ec in Ec'.
    injection Ec' as <-. by eapply list_elem_of_lookup_2.
Qed.

(** The error "no available hosts" is exact: it is returned when, and only
    when, every enabled host of the region was measured and none can take the
    template. *)
Theorem no_host_error {T} `{!Template T} region (t : T) :
  get_host_for_template db region t = Err NoAvailableHosts <->
  forall h, h ∈ list_hosts db -> h_region_id h = region ->
    exists c, get_host_capacity db h (Some (disk_type t)) (Some (disk_interface t)) = Some c /\
      can_accommodate c t = false.
Proof.
  unfold get_host_for_template. set (hosts := filter _ (list_hosts db)).
  assert (forall h, h ∈ hosts <-> h ∈ list_hosts db /\ h_region_id h = region) as Hhosts.
  { intros h. unfold hosts. rewrite list_elem_of_filter. tauto. }
  destruct (mapM _ hosts) as [caps|] eqn:Em.
  - apply mapM_Some in Em. set (fitting := filter _ caps).
    transitivity (fitting = []).
    + split.
      * destruct (sort_panics fitting); [done|]. destruct (sort_by_load fitting) eqn:Es; [|done].
        intros _. by apply sort_by_load_nil.
      * by intros ->.
    + split.
      * intros Hnil h Hh Hr. assert (h ∈ hosts) as [j Hj]%list_elem_of_lookup_1 by (by apply Hhosts).
        destruct (Forall2_lookup_l _ _ _ _ _ Em Hj) as (c & Hc & Ec). exists c. split; [done|].
        destruct (can_accommodate c t) eqn:Efit; [|done]. exfalso.
        assert (c ∈ fitting) as Hin; [|rewrite Hnil in Hin; by apply not_elem_of_nil in Hin].
        apply list_elem_of_filter. split; [done|]. by eapply list_elem_of_lookup_2.
      * intros Hall. destruct fitting as [|c l] eqn:Ef; [done|]. exfalso.
        assert (c ∈ fitting) as Hc by (rewrite Ef; by left).
        apply list_elem_of_filter in Hc as [Hfit [j Hj]%list_elem_of_lookup_1].
        destruct (Forall2_lookup_r _ _ _ _ _ Em Hj) as (h & Hh & Eh).
        apply list_elem_of_lookup_2, Hhosts in Hh as [Hh Hr]. destruct (Hall h Hh Hr) as (c' & Ec' & Hno).
        cbn in Eh. congruence.
  - split; [done|]. intros Hall. exfalso. apply mapM_None, Exists_exists in Em as (h & Hh & En).
    apply Hhosts in Hh as [Hh Hr]. destruct (Hall h Hh Hr) as (c & Ec & _). congruence.
Qed.
End admission.

(** ** From admission to an address *)
Section address.
Context `{NL : !NetLib, LAWS : !NetLaws} (db : CapDb).

Lemma free_ipv4_count r gw : has_free_ipv4 r = true ->
  (forall net, parse_net (cidr (rc_range r)) = Some net -> 1 <= prefix net) ->
  parse_gateway (gateway (rc_range r)) = Ok gw -> 0 <= r_usage r ->
  exists net c, parse_net (cidr (rc_range r)) = Some net /\ is_v4 net = true /\
    count_available_ips (rc_range r) (r_usage r) = Some c /\ 1 <= c /\ r_usage r + 3 < 2 ^ 32.
Proof.
  unfold has_free_ipv4, rc_is_ipv4, available_capacity, count_available_ips. intros Hfree Hp Hgw Hu.
  destruct (parse_net _) as [net|] eqn:En; [|done]. pose proof (parse_net_wf _ _ En) as Hn.
  specialize (Hp net eq_refl). destruct (is_v4 net) eqn:Ev; [|done]. cbn in Hfree. rewrite Hgw in Hfree |- *.
  apply Z.leb_le in Hfree. eexists net, _. split_and!; [done|done|done| |].
  - unfold sat_sub in *. destruct (net_contains _ _), (use_full_range _); lia.
  - assert (net_size net <= 2 ^ 31).
    { rewrite net_size_pow by done. unfold host_bits. rewrite Ev. cbn [max_bits].
      apply Z.pow_le_mono_r; lia. }
    unfold sat_sub in Hfree. destruct (net_contains _ _), (use_full_range _); lia.
Qed.

(** What the ranges of a region must satisfy. *)
Definition range_ok (r : IpRange) : Prop :=
  (forall net, parse_net (cidr r) = Some net -> 1 <= prefix net /\
    (is_v4 net = true -> allocation_mode r <> SlaacEui64)) /\
  (exists gw, parse_gateway (gateway r) = Ok gw) /\
  Z.of_nat (length (list_vm_ip_assignments_in_range (net_db db) (r_id r))) + 3 < 2 ^ 32 /\
  random_ends (net_db db) r.

(** C35: capacity and address allocation agree: on a host that was chosen for a
    template, picking addresses for the region returns, and with an IPv4
    address, in whatever order the ranges are tried. *)
Theorem chosen_host_gets_ipv4 `{!Rand} {T} `{!Template T} region (t : T) cap shuffle
    (Hd : draws_fit) (Hfair : draws_fair) (Hsh : forall l, shuffle l ≡ₚ l)
    (Hids : NoDup (v_id <$> vms db))
    (Hranges : forall r, r ∈ list_ip_range_in_region (net_db db) region -> range_ok r)
    (Hok : get_host_for_template db region t = Ok cap) :
  exists fuel ret, pick_ip_for_region shuffle fuel (net_db db) region = Some (Ok ret) /\ is_Some (ip4 ret).
Proof.
  destruct (chosen db region t cap Hok) as (caps & Hm & Hcap & Hfit & _).
  apply mapM_Some in Hm. destruct (list_elem_of_lookup_1 _ _ Hcap) as [i Hi].
  destruct (Forall2_lookup_r _ _ _ _ _ Hm Hi) as (h & Hh & Eh).
  apply list_elem_of_lookup_2, list_elem_of_filter in Hh as [Hreg Hh].
  destruct (get_host_capacity_spec db h _ _ cap Hids Eh) as (_ & _ & _ & _ & _ & Hrc).
  destruct (can_accommodate_spec cap t Hfit) as (_ & _ & _ & _ & _ & _ & (rc & Hin & Hfree)).
  destruct (Hrc rc Hin) as [Hr Hu]. rewrite Hreg in Hr.
  destruct (Hranges _ Hr) as (Hp & [gw Hgw] & _ & _).
  destruct (free_ipv4_count rc gw Hfree) as (net & c & En & Ev & Ec & Hc & Hsz);
    [intros; by apply Hp|done|lia|].
  destruct (count_pickable (net_db db) (rc_range rc) gw (r_usage rc) c Hd Hfair) as (f & a & Hpick);
    [intros; by apply Hp|done|by eapply Hp|done|done|done|done|].
  unfold pick_ip_for_region, pick_ip_kind_for_region.
  set (ranges := list_ip_range_in_region (net_db db) region) in *.
  rewrite bool_decide_false by (intros E; rewrite E in Hr; by apply not_elem_of_nil in Hr).
  set (kept := filter _ ranges).
  assert (forall r, r ∈ shuffle kept -> r ∈ ranges /\ is_Some (parse_net (cidr r))) as Hkept.
  { intros r. rewrite (Hsh kept). unfold kept. rewrite list_elem_of_filter. unfold kind_keeps.
    intros [Hk Hin']. split; [done|]. destruct (parse_net (cidr r)); [eauto|done]. }
  destruct (pick_loop_returns (net_db db) (shuffle kept) {| ip4 := None; ip6 := None |})
    as (f' & ret & Eloop & Hsome).
  - intros r Hrk. by apply Hkept.
  - intros r Hrk. destruct (Hkept r Hrk) as [Hrr _]. destruct (Hranges r Hrr) as (Hpr & _ & Hszr & Hends).
    apply pick_returns; [done|done|intros; by apply Hpr|done|done].
  - exists f', ret. rewrite Eloop. destruct Hsome as [a' Ha'].
    { right. exists (rc_range rc), net, f, a. split_and!; [|done|done|by apply Hpick].
      rewrite (Hsh kept). apply list_elem_of_filter. split; [|done]. unfold kind_keeps. rewrite En.
      by destruct (is_v4 net). }
    rewrite Ha', (bool_decide_false (Some a' = None)) by done. cbn. split; [done|by eexists].
Qed.
End address.

(** ** Templates taken off sale *)

(** Only templates on sale are looked up, so a paid VM whose template was
    taken off sale counts for nothing: the capacity of its host is reported as
    if the VM were not there. *)
Theorem disabled_template_not_counted db h wt wi (Hids : NoDup (v_id <$> vms db))
    (Hoff : forall v, v ∈ paid_vms db (h_id h) -> exists x, v_template_id v = Some x /\
      forall t, t ∈ vm_templates db -> t_id t = x -> t_enabled t = false) cap :
  get_host_capacity db h wt wi = Some cap ->
  hc_cpu cap = 0 /\ hc_memory cap = 0 /\ (forall d, d ∈ disks cap -> d_usage d = 0).
Proof.
  intros Hcap. destruct (get_host_capacity_spec db h wt wi cap Hids Hcap) as (_ & _ & -> & -> & Hd & _).
  assert (forall f, counted db f (paid_vms db (h_id h)) = 0) as Hzero.
  { intros f. apply counted_none.
    apply Forall_forall. intros v Hv. destruct (Hoff v Hv) as (x & Ex & Hx). unfold resources_of. rewrite Ex.
    destruct (list_find _ (list_vm_templates db)) as [[j t]|] eqn:Ef; [|done]. exfalso.
    apply list_find_Some in Ef as (Hj & Ht & _). apply list_elem_of_lookup_2 in Hj.
    apply list_elem_of_filter in Hj as [Hen Hin]. by rewrite (Hx t Hin Ht) in Hen. }
  rewrite !Hzero. split_and!; [done|done|]. intros d Hin. destruct (Hd d Hin) as (_ & _ & _ & _ & ->).
  by rewrite Hzero.
Qed.

(** ** Advertised limits *)
Section limits.
Context `{NL : !NetLib} (db : CapDb).

Lemma max_or_0_in l m : max_or_0 l = m -> 0 < m -> m ∈ l.
Proof.
  intros <-. induction l as [|x l IH]; cbn; [lia|]. intros Hpos.
  destruct (Z.max_spec x (max_or_0 l)) as [[Hlt E]|[Hle E]]; unfold max_or_0 in *; rewrite E in Hpos |- *.
  - right. by apply IH.
  - by left.
Qed.

Lemma max_or_0_attained {A} (f : A -> Z) (l : list A) : 0 < max_or_0 (f <$> l) ->
  exists x, x ∈ l /\ f x = max_or_0 (f <$> l).
Proof. intros Hpos. pose proof (max_or_0_in _ _ eq_refl Hpos) as (x & E & Hx)%list_elem_of_fmap. eauto. Qed.

(** A host that matches the template and serves its minimum, with an address. *)
Definition serves (t : ApiCustomTemplateParams) (c : HostCapacity) : Prop :=
  host_matches t c = true /\ host_has_ipv4 c = true /\ min_cpu t <= available_cpu c /\
  min_memory t <= available_memory c.

Lemma serving_in t caps c : c ∈ serving t caps <-> c ∈ caps /\ serves t c.
Proof.
  unfold serving, serves. rewrite list_elem_of_filter, !andb_true_iff, !Z.leb_le. tauto.
Qed.

Lemma available_cpu_fits c : 0 <= hc_cpu c -> Prelude.fits 16 (available_cpu c).
Proof.
  intros Hc. unfold available_cpu, sat_sub, Prelude.fits.
  assert (Flt.floor_to 16 (f32_mul (f32_of (h_cpu (host c))) (lf_cpu (load_factor c))) < 2 ^ 16).
  { unfold Flt.floor_to. destruct (f32_mul _ _) as [| [] | | [] ]; lia. }
  lia.
Qed.

(** A host that serves the minimum and has room for the minimum of a disk the
    template offers. *)
Definition offers (t : ApiCustomTemplateParams) (c : HostCapacity) : Prop :=
  serves t c /\ exists d x, d ∈ p_disks t /\ x ∈ disks c /\ disk_matches d x = true /\
    min_disk d <= d_available_capacity x.

Lemma limit_template_spec caps t : Forall (fun c => 0 <= hc_cpu c) caps ->
  let t' := limit_template caps t in
  0 < max_cpu t' -> 0 < max_memory t' ->
  max_cpu t' <= max_cpu t /\ max_memory t' <= max_memory t /\
  (exists c, c ∈ caps /\ offers t' c /\ max_cpu t' <= available_cpu c) /\
  (exists c, c ∈ caps /\ offers t' c /\ max_memory t' <= available_memory c) /\
  (forall d, d ∈ p_disks t' -> min_disk d <= max_disk d /\ 0 < max_disk d /\
    exists c x, c ∈ caps /\ serves t' c /\ x ∈ disks c /\ disk_matches d x = true /\
      max_disk d <= d_available_capacity x).
Proof.
  intros Hcaps t' Hc Hm.
  assert (forall c, c ∈ serving t caps -> c ∈ caps /\ serves t' c) as Hserv
    by (intros c Hin; by apply serving_in in Hin).
  assert (forall c, c ∈ offering t (p_disks t') caps -> c ∈ caps /\ offers t' c) as Hoff.
  { intros c [He Hin]%list_elem_of_filter. apply Hserv in Hin as [Hin Hs]. split; [done|]. split; [done|].
    apply existsb_exists in He as (d & Hd & (x & Hx & Hxd)%existsb_exists). zbool.
    exists d, x. by rewrite !list_elem_of_In. }
  assert (max_cpu t' = Z.min (max_cpu t) (wrap 16 (max_or_0 (available_cpu <$> offering t (p_disks t') caps))))
    as Ecpu by done.
  assert (max_memory t' = Z.min (max_memory t) (max_or_0 (available_memory <$> offering t (p_disks t') caps)))
    as Emem by done.
  split_and!; [lia|lia| | |].
  - rewrite Ecpu in Hc. destruct (max_or_0_attained available_cpu (offering t (p_disks t') caps)) as (c & Hin & Ec).
    { match goal with |- 0 < ?x => destruct (Z.ltb_spec 0 x) as [|Hneg]; [done|] end.
      assert (forall l, 0 <= max_or_0 l) as Hnn by (intros l; induction l; cbn; unfold max_or_0 in *; lia).
      rewrite wrap_small in Hc; [lia|]. split; [apply Hnn|]. eapply Z.le_lt_trans; [exact Hneg|lia]. }
    exists c. destruct (Hoff c Hin) as [Hcin Ho]. split; [done|]. split; [exact Ho|].
    rewrite Ecpu, <- Ec. rewrite wrap_small; [lia|]. apply available_cpu_fits.
    by apply (proj1 (Forall_forall _ _) Hcaps c).
  - destruct (max_or_0_attained available_memory (offering t (p_disks t') caps)) as (c & Hin & Ec); [lia|].
    exists c. destruct (Hoff c Hin) as [Hcin Ho]. split; [done|]. split; [exact Ho|].
    rewrite Emem, <- Ec. lia.
  - intros d (Hd & (d0 & -> & _)%list_elem_of_fmap)%list_elem_of_filter. zbool. split; [done|]. split; [done|].
    cbn in *. destruct (max_or_0_attained d_available_capacity (serving t caps ≫=
      (fun c => filter (fun x => disk_matches d0 x = true) (disks c)))) as (x & Hx & Ex); [lia|].
    apply list_elem_of_bind in Hx as (c & [Hmx Hx]%list_elem_of_filter & Hin).
    apply Hserv in Hin as [Hin Hs]. exists c, x. split_and!; try done. rewrite Ex. lia.
Qed.

(** The limits that are advertised can be served: each maximum of a custom
    template that is left on offer, for CPU, memory and every disk, is within
    what some measured host has left, a host that matches the template, serves
    its minimum and has a free IPv4 address; no limit was raised. *)
Theorem limits_are_servable templates out t'
    (Hout : apply_host_capacity_limits db templates = Some out) (Ht : t' ∈ out) :
  exists t (caps : list HostCapacity), t ∈ templates /\ p_id t' = p_id t /\
    (forall c, c ∈ caps -> exists h, h ∈ list_hosts db /\ get_host_capacity db h None None = Some c) /\
    max_cpu t' <= max_cpu t /\ max_memory t' <= max_memory t /\
    (exists c, c ∈ caps /\ offers t' c /\ max_cpu t' <= available_cpu c) /\
    (exists c, c ∈ caps /\ offers t' c /\ max_memory t' <= available_memory c) /\
    p_disks t' <> [] /\
    (forall d, d ∈ p_disks t' -> min_disk d <= max_disk d /\ 0 < max_disk d /\
      exists c x, c ∈ caps /\ serves t' c /\ x ∈ disks c /\ disk_matches d x = true /\
        max_disk d <= d_available_capacity x).
Proof.
  unfold apply_host_capacity_limits in Hout.
  destruct (bool_decide (templates = [])). { injection Hout as <-. by apply not_elem_of_nil in Ht. }
  destruct (mapM _ _) as [caps|] eqn:Em; [|done]. cbn in Hout. injection Hout as <-.
  apply list_elem_of_filter in Ht as [Hb (t & -> & Ht)%list_elem_of_fmap]. zbool.
  apply mapM_Some in Em.
  assert (forall c, c ∈ caps -> exists h, h ∈ list_hosts db /\ get_host_capacity db h None None = Some c) as Hcap.
  { intros c [j Hj]%list_elem_of_lookup_1. destruct (Forall2_lookup_r _ _ _ _ _ Em Hj) as (h & Hh & Eh).
    apply list_elem_of_lookup_2, list_elem_of_filter in Hh as [_ Hh]. eauto. }
  exists t, caps. split; [done|]. split; [done|]. split; [done|].
  destruct (limit_template_spec caps t) as (E1 & E2 & E3 & E4 & E5); [|done|done|].
  { apply Forall_forall. intros c Hc. destruct (Hcap c Hc) as (h & _ & Eh). revert Eh.
    unfold get_host_capacity. destruct (_ && _); [done|]. intros [= <-]. cbn. apply consumed_fits. lia. }
  split_and!; try done.
  match goal with Hx : bool_decide _ = false |- _ => by apply bool_decide_eq_false in Hx end.
Qed.
End limits.

(** ** Managed apps *)
Module AppFacts.
Import AppClusters.

Section apps.
Context (db : AppDb).

Lemma total_app f l k : total db f (l ++ k) = total db f l + total db f k.
Proof. unfold total. induction l as [|d l IH]; cbn [app foldr]; lia. Qed.

(** The footprints of a list of deployments, added up with wrap-around. *)
Definition add_live (u : AppCapacity) (d : AppDeployment) : AppCapacity :=
  match (foldl (fun m a => <[app_id a := a]> m) (∅ : gmap Z App) (apps db)) !! dep_app_id d with
  | Some a => add_footprint u (app_need a)
  | None => u
  end.

Lemma used_live cluster : used db cluster = foldl add_live no_capacity (live_on db cluster).
Proof.
  unfold used, live_on. generalize (list_all_app_deployments db) as l. generalize no_capacity as u.
  intros u l. revert u. induction l as [|d l IH]; intros u; [done|]. cbn [foldl]. rewrite filter_cons.
  rewrite IH. destruct (Z.eqb_spec (dep_cluster_id d) cluster) as [E|E].
  - by rewrite decide_True by done.
  - by rewrite decide_False by done.
Qed.

Lemma add_live_total l :
  let u := foldl add_live no_capacity l in
  cpu_milli u = wrap 64 (total db cpu_milli l) /\ memory_bytes u = wrap 64 (total db memory_bytes l) /\
  storage_bytes u = wrap 64 (total db storage_bytes l).
Proof.
  induction l as [|d l IH] using rev_ind; [done|]. cbn zeta in *. rewrite foldl_app, !total_app.
  destruct IH as (E1 & E2 & E3). cbn [foldl]. unfold add_live at 1 3 5, total, footprint. cbn [foldr].
  destruct (_ !! dep_app_id d) as [a|].
  - cbn [cpu_milli memory_bytes storage_bytes add_footprint]. rewrite E1, E2, E3.
    unfold wadd, wrap, total, footprint. rewrite !Zplus_mod_idemp_l. rewrite !Z.add_0_r. done.
  - rewrite E1, E2, E3. unfold total, footprint. by rewrite !Z.add_0_r.
Qed.

(** The footprint of the live deployments of a cluster. *)
Definition allocated (f : AppCapacity -> Z) (cluster : Z) : Z := total db f (live_on db cluster).

Lemma used_allocated cluster :
  Prelude.fits 64 (allocated cpu_milli cluster) -> Prelude.fits 64 (allocated memory_bytes cluster) ->
  Prelude.fits 64 (allocated storage_bytes cluster) ->
  used db cluster = {| cpu_milli := allocated cpu_milli cluster;
    memory_bytes := allocated memory_bytes cluster; storage_bytes := allocated storage_bytes cluster |}.
Proof.
  intros. rewrite used_live. destruct (add_live_total (live_on db cluster)) as (E1 & E2 & E3).
  rewrite !wrap_small in E1, E2, E3 by done.
  destruct (foldl add_live no_capacity _). cbn in *. by subst.
Qed.

Lemma fits_listed c need : c ∈ list_app_clusters true db -> exists b, fits db (cl_id c) need = Some b.
Proof.
  intros [_ Hc]%list_elem_of_filter. unfold fits, available, get_app_cluster.
  destruct (list_find (fun c' => cl_id c' = cl_id c) (clusters db)) as [[i x]|] eqn:E; [cbn; eauto|].
  exfalso. apply list_find_None in E. rewrite Forall_forall in E. by apply (E c Hc).
Qed.

Lemma select_choose region need l :
  select_loop db region need l = choose_loop db need (filter (fun c => cl_region_id c = region) l).
Proof.
  induction l as [|c l IH]; [done|]. cbn [select_loop]. rewrite filter_cons.
  destruct (Z.eqb_spec (cl_region_id c) region).
  - rewrite decide_True by done. cbn [choose_loop]. by rewrite IH.
  - by rewrite decide_False by done.
Qed.

(** What the search over clusters finds. *)
Lemma choose_loop_spec need l : (forall c, c ∈ l -> exists b, fits db (cl_id c) need = Some b) ->
  exists r, choose_loop db need l = Some r /\
    match r with
    | Some c => c ∈ l /\ fits db (cl_id c) need = Some true
    | None => forall c, c ∈ l -> fits db (cl_id c) need = Some false
    end.
Proof.
  induction l as [|c l IH]; intros Hl; cbn [choose_loop].
  { exists None. split; [done|]. intros c Hc. by apply not_elem_of_nil in Hc. }
  destruct (Hl c) as [b Eb]; [by left|]. rewrite Eb. cbn. destruct b.
  { exists (Some c). split; [done|]. split; [by left|done]. }
  destruct IH as (r & Er & Hr); [intros; apply Hl; by right|]. exists r. split; [done|]. destruct r as [x|].
  - destruct Hr as [Hx Hf]. split; [by right|done].
  - intros x [->|Hx]%elem_of_cons; [done|by apply Hr].
Qed.

(** App placement is sound and complete: the cluster selected for an app is
    an enabled one of the region in which what its live deployments use and the
    app's footprint together stay within the configured capacity; when none is
    selected, every enabled cluster of the region lacks room. *)
Theorem app_placement region need (Hids : NoDup (cl_id <$> clusters db))
    (Hfit : forall c, c ∈ clusters db -> Prelude.fits 64 (allocated cpu_milli (cl_id c)) /\
      Prelude.fits 64 (allocated memory_bytes (cl_id c)) /\ Prelude.fits 64 (allocated storage_bytes (cl_id c)))
    (Hneed : 0 < cpu_milli need /\ 0 < memory_bytes need /\ 0 < storage_bytes need) :
  exists r, select_in_region db region need = Some r /\
    let room c :=
      allocated cpu_milli (cl_id c) + cpu_milli need <= cpu_milli (capacity c) /\
      allocated memory_bytes (cl_id c) + memory_bytes need <= memory_bytes (capacity c) /\
      allocated storage_bytes (cl_id c) + storage_bytes need <= storage_bytes (capacity c) in
    match r with
    | Some c => c ∈ list_app_clusters true db /\ cl_region_id c = region /\ room c
    | None => forall c, c ∈ list_app_clusters true db -> cl_region_id c = region -> ~ room c
    end.
Proof.
  assert (forall c b, c ∈ list_app_clusters true db -> fits db (cl_id c) need = Some b ->
    b = true <-> allocated cpu_milli (cl_id c) + cpu_milli need <= cpu_milli (capacity c) /\
      allocated memory_bytes (cl_id c) + memory_bytes need <= memory_bytes (capacity c) /\
      allocated storage_bytes (cl_id c) + storage_bytes need <= storage_bytes (capacity c)) as Hroom.
  { intros c b [_ Hc]%list_elem_of_filter. destruct (Hfit c Hc) as (F1 & F2 & F3).
    unfold fits, available. assert (get_app_cluster db (cl_id c) = Some c) as ->.
    { unfold get_app_cluster. destruct (list_find _ (clusters db)) as [[i x]|] eqn:E.
      - apply list_find_Some in E as (Hi & Ex & _). apply list_elem_of_lookup_2 in Hi. cbn. f_equal.
        by apply (NoDup_key cl_id (clusters db)).
      - exfalso. apply list_find_None in E. rewrite Forall_forall in E. by apply (E c Hc). }
    cbn. rewrite used_allocated by done. cbn. intros [= <-]. unfold within. cbn.
    unfold Prelude.fits in *. rewrite !andb_true_iff, !Z.leb_le. unfold sat_sub. lia. }
  unfold select_in_region. rewrite select_choose.
  destruct (choose_loop_spec need (filter (fun c => cl_region_id c = region) (list_app_clusters true db)))
    as (r & Er & Hr).
  { intros c [_ Hc]%list_elem_of_filter. by apply fits_listed. }
  exists r. split; [done|]. destruct r as [c|].
  - destruct Hr as [[Hreg Hc]%list_elem_of_filter Hf]. split; [done|]. split; [done|]. by apply (Hroom c true).
  - intros c Hc Hreg Hr'. assert (fits db (cl_id c) need = Some false) as Hf by (apply Hr, list_elem_of_filter; done).
    apply (Hroom c false Hc Hf) in Hr'. done.
Qed.

Lemma region_ids_elem l r : r ∈ region_ids l <-> exists c, c ∈ l /\ cl_region_id c = r.
Proof.
  unfold region_ids. induction l as [|c l IH] using rev_ind.
  { cbn. split; [by intros ?%not_elem_of_nil|by intros (c & ?%not_elem_of_nil & _)]. }
  rewrite foldl_app. cbn [foldl]. setoid_rewrite elem_of_app. setoid_rewrite list_elem_of_singleton.
  case_bool_decide as Hin; [|rewrite elem_of_app, list_elem_of_singleton]; rewrite IH; [|naive_solver].
  split; [naive_solver|]. intros (x & [Hx| ->] & <-); [eauto|]. by apply IH in Hin.
Qed.
Lemma region_ids_nodup l : NoDup (region_ids l).
Proof.
  unfold region_ids. induction l as [|c l IH] using rev_ind; [constructor|]. rewrite foldl_app. cbn [foldl].
  case_bool_decide as Hin; [done|]. apply NoDup_app. split_and!; [done| |apply NoDup_singleton].
  intros x Hx ->%list_elem_of_singleton. done.
Qed.

(** The region picker agrees with placement: it lists each region with an
    enabled cluster once, and shows it as available exactly when selecting a
    cluster there would succeed, with the domain of the cluster that would be
    selected. *)
Theorem picker_agrees need :
  exists l, regions_availability db need = Some l /\ NoDup (ra_region_id <$> l) /\
    (forall rid, rid ∈ ra_region_id <$> l <-> exists c, c ∈ list_app_clusters true db /\ cl_region_id c = rid) /\
    (forall a, a ∈ l ->
      match select_in_region db (ra_region_id a) need with
      | Some (Some c) => ra_available a = true /\ ra_ingress_domain a = ingress_domain c
      | _ => ra_available a = false
      end).
Proof.
  set (lst := list_app_clusters true db).
  assert (forall rid, (exists c, c ∈ lst /\ cl_region_id c = rid) ->
    exists a, region_availability db need lst rid = Some (Some a) /\ ra_region_id a = rid /\
      match select_in_region db rid need with
      | Some (Some c) => ra_available a = true /\ ra_ingress_domain a = ingress_domain c
      | _ => ra_available a = false
      end) as Hone.
  { intros rid (c0 & Hc0 & Hr0). unfold region_availability, select_in_region. rewrite select_choose. fold lst.
    destruct (choose_loop_spec need (filter (fun c => cl_region_id c = rid) lst)) as (r & Er & Hr).
    { intros c [_ Hc]%list_elem_of_filter. by apply fits_listed. }
    rewrite Er. cbn. destruct r as [c|]; cbn; [by eexists|].
    destruct (filter _ lst) as [|x xs] eqn:Ef; [|by eexists].
    exfalso. assert (c0 ∈ filter (fun c => cl_region_id c = rid) lst) as Hin by (by apply list_elem_of_filter).
    rewrite Ef in Hin. by apply not_elem_of_nil in Hin. }
  unfold regions_availability. fold lst.
  assert (forall ids, (forall rid, rid ∈ ids -> exists c, c ∈ lst /\ cl_region_id c = rid) ->
    exists l, mapM (region_availability db need lst) ids = Some (Some <$> l) /\ ra_region_id <$> l = ids /\
      Forall (fun a => match select_in_region db (ra_region_id a) need with
        | Some (Some c) => ra_available a = true /\ ra_ingress_domain a = ingress_domain c
        | _ => ra_available a = false
        end) l) as Hall.
  { induction ids as [|rid ids IH]; intros Hids; [by exists []|].
    destruct (Hone rid) as (a & Ea & Er & Ha); [apply Hids; by left|].
    destruct IH as (l & El & Eids & Hl); [intros; apply Hids; by right|].
    exists (a :: l). cbn [mapM]. rewrite Ea. cbn. rewrite El. cbn. split; [done|]. split; [by rewrite Er, Eids|].
    constructor; [by rewrite Er|done]. }
  destruct (Hall (region_ids lst)) as (l & El & Eids & Hl); [intros rid; apply region_ids_elem|].
  exists l. rewrite El. split.
  - cbn. f_equal. clear. induction l as [|a l IH]; [done|]. cbn. by f_equal.
  - rewrite Eids. split; [apply region_ids_nodup|]. split; [apply region_ids_elem|].
    by apply Forall_forall.
Qed.
End apps.
End AppFacts.

(** ** The theorems at a concrete host *)
Module CapWitness.
Import RefIpNet RefNet.

Definition one : spec_float := f32_of 1.
Definition two : spec_float := f32_of 2.
Definition GB : Z := 2 ^ 30.

Definition h1 : VmHost :=
  {| h_id := 1; h_region_id := 1; h_enabled := true; h_cpu := 4; h_cpu_mfg := Amd; h_cpu_arch := X86_64;
     h_cpu_features := [AVX2; AES]; h_memory := 8 * GB; load_cpu := two; load_memory := one; h_sunset_date := None;
     load_disk := one |}.
Definition d1 : VmHostDisk :=
  {| d_id := 1; d_host_id := 1; d_size := 100 * GB; d_kind := SSD; d_interface := PCIe; d_enabled := true |}.
Definition t1 (enabled : bool) : VmTemplate :=
  {| t_id := 1; t_enabled := enabled; t_region_id := 1; t_cpu := 2; t_memory := 2 * GB;
     t_disk_size := 40 * GB; t_disk_type := SSD; t_disk_interface := PCIe;
     t_cpu_mfg := MfgUnknown; t_cpu_arch := X86_64; t_cpu_features := [AVX2]; t_cost_plan_id := 1 |}.
Definition vm (n : Z) : Vm :=
  {| v_id := n; v_host_id := 1; v_template_id := Some 1; v_custom_template_id := None;
     v_subscription_line_item_id := 1; v_disk_id := 1; v_deleted := false;
     v_user_id := 1; v_ssh_key_id := None; v_mac_address := "ff:ff:ff:ff:ff:ff" |}.
(** A host with one paid VM. *)
Definition cdb (enabled : bool) : CapDb :=
  {| regions := {[ 1 := true ]}; vm_hosts := [h1]; host_disks := [d1]; vms := [vm 7];
     vm_templates := [t1 enabled]; custom_templates := ∅; line_items := {[ 1 := 1 ]};
     subscription_is_setup := {[ 1 := true ]}; net_db := db rand8 ["10.0.0.2"] |}.

Definition cap1 : HostCapacity :=
  Eval vm_compute in match get_host_capacity (cdb true) h1 (Some SSD) (Some PCIe) with
    | Some c => c
    | None => {| load_factor := {| lf_cpu := one; lf_memory := one; lf_disk := one |}; host := h1;
                 hc_cpu := 0; hc_memory := 0; disks := []; ranges := [] |}
    end.
Lemma chooses_h1 : get_host_for_template (cdb true) 1 (t1 true) = Ok cap1.
Proof. vm_compute. reflexivity. Qed.
Lemma one_vm b : NoDup (v_id <$> vms (cdb b)).
Proof. apply NoDup_singleton. Qed.

Lemma hosts_sum h : h ∈ list_hosts (cdb true) -> sums_fit (cdb true) h.
Proof.
  assert (list_hosts (cdb true) = [h1]) as -> by (vm_compute; reflexivity).
  intros ->%list_elem_of_singleton. split; [split; vm_compute; (discriminate || reflexivity)|].
  split; [split; vm_compute; (discriminate || reflexivity)|].
  assert (list_host_disks (cdb true) (h_id h1) = [d1]) as -> by (vm_compute; reflexivity).
  intros d ->%list_elem_of_singleton. split; vm_compute; (discriminate || reflexivity).
Qed.

Lemma one_template b : NoDup (t_id <$> vm_templates (cdb b)).
Proof. apply NoDup_singleton. Qed.
Lemma host_admission_witness :
  demand (cdb true) vr_cpu (paid_vms (cdb true) 1) = 2 /\ loaded_cpu h1 = 8 /\ off_sale_vms (cdb true) h1 = [] /\
  demand (cdb true) vr_cpu (paid_vms (cdb true) (h_id (host cap1))) + 2 <=
    loaded_cpu (host cap1) + demand (cdb true) vr_cpu (off_sale_vms (cdb true) (host cap1)).
Proof.
  do 3 (split; [vm_compute; reflexivity|]).
  refine (proj1 (proj2 (proj2 (proj2 (proj2 (proj2 (host_admission (cdb true) 1 (t1 true) cap1 (one_vm true) (one_template true)
    hosts_sum _ _ _ chooses_h1)))))));
    vm_compute; reflexivity.
Defined.

Lemma region_ok r : r ∈ list_ip_range_in_region (net_db (cdb true)) 1 -> range_ok (cdb true) r.
Proof.
  assert (list_ip_range_in_region (net_db (cdb true)) 1 = [rand8]) as -> by (vm_compute; reflexivity).
  intros ->%list_elem_of_singleton. split_and!.
  - intros net En. split; [by apply rand8_prefix|discriminate].
  - eexists. vm_compute. reflexivity.
  - vm_compute. reflexivity.
  - intros _ net gw [En _] Hv. exfalso. revert En Hv.
    assert (parse_net (cidr rand8) = Some (v4 10 0 0 0 29)) as -> by (vm_compute; reflexivity).
    intros [= <-]. discriminate.
Qed.

Lemma chosen_host_gets_ipv4_witness :
  exists fuel ret, pick_ip_for_region (fun l => l) fuel (net_db (cdb true)) 1 = Some (Ok ret) /\ is_Some (ip4 ret).
Proof.
  apply (chosen_host_gets_ipv4 (cdb true) 1 (t1 true) cap1 (fun l => l) counting_fit counting_fair
    (fun l => reflexivity l) (one_vm true) region_ok chooses_h1).
Defined.

Lemma disabled_template_not_counted_witness :
  length (paid_vms (cdb false) 1) = 1%nat /\
  exists cap, get_host_capacity (cdb false) h1 None None = Some cap /\ hc_cpu cap = 0.
Proof.
  split; [vm_compute; reflexivity|].
  destruct (get_host_capacity (cdb false) h1 None None) as [cap|] eqn:E;
    [|exfalso; revert E; vm_compute; discriminate].
  exists cap. split; [reflexivity|].
  refine (proj1 (disabled_template_not_counted (cdb false) h1 None None (one_vm false) _ cap E)).
  assert (paid_vms (cdb false) (h_id h1) = [vm 7]) as -> by (vm_compute; reflexivity).
  intros v ->%list_elem_of_singleton. exists 1. split; [reflexivity|].
  intros t ->%list_elem_of_singleton _. reflexivity.
Defined.

(** A custom template that asks for more than there is. *)
Definition params : ApiCustomTemplateParams :=
  {| p_id := 1; p_region_id := 1; p_cpu_features := ["AVX2"%string]; p_cpu_mfg := None;
     p_cpu_arch := Some "x86_64"%string; max_cpu := 32; min_cpu := 1; min_memory := GB; max_memory := 64 * GB;
     p_disks := [{| min_disk := 5 * GB; max_disk := 1000 * GB; p_disk_type := SSD; p_disk_interface := PCIe |};
                 {| min_disk := 5 * GB; max_disk := 1000 * GB; p_disk_type := HDD; p_disk_interface := SATA |}] |}.
Lemma limits_are_servable_witness :
  exists t', apply_host_capacity_limits (cdb true) [params] = Some [t'] /\
    (max_cpu t' = 6 /\ max_memory t' = 6 * GB /\ max_disk <$> p_disks t' = [60 * GB]) /\
    exists d, d ∈ p_disks t' /\ min_disk d <= max_disk d.
Proof.
  destruct (apply_host_capacity_limits (cdb true) [params]) as [[|t' []]|] eqn:E;
    try (exfalso; revert E; vm_compute; discriminate).
  destruct (limits_are_servable (cdb true) [params] [t'] t' E ltac:(by left))
    as (t & caps & _ & _ & _ & _ & _ & _ & _ & Hne & Hd).
  exists t'. split; [reflexivity|]. split; [revert E; vm_compute; intros [= <-]; repeat split|].
  clear E. destruct (p_disks t') as [|d ds]; [by destruct Hne|].
  exists d. split; [by left|]. apply Hd. by left.
Defined.

Import AppClusters AppFacts.
Definition relay : App := {| app_id := 1; app_need := {| cpu_milli := 500; memory_bytes := GB; storage_bytes := 10 * GB |} |}.
Definition cluster (n cpu : Z) : AppCluster :=
  {| cl_id := n; cl_region_id := 1; ingress_domain := "apps.example"%string; cl_enabled := true;
     capacity := {| cpu_milli := cpu; memory_bytes := 4 * GB; storage_bytes := 40 * GB |} |}.
Definition adb : AppDb :=
  {| apps := [relay]; clusters := [cluster 1 900; cluster 2 2000];
     deployments := [{| dep_app_id := 1; dep_cluster_id := 1; dep_deleted := false |};
                     {| dep_app_id := 1; dep_cluster_id := 2; dep_deleted := false |};
                     {| dep_app_id := 1; dep_cluster_id := 2; dep_deleted := true |}] |}.
Lemma app_placement_witness :
  select_in_region adb 1 (app_need relay) = Some (Some (cluster 2 2000)) /\
  allocated adb cpu_milli 2 + 500 <= 2000.
Proof.
  assert (select_in_region adb 1 (app_need relay) = Some (Some (cluster 2 2000))) as E by (vm_compute; reflexivity).
  split; [exact E|].
  destruct (app_placement adb 1 (app_need relay)) as (r & Er & Hr).
  - change (NoDup [1; 2]). constructor; [by rewrite list_elem_of_singleton|apply NoDup_singleton].
  - intros c Hc. assert (c = cluster 1 900 \/ c = cluster 2 2000) as [-> | ->].
    { apply elem_of_cons in Hc as [->|Hc]; [by left|]. apply list_elem_of_singleton in Hc. by right. }
    + split_and!; split; vm_compute; (discriminate || reflexivity).
    + split_and!; split; vm_compute; (discriminate || reflexivity).
  - vm_compute. auto.
  - rewrite E in Er. injection Er as <-. destruct Hr as (_ & _ & Hroom & _). exact Hroom.
Defined.
End CapWitness.
