(* ===== verification/FloatErr.v ===== *)
(** * Rounding errors of floating-point arithmetic

    The amounts of [pricing.rs] and [exchange.rs] go through [f64]. This file
    bounds what one operation of the format of [HostTypes.Flt] loses: a result is
    sized a relative [2 ^ -prec] of the exact one, up to underflow. The format is
    the standard library's specification of IEEE 754 ([SpecFloat]); numbers are
    read as reals. *)

From Stdlib Require Import Reals Lra SpecFloat.
From S2P Require Import Prelude HostTypes.

#[local] Open Scope R_scope.

(** ** Powers of two *)

Definition pw (e : Z) : R := powerRZ 2 e.

Lemma pw_pos e : 0 < pw e.
Proof. apply powerRZ_lt. lra. Qed.
Lemma pw_add a b : pw (a + b) = pw a * pw b.
Proof. apply powerRZ_add. lra. Qed.
Lemma pw_0 : pw 0 = 1.
Proof. done. Qed.
Lemma pw_IZR e : (0 <= e)%Z -> pw e = IZR (2 ^ e).
Proof.
  intros He. rewrite <- (Z2Nat.id e He) at 1. unfold pw. rewrite <- pow_powerRZ.
  rewrite (pow_IZR 2). by rewrite (Z2Nat.id e He).
Qed.
Lemma pw_neg e : pw (- e) * pw e = 1.
Proof. rewrite <- pw_add. by rewrite Z.add_opp_diag_l. Qed.
Lemma pw_opp e : pw (- e) = / pw e.
Proof. apply powerRZ_neg'. Qed.
Lemma pw_succ e : pw (e + 1) = 2 * pw e.
Proof. rewrite pw_add. change (pw 1) with (2 * 1). lra. Qed.
Lemma pw_le a b : (a <= b)%Z -> pw a <= pw b.
Proof.
  intros Hab. replace b with (a + (b - a))%Z by lia. rewrite pw_add, (pw_IZR (b - a)) by lia.
  assert (1 <= IZR (2 ^ (b - a))) as Hone by (apply IZR_le; pose proof (Z.pow_pos_nonneg 2 (b - a)); lia).
  pose proof (pw_pos a). nra.
Qed.
Lemma pw_lt_inv a b : pw a < pw b -> (a < b)%Z.
Proof. intros Hab. destruct (Z.lt_ge_cases a b) as [?|Hba]; [done|]. apply pw_le in Hba. lra. Qed.
Lemma scale_eq e x y : x * pw (- e) = y -> x = y * pw e.
Proof. intros <-. rewrite Rmult_assoc, pw_neg. lra. Qed.

(** ** Mantissas with what was shifted out of them *)

(** The real [y] lies in the cell that starts at the integer [m]. *)
Definition at_loc (m : Z) (l : location) (y : R) : Prop :=
  match l with
  | loc_Exact => y = IZR m
  | loc_Inexact Lt => IZR m < y < IZR m + / 2
  | loc_Inexact Eq => y = IZR m + / 2
  | loc_Inexact Gt => IZR m + / 2 < y < IZR m + 1
  end.

Lemma at_loc_cell m l y : at_loc m l y -> IZR m <= y < IZR m + 1.
Proof. destruct l as [|[]]; cbn; lra. Qed.

Lemma IZR_xI p : IZR (Z.pos p~1) = 2 * IZR (Z.pos p) + 1.
Proof. rewrite Pos2Z.inj_xI, plus_IZR, mult_IZR. lra. Qed.
Lemma IZR_xO p : IZR (Z.pos p~0) = 2 * IZR (Z.pos p).
Proof. rewrite Pos2Z.inj_xO, mult_IZR. lra. Qed.

Lemma shr_1_at r y : (0 <= shr_m r)%Z -> at_loc (shr_m r) (loc_of_shr_record r) y ->
  at_loc (shr_m (shr_1 r)) (loc_of_shr_record (shr_1 r)) (y * / 2) /\ shr_m (shr_1 r) = (shr_m r / 2)%Z.
Proof.
  destruct r as [m b s]. cbn [shr_m]. intros Hm Hy. split.
  - destruct m as [|p|p]; [| |lia]; [|destruct p as [p|p|]];
      [|pose proof (IZR_xI p)|pose proof (IZR_xO p)|];
      destruct b, s; cbn [shr_1 shr_m loc_of_shr_record orb at_loc] in *; lra.
  - destruct m as [|p|p]; [done| |lia]. destruct p as [p|p|]; cbn [shr_1 shr_m]; [| |done].
    + rewrite Pos2Z.inj_xI. apply (Z.div_unique _ _ _ 1); lia.
    + rewrite Pos2Z.inj_xO. apply (Z.div_unique _ _ _ 0); lia.
Qed.

Lemma iter_pos_iter {A} (f : A -> A) n x : SpecFloat.iter_pos f n x = Nat.iter (Pos.to_nat n) f x.
Proof.
  revert x. induction n as [n IH|n IH|]; intros x; cbn [SpecFloat.iter_pos]; [| |done].
  - rewrite !IH, Pos2Nat.inj_xI. replace (S (2 * Pos.to_nat n)) with (Pos.to_nat n + (Pos.to_nat n + 1))%nat by lia.
    by rewrite !Nat.iter_add.
  - rewrite !IH, Pos2Nat.inj_xO. replace (2 * Pos.to_nat n)%nat with (Pos.to_nat n + Pos.to_nat n)%nat by lia.
    by rewrite Nat.iter_add.
Qed.

Lemma shr_iter_at k r y : (0 <= shr_m r)%Z -> at_loc (shr_m r) (loc_of_shr_record r) y ->
  let r' := Nat.iter k shr_1 r in
  at_loc (shr_m r') (loc_of_shr_record r') (y * pw (- Z.of_nat k)) /\
  shr_m r' = (shr_m r / 2 ^ Z.of_nat k)%Z.
Proof.
  intros Hm Hy. induction k as [|k [IHy IHm]].
  - change (pw (- Z.of_nat 0)) with 1. rewrite Rmult_1_r. split; [done|]. by rewrite Z.div_1_r.
  - cbv zeta. change (Nat.iter (S k) shr_1 r) with (shr_1 (Nat.iter k shr_1 r)). apply shr_1_at in IHy as [Hy' Hm'];
      [|rewrite IHm; apply Z.div_pos; [done|]; apply Z.pow_pos_nonneg; lia].
    split.
    + replace (- Z.of_nat (S k))%Z with (- Z.of_nat k + - 1)%Z by lia. rewrite pw_add.
      change (pw (- 1)) with (/ (2 * 1)). rewrite Rmult_1_r. by rewrite <- Rmult_assoc.
    + rewrite Hm', IHm, Z.div_div by (try apply Z.pow_pos_nonneg; lia).
      by rewrite Nat2Z.inj_succ, Z.pow_succ_r, (Z.mul_comm 2) by lia.
Qed.

Lemma loc_of_record m l : loc_of_shr_record (shr_record_of_loc m l) = l.
Proof. by destruct l as [|[]]. Qed.
Lemma mantissa_of_record m l : shr_m (shr_record_of_loc m l) = m.
Proof. by destruct l as [|[]]. Qed.

(** Shifting right keeps the real number and moves the cell. *)
Lemma shr_at m l e n x r e' : (0 <= m)%Z -> at_loc m l (x * pw (- e)) ->
  shr (shr_record_of_loc m l) e n = (r, e') ->
  e' = (e + Z.max 0 n)%Z /\ at_loc (shr_m r) (loc_of_shr_record r) (x * pw (- e')) /\
  shr_m r = (m / 2 ^ Z.max 0 n)%Z /\ ((n <= 0)%Z -> loc_of_shr_record r = l).
Proof.
  intros Hm Hy. unfold shr.
  assert (forall n, (n <= 0)%Z -> shr_record_of_loc m l = r -> e = e' ->
    e' = (e + Z.max 0 n)%Z /\ at_loc (shr_m r) (loc_of_shr_record r) (x * pw (- e')) /\
    shr_m r = (m / 2 ^ Z.max 0 n)%Z /\ ((n <= 0)%Z -> loc_of_shr_record r = l)) as Hnone.
  { intros n' Hn <- <-. rewrite Z.max_l, Z.add_0_r, mantissa_of_record, loc_of_record, Z.div_1_r by lia. done. }
  destruct n as [|p|p]; intros [= Hr He]; [by apply Hnone| |by apply Hnone]. subst r e'.
  rewrite iter_pos_iter.
  edestruct (shr_iter_at (Pos.to_nat p) (shr_record_of_loc m l)) as [Hy' Hm'];
    [by rewrite mantissa_of_record| rewrite mantissa_of_record, loc_of_record; exact Hy|].
  rewrite positive_nat_Z, mantissa_of_record in *.
  split; [lia|]. split; [|split; [done|lia]].
  replace (- (e + Z.pos p))%Z with (- e + - Z.pos p)%Z by lia. by rewrite pw_add, <- Rmult_assoc.
Qed.

(** Rounding to nearest is off by half a unit at most. *)
Lemma nearest_err m l y : at_loc m l y -> Rabs (IZR (round_nearest_even m l) - y) <= / 2.
Proof.
  intros Hy. destruct l as [|[]]; cbn [at_loc round_nearest_even] in *; try destruct (Z.even m); rewrite ?plus_IZR;
    unfold Rabs; destruct (Rcase_abs _); lra.
Qed.
Lemma nearest_range m l : (m <= round_nearest_even m l <= m + 1)%Z.
Proof. destruct l as [|[]]; cbn; try destruct (Z.even m); lia. Qed.

(** ** Digits *)

Lemma digits2_range p : (2 ^ (Z.pos (digits2_pos p) - 1) <= Z.pos p < 2 ^ Z.pos (digits2_pos p))%Z.
Proof.
  induction p as [p IH|p IH|]; cbn [digits2_pos]; [| |done].
  1, 2: rewrite Pos2Z.inj_succ; replace (Z.succ (Z.pos (digits2_pos p)) - 1)%Z with (Z.pos (digits2_pos p) - 1 + 1)%Z by lia;
    rewrite Z.pow_add_r, Z.pow_succ_r by lia; lia.
Qed.
Lemma Zdigits2_range m : (0 < m -> 2 ^ (Zdigits2 m - 1) <= m < 2 ^ Zdigits2 m)%Z.
Proof. destruct m as [|p|p]; [lia| |lia]. intros _. apply digits2_range. Qed.
Lemma Zdigits2_pos m : (0 < m -> 1 <= Zdigits2 m)%Z.
Proof. destruct m as [|p|p]; cbn; lia. Qed.
Lemma Zdigits2_le m k : (0 < m -> 0 <= k -> m < 2 ^ k -> Zdigits2 m <= k)%Z.
Proof.
  intros Hm Hk Hmk. pose proof (Zdigits2_range m Hm) as Hd.
  assert (Zdigits2 m - 1 < k)%Z; [|lia].
  apply (Z.pow_lt_mono_r_iff 2); lia.
Qed.
Lemma Zdigits2_unique m k : (2 ^ (k - 1) <= m < 2 ^ k -> 1 <= k -> Zdigits2 m = k)%Z.
Proof.
  intros Hk H1. assert (0 < m)%Z as Hm by (pose proof (Z.pow_pos_nonneg 2 (k - 1)); lia).
  pose proof (Zdigits2_range m Hm) as Hd. apply Z.le_antisymm; [apply Zdigits2_le; lia|].
  assert (k - 1 < Zdigits2 m)%Z; [|lia]. apply (Z.pow_lt_mono_r_iff 2); [lia| |lia]. pose proof (Zdigits2_pos m). lia.
Qed.

(** ** One rounding *)

(** [SpecFloat] names the integer operations of the core library. *)
Ltac std_Z :=
  change IntDef.Z.sub with Z.sub in *; change IntDef.Z.add with Z.add in *;
  change IntDef.Z.mul with Z.mul in *; change IntDef.Z.max with Z.max in *;
  change IntDef.Z.min with Z.min in *; change IntDef.Z.even with Z.even in *;
  change IntDef.Z.compare with Z.compare in *.

(** The float [v] has the sign [s] and the magnitude [x]; no more digits than a
    double has. *)
Definition rep (s : bool) (x : R) (v : spec_float) : Prop :=
  match v with
  | S754_zero t => t = s /\ x = 0
  | S754_finite t m e => t = s /\ (Z.pos m < 2 ^ 53)%Z /\ x = IZR (Z.pos m) * pw e
  | _ => False
  end.

Lemma rep_nonneg s x v : rep s x v -> 0 <= x.
Proof.
  destruct v as [| | |t m e]; cbn [rep]; try tauto; [intros [_ ->]; lra|].
  intros (_ & _ & ->). apply Rmult_le_pos; [apply IZR_le; lia|]. apply Rlt_le, pw_pos.
Qed.

Section rounding.
Context (prec emax : Z) (Hprec : (1 < prec <= 53)%Z) (Hemax : (prec + 3 < emax)%Z).
Notation fexp := (SpecFloat.fexp prec emax).
Notation emin := (SpecFloat.emin prec emax).

(** Twice the largest relative error of an operation whose result is normal. *)
Definition ulp : R := pw (1 - prec).
Definition tiny : R := pw (emin - 1).
(** Exact results stay below it. *)
Definition huge : R := pw (emax - prec - 1).

Lemma fexp_max k : fexp k = Z.max (k - prec) emin.
Proof. done. Qed.

(** [r] is [x] after one rounding. *)
Definition rounded (x r : R) : Prop := Rabs (r - x) <= x * (ulp * / 2) + tiny /\ (x = 0 -> r = 0).

Lemma slack_nonneg x : 0 <= x -> 0 <= x * (ulp * / 2) + tiny.
Proof.
  intros Hx. pose proof (pw_pos (1 - prec)). pose proof (pw_pos (emin - 1)). unfold ulp, tiny. nra.
Qed.
Lemma rounded_exact x : 0 <= x -> rounded x x.
Proof. intros Hx. split; [|done]. rewrite Rminus_diag, Rabs_R0. by apply slack_nonneg. Qed.
Lemma rounded_pos x r : 0 < x -> Rabs (r - x) <= x * (ulp * / 2) + tiny -> rounded x r.
Proof. intros Hx Hr. split; [done|lra]. Qed.

(** A cell of [m] at exponent [e] rounds to [v], half a unit of the last place
    away at most; nothing is lost when [m] has few digits. *)
Lemma round_aux_spec sx m e l x :
  (0 < m)%Z -> at_loc m l (x * pw (- e)) -> l = loc_Exact \/ (e <= fexp (Zdigits2 m + e))%Z ->
  x < huge ->
  exists r, rep sx r (binary_round_aux prec emax sx m e l) /\
    Rabs (r - x) <= x * (ulp * / 2) + tiny /\
    ((fexp (Zdigits2 m + e) <= e)%Z -> l = loc_Exact -> r = x).
Proof.
  intros Hm Hy Hl Hx. unfold huge in Hx.
  pose proof (Zdigits2_range m Hm) as Hd. pose proof (Zdigits2_pos m Hm) as Hd1.
  assert (x = x * pw (- e) * pw e) as Hxe by (rewrite Rmult_assoc, pw_neg; lra).
  pose proof (at_loc_cell _ _ _ Hy) as Hcell. pose proof (pw_pos e) as Hpe.
  assert (pw (Zdigits2 m - 1 + e) <= x) as Hlow.
  { rewrite pw_add, pw_IZR, Hxe by lia. apply Rmult_le_compat_r; [lra|].
    apply Rle_trans with (IZR m); [apply IZR_le|]; lra || lia. }
  set (d := Zdigits2 m) in *.
  assert (d - 1 + e < emax - prec - 1)%Z as He by (apply pw_lt_inv; lra).
  unfold binary_round_aux, shr_fexp.
  destruct (shr (shr_record_of_loc m l) e _) as [r1 e1] eqn:E1.
  apply (shr_at m l e _ x) in E1 as (He1 & Hy1 & Hm1 & Hl1); [|lia|done]. fold d in He1, Hm1, Hl1.
  rewrite fexp_max in *. unfold SpecFloat.emin in *. std_Z.
  assert (shr_m r1 < 2 ^ prec)%Z as Hsmall.
  { rewrite Hm1. apply Z.div_lt_upper_bound; [apply Z.pow_pos_nonneg; lia|]. rewrite <- Z.pow_add_r by lia.
    apply Z.lt_le_trans with (2 ^ d)%Z; [lia|]. apply Z.pow_le_mono_r; lia. }
  assert (0 <= shr_m r1)%Z as Hpos1 by (rewrite Hm1; apply Z.div_pos; [lia|]; apply Z.pow_pos_nonneg; lia).
  pose proof (nearest_err _ _ _ Hy1) as Herr.
  pose proof (nearest_range (shr_m r1) (loc_of_shr_record r1)) as Hrange.
  set (m2 := round_nearest_even (shr_m r1) (loc_of_shr_record r1)) in *.
  assert (x = x * pw (- e1) * pw e1) as Hxe1 by (rewrite Rmult_assoc, pw_neg; lra).
  assert (Rabs (IZR m2 * pw e1 - x) <= pw (e1 - 1)) as Herr2.
  { replace (IZR m2 * pw e1 - x) with ((IZR m2 - x * pw (- e1)) * pw e1) by lra.
    rewrite Rabs_mult, (Rabs_pos_eq (pw e1)) by apply Rlt_le, pw_pos.
    replace (pw e1) with (2 * pw (e1 - 1)) by (rewrite <- pw_succ; f_equal; lia).
    pose proof (pw_pos (e1 - 1)). nra. }
  destruct (shr _ e1 _) as [r2 e2] eqn:E2.
  apply (shr_at m2 loc_Exact e1 _ (IZR m2 * pw e1)) in E2 as (He2 & Hy2 & Hm2' & _);
    [|lia|rewrite Rmult_assoc, Rmult_comm, (Rmult_comm (pw e1)), pw_neg; cbn [at_loc]; lra].
  rewrite fexp_max in *. unfold SpecFloat.emin in *. std_Z.
  assert (IZR (shr_m r2) * pw e2 = IZR m2 * pw e1 /\ (0 <= shr_m r2)%Z /\
      (e2 <= e1 + 1)%Z /\ (shr_m r2 < 2 ^ prec)%Z) as (Hval & Hpos2 & He2' & Hm53).
  { destruct (Z.eq_dec m2 (2 ^ prec)) as [Hm2|Hm2].
    - assert (Zdigits2 m2 = prec + 1)%Z as Hd2 by (apply Zdigits2_unique; rewrite ?Z.add_simpl_r, ?Z.pow_add_r; lia).
      rewrite Hd2 in He2, Hm2'. replace (Z.max 0 _) with 1%Z in He2, Hm2' by lia.
      assert (shr_m r2 = 2 ^ (prec - 1))%Z as ->.
      { rewrite Hm2', Hm2. replace prec with (prec - 1 + 1)%Z at 1 by lia. rewrite Z.pow_add_r by lia.
        apply Z.div_mul. lia. }
      split; [|split; [apply Z.pow_nonneg; lia|split; [lia|apply Z.pow_lt_mono_r; lia]]].
      rewrite He2, pw_succ, Hm2. replace prec with (prec - 1 + 1)%Z at 2 by lia.
      rewrite Z.pow_add_r, mult_IZR by lia. lra.
    - assert (Zdigits2 m2 <= prec)%Z.
      { destruct (Z.eq_dec m2 0) as [E0|]; [rewrite E0; cbn; lia|]. apply Zdigits2_le; lia. }
      rewrite Z.max_l in He2 by lia. rewrite Z.max_l, Z.div_1_r in Hm2' by lia.
      rewrite Hm2', He2, Z.add_0_r. split; [done|lia]. }
  assert (((d + e - prec) `max` (3 - emax - prec) <= e)%Z -> l = loc_Exact -> IZR m2 * pw e1 = x) as Hexact.
  { intros Hf ->. rewrite Hl1 in Hy1 by lia. subst m2. rewrite Hl1 by lia. cbn [round_nearest_even at_loc] in *.
    by rewrite <- Hy1. }
  exists (IZR m2 * pw e1). split; [|split; [|done]].
  - rewrite <- Hval. destruct (shr_m r2) as [|p|p] eqn:Em; [| |lia].
    + cbn [rep]. by rewrite Rmult_0_l.
    + assert (e2 <= emax - prec)%Z as Hbig by lia. rewrite (Zle_imp_le_bool _ _ Hbig).
      pose proof (Z.pow_le_mono_r 2 prec 53 ltac:(lia) ltac:(lia)). cbn [rep]. split; [done|]. split; [lia|done].
  - assert (0 <= x) as H0x by (pose proof (pw_pos (d - 1 + e)); lra).
    pose proof (Rmult_le_pos _ _ H0x (Rlt_le _ _ (pw_pos (1 - prec)))).
    unfold ulp, tiny, SpecFloat.emin. std_Z. pose proof (pw_pos (3 - emax - prec - 1)).
    assert (IZR m2 * pw e1 = x \/ e1 = ((d + e - prec) `max` (3 - emax - prec))%Z) as [->|Hf].
    { destruct (Z.le_gt_cases ((d + e - prec) `max` (3 - emax - prec)) e) as [Hf|Hf]; [|right; lia].
      destruct Hl as [->|Hl]; [left; by apply Hexact|right; lia]. }
    { rewrite Rminus_diag, Rabs_R0. lra. }
    eapply Rle_trans; [exact Herr2|].
    assert (e1 - 1 = d - 1 + e + (- prec) \/ e1 = 3 - emax - prec)%Z as [-> | ->]
      by lia; [|lra].
    replace (1 - prec)%Z with (- prec + 1)%Z by lia. rewrite (pw_add (d - 1 + e)), pw_succ.
    pose proof (Rmult_le_compat_r _ _ _ (Rlt_le _ _ (pw_pos (- prec))) Hlow). lra.
Qed.

Lemma iter_xO m d : Z.pos (Pos.iter xO m d) = (Z.pos m * 2 ^ Z.pos d)%Z.
Proof.
  induction d as [|d IH] using Pos.peano_ind; [cbn; lia|].
  rewrite Pos.iter_succ, Pos2Z.inj_succ, Z.pow_succ_r by lia. rewrite Pos2Z.inj_xO, IH. lia.
Qed.
Lemma shl_align_spec m e e' m' e'' : shl_align m e e' = (m', e'') ->
  e'' = Z.min e e' /\ Z.pos m' = (Z.pos m * 2 ^ (e - Z.min e e'))%Z.
Proof.
  unfold shl_align. std_Z. destruct (e' - e)%Z as [|d|d] eqn:E; intros [= <- <-].
  1, 2: replace (Z.min e e') with e by lia; by rewrite Z.sub_diag, Z.mul_1_r.
  rewrite iter_xO. replace (e - Z.min e e')%Z with (Z.pos d) by lia. split; [lia|done].
Qed.

(** [binary_normalize] of a positive mantissa. *)
Lemma round_spec sx p e x : x = IZR (Z.pos p) * pw e -> x < huge ->
  exists r, rep sx r (binary_round prec emax sx p e) /\
    Rabs (r - x) <= x * (ulp * / 2) + tiny /\
    ((fexp (Z.pos (digits2_pos p) + e) <= e)%Z -> r = x).
Proof.
  intros -> Hx. unfold binary_round. std_Z.
  destruct (shl_align p e _) as [m' e'] eqn:E. apply shl_align_spec in E as [He' Hm'].
  pose proof (digits2_range p) as Hd. set (d := Z.pos (digits2_pos p)) in *. std_Z.
  assert (1 <= d)%Z as Hd1 by (unfold d; lia).
  set (f := fexp (d + e)) in *.
  assert (Zdigits2 (Z.pos m') = d + e - e')%Z as Hd'.
  { apply Zdigits2_unique; [|lia]. rewrite Hm', <- He'.
    replace (d + e - e' - 1)%Z with (d - 1 + (e - e'))%Z by lia.
    replace (d + e - e')%Z with (d + (e - e'))%Z by lia. rewrite !Z.pow_add_r by lia.
    pose proof (Z.pow_pos_nonneg 2 (e - e')). nia. }
  edestruct (round_aux_spec sx (Z.pos m') e' loc_Exact (IZR (Z.pos p) * pw e)) as (r & Hr & Herr & Hex);
    [lia| |by left|done|].
  { cbn [at_loc]. rewrite Hm', <- He', mult_IZR, <- pw_IZR by lia. by rewrite Rmult_assoc, <- pw_add. }
  exists r. split; [done|]. split; [done|]. intros Hf. apply Hex; [|done].
  rewrite Hd'. replace (d + e - e' + e')%Z with (d + e)%Z by lia. fold f. lia.
Qed.

(** ** The operations *)

Lemma of_Z_spec z : (0 <= z)%Z -> IZR z < huge ->
  exists r, rep false r (Flt.of_Z prec emax z) /\ rounded (IZR z) r /\ ((z < 2 ^ prec)%Z -> r = IZR z).
Proof.
  intros Hz Hx. destruct z as [|p|p]; [| |lia].
  - exists 0. split; [done|]. split; [by apply rounded_exact, Rle_refl|done].
  - edestruct (round_spec false p 0 (IZR (Z.pos p))) as (r & Hr & Herr & Hex); [by rewrite pw_0, Rmult_1_r|done|].
    exists r. split; [exact Hr|]. split; [apply rounded_pos; [by apply IZR_lt|done]|].
    intros Hp. apply Hex. rewrite Z.add_0_r, fexp_max.
    unfold SpecFloat.emin. std_Z. pose proof (Zdigits2_le (Z.pos p) prec) as Hd. cbn [Zdigits2] in Hd. lia.
Qed.

Lemma mul_spec s t x y a b : rep s x a -> rep t y b -> x * y < huge ->
  exists r, rep (xorb s t) r (Flt.mul prec emax a b) /\ rounded (x * y) r.
Proof.
  unfold Flt.mul. destruct a as [sa| | |sa m e], b as [sb| | |sb m' e']; cbn [rep SFmul]; try tauto;
    [intros [-> ->] [-> ->] Hxy|intros [-> ->] (-> & _ & ->) Hxy
    |intros (-> & _ & ->) [-> ->] Hxy|intros (-> & _ & ->) (-> & _ & ->) Hxy].
  1-3: exists 0; split; [done|]; rewrite ?Rmult_0_l, ?Rmult_0_r; apply rounded_exact, Rle_refl.
  edestruct (round_aux_spec (xorb s t) (Z.pos (m * m')) (e + e') loc_Exact) as (r & Hr & Herr & _);
    [done| |by left|exact Hxy|].
  { cbn [at_loc]. rewrite Pos2Z.inj_mul, mult_IZR.
    replace (_ * pw e * _ * _) with (IZR (Z.pos m) * IZR (Z.pos m') * (pw (- (e + e')) * (pw e * pw e'))) by lra.
    rewrite <- pw_add, pw_neg. lra. }
  exists r. split; [done|]. apply rounded_pos; [|done].
  by repeat apply Rmult_lt_0_compat; try apply pw_pos; apply IZR_lt.
Qed.

Lemma new_location_0 m : new_location m 0 = loc_Exact.
Proof. unfold new_location. by destruct (IntDef.Z.even m). Qed.
Lemma new_location_pos m r : (0 < r)%Z -> new_location m r =
  if Z.even m then loc_Inexact (2 * r ?= m)%Z
  else loc_Inexact match (2 * r + 1 ?= m)%Z with Gt => Gt | _ => Lt end.
Proof.
  destruct r as [|p|p]; [lia| |lia]. intros _. unfold new_location, new_location_even, new_location_odd.
  change (IntDef.Z.even m) with (Z.even m). destruct (Z.even m); [done|].
  change IntDef.Z.compare with Z.compare. std_Z. cbn [IntDef.Z.eqb]. by destruct (_ ?= _)%Z.
Qed.

Lemma new_location_at m2 q r : (0 < m2)%Z -> (0 <= r < m2)%Z ->
  at_loc q (new_location m2 r) (IZR (m2 * q + r) / IZR m2).
Proof.
  intros Hm Hr. assert (0 < IZR m2) as Hm' by by apply IZR_lt.
  assert (IZR (m2 * q + r) / IZR m2 = IZR q + IZR r / IZR m2) as ->.
  { rewrite plus_IZR, mult_IZR. field. lra. }
  assert (IZR r / IZR m2 * IZR m2 = IZR r) as Hrm by (field; lra).
  assert (forall a b, (a * r < b * m2)%Z -> IZR a * (IZR r / IZR m2) < IZR b) as Hlt.
  { intros a b Hab%IZR_lt. rewrite !mult_IZR in Hab.
    apply (Rmult_lt_reg_r (IZR m2)); [done|]. by rewrite Rmult_assoc, Hrm. }
  assert (forall a b, (a * r > b * m2)%Z -> IZR a * (IZR r / IZR m2) > IZR b) as Hgt.
  { intros a b Hab%Z.gt_lt%IZR_lt. rewrite !mult_IZR in Hab.
    apply (Rmult_lt_reg_r (IZR m2)); [done|]. by rewrite Rmult_assoc, Hrm. }
  destruct (Z.eq_dec r 0) as [->|Hr0].
  { rewrite new_location_0. unfold Rdiv. rewrite Rmult_0_l. cbn [at_loc]. lra. }
  rewrite new_location_pos by lia.
  pose proof (Hgt 1 0)%Z as Hpos. pose proof (Hlt 1 1)%Z as Hone.
  pose proof (Hlt 2 1)%Z as Hlt2. pose proof (Hgt 2 1)%Z as Hgt2.
  destruct (Z.even m2) eqn:Ev.
  - destruct (Z.compare_spec (2 * r) m2) as [E|E|E]; cbn [at_loc].
    + assert (IZR r / IZR m2 = / 2); [|lra]. rewrite <- E, mult_IZR. field. apply IZR_neq. lia.
    + specialize (Hlt2 ltac:(lia)). specialize (Hpos ltac:(lia)). lra.
    + specialize (Hgt2 ltac:(lia)). specialize (Hone ltac:(lia)). lra.
  - destruct (Z.compare_spec (2 * r + 1) m2) as [E|E|E]; cbn [at_loc].
    + specialize (Hlt2 ltac:(lia)). specialize (Hpos ltac:(lia)). lra.
    + specialize (Hlt2 ltac:(lia)). specialize (Hpos ltac:(lia)). lra.
    + assert (2 * r <> m2)%Z by (intros <-; by rewrite Z.even_mul in Ev).
      specialize (Hgt2 ltac:(lia)). specialize (Hone ltac:(lia)). lra.
Qed.

Lemma mantissa_range p : pw (Z.pos (digits2_pos p) - 1) <= IZR (Z.pos p) < pw (Z.pos (digits2_pos p)).
Proof.
  pose proof (digits2_range p) as [Hlo Hhi]. rewrite !pw_IZR by lia.
  split; [by apply IZR_le|by apply IZR_lt].
Qed.

(** The quotient of two mantissas and the cell that it is in. *)
Lemma div_core_spec m1 e1 m2 e2 q e l x :
  x = IZR (Z.pos m1) * pw e1 / (IZR (Z.pos m2) * pw e2) -> pw (emin + prec + 1) <= x ->
  SFdiv_core_binary prec emax (Z.pos m1) e1 (Z.pos m2) e2 = (q, e, l) ->
  (0 < q)%Z /\ at_loc q l (x * pw (- e)) /\ (e <= fexp (Zdigits2 q + e))%Z.
Proof.
  intros Hx Hlow. unfold SFdiv_core_binary. cbn [Zdigits2]. std_Z.
  pose proof (mantissa_range m1) as [Hlo1 Hhi1]. pose proof (mantissa_range m2) as [Hlo2 Hhi2].
  set (d1 := Z.pos (digits2_pos m1)) in *. set (d2 := Z.pos (digits2_pos m2)) in *.
  set (k := (d1 + e1 - (d2 + e2))%Z). pose proof (pw_pos e1). pose proof (pw_pos e2).
  assert (0 < IZR (Z.pos m2)) as Hm2 by by apply IZR_lt.
  assert (x * (IZR (Z.pos m2) * pw e2) = IZR (Z.pos m1) * pw e1) as Hxm by (rewrite Hx; field; lra).
  assert (pw (k - 1) < x) as Hk1.
  { apply (Rmult_lt_reg_r (IZR (Z.pos m2) * pw e2)); [nra|]. rewrite Hxm.
    apply Rlt_le_trans with (pw (k - 1) * (pw d2 * pw e2)); [apply Rmult_lt_compat_l; [apply pw_pos|]; nra|].
    rewrite <- !pw_add. replace (k - 1 + (d2 + e2))%Z with (d1 - 1 + e1)%Z by lia. rewrite pw_add. nra. }
  assert (x < pw (k + 1)) as Hk2.
  { apply (Rmult_lt_reg_r (IZR (Z.pos m2) * pw e2)); [nra|]. rewrite Hxm.
    apply Rlt_le_trans with (pw d1 * pw e1); [nra|]. rewrite <- pw_add.
    replace (d1 + e1)%Z with (k + 1 + (d2 - 1 + e2))%Z by lia. rewrite (pw_add (k + 1)), (pw_add (d2 - 1)).
    apply Rmult_le_compat_l; [apply Rlt_le, pw_pos|]. nra. }
  assert (emin + prec + 1 < k + 1)%Z as Hk by (apply pw_lt_inv; lra).
  rewrite fexp_max. set (e' := Z.min _ (e1 - e2)). assert (e' <= k - prec)%Z as He' by lia.
  assert (0 <= e1 - e2 - e')%Z as Hs by lia.
  set (m' := match _ with Z0 => _ | _ => _ end).
  assert (m' = (Z.pos m1 * 2 ^ (e1 - e2 - e'))%Z) as Hm'.
  { unfold m'. destruct (e1 - e2 - e')%Z as [|p|p] eqn:E; [lia| |lia]. by apply Z.shiftl_mul_pow2. }
  destruct (Z.div_eucl m' (Z.pos m2)) as [q0 r0] eqn:E. intros [= <- <- <-].
  pose proof (Z_div_mod m' (Z.pos m2) ltac:(lia)) as Hdiv. rewrite E in Hdiv. destruct Hdiv as [Hq Hr].
  assert (x * pw (- e') = IZR (Z.pos m2 * q0 + r0) / IZR (Z.pos m2)) as Hval.
  { rewrite <- Hq, Hm', mult_IZR, <- pw_IZR by lia.
    replace (e1 - e2 - e')%Z with (e1 + - e2 + - e')%Z by lia. rewrite !pw_add, Hx.
    rewrite (pw_opp e2). field. lra. }
  assert (2 ^ (prec - 1) <= q0)%Z as Hq0.
  { enough (IZR (2 ^ (prec - 1)) < IZR (q0 + 1)) as Hlt%lt_IZR by lia.
    rewrite <- pw_IZR by lia. apply Rle_lt_trans with (x * pw (- e')).
    - apply Rle_trans with (pw (k - 1) * pw (- e')); [rewrite <- pw_add; apply pw_le; lia|].
      pose proof (pw_pos (- e')). nra.
    - rewrite Hval. apply (Rmult_lt_reg_r (IZR (Z.pos m2))); [done|].
      replace (_ / _ * _) with (IZR (Z.pos m2 * q0 + r0)) by (field; lra). rewrite <- mult_IZR. apply IZR_lt. lia. }
  assert (0 < q0)%Z as Hq0' by (pose proof (Z.pow_pos_nonneg 2 (prec - 1)); lia).
  split; [done|]. split; [rewrite Hval; apply new_location_at; lia|].
  rewrite fexp_max. assert (prec - 1 < Zdigits2 q0)%Z; [|lia].
  pose proof (Zdigits2_range q0 Hq0'). pose proof (Zdigits2_pos q0 Hq0').
  apply (Z.pow_lt_mono_r_iff 2); lia.
Qed.

Lemma div_spec s t x y a b : rep s x a -> rep t y b -> 0 < y ->
  x = 0 \/ pw (emin + prec + 1) <= x / y -> x / y < huge ->
  exists r, rep (xorb s t) r (Flt.div prec emax a b) /\ rounded (x / y) r.
Proof.
  unfold Flt.div. intros Ha Hb Hy Hlow Hbig.
  destruct b as [sb| | |sb m' e']; cbn [rep] in Hb; try tauto; [lra|].
  destruct a as [sa| | |sa m e]; cbn [rep] in Ha; try tauto; cbn [SFdiv];
    destruct Hb as (-> & _ & Hy'); [destruct Ha as [-> Hx]|destruct Ha as (-> & _ & Hx)].
  - exists 0. rewrite Hx. unfold Rdiv. rewrite Rmult_0_l. split; [done|apply rounded_exact, Rle_refl].
  - assert (0 < x) as Hx0 by (rewrite Hx; apply Rmult_lt_0_compat; [by apply IZR_lt|apply pw_pos]).
    destruct Hlow as [Hlow|Hlow]; [lra|].
    destruct (SFdiv_core_binary _ _ _ _ _ _) as [[q e''] l] eqn:E.
    eapply div_core_spec in E as (Hq & Hl & He); [|reflexivity|by rewrite <- Hx, <- Hy'].
    rewrite <- Hx, <- Hy' in Hl.
    edestruct (round_aux_spec (xorb s t) q e'' l) as (r & Hr & Herr & _); [done|done|by right|done|].
    exists r. split; [done|]. apply rounded_pos; [|done]. by apply Rdiv_lt_0_compat.
Qed.

Lemma shl_fst m e e' : (e' <= e)%Z -> IZR (Z.pos (fst (shl_align m e e'))) * pw e' = IZR (Z.pos m) * pw e.
Proof.
  intros He. destruct (shl_align m e e') as [m' e''] eqn:E. apply shl_align_spec in E as [_ Hm].
  cbn [fst]. rewrite Hm, Z.min_r, mult_IZR, <- pw_IZR, Rmult_assoc, <- pw_add by lia.
  by replace (e - e' + e')%Z with e by lia.
Qed.

(** Two aligned mantissas; the sign is that of their sum. *)
Lemma normalize_spec m e x : x = IZR m * pw e -> Rabs x < huge ->
  exists r, rep (bool_decide (m < 0)%Z) r (binary_normalize prec emax m e false) /\ rounded (Rabs x) r.
Proof.
  pose proof (pw_pos e) as He. intros Hx Hbig. destruct m as [|p|p]; cbn [binary_normalize].
  - exists 0. assert (x = 0) as -> by (rewrite Hx; lra). rewrite Rabs_R0. split; [done|apply rounded_exact, Rle_refl].
  - assert (0 < IZR (Z.pos p) * pw e) as Hp by (apply Rmult_lt_0_compat; [by apply IZR_lt|done]).
    assert (Rabs x = IZR (Z.pos p) * pw e) as Hpos by (rewrite Hx; apply Rabs_pos_eq; lra).
    destruct (round_spec false p e (Rabs x)) as (r & Hr & Herr & _); [done|done|].
    exists r. split; [done|]. apply rounded_pos; [lra|done].
  - assert (0 < IZR (Z.pos p) * pw e) as Hp by (apply Rmult_lt_0_compat; [by apply IZR_lt|done]).
    assert (Rabs x = IZR (Z.pos p) * pw e) as Hpos.
    { rewrite Hx. change (Z.neg p) with (- Z.pos p)%Z. rewrite opp_IZR, Ropp_mult_distr_l_reverse, Rabs_Ropp.
      apply Rabs_pos_eq. lra. }
    destruct (round_spec true p e (Rabs x)) as (r & Hr & Herr & _); [done|done|].
    exists r. split; [done|]. apply rounded_pos; [lra|done].
Qed.

Lemma add_spec x y a b : rep false x a -> rep false y b -> x + y < huge ->
  exists r, rep false r (Flt.add prec emax a b) /\ rounded (x + y) r.
Proof.
  intros Ha Hb Hbig. pose proof (rep_nonneg _ _ _ Ha). pose proof (rep_nonneg _ _ _ Hb).
  unfold Flt.add. destruct a as [sa| | |sa m e], b as [sb| | |sb m' e']; cbn [rep] in *; try tauto;
    [destruct Ha as [-> Hx], Hb as [-> Hy]|destruct Ha as [-> Hx], Hb as (-> & Hm' & Hy)
    |destruct Ha as (-> & Hm & Hx), Hb as [-> Hy]|destruct Ha as (-> & Hm & Hx), Hb as (-> & Hm' & Hy)];
    cbn [SFadd].
  - exists 0. split; [done|]. replace (x + y) with 0 by lra. apply rounded_exact, Rle_refl.
  - exists y. split; [done|]. replace (x + y) with y by lra. by apply rounded_exact.
  - exists x. split; [done|]. replace (x + y) with x by lra. by apply rounded_exact.
  - std_Z. cbn [cond_Zopp]. set (ez := Z.min e e').
    edestruct (normalize_spec (Z.pos (shl_align m e ez).1 + Z.pos (shl_align m' e' ez).1) ez (x + y)) as (r & Hr & Herr).
    + rewrite plus_IZR, Rmult_plus_distr_r, !shl_fst by lia. by rewrite Hx, Hy.
    + rewrite Rabs_pos_eq; lra.
    + rewrite bool_decide_false in Hr by lia. rewrite (Rabs_pos_eq (x + y)) in Herr by lra. by exists r.
Qed.

Lemma sub_spec x y a b : rep false x a -> rep false y b -> x < huge -> y < huge ->
  exists r, rep (if Rlt_dec x y then true else false) r (Flt.sub prec emax a b) /\ rounded (Rabs (x - y)) r.
Proof.
  intros Ha Hb Hbx Hby. pose proof (rep_nonneg _ _ _ Ha). pose proof (rep_nonneg _ _ _ Hb).
  unfold Flt.sub. destruct a as [sa| | |sa m e], b as [sb| | |sb m' e']; cbn [rep] in *; try tauto;
    [destruct Ha as [-> Hx], Hb as [-> Hy]|destruct Ha as [-> Hx], Hb as (-> & Hm' & Hy)
    |destruct Ha as (-> & Hm & Hx), Hb as [-> Hy]|destruct Ha as (-> & Hm & Hx), Hb as (-> & Hm' & Hy)];
    cbn [SFsub].
  - exists 0. destruct (Rlt_dec x y); [lra|]. split; [done|]. rewrite Rabs_pos_eq by lra.
    replace (x - y) with 0 by lra. apply rounded_exact, Rle_refl.
  - exists y. pose proof (Rmult_lt_0_compat _ _ (IZR_lt 0 (Z.pos m') ltac:(done)) (pw_pos e')).
    destruct (Rlt_dec x y); [|lra]. split; [done|]. rewrite Rabs_left by lra.
    replace (- (x - y)) with y by lra. by apply rounded_exact.
  - exists x. destruct (Rlt_dec x y); [lra|]. split; [done|]. rewrite Rabs_pos_eq by lra.
    replace (x - y) with x by lra. by apply rounded_exact.
  - std_Z. cbn [cond_Zopp]. set (ez := Z.min e e').
    assert (IZR (Z.pos (shl_align m e ez).1 - Z.pos (shl_align m' e' ez).1) * pw ez = x - y) as Hd.
    { rewrite minus_IZR, Rmult_minus_distr_r, !shl_fst by lia. by rewrite Hx, Hy. }
    edestruct (normalize_spec (Z.pos (shl_align m e ez).1 - Z.pos (shl_align m' e' ez).1) ez (x - y)) as (r & Hr & Herr);
      [done|apply Rabs_def1; lra|].
    exists r. split; [|done]. pose proof (pw_pos ez) as Hez.
    destruct (Rlt_dec x y) as [Hlt|Hge].
    + rewrite bool_decide_true in Hr; [done|]. apply lt_IZR. nra.
    + rewrite bool_decide_false in Hr; [done|]. intros Hneg%IZR_lt. nra.
Qed.
End rounding.

(** ** Doubles

    [near n x r]: [r] is [x] after at most [n] roundings, as a factor. *)

Definition eps : R := pw (-52).
Definition near (n : nat) (x r : R) : Prop := exists f, r = x * f /\ (1 - eps) ^ n <= f <= (1 + eps) ^ n.

Lemma eps_pos : 0 < eps.
Proof. apply pw_pos. Qed.
Lemma eps_small : eps <= / 1048576.
Proof.
  unfold eps. replace (/ 1048576) with (pw (-20)); [apply pw_le; lia|].
  change (-20)%Z with (- (20))%Z. rewrite pw_opp, pw_IZR by lia. reflexivity.
Qed.
#[local] Hint Resolve eps_pos eps_small : core.
Lemma low_pos n : 0 < (1 - eps) ^ n.
Proof. apply pow_lt. pose proof eps_small. lra. Qed.
Lemma low_le_1 n : (1 - eps) ^ n <= 1.
Proof.
  induction n as [|n IH]; cbn [pow]; [lra|]. pose proof (low_pos n). pose proof eps_pos. pose proof eps_small. nra.
Qed.
Lemma one_le_high n : 1 <= (1 + eps) ^ n.
Proof. apply pow_R1_Rle. pose proof eps_pos. lra. Qed.

Lemma low_anti n m : (n <= m)%nat -> (1 - eps) ^ m <= (1 - eps) ^ n.
Proof.
  intros Hnm. replace m with (n + (m - n))%nat by lia. rewrite pow_add.
  pose proof (low_pos n). pose proof (low_le_1 (m - n)). nra.
Qed.
Lemma high_mono n m : (n <= m)%nat -> (1 + eps) ^ n <= (1 + eps) ^ m.
Proof. intros Hnm. apply Rle_pow; [pose proof eps_pos; lra|done]. Qed.

Lemma near_0 x : near 0 x x.
Proof. exists 1. cbn. lra. Qed.
Lemma near_0_eq x r : near 0 x r -> r = x.
Proof. intros (f & -> & Hf). cbn in Hf. replace f with 1 by lra. lra. Qed.
Lemma near_weaken n m x r : (n <= m)%nat -> near n x r -> near m x r.
Proof.
  intros Hnm (f & -> & Hf). exists f. split; [done|].
  pose proof (low_anti n m Hnm). pose proof (high_mono n m Hnm). lra.
Qed.
Lemma near_trans n m x y z : near n x y -> near m y z -> near (n + m) x z.
Proof.
  intros (f & -> & Hf) (g & -> & Hg). exists (f * g). split; [lra|]. rewrite !pow_add.
  pose proof (low_pos n). pose proof (low_pos m). split; apply Rmult_le_compat; lra.
Qed.
Lemma near_mul n m x y r s : near n x r -> near m y s -> near (n + m) (x * y) (r * s).
Proof.
  intros (f & -> & Hf) (g & -> & Hg). exists (f * g). split; [lra|]. rewrite !pow_add.
  pose proof (low_pos n). pose proof (low_pos m). split; apply Rmult_le_compat; lra.
Qed.
Lemma near_add n x y r s : 0 <= x -> 0 <= y -> near n x r -> near n y s -> near n (x + y) (r + s).
Proof.
  intros Hx Hy (f & -> & Hf) (g & -> & Hg).
  destruct (Req_dec (x + y) 0) as [E|E].
  { exists 1. replace x with 0 by lra. replace y with 0 by lra. split; [lra|].
    pose proof (low_le_1 n). pose proof (one_le_high n). lra. }
  exists ((x * f + y * g) / (x + y)). split; [field; lra|].
  split; [apply (Rmult_le_reg_r (x + y))|apply (Rmult_le_reg_r (x + y))]; try lra;
    unfold Rdiv; rewrite (Rmult_assoc _ (/ _)), Rinv_l by lra; nra.
Qed.

(** Dividing by [1 + eps] loses no more than two factors [1 - eps]. *)
Lemma inv_high n : (1 - eps) ^ (2 * n) <= / (1 + eps) ^ n.
Proof.
  pose proof (one_le_high n). apply (Rmult_le_reg_r ((1 + eps) ^ n)); [lra|]. rewrite Rinv_l by lra.
  rewrite pow_mult, <- Rpow_mult_distr. apply Rle_trans with (1 ^ n); [apply pow_incr|rewrite pow1; lra].
  pose proof eps_pos. pose proof eps_small.
  replace ((1 - eps) ^ 2 * (1 + eps)) with ((1 - eps) * (1 - eps * eps)) by (cbn [pow]; lra). nra.
Qed.
Lemma inv_low n : / (1 - eps) ^ n <= (1 + eps) ^ (2 * n).
Proof.
  pose proof (low_pos n). apply (Rmult_le_reg_r ((1 - eps) ^ n)); [lra|]. rewrite Rinv_l by lra.
  rewrite pow_mult, <- Rpow_mult_distr. apply Rle_trans with (1 ^ n); [rewrite pow1; lra|apply pow_incr].
  pose proof eps_pos. pose proof eps_small.
  replace ((1 + eps) ^ 2 * (1 - eps)) with ((1 + eps) * (1 - eps * eps)) by (cbn [pow]; lra). nra.
Qed.
Lemma near_inv m y s : y <> 0 -> near m y s -> s <> 0 /\ near (2 * m) (/ y) (/ s).
Proof.
  intros Hy (g & -> & Hg). pose proof (low_pos m). pose proof (one_le_high m).
  split; [apply Rmult_integral_contrapositive; lra|].
  exists (/ g). split; [by rewrite Rinv_mult|].
  pose proof (inv_high m). pose proof (inv_low m).
  split; [eapply Rle_trans; [done|]|eapply Rle_trans; [|done]]; apply Rinv_le_contravar; lra.
Qed.
Lemma near_div n m x y r s : y <> 0 -> near n x r -> near m y s -> near (n + 2 * m) (x / y) (r / s).
Proof. intros Hy Hr Hs. apply near_mul; [done|]. by apply near_inv. Qed.

Lemma high_bound n : INR n * eps <= / 2 -> (1 + eps) ^ n <= 1 + 2 * INR n * eps.
Proof.
  induction n as [|n IH]; intros Hn; [cbn; lra|]. rewrite S_INR in *. cbn [pow].
  pose proof eps_pos. pose proof (pos_INR n). specialize (IH ltac:(nra)). pose proof (one_le_high n). nra.
Qed.
Lemma low_bound n : 1 - INR n * eps <= (1 - eps) ^ n.
Proof.
  induction n as [|n IH]; [cbn; lra|]. rewrite S_INR. cbn [pow].
  pose proof eps_pos. pose proof eps_small. pose proof (low_pos n). pose proof (pos_INR n). pose proof (low_le_1 n). nra.
Qed.
Lemma count_eps n : (n <= 1000)%nat -> 0 <= INR n * eps <= / 1000.
Proof.
  intros Hn. assert (INR n <= 1000) by (rewrite INR_IZR_INZ; apply IZR_le; lia).
  pose proof eps_pos. pose proof eps_small. pose proof (pos_INR n).
  split; [by apply Rmult_le_pos; [|apply Rlt_le]|].
  apply Rle_trans with (1000 * eps); [apply Rmult_le_compat_r; lra|lra].
Qed.
(** The error that [n] roundings make. *)
Lemma near_bound n x r : (n <= 1000)%nat -> 0 <= x -> near n x r ->
  x * (1 - 2 * INR n * eps) <= r <= x * (1 + 2 * INR n * eps).
Proof.
  intros Hn Hx (f & -> & Hf). pose proof (count_eps n Hn).
  pose proof (high_bound n ltac:(lra)). pose proof (low_bound n).
  split; apply Rmult_le_compat_l; lra.
Qed.
Lemma near_half n x r : (n <= 1000)%nat -> 0 <= x -> near n x r -> x * / 2 <= r <= x * 2.
Proof.
  intros Hn Hx Hr. apply near_bound in Hr; [|done|done]. pose proof (count_eps n Hn).
  destruct Hr as [Hlo Hhi]. split; [eapply Rle_trans; [|exact Hlo]|eapply Rle_trans; [exact Hhi|]];
    apply Rmult_le_compat_l; lra.
Qed.

(** A double [v] that approximates [x] after [n] roundings, far from overflow
    and underflow. *)
Definition sized (k : Z) (x : R) : Prop := x = 0 \/ pw (- k) <= x <= pw k.
Definition approx (n : nat) (k : Z) (x : R) (v : spec_float) : Prop :=
  sized k x /\ exists r, rep false r v /\ near n x r.

Lemma within_nonneg k x : sized k x -> 0 <= x.
Proof. intros [->|[Hx _]]; [lra|]. pose proof (pw_pos (- k)). lra. Qed.
Lemma within_le k l x : (k <= l)%Z -> sized k x -> sized l x.
Proof.
  intros Hkl [->|[Hlo Hhi]]; [by left|right].
  pose proof (pw_le (- l) (- k) ltac:(lia)). pose proof (pw_le k l Hkl). lra.
Qed.
Lemma within_mul k l x y : sized k x -> sized l y -> sized (k + l) (x * y).
Proof.
  intros [->|[Hxl Hxh]] [->|[Hyl Hyh]]; [left; lra..|]. right.
  replace (- (k + l))%Z with (- k + - l)%Z by lia. rewrite !pw_add.
  pose proof (pw_pos (- k)). pose proof (pw_pos (- l)). split; apply Rmult_le_compat; lra.
Qed.
Lemma within_inv l y : y <> 0 -> sized l y -> sized l (/ y).
Proof.
  intros Hy [->|[Hyl Hyh]]; [done|right]. pose proof (pw_pos (- l)). pose proof (pw_pos l).
  rewrite pw_opp in *. replace (pw l) with (/ / pw l) at 2 by (by rewrite Rinv_inv).
  split; apply Rinv_le_contravar; lra.
Qed.
Lemma within_div k l x y : y <> 0 -> sized k x -> sized l y -> sized (k + l) (x / y).
Proof. intros Hy Hx Hyl. by apply within_mul; [|apply within_inv]. Qed.
Lemma within_near n k x r : (n <= 1000)%nat -> sized k x -> near n x r -> sized (k + 1) r.
Proof.
  intros Hn Hx Hr. pose proof (within_nonneg _ _ Hx) as Hx0. apply near_half in Hr as [Hlo Hhi]; [|done|done].
  destruct Hx as [->|Hx]; [left; lra|right].
  replace (- (k + 1))%Z with (- k + - (1))%Z by lia. rewrite !pw_add, (pw_opp 1).
  change (pw 1) with (2 * 1). rewrite Rmult_1_r. lra.
Qed.
Lemma within_huge k x : (k <= 960)%Z -> sized k x -> x < huge 53 1024.
Proof.
  intros Hk [->|[_ Hhi]]; [apply pw_pos|]. eapply Rle_lt_trans; [exact Hhi|].
  apply Rle_lt_trans with (pw 960); [by apply pw_le|]. unfold huge.
  change (1024 - 53 - 1)%Z with (969 + 1)%Z. rewrite pw_succ.
  pose proof (pw_pos 969). pose proof (pw_le 960 969 ltac:(lia)). lra.
Qed.

Lemma rounded_near x r : sized 960 x -> rounded 53 1024 x r -> near 1 x r.
Proof.
  intros Hw [Herr Hz]. pose proof (within_nonneg _ _ Hw) as Hx.
  destruct (Req_dec x 0) as [E|E]; [rewrite Hz by done; rewrite E; apply (near_weaken 0); [lia|apply near_0]|].
  destruct Hw as [?|[Hlo _]]; [done|]. exists (r / x). split; [field; done|].
  assert (Rabs (r - x) <= x * eps) as Hb.
  { eapply Rle_trans; [exact Herr|]. change (ulp 53) with eps. unfold tiny, SpecFloat.emin. std_Z.
    apply Rle_trans with (x * (eps * / 2) + x * pw (-53)).
    - apply Rplus_le_compat_l. apply Rle_trans with (pw (-960) * pw (-53)).
      + rewrite <- pw_add. apply pw_le. lia.
      + apply Rmult_le_compat_r; [apply Rlt_le, pw_pos|done].
    - unfold eps. change (-52)%Z with (-53 + 1)%Z. rewrite pw_succ. lra. }
  cbn [pow]. rewrite !Rmult_1_r. unfold Rabs in Hb.
  split; apply (Rmult_le_reg_r x); try lra; unfold Rdiv; rewrite Rmult_assoc, Rinv_l by lra;
    destruct (Rcase_abs _); lra.
Qed.

Lemma approx_of_Z z : (0 <= z < 2 ^ 64)%Z -> approx 1 64 (IZR z) (Flt.of_Z 53 1024 z).
Proof.
  intros Hz. assert (sized 64 (IZR z)) as Hw.
  { destruct (Z.eq_dec z 0) as [->|]; [by left|right]. split.
    - apply Rle_trans with (pw 0); [by apply pw_le|]. rewrite pw_0. apply IZR_le. lia.
    - rewrite pw_IZR by lia. apply IZR_le. lia. }
  split; [done|]. destruct (of_Z_spec 53 1024 ltac:(lia) ltac:(lia) z) as (r & Hr & Hrd & _);
    [lia|by eapply within_huge; [|exact Hw]|].
  exists r. split; [done|]. apply rounded_near; [by apply (within_le 64)|done].
Qed.
Lemma approx_of_Z_exact z : (0 <= z < 2 ^ 53)%Z -> approx 0 64 (IZR z) (Flt.of_Z 53 1024 z).
Proof.
  intros Hz. destruct (approx_of_Z z ltac:(lia)) as [Hw _]. split; [done|].
  destruct (of_Z_spec 53 1024 ltac:(lia) ltac:(lia) z) as (r & Hr & _ & Hex);
    [lia|by eapply within_huge; [|exact Hw]|].
  rewrite Hex in Hr by lia. exists (IZR z). split; [done|apply near_0].
Qed.
Lemma approx_rep k x v : sized k x -> rep false x v -> approx 0 k x v.
Proof. intros Hw Hr. split; [done|]. exists x. split; [done|apply near_0]. Qed.
Lemma approx_weaken n m k l x v : (n <= m)%nat -> (k <= l)%Z -> approx n k x v -> approx m l x v.
Proof.
  intros Hnm Hkl [Hw (r & Hr & Hn)]. split; [by eapply within_le|]. exists r.
  split; [done|by eapply near_weaken].
Qed.

Lemma approx_mul n m k l x y a b : (n + m <= 1000)%nat -> (k + l <= 900)%Z ->
  approx n k x a -> approx m l y b -> approx (n + m + 1) (k + l) (x * y) (Flt.mul 53 1024 a b).
Proof.
  intros Hn Hk [Hwx (r & Hr & Hnr)] [Hwy (s & Hs & Hns)].
  assert (sized (k + l) (x * y)) as Hw by by apply within_mul. split; [done|].
  pose proof (near_mul _ _ _ _ _ _ Hnr Hns) as Hrs.
  assert (sized (k + l + 1) (r * s)) as Hwr by by eapply within_near.
  destruct (mul_spec 53 1024 ltac:(lia) ltac:(lia) false false r s a b) as (z & Hz & Hzr);
    [done|done|by eapply within_huge; [|exact Hwr]; lia|].
  exists z. split; [done|]. eapply near_trans; [exact Hrs|]. apply rounded_near; [|done].
  eapply within_le; [|exact Hwr]. lia.
Qed.

Lemma approx_div n m k l x y a b : (n + 2 * m <= 1000)%nat -> (k + l <= 900)%Z -> y <> 0 ->
  approx n k x a -> approx m l y b -> approx (n + 2 * m + 1) (k + l) (x / y) (Flt.div 53 1024 a b).
Proof.
  intros Hn Hk Hy [Hwx (r & Hr & Hnr)] [Hwy (s & Hs & Hns)].
  assert (sized (k + l) (x / y)) as Hw by by apply within_div. split; [done|].
  pose proof (near_div _ _ _ _ _ _ Hy Hnr Hns) as Hrs.
  assert (sized (k + l + 1) (r / s)) as Hwr by by eapply within_near.
  assert (0 < s) as Hs0.
  { destruct (near_inv _ _ _ Hy Hns) as [? _]. pose proof (rep_nonneg _ _ _ Hs). lra. }
  destruct (div_spec 53 1024 ltac:(lia) ltac:(lia) false false r s a b) as (z & Hz & Hzr); try done.
  { destruct Hwr as [E|[Hlo _]].
    - left. unfold Rdiv in E. apply Rmult_integral in E as [E|E]; [done|]. by apply Rinv_neq_0_compat in E; [|lra].
    - right. eapply Rle_trans; [|exact Hlo]. apply pw_le. unfold SpecFloat.emin. std_Z. lia. }
  { eapply within_huge; [|exact Hwr]. lia. }
  exists z. split; [done|]. eapply near_trans; [exact Hrs|]. apply rounded_near; [|done].
  eapply within_le; [|exact Hwr]. lia.
Qed.

Lemma within_add k x y : sized k x -> sized k y -> sized (k + 1) (x + y).
Proof.
  intros Hx Hy. pose proof (within_nonneg _ _ Hx). pose proof (within_nonneg _ _ Hy).
  assert (pw (- (k + 1)) <= pw (- k)) by (apply pw_le; lia).
  destruct Hx as [->|Hx], Hy as [->|Hy]; [left; lra|right..]; rewrite pw_succ; pose proof (pw_pos k); lra.
Qed.
Lemma approx_add n k x y a b : (n <= 1000)%nat -> (k <= 900)%Z ->
  approx n k x a -> approx n k y b -> approx (n + 1) (k + 1) (x + y) (Flt.add 53 1024 a b).
Proof.
  intros Hn Hk [Hwx (r & Hr & Hnr)] [Hwy (s & Hs & Hns)].
  assert (sized (k + 1) (x + y)) as Hw by by apply within_add. split; [done|].
  pose proof (near_add _ _ _ _ _ (within_nonneg _ _ Hwx) (within_nonneg _ _ Hwy) Hnr Hns) as Hrs.
  assert (sized (k + 1 + 1) (r + s)) as Hwr by by eapply within_near.
  destruct (add_spec 53 1024 ltac:(lia) ltac:(lia) r s a b) as (z & Hz & Hzr);
    [done|done|by eapply within_huge; [|exact Hwr]; lia|].
  exists z. split; [done|]. eapply near_trans; [exact Hrs|]. apply rounded_near; [|done].
  eapply within_le; [|exact Hwr]. lia.
Qed.

(** Two different doubles are not closer than a unit in the last place. *)
Lemma rep_exp k s x m e : rep s x (S754_finite s m e) -> pw (- k) <= x -> (- k - 53 < e)%Z.
Proof.
  cbn [rep]. intros (_ & Hm & ->) Hk. apply pw_lt_inv. apply IZR_lt in Hm. rewrite <- pw_IZR in Hm by lia.
  pose proof (pw_pos e). pose proof (pw_pos (- 53)).
  replace (- k - 53)%Z with (- k + - (53))%Z by lia. rewrite pw_add.
  apply Rle_lt_trans with (IZR (Z.pos m) * pw e * pw (- (53))); [apply Rmult_le_compat_r; [apply Rlt_le, pw_pos|done]|].
  replace (pw e) with (pw 53 * pw e * pw (- (53))) at 2.
  - pose proof (pw_pos (- (53))). apply Rmult_lt_compat_r; [done|]. by apply Rmult_lt_compat_r.
  - rewrite (Rmult_comm (pw 53)), Rmult_assoc, (Rmult_comm (pw 53)), pw_neg. lra.
Qed.
Lemma sub_gap k x y a b : sized k x -> sized k y -> rep false x a -> rep false y b -> y < x ->
  sized (k + 53) (x - y).
Proof.
  intros Hwx Hwy Ha Hb Hyx. assert (0 < x) as Hx0 by (pose proof (within_nonneg _ _ Hwy); lra).
  pose proof (within_nonneg _ _ Hwy) as Hy0. right.
  destruct Hwx as [?|[Hlox Hhix]]; [lra|]. pose proof (pw_le k (k + 53) ltac:(lia)).
  split; [|lra]. destruct a as [| | |sa m e]; cbn [rep] in Ha; try tauto; [lra|].
  assert (sa = false) as -> by tauto. pose proof (rep_exp k false x m e Ha Hlox) as He.
  destruct b as [| | |sb m' e']; cbn [rep] in Hb; try tauto.
  { destruct Hb as [_ ->]. rewrite Rminus_0_r. pose proof (pw_le (- (k + 53)) (- k) ltac:(lia)). lra. }
  assert (sb = false) as -> by tauto. destruct Hwy as [E|[Hloy _]].
  { rewrite E, Rminus_0_r. pose proof (pw_le (- (k + 53)) (- k) ltac:(lia)). lra. }
  pose proof (rep_exp k false y m' e' Hb Hloy) as He'. set (ez := Z.min e e').
  assert (IZR (Z.pos (shl_align m e ez).1 - Z.pos (shl_align m' e' ez).1) * pw ez = x - y) as Hd.
  { rewrite minus_IZR, Rmult_minus_distr_r, !shl_fst by lia. destruct Ha as (_ & _ & ->), Hb as (_ & _ & ->). done. }
  set (d := (_ - _)%Z) in Hd. assert (0 < d)%Z as Hdpos.
  { apply lt_IZR. pose proof (pw_pos ez). destruct (Rlt_le_dec 0 (IZR d)); [done|]. nra. }
  apply Rle_trans with (pw ez); [apply pw_le; lia|]. rewrite <- Hd.
  assert (1 <= IZR d) by (apply IZR_le; lia). pose proof (pw_pos ez). nra.
Qed.
(** So subtracting exact operands is one rounding. *)
Lemma approx_sub k x y a b : (k <= 800)%Z -> sized k x -> sized k y -> y <= x ->
  rep false x a -> rep false y b -> approx 1 (k + 53) (x - y) (Flt.sub 53 1024 a b).
Proof.
  intros Hk Hwx Hwy Hyx Ha Hb.
  assert (sized (k + 53) (x - y)) as Hw.
  { destruct (Req_dec x y) as [->|]; [left; lra|]. eapply sub_gap; [exact Hwx|exact Hwy|done..|lra]. }
  split; [done|].
  destruct (sub_spec 53 1024 ltac:(lia) ltac:(lia) x y a b) as (z & Hz & Hzr);
    [done|done|eapply within_huge; [|exact Hwx]; lia|eapply within_huge; [|exact Hwy]; lia|].
  destruct (Rlt_dec x y); [lra|]. exists z. split; [done|].
  rewrite Rabs_pos_eq in Hzr by lra. apply rounded_near; [|done]. by apply (within_le (k + 53)); [lia|].
Qed.
Lemma sub_negative k x y a b : (k <= 800)%Z -> sized k x -> sized k y -> x < y ->
  rep false x a -> rep false y b -> exists r, rep true r (Flt.sub 53 1024 a b) /\ sized (k + 54) r.
Proof.
  intros Hk Hwx Hwy Hxy Ha Hb.
  destruct (sub_spec 53 1024 ltac:(lia) ltac:(lia) x y a b) as (z & Hz & Hzr);
    [done|done|eapply within_huge; [|exact Hwx]; lia|eapply within_huge; [|exact Hwy]; lia|].
  destruct (Rlt_dec x y); [|lra]. exists z. split; [done|].
  rewrite Rabs_minus_sym, Rabs_pos_eq in Hzr by lra.
  pose proof (sub_gap k y x b a Hwy Hwx Hb Ha Hxy) as Hw.
  replace (k + 54)%Z with (k + 53 + 1)%Z by lia. apply (within_near 1 _ (y - x)); [lia|done|].
  apply rounded_near; [|done]. by apply (within_le (k + 53)); [lia|].
Qed.

(** ** To integers *)

Lemma div_real a b : (0 < b)%Z -> IZR (a / b) <= IZR a / IZR b < IZR (a / b) + 1.
Proof.
  intros Hb. assert (0 < IZR b) as Hb' by by apply IZR_lt.
  pose proof (Z.mul_div_le a b Hb) as Hlo%IZR_le. pose proof (Z.mul_succ_div_gt a b Hb) as Hhi%IZR_lt.
  rewrite mult_IZR in *. rewrite succ_IZR in Hhi.
  split; [apply (Rmult_le_reg_r (IZR b))|apply (Rmult_lt_reg_r (IZR b))]; try done;
    unfold Rdiv; rewrite Rmult_assoc, Rinv_l by lra; lra.
Qed.
Lemma finite_real m e : (e < 0)%Z -> IZR (Z.pos m) * pw e = IZR (Z.pos m) / IZR (2 ^ (- e)).
Proof.
  intros He. rewrite <- pw_IZR by lia. unfold Rdiv. rewrite <- pw_opp. by rewrite Z.opp_involutive.
Qed.

Lemma floor_spec w x v : (0 <= w)%Z -> rep false x v -> x < IZR (2 ^ w) ->
  IZR (Flt.floor_to w v) <= x < IZR (Flt.floor_to w v) + 1.
Proof.
  intros Hw Hr Hx. destruct v as [s| | |s m e]; cbn [rep] in Hr; try tauto;
    [destruct Hr as [-> ->]|destruct Hr as (-> & _ & ->)]; cbn [Flt.floor_to].
  { lra. }
  destruct (Z.leb_spec 0 e) as [He|He].
  - rewrite pw_IZR, <- mult_IZR in * by done. apply lt_IZR in Hx. rewrite Z.min_r by lia. lra.
  - rewrite finite_real in * by done. pose proof (Z.pow_pos_nonneg 2 (- e)) as Hp.
    pose proof (div_real (Z.pos m) (2 ^ (- e)) ltac:(lia)) as Hd.
    assert (Z.pos m / 2 ^ (- e) < 2 ^ w)%Z by (apply lt_IZR; lra). rewrite Z.min_r by lia. done.
Qed.
Lemma ceil_spec w x v : (0 <= w)%Z -> rep false x v -> x <= IZR (2 ^ w - 1) ->
  IZR (Flt.ceil_to w v) - 1 < x <= IZR (Flt.ceil_to w v).
Proof.
  intros Hw Hr Hx. destruct v as [s| | |s m e]; cbn [rep] in Hr; try tauto;
    [destruct Hr as [-> ->]|destruct Hr as (-> & _ & ->)];
    cbn [Flt.ceil_to Flt.floor_to].
  { lra. }
  destruct (Z.leb_spec 0 e) as [He|He].
  - rewrite pw_IZR, <- mult_IZR in * by done. apply le_IZR in Hx. rewrite Z.min_r by lia. lra.
  - rewrite finite_real in * by done. pose proof (Z.pow_pos_nonneg 2 (- e) ltac:(lia) ltac:(lia)) as Hp.
    set (d := (2 ^ (- e))%Z) in *. assert (0 < IZR d) as Hd by by apply IZR_lt.
    assert (IZR ((Z.pos m + d - 1) / d) - 1 < IZR (Z.pos m) / IZR d <= IZR ((Z.pos m + d - 1) / d)) as Hc.
    { pose proof (Z.mul_div_le (Z.pos m + d - 1) d Hp) as Hlo.
      pose proof (Z.mul_succ_div_gt (Z.pos m + d - 1) d Hp) as Hhi.
      set (q := ((Z.pos m + d - 1) / d)%Z) in *.
      assert (d * (q - 1) < Z.pos m)%Z as H1%IZR_lt by lia. assert (Z.pos m <= d * q)%Z as H2%IZR_le by lia.
      rewrite mult_IZR in *. rewrite minus_IZR in H1.
      split; [apply (Rmult_lt_reg_r (IZR d))|apply (Rmult_le_reg_r (IZR d))]; try done;
        unfold Rdiv; rewrite Rmult_assoc, Rinv_l by lra; lra. }
    assert ((Z.pos m + d - 1) / d - 1 < 2 ^ w - 1)%Z by (apply lt_IZR; rewrite minus_IZR; lra).
    rewrite Z.min_r by lia. done.
Qed.
Lemma round_spec_to w x v : (0 <= w)%Z -> rep false x v -> x < IZR (2 ^ w - 1) ->
  IZR (Flt.round_to w v) - / 2 <= x < IZR (Flt.round_to w v) + / 2.
Proof.
  intros Hw Hr Hx. destruct v as [s| | |s m e]; cbn [rep] in Hr; try tauto;
    [destruct Hr as [-> ->]|destruct Hr as (-> & _ & ->)];
    cbn [Flt.round_to Flt.floor_to].
  { lra. }
  destruct (Z.leb_spec 0 e) as [He|He].
  - rewrite pw_IZR, <- mult_IZR in * by done. apply lt_IZR in Hx. rewrite Z.min_r by lia. lra.
  - rewrite finite_real in * by done. pose proof (Z.pow_pos_nonneg 2 (- e) ltac:(lia) ltac:(lia)) as Hp.
    replace (1 - e)%Z with (1 + - e)%Z by lia. rewrite Z.pow_add_r by lia. change (2 ^ 1)%Z with 2%Z.
    set (d := (2 ^ (- e))%Z) in *. assert (0 < IZR d) as Hd by by apply IZR_lt.
    pose proof (div_real (2 * Z.pos m + d) (2 * d) ltac:(lia)) as Hc.
    rewrite plus_IZR, !mult_IZR in Hc.
    replace ((2 * IZR (Z.pos m) + IZR d) / (2 * IZR d)) with (IZR (Z.pos m) / IZR d + / 2) in Hc by (field; lra).
    assert ((2 * Z.pos m + d) / (2 * d) < 2 ^ w)%Z.
    { apply lt_IZR. rewrite minus_IZR in Hx. lra. }
    rewrite Z.min_r by lia. lra.
Qed.
(** What is negative has no floor and no maximum with zero but zero. *)
Lemma floor_negative w r v : rep true r v -> Flt.floor_to w v = 0%Z.
Proof. destruct v as [s| | |s m e]; cbn [rep]; try tauto; by intros [-> _]. Qed.

(** ** From [f32] *)

Lemma widen_exact s x v : valid_binary 24 128 v = true -> rep s x v -> rep s x (Flt.widen v).
Proof.
  destruct v as [t| | |t m e]; cbn [rep valid_binary Flt.widen]; try tauto. intros Hv (-> & Hm53 & Hx).
  unfold bounded, canonical_mantissa in Hv. apply andb_true_iff in Hv as [He Hmax].
  apply Z.eqb_eq in He. apply Z.leb_le in Hmax. revert He Hmax.
  unfold SpecFloat.fexp, SpecFloat.emin. std_Z. intros He Hmax.
  pose proof (mantissa_range m) as [_ Hm]. set (d := Z.pos (digits2_pos m)) in *.
  assert (x < huge 53 1024) as Hbig.
  { apply Rlt_trans with (pw (d + e)).
    - rewrite Hx, pw_add. apply Rmult_lt_compat_r; [apply pw_pos|done].
    - unfold huge. apply Rle_lt_trans with (pw 960); [apply pw_le; lia|].
      change (1024 - 53 - 1)%Z with (969 + 1)%Z. rewrite pw_succ.
      pose proof (pw_pos 969). pose proof (pw_le 960 969 ltac:(lia)). lra. }
  destruct (round_spec 53 1024 ltac:(lia) ltac:(lia) s m e x) as (r & Hr & _ & Hex); [done|done|].
  rewrite Hex in Hr; [by destruct s|].
  unfold SpecFloat.fexp, SpecFloat.emin. std_Z. fold d. lia.
Qed.
