(* ===== verification/Exchange.v ===== *)
(** * Currencies, exchange rates and VAT rates
    ([lnvps_api_common/src/exchange.rs], [lnvps_api_common/src/vat.rs])

    Amounts are counted in the smallest unit of their currency: milli-satoshi for
    bitcoin, hundredths for the rest. Currencies and amounts belong to the
    [payments_rs] crate and country codes to [isocountry]; both are interfaces
    here. Text is ASCII: [to_uppercase] is that of ASCII letters. *)

From Stdlib Require Import Ascii String SpecFloat.
From S2P Require Import Prelude NetText IpAlloc Network HostTypes.

Notation f32 := spec_float (only parsing).
Notation f64_of := (Flt.of_Z 53 1024).
Notation f64_add := (Flt.add 53 1024).
Notation f64_sub := (Flt.sub 53 1024).
Notation f64_mul := (Flt.mul 53 1024).
Notation f64_div := (Flt.div 53 1024).

(** [0.0], [1.0] and [100.0] of both widths are the same values. *)
Definition zero : spec_float := S754_zero false.
Definition one : spec_float := f64_of 1.
Definition hundred : spec_float := f64_of 100.

(** ** The crates *)

(** [payments_rs::currency]: parsing and showing a currency, an amount with its
    currency, and the subtraction of amounts. *)
Class PaymentsRs := {
  Currency : Type;
  Currency_eq_dec :: EqDecision Currency;
  Currency_countable :: Countable Currency;
  BTC : Currency;
  EUR : Currency;
  parse_currency : string -> option Currency;
  show_currency : Currency -> string;
  CurrencyAmount : Type;
  from_u64 : Currency -> Z -> CurrencyAmount;
  currency : CurrencyAmount -> Currency;
  value : CurrencyAmount -> Z;
  amount_sub : CurrencyAmount -> CurrencyAmount -> option CurrencyAmount
}.
(** What the code relies on of it. *)
Class PaymentsRsLaws `{!PaymentsRs} := {
  btc_not_eur : BTC <> EUR;
  parse_show c : parse_currency (show_currency c) = Some c;
  currency_from c v : currency (from_u64 c v) = c;
  value_from c v : fits 64 v -> value (from_u64 c v) = v;
  value_fits a : fits 64 (value a);
  amount_sub_same a b c : amount_sub a b = Some c -> currency a = currency b /\ currency c = currency a;
  amount_sub_value a b c : amount_sub a b = Some c -> value b <= value a -> value c = value a - value b
}.
(** [isocountry::CountryCode] *)
Class IsoCountry := {
  CountryCode : Type;
  CountryCode_eq_dec :: EqDecision CountryCode;
  CountryCode_countable :: Countable CountryCode;
  for_alpha2 : string -> option CountryCode;
  for_alpha3 : string -> option CountryCode;
  alpha3 : CountryCode -> string
}.
Class IsoCountryLaws `{!IsoCountry} := alpha3_roundtrip c : for_alpha3 (alpha3 c) = Some c.

(** ** Text *)

(** [char::to_uppercase] of an ASCII letter. *)
Definition upper_char (c : ascii) : ascii :=
  let n := N_of_ascii c in
  if (97 <=? Z.of_N n) && (Z.of_N n <=? 122) then ascii_of_N (n - 32) else c.
Definition to_uppercase (s : string) : string :=
  String.string_of_list_ascii (map upper_char (String.list_ascii_of_string s)).
Definition is_ascii_alphabetic (c : ascii) : bool :=
  let n := Z.of_N (N_of_ascii c) in ((65 <=? n) && (n <=? 90)) || ((97 <=? n) && (n <=? 122)).
Definition is_ascii_alphanumeric (c : ascii) : bool :=
  let n := Z.of_N (N_of_ascii c) in is_ascii_alphabetic c || ((48 <=? n) && (n <=? 57)).

(** ** Errors of the conversions and of the pricing engine *)
Inductive PriceError : Type :=
| CannotConvert | ExchangeDoesntMatch | BadSubtraction | NoExchangeRate | NoConversionPath
| CantGetPrice | InvalidCurrency | NoDiskPrice | CpuOutOfRange | MemoryOutOfRange | DiskOutOfRange
| NotTemplateVm | NotCustomVm | NoTemplate | NoCustomPricing | DeletedVm | NeverPaid | ExpiredVm
| BelowMinimum | WrongCurrency | AmountTooSmall | TimeTooShort | NoLineItems | ZeroCost
| ZeroConverted | HostSunset | TooFarAhead | NotBtc | NotFiat | NotConfigured | NotImplemented.

(** ** Exchange rates *)

Section exchange.
Context `{!PaymentsRs}.

(** [Ticker(base, target)] *)
Definition Ticker : Type := Currency * Currency.
Record TickerRate := { ticker : Ticker; rate : f32 }.
Record ConvertedCurrencyAmount := { amount : CurrencyAmount; conv_rate : TickerRate }.

(** [ConvertedCurrencyAmount - ConvertedCurrencyAmount] *)
Definition converted_sub (a b : ConvertedCurrencyAmount) : res PriceError ConvertedCurrencyAmount :=
  if decide (ticker (conv_rate a) = ticker (conv_rate b)) then
    d ← ok_or BadSubtraction (amount_sub (amount a) (amount b));
    Ok {| amount := d; conv_rate := conv_rate a |}
  else Err ExchangeDoesntMatch.

Definition can_convert (t : TickerRate) (c : Currency) : bool :=
  bool_decide (c = (ticker t).1) || bool_decide (c = (ticker t).2).

(** Smallest units per standard unit. *)
Definition scale (c : Currency) : spec_float :=
  if decide (c = BTC) then f64_of 100000000000 else hundred.

(** The value of [convert], in doubles up to the last rounding. *)
Definition convert_value (src dst : Currency) (factor : spec_float) (v : Z) : Z :=
  let src_standard := f64_div (f64_of v) (scale src) in
  let dst_standard := f64_mul src_standard factor in
  Flt.round_to 64 (f64_mul dst_standard (scale dst)).

Definition convert (t : TickerRate) (source : CurrencyAmount) : res PriceError CurrencyAmount :=
  if can_convert t (currency source) then
    let r := Flt.widen (rate t) in
    let '(target, factor) :=
      if decide (currency source = (ticker t).1) then ((ticker t).2, r)
      else ((ticker t).1, f64_div one r) in
    Ok (from_u64 target (convert_value (currency source) target factor (value source)))
  else Err CannotConvert.

Definition passthrough (c : Currency) : TickerRate := {| ticker := (c, c); rate := one |}.

Definition convert_with_rate (t : TickerRate) (source : CurrencyAmount)
  : res PriceError ConvertedCurrencyAmount :=
  a ← convert t source;
  Ok {| amount := a; conv_rate := t |}.

(** The in-memory service: a map from tickers to rates. *)
Definition RateCache : Type := gmap Ticker f32.
Definition set_rate (t : Ticker) (r : f32) (m : RateCache) : RateCache := <[t := r]> m.
Definition get_rate (t : Ticker) (m : RateCache) : option f32 := m !! t.
Definition list_rates (m : RateCache) : list TickerRate :=
  (fun p => {| ticker := p.1; rate := p.2 |}) <$> map_to_list m.

(** Keep the first amount of each currency. *)
Fixpoint first_of_each (seen : gset Currency) (l : list CurrencyAmount) : list CurrencyAmount :=
  match l with
  | [] => []
  | a :: l =>
      if decide (currency a ∈ seen) then first_of_each seen l
      else a :: first_of_each ({[ currency a ]} ∪ seen) l
  end.
Definition ok_list {E A} (r : res E A) : list A := match r with Ok a => [a] | Err _ => [] end.

Definition alt_prices (rates : list TickerRate) (source : CurrencyAmount) : list CurrencyAmount :=
  let other := filter (fun c => currency c <> currency source) in
  let direct := other (rates ≫= fun r => ok_list (convert r source)) in
  let cross := rates ≫= fun y => direct ≫= fun x => other (ok_list (convert y x)) in
  first_of_each ∅ (direct ++ cross).

(** What the feed of fiat rates for [base] is asked for ([fetch_fiat_fx_rates]). *)
Definition fx_symbols (base : Currency) (symbols : list Currency) : list Currency :=
  if decide (base = BTC) then []
  else filter (fun c => c <> base /\ c <> BTC) symbols.
End exchange.

Arguments RateCache {_}.
Arguments Ticker {_}.

(** ** VAT rates *)

Section vat.
Context `{!IsoCountry}.

(** The rates published under [EL] are those of Greece. *)
Definition vat_code_to_isocountry (code : string) : option CountryCode :=
  let up := to_uppercase code in
  for_alpha2 (if decide (up = "EL"%string) then "GR"%string else up).

(** A rate with the two bytes of its code. *)
Record VatRate := { vr_code : string; vr_rate : f32 }.
Definition VatRate_new (code : string) (rate : f32) : option VatRate :=
  if decide (String.length code = 2%nat) then Some {| vr_code := code; vr_rate := rate |} else None.
Definition percent (r : f32) : spec_float := f64_div (Flt.widen r) hundred.
Definition calculate_vat (r : VatRate) (net_amount : Z) : Z :=
  Flt.round_to 64 (f64_mul (f64_of net_amount) (percent (vr_rate r))).
Definition gross_from_net (r : VatRate) (net_amount : Z) : Z :=
  wadd 64 net_amount (calculate_vat r net_amount).
Definition vat_net_from_gross (r : VatRate) (gross_amount : Z) : Z :=
  Flt.round_to 64 (f64_div (f64_of gross_amount) (f64_add one (percent (vr_rate r)))).

(** The cache of [VatClient], replaced as a whole by a refresh. *)
Definition VatCache : Type := gmap CountryCode f32.
Definition rate_for (m : VatCache) (c : CountryCode) : option f32 := m !! c.
(** [fetch_rates_map], from the codes and rates of the response. *)
Definition rates_map (response : list (string * f32)) : VatCache :=
  foldl (fun m e =>
    match VatRate_new e.1 e.2 with
    | Some r => match vat_code_to_isocountry (vr_code r) with Some cc => <[cc := vr_rate r]> m | None => m end
    | None => m
    end) ∅ response.
End vat.
Arguments VatCache {_}.

(** How [validate_vat_number] splits what it is given into country and number. *)
Definition split_vat_number (vat_number : string) (country_code : option string)
  : option (string * string) :=
  let cleaned := filter (fun c => c <> " "%char /\ c <> "."%char /\ c <> "-"%char)
    (String.list_ascii_of_string vat_number) in
  match country_code with
  | Some cc => Some (to_uppercase cc, String.string_of_list_ascii cleaned)
  | None =>
      match cleaned with
      | c0 :: c1 :: number =>
          if bool_decide (number = []) then None
          else if is_ascii_alphabetic c0 && is_ascii_alphabetic c1 then
            Some (to_uppercase (String c0 (String c1 EmptyString)), String.string_of_list_ascii number)
          else None
      | _ => None
      end
  end.

Inductive TraderMatch : Type := Valid | Invalid | NotProcessed.
#[export] Instance TraderMatch_eq_dec : EqDecision TraderMatch.
Proof. solve_decision. Defined.

Record TraderDetails := {
  td_name : option string; td_street : option string; td_postal_code : option string;
  td_city : option string; td_company_type : option string
}.
Definition trader_is_empty (t : TraderDetails) : bool :=
  let empty (o : option string) := bool_decide (trim (default EmptyString o) = EmptyString) in
  empty (td_name t) && empty (td_street t) && empty (td_postal_code t) && empty (td_city t)
  && empty (td_company_type t).

(** The matches of a [VatValidationResult] and the labels of those that failed. *)
Record TraderMatches := {
  name_match : option TraderMatch; street_match : option TraderMatch;
  postal_code_match : option TraderMatch; city_match : option TraderMatch;
  company_type_match : option TraderMatch
}.
Definition mismatched_fields (m : TraderMatches) : list string :=
  let push o (label : string) := if decide (o = Some Invalid) then [label] else [] in
  push (name_match m) "name"%string ++ push (street_match m) "address"%string ++
  push (postal_code_match m) "postcode"%string ++ push (city_match m) "city"%string ++
  push (company_type_match m) "company type"%string.
