(* ===== verification/SubDb.v ===== *)
(** * Subscriptions: rows, the database, clocks and remote calls
    ([lnvps_db/src/model.rs], [lnvps_db/src/mysql.rs])

    The tables that the subscription code reads and writes are lists of rows in
    the order of their primary keys; a query is a filter over them. A [World] is
    the tables, the log of calls to other services with their outcome, the
    number of times the clock was read, and the deposits that the chain watcher
    has reported. Times are nanoseconds since the epoch;
    what SQL writes is cut to whole seconds. Text sent to people is not modelled:
    a message is the event it reports. *)

From S2P Require Import Prelude NetText IpAlloc Network HostTypes Exchange.

(** ** JSON values ([serde_json::Value]; floating-point numbers are left out) *)
Inductive Json : Type :=
| JNull
| JBool (b : bool)
| JNumber (n : Z)
| JString (s : string)
| JArray (l : list Json)
| JObject (m : list (string * Json)).

(** [Value::get], [as_str], [as_u64]. *)
Definition json_get (k : string) (j : Json) : option Json :=
  match j with
  | JObject m => e ← list_find (fun e => e.1 = k) m; Some e.2.2
  | _ => None
  end.
Definition as_str (j : Json) : option string := match j with JString s => Some s | _ => None end.
Definition as_uint (w : Z) (j : Json) : option Z :=
  match j with JNumber n => if (0 <=? n) && (n <? 2 ^ w) then Some n else None | _ => None end.
(** [Map::insert] of a new key. *)
Definition json_insert (k : string) (v : Json) (m : list (string * Json)) : list (string * Json) :=
  filter (fun e => e.1 <> k) m ++ [(k, v)].

(** A derived [Deserialize] takes a struct from an object by the names of its
    fields or from an array by their order; a missing [Option] is [None]. *)
Definition struct_like (fields : nat) (j : Json) : bool :=
  match j with JObject _ => true | JArray l => Nat.eqb (length l) fields | _ => false end.
Definition field (names : list string) (i : nat) (j : Json) : option Json :=
  match j with
  | JObject _ => k ← names !! i; json_get k j
  | JArray l => l !! i
  | _ => None
  end.
Definition opt_uint (w : Z) (o : option Json) : option (option Z) :=
  match o with
  | None | Some JNull => Some None
  | Some j => Some <$> as_uint w j
  end.

(** ** Rows

    The columns that nothing modelled here reads or writes are left out: the
    VAT evidence and breakdown of a payment, prefix limits and registry of a
    space, the labels of a saved payment method. *)

Inductive IntervalType : Type := Day | Month | Year.
Inductive SubscriptionType : Type := IpRangeType | AsnSponsoring | DnsHosting | Vps | AppType.
Inductive PaymentMethod : Type := Lightning | Revolut | Paypal | Stripe | OnChain.
Inductive SubscriptionPaymentType : Type := Purchase | Renewal | Upgrade.
Inductive VmHistoryActionType : Type :=
| Created | Started | Stopped | Restarted | Deleted | Expired | Renewed | Reinstalled
| StateChanged | PaymentReceived | ConfigurationChanged | Transferred.

#[export] Instance SubscriptionType_eq_dec : EqDecision SubscriptionType.
Proof. solve_decision. Defined.
#[export] Instance PaymentMethod_eq_dec : EqDecision PaymentMethod.
Proof. solve_decision. Defined.
#[export] Instance SubscriptionPaymentType_eq_dec : EqDecision SubscriptionPaymentType.
Proof. solve_decision. Defined.
#[export] Instance VmHistoryActionType_eq_dec : EqDecision VmHistoryActionType.
Proof. solve_decision. Defined.

Record Subscription := {
  s_id : Z; s_user_id : Z; s_company_id : Z; s_name : string; s_description : option string;
  s_created : Z; s_expires : option Z; s_is_active : bool; s_is_setup : bool;
  s_currency : string; s_interval_amount : Z; s_interval_type : IntervalType;
  s_setup_fee : Z; s_auto_renewal_enabled : bool; s_external_id : option string
}.
Record SubscriptionLineItem := {
  li_id : Z; li_subscription_id : Z; li_type : SubscriptionType; li_name : string;
  li_description : option string; li_amount : Z; li_setup_amount : Z; li_configuration : option Json
}.
Record SubscriptionPayment := {
  p_id : list Z; p_subscription_id : Z; p_user_id : Z; p_created : Z; p_expires : Z;
  p_amount : Z; p_currency : string; p_method : PaymentMethod; p_type : SubscriptionPaymentType;
  p_external_data : string; p_external_id : option string; p_is_paid : bool;
  p_time_value : option Z; p_metadata : option Json; p_tax : Z; p_processing_fee : Z;
  p_paid_at : option Z; p_rate : f32; p_tax_rate : option f32;
  p_tax_country_code : option string; p_tax_treatment : option string
}.
(** State snapshots and texts of a history entry are left out. *)
Record VmHistory := { vh_vm_id : Z; vh_action : VmHistoryActionType; vh_timestamp : Z }.
Record UserPaymentMethod := {
  um_id : Z; um_user_id : Z; um_provider : string; um_external_customer_id : option string;
  um_external_id : string; um_exp_month : option Z; um_exp_year : option Z;
  um_is_default : bool; um_enabled : bool
}.
Record AvailableIpSpace := { sp_id : Z; sp_cidr : string; sp_metadata : option Json }.
Record IpRangeSubscription := {
  ir_id : Z; ir_line_item_id : Z; ir_space_id : Z; ir_created : Z; ir_cidr : string;
  ir_origin_asn : option Z; ir_is_active : bool; ir_started_at : Z; ir_ended_at : option Z;
  ir_metadata : option Json
}.
Record UpgradeConfig := {
  new_cpu : option Z; new_memory : option Z; new_disk : option Z
}.
(** [serde_json::from_value::<UpgradeConfig>] *)
Definition UpgradeConfig_from (j : Json) : option UpgradeConfig :=
  let names := ["new_cpu"; "new_memory"; "new_disk"] in
  if struct_like 3 j then
    c ← opt_uint 16 (field names 0 j);
    m ← opt_uint 64 (field names 1 j);
    d ← opt_uint 64 (field names 2 j);
    Some {| new_cpu := c; new_memory := m; new_disk := d |}
  else None.

(** ** Calls to other services *)

Record RouteObject := { ro_prefix : IpNetwork; ro_origin_asn : Z; ro_maintainer : string }.
Record RoaDefinition := { roa_origin_asn : Z; roa_prefix : IpNetwork; roa_max_length : option Z }.
Definition effective_max_length (r : RoaDefinition) : Z :=
  match roa_max_length r with Some l => l | None => prefix (roa_prefix r) end.

(** What a message reports, in place of its text and title. *)
Inductive Notice : Type :=
| AutoRenewed | AutoRenewFailed | ExpiringSoon | SubscriptionExpired | SubscriptionCancelled
| DepositToDeletedVm (vm : Z)
| VmExpired (vm grace_days : Z) | VmDeleted (vm : Z) | VmDeletionFailed (vm : Z)
| PreDeletionReadFailed (vm : Z).
Inductive WorkJob : Type :=
| PatchHosts
| CheckVms
| CheckVm (vm : Z)
| SpawnVm (vm : Z)
| SendNotification (user : Z) (message : Notice)
| SendAdminNotification (message : Notice)
| BulkMessage (subject message : string) (admin_user : Z)
| DeleteVm (vm : Z) (reason : option string) (admin_user : option Z) (purge : bool)
| StartVm (vm : Z) (admin_user : option Z)
| StopVm (vm : Z) (admin_user : option Z)
| CheckNostrDomains
| ProcessVmUpgrade (vm : Z) (config : UpgradeConfig)
| ConfigureVm (vm : Z) (admin_user : option Z)
| ApplyVmFirewall (vm : Z)
| AssignVmIp (vm ip_range : Z) (ip : option string) (admin_user : option Z)
| UnassignVmIp (assignment : Z) (admin_user : option Z)
| UpdateVmIp (assignment : Z) (admin_user : option Z)
| ProcessVmRefund (vm admin_user : Z) (from_date : option Z) (reason : option string)
    (payment_method : string) (lightning_invoice : option string)
| ListUnmanagedVms (host : Z) (reply_channel : string)
| ImportVm (host host_vm user admin_user : Z) (reason : option string)
| ReinstallVm (vm : Z) (user : option Z) (old_image new_image : Z) (reply_channel : string)
| CreateVm (user template image ssh_key : Z) (ref_code : option string) (admin_user : Z)
    (reason : option string)
| SendEmailVerification (user : Z) (verify_url : string)
| DownloadOsImages (image : option Z)
| CheckSubscriptions
| ProcessReferralPayouts
| SyncRouterState
| ToggleBgpSession (router : Z) (session : string) (enabled : bool)
| SetRouterDefaultRoute (router : Z) (next_hop : string)
| ClearRouterDefaultRoute (router : Z)
| ToggleTunnel (router : Z) (name : string) (enabled : bool)
| PatchIpRangeDns (ip_range : Z) (admin_user : option Z).
Inductive Call : Type :=
| SendJob (j : WorkJob)
| CreateRoute (o : RouteObject)
| DeleteRoute (o : RouteObject)
| AddRoa (r : RoaDefinition)
| RemoveRoa (r : RoaDefinition)
| HostClient (host : Z)
| HostStopVm (vm : Z)
| HostDeleteVm (vm : Z)
| DeleteIpAssignments (vm : Z)
| SetStateCreating (vm : Z)
| AddInvoice (amount_msat expire : Z)
| PayInvoice (wallet invoice : string)
| CancelInvoice (payment_hash : list Z)
| NewAddress (amount_msat : Z)
| CreateOrder (amount : Z) (currency : string) (save_method : bool)
| ChargeSubscription (customer method : string) (amount : Z) (currency : string)
| GetOrder (external_id : string)
| CancelOrder (external_id : string)
| CancelPaymentIntent (external_id : string)
| GetCustomerPaymentMethods (customer : string)
| UpdateUserCountry (user : Z) (country : string).

(** ** The world *)

Record World := {
  w_subs : list Subscription;
  w_items : list SubscriptionLineItem;
  w_payments : list SubscriptionPayment;
  w_vms : list Vm;
  w_history : list VmHistory;
  w_spaces : list AvailableIpSpace;
  w_ranges : list IpRangeSubscription;
  w_methods : list UserPaymentMethod;
  w_next_range : Z;
  w_last_subs : option Z;
  w_last_vms : option Z;
  w_calls : list (Call * bool);
  w_reads : nat;
  w_reported : list string
}.

Definition set_subs (f : list Subscription -> list Subscription) (w : World) : World :=
  {| w_subs := f (w_subs w); w_items := w_items w; w_payments := w_payments w; w_vms := w_vms w;
     w_history := w_history w; w_spaces := w_spaces w; w_ranges := w_ranges w;
     w_methods := w_methods w; w_next_range := w_next_range w; w_last_subs := w_last_subs w;
     w_last_vms := w_last_vms w; w_calls := w_calls w; w_reads := w_reads w; w_reported := w_reported w |}.
Definition set_items (f : list SubscriptionLineItem -> list SubscriptionLineItem) (w : World) : World :=
  {| w_subs := w_subs w; w_items := f (w_items w); w_payments := w_payments w; w_vms := w_vms w;
     w_history := w_history w; w_spaces := w_spaces w; w_ranges := w_ranges w;
     w_methods := w_methods w; w_next_range := w_next_range w; w_last_subs := w_last_subs w;
     w_last_vms := w_last_vms w; w_calls := w_calls w; w_reads := w_reads w; w_reported := w_reported w |}.
Definition set_payments (f : list SubscriptionPayment -> list SubscriptionPayment) (w : World) : World :=
  {| w_subs := w_subs w; w_items := w_items w; w_payments := f (w_payments w); w_vms := w_vms w;
     w_history := w_history w; w_spaces := w_spaces w; w_ranges := w_ranges w;
     w_methods := w_methods w; w_next_range := w_next_range w; w_last_subs := w_last_subs w;
     w_last_vms := w_last_vms w; w_calls := w_calls w; w_reads := w_reads w; w_reported := w_reported w |}.
Definition set_vms (f : list Vm -> list Vm) (w : World) : World :=
  {| w_subs := w_subs w; w_items := w_items w; w_payments := w_payments w; w_vms := f (w_vms w);
     w_history := w_history w; w_spaces := w_spaces w; w_ranges := w_ranges w;
     w_methods := w_methods w; w_next_range := w_next_range w; w_last_subs := w_last_subs w;
     w_last_vms := w_last_vms w; w_calls := w_calls w; w_reads := w_reads w; w_reported := w_reported w |}.
Definition set_history (f : list VmHistory -> list VmHistory) (w : World) : World :=
  {| w_subs := w_subs w; w_items := w_items w; w_payments := w_payments w; w_vms := w_vms w;
     w_history := f (w_history w); w_spaces := w_spaces w; w_ranges := w_ranges w;
     w_methods := w_methods w; w_next_range := w_next_range w; w_last_subs := w_last_subs w;
     w_last_vms := w_last_vms w; w_calls := w_calls w; w_reads := w_reads w; w_reported := w_reported w |}.
Definition set_methods (f : list UserPaymentMethod -> list UserPaymentMethod) (w : World) : World :=
  {| w_subs := w_subs w; w_items := w_items w; w_payments := w_payments w; w_vms := w_vms w;
     w_history := w_history w; w_spaces := w_spaces w; w_ranges := w_ranges w;
     w_methods := f (w_methods w); w_next_range := w_next_range w; w_last_subs := w_last_subs w;
     w_last_vms := w_last_vms w; w_calls := w_calls w; w_reads := w_reads w; w_reported := w_reported w |}.
Definition set_ranges (f : list IpRangeSubscription -> list IpRangeSubscription) (w : World) : World :=
  {| w_subs := w_subs w; w_items := w_items w; w_payments := w_payments w; w_vms := w_vms w;
     w_history := w_history w; w_spaces := w_spaces w; w_ranges := f (w_ranges w);
     w_methods := w_methods w; w_next_range := w_next_range w; w_last_subs := w_last_subs w;
     w_last_vms := w_last_vms w; w_calls := w_calls w; w_reads := w_reads w; w_reported := w_reported w |}.
Definition set_next_range (n : Z) (w : World) : World :=
  {| w_subs := w_subs w; w_items := w_items w; w_payments := w_payments w; w_vms := w_vms w;
     w_history := w_history w; w_spaces := w_spaces w; w_ranges := w_ranges w;
     w_methods := w_methods w; w_next_range := n; w_last_subs := w_last_subs w;
     w_last_vms := w_last_vms w; w_calls := w_calls w; w_reads := w_reads w; w_reported := w_reported w |}.
Definition set_last (subs vms : option Z) (w : World) : World :=
  {| w_subs := w_subs w; w_items := w_items w; w_payments := w_payments w; w_vms := w_vms w;
     w_history := w_history w; w_spaces := w_spaces w; w_ranges := w_ranges w;
     w_methods := w_methods w; w_next_range := w_next_range w; w_last_subs := subs;
     w_last_vms := vms; w_calls := w_calls w; w_reads := w_reads w; w_reported := w_reported w |}.
Definition push_call (c : Call) (ok : bool) (w : World) : World :=
  {| w_subs := w_subs w; w_items := w_items w; w_payments := w_payments w; w_vms := w_vms w;
     w_history := w_history w; w_spaces := w_spaces w; w_ranges := w_ranges w;
     w_methods := w_methods w; w_next_range := w_next_range w; w_last_subs := w_last_subs w;
     w_last_vms := w_last_vms w; w_calls := w_calls w ++ [(c, ok)]; w_reads := w_reads w; w_reported := w_reported w |}.
Definition bump_reads (w : World) : World :=
  {| w_subs := w_subs w; w_items := w_items w; w_payments := w_payments w; w_vms := w_vms w;
     w_history := w_history w; w_spaces := w_spaces w; w_ranges := w_ranges w;
     w_methods := w_methods w; w_next_range := w_next_range w; w_last_subs := w_last_subs w;
     w_last_vms := w_last_vms w; w_calls := w_calls w; w_reads := S (w_reads w); w_reported := w_reported w |}.

Definition report_deposit (key : string) (w : World) : World :=
  {| w_subs := w_subs w; w_items := w_items w; w_payments := w_payments w; w_vms := w_vms w;
     w_history := w_history w; w_spaces := w_spaces w; w_ranges := w_ranges w;
     w_methods := w_methods w; w_next_range := w_next_range w; w_last_subs := w_last_subs w;
     w_last_vms := w_last_vms w; w_calls := w_calls w; w_reads := w_reads w;
     w_reported := key :: w_reported w |}.

(** ** The clock and the outcomes of calls *)

(** The values the clock reads, in order. *)
Class Clock := clk : nat -> Z.
(** Whether the n-th call succeeds. *)
Class Remote := outcome : nat -> bool.

Definition SEC : Z := 10 ^ 9.
Definition DAY : Z := 86400 * SEC.
(** A time as SQL stores it, and [timestamp()]. *)
Definition whole_seconds (t : Z) : Z := t / SEC * SEC.

Inductive Fail : Type :=
| NotFound | Duplicate | Refused | NoConfig | BadConfig | BadCidr | NoFreeSubnet | NoHandler | Panics
| PriceFailed (e : PriceError).

Notation "'Act' A" := (ST World (res Fail A)) (at level 20).

(** [let x = m?; k] *)
Definition try_bind {A B} (m : Act A) (k : A -> Act B) : Act B :=
  r ← m; match r with Ok a => k a | Err e => mret (Err e) end.
Notation "x ←? m ; k" := (try_bind m (fun x => k)) (at level 20, m at level 100, k at level 200).
Notation "m ;? k" := (try_bind m (fun _ => k)) (at level 100, k at level 200, right associativity).

Section effects.
Context `{!Clock, !Remote}.

(** [Utc::now()] *)
Definition now : ST World Z := fun w => (clk (w_reads w), bump_reads w).
(** [NOW()] *)
Definition sql_now : ST World Z := t ← now; mret (whole_seconds t).

(** Call a service; the log keeps the call and its outcome. *)
Definition call (c : Call) : ST World bool := fun w =>
  let ok := outcome (length (w_calls w)) in (ok, push_call c ok w).
Definition call_ (c : Call) : Act unit :=
  ok ← call c; mret (if (ok : bool) then Ok tt else Err Refused).
End effects.

(** ** Queries *)

Definition fetch_one {A} (l : list A) : res Fail A := ok_or NotFound (head l).
Definition db {A} (f : World -> A) : ST World A := gets f.

Definition q_list_line_items (sub : Z) (w : World) : list SubscriptionLineItem :=
  filter (fun li => li_subscription_id li = sub) (w_items w).
Definition list_subscription_line_items (sub : Z) : ST World (list SubscriptionLineItem) :=
  db (q_list_line_items sub).
Definition get_subscription_line_item (id : Z) : Act SubscriptionLineItem :=
  db (fun w => fetch_one (filter (fun li => li_id li = id) (w_items w))).
Definition get_subscription (id : Z) : Act Subscription :=
  db (fun w => fetch_one (filter (fun s => s_id s = id) (w_subs w))).
Definition get_subscription_by_line_item_id (li : Z) : Act Subscription :=
  db (fun w => fetch_one
    (i ← filter (fun i => li_id i = li) (w_items w);
     filter (fun s => s_id s = li_subscription_id i) (w_subs w))).
Definition get_vm (id : Z) : Act Vm :=
  db (fun w => fetch_one (filter (fun v => v_id v = id) (w_vms w))).
Definition get_vm_by_line_item (li : Z) : Act Vm :=
  db (fun w => fetch_one
    (filter (fun v => v_subscription_line_item_id v = li /\ v_deleted v = false) (w_vms w))).
Definition get_vm_by_subscription (sub : Z) : Act Vm :=
  db (fun w => fetch_one
    (v ← w_vms w;
     _ ← filter (fun i => li_id i = v_subscription_line_item_id v /\ li_subscription_id i = sub /\
                  li_type i = Vps) (w_items w);
     [v])).
Definition list_vms : ST World (list Vm) := db (fun w => filter (fun v => v_deleted v = false) (w_vms w)).
Definition list_vm_history (vm : Z) : ST World (list VmHistory) :=
  db (fun w => filter (fun h => vh_vm_id h = vm) (w_history w)).
Definition vm_payments (vm : Z) (w : World) : list SubscriptionPayment :=
  p ← w_payments w;
  i ← filter (fun i => li_subscription_id i = p_subscription_id p) (w_items w);
  _ ← filter (fun v => v_subscription_line_item_id v = li_id i /\ v_id v = vm) (w_vms w);
  [p].
Definition list_vm_subscription_payments (vm : Z) : ST World (list SubscriptionPayment) :=
  db (vm_payments vm).
Definition list_lifecycle_subscriptions : ST World (list Subscription) :=
  db (fun w => filter (fun s => s_is_active s = true /\ is_Some (s_expires s)) (w_subs w)).
(** [ORDER BY is_default DESC, id ASC] *)
Definition list_user_payment_methods (user : Z) (provider : option string) : ST World (list UserPaymentMethod) :=
  db (fun w =>
    let l := filter (fun m => um_user_id m = user /\ (provider = None \/ provider = Some (um_provider m))) (w_methods w) in
    filter (fun m => um_is_default m = true) l ++ filter (fun m => um_is_default m = false) l).

(** ** Updates *)

Definition exec (f : World -> World) : ST World unit := modify f.

Definition list_ip_range_subscriptions_by_line_item (li : Z) : ST World (list IpRangeSubscription) :=
  db (fun w => filter (fun r => ir_line_item_id r = li) (w_ranges w)).
Definition get_ip_range_subscription (id : Z) : Act IpRangeSubscription :=
  db (fun w => fetch_one (filter (fun r => ir_id r = id) (w_ranges w))).
Definition get_available_ip_space (id : Z) : Act AvailableIpSpace :=
  db (fun w => fetch_one (filter (fun s => sp_id s = id) (w_spaces w))).

(** The inner joins with the line item and its subscription. *)
Definition range_joined (w : World) (r : IpRangeSubscription) : Prop :=
  Exists (fun i => li_id i = ir_line_item_id r /\
            Exists (fun s => s_id s = li_subscription_id i) (w_subs w)) (w_items w).
#[export] Instance range_joined_dec w r : Decision (range_joined w r).
Proof. unfold range_joined. apply _. Defined.

(** The first [limit] active rows of a space, newest first. *)
Definition active_ranges (space limit : Z) (w : World) : list IpRangeSubscription :=
  take (Z.to_nat limit)
    (rev (filter (fun r => ir_space_id r = space /\ ir_is_active r = true /\ range_joined w r) (w_ranges w))).
Definition list_ip_range_subscriptions_by_space_paginated (space limit : Z)
  : ST World (list IpRangeSubscription) := db (active_ranges space limit).

(** All columns but the key and the creation time are written. *)
Definition write_range (r old : IpRangeSubscription) : IpRangeSubscription :=
  {| ir_id := ir_id old; ir_line_item_id := ir_line_item_id r; ir_space_id := ir_space_id r;
     ir_created := ir_created old; ir_cidr := ir_cidr r; ir_origin_asn := ir_origin_asn r;
     ir_is_active := ir_is_active r; ir_started_at := whole_seconds (ir_started_at r);
     ir_ended_at := whole_seconds <$> ir_ended_at r; ir_metadata := ir_metadata r |}.
Definition update_ip_range_subscription (r : IpRangeSubscription) : ST World unit :=
  exec (set_ranges (map (fun old => if decide (ir_id old = ir_id r) then write_range r old else old))).

(** [UNIQUE INDEX (cidr)]: an insert of a text that any row has fails. *)
Definition insert_ip_range_subscription `{!Clock} (r : IpRangeSubscription) : Act Z :=
  t ← sql_now;
  w ← db id;
  if bool_decide (ir_cidr r ∈ ir_cidr <$> w_ranges w) then mret (Err Duplicate) else
  let id := w_next_range w in
  exec (fun w => set_next_range (id + 1) (set_ranges (fun l => l ++
    [{| ir_id := id; ir_line_item_id := ir_line_item_id r; ir_space_id := ir_space_id r;
        ir_created := t; ir_cidr := ir_cidr r; ir_origin_asn := ir_origin_asn r;
        ir_is_active := ir_is_active r; ir_started_at := whole_seconds (ir_started_at r);
        ir_ended_at := whole_seconds <$> ir_ended_at r; ir_metadata := ir_metadata r |}]) w));;
  mret (Ok id).

(** *** Subscriptions and payments *)

(** All columns but the key and the creation time are written. *)
Definition update_subscription (s : Subscription) : ST World unit :=
  exec (set_subs (map (fun old => if decide (s_id old = s_id s) then
    {| s_id := s_id old; s_user_id := s_user_id s; s_company_id := s_company_id s; s_name := s_name s;
       s_description := s_description s; s_created := s_created old;
       s_expires := whole_seconds <$> s_expires s; s_is_active := s_is_active s;
       s_is_setup := s_is_setup s; s_currency := s_currency s;
       s_interval_amount := s_interval_amount s; s_interval_type := s_interval_type s;
       s_setup_fee := s_setup_fee s; s_auto_renewal_enabled := s_auto_renewal_enabled s;
       s_external_id := s_external_id s |} else old))).

(** [is_paid = 1, external_data = ?, paid_at = NOW()] *)
Definition mark_paid (data : string) (t : Z) (p : SubscriptionPayment) : SubscriptionPayment :=
  {| p_id := p_id p; p_subscription_id := p_subscription_id p; p_user_id := p_user_id p;
     p_created := p_created p; p_expires := p_expires p; p_amount := p_amount p;
     p_currency := p_currency p; p_method := p_method p; p_type := p_type p; p_external_data := data;
     p_external_id := p_external_id p; p_is_paid := true; p_time_value := p_time_value p;
     p_metadata := p_metadata p; p_tax := p_tax p; p_processing_fee := p_processing_fee p;
     p_paid_at := Some t; p_rate := p_rate p; p_tax_rate := p_tax_rate p;
     p_tax_country_code := p_tax_country_code p; p_tax_treatment := p_tax_treatment p |}.
(** Every column is written but the key, [paid_at] and the tax columns. *)
Definition write_payment (p old : SubscriptionPayment) : SubscriptionPayment :=
  {| p_id := p_id old; p_subscription_id := p_subscription_id p; p_user_id := p_user_id p;
     p_created := whole_seconds (p_created p); p_expires := whole_seconds (p_expires p);
     p_amount := p_amount p; p_currency := p_currency p; p_method := p_method p; p_type := p_type p;
     p_external_data := p_external_data p; p_external_id := p_external_id p;
     p_is_paid := p_is_paid p; p_time_value := p_time_value p; p_metadata := p_metadata p;
     p_tax := p_tax p; p_processing_fee := p_processing_fee p; p_paid_at := p_paid_at old;
     p_rate := p_rate p; p_tax_rate := p_tax_rate old;
     p_tax_country_code := p_tax_country_code old; p_tax_treatment := p_tax_treatment old |}.
(** [UNIQUE (external_id)]: does another row have the payment's external id? *)
Definition ext_taken (p : SubscriptionPayment) (l : list SubscriptionPayment) : bool :=
  existsb (fun q => negb (bool_decide (p_id q = p_id p)) && bool_decide (is_Some (p_external_id p))
             && bool_decide (p_external_id q = p_external_id p)) l.
Definition has_payment (id : list Z) (l : list SubscriptionPayment) : bool :=
  existsb (fun q => bool_decide (p_id q = id)) l.
Definition update_subscription_payment (p : SubscriptionPayment) : Act unit :=
  l ← db w_payments;
  if has_payment (p_id p) l && ext_taken p l then mret (Err Duplicate) else
  exec (set_payments (map (fun old => if decide (p_id old = p_id p) then write_payment p old else old)));;
  mret (Ok tt).
(** The row as it is stored. *)
Definition store_payment (p : SubscriptionPayment) : SubscriptionPayment :=
  {| p_id := p_id p; p_subscription_id := p_subscription_id p; p_user_id := p_user_id p;
     p_created := whole_seconds (p_created p); p_expires := whole_seconds (p_expires p);
     p_amount := p_amount p; p_currency := p_currency p; p_method := p_method p; p_type := p_type p;
     p_external_data := p_external_data p; p_external_id := p_external_id p;
     p_is_paid := p_is_paid p; p_time_value := p_time_value p; p_metadata := p_metadata p;
     p_tax := p_tax p; p_processing_fee := p_processing_fee p;
     p_paid_at := whole_seconds <$> p_paid_at p; p_rate := p_rate p; p_tax_rate := p_tax_rate p;
     p_tax_country_code := p_tax_country_code p; p_tax_treatment := p_tax_treatment p |}.
(** Keys and external ids are unique, the subscription exists. *)
Definition insert_subscription_payment (p : SubscriptionPayment) : Act unit :=
  w ← db id;
  if has_payment (p_id p) (w_payments w) || ext_taken p (w_payments w) then mret (Err Duplicate) else
  if negb (existsb (fun s => s_id s =? p_subscription_id p) (w_subs w)) then mret (Err Refused) else
  exec (set_payments (fun l => l ++ [store_payment p]));;
  mret (Ok tt).
Definition get_subscription_payment (id : list Z) : Act SubscriptionPayment :=
  db (fun w => fetch_one (filter (fun p => p_id p = id) (w_payments w))).
Definition get_subscription_payment_by_ext_id (external_id : string) : Act SubscriptionPayment :=
  db (fun w => fetch_one (filter (fun p => p_external_id p = Some external_id) (w_payments w))).
Definition list_subscription_payments_by_method (method : PaymentMethod) : ST World (list SubscriptionPayment) :=
  db (fun w => filter (fun p => p_method p = method) (w_payments w)).
Definition list_pending_vm_subscription_payments `{!Clock} (vm : Z) : ST World (list SubscriptionPayment) :=
  t ← sql_now;
  db (fun w => filter (fun p => p_is_paid p = false /\ t < p_expires p) (vm_payments vm w)).

Definition set_deleted (deleted : bool) (key : option Z) (v : Vm) : Vm :=
  {| v_id := v_id v; v_host_id := v_host_id v; v_template_id := v_template_id v;
     v_custom_template_id := v_custom_template_id v;
     v_subscription_line_item_id := v_subscription_line_item_id v; v_disk_id := v_disk_id v;
     v_deleted := deleted; v_user_id := v_user_id v; v_ssh_key_id := key;
     v_mac_address := v_mac_address v |}.

(** [DATE_ADD(t, INTERVAL n MONTH)]. *)
Class Calendar := add_months : Z -> Z -> Z.
(** Adding months moves a time forward. *)
Class CalendarLaws `{!Calendar} := add_months_le t n : 0 <= n -> t <= add_months t n.

Definition date_add `{!Calendar} (t n : Z) (unit : IntervalType) : Z :=
  match unit with
  | Day => t + n * DAY
  | Month => add_months t n
  | Year => add_months t (12 * n)
  end.

(** [GREATEST(COALESCE(expires, NOW()), NOW())] *)
Definition extend_from (expires : option Z) (t : Z) : Z := Z.max (default t expires) t.
Definition activate (expires : Z) (s : Subscription) : Subscription :=
  {| s_id := s_id s; s_user_id := s_user_id s; s_company_id := s_company_id s; s_name := s_name s;
     s_description := s_description s; s_created := s_created s; s_expires := Some expires;
     s_is_active := true; s_is_setup := true; s_currency := s_currency s;
     s_interval_amount := s_interval_amount s; s_interval_type := s_interval_type s;
     s_setup_fee := s_setup_fee s; s_auto_renewal_enabled := s_auto_renewal_enabled s;
     s_external_id := s_external_id s |}.

Definition on_sub (id : Z) (f : Subscription -> Subscription) : ST World unit :=
  exec (set_subs (map (fun s => if decide (s_id s = id) then f s else s))).

(** One transaction: what a failing statement finds is rolled back. *)
Definition transaction {A} (m : Act A) : Act A := fun w =>
  let '(r, w') := m w in
  match r with
  | Ok a => (Ok a, w')
  | Err e => (Err e, {| w_subs := w_subs w; w_items := w_items w; w_payments := w_payments w;
      w_vms := w_vms w; w_history := w_history w; w_spaces := w_spaces w; w_ranges := w_ranges w;
      w_methods := w_methods w; w_next_range := w_next_range w; w_last_subs := w_last_subs w;
      w_last_vms := w_last_vms w; w_calls := w_calls w'; w_reads := w_reads w'; w_reported := w_reported w' |})
  end.

Section writes.
Context `{!Clock, !Calendar}.

Definition subscription_payment_paid (p : SubscriptionPayment) : Act unit := transaction (
  t ← sql_now;
  unpaid ← db (fun w => existsb (fun q => bool_decide (p_id q = p_id p) && negb (p_is_paid q)) (w_payments w));
  exec (set_payments (map (fun q =>
    if bool_decide (p_id q = p_id p) && negb (p_is_paid q) then mark_paid (p_external_data p) t q else q)));;
  if negb unpaid then mret (Ok tt) else
  items ← list_subscription_line_items (p_subscription_id p);
  exec (set_vms (map (fun v =>
    if bool_decide (v_subscription_line_item_id v ∈ li_id <$> items)
    then set_deleted false (v_ssh_key_id v) v else v)));;
  match p_time_value p with
  | Some secs =>
      t ← sql_now;
      on_sub (p_subscription_id p) (fun s => activate (extend_from (s_expires s) t + secs * SEC) s);;
      mret (Ok tt)
  | None =>
      sub ←? get_subscription (p_subscription_id p);
      t ← sql_now;
      on_sub (p_subscription_id p) (fun s =>
        activate (date_add (extend_from (s_expires s) t) (s_interval_amount sub) (s_interval_type sub)) s);;
      mret (Ok tt)
  end).

Definition insert_vm_history (vm : Z) (action : VmHistoryActionType) : ST World unit :=
  t ← sql_now;
  exec (set_history (fun l => l ++ [{| vh_vm_id := vm; vh_action := action; vh_timestamp := t |}])).
End writes.

(** [deleted = 1, ssh_key_id = null] *)
Definition delete_vm_row (vm : Z) : ST World unit :=
  exec (set_vms (map (fun v => if decide (v_id v = vm) then set_deleted true None v else v))).

(** The VM with its history, and its subscription with its payments; the line
    items and their address-space rows go with the subscription, which another
    VM of the same subscription prevents. *)
Definition hard_delete_vm (vm : Z) : Act unit := transaction (
  sub ← db (fun w => head (v ← filter (fun v => v_id v = vm) (w_vms w);
                           i ← filter (fun i => li_id i = v_subscription_line_item_id v) (w_items w);
                           [li_subscription_id i]));
  exec (set_history (filter (fun h => vh_vm_id h <> vm)));;
  exec (set_vms (filter (fun v => v_id v <> vm)));;
  match sub with
  | None => mret (Ok tt)
  | Some sub =>
      exec (set_payments (filter (fun p => p_subscription_id p <> sub)));;
      items ← list_subscription_line_items sub;
      linked ← db (fun w => existsb (fun v =>
        bool_decide (v_subscription_line_item_id v ∈ li_id <$> items)) (w_vms w));
      if (linked : bool) then mret (Err Refused) else
      exec (set_ranges (filter (fun r => ir_line_item_id r ∉ li_id <$> items)));;
      exec (set_items (filter (fun i => li_subscription_id i <> sub)));;
      exec (set_subs (filter (fun s => s_id s <> sub)));;
      mret (Ok tt)
  end).

(** ** Stepping fallible computations *)

Lemma wp_try {A B} (m : Act A) (k : A -> Act B) (Q : res Fail B -> World -> Prop) w :
  wp m (fun r w' => match r with Ok a => wp (k a) Q w' | Err e => Q (Err e) w' end) w ->
  wp (try_bind m k) Q w.
Proof.
  intros Hm. unfold try_bind. apply wp_bind. eapply wp_mono; [exact Hm|]. intros [a|e] w' Hw; [done|by apply wp_ret].
Qed.

Lemma fetch_one_in {A} (l : list A) a : fetch_one l = Ok a -> a ∈ l.
Proof. unfold fetch_one. destruct l as [|b l]; [done|]. intros [= ->]. by left. Qed.

Lemma keeps_try {A B} R `{!PreOrder R} (m : Act A) (k : A -> Act B) :
  keeps R m -> (forall a, keeps R (k a)) -> keeps R (try_bind m k).
Proof. intros Hm Hk. unfold try_bind. apply keeps_bind; [done|done|]. intros [a|e]; [done|apply keeps_ret, _]. Qed.


(** One row by its key. *)
Lemma fetch_one_key {A} (f : A -> Z) (l : list A) x : NoDup (f <$> l) -> x ∈ l ->
  fetch_one (filter (fun y => f y = f x) l) = Ok x.
Proof.
  unfold fetch_one. induction l as [|y l IH]; [by intros _ ?%not_elem_of_nil|].
  rewrite fmap_cons, NoDup_cons, filter_cons. intros [Hn Hl] [->|Hx]%elem_of_cons.
  - by rewrite decide_True.
  - rewrite decide_False; [by apply IH|]. intros E. apply Hn. rewrite E. by apply (list_elem_of_fmap_2 f).
Qed.

Section wp_effects.
Context `{!Clock, !Remote}.
Lemma wp_now (Q : Z -> World -> Prop) w : Q (clk (w_reads w)) (bump_reads w) -> wp now Q w.
Proof. done. Qed.
Lemma wp_sql_now (Q : Z -> World -> Prop) w :
  Q (whole_seconds (clk (w_reads w))) (bump_reads w) -> wp sql_now Q w.
Proof. done. Qed.
Lemma wp_exec f (Q : unit -> World -> Prop) w : Q tt (f w) -> wp (exec f) Q w.
Proof. done. Qed.
Lemma wp_db {A} (f : World -> A) Q w : Q (f w) w -> wp (db f) Q w.
Proof. done. Qed.
Lemma wp_call c (Q : bool -> World -> Prop) w :
  (forall ok, ok = outcome (length (w_calls w)) -> Q ok (push_call c ok w)) -> wp (call c) Q w.
Proof. unfold wp, call. cbn. auto. Qed.
Lemma wp_call_ c (Q : res Fail unit -> World -> Prop) w :
  (forall ok, ok = outcome (length (w_calls w)) ->
     Q (if ok then Ok tt else Err Refused) (push_call c ok w)) -> wp (call_ c) Q w.
Proof. unfold wp, call_. intros HQ. rewrite bind_run. cbn. auto. Qed.
End wp_effects.

(** What a failed transaction leaves: only the log and the clock moved. *)
Definition rolled_back (w w' : World) : World :=
  {| w_subs := w_subs w; w_items := w_items w; w_payments := w_payments w; w_vms := w_vms w;
     w_history := w_history w; w_spaces := w_spaces w; w_ranges := w_ranges w;
     w_methods := w_methods w; w_next_range := w_next_range w; w_last_subs := w_last_subs w;
     w_last_vms := w_last_vms w; w_calls := w_calls w'; w_reads := w_reads w'; w_reported := w_reported w' |}.
Lemma wp_transaction {A} (m : Act A) (Q : res Fail A -> World -> Prop) w :
  wp m (fun r w' => match r with Ok a => Q (Ok a) w' | Err e => Q (Err e) (rolled_back w w') end) w ->
  wp (transaction m) Q w.
Proof. unfold wp, transaction. destruct (m w) as [[a|e] w']; done. Qed.

(** Step through the program at the head of a [wp]. *)
Ltac sub_step :=
  lazymatch goal with
  | |- wp (try_bind _ _) _ _ => apply wp_try
  | |- wp (mbind _ _) _ _ => apply wp_bind
  | |- wp (mret _) _ _ => apply wp_ret
  | |- wp (db _) _ _ => apply wp_db
  | |- wp (exec _) _ _ => apply wp_exec
  | |- wp now _ _ => apply wp_now
  | |- wp sql_now _ _ => apply wp_sql_now
  end; cbv beta iota.
Ltac sub_steps := repeat sub_step.

(** Show that a program relates the worlds before and after it, its primitive
    steps by [step]. *)
Ltac frame_tac step :=
  repeat (lazymatch goal with
  | |- keeps _ (mret _) => apply keeps_ret, _
  | |- keeps _ (db _) => apply keeps_gets, _
  | |- keeps _ (gets _) => apply keeps_gets, _
  | |- keeps _ (try_bind _ _) => apply keeps_try; [apply _| |intros ?]
  | |- keeps _ (mbind _ _) => apply keeps_bind; [apply _| |intros ?]
  | |- keeps _ (match ?x with _ => _ end) => destruct x
  | |- _ => solve [step]
  end).

(** *** Programs that only read *)

Definition set_reads (n : nat) (w : World) : World :=
  {| w_subs := w_subs w; w_items := w_items w; w_payments := w_payments w; w_vms := w_vms w;
     w_history := w_history w; w_spaces := w_spaces w; w_ranges := w_ranges w;
     w_methods := w_methods w; w_next_range := w_next_range w; w_last_subs := w_last_subs w;
     w_last_vms := w_last_vms w; w_calls := w_calls w; w_reads := n; w_reported := w_reported w |}.
(** Only the clock moved, and forward. *)
Definition only_reads (w w' : World) : Prop := w' = set_reads (w_reads w') w /\ (w_reads w <= w_reads w')%nat.
#[export] Instance only_reads_pre : PreOrder only_reads.
Proof.
  split; [by intros []|]. intros w1 w2 w3 [E2 ?] [E3 ?]. split; [|lia]. rewrite E3 at 1. by rewrite E2.
Qed.
Lemma now_reads `{!Clock} : keeps only_reads now.
Proof. intros w. split; [done|cbn; lia]. Qed.
Lemma sql_now_reads `{!Clock} : keeps only_reads sql_now.
Proof. apply keeps_bind; [apply _|apply now_reads|intros ?; apply keeps_ret, _]. Qed.
Ltac reads_step := first [ apply now_reads | apply sql_now_reads | apply keeps_gets, _ ].

(** The calls made between two worlds. *)
Definition calls_between w w' : list Call := drop (length (w_calls w)) (w_calls w').*1.
Lemma calls_between_app w w' l : (w_calls w').*1 = (w_calls w).*1 ++ l -> calls_between w w' = l.
Proof. unfold calls_between. intros ->. by rewrite drop_app_length' by by rewrite length_fmap. Qed.
