(* ===== verification/Pricing.v ===== *)
(** * The pricing engine: what a renewal costs and what an amount buys
    ([lnvps_api_common/src/pricing.rs])

    The tables that the engine only reads are a [Catalog], with the cached
    exchange and VAT rates; subscriptions, machines and payments are those of
    [SubDb.World]. Money is in [f64] where the code has it there and wraps at
    [u64] elsewhere. The caps on a machine's disk and network throughput, which a
    custom template copies from its pricing, are left out. *)

From Stdlib Require Import Ascii String SpecFloat.
From S2P Require Import Prelude NetText IpAlloc Network HostTypes Exchange SubDb.

(** ** Rows *)

Record User := {
  u_id : Z; u_country_code : option string; u_geo_country_code : option string;
  u_billing_tax_id : option string
}.
Record Company := {
  c_id : Z; c_tax_id : option string; c_country_code : option string; c_max_prepay_days : Z
}.
Record Region := { r_id : Z; r_company_id : Z }.
Record VmCostPlan := {
  cp_id : Z; cp_amount : Z; cp_currency : string; cp_interval_amount : Z; cp_interval_type : IntervalType
}.
Record VmCustomPricing := {
  vp_id : Z; vp_enabled : bool; vp_region_id : Z; vp_currency : string;
  vp_cpu_mfg : CpuMfg; vp_cpu_arch : CpuArch; vp_cpu_features : list CpuFeature;
  vp_cpu_cost : Z; vp_memory_cost : Z; vp_ip4_cost : Z; vp_ip6_cost : Z;
  vp_min_cpu : Z; vp_max_cpu : Z; vp_min_memory : Z; vp_max_memory : Z
}.
Record VmCustomPricingDisk := {
  pd_id : Z; pd_pricing_id : Z; pd_kind : DiskType; pd_interface : DiskInterface; pd_cost : Z;
  min_disk_size : Z; max_disk_size : Z
}.
Record PaymentMethodConfig := {
  pc_company_id : Z; pc_method : PaymentMethod; pc_enabled : bool;
  processing_fee_rate : option f32; processing_fee_base : option Z;
  processing_fee_currency : option string;
  min_amount : option Z; min_amount_currency : option string
}.

(** ** Tax lines *)

Inductive TaxTreatment : Type := Domestic | OssB2c | ReverseCharge | OutOfScope | UndeterminedDefault.
#[export] Instance TaxTreatment_eq_dec : EqDecision TaxTreatment.
Proof. solve_decision. Defined.

Definition treatment_str (t : TaxTreatment) : string :=
  match t with
  | Domestic => "domestic" | OssB2c => "oss_b2c" | ReverseCharge => "reverse_charge"
  | OutOfScope => "out_of_scope" | UndeterminedDefault => "undetermined_default"
  end.

Record TaxLine := {
  tl_net : Z; tl_tax : Z; tl_rate : f32; tl_country_code : option string; tl_treatment : TaxTreatment
}.
Record TaxSummary := {
  ts_rate : option f32; ts_country_code : option string; ts_treatment : option string
}.
(** [Option<f32>] equality: a NaN differs from itself. *)
Definition opt_f32_eqb (a b : option f32) : bool :=
  match a, b with Some x, Some y => SFeqb x y | None, None => true | _, _ => false end.

Definition summarize_tax_lines (lines : list TaxLine) : TaxSummary :=
  match lines with
  | [] => {| ts_rate := None; ts_country_code := None; ts_treatment := None |}
  | first :: it =>
      let '(rate, country, treatment) :=
        foldl (fun acc l =>
          let '(rate, country, treatment) := acc in
          (if opt_f32_eqb (Some (tl_rate l)) rate then rate else None,
           if decide (tl_country_code l = country) then country else None,
           if decide (Some (tl_treatment l) = treatment) then treatment else None))
          (Some (tl_rate first), tl_country_code first, Some (tl_treatment first)) it in
      {| ts_rate := rate; ts_country_code := country; ts_treatment := treatment_str <$> treatment |}
  end.

Record TaxDetermination := {
  tax_amount : Z; tax_rate : f32; tax_country_code : option string; tax_treatment : TaxTreatment;
  vat_number : option string; declared_country : option string; geo_country : option string
}.
Definition taxed (amount : Z) (rate : f32) (cc : option string) (t : TaxTreatment) (vat : option string)
  : TaxDetermination :=
  {| tax_amount := Flt.floor_to 64 (f64_mul (f64_of amount) (percent rate));
     tax_rate := rate; tax_country_code := cc; tax_treatment := t; vat_number := vat;
     declared_country := None; geo_country := None |}.
Definition zero_tax (cc : option string) (t : TaxTreatment) (vat : option string) : TaxDetermination :=
  {| tax_amount := 0; tax_rate := zero; tax_country_code := cc; tax_treatment := t; vat_number := vat;
     declared_country := None; geo_country := None |}.
Definition untaxed : TaxDetermination := zero_tax None OutOfScope None.
Definition with_evidence (declared geo : option string) (d : TaxDetermination) : TaxDetermination :=
  {| tax_amount := tax_amount d; tax_rate := tax_rate d; tax_country_code := tax_country_code d;
     tax_treatment := tax_treatment d; vat_number := vat_number d;
     declared_country := declared; geo_country := geo |}.
Definition to_line (d : TaxDetermination) (net : Z) : TaxLine :=
  {| tl_net := net; tl_tax := tax_amount d; tl_rate := tax_rate d;
     tl_country_code := tax_country_code d; tl_treatment := tax_treatment d |}.

Definition EU_VAT_COUNTRIES : list string :=
  ["AUT"; "BEL"; "BGR"; "HRV"; "CYP"; "CZE"; "DNK"; "EST"; "FIN"; "FRA"; "DEU"; "GRC"; "HUN";
   "IRL"; "ITA"; "LVA"; "LTU"; "LUX"; "MLT"; "NLD"; "POL"; "PRT"; "ROU"; "SVK"; "SVN"; "ESP";
   "SWE"]%string.
Definition is_eu_vat_country (alpha3 : string) : bool :=
  bool_decide (to_uppercase alpha3 ∈ EU_VAT_COUNTRIES).

(** ** Quotes *)

Definition round_msat_to_sat (msat : Z) : Z := wmul 64 ((msat + 999) / 1000) 1000.
(** [n.div_ceil(GB)] *)
Definition GB : Z := 2 ^ 30.
Definition gb_count (n : Z) : Z := (n + GB - 1) / GB.
(** [z as i64] of an unsigned or a product that wrapped. *)
Definition to_i64 (z : Z) : Z := let w := wrap 64 z in if w <? 2 ^ 63 then w else w - 2 ^ 64.

Definition cost_plan_interval_to_seconds (t : IntervalType) (amount : Z) : Z :=
  to_i64 (match t with Day => 86400 | Month => 30 * 86400 | Year => 365 * 86400 end * amount).

Record PricingData := {
  pr_cpu_cost : Z; pr_memory_cost : Z; pr_ip4_cost : Z; pr_ip6_cost : Z; pr_disk_cost : Z
}.
Definition pr_total (p : PricingData) : Z :=
  (wadd 64 (wadd 64 (wadd 64 (wadd 64 (pr_cpu_cost p) (pr_memory_cost p)) (pr_ip4_cost p))
     (pr_ip6_cost p)) (pr_disk_cost p)).

(** Does a stored address parse as one of the family? *)
Definition is_family `{!NetLib} (v4 : bool) (a : VmIpAssignment) : bool :=
  match parse_net (a_ip a) with Some n => Bool.eqb (is_v4 n) v4 | None => false end.
Definition count_ips `{!NetLib} (v4 : bool) (l : list VmIpAssignment) : Z :=
  Z.max 1 (Z.of_nat (length (filter (fun a => is_family v4 a = true) l))).

Definition disk_pricing_for (t : VmCustomTemplate) (l : list VmCustomPricingDisk)
  : option VmCustomPricingDisk :=
  head (filter (fun p => pd_kind p = ct_disk_type t /\ pd_interface p = ct_disk_interface t) l).

(** [chrono]'s last moment: adding past it panics. *)
Class Chrono := dt_max : Z.

Section engine.
Context `{!PaymentsRs, !IsoCountry, !NetLib, !Clock, !Calendar, !Chrono}.

(** The country of a VAT number, by its first two letters. *)
Definition vat_number_country_alpha3 (vat : string) : option string :=
  match filter (fun c => is_ascii_alphanumeric c = true) (String.list_ascii_of_string vat) with
  | c0 :: c1 :: _ =>
      if is_ascii_alphabetic c0 && is_ascii_alphabetic c1 then
        alpha3 <$> vat_code_to_isocountry (String c0 (String c1 EmptyString))
      else None
  | _ => None
  end.

Record NewPaymentInfo := {
  np_amount : Z; np_currency : Currency; np_rate : TickerRate; np_time_value : Z;
  np_new_expiry : Z; np_tax : Z; np_tax_details : TaxDetermination; np_processing_fee : Z
}.
Inductive CostResult : Type :=
| Existing (p : SubscriptionPayment)
| New (p : NewPaymentInfo).
Record UpgradeCostQuote := {
  uq_upgrade : ConvertedCurrencyAmount; uq_renewal : ConvertedCurrencyAmount;
  uq_discount : ConvertedCurrencyAmount; uq_tax : TaxDetermination; uq_processing_fee : Z
}.
Record RemainingTimeInfo := {
  seconds_remaining : Z; renewal_cost : CurrencyAmount; renewal_period_seconds : Z;
  rt_cost_per_second : spec_float; prorated_cost : CurrencyAmount
}.

Record Catalog := {
  cat_users : list User; cat_companies : list Company; cat_regions : list Region;
  cat_hosts : list VmHost; cat_templates : list VmTemplate; cat_cost_plans : list VmCostPlan;
  cat_custom_templates : list VmCustomTemplate; cat_pricings : list VmCustomPricing;
  cat_pricing_disks : list VmCustomPricingDisk; cat_ips : list VmIpAssignment;
  cat_configs : list PaymentMethodConfig; cat_rates : RateCache; cat_vat : VatCache
}.
Context (cat : Catalog).

Definition get_user (id : Z) : res Fail User :=
  fetch_one (filter (fun u => u_id u = id) (cat_users cat)).
Definition get_company (id : Z) : res Fail Company :=
  fetch_one (filter (fun c => c_id c = id) (cat_companies cat)).
Definition get_host (id : Z) : res Fail VmHost :=
  fetch_one (filter (fun h => h_id h = id) (cat_hosts cat)).
Definition get_vm_template (id : Z) : res Fail VmTemplate :=
  fetch_one (filter (fun t => t_id t = id) (cat_templates cat)).
Definition get_cost_plan (id : Z) : res Fail VmCostPlan :=
  fetch_one (filter (fun p => cp_id p = id) (cat_cost_plans cat)).
Definition get_custom_vm_template (id : Z) : res Fail VmCustomTemplate :=
  fetch_one (filter (fun t => ct_id t = id) (cat_custom_templates cat)).
Definition get_custom_pricing (id : Z) : res Fail VmCustomPricing :=
  fetch_one (filter (fun p => vp_id p = id) (cat_pricings cat)).
Definition list_custom_pricing (region : Z) : list VmCustomPricing :=
  filter (fun p => vp_region_id p = region) (cat_pricings cat).
Definition list_custom_pricing_disk (pricing : Z) : list VmCustomPricingDisk :=
  filter (fun d => pd_pricing_id d = pricing) (cat_pricing_disks cat).
Definition list_vm_ip_assignments (vm : Z) : list VmIpAssignment :=
  filter (fun a => vm_id a = vm /\ a_deleted a = false) (cat_ips cat).
Definition get_payment_method_config_for_company (company : Z) (m : PaymentMethod)
  : res Fail PaymentMethodConfig :=
  fetch_one (filter (fun c => pc_company_id c = company /\ pc_method c = m) (cat_configs cat)).
(** The company of the region of the machine's host. *)
Definition get_vm_company_id (vm : Z) : Act Z :=
  db (fun w => fetch_one
    (v ← filter (fun v => v_id v = vm) (w_vms w);
     h ← filter (fun h => h_id h = v_host_id v) (cat_hosts cat);
     r ← filter (fun r => r_id r = h_region_id h) (cat_regions cat);
     [r_company_id r])).

(** ** Effects *)

(** A failure of the engine's own, and one of a query. *)
Definition lift {A} (r : res PriceError A) : Act A :=
  mret (match r with Ok a => Ok a | Err e => Err (PriceFailed e) end).
Definition ensure_ (b : bool) (e : PriceError) : Act unit :=
  mret (if b then Ok tt else Err (PriceFailed e)).
Definition pfail {A} (e : PriceError) : Act A := mret (Err (PriceFailed e)).

(** [subscription.expires], none when it was never paid or is not found. *)
Definition vm_subscription_expires (vm : Vm) : ST World (option Z) :=
  r ← get_subscription_by_line_item_id (v_subscription_line_item_id vm);
  mret (match r with Ok s => s_expires s | Err _ => None end).

(** [expires.unwrap_or_else(Utc::now)] *)
Definition or_now (expires : option Z) : ST World Z :=
  match expires with Some t => mret t | None => now end.
(** [expires.unwrap_or_else(Utc::now).max(Utc::now())] *)
Definition clamp_now (expires : option Z) : ST World Z :=
  b ← or_now expires;
  t ← now;
  mret (Z.max b t).

Definition checked_time (t : Z) : Act Z := mret (if t <=? dt_max then Ok t else Err Panics).
(** [base.add(TimeDelta::seconds(secs as i64))] *)
Definition add_seconds (base secs : Z) : Act Z :=
  let s := to_i64 secs in
  if Z.abs s <=? (2 ^ 63 - 1) / 1000 then checked_time (base + s * SEC) else mret (Err Panics).

(** ** Tax *)

(** [taxed]'s rate for a country, [0.0] when it is unknown. *)
Definition rate_for_country (a3 : string) : f32 :=
  match for_alpha3 a3 with
  | Some cc => default zero (rate_for (cat_vat cat) cc)
  | None => zero
  end.

(** A stored text that is not blank. *)
Definition not_blank (o : option string) : option string :=
  s ← o; let t := trim s in if decide (t = EmptyString) then None else Some t.

Definition is_eu (o : option string) : bool :=
  match o with Some c => is_eu_vat_country c | None => false end.

Definition determine_tax_inner (user : User) (amount : Z) (seller_cc : option string) : TaxDetermination :=
  if negb (is_eu seller_cc) then zero_tax None OutOfScope None else
  match (vat ← not_blank (u_billing_tax_id user); cc ← vat_number_country_alpha3 vat; Some (vat, cc)) with
  | Some (vat, vat_cc) =>
      if decide (seller_cc = Some vat_cc) then
        taxed amount (rate_for_country vat_cc) (Some vat_cc) Domestic (Some vat)
      else
        zero_tax (Some vat_cc) (if is_eu_vat_country vat_cc then ReverseCharge else OutOfScope) (Some vat)
  | None =>
      match to_uppercase <$> (match u_country_code user with Some c => Some c | None => u_geo_country_code user end) with
      | Some cc =>
          if is_eu_vat_country cc then
            taxed amount (rate_for_country cc) (Some cc)
              (if decide (seller_cc = Some cc) then Domestic else OssB2c) None
          else zero_tax (Some cc) OutOfScope None
      | None =>
          match seller_cc with
          | Some scc => taxed amount (rate_for_country scc) (Some scc) UndeterminedDefault None
          | None => zero_tax None OutOfScope None
          end
      end
  end.

(** The seller's country: of its own VAT number, else the one configured. *)
Definition seller_country (company_id : Z) : option string :=
  match get_company company_id with
  | Ok c =>
      match (vat ← not_blank (c_tax_id c); vat_number_country_alpha3 vat) with
      | Some cc => Some cc
      | None => to_uppercase <$> c_country_code c
      end
  | Err _ => None
  end.

Definition determine_tax (user_id amount company_id : Z) : res Fail TaxDetermination :=
  user ← get_user user_id;
  Ok (with_evidence (to_uppercase <$> u_country_code user) (to_uppercase <$> u_geo_country_code user)
        (determine_tax_inner user amount (seller_country company_id))).

(** ** Exchange *)

Definition get_ticker (base target : Currency) : res PriceError TickerRate :=
  if decide (base = target) then Ok (passthrough base) else
  match get_rate (base, target) (cat_rates cat) with
  | Some r => Ok {| ticker := (base, target); rate := r |}
  | None => Err NoExchangeRate
  end.

Definition find_rate (a b : Currency) : option TickerRate :=
  if decide (a = b) then Some (passthrough a) else
  match get_ticker a b with
  | Ok t => Some t
  | Err _ => match get_ticker b a with Ok t => Some t | Err _ => None end
  end.

(** The intermediaries, in the order in which they are tried. *)
Fixpoint convert_via (mids : list Currency) (source : CurrencyAmount) (target : Currency)
  : res PriceError CurrencyAmount :=
  match mids with
  | [] => Err NoConversionPath
  | mid :: mids =>
      if decide (mid = currency source \/ mid = target) then convert_via mids source target else
      match find_rate (currency source) mid, find_rate mid target with
      | Some first, Some second => intermediate ← convert first source; convert second intermediate
      | _, _ => convert_via mids source target
      end
  end.
Definition convert_currency (source : CurrencyAmount) (target : Currency) : res PriceError CurrencyAmount :=
  if decide (currency source = target) then Ok source else
  match find_rate (currency source) target with
  | Some r => convert r source
  | None => convert_via [BTC; EUR] source target
  end.

Definition round_to_sat (a : CurrencyAmount) : CurrencyAmount := from_u64 BTC (round_msat_to_sat (value a)).

Definition get_amount_and_rate (list_price : CurrencyAmount) (method : PaymentMethod)
  : res PriceError ConvertedCurrencyAmount :=
  let c := currency list_price in
  match method with
  | Lightning | OnChain =>
      if decide (c = BTC) then
        Ok {| amount := round_to_sat list_price; conv_rate := passthrough BTC |}
      else
        ticker ← get_ticker BTC c;
        converted ← convert_with_rate ticker list_price;
        Ok {| amount := round_to_sat (amount converted); conv_rate := conv_rate converted |}
  | Revolut =>
      if decide (c = BTC) then Err CantGetPrice else
      ticker ← get_ticker c c;
      convert_with_rate ticker list_price
  | _ => Err CantGetPrice
  end.

(** ** Fees *)

Definition processing_fee_params (company_id : Z) (method : PaymentMethod) (cur : Currency) : f32 * Z :=
  if decide (method = Lightning) then (zero, 0) else
  match get_payment_method_config_for_company company_id method with
  | Err _ => (zero, 0)
  | Ok config =>
      match pc_enabled config, processing_fee_rate config, processing_fee_base config with
      | true, Some rate, Some base =>
          let base_fee_currency :=
            default cur (parse_currency (default EmptyString (processing_fee_currency config))) in
          let base_raw :=
            if decide (base_fee_currency = cur) then base else
            match convert_currency (from_u64 base_fee_currency base) cur with
            | Ok converted => value converted
            | Err _ => base
            end in
          (percent rate, base_raw)
      | _, _, _ => (zero, 0)
      end
  end.

Definition fee_on (params : spec_float * Z) (amount : Z) : Z :=
  let '(r, base_raw) := params in
  if Flt.le r zero && (base_raw =? 0) then 0 else
  let percentage_fee := Flt.ceil_to 64 (f64_div (f64_mul (f64_of amount) r) (f64_sub one r)) in
  let base_fee :=
    if SFltb zero r then Flt.ceil_to 64 (f64_div (f64_of base_raw) (f64_sub one r)) else base_raw in
  wadd 64 percentage_fee base_fee.
Definition calculate_processing_fee (company_id : Z) (method : PaymentMethod) (cur : Currency) (amount : Z) : Z :=
  fee_on (processing_fee_params company_id method cur) amount.

Definition net_on (params : spec_float * Z) (tax_pct : f32) (gross : Z) : Z :=
  let '(r, base_raw) := params in
  let t := f64_div (Flt.widen (Flt.max tax_pct zero)) hundred in
  let net := f64_div (f64_sub (f64_mul (f64_of gross) (f64_sub one r)) (f64_of base_raw)) (f64_add one t) in
  Flt.floor_to 64 (Flt.max net zero).
Definition net_from_gross (company_id : Z) (method : PaymentMethod) (cur : Currency) (tax_pct : f32) (gross : Z) : Z :=
  net_on (processing_fee_params company_id method cur) tax_pct gross.

Definition enforce_min_amount (company_id : Z) (method : PaymentMethod) (gross : CurrencyAmount)
  : res PriceError unit :=
  if decide (method = Lightning) then Ok tt else
  match get_payment_method_config_for_company company_id method with
  | Err _ => Ok tt
  | Ok config =>
      match min_amount config, min_amount_currency config with
      | Some min_raw, Some min_currency_str =>
          if min_raw =? 0 then Ok tt else
          min_currency ← ok_or InvalidCurrency (parse_currency min_currency_str);
          min_in_gross ← convert_currency (from_u64 min_currency min_raw) (currency gross);
          ensure (value min_in_gross <=? value gross) BelowMinimum
      | _, _ => Ok tt
      end
  end.

(** ** Costs *)

(** The price of a custom machine, with its currency. *)
Definition get_custom_vm_cost_amount (vm : Z) (template : VmCustomTemplate) : res Fail (Currency * PricingData) :=
  pricing ← get_custom_pricing (ct_pricing_id template);
  let ips := list_vm_ip_assignments vm in
  let v4s := count_ips true ips in
  let v6s := count_ips false ips in
  disk_pricing ← ok_or (PriceFailed NoDiskPrice)
    (disk_pricing_for template (list_custom_pricing_disk (vp_id pricing)));
  cur ← ok_or (PriceFailed InvalidCurrency) (parse_currency (vp_currency pricing));
  Ok (cur,
    {| pr_cpu_cost := wmul 64 (vp_cpu_cost pricing) (ct_cpu template);
       pr_memory_cost := wmul 64 (vp_memory_cost pricing) (gb_count (ct_memory template));
       pr_ip4_cost := wmul 64 (vp_ip4_cost pricing) v4s;
       pr_ip6_cost := wmul 64 (vp_ip6_cost pricing) v6s;
       pr_disk_cost := wmul 64 (gb_count (ct_disk_size template)) (pd_cost disk_pricing) |}).

Definition validate_custom_vm_spec (template : VmCustomTemplate) : res Fail unit :=
  pricing ← get_custom_pricing (ct_pricing_id template);
  disk_pricing ← ok_or (PriceFailed NoDiskPrice)
    (disk_pricing_for template (list_custom_pricing_disk (vp_id pricing)));
  if (ct_cpu template <? vp_min_cpu pricing) || (vp_max_cpu pricing <? ct_cpu template)
  then Err (PriceFailed CpuOutOfRange)
  else if (ct_memory template <? vp_min_memory pricing) || (vp_max_memory pricing <? ct_memory template)
  then Err (PriceFailed MemoryOutOfRange)
  else if (ct_disk_size template <? min_disk_size disk_pricing)
       || (max_disk_size disk_pricing <? ct_disk_size template)
  then Err (PriceFailed DiskOutOfRange)
  else Ok tt.

(** Tax and fee on top of a converted price, and the expiry it would reach. *)
Definition charge (user company : Z) (method : PaymentMethod) (converted : ConvertedCurrencyAmount)
    (time_value base : Z) : Act NewPaymentInfo :=
  tax_details ←? mret (determine_tax user (value (amount converted)) company);
  let fee := calculate_processing_fee company method (currency (amount converted))
    (wadd 64 (value (amount converted)) (tax_amount tax_details)) in
  new_expiry ←? add_seconds base time_value;
  mret (Ok {| np_amount := value (amount converted); np_currency := currency (amount converted);
              np_rate := conv_rate converted; np_time_value := time_value; np_new_expiry := new_expiry;
              np_tax := tax_amount tax_details; np_tax_details := tax_details;
              np_processing_fee := fee |}).

(** [Days::new], [Months::new] of the interval, checked. *)
Definition next_date (base : Z) (t : IntervalType) (n : Z) : Act Z :=
  checked_time
    match t with
    | Day => base + n * DAY
    | Month => add_months base (wrap 32 n)
    | Year => add_months base (wrap 32 (wmul 64 12 n))
    end.
Definition next_template_expire (base_expiry : Z) (plan : VmCostPlan) : Act Z :=
  t ← now;
  let base := Z.max base_expiry t in
  next_expire ←? next_date base (cp_interval_type plan) (cp_interval_amount plan);
  mret (Ok (wrap 64 ((next_expire - base) / SEC))).

Definition get_custom_vm_cost (vm : Vm) (method : PaymentMethod) (company : Z) : Act NewPaymentInfo :=
  match v_custom_template_id vm with
  | None => pfail NotCustomVm
  | Some template_id =>
      template ←? mret (get_custom_vm_template template_id);
      price ←? mret (get_custom_vm_cost_amount (v_id vm) template);
      expires ← vm_subscription_expires vm;
      base ← clamp_now expires;
      next ←? checked_time (add_months base 1);
      let time_value := wrap 64 ((next - base) / SEC) in
      converted ←? lift (get_amount_and_rate (from_u64 price.1 (pr_total price.2)) method);
      charge (v_user_id vm) company method converted time_value base
  end.

Definition get_template_vm_cost (vm : Vm) (method : PaymentMethod) (company : Z) : Act NewPaymentInfo :=
  match v_template_id vm with
  | None => pfail NotTemplateVm
  | Some template_id =>
      template ←? mret (get_vm_template template_id);
      plan ←? mret (get_cost_plan (t_cost_plan_id template));
      cur ←? mret (ok_or Panics (parse_currency (cp_currency plan)));
      converted ←? lift (get_amount_and_rate (from_u64 cur (cp_amount plan)) method);
      expires ← vm_subscription_expires vm;
      vm_expires ← or_now expires;
      time_value ←? next_template_expire vm_expires plan;
      t ← now;
      charge (v_user_id vm) company method converted time_value (Z.max vm_expires t)
  end.

Definition get_vm_base_cost (vm : Vm) (method : PaymentMethod) (company : Z) : Act NewPaymentInfo :=
  match v_template_id vm with
  | Some _ => get_template_vm_cost vm method company
  | None => get_custom_vm_cost vm method company
  end.

(** [(time as f64 * (net as f64 / cost as f64)).floor() as u64] *)
Definition bought_time (time cost net : Z) : Z :=
  Flt.floor_to 64 (f64_mul (f64_of time) (f64_div (f64_of net) (f64_of cost))).

(** What a gross amount buys at the price [cost] of [time] seconds. *)
Definition buy (user company : Z) (method : PaymentMethod) (input : CurrencyAmount) (cur : Currency)
    (rate : TickerRate) (time cost : Z) (expires : ST World (option Z)) : Act NewPaymentInfo :=
  tax_now ←? mret (determine_tax user (value input) company);
  let net := net_from_gross company method cur (tax_rate tax_now) (value input) in
  ensure_ (0 <? net) AmountTooSmall;?
  let new_time := bought_time time cost net in
  ensure_ (0 <? new_time) TimeTooShort;?
  e ← expires;
  base ← clamp_now e;
  tax_details ←? mret (determine_tax user net company);
  let fee := sat_sub (value input) (wadd 64 net (tax_amount tax_details)) in
  new_expiry ←? add_seconds base new_time;
  mret (Ok {| np_amount := net; np_currency := cur; np_rate := rate; np_time_value := new_time;
              np_new_expiry := new_expiry; np_tax := tax_amount tax_details;
              np_tax_details := tax_details; np_processing_fee := fee |}).

Definition get_cost_by_amount (vm_id : Z) (input : CurrencyAmount) (method : PaymentMethod) : Act CostResult :=
  vm ←? get_vm vm_id;
  company ←? get_vm_company_id vm_id;
  cost ←? get_vm_base_cost vm method company;
  ensure_ (bool_decide (np_currency cost = currency input)) WrongCurrency;?
  info ←? buy (v_user_id vm) company method input (np_currency cost) (np_rate cost)
    (np_time_value cost) (np_amount cost) (vm_subscription_expires vm);
  mret (Ok (New info)).

Definition get_subscription_cost_by_amount (sub : Z) (input : CurrencyAmount) (method : PaymentMethod)
  : Act CostResult :=
  subscription ←? get_subscription sub;
  line_items ← list_subscription_line_items sub;
  ensure_ (negb (bool_decide (line_items = []))) NoLineItems;?
  subscription_currency ←? lift (ok_or InvalidCurrency (parse_currency (s_currency subscription)));
  let interval_cost := foldl (wadd 64) 0 (li_amount <$> line_items) in
  ensure_ (0 <? interval_cost) ZeroCost;?
  converted ←? lift (get_amount_and_rate (from_u64 subscription_currency interval_cost) method);
  ensure_ (bool_decide (currency (amount converted) = currency input)) WrongCurrency;?
  ensure_ (0 <? value (amount converted)) ZeroConverted;?
  info ←? buy (s_user_id subscription) (s_company_id subscription) method input
    (currency (amount converted)) (conv_rate converted)
    (wrap 64 (cost_plan_interval_to_seconds (s_interval_type subscription) (s_interval_amount subscription)))
    (value (amount converted)) (mret (s_expires subscription));
  mret (Ok (New info)).

(** The pending payments, newest first. *)
Fixpoint insert_newest (p : SubscriptionPayment) (l : list SubscriptionPayment) : list SubscriptionPayment :=
  match l with
  | [] => [p]
  | q :: l' => if p_created q <? p_created p then p :: l else q :: insert_newest p l'
  end.
Definition newest_first (l : list SubscriptionPayment) : list SubscriptionPayment :=
  foldl (fun acc p => insert_newest p acc) [] l.

Definition get_vm_cost_for_intervals (vm_id : Z) (method : PaymentMethod) (intervals : Z) : Act CostResult :=
  let intervals := Z.max 1 intervals in
  vm ←? get_vm vm_id;
  company ←? get_vm_company_id vm_id;
  base_cost ←? get_vm_base_cost vm method company;
  let requested_time := wmul 64 (np_time_value base_cost) intervals in
  pending ← list_pending_vm_subscription_payments (v_id vm);
  match head (filter (fun p => p_method p = method /\ p_type p = Renewal /\
                        p_time_value p = Some requested_time) (newest_first pending)) with
  | Some px => mret (Ok (Existing px))
  | None =>
      expires ← vm_subscription_expires vm;
      base ← clamp_now expires;
      if intervals =? 1 then mret (Ok (New base_cost)) else
      let scaled_amount := wmul 64 (np_amount base_cost) intervals in
      let scaled_time := wmul 64 (np_time_value base_cost) intervals in
      tax_details ←? mret (determine_tax (v_user_id vm) scaled_amount company);
      let fee := calculate_processing_fee company method (np_currency base_cost)
        (wadd 64 scaled_amount (tax_amount tax_details)) in
      new_expiry ←? add_seconds base scaled_time;
      mret (Ok (New {| np_amount := scaled_amount; np_currency := np_currency base_cost;
                       np_rate := np_rate base_cost; np_time_value := scaled_time;
                       np_new_expiry := new_expiry; np_tax := tax_amount tax_details;
                       np_tax_details := tax_details; np_processing_fee := fee |}))
  end.
Definition get_vm_cost (vm_id : Z) (method : PaymentMethod) : Act CostResult :=
  get_vm_cost_for_intervals vm_id method 1.

(** ** Upgrades *)

Definition compatible_pricing (disk_type : DiskType) (disk_interface : DiskInterface) (mfg : CpuMfg)
    (arch : CpuArch) (features : list CpuFeature) (p : VmCustomPricing) : bool :=
  vp_enabled p
  && negb (negb (bool_decide (mfg = MfgUnknown)) && negb (bool_decide (vp_cpu_mfg p = MfgUnknown))
           && negb (bool_decide (vp_cpu_mfg p = mfg)))
  && negb (negb (bool_decide (arch = ArchUnknown)) && negb (bool_decide (vp_cpu_arch p = ArchUnknown))
           && negb (bool_decide (vp_cpu_arch p = arch)))
  && negb (negb (bool_decide (features = [])) && negb (bool_decide (vp_cpu_features p = []))
           && negb (forallb (fun f => bool_decide (f ∈ vp_cpu_features p)) features))
  && existsb (fun d => bool_decide (pd_kind d = disk_type) && bool_decide (pd_interface d = disk_interface))
       (list_custom_pricing_disk (vp_id p)).
Definition find_custom_pricing (region : Z) (disk_type : DiskType) (disk_interface : DiskInterface)
    (mfg : CpuMfg) (arch : CpuArch) (features : list CpuFeature) : res PriceError VmCustomPricing :=
  ok_or NoCustomPricing
    (head (filter (fun p => compatible_pricing disk_type disk_interface mfg arch features p = true)
             (list_custom_pricing region))).

Definition create_upgrade_template (vm_id : Z) (cfg : UpgradeConfig) : Act VmCustomTemplate :=
  vm ←? get_vm vm_id;
  match v_template_id vm, v_custom_template_id vm with
  | Some template_id, _ =>
      template ←? mret (get_vm_template template_id);
      pricing ←? lift (find_custom_pricing (t_region_id template) (t_disk_type template)
        (t_disk_interface template) (t_cpu_mfg template) (t_cpu_arch template) (t_cpu_features template));
      mret (Ok {| ct_id := 0; ct_cpu := default (t_cpu template) (new_cpu cfg);
                  ct_memory := default (t_memory template) (new_memory cfg);
                  ct_disk_size := default (t_disk_size template) (new_disk cfg);
                  ct_disk_type := t_disk_type template; ct_disk_interface := t_disk_interface template;
                  ct_cpu_mfg := t_cpu_mfg template; ct_cpu_arch := t_cpu_arch template;
                  ct_cpu_features := t_cpu_features template; ct_pricing_id := vp_id pricing |})
  | None, Some custom_template_id =>
      t ←? mret (get_custom_vm_template custom_template_id);
      pricing ←? mret (get_custom_pricing (ct_pricing_id t));
      mret (Ok {| ct_id := 0; ct_cpu := default (ct_cpu t) (new_cpu cfg);
                  ct_memory := default (ct_memory t) (new_memory cfg);
                  ct_disk_size := default (ct_disk_size t) (new_disk cfg);
                  ct_disk_type := ct_disk_type t; ct_disk_interface := ct_disk_interface t;
                  ct_cpu_mfg := ct_cpu_mfg t; ct_cpu_arch := ct_cpu_arch t;
                  ct_cpu_features := ct_cpu_features t; ct_pricing_id := vp_id pricing |})
  | None, None => pfail NoTemplate
  end.

Definition get_remaining_time_info_from_date (vm_id from_date : Z) : Act RemainingTimeInfo :=
  vm ←? get_vm vm_id;
  ensure_ (negb (v_deleted vm)) DeletedVm;?
  expires ← vm_subscription_expires vm;
  vm_expires ←? lift (ok_or NeverPaid expires);
  ensure_ (from_date <? vm_expires) ExpiredVm;?
  current ←? mret
    match v_template_id vm, v_custom_template_id vm with
    | Some tid, _ =>
        template ← get_vm_template tid;
        plan ← get_cost_plan (t_cost_plan_id template);
        cur ← ok_or (PriceFailed InvalidCurrency) (parse_currency (cp_currency plan));
        Ok (from_u64 cur (cp_amount plan),
            cost_plan_interval_to_seconds (cp_interval_type plan) (cp_interval_amount plan))
    | None, Some cid =>
        template ← get_custom_vm_template cid;
        price ← get_custom_vm_cost_amount (v_id vm) template;
        Ok (from_u64 price.1 (pr_total price.2), cost_plan_interval_to_seconds Month 1)
    | None, None => Err (PriceFailed NoTemplate)
    end;
  let '(current_cost, current_time_value) := current in
  let seconds := (vm_expires - from_date) / SEC in
  let per_second := f64_div (f64_of (value current_cost)) (f64_of current_time_value) in
  let prorated := Flt.floor_to 64 (f64_mul (f64_of seconds) per_second) in
  mret (Ok {| seconds_remaining := seconds; renewal_cost := current_cost;
              renewal_period_seconds := current_time_value; rt_cost_per_second := per_second;
              prorated_cost := from_u64 (currency current_cost) prorated |}).

Definition calculate_vm_refund_amount_from_date (vm_id : Z) (method : PaymentMethod) (from_date : Z)
  : Act ConvertedCurrencyAmount :=
  info ←? get_remaining_time_info_from_date vm_id from_date;
  lift (get_amount_and_rate (prorated_cost info) method).

Definition calculate_vm_upgrade_cost (vm_id : Z) (cfg : UpgradeConfig) (method : PaymentMethod)
  : Act UpgradeCostQuote :=
  vm ←? get_vm vm_id;
  ensure_ (negb (v_deleted vm)) DeletedVm;?
  expires ← vm_subscription_expires vm;
  vm_expires ←? lift (ok_or NeverPaid expires);
  t ← now;
  ensure_ (t <? vm_expires) ExpiredVm;?
  from_date ← now;
  remaining ←? get_remaining_time_info_from_date vm_id from_date;
  template ←? create_upgrade_template vm_id cfg;
  mret (validate_custom_vm_spec template);?
  price ←? mret (get_custom_vm_cost_amount vm_id template);
  let new_price := from_u64 price.1 (pr_total price.2) in
  let per_second := f64_div (f64_of (value new_price)) (f64_of (cost_plan_interval_to_seconds Month 1)) in
  let until_expire := from_u64 (currency new_price)
    (Flt.floor_to 64 (f64_mul per_second (f64_of (seconds_remaining remaining)))) in
  new_cost ←? lift (get_amount_and_rate until_expire method);
  discount ←? lift (get_amount_and_rate (prorated_cost remaining) method);
  renewal ←? lift (get_amount_and_rate new_price method);
  upgrade ←? lift (converted_sub new_cost discount);
  company ←? get_vm_company_id vm_id;
  tax ←? mret (determine_tax (v_user_id vm) (value (amount upgrade)) company);
  let fee := calculate_processing_fee company method (currency (amount upgrade))
    (wadd 64 (value (amount upgrade)) (tax_amount tax)) in
  mret (Ok {| uq_upgrade := upgrade; uq_renewal := renewal; uq_discount := discount;
              uq_tax := tax; uq_processing_fee := fee |}).
End engine.
