(* ===== verification/PricingMath.v ===== *)
(** * The arithmetic of prices

    What [taxed], [fee_on], [net_on] and [bought_time] of [Pricing] compute in
    doubles, as bounds on reals, and what a currency conversion does. *)

From Stdlib Require Import Reals Lra SpecFloat.
From S2P Require Import Prelude HostTypes Exchange FloatErr SubDb Pricing.

#[local] Open Scope R_scope.

(** The real that a nonnegative float stands for. *)
Definition realv (v : spec_float) : R :=
  match v with S754_finite _ m e => IZR (Z.pos m) * pw e | _ => 0 end.

(** A percentage that is zero or lies between [2 ^ -20] and [99]. *)
Definition pct_ok (r : spec_float) : bool :=
  match r with
  | S754_zero false => true
  | S754_finite false m e =>
      (bounded 24 128 m e && (e <=? 0) && (2 ^ (- e) <=? Z.pos m * 2 ^ 20) && (Z.pos m <=? 99 * 2 ^ (- e)))%Z
  | _ => false
  end.

Lemma rep_realv s x v : rep s x v -> realv v = x.
Proof. destruct v; cbn [rep realv]; try tauto; [by intros [_ ->]|by intros (_ & _ & ->)]. Qed.

Lemma digits_24 m e : bounded 24 128 m e = true -> (Z.pos m < 2 ^ 24)%Z.
Proof.
  unfold bounded, canonical_mantissa. intros [He _]%andb_true_iff. apply Z.eqb_eq in He. revert He.
  unfold SpecFloat.fexp, SpecFloat.emin. std_Z. pose proof (digits2_range m) as Hd. intros He.
  assert (Z.pos (digits2_pos m) <= 24)%Z by lia.
  pose proof (Z.pow_le_mono_r 2 (Z.pos (digits2_pos m)) 24 ltac:(lia) ltac:(lia)). lia.
Qed.

Lemma pct_spec r : pct_ok r = true ->
  valid_binary 24 128 r = true /\ rep false (realv r) r /\ 0 <= realv r <= 99 /\
  (realv r = 0 \/ pw (-20) <= realv r).
Proof.
  destruct r as [[]|?| |[] m e]; cbn [pct_ok realv valid_binary rep]; try done.
  - intros _. repeat split; try lra; by left.
  - rewrite !andb_true_iff, !Z.leb_le. intros [[[Hb He] Hlo] Hhi].
    pose proof (digits_24 _ _ Hb) as Hm. pose proof (pw_pos e) as Hpe.
    assert (pw e * pw (- e) = 1) as Hinv by (rewrite Rmult_comm; apply pw_neg).
    apply IZR_le in Hlo, Hhi. rewrite !mult_IZR, <- !pw_IZR in Hlo by lia. rewrite mult_IZR, <- pw_IZR in Hhi by lia.
    split; [done|]. split; [|split; [split|]].
    + split; [done|]. split; [lia|done].
    + apply Rmult_le_pos; [apply IZR_le; lia|lra].
    + apply Rle_trans with (99 * pw (- e) * pw e); [apply Rmult_le_compat_r; lra|]. lra.
    + right. apply (Rmult_le_reg_r (pw 20)); [apply pw_pos|]. change (-20)%Z with (- (20))%Z. rewrite pw_neg.
      apply Rle_trans with (pw (- e) * pw e); [lra|]. nra.
Qed.

Lemma approx_one : approx 0 64 1 one.
Proof. exact (approx_of_Z_exact 1 ltac:(lia)). Qed.
Lemma rep_one : rep false 1 one.
Proof. destruct approx_one as [_ (r & Hr & ->%near_0_eq)]. done. Qed.
Lemma approx_hundred : approx 0 64 100 hundred.
Proof. exact (approx_of_Z_exact 100 ltac:(lia)). Qed.

Lemma within_pct r : pct_ok r = true -> sized 20 (realv r).
Proof.
  intros Hr. destruct (pct_spec r Hr) as (_ & _ & [H0 H99] & [E|E]); [by left|right].
  split; [done|]. apply Rle_trans with 99; [done|]. rewrite pw_IZR by lia. apply IZR_le. lia.
Qed.
Lemma percent_approx r : pct_ok r = true -> approx 1 84 (realv r / 100) (percent r).
Proof.
  intros Hr. destruct (pct_spec r Hr) as (Hv & Hrep & _).
  apply (approx_div 0 0 20 64); [lia|lia|lra| |apply approx_hundred].
  apply approx_rep; [by apply within_pct|]. by apply widen_exact.
Qed.
Lemma percent_rep r : pct_ok r = true ->
  rep false (realv (percent r)) (percent r) /\ near 1 (realv r / 100) (realv (percent r)) /\
  sized 85 (realv (percent r)) /\ 0 <= realv (percent r) <= 995 / 1000.
Proof.
  intros Hr. destruct (pct_spec r Hr) as (_ & _ & Hr99 & _).
  destruct (percent_approx r Hr) as [Hw (x & Hx & Hn)]. rewrite (rep_realv _ _ _ Hx).
  split; [done|]. split; [done|]. split; [by apply (within_near 1 84 _ _ ltac:(lia) Hw)|].
  pose proof (near_bound 1 (realv r / 100) x ltac:(lia) ltac:(lra) Hn) as [Hlo Hhi]. cbn [INR] in *.
  split; [by apply (rep_nonneg _ _ _ Hx)|]. pose proof eps_small. pose proof eps_pos.
  assert (realv r / 100 * (1 + 2 * 1 * eps) <= 99 / 100 * (1 + 2 * 1 * eps)) by (apply Rmult_le_compat_r; lra).
  lra.
Qed.

(** ** Tax *)

Lemma taxed_bounds a r cc t vat : (0 <= a < 2 ^ 53)%Z -> pct_ok r = true ->
  let tax := tax_amount (taxed a r cc t vat) in
  (0 <= tax)%Z /\
  IZR a * (realv r / 100) * (1 - 4 * eps) - 1 < IZR tax <= IZR a * (realv r / 100) * (1 + 4 * eps).
Proof.
  intros Ha Hr. cbn [taxed tax_amount].
  destruct (pct_spec r Hr) as (_ & _ & Hr99 & _).
  destruct (approx_mul 0 1 64 84 _ _ _ _ ltac:(lia) ltac:(lia) (approx_of_Z_exact a Ha) (percent_approx r Hr))
    as [Hw (x & Hx & Hn)].
  assert (0 <= IZR a) as Ha0 by (apply IZR_le; lia).
  assert (0 <= IZR a * (realv r / 100)) as Hp by (apply Rmult_le_pos; lra).
  apply near_bound in Hn; [|lia|done]. cbn [INR Nat.add] in Hn. pose proof eps_small. pose proof eps_pos.
  assert (IZR a * (realv r / 100) <= IZR a * 1) as Hle by (apply Rmult_le_compat_l; lra).
  assert (IZR a <= IZR (2 ^ 53)) as Ha53 by (apply IZR_le; lia).
  assert (x < IZR (2 ^ 64)) as Hbig.
  { change (2 ^ 64)%Z with (2 ^ 53 * 2048)%Z. rewrite mult_IZR. nra. }
  pose proof (floor_spec 64 x _ ltac:(lia) Hx Hbig) as Hf.
  split; [|lra].
  assert (-1 < Flt.floor_to 64 (f64_mul (f64_of a) (percent r)))%Z; [|lia].
  apply lt_IZR. pose proof (rep_nonneg _ _ _ Hx). lra.
Qed.

(** ** From gross to net *)

(** The fee rate as a fraction: zero or a percentage over a hundred. *)
Definition frac_ok (rf : spec_float) : Prop :=
  rep false (realv rf) rf /\ sized 85 (realv rf) /\ 0 <= realv rf <= 995 / 1000.

Lemma frac_zero : frac_ok zero.
Proof. repeat split; cbn [realv zero]; try lra; by left. Qed.
Lemma frac_percent r : pct_ok r = true -> frac_ok (percent r).
Proof. intros Hr. by destruct (percent_rep r Hr) as (? & _ & ? & ?). Qed.

Lemma within_one : sized 85 1.
Proof. right. rewrite <- pw_0. split; apply pw_le; lia. Qed.
Lemma one_minus rf : frac_ok rf -> approx 1 138 (1 - realv rf) (f64_sub one rf).
Proof.
  intros (Hr & Hw & Hb). apply (approx_sub 85); [lia|apply within_one|done|lra|apply rep_one|done].
Qed.

Lemma max_zero_rep s x v : rep s x v ->
  Flt.floor_to 64 (Flt.max v zero) = if s then 0%Z else Flt.floor_to 64 v.
Proof. destruct v as [t| | |t m e]; cbn [rep]; try tauto; intros [-> _]; by destruct s. Qed.
Lemma max_pct r : pct_ok r = true -> Flt.max r zero = r.
Proof. by destruct r as [[]|?| |[] m e]. Qed.

Lemma div_sign s x y a b : rep s x a -> rep false y b -> 0 < y -> sized 400 x -> sized 400 y ->
  s = true -> Flt.floor_to 64 (Flt.max (f64_div a b) zero) = 0%Z.
Proof.
  intros Ha Hb Hy Hwx Hwy ->.
  assert (sized 800 (x / y)) as Hw by (apply (within_div 400 400); [lra|done..]).
  destruct (div_spec 53 1024 ltac:(lia) ltac:(lia) true false x y a b) as (z & Hz & _); try done.
  - destruct Hwx as [->|?]; [by left|right]. destruct Hw as [E|[Hlo _]].
    + apply Rmult_integral in E as [E|E].
      * pose proof (pw_pos (- (400))). lra.
      * by apply Rinv_neq_0_compat in E; [|lra].
    + eapply Rle_trans; [|exact Hlo]. apply pw_le. unfold SpecFloat.emin. std_Z. lia.
  - eapply within_huge; [|exact Hw]; lia.
  - by rewrite (max_zero_rep _ _ _ Hz).
Qed.

Lemma pct_T pct : pct_ok pct = true -> 0 <= realv pct / 100 <= 1.
Proof. intros Hp. destruct (pct_spec pct Hp) as (_ & _ & ? & _). lra. Qed.
Lemma one_plus pct : pct_ok pct = true -> approx 2 85 (1 + realv pct / 100) (f64_add one (percent pct)).
Proof.
  intros Hp. apply (approx_add 1 84); [lia|lia| |by apply percent_approx].
  eapply approx_weaken; [| |apply approx_one]; lia.
Qed.

Lemma net_cases rf base pct g :
  frac_ok rf -> (0 <= base < 2 ^ 53)%Z -> pct_ok pct = true -> (0 <= g < 2 ^ 53)%Z ->
  let net := net_on (rf, base) pct g in
  exists x, near 2 (IZR g * (1 - realv rf)) x /\
    (IZR base <= x -> exists q, near 6 ((x - IZR base) / (1 + realv pct / 100)) q /\
       IZR net <= q < IZR net + 1) /\
    (x < IZR base -> net = 0%Z).
Proof.
  intros Hrf Hbase Hpct Hg. unfold net_on. rewrite (max_pct _ Hpct). change (f64_div _ hundred) with (percent pct).
  destruct (approx_mul 0 1 64 138 _ _ _ _ ltac:(lia) ltac:(lia) (approx_of_Z_exact g Hg) (one_minus rf Hrf))
    as [Hwx (x & Hx & Hnx)].
  destruct (approx_of_Z_exact base Hbase) as [Hwb (b & Hb & ->%near_0_eq)].
  destruct (one_plus pct Hpct) as [Hwt (y & Hy & Hny)].
  assert (sized 203 x) as Hwx' by by apply (within_near 2 202 _ _ ltac:(lia) Hwx).
  assert (sized 203 (IZR base)) as Hwb' by by apply (within_le 64); [lia|].
  pose proof (pct_T _ Hpct) as HT.
  exists x. split; [exact Hnx|]. split.
  - intros Hbx. pose proof (approx_sub 203 _ _ _ _ ltac:(lia) Hwx' Hwb' Hbx Hx Hb) as Hsub.
    assert (1 + realv pct / 100 <> 0) as Hne by lra.
    destruct (approx_div 1 2 256 85 _ _ _ _ ltac:(lia) ltac:(lia) Hne Hsub (one_plus pct Hpct))
      as [Hwq (q & Hq & Hnq)].
    exists q. split; [exact Hnq|]. rewrite (max_zero_rep _ _ _ Hq). apply (floor_spec 64); [lia|exact Hq|].
    pose proof (within_nonneg _ _ Hwq) as Hq0. apply near_half in Hnq as [_ Hnq]; [|lia|done].
    assert (0 <= IZR g) as Hg0 by (apply IZR_le; lia).
    assert (0 <= IZR g * (1 - realv rf) <= IZR g * 1) as Hgr
      by (destruct Hrf as (_ & _ & ?); split; [apply Rmult_le_pos|apply Rmult_le_compat_l]; lra).
    apply near_half in Hnx as [_ Hnx]; [|lia|lra].
    assert (0 <= IZR base) as Hb0 by (apply IZR_le; lia).
    assert ((x - IZR base) / (1 + realv pct / 100) <= x) as Hqx.
    { apply (Rmult_le_reg_r (1 + realv pct / 100)); [lra|]. unfold Rdiv at 1. rewrite Rmult_assoc, Rinv_l by lra. nra. }
    assert (IZR g <= IZR (2 ^ 53)) as Hg53 by (apply IZR_le; lia).
    change (2 ^ 64)%Z with (2 ^ 53 * 2048)%Z. rewrite mult_IZR. assert (0 < IZR (2 ^ 53)) by by apply IZR_lt. lra.
  - intros Hxb. destruct (sub_negative 203 _ _ _ _ ltac:(lia) Hwx' Hwb' Hxb Hx Hb) as (z & Hz & Hwz).
    apply (div_sign true z (y) _ _ Hz Hy); [|by apply (within_le 257)|by apply (within_le 86); [|apply (within_near 2 85 _ _ ltac:(lia) Hwt)]|done].
    apply near_half in Hny as [Hny _]; [lra|lia|lra].
Qed.

(** Amounts under [2 ^ 45] leave the roundings far below one unit. *)
Lemma eps_amount a : (0 <= a < 2 ^ 45)%Z -> 0 <= IZR a * eps <= / 128.
Proof.
  intros Ha. assert (0 <= IZR a <= IZR (2 ^ 45)) as [H0 H45] by (split; apply IZR_le; lia).
  pose proof eps_pos. split; [by apply Rmult_le_pos; [|apply Rlt_le]|].
  apply Rle_trans with (IZR (2 ^ 45) * eps); [apply Rmult_le_compat_r; lra|].
  rewrite <- pw_IZR by lia. unfold eps. rewrite <- pw_add. change (45 + -52)%Z with (- (7))%Z.
  rewrite pw_opp, pw_IZR by lia. apply Req_le. reflexivity.
Qed.

(** Net and tax of a gross amount never exceed it. *)
Lemma net_tax_fit rf base pct g cc t vat :
  frac_ok rf -> (0 <= base < 2 ^ 53)%Z -> pct_ok pct = true -> (0 <= g < 2 ^ 45)%Z ->
  let net := net_on (rf, base) pct g in
  (0 < net)%Z -> (0 <= tax_amount (taxed net pct cc t vat) /\ net + tax_amount (taxed net pct cc t vat) <= g)%Z.
Proof.
  intros Hrf Hbase Hpct Hg net Hnet.
  destruct (net_cases rf base pct g Hrf Hbase Hpct ltac:(lia)) as (x & Hnx & Hle & Hgt). fold net in Hle, Hgt.
  destruct (Rlt_le_dec x (IZR base)) as [Hx|Hx]; [specialize (Hgt Hx); lia|]. clear Hgt.
  destruct (Hle Hx) as (q & Hnq & Hq). clear Hle.
  pose proof (pct_T _ Hpct) as HT. set (T := realv pct / 100) in *.
  assert (0 <= IZR g) as Hg0 by (apply IZR_le; lia). assert (0 <= IZR base) as Hb0 by (apply IZR_le; lia).
  pose proof (eps_amount g Hg) as He. pose proof eps_pos. pose proof eps_small.
  assert (0 <= IZR g * (1 - realv rf) <= IZR g * 1) as Hgr
    by (destruct Hrf as (_ & _ & ?); split; [apply Rmult_le_pos|apply Rmult_le_compat_l]; lra).
  apply near_bound in Hnx as [_ Hx2]; [|lia|lra]. cbn [INR] in Hx2.
  assert (0 <= (x - IZR base) / (1 + T)) as Hq0 by (apply Rle_mult_inv_pos; lra).
  apply near_bound in Hnq as [_ Hq2]; [|lia|done]. cbn [INR] in Hq2.
  assert (x <= IZR g + 4 * (IZR g * eps)) as Hx3.
  { assert (IZR g * (1 - realv rf) * (1 + 2 * (1 + 1) * eps) <= IZR g * 1 * (1 + 2 * (1 + 1) * eps))
      by (apply Rmult_le_compat_r; lra). lra. }
  assert (IZR net * (1 + T) <= (x - IZR base) * (1 + 12 * eps)) as Hn1.
  { apply Rle_trans with ((x - IZR base) / (1 + T) * (1 + 12 * eps) * (1 + T)).
    - apply Rmult_le_compat_r; lra.
    - apply Req_le. field. lra. }
  assert (IZR net * (1 + T) <= IZR g + / 4) as Hn2.
  { assert ((x - IZR base) * (1 + 12 * eps) <= (IZR g + 4 * (IZR g * eps)) * (1 + 12 * eps))
      by (apply Rmult_le_compat_r; lra).
    assert (IZR g * eps * eps <= / 128 * eps) by (apply Rmult_le_compat_r; lra). lra. }
  assert (0 < IZR net) as Hnet0 by by apply IZR_lt.
  assert (IZR net <= IZR g + / 4) as Hng by nra.
  assert (net < 2 ^ 53)%Z as Hnet53.
  { apply lt_IZR. apply Rle_lt_trans with (IZR (g + 1)); [rewrite plus_IZR; lra|]. apply IZR_lt. lia. }
  destruct (taxed_bounds net pct cc t vat ltac:(lia) Hpct) as [Ht0 [_ Ht]]. fold T in Ht.
  split; [done|]. set (tax := tax_amount _) in *.
  enough (net + tax < g + 1)%Z by lia. apply lt_IZR. rewrite !plus_IZR.
  assert (0 <= IZR net * T <= IZR g + / 4) as HnT by (split; [apply Rmult_le_pos|]; lra).
  assert (IZR net * T * eps <= (IZR g + / 4) * eps) by (apply Rmult_le_compat_r; lra). lra.
Qed.

(** ** The processing fee *)

Lemma le_zero_rep x v : rep false x v -> Flt.le v zero = bool_decide (SFltb zero v = false).
Proof. destruct v as [t| | |t m e]; cbn [rep]; try tauto; by intros [-> _]. Qed.
Lemma positive_rep x v : rep false x v -> SFltb zero v = true <-> 0 < x.
Proof.
  destruct v as [t| | |t m e]; cbn [rep]; try tauto.
  - intros [-> ->]. split; [done|lra].
  - intros (-> & _ & ->). split; [intros _|done]. apply Rmult_lt_0_compat; [by apply IZR_lt|apply pw_pos].
Qed.

(** A ceiling of an approximation. *)
Lemma ceil_near n k x v : (n <= 4)%nat -> approx n k x v -> x <= IZR (2 ^ 60) ->
  (0 <= Flt.ceil_to 64 v)%Z /\
  x * (1 - 8 * eps) <= IZR (Flt.ceil_to 64 v) < x * (1 + 8 * eps) + 1.
Proof.
  intros Hn [Hw (r & Hr & Hnr)] Hx. pose proof (within_nonneg _ _ Hw) as Hx0.
  apply (near_weaken n 4) in Hnr; [|done]. apply near_bound in Hnr; [|lia|done]. cbn [INR] in Hnr.
  pose proof eps_pos. pose proof eps_small.
  assert (x * eps <= IZR (2 ^ 60) * / 1048576) as Hxe.
  { apply Rmult_le_compat; lra. }
  assert (r <= IZR (2 ^ 64 - 1)) as Hbig.
  { apply Rle_trans with (IZR (2 ^ 61)); [|apply IZR_le; lia].
    change (2 ^ 61)%Z with (2 ^ 60 * 2)%Z. rewrite mult_IZR. assert (0 < IZR (2 ^ 60)) by by apply IZR_lt. lra. }
  pose proof (ceil_spec 64 r v ltac:(lia) Hr Hbig) as Hc. pose proof (rep_nonneg _ _ _ Hr).
  split; [|lra]. enough (-1 < Flt.ceil_to 64 v)%Z by lia. apply lt_IZR. lra.
Qed.

(** The fee solves [(S + fee) * (1 - r) = S + base], rounded up twice at most. *)
Lemma fee_bounds rf base S :
  frac_ok rf -> (0 <= base < 2 ^ 45)%Z -> (0 <= S < 2 ^ 45)%Z ->
  let fee := fee_on (rf, base) S in
  let exact := (IZR S * realv rf + IZR base) / (1 - realv rf) in
  (0 <= fee)%Z /\ exact * (1 - 8 * eps) <= IZR fee < exact * (1 + 8 * eps) + 2.
Proof.
  intros Hrf Hbase HS fee exact. pose proof Hrf as (Hrep & Hw & Hr). set (rho := realv rf) in *.
  assert (0 <= IZR S <= IZR (2 ^ 45)) as HSr by (split; apply IZR_le; lia).
  assert (0 <= IZR base <= IZR (2 ^ 45)) as Hbr by (split; apply IZR_le; lia).
  assert (0 <= IZR S * rho <= IZR (2 ^ 45) * 1) as HSrho by (split; [apply Rmult_le_pos|apply Rmult_le_compat]; lra).
  assert (1 - rho <> 0) as Hne by lra.
  assert (/ (1 - rho) <= 200) as Hinv.
  { replace 200 with (/ (5 / 1000)) by lra. apply Rinv_le_contravar; lra. }
  assert (0 < / (1 - rho)) as Hinv0 by (apply Rinv_0_lt_compat; lra).
  assert (forall y, 0 <= y <= IZR (2 ^ 45) * 1 -> 0 <= y / (1 - rho) <= IZR (2 ^ 60)) as Hquot.
  { intros y Hy. split; [apply Rle_mult_inv_pos; lra|].
    apply Rle_trans with (IZR (2 ^ 45) * 1 * 200); [apply Rmult_le_compat; lra|].
    change (2 ^ 60)%Z with (2 ^ 45 * 32768)%Z. rewrite mult_IZR. assert (0 < IZR (2 ^ 45)) by by apply IZR_lt. lra. }
  assert (exact = IZR S * rho / (1 - rho) + IZR base / (1 - rho)) as Hexact by (unfold exact; field; lra).
  destruct (ceil_near 4 287 (IZR S * rho / (1 - rho)) (f64_div (f64_mul (f64_of S) rf) (f64_sub one rf))) as [Hp0 Hp];
    [lia| |by apply Hquot|].
  { apply (approx_div 1 1 149 138); [lia|lia|done| |by apply one_minus].
    apply (approx_mul 0 0 64 85); [lia|lia|by apply approx_of_Z_exact; lia|by apply approx_rep]. }
  assert (exists bf, (0 <= bf)%Z /\
    IZR base / (1 - rho) * (1 - 8 * eps) <= IZR bf < IZR base / (1 - rho) * (1 + 8 * eps) + 1 /\
    (if SFltb zero rf then Flt.ceil_to 64 (f64_div (f64_of base) (f64_sub one rf)) else base) = bf)
    as (bf & Hb0 & Hb & Hbf).
  { destruct (SFltb zero rf) eqn:Hlt.
    - destruct (ceil_near 3 202 (IZR base / (1 - rho)) (f64_div (f64_of base) (f64_sub one rf))) as [Hc0 Hc];
        [lia| |apply Hquot; lra|by eexists].
      apply (approx_div 0 1 64 138); [lia|lia|done|apply approx_of_Z_exact; lia|by apply one_minus].
    - exists base. split; [lia|]. split; [|done]. assert (rho = 0) as Hz.
      { destruct (Req_dec rho 0); [done|]. rewrite (proj2 (positive_rep _ _ Hrep)) in Hlt; [done|lra]. }
      rewrite Hz, Rminus_0_r, Rdiv_1_r. pose proof (eps_amount base Hbase). lra. }
  unfold fee, fee_on. rewrite Hbf. set (pf := Flt.ceil_to 64 (f64_div _ _)) in *.
  assert (exact * (1 - 8 * eps) <= IZR (pf + bf) < exact * (1 + 8 * eps) + 2) as Hsum
    by (rewrite plus_IZR, Hexact; lra).
  pose proof (Hquot _ HSrho) as H1. pose proof (Hquot (IZR base) ltac:(lra)) as H2.
  assert (IZR (pf + bf) < IZR (2 ^ 64)) as Hsmall%lt_IZR.
  { pose proof eps_small. pose proof eps_pos. assert (exact * eps <= IZR (2 ^ 61) * / 1048576).
    { change (2 ^ 61)%Z with (2 ^ 60 * 2)%Z. rewrite mult_IZR. apply Rmult_le_compat; lra. }
    change (2 ^ 64)%Z with (2 ^ 60 * 16)%Z. change (2 ^ 61)%Z with (2 ^ 60 * 2)%Z in *.
    rewrite mult_IZR in *. assert (2 <= IZR (2 ^ 60)) by (apply IZR_le; lia). lra. }
  destruct (Flt.le rf zero && (base =? 0)%Z) eqn:Ecase.
  - rewrite (le_zero_rep _ _ Hrep) in Ecase.
    apply andb_true_iff in Ecase as [Hle%bool_decide_eq_true Hbase0%Z.eqb_eq].
    assert (rho = 0) as Hz.
    { destruct (Req_dec rho 0); [done|]. rewrite (proj2 (positive_rep _ _ Hrep)) in Hle; [done|lra]. }
    replace exact with 0 by (unfold exact; rewrite Hz, Hbase0; field). split; [done|lra].
  - unfold wadd, wrap. rewrite Z.mod_small by lia. split; [lia|done].
Qed.

Lemma floor_nonneg w v : (0 <= w)%Z -> (0 <= Flt.floor_to w v)%Z.
Proof.
  intros Hw. pose proof (Z.pow_pos_nonneg 2 w ltac:(lia) Hw).
  destruct v as [|[]| |[] m e]; cbn [Flt.floor_to]; try lia.
  apply Z.min_glb; [lia|]. destruct (Z.leb_spec 0 e).
  - apply Z.mul_nonneg_nonneg; [lia|by apply Z.pow_nonneg].
  - apply Z.div_pos; [lia|]. apply Z.pow_pos_nonneg; lia.
Qed.
Lemma fee_nonneg p S : (0 <= fee_on p S)%Z.
Proof.
  destruct p as [rf base]. cbn [fee_on]. destruct (_ && _); [done|]. unfold wadd, wrap. by apply Z.mod_pos_bound.
Qed.

(** *** A quote, paid in full, is recognised as what it was *)
Lemma quote_recovered rf base pct a cc t vat :
  frac_ok rf -> (0 <= base < 2 ^ 45)%Z -> pct_ok pct = true -> (0 < a)%Z ->
  let tax := tax_amount (taxed a pct cc t vat) in
  let fee := fee_on (rf, base) (a + tax) in
  let gross := (a + tax + fee)%Z in
  (gross < 2 ^ 45)%Z -> (Z.abs (net_on (rf, base) pct gross - a) <= 2)%Z.
Proof.
  intros Hrf Hbase Hpct Ha tax fee gross Hgross.
  assert (0 <= tax)%Z as Ht0 by by apply floor_nonneg. pose proof (fee_nonneg (rf, base) (a + tax)) as Hf0. fold fee in Hf0.
  destruct (taxed_bounds a pct cc t vat ltac:(lia) Hpct) as [_ Htax]. fold tax in Htax.
  destruct (fee_bounds rf base (a + tax) Hrf Hbase ltac:(lia)) as [_ Hfee]. fold fee in Hfee.
  destruct (net_cases rf base pct gross Hrf ltac:(lia) Hpct ltac:(lia)) as (x & Hx & Hle & _).
  pose proof (pct_T _ Hpct) as HT. set (T := realv pct / 100) in *.
  destruct Hrf as (_ & _ & Hr). set (rho := realv rf) in *.
  pose proof (eps_amount gross ltac:(lia)) as HeG. pose proof (eps_amount base Hbase) as Heb.
  pose proof (eps_amount a ltac:(lia)) as Hea. pose proof (eps_amount (a + tax) ltac:(lia)) as HeS.
  pose proof eps_pos. pose proof eps_small. unfold gross in *. rewrite !plus_IZR in *.
  assert (1 <= IZR a) as HA by (apply IZR_le; lia). assert (0 <= IZR tax) by (apply IZR_le; lia).
  assert (0 <= IZR base) by (apply IZR_le; lia).
  set (A := IZR a) in *. set (TX := IZR tax) in *. set (F := IZR fee) in *. set (B := IZR base) in *.
  set (net := net_on _ _ _) in *.
  assert (0 <= (A + TX) * rho <= (A + TX) * 1) as HSr by (split; [apply Rmult_le_pos|apply Rmult_le_compat_l]; lra).
  set (W := (A + TX) * rho + B) in *.
  assert (0 <= W * eps <= / 64) as HWe.
  { split; [apply Rmult_le_pos; unfold W; lra|].
    apply Rle_trans with ((A + TX + B) * eps); [apply Rmult_le_compat_r; unfold W; lra|lra]. }
  assert (W / (1 - rho) * (1 - rho) = W) as HWr by (field; lra).
  assert (W - 8 * (W * eps) <= F * (1 - rho) <= W + 8 * (W * eps) + 2) as HF.
  { destruct Hfee as [Hlo Hhi]. split.
    - apply Rle_trans with (W / (1 - rho) * (1 - 8 * eps) * (1 - rho)); [apply Req_le; field; lra|apply Rmult_le_compat_r; lra].
    - apply Rle_trans with ((W / (1 - rho) * (1 + 8 * eps) + 2) * (1 - rho)); [apply Rmult_le_compat_r; lra|].
      apply Rle_trans with (W / (1 - rho) * (1 - rho) * (1 + 8 * eps) + 2 * (1 - rho)); [apply Req_le; ring|].
      rewrite HWr. lra. }
  assert (0 <= F) as HF0 by (apply IZR_le; lia).
  set (G1 := (A + TX + F) * (1 - rho)) in *.
  assert (G1 = A + TX + (F * (1 - rho) - (A + TX) * rho)) as HG1 by (unfold G1; ring).
  assert (0 <= G1 <= (A + TX + F) * 1) as HG1b by (unfold G1; split; [apply Rmult_le_pos|apply Rmult_le_compat_l]; lra).
  apply near_bound in Hx; [|lia|lra]. cbn [INR] in Hx.
  assert (0 <= G1 * eps <= / 128) as HGe.
  { split; [apply Rmult_le_pos; lra|]. apply Rle_trans with ((A + TX + F) * eps); [apply Rmult_le_compat_r; lra|lra]. }
  assert (A + TX - 16 / 100 <= x - B <= A + TX + 2 + 16 / 100) as HxB by (unfold W in *; lra).
  destruct (Hle ltac:(lra)) as (q & Hnq & Hq).
  set (y := (x - B) / (1 + T)) in *. assert (y * (1 + T) = x - B) as Hy by (unfold y; field; lra).
  assert (0 <= y) as Hy0 by (apply Rle_mult_inv_pos; lra).
  apply near_bound in Hnq; [|lia|done]. cbn [INR] in Hnq.
  assert (0 <= y * T) as HyT by (apply Rmult_le_pos; lra).
  assert (0 <= y * eps <= / 100) as Hye.
  { split; [apply Rmult_le_pos; lra|]. apply Rle_trans with ((A + TX + 3) * eps); [apply Rmult_le_compat_r; lra|lra]. }
  assert (0 <= A * T * eps <= / 128) as HATe.
  { split; [apply Rmult_le_pos; [apply Rmult_le_pos|]; lra|]. apply Rle_trans with (A * 1 * eps); [|lra].
    apply Rmult_le_compat_r; [lra|]. apply Rmult_le_compat_l; lra. }
  assert (y <= A + 22 / 10) as Hyhi by (apply (Rmult_le_reg_r (1 + T)); [lra|]; rewrite Hy; lra).
  assert (A - 123 / 100 <= y) as Hylo by (apply (Rmult_le_reg_r (1 + T)); [lra|]; rewrite Hy; lra).
  assert (net < a + 3)%Z as Hhi by (apply lt_IZR; rewrite plus_IZR; fold A; lra).
  assert (a - 3 < net)%Z as Hlo by (apply lt_IZR; rewrite minus_IZR; fold A; lra).
  lia.
Qed.

(** ** Time bought *)

Lemma bought_time_bounds T cost n :
  (0 <= T < 2 ^ 53)%Z -> (0 < cost < 2 ^ 53)%Z -> (0 <= n < 2 ^ 53)%Z ->
  let exact := IZR T * (IZR n / IZR cost) in
  exact <= IZR (2 ^ 62) ->
  exact * (1 - 4 * eps) - 1 < IZR (bought_time T cost n) <= exact * (1 + 4 * eps).
Proof.
  intros HT Hc Hn exact Hbig. unfold bought_time.
  assert (IZR cost <> 0) as Hne by (apply IZR_neq; lia).
  pose proof (approx_div 0 0 64 64 _ _ _ _ ltac:(lia) ltac:(lia) Hne
    (approx_of_Z_exact n Hn) (approx_of_Z_exact cost ltac:(lia))) as Hd.
  destruct (approx_mul 0 1 64 128 _ _ _ _ ltac:(lia) ltac:(lia) (approx_of_Z_exact T HT) Hd) as [Hw (x & Hx & Hnx)].
  pose proof (within_nonneg _ _ Hw) as H0. pose proof (near_half 2 _ _ ltac:(lia) H0 Hnx) as [_ Hx2].
  apply near_bound in Hnx; [|lia|done]. cbn [INR Nat.add] in Hnx. fold exact in Hnx, Hx2, H0.
  assert (x < IZR (2 ^ 64)) as Hx64.
  { change (2 ^ 64)%Z with (2 ^ 62 * 4)%Z. rewrite mult_IZR. assert (0 < IZR (2 ^ 62)) by by apply IZR_lt. lra. }
  pose proof (floor_spec 64 x _ ltac:(lia) Hx Hx64). lra.
Qed.

(** The share [s / p] of [c], rounded down, off by one at most; a share is not more than
    the whole. *)
Lemma share_in_integers s p c : (0 <= s <= p)%Z -> (0 < p < 2 ^ 45)%Z -> (0 <= c < 2 ^ 45)%Z ->
  (0 <= bought_time s p c)%Z /\ (bought_time s p c <= c)%Z /\ (Z.abs (bought_time s p c - s * c / p) <= 1)%Z.
Proof.
  intros Hs Hp Hc. split; [by apply floor_nonneg|].
  assert (0 <= IZR s <= IZR p) as Hsp by (split; apply IZR_le; lia).
  assert (0 < IZR p) as Hp0 by (apply IZR_lt; lia). assert (0 <= IZR c) as Hc0 by (apply IZR_le; lia).
  set (E := IZR s * (IZR c / IZR p)). assert (E * IZR p = IZR s * IZR c) as HEp by (unfold E; field; lra).
  assert (0 <= E) as HE0 by (unfold E; apply Rmult_le_pos; [lra|by apply Rle_mult_inv_pos]).
  assert (E <= IZR c) as HEc.
  { apply (Rmult_le_reg_r (IZR p)); [done|]. rewrite HEp, (Rmult_comm (IZR c)). apply Rmult_le_compat_r; lra. }
  pose proof (eps_amount c Hc) as Hce. pose proof eps_pos.
  assert (0 <= E * eps <= IZR c * eps) as HEe by (split; [apply Rmult_le_pos; lra|apply Rmult_le_compat_r; lra]).
  destruct (bought_time_bounds s p c) as [Hlo Hhi]; [lia..| |].
  { apply Rle_trans with (IZR c); [done|]. apply IZR_le. lia. }
  fold E in Hlo, Hhi. pose proof (div_real (s * c) p ltac:(lia)) as Hq. rewrite mult_IZR in Hq.
  replace (IZR s * IZR c / IZR p) with E in Hq by (unfold E; field; lra).
  set (b := bought_time s p c) in *. set (q := (s * c / p)%Z) in *. split.
  - assert (b < c + 1)%Z; [|lia]. apply lt_IZR. rewrite plus_IZR. lra.
  - assert (b < q + 2)%Z by (apply lt_IZR; rewrite plus_IZR; lra).
    assert (q - 2 < b)%Z by (apply lt_IZR; rewrite minus_IZR; lra). lia.
Qed.

(** In whole seconds, for a net that is two units off at most. *)
Lemma time_in_integers T c n : (0 <= T < 2 ^ 45)%Z -> (4 <= c < 2 ^ 45)%Z -> (Z.abs (n - c) <= 2)%Z ->
  (T * (c - 2) - 2 * c <= bought_time T c n * c <= T * (c + 2) + c)%Z.
Proof.
  intros HT Hc Hn. assert (0 <= IZR T) as HT0 by (apply IZR_le; lia).
  assert (4 <= IZR c) as Hc0 by (apply IZR_le; lia).
  assert (IZR c - 2 <= IZR n <= IZR c + 2) as Hn2.
  { rewrite <- minus_IZR, <- plus_IZR. split; apply IZR_le; lia. }
  assert (IZR T * (IZR n / IZR c) * IZR c = IZR T * IZR n) as Hex by (field; lra).
  assert (0 <= IZR T * IZR n <= 2 * (IZR T * IZR c)) as HTn.
  { split; [apply Rmult_le_pos; lra|]. apply Rle_trans with (IZR T * (2 * IZR c)); [apply Rmult_le_compat_l; lra|lra]. }
  pose proof (eps_amount T HT) as HTe. pose proof eps_pos.
  assert (IZR T * (IZR n / IZR c) <= 2 * IZR T) as Hex2.
  { apply (Rmult_le_reg_r (IZR c)); [lra|]. rewrite Hex. lra. }
  destruct (bought_time_bounds T c n) as [Hlo Hhi]; [lia..| |].
  { apply Rle_trans with (IZR (2 ^ 46)); [|apply IZR_le; lia].
    apply Rle_trans with (2 * IZR (2 ^ 45)); [|rewrite <- mult_IZR; apply IZR_le; lia].
    assert (IZR T <= IZR (2 ^ 45)) by (apply IZR_le; lia). lra. }
  set (E := IZR T * (IZR n / IZR c)) in *. set (b := IZR (bought_time T c n)) in *.
  assert (0 <= E * eps <= / 64) as HE.
  { split; [apply Rmult_le_pos; [unfold E; apply Rmult_le_pos; [lra|apply Rle_mult_inv_pos; lra]|lra]|].
    apply Rle_trans with (2 * IZR T * eps); [apply Rmult_le_compat_r; lra|lra]. }
  assert (IZR T * (IZR c - 2) <= IZR T * IZR n <= IZR T * (IZR c + 2)) as HTc by (split; apply Rmult_le_compat_l; lra).
  assert ((E - / 16 - 1) * IZR c <= b * IZR c) as H1 by (apply Rmult_le_compat_r; lra).
  assert (b * IZR c <= (E + / 16) * IZR c) as H2 by (apply Rmult_le_compat_r; lra).
  split; apply le_IZR; rewrite ?minus_IZR, ?plus_IZR, ?mult_IZR, ?minus_IZR, ?plus_IZR; fold b; lra.
Qed.

(** ** Rounding to the nearest *)

Lemma round_near n k x v : (n <= 5)%nat -> approx n k x v -> x <= IZR (2 ^ 62) ->
  (0 <= Flt.round_to 64 v)%Z /\
  x * (1 - 10 * eps) - / 2 <= IZR (Flt.round_to 64 v) <= x * (1 + 10 * eps) + / 2.
Proof.
  intros Hn [Hw (r & Hr & Hnr)] Hx. pose proof (within_nonneg _ _ Hw) as Hx0.
  apply (near_weaken n 5) in Hnr; [|done]. pose proof (near_half 5 _ _ ltac:(lia) Hx0 Hnr) as [_ Hr2].
  apply near_bound in Hnr; [|lia|done]. cbn [INR] in Hnr.
  assert (r < IZR (2 ^ 64 - 1)) as Hbig.
  { apply Rle_lt_trans with (IZR (2 ^ 63)); [|apply IZR_lt; lia].
    change (2 ^ 63)%Z with (2 ^ 62 * 2)%Z. rewrite mult_IZR. lra. }
  pose proof (round_spec_to 64 r v ltac:(lia) Hr Hbig) as Hc. pose proof (rep_nonneg _ _ _ Hr).
  split; [|lra]. enough (-1 < Flt.round_to 64 v)%Z by lia. apply lt_IZR. lra.
Qed.

(** A VAT rate that is zero or at least one percent. *)
Definition vat_rate_ok (r : spec_float) : bool :=
  pct_ok r && match r with S754_finite _ m e => (2 ^ (- e) <=? Z.pos m)%Z | _ => true end.
Lemma vat_rate_spec r : vat_rate_ok r = true -> pct_ok r = true /\ (realv r = 0 \/ 1 <= realv r).
Proof.
  intros [Hp Hm]%andb_true_iff. split; [done|]. destruct r as [|?| |[] m e]; cbn [realv] in *; try by left.
  right. cbn [pct_ok] in Hp. rewrite !andb_true_iff, !Z.leb_le in Hp. apply Z.leb_le, IZR_le in Hm.
  rewrite <- pw_IZR in Hm by lia. rewrite <- (pw_neg e). apply Rmult_le_compat_r; [|done]. apply Rlt_le, pw_pos.
Qed.

(** A net amount plus its rounded tax, divided by what it was multiplied by. *)
Lemma vat_middle (n v : Z) p y : 0 <= p <= 1 -> p = 0 \/ 1 / 100 <= p -> y * (1 + p) = IZR (n + v) ->
  IZR n * p - 1 / 2 - 1 / 8192 <= IZR v <= IZR n * p + 1 / 2 + 1 / 8192 ->
  IZR n - 1 / 2 + 1 / 512 <= y <= IZR n + 1 / 2 - 1 / 512.
Proof.
  intros Hp1 Hp Hy Hv. destruct Hp as [->|Hp].
  - assert (v = 0)%Z as ->.
    { assert (-1 < v)%Z by (apply lt_IZR; lra). assert (v < 1)%Z by (apply lt_IZR; lra). lia. }
    rewrite Z.add_0_r in Hy. lra.
  - rewrite plus_IZR in Hy.
    assert (- (1 / 2 - 1 / 512) * (1 + p) <= (y - IZR n) * (1 + p) <= (1 / 2 - 1 / 512) * (1 + p)) as [Hlo Hhi] by lra.
    apply Rmult_le_reg_r in Hlo, Hhi; lra.
Qed.

(** The net amount is recovered from the gross one. *)
Lemma vat_recovered r n code : vat_rate_ok r = true -> (0 <= n < 2 ^ 35)%Z ->
  let rate := {| vr_code := code; vr_rate := r |} in
  vat_net_from_gross rate (gross_from_net rate n) = n.
Proof.
  intros Hr Hn rate. destruct (vat_rate_spec r Hr) as [Hp Hcase].
  destruct (pct_spec r Hp) as (_ & _ & Hr99 & _). pose proof eps_pos. pose proof eps_small.
  assert (0 <= IZR n <= IZR (2 ^ 35)) as Hn35 by (split; apply IZR_le; lia).
  assert (IZR n * eps <= / 131072) as Hne.
  { apply Rle_trans with (IZR (2 ^ 35) * eps); [apply Rmult_le_compat_r; lra|].
    rewrite <- pw_IZR by lia. unfold eps. rewrite <- pw_add. change (35 + -52)%Z with (- (17))%Z.
    rewrite pw_opp, pw_IZR by lia. apply Req_le. reflexivity. }
  set (p := realv r / 100) in *. assert (0 <= p <= 1) as Hp1 by (unfold p; lra).
  assert (0 <= IZR n * eps) as Hne0 by (apply Rmult_le_pos; lra).
  assert (0 <= IZR n * p <= IZR n) as Hnp by (split; [apply Rmult_le_pos; lra|rewrite <- (Rmult_1_r (IZR n)) at 2; apply Rmult_le_compat_l; lra]).
  assert (IZR n * p * eps <= IZR n * eps) as Hnpe by (apply Rmult_le_compat_r; lra).
  assert (0 <= IZR n * p * eps) as Hnpe0 by (apply Rmult_le_pos; lra).
  pose proof (approx_mul 0 1 64 84 _ _ _ _ ltac:(lia) ltac:(lia) (approx_of_Z_exact n ltac:(lia)) (percent_approx r Hp)) as Hvat.
  fold p in Hvat. cbn [Nat.add] in Hvat.
  assert (IZR (2 ^ 35) <= IZR (2 ^ 62)) as Hbig by (apply IZR_le; lia).
  apply round_near in Hvat as [Hv0 Hv]; [|lia|lra].
  set (g := gross_from_net rate n). change (Flt.round_to 64 _) with (calculate_vat rate n) in Hv0, Hv.
  assert (g = n + calculate_vat rate n)%Z as Hg.
  { unfold g, gross_from_net, wadd, wrap. apply Z.mod_small. split; [lia|].
    assert (calculate_vat rate n < 2 ^ 36)%Z; [|lia]. apply lt_IZR.
    change (2 ^ 36)%Z with (2 * 2 ^ 35)%Z. rewrite mult_IZR. assert (1 <= IZR (2 ^ 35)) by (apply IZR_le; lia). lra. }
  assert (IZR n * (1 + p) - 1 / 2 - 1 / 1024 <= IZR g <= IZR n * (1 + p) + 1 / 2 + 1 / 1024) as Hgb.
  { rewrite Hg, plus_IZR. lra. }
  assert (0 <= g < 2 ^ 53)%Z as Hg53.
  { split; [lia|]. apply lt_IZR. change (2 ^ 53)%Z with (2 ^ 18 * 2 ^ 35)%Z. rewrite mult_IZR.
    assert (1 <= IZR (2 ^ 35)) by (apply IZR_le; lia). change (IZR (2 ^ 18)) with 262144. lra. }
  assert (1 + p <> 0) as Hne1 by lra.
  pose proof (approx_div 0 2 64 85 _ _ _ _ ltac:(lia) ltac:(lia) Hne1 (approx_of_Z_exact g Hg53) (one_plus r Hp)) as Hnet.
  cbn [Nat.add Nat.mul] in Hnet. set (y := IZR g / (1 + p)) in *.
  assert (y * (1 + p) = IZR g) as Hy by (unfold y; field; lra).
  assert (0 <= y <= IZR n + 1) as Hy1.
  { split; [apply Rle_mult_inv_pos; [apply IZR_le; lia|lra]|].
    apply (Rmult_le_reg_r (1 + p)); [lra|]. rewrite Hy. lra. }
  apply round_near in Hnet as [_ Hnet]; [|lia|].
  2: { assert (IZR (2 ^ 35) + 1 <= IZR (2 ^ 62)) by (rewrite <- plus_IZR; apply IZR_le; lia). lra. }
  change (Flt.round_to 64 _) with (vat_net_from_gross rate g) in Hnet. set (n' := vat_net_from_gross rate g) in *.
  assert (y * eps <= (IZR n + 1) * eps) as Hye by (apply Rmult_le_compat_r; lra).
  assert (IZR n - 1 / 2 + 1 / 512 <= y <= IZR n + 1 / 2 - 1 / 512) as Hyb by (apply (vat_middle n (calculate_vat rate n) p); [done|unfold p; lra|by rewrite <- Hg|lra]).
  assert (n - 1 < n')%Z by (apply lt_IZR; rewrite minus_IZR; lra).
  assert (n' < n + 1)%Z by (apply lt_IZR; rewrite plus_IZR; lra). lia.
Qed.

Lemma round_fits w v : (0 <= w)%Z -> fits w (Flt.round_to w v).
Proof.
  intros Hw. pose proof (Z.pow_pos_nonneg 2 w ltac:(lia) Hw). unfold fits.
  destruct v as [[]|[]| |[] m e]; cbn [Flt.round_to Flt.floor_to]; try lia.
  assert (0 <= if 0 <=? e then Z.pos m * 2 ^ e else (2 * Z.pos m + 2 ^ (- e)) / 2 ^ (1 - e))%Z; [|lia].
  destruct (Z.leb_spec 0 e) as [He|He]; [apply Z.mul_nonneg_nonneg; [lia|by apply Z.pow_nonneg]|].
  apply Z.div_pos; [|apply Z.pow_pos_nonneg; lia]. pose proof (Z.pow_nonneg 2 (- e)). lia.
Qed.

(** ** Conversion there and back *)

(** A price of one bitcoin: a single between [1] and [5 * 10 ^ 8]. *)
Definition btc_rate_ok (r : spec_float) : bool :=
  match r with
  | S754_finite false m e =>
      bounded 24 128 m e &&
      (if 0 <=? e then Z.pos m * 2 ^ e <=? 500000000
       else (2 ^ (- e) <=? Z.pos m) && (Z.pos m <=? 500000000 * 2 ^ (- e)))%Z
  | _ => false
  end.
Lemma btc_rate_spec r : btc_rate_ok r = true ->
  valid_binary 24 128 r = true /\ rep false (realv r) r /\ 1 <= realv r <= 500000000.
Proof.
  destruct r as [|?| |[] m e]; cbn [btc_rate_ok realv valid_binary rep]; try done.
  intros [Hb Hr]%andb_true_iff. pose proof (digits_24 _ _ Hb) as Hm. split; [done|]. split; [split; [done|split; [lia|done]]|].
  destruct (Z.leb_spec 0 e) as [He|He].
  - apply Z.leb_le, IZR_le in Hr. rewrite pw_IZR, <- mult_IZR by done. split; [|done]. apply IZR_le.
    pose proof (Z.pow_pos_nonneg 2 e). nia.
  - apply andb_true_iff in Hr as [Hlo%Z.leb_le%IZR_le Hhi%Z.leb_le%IZR_le].
    rewrite mult_IZR, <- pw_IZR in Hhi by lia. rewrite <- pw_IZR in Hlo by lia.
    pose proof (pw_pos e). assert (pw (- e) * pw e = 1) as Hinv by apply pw_neg. split.
    + rewrite <- Hinv. apply Rmult_le_compat_r; lra.
    + apply Rle_trans with (500000000 * pw (- e) * pw e); [apply Rmult_le_compat_r; lra|lra].
Qed.

Section convert.
Context `{!PaymentsRs, !PaymentsRsLaws}.

Lemma scale_btc : approx 0 64 100000000000 (scale BTC).
Proof. unfold scale. rewrite decide_True by done. exact (approx_of_Z_exact 100000000000 ltac:(lia)). Qed.
Lemma scale_fiat c : c <> BTC -> approx 0 64 100 (scale c).
Proof. intros Hc. unfold scale. rewrite decide_False by done. apply approx_hundred. Qed.

Lemma within_rate r : 1 <= r <= 500000000 -> sized 29 r.
Proof.
  intros Hr. right. split; [apply Rle_trans with (pw 0); [apply pw_le; lia|rewrite pw_0; lra]|].
  rewrite pw_IZR by lia. apply Rle_trans with 500000000; [lra|]. apply IZR_le. lia.
Qed.

(** From fiat to bitcoin, off by half a milli-satoshi and the roundings. *)
Lemma to_btc c r v : c <> BTC -> btc_rate_ok r = true -> (0 <= v < 2 ^ 32)%Z ->
  let m := convert_value c BTC (f64_div one (Flt.widen r)) v in
  let exact := IZR v * (1000000000 / realv r) in
  (0 <= m)%Z /\ exact * (1 - 10 * eps) - / 2 <= IZR m <= exact * (1 + 10 * eps) + / 2.
Proof.
  intros Hc Hr Hv m exact. destruct (btc_rate_spec r Hr) as (Hval & Hrep & Hb). set (R := realv r) in *.
  assert (approx 0 29 R (Flt.widen r)) as Har.
  { apply approx_rep; [by apply within_rate|]. by apply widen_exact. }
  pose proof (approx_of_Z_exact v ltac:(lia)) as Hav.
  assert (R <> 0) as HR0 by lra. assert (100 <> 0) as H100 by lra.
  pose proof (approx_div 0 0 64 64 _ _ _ _ ltac:(lia) ltac:(lia) H100 Hav (scale_fiat c Hc)) as Hs.
  pose proof (approx_div 0 0 64 29 _ _ _ _ ltac:(lia) ltac:(lia) HR0 approx_one Har) as Hf.
  pose proof (approx_mul 1 1 128 93 _ _ _ _ ltac:(lia) ltac:(lia) Hs Hf) as Hd.
  pose proof (approx_mul 3 0 221 64 _ _ _ _ ltac:(lia) ltac:(lia) Hd scale_btc) as Hm.
  cbn [Nat.add] in Hm.
  replace (IZR v / 100 * (1 / R) * 100000000000) with exact in Hm by (unfold exact; field; lra).
  apply (round_near 4) in Hm; [exact Hm|lia|].
  unfold exact. apply Rle_trans with (IZR (2 ^ 32) * 1000000000).
  - apply Rmult_le_compat; [apply IZR_le; lia|apply Rle_mult_inv_pos; lra|apply IZR_le; lia|].
    apply (Rmult_le_reg_r R); [lra|]. unfold Rdiv. rewrite Rmult_assoc, Rinv_l by lra. lra.
  - rewrite <- mult_IZR. apply IZR_le. lia.
Qed.

(** And back again: exactly what it was. *)
Lemma there_and_back c r v : c <> BTC -> btc_rate_ok r = true -> (0 <= v < 2 ^ 32)%Z ->
  convert_value BTC c (Flt.widen r) (convert_value c BTC (f64_div one (Flt.widen r)) v) = v.
Proof.
  intros Hc Hr Hv. destruct (to_btc c r v Hc Hr Hv) as [Hm0 Hm].
  destruct (btc_rate_spec r Hr) as (Hval & Hrep & Hb). set (R := realv r) in *.
  set (m := convert_value c BTC _ v) in *.
  assert (0 <= IZR v <= IZR (2 ^ 32)) as Hv32 by (split; apply IZR_le; lia).
  pose proof (eps_amount v ltac:(lia)) as Hev. pose proof eps_pos. pose proof eps_small.
  assert (1000000000 / R * R = 1000000000) as HR by (field; lra).
  assert (0 <= 1000000000 / R <= 1000000000) as HRb.
  { split; [apply Rle_mult_inv_pos; lra|]. apply (Rmult_le_reg_r R); [lra|]. rewrite HR. lra. }
  assert (IZR m <= IZR (2 ^ 32) * 2000000000) as Hmb.
  { assert (IZR v * (1000000000 / R) <= IZR (2 ^ 32) * 1000000000) by (apply Rmult_le_compat; lra).
    assert (IZR v * (1000000000 / R) * eps <= IZR (2 ^ 32) * 1000000000 * / 1048576) as Hme.
    { apply Rmult_le_compat; try lra. apply Rmult_le_pos; lra. }
    assert (1 <= IZR (2 ^ 32)) by (apply IZR_le; lia). lra. }
  assert (m < 2 ^ 64)%Z as Hm64.
  { apply lt_IZR. eapply Rle_lt_trans; [exact Hmb|]. rewrite <- mult_IZR. apply IZR_lt. lia. }
  assert (approx 0 29 R (Flt.widen r)) as Har.
  { apply approx_rep; [by apply within_rate|]. by apply widen_exact. }
  assert (100000000000 <> 0) as Hne by lra.
  pose proof (approx_div 1 0 64 64 _ _ _ _ ltac:(lia) ltac:(lia) Hne (approx_of_Z m ltac:(lia)) scale_btc) as Hs.
  pose proof (approx_mul 2 0 128 29 _ _ _ _ ltac:(lia) ltac:(lia) Hs Har) as Hd.
  pose proof (approx_mul 3 0 157 64 _ _ _ _ ltac:(lia) ltac:(lia) Hd (scale_fiat c Hc)) as Hx.
  cbn [Nat.add] in Hx. set (y := IZR m / 100000000000 * R * 100) in *.
  assert (y = IZR m * (R / 1000000000)) as Hy by (unfold y; field).
  assert (0 <= R / 1000000000 <= / 2) as HR2 by lra.
  assert (IZR v * (1000000000 / R) * (R / 1000000000) = IZR v) as Hvv by (field; lra).
  assert (IZR v * (1 - 10 * eps) - / 4 <= y <= IZR v * (1 + 10 * eps) + / 4) as Hyb.
  { rewrite Hy. split.
    - apply Rle_trans with ((IZR v * (1000000000 / R) * (1 - 10 * eps) - / 2) * (R / 1000000000)); [|apply Rmult_le_compat_r; lra].
      replace (_ * (R / 1000000000)) with (IZR v * (1000000000 / R) * (R / 1000000000) * (1 - 10 * eps) - / 2 * (R / 1000000000)) by ring.
      rewrite Hvv. lra.
    - apply Rle_trans with ((IZR v * (1000000000 / R) * (1 + 10 * eps) + / 2) * (R / 1000000000)); [apply Rmult_le_compat_r; lra|].
      replace (_ * (R / 1000000000)) with (IZR v * (1000000000 / R) * (R / 1000000000) * (1 + 10 * eps) + / 2 * (R / 1000000000)) by ring.
      rewrite Hvv. lra. }
  apply (round_near 4) in Hx as [_ Hx]; [|lia|].
  2: { assert (IZR (2 ^ 32) + 1 <= IZR (2 ^ 62)) by (rewrite <- plus_IZR; apply IZR_le; lia). lra. }
  fold (convert_value BTC c (Flt.widen r) m) in Hx. set (v' := convert_value BTC c (Flt.widen r) m) in *.
  assert (0 <= y) as Hy0 by (rewrite Hy; apply Rmult_le_pos; [by apply IZR_le|lra]).
  assert (y * eps <= (IZR v + 1) * eps) as Hye by (apply Rmult_le_compat_r; lra).
  assert (v - 1 < v')%Z by (apply lt_IZR; rewrite minus_IZR; lra).
  assert (v' < v + 1)%Z by (apply lt_IZR; rewrite plus_IZR; lra). lia.
Qed.
End convert.
