(* ===== verification/PricingProofs.v ===== *)
(** * What the pricing engine guarantees

    The parts of a payment add up to what was paid; a quote that is paid in full
    buys what it quoted; a price survives its conversion to bitcoin and back; tax
    is due where it is due; a refund is never more than a period's price. *)

From Stdlib Require Import String Reals Lra SpecFloat.
From S2P Require Import Prelude NetText IpAlloc Network HostTypes Exchange FloatErr SubDb Pricing PricingMath.

(** ** Results of a computation that may fail *)

Section results.
Lemma try_ok {A B} (m : Act A) (k : A -> Act B) w b :
  (try_bind m k w).1 = Ok b -> exists a, (m w).1 = Ok a /\ (k a (m w).2).1 = Ok b.
Proof.
  unfold try_bind. rewrite bind_run. destruct (m w) as [[a|e] w']; cbn; [by eexists|done].
Qed.
Lemma bind_ok {A B} (m : ST World A) (k : A -> Act B) w b :
  ((m ≫= k) w).1 = Ok b -> (k (m w).1 (m w).2).1 = Ok b.
Proof. by rewrite bind_run. Qed.
Lemma ensure_ok b e w : ((ensure_ b e : Act unit) w).1 = Ok tt -> b = true.
Proof. by destruct b. Qed.
End results.

(** Take a successful run apart, step by step. *)
Ltac run_ok H :=
  repeat (first
    [ apply try_ok in H as (? & ?Hstep & H)
    | apply bind_ok in H ]; cbv beta in H).

Section engine.
Context `{PR : !PaymentsRs, PL : !PaymentsRsLaws, IC : !IsoCountry, NL : !NetLib, CK : !Clock, CA : !Calendar, CH : !Chrono}.

(** ** Rates within reason *)

(** Every VAT rate and every fee rate is a percentage of at most 99. *)
Definition catalog_ok (cat : Catalog) : bool :=
  forallb (fun e => pct_ok e.2) (map_to_list (cat_vat cat)) &&
  forallb (fun c => match processing_fee_rate c with Some r => pct_ok r | None => true end) (cat_configs cat).

Lemma catalog_vat cat cc r : catalog_ok cat = true -> rate_for (cat_vat cat) cc = Some r -> pct_ok r = true.
Proof.
  intros [Hv _]%andb_true_iff Hr. rewrite forallb_forall in Hv. apply (Hv (cc, r)).
  rewrite <- list_elem_of_In. by apply (elem_of_map_to_list (M := gmap CountryCode)).
Qed.
Lemma catalog_fee cat company method cur : catalog_ok cat = true ->
  frac_ok (processing_fee_params cat company method cur).1.
Proof.
  intros [_ Hc]%andb_true_iff. rewrite forallb_forall in Hc. unfold processing_fee_params.
  case_decide; [apply frac_zero|].
  destruct (get_payment_method_config_for_company cat company method) as [config|] eqn:E; [|apply frac_zero].
  apply fetch_one_in, list_elem_of_filter in E as [_ E%list_elem_of_In]. specialize (Hc _ E).
  destruct (pc_enabled config), (processing_fee_rate config), (processing_fee_base config);
    cbn [fst]; try apply frac_zero. by apply frac_percent.
Qed.

Lemma rate_for_country_ok cat c : catalog_ok cat = true -> pct_ok (rate_for_country cat c) = true.
Proof.
  intros Hcat. unfold rate_for_country. destruct (for_alpha3 c) as [cc|]; [|done].
  destruct (rate_for (cat_vat cat) cc) as [r|] eqn:E; [by eapply catalog_vat|done].
Qed.

(** ** Tax *)

(** The amount without its evidence, whatever branch was taken. *)
Lemma taxed_zero a cc t vat : (0 <= a < 2 ^ 53)%Z -> tax_amount (taxed a zero cc t vat) = 0%Z.
Proof.
  intros Ha. destruct (taxed_bounds a zero cc t vat Ha ltac:(done)) as [H0 [_ H1]]. cbn [realv zero] in H1.
  set (tax := tax_amount _) in *.
  assert (tax < 1)%Z; [|lia]. apply lt_IZR. lra.
Qed.

Lemma inner_tax cat user seller : catalog_ok cat = true ->
  exists r, pct_ok r = true /\ forall a, (0 <= a < 2 ^ 53)%Z ->
    tax_rate (determine_tax_inner cat user a seller) = r /\
    tax_amount (determine_tax_inner cat user a seller) = tax_amount (taxed a r None OutOfScope None).
Proof.
  intros Hcat. unfold determine_tax_inner.
  assert (forall cc t vat, exists r, pct_ok r = true /\ forall a, (0 <= a < 2 ^ 53)%Z ->
    tax_rate (zero_tax cc t vat) = r /\
    tax_amount (zero_tax cc t vat) = tax_amount (taxed a r None OutOfScope None)) as Hzero.
  { intros cc t vat. exists zero. split; [done|]. intros a Ha. split; [done|]. by rewrite taxed_zero. }
  assert (forall c cc t vat, exists r, pct_ok r = true /\ forall a, (0 <= a < 2 ^ 53)%Z ->
    tax_rate (taxed a (rate_for_country cat c) cc t vat) = r /\
    tax_amount (taxed a (rate_for_country cat c) cc t vat) = tax_amount (taxed a r None OutOfScope None)) as Htaxed.
  { intros c cc t vat. exists (rate_for_country cat c). split; [by apply rate_for_country_ok|done]. }
  destruct (negb _); [apply Hzero|]. destruct (mbind _ _) as [[vat vat_cc]|].
  { case_decide; [apply Htaxed|apply Hzero]. }
  destruct (to_uppercase <$> _) as [cc|]; [destruct (is_eu_vat_country cc); [apply Htaxed|apply Hzero]|].
  destruct seller; [apply Htaxed|apply Hzero].
Qed.

Lemma determine_tax_ok cat user company : catalog_ok cat = true -> forall u, get_user cat user = Ok u ->
  exists r, pct_ok r = true /\ forall a, (0 <= a < 2 ^ 53)%Z ->
    exists d, determine_tax cat user a company = Ok d /\ tax_rate d = r /\
      tax_amount d = tax_amount (taxed a r None OutOfScope None).
Proof.
  intros Hcat u Hu. destruct (inner_tax cat u (seller_country cat company) Hcat) as (r & Hr & Hd).
  exists r. split; [done|]. intros a Ha. destruct (Hd a Ha) as [Hrate Htax].
  unfold determine_tax. rewrite Hu. eexists. split; [reflexivity|]. done.
Qed.

Lemma tax_nonneg cat user a company d : determine_tax cat user a company = Ok d -> (0 <= tax_amount d)%Z.
Proof.
  unfold determine_tax, determine_tax_inner.
  destruct (get_user cat user) as [u|e]; [|done]. intros [= <-]. cbn [with_evidence tax_amount].
  repeat case_match; cbn [taxed zero_tax tax_amount]; first [lia|by apply floor_nonneg].
Qed.

(** What a successful purchase was made of. *)
Lemma buy_inv cat user company method input cur rate time cost expires w i : catalog_ok cat = true ->
  (0 <= value input < 2 ^ 53)%Z -> (buy cat user company method input cur rate time cost expires w).1 = Ok i ->
  exists r, pct_ok r = true /\
    let net := net_on (processing_fee_params cat company method cur) r (value input) in
    (0 < net)%Z /\ np_amount i = net /\ np_currency i = cur /\ np_time_value i = bought_time time cost net /\
    (0 < bought_time time cost net)%Z /\
    ((net < 2 ^ 53)%Z -> np_tax i = tax_amount (taxed net r None OutOfScope None)) /\
    np_processing_fee i = sat_sub (value input) (wadd 64 net (np_tax i)).
Proof.
  intros Hcat Hin H. unfold buy in H. run_ok H.
  destruct (get_user cat user) as [u|e] eqn:Hu;
    [|unfold determine_tax in Hstep; by rewrite Hu in Hstep].
  destruct (determine_tax_ok cat user company Hcat u Hu) as (r & Hr & Hd). exists r. split; [done|].
  destruct (Hd _ Hin) as (d & Hd1 & Hrate & _).
  change (determine_tax cat user (value input) company = Ok x) in Hstep.
  rewrite Hd1 in Hstep. injection Hstep as <-.
  destruct x0, x1. apply ensure_ok, Z.ltb_lt in Hstep0. apply ensure_ok, Z.ltb_lt in Hstep1.
  rewrite Hrate in *. unfold net_from_gross in *. set (net := net_on _ r _) in *.
  change (determine_tax cat user net company = Ok x2) in Hstep2.
  injection H as <-. cbn [np_amount np_currency np_time_value np_tax np_processing_fee].
  repeat split; try done. intros Hnet. destruct (Hd net ltac:(lia)) as (d2 & Hd2 & _ & Htax).
  rewrite Hd2 in Hstep2. injection Hstep2 as <-. done.
Qed.

(** The parts of a purchase. *)
Lemma buy_accounted cat user company method input cur rate time cost expires w i : catalog_ok cat = true ->
  (0 <= (processing_fee_params cat company method cur).2 < 2 ^ 53)%Z -> (value input < 2 ^ 45)%Z ->
  (buy cat user company method input cur rate time cost expires w).1 = Ok i ->
  (0 < np_amount i /\ 0 <= np_tax i /\ 0 <= np_processing_fee i /\
   np_amount i + np_tax i + np_processing_fee i = value input)%Z.
Proof.
  intros Hcat Hbase Hin Hbuy. pose proof (value_fits input) as [Hin0 _].
  apply buy_inv in Hbuy as (r & Hr & Hnet & -> & _ & _ & _ & Htax & Hfee); [|done|lia].
  pose proof (catalog_fee cat company method cur Hcat) as Hfrac.
  destruct (processing_fee_params cat company method cur) as [rf base] eqn:Ep. cbn [fst snd] in *.
  destruct (net_tax_fit rf base r (value input) None OutOfScope None Hfrac Hbase Hr ltac:(lia) Hnet) as [Ht Hfit].
  set (net := net_on _ _ _) in *.
  rewrite Htax in * by lia. rewrite Hfee. unfold sat_sub, wadd, wrap. rewrite Z.mod_small by lia. lia.
Qed.

(** What a quote is made of; the rate is the one that a purchase by the same user
    uses. *)
Lemma charge_inv cat user company method converted time base w q : catalog_ok cat = true ->
  (value (amount converted) < 2 ^ 53)%Z ->
  (charge cat user company method converted time base w).1 = Ok q ->
  exists u r, get_user cat user = Ok u /\ pct_ok r = true /\
    (forall a, (0 <= a < 2 ^ 53)%Z -> exists d, determine_tax cat user a company = Ok d /\ tax_rate d = r /\
      tax_amount d = tax_amount (taxed a r None OutOfScope None)) /\
    np_amount q = value (amount converted) /\ np_currency q = currency (amount converted) /\
    np_time_value q = time /\ np_tax q = tax_amount (taxed (np_amount q) r None OutOfScope None) /\
    np_processing_fee q = fee_on (processing_fee_params cat company method (np_currency q))
      (wadd 64 (np_amount q) (np_tax q)).
Proof.
  intros Hcat Hv H. pose proof (value_fits (amount converted)) as [Hv0 _]. unfold charge in H. run_ok H.
  destruct (get_user cat user) as [u|e] eqn:Hu;
    [|unfold determine_tax in Hstep; by rewrite Hu in Hstep].
  destruct (determine_tax_ok cat user company Hcat u Hu) as (r & Hr & Hd). exists u, r.
  change (determine_tax cat user (value (amount converted)) company = Ok x) in Hstep.
  destruct (Hd (value (amount converted)) ltac:(lia)) as (d & Hd1 & Hrate & Htax).
  rewrite Hd1 in Hstep. injection Hstep as <-. injection H as <-.
  cbn [np_amount np_currency np_time_value np_tax np_processing_fee]. by repeat split.
Qed.

(** A quote's parts are amounts. *)
Lemma charge_parts cat user company method converted time base w q :
  (charge cat user company method converted time base w).1 = Ok q ->
  (value (amount converted) = np_amount q /\ 0 <= np_tax q /\ 0 <= np_processing_fee q)%Z.
Proof.
  intros H. unfold charge in H. run_ok H. apply tax_nonneg in Hstep. injection H as <-.
  cbn [np_amount np_tax np_processing_fee]. split; [done|]. split; [done|apply fee_nonneg].
Qed.
(** The net of a gross amount, off the amount it is the gross of by the roundings. *)
Definition net_near (p : spec_float * Z) r a gross : Prop := (Z.abs (net_on p r gross - a) <= 2)%Z.

(** A purchase whose tax rate and net are known does not fail but on the
    calendar's edge. *)
Lemma buy_ok cat user company method input cur rate time cost expires w r :
  (0 <= value input < 2 ^ 53)%Z ->
  (forall a, (0 <= a < 2 ^ 53)%Z -> exists d, determine_tax cat user a company = Ok d /\ tax_rate d = r /\
      tax_amount d = tax_amount (taxed a r None OutOfScope None)) ->
  let net := net_on (processing_fee_params cat company method cur) r (value input) in
  (0 < net < 2 ^ 53)%Z -> (0 < bought_time time cost net)%Z ->
  let res := (buy cat user company method input cur rate time cost expires w).1 in
  res = Err Panics \/ exists i, res = Ok i /\ np_amount i = net /\ np_time_value i = bought_time time cost net.
Proof.
  intros Hin Hd net Hnet Htime. destruct (Hd _ Hin) as (d & Hd1 & Hrate & _).
  destruct (Hd net ltac:(lia)) as (d2 & Hd2 & _ & _).
  unfold buy, try_bind. rewrite Hd1, !bind_run. cbn [fst snd mret ST_ret]. unfold net_from_gross.
  rewrite Hrate. fold net. unfold ensure_. rewrite (proj2 (Z.ltb_lt 0 net)) by lia.
  rewrite !bind_run. cbn [fst snd mret ST_ret]. rewrite (proj2 (Z.ltb_lt _ _) Htime).
  rewrite !bind_run. cbn [fst snd mret ST_ret]. rewrite !bind_run, Hd2. cbn [fst snd mret ST_ret].
  rewrite !bind_run. unfold add_seconds, checked_time.
  destruct (_ <=? _)%Z; [destruct (_ <=? _)%Z|]; cbn; [right; by eexists|by left..].
Qed.


(** ** Pricing reads the tables and the clock, and changes nothing *)

Lemma expires_reads vm : keeps only_reads (vm_subscription_expires vm).
Proof. unfold vm_subscription_expires. frame_tac reads_step. Qed.
Lemma or_now_reads e : keeps only_reads (or_now e).
Proof. unfold or_now. frame_tac reads_step. Qed.
Lemma clamp_reads e : keeps only_reads (clamp_now e).
Proof. unfold clamp_now. frame_tac ltac:(first [reads_step|apply or_now_reads]). Qed.
Lemma add_reads b s : keeps only_reads (add_seconds b s).
Proof. unfold add_seconds, checked_time. frame_tac reads_step. Qed.
Lemma charge_reads cat user company method converted time base :
  keeps only_reads (charge cat user company method converted time base).
Proof. unfold charge. frame_tac ltac:(first [reads_step|apply add_reads]). Qed.
Lemma base_reads cat vm method company : keeps only_reads (get_vm_base_cost cat vm method company).
Proof.
  unfold get_vm_base_cost, get_template_vm_cost, get_custom_vm_cost, next_template_expire, next_date, checked_time, pfail, lift.
  frame_tac ltac:(first [ reads_step | apply charge_reads | apply clamp_reads | apply or_now_reads | apply expires_reads ]).
Qed.
Lemma buy_reads cat user company method input cur rate time cost expires : keeps only_reads expires ->
  keeps only_reads (buy cat user company method input cur rate time cost expires).
Proof.
  intros He. unfold buy, ensure_.
  frame_tac ltac:(first [ exact He | reads_step | apply clamp_reads | apply add_reads ]).
Qed.
Lemma cost_by_amount_reads cat vm input method : keeps only_reads (get_cost_by_amount cat vm input method).
Proof.
  unfold get_cost_by_amount, ensure_.
  frame_tac ltac:(first [ reads_step | apply base_reads | apply buy_reads, expires_reads ]).
Qed.
Lemma sub_cost_by_amount_reads cat sub input method : keeps only_reads (get_subscription_cost_by_amount cat sub input method).
Proof.
  unfold get_subscription_cost_by_amount, ensure_, lift.
  frame_tac ltac:(first [ reads_step | apply buy_reads, keeps_ret, _ ]).
Qed.
Lemma vm_cost_reads cat vm method intervals : keeps only_reads (get_vm_cost_for_intervals cat vm method intervals).
Proof.
  unfold get_vm_cost_for_intervals, list_pending_vm_subscription_payments.
  frame_tac ltac:(first [ reads_step | apply base_reads | apply clamp_reads | apply expires_reads | apply add_reads ]).
Qed.
Lemma remaining_reads cat vm from_date : keeps only_reads (get_remaining_time_info_from_date cat vm from_date).
Proof.
  unfold get_remaining_time_info_from_date, ensure_, lift. frame_tac ltac:(first [ reads_step | apply expires_reads ]).
Qed.
Lemma template_reads cat vm cfg : keeps only_reads (create_upgrade_template cat vm cfg).
Proof. unfold create_upgrade_template, lift, pfail. frame_tac reads_step. Qed.
Lemma upgrade_cost_reads cat vm cfg method : keeps only_reads (calculate_vm_upgrade_cost cat vm cfg method).
Proof.
  unfold calculate_vm_upgrade_cost, ensure_, lift.
  frame_tac ltac:(first [ reads_step | apply expires_reads | apply remaining_reads | apply template_reads ]).
Qed.

(** ** The properties *)

(** What an arbitrary payment was turned into: time of a machine, or of a
    subscription priced by its line items. *)
Definition turned_into cat input method w (i : NewPaymentInfo) : Prop :=
  (exists vm, (get_cost_by_amount cat vm input method w).1 = Ok (New i)) \/
  (exists sub, (get_subscription_cost_by_amount cat sub input method w).1 = Ok (New i)).

Lemma turned_into_buy cat input method w i : turned_into cat input method w i ->
  exists user company rate time cost expires w',
    (buy cat user company method input (currency input) rate time cost expires w').1 = Ok i.
Proof.
  intros [[vm H]|[sub H]].
  - unfold get_cost_by_amount in H. run_ok H. injection H as <-.
    destruct x2. apply ensure_ok, bool_decide_eq_true in Hstep2. rewrite <- Hstep2. by do 7 eexists; eauto.
  - unfold get_subscription_cost_by_amount in H. run_ok H. injection H as <-.
    destruct x4. apply ensure_ok, bool_decide_eq_true in Hstep4. rewrite <- Hstep4. by do 7 eexists; eauto.
Qed.

(** C18: whatever a customer pays, net, tax and fee are what was paid. *)
Theorem paid_amount_accounted cat input method w i :
  catalog_ok cat = true ->
  (forall company, 0 <= (processing_fee_params cat company method (currency input)).2 < 2 ^ 53)%Z ->
  (value input < 2 ^ 45)%Z ->
  turned_into cat input method w i ->
  (0 < np_amount i /\ 0 <= np_tax i /\ 0 <= np_processing_fee i /\
   np_amount i + np_tax i + np_processing_fee i = value input)%Z.
Proof.
  intros Hcat Hbase Hin (user & company & rate & time & cost & expires & w' & Hbuy)%turned_into_buy.
  by eapply buy_accounted.
Qed.

(** C24: a quote that is paid in full buys what it quoted. *)
Theorem quote_paid_in_full cat user company method converted time base w q rate expires w' :
  catalog_ok cat = true ->
  (charge cat user company method converted time base w).1 = Ok q ->
  (0 <= (processing_fee_params cat company method (np_currency q)).2 < 2 ^ 45)%Z ->
  let gross := (np_amount q + np_tax q + np_processing_fee q)%Z in
  (4 <= np_amount q)%Z -> (gross < 2 ^ 45)%Z -> (6 <= time < 2 ^ 45)%Z ->
  let paid := (buy cat user company method (from_u64 (np_currency q) gross) (np_currency q) rate
                 (np_time_value q) (np_amount q) expires w').1 in
  paid = Err Panics \/ exists i, paid = Ok i /\ (Z.abs (np_amount i - np_amount q) <= 2)%Z /\
    (np_time_value q * (np_amount q - 2) - 2 * np_amount q <= np_time_value i * np_amount q
       <= np_time_value q * (np_amount q + 2) + np_amount q)%Z.
Proof.
  intros Hcat Hq Hbase gross Ha Hgross Htime paid.
  pose proof (charge_parts _ _ _ _ _ _ _ _ _ Hq) as (Hv & Ht0 & Hf0).
  assert (value (amount converted) < 2 ^ 53)%Z as Hsmall by (unfold gross in *; lia).
  destruct (charge_inv _ _ _ _ _ _ _ _ _ Hcat Hsmall Hq)
    as (u & r & Hu & Hr & Hd & _ & _ & Htime_q & Htax & Hfee).
  pose proof (catalog_fee cat company method (np_currency q) Hcat) as Hfrac.
  assert (net_near (processing_fee_params cat company method (np_currency q)) r (np_amount q) gross) as Hnet.
  { unfold net_near, gross. destruct (processing_fee_params _ _ _ _) as [rf b]. cbn [fst snd] in *.
    rewrite wadd_small in Hfee by first [lia|unfold gross in *; lia]. rewrite Hfee, Htax.
    apply quote_recovered; [done..|lia|]. rewrite <- Htax, <- Hfee. exact Hgross. }
  unfold net_near in Hnet. set (net := net_on _ r gross) in *.
  assert (value (from_u64 (np_currency q) gross) = gross) as Hval by (apply value_from; unfold fits, gross in *; lia).
  rewrite Htime_q. pose proof (time_in_integers time (np_amount q) net ltac:(lia) ltac:(unfold gross in *; lia) ltac:(lia)) as Hbought.
  destruct (buy_ok cat user company method (from_u64 (np_currency q) gross) (np_currency q) rate time
    (np_amount q) expires w' r) as [Hp|(i & Hi & Hn & Hb)].
  - rewrite Hval. unfold gross in *; lia.
  - exact Hd.
  - rewrite Hval. fold net. unfold gross in *; lia.
  - rewrite Hval. fold net. nia.
  - left. unfold paid. by rewrite Htime_q.
  - right. exists i. rewrite Hval in *. fold net in Hn, Hb. split; [unfold paid; by rewrite Htime_q|].
    rewrite Hn, Hb. split; [lia|exact Hbought].
Qed.

(** A fiat price survives its conversion to bitcoin and back. *)
Theorem price_survives_conversion t c v :
  ticker t = (BTC, c) -> c <> BTC -> btc_rate_ok (rate t) = true -> (0 <= v < 2 ^ 32)%Z ->
  exists b, convert t (from_u64 c v) = Ok b /\ currency b = BTC /\ convert t b = Ok (from_u64 c v).
Proof.
  intros Ht Hc Hr Hv. assert (fits 64 v) as Hfit by (unfold fits; lia).
  exists (from_u64 BTC (convert_value c BTC (f64_div one (Flt.widen (rate t))) v)). split; [|split].
  - unfold convert, can_convert. rewrite Ht, currency_from, value_from by exact Hfit. cbn [fst snd].
    rewrite (bool_decide_eq_true_2 (c = c)) by done. rewrite orb_true_r, decide_False by done. done.
  - apply currency_from.
  - unfold convert, can_convert. rewrite Ht, currency_from, value_from by by apply round_fits. cbn [fst snd].
    rewrite (bool_decide_eq_true_2 (BTC = BTC)) by done. cbn [orb]. rewrite decide_True by done.
    by rewrite there_and_back.
Qed.

(** Adding VAT and taking it out again is the identity. *)
Theorem vat_round_trip code r n : vat_rate_ok r = true -> (0 <= n < 2 ^ 35)%Z ->
  let rate := {| vr_code := code; vr_rate := r |} in
  vat_net_from_gross rate (gross_from_net rate n) = n.
Proof. intros Hr Hn. by apply vat_recovered. Qed.

(** Who is taxed, where, and at which rate. *)
Theorem tax_only_where_due cat user a company d :
  determine_tax cat user a company = Ok d -> tax_amount d <> 0%Z ->
  exists seller cc, seller_country cat company = Some seller /\ is_eu_vat_country seller = true /\
    tax_country_code d = Some cc /\ is_eu_vat_country cc = true /\
    tax_rate d = rate_for_country cat cc /\
    tax_amount d = Flt.floor_to 64 (f64_mul (f64_of a) (percent (rate_for_country cat cc))) /\
    (is_Some (vat_number d) -> cc = seller) /\
    match tax_treatment d with
    | Domestic | UndeterminedDefault => cc = seller
    | OssB2c => cc <> seller
    | ReverseCharge | OutOfScope => False
    end.
Proof.
  unfold determine_tax. destruct (get_user cat user) as [u|e]; [|done]. intros [= <-].
  cbn [with_evidence tax_amount tax_rate tax_country_code tax_treatment vat_number].
  destruct (seller_country cat company) as [seller|]; [|done]. exists seller. revert H.
  unfold determine_tax_inner. cbn [is_eu]. destruct (is_eu_vat_country seller) eqn:Eseller; [|done]. cbn [negb].
  destruct (mbind _ _) as [[vat cc]|].
  { case_decide as Ecc; [|done]. injection Ecc as <-. intros _. exists seller. by rewrite Eseller. }
  destruct (to_uppercase <$> _) as [cc|].
  - destruct (is_eu_vat_country cc) eqn:Ecc; [|done]. intros _. exists cc. cbn. rewrite Ecc.
    split_and!; try done. case_decide; congruence.
  - intros _. exists seller. cbn. rewrite Eseller. by split_and!.
Qed.

(** The value of the time left is its share of the period's price. *)
Theorem time_left_prorated cat vm from_date w info :
  (get_remaining_time_info_from_date cat vm from_date w).1 = Ok info ->
  let cost := value (renewal_cost info) in let period := renewal_period_seconds info in
  (cost < 2 ^ 45)%Z -> (0 < period)%Z -> (seconds_remaining info <= period < 2 ^ 45)%Z ->
  let prorated := value (prorated_cost info) in
  (0 <= seconds_remaining info)%Z /\
  (Z.abs (prorated - seconds_remaining info * cost / period) <= 1)%Z /\ (prorated <= cost)%Z /\
  currency (prorated_cost info) = currency (renewal_cost info).
Proof.
  intros H cost period Hc Hp Hs prorated. unfold get_remaining_time_info_from_date in H. run_ok H.
  destruct x0, x2, x3 as [current time]. apply ensure_ok, Z.ltb_lt in Hstep2. injection H as <-.
  cbn [seconds_remaining renewal_cost renewal_period_seconds prorated_cost] in *.
  set (s := ((x1 - from_date) / SEC)%Z) in *. assert (0 <= s)%Z as Hs0 by (apply Z.div_pos; [lia|done]).
  pose proof (value_fits current) as [Hc0 _]. fold cost in Hc0. unfold prorated. rewrite currency_from.
  change (Flt.floor_to 64 _) with (bought_time s period cost).
  destruct (share_in_integers s period cost) as (H1 & H2 & H3); [lia..|].
  unfold prorated. rewrite value_from by (unfold fits; lia). done.
Qed.
End engine.
