(* ===== verification/IpProvision.v ===== *)
(** * Fulfilling address-space subscriptions
    ([lnvps_api/src/provisioner/ip_range.rs]: [IpRangeProvisioner])

    A payment for an address-space line item renews its allocation, reactivates
    the one that lapsed or carves a fresh subnet; expiry deactivates it. Route
    objects and ROAs are kept in step through two remote services, either of
    which may be unconfigured ([registry], [rpki]). *)

From S2P Require Import Prelude NetText IpAlloc Network HostTypes SubDb.

(** [IpNetwork]'s [Display]. *)
Class NetShow := show_net : IpNetwork -> string.
(** What the registry answers to the n-th call. *)
Class RegistryRef := ref_of : nat -> string.

Record IpRangeLineItemConfig := { available_ip_space_id : Z; prefix_size : Z }.
Definition IpRangeLineItemConfig_from (j : Json) : option IpRangeLineItemConfig :=
  let names := ["available_ip_space_id"; "prefix_size"] in
  if struct_like 2 j then
    s ← (v ← field names 0 j; as_uint 64 v);
    p ← (v ← field names 1 j; as_uint 8 v);
    Some {| available_ip_space_id := s; prefix_size := p |}
  else None.

(** [max_by_key(|s| s.created)]: the last of the greatest. *)
Definition max_by_created (l : list IpRangeSubscription) : option IpRangeSubscription :=
  foldl (fun best r =>
    match best with
    | Some b => if ir_created b <=? ir_created r then Some r else Some b
    | None => Some r
    end) None l.

Section provisioner.
Context `{!NetLib, !NetShow, !RegistryRef, !Clock, !Remote}.
Context (registry rpki : bool).

Definition set_active (r : IpRangeSubscription) (active : bool) (ended : option Z) : IpRangeSubscription :=
  {| ir_id := ir_id r; ir_line_item_id := ir_line_item_id r; ir_space_id := ir_space_id r;
     ir_created := ir_created r; ir_cidr := ir_cidr r; ir_origin_asn := ir_origin_asn r;
     ir_is_active := active; ir_started_at := ir_started_at r; ir_ended_at := ended;
     ir_metadata := ir_metadata r |}.
Definition set_registry (r : IpRangeSubscription) (asn : option Z) (meta : option Json) : IpRangeSubscription :=
  {| ir_id := ir_id r; ir_line_item_id := ir_line_item_id r; ir_space_id := ir_space_id r;
     ir_created := ir_created r; ir_cidr := ir_cidr r; ir_origin_asn := asn;
     ir_is_active := ir_is_active r; ir_started_at := ir_started_at r; ir_ended_at := ir_ended_at r;
     ir_metadata := meta |}.

Definition space_maintainer (space : AvailableIpSpace) : option string :=
  meta ← sp_metadata space;
  v ← match json_get "maintainer" meta with Some v => Some v | None => json_get "mnt_by" meta end;
  as_str v.

(** The route object, and the entries it leaves in the metadata. *)
Definition fulfil_route (space : AvailableIpSpace) (net : IpNetwork) (asn : Z)
  : Act (list (string * Json)) :=
  if registry then
    match space_maintainer space with
    | Some mnt =>
        n ← db (fun w => length (w_calls w));
        call_ (CreateRoute {| ro_prefix := net; ro_origin_asn := asn; ro_maintainer := mnt |}) ;?
        mret (Ok (json_insert "maintainer" (JString mnt)
          (json_insert "route_object_ref" (JString (ref_of n)) [])))
    | None => mret (Ok [])
    end
  else mret (Ok []).

Definition fulfil_roa (net : IpNetwork) (asn : Z) (meta : list (string * Json))
  : Act (list (string * Json)) :=
  if rpki then
    let roa := {| roa_origin_asn := asn; roa_prefix := net; roa_max_length := None |} in
    call_ (AddRoa roa) ;?
    mret (Ok (json_insert "roa_max_length" (JNumber (effective_max_length roa)) meta))
  else mret (Ok meta).

Definition fulfil_registry (space : AvailableIpSpace) (ips : IpRangeSubscription) : Act unit :=
  match ir_origin_asn ips with
  | None => mret (Ok tt)
  | Some asn =>
      match parse_net (ir_cidr ips) with
      | None => mret (Err BadCidr)
      | Some net =>
          meta ←? fulfil_route space net asn;
          meta ←? fulfil_roa net asn meta;
          update_ip_range_subscription (set_registry ips (Some asn) (Some (JObject meta)));;
          mret (Ok tt)
      end
  end.

Definition teardown_registry (ips : IpRangeSubscription) : ST World unit :=
  match ir_metadata ips, ir_origin_asn ips, parse_net (ir_cidr ips) with
  | Some meta, Some asn, Some net =>
      match registry, json_get "maintainer" meta ≫= as_str, json_get "route_object_ref" meta with
      | true, Some mnt, Some _ =>
          _ ← call (DeleteRoute {| ro_prefix := net; ro_origin_asn := asn; ro_maintainer := mnt |});
          mret tt
      | _, _, _ => mret tt
      end;;
      match rpki, json_get "roa_max_length" meta ≫= as_uint 64 with
      | true, Some len =>
          _ ← call (RemoveRoa {| roa_origin_asn := asn; roa_prefix := net;
                                 roa_max_length := Some (wrap 8 len) |});
          mret tt
      | _, _ => mret tt
      end
  | _, _, _ => mret tt
  end.

Definition parsed (l : list IpRangeSubscription) : list IpNetwork := omap (fun r => parse_net (ir_cidr r)) l.

(** Whether a network overlaps one of the family. *)
Definition clash (net : IpNetwork) (taken : list IpNetwork) : bool :=
  let '(ps, pe) := net_bounds net in
  existsb (fun t =>
    let '(ts, te) := net_bounds t in (ps <=? te) && (ts <=? pe))
    (filter (fun t => is_v4 t = is_v4 net) taken).

Definition try_reactivate (prev : IpRangeSubscription) : Act bool :=
  match parse_net (ir_cidr prev) with
  | None => mret (Ok false)
  | Some net =>
      active ← list_ip_range_subscriptions_by_space_paginated (ir_space_id prev) 100000;
      if clash net (parsed active) then mret (Ok false) else
      let prev := set_active prev true None in
      update_ip_range_subscription prev;;
      space ←? get_available_ip_space (ir_space_id prev);
      fulfil_registry space prev ;?
      mret (Ok true)
  end.

Definition allocate_fresh (li : SubscriptionLineItem) : Act unit :=
  match li_configuration li with
  | None => mret (Err NoConfig)
  | Some j =>
      match IpRangeLineItemConfig_from j with
      | None => mret (Err BadConfig)
      | Some cfg =>
          space ←? get_available_ip_space (available_ip_space_id cfg);
          match parse_net (sp_cidr space) with
          | None => mret (Err BadCidr)
          | Some block =>
              taken ← list_ip_range_subscriptions_by_space_paginated (sp_id space) 100000;
              match allocate_subnet block (prefix_size cfg) (parsed taken) with
              | Some (Some net) =>
                  created ← now;
                  started ← now;
                  _ ←? insert_ip_range_subscription
                    {| ir_id := 0; ir_line_item_id := li_id li; ir_space_id := sp_id space;
                       ir_created := created; ir_cidr := show_net net; ir_origin_asn := None;
                       ir_is_active := true; ir_started_at := started; ir_ended_at := None;
                       ir_metadata := None |};
                  mret (Ok tt)
              | _ => mret (Err NoFreeSubnet)
              end
          end
      end
  end.

Definition fulfil_on_payment (line_item_id : Z) : Act unit :=
  li ←? get_subscription_line_item line_item_id;
  existing ← list_ip_range_subscriptions_by_line_item (li_id li);
  if existsb ir_is_active existing then mret (Ok tt) else
  match max_by_created existing with
  | Some prev =>
      done ←? try_reactivate prev;
      if (done : bool) then mret (Ok tt) else allocate_fresh li
  | None => allocate_fresh li
  end.

Definition allocate_on_payment (line_item_id : Z) : Act unit :=
  res ← fulfil_on_payment line_item_id;
  _ ← call (SendJob CheckSubscriptions);
  mret res.

Definition configure_origin_asn (id : Z) (new_asn : option Z) : Act unit :=
  ips ←? get_ip_range_subscription id;
  if bool_decide (ir_origin_asn ips = new_asn) then mret (Ok tt) else
  teardown_registry ips;;
  space ←? get_available_ip_space (ir_space_id ips);
  let ips := set_registry ips new_asn None in
  update_ip_range_subscription ips;;
  fulfil_registry space ips.

Definition deactivate_one (ips : IpRangeSubscription) : ST World unit :=
  if ir_is_active ips then
    teardown_registry ips;;
    t ← now;
    update_ip_range_subscription (set_active ips false (Some t))
  else mret tt.
Fixpoint deactivate_all (l : list IpRangeSubscription) : ST World unit :=
  match l with
  | [] => mret tt
  | ips :: l => deactivate_one ips;; deactivate_all l
  end.
Definition deactivate_line_item (line_item : SubscriptionLineItem) : ST World unit :=
  subs ← list_ip_range_subscriptions_by_line_item (li_id line_item);
  deactivate_all subs.
End provisioner.
