(* ===== verification/IpProvisionProofs.v ===== *)
(** * Address-space subscriptions: the allocations stay sound

    Everything the theorems need of a row is its key; the calls to the registry
    and the clock leave the keys alone, an update sets one row's active flag, a
    fresh allocation adds a key. *)

From S2P Require Import Prelude NetText IpAlloc Network HostTypes SubDb IpProvision.

(** ** Keys *)

Record Key := { k_id : Z; k_li : Z; k_space : Z; k_cidr : string; k_active : bool }.
Definition key (r : IpRangeSubscription) : Key :=
  {| k_id := ir_id r; k_li := ir_line_item_id r; k_space := ir_space_id r; k_cidr := ir_cidr r;
     k_active := ir_is_active r |}.
Definition keys (w : World) : list Key := key <$> w_ranges w.
Definition set_act (id : Z) (b : bool) (k : Key) : Key :=
  if decide (k_id k = id) then
    {| k_id := k_id k; k_li := k_li k; k_space := k_space k; k_cidr := k_cidr k; k_active := b |}
  else k.

(** What calls and clock readings leave alone. *)
Definition same_tables (w w' : World) : Prop :=
  w_subs w' = w_subs w /\ w_items w' = w_items w /\ w_spaces w' = w_spaces w /\
  w_ranges w' = w_ranges w /\ w_next_range w' = w_next_range w.
#[export] Instance same_tables_pre : PreOrder same_tables.
Proof.
  split; [by repeat split|]. intros w1 w2 w3 (? & ? & ? & ? & ?) (? & ? & ? & ? & ?).
  unfold same_tables. split_and!; congruence.
Qed.
(** The same, up to what the registry stores in a row. *)
Definition same_keys (w w' : World) : Prop :=
  w_subs w' = w_subs w /\ w_items w' = w_items w /\ w_spaces w' = w_spaces w /\
  keys w' = keys w /\ w_next_range w' = w_next_range w.
#[export] Instance same_keys_pre : PreOrder same_keys.
Proof.
  split; [by repeat split|]. intros w1 w2 w3 (? & ? & ? & ? & ?) (? & ? & ? & ? & ?).
  unfold same_keys. split_and!; congruence.
Qed.
Lemma same_tables_keys w w' : same_tables w w' -> same_keys w w'.
Proof. intros (? & ? & ? & E & ?). unfold same_keys, keys. by rewrite E. Qed.

Section effects.
Context `{!Clock, !Remote}.
Lemma keeps_now : keeps same_tables now.
Proof. by repeat split. Qed.
Lemma keeps_call c : keeps same_tables (call c).
Proof. by repeat split. Qed.
Lemma keeps_call_ c : keeps same_tables (call_ c).
Proof. by repeat split. Qed.
End effects.
#[export] Hint Resolve keeps_now keeps_call keeps_call_ : keeps.

(** A computation that only calls and reads. *)
Ltac tables_tac := frame_tac ltac:(first [apply keeps_now | apply keeps_call | apply keeps_call_]).

(** ** Sound allocations *)

Section sound.
Context `{!NetLib}.

Definition joined_key (w : World) (k : Key) : Prop :=
  Exists (fun i => li_id i = k_li k /\
            Exists (fun s => s_id s = li_subscription_id i) (w_subs w)) (w_items w).

(** Active allocations of a space do not overlap. *)
Definition apart (k1 k2 : Key) : Prop :=
  k_active k1 = true -> k_active k2 = true -> k_space k1 = k_space k2 -> k_id k1 <> k_id k2 ->
  forall n1 n2, parse_net (k_cidr k1) = Some n1 -> parse_net (k_cidr k2) = Some n2 ->
  is_v4 n1 = is_v4 n2 -> disjoint_nets n1 n2.

Definition pairwise (R : Key -> Key -> Prop) (ks : list Key) : Prop :=
  forall k1 k2, k1 ∈ ks -> k2 ∈ ks -> R k1 k2.
Definition one_per_item (k1 k2 : Key) : Prop :=
  k_active k1 = true -> k_active k2 = true -> k_li k1 = k_li k2 -> k_id k1 = k_id k2.

(** The ids are a key below the next one, no allocations of a space overlap, a
    line item has at most one, and rows belong to line items of subscriptions. *)
Record Sound (w : World) : Prop := {
  so_ids : NoDup (k_id <$> keys w);
  so_next : Forall (fun k => k_id k < w_next_range w) (keys w);
  so_joined : Forall (joined_key w) (keys w);
  so_apart : pairwise apart (keys w);
  so_one : pairwise one_per_item (keys w)
}.

Lemma Sound_same w w' : same_keys w w' -> Sound w -> Sound w'.
Proof.
  intros (E1 & E2 & _ & E3 & E4) [H1 H2 H3 H4 H5]. split; rewrite ?E3, ?E4; try done.
  unfold joined_key. by rewrite E1, E2.
Qed.

Lemma set_act_id id b k : k_id (set_act id b k) = k_id k.
Proof. unfold set_act. by case_decide. Qed.
Lemma set_act_li id b k : k_li (set_act id b k) = k_li k.
Proof. unfold set_act. by case_decide. Qed.
Lemma set_act_space id b k : k_space (set_act id b k) = k_space k.
Proof. unfold set_act. by case_decide. Qed.
Lemma set_act_cidr id b k : k_cidr (set_act id b k) = k_cidr k.
Proof. unfold set_act. by case_decide. Qed.
Lemma set_act_ids id b (ks : list Key) : k_id <$> (set_act id b <$> ks) = k_id <$> ks.
Proof. rewrite <- list_fmap_compose. apply list_fmap_ext. intros i k _. apply set_act_id. Qed.
Lemma set_act_false_active id k : k_active (set_act id false k) = true -> k_active k = true.
Proof. unfold set_act. by case_decide. Qed.
Lemma set_act_true_active id k :
  k_active (set_act id true k) = true -> k_active k = true \/ k_id k = id.
Proof. unfold set_act. case_decide; auto. Qed.
End sound.
Create Rewrite HintDb keys.
#[export] Hint Rewrite @set_act_id @set_act_li @set_act_space @set_act_cidr : keys.

(** ** How the keys move *)

(** A row of the table with the fixed columns of [r]. *)
Definition stored (w : World) (r : IpRangeSubscription) : Prop :=
  exists old, old ∈ w_ranges w /\ ir_id old = ir_id r /\ ir_line_item_id old = ir_line_item_id r /\
    ir_space_id old = ir_space_id r /\ ir_cidr old = ir_cidr r.

Lemma stored_in w r : r ∈ w_ranges w -> stored w r.
Proof. intros Hr. by exists r. Qed.

Lemma keys_ids w : k_id <$> keys w = ir_id <$> w_ranges w.
Proof. unfold keys. rewrite <- list_fmap_compose. by apply list_fmap_ext. Qed.

Lemma key_in w r : r ∈ w_ranges w -> key r ∈ keys w.
Proof. apply list_elem_of_fmap_2. Qed.
Lemma in_keys w k : k ∈ keys w -> exists r, r ∈ w_ranges w /\ k = key r.
Proof. intros (r & -> & Hr)%list_elem_of_fmap. by exists r. Qed.

(** Writing a row sets its active flag. *)
Lemma write_range_key r old :
  ir_id old = ir_id r -> ir_line_item_id old = ir_line_item_id r ->
  ir_space_id old = ir_space_id r -> ir_cidr old = ir_cidr r ->
  key (write_range r old) = set_act (ir_id r) (ir_is_active r) (key old).
Proof.
  intros E1 E2 E3 E4. unfold key, set_act, write_range. cbn. rewrite decide_True by done. congruence.
Qed.

Lemma update_keys r w : NoDup (k_id <$> keys w) -> stored w r ->
  keys (update_ip_range_subscription r w).2 = set_act (ir_id r) (ir_is_active r) <$> keys w.
Proof.
  intros Hid (old & Hold & E1 & E2 & E3 & E4). unfold keys. cbn.
  rewrite <- !list_fmap_compose. rewrite keys_ids in Hid.
  apply list_fmap_ext. intros i r' Hr'%list_elem_of_lookup_2. cbn. case_decide as E.
  - assert (r' = old) as -> by (eapply NoDup_key; [exact Hid|done|done|congruence]).
    by apply write_range_key.
  - unfold set_act. by rewrite decide_False.
Qed.

(** A row already there with the same flag: nothing moves. *)
Lemma set_act_same id b ks k : NoDup (k_id <$> ks) -> k ∈ ks -> k_id k = id -> k_active k = b ->
  set_act id b <$> ks = ks.
Proof.
  intros Hid Hk E Ea. rewrite <- (list_fmap_id ks) at 2. apply list_fmap_ext.
  intros i k' Hk'%list_elem_of_lookup_2. unfold set_act. case_decide as Ei; [|done].
  assert (k' = k) as -> by (eapply NoDup_key; [exact Hid|done|done|congruence]).
  rewrite <- Ea. by destruct k.
Qed.

Section moves.
Context `{NL : !NetLib}.

Lemma in_set_act id b k' (ks : list Key) : k' ∈ set_act id b <$> ks -> exists k, k ∈ ks /\ k' = set_act id b k.
Proof. intros (k & -> & Hk)%list_elem_of_fmap. by exists k. Qed.

(** Setting a flag keeps ids, rows and joins; deactivating keeps the rest. *)
Lemma set_act_sound w w' id b :
  w_subs w' = w_subs w -> w_items w' = w_items w -> w_next_range w' = w_next_range w ->
  keys w' = set_act id b <$> keys w -> Sound w ->
  pairwise apart (keys w') -> pairwise one_per_item (keys w') -> Sound w'.
Proof.
  intros Es Ei En Ek [H1 H2 H3 _ _] H4 H5. split; [| | |done|done]; rewrite Ek.
  - by rewrite set_act_ids.
  - apply Forall_fmap, (Forall_impl _ _ _ H2). intros k Hk. cbn. by rewrite set_act_id, En.
  - apply Forall_fmap, (Forall_impl _ _ _ H3). intros k Hk. unfold joined_key in *. cbn.
    by rewrite set_act_li, Es, Ei.
Qed.

Lemma deactivate_sound w w' id :
  w_subs w' = w_subs w -> w_items w' = w_items w -> w_next_range w' = w_next_range w ->
  keys w' = set_act id false <$> keys w -> Sound w -> Sound w'.
Proof.
  intros Es Ei En Ek Hs. eapply set_act_sound; eauto; rewrite Ek.
  - intros k1' k2' (k1 & Hk1 & ->)%in_set_act (k2 & Hk2 & ->)%in_set_act.
    unfold apart. autorewrite with keys. intros A1%set_act_false_active A2%set_act_false_active.
    by apply (so_apart w Hs).
  - intros k1' k2' (k1 & Hk1 & ->)%in_set_act (k2 & Hk2 & ->)%in_set_act.
    unfold one_per_item. autorewrite with keys. intros A1%set_act_false_active A2%set_act_false_active.
    by apply (so_one w Hs).
Qed.

Lemma disjoint_nets_sym n t : disjoint_nets n t -> disjoint_nets t n.
Proof. unfold disjoint_nets. tauto. Qed.

(** Activating a row that clashes with no active one of its space, for a line
    item without an active one. *)
Lemma activate_sound w w' k net :
  w_subs w' = w_subs w -> w_items w' = w_items w -> w_next_range w' = w_next_range w ->
  keys w' = set_act (k_id k) true <$> keys w -> Sound w -> k ∈ keys w ->
  parse_net (k_cidr k) = Some net ->
  (forall k', k' ∈ keys w -> k_active k' = true -> k_space k' = k_space k ->
     forall n, parse_net (k_cidr k') = Some n -> is_v4 n = is_v4 net -> disjoint_nets net n) ->
  (forall k', k' ∈ keys w -> k_active k' = true -> k_li k' <> k_li k) -> Sound w'.
Proof.
  intros Es Ei En Ek Hs Hk Hnet Hfree Hnone. eapply set_act_sound; eauto; rewrite Ek.
  - intros k1' k2' (k1 & Hk1 & ->)%in_set_act (k2 & Hk2 & ->)%in_set_act.
    unfold apart. autorewrite with keys.
    pose proof (fun a b Ha Hb => NoDup_key k_id _ a b (so_ids w Hs) Ha Hb) as Huniq.
    intros [A1|A1]%set_act_true_active [A2|A2]%set_act_true_active Esp Hne n1 n2 P1 P2 Ev.
    + by apply (so_apart w Hs k1 k2).
    + apply (Huniq k2 k) in A2 as ->; [|done|done]. apply disjoint_nets_sym.
      assert (n2 = net) as -> by congruence. by apply (Hfree k1).
    + apply (Huniq k1 k) in A1 as ->; [|done|done].
      assert (n1 = net) as -> by congruence. by apply (Hfree k2).
    + congruence.
  - intros k1' k2' (k1 & Hk1 & ->)%in_set_act (k2 & Hk2 & ->)%in_set_act.
    unfold one_per_item. autorewrite with keys.
    pose proof (fun a b Ha Hb => NoDup_key k_id _ a b (so_ids w Hs) Ha Hb) as Huniq.
    intros [A1|A1]%set_act_true_active [A2|A2]%set_act_true_active Eli.
    + by apply (so_one w Hs k1 k2).
    + apply (Huniq k2 k) in A2 as ->; [|done|done]. by destruct (Hnone k1).
    + apply (Huniq k1 k) in A1 as ->; [|done|done]. by destruct (Hnone k2).
    + congruence.
Qed.

(** Adding an active row. *)
Lemma insert_sound w w' k net :
  w_subs w' = w_subs w -> w_items w' = w_items w -> w_next_range w' = w_next_range w + 1 ->
  keys w' = keys w ++ [k] -> k_id k = w_next_range w -> Sound w -> joined_key w k ->
  parse_net (k_cidr k) = Some net ->
  (forall k', k' ∈ keys w -> k_active k' = true -> k_space k' = k_space k ->
     forall n, parse_net (k_cidr k') = Some n -> is_v4 n = is_v4 net -> disjoint_nets net n) ->
  (forall k', k' ∈ keys w -> k_active k' = true -> k_li k' <> k_li k) -> Sound w'.
Proof.
  intros Es Ei En Ek Eid Hs Hj Hnet Hfree Hnone.
  assert (forall k', k' ∈ keys w -> k_id k' <> k_id k) as Hnew.
  { intros k' Hk'. pose proof (proj1 (Forall_forall _ _) (so_next w Hs) k' Hk') as Hlt. cbn in Hlt. lia. }
  split; rewrite Ek.
  - rewrite fmap_app, NoDup_app. split; [apply Hs|]. split; [|apply NoDup_singleton].
    intros i (k' & -> & Hk')%list_elem_of_fmap [E|[]%not_elem_of_nil]%elem_of_cons. by apply (Hnew k').
  - rewrite En. apply Forall_app. split; [|constructor; [cbn; lia|constructor]].
    eapply Forall_impl; [apply Hs|]. cbn. lia.
  - apply Forall_app. unfold joined_key in *. rewrite Es, Ei. split; [apply Hs|by constructor].
  - intros k1 k2 [H1|[->|[]%not_elem_of_nil]%elem_of_cons]%elem_of_app
      [H2|[->|[]%not_elem_of_nil]%elem_of_cons]%elem_of_app; [by apply (so_apart w Hs)| | |].
    + intros A1 _ Esp _ n1 n2 P1 P2 Ev. apply disjoint_nets_sym.
      assert (n2 = net) as -> by congruence. by apply (Hfree k1).
    + intros _ A2 Esp _ n1 n2 P1 P2 Ev.
      assert (n1 = net) as -> by congruence. by apply (Hfree k2).
    + by intros _ _ _ Hne.
  - intros k1 k2 [H1|[->|[]%not_elem_of_nil]%elem_of_cons]%elem_of_app
      [H2|[->|[]%not_elem_of_nil]%elem_of_cons]%elem_of_app; [by apply (so_one w Hs)| | |].
    + intros A1 _ E. by destruct (Hnone k1).
    + intros _ A2 E. by destruct (Hnone k2).
    + done.
Qed.
End moves.

(** ** What each step does to the keys *)

Lemma stored_key w r : stored w r <->
  exists k, k ∈ keys w /\ k_id k = ir_id r /\ k_li k = ir_line_item_id r /\
    k_space k = ir_space_id r /\ k_cidr k = ir_cidr r.
Proof.
  split.
  - intros (old & Ho & ?). exists (key old). split; [by apply key_in|done].
  - intros (k & (old & Ho & ->)%in_keys & ?). by exists old.
Qed.

Lemma stored_same w w' r : same_keys w w' -> stored w r -> stored w' r.
Proof. intros (_ & _ & _ & E & _). by rewrite !stored_key, E. Qed.

Lemma stored_set_act w w' r id b : keys w' = set_act id b <$> keys w -> stored w r -> stored w' r.
Proof.
  intros E. rewrite !stored_key. intros (k & Hk & ?). exists (set_act id b k).
  rewrite E. split; [by apply list_elem_of_fmap_2|]. by autorewrite with keys.
Qed.

Section steps.
Context `{!NetLib, !NetShow, !RegistryRef, !Clock, !Remote}.
Context (registry rpki : bool).

Lemma teardown_tables ips : keeps same_tables (teardown_registry registry rpki ips).
Proof. unfold teardown_registry. tables_tac. Qed.
Lemma fulfil_route_tables space net asn : keeps same_tables (fulfil_route registry space net asn).
Proof. unfold fulfil_route. tables_tac. Qed.
Lemma fulfil_roa_tables net asn meta : keeps same_tables (fulfil_roa rpki net asn meta).
Proof. unfold fulfil_roa. tables_tac. Qed.

(** Saving the registry's references moves no key. *)
Lemma save_registry_keys ips asn meta w : NoDup (k_id <$> keys w) -> key ips ∈ keys w ->
  same_keys w (update_ip_range_subscription (set_registry ips asn meta) w).2.
Proof.
  intros Hid Hk. split_and!; [done|done|done| |done].
  rewrite update_keys; [|done|].
  - apply (set_act_same _ _ _ (key ips)); done.
  - apply in_keys in Hk as (r & Hr & [=]). by exists r.
Qed.

Lemma fulfil_registry_keys space ips w : NoDup (k_id <$> keys w) -> key ips ∈ keys w ->
  same_keys w (fulfil_registry registry rpki space ips w).2.
Proof.
  intros Hid Hk. unfold fulfil_registry. destruct (ir_origin_asn ips) as [asn|]; [|by repeat split].
  destruct (parse_net (ir_cidr ips)) as [net|]; [|by repeat split].
  refine (_ : wp _ (fun _ w' => same_keys w w') w).
  apply wp_try. eapply wp_mono; [apply (keeps_wp _ _ _ (fun _ _ => True) (fulfil_route_tables _ _ _)); done|].
  intros [meta|e] w1 [_ E1%same_tables_keys]; [|done].
  apply wp_try. eapply wp_mono; [apply (keeps_wp _ _ _ (fun _ _ => True) (fulfil_roa_tables _ _ _)); done|].
  intros [meta'|e] w2 [_ E2%same_tables_keys]; [|by etrans].
  assert (same_keys w w2) as E by by etrans.
  unfold wp. rewrite bind_run. cbn [snd mret ST_ret].
  etrans; [exact E|]. destruct E as (_ & _ & _ & E & _).
  apply save_registry_keys; by rewrite E.
Qed.
End steps.

(** ** The operations *)

(** References between the tables that payments rely on: a line item belongs to
    a subscription, no block of a space ends with the last IPv6 address. *)
Definition refs_ok `{!NetLib} (w : World) : Prop :=
  Forall (fun i => Exists (fun s => s_id s = li_subscription_id i) (w_subs w)) (w_items w) /\
  Forall (fun sp => forall b, parse_net (sp_cidr sp) = Some b -> room_above b) (w_spaces w).
(** The queries' limit has not been reached. *)
Definition within_limit (w : World) : Prop := Z.of_nat (length (w_ranges w)) <= 100000.
Definition same_refs (w w' : World) : Prop :=
  w_subs w' = w_subs w /\ w_items w' = w_items w /\ w_spaces w' = w_spaces w.

Lemma same_refs_ok `{!NetLib} w w' : same_refs w w' -> refs_ok w -> refs_ok w'.
Proof. intros (E1 & E2 & E3). unfold refs_ok. by rewrite E1, E2, E3. Qed.

Lemma keys_length w : length (w_ranges w) = length (keys w).
Proof. unfold keys. by rewrite length_fmap. Qed.

Lemma max_by_created_in l r : max_by_created l = Some r -> r ∈ l.
Proof.
  unfold max_by_created. intros E.
  enough (forall best, foldl (fun best r => match best with
    | Some b => if ir_created b <=? ir_created r then Some r else Some b
    | None => Some r end) best l = Some r -> r ∈ l \/ best = Some r) as H.
  { destruct (H None E) as [|]; done. }
  clear E. induction l as [|x l IH]; intros best; cbn [foldl]; [by right|].
  intros [Hr|Hr]%IH; [left; by right|].
  destruct best as [b|]; [destruct (_ <=? _)|]; simplify_eq; [left; by left|by right|left; by left].
Qed.

Section operations.
Context `{NL : !NetLib, LAWS : !NetLaws, !NetShow, !RegistryRef, !Clock, !Remote}.
Context (show_parse : forall n, net_wf n -> parse_net (show_net n) = Some n).
Context (registry rpki : bool).
Implicit Types w : World.

(** A network overlaps no active allocation of a space. *)
Definition free_in w (space : Z) (net : IpNetwork) : Prop :=
  forall k, k ∈ keys w -> k_active k = true -> k_space k = space ->
  forall n, parse_net (k_cidr k) = Some n -> is_v4 n = is_v4 net -> disjoint_nets net n.
Definition none_active w (li : Z) : Prop := forall k, k ∈ keys w -> k_active k = true -> k_li k <> li.

Lemma active_listed w k n : Sound w -> within_limit w -> k ∈ keys w -> k_active k = true ->
  parse_net (k_cidr k) = Some n -> n ∈ parsed (active_ranges (k_space k) 100000 w).
Proof.
  intros Hs Hl Hk Ha Hn. pose proof (proj1 (Forall_forall _ _) (so_joined w Hs) k Hk) as Hj.
  apply in_keys in Hk as (r & Hr & ->). unfold parsed. apply list_elem_of_omap. exists r. split; [|done].
  unfold active_ranges. rewrite take_ge.
  - rewrite list_elem_of_In, <- in_rev, <- list_elem_of_In. by apply list_elem_of_filter.
  - rewrite length_rev. unfold within_limit in Hl.
    pose proof (length_filter (fun r0 => ir_space_id r0 = k_space (key r) /\ ir_is_active r0 = true /\
      range_joined w r0) (w_ranges w)). lia.
Qed.

Lemma parsed_wf l : Forall net_wf (parsed l).
Proof.
  apply Forall_forall. intros n (r & _ & Hn)%list_elem_of_omap. by eapply parse_net_wf.
Qed.

Lemma clash_free net l n : clash net l = false -> n ∈ l -> is_v4 n = is_v4 net -> disjoint_nets net n.
Proof.
  unfold clash, disjoint_nets. destruct (net_bounds net) as [ps pe] eqn:E. intros Hc Hn Hv.
  destruct (net_bounds n) as [ts te] eqn:En. cbn [fst snd].
  assert (((ps <=? te) && (ts <=? pe)) = false) as Hno.
  { apply not_true_is_false. intros Ht. apply not_true_iff_false in Hc. apply Hc.
    apply existsb_exists. exists n. rewrite <- list_elem_of_In, En. split; [|done]. by apply list_elem_of_filter. }
  apply andb_false_iff in Hno. rewrite !Z.leb_gt in Hno. lia.
Qed.

(** Reactivation: refused, or the row is active and overlaps nothing. *)
Lemma try_reactivate_spec prev w : Sound w -> within_limit w -> prev ∈ w_ranges w ->
  wp (try_reactivate registry rpki prev) (fun r w' =>
    (r = Ok false /\ same_keys w w') \/
    (r <> Ok false /\ same_refs w w' /\ w_next_range w' = w_next_range w /\
     keys w' = set_act (ir_id prev) true <$> keys w /\
     exists net, parse_net (ir_cidr prev) = Some net /\ free_in w (ir_space_id prev) net)) w.
Proof.
  intros Hs Hl Hp. unfold try_reactivate. destruct (parse_net (ir_cidr prev)) as [net|] eqn:En; [|by left].
  apply wp_bind, wp_gets. destruct (clash _ _) eqn:Ec; [by left|]. apply wp_bind.
  unfold wp at 1. set (w1 := (update_ip_range_subscription _ w).2). cbn [fst].
  assert (keys w1 = set_act (ir_id prev) true <$> keys w) as E1.
  { subst w1. by rewrite update_keys; [|apply Hs|by exists prev]. }
  assert (NoDup (k_id <$> keys w1)) as Hid1 by (rewrite E1, set_act_ids; apply Hs).
  assert (key (set_active prev true None) ∈ keys w1) as Hp1.
  { rewrite E1. apply list_elem_of_fmap. exists (key prev). split; [|by apply key_in].
    unfold set_act. by rewrite decide_True. }
  assert (free_in w (ir_space_id prev) net) as Hfree.
  { intros k Hk Ha Hsp n Hn Hv. eapply clash_free; [exact Ec| |done]. rewrite <- Hsp. by apply active_listed. }
  apply wp_try, wp_gets. destruct (fetch_one _) as [space|e];
    [|right; split_and!; [done|done|done|done|by exists net]].
  apply wp_try.
  assert (same_keys w1 (fulfil_registry registry rpki space (set_active prev true None) w1).2) as Hk.
  { by apply fulfil_registry_keys. }
  unfold wp at 1. destruct (fulfil_registry _ _ _ _ _) as [r w2]. cbn [fst snd] in Hk |- *.
  destruct Hk as (? & ? & ? & E2 & ?).
  assert (same_refs w w2 /\ w_next_range w2 = w_next_range w /\ keys w2 = set_act (ir_id prev) true <$> keys w)
    as (? & ? & ?) by by (split; [split_and!|split; [|rewrite E2]]).
  destruct r as [[]|e]; [apply wp_ret|]; right; (split_and!; [done|done|done|done|by exists net]).
Qed.

(** What a fresh allocation of a configuration is. *)
Definition carved w (li : SubscriptionLineItem) (net : IpNetwork) : Prop :=
  exists j cfg space block, li_configuration li = Some j /\ IpRangeLineItemConfig_from j = Some cfg /\
    space ∈ w_spaces w /\ parse_net (sp_cidr space) = Some block /\
    is_v4 net = is_v4 block /\ prefix net = prefix_size cfg /\
    subnet block (prefix_size cfg) (net_bounds net).1 /\ free_in w (sp_id space) net.

Lemma allocate_fresh_spec li w : Sound w -> within_limit w -> refs_ok w -> li ∈ w_items w ->
  wp (allocate_fresh li) (fun r w' =>
    (is_ok r = false /\ same_keys w w') \/
    (r = Ok tt /\ same_refs w w' /\ w_next_range w' = w_next_range w + 1 /\
     exists k net, keys w' = keys w ++ [k] /\ k_id k = w_next_range w /\ k_li k = li_id li /\
       k_active k = true /\ k_cidr k = show_net net /\ parse_net (k_cidr k) = Some net /\
       free_in w (k_space k) net /\ carved w li net)) w.
Proof.
  intros Hs Hl [Hi Hsp] Hli. unfold allocate_fresh.
  destruct (li_configuration li) as [j|] eqn:Ej; [|by left].
  destruct (IpRangeLineItemConfig_from j) as [cfg|] eqn:Ecfg; [|by left].
  apply wp_try, wp_gets. destruct (fetch_one _) as [space|e] eqn:Esp; [|by left].
  apply fetch_one_in, list_elem_of_filter in Esp as [_ Esp].
  destruct (parse_net (sp_cidr space)) as [block|] eqn:Eb; [|by left].
  apply wp_bind, wp_gets. set (taken := parsed _).
  destruct (allocate_answer block (prefix_size cfg) taken) as (r & -> & Hr).
  { by eapply parse_net_wf. }
  { apply parsed_wf. }
  { by apply (proj1 (Forall_forall _ _) Hsp space). }
  destruct r as [net|]; [|by left]. destruct Hr as (Hwf & Hv & Hpf & Hsub & _ & Hdis & _).
  assert (free_in w (sp_id space) net) as Hfree.
  { intros k Hk Ha Hspace n Hn Hvn. apply Hdis; [|congruence]. subst taken. rewrite <- Hspace.
    by apply active_listed. }
  apply wp_bind. unfold wp at 1. apply wp_bind. unfold wp at 1. cbn [fst snd now].
  apply wp_try. unfold insert_ip_range_subscription. apply wp_bind. unfold wp at 1.
  apply wp_bind, wp_gets. destruct (bool_decide _); [by left|]. right.
  split; [done|]. split; [done|]. split; [done|].
  eexists _, net. split; [exact (fmap_app key (w_ranges w) [_])|]. cbn.
  split_and!; [done|done|done|done|by apply show_parse|done|].
  exists j, cfg, space, block. split_and!; done.
Qed.

(** What a payment does to the allocations of its line item: nothing; or its
    last one is active again; or a new one is carved. *)
Definition reactivated w w' (li : Z) : Prop := exists k net,
  k ∈ keys w /\ k_li k = li /\ w_next_range w' = w_next_range w /\
  keys w' = set_act (k_id k) true <$> keys w /\
  parse_net (k_cidr k) = Some net /\ free_in w (k_space k) net.
Definition newly_carved w w' (li : Z) : Prop := exists i k net,
  i ∈ w_items w /\ li_id i = li /\ w_next_range w' = w_next_range w + 1 /\
  keys w' = keys w ++ [k] /\ k_id k = w_next_range w /\ k_li k = li /\ k_active k = true /\
  k_cidr k = show_net net /\ parse_net (k_cidr k) = Some net /\ free_in w (k_space k) net /\
  carved w i net.
Definition paid_effect (li : Z) w (r : res Fail unit) w' : Prop :=
  (same_keys w w' /\ (r = Ok tt -> exists k, k ∈ keys w /\ k_li k = li /\ k_active k = true)) \/
  (none_active w li /\ same_refs w w' /\
   (reactivated w w' li \/ (r = Ok tt /\ newly_carved w w' li))).

Lemma free_in_same w w1 space net : keys w1 = keys w -> free_in w1 space net -> free_in w space net.
Proof. unfold free_in. by intros ->. Qed.
Lemma carved_same w w1 i net : keys w1 = keys w -> w_spaces w1 = w_spaces w ->
  carved w1 i net -> carved w i net.
Proof. unfold carved, free_in. by intros -> ->. Qed.

Lemma fresh_effect i w w1 : Sound w1 -> within_limit w1 -> refs_ok w1 -> none_active w (li_id i) ->
  i ∈ w_items w -> same_keys w w1 -> wp (allocate_fresh i) (paid_effect (li_id i) w) w1.
Proof.
  intros Hs Hl Hr Hnone Hi Hk. pose proof Hk as (E1 & E2 & E3 & E4 & E5).
  eapply wp_mono; [apply (allocate_fresh_spec i w1); [done|done|done|by rewrite E2]|].
  intros r w' [[Hok Hk']|(-> & (F1 & F2 & F3) & En & k & net & Ek & Eid & Eli & Ha & Es & Ep & Hf & Hc)].
  - left. split; [by etrans|]. by intros ->.
  - right. split; [done|]. split; [split_and!; congruence|]. right. split; [done|].
    exists i, k, net. split_and!; try done; try congruence.
    + by eapply free_in_same.
    + by eapply carved_same.
Qed.

Lemma fulfil_spec li w : Sound w -> within_limit w -> refs_ok w ->
  wp (fulfil_on_payment registry rpki li) (paid_effect li w) w.
Proof.
  intros Hs Hl Href. unfold fulfil_on_payment. apply wp_try, wp_gets.
  destruct (fetch_one _) as [i|e] eqn:Ei; [|by left]. apply fetch_one_in, list_elem_of_filter in Ei as [Eid Hi].
  apply wp_bind, wp_gets. subst li. set (ex := filter _ _).
  destruct (existsb ir_is_active ex) eqn:Ea.
  { left. split; [done|]. intros _. apply existsb_exists in Ea as (r & Hr & Ha).
    rewrite <- list_elem_of_In in Hr. apply list_elem_of_filter in Hr as [Eli Hr].
    exists (key r). split; [by apply key_in|done]. }
  assert (none_active w (li_id i)) as Hnone.
  { intros k (r & Hr & ->)%in_keys Ha Eli. apply not_true_iff_false in Ea. apply Ea, existsb_exists.
    exists r. split; [|done]. rewrite <- list_elem_of_In. by apply list_elem_of_filter. }
  assert (forall w1, same_keys w w1 -> wp (allocate_fresh i) (paid_effect (li_id i) w) w1) as Hfresh.
  { intros w1 Hk. pose proof Hk as (E1 & E2 & E3 & E4 & _). apply fresh_effect; [| | |done|done|done].
    - by eapply Sound_same.
    - unfold within_limit in *. rewrite keys_length in *. by rewrite E4.
    - by apply (same_refs_ok w). }
  destruct (max_by_created ex) as [prev|] eqn:Em; [|by apply Hfresh].
  assert (prev ∈ ex) as Hprev by by apply max_by_created_in. subst ex.
  apply list_elem_of_filter in Hprev as [Epl Hprev].
  apply wp_try. eapply wp_mono; [by apply try_reactivate_spec|].
  intros r w1 [[-> Hk]|(Hr & F & En & Ek & net & Ep & Hf)]; [by apply Hfresh|].
  assert (forall r', paid_effect (li_id i) w r' w1) as Hgoal.
  { intros r'. right. split; [done|]. split; [done|]. left. exists (key prev), net.
    split_and!; try done. by apply key_in. }
  destruct r as [[]|e]; [apply wp_ret| |]; [apply Hgoal|done|apply Hgoal].
Qed.

(** Expiry: the line item's rows become inactive, the others stay. *)
Definition lapse (li : Z) (k : Key) : Key := if decide (k_li k = li) then set_act (k_id k) false k else k.

Lemma deactivate_one_spec ips w : NoDup (k_id <$> keys w) -> stored w ips ->
  (forall k, k ∈ keys w -> k_id k = ir_id ips -> k_active k = ir_is_active ips) ->
  wp (deactivate_one registry rpki ips) (fun _ w' =>
    same_refs w w' /\ w_next_range w' = w_next_range w /\
    keys w' = set_act (ir_id ips) false <$> keys w) w.
Proof.
  intros Hid Hst Hact. unfold deactivate_one. destruct (ir_is_active ips) eqn:Ea.
  - apply wp_bind. eapply wp_mono.
    { apply (keeps_wp _ _ _ (fun _ _ => True) (teardown_tables registry rpki ips)). done. }
    intros _ w1 [_ Ht]. apply wp_bind. unfold wp at 1. set (w2 := (now w1).2).
    assert (same_keys w w2) as Hk by by apply same_tables_keys; etrans; [exact Ht|apply keeps_now].
    pose proof Hk as (E1 & E2 & E3 & E4 & E5). unfold wp. split; [done|]. split; [done|].
    rewrite update_keys; [by rewrite E4|by rewrite E4|].
    apply (stored_same w); [done|]. by destruct Hst as (old & ?); exists old.
  - apply wp_ret. split; [done|]. split; [done|].
    symmetry. apply stored_key in Hst as (k & Hk & E & _). eapply set_act_same; eauto.
Qed.

(** Inactive, for a list of ids. *)
Definition off (ids : list Z) (k : Key) : Key :=
  {| k_id := k_id k; k_li := k_li k; k_space := k_space k; k_cidr := k_cidr k;
     k_active := k_active k && negb (bool_decide (k_id k ∈ ids)) |}.

Lemma off_cons id ids (ks : list Key) : off ids <$> (set_act id false <$> ks) = off (id :: ids) <$> ks.
Proof.
  rewrite <- list_fmap_compose. apply list_fmap_ext. intros _ k _. unfold off, set_act. cbn.
  case_decide as E; cbn; f_equal.
  - rewrite (bool_decide_true (k_id k ∈ id :: ids)) by (rewrite E; by left). by rewrite andb_false_r.
  - f_equal. f_equal. apply bool_decide_ext. rewrite elem_of_cons. naive_solver.
Qed.
Lemma off_nil (ks : list Key) : off [] <$> ks = ks.
Proof.
  rewrite <- (list_fmap_id ks) at 2. apply list_fmap_ext. intros _ k _. unfold off. cbn.
  rewrite andb_true_r. by destruct k.
Qed.

Lemma deactivate_all_spec l w : NoDup (k_id <$> keys w) -> NoDup (ir_id <$> l) ->
  (forall r, r ∈ l -> key r ∈ keys w) ->
  wp (deactivate_all registry rpki l) (fun _ w' =>
    same_refs w w' /\ w_next_range w' = w_next_range w /\
    keys w' = off (ir_id <$> l) <$> keys w) w.
Proof.
  revert w. induction l as [|ips l IH]; intros w Hid Hl Hin; cbn [deactivate_all fmap list_fmap].
  { apply wp_ret. by rewrite off_nil. }
  rewrite fmap_cons, NoDup_cons in Hl. destruct Hl as [Hnew Hl].
  assert (key ips ∈ keys w) as Hips by (apply Hin; by left).
  apply wp_bind. eapply wp_mono.
  - apply deactivate_one_spec; [done| |].
    + apply stored_key. by exists (key ips).
    + intros k Hk E. by rewrite (NoDup_key k_id _ k (key ips) Hid Hk Hips E).
  - intros _ w1 (F1 & E1 & K1). eapply wp_mono.
    + apply IH; [by rewrite K1, set_act_ids|done|]. intros r Hr. rewrite K1.
      apply list_elem_of_fmap. exists (key r). split; [|apply Hin; by right].
      unfold set_act. rewrite decide_False; [done|]. intros E. apply Hnew. rewrite <- E.
      by apply (list_elem_of_fmap_2 ir_id).
    + intros _ w2 (F2 & E2 & K2). destruct F1 as (? & ? & ?), F2 as (? & ? & ?).
      split; [split_and!; congruence|]. split; [congruence|].
      rewrite K2, K1. apply off_cons.
Qed.

Lemma lapse_off li w : NoDup (k_id <$> keys w) ->
  off (k_id <$> filter (fun k => k_li k = li) (keys w)) <$> keys w = lapse li <$> keys w.
Proof.
  intros Hid. apply list_fmap_ext. intros i k Hk%list_elem_of_lookup_2. unfold off, lapse.
  case_decide as Eli.
  - rewrite bool_decide_true; [by rewrite andb_false_r; unfold set_act; rewrite decide_True|].
    apply (list_elem_of_fmap_2 k_id). by apply list_elem_of_filter.
  - rewrite bool_decide_false; [by rewrite andb_true_r; destruct k|].
    intros (k' & E & [Ek Hk']%list_elem_of_filter)%list_elem_of_fmap. apply Eli.
    by rewrite (NoDup_key k_id _ k k' Hid Hk Hk' E).
Qed.

Lemma rows_keys li w :
  ir_id <$> filter (fun r => ir_line_item_id r = li) (w_ranges w) =
  k_id <$> filter (fun k => k_li k = li) (keys w).
Proof.
  unfold keys. induction (w_ranges w) as [|r l IH]; [done|].
  rewrite fmap_cons, !filter_cons. cbn [k_li key]. by case_decide; rewrite ?fmap_cons, IH.
Qed.

Lemma deactivate_spec li w : NoDup (k_id <$> keys w) ->
  wp (deactivate_line_item registry rpki li) (fun _ w' =>
    same_refs w w' /\ w_next_range w' = w_next_range w /\
    keys w' = lapse (li_id li) <$> keys w) w.
Proof.
  intros Hid. unfold deactivate_line_item. apply wp_bind, wp_gets.
  eapply wp_mono; [apply deactivate_all_spec; [done| |]|].
  - apply NoDup_map_filter. by rewrite <- keys_ids.
  - intros r [_ Hr]%list_elem_of_filter. by apply key_in.
  - intros _ w' (F & E & ->). split; [done|]. split; [done|]. by rewrite rows_keys, lapse_off.
Qed.

Lemma off_sound ids w w' : same_refs w w' -> w_next_range w' = w_next_range w ->
  keys w' = off ids <$> keys w -> Sound w -> Sound w'.
Proof.
  revert w. induction ids as [|id ids IH]; intros w (E1 & E2 & E3) En Ek Hs.
  - rewrite off_nil in Ek. apply (Sound_same w); [by split_and!|done].
  - rewrite <- off_cons in Ek.
    set (w1 := set_ranges (map (fun r => if decide (ir_id r = id) then set_active r false None else r)) w).
    assert (keys w1 = set_act id false <$> keys w) as Ek1.
    { unfold keys. cbn. rewrite <- !list_fmap_compose. apply list_fmap_ext. intros _ r _. cbn.
      unfold set_act. cbn. case_decide; done. }
    apply (IH w1); [exact (conj E1 (conj E2 E3))|exact En|by rewrite Ek1|]. by apply (deactivate_sound w w1 id).
Qed.

Lemma reactivated_sound w w' li : Sound w -> none_active w li -> same_refs w w' ->
  reactivated w w' li -> Sound w'.
Proof.
  intros Hs Hn (E1 & E2 & _) (k & net & Hk & <- & En & Ek & Hp & Hf).
  by apply (activate_sound w w' k net).
Qed.

Lemma carved_sound w w' li : Sound w -> refs_ok w -> none_active w li -> same_refs w w' ->
  newly_carved w w' li -> Sound w'.
Proof.
  intros Hs [Hi _] Hn (E1 & E2 & _) (i & k & net & Hin & <- & En & Ek & Eid & Eli & _ & _ & Hp & Hf & _).
  apply (insert_sound w w' k net); try done; [|by rewrite Eli].
  unfold joined_key. apply Exists_exists. exists i. split; [done|]. split; [done|].
  by apply (proj1 (Forall_forall _ _) Hi i).
Qed.

Lemma paid_sound li w r w' : Sound w -> refs_ok w -> paid_effect li w r w' -> Sound w' /\ refs_ok w' /\
  (length (w_ranges w') <= S (length (w_ranges w)))%nat.
Proof.
  intros Hs Hr [[Hk _]|(Hn & F & Heff)].
  - split; [by eapply Sound_same|]. destruct Hk as (? & ? & ? & E & _).
    split; [by apply (same_refs_ok w)|]. rewrite !keys_length, E. lia.
  - split; [|split; [by apply (same_refs_ok w)|]]; destruct Heff as [Heff|[_ Heff]].
    + by eapply reactivated_sound.
    + by eapply carved_sound.
    + destruct Heff as (k & net & _ & _ & _ & E & _). rewrite !keys_length, E, length_fmap. lia.
    + destruct Heff as (i & k & net & _ & _ & _ & E & _). rewrite !keys_length, E, length_app. cbn. lia.
Qed.

Lemma allocate_on_payment_spec li w : Sound w -> within_limit w -> refs_ok w ->
  wp (allocate_on_payment registry rpki li) (paid_effect li w) w.
Proof.
  intros Hs Hl Hr. unfold allocate_on_payment. apply wp_bind. eapply wp_mono; [by apply fulfil_spec|].
  intros r w1 Hp. apply wp_bind. unfold wp at 1. apply wp_ret.
  exact Hp.
Qed.

Lemma configure_spec id asn w : NoDup (k_id <$> keys w) ->
  same_keys w (configure_origin_asn registry rpki id asn w).2.
Proof.
  intros Hid. refine (_ : wp _ (fun _ w' => same_keys w w') w). unfold configure_origin_asn.
  apply wp_try, wp_gets. destruct (fetch_one _) as [ips|e] eqn:Ei; [|done].
  apply fetch_one_in, list_elem_of_filter in Ei as [_ Hi]. apply key_in in Hi.
  destruct (bool_decide _); [done|]. apply wp_bind.
  eapply wp_mono; [apply (keeps_wp _ _ _ (fun _ _ => True) (teardown_tables registry rpki ips)); done|].
  intros _ w1 [_ E1%same_tables_keys]. apply wp_try, wp_gets. destruct (fetch_one _) as [space|e]; [|done].
  apply wp_bind. unfold wp at 1. set (w2 := (update_ip_range_subscription _ w1).2).
  assert (same_keys w w2) as E2.
  { etrans; [exact E1|]. destruct E1 as (_ & _ & _ & E1 & _). apply save_registry_keys; by rewrite E1. }
  cbn [fst]. pose proof E2 as (_ & _ & _ & K2 & _). unfold wp. etrans; [exact E2|].
  apply fulfil_registry_keys; by rewrite K2.
Qed.

(** Payments, expiries and changes of the origin, in any order. *)
Inductive Op : Type := Pay (line_item : Z) | Expire (line_item : SubscriptionLineItem)
| Configure (id : Z) (asn : option Z).
Definition run_op (o : Op) : ST World unit :=
  match o with
  | Pay li => _ ← allocate_on_payment registry rpki li; mret tt
  | Expire li => deactivate_line_item registry rpki li
  | Configure id asn => _ ← configure_origin_asn registry rpki id asn; mret tt
  end.
Fixpoint run_ops (l : list Op) : ST World unit :=
  match l with
  | [] => mret tt
  | o :: l => run_op o;; run_ops l
  end.

Lemma op_sound o w : Sound w -> refs_ok w -> within_limit w ->
  let w' := (run_op o w).2 in
  Sound w' /\ refs_ok w' /\ (length (w_ranges w') <= S (length (w_ranges w)))%nat.
Proof.
  intros Hs Hr Hl. destruct o as [li|li|id asn]; cbn [run_op].
  - rewrite bind_run. cbn [snd mret ST_ret]. eapply paid_sound; [done|done|].
    exact (allocate_on_payment_spec li w Hs Hl Hr).
  - destruct (deactivate_spec li w (so_ids w Hs)) as (F & En & Ek).
    assert (keys (deactivate_line_item registry rpki li w).2 = _) as Ek' by (rewrite Ek; symmetry; by apply lapse_off, Hs).
    split; [by eapply off_sound|]. split; [by apply (same_refs_ok w)|].
    rewrite !keys_length, Ek, length_fmap. lia.
  - rewrite bind_run. cbn [snd mret ST_ret]. pose proof (configure_spec id asn w (so_ids w Hs)) as Hk.
    split; [by eapply Sound_same|]. destruct Hk as (? & ? & ? & E & _).
    split; [by apply (same_refs_ok w)|]. rewrite !keys_length, E. lia.
Qed.

Lemma run_sound l w : Sound w -> refs_ok w ->
  Z.of_nat (length (w_ranges w) + length l) <= 100000 -> Sound (run_ops l w).2.
Proof.
  revert w. induction l as [|o l IH]; intros w Hs Hr Hl; [done|]. cbn [run_ops length] in *.
  destruct (op_sound o w Hs Hr) as (Hs' & Hr' & Hlen); [unfold within_limit; lia|].
  rewrite bind_run. apply IH; [done|done|lia].
Qed.

(** C16: address space is never sold twice: over any payments, expiries and
    changes of the origin, in any order and whatever the registry, the RPKI
    service and the queue answer, the active allocations of a space stay
    disjoint, a line item keeps at most one, and every allocation belongs to a
    line item of a subscription. *)
Theorem allocations_sound l w (Hs : Sound w) (Hr : refs_ok w)
    (Hl : Z.of_nat (length (w_ranges w) + length l) <= 100000) :
  Sound (run_ops l w).2.
Proof. by apply run_sound. Qed.

(** What a payment for address space does: an active allocation is left as
    it is; a payment that is fulfilled leaves the line item with exactly one
    active allocation, which was active before, is one it held before with the
    same text, or is a free subnet of the configured block with the configured
    length; nobody else's allocation changes. *)
Theorem paid_range_allocated li w r w' (Hs : Sound w) (Hr : refs_ok w) (Hl : within_limit w)
    (Hrun : allocate_on_payment registry rpki li w = (r, w')) :
  (forall k, k ∈ keys w -> k_li k = li -> k_active k = true -> keys w' = keys w) /\
  (forall k, k ∈ keys w -> k_li k <> li -> k ∈ keys w') /\
  (r = Ok tt -> exists k, k ∈ keys w' /\ k_li k = li /\ k_active k = true /\
    (forall k', k' ∈ keys w' -> k_li k' = li -> k_active k' = true -> k' = k) /\
    (k ∈ keys w \/
     (exists k0, k0 ∈ keys w /\ k_li k0 = li /\ k = set_act (k_id k0) true k0) \/
     (exists i net, i ∈ w_items w /\ li_id i = li /\ k_cidr k = show_net net /\ carved w i net))).
Proof.
  pose proof (wp_run _ _ _ _ _ (allocate_on_payment_spec li w Hs Hl Hr) Hrun) as He.
  destruct (paid_sound li w r w' Hs Hr He) as (Hs' & _ & _).
  assert (forall k, k ∈ keys w' -> k_li k = li -> k_active k = true ->
    forall k', k' ∈ keys w' -> k_li k' = li -> k_active k' = true -> k' = k) as Huniq.
  { intros k Hk El Ea k' Hk' El' Ea'. apply (NoDup_key k_id _ k' k (so_ids w' Hs') Hk' Hk).
    apply (so_one w' Hs' k' k); [done|done|done|done|congruence]. }
  destruct He as [[(_ & _ & _ & E & _) Hex]|(Hn & _ & [(k & net & Hk & Eli & _ & E & _)|
      (-> & i & k & net & Hi & Ei & _ & E & _ & Eli & Ea & Ec & _ & _ & Hc)])]; rewrite E in *.
  - split; [done|]. split; [done|]. intros Hok. destruct (Hex Hok) as (k & Hk & El & Ea).
    exists k. split_and!; eauto.
  - split; [intros k1 Hk1 El Ea; by destruct (Hn k1)|]. split.
    + intros k1 Hk1 Hne. apply list_elem_of_fmap. exists k1. split; [|done].
      unfold set_act. rewrite decide_False; [done|]. intros Eid. apply Hne.
      by rewrite (NoDup_key k_id _ k1 k (so_ids w Hs) Hk1 Hk Eid).
    + intros _. exists (set_act (k_id k) true k).
      assert (set_act (k_id k) true k ∈ set_act (k_id k) true <$> keys w) as Hin by by apply list_elem_of_fmap_2.
      assert (k_active (set_act (k_id k) true k) = true) as Ha by (unfold set_act; by rewrite decide_True).
      split_and!; [done|by rewrite set_act_li|done| |right; left; by exists k].
      apply Huniq; [done|by rewrite set_act_li|done].
  - split; [intros k1 Hk1 El Ea'; by destruct (Hn k1)|].
    split; [intros k1 Hk1 _; apply elem_of_app; by left|]. intros _. exists k.
    assert (k ∈ keys w ++ [k]) as Hin by (apply elem_of_app; right; by left).
    split_and!; [done|done|done|by apply Huniq|right; right; by exists i, net].
Qed.

(** On expiry exactly the line item's allocations become inactive, also
    when the registry cannot be reached. *)
Theorem expiry_frees_range li w w' (Hs : Sound w)
    (Hrun : (deactivate_line_item registry rpki li w).2 = w') :
  Sound w' /\ keys w' = lapse (li_id li) <$> keys w.
Proof.
  subst w'. destruct (deactivate_spec li w (so_ids w Hs)) as (F & En & Ek). split; [|done].
  eapply off_sound; [exact F|done| |done]. rewrite Ek. symmetry. by apply lapse_off, Hs.
Qed.
End operations.

(** ** The registry *)

Section registry_calls.
Context `{NL : !NetLib, LAWS : !NetLaws, !NetShow, !RegistryRef, !Clock, !Remote}.
Context (registry rpki : bool).
Implicit Types w : World.

(** The call that takes back what a call published. *)
Definition withdrawal (c : Call) : option Call :=
  match c with
  | CreateRoute o => Some (DeleteRoute o)
  | AddRoa r => Some (RemoveRoa {| roa_origin_asn := roa_origin_asn r; roa_prefix := roa_prefix r;
                                   roa_max_length := Some (effective_max_length r) |})
  | _ => None
  end.
(** What a fulfilment publishes, and the metadata it keeps of it. *)
Definition route_calls (space : AvailableIpSpace) (net : IpNetwork) (asn : Z) : list Call :=
  match registry, space_maintainer space with
  | true, Some mnt => [CreateRoute {| ro_prefix := net; ro_origin_asn := asn; ro_maintainer := mnt |}]
  | _, _ => []
  end.
Definition roa_calls (net : IpNetwork) (asn : Z) : list Call :=
  if rpki then [AddRoa {| roa_origin_asn := asn; roa_prefix := net; roa_max_length := None |}] else [].

Definition route_meta (space : AvailableIpSpace) (n : nat) : list (string * Json) :=
  match registry, space_maintainer space with
  | true, Some mnt => [("route_object_ref", JString (ref_of n)); ("maintainer", JString mnt)]
  | _, _ => []
  end.
Definition roa_meta (net : IpNetwork) (meta : list (string * Json)) : list (string * Json) :=
  if rpki then meta ++ [("roa_max_length", JNumber (prefix net))] else meta.

Lemma fulfil_route_run space net asn w meta w1 :
  fulfil_route registry space net asn w = (Ok meta, w1) ->
  meta = route_meta space (length (w_calls w)) /\ w_ranges w1 = w_ranges w /\
  (w_calls w1).*1 = (w_calls w).*1 ++ route_calls space net asn.
Proof.
  unfold fulfil_route, route_meta, route_calls. destruct registry; [|intros [= <- <-]; by rewrite app_nil_r].
  destruct (space_maintainer space) as [mnt|]; [|intros [= <- <-]; by rewrite app_nil_r].
  unfold try_bind, call_, call. rewrite !bind_run. cbn [db gets fst snd].
  destruct (outcome _); cbn [fst snd mret ST_ret]; [|done]. intros [= <- <-].
  split; [done|]. split; [done|]. exact (fmap_app fst (w_calls w) [_]).
Qed.

Lemma fulfil_roa_run net asn meta w meta' w1 : (filter (fun e => e.1 <> "roa_max_length") meta = meta) ->
  fulfil_roa rpki net asn meta w = (Ok meta', w1) ->
  meta' = roa_meta net meta /\ w_ranges w1 = w_ranges w /\
  (w_calls w1).*1 = (w_calls w).*1 ++ roa_calls net asn.
Proof.
  intros Hf. unfold fulfil_roa, roa_meta, roa_calls. destruct rpki; [|intros [= <- <-]; by rewrite app_nil_r].
  unfold try_bind, call_, call. rewrite !bind_run. cbn [fst snd].
  destruct (outcome _); cbn [fst snd mret ST_ret]; [|done]. intros [= <- <-].
  split; [unfold json_insert; by rewrite Hf|]. split; [done|]. exact (fmap_app fst (w_calls w) [_]).
Qed.

Lemma fulfil_run space ips asn net w w1 : ir_origin_asn ips = Some asn -> parse_net (ir_cidr ips) = Some net ->
  fulfil_registry registry rpki space ips w = (Ok tt, w1) ->
  w1.(w_calls).*1 = w.(w_calls).*1 ++ route_calls space net asn ++ roa_calls net asn /\
  w_ranges w1 = map (fun old => if decide (ir_id old = ir_id ips)
    then write_range (set_registry ips (Some asn)
      (Some (JObject (roa_meta net (route_meta space (length (w_calls w))))))) old else old) (w_ranges w).
Proof.
  intros Ea En. unfold fulfil_registry. rewrite Ea, En. unfold try_bind at 1. rewrite bind_run.
  destruct (fulfil_route _ _ _ _ w) as [[meta|e] w2] eqn:E1; cbn [fst snd]; [|done].
  apply fulfil_route_run in E1 as (-> & R1 & C1).
  unfold try_bind at 1. rewrite bind_run.
  destruct (fulfil_roa _ _ _ _ w2) as [[meta'|e] w3] eqn:E2; cbn [fst snd]; [|done].
  apply fulfil_roa_run in E2 as (-> & R2 & C2).
  2: { unfold route_meta. destruct registry; [destruct (space_maintainer space)|]; done. }
  rewrite bind_run. cbn [fst snd mret ST_ret]. intros [= <-]. cbn [w_calls w_ranges].
  cbn. rewrite C2, C1, R2, R1, <- app_assoc. done.
Qed.

(** The entries of the metadata, read back. *)
Definition saved_meta (space : AvailableIpSpace) (net : IpNetwork) (n : nat) : Json :=
  JObject (roa_meta net (route_meta space n)).
Lemma saved_maintainer space net n :
  json_get "maintainer" (saved_meta space net n) ≫= as_str =
    (if registry then space_maintainer space else None) /\
  (is_Some (json_get "route_object_ref" (saved_meta space net n)) <->
   registry = true /\ is_Some (space_maintainer space)).
Proof.
  unfold saved_meta, roa_meta, route_meta.
  destruct registry, (space_maintainer space) as [mnt|], rpki; cbn; split; try done;
    split; try (by intros [? [=]]); try (by intros [? [? [=]]]); eauto.
Qed.
Lemma saved_length space net n : 0 <= prefix net < 2 ^ 64 ->
  json_get "roa_max_length" (saved_meta space net n) ≫= as_uint 64 =
    if rpki then Some (prefix net) else None.
Proof.
  intros Hp. unfold saved_meta, roa_meta, route_meta.
  assert (as_uint 64 (JNumber (prefix net)) = Some (prefix net)) as E.
  { unfold as_uint. by rewrite (proj2 (Z.leb_le _ _)), (proj2 (Z.ltb_lt _ _)) by lia. }
  destruct registry, (space_maintainer space) as [mnt|], rpki; cbn -[as_uint]; done.
Qed.

Lemma teardown_run r asn net space n w : ir_origin_asn r = Some asn -> parse_net (ir_cidr r) = Some net ->
  ir_metadata r = Some (saved_meta space net n) ->
  (w_calls (teardown_registry registry rpki r w).2).*1 =
    (w_calls w).*1 ++ omap withdrawal (route_calls space net asn ++ roa_calls net asn).
Proof.
  intros Ea En Em. unfold teardown_registry. rewrite Ea, En, Em.
  pose proof (parse_net_wf _ _ En) as [_ Hp].
  assert (0 <= prefix net <= 128) as Hp' by (destruct (is_v4 net); cbn in Hp; lia).
  destruct (saved_maintainer space net n) as [-> Href].
  rewrite saved_length by lia. unfold route_calls, roa_calls.
  assert (wrap 8 (prefix net) = prefix net) as Ew by (apply wrap_small; unfold fits; lia).
  rewrite bind_run.
  destruct registry; [destruct (space_maintainer space) as [mnt|] eqn:Es|].
  - destruct (proj2 Href) as [v ->]; [done|]. rewrite bind_run. cbn [snd call mret ST_ret push_call w_calls].
    destruct rpki; [rewrite bind_run|]; cbn [snd call mret ST_ret push_call w_calls app omap list_omap withdrawal];
      rewrite ?Ew, !fmap_app; cbn; by rewrite <- ?app_assoc.
  - destruct rpki; [rewrite bind_run|]; cbn [snd call mret ST_ret push_call w_calls app omap list_omap withdrawal];
      rewrite ?Ew, ?fmap_app; cbn; by rewrite ?app_nil_r.
  - destruct rpki; [rewrite bind_run|]; cbn [snd call mret ST_ret push_call w_calls app omap list_omap withdrawal];
      rewrite ?Ew, ?fmap_app; cbn; by rewrite ?app_nil_r.
Qed.

(** C38: what was published is withdrawn: once the registry objects of an
    allocation have been created and saved, tearing the saved row down asks for
    the deletion of exactly these, the ROA with the length it was published
    with. *)
Theorem published_is_withdrawn space ips asn w w1 r (Hasn : ir_origin_asn ips = Some asn)
    (Hrun : fulfil_registry registry rpki space ips w = (Ok tt, w1))
    (Hr : r ∈ w_ranges w1) (Hid : ir_id r = ir_id ips) :
  calls_between w1 (teardown_registry registry rpki r w1).2 = omap withdrawal (calls_between w w1).
Proof.
  destruct (parse_net (ir_cidr ips)) as [net|] eqn:En.
  2: { unfold fulfil_registry in Hrun. by rewrite Hasn, En in Hrun. }
  destruct (fulfil_run space ips asn net w w1 Hasn En Hrun) as [Hc Hrows].
  rewrite (calls_between_app w w1 _ Hc). apply calls_between_app.
  rewrite Hrows in Hr. apply list_elem_of_In, in_map_iff in Hr as (old & <- & _).
  destruct (decide (ir_id old = ir_id ips)) as [E|E]; [|done].
  by apply (teardown_run _ asn net space (length (w_calls w))).
Qed.

Lemma fulfil_err space ips w e w1 : fulfil_registry registry rpki space ips w = (Err e, w1) ->
  w_ranges w1 = w_ranges w.
Proof.
  unfold fulfil_registry. destruct (ir_origin_asn ips) as [asn|]; [|done].
  destruct (parse_net (ir_cidr ips)) as [net|]; [|by intros [= _ <-]].
  unfold try_bind at 1. rewrite bind_run. pose proof (fulfil_route_tables registry space net asn w) as (_ & _ & _ & E1 & _).
  destruct (fulfil_route registry space net asn w) as [[meta|e1] w2]; cbn [fst snd] in *; [|by intros [= _ <-]].
  unfold try_bind at 1. rewrite bind_run. pose proof (fulfil_roa_tables rpki net asn meta w2) as (_ & _ & _ & E2 & _).
  destruct (fulfil_roa rpki net asn meta w2) as [[meta'|e2] w3]; cbn [fst snd] in *; [done|].
  intros [= _ <-]. congruence.
Qed.

(** Finding. When the registry refuses the objects of a new origin ASN, the
    ASN has been stored already: asking again reports success at once, without a
    call, and the allocation stays without route object and ROA. *)
Theorem failed_asn_not_retried id asn w w1
    (Hrun : configure_origin_asn registry rpki id (Some asn) w = (Err Refused, w1)) :
  configure_origin_asn registry rpki id (Some asn) w1 = (Ok tt, w1) /\
  exists r, r ∈ w_ranges w1 /\ ir_id r = id /\ ir_origin_asn r = Some asn /\ ir_metadata r = None.
Proof.
  unfold configure_origin_asn, try_bind at 1 in Hrun. rewrite bind_run in Hrun.
  unfold get_ip_range_subscription, db, gets in Hrun. cbn [fst snd] in Hrun.
  destruct (fetch_one (filter (fun r => ir_id r = id) (w_ranges w))) as [ips|e] eqn:Ei;
    [|unfold fetch_one, ok_or in Ei; destruct (head _); simplify_eq].
  case_bool_decide as Ea; [done|]. rewrite bind_run in Hrun.
  pose proof (teardown_tables registry rpki ips w) as (_ & _ & _ & Et & _).
  set (w2 := (teardown_registry registry rpki ips w).2) in *.
  unfold try_bind at 1, get_available_ip_space, db, gets in Hrun. rewrite bind_run in Hrun. cbn [fst snd] in Hrun.
  destruct (fetch_one (filter (fun s => sp_id s = ir_space_id ips) (w_spaces w2))) as [space|e] eqn:Es;
    [|unfold fetch_one, ok_or in Es; destruct (head _); simplify_eq].
  rewrite bind_run in Hrun. apply fulfil_err in Hrun. cbn in Hrun. rewrite Et in Hrun.
  assert (exists f, w_ranges w1 = map f (w_ranges w) /\ (forall r, ir_id (f r) = ir_id r) /\
    ir_origin_asn (f ips) = Some asn /\ ir_metadata (f ips) = None) as (f & Ew & Hf & Hfa & Hfm).
  { eexists. split; [exact Hrun|]. cbn beta. split; [intros r; by case_decide|].
    by rewrite decide_True. }
  assert (ips ∈ w_ranges w /\ ir_id ips = id) as [Hin Hid].
  { apply fetch_one_in in Ei. by apply list_elem_of_filter in Ei as [? ?]. }
  split; [|exists (f ips); split_and!; [rewrite Ew; by apply (list_elem_of_fmap_2 f)|by rewrite Hf|done|done]].
  unfold configure_origin_asn, try_bind, get_ip_range_subscription, db, gets. rewrite bind_run. cbn [fst snd].
  assert (fetch_one (filter (fun r => ir_id r = id) (w_ranges w1)) = Ok (f ips)) as ->.
  { rewrite Ew. clear - Ei Hf. unfold fetch_one in *. induction (w_ranges w) as [|r l IH]; [done|].
    cbn [map]. rewrite filter_cons in *. rewrite Hf. case_decide; [|by apply IH]. cbn in *. by simplify_eq. }
  by rewrite bool_decide_true.
Qed.

(** Finding. Free subnets are searched among active allocations, but the
    texts of all rows, lapsed ones too, are unique in the table: when the lowest
    free subnet is one that lapsed, a new customer's payment fails with a
    duplicate key and leaves everything as it was, so that the next one fails in
    the same way, however much of the block is free. *)
Theorem lapsed_range_blocks_space li i j cfg space block net old w
    (Hi : get_subscription_line_item li w = (Ok i, w))
    (Hnone : Forall (fun r => ir_line_item_id r <> li_id i) (w_ranges w))
    (Hj : li_configuration i = Some j) (Hcfg : IpRangeLineItemConfig_from j = Some cfg)
    (Hsp : get_available_ip_space (available_ip_space_id cfg) w = (Ok space, w))
    (Hb : parse_net (sp_cidr space) = Some block)
    (Hnet : allocate_subnet block (prefix_size cfg) (parsed (active_ranges (sp_id space) 100000 w)) =
      Some (Some net))
    (Hold : old ∈ w_ranges w) (Hoff : ir_is_active old = false) (Hc : ir_cidr old = show_net net) :
  (allocate_on_payment registry rpki li w).1 = Err Duplicate /\
  same_tables w (allocate_on_payment registry rpki li w).2.
Proof.
  assert (exists w1, fulfil_on_payment registry rpki li w = (Err Duplicate, w1) /\ same_tables w w1)
    as (w1 & E & Hw).
  { unfold fulfil_on_payment, try_bind at 1. rewrite bind_run, Hi. cbn [fst snd].
    unfold list_ip_range_subscriptions_by_line_item, db, gets. rewrite bind_run. cbn [fst snd].
    assert (filter (fun r => ir_line_item_id r = li_id i) (w_ranges w) = []) as ->.
    { clear - Hnone. induction Hnone; [done|]. by rewrite filter_cons, decide_False. }
    cbn [existsb max_by_created foldl]. unfold allocate_fresh. rewrite Hj, Hcfg.
    unfold try_bind at 1. rewrite bind_run, Hsp. cbn [fst snd]. rewrite Hb, bind_run.
    unfold list_ip_range_subscriptions_by_space_paginated, db, gets. cbn [fst snd]. rewrite Hnet.
    rewrite !bind_run. unfold try_bind. rewrite bind_run. unfold insert_ip_range_subscription, db, gets.
    rewrite !bind_run. cbn [fst snd ir_cidr]. unfold sql_now. rewrite !bind_run. cbn [fst snd now].
    rewrite bool_decide_true; [|rewrite <- Hc; by apply (list_elem_of_fmap_2 ir_cidr)].
    eexists. split; [reflexivity|done]. }
  unfold allocate_on_payment. rewrite !bind_run, E. cbn [fst snd mret ST_ret]. split; [done|].
  etrans; [exact Hw|apply keeps_call].
Qed.
End registry_calls.
