(* ===== verification/IpProvWitness.v ===== *)
(** * Address-space subscriptions: the theorems at concrete worlds

    [IpNetwork]'s [Display] is written out and proved to be read back by the
    reference parser, which the witnesses need. *)

From Stdlib Require Import Ascii String.
From stdpp Require Import list_numbers.
From S2P Require Import Prelude NetText IpAlloc Network HostTypes SubDb IpProvision IpProvisionProofs.

(** ** The theorems at a concrete space *)
Module ProvWitness.
Import RefNet.

Definition slashless (s : list ascii) : Prop := Forall (fun c => c <> "/"%char) s.
Lemma digit_slashless d : 0 <= d < 10 -> digit d <> "/"%char.
Proof.
  intros Hd E. assert (In d [0; 1; 2; 3; 4; 5; 6; 7; 8; 9]) as Hin by (cbn; lia).
  cbn in Hin. repeat destruct Hin as [<-|Hin]; done.
Qed.
Lemma hex_slashless d : 0 <= d < 16 -> hex_digit d <> "/"%char.
Proof.
  intros Hd E. assert (In d [0; 1; 2; 3; 4; 5; 6; 7; 8; 9; 10; 11; 12; 13; 14; 15]) as Hin by (cbn; lia).
  cbn in Hin. repeat destruct Hin as [<-|Hin]; done.
Qed.
(** The places of a number are digits. *)
Ltac place_tac :=
  first [ lia | apply Z.mod_pos_bound; lia
        | split; [apply Z.div_pos; lia|apply Z.div_lt_upper_bound; lia] ].

Lemma octet_slashless n : 0 <= n < 256 -> slashless (show_octet n).
Proof.
  intros Hn. unfold show_octet, slashless.
  destruct (Z.ltb_spec n 10); [|destruct (Z.ltb_spec n 100)];
    repeat (apply Forall_nil_2 || (apply Forall_cons_2; [apply digit_slashless|])); place_tac.
Qed.
Lemma show_hex_slashless g : 0 <= g < 65536 -> slashless (show_hex g).
Proof.
  intros Hg. unfold show_hex, slashless.
  destruct (Z.ltb_spec g 16); [|destruct (Z.ltb_spec g 256); [|destruct (Z.ltb_spec g 4096)]];
    repeat (apply Forall_nil_2 || (apply Forall_cons_2; [apply hex_slashless|])); place_tac.
Qed.
Lemma dotted_slashless a : slashless (dotted a).
Proof.
  assert (forall x r, slashless r -> slashless (show_octet (x mod 256) ++ r)) as Hrest.
  { intros x r Hr. apply Forall_app. split; [|done]. apply octet_slashless, Z.mod_pos_bound. lia. }
  unfold dotted. do 3 (apply Hrest, Forall_cons_2; [done|]).
  rewrite <- (app_nil_r (show_octet (a mod 256))). apply Hrest, Forall_nil_2.
Qed.
Lemma tail_slashless gs : Forall (fun g => 0 <= g < 65536) gs -> slashless (fmt_tail gs).
Proof.
  unfold fmt_tail, slashless. induction 1 as [|g gs Hg _ IH]; [constructor|].
  rewrite bind_cons. constructor; [done|]. apply Forall_app. split; [by apply show_hex_slashless|done].
Qed.
Lemma slice_slashless gs : Forall (fun g => 0 <= g < 65536) gs -> slashless (fmt_subslice gs).
Proof.
  destruct 1 as [|g gs Hg Hgs]; [constructor|]. cbn [fmt_subslice]. apply Forall_app.
  split; [by apply show_hex_slashless|by apply tail_slashless].
Qed.
Lemma v6_slashless a : slashless (fmt_v6 a).
Proof.
  unfold fmt_v6. destruct (_ =? _); [apply Forall_app; split; [by repeat constructor|apply dotted_slashless]|].
  assert (Forall (fun g => 0 <= g < 65536) (segments a)) as Hs.
  { apply Forall_fmap. repeat constructor; cbn; apply Z.mod_pos_bound; lia. }
  destruct (zero_span _ _ _ _) as [start len]. destruct (1 <? len)%nat; [|by apply slice_slashless].
  apply Forall_app. split; [by apply slice_slashless, Forall_take|].
  constructor; [done|]. constructor; [done|]. by apply slice_slashless, Forall_drop.
Qed.

(** ["{addr}/{prefix}"] *)
Definition addr_chars (n : IpNetwork) : list ascii :=
  if is_v4 n then dotted (ip n) else fmt_v6 (ip n).
#[export] Instance ref_show : NetShow := fun n =>
  String.string_of_list_ascii (addr_chars n ++ "/"%char :: show_octet (prefix n)).

Lemma split_at_slash a p : slashless a ->
  split_slash (String.string_of_list_ascii (a ++ "/"%char :: p)) = (a, Some p).
Proof.
  intros Ha. unfold split_slash. rewrite String.list_ascii_of_string_of_list_ascii.
  rewrite list_find_app_r by by apply list_find_None.
  cbn [list_find]. rewrite decide_True by done. cbn.
  rewrite take_app_length. f_equal. f_equal.
  change ("/"%char :: p) with (["/"%char] ++ p). rewrite app_assoc.
  by rewrite drop_app_length' by (rewrite length_app; cbn; lia).
Qed.

Lemma prefix_read p : 0 <= p <= 128 -> read_number 8 10 3 true (show_octet p) = Some (p, []).
Proof.
  intros Hp. assert (Forall (fun p => read_number 8 10 3 true (show_octet p) = Some (p, [])) (seqZ 0 129)) as Hall.
  { apply (bool_decide_unpack _). by vm_compute. }
  apply (proj1 (Forall_forall _ _) Hall). apply elem_of_seqZ. lia.
Qed.

Lemma show_parse n : net_wf n -> parse_net (show_net n) = Some n.
Proof.
  intros [Hi Hp]. assert (0 <= prefix n <= 128) as Hp' by (destruct (is_v4 n); cbn in Hp; lia).
  unfold parse_net, ref_netlib, ref_parse, show_net, ref_show.
  rewrite split_at_slash by (unfold addr_chars; destruct (is_v4 n); [apply dotted_slashless|apply v6_slashless]).
  pose proof (parse_show {| a_v4 := is_v4 n; a_bits := ip n |}) as Hps. unfold show_ip in Hps. cbn [a_v4 a_bits] in Hps.
  unfold addr_chars. rewrite Hps by done. cbn [mbind option_bind a_v4 a_bits]. rewrite prefix_read by done.
  cbn [mbind option_bind].
  rewrite !(proj2 (Z.leb_le _ _)) by lia. rewrite (proj2 (Z.ltb_lt _ _)) by lia. cbn. by destruct n.
Qed.

#[export] Instance refs : RegistryRef := fun _ => "route".
#[export] Instance seconds : Clock := fun n => Z.of_nat n * SEC.
Definition all_ok : Remote := fun _ => true.
Definition all_refused : Remote := fun _ => false.

Definition sub (id : Z) : Subscription :=
  {| s_id := id; s_user_id := id; s_company_id := 1; s_name := "range"; s_description := None;
     s_created := 0; s_expires := None; s_is_active := true; s_is_setup := true; s_currency := "EUR";
     s_interval_amount := 1; s_interval_type := Month; s_setup_fee := 0;
     s_auto_renewal_enabled := false; s_external_id := None |}.
Definition config : Json :=
  JObject [("available_ip_space_id", JNumber 1); ("prefix_size", JNumber 26)].
Definition item (id : Z) : SubscriptionLineItem :=
  {| li_id := id; li_subscription_id := id; li_type := IpRangeType; li_name := "range";
     li_description := None; li_amount := 100; li_setup_amount := 0; li_configuration := Some config |}.
Definition space1 : AvailableIpSpace :=
  {| sp_id := 1; sp_cidr := "10.0.0.0/24"; sp_metadata := Some (JObject [("maintainer", JString "MNT")]) |}.
Definition range1 (active : bool) (asn : option Z) : IpRangeSubscription :=
  {| ir_id := 1; ir_line_item_id := 1; ir_space_id := 1; ir_created := 0; ir_cidr := "10.0.0.0/26";
     ir_origin_asn := asn; ir_is_active := active; ir_started_at := 0; ir_ended_at := None;
     ir_metadata := None |}.
(** Two customers of a /24; the first one has its first /26. *)
Definition world (active : bool) (asn : option Z) : World :=
  {| w_subs := [sub 1; sub 2]; w_items := [item 1; item 2]; w_payments := []; w_vms := [];
     w_history := []; w_spaces := [space1]; w_ranges := [range1 active asn]; w_methods := [];
     w_next_range := 2; w_last_subs := None; w_last_vms := None; w_calls := []; w_reads := 0; w_reported := [] |}.

Lemma world_sound active asn : Sound (world active asn).
Proof.
  split.
  - apply NoDup_singleton.
  - by repeat constructor.
  - constructor; [|constructor]. left. split; [done|]. by left.
  - by intros k1 k2 ->%list_elem_of_singleton ->%list_elem_of_singleton _ _ _ [].
  - by intros k1 k2 ->%list_elem_of_singleton ->%list_elem_of_singleton.
Qed.
Lemma world_refs active asn : refs_ok (world active asn).
Proof.
  split.
  - apply (bool_decide_unpack _). by vm_compute.
  - constructor; [|constructor]. intros b Hb. vm_compute in Hb. injection Hb as <-. by vm_compute.
Qed.

Definition busy : list Op := [Pay 2; Expire (item 1); Configure 2 (Some 64500); Pay 1; Pay 1].

Lemma allocations_sound_witness :
  let w := (@run_ops ref_netlib ref_show refs seconds all_ok true true busy (world true None)).2 in
  Sound w /\ (fun k => (k_li k, k_cidr k, k_active k)) <$> keys w =
    [(1, "10.0.0.0/26", true); (2, "10.0.0.64/26", true)].
Proof.
  split; [|vm_compute; reflexivity].
  apply (@allocations_sound ref_netlib ref_netlaws ref_show refs seconds all_ok show_parse true true busy).
  - apply world_sound.
  - apply world_refs.
  - vm_compute. discriminate.
Defined.

Lemma paid_range_allocated_witness : exists w' k,
  @allocate_on_payment ref_netlib ref_show refs seconds all_ok false false 2 (world true None) = (Ok tt, w') /\
  k ∈ keys w' /\ k_li k = 2 /\ k_active k = true /\
  (forall k', k' ∈ keys w' -> k_li k' = 2 -> k_active k' = true -> k' = k).
Proof.
  destruct (@allocate_on_payment ref_netlib ref_show refs seconds all_ok false false 2 (world true None))
    as [r w'] eqn:E.
  destruct (@paid_range_allocated ref_netlib ref_netlaws ref_show refs seconds all_ok show_parse false false
    2 (world true None) r w') as (_ & _ & Hok).
  - apply world_sound.
  - apply world_refs.
  - vm_compute. discriminate.
  - exact E.
  - assert (r = Ok tt) as -> by (revert E; vm_compute; by intros [= <- _]).
    destruct (Hok eq_refl) as (k & Hk & El & Ea & Hu & _).
    exists w', k. exact (conj eq_refl (conj Hk (conj El (conj Ea Hu)))).
Defined.

Lemma expiry_frees_range_witness :
  k_active <$> keys (@deactivate_line_item ref_netlib seconds all_refused true true (item 1) (world true None)).2 =
  [false].
Proof.
  destruct (@expiry_frees_range ref_netlib seconds all_refused true true
    (item 1) (world true None) _ (world_sound _ _) eq_refl) as [_ ->]. vm_compute. reflexivity.
Defined.

Lemma published_is_withdrawn_witness : exists w1,
  @fulfil_registry ref_netlib refs all_ok true true space1 (range1 true (Some 64500)) (world true (Some 64500)) =
    (Ok tt, w1) /\
  exists r, r ∈ w_ranges w1 /\
    calls_between w1 (@teardown_registry ref_netlib all_ok true true r w1).2 =
      omap withdrawal (calls_between (world true (Some 64500)) w1) /\
    length (calls_between (world true (Some 64500)) w1) = 2%nat.
Proof.
  destruct (@fulfil_registry ref_netlib refs all_ok true true space1 (range1 true (Some 64500)) (world true (Some 64500)))
    as [o w1] eqn:E.
  assert (o = Ok tt) as -> by (revert E; vm_compute; by intros [= <- _]).
  exists w1. split; [reflexivity|].
  assert (exists r, w_ranges w1 = [r] /\ ir_id r = 1) as (r & Hr & Hid).
  { revert E. vm_compute. intros [= <-]. by eexists. }
  exists r. rewrite Hr. split; [by left|]. split.
  - apply (@published_is_withdrawn ref_netlib ref_netlaws refs all_ok true true space1 (range1 true (Some 64500))
      64500 (world true (Some 64500)) w1 r); [done|exact E|rewrite Hr; by left|exact Hid].
  - revert E. vm_compute. by intros [= <-].
Defined.

Lemma failed_asn_not_retried_witness : exists w1,
  @configure_origin_asn ref_netlib refs all_refused true true 1 (Some 64500) (world true None) = (Err Refused, w1) /\
  @configure_origin_asn ref_netlib refs all_refused true true 1 (Some 64500) w1 = (Ok tt, w1).
Proof.
  destruct (@configure_origin_asn ref_netlib refs all_refused true true 1 (Some 64500) (world true None))
    as [o w1] eqn:E.
  assert (o = Err Refused) as -> by (revert E; vm_compute; by intros [= <- _]).
  exists w1. split; [reflexivity|].
  by destruct (@failed_asn_not_retried ref_netlib refs seconds all_refused true true 1 64500 (world true None) w1 E) as [H _].
Defined.

Lemma lapsed_range_blocks_space_witness :
  (@allocate_on_payment ref_netlib ref_show refs seconds all_ok false false 2 (world false None)).1 = Err Duplicate /\
  w_ranges (@allocate_on_payment ref_netlib ref_show refs seconds all_ok false false 2 (world false None)).2 =
    [range1 false None].
Proof.
  destruct (@lapsed_range_blocks_space ref_netlib ref_show refs seconds all_ok false false 2 (item 2) config
    {| available_ip_space_id := 1; prefix_size := 26 |} space1 (RefIpNet.v4 10 0 0 0 24) (RefIpNet.v4 10 0 0 0 26)
    (range1 false None) (world false None)) as [H (_ & _ & _ & E & _)]; try (vm_compute; reflexivity).
  - by repeat constructor.
  - by left.
  - split; [exact H|exact E].
Defined.
End ProvWitness.
