(* ===== verification/SubLife.v ===== *)
(** * The life of a subscription
    ([lnvps_api/src/subscription/mod.rs], [vm.rs], [ip_range.rs],
    [lnvps_api/src/worker.rs], [lnvps_api/src/provisioner/vm.rs],
    [lnvps_api_common/src/model.rs])

    Payments extend a subscription and let the handlers of its line items act;
    the worker walks the subscriptions, warns, expires and cancels them, and
    removes VMs that were never paid. *)

From S2P Require Import Prelude NetText IpAlloc Network HostTypes SubDb IpProvision.

(** [num_days], [num_seconds] of a duration: truncated. *)
Definition num_days (d : Z) : Z := Z.quot d DAY.
Definition num_seconds (d : Z) : Z := Z.quot d SEC.

Definition grace_period_days_for_sub (sub : Subscription) (now delete_after : Z) : Z :=
  let age_days := Z.max 0 (num_days (now - s_created sub)) in
  if age_days <=? 1 then 1
  else if age_days <=? 7 then 2
  else if age_days <=? 28 then 7
  else if age_days <=? 180 then 14
  else delete_after.

Definition payment_blocks_unpaid_vm_deletion (p : SubscriptionPayment) (now : Z) : bool :=
  negb (p_is_paid p) &&
  ((now <? p_expires p) ||
   (bool_decide (p_method p = OnChain) && bool_decide (is_Some (p_external_id p)))).

(** The handler of a line item: a VM with the expiry found when the handler was
    made, or an address range. *)
Inductive Handler : Type :=
| VmLineItemHandler (vm : Vm) (vm_expires_before : Z)
| IpRangeLineItemHandler (line_item_id : Z).

Definition CHECK_SECONDS : Z := 30.

Section life.
Context `{!NetLib, !NetShow, !RegistryRef, !Clock, !Remote, !Calendar}.
(** [settings.delete_after], and [auto_renew] of the subscription handler. *)
Context (delete_after : Z) (auto_renew : Z -> Act unit).

(** ** The VM provisioner *)

Definition stop_vm (vm_id : Z) : Act unit :=
  vm ←? get_vm vm_id;
  call_ (HostClient (v_host_id vm)) ;?
  call_ (HostStopVm vm_id).

Definition delete_vm (vm_id : Z) (purge : bool) : Act unit :=
  vm ←? get_vm vm_id;
  call_ (HostClient (v_host_id vm)) ;?
  call_ (HostDeleteVm vm_id) ;?
  call_ (DeleteIpAssignments vm_id) ;?
  if purge then hard_delete_vm vm_id
  else (delete_vm_row vm_id;; mret (Ok tt)).

(** ** Line-item handlers *)

(** [.ok().and_then(|s| s.expires).unwrap_or_else(Utc::now)] *)
Definition line_item_expires (li : Z) : ST World Z :=
  s ← get_subscription_by_line_item_id li;
  match s with
  | Ok s => match s_expires s with Some e => mret e | None => now end
  | Err _ => now
  end.

Definition make_line_item_handler (li : SubscriptionLineItem) : Act Handler :=
  match li_type li with
  | Vps =>
      vm ←? get_vm_by_line_item (li_id li);
      vm ←? get_vm (v_id vm);
      before ← line_item_expires (v_subscription_line_item_id vm);
      mret (Ok (VmLineItemHandler vm before))
  | IpRangeType => mret (Ok (IpRangeLineItemHandler (li_id li)))
  | _ => mret (Err NoHandler)
  end.

Definition queue_notification (user : Z) (n : Notice) : ST World unit :=
  _ ← call (SendJob (SendNotification user n)); mret tt.
Definition queue_admin_notification (n : Notice) : ST World unit :=
  _ ← call (SendJob (SendAdminNotification n)); mret tt.

Definition vm_on_payment (vm_id : Z) (p : SubscriptionPayment) : Act unit :=
  vm ←? get_vm vm_id;
  _ ← line_item_expires (v_subscription_line_item_id vm);
  insert_vm_history vm_id PaymentReceived;;
  (if 0 <? default 0 (p_time_value p) then insert_vm_history vm_id Renewed else mret tt);;
  if bool_decide (p_type p = Upgrade) then
    match p_metadata p ≫= UpgradeConfig_from with
    | Some cfg => call_ (SendJob (ProcessVmUpgrade vm_id cfg))
    | None => mret (Ok tt)
    end
  else
    vm ←? get_vm vm_id;
    (if bool_decide (v_mac_address vm = "ff:ff:ff:ff:ff:ff") then
       _ ← call (SetStateCreating vm_id); mret tt
     else mret tt);;
    call_ (SendJob (SpawnVm vm_id)).

(** The address-range handler without registry providers, as the subscription
    handler creates its provisioner. *)
Definition on_payment (h : Handler) (p : SubscriptionPayment) : Act unit :=
  match h with
  | VmLineItemHandler vm _ => vm_on_payment (v_id vm) p
  | IpRangeLineItemHandler li => allocate_on_payment false false li
  end.

Definition vm_on_expired (vm : Vm) (sub : Subscription) (li : SubscriptionLineItem) : ST World unit :=
  if bool_decide (li_type li = Vps) then
    t ← now;
    let grace := grace_period_days_for_sub sub t delete_after in
    _ ← stop_vm (v_id vm);
    insert_vm_history (v_id vm) Expired;;
    queue_notification (v_user_id vm) (VmExpired (v_id vm) grace)
  else mret tt.

Definition on_expired (h : Handler) (sub : Subscription) (li : SubscriptionLineItem) : ST World unit :=
  match h with
  | VmLineItemHandler vm _ => vm_on_expired vm sub li
  | IpRangeLineItemHandler _ => deactivate_line_item false false li
  end.

Definition vm_on_grace_period_exceeded (vm : Vm) (li : SubscriptionLineItem) : ST World unit :=
  if bool_decide (li_type li = Vps) && negb (v_deleted vm) then
    r ← delete_vm (v_id vm) false;
    (if is_ok r then insert_vm_history (v_id vm) Deleted else mret tt);;
    queue_admin_notification (VmDeleted (v_id vm))
  else mret tt.

Definition on_grace_period_exceeded (h : Handler) (li : SubscriptionLineItem) : ST World unit :=
  match h with
  | VmLineItemHandler vm _ => vm_on_grace_period_exceeded vm li
  | IpRangeLineItemHandler _ => mret tt
  end.

(** Run an action with the handler of each line item; failures are logged. *)
Fixpoint each_handler (act : Handler -> SubscriptionLineItem -> ST World unit)
    (items : list SubscriptionLineItem) : ST World unit :=
  match items with
  | [] => mret tt
  | li :: items =>
      h ← make_line_item_handler li;
      match h with Ok h => act h li | Err _ => mret tt end;;
      each_handler act items
  end.

(** ** Payments *)

Fixpoint expire_all (l : list SubscriptionPayment) : ST World (list SubscriptionPayment) :=
  match l with
  | [] => mret []
  | p :: l =>
      t ← now;
      let expired :=
        {| p_id := p_id p; p_subscription_id := p_subscription_id p; p_user_id := p_user_id p;
           p_created := p_created p; p_expires := t; p_amount := p_amount p;
           p_currency := p_currency p; p_method := p_method p; p_type := p_type p;
           p_external_data := p_external_data p; p_external_id := p_external_id p;
           p_is_paid := p_is_paid p; p_time_value := p_time_value p; p_metadata := p_metadata p;
           p_tax := p_tax p; p_processing_fee := p_processing_fee p; p_paid_at := p_paid_at p;
           p_rate := p_rate p; p_tax_rate := p_tax_rate p;
           p_tax_country_code := p_tax_country_code p; p_tax_treatment := p_tax_treatment p |} in
      _ ← update_subscription_payment expired;
      rest ← expire_all l;
      mret (expired :: rest)
  end.

Definition complete_payment (p : SubscriptionPayment) : Act (list SubscriptionPayment) :=
  subscription_payment_paid p ;?
  items ← list_subscription_line_items (p_subscription_id p);
  each_handler (fun h _ => _ ← on_payment h p; mret tt) items;;
  if bool_decide (p_type p = Upgrade) then
    vm ← get_vm_by_subscription (p_subscription_id p);
    match vm with
    | Err _ => mret (Ok [])
    | Ok vm =>
        pending ← list_pending_vm_subscription_payments (v_id vm);
        expired ← expire_all (filter (fun q => p_type q = Upgrade /\ p_id q <> p_id p) pending);
        mret (Ok expired)
    end
  else mret (Ok []).

(** ** The worker *)

(** Whether one of the line items is a VM, and whether one of these VMs has an
    [Expired] entry no older than the expiry. *)
Fixpoint expired_entry (expires : Z) (items : list SubscriptionLineItem) (has_vps : bool)
  : ST World (bool * bool) :=
  match items with
  | [] => mret (has_vps, false)
  | li :: items =>
      if bool_decide (li_type li = Vps) then
        vm ← get_vm_by_line_item (li_id li);
        match vm with
        | Err _ => expired_entry expires items true
        | Ok vm =>
            history ← list_vm_history (v_id vm);
            if existsb (fun h => bool_decide (vh_action h = Expired) && (expires <=? vh_timestamp h)) history
            then mret (true, true) else expired_entry expires items true
        end
      else expired_entry expires items has_vps
  end.

Definition subscription_expiry_already_handled (sub : Subscription) (items : list SubscriptionLineItem)
    (last_check : Z) : ST World bool :=
  match s_expires sub with
  | None => mret true
  | Some expires =>
      '(has_vps, found) ← expired_entry expires items false;
      mret (if (found : bool) then true else if (has_vps : bool) then false else expires <? last_check)
  end.

Definition set_inactive (s : Subscription) : Subscription :=
  {| s_id := s_id s; s_user_id := s_user_id s; s_company_id := s_company_id s; s_name := s_name s;
     s_description := s_description s; s_created := s_created s; s_expires := s_expires s;
     s_is_active := false; s_is_setup := s_is_setup s; s_currency := s_currency s;
     s_interval_amount := s_interval_amount s; s_interval_type := s_interval_type s;
     s_setup_fee := s_setup_fee s; s_auto_renewal_enabled := s_auto_renewal_enabled s;
     s_external_id := s_external_id s |}.

Definition handle_expiring_soon (sub : Subscription) : ST World unit :=
  methods ← list_user_payment_methods (s_user_id sub) None;
  if s_auto_renewal_enabled sub && existsb um_enabled methods then
    r ← auto_renew (s_id sub);
    queue_notification (s_user_id sub) (if is_ok r then AutoRenewed else AutoRenewFailed)
  else queue_notification (s_user_id sub) ExpiringSoon.

Definition handle_grace_exceeded (sub : Subscription) (items : list SubscriptionLineItem) : ST World unit :=
  let sub := set_inactive sub in
  update_subscription sub;;
  queue_notification (s_user_id sub) SubscriptionCancelled;;
  each_handler on_grace_period_exceeded items.

Definition handle_expired (sub : Subscription) (items : list SubscriptionLineItem) (last_check : Z)
  : ST World unit :=
  handled ← subscription_expiry_already_handled sub items last_check;
  if (handled : bool) then mret tt else
  queue_notification (s_user_id sub) SubscriptionExpired;;
  each_handler (fun h li => on_expired h sub li) items.

Definition BEFORE_EXPIRE_NOTIFICATION_DAYS : Z := 1.

Definition handle_subscription_state (sub : Subscription) (last_check : Z) : ST World unit :=
  match s_expires sub with
  | None => mret tt
  | Some expires =>
      items ← list_subscription_line_items (s_id sub);
      t ← now;
      if (t <? expires) && (expires <? t + BEFORE_EXPIRE_NOTIFICATION_DAYS * DAY) &&
         (last_check + BEFORE_EXPIRE_NOTIFICATION_DAYS * DAY <? expires)
      then handle_expiring_soon sub
      else
        t1 ← now;
        t2 ← now;
        if expires + grace_period_days_for_sub sub t1 delete_after * DAY <? t2
        then handle_grace_exceeded sub items
        else
          t3 ← now;
          if expires <? t3 then handle_expired sub items last_check else mret tt
  end.

Fixpoint handle_all (subs : list Subscription) (last_check : Z) : ST World unit :=
  match subs with
  | [] => mret tt
  | sub :: subs => handle_subscription_state sub last_check;; handle_all subs last_check
  end.

(** The check time, in whole seconds; the epoch when none was stored. *)
Definition get_last_check_subscriptions : ST World Z := db (fun w => default 0 (w_last_subs w)).
Definition set_last_check_subscriptions (t : Z) : ST World unit :=
  exec (fun w => set_last (Some (whole_seconds t)) (w_last_vms w) w).
Definition get_last_check_vms : ST World Z := db (fun w => default 0 (w_last_vms w)).
Definition set_last_check_vms (t : Z) : ST World unit :=
  exec (fun w => set_last (w_last_subs w) (Some (whole_seconds t)) w).

Definition check_subscriptions : ST World unit :=
  last_check ← get_last_check_subscriptions;
  t ← now;
  if num_seconds (t - last_check) <? CHECK_SECONDS then mret tt else
  subs ← list_lifecycle_subscriptions;
  handle_all subs last_check;;
  t ← now;
  set_last_check_subscriptions t.

(** *** VMs that were never paid *)

Fixpoint sort_vms (vms : list Vm) : ST World (list Vm * list Vm) :=
  match vms with
  | [] => mret ([], [])
  | vm :: vms =>
      sub ← get_subscription_by_line_item_id (v_subscription_line_item_id vm);
      match sub with
      | Err _ => sort_vms vms
      | Ok sub =>
          t ← now;
          let old_enough := (3600 * SEC <? t - s_created sub) in
          '(del, chk) ← sort_vms vms;
          mret (if old_enough && negb (s_is_setup sub) then (vm :: del, chk)
                else if s_is_setup sub then (del, vm :: chk) else (del, chk))
      end
  end.

Definition delete_unpaid (vm : Vm) : ST World unit :=
  sub ← get_subscription_by_line_item_id (v_subscription_line_item_id vm);
  match sub with
  | Err _ => queue_admin_notification (PreDeletionReadFailed (v_id vm))
  | Ok sub =>
      if s_is_setup sub then mret tt else
      t ← now;
      ps ← list_vm_subscription_payments (v_id vm);
      if existsb (fun p => payment_blocks_unpaid_vm_deletion p t) ps then mret tt else
      r ← delete_vm (v_id vm) true;
      if is_ok r then mret tt else queue_admin_notification (VmDeletionFailed (v_id vm))
  end.
Fixpoint delete_all_unpaid (vms : list Vm) : ST World unit :=
  match vms with
  | [] => mret tt
  | vm :: vms => delete_unpaid vm;; delete_all_unpaid vms
  end.

(** [check_vms] up to the checks of the hosts, which are not modelled here: the VMs that
    they are for; [None] when the last check is too recent. *)
Definition purge_unpaid_vms : ST World (option (list Vm)) :=
  last_check ← get_last_check_vms;
  t ← now;
  if num_seconds (t - last_check) <? CHECK_SECONDS then mret None else
  vms ← list_vms;
  '(to_delete, to_check) ← sort_vms vms;
  delete_all_unpaid to_delete;;
  mret (Some to_check).
End life.

Lemma each_handler_keeps `{!Clock} R `{!PreOrder R} act items :
  (forall li, keeps R (make_line_item_handler li)) -> (forall h li, keeps R (act h li)) ->
  keeps R (each_handler act items).
Proof.
  intros Hm Ha. induction items as [|li items IH]; cbn [each_handler]; [apply keeps_ret, _|].
  apply keeps_bind; [apply _|apply Hm|]. intros [h|e]; (apply keeps_bind; [apply _| |by intros _]);
    [apply Ha|apply keeps_ret, _].
Qed.
