(* ===== verification/SubLifeProofs.v ===== *)
(** * The life of a subscription: payments

    A payment extends its subscription once, however often it is delivered. *)

From S2P Require Import Prelude NetText IpAlloc Network HostTypes SubDb IpProvision SubLife.

(** The tables without the clock and the log. *)
Definition settled (p : list Z) (w : World) : Prop :=
  Forall (fun q => p_id q = p -> p_is_paid q = true) (w_payments w).

Section payments.
Context `{!Clock, !Calendar}.

(** When the expiry of a payment is computed: the second reading. *)
Definition paid_until (p : SubscriptionPayment) (s : Subscription) (t : Z) : Z :=
  match p_time_value p with
  | Some secs => extend_from (s_expires s) t + secs * SEC
  | None => date_add (extend_from (s_expires s) t) (s_interval_amount s) (s_interval_type s)
  end.

Definition unpaid_in (p : SubscriptionPayment) (w : World) : bool :=
  existsb (fun q => bool_decide (p_id q = p_id p) && negb (p_is_paid q)) (w_payments w).

Lemma unpaid_settled p w : unpaid_in p w = false <-> settled (p_id p) w.
Proof.
  unfold unpaid_in, settled. rewrite Forall_forall. split.
  - intros Hno q Hq E. destruct (p_is_paid q) eqn:Ep; [done|]. exfalso.
    apply not_true_iff_false in Hno. apply Hno, existsb_exists. exists q.
    rewrite <- list_elem_of_In, bool_decide_true, Ep by done. done.
  - intros Hall. apply not_true_iff_false. intros (q & Hq & E)%existsb_exists.
    rewrite <- list_elem_of_In in Hq. apply andb_prop in E as [E1%bool_decide_eq_true E2].
    by rewrite (Hall q Hq E1) in E2.
Qed.

(** A payment that is settled changes nothing. *)
Lemma paid_again p w : settled (p_id p) w ->
  (subscription_payment_paid p w).1 = Ok tt /\
  w_subs (subscription_payment_paid p w).2 = w_subs w /\
  w_vms (subscription_payment_paid p w).2 = w_vms w /\
  w_payments (subscription_payment_paid p w).2 = w_payments w.
Proof.
  intros Hs. unfold subscription_payment_paid, transaction. rewrite bind_run.
  assert ((existsb (fun q => bool_decide (p_id q = p_id p) && negb (p_is_paid q))
    (w_payments (sql_now w).2)) = false) as E by by apply unpaid_settled.
  unfold db, exec, gets, modify. rewrite !bind_run. cbn [fst snd]. rewrite E. cbn [negb mret ST_ret].
  split; [done|]. split; [done|]. split; [done|]. cbn [w_payments set_payments].
  transitivity (map id (w_payments w)); [|apply map_id]. apply map_ext_in. intros q Hq%list_elem_of_In.
  destruct (bool_decide_reflect (p_id q = p_id p)) as [Eq|]; [|done].
  by rewrite (proj1 (Forall_forall _ _) Hs q Hq Eq).
Qed.

(** The tables after a payment. *)
Definition after_paid (p : SubscriptionPayment) (t : Z) (w : World) : list Subscription :=
  map (fun s => if decide (s_id s = p_subscription_id p) then activate (paid_until p s t) s else s)
    (w_subs w).

Definition stamps (w : World) (n : nat) : Z := whole_seconds (clk (w_reads w + n)).

Lemma paid_first p w sub : unpaid_in p w = true -> NoDup (s_id <$> w_subs w) -> sub ∈ w_subs w ->
  s_id sub = p_subscription_id p ->
  wp (subscription_payment_paid p) (fun r w' => r = Ok tt /\
    w_subs w' = after_paid p (stamps w 1) w /\ w_items w' = w_items w /\
    w_payments w' = map (fun q => if bool_decide (p_id q = p_id p) && negb (p_is_paid q)
                               then mark_paid (p_external_data p) (stamps w 0) q else q) (w_payments w)) w.
Proof.
  intros Hu Hid Hsub Es. unfold subscription_payment_paid, list_subscription_line_items. apply wp_transaction.
  sub_steps. cbn [w_payments set_payments bump_reads]. unfold unpaid_in in Hu. rewrite Hu. cbn [negb].
  sub_steps. unfold after_paid, paid_until, stamps. rewrite Nat.add_0_r, Nat.add_1_r.
  destruct (p_time_value p) as [secs|]; unfold on_sub, get_subscription; sub_steps; [by split_and!|].
  cbn [w_subs set_vms set_payments bump_reads]. rewrite <- Es, (fetch_one_key s_id _ sub) by done.
  sub_steps. split_and!; try done. apply map_ext_in. intros s Hs%list_elem_of_In. cbn.
  case_decide as E; [|done]. by rewrite (NoDup_key s_id _ s sub Hid Hs Hsub E).
Qed.
End payments.

(** ** Handlers leave subscriptions and payments alone *)

Definition same_billing (w w' : World) : Prop :=
  w_subs w' = w_subs w /\ w_items w' = w_items w /\ w_payments w' = w_payments w.
#[export] Instance same_billing_pre : PreOrder same_billing.
Proof.
  split; [by repeat split|]. intros w1 w2 w3 (? & ? & ?) (? & ? & ?). unfold same_billing. split_and!; congruence.
Qed.

Section handlers.
Context `{!NetLib, !NetShow, !RegistryRef, !Clock, !Remote, !Calendar}.
Context (delete_after : Z) (auto_renew : Z -> Act unit).

Ltac billing_tac := frame_tac ltac:(first [ by intros ?; repeat split | solve [auto 3 with billing] ]).

Lemma fulfil_registry_billing r k sp ips : keeps same_billing (fulfil_registry r k sp ips).
Proof. unfold fulfil_registry, fulfil_route, fulfil_roa. billing_tac. Qed.
Lemma insert_range_billing r : keeps same_billing (insert_ip_range_subscription r).
Proof. unfold insert_ip_range_subscription. billing_tac. Qed.
Lemma allocate_fresh_billing i : keeps same_billing (allocate_fresh i).
Proof.
  unfold allocate_fresh. frame_tac ltac:(first [ by intros ?; repeat split | apply insert_range_billing ]).
Qed.
Lemma allocate_billing li : keeps same_billing (allocate_on_payment false false li).
Proof.
  unfold allocate_on_payment, fulfil_on_payment, try_reactivate.
  frame_tac ltac:(first [ by intros ?; repeat split | apply fulfil_registry_billing | apply allocate_fresh_billing ]).
Qed.
Lemma line_item_expires_billing li : keeps same_billing (line_item_expires li).
Proof. unfold line_item_expires. billing_tac. Qed.
Lemma history_billing vm a : keeps same_billing (insert_vm_history vm a).
Proof. by repeat split. Qed.
Lemma make_handler_billing li : keeps same_billing (make_line_item_handler li).
Proof.
  unfold make_line_item_handler.
  frame_tac ltac:(first [ by intros ?; repeat split | apply line_item_expires_billing ]).
Qed.
Lemma on_payment_billing h p : keeps same_billing (on_payment h p).
Proof.
  destruct h; [|apply allocate_billing]. cbn [on_payment]. unfold vm_on_payment.
  frame_tac ltac:(first [ by intros ?; repeat split | apply line_item_expires_billing ]).
Qed.
End handlers.

(** ** Completing payments *)

Lemma settled_map q (f : SubscriptionPayment -> SubscriptionPayment) w w' :
  w_payments w' = map f (w_payments w) ->
  (forall x, p_id (f x) = p_id x) -> (forall x, p_id x = q -> p_is_paid x = true -> p_is_paid (f x) = true) ->
  settled q w -> settled q w'.
Proof.
  unfold settled. intros -> Hid Hp. rewrite !Forall_forall. intros Hs x Hx E.
  apply list_elem_of_fmap in Hx as (y & -> & Hy). rewrite Hid in E. apply Hp; [done|]. by apply Hs.
Qed.

Section completing.
Context `{!NetLib, !NetShow, !RegistryRef, !Clock, !Remote, !Calendar}.

(** Subscriptions by id: what a payment looks up. *)
Definition billed (w : World) : Prop := NoDup (s_id <$> w_subs w).
Definition exists_sub (id : Z) (w : World) : Prop := id ∈ s_id <$> w_subs w.

Lemma after_paid_ids p t w : s_id <$> after_paid p t w = s_id <$> w_subs w.
Proof. unfold after_paid. rewrite <- list_fmap_compose. apply list_fmap_ext. intros i s _. cbn. by case_decide. Qed.

Lemma expire_all_spec l q w : Forall (fun p => p_id p <> q) l -> settled q w ->
  wp (expire_all l) (fun _ w' => w_subs w' = w_subs w /\ settled q w') w.
Proof.
  revert w. induction l as [|p l IH]; intros w Hl Hs; cbn [expire_all]; [by sub_steps|].
  inversion Hl as [|? ? Hp Hl']; subst. sub_steps. unfold update_subscription_payment. sub_steps.
  destruct (_ && _); sub_steps; (eapply wp_mono; [apply IH; [done|]|]).
  { exact Hs. }
  { intros r w' Hw. sub_steps. exact Hw. }
  - eapply settled_map; [reflexivity| | |exact Hs]; intros x; cbv beta; [by case_decide|].
    intros E Hx. case_decide as Ex; [cbn in Ex; congruence|done].
  - intros r w' [E Hw]. sub_steps. done.
Qed.

(** After a payment was completed: what holds of the subscriptions after the
    first transaction still holds, and settled payments stay settled. *)
Lemma complete_rest p q w w1 : subscription_payment_paid p w = (Ok tt, w1) -> settled q w1 ->
  w_subs (complete_payment p w).2 = w_subs w1 /\ settled q (complete_payment p w).2.
Proof.
  intros Hp Hq. unfold complete_payment, try_bind. rewrite bind_run, Hp. cbn [fst snd].
  refine (_ : wp _ (fun _ w' => w_subs w' = w_subs w1 /\ settled q w') w1).
  unfold list_subscription_line_items. sub_steps.
  assert (keeps same_billing (each_handler (fun h _ => on_payment h p ≫= (fun _ => mret tt))
    (q_list_line_items (p_subscription_id p) w1))) as Hk.
  { apply each_handler_keeps; [apply _|apply make_handler_billing|]. intros h li.
    apply keeps_bind; [apply _|apply on_payment_billing|intros _; apply keeps_ret, _]. }
  specialize (Hk w1). destruct (each_handler _ _ w1) as [[] w2] eqn:E.
  unfold wp at 1. rewrite E. destruct Hk as (Es & _ & Ep). cbn [fst snd] in *.
  assert (settled q w2) as Hq2 by (unfold settled in *; by rewrite Ep).
  case_bool_decide; [|sub_steps; done]. unfold get_vm_by_subscription. sub_steps.
  destruct (fetch_one _) as [vm|e]; [|sub_steps; done]. unfold list_pending_vm_subscription_payments. sub_steps.
  eapply wp_mono; [apply (expire_all_spec _ q)|].
  - apply Forall_forall. intros x [[_ _] [[Hx _] Hin]%list_elem_of_filter]%list_elem_of_filter Exq.
    unfold vm_payments in Hin. apply list_elem_of_bind in Hin as (y & Hin & Hy).
    apply list_elem_of_bind in Hin as (i & Hin & _). apply list_elem_of_bind in Hin as (v & Hin & _).
    apply list_elem_of_singleton in Hin as ->.
    pose proof (proj1 (Forall_forall _ _) Hq2 y Hy Exq). congruence.
  - exact Hq2.
  - intros r w' [E' Hw]. sub_steps. split; [|done]. cbn in E'. congruence.
Qed.

Lemma mark_settled q p data t w w' :
  w_payments w' = map (fun x => if bool_decide (p_id x = p_id p) && negb (p_is_paid x)
                               then mark_paid data t x else x) (w_payments w) ->
  settled q w -> settled q w'.
Proof.
  intros E. apply (settled_map q _ w w' E); intros x; cbv beta; by destruct (_ && _).
Qed.
Lemma mark_settles p data t w w' :
  w_payments w' = map (fun x => if bool_decide (p_id x = p_id p) && negb (p_is_paid x)
                               then mark_paid data t x else x) (w_payments w) ->
  settled (p_id p) w'.
Proof.
  intros E. unfold settled. rewrite E. apply Forall_forall. intros x (y & -> & Hy)%list_elem_of_fmap Ex.
  destruct (p_is_paid y) eqn:Ey; [rewrite andb_false_r in *; done|].
  destruct (bool_decide_reflect (p_id y = p_id p)) as [|Hn]; [done|]. by cbn in Ex.
Qed.

Lemma paid_settled p q w : settled q w -> settled q (subscription_payment_paid p w).2.
Proof.
  intros Hs. refine (_ : wp _ (fun _ w' => settled q w') w).
  unfold subscription_payment_paid, list_subscription_line_items, on_sub, get_subscription.
  apply wp_transaction. sub_steps.
  match goal with |- wp _ _ ?w0 => assert (settled q w0) as Hq by by eapply mark_settled end.
  destruct (negb _); [by sub_steps|]. sub_steps. destruct (p_time_value p); sub_steps; [exact Hq|].
  destruct (fetch_one _); sub_steps; done.
Qed.

Lemma complete_settled p q w : settled q w -> settled q (complete_payment p w).2.
Proof.
  intros Hs. pose proof (paid_settled p q w Hs) as Hs1.
  destruct (subscription_payment_paid p w) as [[[]|e] w1] eqn:E; cbn [snd] in Hs1.
  - by apply (complete_rest p q w w1).
  - unfold complete_payment, try_bind. by rewrite bind_run, E.
Qed.

Lemma complete_again p w : settled (p_id p) w -> w_subs (complete_payment p w).2 = w_subs w.
Proof.
  intros Hs. destruct (paid_again p w Hs) as (E1 & E2 & _ & E4).
  destruct (subscription_payment_paid p w) as [r w1] eqn:E. cbn [fst snd] in *. subst r.
  rewrite (proj1 (complete_rest p (p_id p) w w1 E ltac:(unfold settled in *; by rewrite E4))). done.
Qed.

(** Deliveries of payments, by whichever provider. *)
Fixpoint deliver (l : list SubscriptionPayment) : ST World unit :=
  match l with
  | [] => mret tt
  | p :: l => _ ← complete_payment p; deliver l
  end.
Lemma deliver_app l p w : deliver (l ++ [p]) w = (tt, (complete_payment p (deliver l w).2).2).
Proof.
  revert w. induction l as [|x l IH]; intros w; cbn [app deliver].
  - rewrite bind_run. done.
  - rewrite !bind_run. by rewrite IH.
Qed.
Lemma deliver_settled l q w : settled q w -> settled q (deliver l w).2.
Proof.
  revert w. induction l as [|p l IH]; intros w Hs; cbn [deliver]; [done|].
  rewrite bind_run. by apply IH, complete_settled.
Qed.

(** A payment never shortens a subscription. *)
Lemma paid_until_le `{!CalendarLaws} p sub t :
  (forall secs, p_time_value p = Some secs -> 0 <= secs) -> 0 <= s_interval_amount sub ->
  t <= paid_until p sub t /\ (forall e, s_expires sub = Some e -> e <= paid_until p sub t).
Proof.
  intros Ht Hn. unfold paid_until.
  assert (t <= extend_from (s_expires sub) t /\
    (forall e, s_expires sub = Some e -> e <= extend_from (s_expires sub) t)) as [Hx1 Hx2].
  { unfold extend_from. split; [lia|]. intros e ->. cbn. lia. }
  enough (extend_from (s_expires sub) t <= match p_time_value p with
    | Some secs => extend_from (s_expires sub) t + secs * SEC
    | None => date_add (extend_from (s_expires sub) t) (s_interval_amount sub) (s_interval_type sub) end) as Hx3.
  { split; [lia|]. intros e He. specialize (Hx2 e He). lia. }
  assert (0 < SEC /\ 0 < DAY) as [? ?] by done.
  destruct (p_time_value p) as [secs|]; [specialize (Ht secs eq_refl); nia|].
  destruct (s_interval_type sub); cbn [date_add]; [nia|apply add_months_le; lia..].
Qed.

(** C2: a payment counts once: its first delivery makes the subscription active
    and set up and extends it by the payment's time, from its expiry or from now
    if that is later, so that it is never shortened; no other subscription
    changes; and after any further deliveries of any payments, delivering it
    again changes no subscription. *)
Theorem payment_applied_once `{!CalendarLaws} p w sub (Hids : NoDup (s_id <$> w_subs w))
    (Hsub : sub ∈ w_subs w) (Es : s_id sub = p_subscription_id p) (Hu : unpaid_in p w = true)
    (Ht : forall secs, p_time_value p = Some secs -> 0 <= secs) (Hn : 0 <= s_interval_amount sub) :
  let w1 := (complete_payment p w).2 in
  let t := stamps w 1 in
  w_subs w1 = map (fun s => if decide (s_id s = p_subscription_id p)
                            then activate (paid_until p s t) s else s) (w_subs w) /\
  t <= paid_until p sub t /\
  (forall e, s_expires sub = Some e -> e <= paid_until p sub t) /\
  (forall l, w_subs (deliver (l ++ [p]) w1).2 = w_subs (deliver l w1).2).
Proof.
  cbv zeta. pose proof (paid_first p w sub Hu Hids Hsub Es) as (E1 & E2 & _ & E4).
  destruct (subscription_payment_paid p w) as [r w1] eqn:E. cbn [fst snd] in *. subst r.
  destruct (complete_rest p (p_id p) w w1 E (mark_settles p _ _ w w1 E4)) as [Ec _].
  pose proof (mark_settles p _ _ w w1 E4) as Hw1.
  assert (settled (p_id p) (complete_payment p w).2) as Hs by (by apply (complete_rest p (p_id p) w w1 E Hw1)).
  split; [rewrite Ec; exact E2|]. destruct (paid_until_le p sub (stamps w 1) Ht Hn) as [Hle Hlong].
  split; [exact Hle|]. split; [exact Hlong|].
  intros l. rewrite deliver_app. cbn [snd]. by apply complete_again, deliver_settled.
Qed.
End completing.
