(* ===== verification/SubWorkerProofs.v ===== *)
(** * The life of a subscription: the worker

    What the worker's checks delete and when, and that expiry is handled once. *)

From S2P Require Import Prelude NetText IpAlloc Network HostTypes SubDb IpProvision SubLife.

(** ** Deletions in the log *)

Definition vm_keys (w : World) : list (Z * Z) := (fun v => (v_id v, v_subscription_line_item_id v)) <$> w_vms w.

(** The line items and the VMs stay, the log and the clock grow, and each VM
    whose deletion is asked of a host satisfies [P]. *)
Record Deletes (P : Z -> Prop) (w w' : World) : Prop := {
  de_items : w_items w' = w_items w;
  de_vms : vm_keys w' = vm_keys w;
  de_reads : (w_reads w <= w_reads w')%nat;
  de_log : exists new, (w_calls w').*1 = (w_calls w).*1 ++ new /\ forall v, HostDeleteVm v ∈ new -> P v
}.
Definition Quiet : relation World := Deletes (fun _ => False).

#[export] Instance Deletes_pre P : PreOrder (Deletes P).
Proof.
  split.
  - intros w. split; [done|done|done|]. exists []. rewrite app_nil_r. split; [done|]. by intros v ?%not_elem_of_nil.
  - intros w1 w2 w3 [E1 E2 E3 (n1 & E4 & P1)] [F1 F2 F3 (n2 & F4 & P2)].
    split; [congruence|congruence|lia|]. exists (n1 ++ n2). rewrite F4, E4, app_assoc. split; [done|].
    intros v [Hv|Hv]%elem_of_app; auto.
Qed.
Lemma Deletes_mono (P Q : Z -> Prop) w w' : (forall v, P v -> Q v) -> Deletes P w w' -> Deletes Q w w'.
Proof. intros HPQ [? ? ? (n & ? & ?)]. split; [done|done|done|]. exists n. auto. Qed.
Lemma Quiet_any P w w' : Quiet w w' -> Deletes P w w'.
Proof. by apply Deletes_mono. Qed.
Lemma Deletes_log P w w' v : Deletes P w w' -> HostDeleteVm v ∈ calls_between w w' -> P v.
Proof. intros [_ _ _ (new & E & Hp)]. rewrite (calls_between_app w w' new E). apply Hp. Qed.

Lemma keeps_any {A} P (m : ST World A) : keeps Quiet m -> keeps (Deletes P) m.
Proof. intros Hm w. apply Quiet_any, Hm. Qed.

(** A step that calls nothing and moves no VM. *)
Lemma quiet_step w w' : w_items w' = w_items w -> vm_keys w' = vm_keys w ->
  (w_reads w <= w_reads w')%nat -> w_calls w' = w_calls w -> Quiet w w'.
Proof.
  intros E1 E2 E3 E4. split; [done|done|done|]. exists []. rewrite E4, app_nil_r.
  split; [done|]. by intros v ?%not_elem_of_nil.
Qed.
Lemma call_step P w c ok : (forall v, c = HostDeleteVm v -> P v) -> Deletes P w (push_call c ok w).
Proof.
  intros Hc. split; [done|done|done|]. exists [c]. split; [exact (fmap_app fst (w_calls w) [_])|].
  intros v Hv%list_elem_of_singleton. by apply Hc.
Qed.

Section quiet.
Context `{!Clock, !Remote}.

Lemma now_quiet : keeps Quiet now.
Proof. intros w. apply quiet_step; [done|done|exact (Nat.le_succ_diag_r _)|done]. Qed.
Lemma sql_now_quiet : keeps Quiet sql_now.
Proof. intros w. apply quiet_step; [done|done|exact (Nat.le_succ_diag_r _)|done]. Qed.
Lemma exec_quiet f : (forall w, w_items (f w) = w_items w /\ vm_keys (f w) = vm_keys w /\
  w_reads (f w) = w_reads w /\ w_calls (f w) = w_calls w) -> keeps Quiet (exec f).
Proof. intros Hf w. destruct (Hf w) as (? & ? & E & ?). apply quiet_step; [done|done|cbn; lia|done]. Qed.
Lemma call_quiet c : (forall v, c <> HostDeleteVm v) -> keeps Quiet (call c).
Proof. intros Hc w. apply call_step. intros v E. by destruct (Hc v). Qed.
Lemma call__quiet c : (forall v, c <> HostDeleteVm v) -> keeps Quiet (call_ c).
Proof. intros Hc w. apply call_step. intros v E. by destruct (Hc v). Qed.
End quiet.

Ltac quiet_tac := frame_tac ltac:(first
  [ apply now_quiet | apply sql_now_quiet | by apply call_quiet | by apply call__quiet
  | apply exec_quiet; by repeat split | solve [auto 3 with quiet] ]).
Create HintDb quiet.

Section worker.
Context `{!NetLib, !Clock, !Remote}.
Context (delete_after : Z) (auto_renew : Z -> Act unit).

Lemma queue_quiet u n : keeps Quiet (queue_notification u n).
Proof. unfold queue_notification. quiet_tac. Qed.
Lemma queue_admin_quiet n : keeps Quiet (queue_admin_notification n).
Proof. unfold queue_admin_notification. quiet_tac. Qed.
Lemma history_quiet vm a : keeps Quiet (insert_vm_history vm a).
Proof. unfold insert_vm_history. quiet_tac. Qed.
Lemma line_item_expires_quiet li : keeps Quiet (line_item_expires li).
Proof. unfold line_item_expires, get_subscription_by_line_item_id. quiet_tac. Qed.
#[local] Hint Resolve queue_quiet queue_admin_quiet history_quiet line_item_expires_quiet : quiet.
Lemma make_handler_quiet li : keeps Quiet (make_line_item_handler li).
Proof. unfold make_line_item_handler, get_vm_by_line_item, get_vm. quiet_tac. Qed.
Lemma stop_vm_quiet vm : keeps Quiet (stop_vm vm).
Proof. unfold stop_vm, get_vm. quiet_tac. Qed.
Lemma teardown_quiet r k ips : keeps Quiet (teardown_registry r k ips).
Proof. unfold teardown_registry. quiet_tac. Qed.
#[local] Hint Resolve make_handler_quiet stop_vm_quiet teardown_quiet : quiet.
Lemma deactivate_quiet r k li : keeps Quiet (deactivate_line_item r k li).
Proof.
  unfold deactivate_line_item, list_ip_range_subscriptions_by_line_item. apply keeps_bind; [apply _|apply keeps_gets, _|].
  intros l. induction l as [|ips l IH]; cbn [deactivate_all]; [apply keeps_ret, _|].
  apply keeps_bind; [apply _| |by intros _]. unfold deactivate_one, update_ip_range_subscription. quiet_tac.
Qed.
#[local] Hint Resolve deactivate_quiet : quiet.
Lemma on_expired_quiet h sub li : keeps Quiet (on_expired delete_after h sub li).
Proof. destruct h; cbn [on_expired]; [unfold vm_on_expired|]; quiet_tac. Qed.

(** ** Deleting the VMs of a cancelled subscription *)

(** A VM of one of the subscription's line items. *)
Definition vm_of (w : World) (sub : Subscription) (v : Z) : Prop :=
  exists li, li ∈ w_items w /\ li_subscription_id li = s_id sub /\ li_type li = Vps /\
    (v, li_id li) ∈ vm_keys w.
Lemma vm_of_step P w w' sub v : Deletes P w w' -> vm_of w' sub v <-> vm_of w sub v.
Proof. intros [E1 E2 _ _]. unfold vm_of. by rewrite E1, E2. Qed.

Lemma set_vms_keys f w : (forall v, v_id (f v) = v_id v /\
    v_subscription_line_item_id (f v) = v_subscription_line_item_id v) ->
  vm_keys (set_vms (map f) w) = vm_keys w.
Proof.
  intros Hf. unfold vm_keys. cbn. rewrite <- list_fmap_compose. apply list_fmap_ext. intros i v _. cbn.
  by destruct (Hf v) as [-> ->].
Qed.
Lemma delete_row_quiet vm : keeps Quiet (delete_vm_row vm).
Proof.
  unfold delete_vm_row. apply exec_quiet. intros w. split_and!; [done| |done|done].
  apply set_vms_keys. intros v. by case_decide.
Qed.

Lemma delete_vm_deletes (P : Z -> Prop) vm : P vm -> keeps (Deletes P) (delete_vm vm false).
Proof.
  intros Hp. unfold delete_vm, get_vm. frame_tac ltac:(first
    [ by apply keeps_any, call__quiet | by apply keeps_any, delete_row_quiet
    | intros w; apply call_step; by intros v [= <-] ]).
Qed.

Lemma grace_deletes (P : Z -> Prop) vm li : P (v_id vm) -> keeps (Deletes P) (vm_on_grace_period_exceeded vm li).
Proof.
  intros Hp. unfold vm_on_grace_period_exceeded.
  frame_tac ltac:(first [ by apply delete_vm_deletes | apply keeps_any; auto 2 with quiet ]).
Qed.

(** The handler of a VM line item has one of its VMs. *)
Lemma handler_vm li w vm before : (make_line_item_handler li w).1 = Ok (VmLineItemHandler vm before) ->
  li_type li = Vps /\ (v_id vm, li_id li) ∈ vm_keys w.
Proof.
  enough (wp (make_line_item_handler li) (fun r _ => r = Ok (VmLineItemHandler vm before) ->
    li_type li = Vps /\ (v_id vm, li_id li) ∈ vm_keys w) w) as He by done.
  unfold make_line_item_handler, get_vm_by_line_item, get_vm. destruct (li_type li); try by sub_steps.
  sub_steps. destruct (fetch_one (filter (fun v => v_subscription_line_item_id v = li_id li /\ v_deleted v = false) _))
    as [v0|e] eqn:E0; [|done].
  apply fetch_one_in, list_elem_of_filter in E0 as [[El _] Hv0].
  sub_steps. destruct (fetch_one (filter (fun v => v_id v = v_id v0) _)) as [v1|e] eqn:E1; [|done].
  apply fetch_one_in, list_elem_of_filter in E1 as [Ei Hv1]. sub_steps.
  unfold wp. destruct (line_item_expires _ w) as [b w1]. cbn [fst snd]. intros [= <- _]. split; [done|].
  unfold vm_keys. rewrite Ei, <- El. by apply (list_elem_of_fmap_2 (fun v => (v_id v, v_subscription_line_item_id v))).
Qed.

Lemma each_grace_deletes (P : Z -> Prop) sub items w :
  (forall li, li ∈ items -> li ∈ w_items w /\ li_subscription_id li = s_id sub) ->
  (forall v, vm_of w sub v -> P v) ->
  Deletes P w (each_handler on_grace_period_exceeded items w).2.
Proof.
  revert w. induction items as [|li items IH]; intros w Hi Hp; cbn [each_handler]; [reflexivity|].
  rewrite bind_run. pose proof (make_handler_quiet li w) as Hq.
  pose proof (handler_vm li w) as Hv. destruct (make_line_item_handler li w) as [h w1]. cbn [fst snd] in *.
  rewrite bind_run. destruct (Hi li) as [Hli Els]; [by left|].
  assert (Deletes P w1 ((match h with Ok h => on_grace_period_exceeded h li | Err _ => mret tt end) w1).2) as Hd.
  { destruct h as [[vm before|]|e]; [|reflexivity..]. apply grace_deletes, Hp.
    destruct (Hv vm before eq_refl) as [Et Hin]. by exists li. }
  assert (Deletes P w ((match h with Ok h => on_grace_period_exceeded h li | Err _ => mret tt end) w1).2) as Hw.
  { etrans; [by apply Quiet_any|exact Hd]. }
  etrans; [exact Hw|]. apply IH.
  - intros li' Hli'. rewrite (de_items _ _ _ Hw). apply Hi. by right.
  - intros v Hvm. apply Hp. by apply (vm_of_step P _ _ _ _ Hw).
Qed.

(** ** The check of a subscription *)

(** Past its grace period, by two clock readings of [n0] to [n1]. *)
Definition overdue (sub : Subscription) (n0 n1 : nat) : Prop :=
  exists e n m, s_expires sub = Some e /\ (n0 <= n <= m)%nat /\ (m < n1)%nat /\
    e + grace_period_days_for_sub sub (clk n) delete_after * DAY < clk m.

Context (renew_quiet : forall id, keeps Quiet (auto_renew id)).

Lemma expired_entry_quiet e items b : keeps Quiet (expired_entry e items b).
Proof.
  revert b. induction items as [|li items IH]; intros b; cbn [expired_entry]; [apply keeps_ret, _|].
  unfold get_vm_by_line_item, list_vm_history. frame_tac ltac:(apply IH).
Qed.
Lemma handle_expired_quiet sub items last : keeps Quiet (handle_expired delete_after sub items last).
Proof.
  unfold handle_expired, subscription_expiry_already_handled.
  frame_tac ltac:(first [ apply expired_entry_quiet | auto 2 with quiet ]).
  all: apply (each_handler_keeps Quiet); [apply make_handler_quiet|intros; apply on_expired_quiet].
Qed.
Lemma handle_expiring_quiet sub : keeps Quiet (handle_expiring_soon auto_renew sub).
Proof.
  unfold handle_expiring_soon, list_user_payment_methods.
  frame_tac ltac:(first [ apply renew_quiet | auto 2 with quiet ]).
Qed.
Lemma update_subscription_quiet s : keeps Quiet (update_subscription s).
Proof. unfold update_subscription. apply exec_quiet. by repeat split. Qed.

Lemma handle_deletes sub last w w' : (handle_subscription_state delete_after auto_renew sub last w).2 = w' ->
  Deletes (fun v => vm_of w sub v /\ overdue sub (w_reads w) (w_reads w')) w w'.
Proof.
  unfold handle_subscription_state. destruct (s_expires sub) as [e|] eqn:Ee; [|by intros <-].
  unfold list_subscription_line_items. rewrite bind_run. cbn [db gets fst snd].
  rewrite bind_run. cbn [now fst snd].
  assert (Quiet w (bump_reads w)) as Q1 by apply (now_quiet w).
  destruct (_ && _).
  { intros <-. apply Quiet_any. etrans; [exact Q1|apply handle_expiring_quiet]. }
  rewrite bind_run. cbn [now fst snd]. rewrite bind_run. cbn [now fst snd].
  set (w3 := bump_reads (bump_reads (bump_reads w))).
  assert (Quiet w w3) as Q3 by (etrans; [exact Q1|]; etrans; [apply (now_quiet _)|apply (now_quiet _)]).
  destruct (_ <? _) eqn:Eg.
  - intros <-. zbool. unfold handle_grace_exceeded. rewrite bind_run, bind_run.
    set (w4 := (update_subscription _ w3).2). set (w5 := (queue_notification _ _ w4).2).
    assert (Quiet w3 w5) as Q by (etrans; [apply update_subscription_quiet|apply queue_quiet]).
    assert (Quiet w w5) as Q5 by (etrans; [exact Q3|exact Q]).
    set (w6 := (each_handler on_grace_period_exceeded _ w5).2).
    assert (Deletes (vm_of w sub) w5 w6) as D.
    { apply (each_grace_deletes _ sub).
      - intros li [Hs Hli]%list_elem_of_filter. by rewrite (de_items _ _ _ Q5).
      - intros v Hv. by apply (vm_of_step _ _ _ _ _ Q5). }
    assert (Deletes (vm_of w sub) w w6) as D6 by (etrans; [by apply Quiet_any|exact D]).
    eapply Deletes_mono; [|exact D6]. intros v Hv. split; [exact Hv|].
    exists e, (S (w_reads w)), (S (S (w_reads w))). split; [done|]. split; [lia|]. split; [|exact Eg].
    pose proof (de_reads _ _ _ D) as R1. pose proof (de_reads _ _ _ Q) as R2.
    cbn [w3 w_reads bump_reads] in R2. lia.
  - rewrite bind_run. cbn [now fst snd]. intros <-. apply Quiet_any. etrans; [exact Q3|].
    destruct (e <? clk (w_reads w3)); [|apply (now_quiet _)]. etrans; [apply (now_quiet _)|apply handle_expired_quiet].
Qed.

Lemma overdue_wider sub n0 n1 m0 m1 : (m0 <= n0)%nat -> (n1 <= m1)%nat -> overdue sub n0 n1 -> overdue sub m0 m1.
Proof. intros L1 L2 (e & n & m & ? & ? & ? & ?). exists e, n, m. split_and!; [done|lia|lia|lia|done]. Qed.

Lemma handle_all_deletes subs last w :
  let w' := (handle_all delete_after auto_renew subs last w).2 in
  Deletes (fun v => exists sub, sub ∈ subs /\ vm_of w sub v /\ overdue sub (w_reads w) (w_reads w')) w w'.
Proof.
  revert w. induction subs as [|sub subs IH]; intros w; cbn [handle_all]; [reflexivity|].
  rewrite bind_run. set (w1 := (handle_subscription_state delete_after auto_renew sub last w).2).
  set (w2 := (handle_all delete_after auto_renew subs last w1).2).
  pose proof (handle_deletes sub last w w1 eq_refl) as D1.
  pose proof (IH w1) as D2. cbv zeta in D2. fold w2 in D2.
  pose proof (de_reads _ _ _ D1) as R1. pose proof (de_reads _ _ _ D2) as R2.
  etrans; (eapply Deletes_mono; [|eassumption]).
  - intros v [Hv Ho]. exists sub. split; [by left|]. split; [done|]. by eapply overdue_wider; [| |exact Ho].
  - intros v (s & Hs & Hv & Ho). exists s. split; [by right|].
    split; [by apply (vm_of_step _ _ _ _ _ D1)|]. by eapply overdue_wider; [| |exact Ho].
Qed.

Lemma check_deletes w w' : (check_subscriptions delete_after auto_renew w).2 = w' ->
  Deletes (fun v => exists sub, sub ∈ w_subs w /\ s_is_active sub = true /\ vm_of w sub v /\
    overdue sub (w_reads w) (w_reads w')) w w'.
Proof.
  unfold check_subscriptions, get_last_check_subscriptions.
  rewrite bind_run. cbn [db gets fst snd]. rewrite bind_run. cbn [now fst snd].
  assert (Quiet w (bump_reads w)) as Q1 by apply (now_quiet w).
  destruct (_ <? CHECK_SECONDS); [intros <-; by apply Quiet_any|].
  unfold list_lifecycle_subscriptions. rewrite bind_run. cbn [db gets fst snd].
  rewrite bind_run. set (w2 := (handle_all _ _ _ _ _).2).
  rewrite bind_run. cbn [now fst snd].
  set (w3 := (set_last_check_subscriptions _ _).2). intros <-.
  assert (Quiet w2 w3) as Q3.
  { etrans; [apply (now_quiet w2)|]. unfold w3, set_last_check_subscriptions. by apply exec_quiet. }
  pose proof (handle_all_deletes (filter (fun s => s_is_active s = true /\ is_Some (s_expires s)) (w_subs w))
    (default 0 (w_last_subs w)) (bump_reads w)) as D. cbv zeta in D. fold w2 in D.
  pose proof (de_reads _ _ _ D) as R2. pose proof (de_reads _ _ _ Q3) as R3. pose proof (de_reads _ _ _ Q1) as R1.
  etrans; [by apply Quiet_any|]. etrans; [|by apply Quiet_any]. eapply Deletes_mono; [|exact D].
  intros u (sub & [[Ha _] Hs]%list_elem_of_filter & Hv & Ho). exists sub.
  split; [done|]. split; [done|]. split; [by apply (vm_of_step _ _ _ _ _ Q1)|].
  by eapply overdue_wider; [| |exact Ho].
Qed.

(** C15: a VM is safe while its subscription runs or is in its grace period: when
    a check of the subscriptions asks a host to delete a VM, then the VM is one
    of an active subscription that has expired, and its grace period, counted
    at a moment of this check from the subscription's age, was over at a later
    moment of the check. *)
Theorem grace_protects w v :
  let w' := (check_subscriptions delete_after auto_renew w).2 in
  HostDeleteVm v ∈ calls_between w w' ->
  exists sub, sub ∈ w_subs w /\ s_is_active sub = true /\ vm_of w sub v /\
    overdue sub (w_reads w) (w_reads w').
Proof. cbv zeta. exact (Deletes_log _ _ _ v (check_deletes w _ eq_refl)). Qed.
End worker.
