(* ===== verification/SubExpiry.v ===== *)
(** * The life of a subscription: expiry is handled once *)

From S2P Require Import Prelude NetText IpAlloc Network HostTypes SubDb IpProvision SubLife.

(** ** The VMs stay and the history grows *)
Record Grows (w w' : World) : Prop := {
  gr_items : w_items w' = w_items w;
  gr_vms : w_vms w' = w_vms w;
  gr_reads : (w_reads w <= w_reads w')%nat;
  gr_history : exists new, w_history w' = w_history w ++ new
}.
#[export] Instance Grows_pre : PreOrder Grows.
Proof.
  split.
  - intros w. split; [done|done|done|]. exists []. by rewrite app_nil_r.
  - intros w1 w2 w3 [E1 E2 E3 (n1 & E4)] [F1 F2 F3 (n2 & F4)].
    split; [congruence|congruence|lia|]. exists (n1 ++ n2). by rewrite F4, E4, app_assoc.
Qed.
Lemma Grows_same w w' : w_items w' = w_items w -> w_vms w' = w_vms w -> (w_reads w <= w_reads w')%nat ->
  w_history w' = w_history w -> Grows w w'.
Proof. intros E1 E2 E3 E4. split; [done|done|done|]. exists []. by rewrite E4, app_nil_r. Qed.
Lemma in_history_later w w' h : Grows w w' -> h ∈ w_history w -> h ∈ w_history w'.
Proof. intros [_ _ _ (n & ->)] Hh. apply elem_of_app. by left. Qed.

Section growing.
Context `{!NetLib, !Clock, !Remote}.
Context (delete_after : Z).

Lemma now_grows : keeps Grows now.
Proof. intros w. apply Grows_same; [done|done|exact (Nat.le_succ_diag_r _)|done]. Qed.
Lemma call_grows c : keeps Grows (call c).
Proof. intros w. by apply Grows_same. Qed.
Lemma call__grows c : keeps Grows (call_ c).
Proof. intros w. by apply Grows_same. Qed.
Lemma history_grows vm a : keeps Grows (insert_vm_history vm a).
Proof.
  intros w. split; [done|done|exact (Nat.le_succ_diag_r _)|]. by eexists [_].
Qed.
Lemma ranges_grows r : keeps Grows (update_ip_range_subscription r).
Proof. intros w. by apply Grows_same. Qed.

Ltac grows_tac := frame_tac ltac:(first
  [ apply now_grows | apply call_grows | apply call__grows | apply history_grows | apply ranges_grows ]).

Lemma queue_grows u n : keeps Grows (queue_notification u n).
Proof. unfold queue_notification. grows_tac. Qed.
Lemma line_item_expires_grows li : keeps Grows (line_item_expires li).
Proof. unfold line_item_expires, get_subscription_by_line_item_id. grows_tac. Qed.
Lemma make_handler_grows li : keeps Grows (make_line_item_handler li).
Proof.
  unfold make_line_item_handler, get_vm_by_line_item, get_vm.
  frame_tac ltac:(apply line_item_expires_grows).
Qed.
Lemma stop_vm_grows vm : keeps Grows (stop_vm vm).
Proof. unfold stop_vm, get_vm. grows_tac. Qed.
Lemma teardown_grows r k ips : keeps Grows (teardown_registry r k ips).
Proof. unfold teardown_registry. grows_tac. Qed.
Lemma deactivate_grows r k li : keeps Grows (deactivate_line_item r k li).
Proof.
  unfold deactivate_line_item, list_ip_range_subscriptions_by_line_item. apply keeps_bind; [apply _|apply keeps_gets, _|].
  intros l. induction l as [|ips l IH]; cbn [deactivate_all]; [apply keeps_ret, _|].
  apply keeps_bind; [apply _| |by intros _]. unfold deactivate_one.
  frame_tac ltac:(first [ apply teardown_grows | apply now_grows | apply ranges_grows ]).
Qed.
Lemma on_expired_grows h sub li : keeps Grows (on_expired delete_after h sub li).
Proof.
  destruct h; cbn [on_expired]; [unfold vm_on_expired|];
    frame_tac ltac:(first [ apply now_grows | apply stop_vm_grows | apply history_grows | apply queue_grows
                          | apply deactivate_grows ]).
Qed.
Lemma each_expired_grows sub items :
  keeps Grows (each_handler (fun h li => on_expired delete_after h sub li) items).
Proof.
  apply (each_handler_keeps Grows); [apply make_handler_grows|]. intros h li. apply on_expired_grows.
Qed.

(** ** The marker of a handled expiry *)

(** The live VM of a line item. *)
Definition live_vm (w : World) (li : SubscriptionLineItem) : option Vm :=
  if bool_decide (li_type li = Vps) then
    head (filter (fun v => v_subscription_line_item_id v = li_id li /\ v_deleted v = false) (w_vms w))
  else None.
(** It has an [Expired] entry no older than the expiry. *)
Definition marked (e : Z) (w : World) (li : SubscriptionLineItem) : bool :=
  match live_vm w li with
  | Some vm => existsb (fun h => bool_decide (vh_action h = Expired) && (e <=? vh_timestamp h))
                 (filter (fun h => vh_vm_id h = v_id vm) (w_history w))
  | None => false
  end.
Definition is_vps (li : SubscriptionLineItem) : bool := bool_decide (li_type li = Vps).

Lemma expired_entry_run e items b w : expired_entry e items b w =
  (if existsb (marked e w) items then (true, true) else (b || existsb is_vps items, false), w).
Proof.
  revert b. induction items as [|li items IH]; intros b; cbn [expired_entry existsb];
    [by rewrite orb_false_r|].
  unfold marked at 1, live_vm, is_vps at 1. destruct (bool_decide (li_type li = Vps)).
  - unfold get_vm_by_line_item, list_vm_history, db, gets. rewrite bind_run. cbn [fst snd].
    unfold fetch_one, ok_or. destruct (head _) as [vm|].
    + rewrite bind_run. cbn [fst snd]. destruct (existsb _ (filter _ _)); [done|]. rewrite IH.
      cbn [orb]. by rewrite !orb_true_r.
    + rewrite IH. cbn [orb]. by rewrite !orb_true_r.
  - rewrite IH. done.
Qed.

Lemma already_handled_run sub e items last w : s_expires sub = Some e ->
  subscription_expiry_already_handled sub items last w =
  (existsb (marked e w) items || (negb (existsb is_vps items) && (e <? last)), w).
Proof.
  intros He. unfold subscription_expiry_already_handled. rewrite He, bind_run, expired_entry_run.
  cbn [fst snd]. destruct (existsb (marked e w) items); [done|]. cbn [orb]. by destruct (existsb is_vps items).
Qed.

Lemma marked_later e w w' li : Grows w w' -> marked e w li = true -> marked e w' li = true.
Proof.
  intros Hg. unfold marked, live_vm. rewrite (gr_vms _ _ Hg).
  destruct (bool_decide _); [|done]. destruct (head _) as [vm|]; [|done].
  rewrite !existsb_exists. setoid_rewrite <- list_elem_of_In. intros (h & [Ei Hh]%list_elem_of_filter & Hx).
  exists h. split; [|done]. apply list_elem_of_filter. split; [done|]. by eapply in_history_later.
Qed.

(** Handling a live VM's line item leaves its marker. *)
Lemma on_expired_marks sub e li vm w : live_vm w li = Some vm ->
  (forall n, (w_reads w <= n)%nat -> e <= whole_seconds (clk n)) ->
  marked e ((h ← make_line_item_handler li;
             match h with Ok h => on_expired delete_after h sub li | Err _ => mret tt end) w).2 li = true.
Proof.
  intros Hl Hclk. rewrite bind_run. pose proof (make_handler_grows li w) as G.
  assert (exists vm' before, (make_line_item_handler li w).1 = Ok (VmLineItemHandler vm' before) /\
    v_id vm' = v_id vm /\ li_type li = Vps) as (vm' & before & -> & Eid & Et).
  { unfold live_vm in Hl. case_bool_decide as Et; [|done]. unfold make_line_item_handler. rewrite Et.
    unfold try_bind at 1, get_vm_by_line_item, db, gets. rewrite bind_run. cbn [fst snd].
    unfold fetch_one at 1. rewrite Hl. cbn [ok_or]. unfold try_bind, get_vm, db, gets. rewrite bind_run. cbn [fst snd].
    assert (vm ∈ w_vms w) as Hvm.
    { destruct (filter _ _) as [|x l] eqn:Ef; [done|]. cbn in Hl. injection Hl as ->.
      assert (vm ∈ vm :: l) as Hin by (by left). rewrite <- Ef in Hin.
      by apply list_elem_of_filter in Hin as [_ ?]. }
    assert (vm ∈ filter (fun v => v_id v = v_id vm) (w_vms w)) as Hin by by apply list_elem_of_filter.
    unfold fetch_one. destruct (filter (fun v => v_id v = v_id vm) (w_vms w)) as [|x l] eqn:Ef;
      [by apply not_elem_of_nil in Hin|]. cbn [head ok_or].
    assert (x ∈ x :: l) as Hx by (by left). rewrite <- Ef in Hx. apply list_elem_of_filter in Hx as [Ex _].
    rewrite bind_run. eexists x, _. by split_and!. }
  set (w1 := (make_line_item_handler li w).2) in *. cbn [on_expired]. unfold vm_on_expired.
  rewrite bool_decide_true by done. rewrite !bind_run. cbn [now fst snd].
  set (w2 := (stop_vm _ _).2).
  assert (Grows w w2) as G2.
  { etrans; [exact G|]. etrans; [apply (now_grows w1)|apply stop_vm_grows]. }
  set (w3 := (insert_vm_history (v_id vm') Expired w2).2).
  assert (marked e w3 li = true) as Hm.
  { unfold marked. assert (live_vm w3 li = Some vm) as ->.
    { unfold live_vm in *. cbn [w3 insert_vm_history w_vms]. by rewrite <- Hl, <- (gr_vms _ _ G2). }
    apply existsb_exists. exists {| vh_vm_id := v_id vm'; vh_action := Expired;
      vh_timestamp := whole_seconds (clk (w_reads w2)) |}. rewrite <- list_elem_of_In. split.
    - apply list_elem_of_filter. split; [done|]. apply elem_of_app. right. by left.
    - cbn. apply Z.leb_le, Hclk, (gr_reads _ _ G2). }
  eapply marked_later; [apply (queue_grows _ _ w3)|exact Hm].
Qed.

Lemma each_expired_marks sub e items li vm w : li ∈ items -> live_vm w li = Some vm ->
  (forall n, (w_reads w <= n)%nat -> e <= whole_seconds (clk n)) ->
  marked e (each_handler (fun h li => on_expired delete_after h sub li) items w).2 li = true.
Proof.
  revert w. induction items as [|x items IH]; intros w Hin Hl Hclk; [by apply not_elem_of_nil in Hin|].
  set (step := fun h : res Fail Handler => match h with Ok h => on_expired delete_after h sub x | Err _ => mret tt end).
  assert (keeps Grows (make_line_item_handler x ≫= step)) as G.
  { apply keeps_bind; [apply _|apply make_handler_grows|]. intros [h|e']; [apply on_expired_grows|apply keeps_ret, _]. }
  assert (each_handler (fun h li => on_expired delete_after h sub li) (x :: items) w =
    each_handler (fun h li => on_expired delete_after h sub li) items ((make_line_item_handler x ≫= step) w).2) as ->.
  { cbn [each_handler]. by rewrite !bind_run. }
  apply elem_of_cons in Hin as [->|Hin].
  - eapply marked_later; [apply each_expired_grows|]. by eapply on_expired_marks.
  - apply IH; [done| |].
    + unfold live_vm in *. by rewrite (gr_vms _ _ (G w)).
    + intros n Hn. apply Hclk. pose proof (gr_reads _ _ (G w)). lia.
Qed.

(** The expiry of a subscription with a live VM is handled once: after the
    worker has handled it, and whatever it or anybody else adds to the history
    afterwards, handling it again does nothing, whenever the last check was. *)
Theorem expired_fires_once sub e items li vm last last' w w2
    (He : s_expires sub = Some e) (Hli : li ∈ items) (Hvm : live_vm w li = Some vm)
    (Hclk : forall n, (w_reads w <= n)%nat -> e <= whole_seconds (clk n))
    (Hlater : Grows (handle_expired delete_after sub items last w).2 w2) :
  handle_expired delete_after sub items last' w2 = (tt, w2).
Proof.
  assert (existsb (marked e (handle_expired delete_after sub items last w).2) items = true) as Hm.
  { unfold handle_expired. rewrite bind_run, (already_handled_run _ e) by done. cbn [fst snd].
    assert (existsb is_vps items = true) as ->.
    { apply existsb_exists. exists li. rewrite <- list_elem_of_In. split; [done|].
      unfold live_vm in Hvm. unfold is_vps. by destruct (bool_decide _). }
    cbn [negb andb]. rewrite orb_false_r. destruct (existsb (marked e w) items) eqn:Em; [done|].
    rewrite bind_run. apply existsb_exists. exists li. rewrite <- list_elem_of_In. split; [done|].
    eapply each_expired_marks; [done| |].
    - unfold live_vm in *. by rewrite (gr_vms _ _ (queue_grows _ _ w)).
    - intros n Hn. apply Hclk. pose proof (gr_reads _ _ (queue_grows (s_user_id sub) SubscriptionExpired w)). lia. }
  unfold handle_expired at 1. rewrite bind_run, (already_handled_run _ e) by done. cbn [fst snd].
  assert (existsb (marked e w2) items = true) as ->; [|done].
  apply existsb_exists in Hm as (x & Hx & Hm). apply existsb_exists. exists x. split; [done|].
  by eapply marked_later.
Qed.

(** Finding. The marker is kept with the VM: when the VM of an active
    subscription was deleted, its expiry is never marked, and every check until
    the grace period is over tells the customer again that the subscription has
    expired. *)
Theorem deleted_vm_expiry_repeats sub e items last n w (He : s_expires sub = Some e)
    (Hvps : existsb is_vps items = true)
    (Hdead : Forall (fun li => li_type li = Vps /\ live_vm w li = None) items) :
  calls_between w (Nat.iter n (fun w => (handle_expired delete_after sub items last w).2) w) =
  replicate n (SendJob (SendNotification (s_user_id sub) SubscriptionExpired)).
Proof.
  set (c := SendJob _). apply calls_between_app.
  enough (w_vms (Nat.iter n (fun w => (handle_expired delete_after sub items last w).2) w) = w_vms w /\
    (w_calls (Nat.iter n (fun w => (handle_expired delete_after sub items last w).2) w)).*1 =
    (w_calls w).*1 ++ replicate n c) as [_ E] by exact E.
  induction n as [|n [IHv IHc]]; [by rewrite app_nil_r|]. rewrite Nat.iter_succ.
  set (wn := Nat.iter n _ w) in *.
  assert (Forall (fun li => li_type li = Vps /\ live_vm wn li = None) items) as Hd.
  { unfold live_vm in *. by rewrite IHv. }
  assert (existsb (marked e wn) items = false) as Hm.
  { apply not_true_is_false. intros (li & Hli & Hm)%existsb_exists. rewrite <- list_elem_of_In in Hli.
    pose proof (proj1 (Forall_forall _ _) Hd li Hli) as [_ El]. unfold marked in Hm. by rewrite El in Hm. }
  unfold handle_expired. rewrite bind_run, (already_handled_run _ e), Hm, Hvps by done. cbn [fst snd orb negb andb].
  rewrite bind_run. unfold queue_notification. rewrite bind_run. cbn [fst snd call mret ST_ret].
  set (w' := push_call _ _ wn).
  assert (each_handler (fun h li => on_expired delete_after h sub li) items w' = (tt, w')) as ->.
  { assert (Forall (fun li => li_type li = Vps /\ live_vm w' li = None) items) as Hd' by exact Hd.
    clearbody w'. clear - Hd'. induction Hd' as [|li its [Et El] _ IH]; [done|]. cbn [each_handler].
    rewrite bind_run. unfold live_vm in El. rewrite bool_decide_true in El by done.
    unfold make_line_item_handler. rewrite Et. unfold try_bind, get_vm_by_line_item, db, gets. 
    rewrite bind_run. unfold fetch_one. rewrite bind_run. cbn [fst snd]. rewrite El. exact IH. }
  split; [exact IHv|]. cbn [w' push_call w_calls snd]. rewrite fmap_app, IHc, <- app_assoc. f_equal.
  exact (eq_sym (replicate_S_end n c)).
Qed.
End growing.
