(* ===== verification/SubPurge.v ===== *)
(** * The life of a subscription: VMs that were never paid *)

From S2P Require Import Prelude NetText IpAlloc Network HostTypes SubDb IpProvision SubLife.

Lemma filter_key {A} (f : A -> Z) (l : list A) x : NoDup (f <$> l) -> x ∈ l ->
  filter (fun y => f y = f x) l = [x].
Proof.
  induction l as [|y l IH]; [by intros _ ?%not_elem_of_nil|].
  rewrite fmap_cons, NoDup_cons, filter_cons. intros [Hn Hl] Hx.
  assert (forall z, z ∈ l -> f z <> f y) as Hne.
  { intros z Hz E. apply Hn. rewrite <- E. by apply (list_elem_of_fmap_2 f). }
  apply elem_of_cons in Hx as [->|Hx].
  - rewrite decide_True by done. f_equal. clear - Hne. induction l as [|z l IH]; [done|].
    rewrite filter_cons, decide_False by (apply Hne; by left). apply IH. intros u Hu. apply Hne. by right.
  - rewrite decide_False; [by apply IH|]. intros E. by apply (Hne x).
Qed.
Lemma bind_single {A B} (f : A -> list B) x : [x] ≫= f = f x.
Proof. rewrite bind_cons. apply app_nil_r. Qed.
Lemma NoDup_key_filter {A} (f : A -> Z) (P : A -> Prop) `{forall x, Decision (P x)} (l : list A) :
  NoDup (f <$> l) -> NoDup (f <$> filter P l).
Proof. apply NoDup_map_filter. Qed.

Section purge.
Context `{!Clock, !Remote}.
(** A VM of a subscription that was set up. *)
Context (sub : Subscription) (item : SubscriptionLineItem) (vm : Vm).
Context (Hitem : li_subscription_id item = s_id sub) (Hvm : v_subscription_line_item_id vm = li_id item).
Context (Hsetup : s_is_setup sub = true).

(** The ids are keys, and all three rows are there. *)
Record Kept (w : World) : Prop := {
  kp_subs : NoDup (s_id <$> w_subs w);
  kp_items : NoDup (li_id <$> w_items w);
  kp_vms : NoDup (v_id <$> w_vms w);
  kp_sub : sub ∈ w_subs w;
  kp_item : item ∈ w_items w;
  kp_vm : vm ∈ w_vms w
}.
(** Rows are only removed, and the VM's deletion is not asked for. *)
Record Spares (w w' : World) : Prop := {
  sp_kept : Kept w -> Kept w';
  sp_vms : w_vms w' ⊆ w_vms w;
  sp_calls : HostDeleteVm (v_id vm) ∈ (w_calls w').*1 -> HostDeleteVm (v_id vm) ∈ (w_calls w).*1
}.
#[export] Instance Spares_pre : PreOrder Spares.
Proof.
  split; [by intros w; split|]. intros w1 w2 w3 [? ? ?] [? ? ?]. split; [auto|set_solver|auto].
Qed.

Lemma same_spares w w' : w_subs w' = w_subs w -> w_items w' = w_items w -> w_vms w' = w_vms w ->
  w_calls w' = w_calls w -> Spares w w'.
Proof.
  intros E1 E2 E3 E4. split; rewrite ?E3, ?E4; [|done|done].
  intros [? ? ? ? ? ?]. split; by rewrite ?E1, ?E2, ?E3.
Qed.
Lemma call_spares w c ok : c <> HostDeleteVm (v_id vm) -> Spares w (push_call c ok w).
Proof.
  intros Hc. split; [intros [? ? ? ? ? ?]; by split|done|]. cbn [w_calls push_call]. rewrite fmap_app.
  intros [?|E%list_elem_of_singleton]%elem_of_app; [done|]. by destruct Hc.
Qed.
Lemma now_spares : keeps Spares now.
Proof. intros w. by apply same_spares. Qed.
Lemma call_keeps c : c <> HostDeleteVm (v_id vm) -> keeps Spares (call c).
Proof. intros Hc w. by apply call_spares. Qed.
Lemma call__keeps c : c <> HostDeleteVm (v_id vm) -> keeps Spares (call_ c).
Proof. intros Hc w. by apply call_spares. Qed.

Lemma fetch_sub w : Kept w ->
  get_subscription_by_line_item_id (v_subscription_line_item_id vm) w = (Ok sub, w).
Proof.
  intros K. unfold get_subscription_by_line_item_id, db, gets. f_equal.
  rewrite Hvm, (filter_key li_id _ item (kp_items _ K) (kp_item _ K)), bind_single.
  rewrite Hitem, (filter_key s_id _ sub (kp_subs _ K) (kp_sub _ K)). done.
Qed.

(** The subscription of another line item that is not set up is another one. *)
Lemma other_sub w li s : Kept w -> (get_subscription_by_line_item_id li w).1 = Ok s ->
  s_is_setup s = false ->
  exists i, i ∈ w_items w /\ li_id i = li /\ li_subscription_id i = s_id s /\ s_id s <> s_id sub.
Proof.
  intros K E Hs. apply fetch_one_in, list_elem_of_bind in E as (i & Hs' & [Ei Hi]%list_elem_of_filter).
  apply list_elem_of_filter in Hs' as [Es Hin]. exists i. split_and!; [done|done|done|].
  intros E. assert (s = sub) as -> by (by apply (NoDup_key s_id _ s sub (kp_subs _ K) Hin (kp_sub _ K))).
  congruence.
Qed.

(** Removing a VM and a subscription that are others. *)
Lemma hard_delete_spares x i w : Kept w -> x ∈ w_vms w -> v_id x <> v_id vm -> i ∈ w_items w ->
  li_id i = v_subscription_line_item_id x -> li_subscription_id i <> s_id sub ->
  Spares w (hard_delete_vm (v_id x) w).2.
Proof.
  intros K Hx Hne Hi Ei Hsub. refine (_ : wp _ (fun _ w' => Spares w w') w).
  unfold hard_delete_vm, list_subscription_line_items. apply wp_transaction. sub_steps.
  rewrite (filter_key v_id _ x (kp_vms _ K) Hx), bind_single.
  rewrite <- Ei, (filter_key li_id _ i (kp_items _ K) Hi), bind_single. cbn [head].
  sub_steps. destruct (existsb _ _); [by apply same_spares|]. sub_steps.
  split; [intros _|by intros y [_ Hy]%list_elem_of_filter|done].
  split; cbn; [by apply NoDup_key_filter, K|by apply NoDup_key_filter, K|by apply NoDup_key_filter, K| | |];
    apply list_elem_of_filter; (split; [|apply K]); [done|congruence|done].
Qed.

Lemma delete_vm_spares x i w : Kept w -> x ∈ w_vms w -> v_id x <> v_id vm -> i ∈ w_items w ->
  li_id i = v_subscription_line_item_id x -> li_subscription_id i <> s_id sub ->
  Spares w (delete_vm (v_id x) true w).2.
Proof.
  intros K Hx Hne Hi Ei Hsub. refine (_ : wp _ (fun _ w' => Spares w w') w).
  assert (forall w', Spares w w' -> w_items w' = w_items w -> w_vms w' = w_vms w ->
    wp (hard_delete_vm (v_id x)) (fun _ w2 => Spares w w2) w') as Hh.
  { intros w' S E1 E2. unfold wp. etrans; [exact S|].
    apply (hard_delete_spares x i); [by apply S|by rewrite E2|done|by rewrite E1|done|done]. }
  unfold delete_vm, get_vm. sub_steps. destruct (fetch_one _) as [v|e]; [|reflexivity].
  sub_steps. apply wp_call_. intros ok1 _. destruct ok1; [|by apply call_spares].
  sub_steps. apply wp_call_. intros ok2 _.
  assert (Spares w (push_call (HostDeleteVm (v_id x)) ok2 (push_call (HostClient (v_host_id v)) true w))) as S2.
  { etrans; [|apply call_spares; by intros [= ?]]. by apply call_spares. }
  destruct ok2; [|exact S2]. sub_steps. apply wp_call_. intros ok3 _.
  assert (Spares w (push_call (DeleteIpAssignments (v_id x)) ok3 (push_call (HostDeleteVm (v_id x)) true
    (push_call (HostClient (v_host_id v)) true w)))) as S3 by (etrans; [exact S2|by apply call_spares]).
  destruct ok3; [|exact S3]. by apply Hh.
Qed.

Lemma notify_spares n : keeps Spares (queue_admin_notification n).
Proof. unfold queue_admin_notification. frame_tac ltac:(by apply call_keeps). Qed.

(** [x] is a row of an earlier table. *)
Lemma delete_unpaid_spares x w0 w : NoDup (v_id <$> w_vms w0) -> x ∈ w_vms w0 -> vm ∈ w_vms w0 ->
  w_vms w ⊆ w_vms w0 -> Kept w -> Spares w (delete_unpaid x w).2.
Proof.
  intros Hid Hx0 Hv0 Hsub K. refine (_ : wp _ (fun _ w' => Spares w w') w). unfold delete_unpaid.
  destruct (decide (v_id x = v_id vm)) as [E|Hne].
  { assert (x = vm) as -> by (by apply (NoDup_key v_id _ x vm Hid)).
    apply wp_bind. unfold wp. rewrite fetch_sub by done. cbn [fst snd]. by rewrite Hsetup. }
  apply wp_bind. unfold wp at 1. pose proof (other_sub w (v_subscription_line_item_id x)) as Ho.
  unfold get_subscription_by_line_item_id, db, gets in *. cbn [fst snd] in *.
  destruct (fetch_one _) as [s|e]; [|apply notify_spares].
  destruct (s_is_setup s) eqn:Es; [by apply wp_ret|]. destruct (Ho s K eq_refl Es) as (i & Hi & Ei & Eis & Hs).
  unfold list_vm_subscription_payments. sub_steps. destruct (existsb _ _); [by apply same_spares|].
  apply wp_bind. set (w1 := bump_reads w). assert (Spares w w1) as S1 by by apply same_spares.
  eapply wp_mono with (P := fun _ w' => Spares w w').
  - unfold wp. destruct (decide (v_id x ∈ v_id <$> w_vms w)) as [Hx|Hx].
    + apply list_elem_of_fmap in Hx as (v & Ev & Hx).
      assert (v = x) as -> by (by apply (NoDup_key v_id _ v x Hid (Hsub v Hx) Hx0)).
      etrans; [exact S1|]. apply (delete_vm_spares x i); [by apply S1|done|done|done|done|congruence].
    + assert (filter (fun v => v_id v = v_id x) (w_vms w1) = []) as En.
      { destruct (filter _ _) as [|v l] eqn:Ef; [done|]. exfalso. apply Hx.
        assert (v ∈ v :: l) as Hv by (by left). rewrite <- Ef in Hv.
        apply list_elem_of_filter in Hv as [<- Hv]. by apply (list_elem_of_fmap_2 v_id). }
      unfold delete_vm, try_bind, get_vm, db, gets. rewrite bind_run. cbn [fst snd]. rewrite En. exact S1.
  - intros r w2 S2. destruct (is_ok r); [by sub_steps|]. unfold wp. etrans; [exact S2|apply notify_spares].
Qed.

Lemma delete_all_spares l w0 w : NoDup (v_id <$> w_vms w0) -> l ⊆ w_vms w0 -> vm ∈ w_vms w0 ->
  w_vms w ⊆ w_vms w0 -> Kept w -> Spares w (delete_all_unpaid l w).2.
Proof.
  intros Hid. revert w. induction l as [|x l IH]; intros w Hl Hv Hw K; cbn [delete_all_unpaid]; [reflexivity|].
  rewrite bind_run. pose proof (delete_unpaid_spares x w0 w Hid (Hl x ltac:(by left)) Hv Hw K) as S.
  etrans; [exact S|]. apply IH; [|done| |by apply S].
  - intros y Hy. apply Hl. by right.
  - pose proof (sp_vms _ _ S). set_solver.
Qed.

Lemma sort_vms_spares l : keeps Spares (sort_vms l).
Proof.
  induction l as [|x l IH]; cbn [sort_vms]; [apply keeps_ret, _|].
  unfold get_subscription_by_line_item_id. frame_tac ltac:(first [apply IH | apply now_spares]).
Qed.
Lemma sort_vms_sub l w : (sort_vms l w).1.1 ⊆ l.
Proof.
  revert w. induction l as [|x l IH]; intros w; cbn [sort_vms]; [done|].
  refine (_ : wp _ (fun r _ => r.1 ⊆ x :: l) w). unfold get_subscription_by_line_item_id. sub_steps.
  destruct (fetch_one _) as [s|e]; [|unfold wp; specialize (IH w); set_solver].
  sub_steps. unfold wp at 1. specialize (IH (bump_reads w)).
  destruct (sort_vms l (bump_reads w)) as [[del chk] w1]. cbn [fst snd] in *.
  unfold wp. cbn [fst mret ST_ret]. destruct (_ && _); [|destruct (s_is_setup s)]; cbn [fst]; set_solver.
Qed.

(** C33: The clean-up of unpaid VMs, as the check of the VMs does it before it checks the
    hosts, spares customers: a VM whose subscription was ever set up is not deleted by
    it, and its row, its line item and its subscription stay, whatever is deleted of
    others. *)
Theorem paid_vm_never_purged w (K : Kept w) :
  let w' := (purge_unpaid_vms w).2 in
  Kept w' /\ (HostDeleteVm (v_id vm) ∈ (w_calls w').*1 -> HostDeleteVm (v_id vm) ∈ (w_calls w).*1).
Proof.
  cbv zeta. enough (Spares w (purge_unpaid_vms w).2) as [S1 _ S3] by (split; [by apply S1|exact S3]).
  unfold purge_unpaid_vms, get_last_check_vms, list_vms. rewrite bind_run. cbn [db gets fst snd].
  rewrite bind_run. cbn [now fst snd]. set (w1 := bump_reads w).
  assert (Spares w w1) as S1 by by apply same_spares.
  destruct (_ <? CHECK_SECONDS); [exact S1|]. rewrite bind_run. cbn [db gets fst snd]. rewrite bind_run.
  set (vms := filter _ _). pose proof (sort_vms_spares vms w1) as S2. pose proof (sort_vms_sub vms w1) as Hl.
  destruct (sort_vms vms w1) as [[del chk] w2]. cbn [fst snd] in *.
  assert (Spares w w2) as S12 by (etrans; [exact S1|exact S2]).
  rewrite bind_run. assert (Spares w2 (delete_all_unpaid del w2).2) as S3.
  { apply (delete_all_spares del w); [apply K| |apply K|apply S12|by apply S12].
    intros x Hx. apply Hl in Hx. by apply list_elem_of_filter in Hx as [_ Hx]. }
  etrans; [exact S12|exact S3].
Qed.
End purge.
