(* ===== verification/SubWitness.v ===== *)
(** * The life of a subscription at concrete worlds

    The theorems applied, and runs of the worker that show where it does not do
    what it says. *)

From Stdlib Require Import Ascii String.
From S2P Require Import Prelude NetText IpAlloc Network HostTypes SubDb IpProvision SubLife.
From S2P Require Import IpProvisionProofs IpProvWitness SubLifeProofs SubWorkerProofs SubExpiry SubPurge.

Module LifeRuns.
Import RefNet ProvWitness.

(** Months of thirty days. *)
#[export] Instance thirty : Calendar := fun t n => t + n * (30 * DAY).
#[export] Instance thirty_laws : CalendarLaws.
Proof. intros t n Hn. unfold add_months, thirty. assert (0 < DAY) by done. nia. Qed.

(** The clock reads the given instants one after the other, then the last. *)
Fixpoint reads (l : list Z) (n : nat) : Z :=
  match l, n with
  | [], _ => 0
  | [t], _ => t
  | t :: _, O => t
  | _ :: l, S n => reads l n
  end.
Definition hours (h : Z) : Z := h * 3600 * SEC.
Definition no_renew : Z -> Act unit := fun _ => mret (Err Refused).

Definition vm_sub (created expires : Z) (setup : bool) : Subscription :=
  {| s_id := 1; s_user_id := 5; s_company_id := 1; s_name := "vm"; s_description := None;
     s_created := created; s_expires := Some expires; s_is_active := true; s_is_setup := setup;
     s_currency := "EUR"; s_interval_amount := 1; s_interval_type := Month; s_setup_fee := 0;
     s_auto_renewal_enabled := false; s_external_id := None |}.
Definition vm_item : SubscriptionLineItem :=
  {| li_id := 1; li_subscription_id := 1; li_type := Vps; li_name := "vm"; li_description := None;
     li_amount := 500; li_setup_amount := 0; li_configuration := None |}.
Definition vm7 : Vm :=
  {| v_id := 7; v_host_id := 3; v_template_id := Some 1; v_custom_template_id := None;
     v_subscription_line_item_id := 1; v_disk_id := 1; v_deleted := false; v_user_id := 5;
     v_ssh_key_id := Some 1; v_mac_address := "bc:24:11:00:00:01" |}.
Definition renewal (secs : option Z) : SubscriptionPayment :=
  {| p_id := [1]; p_subscription_id := 1; p_user_id := 5; p_created := 0; p_expires := hours 10000;
     p_amount := 500; p_currency := "EUR"; p_method := Lightning; p_type := Renewal;
     p_external_data := "invoice"; p_external_id := None; p_is_paid := false; p_time_value := secs;
     p_metadata := None; p_tax := 0; p_processing_fee := 0; p_paid_at := None;
     p_rate := SpecFloat.S754_zero false; p_tax_rate := None; p_tax_country_code := None; p_tax_treatment := None |}.
Definition vm_world (sub : Subscription) (vms : list Vm) (ps : list SubscriptionPayment) : World :=
  {| w_subs := [sub]; w_items := [vm_item]; w_payments := ps; w_vms := vms; w_history := [];
     w_spaces := []; w_ranges := []; w_methods := []; w_next_range := 1; w_last_subs := None;
     w_last_vms := None; w_calls := []; w_reads := 0; w_reported := [] |}.

(** *** Payments *)

(** Paid one day before the expiry, then delivered twice more. *)
Lemma payment_applied_once_witness :
  let sub := vm_sub 0 (30 * DAY) true in
  let w := vm_world sub [vm7] [renewal (Some 86400)] in
  let clk : Clock := reads [29 * DAY] in
  let run p := @complete_payment ref_netlib ref_show refs clk all_ok thirty p in
  w_subs (run (renewal (Some 86400)) w).2 = [vm_sub 0 (31 * DAY) true] /\
  w_subs (@deliver ref_netlib ref_show refs clk all_ok thirty
    [renewal (Some 86400); renewal (Some 86400)] (run (renewal (Some 86400)) w).2).2 =
    [vm_sub 0 (31 * DAY) true].
Proof.
  cbv zeta.
  destruct (@payment_applied_once ref_netlib ref_show refs (reads [29 * DAY]) all_ok thirty thirty_laws
    (renewal (Some 86400)) (vm_world (vm_sub 0 (30 * DAY) true) [vm7] [renewal (Some 86400)])
    (vm_sub 0 (30 * DAY) true)) as (E & _ & _ & Hagain).
  - apply NoDup_singleton.
  - by left.
  - reflexivity.
  - reflexivity.
  - intros secs [= <-]. vm_compute. discriminate.
  - vm_compute. discriminate.
  - split; [rewrite E; vm_compute; reflexivity|].
    change [renewal (Some 86400); renewal (Some 86400)] with ([renewal (Some 86400)] ++ [renewal (Some 86400)]).
    rewrite Hagain. vm_compute. reflexivity.
Defined.

(** *** Expiry *)

Definition expired_world : World := vm_world (vm_sub 0 (30 * DAY) true) [vm7] [].
Definition past_clock : Clock := reads [30 * DAY + hours 2].

Lemma no_renew_quiet id : keeps Quiet (no_renew id).
Proof. apply keeps_ret, _. Qed.

(** The VM of a subscription that ran out a month ago is deleted. *)
Lemma grace_protects_witness :
  let clk : Clock := reads [60 * DAY] in
  let w' := (@check_subscriptions ref_netlib clk all_ok 3 no_renew expired_world).2 in
  HostDeleteVm 7 ∈ calls_between expired_world w' /\
  exists sub, sub ∈ w_subs expired_world /\ s_is_active sub = true /\
    vm_of expired_world sub 7 /\ @overdue clk 3 sub 0 (w_reads w').
Proof.
  cbv zeta. assert (HostDeleteVm 7 ∈ calls_between expired_world
    (@check_subscriptions ref_netlib (reads [60 * DAY]) all_ok 3 no_renew expired_world).2) as Hin.
  { vm_compute. do 2 right. by left. }
  split; [exact Hin|].
  exact (@grace_protects ref_netlib (reads [60 * DAY]) all_ok 3 no_renew no_renew_quiet expired_world 7 Hin).
Defined.

Lemma expired_fires_once_witness :
  let sub := vm_sub 0 (30 * DAY) true in
  let run (w : World) := @handle_expired ref_netlib past_clock all_ok 3 sub [vm_item] (31 * DAY) w in
  length (w_calls (run expired_world).2) = 4%nat /\
  run (run expired_world).2 = (tt, (run expired_world).2).
Proof.
  cbv zeta. split; [vm_compute; reflexivity|].
  apply (@expired_fires_once ref_netlib past_clock all_ok 3 (vm_sub 0 (30 * DAY) true) (30 * DAY) [vm_item]
    vm_item vm7 (31 * DAY) (31 * DAY) expired_world).
  - reflexivity.
  - by left.
  - reflexivity.
  - intros n _. destruct n; vm_compute; discriminate.
  - reflexivity.
Defined.

(** The VM was deleted by an administrator; three checks, three messages. *)
Lemma deleted_vm_expiry_repeats_witness :
  let w := vm_world (vm_sub 0 (30 * DAY) true) [set_deleted true None vm7] [] in
  calls_between w (Nat.iter 3 (fun w =>
    (@handle_expired ref_netlib past_clock all_ok 3 (vm_sub 0 (30 * DAY) true) [vm_item] 0 w).2) w) =
  replicate 3 (SendJob (SendNotification 5 SubscriptionExpired)).
Proof.
  cbv zeta.
  apply (@deleted_vm_expiry_repeats ref_netlib past_clock all_ok 3 (vm_sub 0 (30 * DAY) true) (30 * DAY) [vm_item] 0 3).
  - reflexivity.
  - reflexivity.
  - by repeat constructor.
Defined.

(** *** VMs that were never paid *)

(** Two VMs of two subscriptions, the second one never paid: it goes. *)
Definition item2 : SubscriptionLineItem :=
  {| li_id := 2; li_subscription_id := 2; li_type := Vps; li_name := "vm"; li_description := None;
     li_amount := 500; li_setup_amount := 0; li_configuration := None |}.
Definition vm8 : Vm :=
  {| v_id := 8; v_host_id := 3; v_template_id := Some 1; v_custom_template_id := None;
     v_subscription_line_item_id := 2; v_disk_id := 1; v_deleted := false; v_user_id := 6;
     v_ssh_key_id := Some 1; v_mac_address := "ff:ff:ff:ff:ff:ff" |}.
Definition unpaid_sub : Subscription :=
  {| s_id := 2; s_user_id := 6; s_company_id := 1; s_name := "vm"; s_description := None;
     s_created := 0; s_expires := None; s_is_active := false; s_is_setup := false;
     s_currency := "EUR"; s_interval_amount := 1; s_interval_type := Month; s_setup_fee := 0;
     s_auto_renewal_enabled := false; s_external_id := None |}.
Definition two_vms : World :=
  {| w_subs := [vm_sub 0 (30 * DAY) true; unpaid_sub]; w_items := [vm_item; item2]; w_payments := [];
     w_vms := [vm7; vm8]; w_history := []; w_spaces := []; w_ranges := []; w_methods := [];
     w_next_range := 1; w_last_subs := None; w_last_vms := None; w_calls := []; w_reads := 0; w_reported := [] |}.

Lemma paid_vm_never_purged_witness :
  let w' := (@purge_unpaid_vms (reads [DAY]) all_ok two_vms).2 in
  w_vms w' = [vm7] /\ HostDeleteVm 8 ∈ (w_calls w').*1 /\ vm7 ∈ w_vms w' /\
  (HostDeleteVm 7 ∈ (w_calls w').*1 -> HostDeleteVm 7 ∈ (w_calls two_vms).*1).
Proof.
  cbv zeta. split; [vm_compute; reflexivity|]. split; [vm_compute; right; by left|].
  destruct (@paid_vm_never_purged (reads [DAY]) all_ok (vm_sub 0 (30 * DAY) true) vm_item vm7
    eq_refl eq_refl eq_refl two_vms) as [K Hcalls].
  - split; [apply (bool_decide_unpack _); by vm_compute..|by left|by left|by left].
  - split; [apply K|exact Hcalls].
Defined.

(** ** Where the worker falls short *)

(** Finding. Cancelling writes back the whole row the check started from:
    a payment that arrives between the worker's query and its decision is
    undone: the payment is marked paid and has extended the subscription, and
    then the subscription has its old expiry again, is inactive, and the paid VM
    is deleted. *)
Theorem stale_cancellation_undoes_payment :
  let sub := vm_sub 0 (30 * DAY) true in
  let w := vm_world sub [vm7] [renewal None] in
  let clk : Clock := reads [60 * DAY] in
  let w1 := (@complete_payment ref_netlib ref_show refs clk all_ok thirty (renewal None) w).2 in
  let w2 := (@handle_subscription_state ref_netlib clk all_ok 3 no_renew sub 0 w1).2 in
  w_subs w1 = [vm_sub 0 (90 * DAY) true] /\
  p_is_paid <$> w_payments w2 = [true] /\
  w_subs w2 = [set_inactive sub] /\
  w_vms w2 = [set_deleted true None vm7] /\
  HostDeleteVm 7 ∈ calls_between w1 w2.
Proof.
  cbv zeta. split; [vm_compute; reflexivity|]. split; [vm_compute; reflexivity|].
  split; [vm_compute; reflexivity|]. split; [vm_compute; reflexivity|]. vm_compute. do 2 right. by left.
Qed.

(** The deletion is refused by the host; everything else succeeds. *)
Definition host_down : Remote := fun n => negb (Nat.eqb n 2).

(** Finding. When the host does not delete the VM at the end of the grace
    period, nobody tries again: the subscription is inactive and no later check
    looks at it, the VM keeps its row and its place on the host, and the
    administrators have been told that it was deleted. *)
Theorem failed_deletion_never_retried :
  let clk : Clock := reads [60 * DAY; 60 * DAY; 60 * DAY; 60 * DAY; 60 * DAY; 61 * DAY] in
  let check (w : World) := (@check_subscriptions ref_netlib clk host_down 3 no_renew w).2 in
  let w1 := check expired_world in
  w_calls w1 =
    [(SendJob (SendNotification 5 SubscriptionCancelled), true); (HostClient 3, true);
     (HostDeleteVm 7, false); (SendJob (SendAdminNotification (VmDeleted 7)), true)] /\
  w_vms w1 = [vm7] /\ w_vms (check w1) = [vm7] /\ w_calls (check w1) = w_calls w1.
Proof. vm_compute. split_and!; reflexivity. Qed.

(** Finding. The number of days a message promises is the grace period at
    the age the subscription has then; at the age of 180 days the period drops
    from 14 to [delete_after] (3 by default), so that a VM that expired shortly
    before is deleted days earlier than its owner was told. *)
Theorem grace_promise_broken :
  let sub := vm_sub 0 (175 * DAY) true in
  let w := vm_world sub [vm7] [] in
  let handle (t : Z) (w : World) := (@handle_subscription_state ref_netlib (reads [t]) all_ok 3 no_renew sub (175 * DAY) w).2 in
  let w1 := handle (175 * DAY + hours 1) w in
  let w2 := handle (181 * DAY + hours 1) w1 in
  (SendJob (SendNotification 5 (VmExpired 7 14)), true) ∈ w_calls w1 /\
  HostDeleteVm 7 ∈ calls_between w1 w2 /\ v_deleted <$> w_vms w2 = [true].
Proof.
  cbv zeta. split; [vm_compute; do 3 right; by left|]. split; [vm_compute; do 2 right; by left|].
  vm_compute. reflexivity.
Qed.

(** Finding. For a subscription without a VM the time of the last check
    stands for having been handled, and it is taken after the checks: an address
    range that expires while the check runs is handled by no later one, neither
    as expired nor, its handler having nothing to do then, at the end of the
    grace period; the allocation stays active. *)
Theorem expiry_during_check_missed :
  let s1 := sub 1 in
  let sub1 := activate (100 * SEC) s1 in
  let w := {| w_subs := [sub1]; w_items := [item 1]; w_payments := []; w_vms := []; w_history := [];
     w_spaces := [space1]; w_ranges := [range1 true None]; w_methods := []; w_next_range := 2;
     w_last_subs := Some 0; w_last_vms := None; w_calls := []; w_reads := 0; w_reported := [] |} in
  let check (l : list Z) (w : World) := (@check_subscriptions ref_netlib
    (fun n => reads l (n - w_reads w)) all_ok 3 no_renew w).2 in
  let w1 := check [99 * SEC; 99 * SEC; 99 * SEC; 99 * SEC; 99 * SEC; 102 * SEC] w in
  let w2 := check [200 * SEC] w1 in
  let w3 := check [30 * DAY] w2 in
  w_ranges w2 = [range1 true None] /\
  s_is_active <$> w_subs w3 = [false] /\ w_ranges w3 = [range1 true None].
Proof. vm_compute. split_and!; reflexivity. Qed.
End LifeRuns.
