(* ===== verification/PricingWitness.v ===== *)
(** * Prices at a concrete catalog

    The theorems on prices applied: a currency crate of three currencies, a country
    crate of four countries, and a catalog of one company that sells in Ireland. *)

From Stdlib Require Import Ascii String SpecFloat.
From S2P Require Import Prelude NetText IpAlloc Network HostTypes Exchange SubDb Pricing PricingMath PricingProofs SubWitness.

Module PriceRuns.
Import RefNet LifeRuns.

(** *** The crates *)

Inductive Cur : Type := CBtc | CEur | CUsd.
#[export] Instance Cur_eq_dec : EqDecision Cur.
Proof. solve_decision. Defined.
Definition cur_number (c : Cur) : positive := match c with CBtc => 1 | CEur => 2 | CUsd => 3 end.
Definition cur_of_number (n : positive) : option Cur :=
  match n with 1%positive => Some CBtc | 2%positive => Some CEur | _ => Some CUsd end.
Lemma cur_numbered c : cur_of_number (cur_number c) = Some c.
Proof. by destruct c. Qed.
#[export] Instance Cur_countable : Countable Cur :=
  {| encode := cur_number; decode := cur_of_number; decode_encode := cur_numbered |}.
(** An amount keeps its value at 64 bits. *)
#[export] Instance ref_payments : PaymentsRs := {|
  Currency := Cur; BTC := CBtc; EUR := CEur;
  parse_currency s :=
    if String.eqb s "BTC" then Some CBtc else if String.eqb s "EUR" then Some CEur
    else if String.eqb s "USD" then Some CUsd else None;
  show_currency c := (match c with CBtc => "BTC" | CEur => "EUR" | CUsd => "USD" end)%string;
  CurrencyAmount := Cur * Z;
  from_u64 c v := (c, v);
  currency := fst;
  value a := wrap 64 a.2;
  amount_sub a b :=
    if decide (a.1 = b.1 /\ wrap 64 b.2 <= wrap 64 a.2) then Some (a.1, wrap 64 a.2 - wrap 64 b.2) else None
|}.
#[export] Instance ref_payments_laws : PaymentsRsLaws.
Proof.
  split.
  - done.
  - by intros [].
  - done.
  - intros c v Hv. apply Z.mod_small, Hv.
  - intros a. apply wrap_fits. lia.
  - intros a b c. cbn. case_decide as E; [|done]. intros [= <-]. cbn. by destruct E.
  - intros a b c. cbn. case_decide as E; [|done]. intros [= <-] _. cbn.
    assert (fits 64 (wrap 64 a.2)) as [? ?] by (apply wrap_fits; lia).
    assert (fits 64 (wrap 64 b.2)) as [? ?] by (apply wrap_fits; lia).
    apply Z.mod_small. lia.
Qed.

Inductive Country : Type := IE | DE | GR | US.
#[export] Instance Country_eq_dec : EqDecision Country.
Proof. solve_decision. Defined.
Definition country_number (c : Country) : positive :=
  match c with IE => 1 | DE => 2 | GR => 3 | US => 4 end.
Definition country_of_number (n : positive) : option Country :=
  match n with 1%positive => Some IE | 2%positive => Some DE | 3%positive => Some GR | _ => Some US end.
Lemma country_numbered c : country_of_number (country_number c) = Some c.
Proof. by destruct c. Qed.
#[export] Instance Country_countable : Countable Country :=
  {| encode := country_number; decode := country_of_number; decode_encode := country_numbered |}.
#[export] Instance ref_countries : IsoCountry := {|
  CountryCode := Country;
  for_alpha2 s :=
    if String.eqb s "IE" then Some IE else if String.eqb s "DE" then Some DE
    else if String.eqb s "GR" then Some GR else if String.eqb s "US" then Some US else None;
  for_alpha3 s :=
    if String.eqb s "IRL" then Some IE else if String.eqb s "DEU" then Some DE
    else if String.eqb s "GRC" then Some GR else if String.eqb s "USA" then Some US else None;
  alpha3 c := (match c with IE => "IRL" | DE => "DEU" | GR => "GRC" | US => "USA" end)%string
|}.
#[export] Instance ref_countries_laws : IsoCountryLaws.
Proof. by intros []. Qed.

(** The end of the year 262142. *)
#[export] Instance ref_chrono : Chrono := 8210266876799 * SEC.
#[export] Instance noon : Clock := reads [hours 12].
Definition thirty_days : Calendar := thirty.

(** *** The catalog *)

Definition f32_of (z : Z) : f32 := Flt.of_Z 24 128 z.
Definition user5 : User :=
  {| u_id := 5; u_country_code := Some "deu"; u_geo_country_code := None; u_billing_tax_id := None |}%string.
Definition company1 : Company :=
  {| c_id := 1; c_tax_id := Some "IE1234567T"; c_country_code := Some "IRL"; c_max_prepay_days := 365 |}%string.
Definition plan1 : VmCostPlan :=
  {| cp_id := 1; cp_amount := 500; cp_currency := "EUR"; cp_interval_amount := 1; cp_interval_type := Month |}%string.
Definition template1 : VmTemplate :=
  {| t_id := 1; t_enabled := true; t_region_id := 1; t_cpu := 2; t_memory := 2 ^ 31; t_disk_size := 2 ^ 36;
     t_disk_type := SSD; t_disk_interface := PCIe; t_cpu_mfg := MfgUnknown; t_cpu_arch := ArchUnknown;
     t_cpu_features := []; t_cost_plan_id := 1 |}.
Definition card_fees : PaymentMethodConfig :=
  {| pc_company_id := 1; pc_method := Revolut; pc_enabled := true; processing_fee_rate := Some (f32_of 1);
     processing_fee_base := Some 20; processing_fee_currency := Some "EUR"; min_amount := None;
     min_amount_currency := None |}%string.
Definition host3 : VmHost :=
  {| h_id := 3; h_region_id := 1; h_enabled := true; h_cpu := 8; h_cpu_mfg := Intel; h_cpu_arch := X86_64;
     h_cpu_features := []; h_memory := 2 ^ 35; load_cpu := one; load_memory := one; load_disk := one;
     h_sunset_date := None |}.
Definition catalog : Catalog :=
  {| cat_users := [user5]; cat_companies := [company1]; cat_regions := [{| r_id := 1; r_company_id := 1 |}];
     cat_hosts := [host3]; cat_templates := [template1]; cat_cost_plans := [plan1]; cat_custom_templates := [];
     cat_pricings := []; cat_pricing_disks := []; cat_ips := []; cat_configs := [card_fees];
     cat_rates := set_rate (CBtc, CEur) (f32_of 90000) ∅;
     cat_vat := <[IE := f32_of 23]> (<[DE := f32_of 19]> ∅) |}.



(** Machine 7 of the template, paid until the thirtieth day. *)
Definition priced_world : World := vm_world (vm_sub 0 (30 * DAY) true) [vm7] [].

(** What came out of a run that is expected to succeed. *)
Definition out {A} (r : res Fail A) (d : A) : A := match r with Ok a => a | Err _ => d end.
Definition is_ok {A} (r : res Fail A) : bool := match r with Ok _ => true | Err _ => false end.
Lemma out_ok {A} (r : res Fail A) d : is_ok r = true -> r = Ok (out r d).
Proof. by destruct r. Qed.
Definition nothing : NewPaymentInfo :=
  {| np_amount := 0; np_currency := CBtc; np_rate := passthrough CBtc; np_time_value := 0; np_new_expiry := 0;
     np_tax := 0; np_tax_details := untaxed; np_processing_fee := 0 |}.

Definition new_info (c : CostResult) : NewPaymentInfo := match c with New i => i | Existing _ => nothing end.
Definition is_new (r : res Fail CostResult) : bool := match r with Ok (New _) => true | _ => false end.
Lemma new_ok (r : res Fail CostResult) : is_new r = true -> r = Ok (New (new_info (out r (New nothing)))).
Proof. by destruct r as [[]|]. Qed.

(** *** The theorems *)

(** Two hundred euros by card: a German customer's tax, the card's fee. *)
Definition card_purchase : NewPaymentInfo :=
  new_info (out (get_cost_by_amount catalog 7 (CEur, 20000) Revolut priced_world).1 (New nothing)).
Lemma paid_amount_accounted_witness :
  (np_amount card_purchase, np_tax card_purchase, np_processing_fee card_purchase) = (16621, 3157, 222) /\
  np_amount card_purchase + np_tax card_purchase + np_processing_fee card_purchase = 20000.
Proof.
  split; [vm_compute; reflexivity|].
  apply (paid_amount_accounted (PR := ref_payments) catalog (CEur, 20000) Revolut priced_world card_purchase).
  - vm_compute. reflexivity.
  - intros company. unfold processing_fee_params.
    rewrite decide_False by done. unfold get_payment_method_config_for_company, catalog. cbn [cat_configs].
    rewrite filter_cons. case_decide as Ec; vm_compute; by split.
  - vm_compute. reflexivity.
  - left. exists 7. apply new_ok. vm_compute. reflexivity.
Defined.

(** Five euros a month by card, and what paying the quote buys. *)
Definition five_euros : ConvertedCurrencyAmount := {| amount := (CEur, 500); conv_rate := passthrough CEur |}.
Definition month_secs : Z := 30 * 86400.
Definition quote : NewPaymentInfo :=
  out (charge catalog 5 1 Revolut five_euros month_secs (30 * DAY) priced_world).1 nothing.
Definition gross : Z := np_amount quote + np_tax quote + np_processing_fee quote.
Definition quote_paid : res Fail NewPaymentInfo :=
  (buy catalog 5 1 Revolut (from_u64 (np_currency quote) gross) (np_currency quote) (conv_rate five_euros)
     (np_time_value quote) (np_amount quote) (mret (Some (30 * DAY))) priced_world).1.
Lemma quote_paid_in_full_witness :
  gross = 623 /\ np_time_value (out quote_paid nothing) = month_secs + 5184 /\
  exists i, quote_paid = Ok i /\ Z.abs (np_amount i - np_amount quote) <= 2.
Proof.
  split; [vm_compute; reflexivity|]. split; [vm_compute; reflexivity|].
  destruct (quote_paid_in_full catalog 5 1 Revolut five_euros month_secs (30 * DAY) priced_world quote
    (conv_rate five_euros) (mret (Some (30 * DAY))) priced_world) as [E|(i & E & Hn & _)].
  - vm_compute. reflexivity.
  - apply out_ok. vm_compute. reflexivity.
  - vm_compute. split; [discriminate|reflexivity].
  - vm_compute. discriminate.
  - vm_compute. reflexivity.
  - vm_compute. split; [discriminate|reflexivity].
  - assert (is_ok quote_paid = true) as Hok by (vm_compute; reflexivity).
    change (quote_paid = Err Panics) in E. rewrite E in Hok. discriminate.
  - exists i. split; [exact E|exact Hn].
Defined.

(** Five euros at ninety thousand euros a bitcoin. *)
Definition euro_rate : TickerRate := {| ticker := ((CBtc, CEur) : Ticker); rate := f32_of 90000 |}.
Lemma price_survives_conversion_witness :
  convert euro_rate (from_u64 (EUR : Currency) 500) = Ok (from_u64 BTC 5555556) /\
  convert euro_rate (from_u64 BTC 5555556) = Ok (from_u64 (EUR : Currency) 500).
Proof.
  assert (convert euro_rate (from_u64 (EUR : Currency) 500) = Ok (from_u64 BTC 5555556)) as E by reflexivity.
  split; [exact E|].
  destruct (price_survives_conversion euro_rate EUR 500) as (b & Hb & _ & Hback);
    [reflexivity|discriminate|vm_compute; reflexivity|split; [lia|reflexivity]|].
  rewrite E in Hb. injection Hb as <-. exact Hback.
Defined.

Lemma vat_round_trip_witness :
  let rate := {| vr_code := "IE"; vr_rate := f32_of 23 |} in
  gross_from_net rate 1999 = 2459 /\ vat_net_from_gross rate (gross_from_net rate 1999) = 1999.
Proof.
  cbv zeta. split; [vm_compute; reflexivity|].
  apply (vat_round_trip "IE" (f32_of 23) 1999); [vm_compute; reflexivity|by split].
Defined.

(** A German consumer of an Irish seller. *)
Definition german_tax : TaxDetermination := out (determine_tax catalog 5 1000 1) untaxed.
Lemma tax_only_where_due_witness :
  tax_amount german_tax = 190 /\ tax_treatment german_tax = OssB2c /\
  exists seller cc, tax_country_code german_tax = Some cc /\ cc <> seller /\
    seller_country catalog 1 = Some seller /\ is_eu_vat_country cc = true.
Proof.
  split; [vm_compute; reflexivity|]. split; [vm_compute; reflexivity|].
  destruct (tax_only_where_due catalog 5 1000 1 german_tax) as (seller & cc & Hs & _ & Hcc & Heu & _ & _ & _ & Ht);
    [vm_compute; reflexivity|vm_compute; discriminate|].
  exists seller, cc. by split_and!.
Defined.

(** Ten days left of a month at five euros. *)
Definition ten_days_left : RemainingTimeInfo :=
  out (get_remaining_time_info_from_date catalog 7 (20 * DAY) priced_world).1
    {| seconds_remaining := 0; renewal_cost := (CBtc, 0); renewal_period_seconds := 0; rt_cost_per_second := one;
       prorated_cost := (CBtc, 0) |}.
Lemma time_left_prorated_witness :
  seconds_remaining ten_days_left = 864000 /\ value (prorated_cost ten_days_left) = 166 /\
  value (prorated_cost ten_days_left) <= 500.
Proof.
  split; [vm_compute; reflexivity|]. split; [vm_compute; reflexivity|].
  destruct (time_left_prorated catalog 7 (20 * DAY) priced_world ten_days_left) as (_ & _ & Hle & _).
  - apply out_ok. vm_compute. reflexivity.
  - vm_compute. reflexivity.
  - vm_compute. reflexivity.
  - vm_compute. split; [discriminate|reflexivity].
  - exact Hle.
Defined.

(** *** Where the engine does not do what it means to *)

(** A machine whose plan costs nothing: a deposit buys time without end, which
    [add_seconds] then reads as one second less. Subscriptions priced by their line
    items are refused such a price. *)
Definition free_plan : VmCostPlan :=
  {| cp_id := 1; cp_amount := 0; cp_currency := "EUR"; cp_interval_amount := 1; cp_interval_type := Month |}%string.
Definition free_catalog : Catalog :=
  {| cat_users := [user5]; cat_companies := [company1]; cat_regions := [{| r_id := 1; r_company_id := 1 |}];
     cat_hosts := [host3]; cat_templates := [template1]; cat_cost_plans := [free_plan]; cat_custom_templates := [];
     cat_pricings := []; cat_pricing_disks := []; cat_ips := []; cat_configs := [];
     cat_rates := set_rate (CBtc, CEur) (f32_of 90000) ∅; cat_vat := ∅ |}.
Definition free_purchase : NewPaymentInfo :=
  new_info (out (get_cost_by_amount free_catalog 7 (CEur, 100) Revolut priced_world).1 (New nothing)).
Lemma free_plan_buys_forever :
  (get_cost_by_amount free_catalog 7 (CEur, 100) Revolut priced_world).1 = Ok (New free_purchase) /\
  np_time_value free_purchase = 2 ^ 64 - 1 /\ np_new_expiry free_purchase = 30 * DAY - SEC.
Proof. split; [apply new_ok; vm_compute; reflexivity|]. by split; vm_compute. Qed.
End PriceRuns.
