(* ===== verification/OnChain.v ===== *)
(** * Deposits on the bitcoin chain ([lnvps_api/src/payments/onchain.rs])

    A stream of chain events is replayed from its start whenever the watcher
    starts; a deposit is known by its outpoint, which is stored as the external
    id of the payment that it settles. *)

From Stdlib Require Import Ascii String.
From stdpp Require Import pretty.
From S2P Require Import Prelude NetText IpAlloc Network HostTypes Exchange SubDb Pricing IpProvision SubLife.

(** [rand::random()], as a function of the moment at which it is drawn. *)
Class PaymentIds := payment_id : nat -> list Z.

(** [ChainPaymentUpdate] of [payments_rs], the fields that are read. *)
Inductive ChainPaymentUpdate : Type :=
| Confirmed (address txid : string) (vout amount_msat : Z)
| Detected (address txid : string) (vout amount_msat : Z)
| ChainError.

(** ["{txid}:{vout}"] *)
Definition deposit_key (txid : string) (vout : Z) : string :=
  String.append txid (String ":"%char (pretty (Z.to_N vout))).

(** [max_by_key(created)]: the last of the newest. *)
Definition latest (l : list SubscriptionPayment) : option SubscriptionPayment :=
  foldl (fun acc p =>
    match acc with
    | Some q => if p_created q <=? p_created p then Some p else Some q
    | None => Some p
    end) None l.

(** A payment with other pricing, and with an external id. *)
Definition reprice (time_value : option Z) (rate : f32) (amount tax fee : Z) (p : SubscriptionPayment)
  : SubscriptionPayment :=
  {| p_id := p_id p; p_subscription_id := p_subscription_id p; p_user_id := p_user_id p;
     p_created := p_created p; p_expires := p_expires p; p_amount := amount;
     p_currency := p_currency p; p_method := p_method p; p_type := p_type p;
     p_external_data := p_external_data p; p_external_id := p_external_id p;
     p_is_paid := p_is_paid p; p_time_value := time_value; p_metadata := p_metadata p;
     p_tax := tax; p_processing_fee := fee; p_paid_at := p_paid_at p; p_rate := rate;
     p_tax_rate := p_tax_rate p; p_tax_country_code := p_tax_country_code p;
     p_tax_treatment := p_tax_treatment p |}.
Definition with_key (key : string) (p : SubscriptionPayment) : SubscriptionPayment :=
  {| p_id := p_id p; p_subscription_id := p_subscription_id p; p_user_id := p_user_id p;
     p_created := p_created p; p_expires := p_expires p; p_amount := p_amount p;
     p_currency := p_currency p; p_method := p_method p; p_type := p_type p;
     p_external_data := p_external_data p; p_external_id := Some key;
     p_is_paid := p_is_paid p; p_time_value := p_time_value p; p_metadata := p_metadata p;
     p_tax := p_tax p; p_processing_fee := p_processing_fee p; p_paid_at := p_paid_at p;
     p_rate := p_rate p; p_tax_rate := p_tax_rate p; p_tax_country_code := p_tax_country_code p;
     p_tax_treatment := p_tax_treatment p |}.
(** [amount + tax + processing_fee] *)
Definition priced_gross (p : SubscriptionPayment) : Z :=
  wadd 64 (wadd 64 (p_amount p) (p_tax p)) (p_processing_fee p).

Section watcher.
Context `{!PaymentsRs, !IsoCountry, !NetLib, !NetShow, !RegistryRef, !Clock, !Remote, !Calendar, !Chrono, !PaymentIds}.
Context (cat : Catalog).

Definition payment_for_address (address : string) : ST World (option SubscriptionPayment) :=
  l ← list_subscription_payments_by_method OnChain;
  mret (latest (filter (fun p => p_external_data p = address) l)).

Definition regenerate (payment : SubscriptionPayment) (gross_msat : Z) : Act SubscriptionPayment :=
  let gross := from_u64 BTC gross_msat in
  vm ← get_vm_by_subscription (p_subscription_id payment);
  cost ←? match vm with
          | Ok vm => get_cost_by_amount cat (v_id vm) gross OnChain
          | Err _ => get_subscription_cost_by_amount cat (p_subscription_id payment) gross OnChain
          end;
  match cost with
  | New p => mret (Ok (reprice (Some (np_time_value p)) (rate (np_rate p)) (np_amount p) (np_tax p)
                         (np_processing_fee p) payment))
  | Existing _ => mret (Err Refused)
  end.

(** The subscription's VM, when it is deleted. *)
Definition deleted_vm (sub : Z) : ST World (option Z) :=
  vm ← get_vm_by_subscription sub;
  mret (match vm with Ok vm => if v_deleted vm then Some (v_id vm) else None | Err _ => None end).

Definition handle_detected (address txid : string) (vout amount_msat : Z) : Act unit :=
  let key := deposit_key txid vout in
  known ← get_subscription_payment_by_ext_id key;
  if is_ok known then mret (Ok tt) else
  found ← payment_for_address address;
  match found with
  | None => mret (Ok tt)
  | Some payment =>
      if p_is_paid payment then mret (Ok tt) else
      gone ← deleted_vm (p_subscription_id payment);
      match gone with
      | Some _ => mret (Ok tt)
      | None =>
          payment ←? regenerate payment amount_msat;
          update_subscription_payment (with_key key payment)
      end
  end.

Definition notify_deleted_vm_deposit (vm : Z) (key : string) : Act unit :=
  reported ← db w_reported;
  if bool_decide (key ∈ reported) then mret (Ok tt) else
  exec (report_deposit key);;
  queue_admin_notification (DepositToDeletedVm vm);;
  mret (Ok tt).

(** Settle the pending payment of a deposit. *)
Definition settle_pending (key : string) (amount_msat : Z) (already_priced : bool)
    (payment : SubscriptionPayment) : Act unit :=
  payment ←? (if negb already_priced || negb (priced_gross payment =? amount_msat)
              then regenerate payment amount_msat else mret (Ok payment));
  let payment := with_key key payment in
  update_subscription_payment payment ;?
  complete_payment payment ;?
  mret (Ok tt).

(** A deposit to the address of a settled payment is a renewal. *)
Definition settle_again (address key : string) (amount_msat : Z) (payment : SubscriptionPayment) : Act unit :=
  new_id ← db (fun w => payment_id (w_reads w));
  created ← now;
  expires ← now;
  renewal ←? regenerate
    {| p_id := new_id; p_subscription_id := p_subscription_id payment; p_user_id := p_user_id payment;
       p_created := created; p_expires := expires; p_amount := p_amount payment;
       p_currency := p_currency payment; p_method := OnChain; p_type := Renewal;
       p_external_data := address; p_external_id := Some key; p_is_paid := false;
       p_time_value := p_time_value payment; p_metadata := None; p_tax := p_tax payment;
       p_processing_fee := p_processing_fee payment; p_paid_at := None; p_rate := p_rate payment;
       p_tax_rate := p_tax_rate payment; p_tax_country_code := p_tax_country_code payment;
       p_tax_treatment := p_tax_treatment payment |} amount_msat;
  insert_subscription_payment renewal ;?
  complete_payment renewal ;?
  mret (Ok tt).

Definition settle (address key : string) (amount_msat : Z) (already_priced : bool)
    (payment : SubscriptionPayment) : Act unit :=
  gone ← deleted_vm (p_subscription_id payment);
  match gone with
  | Some vm => notify_deleted_vm_deposit vm key
  | None =>
      if p_is_paid payment then settle_again address key amount_msat payment
      else settle_pending key amount_msat already_priced payment
  end.

Definition handle_deposit (address txid : string) (vout amount_msat : Z) : Act unit :=
  let key := deposit_key txid vout in
  known ← get_subscription_payment_by_ext_id key;
  match known with
  | Ok p => if p_is_paid p then mret (Ok tt) else settle address key amount_msat true p
  | Err _ =>
      found ← payment_for_address address;
      match found with
      | Some p => settle address key amount_msat false p
      | None => mret (Ok tt)
      end
  end.

(** Failures are logged; an error of the stream ends the watcher. *)
Fixpoint listen (updates : list ChainPaymentUpdate) : Act unit :=
  match updates with
  | [] => mret (Ok tt)
  | Confirmed address txid vout amount_msat :: updates =>
      _ ← handle_deposit address txid vout amount_msat; listen updates
  | Detected address txid vout amount_msat :: updates =>
      _ ← handle_detected address txid vout amount_msat; listen updates
  | ChainError :: _ => mret (Err Refused)
  end.
End watcher.
