(* ===== verification/Renewal.v ===== *)
(** * Creating and collecting payments
    ([lnvps_api/src/subscription/mod.rs])

    A renewal is priced, asked for at a payment service and stored as an unpaid
    payment; a saved method is charged on the spot; automatic renewal is a renewal
    by a saved method. What a service answers to its n-th call is a parameter. *)

From Stdlib Require Import Ascii String SpecFloat.
From S2P Require Import Prelude NetText IpAlloc Network HostTypes Exchange SubDb Pricing IpProvision SubLife OnChain.

Inductive RenewMode : Type :=
| Interactive (save_card : bool)
| Saved (method_id : option Z).
Definition is_saved (mode : RenewMode) : bool := match mode with Saved _ => true | Interactive _ => false end.

(** Answers: the payment hash of an invoice (if its text decodes), its payment
    request and its external id; a fresh address; an order's id and data. *)
Class PaymentServices := {
  invoice_of : nat -> option (list Z) * string * option string;
  address_of : nat -> string;
  order_of : nat -> string * string
}.
(** The year and month of a moment ([chrono::Datelike]). *)
Class Datelike := year_month : Z -> Z * Z.

Definition is_expired (m : UserPaymentMethod) (year month : Z) : bool :=
  match um_exp_year m, um_exp_month m with
  | Some ey, Some em => (ey <? year) || ((ey =? year) && (em <? month))
  | _, _ => false
  end.

(** [serde_json::to_value(UpgradeConfig)] *)
Definition upgrade_json (cfg : UpgradeConfig) : Json :=
  let opt (o : option Z) := match o with Some n => JNumber n | None => JNull end in
  JObject [("new_cpu", opt (new_cpu cfg)); ("new_memory", opt (new_memory cfg)); ("new_disk", opt (new_disk cfg))].

Section renewal.
Context `{!PaymentsRs, !IsoCountry, !NetLib, !NetShow, !RegistryRef, !Clock, !Remote, !Calendar, !Chrono, !PaymentIds,
  !PaymentServices, !Datelike}.
(** Whether the card service is configured; [settings.max_prepay_days]. *)
Context (cat : Catalog) (revolut : bool) (max_prepay_days : Z).

(** A call that is answered. *)
Definition ask {A} (reply : nat -> A) (c : Call) : Act A := fun w =>
  let n := length (w_calls w) in
  (if outcome n then Ok (reply n) else Err Refused, push_call c (outcome n) w).
Definition draw_id : ST World (list Z) := db (fun w => payment_id (w_reads w)).

(** ** Saved methods *)

Definition revolut_payment_method (user : Z) (method_id : option Z) : Act UserPaymentMethod :=
  t ← now;
  let '(year, month) := year_month t in
  methods ← list_user_payment_methods user (Some "revolut"%string);
  let usable := filter (fun m => um_enabled m = true /\ is_expired m year month = false) methods in
  mret (ok_or NotFound (head (match method_id with
                              | Some id => filter (fun m => um_id m = id) usable
                              | None => usable
                              end))).
Definition default_payment_method (user : Z) : Act UserPaymentMethod :=
  t ← now;
  let '(year, month) := year_month t in
  methods ← list_user_payment_methods user None;
  mret (ok_or NotFound (head (filter (fun m => um_enabled m = true /\ is_expired m year month = false) methods))).
Definition nwc_payment_method (user : Z) : Act UserPaymentMethod :=
  methods ← list_user_payment_methods user (Some "nwc"%string);
  mret (ok_or NotFound (head (filter (fun m => um_enabled m = true) methods))).

Definition create_revolut_order (user : Z) (type : SubscriptionPaymentType) (amount : Z) (cur : Currency)
    (save_card : bool) : Act (string * string) :=
  methods ← list_user_payment_methods user (Some "revolut"%string);
  let should_save := save_card && negb (existsb um_enabled methods) && negb (bool_decide (type = Upgrade)) in
  ask order_of (CreateOrder amount (show_currency cur) should_save).

(** The saved card is charged, or an order is created for the customer. *)
Definition order_or_charge (mode : RenewMode) (user : Z) (type : SubscriptionPaymentType) (amount : Z)
    (cur : Currency) : Act (string * string) :=
  match mode with
  | Saved method_id =>
      method ←? revolut_payment_method user method_id;
      customer ←? mret (ok_or NoConfig (um_external_customer_id method));
      ask order_of (ChargeSubscription customer (um_external_id method) amount (show_currency cur))
  | Interactive save_card => create_revolut_order user type amount cur save_card
  end.

(** ** Asking for a payment *)

Definition INVOICE_EXPIRE : Z := 600.
Definition ONCHAIN_EXPIRE : Z := 3600.
Definition ORDER_EXPIRE : Z := 3600.

(** What a service was asked for: the new payment's id, its external data and id,
    and when it was created and expires. *)
Record Request := {
  rq_id : list Z; rq_data : string; rq_external_id : option string; rq_created : Z; rq_expires : Z
}.
Definition stamp (id : list Z) (data : string) (ext : option string) (expire : Z) : Act Request :=
  created ← now;
  t ← now;
  mret (Ok {| rq_id := id; rq_data := data; rq_external_id := ext; rq_created := created;
              rq_expires := t + expire * SEC |}).

(** The branch of each method. [lookup] is what a card payment reads of the
    customer first. *)
Definition request_payment (method : PaymentMethod) (mode : RenewMode) (lookup : Act User)
    (type : SubscriptionPaymentType) (cur : Currency) (amount tax fee : Z) : Act Request :=
  match method with
  | Lightning =>
      ensure_ (bool_decide (cur = BTC)) NotBtc;?
      invoice ←? ask invoice_of (AddInvoice (round_msat_to_sat (wadd 64 amount tax)) INVOICE_EXPIRE);
      id ←? mret (ok_or Refused invoice.1.1);
      stamp id invoice.1.2 invoice.2 INVOICE_EXPIRE
  | Revolut =>
      ensure_ revolut NotConfigured;?
      ensure_ (negb (bool_decide (cur = BTC))) NotFiat;?
      user ←? lookup;
      order ←? order_or_charge mode (u_id user) type (wadd 64 (wadd 64 amount tax) fee) cur;
      new_id ← draw_id;
      stamp new_id order.2 (Some order.1) ORDER_EXPIRE
  | OnChain =>
      ensure_ (bool_decide (cur = BTC)) NotBtc;?
      new_id ← draw_id;
      address ←? ask address_of (NewAddress (round_msat_to_sat (wadd 64 amount tax)));
      stamp new_id address None ONCHAIN_EXPIRE
  | Paypal | Stripe => pfail NotImplemented
  end.

(** The row of a new payment. *)
Definition new_payment (rq : Request) (sub user : Z) (method : PaymentMethod) (type : SubscriptionPaymentType)
    (cur : Currency) (amount tax fee : Z) (rate : f32) (time_value : option Z) (meta : option Json)
    (summary : TaxSummary) : SubscriptionPayment :=
  {| p_id := rq_id rq; p_subscription_id := sub; p_user_id := user; p_created := rq_created rq;
     p_expires := rq_expires rq; p_amount := amount; p_currency := show_currency cur; p_method := method;
     p_type := type; p_external_data := rq_data rq; p_external_id := rq_external_id rq; p_is_paid := false;
     p_time_value := time_value; p_metadata := meta; p_tax := tax; p_processing_fee := fee;
     p_paid_at := None; p_rate := rate; p_tax_rate := ts_rate summary;
     p_tax_country_code := ts_country_code summary; p_tax_treatment := ts_treatment summary |}.

(** A saved wallet pays a Lightning invoice now, a saved card was charged when its
    order was made; then the row is read until it is paid or time is up. What other
    tasks do in between is not part of this run. *)
Definition pay_via_nwc (p : SubscriptionPayment) : Act unit :=
  ensure_ (bool_decide (p_method p = Lightning)) NotConfigured;?
  method ←? nwc_payment_method (p_user_id p);
  call_ (PayInvoice (um_external_id method) (p_external_data p)).
Definition collect_saved_payment (p : SubscriptionPayment) (mode : RenewMode) : Act SubscriptionPayment :=
  if negb (is_saved mode) then mret (Ok p) else
  (if bool_decide (p_method p = Lightning) then pay_via_nwc p else mret (Ok tt));?
  get_subscription_payment (p_id p).

(** ** Renewals *)

(** An identical unpaid payment, or the prices of the machines, what the other
    items cost and the setup fees. *)
Inductive ItemsPrice : Type :=
| Pending (p : SubscriptionPayment)
| Priced (infos : list NewPaymentInfo) (non_vm_interval_cost setup_fee : Z).

Fixpoint price_items (subscription : Subscription) (method : PaymentMethod) (intervals : Z)
    (items : list SubscriptionLineItem) (infos : list NewPaymentInfo) (non_vm setup : Z) : Act ItemsPrice :=
  match items with
  | [] => mret (Ok (Priced infos non_vm setup))
  | item :: items =>
      let setup' := wadd 64 setup (li_setup_amount item) in
      if bool_decide (li_type item = Vps) then
        vm ←? get_vm_by_line_item (li_id item);
        host ←? mret (get_host cat (v_host_id vm));
        match h_sunset_date host with
        | Some sunset => current ← or_now (s_expires subscription); ensure_ (current <? sunset) HostSunset
        | None => mret (Ok tt)
        end;?
        cost ←? get_vm_cost_for_intervals cat (v_id vm) method intervals;
        match cost with
        | New p => price_items subscription method intervals items (infos ++ [p]) non_vm setup'
        | Existing p => mret (Ok (Pending p))
        end
      else
        price_items subscription method intervals items infos
          (wadd 64 non_vm (wmul 64 (li_amount item) intervals)) setup'
  end.

Definition sum64 (l : list Z) : Z := foldl (wadd 64) 0 l.

(** What the items that are no machines cost: amount, rate, tax, fee, tax line. *)
Definition price_others (user company : Z) (method : PaymentMethod) (cur : Currency) (base : Z)
  : Act (Z * f32 * Z * Z * list TaxLine) :=
  if 0 <? base then
    converted ←? lift (get_amount_and_rate cat (from_u64 cur base) method);
    let v := value (amount converted) in
    det ←? mret (determine_tax cat user v company);
    let fee := calculate_processing_fee cat company method (currency (amount converted)) (wadd 64 v (tax_amount det)) in
    mret (Ok (v, rate (conv_rate converted), tax_amount det, fee, [to_line det v]))
  else mret (Ok (0, zero, 0, 0, [])).

(** A renewal must not push the expiry beyond the window. *)
Definition check_prepay (subscription : Subscription) (time_value : Z) : Act unit :=
  if 0 <? time_value then
    company ←? mret (get_company cat (s_company_id subscription));
    let days := if 0 <? c_max_prepay_days company then c_max_prepay_days company else max_prepay_days in
    if 0 <? days then
      t ← now;
      let base := Z.max (default t (s_expires subscription)) t in
      projected_expiry ←? add_seconds base time_value;
      horizon ←? checked_time (t + days * DAY);
      ensure_ (projected_expiry <=? horizon) TooFarAhead
    else mret (Ok tt)
  else mret (Ok tt).

Definition renew_subscription_inner (subscription_id : Z) (method : PaymentMethod) (intervals : Z)
    (mode : RenewMode) : Act SubscriptionPayment :=
  let intervals := Z.max 1 intervals in
  subscription ←? get_subscription subscription_id;
  line_items ← list_subscription_line_items subscription_id;
  ensure_ (negb (bool_decide (line_items = []))) NoLineItems;?
  user ←? mret (get_user cat (s_user_id subscription));
  items ←? price_items subscription method intervals line_items [] 0 0;
  match items with
  | Pending p => mret (Ok p)
  | Priced infos non_vm_interval_cost setup_fee =>
      let payment_type := if s_is_setup subscription then Renewal else Purchase in
      subscription_currency ←? lift (ok_or InvalidCurrency (parse_currency (s_currency subscription)));
      let non_vm_base := wadd 64 non_vm_interval_cost (if s_is_setup subscription then 0 else setup_fee) in
      others ←? price_others (u_id user) (s_company_id subscription) method subscription_currency non_vm_base;
      let '(non_vm_amount, non_vm_rate, non_vm_tax, non_vm_fee, non_vm_line) := others in
      let time_value := sum64 (np_time_value <$> infos) in
      check_prepay subscription time_value;?
      let rate := match infos with i :: _ => rate (np_rate i) | [] => non_vm_rate end in
      let tax := wadd 64 (sum64 (np_tax <$> infos)) non_vm_tax in
      let fee := wadd 64 (sum64 (np_processing_fee <$> infos)) non_vm_fee in
      let total := wadd 64 (sum64 (np_amount <$> infos)) non_vm_amount in
      let summary := summarize_tax_lines (((fun i => to_line (np_tax_details i) (np_amount i)) <$> infos) ++ non_vm_line) in
      mret (determine_tax cat (s_user_id subscription) 0 (s_company_id subscription));?
      let cur := match infos with i :: _ => np_currency i | [] => subscription_currency end in
      lift (enforce_min_amount cat (s_company_id subscription) method
        (from_u64 cur (wadd 64 (wadd 64 total tax) fee)));?
      rq ←? request_payment method mode (mret (Ok user)) payment_type cur total tax fee;
      let payment := new_payment rq subscription_id (s_user_id subscription) method payment_type cur total tax fee
        rate (if 0 <? time_value then Some time_value else None) None summary in
      insert_subscription_payment payment;?
      collect_saved_payment payment mode
  end.

Definition renew_subscription (subscription_id : Z) (method : PaymentMethod) (intervals : Z) : Act SubscriptionPayment :=
  renew_subscription_inner subscription_id method intervals (Interactive false).

(** ** Payments for one machine *)

Definition price_to_payment_with_type (vm_id : Z) (method : PaymentMethod) (price : CostResult)
    (payment_type : SubscriptionPaymentType) (metadata : option Json) (mode : RenewMode) : Act SubscriptionPayment :=
  match price with
  | Existing p => mret (Ok p)
  | New p =>
      vm ←? get_vm vm_id;
      line_item ←? get_subscription_line_item (v_subscription_line_item_id vm);
      let subscription_id := li_subscription_id line_item in
      let summary := summarize_tax_lines [to_line (np_tax_details p) (np_amount p)] in
      rq ←? request_payment method mode
        (get_subscription subscription_id;? mret (get_user cat (v_user_id vm)))
        payment_type (np_currency p) (np_amount p) (np_tax p) (np_processing_fee p);
      let payment := new_payment rq subscription_id (v_user_id vm) method payment_type (np_currency p) (np_amount p)
        (np_tax p) (np_processing_fee p) (rate (np_rate p)) (Some (np_time_value p)) metadata summary in
      insert_subscription_payment payment;?
      collect_saved_payment payment mode
  end.
Definition price_to_payment (vm_id : Z) (method : PaymentMethod) (price : CostResult) : Act SubscriptionPayment :=
  price_to_payment_with_type vm_id method price Renewal None (Interactive false).

Definition renew_amount (vm_id : Z) (amount : CurrencyAmount) (method : PaymentMethod) : Act SubscriptionPayment :=
  price ←? get_cost_by_amount cat vm_id amount method;
  price_to_payment vm_id method price.

Definition create_vm_upgrade_payment (vm_id : Z) (cfg : UpgradeConfig) (method : PaymentMethod) (mode : RenewMode)
  : Act SubscriptionPayment :=
  cost_difference ←? calculate_vm_upgrade_cost cat vm_id cfg method;
  let upgrade := uq_upgrade cost_difference in
  price_to_payment_with_type vm_id method
    (New {| np_amount := value (amount upgrade); np_currency := currency (amount upgrade);
            np_rate := conv_rate upgrade; np_time_value := 0; np_new_expiry := 0;
            np_tax := tax_amount (uq_tax cost_difference); np_tax_details := uq_tax cost_difference;
            np_processing_fee := uq_processing_fee cost_difference |})
    Upgrade (Some (upgrade_json cfg)) mode.

(** ** Automatic renewal *)

Definition auto_renew_via_nwc (sub_id : Z) : Act SubscriptionPayment :=
  renew_subscription_inner sub_id Lightning 1 (Saved None).
Definition auto_renew_via_revolut (sub_id : Z) : Act SubscriptionPayment :=
  renew_subscription_inner sub_id Revolut 1 (Saved None).
Definition auto_renew (sub_id : Z) : Act unit :=
  sub ←? get_subscription sub_id;
  method ←? default_payment_method (s_user_id sub);
  if String.eqb (um_provider method) "nwc" then
    auto_renew_via_nwc sub_id;? mret (Ok tt)
  else if String.eqb (um_provider method) "revolut" then
    auto_renew_via_revolut sub_id;? mret (Ok tt)
  else mret (Err NotFound).
End renewal.
