(* ===== verification/OnChainProofs.v ===== *)
(** * What the chain watcher guarantees

    The payments are a ledger: whatever happens, a settled payment is never
    touched again and external ids stay unique. A deposit is therefore credited
    once, for what arrived. *)

From Stdlib Require Import String SpecFloat.
From S2P Require Import Prelude NetText IpAlloc Network HostTypes Exchange SubDb Pricing PricingMath PricingProofs IpProvision SubLife SubLifeProofs OnChain.

(** ** The ledger *)

(** The unique indexes of the table of payments. *)
Definition ext_unique (l : list SubscriptionPayment) : Prop :=
  forall p q, p ∈ l -> q ∈ l -> is_Some (p_external_id p) -> p_external_id q = p_external_id p -> p_id q = p_id p.
Definition rows_ok (w : World) : Prop := NoDup (p_id <$> w_payments w) /\ ext_unique (w_payments w).

(** Rows stay unique and settled ones stay as they are. *)
Definition Ledger (w w' : World) : Prop :=
  rows_ok w -> rows_ok w' /\ forall q, q ∈ w_payments w -> p_is_paid q = true -> q ∈ w_payments w'.
#[export] Instance Ledger_pre : PreOrder Ledger.
Proof.
  split; [by intros w Hw|]. intros w1 w2 w3 H12 H23 Hw. destruct (H12 Hw) as [Hw2 Hp2].
  destruct (H23 Hw2) as [Hw3 Hp3]. split; [done|]. auto.
Qed.

Lemma ledger_same w w' : w_payments w' = w_payments w -> Ledger w w'.
Proof. intros E Hw. unfold rows_ok. rewrite E. by split. Qed.
Lemma billing_ledger w w' : same_billing w w' -> Ledger w w'.
Proof. intros (_ & _ & E). by apply ledger_same. Qed.
Lemma keeps_billing_ledger {A} (m : ST World A) : keeps same_billing m -> keeps Ledger m.
Proof. intros Hm w. apply billing_ledger, Hm. Qed.

(** A row by its key. *)
Lemma same_row w p q : rows_ok w -> p ∈ w_payments w -> q ∈ w_payments w -> p_id p = p_id q -> p = q.
Proof. intros [Hid _]. by apply NoDup_key. Qed.

Lemma map_ids (f : SubscriptionPayment -> SubscriptionPayment) l :
  (forall x, p_id (f x) = p_id x) -> p_id <$> map f l = p_id <$> l.
Proof. intros Hf. rewrite <- list_fmap_compose. apply list_fmap_ext. intros i x _. apply Hf. Qed.

(** An update of unpaid rows. *)
Lemma ledger_map f w w' : w_payments w' = map f (w_payments w) ->
  (forall x, p_id (f x) = p_id x) -> (forall x, x ∈ w_payments w -> p_is_paid x = true -> f x = x) ->
  (rows_ok w -> ext_unique (map f (w_payments w))) -> Ledger w w'.
Proof.
  intros E Hid Hf Hext Hw. split.
  - unfold rows_ok. rewrite E, map_ids by done. split; [apply Hw|by apply Hext].
  - intros q Hq Hp. rewrite E, <- (Hf q Hq Hp). by apply (list_elem_of_fmap_2 f).
Qed.

(** *** Its operations *)

Definition marked (p : SubscriptionPayment) (t : Z) (q : SubscriptionPayment) : SubscriptionPayment :=
  if bool_decide (p_id q = p_id p) && negb (p_is_paid q) then mark_paid (p_external_data p) t q else q.
Lemma marked_id p t q : p_id (marked p t q) = p_id q.
Proof. unfold marked. by destruct (_ && _). Qed.
Lemma marked_ext p t q : p_external_id (marked p t q) = p_external_id q.
Proof. unfold marked. by destruct (_ && _). Qed.

Lemma mark_ledger p t w w' : w_payments w' = map (marked p t) (w_payments w) -> Ledger w w'.
Proof.
  intros E. apply (ledger_map _ _ _ E); [apply marked_id| |].
  - intros x _ Hx. unfold marked. by rewrite Hx, andb_false_r.
  - intros [_ Hext] x y (x' & -> & Hx)%list_elem_of_fmap (y' & -> & Hy)%list_elem_of_fmap.
    rewrite !marked_id, !marked_ext. by apply Hext.
Qed.

(** No settled row has the key. *)
Definition open_key (id : list Z) (w : World) : Prop :=
  forall q, q ∈ w_payments w -> p_id q = id -> p_is_paid q = false.

Lemma ext_free p l : ext_taken p l = false ->
  forall q, q ∈ l -> is_Some (p_external_id p) -> p_external_id q = p_external_id p -> p_id q = p_id p.
Proof.
  intros Ht q Hq Hs E. destruct (decide (p_id q = p_id p)) as [|Hn]; [done|]. exfalso.
  apply not_true_iff_false in Ht. apply Ht, existsb_exists. exists q. rewrite <- list_elem_of_In. split; [done|].
  by rewrite (bool_decide_eq_false_2 (p_id q = p_id p)), (bool_decide_eq_true_2 (is_Some _)), bool_decide_eq_true_2.
Qed.

Definition written (p q : SubscriptionPayment) : SubscriptionPayment :=
  if decide (p_id q = p_id p) then write_payment p q else q.
Lemma written_id p q : p_id (written p q) = p_id q.
Proof. unfold written. by case_decide. Qed.

Lemma written_unique p l : has_payment (p_id p) l && ext_taken p l = false -> ext_unique l ->
  ext_unique (map (written p) l).
Proof.
  intros Hfree Hext x y (x' & -> & Hx)%list_elem_of_fmap (y' & -> & Hy)%list_elem_of_fmap. rewrite !written_id.
  assert (forall z, z ∈ l -> p_id z = p_id p -> ext_taken p l = false) as Htaken.
  { intros z Hz E. apply andb_false_iff in Hfree as [Hno|]; [|done]. exfalso.
    apply not_true_iff_false in Hno. apply Hno, existsb_exists. exists z. rewrite <- list_elem_of_In.
    by rewrite bool_decide_eq_true_2. }
  unfold written. case_decide as Ex; case_decide as Ey; cbn [write_payment p_external_id]; intros Hs E.
  - congruence.
  - rewrite Ex. by apply (ext_free p l (Htaken x' Hx Ex)).
  - rewrite Ey. symmetry. apply (ext_free p l (Htaken y' Hy Ey)); [done| |done]. by rewrite E.
  - by apply Hext.
Qed.

Lemma update_ledger p w (Q : res Fail unit -> World -> Prop) : open_key (p_id p) w ->
  (forall r w', Ledger w w' -> w_subs w' = w_subs w -> w_items w' = w_items w ->
     r = Ok tt /\ w_payments w' = map (written p) (w_payments w) \/ r = Err Duplicate /\ w' = w -> Q r w') ->
  wp (update_subscription_payment p) Q w.
Proof.
  intros Hopen HQ. unfold update_subscription_payment. sub_steps. destruct (_ && _) eqn:E; sub_steps.
  - apply HQ; [done..|by right].
  - apply HQ; [|done|done|by left]. eapply (ledger_map (written p)); [done|apply written_id| |].
    + intros x Hx Hp. unfold written. case_decide as Ex; [|done]. specialize (Hopen x Hx Ex). congruence.
    + intros [_ Hext]. by apply written_unique.
Qed.

Lemma insert_ledger `{!Clock} p w (Q : res Fail unit -> World -> Prop) :
  (forall r w', Ledger w w' -> w_subs w' = w_subs w -> w_items w' = w_items w ->
     r = Ok tt /\ w_payments w' = w_payments w ++ [store_payment p] \/
     (exists e, r = Err e) /\ w' = w -> Q r w') ->
  wp (insert_subscription_payment p) Q w.
Proof.
  intros HQ. unfold insert_subscription_payment. sub_steps. cbn [id] in *.
  destruct (_ || _) eqn:E; [sub_steps; apply HQ; [done..|right; split; [by eexists|done]]|].
  destruct (negb _); sub_steps; [apply HQ; [done..|right; split; [by eexists|done]]|].
  apply orb_false_iff in E as [Hid Hext]. apply HQ; [|done|done|by left].
  intros Hw. split; [|intros q Hq _; apply elem_of_app; by left]. destruct Hw as [Hids Huniq].
  assert (forall q, q ∈ w_payments w -> p_id q <> p_id p) as Hnew.
  { intros q Hq Eq. apply not_true_iff_false in Hid. apply Hid, existsb_exists. exists q.
    rewrite <- list_elem_of_In. by rewrite bool_decide_eq_true_2. }
  split; cbn [w_payments set_payments].
  - rewrite fmap_app. apply NoDup_app. split; [done|]. split; [|apply NoDup_singleton].
    intros i (q & -> & Hq)%list_elem_of_fmap Ei%list_elem_of_singleton. by apply (Hnew q).
  - intros x y [Hx| ->%list_elem_of_singleton]%elem_of_app [Hy| ->%list_elem_of_singleton]%elem_of_app Hs Exy;
      cbn [store_payment p_external_id p_id] in *; [by apply Huniq| | |done].
    + symmetry. apply (ext_free p _ Hext); [done| |done]. by rewrite Exy.
    + by apply (ext_free p _ Hext).
Qed.

Section watcher.
Context `{PR : !PaymentsRs, PL : !PaymentsRsLaws, IC : !IsoCountry, NL : !NetLib, NS : !NetShow, RR : !RegistryRef,
  CK : !Clock, RM : !Remote, CA : !Calendar, CH : !Chrono, PI : !PaymentIds}.

Lemma paid_ledger p : keeps Ledger (subscription_payment_paid p).
Proof.
  intros w. refine (_ : wp _ (fun _ w' => Ledger w w') w).
  unfold subscription_payment_paid, list_subscription_line_items, on_sub, get_subscription.
  apply wp_transaction. sub_steps.
  match goal with |- wp _ _ ?w0 => assert (w_payments w0 = map (marked p (stamps w 0)) (w_payments w)) as E end.
  { unfold stamps. by rewrite Nat.add_0_r. }
  destruct (negb _); [sub_steps; by eapply mark_ledger|]. sub_steps. destruct (p_time_value p); sub_steps; [by eapply mark_ledger|].
  destruct (fetch_one _); sub_steps; [by eapply mark_ledger|by apply ledger_same].
Qed.

(** What a successful completion does to the rows first. *)
Lemma paid_marks p w w1 : subscription_payment_paid p w = (Ok tt, w1) ->
  w_payments w1 = map (marked p (stamps w 0)) (w_payments w).
Proof.
  intros E.
  assert (wp (subscription_payment_paid p) (fun r w' => r = Ok tt ->
    w_payments w' = map (marked p (stamps w 0)) (w_payments w)) w) as Hwp; [|by apply (wp_run _ _ _ _ _ Hwp E)].
  unfold subscription_payment_paid, list_subscription_line_items, on_sub, get_subscription.
  apply wp_transaction. sub_steps. unfold stamps. rewrite Nat.add_0_r.
  destruct (negb _); [by sub_steps|]. sub_steps. destruct (p_time_value p); sub_steps; [done|].
  destruct (fetch_one _); by sub_steps.
Qed.

Lemma expire_all_ledger l w : Forall (fun p => p_is_paid p = false /\ open_key (p_id p) w) l ->
  wp (expire_all l) (fun _ w' => Ledger w w') w.
Proof.
  revert w. induction l as [|p l IH]; intros w Hl; cbn [expire_all]; [by sub_steps|].
  inversion Hl as [|? ? [Hp Hopen] Hl']; subst. sub_steps. apply update_ledger; [exact Hopen|].
  intros r w' Hw _ _ Hcase. sub_steps. eapply wp_mono; [apply IH|].
  - eapply Forall_impl; [exact Hl'|]. intros q [Hq Hoq]. split; [done|].
    destruct Hcase as [[_ E]|[_ ->]]; [|exact Hoq]. intros x Hx Ex. rewrite E in Hx.
    apply list_elem_of_fmap in Hx as (y & -> & Hy). rewrite written_id in Ex. unfold written.
    case_decide; [done|]. by apply Hoq.
  - intros r' w'' Hw'. sub_steps. etrans; [|exact Hw']. exact Hw.
Qed.

(** What follows the transaction of a completion. *)
Definition after_payment (p : SubscriptionPayment) : Act (list SubscriptionPayment) :=
  items ← list_subscription_line_items (p_subscription_id p);
  each_handler (fun h _ => _ ← on_payment h p; mret tt) items;;
  if bool_decide (p_type p = Upgrade) then
    vm ← get_vm_by_subscription (p_subscription_id p);
    match vm with
    | Err _ => mret (Ok [])
    | Ok vm =>
        pending ← list_pending_vm_subscription_payments (v_id vm);
        expired ← expire_all (filter (fun q => p_type q = Upgrade /\ p_id q <> p_id p) pending);
        mret (Ok expired)
    end
  else mret (Ok []).
Lemma complete_split p : complete_payment p = (subscription_payment_paid p ;? after_payment p).
Proof. reflexivity. Qed.
Lemma rest_ledger p w1 : wp (after_payment p) (fun r w' => is_ok (r : res Fail _) = true /\ Ledger w1 w') w1.
Proof.
  unfold after_payment, list_subscription_line_items. sub_steps.
  assert (keeps same_billing (each_handler (fun h _ => on_payment h p ≫= (fun _ => mret tt))
    (q_list_line_items (p_subscription_id p) w1))) as Hk.
  { apply each_handler_keeps; [apply _|apply make_handler_billing|]. intros h li.
    apply keeps_bind; [apply _|apply on_payment_billing|intros _; apply keeps_ret, _]. }
  specialize (Hk w1). destruct (each_handler _ _ w1) as [[] w2] eqn:E.
  unfold wp at 1. rewrite E. cbn [fst snd] in *. apply billing_ledger in Hk.
  case_bool_decide; [|sub_steps; done]. unfold get_vm_by_subscription. sub_steps.
  destruct (fetch_one _) as [vm|e]; [|sub_steps; done]. unfold list_pending_vm_subscription_payments. sub_steps.
  set (w3 := bump_reads w2) in *. assert (Ledger w1 w3) as Hk3 by (etrans; [exact Hk|by apply ledger_same]).
  match goal with |- wp (expire_all ?l) _ _ => set (pending := l) end.
  assert (rows_ok w3 -> Forall (fun p => p_is_paid p = false /\ open_key (p_id p) w3) pending) as Hpend.
  { intros Hw3. apply Forall_forall. intros x [[_ _] [[Hx _] Hin]%list_elem_of_filter]%list_elem_of_filter.
    split; [done|]. unfold vm_payments in Hin. apply list_elem_of_bind in Hin as (y & Hin & Hy).
    apply list_elem_of_bind in Hin as (i & Hin & _). apply list_elem_of_bind in Hin as (v & Hin & _).
    apply list_elem_of_singleton in Hin as ->. intros q Hq Eq. by rewrite (same_row w3 q y Hw3 Hq Hy Eq). }
  assert (wp (expire_all pending) (fun _ w' => Ledger w1 w') w3) as Hwp.
  { intros Hw1. destruct (Hk3 Hw1) as [Hw3 _]. pose proof (expire_all_ledger pending w3 (Hpend Hw3)) as Hx.
    exact (transitivity Hk3 Hx Hw1). }
  eapply wp_mono; [exact Hwp|]. intros r w' Hw'. by sub_steps.
Qed.


Lemma complete_ledger p : keeps Ledger (complete_payment p).
Proof.
  rewrite complete_split. apply keeps_try; [apply _|apply paid_ledger|]. intros _ w. apply rest_ledger.
Qed.

(** A completion that succeeds settles the pending row of its payment. *)
Lemma complete_credits p row w w' l : rows_ok w -> row ∈ w_payments w -> p_id row = p_id p ->
  p_is_paid row = false -> complete_payment p w = (Ok l, w') ->
  exists t, mark_paid (p_external_data p) t row ∈ w_payments w'.
Proof.
  intros Hw Hrow Eid Hp E. rewrite complete_split in E. unfold try_bind in E. rewrite bind_run in E.
  destruct (subscription_payment_paid p w) as [[[]|e] w1] eqn:Epaid; cbn [fst snd] in E; [|done].
  exists (stamps w 0). pose proof (paid_ledger p w Hw) as [Hw1 _]. rewrite Epaid in Hw1. cbn [snd] in Hw1.
  pose proof (rest_ledger p w1) as Hrest. unfold wp in Hrest. rewrite E in Hrest. cbn [fst snd] in Hrest.
  apply (proj2 (proj2 Hrest Hw1)); [|done]. rewrite (paid_marks p w w1 Epaid). apply list_elem_of_fmap.
  exists row. split; [|done]. unfold marked. by rewrite bool_decide_eq_true_2, Hp.
Qed.

Lemma reads_billing w w' : only_reads w w' -> same_billing w w'.
Proof. intros [-> _]. done. Qed.
Lemma regenerate_reads cat p gross : keeps only_reads (regenerate cat p gross).
Proof.
  unfold regenerate. frame_tac ltac:(first [ reads_step | apply cost_by_amount_reads | apply sub_cost_by_amount_reads ]).
Qed.
Lemma regenerate_quiet cat p gross : keeps same_billing (regenerate cat p gross).
Proof. intros w. apply reads_billing, regenerate_reads. Qed.

(** Prices that the theorems on payments apply to. *)
Definition prices_ok (cat : Catalog) : Prop :=
  catalog_ok cat = true /\
  forall company, (0 <= (processing_fee_params cat company OnChain BTC).2 < 2 ^ 53)%Z.

(** A price is made for all of what arrived. *)
Lemma regenerate_spec cat p gross w p' : prices_ok cat -> (0 <= gross < 2 ^ 45)%Z ->
  (regenerate cat p gross w).1 = Ok p' ->
  exists secs r a t f, p' = reprice (Some secs) r a t f p /\ (0 < secs)%Z /\ (a + t + f = gross)%Z /\
    priced_gross p' = gross.
Proof.
  intros [Hcat Hbase] Hg H. unfold regenerate in H. apply bind_ok in H. cbv zeta in H.
  apply try_ok in H as (cost & Hcost & H). destruct cost as [x|i]; [done|]. injection H as <-.
  assert (value (from_u64 BTC gross) = gross) as Hval by (apply value_from; unfold fits; lia).
  assert (turned_into cat (from_u64 BTC gross) OnChain
    (get_vm_by_subscription (p_subscription_id p) w).2 i) as Hturn.
  { destruct ((get_vm_by_subscription (p_subscription_id p) w).1) as [vm|e]; [left|right]; by eexists. }
  apply turned_into_buy in Hturn as (user & company & r & time & cost & expires & w' & Hbuy).
  pose proof Hbuy as Hinv. rewrite currency_from in Hbuy, Hinv.
  apply buy_accounted in Hbuy as (Ha & Ht & Hf & Hsum); [|done|apply Hbase|rewrite Hval; lia].
  apply buy_inv in Hinv as (? & _ & _ & _ & _ & Htime & Hpos & _); [|done|rewrite Hval; lia].
  rewrite Hval in *. exists (np_time_value i), (rate (np_rate i)), (np_amount i), (np_tax i), (np_processing_fee i).
  split; [done|]. split; [lia|]. split; [done|]. unfold priced_gross, reprice. cbn [p_amount p_tax p_processing_fee].
  rewrite (wadd_small 64 (np_amount i)), wadd_small by lia. done.
Qed.

(** *** Settling a deposit *)

(** A row that credits a deposit, for all of what arrived. *)
Definition credits (key : string) (amount : Z) (w : World) (q : SubscriptionPayment) : Prop :=
  q ∈ w_payments w /\ p_external_id q = Some key /\ p_is_paid q = true /\ priced_gross q = amount.

Lemma payments_same w w' : w_payments w' = w_payments w -> rows_ok w -> rows_ok w'.
Proof. unfold rows_ok. by intros ->. Qed.

(** The subscription of a payment is extended by the payment's time, and no other
    one changes. *)
Definition extends_sub (q : SubscriptionPayment) (w w' : World) : Prop :=
  billed w -> exists_sub (p_subscription_id q) w -> exists t, w_subs w' = after_paid q t w.
Lemma extends_same q w0 w w' : w_subs w = w_subs w0 -> extends_sub q w w' -> extends_sub q w0 w'.
Proof. unfold extends_sub, billed, exists_sub, after_paid. by intros ->. Qed.

Lemma complete_extends p w w' l : unpaid_in p w = true -> complete_payment p w = (Ok l, w') ->
  extends_sub p w w'.
Proof.
  intros Hu E Hb (sub & Es & Hsub)%list_elem_of_fmap. symmetry in Es.
  pose proof (paid_first p w sub Hu Hb Hsub Es) as (E1 & E2 & _ & E4).
  destruct (subscription_payment_paid p w) as [r w1] eqn:Ep. cbn [fst snd] in *. subst r.
  destruct (complete_rest p (p_id p) w w1 Ep (mark_settles p _ _ w w1 E4)) as [Ec _].
  rewrite E in Ec. cbn [snd] in Ec. exists (stamps w 1). by rewrite Ec.
Qed.

(** What completing a stored payment does. *)
Lemma complete_stored pk row key amount w : rows_ok w -> row ∈ w_payments w -> p_id row = p_id pk ->
  p_is_paid row = false -> p_external_id row = Some key ->
  p_subscription_id row = p_subscription_id pk -> p_time_value row = p_time_value pk ->
  wp (complete_payment pk ;? mret (Ok tt)) (fun r w' => Ledger w w' /\
    (r = Ok tt -> priced_gross row = amount -> exists q, credits key amount w' q /\
       p_subscription_id q = p_subscription_id row /\ extends_sub q w w')) w.
Proof.
  intros Hw Hrow Eid Hp Hkey Esub Etime. apply wp_try. pose proof (complete_ledger pk w) as Hl.
  destruct (complete_payment pk w) as [[l|e] w'] eqn:E; unfold wp at 1; rewrite E; cbn [fst snd] in *; [|done].
  sub_steps. split; [exact Hl|]. intros _ Hg. destruct (complete_credits pk row w w' l Hw Hrow Eid Hp E) as (t & Ht).
  exists (mark_paid (p_external_data pk) t row). split; [done|]. split; [done|].
  assert (unpaid_in pk w = true) as Hu.
  { apply existsb_exists. exists row. rewrite <- list_elem_of_In, Eid, Hp. by rewrite bool_decide_eq_true_2. }
  pose proof (complete_extends pk w w' l Hu E) as Hext. unfold extends_sub, after_paid, paid_until in *.
  cbn [mark_paid p_subscription_id p_time_value]. by rewrite Esub, Etime.
Qed.

(** The pricing step keeps the row's identity. *)
Definition repriced (p p' : SubscriptionPayment) : Prop :=
  p_id p' = p_id p /\ p_subscription_id p' = p_subscription_id p /\
  p_is_paid p' = p_is_paid p /\ p_external_id p' = p_external_id p.
Lemma regenerate_same cat p gross w p' : (regenerate cat p gross w).1 = Ok p' -> repriced p p'.
Proof.
  intros H. unfold regenerate in H. apply bind_ok in H. cbv zeta in H.
  apply try_ok in H as (cost & _ & H). destruct cost; [done|]. injection H as <-. done.
Qed.

Lemma settle_pending_spec cat key amount already p w : rows_ok w -> p ∈ w_payments w -> p_is_paid p = false ->
  wp (settle_pending cat key amount already p) (fun r w' => Ledger w w' /\
    (r = Ok tt -> prices_ok cat -> (0 <= amount < 2 ^ 45)%Z -> exists q, credits key amount w' q /\
       p_subscription_id q = p_subscription_id p /\ extends_sub q w w')) w.
Proof.
  intros Hw Hin Hp. unfold settle_pending. apply wp_try.
  assert (wp (if negb already || negb (priced_gross p =? amount)%Z then regenerate cat p amount else mret (Ok p))
    (fun r w1 => same_billing w w1 /\ forall p', r = Ok p' -> repriced p p' /\
       (prices_ok cat -> (0 <= amount < 2 ^ 45)%Z -> priced_gross p' = amount)) w) as Hfirst.
  { destruct (_ || _) eqn:E.
    - split; [apply regenerate_quiet|]. intros p' Hr. split; [by eapply regenerate_same|].
      intros Hc Ha. by destruct (regenerate_spec cat p amount w p' Hc Ha Hr) as (? & ? & ? & ? & ? & _ & _ & _ & ?).
    - sub_steps. split; [done|]. intros p' [= <-]. split; [done|]. intros _ _. apply orb_false_iff in E as [_ E].
      by apply negb_false_iff, Z.eqb_eq in E. }
  eapply wp_mono; [exact Hfirst|]. intros [p'|e] w1 [Hs Hp'].
  2: { split; [by apply billing_ledger|done]. }
  destruct (Hp' p' eq_refl) as [(Eid & Esub & Epd & _) Hg]. pose proof Hs as (_ & _ & Epay).
  assert (rows_ok w1) as Hw1 by by apply (payments_same w).
  apply wp_try. apply update_ledger.
  { intros q Hq Eq. rewrite Epay in Hq. cbn [with_key p_id] in Eq. rewrite Eid in Eq. by rewrite (same_row w q p). }
  intros r w2 Hl2 Hs2 _ [[-> E2]|[-> ->]].
  2: { split; [by apply billing_ledger|done]. }
  assert (Ledger w w2) as Hl by (etrans; [by apply billing_ledger|exact Hl2]).
  set (pk := with_key key p') in *. set (row := write_payment pk p).
  assert (row ∈ w_payments w2) as Hrow.
  { rewrite E2, Epay. apply list_elem_of_fmap. exists p. split; [|done]. unfold written, pk. cbn [with_key p_id].
    by rewrite decide_True. }
  eapply wp_mono; [apply (complete_stored pk row key amount w2); try done|].
  - by apply Hl.
  - cbn. by rewrite Epd.
  - intros r w' [Hl' Hc]. split; [by etrans|]. intros Hr Hpr Ha.
    destruct (Hc Hr (Hg Hpr Ha)) as (q & Hq & Eq & Hx). exists q. rewrite Eq. split; [done|]. split; [done|].
    apply (extends_same q w w2); [|done]. by rewrite Hs2, (proj1 Hs).
Qed.

Lemma settle_again_spec cat address key amount p w :
  wp (settle_again cat address key amount p) (fun r w' => Ledger w w' /\
    (r = Ok tt -> rows_ok w -> prices_ok cat -> (0 <= amount < 2 ^ 45)%Z -> exists q, credits key amount w' q /\
       p_subscription_id q = p_subscription_id p /\ extends_sub q w w')) w.
Proof.
  unfold settle_again. sub_steps. set (w1 := bump_reads (bump_reads w)).
  assert (same_billing w w1) as Hs by done. clearbody w1.
  match goal with |- wp (regenerate _ ?p0 _) _ _ => set (fresh := p0) end.
  pose proof (regenerate_quiet cat fresh amount w1) as Hq. pose proof (regenerate_same cat fresh amount w1) as Hr.
  pose proof (fun p' Hc Ha => regenerate_spec cat fresh amount w1 p' Hc Ha) as Hg.
  destruct (regenerate cat fresh amount w1) as [[p'|e] w2] eqn:E; unfold wp at 1; rewrite E; cbn [fst snd] in *.
  2: { split; [|done]. apply billing_ledger. by etrans. }
  destruct (Hr p' eq_refl) as (_ & Esub & Epd & Eext). clear Hr.
  assert (Ledger w w2) as Hl by (apply billing_ledger; by etrans).
  apply wp_try. apply insert_ledger. intros r w3 Hl3 Hs3 _ [[-> E3]|[[e ->] ->]].
  2: { by split. }
  assert (rows_ok w -> wp (complete_payment p' ;? mret (Ok tt)) (fun r w' => Ledger w w' /\
    (r = Ok tt -> prices_ok cat -> (0 <= amount < 2 ^ 45)%Z -> exists q, credits key amount w' q /\
       p_subscription_id q = p_subscription_id p /\ extends_sub q w w')) w3) as Hc.
  { intros Hw. eapply wp_mono; [apply (complete_stored p' (store_payment p') key amount w3)|].
    - apply Hl3. by apply Hl.
    - rewrite E3. apply elem_of_app. right. by apply list_elem_of_singleton.
    - done.
    - cbn. by rewrite Epd.
    - cbn. by rewrite Eext.
    - done.
    - done.
    - intros r w' [Hl' Hc]. split; [etrans; [exact Hl|by etrans]|]. intros Hr Hpr Ha.
      destruct (Hg p' Hpr Ha eq_refl) as (? & ? & ? & ? & ? & _ & _ & _ & Hgross).
      destruct (Hc Hr Hgross) as (q & Hq' & Eq & Hx). exists q. rewrite Eq. split; [done|]. split; [by cbn; rewrite Esub|].
      apply (extends_same q w w3); [|done]. by rewrite Hs3, (proj1 Hq), (proj1 Hs). }
  assert (keeps Ledger (complete_payment p' ;? mret (Ok tt))) as Hk.
  { apply keeps_try; [apply _|apply complete_ledger|]. intros l. apply keeps_ret, _. }
  split; [etrans; [exact Hl|]; etrans; [exact Hl3|apply Hk]|].
  intros Hr Hw Hpr Ha. by apply (Hc Hw).
Qed.

(** *** Events *)

Lemma latest_in l p : latest l = Some p -> p ∈ l.
Proof.
  unfold latest. assert (forall acc, foldl (fun acc q => match acc with
    | Some r => if (p_created r <=? p_created q)%Z then Some q else Some r | None => Some q end) acc l = Some p ->
    acc = Some p \/ p ∈ l) as Hgen; [|intros H; by destruct (Hgen None H)].
  induction l as [|q l IH]; intros acc; cbn [foldl]; [by left|]. intros [H|H]%IH; [|right; by right].
  destruct acc as [r|]; [destruct (_ <=? _)%Z|]; (injection H as ->; first [by left|right; by left]).
Qed.

(** The payment that a deposit belongs to: the one that has its key, or else the
    newest one of the address. *)
Definition belongs (address key : string) (w : World) : option SubscriptionPayment :=
  match fetch_one (filter (fun p => p_external_id p = Some key) (w_payments w)) with
  | Ok p => Some p
  | Err _ => latest (filter (fun p => p_external_data p = address)
               (filter (fun p => p_method p = OnChain) (w_payments w)))
  end.
Definition keyed (key : string) (w : World) : bool :=
  is_ok (fetch_one (filter (fun p => p_external_id p = Some key) (w_payments w))).
Lemma belongs_in address key w p : belongs address key w = Some p -> p ∈ w_payments w.
Proof.
  unfold belongs. destruct (fetch_one _) as [q|e] eqn:E.
  - intros [= <-]. by apply fetch_one_in, list_elem_of_filter in E as [_ E].
  - intros [_ [_ H]%list_elem_of_filter]%latest_in%list_elem_of_filter. done.
Qed.

Lemma deleted_run sub w : deleted_vm sub w = ((deleted_vm sub w).1, w).
Proof. reflexivity. Qed.
Lemma settle_spec cat address key amount already p w : rows_ok w -> p ∈ w_payments w ->
  wp (settle cat address key amount already p) (fun r w' => Ledger w w' /\
    (r = Ok tt -> (deleted_vm (p_subscription_id p) w).1 = None -> prices_ok cat -> (0 <= amount < 2 ^ 45)%Z ->
       exists q, credits key amount w' q /\ p_subscription_id q = p_subscription_id p /\ extends_sub q w w')) w.
Proof.
  intros Hw Hin. unfold settle. apply wp_bind. unfold wp at 1. rewrite (deleted_run _ w). cbn [fst snd].
  destruct ((deleted_vm (p_subscription_id p) w).1) as [vm|].
  { unfold notify_deleted_vm_deposit, queue_admin_notification. sub_steps.
    case_bool_decide; sub_steps; [by split; [|intros _ ?]|]. apply wp_call. intros ok _. sub_steps.
    split; [by apply ledger_same|by intros _ ?]. }
  destruct (p_is_paid p) eqn:Ep.
  - eapply wp_mono; [apply settle_again_spec|]. intros r w' [Hl Hc]. auto.
  - eapply wp_mono; [by apply settle_pending_spec|]. intros r w' [Hl Hc]. auto.
Qed.

Lemma deposit_spec cat address txid vout amount w : rows_ok w ->
  let key := deposit_key txid vout in
  wp (handle_deposit cat address txid vout amount) (fun r w' => Ledger w w' /\
    (r = Ok tt -> forall p, belongs address key w = Some p -> keyed key w && p_is_paid p = false ->
       (deleted_vm (p_subscription_id p) w).1 = None -> prices_ok cat -> (0 <= amount < 2 ^ 45)%Z ->
       exists q, credits key amount w' q /\ p_subscription_id q = p_subscription_id p /\ extends_sub q w w')) w.
Proof.
  intros Hw key. pose proof (belongs_in address key w) as Hin. revert Hin.
  unfold handle_deposit, get_subscription_payment_by_ext_id, belongs, keyed. fold key. intros Hin.
  sub_steps. revert Hin.
  destruct (fetch_one _) as [p|e]; cbn [is_ok andb].
  - intros Hin. destruct (p_is_paid p) eqn:Ep; [sub_steps; split; [reflexivity|]; intros _ p' [= <-] ?; congruence|].
    eapply wp_mono; [apply settle_spec; [done|by apply Hin]|]. intros r w' [Hl Hc]. split; [done|].
    intros Hr p' [= <-] _. by apply Hc.
  - intros Hin. unfold payment_for_address, list_subscription_payments_by_method. sub_steps.
    destruct (latest _) as [p|]; [|sub_steps; by split].
    eapply wp_mono; [apply settle_spec; [done|by apply Hin]|]. intros r w' [Hl Hc]. split; [done|].
    intros Hr p' [= <-] _. by apply Hc.
Qed.

Lemma deposit_ledger cat address txid vout amount : keeps Ledger (handle_deposit cat address txid vout amount).
Proof. intros w Hw. by apply (deposit_spec cat address txid vout amount w Hw). Qed.

Lemma detected_ledger cat address txid vout amount : keeps Ledger (handle_detected cat address txid vout amount).
Proof.
  intros w Hw. enough (wp (handle_detected cat address txid vout amount) (fun _ w' => Ledger w w') w) as H by exact (H Hw).
  unfold handle_detected, get_subscription_payment_by_ext_id, payment_for_address, list_subscription_payments_by_method.
  sub_steps. destruct (is_ok _); [by sub_steps|]. sub_steps.
  destruct (latest _) as [p|] eqn:E; [|by sub_steps].
  apply latest_in, list_elem_of_filter in E as [_ [_ Hin]%list_elem_of_filter].
  destruct (p_is_paid p) eqn:Ep; [by sub_steps|]. unfold deleted_vm, get_vm_by_subscription. sub_steps.
  destruct (match fetch_one _ with Ok _ => _ | Err _ => _ end); [by sub_steps|]. apply wp_try.
  pose proof (regenerate_quiet cat p amount w) as Hq. pose proof (regenerate_same cat p amount w) as Hr.
  destruct (regenerate cat p amount w) as [[p'|e] w1] eqn:E; unfold wp at 1; rewrite E; cbn [fst snd] in *;
    [|by apply billing_ledger].
  destruct (Hr p' eq_refl) as (Eid & _). pose proof Hq as (_ & _ & Epay). apply update_ledger.
  - intros q Hq' Eq. rewrite Epay in Hq'. cbn [with_key p_id] in Eq. rewrite Eid in Eq. by rewrite (same_row w q p).
  - intros r w' Hl _ _ _. etrans; [by apply billing_ledger|exact Hl].
Qed.

Lemma listen_ledger cat updates : keeps Ledger (listen cat updates).
Proof.
  induction updates as [|[address txid vout amount|address txid vout amount|] updates IH]; cbn [listen];
    [apply keeps_ret, _| | |apply keeps_ret, _]; (apply keeps_bind; [apply _| |intros _; exact IH]);
    [apply deposit_ledger|apply detected_ledger].
Qed.

(** A credited deposit is found by its key. *)
Lemma credited_fetch key q w : rows_ok w -> q ∈ w_payments w -> p_external_id q = Some key ->
  fetch_one (filter (fun p => p_external_id p = Some key) (w_payments w)) = Ok q.
Proof.
  intros Hw Hq Ek. destruct (fetch_one _) as [p|e] eqn:E.
  - apply fetch_one_in, list_elem_of_filter in E as [Ep Hp]. f_equal. apply (same_row w); [done..|].
    destruct Hw as [_ Hext]. apply (Hext q p Hq Hp); [by rewrite Ek|congruence].
  - exfalso. assert (q ∈ filter (fun p => p_external_id p = Some key) (w_payments w)) as Hin by by apply list_elem_of_filter.
    unfold fetch_one in E. destruct (filter _ _); [by apply not_elem_of_nil in Hin|done].
Qed.

(** C17: A deposit is credited once: when a confirmed deposit that was not settled yet
    belongs to a payment of a subscription whose machine is not deleted, and its
    handling succeeds, exactly one payment has its outpoint, it is settled, of the
    same subscription, its net, tax and fee sum to what arrived, and that
    subscription alone is extended by its time. Whatever events follow, that payment stays as it is, and a replay of the deposit,
    detected or confirmed, changes nothing at all. *)
Theorem deposit_credited_once cat address txid vout amount w w1 p (Hw : rows_ok w) (Hsubs : billed w)
    (Hpr : prices_ok cat) (Ha : (0 <= amount < 2 ^ 45)%Z) :
  let key := deposit_key txid vout in
  belongs address key w = Some p -> exists_sub (p_subscription_id p) w -> keyed key w && p_is_paid p = false ->
  (deleted_vm (p_subscription_id p) w).1 = None ->
  handle_deposit cat address txid vout amount w = (Ok tt, w1) ->
  exists q, credits key amount w1 q /\ p_subscription_id q = p_subscription_id p /\
    (exists t, w_subs w1 = after_paid q t w) /\
    forall updates, let w2 := (listen cat updates w1).2 in
      q ∈ w_payments w2 /\ (forall q', q' ∈ w_payments w2 -> p_external_id q' = Some key -> q' = q) /\
      forall address' amount', handle_deposit cat address' txid vout amount' w2 = (Ok tt, w2) /\
        handle_detected cat address' txid vout amount' w2 = (Ok tt, w2).
Proof.
  intros key Hb Hsub Hnew Hlive E. pose proof (deposit_spec cat address txid vout amount w Hw) as Hspec.
  unfold wp in Hspec. rewrite E in Hspec. destruct Hspec as [Hl Hc]. cbn [fst snd] in Hl, Hc.
  destruct (Hc eq_refl p Hb Hnew Hlive Hpr Ha) as (q & (Hq & Hk & Hp & Hg) & Hs & Hx). exists q.
  split; [done|]. split; [done|]. split; [by rewrite <- Hs in Hsub; apply Hx|]. intros updates w2. destruct (Hl Hw) as [Hw1 _].
  destruct (listen_ledger cat updates w1 Hw1) as [Hw2 Hkeep]. fold w2 in Hw2, Hkeep.
  specialize (Hkeep q Hq Hp). pose proof (credited_fetch key q w2 Hw2 Hkeep Hk) as Hf. split; [done|]. split.
  - intros q' Hq' Hk'. pose proof (credited_fetch key q' w2 Hw2 Hq' Hk') as Hf'. congruence.
  - intros address' amount'. unfold handle_deposit, handle_detected, get_subscription_payment_by_ext_id, db.
    fold key. rewrite !bind_run, gets_run. cbn [fst snd]. rewrite Hf. cbn [is_ok]. by rewrite Hp.
Qed.
End watcher.
