(* ===== verification/OnChainWitness.v ===== *)
(** * Deposits at concrete worlds

    The theorem applied to a deposit that confirms, and an upgrade that any deposit
    pays for. *)

From Stdlib Require Import Ascii String SpecFloat.
From S2P Require Import Prelude NetText IpAlloc Network HostTypes Exchange SubDb Pricing PricingMath PricingProofs IpProvision SubLife SubLifeProofs.
From S2P Require Import IpProvisionProofs IpProvWitness SubWitness PricingWitness OnChain OnChainProofs.

Module ChainRuns.
Import RefNet ProvWitness LifeRuns PriceRuns.

#[export] Instance ids : PaymentIds := fun n => [Z.of_nat n; 7].
#[export] Instance answers : Remote := all_ok.

(** A quote of a thousand satoshi on chain, and one for an upgrade at a million. *)
Definition chain_quote (type : SubscriptionPaymentType) (msat : Z) (secs : option Z) (meta : option Json)
  : SubscriptionPayment :=
  {| p_id := [1]; p_subscription_id := 1; p_user_id := 5; p_created := 0; p_expires := hours 1;
     p_amount := msat; p_currency := "BTC"; p_method := OnChain; p_type := type;
     p_external_data := "bc1q"; p_external_id := None; p_is_paid := false; p_time_value := secs;
     p_metadata := meta; p_tax := 0; p_processing_fee := 0; p_paid_at := None; p_rate := f32_of 90000;
     p_tax_rate := None; p_tax_country_code := None; p_tax_treatment := None |}%string.
Definition chain_world (p : SubscriptionPayment) : World := vm_world (vm_sub 0 (30 * DAY) true) [vm7] [p].
Definition renewal_world : World := chain_world (chain_quote Renewal 1000000 (Some 1000) None).
Definition deposit : res Fail unit * World := handle_deposit catalog "bc1q" "tx" 0 5555556 renewal_world.
Definition settled_world : World := deposit.2.

Lemma catalog_prices : prices_ok catalog.
Proof.
  split; [vm_compute; reflexivity|]. intros company. unfold processing_fee_params. rewrite decide_False by done.
  unfold get_payment_method_config_for_company, catalog. cbn [cat_configs].
  rewrite filter_cons. case_decide as Ec; vm_compute; by split.
Qed.

Lemma run_ok_pair (r : res Fail unit * World) : Prelude.is_ok r.1 = true -> r = (Ok tt, r.2).
Proof. by destruct r as [[[]|] w]. Qed.

(** Five euros worth of bitcoin, tax included: less than a month. *)
Lemma deposit_credited_once_witness :
  (p_amount <$> w_payments settled_world) = [4668534] /\ (p_tax <$> w_payments settled_world) = [887021] /\
  (s_expires <$> w_subs settled_world) = [Some (30 * DAY + 2177976 * SEC)] /\
  exists q, credits "tx:0" 5555556 settled_world q /\
    forall updates, q ∈ w_payments (listen catalog updates settled_world).2.
Proof.
  split; [vm_compute; reflexivity|]. split; [vm_compute; reflexivity|]. split; [vm_compute; reflexivity|].
  assert (deposit = (Ok tt, settled_world)) as E by (apply run_ok_pair; vm_compute; reflexivity).
  destruct (deposit_credited_once catalog "bc1q" "tx" 0 5555556 renewal_world settled_world
    (chain_quote Renewal 1000000 (Some 1000) None)) as (q & Hq & _ & _ & Hnext).
  - split; [apply NoDup_singleton|]. intros p q ->%list_elem_of_singleton ->%list_elem_of_singleton. done.
  - apply NoDup_singleton.
  - exact catalog_prices.
  - by split.
  - vm_compute. reflexivity.
  - by left.
  - vm_compute. reflexivity.
  - vm_compute. reflexivity.
  - exact E.
  - exists q. split; [exact Hq|]. intros updates. exact (proj1 (Hnext updates)).
Defined.

(** An upgrade to four cores was quoted at a million satoshi; a thousand arrive. The
    upgrade is ordered all the same, and the machine is extended too. *)
Definition upgrade_world : World :=
  chain_world (chain_quote Upgrade 1000000000 (Some 0) (Some (JObject [("new_cpu", JNumber 4)]))).
Definition cheap_upgrade : World := (handle_deposit catalog "bc1q" "tx" 0 1000000 upgrade_world).2.
Lemma upgrade_paid_by_any_deposit :
  (w_calls cheap_upgrade).*1 =
    [SendJob (ProcessVmUpgrade 7 {| new_cpu := Some 4; new_memory := None; new_disk := None |})] /\
  (p_is_paid <$> w_payments cheap_upgrade) = [true] /\
  (s_expires <$> w_subs cheap_upgrade) = [Some (30 * DAY + 392035 * SEC)].
Proof. split; [vm_compute; reflexivity|]. split; vm_compute; reflexivity. Qed.
End ChainRuns.
