(* ===== verification/RenewalProofs.v ===== *)
(** * What asking for a payment guarantees

    A renewal asks for what it quotes, once, and stores that one payment unpaid;
    nothing else changes. A renewal beyond the prepay window is refused. *)

From Stdlib Require Import String SpecFloat.
From S2P Require Import Prelude NetText IpAlloc Network HostTypes Exchange SubDb Pricing PricingMath PricingProofs IpProvision SubLife SubLifeProofs.
From S2P Require Import SubWorkerProofs OnChain Renewal.

(** A program that only reads, in a postcondition. *)
Lemma wp_reads {A} (m : ST World A) (Q : A -> World -> Prop) w : keeps only_reads m ->
  (forall n, (w_reads w <= n)%nat -> Q (m w).1 (set_reads n w)) -> wp m Q w.
Proof. intros Hm HQ. destruct (Hm w) as [E Hn]. unfold wp. rewrite E. auto. Qed.

Lemma wp_equal {A} (m : ST World A) (Q : A -> World -> Prop) w : (forall a w', m w = (a, w') -> Q a w') -> wp m Q w.
Proof. intros HQ. unfold wp. destruct (m w) as [a w']. by apply HQ. Qed.
Lemma wp_kept {A} R (m : ST World A) w : keeps R m -> wp m (fun _ w' => R w w') w.
Proof. intros Hm. apply Hm. Qed.
Lemma wp_try_inv {A B} (m : Act A) (k : A -> Act B) (Q : res Fail B -> World -> Prop) w :
  wp (try_bind m k) Q w ->
  wp m (fun r w' => match r with Ok a => wp (k a) Q w' | Err e => Q (Err e) w' end) w.
Proof. unfold wp, try_bind. rewrite bind_run. by destruct (m w) as [[a|e] w']. Qed.
Lemma wp_and_reads {A} (m : ST World A) (Q : A -> World -> Prop) w : keeps only_reads m -> wp m Q w ->
  wp m (fun r w' => only_reads w w' /\ Q r w') w.
Proof. intros Hm HQ. split; [apply Hm|exact HQ]. Qed.

(** The world after some calls, and after a row was added. *)
Definition log (l : list (Call * bool)) (w : World) : World :=
  {| w_subs := w_subs w; w_items := w_items w; w_payments := w_payments w; w_vms := w_vms w;
     w_history := w_history w; w_spaces := w_spaces w; w_ranges := w_ranges w;
     w_methods := w_methods w; w_next_range := w_next_range w; w_last_subs := w_last_subs w;
     w_last_vms := w_last_vms w; w_calls := w_calls w ++ l; w_reads := w_reads w; w_reported := w_reported w |}.
Lemma set_reads_same w : set_reads (w_reads w) w = w.
Proof. by destruct w. Qed.
Lemma set_reads_twice n k w : set_reads n (set_reads k w) = set_reads n w.
Proof. done. Qed.
Lemma push_log c ok n l w : push_call c ok (set_reads n (log l w)) = set_reads n (log (l ++ [(c, ok)]) w).
Proof. unfold push_call, set_reads, log. cbn. by rewrite app_assoc. Qed.
Definition add_payment (p : SubscriptionPayment) : World -> World := set_payments (fun l => l ++ [store_payment p]).

Lemma whole_seconds_idem t : whole_seconds (whole_seconds t) = whole_seconds t.
Proof. unfold whole_seconds. by rewrite Z.div_mul. Qed.
Lemma store_payment_idem p : store_payment (store_payment p) = store_payment p.
Proof. destruct p as [???????????????? [t|]]; unfold store_payment; cbn; by rewrite !whole_seconds_idem. Qed.

Section renewal_proofs.
Context `{PR : !PaymentsRs, PL : !PaymentsRsLaws, IC : !IsoCountry, NL : !NetLib, NS : !NetShow, RR : !RegistryRef,
  CK : !Clock, RM : !Remote, CA : !Calendar, CH : !Chrono, PI : !PaymentIds, PS : !PaymentServices, DL : !Datelike}.

(** ** Pricing the items *)

Lemma price_items_reads cat subscription method intervals items infos non_vm setup :
  keeps only_reads (price_items cat subscription method intervals items infos non_vm setup).
Proof.
  revert infos non_vm setup. induction items as [|item items IH]; intros; cbn [price_items]; [apply keeps_ret, _|].
  unfold ensure_. frame_tac ltac:(first [ reads_step | apply or_now_reads | apply vm_cost_reads | apply IH ]).
Qed.
Lemma price_others_reads cat user company method cur base :
  keeps only_reads (price_others cat user company method cur base).
Proof. unfold price_others, lift. frame_tac reads_step. Qed.
Lemma check_prepay_reads cat days subscription secs : keeps only_reads (check_prepay cat days subscription secs).
Proof. unfold check_prepay, ensure_, checked_time. frame_tac ltac:(first [ reads_step | apply add_reads ]). Qed.

(** A quote of a machine that is still open: an unpaid renewal of that machine by the
    same method, for the time asked for at the machine's price, not yet expired at a
    reading of the clock between the worlds. *)
Definition open_vm_quote (cat : Catalog) (vm : Z) (method : PaymentMethod) (intervals : Z)
    (p : SubscriptionPayment) (w w' : World) : Prop :=
  p ∈ vm_payments vm w /\ p_is_paid p = false /\ p_method p = method /\ p_type p = Renewal /\
  (exists k, (w_reads w <= k < w_reads w')%nat /\ whole_seconds (clk k) < p_expires p) /\
  exists v company n base, v_id v = vm /\ (get_vm_base_cost cat v method company (set_reads n w)).1 = Ok base /\
    p_time_value p = Some (wmul 64 (np_time_value base) (Z.max 1 intervals)).
(** The live machine of a line item. *)
Definition machine_of (w : World) (item : SubscriptionLineItem) (v : Vm) : Prop :=
  v ∈ w_vms w /\ v_subscription_line_item_id v = li_id item /\ v_deleted v = false.
(** Such a quote of a machine of the subscription. *)
Definition open_quote (cat : Catalog) (sub : Z) (method : PaymentMethod) (intervals : Z)
    (p : SubscriptionPayment) (w w' : World) : Prop :=
  exists item v, item ∈ w_items w /\ li_subscription_id item = sub /\ li_type item = Vps /\ machine_of w item v /\
    open_vm_quote cat (v_id v) method intervals p w w'.

Lemma newest_in l p : p ∈ newest_first l -> p ∈ l.
Proof.
  unfold newest_first. assert (forall acc, p ∈ foldl (fun acc p => insert_newest p acc) acc l -> p ∈ acc \/ p ∈ l) as H.
  { induction l as [|q l IH]; intros acc Hp; cbn [foldl] in Hp; [by left|].
    destruct (IH _ Hp) as [Hin|]; [|by right; right].
    assert (p ∈ insert_newest q acc -> p = q \/ p ∈ acc) as Hi.
    { clear. induction acc as [|r acc IH]; cbn [insert_newest]; [rewrite list_elem_of_singleton; by left|].
      case_match; rewrite !elem_of_cons; [tauto|]. intros [->|Hp%IH]; tauto. }
    destruct (Hi Hin) as [->|]; [right; by left|by left]. }
  intros Hp. destruct (H [] Hp) as [?%not_elem_of_nil|]; done.
Qed.

Lemma vm_payments_in vm w p : p ∈ vm_payments vm w -> p ∈ w_payments w.
Proof.
  unfold vm_payments. intros (y & Hin & Hy)%list_elem_of_bind.
  apply list_elem_of_bind in Hin as (i & Hin & _). apply list_elem_of_bind in Hin as (v & Hin & _).
  by apply list_elem_of_singleton in Hin as ->.
Qed.

Lemma vm_company_reads cat vm : keeps only_reads (get_vm_company_id cat vm).
Proof. unfold get_vm_company_id. frame_tac reads_step. Qed.

Lemma open_vm_quote_mono cat vm method intervals p w n n' k : (w_reads w <= k)%nat -> (n <= n')%nat ->
  open_vm_quote cat vm method intervals p (set_reads k w) (set_reads n w) ->
  open_vm_quote cat vm method intervals p w (set_reads n' w).
Proof.
  intros Hk Hn (Hin & Hp & Hm & Ht & (i & Hi & He) & v & c & m & base & Hv & Hb & Htv).
  split_and!; try done; [exists i; cbn in *; split; [lia|done]|by exists v, c, m, base].
Qed.

(** The quote of a machine: an existing one is open. *)
Lemma vm_cost_open cat vm method intervals w :
  wp (get_vm_cost_for_intervals cat vm method intervals)
     (fun r w' => match r with Ok (Existing p) => open_vm_quote cat vm method intervals p w w' | _ => True end) w.
Proof.
  unfold get_vm_cost_for_intervals. sub_steps.
  apply wp_reads; [unfold get_vm; reads_step|]. intros n Hn. destruct (get_vm vm w).1 as [v|] eqn:Ev; [|done]. sub_steps.
  unfold get_vm, db, gets in Ev. apply fetch_one_in, list_elem_of_filter in Ev as [Ev _].
  apply wp_reads; [apply vm_company_reads|]. intros n1 Hn1. destruct (_.1) as [company|]; [|done]. sub_steps.
  apply wp_reads; [apply base_reads|]. intros n2 Hn2. destruct (_.1) as [base_cost|] eqn:Eb; [|done]. sub_steps.
  unfold list_pending_vm_subscription_payments. sub_steps. rewrite !set_reads_twice in Eb. cbn [w_reads set_reads] in Hn1, Hn2.
  destruct (head _) as [px|] eqn:Eh.
  - sub_steps. apply head_Some_elem_of, list_elem_of_filter in Eh as [(Em & Ety & Et) Hin%newest_in].
    apply list_elem_of_filter in Hin as [[Hp He] Hin]. cbn in Hin, He. rewrite Ev in Hin.
    split_and!; try done; [exists n2; cbn; split; [lia|done]|by exists v, company, n1, base_cost].
  - clear Eb. sub_steps. apply wp_reads; [apply expires_reads|]. intros n3 _. sub_steps.
    apply wp_reads; [apply clamp_reads|]. intros n4 _. case_match; sub_steps; [done|].
    destruct (determine_tax _ _ _ _); [|done]. sub_steps.
    apply wp_reads; [apply add_reads|]. intros n5 _. destruct (_.1); sub_steps; done.
Qed.

(** What the items of a subscription are quoted at: a price for each machine, and
    what the other items and the setup of them all cost. *)
Definition sum_items (f : SubscriptionLineItem -> Z) (l : list SubscriptionLineItem) (acc : Z) : Z :=
  foldl (wadd 64) acc (f <$> l).
Definition is_vps (item : SubscriptionLineItem) : Prop := li_type item = Vps.
#[local] Instance is_vps_dec item : Decision (is_vps item) := decide (li_type item = Vps).
Definition machine_price (cat : Catalog) (method : PaymentMethod) (intervals : Z) (w : World)
    (item : SubscriptionLineItem) (i : NewPaymentInfo) : Prop :=
  exists v n, machine_of w item v /\ (get_vm_cost_for_intervals cat (v_id v) method intervals (set_reads n w)).1 = Ok (New i).
Definition items_quoted (cat : Catalog) (method : PaymentMethod) (intervals : Z) (w : World)
    (items : list SubscriptionLineItem) (infos0 infos : list NewPaymentInfo) (non_vm0 non_vm setup0 setup : Z) : Prop :=
  (exists fresh, infos = infos0 ++ fresh /\ Forall2 (machine_price cat method intervals w) (filter is_vps items) fresh) /\
  non_vm = sum_items (fun item => wmul 64 (li_amount item) intervals) (filter (fun item => ~ is_vps item) items) non_vm0 /\
  setup = sum_items li_setup_amount items setup0.

Lemma machine_of_row item w n vm : (get_vm_by_line_item (li_id item) (set_reads n w)).1 = Ok vm -> machine_of w item vm.
Proof. intros E. unfold get_vm_by_line_item, db, gets in E. by apply fetch_one_in, list_elem_of_filter in E as [[? ?] ?]. Qed.

(** One machine more in a quote. *)
Lemma items_quoted_vps cat method intervals w item items infos0 i infos non_vm0 non_vm setup0 setup :
  is_vps item -> machine_price cat method intervals w item i ->
  items_quoted cat method intervals w items (infos0 ++ [i]) infos non_vm0 non_vm (wadd 64 setup0 (li_setup_amount item)) setup ->
  items_quoted cat method intervals w (item :: items) infos0 infos non_vm0 non_vm setup0 setup.
Proof.
  intros Hv Hp ((fresh & -> & Hf) & -> & ->). split_and!; [|by rewrite filter_cons_False by (by intros [])|done].
  exists (i :: fresh). rewrite filter_cons_True by done. split; [by rewrite <- app_assoc|by constructor].
Qed.
Lemma items_quoted_other cat method intervals w item items infos0 infos non_vm0 non_vm setup0 setup :
  ~ is_vps item ->
  items_quoted cat method intervals w items infos0 infos (wadd 64 non_vm0 (wmul 64 (li_amount item) intervals)) non_vm
    (wadd 64 setup0 (li_setup_amount item)) setup ->
  items_quoted cat method intervals w (item :: items) infos0 infos non_vm0 non_vm setup0 setup.
Proof. intros Hv (Hf & -> & ->). split_and!; [by rewrite filter_cons_False|by rewrite filter_cons_True|done]. Qed.

Lemma items_priced cat sub subscription method intervals items infos non_vm setup w w0 n0 :
  w = set_reads n0 w0 -> (w_reads w0 <= n0)%nat -> items ⊆ q_list_line_items sub w0 ->
  wp (price_items cat subscription method intervals items infos non_vm setup)
     (fun r w' => match r with
      | Ok (Pending p) => open_quote cat sub method intervals p w0 w'
      | Ok (Priced infos' non_vm' setup') => items_quoted cat method intervals w0 items infos infos' non_vm non_vm' setup setup'
      | Err _ => True end) w.
Proof.
  intros -> Hn0. revert infos non_vm setup n0 Hn0. induction items as [|item items IH]; intros infos non_vm setup n0 Hn0 Hsub; cbn [price_items].
  { sub_steps. split_and!; [exists []; by rewrite app_nil_r|done..]. }
  assert (items ⊆ q_list_line_items sub w0) as Hsub' by (intros x Hx; apply Hsub; by right).
  case_bool_decide as Hv.
  2: { eapply wp_mono; [by apply IH|]. intros [[p|? ? ?]|e] w' Hq; try done. by apply items_quoted_other. }
  sub_steps.
  apply wp_reads; [unfold get_vm_by_line_item; reads_step|]. intros n Hn. destruct (_.1) as [vm|] eqn:Evm; [|done]. sub_steps.
  apply machine_of_row in Evm.
  destruct (get_host cat (v_host_id vm)) as [host|]; [|done]. sub_steps.
  apply wp_reads; [unfold ensure_; frame_tac ltac:(apply or_now_reads)|]. intros n1 Hn1. destruct (_.1); [|done]. sub_steps.
  rewrite !set_reads_twice. cbn [w_reads set_reads] in Hn, Hn1.
  apply wp_equal. intros r1 w1 Ec. pose proof (vm_cost_open cat (v_id vm) method intervals (set_reads n1 w0)) as Ho.
  pose proof (vm_cost_reads cat (v_id vm) method intervals (set_reads n1 w0)) as [Er Hr].
  unfold wp in Ho. rewrite Ec in Ho, Er, Hr. cbn [fst snd] in Ho, Er, Hr. rewrite set_reads_twice in Er.
  destruct r1 as [[p|p]|e]; sub_steps; [| |done].
  - exists item, vm. pose proof (Hsub item ltac:(by left)) as [Hid Hin]%list_elem_of_filter. split_and!; try done.
    rewrite Er in Ho |- *. eapply open_vm_quote_mono; [|reflexivity|exact Ho]. lia.
  - rewrite Er. eapply wp_mono; [apply IH; [cbn in Hr; lia|done]|].
    intros [[q|? ? ?]|] w'' Hq; try done. eapply items_quoted_vps; [done| |exact Hq]. exists vm, n1. by rewrite Ec.
Qed.

(** ** Asking a service *)

(** A usable saved method of the customer. *)
Definition saved_method (user : Z) (provider : string) (w : World) (m : UserPaymentMethod) : Prop :=
  m ∈ w_methods w /\ um_user_id m = user /\ um_provider m = provider /\ um_enabled m = true.

(** What a service is asked for: the amount and its tax in whole satoshi, or the
    total with the fee, from the customer or off a saved card. *)
Definition asks (mode : RenewMode) (user : Z) (w : World) (method : PaymentMethod) (cur : string)
    (amount tax fee : Z) (c : Call) : Prop :=
  match method, mode with
  | Lightning, _ => c = AddInvoice (round_msat_to_sat (wadd 64 amount tax)) INVOICE_EXPIRE
  | OnChain, _ => c = NewAddress (round_msat_to_sat (wadd 64 amount tax))
  | Revolut, Interactive _ => exists save, c = CreateOrder (wadd 64 (wadd 64 amount tax) fee) cur save
  | Revolut, Saved id => exists m customer, saved_method user "revolut" w m /\ (forall i, id = Some i -> um_id m = i) /\
      um_external_customer_id m = Some customer /\
      c = ChargeSubscription customer (um_external_id m) (wadd 64 (wadd 64 amount tax) fee) cur
  | _, _ => False
  end.

Lemma wp_ask {A} (reply : nat -> A) c (Q : res Fail A -> World -> Prop) w :
  (forall ok : bool, Q (if ok then Ok (reply (length (w_calls w))) else Err Refused) (log [(c, ok)] w)) -> wp (ask reply c) Q w.
Proof. intros HQ. apply HQ. Qed.

Lemma saved_methods_in user provider m w :
  m ∈ (list_user_payment_methods user (Some provider) w).1 ->
  m ∈ w_methods w /\ um_user_id m = user /\ um_provider m = provider.
Proof.
  cbn. rewrite elem_of_app, !list_elem_of_filter. intros [[_ H]|[_ H]]; destruct H as [[? [|E]] ?]; try done; by injection E as ->.
Qed.

Lemma head_filter_ok {A} (P : A -> Prop) `{!forall x, Decision (P x)} (l : list A) m :
  ok_or NotFound (head (filter P l)) = Ok m -> P m /\ m ∈ l.
Proof.
  intros E. unfold ok_or in E. destruct (head _) eqn:Eh; [|done]. injection E as ->.
  by apply head_Some_elem_of, list_elem_of_filter in Eh.
Qed.

Lemma revolut_method_spec user id w :
  wp (revolut_payment_method user id) (fun r w' => only_reads w w' /\
    forall m, r = Ok m -> saved_method user "revolut" w m /\ forall i, id = Some i -> um_id m = i) w.
Proof.
  apply wp_and_reads.
  { unfold revolut_payment_method, list_user_payment_methods. frame_tac reads_step. }
  unfold revolut_payment_method. sub_steps. destruct (year_month _). sub_steps. unfold list_user_payment_methods at 1. sub_steps.
  intros m Hm. unfold saved_method.
  assert (forall l : list UserPaymentMethod, m ∈ filter (fun m => um_enabled m = true /\ is_expired m z z0 = false) l -> m ∈ l /\ um_enabled m = true) as Hf.
  { intros l [[? _] ?]%list_elem_of_filter. done. }
  destruct id as [i|].
  - apply head_filter_ok in Hm as [Ei [Hin He]%Hf]. apply (saved_methods_in user "revolut" m (bump_reads w)) in Hin as (? & ? & ?). split; [done|]. by intros ? [= <-].
  - apply head_filter_ok in Hm as [[He _] Hin]. apply (saved_methods_in user "revolut" m (bump_reads w)) in Hin as (? & ? & ?). by split.
Qed.
Lemma nwc_method_spec user w :
  wp (nwc_payment_method user) (fun r w' => w' = w /\ forall m, r = Ok m -> saved_method user "nwc" w m) w.
Proof.
  unfold nwc_payment_method. sub_steps. unfold list_user_payment_methods at 1. sub_steps. split; [done|].
  intros m Hm. apply head_filter_ok in Hm as [He Hin]. by apply (saved_methods_in user "nwc" m w) in Hin as (? & ? & ?).
Qed.

Lemma stamp_reads id data ext expire : keeps only_reads (stamp id data ext expire).
Proof. unfold stamp. frame_tac reads_step. Qed.

(** A world in which a service was asked at most once. *)
Definition asked (c : option (Call * bool)) (w w' : World) : Prop :=
  exists n, w' = set_reads n (log (option_list c) w).
Lemma asked_reads n w : asked None w (set_reads n w).
Proof. exists n. unfold log. cbn. by rewrite app_nil_r. Qed.
Lemma asked_none w : asked None w w.
Proof. rewrite <- (set_reads_same w) at 2. apply asked_reads. Qed.

Lemma stamp_after c w id data ext expire (Q : res Fail Request -> World -> Prop) w1 :
  asked (Some c) w w1 -> (forall rq n, Q (Ok rq) (set_reads n (log [c] w))) -> wp (stamp id data ext expire) Q w1.
Proof. intros [n ->] HQ. unfold stamp. sub_steps. apply HQ. Qed.

Definition of_request (mode : RenewMode) (user : Z) (w : World) (method : PaymentMethod) (cur : string)
    (amount tax fee : Z) (r : res Fail Request) (w' : World) : Prop :=
  match r with
  | Ok _ => exists c, asks mode user w method cur amount tax fee c /\ asked (Some (c, true)) w w'
  | Err _ => exists c, asked c w w'
  end.

(** A service is asked, and the request goes on if it answers. *)
Lemma ask_spec {A} (reply : nat -> A) c (k : A -> Act Request) mode user w method cur amount tax fee n :
  asks mode user w method cur amount tax fee c ->
  (forall a w1, asked (Some (c, true)) w w1 -> wp (k a) (of_request mode user w method cur amount tax fee) w1) ->
  let Q := of_request mode user w method cur amount tax fee in
  wp (ask reply c) (fun r w' => match r with Ok a => wp (k a) Q w' | Err e => Q (Err e) w' end) (set_reads n w).
Proof.
  intros Hc Hk Q. apply wp_ask. intros [|]; [apply Hk; by exists n|]. by eexists (Some _), n.
Qed.
Lemma stamp_spec id data ext expire mode user w method cur amount tax fee c w1 :
  asks mode user w method cur amount tax fee c -> asked (Some (c, true)) w w1 ->
  wp (stamp id data ext expire) (of_request mode user w method cur amount tax fee) w1.
Proof. intros Hc [n ->]. unfold stamp. sub_steps. exists c. split; [done|]. by eexists. Qed.

Lemma request_spec revolut method mode lookup type cur amount tax fee user w :
  keeps only_reads lookup -> (forall u, (lookup w).1 = Ok u -> u_id u = user) ->
  wp (request_payment revolut method mode lookup type cur amount tax fee)
     (of_request mode user w method (show_currency cur) amount tax fee) w.
Proof.
  intros Hl Hu. unfold request_payment, ensure_, pfail, draw_id. set (c := show_currency cur).
  assert (forall n e, of_request mode user w method c amount tax fee (Err e) (set_reads n w)) as Hno
    by (intros n e; exists None; apply asked_reads).
  rewrite <- (set_reads_same w) at 2.
  destruct method; sub_steps; [..|apply Hno|apply Hno|]; try (destruct (bool_decide (cur = BTC)); sub_steps; [|apply Hno]).
  - eapply ask_spec; [reflexivity|]. intros i w1 H1. destruct i as [[[id|] data] ext]; cbn [fst snd ok_or]; sub_steps.
    + by eapply stamp_spec.
    + destruct H1 as [n ->]. by eexists (Some _), n.
  - destruct revolut; sub_steps; [|apply Hno].
    destruct (bool_decide (cur = BTC)); cbn [negb]; sub_steps; [apply Hno|].
    rewrite set_reads_same. apply wp_reads; [done|]. intros n _. destruct (lookup w).1 as [u|] eqn:Eu; [|apply Hno].
    rewrite (Hu u eq_refl). unfold order_or_charge. destruct mode as [save|id].
    + unfold create_revolut_order, list_user_payment_methods. sub_steps. eapply ask_spec; [by eexists|].
      intros [ext data] w1 H1. sub_steps. eapply stamp_spec; [|done]. by eexists.
    + sub_steps. eapply wp_mono; [apply revolut_method_spec|]. intros [m|e] w' [[-> _] Hm]; sub_steps; [|apply Hno].
      destruct (Hm m eq_refl) as [Hs Hid]. destruct (um_external_customer_id m) as [customer|] eqn:Ec; sub_steps; [|apply Hno].
      cbn [ok_or].
      match goal with |- wp (ask _ ?ch) _ _ => assert (asks (Saved id) user w Revolut c amount tax fee ch) as Hch end.
      { exists m, customer. split; [exact Hs|done]. }
      change (set_reads (w_reads w') (set_reads n w)) with (set_reads (w_reads w') w). eapply ask_spec; [exact Hch|].
      intros [ext data] w1 H1. sub_steps. by eapply stamp_spec.
  - eapply ask_spec; [reflexivity|]. intros address w1 H1. by eapply stamp_spec.
Qed.

(** ** Storing the payment and collecting it *)

(** What a saved wallet is asked to pay at once; a saved card was charged already. *)
Definition collects (mode : RenewMode) (w : World) (p : SubscriptionPayment) (l : list Call) : Prop :=
  match mode, p_method p with
  | Saved _, Lightning => exists m, saved_method (p_user_id p) "nwc" w m /\ l = [PayInvoice (um_external_id m) (p_external_data p)]
  | _, _ => l = []
  end.
(** The calls of a new payment, the last one perhaps refused. *)
Definition done_calls (l : list Call) : list (Call * bool) := (fun c => (c, true)) <$> l.

(** A payment is asked for, stored and collected, and nothing else changes. Off a
    saved method it may be stored and then not collected. *)
Definition paid_for (mode : RenewMode) (user sub : Z) (method : PaymentMethod) (type : SubscriptionPaymentType)
    (time : option Z) (w : World)
    (r : res Fail SubscriptionPayment) (w' : World) : Prop :=
  match r with
  | Ok p => exists c l n,
      asks mode user w method (p_currency p) (p_amount p) (p_tax p) (p_processing_fee p) c /\ collects mode w p l /\
      p_user_id p = user /\ p_subscription_id p = sub /\ p_method p = method /\ p_type p = type /\
      p_time_value p = time /\ p_is_paid p = false /\
      p_id p ∉ p_id <$> w_payments w /\ w' = set_reads n (log (done_calls (c :: l)) (add_payment p w))
  | Err _ => exists n l, (length l <= 2)%nat /\
      (w' = set_reads n (log l w) \/
       is_saved mode = true /\ exists p, p_is_paid p = false /\ w' = set_reads n (log l (add_payment p w)))
  end.

Lemma has_payment_false id l : has_payment id l = false -> id ∉ p_id <$> l.
Proof.
  intros Hf (q & -> & Hq)%list_elem_of_fmap. apply not_true_iff_false in Hf. apply Hf, existsb_exists.
  exists q. rewrite <- list_elem_of_In. by rewrite bool_decide_eq_true_2.
Qed.

Lemma insert_spec p w (Q : res Fail unit -> World -> Prop) :
  (forall e, Q (Err e) w) -> (p_id p ∉ p_id <$> w_payments w -> Q (Ok tt) (add_payment p w)) ->
  wp (insert_subscription_payment p) Q w.
Proof.
  intros He Ho. unfold insert_subscription_payment. sub_steps. cbn [id] in *.
  destruct (has_payment _ _) eqn:Ei; cbn [orb]; [by sub_steps|].
  destruct (ext_taken _ _); [by sub_steps|]. destruct (negb _); sub_steps; [done|]. by apply Ho, has_payment_false.
Qed.

(** The row of a payment just stored. *)
Lemma stored_row p n l w : p_id p ∉ p_id <$> w_payments w ->
  (get_subscription_payment (p_id p) (set_reads n (log l (add_payment p w)))).1 = Ok (store_payment p).
Proof.
  intros Hn. cbn. unfold fetch_one. rewrite filter_app, filter_none, filter_cons, decide_True; [done..|].
  intros q Hq E. apply Hn. rewrite <- E. by apply (list_elem_of_fmap_2 p_id).
Qed.

(** The row of a payment, as it was made or as it was stored. *)
Definition row_of (p : SubscriptionPayment) (r : res Fail SubscriptionPayment) : Prop :=
  forall q, r = Ok q -> q = p \/ q = store_payment p.
Lemma collect_spec mode p c w n :
  asks mode (p_user_id p) w (p_method p) (p_currency p) (p_amount p) (p_tax p) (p_processing_fee p) c ->
  p_is_paid p = false -> p_id p ∉ p_id <$> w_payments w ->
  wp (collect_saved_payment p mode) (fun r w' => row_of p r /\
      paid_for mode (p_user_id p) (p_subscription_id p) (p_method p) (p_type p) (p_time_value p) w r w')
     (set_reads n (log [(c, true)] (add_payment p w))).
Proof.
  intros Hc Hp Hn. unfold collect_saved_payment. destruct mode as [save|id]; cbn [is_saved negb].
  { sub_steps. split; [intros q [= <-]; by left|]. exists c, [], n. by split_and!. }
  assert (forall l k, collects (Saved id) w p l -> wp (get_subscription_payment (p_id p))
    (fun r w' => row_of p r /\ paid_for (Saved id) (p_user_id p) (p_subscription_id p) (p_method p) (p_type p) (p_time_value p) w r w')
    (set_reads k (log (done_calls (c :: l)) (add_payment p w)))) as Hget.
  { intros l k Hl. unfold get_subscription_payment. sub_steps. pose proof (stored_row p k (done_calls (c :: l)) w Hn) as E.
    cbn [get_subscription_payment db gets fst] in E. unfold get_subscription_payment, db, gets in E. cbn [fst] in E.
    rewrite E. split; [intros q [= <-]; by right|]. exists c, l, k. unfold add_payment. rewrite store_payment_idem. by split_and!. }
  case_bool_decide as Em; [|sub_steps; apply (Hget []); unfold collects; by destruct (p_method p)].
  unfold pay_via_nwc, ensure_. rewrite bool_decide_eq_true_2 by done. sub_steps.
  eapply wp_mono; [apply nwc_method_spec|]. intros [m|e] w' [-> Hm]; sub_steps.
  - apply wp_call_. intros [|] _; rewrite push_log; cbn [app].
    + apply (Hget [_]). unfold collects. rewrite Em. exists m. split; [|reflexivity]. exact (Hm m eq_refl).
    + split; [done|]. exists n, [(c, true); (PayInvoice (um_external_id m) (p_external_data p), false)]. split; [done|]. right. split; [done|]. by exists p.
  - split; [done|]. exists n, [(c, true)]. split; [cbn; lia|]. right. split; [done|]. by exists p.
Qed.

(** A request, its payment, and the collection. *)
Lemma paid_for_spec revolut method mode lookup type cur amount tax fee rate time_value meta summary sub user w
    (Q : res Fail SubscriptionPayment -> World -> Prop) :
  keeps only_reads lookup -> (forall u, (lookup w).1 = Ok u -> u_id u = user) ->
  (forall r w', paid_for mode user sub method type time_value w r w' ->
    (forall p, r = Ok p -> p_currency p = show_currency cur /\ p_amount p = amount /\ p_tax p = tax /\ p_processing_fee p = fee) -> Q r w') ->
  wp (rq ←? request_payment revolut method mode lookup type cur amount tax fee;
      let payment := new_payment rq sub user method type cur amount tax fee rate time_value meta summary in
      insert_subscription_payment payment;? collect_saved_payment payment mode) Q w.
Proof.
  intros Hl Hu HQ. apply wp_try. eapply wp_mono; [by apply request_spec|].
  intros [rq|e] w' Hrq; cbn [of_request] in Hrq.
  - destruct Hrq as (c & Hc & n & ->). cbn [option_list]. cbv zeta. sub_steps. apply insert_spec.
    + intros e. apply HQ; [|done]. exists n, [(c, true)]. split; [cbn; lia|]. by left.
    + intros Hn. eapply wp_mono; [exact (collect_spec mode (new_payment rq sub user method type cur amount tax fee rate time_value meta summary)
        c w n Hc eq_refl Hn)|]. intros r w' [Hrow Hpaid]. apply HQ; [exact Hpaid|]. intros q Eq. by destruct (Hrow q Eq) as [->| ->].
  - destruct Hrq as (c & n & ->). apply HQ; [|done]. exists n, (option_list c). split; [destruct c; cbn; lia|]. by left.
Qed.

Lemma get_user_id cat id u : get_user cat id = Ok u -> u_id u = id.
Proof. unfold get_user. intros E. by apply fetch_one_in, list_elem_of_filter in E as [? _]. Qed.

(** ** What renewals keep *)

(** The calls of a renewal. *)
Definition payment_call (c : Call) : Prop :=
  match c with
  | AddInvoice _ _ | PayInvoice _ _ | NewAddress _ | CreateOrder _ _ _ | ChargeSubscription _ _ _ _ => True
  | _ => False
  end.
(** A relation that reading keeps, and these calls, and a new unpaid row. *)
Record Kept (R : relation World) : Prop := {
  kept_reads : forall w w', only_reads w w' -> R w w';
  kept_ask : forall A (reply : nat -> A) c, payment_call c -> keeps R (ask reply c);
  kept_call : forall c, payment_call c -> keeps R (call_ c);
  kept_insert : forall p, p_is_paid p = false -> keeps R (insert_subscription_payment p)
}.
Lemma kept_read {A} R (m : ST World A) : Kept R -> keeps only_reads m -> keeps R m.
Proof. intros HR Hm w. apply (kept_reads R HR), Hm. Qed.

Lemma request_kept R `{!PreOrder R} revolut method mode lookup type cur amount tax fee
    (mk : Request -> SubscriptionPayment) : Kept R -> (forall rq, p_is_paid (mk rq) = false) -> keeps only_reads lookup ->
  keeps R (rq ←? request_payment revolut method mode lookup type cur amount tax fee;
           let payment := mk rq in insert_subscription_payment payment;? collect_saved_payment payment mode).
Proof.
  intros HR Hmk Hl. cbv zeta. unfold request_payment, order_or_charge, create_revolut_order, revolut_payment_method,
    list_user_payment_methods, stamp, draw_id, ensure_, pfail, collect_saved_payment, pay_via_nwc, nwc_payment_method,
    list_user_payment_methods, get_subscription_payment, ensure_.
  frame_tac ltac:(first [ apply (kept_read R _ HR), Hl | apply (kept_read R _ HR), now_reads | by apply (kept_ask R HR)
    | by apply (kept_call R HR) | apply (kept_insert R HR), Hmk ]).
Qed.

(** ** The prepay window *)

(** The clock is never set back. *)
Definition later (w w' : World) : Prop := (w_reads w <= w_reads w')%nat.
#[local] Instance later_pre : PreOrder later.
Proof. split; [intros ?; unfold later; lia|]. unfold later. intros ? ? ?. lia. Qed.
Lemma later_kept : Kept later.
Proof.
  split; [by intros w w' [_ ?]|intros A reply c _ w; unfold later, ask; cbn; lia
    |intros c _ w; unfold later, call_; rewrite bind_run; cbn; lia|].
  intros p _. unfold insert_subscription_payment. frame_tac ltac:(intros w; unfold later; cbn; lia).
Qed.

(** The window of a company, in days. *)
Definition window_days (cat : Catalog) (days company : Z) : Z :=
  match get_company cat company with
  | Ok c => if 0 <? c_max_prepay_days c then c_max_prepay_days c else days
  | Err _ => 0
  end.
(** A payment extends a subscription to at most [d] days after a reading of the
    clock, by [n]. *)
Definition in_window (p : SubscriptionPayment) (s : Subscription) (d : Z) (t : Z) : Prop :=
  forall t', t <= t' -> paid_until p s t' <= t' + d * DAY.

Lemma i64_small z : 0 <= z < 2 ^ 63 -> to_i64 z = z.
Proof. intros Hz. unfold to_i64. rewrite wrap_small by (unfold fits; lia). by rewrite (proj2 (Z.ltb_lt _ _)) by lia. Qed.

Lemma prepay_checked cat days s secs w :
  wp (check_prepay cat days s secs) (fun r w' => r = Ok tt -> 0 < secs < 2 ^ 63 ->
    0 < window_days cat days (s_company_id s) ->
    (w_reads w < w_reads w')%nat /\ Z.max (default (clk (w_reads w)) (s_expires s)) (clk (w_reads w)) + secs * SEC
      <= clk (w_reads w) + window_days cat days (s_company_id s) * DAY) w.
Proof.
  unfold check_prepay, window_days. destruct (0 <? secs) eqn:E0; [|sub_steps; intros _ ?; lia]. sub_steps.
  destruct (get_company cat (s_company_id s)) as [c|]; sub_steps; [|done].
  destruct (0 <? (if 0 <? c_max_prepay_days c then c_max_prepay_days c else days)) eqn:Ed; sub_steps; [|intros _ _ ?; lia].
  unfold add_seconds. destruct (Z.abs (to_i64 secs) <=? _) eqn:Ea; [|by sub_steps]. unfold checked_time.
  destruct (_ <=? dt_max); sub_steps; [|done].
  destruct (_ <=? dt_max); unfold ensure_; sub_steps; [|done].
  match goal with |- context [if ?b then Ok tt else _] => destruct b eqn:El; [|done] end.
  intros _ Hsecs _. split; [cbn; lia|]. apply Z.leb_le in El. by rewrite i64_small in El by lia.
Qed.

Lemma window_kept p s d secs t : p_time_value p = Some secs ->
  Z.max (default t (s_expires s)) t + secs * SEC <= t + d * DAY -> in_window p s d t.
Proof.
  intros Hsecs Hle t' Ht. unfold paid_until, extend_from. rewrite Hsecs. destruct (s_expires s); cbn [default] in *; lia.
Qed.
(** ** Renewals *)

(** The window holds at a reading of the clock before the [n]-th. *)
Definition checked (cat : Catalog) (days : Z) (s : Subscription) (secs : Z) (w : World) (n : nat) : Prop :=
  0 < secs < 2 ^ 63 -> 0 < window_days cat days (s_company_id s) -> exists k, (w_reads w <= k < n)%nat /\
  Z.max (default (clk k) (s_expires s)) (clk k) + secs * SEC <= clk k + window_days cat days (s_company_id s) * DAY.

(** What a renewal quotes: the prices of the machines and what the other items cost,
    with the setup fees until the subscription is set up. *)
Definition quoted (cat : Catalog) (method : PaymentMethod) (intervals : Z) (s : Subscription) (w : World)
    (cur : Currency) (amount tax fee secs : Z) : Prop :=
  exists infos non_vm setup scur n others,
    items_quoted cat method (Z.max 1 intervals) w (q_list_line_items (s_id s) w) [] infos 0 non_vm 0 setup /\
    parse_currency (s_currency s) = Some scur /\
    (price_others cat (s_user_id s) (s_company_id s) method scur (wadd 64 non_vm (if s_is_setup s then 0 else setup))
       (set_reads n w)).1 = Ok others /\
    cur = match infos with i :: _ => np_currency i | [] => scur end /\
    amount = wadd 64 (sum64 (np_amount <$> infos)) others.1.1.1.1 /\
    tax = wadd 64 (sum64 (np_tax <$> infos)) others.1.1.2 /\
    fee = wadd 64 (sum64 (np_processing_fee <$> infos)) others.1.2 /\
    secs = sum64 (np_time_value <$> infos).

(** A renewal reads, or returns the open quote, up to its request. *)
Lemma renew_steps cat revolut days sub method intervals mode w (Q : res Fail SubscriptionPayment -> World -> Prop) :
  (forall e n, (w_reads w <= n)%nat -> Q (Err e) (set_reads n w)) ->
  (forall p n, open_quote cat sub method (Z.max 1 intervals) p w (set_reads n w) -> (w_reads w <= n)%nat -> Q (Ok p) (set_reads n w)) ->
  (forall s user cur amount tax fee rate secs summary n,
     s ∈ w_subs w -> s_id s = sub -> u_id user = s_user_id s ->
     quoted cat method intervals s w cur amount tax fee secs ->
     (w_reads w <= n)%nat -> checked cat days s secs w n ->
     let type := if s_is_setup s then Renewal else Purchase in
     wp (rq ←? request_payment revolut method mode (mret (Ok user)) type cur amount tax fee;
         let payment := new_payment rq sub (s_user_id s) method type cur amount tax fee rate
           (if 0 <? secs then Some secs else None) None summary in
         insert_subscription_payment payment;? collect_saved_payment payment mode) Q (set_reads n w)) ->
  wp (renew_subscription_inner cat revolut days sub method intervals mode) Q w.
Proof.
  intros Herr Hopen Hask. assert (forall e, Q (Err e) w) as Hno by (intros e; rewrite <- (set_reads_same w); by apply Herr).
  unfold renew_subscription_inner, get_subscription at 1. sub_steps.
  destruct (fetch_one _) as [s|e] eqn:Es; [|apply Hno].
  apply fetch_one_in, list_elem_of_filter in Es as [Eid Hs]. unfold list_subscription_line_items. sub_steps.
  unfold ensure_ at 1. destruct (bool_decide _); cbn [negb]; sub_steps; [apply Hno|].
  destruct (get_user cat (s_user_id s)) as [user|e] eqn:Eu; sub_steps; [|apply Hno]. apply get_user_id in Eu.
  eapply wp_mono; [apply wp_and_reads; [apply price_items_reads|
    apply (items_priced cat sub s method _ _ [] 0 0 w w (w_reads w)); [by rewrite set_reads_same|done|done]]|].
  intros [[p|infos non_vm setup]|e] w' [[-> Hn] Hp]; cbn [w_reads set_reads] in Hn; sub_steps; [by apply Hopen| |by apply Herr].
  destruct (parse_currency (s_currency s)) as [cur|] eqn:Ecur; unfold lift; cbn [ok_or]; sub_steps; [|by apply Herr].
  apply wp_reads; [apply price_others_reads|]. intros n1 Hn1. rewrite set_reads_twice. cbn [w_reads set_reads] in Hn1.
  destruct (_.1) as [[[[[amount rate'] tax] fee] line]|] eqn:Eo; [|apply Herr; lia]. cbv beta iota. sub_steps.
  eapply wp_mono; [apply wp_and_reads; [apply check_prepay_reads|apply prepay_checked]|].
  intros [[]|e] w2 [[E Hn2] Hc]; rewrite set_reads_twice in E; rewrite E; cbn [w_reads set_reads] in Hn2; [|apply Herr; lia].
  sub_steps. destruct (determine_tax _ _ _ _); sub_steps; [|apply Herr; lia].
  destruct (enforce_min_amount _ _ _ _); sub_steps; [|apply Herr; lia].
  apply wp_try_inv, (Hask s user); [done..| |lia|].
  { rewrite Eu in Eo. rewrite <- Eid in Hp. by eexists infos, non_vm, setup, cur, _, (amount, rate', tax, fee, line). }
  intros Hsecs Hw. exists n1. cbn in *. destruct (Hc eq_refl Hsecs Hw). split; [lia|done].
Qed.

(** A renewal quotes from the tables alone, then asks for what it quoted. *)
Definition renewed (cat : Catalog) (mode : RenewMode) (sub : Z) (method : PaymentMethod) (intervals : Z) (w : World)
    (r : res Fail SubscriptionPayment) (w' : World) : Prop :=
  match r with
  | Ok p => only_reads w w' /\ open_quote cat sub method (Z.max 1 intervals) p w w' \/
      exists s cur secs, s ∈ w_subs w /\ s_id s = sub /\ p_currency p = show_currency cur /\
        quoted cat method intervals s w cur (p_amount p) (p_tax p) (p_processing_fee p) secs /\
        paid_for mode (s_user_id s) sub method (if s_is_setup s then Renewal else Purchase)
          (if 0 <? secs then Some secs else None) w (Ok p) w'
  | Err e => paid_for mode 0 sub method Renewal None w (Err e) w'
  end.
Lemma renewed_err cat mode sub method intervals w n e : renewed cat mode sub method intervals w (Err e) (set_reads n w).
Proof. destruct (asked_reads n w) as [k E]. exists k, []. split; [cbn; lia|]. left. exact E. Qed.


(** Settled whenever, the payment leaves the subscription paid for at most the
    window's days. *)
Definition prepaid (cat : Catalog) (days sub : Z) (w : World) (p : SubscriptionPayment) (w' : World) : Prop :=
  exists s n, s ∈ w_subs w /\ s_id s = sub /\
    (0 < window_days cat days (s_company_id s) ->
     (w_reads w <= n < w_reads w')%nat /\ in_window p s (window_days cat days (s_company_id s)) (clk n)).

(** A renewal that sells time stays within the prepay window. *)
Theorem prepay_window cat revolut days sub method intervals mode w w' p secs :
  renew_subscription_inner cat revolut days sub method intervals mode w = (Ok p, w') ->
  p_id p ∉ p_id <$> w_payments w -> p_time_value p = Some secs -> secs < 2 ^ 63 ->
  prepaid cat days sub w p w'.
Proof.
  intros E Hnew Htime Hsecs.
  pose (Q := fun (r : res Fail SubscriptionPayment) w' => forall p, r = Ok p -> p_id p ∉ p_id <$> w_payments w ->
    forall secs, p_time_value p = Some secs -> secs < 2 ^ 63 -> prepaid cat days sub w p w').
  assert (wp (renew_subscription_inner cat revolut days sub method intervals mode) Q w) as Hwp;
    [|exact (wp_run _ _ _ _ _ Hwp E p eq_refl Hnew secs Htime Hsecs)].
  apply renew_steps; [done| |].
  - intros q n (it & v & _ & _ & _ & _ & Hq%vm_payments_in & _) _ q' [= ->] Hn. exfalso. apply Hn. by apply (list_elem_of_fmap_2 p_id).
  - intros s user cur amount tax fee rate t summary n Hs Eid Eu _ _ Hc type.
    eapply wp_mono; [apply wp_and; [eapply paid_for_spec; [apply keeps_ret, _|by intros u [= <-]|by intros r v Hpaid _; exact Hpaid]
      |apply (wp_kept later), (request_kept later _ _ _ _ _ _ _ _ _ (fun rq => new_payment rq _ _ _ _ _ _ _ _ _ _ _ _));
        [apply later_kept|done|apply keeps_ret, _]]|].
    intros r v [Hpaid Hv] q -> Hn secs' Et Hs'. exists s.
    destruct Hpaid as (c & l & k & _ & _ & _ & _ & _ & _ & Hq & _). rewrite Et in Hq.
    destruct (0 <? t) eqn:E0; [|done]. injection Hq as ->. apply Z.ltb_lt in E0.
    destruct (decide (0 < window_days cat days (s_company_id s))) as [Hd|]; [|by exists 0%nat].
    destruct (Hc ltac:(lia) Hd) as (m & Hm & Hle). exists m. split; [done|]. split; [done|]. intros _.
    split; [unfold later in Hv; cbn in Hv; lia|by eapply window_kept].
Qed.

(** ** Automatic renewal and the worker *)

(** A relation kept by the parts of a renewal is kept by all of it. *)
Lemma renew_kept R `{!PreOrder R} cat revolut days sub method intervals mode : Kept R ->
  keeps R (renew_subscription_inner cat revolut days sub method intervals mode).
Proof.
  intros HR w. refine (_ : wp _ (fun _ w' => R w w') w).
  assert (forall n, (w_reads w <= n)%nat -> R w (set_reads n w)) as Hr by (intros n Hn; by apply (kept_reads R HR)).
  apply renew_steps; [intros _ n Hn; by apply Hr|intros _ n _ Hn; by apply Hr|].
  intros s user cur amount tax fee rate secs summary n _ _ _ _ Hn _ type.
  eapply wp_mono; [apply (wp_kept R), (request_kept R _ _ _ _ _ _ _ _ _ (fun rq => new_payment rq _ _ _ _ _ _ _ _ _ _ _ _) HR);
    [done|apply keeps_ret, _]|].
  intros r w' Hw'. etrans; [by apply Hr|exact Hw'].
Qed.
Lemma payment_kept R `{!PreOrder R} cat revolut vm method price type meta mode : Kept R ->
  keeps R (price_to_payment_with_type cat revolut vm method price type meta mode).
Proof.
  intros HR. unfold price_to_payment_with_type, get_vm, get_subscription_line_item.
  destruct price as [p|p]; [apply keeps_ret, _|].
  apply keeps_try; [apply _|apply keeps_gets, _|intros v]. apply keeps_try; [apply _|apply keeps_gets, _|intros li].
  apply (request_kept R _ _ _ _ _ _ _ _ _ (fun rq => new_payment rq _ _ _ _ _ _ _ _ _ _ _ _) HR); [done|].
  unfold get_subscription. frame_tac reads_step.
Qed.
Lemma upgrade_kept R `{!PreOrder R} cat revolut vm cfg method mode : Kept R ->
  keeps R (create_vm_upgrade_payment cat revolut vm cfg method mode).
Proof.
  intros HR. unfold create_vm_upgrade_payment. apply keeps_try; [apply _|apply (kept_read R _ HR), upgrade_cost_reads|].
  intros q. by apply payment_kept.
Qed.
Lemma amount_kept R `{!PreOrder R} cat revolut vm amount method : Kept R ->
  keeps R (renew_amount cat revolut vm amount method).
Proof.
  intros HR. unfold renew_amount. apply keeps_try; [apply _|apply (kept_read R _ HR), cost_by_amount_reads|].
  intros price. by apply payment_kept.
Qed.
Lemma auto_renew_kept R `{!PreOrder R} cat revolut days sub : Kept R -> keeps R (auto_renew cat revolut days sub).
Proof.
  intros HR. unfold auto_renew, auto_renew_via_nwc, auto_renew_via_revolut, get_subscription, default_payment_method,
    list_user_payment_methods.
  frame_tac ltac:(first [ apply (kept_read R _ HR), now_reads | by apply renew_kept ]).
Qed.

(** A renewal stops no machine and deletes none: what the worker relies on. *)
Lemma quiet_kept : Kept Quiet.
Proof.
  split.
  - intros w w' [-> Hn]. by apply quiet_step.
  - intros A reply c Hc w. apply (call_quiet c). by intros v ->.
  - intros c Hc. apply call__quiet. by intros v ->.
  - intros p _. unfold insert_subscription_payment. frame_tac ltac:(apply exec_quiet; done).
Qed.
Lemma auto_renew_quiet cat revolut days sub : keeps Quiet (auto_renew cat revolut days sub).
Proof. apply auto_renew_kept; [apply _|apply quiet_kept]. Qed.
End renewal_proofs.
