(* ===== verification/RenewalWitness.v ===== *)
(** * Renewals at concrete worlds

    The prepay window at a renewal of three months, and what renewals do that their
    documentation does not say. *)

From Stdlib Require Import Ascii String SpecFloat.
From S2P Require Import Prelude NetText IpAlloc Network HostTypes Exchange SubDb Pricing PricingMath PricingProofs IpProvision SubLife SubLifeProofs.
From S2P Require Import SubWorkerProofs IpProvisionProofs IpProvWitness SubWitness PricingWitness OnChain Renewal RenewalProofs.

Module RenewalRuns.
Import RefNet ProvWitness LifeRuns PriceRuns.

#[export] Instance ids : PaymentIds := fun n => [Z.of_nat n; 7].
#[export] Instance services : PaymentServices := {|
  invoice_of n := (Some [Z.of_nat n; 1], "lnbc"%string, None);
  address_of n := "bc1q"%string;
  order_of n := ("order"%string, "{}"%string) |}.
#[export] Instance dates : Datelike := fun _ => (2025, 6).
#[export] Instance answers : Remote := all_ok.

(** A machine paid for a month ahead, and a renewal of three months by invoice. *)
Definition paid_world : World := vm_world (vm_sub 0 (30 * DAY) true) [vm7] [].
Definition three_months := renew_subscription_inner catalog true 0 1 Lightning 3 (Interactive false) paid_world.
Definition three_months_paid : SubscriptionPayment :=
  match three_months.1 with Ok p => p | Err _ => renewal None end.

Lemma prepay_window_witness :
  p_time_value three_months_paid = Some 7776000 /\
  (w_calls three_months.2).*1 = [AddInvoice 19835000 600] /\
  prepaid catalog 0 1 paid_world three_months_paid three_months.2.
Proof.
  split; [vm_compute; reflexivity|]. split; [vm_compute; reflexivity|].
  apply (prepay_window catalog true 0 1 Lightning 3 (Interactive false) paid_world three_months.2 three_months_paid 7776000).
  - assert (Prelude.is_ok three_months.1 = true) as E by (vm_compute; reflexivity). revert E.
    unfold three_months_paid. fold three_months. destruct three_months as [[p|e] w]; [reflexivity|done].
  - apply not_elem_of_nil.
  - vm_compute. reflexivity.
  - reflexivity.
Defined.

(** *** What the documentation does not say *)

(** Thirteen months at once are refused; a wallet is on file. *)
Lemma thirteen_months_refused :
  (renew_subscription_inner catalog true 0 1 Lightning 13 (Interactive false) paid_world).1 = Err (PriceFailed TooFarAhead).
Proof. vm_compute. reflexivity. Qed.

Definition wallet : UserPaymentMethod :=
  {| um_id := 1; um_user_id := 5; um_provider := "nwc"; um_external_customer_id := None;
     um_external_id := "nostr+walletconnect://"; um_exp_month := None; um_exp_year := None;
     um_is_default := true; um_enabled := true |}%string.
Definition auto_sub : Subscription :=
  {| s_id := 1; s_user_id := 5; s_company_id := 1; s_name := "vm"; s_description := None;
     s_created := 0; s_expires := Some (hours 24); s_is_active := true; s_is_setup := true;
     s_currency := "EUR"; s_interval_amount := 1; s_interval_type := Month; s_setup_fee := 0;
     s_auto_renewal_enabled := true; s_external_id := None |}%string.
Definition wallet_world (ps : list SubscriptionPayment) : World :=
  {| w_subs := [auto_sub]; w_items := [vm_item]; w_payments := ps; w_vms := [vm7]; w_history := [];
     w_spaces := []; w_ranges := []; w_methods := [wallet]; w_next_range := 1; w_last_subs := None;
     w_last_vms := None; w_calls := []; w_reads := 0; w_reported := [] |}.
Definition soon (ps : list SubscriptionPayment) : World :=
  (handle_expiring_soon (auto_renew catalog true 0) auto_sub (wallet_world ps)).2.

(** Without an open invoice the wallet pays. With one, the open invoice is returned
    and not collected, and the customer is told of the renewal all the same. *)
Lemma open_quote_not_collected :
  (w_calls (soon [])).*1 =
    [AddInvoice 6612000 600; PayInvoice "nostr+walletconnect://" "lnbc"; SendJob (SendNotification 5 AutoRenewed)]%string /\
  (w_calls (soon [renewal (Some 2592000)])).*1 = [SendJob (SendNotification 5 AutoRenewed)].
Proof. split; vm_compute; reflexivity. Qed.

(** An address range at ten euros a month. *)
Definition range_sub : Subscription := vm_sub 0 (30 * DAY) true.
Definition range_item : SubscriptionLineItem :=
  {| li_id := 2; li_subscription_id := 1; li_type := IpRangeType; li_name := "range"; li_description := None;
     li_amount := 1000; li_setup_amount := 0; li_configuration := None |}%string.
Definition range_world : World :=
  {| w_subs := [range_sub]; w_items := [range_item]; w_payments := []; w_vms := []; w_history := [];
     w_spaces := []; w_ranges := []; w_methods := []; w_next_range := 1; w_last_subs := None;
     w_last_vms := None; w_calls := []; w_reads := 0; w_reported := [] |}.
Definition pay_for (intervals : Z) : res Fail (list SubscriptionPayment) * World :=
  (p ←? renew_subscription_inner catalog true 0 1 Revolut intervals (Interactive false); complete_payment p) range_world.

(** Three months are charged and one is credited. *)
Lemma intervals_not_credited :
  (p_amount <$> w_payments (pay_for 1).2) = [1000] /\ (p_amount <$> w_payments (pay_for 3).2) = [3000] /\
  (s_expires <$> w_subs (pay_for 3).2) = (s_expires <$> w_subs (pay_for 1).2).
Proof. split; [vm_compute; reflexivity|]. split; vm_compute; reflexivity. Qed.

(** It cannot be paid in bitcoin. *)
Lemma range_not_in_bitcoin :
  (renew_subscription_inner catalog true 0 1 Lightning 1 (Interactive false) range_world).1 = Err (PriceFailed NotBtc).
Proof. vm_compute. reflexivity. Qed.
End RenewalRuns.
