(* ===== verification/Settlement.v ===== *)
(** * Settling payments
    ([lnvps_api/src/payments/invoice.rs], [payments/revolut.rs],
    [payments/stripe.rs])

    The payment services announce that a payment was made: the Lightning node by
    the hash of its invoice, the card services by a signed webhook. A Revolut order
    is looked up before it is believed, and the card it saved is kept. *)

From Stdlib Require Import Ascii String SpecFloat.
From S2P Require Import Prelude NetText IpAlloc Network HostTypes Exchange SubDb Pricing IpProvision SubLife Renewal.

(** What the node streams; other updates are logged. *)
Inductive InvoiceUpdate : Type :=
| Settled (payment_hash : string) (external_id : option string)
| OtherUpdate.

(** An order: completed or not, its JSON text, the country of the card that paid,
    the customer ([order.customer_id()]). *)
Record RevolutOrder := {
  ro_completed : bool; ro_json : string; ro_card_country : option string; ro_customer : option string
}.
(** A card saved with a customer. *)
Record SavedCard := { sc_id : string; sc_expiry_month : option Z; sc_expiry_year : option Z }.
Inductive RevolutWebhookEvent : Type := OrderCompleted | OrderAuthorised | OrderCancelled.
Record RevolutWebhookBody := {
  rw_event : RevolutWebhookEvent; rw_order_id : string; rw_merchant_order_ext_ref : option string
}.
(** A message of the webhook bridge: where it arrived, and what the verifiers read. *)
Record WebhookMessage := { wm_endpoint : string; wm_payload : string }.
(** An event of Stripe: its type and the id of its object. *)
Record StripeEvent := { se_type : string; se_object_id : option string }.

(** Text in hexadecimal ([hex::decode]), signed webhooks, and what the services
    answer to the n-th call. *)
Class SettlementServices := {
  hex_decode : string -> option (list Z);
  revolut_verify : string -> WebhookMessage -> option RevolutWebhookBody;
  stripe_verify : string -> WebhookMessage -> option StripeEvent;
  order_at : nat -> RevolutOrder;
  saved_cards_at : nat -> list SavedCard;
  new_method_id : list UserPaymentMethod -> Z
}.

Section settlement.
Context `{!PaymentsRs, !IsoCountry, !NetLib, !NetShow, !RegistryRef, !Clock, !Remote, !Calendar, !Chrono, !PaymentIds,
  !SettlementServices}.
Context (cat : Catalog).

(** The services are told of the upgrades that expired; refusals are logged. *)
Fixpoint cancel_all (cancel : SubscriptionPayment -> option Call) (l : list SubscriptionPayment) : ST World unit :=
  match l with
  | [] => mret tt
  | p :: l => match cancel p with Some c => _ ← call c; mret tt | None => mret tt end;; cancel_all cancel l
  end.

(** ** Lightning *)

Definition invoice_complete (p : SubscriptionPayment) : Act unit :=
  expired ←? complete_payment p;
  cancel_all (fun q => Some (CancelInvoice (p_id q))) expired;;
  mret (Ok tt).
Definition invoice_mark_paid (id : list Z) : Act unit :=
  p ←? get_subscription_payment id;
  invoice_complete p.
Definition invoice_mark_paid_ext_id (external_id : string) : Act unit :=
  p ←? get_subscription_payment_by_ext_id external_id;
  invoice_complete p.

(** The listener: errors of a payment are logged, a hash that is no hexadecimal
    text ends it. *)
Fixpoint invoice_listen (updates : list InvoiceUpdate) : Act unit :=
  match updates with
  | [] => mret (Ok tt)
  | Settled payment_hash external_id :: updates =>
      if negb (String.eqb payment_hash "") then
        match hex_decode payment_hash with
        | Some r_hash => _ ← invoice_mark_paid r_hash; invoice_listen updates
        | None => mret (Err Refused)
        end
      else
        match external_id with
        | Some e => _ ← invoice_mark_paid_ext_id e; invoice_listen updates
        | None => invoice_listen updates
        end
  | OtherUpdate :: updates => invoice_listen updates
  end.

(** ** Revolut *)

Definition insert_user_payment_method (m : UserPaymentMethod) : Act unit :=
  exec (set_methods (fun l => l ++ [m]));;
  mret (Ok tt).

Definition capture_saved_payment_method (user : Z) (customer : string) : Act unit :=
  methods ←? ask saved_cards_at (GetCustomerPaymentMethods customer);
  match methods with
  | [] => mret (Ok tt)
  | card :: _ =>
      existing ← list_user_payment_methods user (Some "revolut"%string);
      if existsb (fun m => String.eqb (um_external_id m) (sc_id card)) existing then mret (Ok tt) else
      id ← db (fun w => new_method_id (w_methods w));
      insert_user_payment_method
        {| um_id := id; um_user_id := user; um_provider := "revolut"; um_external_customer_id := Some customer;
           um_external_id := sc_id card; um_exp_month := sc_expiry_month card; um_exp_year := sc_expiry_year card;
           um_is_default := bool_decide (existing = []); um_enabled := true |}
  end.

Definition with_external_data (data : string) (p : SubscriptionPayment) : SubscriptionPayment :=
  {| p_id := p_id p; p_subscription_id := p_subscription_id p; p_user_id := p_user_id p;
     p_created := p_created p; p_expires := p_expires p; p_amount := p_amount p;
     p_currency := p_currency p; p_method := p_method p; p_type := p_type p;
     p_external_data := data; p_external_id := p_external_id p; p_is_paid := p_is_paid p;
     p_time_value := p_time_value p; p_metadata := p_metadata p; p_tax := p_tax p;
     p_processing_fee := p_processing_fee p; p_paid_at := p_paid_at p; p_rate := p_rate p;
     p_tax_rate := p_tax_rate p; p_tax_country_code := p_tax_country_code p; p_tax_treatment := p_tax_treatment p |}.

(** The country of the card becomes the user's when they have none. *)
Definition note_card_country (user : Z) (order : RevolutOrder) : ST World unit :=
  match ro_card_country order ≫= for_alpha2 with
  | Some cc =>
      match get_user cat user with
      | Ok u => if bool_decide (u_country_code u = None)
                then _ ← call (UpdateUserCountry user (alpha3 cc)); mret tt else mret tt
      | Err _ => mret tt
      end
  | None => mret tt
  end.

(** What a completed order sets in motion. *)
Definition revolut_settle (payment : SubscriptionPayment) (order : RevolutOrder) : Act unit :=
  note_card_country (p_user_id payment) order;;
  match ro_customer order with
  | Some customer => _ ← capture_saved_payment_method (p_user_id payment) customer; mret tt
  | None => mret tt
  end;;
  expired ←? complete_payment payment;
  cancel_all (fun q => CancelOrder <$> p_external_id q) expired;;
  mret (Ok tt).
Definition revolut_try_complete_payment (ext_id : string) : Act unit :=
  payment ←? get_subscription_payment_by_ext_id ext_id;
  order ←? ask order_at (GetOrder ext_id);
  if negb (ro_completed order) then mret (Ok tt) else
  revolut_settle (with_external_data (ro_json order) payment) order.

Fixpoint revolut_listen (secret : string) (messages : list WebhookMessage) : ST World unit :=
  match messages with
  | [] => mret tt
  | m :: messages =>
      (if negb (String.eqb (wm_endpoint m) "/api/v1/webhook/revolut") then mret tt else
       match revolut_verify secret m with
       | None => mret tt
       | Some msg =>
           match rw_event msg with
           | OrderCompleted =>
               _ ← revolut_try_complete_payment (default (rw_order_id msg) (rw_merchant_order_ext_ref msg)); mret tt
           | OrderAuthorised | OrderCancelled => mret tt
           end
       end);;
      revolut_listen secret messages
  end.

(** ** Stripe *)

Definition stripe_try_complete_payment (ext_id : string) : Act unit :=
  p ←? get_subscription_payment_by_ext_id ext_id;
  expired ←? complete_payment p;
  cancel_all (fun q => CancelPaymentIntent <$> p_external_id q) expired;;
  mret (Ok tt).

(** Whether a text contains another ([str::contains]). *)
Fixpoint contains (needle s : string) : bool :=
  String.prefix needle s || match s with EmptyString => false | String _ s => contains needle s end.

Fixpoint stripe_listen (secret : string) (messages : list WebhookMessage) : ST World unit :=
  match messages with
  | [] => mret tt
  | m :: messages =>
      (if negb (contains "stripe" (wm_endpoint m)) then mret tt else
       match stripe_verify secret m with
       | None => mret tt
       | Some event =>
           if String.eqb (se_type event) "payment_intent.succeeded" then
             match se_object_id event with
             | Some ext_id => _ ← stripe_try_complete_payment ext_id; mret tt
             | None => mret tt
             end
           else mret tt
       end);;
      stripe_listen secret messages
  end.
End settlement.
