(* ===== verification/SettlementProofs.v ===== *)
(** * What settling payments guarantees

    Over any renewals, invoices, webhooks and deposits, in any order: settled
    payments stay as they are, and nothing is settled that was not announced. *)

From Stdlib Require Import String SpecFloat.
From S2P Require Import Prelude NetText IpAlloc Network HostTypes Exchange SubDb Pricing PricingMath PricingProofs IpProvision SubLife SubLifeProofs.
From S2P Require Import SubWorkerProofs OnChain OnChainProofs Renewal RenewalProofs Settlement.

(** ** What is settled *)

Definition paid_id (w : World) (id : list Z) : Prop :=
  exists q, q ∈ w_payments w /\ p_id q = id /\ p_is_paid q = true.
(** Only payments of [S] become settled. *)
Definition Pays (S : list Z -> Prop) (w w' : World) : Prop := forall id, paid_id w' id -> paid_id w id \/ S id.
#[export] Instance Pays_pre S : PreOrder (Pays S).
Proof. split; [by left|]. intros w1 w2 w3 H12 H23 id [H2|]%H23; [by apply H12|by right]. Qed.
Lemma Pays_mono (S T : list Z -> Prop) w w' : (forall id, S id -> T id) -> Pays S w w' -> Pays T w w'.
Proof. intros HST HS id [|]%HS; auto. Qed.
Definition Nothing : list Z -> Prop := fun _ => False.
Lemma Pays_any S w w' : Pays Nothing w w' -> Pays S w w'.
Proof. by apply Pays_mono. Qed.
Lemma Pays_same S w w' : w_payments w' = w_payments w -> Pays S w w'.
Proof. intros E id (q & Hq & ?). rewrite E in Hq. left. by exists q. Qed.
Lemma Pays_map (S : list Z -> Prop) f w w' : w_payments w' = map f (w_payments w) ->
  (forall q, p_id (f q) = p_id q) -> (forall q, p_is_paid (f q) = true -> p_is_paid q = true \/ S (p_id q)) -> Pays S w w'.
Proof.
  intros E Hid Hf id (q & Hq & <- & Hp). rewrite E in Hq. apply list_elem_of_fmap in Hq as (x & -> & Hx).
  rewrite Hid. destruct (Hf x Hp); [left; by exists x|by right].
Qed.

Section settles.
Context `{PR : !PaymentsRs, PL : !PaymentsRsLaws, IC : !IsoCountry, NL : !NetLib, NS : !NetShow, RR : !RegistryRef,
  CK : !Clock, RM : !Remote, CA : !Calendar, CH : !Chrono, PI : !PaymentIds, PS : !PaymentServices, DL : !Datelike,
  SS : !SettlementServices}.

Lemma reads_pays {A} S (m : ST World A) : keeps only_reads m -> keeps (Pays S) m.
Proof. intros Hm w. destruct (Hm w) as [-> _]. by apply Pays_same. Qed.
Lemma billing_pays {A} S (m : ST World A) : keeps same_billing m -> keeps (Pays S) m.
Proof. intros Hm w. destruct (Hm w) as (_ & _ & E). by apply Pays_same. Qed.
Lemma ask_pays {A} S (reply : nat -> A) c : keeps (Pays S) (ask reply c).
Proof. intros w. by apply Pays_same. Qed.
Lemma call_pays S c : keeps (Pays S) (call c).
Proof. intros w. by apply Pays_same. Qed.

Lemma update_pays p : p_is_paid p = false -> keeps (Pays Nothing) (update_subscription_payment p).
Proof.
  intros Hp w. refine (_ : wp _ (fun _ w' => Pays Nothing w w') w).
  unfold update_subscription_payment. sub_steps. destruct (_ && _); sub_steps; [by apply Pays_same|].
  eapply (Pays_map _ (written p)); [done|apply written_id|]. intros q. unfold written.
  case_decide; cbn; [rewrite Hp; done|by left].
Qed.
Lemma insert_pays p : p_is_paid p = false -> keeps (Pays Nothing) (insert_subscription_payment p).
Proof.
  intros Hp w. refine (_ : wp _ (fun _ w' => Pays Nothing w w') w). apply insert_spec; [reflexivity|].
  intros _ id (q & Hq & <- & Hpaid). left. apply elem_of_app in Hq as [Hq| ->%list_elem_of_singleton]; [by exists q|].
  cbn in Hpaid. by rewrite Hp in Hpaid.
Qed.
Lemma paid_pays p : keeps (Pays (eq (p_id p))) (subscription_payment_paid p).
Proof.
  intros w. refine (_ : wp _ (fun _ w' => Pays _ w w') w).
  unfold subscription_payment_paid, list_subscription_line_items, on_sub, get_subscription.
  apply wp_transaction. sub_steps.
  match goal with |- wp _ _ ?w0 => assert (Pays (eq (p_id p)) w w0) as Hw0 end.
  { apply (Pays_map _ (marked p (stamps w 0))); [unfold stamps; by rewrite Nat.add_0_r|apply marked_id|].
    intros q. unfold marked. destruct (bool_decide _) eqn:E; [|by left]. apply bool_decide_eq_true in E. by right. }
  destruct (negb _); [by sub_steps|]. sub_steps. destruct (p_time_value p); sub_steps; [exact Hw0|].
  destruct (fetch_one _); sub_steps; [exact Hw0|by apply Pays_same].
Qed.

Lemma expire_all_pays l : Forall (fun p => p_is_paid p = false) l -> keeps (Pays Nothing) (expire_all l).
Proof.
  induction 1 as [|p l Hp _ IH]; cbn [expire_all]; [apply keeps_ret, _|].
  frame_tac ltac:(first [ apply reads_pays, now_reads | by apply update_pays | exact IH ]).
Qed.
Lemma rest_pays p : keeps (Pays Nothing) (after_payment p).
Proof.
  intros w. refine (_ : wp _ (fun _ w' => Pays _ w w') w). unfold after_payment, list_subscription_line_items. sub_steps.
  eapply wp_mono; [apply (wp_kept (Pays Nothing)), billing_pays, each_handler_keeps; [apply _|apply make_handler_billing|]|].
  { intros h li. apply keeps_bind; [apply _|apply on_payment_billing|intros _; apply keeps_ret, _]. }
  intros [] w1 H1. case_bool_decide; [|by sub_steps]. unfold get_vm_by_subscription. sub_steps.
  destruct (fetch_one _) as [vm|e]; [|by sub_steps]. unfold list_pending_vm_subscription_payments. sub_steps.
  eapply wp_mono; [apply (wp_kept (Pays Nothing)), expire_all_pays|].
  - apply Forall_forall. intros x Hx. apply list_elem_of_filter in Hx as [_ Hx]. by apply list_elem_of_filter in Hx as [[? _] _].
  - intros l w2 H2. sub_steps. etrans; [exact H1|]. exact H2.
Qed.
Lemma complete_pays p : keeps (Pays (eq (p_id p))) (complete_payment p).
Proof.
  rewrite complete_split. apply keeps_try; [apply _|apply paid_pays|]. intros _ w. apply Pays_any, rest_pays.
Qed.

Lemma cancel_pays S cancel l : keeps (Pays S) (cancel_all cancel l).
Proof. induction l as [|p l IH]; cbn [cancel_all]; frame_tac ltac:(first [ apply call_pays | exact IH ]). Qed.

(** ** Who announces what *)

(** A payment that bears an external id. *)
Definition bears (w : World) (key : string) (id : list Z) : Prop :=
  exists q, q ∈ w_payments w /\ p_external_id q = Some key /\ p_id q = id.
Lemma fetched_ext w key p : fetch_one (filter (fun p => p_external_id p = Some key) (w_payments w)) = Ok p ->
  bears w key (p_id p).
Proof. intros [Ek Hp]%fetch_one_in%list_elem_of_filter. by exists p. Qed.

(** A completion and the refusals after it. *)
Lemma completed_pays cancel p : keeps (Pays (eq (p_id p)))
  (expired ←? complete_payment p; cancel_all cancel expired;; mret (Ok tt)).
Proof. frame_tac ltac:(first [ apply complete_pays | apply cancel_pays ]). Qed.

Lemma invoice_pays id : keeps (Pays (eq id)) (invoice_mark_paid id).
Proof.
  intros w. refine (_ : wp _ (fun _ w' => Pays _ w w') w). unfold invoice_mark_paid, get_subscription_payment. sub_steps.
  destruct (fetch_one _) as [p|] eqn:E; [|reflexivity]. apply fetch_one_in, list_elem_of_filter in E as [<- _].
  apply completed_pays.
Qed.
(** A payment looked up by its external id, and completed. *)
Lemma ext_pays key (k : SubscriptionPayment -> Act unit) w :
  (forall p, keeps (Pays (eq (p_id p))) (k p)) ->
  Pays (bears w key) w ((p ←? get_subscription_payment_by_ext_id key; k p) w).2.
Proof.
  intros Hk. refine (_ : wp _ (fun _ w' => Pays _ w w') w). unfold get_subscription_payment_by_ext_id. sub_steps.
  destruct (fetch_one _) as [p|] eqn:E; [|reflexivity]. apply fetched_ext in E.
  eapply Pays_mono; [|apply (Hk p)]. by intros id <-.
Qed.
Lemma invoice_ext_pays key w : Pays (bears w key) w (invoice_mark_paid_ext_id key w).2.
Proof. apply (ext_pays key invoice_complete). intros p. apply completed_pays. Qed.
Lemma stripe_pays key w : Pays (bears w key) w (stripe_try_complete_payment key w).2.
Proof. apply (ext_pays key (fun p => _)). intros p. apply completed_pays. Qed.

Lemma capture_pays S user customer : keeps (Pays S) (capture_saved_payment_method user customer).
Proof.
  unfold capture_saved_payment_method, list_user_payment_methods, insert_user_payment_method.
  frame_tac ltac:(first [ apply ask_pays | intros w; by apply Pays_same ]).
Qed.
Lemma country_pays S cat user order : keeps (Pays S) (note_card_country cat user order).
Proof. unfold note_card_country. frame_tac ltac:(apply call_pays). Qed.

Lemma revolut_settle_pays cat p order : keeps (Pays (eq (p_id p))) (revolut_settle cat p order).
Proof.
  unfold revolut_settle. apply keeps_bind; [apply _|apply country_pays|intros []].
  apply keeps_bind; [apply _|frame_tac ltac:(apply capture_pays)|intros []; apply completed_pays].
Qed.
(** A Revolut order pays only when it is completed. *)
Lemma revolut_pays cat key w :
  Pays (fun id => bears w key id /\ ro_completed (order_at (length (w_calls w))) = true) w
    (revolut_try_complete_payment cat key w).2.
Proof.
  refine (_ : wp _ (fun _ w' => Pays _ w w') w). unfold revolut_try_complete_payment, get_subscription_payment_by_ext_id.
  sub_steps. destruct (fetch_one _) as [p|] eqn:E; [|reflexivity]. apply fetched_ext in E. sub_steps. apply wp_ask.
  intros [|]; [|by apply Pays_same]. destruct (ro_completed _) eqn:Eo; cbn [negb]; [|sub_steps; by apply Pays_same].
  eapply wp_mono; [apply (wp_kept (Pays (eq (p_id p)))), (revolut_settle_pays _ (with_external_data _ p))|]. intros r w' Hw'.
  etrans; [by apply (Pays_same _ w (log [(GetOrder key, true)] w))|]. eapply Pays_mono; [|exact Hw']. by intros id <-.
Qed.

(** *** Deposits *)

(** The payments that a deposit to an address may settle: the one that bears its
    outpoint, one that was given the address, or a renewal made for it. *)
Definition deposit_for (address key : string) (w : World) (id : list Z) : Prop :=
  bears w key id \/ id = payment_id (w_reads w) \/
  exists q, q ∈ w_payments w /\ p_method q = OnChain /\ p_external_data q = address /\ p_id q = id.

Lemma settle_pending_pays cat key amount already p w : p_is_paid p = false ->
  Pays (eq (p_id p)) w (settle_pending cat key amount already p w).2.
Proof.
  intros Hp. refine (_ : wp _ (fun _ w' => Pays _ w w') w). unfold settle_pending. sub_steps.
  assert (forall q w1, p_id q = p_id p -> p_is_paid q = false -> Pays (eq (p_id p)) w w1 ->
    wp (update_subscription_payment (with_key key q);? complete_payment (with_key key q);? mret (Ok tt))
       (fun _ w' => Pays (eq (p_id p)) w w') w1) as Hgo.
  { intros q w1 Eid Hq H1. eapply wp_mono; [apply (wp_kept (Pays (eq (p_id (with_key key q)))))|].
    - apply keeps_try; [apply _|intros v; by apply Pays_any, update_pays|intros _].
      apply keeps_try; [apply _|apply complete_pays|intros _; apply keeps_ret, _].
    - intros r w' H'. cbn [with_key p_id] in H'. rewrite Eid in H'. by etrans. }
  destruct (_ || _); [|sub_steps; by apply wp_try_inv, Hgo].
  pose proof (regenerate_quiet cat p amount w) as (_ & _ & Hq). pose proof (regenerate_same cat p amount w) as Hr.
  destruct (regenerate cat p amount w) as [[q|e] w1] eqn:E; unfold wp at 1; rewrite E; cbn [fst snd] in *;
    [|by apply Pays_same].
  destruct (Hr q eq_refl) as (Eid & _ & Epd & _). apply Hgo; [done|congruence|by apply Pays_same].
Qed.

Lemma settle_again_pays cat address key amount p w :
  Pays (eq (payment_id (w_reads w))) w (settle_again cat address key amount p w).2.
Proof.
  refine (_ : wp _ (fun _ w' => Pays _ w w') w). unfold settle_again. sub_steps. set (w1 := bump_reads (bump_reads w)).
  match goal with |- wp (regenerate _ ?p0 _) _ _ => set (fresh := p0) end.
  pose proof (regenerate_quiet cat fresh amount w1) as (_ & _ & Hq). pose proof (regenerate_same cat fresh amount w1) as Hr.
  destruct (regenerate cat fresh amount w1) as [[q|e] w2] eqn:E; unfold wp at 1; rewrite E; cbn [fst snd] in *;
    [|by apply Pays_same].
  destruct (Hr q eq_refl) as (Eid & _ & Epd & _).
  eapply wp_mono; [apply (wp_kept (Pays (eq (p_id q))))|].
  - apply keeps_try; [apply _|intros v; apply Pays_any, insert_pays; by rewrite Epd|intros _].
    apply keeps_try; [apply _|apply complete_pays|intros _; apply keeps_ret, _].
  - intros r w' H'. rewrite Eid in H'. cbn [fresh p_id] in H'. etrans; [|exact H']. by apply Pays_same.
Qed.

Lemma settle_pays cat address key amount already p w :
  Pays (fun id => p_id p = id \/ payment_id (w_reads w) = id) w (settle cat address key amount already p w).2.
Proof.
  refine (_ : wp _ (fun _ w' => Pays _ w w') w). unfold settle. apply wp_bind. unfold wp at 1. rewrite (deleted_run _ w).
  cbn [fst snd]. destruct (deleted_vm _ w).1 as [vm|].
  { unfold notify_deleted_vm_deposit, queue_admin_notification. sub_steps. case_bool_decide; sub_steps; [reflexivity|].
    apply wp_call. intros ok _. sub_steps. by apply Pays_same. }
  destruct (p_is_paid p) eqn:Ep.
  - eapply Pays_mono; [|apply settle_again_pays]. intros id <-. by right.
  - eapply Pays_mono; [|exact (settle_pending_pays cat key amount already p w Ep)]. intros id <-. by left.
Qed.
Lemma deposit_pays cat address txid vout amount w :
  Pays (deposit_for address (deposit_key txid vout) w) w (handle_deposit cat address txid vout amount w).2.
Proof.
  refine (_ : wp _ (fun _ w' => Pays _ w w') w).
  unfold handle_deposit, get_subscription_payment_by_ext_id, payment_for_address, list_subscription_payments_by_method. sub_steps.
  destruct (fetch_one _) as [p|] eqn:E.
  - destruct (p_is_paid p); [by sub_steps|]. apply fetched_ext in E. eapply Pays_mono; [|apply settle_pays].
    intros id [<-| <-]; [by left|right; by left].
  - sub_steps. destruct (latest _) as [p|] eqn:El; [|by sub_steps].
    apply latest_in, list_elem_of_filter in El as [Ea [Em Hin]%list_elem_of_filter].
    eapply Pays_mono; [|apply settle_pays]. intros id [<-| <-]; [right; right; by exists p|right; by left].
Qed.
Lemma detected_pays cat address txid vout amount : keeps (Pays Nothing) (handle_detected cat address txid vout amount).
Proof.
  intros w. refine (_ : wp _ (fun _ w' => Pays _ w w') w).
  unfold handle_detected, get_subscription_payment_by_ext_id, payment_for_address, list_subscription_payments_by_method.
  sub_steps. destruct (is_ok _); [by sub_steps|]. sub_steps. destruct (latest _) as [p|]; [|by sub_steps].
  destruct (p_is_paid p) eqn:Ep; [by sub_steps|]. unfold deleted_vm, get_vm_by_subscription. sub_steps.
  destruct (match fetch_one _ with Ok _ => _ | Err _ => _ end); [by sub_steps|]. apply wp_try.
  pose proof (regenerate_quiet cat p amount w) as (_ & _ & Hq). pose proof (regenerate_same cat p amount w) as Hr.
  destruct (regenerate cat p amount w) as [[q|e] w1] eqn:E; unfold wp at 1; rewrite E; cbn [fst snd] in *;
    [|by apply Pays_same].
  destruct (Hr q eq_refl) as (Eid & _ & Epd & _).
  eapply wp_mono; [apply (wp_kept (Pays Nothing)), update_pays; cbn; congruence|].
  intros r w' Hw'. etrans; [by apply (Pays_same _ w w1)|exact Hw'].
Qed.

(** *** Renewals *)

Lemma pays_kept : Kept (Pays Nothing).
Proof.
  split; [by intros w w' [-> _]; apply Pays_same|intros A reply c _; apply ask_pays
    |by intros c _ w; apply Pays_same|apply insert_pays].
Qed.
Lemma ledger_kept : Kept Ledger.
Proof.
  split; [by intros w w' [-> _]; apply ledger_same|intros A reply c _ w; by apply ledger_same
    |by intros c _ w; apply ledger_same|].
  intros p _ w. refine (_ : wp _ (fun _ w' => Ledger w w') w). apply insert_ledger. by intros r w' Hw.
Qed.

(** *** The billing of the system *)

(** What happens to payments: a customer or the worker renews, a customer orders an
    upgrade or sends an amount, and the services report. *)
Inductive BillingEvent : Type :=
| Renewed (sub : Z) (method : PaymentMethod) (intervals : Z) (mode : RenewMode)
| ToppedUp (vm : Z) (amount : CurrencyAmount) (method : PaymentMethod)
| UpgradeOrdered (vm : Z) (cfg : UpgradeConfig) (method : PaymentMethod) (mode : RenewMode)
| AutoRenewal (sub : Z)
| InvoiceReport (update : InvoiceUpdate)
| RevolutReport (secret : string) (message : WebhookMessage)
| StripeReport (secret : string) (message : WebhookMessage)
| ChainReport (update : ChainPaymentUpdate).

Context (cat : Catalog) (revolut : bool) (days : Z).

Definition bill (e : BillingEvent) : ST World unit :=
  match e with
  | Renewed sub method intervals mode => _ ← renew_subscription_inner cat revolut days sub method intervals mode; mret tt
  | ToppedUp vm amount method => _ ← renew_amount cat revolut vm amount method; mret tt
  | UpgradeOrdered vm cfg method mode => _ ← create_vm_upgrade_payment cat revolut vm cfg method mode; mret tt
  | AutoRenewal sub => _ ← auto_renew cat revolut days sub; mret tt
  | InvoiceReport update => _ ← invoice_listen [update]; mret tt
  | RevolutReport secret message => revolut_listen cat secret [message]
  | StripeReport secret message => stripe_listen secret [message]
  | ChainReport update => _ ← listen cat [update]; mret tt
  end.
Fixpoint bill_all (events : list BillingEvent) : ST World unit :=
  match events with [] => mret tt | e :: events => bill e;; bill_all events end.

(** The report of a service that names a payment: the hash or the id of its invoice,
    a verified webhook with its order, completed, or with its payment intent, a
    confirmed deposit that is its own. *)
Definition announces (w : World) (e : BillingEvent) (id : list Z) : Prop :=
  match e with
  | InvoiceReport (Settled payment_hash external_id) =>
      if negb (String.eqb payment_hash "") then hex_decode payment_hash = Some id
      else exists key, external_id = Some key /\ bears w key id
  | RevolutReport secret m => exists msg, revolut_verify secret m = Some msg /\ rw_event msg = OrderCompleted /\
      bears w (default (rw_order_id msg) (rw_merchant_order_ext_ref msg)) id /\
      ro_completed (order_at (length (w_calls w))) = true
  | StripeReport secret m => exists event key, stripe_verify secret m = Some event /\
      se_type event = "payment_intent.succeeded"%string /\ se_object_id event = Some key /\ bears w key id
  | ChainReport (Confirmed address txid vout _) => deposit_for address (deposit_key txid vout) w id
  | _ => False
  end.

Lemma Pays_bind {A B} S (m : ST World A) (k : A -> ST World B) w :
  Pays S w (m w).2 -> (forall a, keeps (Pays S) (k a)) -> Pays S w ((m ≫= k) w).2.
Proof. intros Hm Hk. rewrite bind_run. etrans; [exact Hm|apply Hk]. Qed.
Ltac then_nothing := apply Pays_bind; [|intros ?; frame_tac ltac:(fail)].

Lemma bill_pays e w : Pays (announces w e) w (bill e w).2.
Proof.
  destruct e as [sub method n mode|vm amount method|vm cfg method mode|sub|[h x|]|secret m|secret m|[a t v z|a t v z|]]; cbn [bill].
  - then_nothing. apply Pays_any. apply renew_kept; [apply _|apply pays_kept].
  - then_nothing. apply Pays_any. apply amount_kept; [apply _|apply pays_kept].
  - then_nothing. apply Pays_any. apply upgrade_kept; [apply _|apply pays_kept].
  - then_nothing. apply Pays_any. apply auto_renew_kept; [apply _|apply pays_kept].
  - then_nothing. cbn [invoice_listen]. unfold announces. destruct (negb _).
    + destruct (hex_decode h) as [id|]; [|by apply Pays_same]. then_nothing.
      eapply Pays_mono; [|apply invoice_pays]. by intros i <-.
    + destruct x as [key|]; [|by apply Pays_same]. then_nothing.
      eapply Pays_mono; [|apply invoice_ext_pays]. intros i Hi. by exists key.
  - by apply Pays_same.
  - cbn [revolut_listen]. unfold announces. then_nothing. destruct (negb _); [by apply Pays_same|].
    destruct (revolut_verify secret m) as [msg|]; [|by apply Pays_same].
    destruct (rw_event msg) eqn:Ee; [|by apply Pays_same..]. then_nothing.
    eapply Pays_mono; [|apply revolut_pays]. intros i [Hb Ho]. by exists msg.
  - cbn [stripe_listen]. unfold announces. then_nothing. destruct (negb _); [by apply Pays_same|].
    destruct (stripe_verify secret m) as [event|]; [|by apply Pays_same].
    destruct (String.eqb (se_type event) _) eqn:Ee; [|by apply Pays_same]. apply String.eqb_eq in Ee.
    destruct (se_object_id event) as [key|] eqn:Ek; [|by apply Pays_same]. then_nothing.
    eapply Pays_mono; [|apply stripe_pays]. intros i Hi. by exists event, key.
  - cbn [listen]. unfold announces. then_nothing. then_nothing. apply deposit_pays.
  - cbn [listen]. unfold announces. then_nothing. then_nothing. apply Pays_any, detected_pays.
  - by apply Pays_same.
Qed.

Lemma bill_ledger e : keeps Ledger (bill e).
Proof.
  assert (forall cancel l, keeps Ledger (cancel_all cancel l)) as Hcancel.
  { intros cancel l. induction l as [|p l IH]; cbn [cancel_all];
      frame_tac ltac:(first [ exact IH | intros w; by apply ledger_same ]). }
  assert (forall cancel p, keeps Ledger (expired ←? complete_payment p; cancel_all cancel expired;; mret (Ok tt))) as Hdone.
  { intros cancel p. frame_tac ltac:(first [ apply complete_ledger | apply Hcancel ]). }
  assert (forall order p, keeps Ledger (revolut_settle cat p order)) as Hsettle.
  { intros order p. unfold revolut_settle, note_card_country, capture_saved_payment_method, list_user_payment_methods,
      insert_user_payment_method.
    frame_tac ltac:(first [ apply complete_ledger | apply Hcancel | intros w; by apply ledger_same ]). }
  destruct e as [sub method n mode|vm amount method|vm cfg method mode|sub|[h x|]|secret m|secret m|u];
    cbn [bill invoice_listen revolut_listen stripe_listen];
    unfold invoice_mark_paid, invoice_mark_paid_ext_id, invoice_complete, revolut_try_complete_payment,
      stripe_try_complete_payment, get_subscription_payment, get_subscription_payment_by_ext_id;
    frame_tac ltac:(first [ apply renew_kept, ledger_kept; apply _ | apply amount_kept, ledger_kept; apply _
      | apply upgrade_kept, ledger_kept; apply _ | apply auto_renew_kept, ledger_kept; apply _ | apply listen_ledger
      | apply Hsettle | apply complete_ledger | apply Hcancel | intros w; by apply ledger_same ]).
Qed.
Lemma bill_all_ledger events : keeps Ledger (bill_all events).
Proof. induction events as [|e events IH]; cbn [bill_all]; [apply keeps_ret, _|]. apply keeps_bind; [apply _|apply bill_ledger|done]. Qed.

(** C29: Whatever customers, the worker and the services do, and in whatever order, rows
    of payments stay unique, and a settled payment is never changed again. *)
Theorem settled_rows_are_final events w : rows_ok w ->
  let w' := (bill_all events w).2 in
  rows_ok w' /\ forall q, q ∈ w_payments w -> p_is_paid q = true -> q ∈ w_payments w'.
Proof. intros Hw. exact (bill_all_ledger events w Hw). Qed.

(** C28: A payment that is settled was announced by its service. *)
Theorem settled_only_when_announced events w id : paid_id (bill_all events w).2 id ->
  paid_id w id \/
  exists before e after, events = before ++ e :: after /\ announces (bill_all before w).2 e id.
Proof.
  revert w. induction events as [|e events IH]; intros w H; [by left|]. cbn [bill_all] in H. rewrite bind_run in H.
  cbn [snd] in H. destruct (IH _ H) as [Hw|(before & e' & after & -> & Ha)].
  - destruct (bill_pays e w id Hw) as [|Ha]; [by left|]. right. by exists [], e, events.
  - right. exists (e :: before), e', after. split; [done|]. cbn [bill_all]. by rewrite bind_run.
Qed.
End settles.
