(* ===== verification/SettlementWitness.v ===== *)
(** * A renewal paid by Lightning, and reported twice *)

From Stdlib Require Import Ascii String SpecFloat.
From S2P Require Import Prelude NetText IpAlloc Network HostTypes Exchange SubDb Pricing PricingMath PricingProofs IpProvision SubLife SubLifeProofs.
From S2P Require Import SubWorkerProofs IpProvisionProofs IpProvWitness SubWitness PricingWitness OnChain OnChainProofs Renewal RenewalProofs RenewalWitness Settlement SettlementProofs.

Module SettlementRuns.
Import RefNet ProvWitness LifeRuns PriceRuns RenewalRuns.

Definition hex_digit (c : ascii) : option Z :=
  let n := Z.of_N (N_of_ascii c) in
  if (48 <=? n) && (n <=? 57) then Some (n - 48)
  else if (97 <=? n) && (n <=? 102) then Some (n - 87)
  else if (65 <=? n) && (n <=? 70) then Some (n - 55) else None.
Fixpoint hex_bytes (s : string) : option (list Z) :=
  match s with
  | EmptyString => Some []
  | String a (String b s) =>
      match hex_digit a, hex_digit b, hex_bytes s with
      | Some x, Some y, Some l => Some (16 * x + y :: l)
      | _, _, _ => None
      end
  | String _ EmptyString => None
  end.
(** A webhook is signed when its payload repeats the secret; orders are completed. *)
Definition completed_order : RevolutOrder :=
  {| ro_completed := true; ro_json := "{}"; ro_card_country := None; ro_customer := Some "customer" |}%string.
Definition card : SavedCard := {| sc_id := "card"; sc_expiry_month := Some 12; sc_expiry_year := Some 2030 |}%string.
#[export] Instance settlement : SettlementServices := {|
  hex_decode := hex_bytes;
  revolut_verify secret m :=
    if String.eqb (wm_payload m) secret
    then Some {| rw_event := OrderCompleted; rw_order_id := "order"; rw_merchant_order_ext_ref := None |}%string else None;
  stripe_verify _ _ := None;
  order_at _ := completed_order;
  saved_cards_at _ := [card];
  new_method_id l := Z.of_nat (length l) + 1 |}.

(** The invoice of the renewal is settled, and settled again. *)
Definition paid_report : BillingEvent := InvoiceReport (Settled "0001" None).
Definition story : list BillingEvent := [Renewed 1 Lightning 3 (Interactive false); paid_report; paid_report].
Definition after (events : list BillingEvent) : World := (bill_all catalog true 0 events paid_world).2.

Lemma settled_only_when_announced_witness :
  (p_is_paid <$> w_payments (after story)) = [true] /\
  (s_expires <$> w_subs (after story)) = [Some (30 * DAY + 7776000 * SEC)] /\
  exists before e rest, story = before ++ e :: rest /\ announces (after before) e [0; 1].
Proof.
  split; [vm_compute; reflexivity|]. split; [vm_compute; reflexivity|].
  destruct (settled_only_when_announced catalog true 0 story paid_world [0; 1]) as [(q & Hq & _)|H].
  - assert (existsb (fun q => bool_decide (p_id q = [0; 1]) && p_is_paid q) (w_payments (after story)) = true) as E
      by (vm_compute; reflexivity).
    apply existsb_exists in E as (q & Hq%list_elem_of_In & [E1%bool_decide_eq_true E2]%andb_true_iff).
    exists q. split; [exact Hq|]. split; [exact E1|exact E2].
  - by apply not_elem_of_nil in Hq.
  - exact H.
Defined.

Lemma settled_rows_are_final_witness :
  (forall q, q ∈ w_payments (after story) -> p_is_paid q = true ->
     q ∈ w_payments (bill_all catalog true 0 story (after story)).2) /\ length (w_payments (after story)) = 1%nat.
Proof.
  split; [|vm_compute; reflexivity].
  apply (settled_rows_are_final catalog true 0 story (after story)).
  apply (settled_rows_are_final catalog true 0 story paid_world).
  split; [apply NoDup_nil_2|]. intros p q ?%not_elem_of_nil. done.
Defined.

(** A renewal by card: the webhook completes it and keeps the card; another secret
    does nothing. *)
Definition card_message (payload : string) : WebhookMessage :=
  {| wm_endpoint := "/api/v1/webhook/revolut"; wm_payload := payload |}.
Definition by_card (payload : string) : World :=
  after [Renewed 1 Revolut 1 (Interactive true); RevolutReport "secret" (card_message payload)].
Lemma card_is_kept :
  (p_is_paid <$> w_payments (by_card "secret")) = [true] /\
  (um_external_id <$> w_methods (by_card "secret")) = ["card"%string] /\
  (p_is_paid <$> w_payments (by_card "forged")) = [false] /\ w_methods (by_card "forged") = [].
Proof. split; [vm_compute; reflexivity|]. split; [vm_compute; reflexivity|]. split; vm_compute; reflexivity. Qed.
End SettlementRuns.
