(* ===== verification/FwWitness.v ===== *)
(** * The firewall's theorems at concrete states

    Each theorem about the datapath and the control loop that has hypotheses is
    applied here on the reference kernel: to a packet, a tracker or a daemon at
    which they hold. *)

From S2P Require Import Prelude FwCommon FwCidr FwBpf FwMaps FwNet FwDemo FwDatapath FwLimits FwDetect FwRuntime FwTick FwRules FwOps FwSynProxy FwEgress.
Import Runs.

(** ** The ingress program *)

Definition filtered : XState := with_port 443 (under DEST_MODE_PORT_FILTER demo_state).
Definition proxied : XState :=
  with_port 443 (under (Z.lor DEST_MODE_PORT_FILTER DEST_MODE_SYN_PROXY) demo_state).
(** The client's network is blocked by the operator. *)
Definition blocking : XState :=
  set_fam V4 (set_MANUAL_BLOCK (lput 24 client 1 (MANUAL_BLOCK (x_fam demo_state V4)))
    (x_fam demo_state V4)) demo_state.

(** Evaluate both sides; a side that is still to be found is read back. *)
Ltac ev :=
  lazymatch goal with
  | |- ?a = ?b =>
      tryif first [has_evar a | has_evar b] then (vm_compute; reflexivity) else vm_cast_no_check (eq_refl b)
  end.

Lemma xdp_untouched_witness :
  parse (in_ctx [2; 0; 0]) = None /\
  xdp_lnvps demo_clk 0 1 (in_ctx [2; 0; 0]) demo_state = (Return XDP_PASS, demo_state).
Proof. split; [ev|]. apply (xdp_untouched demo_clk 0 1 (in_ctx [2; 0; 0]) demo_state). exact I. Defined.

Lemma xdp_policy_frame_witness :
  DEST_STATE (x_fam (xdp_lnvps demo_clk 0 1 (syn_to 443) filtered).2 V4) = DEST_STATE (x_fam filtered V4).
Proof. apply (xdp_policy_frame demo_clk 0 1 (syn_to 443) filtered). Defined.

Lemma xdp_steady_verdict_witness :
  exists p, parse ping = Some p /\
    (xdp_lnvps demo_clk 0 1 ping blocking).1 = Return XDP_DROP /\
    (xdp_lnvps demo_clk 0 1 ping demo_state).1 = Return XDP_PASS.
Proof.
  eexists. split; [ev|]. split.
  - refine (proj1 (xdp_steady_verdict demo_clk 0 1 ping _ blocking _ _) _); ev.
  - refine (proj2 (xdp_steady_verdict demo_clk 0 1 ping _ demo_state _ _) _ _); ev.
Defined.

Lemma xdp_accounts_once_witness :
  exists p, parse ping = Some p /\ (xdp_lnvps demo_clk 0 1 ping demo_state).1 = Return XDP_PASS /\
    accounted ping p (xdp_lnvps demo_clk 0 1 ping demo_state).1 (slot 0 (p_fam p) (p_dst p) demo_state)
      (slot 0 (p_fam p) (p_dst p) (xdp_lnvps demo_clk 0 1 ping demo_state).2).
Proof.
  pose proof (xdp_accounts_once demo_clk 0 1 ping demo_state demo_wf ltac:(lia)) as [_ Ha].
  destruct (parse ping) as [p|] eqn:Ep; [|exfalso; revert Ep; vm_compute; discriminate].
  exists p. split; [reflexivity|]. split; [ev|].
  assert (in_scope (p_fam p) (p_dst p) demo_state = true) as Hs by (revert Ep; vm_compute; by intros [= <-]).
  cbn iota beta in Ha. rewrite Hs in Ha. exact Ha.
Defined.

Lemma xdp_port_filter_witness :
  (xdp_lnvps demo_clk 0 1 (syn_to 443) filtered).1 = Return XDP_PASS /\
  (xdp_lnvps demo_clk 0 1 (syn_to 80) filtered).1 = Return XDP_DROP.
Proof.
  split.
  - refine (proj1 (proj2 (xdp_port_filter demo_clk 0 1 (syn_to 443) _ filtered _ _ _ _ _ _)) _ _); ev.
  - refine (proj2 (proj2 (xdp_port_filter demo_clk 0 1 (syn_to 80) _ filtered _ _ _ _ _ _)) _ _ _); ev.
Defined.

Lemma xdp_tail_call_witness :
  (xdp_lnvps demo_clk 0 1 (syn_to 443) proxied).1 = TailCall V4 /\
  exists p, parse (syn_to 443) = Some p /\ p_fam p = V4 /\ proto (p_meta p) = PROTO_TCP /\
    learned V4 (p_dst p) (p_meta p) proxied = true.
Proof.
  assert ((xdp_lnvps demo_clk 0 1 (syn_to 443) proxied).1 = TailCall V4) as Ht by ev.
  split; [exact Ht|].
  destruct (xdp_tail_call demo_clk 0 1 (syn_to 443) proxied V4 Ht)
    as (p & Hp & Hf & _ & _ & _ & _ & Hpr & Hl & _).
  exists p. exact (conj Hp (conj Hf (conj Hpr Hl))).
Defined.

(** ** The limiters *)

Definition one_second : SrcRateConfig :=
  {| max_per_window := 2; window_ns := 1000000000; cooldown_ns := 5000000000 |}.

Lemma gate_never_flags_unenforced_witness :
  let '(b, s') := src_gate still_clk V4 client one_second false demo_state in
  b = false /\
  forall k st', hget k (SRC_STATE (x_fam s' V4)) = Some st' ->
    match hget k (SRC_STATE (x_fam demo_state V4)) with
    | Some st => blocked_until_ns st' = blocked_until_ns st
    | None => blocked_until_ns st' = 0
    end.
Proof. exact (gate_never_flags_unenforced still_clk V4 client one_second demo_state). Defined.

Lemma gate_drops_excess_witness :
  (run_list (fun _ => src_gate still_clk V4 client one_second true) (seq 0 5) demo_state).1 =
  [false; false; true; true; true].
Proof.
  rewrite (gate_drops_excess still_clk V4 client one_second (seq 0 5) demo_state); [ev|..].
  - split; done.
  - done.
  - done.
  - done.
  - ev.
  - intros i _. unfold still_clk. cbn. lia.
Defined.

(** The client was blocked until second 6. *)
Definition blocked_client : XState :=
  (run_list (fun _ => src_gate still_clk V4 client one_second true) (seq 0 5) demo_state).2.

Definition client_state : SrcState :=
  default {| window_start_ns := 0; count := 0; blocked_until_ns := 0 |}
    (hget client (SRC_STATE (x_fam blocked_client V4))).

Lemma gate_block_holds_witness :
  hget client (SRC_STATE (x_fam blocked_client V4)) = Some client_state /\
  blocked_until_ns client_state = 6000000000 /\
  let '(b, s') := src_gate still_clk V4 client one_second true blocked_client in
  b = true /\
  exists st', hget client (SRC_STATE (x_fam s' V4)) = Some st' /\
    blocked_until_ns client_state <= blocked_until_ns st'.
Proof.
  assert (hget client (SRC_STATE (x_fam blocked_client V4)) = Some client_state) as Hs by ev.
  assert (blocked_until_ns client_state = 6000000000) as Hb by ev.
  split; [exact Hs|]. split; [exact Hb|].
  apply (gate_block_holds still_clk V4 client one_second blocked_client client_state);
    [split; discriminate|exact Hs| |]; rewrite Hb; unfold still_clk; cbn [cooldown_ns one_second]; lia.
Defined.

Lemma leak_bounded_witness :
  leaked server [(server, 80, 6); (server, 81, 6); (server, 82, 6)]
    (run_list (fun x : Addr * Z * Z => learn_leak still_clk V4 x.1.1 x.1.2 x.2 2)
      [(server, 80, 6); (server, 81, 6); (server, 82, 6)] demo_state).1 <= 2.
Proof.
  refine (proj2 (leak_bounded still_clk V4 server 2 _ demo_state _ _ _) _).
  - lia.
  - unfold leak_ok, still_clk. split; [intros; lia|]. split; [intros; lia|].
    intros b Hb. vm_compute in Hb. discriminate.
  - vm_compute. discriminate.
  - ev.
Defined.

(** ** Detection *)

Definition seen (n : Z) : DestCounters :=
  {| packets := n; bytes := 100 * n; syn_packets := 0; tcp_packets := 0; udp_packets := n;
     icmp_packets := 0; dropped := 0 |}.
(** The counter at each second, sampled once a second. *)
Fixpoint watch (i : Z) (counts : list Z) (h : list Obs) (t : DestTracker) : list Obs * DestTracker :=
  match counts with
  | [] => (h, t)
  | n :: counts =>
      let now := i * 1000000000 in
      let '(x, r, t1) := process_sample (seen n) t thresholds now 1000000000 in
      watch (i + 1) counts (h ++ [{| o_now := now; o_rates := r; o_transition := x |}]) t1
  end.

Lemma watch_reaches i counts h t :
  reaches thresholds h t ->
  reaches thresholds (watch i counts h t).1 (watch i counts h t).2.
Proof.
  revert i h t. induction counts as [|n counts IH]; intros i h t Hr; [exact Hr|]. cbn [watch].
  destruct (process_sample _ _ _ _ _) as [[x r] t1] eqn:E. apply IH.
  by eapply reaches_step, retag_refl.
Qed.

(** Idle, two seconds of flood, two of silence: the next one exits. *)
Definition attacked : list Obs * DestTracker :=
  watch 1 [100; 5100; 10100; 10100; 10100] [] DestTracker_default.

Lemma exit_after_cooldown_witness :
  exists r t1, process_sample (seen 10100) attacked.2 thresholds 6000000000 1000000000 = (TExited, r, t1) /\
    exists pre e mid q, attacked.1 = pre ++ e :: mid ++ q /\ o_transition e = TEntered /\
      Forall (is_quiet thresholds) q /\
      2000000000 <= sat_sub 6000000000 (default 6000000000 (o_now <$> head q)).
Proof.
  pose (o := process_sample (seen 10100) attacked.2 thresholds 6000000000 1000000000).
  exists o.1.2, o.2.
  assert (process_sample (seen 10100) attacked.2 thresholds 6000000000 1000000000 =
    (TExited, o.1.2, o.2)) as Ho by ev.
  split; [exact Ho|].
  destruct (exit_after_cooldown thresholds attacked.1 attacked.2 _ _ _ _ _
    (watch_reaches 1 _ _ _ (reaches_init thresholds)) Ho)
    as (pre & e & mid & q & H1 & H2 & _ & _ & H3 & _ & H4).
  exists pre, e, mid, q. exact (conj H1 (conj H2 (conj H3 H4))).
Defined.

Lemma peak_dominates_witness :
  tr_mode attacked.2 <> DEST_MODE_NORMAL /\ pps (tr_peak attacked.2) = 5000 /\
  exists pre e rest, attacked.1 = pre ++ e :: rest /\
    Forall (fun o => rates_le (o_rates o) (tr_peak attacked.2)) (e :: rest).
Proof.
  assert (tr_mode attacked.2 <> DEST_MODE_NORMAL) as Hm by (vm_compute; discriminate).
  split; [exact Hm|]. split; [ev|].
  destruct (peak_dominates thresholds attacked.1 attacked.2
    (watch_reaches 1 _ _ _ (reaches_init thresholds)) Hm) as (pre & e & rest & H1 & _ & _ & H4).
  exists pre, e, rest. exact (conj H1 H4).
Defined.


Lemma no_flapping_witness :
  let calm := compute_rates (seen 0) (seen 400) 1000000000 in
  let flood := compute_rates (seen 0) (seen 1000) 1000000000 in
  evaluate DEST_MODE_NORMAL calm thresholds 5 None = (DEST_MODE_NORMAL, TNone, None) /\
  evaluate DEST_MODE_PORT_FILTER flood thresholds 5 None = (DEST_MODE_PORT_FILTER, TNone, None).
Proof.
  intros calm flood. split.
  - refine (proj1 (no_flapping thresholds calm 5 None _ _ _ _) _); [discriminate..| |ev].
    split; discriminate.
  - refine (proj2 (no_flapping thresholds flood 5 None _ _ _ _) _); [discriminate..| |ev].
    split; discriminate.
Defined.

Lemma silence_exits_witness :
  TExited ∈ (silent_run thresholds attacked.2
    ((6000000000, 1000000000) :: [(7000000000, 1000000000)] ++ [(8000000000, 1000000000)])).1.
Proof.
  apply (silence_exits thresholds attacked.2 6000000000 1000000000 [(7000000000, 1000000000)]
    8000000000 1000000000).
  - repeat split.
  - vm_compute. discriminate.
  - vm_compute. discriminate.
  - vm_compute. discriminate.
Defined.

Lemma rates_split_witness :
  let r := compute_rates (seen 100) (seen 1600) 1500000000 in
  pps r = 1000 /\ drop_pps r + pass_pps r <= pps r <= drop_pps r + pass_pps r + 1.
Proof.
  intros r. split; [ev|].
  refine (proj2 (rates_split (seen 100) (seen 1600) 1500000000 _ _ _ _)).
  - discriminate.
  - repeat split; discriminate.
  - repeat split; discriminate.
  - repeat split; discriminate.
Defined.

Lemma reset_is_not_a_spike_witness : pps (compute_rates (seen 1600) (seen 100) 1000000000) = 0.
Proof. apply (proj1 (reset_is_not_a_spike (seen 1600) (seen 100) 1000000000)). discriminate. Defined.

(** ** Control ticks *)

(** Every key of a map has the family's length: evaluated. *)
Definition keys_full {V} (nbits : Z) (m : gmap Addr V) : bool :=
  forallb (fun p : Addr * V => Z.of_nat (length p.1) * 8 =? nbits) (map_to_list m).
Lemma keys_full_ok {V} (nbits : Z) (m : gmap Addr V) (k : Addr) :
  keys_full nbits m = true -> is_Some (m !! k) -> full_key nbits k.
Proof.
  intros Hm [v Hv]. unfold keys_full in Hm. rewrite forallb_forall in Hm.
  unfold full_key. apply Z.eqb_eq, (Hm (k, v)), list_elem_of_In, elem_of_map_to_list, Hv.
Qed.
Lemma tick_wf_eval cfg (bpf : XState) (st : DetectionState) :
  (forall f, keys_full (bits f) (DEST_COUNTERS (x_fam bpf f) : gmap Addr (list DestCounters)) = true /\
     keys_full (bits f) (dests st f) = true /\
     forallb (fun n : Z * Addr => negb (n.1 =? bits f)) (protected_nets cfg f) = true /\
     (Z.of_nat (length (hentries (DEST_COUNTERS (x_fam bpf f)))) + Z.of_nat (size (dests st f)) <=? lfree (DEST_STATE (x_fam bpf f))) = true) ->
  tick_wf cfg bpf st.
Proof.
  intros Hall f. destruct (Hall f) as (H1 & H2 & H3 & H4). split_and!; [| | |by apply Z.leb_le].
  - intros k. by apply keys_full_ok.
  - intros k. by apply keys_full_ok.
  - rewrite forallb_forall in H3. apply Forall_forall. intros n Hn%list_elem_of_In%H3.
    by apply negb_true_iff, Z.eqb_neq in Hn.
Qed.

(** The daemon after its first sample of the flood, and the maps at the second. *)
Definition day1 : Daemon := second 5000 1 boot.
Definition maps2 : XState := traffic 5000 (r_bpf (d_rules day1)).

Lemma day2_wf : tick_wf demo_rt maps2 (d_det day1).
Proof. apply tick_wf_eval. intros []; split_and!; vm_compute; reflexivity. Qed.
Lemma server_full : full_key (bits V4) server.
Proof. reflexivity. Qed.

Lemma tick_pointwise_witness :
  let s' := run_control demo_rt 2000000000 2000000000 maps2 (d_det day1) in
  tr_mode <$> (host_view V4 server s').1 = Some DEST_MODE_PORT_FILTER /\
  hget server (DEST_COUNTERS (x_fam s'.1 V4)) = None.
Proof.
  intros s'. split; [ev|].
  exact (proj2 (tick_pointwise demo_rt 2000000000 2000000000 maps2 (d_det day1) V4 server
    day2_wf server_full)).
Defined.

Definition day1_tracker : DestTracker := default DestTracker_default (dests (d_det day1) V4 !! server).

Lemma day1_dests : dests (d_det day1) V4 = {[server := day1_tracker]}.
Proof. ev. Qed.

Lemma flood_is_mitigated_witness :
  has_flag (mode_of V4 server (run_control demo_rt 2000000000 2000000000 maps2 (d_det day1)).1)
    DEST_MODE_PORT_FILTER = true.
Proof.
  refine (proj1 (flood_is_mitigated demo_rt 2000000000 2000000000 maps2 (d_det day1) V4 server
    [{| packets := 5000; bytes := 500000; syn_packets := 0; tcp_packets := 0;
        udp_packets := 5000; icmp_packets := 0; dropped := 0 |}]
    day2_wf server_full _ _ _ _ _ _ _)).
  - discriminate.
  - discriminate.
  - discriminate.
  - split; discriminate.
  - ev.
  - intros t Ht. assert (t = day1_tracker) as -> by (unfold day1_tracker; by rewrite Ht).
    intros Hmode. exfalso. apply Hmode. ev.
  - ev.
Defined.

(** A flood, then nothing at the seconds 3, 4 and 5. *)
Definition day2 : Daemon := second 5000 2 day1.
Definition quiet (i : Z) (s : XState * DetectionState) : XState * DetectionState :=
  run_control demo_rt (i * 1000000000) (i * 1000000000) s.1 s.2.
Definition night : XState * DetectionState :=
  quiet 5 (quiet 4 (quiet 3 (r_bpf (d_rules day2), d_det day2))).
Definition day2_tracker : DestTracker := default DestTracker_default (dests (d_det day2) V4 !! server).

Lemma night_quiet :
  quiet_ticks demo_rt V4 server (r_bpf (d_rules day2), d_det day2)
    (3000000000 :: [4000000000] ++ [5000000000]) night.
Proof.
  assert (forall s i l, tick_wf demo_rt s.1 s.2 ->
    hget server (DEST_COUNTERS (x_fam s.1 V4)) = None ->
    quiet_ticks demo_rt V4 server (quiet i s) l night ->
    quiet_ticks demo_rt V4 server s (i * 1000000000 :: l) night) as Hstep.
  { intros [bpf st] i l Hwf Hn Hq. by eapply (quiet_cons _ _ _ bpf bpf st). }
  apply (Hstep _ 3); [apply tick_wf_eval; intros []; split_and!; ev|ev|].
  apply (Hstep _ 4); [apply tick_wf_eval; intros []; split_and!; ev|ev|].
  apply (Hstep _ 5); [apply tick_wf_eval; intros []; split_and!; ev|ev|].
  constructor.
Qed.

Lemma silence_releases_witness :
  exists t', dests night.2 V4 !! server = Some t' /\ tr_mode t' = DEST_MODE_NORMAL /\
    at_floor DEST_MODE_NORMAL (lexact 32 server (DEST_STATE (x_fam night.1 V4))).
Proof.
  apply (silence_releases demo_rt V4 server (r_bpf (d_rules day2), d_det day2)
    3000000000 [4000000000] 5000000000 night day2_tracker).
  - exact server_full.
  - repeat split.
  - exact night_quiet.
  - ev.
  - vm_compute. discriminate.
  - vm_compute. discriminate.
  - vm_compute. discriminate.
Defined.

Lemma mitigation_enforced_witness :
  let s' := detect_family [(server, seen 5000)] (DEST_STATE (x_fam demo_state V4)) 32
    (dests (d_det day1) V4) thresholds 1000000 0 2000000000 1000000000 (fun _ => 0) in
  exists t' st, s'.1 !! server = Some t' /\ lexact 32 server s'.2 = Some st /\
    ds_mode st = Z.lor (enforced_flags (tr_last t') 1000000 0) 0.
Proof.
  intros s'.
  assert (exists t', s'.1 !! server = Some t' /\ tr_mode t' <> DEST_MODE_NORMAL) as (t' & Ht & Hm).
  { eexists. split; [vm_compute; reflexivity|vm_compute; discriminate]. }
  exists t'.
  destruct (mitigation_enforced 32 thresholds 1000000 0 2000000000 1000000000 (fun _ => 0)
    [(server, seen 5000)] (DEST_STATE (x_fam demo_state V4)) (dests (d_det day1) V4)) as [_ Hall].
  - vm_compute. discriminate.
  - split_and!; [repeat constructor; by intros []%elem_of_nil|by repeat constructor|].
    intros k. by apply keys_full_ok.
  - intros k t Hk Ht1. cbn [fst] in Ht1.
    rewrite day1_dests in Ht1. apply lookup_singleton_Some in Ht1 as [<- <-].
    intros Hmode. exfalso. apply Hmode. ev.
  - destruct (proj1 (Hall server t' eq_refl Ht) Hm) as (st & H1 & H2).
    exists st. exact (conj Ht (conj H1 H2)).
Defined.

(** ** Rules, limits and housekeeping *)

Definition one_override : RuleSet := override "10.0.0.1/32".
Lemma one_override_canonical : canonical_strings (names one_override (d_rules boot)).
Proof.
  assert (forall c, names one_override (d_rules boot) c -> c = "10.0.0.1/32"%string) as Hc.
  { intros c [[x Hx]|[[x Hx]|[Hx|Hx]]]; cbn in Hx.
    - by rewrite lookup_empty in Hx.
    - by rewrite lookup_empty in Hx.
    - by apply list_elem_of_singleton in Hx.
    - by apply not_elem_of_nil in Hx. }
  intros c c' k H1 H2 _ _. by rewrite (Hc _ H1), (Hc _ H2).
Qed.
Lemma boot_tracks : tracks (∅ : gmap string CidrKey).
Proof. intros c k. by rewrite lookup_empty. Qed.

Definition overridden : RuleState := (apply_rules one_override 7 (d_rules boot)).2.
Lemma overridden_run : apply_rules one_override 7 (d_rules boot) = (Ok tt, overridden).
Proof.
  unfold overridden. assert ((apply_rules one_override 7 (d_rules boot)).1 = Ok tt) as E by (vm_compute; reflexivity).
  destruct (apply_rules _ _ _) as [r st]. cbn in *. by rewrite E.
Qed.
Lemma apply_rules_reconciles_witness :
  dest_entry (host_key V4 server) (r_bpf overridden) = Some (dest_state DEST_MODE_PORT_FILTER 7).
Proof.
  refine (proj1 (apply_rules_reconciles one_override 7 (d_rules boot) overridden
    one_override_canonical boot_tracks boot_tracks overridden_run) "10.0.0.1/32"%string _ _ _).
  ev.
Defined.

Lemma override_holds_witness :
  subflags DEST_MODE_PORT_FILTER (mode_of V4 server (run_control (r_rt overridden) 8 8 (r_bpf overridden) (d_det boot)).1).
Proof.
  refine (override_holds one_override 7 8 8 (d_rules boot) overridden (d_det boot) V4 server
    "10.0.0.1/32"%string DEST_MODE_PORT_FILTER one_override_canonical boot_tracks boot_tracks
    server_full _ _ overridden_run _).
  - ev.
  - discriminate.
  - apply tick_wf_eval. intros []; split_and!; vm_compute; reflexivity.
Defined.

Lemma sweeps_are_exact_witness :
  is_Some (hget (PortKey_new server 443 PROTO_TCP)
    (OPEN_PORTS (x_fam (gc_learned_ports 50 100 100 filtered) V4))) /\
  hget (PortKey_new server 443 PROTO_TCP)
    (OPEN_PORTS (x_fam (gc_learned_ports 500 100 100 filtered) V4)) = None.
Proof.
  split.
  - rewrite (proj1 (sweeps_are_exact 50 100 100 100 100 filtered V4)). vm_compute. eauto.
  - rewrite (proj1 (sweeps_are_exact 500 100 100 100 100 filtered V4)). ev.
Defined.

Lemma sweep_keeps_verdicts_witness :
  (src_gate still_clk V4 client one_second true
     (gc_src_states 1000000000 2000000000 blocked_client)).1 = true.
Proof.
  rewrite (sweep_keeps_verdicts still_clk V4 client one_second true 1000000000 2000000000
    blocked_client); [ev|..].
  - split; discriminate.
  - discriminate.
  - split; [reflexivity|discriminate].
  - split; discriminate.
  - reflexivity.
  - intros st Hst. assert (st = client_state) as -> by (unfold client_state; by rewrite Hst).
    vm_compute. discriminate.
Defined.

Definition some_limits : Limits :=
  {| l_pps := 1000; l_syn_pps := 500; l_bps := 1000000; l_net_pps := 3000; l_net_syn_pps := 3000;
     l_net_bps := 3000000; l_exit_pct := 50; l_cooldown_secs := 2; l_src_rate_pps := 700;
     l_src_cooldown_secs := 9; l_syn_proxy_pps := 0; l_learn_leak_pps := 30 |}.

Lemma limits_reach_datapath_witness :
  let rt' := apply_limits demo_rt some_limits in
  learn_leak_pps (global_cfg (write_learn_leak_cfg rt' (write_src_rate_cfg rt' demo_state))).1 = 30.
Proof.
  refine (eq_trans (proj1 (proj2 (limits_reach_datapath demo_rt some_limits demo_state _ _ _))) _);
    [discriminate|discriminate|reflexivity|reflexivity].
Defined.

(** ** The SYN proxy *)

Definition the_syn : Ctx := syn_to 443.
Definition syn_reply : Ctx := (xdp_syn_proxy still_clk V4 the_syn proxied).1.2.
Definition seg_of (c : Ctx) : Seg :=
  default {| sg_src := []; sg_dst := []; sg_tcp := tcp_of [] |} (read_seg V4 c).
(** The client acknowledges the cookie. *)
Definition the_ack : Ctx :=
  in_ctx (eth_frame [8; 0] (ipv4_packet 6 client server
    (tcp_segment [200; 0] [1; 187] [0; 0; 0; 2]
      (to_be32 (from_be_bytes (seq_no (sg_tcp (seg_of syn_reply))) + 1)) 16))).

Lemma the_syn_wf : pkt_wf the_syn.
Proof. vm_compute. repeat constructor; discriminate. Qed.

Lemma syn_proxied : xdp_syn_proxy still_clk V4 the_syn proxied = (XDP_TX, syn_reply, proxied).
Proof. ev. Qed.

Lemma syn_answered_witness :
  exists ctx' g', xdp_syn_proxy still_clk V4 the_syn proxied = (XDP_TX, ctx', proxied) /\
    read_seg V4 ctx' = Some g' /\ sg_dst g' = client.
Proof.
  destruct (syn_answered still_clk V4 the_syn proxied (seg_of the_syn) the_syn_wf)
    as (ctx' & g' & H1 & _ & H3 & _ & H5 & _); [ev|ev|].
  exists ctx', g'. exact (conj H1 (conj H3 H5)).
Defined.

Lemma handshake_verifies_witness :
  is_Some (hget client (VERIFIED (x_fam
    (xdp_syn_proxy still_clk V4 the_ack (rotate_cookie_secret 99 proxied)).2 V4))).
Proof.
  refine (handshake_verifies still_clk V4 the_syn syn_reply proxied proxied the_ack (seg_of the_syn)
    (seg_of syn_reply) (seg_of the_ack) (rotate_cookie_secret 99 proxied) 99 the_syn_wf
    _ _ _ _ _ _ _ _ _ _ _ _ _); [ev|ev|exact syn_proxied|ev|right; ev|ev..].
Defined.

Lemma only_echo_verifies_witness :
  (xdp_syn_proxy still_clk V4 the_ack demo_state).2 = demo_state \/
  exists g, read_seg V4 the_ack = Some g /\
    (echoes V4 (cookie_secrets demo_state).1.1 g = true \/
     echoes V4 (cookie_secrets demo_state).1.2 g = true).
Proof.
  pose proof (only_echo_verifies still_clk V4 the_ack demo_state) as Hv.
  destruct (xdp_syn_proxy still_clk V4 the_ack demo_state) as [[v c] s'].
  destruct Hv as (_ & _ & [Hs|(g & H1 & _ & _ & H2 & _)]);
    [left; exact Hs|right; exists g; exact (conj H1 H2)].
Defined.

Lemma answers_verify_witness :
  fold (sum32 (Checksums.words (take 20 (drop 14 (data syn_reply))))) = 0.
Proof.
  refine (proj1 (Checksums.answers_verify still_clk V4 the_syn proxied (seg_of the_syn) syn_reply proxied
    the_syn_wf _ _ _)); [ev|ev|exact syn_proxied].
Defined.

(** ** Egress *)

Lemma egress_learns_exactly_witness :
  (tc_lnvps_egress demo_clk 0 1 (reply_from 443) demo_state).1 = TC_ACT_OK /\
  learns (Some (V4, PortKey_new server 443 PROTO_TCP)) demo_state
    (tc_lnvps_egress demo_clk 0 1 (reply_from 443) demo_state).2.
Proof.
  pose proof (egress_learns_exactly demo_clk 0 1 (reply_from 443) demo_state) as H.
  destruct (tc_lnvps_egress demo_clk 0 1 (reply_from 443) demo_state). exact H.
Defined.

Lemma answered_port_stays_open_witness :
  let s1 := (tc_lnvps_egress demo_clk 0 1 (reply_from 443) (under DEST_MODE_PORT_FILTER demo_state)).2 in
  let s2 := (run_list (xdp_lnvps demo_clk 0 1) [syn_to 80; ping] s1).2 in
  exists p, parse (syn_to 443) = Some p /\
    (dest_policy demo_clk V4 server (p_meta p) 0 s2).1 = XDP_PASS.
Proof.
  cbv zeta. eexists. split; [ev|].
  refine (answered_port_stays_open demo_clk 0 1 (reply_from 443) (under DEST_MODE_PORT_FILTER demo_state)
    V4 (PortKey_new server 443 PROTO_TCP) [syn_to 80; ping] _ _ _ _ _ 0); ev.
Defined.
