(* ===== verification/FwApiWitness.v ===== *)
(** * The control API's theorems at concrete requests *)

From Stdlib Require Import Ascii String.
From stdpp Require Import list_numbers.
From S2P Require Import Prelude FwCommon FwCidr FwBpf FwMaps FwDemo FwDetect FwRuntime FwRules FwPublish NetText FwUpgrade FwApi FwApiProofs FwApiLists FwApiLoop FwWitness.
Open Scope string_scope.

Definition demo_config : ApiConfig :=
  {| cf_token := "secret"; cf_allow_ips := []; cf_version := "0.1.0"; cf_interfaces := ["eth0"];
     cf_upgrade_repo := "LNVPS/api"; cf_allow_remote_upgrade := false; cf_upgrade_pubkey := None |}.
Definition no_rules : RuleSet := {| rs_protected := ["10.0.0.0/8"]; rs_overrides := []; rs_source_blocks := [] |}.
Definition demo_limits : Limits :=
  {| l_pps := 1000; l_syn_pps := 100; l_bps := 1000000; l_net_pps := 5000; l_net_syn_pps := 500; l_net_bps := 5000000;
     l_exit_pct := 50; l_cooldown_secs := 60; l_src_rate_pps := 100; l_src_cooldown_secs := 60; l_syn_proxy_pps := 50;
     l_learn_leak_pps := 10 |}.
Definition demo_shared : SharedState := set_limits demo_limits (SharedState_new demo_config no_rules 16).
Definition bearer : option string := Some "Bearer secret".

(** With the token a request is answered, with another it is not. *)
Example token_opens : (router None bearer GetRules demo_shared).1.1 = Success.
Proof. reflexivity. Qed.
Example no_token : (router None (Some "Bearer secreT") GetRules demo_shared).1 = (Unauthorized, NoBody).
Proof. reflexivity. Qed.

Lemma demo_wf_rules : wf_rules (a_rules demo_shared).
Proof. split; [|split; constructor]. constructor; [|constructor]. unfold canonical_text. ev. Qed.
(** A request without a token, a host address that is stored as its network, a text that is no network. *)
Definition demo_requests : list (option (family * Addr) * option string * Request) :=
  [(None, None, PostBlock "203.0.113.0/24"); (None, bearer, PostBlock "203.0.113.7/24"); (None, bearer, PostBlock "nowhere")].
Example stored_as_network : rs_source_blocks (a_rules (serve_all demo_requests demo_shared)) = ["203.0.113.0/24"].
Proof. ev. Qed.
(** The networks of the configuration are kept as they are written. *)
Example configured_as_written :
  let configured := {| rs_protected := ["10.0.1.130/24"]; rs_overrides := []; rs_source_blocks := [] |} in
  rs_protected (a_rules (serve_all demo_requests (SharedState_new demo_config configured 16))) = ["10.0.1.130/24"].
Proof. reflexivity. Qed.

Definition lan : CidrKey := {| ck_fam := V4; ck_bits := 8; ck_net := [10; 0; 0; 0] |}.
Lemma pushed_is_removable_witness :
  blocks_of (post_block "10.1.2.3/8" demo_shared).2 lan = ["10.0.0.0/8"].
Proof.
  refine (proj1 (pushed_is_removable "10.1.2.3/8" "10.9.9.9/8" 1 lan demo_shared _ _ demo_wf_rules)); ev.
Defined.

(** A block is pushed, and its bump waits for the loop to have looked. *)
Definition boot_detection : DetectionConfig :=
  {| entry_pps := 1000; entry_syn_pps := 100; entry_bps := 1000000; exit_pct := 50; exit_cooldown_ns := 60000000000 |}.
Definition boot_rt : RuntimeConfig :=
  {| detection := boot_detection; network := boot_detection; protected_nets := fun _ => []; manual := fun _ => [];
     src_rate_pps := 100; src_cooldown_ns := 60000000000; escalate_pass_pps := 0; syn_proxy_pps := 50; rt_learn_leak_pps := 10 |}.
Definition boot_loop : Loop := Loop_start demo_shared demo_state boot_rt (fun _ => []).
Definition pushed_loop : Loop :=
  set_pending 0 0 (set_shared (bump_rules (set_rules (with_blocks (fun _ => ["203.0.113.0/24"]) no_rules) demo_shared)) boot_loop).
Lemma pushed_reach : reach boot_loop 1 0 pushed_loop.
Proof.
  refine (reach_bump boot_loop 1 0 (set_pending 1 0 (set_shared (set_rules _ demo_shared) boot_loop)) 0 _ eq_refl).
  exact (reach_write boot_loop 0 0 boot_loop None bearer (PostBlock "203.0.113.7/24") _ _ (reach_start boot_loop) eq_refl eq_refl).
Qed.
Lemma pushed_fits : fits_rules (a_rules (lo_shared pushed_loop)) (r_bpf (lo_state pushed_loop)).
Proof. split_and!; [by vm_compute|by vm_compute|]. intros []; by vm_compute. Qed.
Lemma no_lost_edit_witness :
  block_entry {| ck_fam := V4; ck_bits := 24; ck_net := [203; 0; 113; 0] |} (r_bpf (lo_state (reload 5 pushed_loop))) = Some 1.
Proof.
  destruct (no_lost_edit demo_config no_rules 16 demo_limits demo_state boot_rt (fun _ => []) 1 0 pushed_loop 5
    eq_refl eq_refl ltac:(discriminate) (fun k => ltac:(cbn; destruct (ck_fam k); reflexivity)) pushed_reach eq_refl) as (_ & _ & Hr & Hfit & _).
  apply (proj2 (Hr eq_refl eq_refl (Hfit ltac:(discriminate) pushed_fits))); [reflexivity|]. exists "203.0.113.0/24". split; [by left|ev].
Defined.

(** On a kernel whose tries have one place, two accepted blocks do not fit: the tick
    fails at the second, nothing is looked up (the flag is not set), the version counts
    as seen, and the next tick does not try again. *)
Module FullTrie.
#[local] Instance small : BpfKernel := kernel_of 1.
Definition blocks : list string := ["203.0.113.0/24"; "198.51.100.0/24"].
Definition small_state : XState :=
  {| x_fam := fun _ => Build_FamMaps hempty hempty hempty hempty hempty lempty hempty lempty lempty hempty;
     GLOBAL_CFG := [GlobalConfig_zero]; COOKIE_SECRET := [4660; 22136]; SYN_PROXY_JUMP := fun _ => true; x_reads := 0 |}.
Definition edited : Loop :=
  set_shared (post_block "198.51.100.0/24" (post_block "203.0.113.0/24" demo_shared).2).2
    (Loop_start demo_shared small_state boot_rt (fun _ => [])).
Example full_trie_loses_edit :
  let d := reload 5 edited in
  rs_source_blocks (a_rules (lo_shared d)) = blocks /\ lo_result d = Err MapFull /\
  lo_seen_rules d = a_rules_version (lo_shared d) /\ manual_blocks (cfg0 (r_bpf (lo_state d))) = 0 /\
  size (applied_blocks (lo_state d)) = 1%nat /\ r_bpf (lo_state (reload 6 d)) = r_bpf (lo_state d).
Proof. split_and!; ev. Qed.
End FullTrie.

Definition attacker (ip : string) (pps : Z) : TrackedSource :=
  {| ts_ip := ip; ts_pps := pps; ts_state := "dropping"; ts_manual := false; ts_age_secs := 3 |}.
Definition busy_shared : SharedState :=
  publish {| sn_active := []; sn_tracked := []; sn_prefixes := []; sn_blocks := [];
             sn_sources := [attacker "198.51.100.1" 900; attacker "198.51.100.2" 300]; sn_ports := [];
             sn_totals := Totals_default; sn_nics := []; sn_events := EventRing_new 16 |} demo_shared.
Lemma origins_account_witness :
  exists o, handle GetOrigins busy_shared = (Success, OriginsBody o, busy_shared) /\ or_total_pps o = 1200.
Proof.
  destruct (origins_account busy_shared _ _ eq_refl eq_refl) as (o & Eo & _ & _ & _ & _ & Et).
  - repeat constructor; discriminate.
  - exists o. split; [exact Eo|]. rewrite Et. reflexivity.
Defined.
Lemma pages_cover_witness : Sorted.Sorted (before block_lt) (all_blocks busy_shared {| q_offset := 0; q_limit := None; q_q := "" |}).
Proof.
  destruct (pages_cover busy_shared {| q_offset := 0; q_limit := None; q_q := "" |} 1 ltac:(cbn; lia)) as (pages & _ & _ & Hs & _).
  exact Hs.
Defined.
