(* ===== verification/VmNet.v ===== *)
(** * The network of a machine
    ([lnvps_api/src/provisioner/vm_network.rs], [lnvps_api_common/src/dns/mod.rs],
    [lnvps_api/src/router/mod.rs])

    An address of a machine has a row, and may have an ARP entry on a router and two
    DNS records. The rows are in a world; routers, DNS servers and hosts are a
    service that answers each call, and every call is logged with its answer. A
    query may fail, and so may a call. *)

From Stdlib Require Import Ascii String.
From stdpp Require Import list pretty.
From S2P Require Import Prelude TryProcedure IpAlloc NetText Network.

(** ** Operations that may fail *)

Inductive NetFail : Type :=
| Sql | RowNotFound | Service | NoRouter | ArpIdEmpty | BadIp | BadCidr | NotInSubnet | BlankMac | NoName | BadName
| NoRecordId | NoIpv4 | Picking (e : NetError) | ReadOnly | NoSshKey.
(** A closure of [TryProcedure]: [None] is a panic, or a loop that never ends. *)
Definition Op (S A : Type) : Type := Closure S (OpResult A NetFail).
Definition done {S A} (a : A) : Op S A := fun s => (Some (Ok a), s).
Definition fatal {S A} (e : NetFail) : Op S A := fun s => (Some (Err (Fatal e)), s).
Definition op_bind {S A B} (m : Op S A) (k : A -> Op S B) : Op S B := fun s =>
  match m s with
  | (Some (Ok a), s') => k a s'
  | (Some (Err e), s') => (Some (Err e), s')
  | (None, s') => (None, s')
  end.
Notation "x ←! m ; k" := (op_bind m (fun x => k)) (at level 20, m at level 100, k at level 200).
Notation "m ;! k" := (op_bind m (fun _ => k)) (at level 100, k at level 200, right associativity).
(** The [?] of a plain [Result]. *)
Definition or_fatal {S A} (o : option A) (e : NetFail) : Op S A :=
  match o with Some a => done a | None => fatal e end.
(** [if let Err(e) = m { warn!(..) }] *)
Definition warned {S A} (m : Op S A) : Op S (option A) := fun s =>
  match m s with
  | (Some (Ok a), s') => (Some (Ok (Some a)), s')
  | (Some (Err _), s') => (Some (Ok None), s')
  | (None, s') => (None, s')
  end.
(** Inside a state that holds more. *)
Definition up {X S A} (m : Op S A) : Op (X * S) A := fun '(x, s) => let '(r, s') := m s in (r, (x, s')).
Definition held {X S} : Op (X * S) X := fun '(x, s) => (Some (Ok x), (x, s)).
Definition hold {X S} (f : X -> X) : Op (X * S) unit := fun '(x, s) => (Some (Ok tt), (f x, s)).

(** ** Rows *)

Inductive NetworkAccessPolicy : Type := StaticArp.
Record AccessPolicy := { ap_id : Z; ap_kind : NetworkAccessPolicy; ap_router_id : option Z; ap_interface : option string }.
Record RangeRow := {
  rg_range : IpRange; rg_access_policy_id : option Z;
  rg_reverse_dns_server_id : option Z; rg_reverse_zone_id : option string;
  rg_forward_dns_server_id : option Z; rg_forward_zone_id : option string
}.
Record IpRow := {
  ia_id : Z; ia_vm_id : Z; ia_range_id : Z; ia_ip : string; ia_deleted : bool; ia_arp_ref : option string;
  ia_dns_forward : option string; ia_dns_forward_ref : option string;
  ia_dns_reverse : option string; ia_dns_reverse_ref : option string
}.
Record VmRow := { vr_id : Z; vr_host_id : Z; vr_ssh_key_id : option Z; vr_mac_address : string; vr_deleted : bool }.
Record HostRow := { hr_id : Z; hr_region_id : Z }.

(** [VmIpAssignment { vm_id, ip_range_id, ip, ..Default::default() }] *)
Definition new_assignment (vm range : Z) (ip : string) : IpRow :=
  {| ia_id := 0; ia_vm_id := vm; ia_range_id := range; ia_ip := ip; ia_deleted := false; ia_arp_ref := None;
     ia_dns_forward := None; ia_dns_forward_ref := None; ia_dns_reverse := None; ia_dns_reverse_ref := None |}.
(** The columns that the choice of an address reads. *)
Definition plain (a : IpRow) : VmIpAssignment :=
  {| vm_id := ia_vm_id a; ip_range_id := ia_range_id a; a_ip := ia_ip a; a_deleted := ia_deleted a |}.
Definition set_arp_ref (r : option string) (a : IpRow) : IpRow :=
  {| ia_id := ia_id a; ia_vm_id := ia_vm_id a; ia_range_id := ia_range_id a; ia_ip := ia_ip a; ia_deleted := ia_deleted a;
     ia_arp_ref := r; ia_dns_forward := ia_dns_forward a; ia_dns_forward_ref := ia_dns_forward_ref a;
     ia_dns_reverse := ia_dns_reverse a; ia_dns_reverse_ref := ia_dns_reverse_ref a |}.
Definition set_forward (name r : option string) (a : IpRow) : IpRow :=
  {| ia_id := ia_id a; ia_vm_id := ia_vm_id a; ia_range_id := ia_range_id a; ia_ip := ia_ip a; ia_deleted := ia_deleted a;
     ia_arp_ref := ia_arp_ref a; ia_dns_forward := name; ia_dns_forward_ref := r;
     ia_dns_reverse := ia_dns_reverse a; ia_dns_reverse_ref := ia_dns_reverse_ref a |}.
Definition set_reverse (name r : option string) (a : IpRow) : IpRow :=
  {| ia_id := ia_id a; ia_vm_id := ia_vm_id a; ia_range_id := ia_range_id a; ia_ip := ia_ip a; ia_deleted := ia_deleted a;
     ia_arp_ref := ia_arp_ref a; ia_dns_forward := ia_dns_forward a; ia_dns_forward_ref := ia_dns_forward_ref a;
     ia_dns_reverse := name; ia_dns_reverse_ref := r |}.
Definition set_row (id : Z) (deleted : bool) (a : IpRow) : IpRow :=
  {| ia_id := id; ia_vm_id := ia_vm_id a; ia_range_id := ia_range_id a; ia_ip := ia_ip a; ia_deleted := deleted;
     ia_arp_ref := ia_arp_ref a; ia_dns_forward := ia_dns_forward a; ia_dns_forward_ref := ia_dns_forward_ref a;
     ia_dns_reverse := ia_dns_reverse a; ia_dns_reverse_ref := ia_dns_reverse_ref a |}.
Definition set_mac (mac : string) (v : VmRow) : VmRow :=
  {| vr_id := vr_id v; vr_host_id := vr_host_id v; vr_ssh_key_id := vr_ssh_key_id v; vr_mac_address := mac;
     vr_deleted := vr_deleted v |}.

(** ** Services *)

Record ArpEntry := {
  arp_id : option string; arp_address : string; arp_mac_address : string; arp_interface : option string;
  arp_comment : option string
}.
Inductive RecordType : Type := RecA | RecAAAA | RecPTR.
Inductive DnsRef : Type := Implicit | Id (s : string).
Definition DnsRef_from_opt (s : option string) : DnsRef := match s with Some v => Id v | None => Implicit end.
Record BasicRecord := {
  br_name : string; br_value : string; br_id : option DnsRef; br_kind : RecordType; br_ip : string; br_zone : DnsRef
}.
Definition stored_ref (r : BasicRecord) : option string :=
  match br_id r with Some (Id s) => Some s | Some Implicit => Some (br_ip r) | None => None end.

(** Routers, DNS servers and hosts are named by the ids of their rows. *)
Inductive RemoteCall : Type :=
| OpenRouter (r : Z) | GenerateMac (r : Z) (ip comment : string) | ListArp (r : Z)
| AddArp (r : Z) (e : ArpEntry) | UpdateArp (r : Z) (e : ArpEntry) | RemoveArp (r : Z) (id : string)
| OpenDns (d : Z) | AddRecord (d : Z) (rec : BasicRecord) | UpdateRecord (d : Z) (rec : BasicRecord)
| DeleteRecord (d : Z) (rec : BasicRecord)
| OpenHost (h : Z) | HostMac (h vm : Z) | CreateVm (h vm : Z) (mac : string) (ips : list string) | DeleteVm (h vm : Z)
| StopVm (h vm : Z) | StartVm (h vm : Z) | UnlinkDisk (h vm : Z) | ImportDisk (h vm : Z) | ConfigureVm (h vm : Z).
Definition Ans (c : RemoteCall) : Type :=
  match c with
  | GenerateMac _ _ _ => option ArpEntry
  | ListArp _ => list ArpEntry
  | AddArp _ _ | UpdateArp _ _ => ArpEntry
  | AddRecord _ _ | UpdateRecord _ _ => BasicRecord
  | HostMac _ _ => string
  | _ => unit
  end.
Definition Logged : Type := { c : RemoteCall & OpResult (Ans c) NetFail }.
Inductive Stmt : Type := Select | Insert | Change.
(** The answer to the n-th call, and whether the n-th query does what it should. *)
Class Services := {
  answer : nat -> forall c, OpResult (Ans c) NetFail;
  sql_ok : nat -> Stmt -> bool
}.

Record VmWorld := {
  vw_ranges : list RangeRow; vw_policies : list AccessPolicy; vw_routers : list Z; vw_dns : list Z;
  vw_hosts : list HostRow; vw_vms : list VmRow; vw_ips : list IpRow; vw_next_ip : Z;
  vw_queries : nat; vw_log : list Logged
}.
Definition net_db (w : VmWorld) : NetDb :=
  {| ip_ranges := rg_range <$> vw_ranges w; assignments := plain <$> vw_ips w |}.
Definition set_tables (vms : list VmRow) (ips : list IpRow) (next : Z) (w : VmWorld) : VmWorld :=
  {| vw_ranges := vw_ranges w; vw_policies := vw_policies w; vw_routers := vw_routers w; vw_dns := vw_dns w;
     vw_hosts := vw_hosts w; vw_vms := vms; vw_ips := ips; vw_next_ip := next;
     vw_queries := vw_queries w; vw_log := vw_log w |}.
Definition set_ips (f : list IpRow -> list IpRow) (w : VmWorld) : VmWorld := set_tables (vw_vms w) (f (vw_ips w)) (vw_next_ip w) w.
Definition set_vm_rows (f : list VmRow -> list VmRow) (w : VmWorld) : VmWorld := set_tables (f (vw_vms w)) (vw_ips w) (vw_next_ip w) w.
Definition bump_queries (w : VmWorld) : VmWorld :=
  {| vw_ranges := vw_ranges w; vw_policies := vw_policies w; vw_routers := vw_routers w; vw_dns := vw_dns w;
     vw_hosts := vw_hosts w; vw_vms := vw_vms w; vw_ips := vw_ips w; vw_next_ip := vw_next_ip w;
     vw_queries := S (vw_queries w); vw_log := vw_log w |}.
Definition push_log (l : Logged) (w : VmWorld) : VmWorld :=
  {| vw_ranges := vw_ranges w; vw_policies := vw_policies w; vw_routers := vw_routers w; vw_dns := vw_dns w;
     vw_hosts := vw_hosts w; vw_vms := vw_vms w; vw_ips := vw_ips w; vw_next_ip := vw_next_ip w;
     vw_queries := vw_queries w; vw_log := vw_log w ++ [l] |}.

Section vm_net.
Context `{!NetLib, !Services} (policy : RetryPolicy).

(** ** The database *)

Definition query {A} (f : VmWorld -> A) : Op VmWorld A := fun w =>
  (Some (if sql_ok (vw_queries w) Select then Ok (f w) else Err (Fatal Sql)), bump_queries w).
(** [fetch_one] *)
Definition query_one {A} (f : VmWorld -> list A) : Op VmWorld A :=
  l ←! query f; or_fatal (head l) RowNotFound.
Definition statement (f : VmWorld -> VmWorld) : Op VmWorld unit := fun w =>
  if sql_ok (vw_queries w) Change then (Some (Ok tt), f (bump_queries w)) else (Some (Err (Fatal Sql)), bump_queries w).

Definition get_range (id : Z) : Op VmWorld RangeRow := query_one (fun w => filter (fun r => r_id (rg_range r) = id) (vw_ranges w)).
Definition get_access_policy (id : Z) : Op VmWorld AccessPolicy := query_one (fun w => filter (fun p => ap_id p = id) (vw_policies w)).
Definition get_vm_row (id : Z) : Op VmWorld VmRow := query_one (fun w => filter (fun v => vr_id v = id) (vw_vms w)).
Definition get_host (id : Z) : Op VmWorld HostRow := query_one (fun w => filter (fun h => hr_id h = id) (vw_hosts w)).
Definition list_vm_ip_assignments (vm : Z) : Op VmWorld (list IpRow) :=
  query (fun w => filter (fun a => ia_vm_id a = vm /\ ia_deleted a = false) (vw_ips w)).
(** The columns that [update vm_ip_assignment] sets. *)
Definition update_vm_ip_assignment (a : IpRow) : Op VmWorld unit := statement (set_ips (fmap (fun old =>
  if decide (ia_id old = ia_id a) then
    set_arp_ref (ia_arp_ref a) (set_forward (ia_dns_forward a) (ia_dns_forward_ref a)
      (set_reverse (ia_dns_reverse a) (ia_dns_reverse_ref a) old))
  else old))).
Definition insert_vm_ip_row (a : IpRow) : Op VmWorld Z := fun w =>
  if sql_ok (vw_queries w) Insert then
    let id := vw_next_ip w in
    (Some (Ok id), set_tables (vw_vms w) (vw_ips w ++ [set_row id false a]) (id + 1) (bump_queries w))
  else (Some (Err (Fatal Sql)), bump_queries w).
Definition delete_vm_ip_assignment (id : Z) : Op VmWorld unit :=
  statement (set_ips (fmap (fun old => if decide (ia_id old = id) then set_row id true old else old))).
Definition hard_delete_vm_ip_assignments_by_vm_id (vm : Z) : Op VmWorld unit :=
  statement (set_ips (filter (fun a => ia_vm_id a <> vm))).
Definition update_vm (v : VmRow) : Op VmWorld unit := statement (set_vm_rows (fmap (fun old =>
  if decide (vr_id old = vr_id v) then
    {| vr_id := vr_id old; vr_host_id := vr_host_id old; vr_ssh_key_id := vr_ssh_key_id v;
       vr_mac_address := vr_mac_address v; vr_deleted := vr_deleted old |}
  else old))).
Definition delete_vm_row (id : Z) : Op VmWorld unit := statement (set_vm_rows (fmap (fun old =>
  if decide (vr_id old = id) then
    {| vr_id := vr_id old; vr_host_id := vr_host_id old; vr_ssh_key_id := None;
       vr_mac_address := vr_mac_address old; vr_deleted := true |}
  else old))).
(** The rows of the machine that this world holds. *)
Definition purge_vm_row (id : Z) : Op VmWorld unit := statement (fun w =>
  set_tables (filter (fun v => vr_id v <> id) (vw_vms w)) (filter (fun a => ia_vm_id a <> id) (vw_ips w)) (vw_next_ip w) w).

(** ** Calls *)

Definition remote (c : RemoteCall) : Op VmWorld (Ans c) := fun w =>
  let r := answer (length (vw_log w)) c in (Some r, push_log (existT c r) w).
Definition no_sleep {S} (d : Duration) (s : S) : S := s.
(** [retry_async(policy, f).await], whose error is a plain one. *)
Definition retried {A} (f : Op VmWorld A) : Op VmWorld A := fun w =>
  match retry_async no_sleep policy f w with
  | (Done (Ok a), w') => (Some (Ok a), w')
  | (Done (Err e), w') => (Some (Err (Fatal e)), w')
  | (TryProcedure.Panic, w') | (Stuck, w') => (None, w')
  end.
Definition get_router (id : Z) : Op VmWorld Z :=
  r ←! query_one (fun w => filter (fun r => r = id) (vw_routers w)); remote (OpenRouter r) ;! done r.
Definition get_dns_server (id : Z) : Op VmWorld Z :=
  d ←! query_one (fun w => filter (fun d => d = id) (vw_dns w)); remote (OpenDns d) ;! done d.

(** ** Records *)

Definition vm_name (prefix : string) (vm : Z) : string := String.append prefix (pretty (Z.to_N vm)).
(** Of ASCII, which names are. *)
Definition is_alphanumeric (c : ascii) : bool :=
  let n := Z.of_N (N_of_ascii c) in
  ((48 <=? n) && (n <=? 57)) || ((65 <=? n) && (n <=? 90)) || ((97 <=? n) && (n <=? 122)).
Definition valid_label (l : list ascii) : bool :=
  (Nat.leb 1 (length l) && Nat.leb (length l) 63) &&
  match head l with Some c => is_alphanumeric c | None => false end &&
  match last l with Some c => is_alphanumeric c | None => false end &&
  forallb (fun c => is_alphanumeric c || Ascii.eqb c "-") l.
Definition is_valid_fqdn (s : string) : bool :=
  let s := text s in
  let s := match last s with Some "."%char => take (length s - 1) s | _ => s end in
  let labels := split_on (Ascii.eqb ".") s in
  negb (Nat.ltb 255 (length s) || Nat.eqb (length s) 0) && Nat.leb 2 (length labels) && forallb valid_label labels.

Definition kind_of (a : IpAddr) : RecordType := if a_v4 a then RecA else RecAAAA.
(** The name of the PTR record inside its zone. *)
Definition reverse_name (a : IpAddr) : string :=
  if a_v4 a then String.string_of_list_ascii (show_octet (a_bits a mod 256)) else ipv6_to_ptr (a_bits a).
Definition forward (ip : IpRow) (zone : DnsRef) : res NetFail BasicRecord :=
  addr ← ok_or BadIp (parse_ip (ia_ip ip));
  mret {| br_name := vm_name "vm-"%string (ia_vm_id ip); br_value := show_ip addr; br_id := Id <$> ia_dns_forward_ref ip;
          br_kind := kind_of addr; br_ip := ia_ip ip; br_zone := zone |}.
Definition ptr_record (ip : IpRow) (zone : DnsRef) (name : option string) : res NetFail BasicRecord :=
  addr ← ok_or BadIp (parse_ip (ia_ip ip));
  fwd ← ok_or NoName name;
  _ ← ensure (is_valid_fqdn fwd) BadName;
  mret {| br_name := reverse_name addr; br_value := fwd; br_id := Id <$> ia_dns_reverse_ref ip;
          br_kind := RecPTR; br_ip := ia_ip ip; br_zone := zone |}.
Definition reverse_to_fwd (ip : IpRow) (zone : DnsRef) : res NetFail BasicRecord :=
  ptr_record ip zone (match ia_dns_reverse ip with Some r => Some r | None => ia_dns_forward ip end).
Definition reverse_record (ip : IpRow) (zone : DnsRef) : res NetFail BasicRecord := ptr_record ip zone (ia_dns_reverse ip).
Definition of_result {S A} (r : res NetFail A) : Op S A := match r with Ok a => done a | Err e => fatal e end.

Definition UNASSIGNED_MAC : string := "ff:ff:ff:ff:ff:ff"%string.
Definition ArpEntry_new (vm : VmRow) (ip : IpRow) (interface : option string) : res NetFail ArpEntry :=
  _ ← ensure (negb (String.eqb (vr_mac_address vm) UNASSIGNED_MAC)) BlankMac;
  mret {| arp_id := ia_arp_ref ip; arp_address := ia_ip ip; arp_mac_address := vr_mac_address vm;
          arp_interface := interface; arp_comment := Some (vm_name "VM"%string (vr_id vm)) |}.

(** ** The address of a machine

    Operations on an assignment that the caller holds. They do not write its row. *)

Definition Cell (A : Type) : Type := Op (IpRow * VmWorld) A.

Definition apply_arp (p : AccessPolicy) (net : IpNetwork) : bool :=
  match ap_kind p with StaticArp => is_v4 net end.
Definition update_access_policy (p : AccessPolicy) : Cell unit :=
  a ←! held;
  net ←! or_fatal (parse_net (ia_ip a)) BadIp;
  if apply_arp p net then
    rid ←! or_fatal (ap_router_id p) NoRouter;
    router ←! up (get_router rid);
    vm ←! up (get_vm_row (ia_vm_id a));
    entry ←! of_result (ArpEntry_new vm a (ap_interface p));
    arp ←! up (match ia_arp_ref a with
               | Some _ => remote (UpdateArp router entry)
               | None => remote (AddArp router entry)
               end : Op VmWorld ArpEntry);
    match arp_id arp with
    | None => fatal ArpIdEmpty
    | Some id => hold (set_arp_ref (Some id))
    end
  else done tt.

(** The entry of an address that has no reference is looked up. *)
Definition find_arp (router : Z) (a : IpRow) : Op VmWorld (option string) :=
  match ia_arp_ref a with
  | Some id => done (Some id)
  | None =>
      l ←! (remote (ListArp router) : Op VmWorld (list ArpEntry));
      done (e ← head (filter (fun e => arp_address e = ia_ip a) l); arp_id e)
  end.
Definition remove_access_policy (p : AccessPolicy) : Cell unit :=
  a ←! held;
  net ←! or_fatal (parse_net (ia_ip a)) BadIp;
  if apply_arp p net then
    rid ←! or_fatal (ap_router_id p) NoRouter;
    router ←! up (get_router rid);
    id ←! up (find_arp router a);
    match id with
    | Some id => warned (up (retried (remote (RemoveArp router id)))) ;! done tt
    | None => done tt
    end ;!
    hold (set_arp_ref None)
  else done tt.

Definition remove_reverse (range : RangeRow) : Cell unit :=
  a ←! held;
  match rg_reverse_dns_server_id range, ia_dns_reverse_ref a with
  | Some dns_id, Some _ =>
      dns ←! up (get_dns_server dns_id);
      rev ←! of_result (reverse_record a (DnsRef_from_opt (rg_reverse_zone_id range)));
      warned (up (retried (remote (DeleteRecord dns rev)))) ;!
      hold (set_reverse None None)
  | _, _ => done tt
  end.
Definition remove_forward (range : RangeRow) : Cell unit :=
  a ←! held;
  match rg_forward_dns_server_id range, ia_dns_forward_ref a with
  | Some dns_id, Some _ =>
      dns ←! up (get_dns_server dns_id);
      fwd ←! of_result (forward a (DnsRef_from_opt (rg_forward_zone_id range)));
      warned (up (retried (remote (DeleteRecord dns fwd)))) ;!
      hold (set_forward None None)
  | _, _ => done tt
  end.
Definition remove_ip_dns : Cell unit :=
  a ←! held;
  range ←! up (get_range (ia_range_id a));
  remove_reverse range ;! remove_forward range.

Definition update_forward_ip_dns : Cell unit :=
  a ←! held;
  range ←! up (get_range (ia_range_id a));
  match rg_forward_dns_server_id range with
  | None => done tt
  | Some dns_id =>
      dns ←! up (get_dns_server dns_id);
      fwd ←! of_result (forward a (DnsRef_from_opt (rg_forward_zone_id range)));
      ret ←! up (retried (match br_id fwd with
                          | Some _ => remote (UpdateRecord dns fwd)
                          | None => remote (AddRecord dns fwd)
                          end : Op VmWorld BasicRecord));
      hold (set_forward (Some (br_name ret)) (ia_dns_forward_ref a)) ;!
      id ←! or_fatal (stored_ref ret) NoRecordId;
      hold (set_forward (Some (br_name ret)) (Some id))
  end.
Definition update_reverse_ip_dns : Cell unit :=
  a ←! held;
  range ←! up (get_range (ia_range_id a));
  match rg_reverse_dns_server_id range with
  | None => done tt
  | Some dns_id =>
      dns ←! up (get_dns_server dns_id);
      let has_ref := bool_decide (is_Some (ia_dns_reverse_ref a)) in
      let zone := DnsRef_from_opt (rg_reverse_zone_id range) in
      rev ←! of_result (if has_ref then reverse_record a zone else reverse_to_fwd a zone);
      ret ←! up (retried (if has_ref then remote (UpdateRecord dns rev) else remote (AddRecord dns rev) : Op VmWorld BasicRecord));
      hold (set_reverse (Some (br_value ret)) (ia_dns_reverse_ref a)) ;!
      id ←! or_fatal (stored_ref ret) NoRecordId;
      hold (set_reverse (Some (br_value ret)) (Some id))
  end.

Definition with_policy (range : RangeRow) (f : AccessPolicy -> Cell unit) : Cell unit :=
  match rg_access_policy_id range with
  | Some ap => ap ←! up (get_access_policy ap); f ap
  | None => done tt
  end.
Definition update_ip_assignment_access_policy (range : RangeRow) : Cell unit := with_policy range update_access_policy.
Definition remove_ip_assignment_access_policy (range : RangeRow) : Cell unit := with_policy range remove_access_policy.
Definition rollback_ip_assignment_policy (range : RangeRow) : Cell unit :=
  with_policy range remove_access_policy ;! remove_ip_dns.
Definition delete_ip_assignment (range : RangeRow) : Cell unit :=
  rollback_ip_assignment_policy range ;!
  a ←! held;
  up (update_vm_ip_assignment a) ;!
  up (delete_vm_ip_assignment (ia_id a)).
(** On a copy that the operation holds itself. *)
Definition local {A} (a : IpRow) (m : Cell A) : Op VmWorld A := fun w => let '(r, (_, w')) := m (a, w) in (r, w').
Fixpoint each {A} (f : A -> Op VmWorld unit) (l : list A) : Op VmWorld unit :=
  match l with [] => done tt | a :: l => f a ;! each f l end.
Definition delete_all_ip_assignments (vm : Z) : Op VmWorld unit :=
  ips ←! list_vm_ip_assignments vm;
  each (fun ip => range ←! get_range (ia_range_id ip); local ip (delete_ip_assignment range)) ips.
Definition persist_ip_assignment : Cell unit :=
  a ←! held;
  if ia_id a =? 0 then
    id ←! up (insert_vm_ip_row a);
    hold (fun a => set_row id (ia_deleted a) a)
  else up (update_vm_ip_assignment a).
Definition check_ip_assignment (range : RangeRow) : Cell unit :=
  a ←! held;
  match validate_ip_assignment (plain a) (rg_range range) with Ok _ => done tt | Err e => fatal (Picking e) end.
Definition update_ip_assignment_policy (range : RangeRow) : Cell unit :=
  update_ip_assignment_access_policy range ;! update_forward_ip_dns ;! update_reverse_ip_dns.
Definition save_ip_assignment : Cell unit :=
  a ←! held;
  range ←! up (get_range (ia_range_id a));
  check_ip_assignment range ;!
  update_ip_assignment_policy range ;!
  persist_ip_assignment.
(** [for ip in &mut ctx.info.ips] *)
Fixpoint each_ip (m : Cell unit) (l : list IpRow) (w : VmWorld) : option (OpResult unit NetFail) * (list IpRow * VmWorld) :=
  match l with
  | [] => (Some (Ok tt), ([], w))
  | a :: l =>
      match m (a, w) with
      | (Some (Ok _), (a', w')) => let '(r, (l', w'')) := each_ip m l w' in (r, (a' :: l', w''))
      | (r, (a', w')) => (r, (a' :: l, w'))
      end
  end.
End vm_net.
