(* ===== verification/VmLive.v ===== *)
(** * What exists at the services

    The log of calls says which ARP entries, DNS records and machines there are
    ([live]). This file has the program logic of operations ([post]), what is asked
    of the services ([reliable]) and the rules for queries and calls. *)

From Stdlib Require Import Ascii String.
From stdpp Require Import list gmap.
From S2P Require Import Prelude TryProcedure IpAlloc NetText Network VmNet.

(** ** Resources *)

Inductive Res : Type := ArpAt (r : Z) (id : string) | DnsAt (d : Z) (id : string) | VmAt (h vm : Z).
#[export] Instance Res_eq_dec : EqDecision Res.
Proof. solve_decision. Defined.
#[export] Instance Res_countable : Countable Res.
Proof.
  refine (inj_countable'
    (fun x => match x with ArpAt r i => inl (r, i) | DnsAt d i => inr (inl (d, i)) | VmAt h v => inr (inr (h, v)) end)
    (fun x => match x with inl (r, i) => ArpAt r i | inr (inl (d, i)) => DnsAt d i | inr (inr (h, v)) => VmAt h v end) _).
  by intros [].
Defined.

(** What a successful call changes. *)
Definition effect_of (c : RemoteCall) : Ans c -> gset Res -> gset Res :=
  match c return Ans c -> gset Res -> gset Res with
  | GenerateMac r _ _ => fun e l => match e ≫= arp_id with Some id => {[ArpAt r id]} ∪ l | None => l end
  | AddArp r _ => fun e l => match arp_id e with Some id => {[ArpAt r id]} ∪ l | None => l end
  | RemoveArp r id => fun _ l => l ∖ {[ArpAt r id]}
  | AddRecord d _ => fun rec l => match stored_ref rec with Some id => {[DnsAt d id]} ∪ l | None => l end
  | DeleteRecord d rec => fun _ l => match stored_ref rec with Some id => l ∖ {[DnsAt d id]} | None => l end
  | CreateVm h vm _ _ => fun _ l => {[VmAt h vm]} ∪ l
  | DeleteVm h vm => fun _ l => l ∖ {[VmAt h vm]}
  | _ => fun _ l => l
  end.
(** Only the two calls about machines change which machines there are. *)
Definition keeps_vms (c : RemoteCall) : bool := match c with CreateVm _ _ _ _ | DeleteVm _ _ => false | _ => true end.
Lemma effect_vms c a l h m : keeps_vms c = true -> VmAt h m ∈ effect_of c a l <-> VmAt h m ∈ l.
Proof.
  destruct c; try done; intros _; cbn -[elem_of]; try (destruct (_ ≫= arp_id)); try (destruct (arp_id _)); try (destruct (stored_ref _)); set_solver.
Qed.
Definition live1 (l : gset Res) (x : Logged) : gset Res :=
  match projT2 x with Ok a => effect_of (projT1 x) a l | Err _ => l end.
Definition live (w : VmWorld) : gset Res := foldl live1 ∅ (vw_log w).

(** ** A program logic for operations

    What holds of every answer; an operation that panics has none. *)

Section logic.
Context {S : Type}.
Definition post {A} (m : Op S A) (s : S) (Φ : OpResult A NetFail -> S -> Prop) : Prop :=
  forall r s', m s = (Some r, s') -> Φ r s'.
(** On success; a failure is as [Φ] says. *)
Definition on_ok {A B} (Φ : OpResult B NetFail -> S -> Prop) (k : A -> S -> Prop) (r : OpResult A NetFail) (s : S) : Prop :=
  match r with Ok a => k a s | Err e => Φ (Err e) s end.
Lemma post_mono {A} (m : Op S A) s (Φ Ψ : OpResult A NetFail -> S -> Prop) :
  post m s Φ -> (forall r s', Φ r s' -> Ψ r s') -> post m s Ψ.
Proof. unfold post. eauto. Qed.
Lemma post_and {A} (m : Op S A) s (Φ Ψ : OpResult A NetFail -> S -> Prop) :
  post m s Φ -> post m s Ψ -> post m s (fun r s' => Φ r s' /\ Ψ r s').
Proof. unfold post. eauto. Qed.
Lemma post_done {A} (a : A) s Φ : Φ (Ok a) s -> post (done a) s Φ.
Proof. by intros HP r s' [= <- <-]. Qed.
Lemma post_fatal {A} e s (Φ : OpResult A NetFail -> S -> Prop) : Φ (Err (Fatal e)) s -> post (fatal e) s Φ.
Proof. by intros HP r s' [= <- <-]. Qed.
Lemma post_bind {A B} (m : Op S A) (k : A -> Op S B) s Φ :
  post m s (on_ok Φ (fun a s => post (k a) s Φ)) -> post (op_bind m k) s Φ.
Proof.
  unfold post, op_bind. intros Hm r s'. destruct (m s) as [[[a|e]|] s1] eqn:E; [| |done].
  - apply (Hm _ _ eq_refl).
  - intros [= <- <-]. apply (Hm _ _ eq_refl).
Qed.
Lemma post_or_fatal {A} (o : option A) e s Φ :
  (forall a, o = Some a -> Φ (Ok a) s) -> (o = None -> Φ (Err (Fatal e)) s) -> post (or_fatal o e) s Φ.
Proof. destruct o; [intros; by apply post_done; auto|intros; by apply post_fatal; auto]. Qed.
Lemma post_result {A} (r : res NetFail A) s Φ :
  (forall a, r = Ok a -> Φ (Ok a) s) -> (forall e, r = Err e -> Φ (Err (Fatal e)) s) -> post (of_result r) s Φ.
Proof. destruct r; [intros; by apply post_done; auto|intros; by apply post_fatal; auto]. Qed.
Lemma post_warned {A} (m : Op S A) s Φ :
  post m s (fun r s' => match r with Ok a => Φ (Ok (Some a)) s' | Err _ => Φ (Ok None) s' end) -> post (warned m) s Φ.
Proof.
  unfold post, warned. intros Hm r s'. destruct (m s) as [[[a|e]|] s1] eqn:E; [| |done];
    intros [= <- <-]; exact (Hm _ _ eq_refl).
Qed.
End logic.
Lemma post_up {X S A} (m : Op S A) (x : X) s (Φ : OpResult A NetFail -> X * S -> Prop) :
  post m s (fun r s' => Φ r (x, s')) -> post (up m) (x, s) Φ.
Proof. unfold post, up. intros Hm r s'. destruct (m s) as [o s1]. intros [= -> <-]. by apply Hm. Qed.
Lemma post_held {X S} (x : X) (s : S) (Φ : OpResult X NetFail -> X * S -> Prop) : Φ (Ok x) (x, s) -> post held (x, s) Φ.
Proof. by intros HP r s' [= <- <-]. Qed.
Lemma post_hold {X S} f (x : X) (s : S) (Φ : OpResult unit NetFail -> X * S -> Prop) : Φ (Ok tt) (f x, s) -> post (hold f) (x, s) Φ.
Proof. by intros HP r s' [= <- <-]. Qed.
Lemma post_local {A} a (m : Cell A) w Φ : post m (a, w) (fun r s => Φ r s.2) -> post (local a m) w Φ.
Proof. unfold post, local. intros Hm r w'. destruct (m (a, w)) as [o [a' w1]]. intros [= -> <-]. by apply (Hm r (a', w1)). Qed.

(** ** The world under the operations *)

(** The same deployment, later. *)
Record since (w w' : VmWorld) : Prop := {
  si_ranges : vw_ranges w' = vw_ranges w; si_policies : vw_policies w' = vw_policies w;
  si_routers : vw_routers w' = vw_routers w; si_dns : vw_dns w' = vw_dns w; si_hosts : vw_hosts w' = vw_hosts w;
  si_grows : vw_log w `prefix_of` vw_log w'
}.
Lemma si_log w w' : since w w' -> (length (vw_log w) <= length (vw_log w'))%nat.
Proof. intros Hs. apply prefix_length, Hs. Qed.
(** The same rows. *)
Record still (w w' : VmWorld) : Prop := {
  st_since :> since w w'; st_vms : vw_vms w' = vw_vms w; st_ips : vw_ips w' = vw_ips w; st_next : vw_next_ip w' = vw_next_ip w
}.
(** The same resources as well. *)
Record quiet (w w' : VmWorld) : Prop := { qt_still :> still w w'; qt_live : live w' = live w }.
Definition same_vms (w w' : VmWorld) : Prop := forall h m, VmAt h m ∈ live w' <-> VmAt h m ∈ live w.
#[export] Instance same_vms_po : PreOrder same_vms.
Proof. split; [done|]. intros w1 w2 w3 H1 H2 h m. by rewrite (H2 h m). Qed.
#[export] Instance since_po : PreOrder since.
Proof. split; [by constructor|]. intros w1 w2 w3 [] []. constructor; (congruence || by etrans). Qed.
#[export] Instance still_po : PreOrder still.
Proof. split; [by constructor|]. intros w1 w2 w3 [] []. constructor; [by etrans|congruence..]. Qed.
#[export] Instance quiet_po : PreOrder quiet.
Proof. split; [by constructor|]. intros w1 w2 w3 [] []. constructor; [by etrans|congruence]. Qed.
Lemma quiet_vms w w' : quiet w w' -> same_vms w w'.
Proof. intros Hq h m. by rewrite (qt_live _ _ Hq). Qed.
Lemma quiet_bump w : quiet w (bump_queries w).
Proof. by repeat constructor. Qed.
Lemma live_push l w : live (push_log l w) = live1 (live w) l.
Proof. unfold live. cbn. by rewrite foldl_app. Qed.
Lemma still_push l w : still w (push_log l w).
Proof. constructor; [constructor|..]; try done. by exists [l]. Qed.
(** A call was answered so, after the first [n] calls of the log. *)
Definition answered_since (n : nat) (x : Logged) (w : VmWorld) : Prop := x ∈ drop n (vw_log w).
Lemma answered_mono n x w w' : since w w' -> answered_since n x w -> answered_since n x w'.
Proof. intros [_ _ _ _ _ [l E]]. unfold answered_since. rewrite E, drop_app. rewrite elem_of_app. by left. Qed.
Lemma answered_less n m x w : (n <= m)%nat -> answered_since m x w -> answered_since n x w.
Proof.
  unfold answered_since. intros Hle. replace m with (n + (m - n))%nat by lia. rewrite <- drop_drop.
  intros Hx. rewrite <- (take_drop (m - n) (drop n (vw_log w))). apply elem_of_app. by right.
Qed.
Lemma answered_push l w : answered_since (length (vw_log w)) l (push_log l w).
Proof. unfold answered_since. cbn. rewrite drop_app_length. apply list_elem_of_here. Qed.

Definition the_range (w : VmWorld) (id : Z) : option RangeRow := head (filter (fun r => r_id (rg_range r) = id) (vw_ranges w)).
Definition the_policy (w : VmWorld) (id : Z) : option AccessPolicy := head (filter (fun p => ap_id p = id) (vw_policies w)).
Definition the_router (w : VmWorld) (r : RangeRow) : option Z :=
  ap ← rg_access_policy_id r; p ← the_policy w ap; ap_router_id p.
Lemma the_range_since w w' : since w w' -> the_range w' = the_range w.
Proof. intros Hs. unfold the_range. by rewrite (si_ranges _ _ Hs). Qed.
Lemma the_policy_since w w' : since w w' -> the_policy w' = the_policy w.
Proof. intros Hs. unfold the_policy. by rewrite (si_policies _ _ Hs). Qed.
Lemma the_router_since w w' : since w w' -> the_router w' = the_router w.
Proof. intros Hs. unfold the_router. by rewrite (the_policy_since _ _ Hs). Qed.
Lemma head_filter {A} (P : A -> Prop) `{!forall x, Decision (P x)} (l : list A) x : head (filter P l) = Some x -> P x /\ x ∈ l.
Proof.
  intros Hx. assert (x ∈ filter P l) as Hin by (by destruct (filter P l); [|injection Hx as ->; left]).
  by apply list_elem_of_filter in Hin.
Qed.
Lemma head_filter_none {A} (P : A -> Prop) `{!forall x, Decision (P x)} (l : list A) x : head (filter P l) = None -> x ∈ l -> ~ P x.
Proof.
  intros Hn Hin HP. assert (x ∈ filter P l) as Hf by by apply list_elem_of_filter. by destruct (filter P l); [inversion Hf|].
Qed.
Lemma the_range_id w id r : the_range w id = Some r -> r_id (rg_range r) = id.
Proof. by intros [? _]%head_filter. Qed.

(** ** What the services promise

    Queries that read and change rows are answered (an insertion may fail); what can
    be opened is; a removal is answered; what is created has a name that is not in
    [base], and an update keeps it; a MAC address is well formed. *)

Section world.
Context `{!NetLib, !Services}.

Record reliable (good_mac : string -> Prop) (n0 : nat) (base : gset Res) : Prop := {
  rl_select : forall n, sql_ok n Select = true;
  rl_change : forall n, sql_ok n Change = true;
  rl_router : forall n r, answer n (OpenRouter r) = Ok tt;
  rl_dns : forall n d, answer n (OpenDns d) = Ok tt;
  rl_remove : forall n r id, answer n (RemoveArp r id) = Ok tt;
  rl_delete : forall n d rec, answer n (DeleteRecord d rec) = Ok tt;
  rl_delete_vm : forall n h vm, answer n (DeleteVm h vm) = Ok tt;
  rl_add_arp : forall n r e a, (n0 <= n)%nat -> answer n (AddArp r e) = Ok a ->
    exists id, arp_id a = Some id /\ ArpAt r id ∉ base;
  rl_update_arp : forall n r e a, answer n (UpdateArp r e) = Ok a -> arp_id a = arp_id e;
  rl_add_record : forall n d rec rec', (n0 <= n)%nat -> answer n (AddRecord d rec) = Ok rec' ->
    exists id, stored_ref rec' = Some id /\ DnsAt d id ∉ base /\ br_value rec' = br_value rec;
  rl_update_record : forall n d rec rec', answer n (UpdateRecord d rec) = Ok rec' ->
    stored_ref rec' = stored_ref rec /\ br_value rec' = br_value rec;
  rl_generate : forall n r ip c a, (n0 <= n)%nat -> answer n (GenerateMac r ip c) = Ok (Some a) ->
    good_mac (arp_mac_address a) /\ forall id, arp_id a = Some id -> ArpAt r id ∉ base;
  rl_host_mac : forall n h vm mac, answer n (HostMac h vm) = Ok mac -> good_mac mac
}.
Context (good_mac : string -> Prop) (n0 : nat) (base : gset Res) (RL : reliable good_mac n0 base).

(** ** Queries *)

Lemma post_query {A} (f : VmWorld -> A) w Φ : (forall w', quiet w w' -> Φ (Ok (f w)) w') -> post (query f) w Φ.
Proof using RL. intros HP r s' [= <- <-]. rewrite (rl_select _ _ _ RL). apply HP, quiet_bump. Qed.
Lemma post_query_one {A} (f : VmWorld -> list A) w Φ :
  (forall w' a, quiet w w' -> head (f w) = Some a -> Φ (Ok a) w') ->
  (forall w', quiet w w' -> head (f w) = None -> Φ (Err (Fatal RowNotFound)) w') -> post (query_one f) w Φ.
Proof using RL. intros Hs Hn. apply post_bind, post_query. intros w' Hq. apply post_or_fatal; auto. Qed.
Lemma post_statement f w Φ : (forall w', quiet w w' -> Φ (Ok tt) (f w')) -> post (statement f) w Φ.
Proof using RL. intros HP r s'. unfold statement. rewrite (rl_change _ _ _ RL). intros [= <- <-]. apply HP, quiet_bump. Qed.
Lemma post_get_range id w Φ : (forall w' r, quiet w w' -> the_range w id = Some r -> Φ (Ok r) w') ->
  (forall w' e, quiet w w' -> the_range w id = None -> Φ (Err e) w') -> post (get_range id) w Φ.
Proof using RL. intros Hok Hn. apply post_query_one; eauto. Qed.
Lemma post_get_access_policy id w Φ : (forall w' p, quiet w w' -> the_policy w id = Some p -> Φ (Ok p) w') ->
  (forall w' e, quiet w w' -> the_policy w id = None -> Φ (Err e) w') -> post (get_access_policy id) w Φ.
Proof using RL. intros Hok Hn. apply post_query_one; eauto. Qed.

(** ** Calls *)

(** A call that was answered, and what it changed. *)
Record called (c : RemoteCall) (a : Ans c) (w w' : VmWorld) : Prop := {
  cl_still :> still w w';
  cl_live : live w' = effect_of c a (live w);
  cl_answer : exists n, (length (vw_log w) <= n)%nat /\ answer n c = Ok a;
  cl_logged : answered_since (length (vw_log w)) (existT c (Ok a)) w'
}.
Lemma quiet_called c a w w1 w2 : quiet w w1 -> called c a w1 w2 -> called c a w w2.
Proof.
  intros [Hs Hl] [Hs' Hl' (n & Hle & Ha) Hg]. pose proof (si_log _ _ Hs). constructor; [by etrans|by rewrite Hl', Hl| |].
  - exists n. split; [lia|done].
  - by eapply answered_less.
Qed.
(** Where it changes nothing. *)
Lemma called_quiet c a w w' : (forall l, effect_of c a l = l) -> called c a w w' -> quiet w w'.
Proof. intros He [Hs Hl _ _]. constructor; [done|]. by rewrite Hl, He. Qed.
Lemma post_remote c w Φ : (forall w' a, called c a w w' -> Φ (Ok a) w') -> (forall w' e, quiet w w' -> Φ (Err e) w') ->
  post (remote c) w Φ.
Proof.
  intros Hok Herr r s' [= <- <-]. destruct (answer _ c) as [a|e] eqn:E.
  - apply Hok. constructor; [apply still_push|by rewrite live_push|by exists (length (vw_log w))|apply answered_push].
  - apply Herr. constructor; [apply still_push|by rewrite live_push].
Qed.
Lemma post_retried policy c w Φ : (forall w' a, called c a w w' -> Φ (Ok a) w') -> (forall w' e, quiet w w' -> Φ (Err e) w') ->
  post (retried policy (remote c)) w Φ.
Proof.
  intros Hok Herr r s'. unfold retried, retry_async.
  assert (forall fuel n w1 o w2, quiet w w1 ->
    retry_loop no_sleep fuel policy no_callback (remote c) n w1 = (Done o, w2) ->
    match o with Ok a => called c a w w2 | Err _ => quiet w w2 end) as Hloop.
  { intros fuel. induction fuel as [|fuel IH]; intros n w1 o w2 Hq; cbn [retry_loop]; [done|].
    unfold mbind, Async_bind, await at 1. destruct (remote c w1) as [[r1|] w3] eqn:Er; [|done].
    pose proof (post_remote c w1 (fun r w' => match r with Ok a => called c a w w' | Err _ => quiet w w' end)) as Hp.
    specialize (Hp ltac:(intros; cbn; by eapply quiet_called) ltac:(intros; cbn; by etrans) _ _ Er).
    destruct r1 as [a|[e|e]]; [by intros [= <- <-]| |by intros [= <- <-]].
    destruct (max_retries policy <=? n); [by intros [= <- <-]|].
    destruct (delay_for_attempt policy n) as [d|]; [|done].
    cbn [or_panic no_callback effect mret Async_ret]. by apply IH. }
  destruct (retry_loop _ _ _ _ _ _ _) as [[[a|e]| |] w2] eqn:El; [| |done|done]; apply Hloop in El; try done;
    intros [= <- <-]; auto.
Qed.
(** Where the answer is known. *)
Lemma post_remote_ok c w Φ a0 : (forall n, answer n c = Ok a0) -> (forall w', called c a0 w w' -> Φ (Ok a0) w') ->
  post (remote c) w Φ.
Proof.
  intros Ha HP r s' [= <- <-]. rewrite Ha. apply HP. constructor; [apply still_push|by rewrite live_push| |apply answered_push].
  by exists (length (vw_log w)).
Qed.
Lemma post_retried_ok policy c w Φ a0 : (forall n, answer n c = Ok a0) -> (forall w', called c a0 w w' -> Φ (Ok a0) w') ->
  post (retried policy (remote c)) w Φ.
Proof.
  intros Ha HP r s'. unfold retried, retry_async, retry_fuel. cbn [retry_loop].
  unfold mbind, Async_bind, await at 1, remote at 1. rewrite Ha. cbn. intros [= <- <-]. apply HP.
  constructor; [apply still_push|by rewrite live_push|by exists (length (vw_log w))|apply answered_push].
Qed.
Lemma post_get_router id w Φ : (forall w', quiet w w' -> id ∈ vw_routers w -> Φ (Ok id) w') ->
  (forall w' e, quiet w w' -> id ∉ vw_routers w -> Φ (Err e) w') -> post (get_router id) w Φ.
Proof using RL.
  intros Hok Hn. apply post_bind, post_query_one.
  - intros w1 r Hq [-> Hin]%head_filter. apply post_bind. eapply post_remote_ok; [intros; apply (rl_router _ _ _ RL)|].
    intros w2 Hc. apply post_done, Hok; [|done]. etrans; [exact Hq|]. exact (called_quiet (OpenRouter _) tt _ _ (fun l => eq_refl) Hc).
  - intros w1 Hq Hh. apply Hn; [done|]. intros Hin. by eapply head_filter_none in Hh.
Qed.
Lemma post_get_dns_server id w Φ : (forall w', quiet w w' -> id ∈ vw_dns w -> Φ (Ok id) w') ->
  (forall w' e, quiet w w' -> id ∉ vw_dns w -> Φ (Err e) w') -> post (get_dns_server id) w Φ.
Proof using RL.
  intros Hok Hn. apply post_bind, post_query_one.
  - intros w1 r Hq [-> Hin]%head_filter. apply post_bind. eapply post_remote_ok; [intros; apply (rl_dns _ _ _ RL)|].
    intros w2 Hc. apply post_done, Hok; [|done]. etrans; [exact Hq|]. exact (called_quiet (OpenDns _) tt _ _ (fun l => eq_refl) Hc).
  - intros w1 Hq Hh. apply Hn; [done|]. intros Hin. by eapply head_filter_none in Hh.
Qed.
End world.
