(* ===== verification/VmCell.v ===== *)
(** * One address and the resources it owns

    The ARP entry and the DNS records that a row refers to are its own ([owned]).
    What exists is kept between what was there before and what the addresses own
    ([sandwich]): each operation on an address keeps it so, and the ones that remove
    let go of what the address owned. *)

From Stdlib Require Import Ascii String.
From stdpp Require Import list gmap.
From S2P Require Import Prelude TryProcedure IpAlloc NetText Network VmNet VmLive.

(** ** What a row refers to *)

Definition ref_at (f : Z -> string -> Res) (server : option Z) (r : option string) : gset Res :=
  match server, r with Some s, Some id => {[f s id]} | _, _ => ∅ end.
Definition arp_of (w : VmWorld) (a : IpRow) : gset Res :=
  ref_at ArpAt (the_range w (ia_range_id a) ≫= the_router w) (ia_arp_ref a).
Definition fwd_of (w : VmWorld) (a : IpRow) : gset Res :=
  ref_at DnsAt (the_range w (ia_range_id a) ≫= rg_forward_dns_server_id) (ia_dns_forward_ref a).
Definition rev_of (w : VmWorld) (a : IpRow) : gset Res :=
  ref_at DnsAt (the_range w (ia_range_id a) ≫= rg_reverse_dns_server_id) (ia_dns_reverse_ref a).
Definition owned (w : VmWorld) (a : IpRow) : gset Res := arp_of w a ∪ (fwd_of w a ∪ rev_of w a).
Lemma owned_since w w' a : since w w' ->
  arp_of w' a = arp_of w a /\ fwd_of w' a = fwd_of w a /\ rev_of w' a = rev_of w a /\ owned w' a = owned w a.
Proof.
  intros Hs. unfold owned, arp_of, fwd_of, rev_of. by rewrite (the_range_since _ _ Hs), (the_router_since _ _ Hs).
Qed.

(** The same address. *)
Record fixed (a a' : IpRow) : Prop := {
  fx_id : ia_id a' = ia_id a; fx_vm : ia_vm_id a' = ia_vm_id a; fx_range : ia_range_id a' = ia_range_id a;
  fx_ip : ia_ip a' = ia_ip a; fx_deleted : ia_deleted a' = ia_deleted a
}.
#[export] Instance fixed_po : PreOrder fixed.
Proof. split; [by constructor|]. intros a1 a2 a3 [] []. constructor; congruence. Qed.
(** It refers to the same at the router, in the forward and in the reverse zone. *)
Definition same_arp (a a' : IpRow) : Prop := ia_arp_ref a' = ia_arp_ref a.
Definition same_fwd (a a' : IpRow) : Prop := ia_dns_forward a' = ia_dns_forward a /\ ia_dns_forward_ref a' = ia_dns_forward_ref a.
Definition same_rev (a a' : IpRow) : Prop := ia_dns_reverse a' = ia_dns_reverse a /\ ia_dns_reverse_ref a' = ia_dns_reverse_ref a.

Section cell.
Context `{!NetLib, !Services}.
Context (good_mac : string -> Prop) (n0 : nat) (base : gset Res) (RL : reliable good_mac n0 base).

(** *** Between [base] and [X] *)

Record sandwich (X : gset Res) (w : VmWorld) : Prop := {
  sw_ge : base ⊆ live w; sw_le : live w ⊆ base ∪ X; sw_new : base ## X
}.
Lemma sw_mono X Y w : X ⊆ Y -> base ## Y -> sandwich X w -> sandwich Y w.
Proof. intros HX HY [H1 H2 H3]. constructor; [done|set_solver +H2 HX|done]. Qed.
Lemma sw_eq X Y w w' : sandwich X w -> X = Y -> live w' = live w -> sandwich Y w'.
Proof. by intros [] -> Hl; constructor; try rewrite Hl. Qed.
Lemma sw_quiet X w w' : quiet w w' -> sandwich X w -> sandwich X w'.
Proof. intros Hq Hs. eapply sw_eq; [exact Hs|done|apply Hq]. Qed.
Lemma sw_add x X w w' : sandwich X w -> live w' = {[x]} ∪ live w -> x ∉ base -> sandwich ({[x]} ∪ X) w'.
Proof. intros [H1 H2 H3] Hl Hx. constructor; [set_solver +H1 Hl|set_solver +H2 Hl|set_solver +H3 Hx]. Qed.
Lemma sw_del x X w w' : sandwich X w -> live w' = live w ∖ {[x]} -> x ∉ base -> sandwich (X ∖ {[x]}) w'.
Proof. intros [H1 H2 H3] Hl Hx. constructor; [set_solver +H1 Hl Hx|set_solver +H2 Hl|set_solver +H3 Hx]. Qed.
Lemma sw_out x X w : sandwich X w -> x ∈ X -> x ∉ base.
Proof. intros [_ _ H3] Hx. set_solver +H3 Hx. Qed.

(** *** An address whose resources can be removed *)

Record sound (w : VmWorld) (a : IpRow) (rg : RangeRow) : Prop := {
  so_range : the_range w (ia_range_id a) = Some rg;
  so_arp : is_Some (ia_arp_ref a) -> (exists net, parse_net (ia_ip a) = Some net /\ is_v4 net = true) /\
    forall ap, rg_access_policy_id rg = Some ap -> exists p r, the_policy w ap = Some p /\ ap_router_id p = Some r /\ r ∈ vw_routers w;
  so_net : is_Some (parse_net (ia_ip a));
  so_fwd : is_Some (ia_dns_forward_ref a) -> forall d, rg_forward_dns_server_id rg = Some d ->
    d ∈ vw_dns w /\ is_Some (parse_ip (ia_ip a));
  so_rev : is_Some (ia_dns_reverse_ref a) -> forall d, rg_reverse_dns_server_id rg = Some d ->
    d ∈ vw_dns w /\ exists rec, reverse_record a (DnsRef_from_opt (rg_reverse_zone_id rg)) = Ok rec
}.
Lemma sound_since w w' a rg : since w w' -> sound w' a rg <-> sound w a rg.
Proof.
  intros Hs. pose proof (the_range_since _ _ Hs) as Hr. pose proof (the_policy_since _ _ Hs) as Hp.
  destruct Hs as [_ _ Hro Hd _ _].
  split; intros [H1 H2 H3 H4 H5]; constructor; rewrite ?Hr, ?Hp, ?Hro, ?Hd in *; done.
Qed.
Lemma sound_set_arp w a rg x : sound w a rg ->
  (is_Some x -> (exists net, parse_net (ia_ip a) = Some net /\ is_v4 net = true) /\
    forall ap, rg_access_policy_id rg = Some ap -> exists p r, the_policy w ap = Some p /\ ap_router_id p = Some r /\ r ∈ vw_routers w) ->
  sound w (set_arp_ref x a) rg.
Proof. intros [H1 H2 H3 H4 H5] Hx. by constructor. Qed.
Lemma sound_set_forward w a rg name x : sound w a rg ->
  (is_Some x -> forall d, rg_forward_dns_server_id rg = Some d -> d ∈ vw_dns w /\ is_Some (parse_ip (ia_ip a))) ->
  sound w (set_forward name x a) rg.
Proof. intros [H1 H2 H3 H4 H5] Hx. by constructor. Qed.
Lemma sound_set_reverse w a rg name x : sound w a rg ->
  (is_Some x -> forall d, rg_reverse_dns_server_id rg = Some d -> d ∈ vw_dns w /\
    exists rec, reverse_record (set_reverse name x a) (DnsRef_from_opt (rg_reverse_zone_id rg)) = Ok rec) ->
  sound w (set_reverse name x a) rg.
Proof. intros [H1 H2 H3 H4 H5] Hx. by constructor. Qed.

(** What an operation on an address finds, and what it leaves. *)
Record ready (w : VmWorld) (a : IpRow) (rg : RangeRow) (F : gset Res) : Prop := {
  rd_sound : sound w a rg; rd_sandwich : sandwich (owned w a ∪ F) w; rd_log : (n0 <= length (vw_log w))%nat
}.
Record after (w w' : VmWorld) (a a' : IpRow) (rg : RangeRow) (F : gset Res) : Prop := {
  af_fixed : fixed a a'; af_still : still w w'; af_ready : ready w' a' rg F; af_vms : same_vms w w'
}.
Lemma ready_quiet w w' a rg F : quiet w w' -> ready w a rg F -> ready w' a rg F.
Proof.
  intros Hq [H1 H2 H3]. pose proof (st_since _ _ (qt_still _ _ Hq)) as Hs. constructor.
  - by apply (sound_since w w').
  - destruct (owned_since w w' a Hs) as (_ & _ & _ & ->). by eapply sw_quiet.
  - pose proof (si_log _ _ Hs). lia.
Qed.
Lemma after_quiet w w' a rg F : quiet w w' -> ready w a rg F -> after w w' a a rg F.
Proof. intros Hq Hr. constructor; [done|apply Hq|by eapply ready_quiet|by apply quiet_vms]. Qed.
Lemma after_trans w w1 w' a a1 a' rg F : after w w1 a a1 rg F -> after w1 w' a1 a' rg F -> after w w' a a' rg F.
Proof. intros [] []. constructor; [by etrans|by etrans|done|by etrans]. Qed.
(** A call that was answered, and the new row. *)
Lemma after_called c x w w1 w' a a' rg F : keeps_vms c = true -> quiet w w1 -> called c x w1 w' -> fixed a a' -> ready w a rg F -> sound w a' rg ->
  (forall w2, sandwich (owned w a ∪ F) w2 -> live w' = effect_of c x (live w2) -> sandwich (owned w a' ∪ F) w') ->
  after w w' a a' rg F.
Proof.
  intros Hk Hq Hc Hf [R1 R2 R3] Hs Hw. assert (still w w') as Ht by (etrans; [apply Hq|apply Hc]).
  constructor; [done|done| |].
  2: { intros h m. by rewrite (cl_live _ _ _ _ Hc), effect_vms, (qt_live _ _ Hq). }
  constructor.
  - by apply (sound_since w w' _ _ (st_since _ _ Ht)).
  - destruct (owned_since w w' a' (st_since _ _ Ht)) as (_ & _ & _ & ->).
    apply (Hw w1); [by eapply sw_quiet|apply Hc].
  - pose proof (si_log _ _ (st_since _ _ Ht)). lia.
Qed.
End cell.

(** One step of an operation. *)
Ltac op_step :=
  lazymatch goal with
  | |- post (op_bind _ _) _ _ => apply post_bind
  | |- post held _ _ => apply post_held
  | |- post (hold _) _ _ => apply post_hold
  | |- post (up _) _ _ => apply post_up
  | |- post (done _) _ _ => apply post_done
  | |- post (fatal _) _ _ => apply post_fatal
  | |- post (warned _) _ _ => apply post_warned
  | |- post (if ?b then _ else _) _ _ => match type of b with bool => destruct b eqn:? end
  | |- post (let x := _ in _) _ _ => cbv zeta
  end; cbn [on_ok].
Ltac op_steps := cbn [on_ok]; repeat op_step.
(** What was quiet since the first world. *)
Ltac quiets :=
  repeat match goal with
  | H1 : quiet ?a ?b, H2 : quiet ?b ?c |- _ =>
      let H := fresh "Hq" in pose proof (transitivity H1 H2 : quiet a c) as H; clear H2
  end.

Section ops.
Context `{!NetLib, !Services} (policy : RetryPolicy).
Context (good_mac : string -> Prop) (n0 : nat) (base : gset Res) (RL : reliable good_mac n0 base).
Notation ready := (ready n0 base).
Notation after := (after n0 base).

(** ** The ARP entry *)

Lemma owned_set_arp w a rg x : the_range w (ia_range_id a) = Some rg ->
  owned w (set_arp_ref x a) = ref_at ArpAt (the_router w rg) x ∪ (fwd_of w a ∪ rev_of w a).
Proof. intros Hr. unfold owned, arp_of. cbn. by rewrite Hr. Qed.
(** Only the reference at the router may have changed; an error left all as it was. *)
Definition arp_only (w : VmWorld) (a : IpRow) (r : OpResult unit NetFail) (s : IpRow * VmWorld) : Prop :=
  same_fwd a s.1 /\ same_rev a s.1 /\ arp_of w a ⊆ arp_of w s.1 /\
  match r with Ok _ => True | Err _ => s.1 = a /\ quiet w s.2 end.
Lemma arp_only_quiet w a r w' : quiet w w' -> arp_only w a r (a, w').
Proof. intros Hq. split_and!; try done. by destruct r. Qed.
Lemma update_policy_after a w rg F : ready w a rg F ->
  post (update_ip_assignment_access_policy rg) (a, w) (fun r s => after w s.2 a s.1 rg F /\ arp_only w a r s).
Proof using RL.
  intros Hr. unfold update_ip_assignment_access_policy, with_policy.
  assert (forall r w', quiet w w' -> after w w' a a rg F /\ arp_only w a r (a, w')) as Hquiet
    by (intros; split; [by apply after_quiet|by apply arp_only_quiet]).
  destruct (rg_access_policy_id rg) as [ap|] eqn:Eap; op_steps; [|by apply Hquiet].
  apply (post_get_access_policy _ _ _ RL); intros w1; [intros p Hq1 Ep|intros e Hq1 Ep; by apply Hquiet].
  unfold update_access_policy. op_steps. apply post_or_fatal; [|intros _; by apply Hquiet].
  intros net Enet. op_steps; [|by apply Hquiet].
  apply post_or_fatal; [|intros _; by apply Hquiet]. intros r Er. op_steps.
  apply (post_get_router _ _ _ RL); intros w2; [intros Hq2 Hin|intros e Hq2 Hin; quiets; by apply Hquiet].
  op_steps. apply (post_query_one _ _ _ RL); intros w3; [intros vm Hq3 _|intros Hq3 _; quiets; by apply Hquiet].
  op_steps. apply post_result; [|intros e _; quiets; by apply Hquiet].
  intros en Een. assert (arp_id en = ia_arp_ref a) as Eid.
  { revert Een. unfold ArpEntry_new. destruct (negb _); [|done]. by intros [= <-]. }
  assert (forall x, sound w (set_arp_ref x a) rg) as Hs.
  { intros x. apply sound_set_arp; [apply Hr|]. intros _. split.
    - exists net. split; [done|]. revert Heqb. unfold apply_arp. by destruct (ap_kind p).
    - intros ap' [= <-]%(eq_trans (eq_sym Eap)). exists p, r. split_and!; [done|done|].
      by rewrite <- (si_routers _ _ (st_since _ _ (qt_still _ _ Hq1))). }
  pose proof (so_range _ _ _ (rd_sound _ _ _ _ _ _ Hr)) as Hrg.
  assert (the_router w rg = Some r) as Hro by (unfold the_router; rewrite Eap; cbn; by rewrite Ep).
  assert (forall id, arp_of w (set_arp_ref (Some id) a) = {[ArpAt r id]}) as Harp
    by (intros id; unfold arp_of; cbn; by rewrite Hrg; cbn; rewrite Hro).
  quiets. op_steps. destruct (ia_arp_ref a) as [s|] eqn:Heqo.
  - apply (post_remote (UpdateArp r en)); intros w4; [intros a1 Hc|intros e Hq4; quiets; by apply Hquiet]. op_steps.
    destruct (cl_answer _ _ _ _ Hc) as (n & _ & Ha). apply (rl_update_arp _ _ _ RL) in Ha. rewrite Ha, Eid.
    op_steps. cbn [fst snd]. split.
    + eapply (after_called _ _ (UpdateArp r en)); [done| |exact Hc|by constructor|done|done|]; [done|].
      intros w5 Hw Hl. eapply sw_eq; [exact Hw| |exact Hl]. f_equal. rewrite (owned_set_arp _ _ _ _ Hrg), Hro.
      unfold owned, arp_of. by rewrite Hrg, Heqo; cbn; rewrite Hro.
    + unfold arp_only. cbn [fst snd]. split_and!; [done|done| |done]. rewrite Harp. unfold arp_of. by rewrite Hrg, Heqo; cbn; rewrite Hro.
  - apply (post_remote (AddArp r en)); intros w4; [intros a1 Hc|intros e Hq4; quiets; by apply Hquiet]. op_steps.
    destruct (cl_answer _ _ _ _ Hc) as (n & Hn & Ha). apply (rl_add_arp _ _ _ RL) in Ha as (id & Ea & Hnew).
    2: { pose proof (rd_log _ _ _ _ _ _ Hr). pose proof (si_log _ _ (st_since _ _ (qt_still _ _ Hq0))). lia. }
    rewrite Ea. op_steps. cbn [fst snd]. split.
    + eapply (after_called _ _ (AddArp r en)); [done| |exact Hc|by constructor|done|done|]; [done|].
      intros w5 Hw Hl. cbn in Hl. rewrite Ea in Hl. eapply sw_eq; [by apply (sw_add _ _ _ _ _ Hw Hl)| |done].
      rewrite (owned_set_arp _ _ _ _ Hrg), Hro. unfold owned, arp_of. rewrite Hrg, Heqo. cbn. rewrite Hro. cbn. set_solver.
    + unfold arp_only. cbn [fst snd]. split_and!; [done|done| |done]. unfold arp_of at 1. rewrite Hrg, Heqo. cbn. rewrite Hro. apply empty_subseteq.
Qed.
(** An entry that the router lists under the address of the row is not in [base]. *)
Definition unlisted (a : IpRow) : Prop := ia_arp_ref a = None -> forall n r l e id,
  answer n (ListArp r) = Ok l -> e ∈ l -> arp_address e = ia_ip a -> arp_id e = Some id -> ArpAt r id ∉ base.
Definition arp_gone (w : VmWorld) (a : IpRow) (r : OpResult unit NetFail) (s : IpRow * VmWorld) : Prop :=
  same_fwd a s.1 /\ same_rev a s.1 /\ (r = Ok tt -> arp_of w s.1 = ∅) /\ (is_Some (ia_arp_ref a) -> r = Ok tt).
Lemma remove_policy_after a w rg F : ready w a rg F -> unlisted a ->
  post (remove_ip_assignment_access_policy policy rg) (a, w) (fun r s => after w s.2 a s.1 rg F /\ arp_gone w a r s).
Proof using RL.
  intros Hr Hun. unfold remove_ip_assignment_access_policy, with_policy.
  pose proof (rd_sound _ _ _ _ _ _ Hr) as Hso. pose proof (so_range _ _ _ Hso) as Hrg.
  assert (forall r w', quiet w w' -> (is_Some (ia_arp_ref a) -> r = Ok tt) -> (r = Ok tt -> arp_of w a = ∅) ->
    after w w' a a rg F /\ arp_gone w a r (a, w')) as Hquiet by (intros; split; [by apply after_quiet|by split_and!]).
  assert (forall e w', quiet w w' -> ~ is_Some (ia_arp_ref a) -> after w w' a a rg F /\ arp_gone w a (Err e) (a, w')) as Herr
    by (intros; by apply Hquiet).
  destruct (rg_access_policy_id rg) as [ap|] eqn:Eap; op_steps.
  2: { apply Hquiet; [done|done|]. intros _. unfold arp_of. rewrite Hrg. cbn. unfold the_router. by rewrite Eap. }
  assert (is_Some (ia_arp_ref a) -> exists net, parse_net (ia_ip a) = Some net /\ is_v4 net = true) as Hnet by apply Hso.
  assert (is_Some (ia_arp_ref a) -> exists p r, the_policy w ap = Some p /\ ap_router_id p = Some r /\ r ∈ vw_routers w) as Hpol.
  { intros Hx. by apply (so_arp _ _ _ Hso). }
  apply (post_get_access_policy _ _ _ RL); intros w1; [intros p Hq1 Ep|intros e Hq1 Ep; apply Herr; [done|]].
  2: { intros (? & ? & E & _)%Hpol. by rewrite Ep in E. }
  assert (forall net, parse_net (ia_ip a) = Some net -> apply_arp p net = is_v4 net) as Hap
    by (intros; unfold apply_arp; by destruct (ap_kind p)).
  unfold remove_access_policy. op_steps. apply post_or_fatal; [intros net Enet|intros Enet; apply Herr; [done|]].
  2: { intros (? & E & _)%Hnet. by rewrite Enet in E. }
  assert (ia_arp_ref a = None -> arp_of w a = ∅) as Hnone by (unfold arp_of; intros ->; by destruct (_ ≫= _)).
  cbn [on_ok]. rewrite (Hap _ Enet). op_steps.
  2: { apply Hquiet; [done|done|]. intros _. apply Hnone. destruct (ia_arp_ref a); [|done].
    destruct Hnet as (? & E & ?); [done|]. congruence. }
  apply post_or_fatal; [intros r Er|intros Er; apply Herr; [done|]].
  2: { intros (? & ? & E & E' & _)%Hpol. congruence. }
  op_steps. apply (post_get_router _ _ _ RL); intros w2; [intros Hq2 Hin|intros e Hq2 Hin; quiets; apply Herr; [done|]].
  2: { intros (? & ? & E & E' & E'')%Hpol. apply Hin. rewrite (si_routers _ _ (st_since _ _ (qt_still _ _ Hq1))). congruence. }
  quiets. assert (the_router w rg = Some r) as Hro by (unfold the_router; rewrite Eap; cbn; by rewrite Ep).
  (* taking the entry [id] away *)
  assert (forall id w3, quiet w w3 -> (arp_of w a ⊆ {[ArpAt r id]}) -> ArpAt r id ∉ base ->
    post (op_bind (op_bind (warned (up (retried policy (remote (RemoveArp r id)))) : Cell (option unit)) (fun _ => done tt))
            (fun _ => hold (set_arp_ref None))) (a, w3) (fun r s => after w s.2 a s.1 rg F /\ arp_gone w a r s)) as Htake.
  { intros id w3 Hq3 Hsub Hout. op_steps.
    apply (post_retried_ok policy (RemoveArp r id) _ _ tt); [intros; apply (rl_remove _ _ _ RL)|]. intros w4 Hc. op_steps. cbn [fst snd]. split.
    - eapply (after_called _ _ (RemoveArp r id)); [done| |exact Hc|by constructor|done| |]; [done|by apply sound_set_arp; [|intros []]|].
      intros w5 Hw Hl. eapply sw_mono; [| |by eapply (sw_del _ _ _ _ _ Hw Hl)].
      + rewrite (owned_set_arp _ _ _ _ Hrg), Hro. unfold owned. cbn. set_solver +Hsub.
      + destruct Hw as [_ _ Hn]. rewrite (owned_set_arp _ _ _ _ Hrg), Hro. unfold owned in Hn. cbn. set_solver +Hn.
    - unfold arp_gone. cbn [fst snd]. split_and!; [done|done| |done]. intros _. unfold arp_of. cbn. by rewrite Hrg; cbn; rewrite Hro. }
  unfold find_arp. destruct (ia_arp_ref a) as [id|] eqn:Eref; [|specialize (Hnone eq_refl)].
  - apply post_bind, post_up, post_done. cbn [on_ok]. apply Htake; [done| |].
    + unfold arp_of. rewrite Hrg, Eref. cbn. by rewrite Hro.
    + eapply sw_out; [apply Hr|]. unfold owned, arp_of. rewrite Hrg, Eref. cbn. rewrite Hro. set_solver.
  - op_steps. apply (post_remote (ListArp r)); intros w3; [intros l Hc|intros e Hq3; quiets; by apply Herr; [|intros []]].
    cbn [on_ok]. apply post_done. assert (quiet w w3) as Hq3 by (etrans; [exact Hq|exact (called_quiet (ListArp r) l _ _ (fun l => eq_refl) Hc)]).
    cbn [on_ok].
    match goal with |- post (op_bind (match ?o with _ => _ end) _) _ _ => destruct o as [id|] eqn:Ef end.
    + apply Htake; [done|by rewrite Hnone|]. destruct (cl_answer _ _ _ _ Hc) as (n & _ & Ha).
      apply bind_Some in Ef as (e & Ee & Eid). apply head_filter in Ee as [Eaddr Hin']. by eapply Hun.
    + op_steps. cbn [fst snd]. split.
      * eapply (after_called _ _ (ListArp r)); [done| |exact Hc|by constructor|done| |]; [done|by apply sound_set_arp; [|intros []]|].
        intros w5 Hw Hl. eapply sw_eq; [exact Hw| |exact Hl]. rewrite (owned_set_arp _ _ _ _ Hrg), Hro. unfold owned.
        by rewrite Hnone.
      * unfold arp_gone. cbn [fst snd]. split_and!; [done|done| |done]. intros _. unfold arp_of. cbn. by rewrite Hrg; cbn; rewrite Hro.
Qed.

(** ** The DNS records *)

Definition fwd_only (w : VmWorld) (a a' : IpRow) : Prop := same_arp a a' /\ same_rev a a' /\ fwd_of w a ⊆ fwd_of w a'.
Definition rev_only (w : VmWorld) (a a' : IpRow) : Prop := same_arp a a' /\ same_fwd a a' /\ rev_of w a ⊆ rev_of w a'.
Lemma owned_set_forward w a rg name x : the_range w (ia_range_id a) = Some rg ->
  owned w (set_forward name x a) = arp_of w a ∪ (ref_at DnsAt (rg_forward_dns_server_id rg) x ∪ rev_of w a).
Proof. intros Hr. unfold owned, fwd_of. cbn. by rewrite Hr. Qed.
Lemma owned_set_reverse w a rg name x : the_range w (ia_range_id a) = Some rg ->
  owned w (set_reverse name x a) = arp_of w a ∪ (fwd_of w a ∪ ref_at DnsAt (rg_reverse_dns_server_id rg) x).
Proof. intros Hr. unfold owned, rev_of. cbn. by rewrite Hr. Qed.
Lemma fwd_of_at w a rg : the_range w (ia_range_id a) = Some rg ->
  fwd_of w a = ref_at DnsAt (rg_forward_dns_server_id rg) (ia_dns_forward_ref a).
Proof. intros Hr. unfold fwd_of. by rewrite Hr. Qed.
Lemma rev_of_at w a rg : the_range w (ia_range_id a) = Some rg ->
  rev_of w a = ref_at DnsAt (rg_reverse_dns_server_id rg) (ia_dns_reverse_ref a).
Proof. intros Hr. unfold rev_of. by rewrite Hr. Qed.
Lemma forward_ok a zone rec : forward a zone = Ok rec ->
  is_Some (parse_ip (ia_ip a)) /\ br_id rec = Id <$> ia_dns_forward_ref a.
Proof. unfold forward. destruct (parse_ip _); [|done]. cbn. by intros [= <-]. Qed.
Lemma ptr_ok a zone name rec : ptr_record a zone name = Ok rec ->
  is_Some (parse_ip (ia_ip a)) /\ br_id rec = Id <$> ia_dns_reverse_ref a /\ name = Some (br_value rec) /\
  is_valid_fqdn (br_value rec) = true.
Proof.
  unfold ptr_record. destruct (parse_ip _); [|done]. destruct name as [n|]; [|done]. cbn. unfold ensure.
  destruct (is_valid_fqdn n) eqn:En; [|done]. by intros [= <-].
Qed.
Lemma ptr_valid a zone v : is_Some (parse_ip (ia_ip a)) -> is_valid_fqdn v = true ->
  exists rec, ptr_record a zone (Some v) = Ok rec.
Proof. intros [ip Hip] Hv. unfold ptr_record. rewrite Hip. cbn. unfold ensure. rewrite Hv. eexists. done. Qed.

Lemma update_forward_after a w rg F : ready w a rg F ->
  post (update_forward_ip_dns policy) (a, w) (fun r s => after w s.2 a s.1 rg F /\ fwd_only w a s.1).
Proof using RL.
  intros Hr. unfold update_forward_ip_dns. pose proof (rd_sound _ _ _ _ _ _ Hr) as Hso.
  pose proof (so_range _ _ _ Hso) as Hrg.
  assert (forall w', quiet w w' -> after w w' a a rg F /\ fwd_only w a a) as Hquiet by (split; [by apply after_quiet|done]).
  op_steps. apply (post_get_range _ _ _ RL); intros w1; [intros rg' Hq1 E|intros e Hq1 _; by apply Hquiet].
  simplify_eq. cbn [on_ok]. destruct (rg_forward_dns_server_id rg) as [d|] eqn:Ed; op_steps; [|by apply Hquiet].
  apply (post_get_dns_server _ _ _ RL); intros w2; [intros Hq2 Hin|intros e Hq2 _; quiets; by apply Hquiet].
  quiets. op_steps. apply post_result; [intros rec Erec|intros e _; by apply Hquiet].
  apply forward_ok in Erec as [Hip Eid]. op_steps. rewrite Eid.
  assert (forall name x, sound w (set_forward name x (set_forward name (ia_dns_forward_ref a) a)) rg) as Hs.
  { intros name x. apply (sound_set_forward w a); [done|]. intros _ d' Hd'. simplify_eq.
    by rewrite <- (si_dns _ _ (st_since _ _ (qt_still _ _ Hq1))). }
  destruct (ia_dns_forward_ref a) as [id|] eqn:Eref; cbn [fmap option_fmap option_map].
  - apply (post_retried policy (UpdateRecord d rec)); intros w3; [intros ret Hc|intros e Hq3; quiets; by apply Hquiet].
    destruct (cl_answer _ _ _ _ Hc) as (n & _ & Ha). apply (rl_update_record _ _ _ RL) in Ha as [Es _].
    assert (stored_ref ret = Some id) as Es' by (rewrite Es; unfold stored_ref; by rewrite Eid).
    op_steps. rewrite Es'. cbn [or_fatal]. op_steps. cbn [fst snd]. split.
    + eapply (after_called _ _ (UpdateRecord d rec)); [done| |exact Hc|by constructor|done|by apply Hs|]; [done|].
      intros w5 Hw Hl. eapply sw_eq; [exact Hw| |exact Hl]. rewrite (owned_set_forward _ _ rg), Ed by done.
      unfold owned. by rewrite (fwd_of_at _ _ _ Hrg), Ed, Eref.
    + split_and!; [done|done|]. by rewrite !(fwd_of_at _ _ rg), Eref by done.
  - apply (post_retried policy (AddRecord d rec)); intros w3; [intros ret Hc|intros e Hq3; quiets; by apply Hquiet].
    destruct (cl_answer _ _ _ _ Hc) as (n & Hn & Ha). apply (rl_add_record _ _ _ RL) in Ha as (id & Es & Hnew & _).
    2: { pose proof (rd_log _ _ _ _ _ _ Hr). pose proof (si_log _ _ (st_since _ _ (qt_still _ _ Hq))). lia. }
    op_steps. rewrite Es. cbn [or_fatal]. op_steps. cbn [fst snd]. split.
    + eapply (after_called _ _ (AddRecord d rec)); [done| |exact Hc|by constructor|done|by apply Hs|]; [done|].
      intros w5 Hw Hl. cbn in Hl. rewrite Es in Hl. eapply sw_eq; [by apply (sw_add _ _ _ _ _ Hw Hl)| |done].
      rewrite (owned_set_forward _ _ rg), Ed by done. unfold owned. rewrite (fwd_of_at _ _ _ Hrg), Ed, Eref. cbn. set_solver.
    + split_and!; [done|done|]. rewrite !(fwd_of_at _ _ rg), Eref, Ed by done. apply empty_subseteq.
Qed.
Lemma update_reverse_after a w rg F : ready w a rg F ->
  post (update_reverse_ip_dns policy) (a, w) (fun r s => after w s.2 a s.1 rg F /\ rev_only w a s.1).
Proof using RL.
  intros Hr. unfold update_reverse_ip_dns. pose proof (rd_sound _ _ _ _ _ _ Hr) as Hso.
  pose proof (so_range _ _ _ Hso) as Hrg.
  assert (forall w', quiet w w' -> after w w' a a rg F /\ rev_only w a a) as Hquiet by (split; [by apply after_quiet|done]).
  op_steps. apply (post_get_range _ _ _ RL); intros w1; [intros rg' Hq1 E|intros e Hq1 _; by apply Hquiet].
  simplify_eq. cbn [on_ok]. destruct (rg_reverse_dns_server_id rg) as [d|] eqn:Ed; op_steps; [|by apply Hquiet].
  apply (post_get_dns_server _ _ _ RL); intros w2; [intros Hq2 Hin|intros e Hq2 _; quiets; by apply Hquiet].
  quiets. op_steps. set (zone := DnsRef_from_opt (rg_reverse_zone_id rg)).
  apply post_result; [intros rec Erec|intros e _; by apply Hquiet].
  assert (is_Some (parse_ip (ia_ip a)) /\ br_id rec = Id <$> ia_dns_reverse_ref a /\ is_valid_fqdn (br_value rec) = true)
    as (Hip & Eid & Hfq).
  { case_bool_decide; apply ptr_ok in Erec as (? & ? & _ & ?); done. }
  assert (forall x v, is_valid_fqdn v = true -> sound w (set_reverse (Some v) x (set_reverse (Some v) (ia_dns_reverse_ref a) a)) rg) as Hs.
  { intros x v Hv. apply (sound_set_reverse w a); [done|]. intros _ d' Hd'. simplify_eq. split.
    - by rewrite <- (si_dns _ _ (st_since _ _ (qt_still _ _ Hq1))).
    - by apply ptr_valid. }
  op_steps. clear Erec. destruct (ia_dns_reverse_ref a) as [id|] eqn:Eref; cbn.
  - apply (post_retried policy (UpdateRecord d rec)); intros w3; [intros ret Hc|intros e Hq3; quiets; by apply Hquiet].
    destruct (cl_answer _ _ _ _ Hc) as (n & _ & Ha). apply (rl_update_record _ _ _ RL) in Ha as [Es Ev].
    assert (stored_ref ret = Some id) as Es' by (rewrite Es; unfold stored_ref; by rewrite Eid).
    op_steps. rewrite Es'. cbn [or_fatal]. op_steps. cbn [fst snd]. split.
    + eapply (after_called _ _ (UpdateRecord d rec)); [done| |exact Hc|by constructor|done|apply Hs; by rewrite Ev|]; [done|].
      intros w5 Hw Hl. eapply sw_eq; [exact Hw| |exact Hl]. rewrite (owned_set_reverse _ _ rg), Ed by done.
      unfold owned. by rewrite (rev_of_at _ _ _ Hrg), Ed, Eref.
    + split_and!; [done|done|]. by rewrite !(rev_of_at _ _ rg), Eref by done.
  - apply (post_retried policy (AddRecord d rec)); intros w3; [intros ret Hc|intros e Hq3; quiets; by apply Hquiet].
    destruct (cl_answer _ _ _ _ Hc) as (n & Hn & Ha). apply (rl_add_record _ _ _ RL) in Ha as (id & Es & Hnew & Ev).
    2: { pose proof (rd_log _ _ _ _ _ _ Hr). pose proof (si_log _ _ (st_since _ _ (qt_still _ _ Hq))). lia. }
    op_steps. rewrite Es. cbn [or_fatal]. op_steps. cbn [fst snd]. split.
    + eapply (after_called _ _ (AddRecord d rec)); [done| |exact Hc|by constructor|done|apply Hs; by rewrite Ev|]; [done|].
      intros w5 Hw Hl. cbn in Hl. rewrite Es in Hl. eapply sw_eq; [by apply (sw_add _ _ _ _ _ Hw Hl)| |done].
      rewrite (owned_set_reverse _ _ rg), Ed by done. unfold owned. rewrite (rev_of_at _ _ _ Hrg), Ed, Eref. cbn. set_solver.
    + split_and!; [done|done|]. rewrite !(rev_of_at _ _ rg), Eref, Ed by done. apply empty_subseteq.
Qed.

Lemma remove_reverse_after a w rg F : ready w a rg F -> post (remove_reverse policy rg) (a, w) (fun r s =>
  r = Ok tt /\ after w s.2 a s.1 rg F /\ same_arp a s.1 /\ same_fwd a s.1 /\ rev_of w s.1 = ∅).
Proof using RL.
  intros Hr. unfold remove_reverse. pose proof (rd_sound _ _ _ _ _ _ Hr) as Hso. pose proof (so_range _ _ _ Hso) as Hrg.
  op_steps. destruct (rg_reverse_dns_server_id rg) as [d|] eqn:Ed, (ia_dns_reverse_ref a) as [id|] eqn:Eref; op_steps.
  2,3,4: split_and!; [done|by apply after_quiet|done|done|cbn [fst]; by rewrite (rev_of_at _ _ _ Hrg), Ed, ?Eref].
  destruct (so_rev _ _ _ Hso) with d as (Hd & rec & Erec); [by rewrite Eref|done|].
  apply (post_get_dns_server _ _ _ RL); intros w2; [intros Hq2 Hin|intros e _ Hin; by destruct Hin].
  op_steps. rewrite Erec. cbn [of_result]. op_steps.
  apply (post_retried_ok policy (DeleteRecord d rec) _ _ tt); [intros; apply (rl_delete _ _ _ RL)|]. intros w3 Hc. op_steps.
  cbn [fst snd]. apply ptr_ok in Erec as (_ & Eid & _). rewrite Eref in Eid.
  assert (rev_of w (set_reverse None None a) = ∅) as Hgone by (by rewrite (rev_of_at _ _ rg), Ed by done).
  split_and!; [done| |done|done|done].
  eapply (after_called _ _ (DeleteRecord d rec)); [done| |exact Hc|by constructor|done|by apply sound_set_reverse; [|intros []]|]; [done|].
  intros w5 Hw Hl. cbn in Hl. unfold stored_ref in Hl. rewrite Eid in Hl. cbn in Hl.
  eapply sw_mono; [| |apply (sw_del _ _ _ _ _ Hw Hl)].
  - rewrite (owned_set_reverse _ _ rg), Ed by done. unfold owned. rewrite (rev_of_at w a _ Hrg), Ed, Eref. cbn. set_solver.
  - destruct Hw as [_ _ Hn]. rewrite (owned_set_reverse _ _ rg), Ed by done. unfold owned in Hn. cbn. set_solver +Hn.
  - eapply (sw_out _ _ _ _ Hw). unfold owned. rewrite (rev_of_at w a _ Hrg), Ed, Eref. cbn. set_solver.
Qed.
Lemma remove_forward_after a w rg F : ready w a rg F -> post (remove_forward policy rg) (a, w) (fun r s =>
  r = Ok tt /\ after w s.2 a s.1 rg F /\ same_arp a s.1 /\ same_rev a s.1 /\ fwd_of w s.1 = ∅).
Proof using RL.
  intros Hr. unfold remove_forward. pose proof (rd_sound _ _ _ _ _ _ Hr) as Hso. pose proof (so_range _ _ _ Hso) as Hrg.
  op_steps. destruct (rg_forward_dns_server_id rg) as [d|] eqn:Ed, (ia_dns_forward_ref a) as [id|] eqn:Eref; op_steps.
  2,3,4: split_and!; [done|by apply after_quiet|done|done|cbn [fst]; by rewrite (fwd_of_at _ _ _ Hrg), Ed, ?Eref].
  destruct (so_fwd _ _ _ Hso) with d as (Hd & addr & Eip); [by rewrite Eref|done|].
  apply (post_get_dns_server _ _ _ RL); intros w2; [intros Hq2 Hin|intros e _ Hin; by destruct Hin].
  op_steps. apply post_result; [intros rec Erec|intros e; unfold forward; by rewrite Eip]. op_steps.
  apply (post_retried_ok policy (DeleteRecord d rec) _ _ tt); [intros; apply (rl_delete _ _ _ RL)|]. intros w3 Hc. op_steps.
  cbn [fst snd]. apply forward_ok in Erec as (_ & Eid). rewrite Eref in Eid.
  assert (fwd_of w (set_forward None None a) = ∅) as Hgone by (by rewrite (fwd_of_at _ _ rg), Ed by done).
  split_and!; [done| |done|done|done].
  eapply (after_called _ _ (DeleteRecord d rec)); [done| |exact Hc|by constructor|done|by apply sound_set_forward; [|intros []]|]; [done|].
  intros w5 Hw Hl. cbn in Hl. unfold stored_ref in Hl. rewrite Eid in Hl. cbn in Hl.
  eapply sw_mono; [| |apply (sw_del _ _ _ _ _ Hw Hl)].
  - rewrite (owned_set_forward _ _ rg), Ed by done. unfold owned. rewrite (fwd_of_at w a _ Hrg), Ed, Eref. cbn. set_solver.
  - destruct Hw as [_ _ Hn]. rewrite (owned_set_forward _ _ rg), Ed by done. unfold owned in Hn. cbn. set_solver +Hn.
  - eapply (sw_out _ _ _ _ Hw). unfold owned. rewrite (fwd_of_at w a _ Hrg), Ed, Eref. cbn. set_solver.
Qed.
Lemma remove_ip_dns_after a w rg F : ready w a rg F -> post (remove_ip_dns policy) (a, w) (fun r s =>
  r = Ok tt /\ after w s.2 a s.1 rg F /\ same_arp a s.1 /\ fwd_of w s.1 = ∅ /\ rev_of w s.1 = ∅).
Proof using RL.
  intros Hr. unfold remove_ip_dns. pose proof (so_range _ _ _ (rd_sound _ _ _ _ _ _ Hr)) as Hrg.
  op_steps. apply (post_get_range _ _ _ RL); intros w1; [intros rg' Hq1 E|intros e _ Hn; congruence].
  simplify_eq. cbn [on_ok]. pose proof (ready_quiet _ _ _ _ _ _ _ Hq1 Hr) as Hr1.
  apply post_bind. eapply post_mono; [by apply remove_reverse_after|]. intros r [a2 w2]. cbn [fst snd].
  intros (-> & Haf & Harp & _ & Hrev). cbn [on_ok].
  eapply post_mono; [eapply remove_forward_after, af_ready, Haf|]. intros r [a3 w3]. cbn [fst snd].
  intros (-> & Haf' & Harp' & [_ Hrev'] & Hfwd).
  pose proof (after_trans _ _ _ _ _ _ _ _ _ _ (after_quiet _ _ _ _ _ _ _ Hq1 Hr) (after_trans _ _ _ _ _ _ _ _ _ _ Haf Haf')) as Hall.
  pose proof (owned_since _ _ a3 (st_since _ _ (qt_still _ _ Hq1))) as (_ & Ef1 & Er1 & _).
  pose proof (owned_since _ _ a3 (st_since _ _ (af_still _ _ _ _ _ _ _ _ Haf))) as (_ & Ef2 & Er2 & _).
  split_and!; [done|done| | |].
  - unfold same_arp in *. congruence.
  - by rewrite <- Ef1, <- Ef2.
  - rewrite <- Hrev, <- Er1. unfold rev_of. by rewrite Hrev', (fx_range _ _ (af_fixed _ _ _ _ _ _ _ _ Haf')).
Qed.
End ops.

(** ** All the addresses of a machine *)

Definition owned_all (w : VmWorld) (l : list IpRow) : gset Res := ⋃ (owned w <$> l).
Lemma owned_all_since w w' l : since w w' -> owned_all w' l = owned_all w l.
Proof.
  intros Hs. unfold owned_all. f_equal. apply list_fmap_ext. intros i a _. by destruct (owned_since w w' a Hs) as (_ & _ & _ & ->).
Qed.

Section all.
Context `{!NetLib, !Services} (n0 : nat) (base : gset Res).

Record all_ready (w : VmWorld) (l : list IpRow) (X : gset Res) : Prop := {
  ar_sound : Forall (fun a => exists rg, sound w a rg) l;
  ar_sandwich : sandwich base (owned_all w l ∪ X) w;
  ar_log : (n0 <= length (vw_log w))%nat
}.
(** What an operation does to every address: [G] of each, [D] of each on success, and
    [K] of the answer. *)
Lemma each_ip_after (w0 : VmWorld) (m : Cell unit) (Pre : IpRow -> Prop) (G D : IpRow -> IpRow -> Prop) (K : OpResult unit NetFail -> Prop) :
  (forall a, G a a) -> K (Ok tt) ->
  (forall a w F rg, Pre a -> still w0 w -> ready n0 base w a rg F -> post m (a, w) (fun r s =>
    after n0 base w s.2 a s.1 rg F /\ G a s.1 /\ (r = Ok tt -> D a s.1) /\ K r)) ->
  forall l w X, Forall Pre l -> still w0 w -> all_ready w l X -> forall r l' w', each_ip m l w = (Some r, (l', w')) ->
    still w w' /\ all_ready w' l' X /\ Forall2 (fun a a' => fixed a a' /\ G a a') l l' /\ (r = Ok tt -> Forall2 D l l') /\ K r /\ same_vms w w'.
Proof.
  intros Grefl HK Hm. induction l as [|a l IH]; intros w X Hpre Hw Hr r l' w'; cbn [each_ip].
  { intros [= <- <- <-]. split_and!; [done|done|constructor|by constructor|done|done]. }
  destruct Hr as [[[rg Hs] Hss]%Forall_cons Hsw Hlog]. apply Forall_cons in Hpre as [Ha Hpre].
  assert (ready n0 base w a rg (owned_all w l ∪ X)) as Hra.
  { constructor; [done| |done]. eapply sw_eq; [exact Hsw| |done]. unfold owned_all. cbn. by rewrite assoc_L by apply _. }
  destruct (m (a, w)) as [[o|] [a1 w1]] eqn:Em; [|done].
  destruct (Hm _ _ _ _ Ha Hw Hra _ _ Em) as ([Hf Ht [R1 R2 R3] Hvm] & HG & HH & HK'). cbn [fst snd] in *.
  pose proof (owned_all_since w w1 l (st_since _ _ Ht)) as Ho.
  assert (all_ready w1 l (owned w1 a1 ∪ X)) as Hr1.
  { constructor; [|eapply sw_eq; [exact R2| |done]; rewrite Ho; set_solver|done].
    eapply Forall_impl; [exact Hss|]. intros a2 [rg2 H2]. exists rg2. by apply (sound_since _ _ _ _ (st_since _ _ Ht)). }
  destruct o as [[]|e].
  - destruct (each_ip m l w1) as [o2 [l2 w2]] eqn:El. intros [= -> <- <-].
    destruct (IH w1 _ Hpre (transitivity Hw Ht) Hr1 _ _ _ El) as (Ht2 & [S1 S2 S3] & HF & HHF & HK2 & Hvm2).
    split_and!; [by etrans| |by constructor|intros Hok; constructor; auto|done|by etrans].
    pose proof (owned_since w1 w2 a1 (st_since _ _ Ht2)) as (_ & _ & _ & Ho2).
    constructor; [|eapply sw_eq; [exact S2| |done]; unfold owned_all; cbn; rewrite Ho2; set_solver|done].
    constructor; [|done]. exists rg. by apply (sound_since _ _ _ _ (st_since _ _ Ht2)).
  - intros [= <- <- <-]. split_and!; [done| | |done|done|done].
    + destruct Hr1 as [S1 S2 S3]. constructor; [by constructor; [exists rg|]| |done].
      eapply sw_eq; [exact S2| |done]. unfold owned_all. cbn. set_solver.
    + constructor; [done|]. apply Forall_Forall2_diag, Forall_forall. done.
Qed.
End all.
