(* ===== verification/VmSpawn.v ===== *)
(** * Machines on their hosts
    ([lnvps_api/src/provisioner/vm.rs]: spawning, deleting, re-installing)

    Spawning a machine is a pipeline of six steps with their rollbacks over a context
    that holds the machine, its addresses and their ranges. *)

From Stdlib Require Import Ascii String.
From stdpp Require Import list pretty.
From S2P Require Import Prelude TryProcedure IpAlloc NetText Network VmNet.

Record SpawnVmContext := {
  sc_vm : VmRow; sc_host : HostRow; sc_ips : list IpRow; sc_ranges : list RangeRow; sc_generated_mac : option ArpEntry
}.
Definition set_sc_ips (ips : list IpRow) (c : SpawnVmContext) : SpawnVmContext :=
  {| sc_vm := sc_vm c; sc_host := sc_host c; sc_ips := ips; sc_ranges := sc_ranges c; sc_generated_mac := sc_generated_mac c |}.
Definition set_sc_mac (mac : string) (gen : option ArpEntry) (c : SpawnVmContext) : SpawnVmContext :=
  {| sc_vm := set_mac mac (sc_vm c); sc_host := sc_host c; sc_ips := sc_ips c; sc_ranges := sc_ranges c; sc_generated_mac := gen |}.
(** [if !ranges.iter().any(|r| r.id == range.id) { push }] *)
Definition push_range (r : RangeRow) (c : SpawnVmContext) : SpawnVmContext :=
  if existsb (fun r' => r_id (rg_range r') =? r_id (rg_range r)) (sc_ranges c) then c else
  {| sc_vm := sc_vm c; sc_host := sc_host c; sc_ips := sc_ips c; sc_ranges := sc_ranges c ++ [r];
     sc_generated_mac := sc_generated_mac c |}.

Section spawn.
Context `{!NetLib, !Rand, !HexLib, !Services} (policy : RetryPolicy).
Context (shuffle : list IpRange -> list IpRange) (fuel : nat).

(** The [?] that turns an [anyhow] error into a fatal one. *)
Definition fatally {S A} (m : Op S A) : Op S A := fun s =>
  match m s with (Some (Err e), s') => (Some (Err (Fatal (into_inner e))), s') | r => r end.
Definition InSpawn (A : Type) : Type := Op (SpawnVmContext * VmWorld) A.
(** [for ip in &mut ctx.info.ips] *)
Definition on_ips (m : Cell unit) : InSpawn unit := fun '(c, w) =>
  let '(r, (l, w')) := each_ip m (sc_ips c) w in (r, (set_sc_ips l c, w')).

(** *** [FullVmInfo::load], of the rows that spawning uses *)

Definition load (vm_id : Z) : Op VmWorld SpawnVmContext := fatally (
  vm ←! get_vm_row vm_id;
  host ←! get_host (vr_host_id vm);
  or_fatal (vr_ssh_key_id vm) NoSshKey ;!
  ips ←! list_vm_ip_assignments vm_id;
  ranges ←! query (fun w => filter (fun r => r_id (rg_range r) ∈ ia_range_id <$> ips) (vw_ranges w));
  done {| sc_vm := vm; sc_host := host; sc_ips := ips; sc_ranges := ranges; sc_generated_mac := None |}).
Definition get_host_client (h : HostRow) : Op VmWorld Z := fatally (remote (OpenHost (hr_id h)) ;! done (hr_id h)).

(** *** [SpawnVmContext] *)

Definition get_range_router (range : RangeRow) : Op VmWorld (option Z) :=
  match rg_access_policy_id range with
  | None => done None
  | Some ap =>
      ap ←! get_access_policy ap;
      match ap_router_id ap with
      | Some rid => r ←! get_router rid; done (Some r)
      | None => done None
      end
  end.
Definition generate_mac (router : option Z) (a : IpRow) : Op VmWorld (option ArpEntry) :=
  match router with
  | Some r => fatally (remote (GenerateMac r (ia_ip a) (vm_name "VM" (ia_vm_id a))))
  | None => done None
  end.
Definition assign_mac (a : IpRow) : InSpawn IpRow :=
  c ←! held;
  match sc_generated_mac c with
  | Some mac => hold (set_sc_mac (arp_mac_address mac) (Some mac)) ;! done a
  | None =>
      range ←! up (get_range (ia_range_id a));
      hold (push_range range) ;!
      router ←! up (get_range_router range);
      gen ←! up (generate_mac router a);
      match gen with
      | Some mac =>
          hold (set_sc_mac (arp_mac_address mac) (Some mac)) ;!
          done (set_arp_ref (arp_id mac) a)
      | None =>
          mac ←! up (remote (HostMac (hr_id (sc_host c)) (vr_id (sc_vm c))) : Op VmWorld string);
          hold (set_sc_mac mac (Some {| arp_id := None; arp_address := ia_ip a; arp_mac_address := mac;
                                        arp_interface := None; arp_comment := None |})) ;!
          done a
      end
  end.
Definition pick_ips (region : Z) : Op VmWorld AvailableIps := fun w =>
  if sql_ok (vw_queries w) Select then
    match pick_ip_for_region shuffle fuel (net_db w) region with
    | None | Some (Err Panic) => (None, bump_queries w)
    | Some (Err e) => (Some (Err (Fatal (Picking e))), bump_queries w)
    | Some (Ok a) => (Some (Ok a), bump_queries w)
    end
  else (Some (Err (Fatal Sql)), bump_queries w).
Definition push_ip (a : IpRow) : InSpawn unit := hold (fun c => set_sc_ips (sc_ips c ++ [a]) c).
Definition assign_v6 (v6 : AvailableIp) : InSpawn unit :=
  c ←! held;
  match v6_to_allocation v6 (vr_id (sc_vm c)) (vr_mac_address (sc_vm c)) with
  | Err e => fatal (Picking e)
  | Ok (v6, a) =>
      push_ip (new_assignment (vr_id (sc_vm c)) (av_range_id v6) (a_ip a)) ;!
      if existsb (fun r => r_id (rg_range r) =? av_range_id v6) (sc_ranges c) then done tt
      else range ←! up (get_range (av_range_id v6)); hold (push_range range)
  end.
Definition assign_ips : InSpawn unit :=
  c ←! held;
  match sc_ips c with
  | _ :: _ => done tt
  | [] =>
      ip ←! up (pick_ips (hr_region_id (sc_host c)));
      match ip4 ip with
      | None => fatal NoIpv4
      | Some v4 =>
          a ←! assign_mac (new_assignment (vr_id (sc_vm c)) (av_range_id v4) (show_ip (addr_of (av_ip v4))));
          push_ip a
      end ;!
      match ip6 ip with None => done tt | Some v6 => assign_v6 v6 end
  end.
(** The router of the first assigned range that has one. *)
Fixpoint find_router (ips : list IpRow) (ranges : list RangeRow) : Op VmWorld (option Z) :=
  match ips with
  | [] => done None
  | a :: ips =>
      match head (filter (fun r => r_id (rg_range r) = ia_range_id a) ranges) with
      | None => find_router ips ranges
      | Some range =>
          r ←! get_range_router range;
          match r with Some r => done (Some r) | None => find_router ips ranges end
      end
  end.
Definition rollback_assign_ips : InSpawn unit :=
  c ←! held;
  match m ← sc_generated_mac c; arp_id m with
  | None => done tt
  | Some id =>
      router ←! up (find_router (sc_ips c) (sc_ranges c));
      match router with
      | Some r => warned (up (remote (RemoveArp r id))) ;! done tt
      | None => done tt
      end
  end ;!
  if String.eqb (vr_mac_address (sc_vm c)) UNASSIGNED_MAC then done tt else
  hold (fun c => set_sc_mac UNASSIGNED_MAC (sc_generated_mac c) c) ;!
  up (update_vm (set_mac UNASSIGNED_MAC (sc_vm c))).

(** *** The steps *)

Definition ip_allocation : InSpawn unit := assign_ips ;! c ←! held; up (update_vm (sc_vm c)).
Definition host_spawn : InSpawn unit :=
  c ←! held;
  up (remote (CreateVm (hr_id (sc_host c)) (vr_id (sc_vm c)) (vr_mac_address (sc_vm c)) (ia_ip <$> sc_ips c)) : Op VmWorld unit).
Definition host_unspawn : InSpawn unit :=
  c ←! held; up (remote (DeleteVm (hr_id (sc_host c)) (vr_id (sc_vm c))) : Op VmWorld unit).
Definition arp_setup_ip : Cell unit :=
  a ←! held;
  range ←! up (get_range (ia_range_id a));
  check_ip_assignment range ;! update_ip_assignment_access_policy range.
Definition arp_remove_ip : Cell unit :=
  a ←! held;
  match ia_arp_ref a with
  | None => done tt
  | Some _ => range ←! up (get_range (ia_range_id a)); remove_ip_assignment_access_policy policy range
  end.
Definition dns_forward_ip : Cell unit := warned (update_forward_ip_dns policy) ;! done tt.
Definition dns_reverse_ip : Cell unit := warned (update_reverse_ip_dns policy) ;! done tt.
Definition dns_unforward_ip : Cell unit :=
  a ←! held; match ia_dns_forward_ref a with Some _ => remove_ip_dns policy | None => done tt end.
Definition dns_unreverse_ip : Cell unit :=
  a ←! held; match ia_dns_reverse_ref a with Some _ => remove_ip_dns policy | None => done tt end.
Definition save_ip : Cell unit := a ←! held; if ia_id a =? 0 then persist_ip_assignment else done tt.
Definition unsave_ips : InSpawn unit :=
  c ←! held;
  up (delete_all_ip_assignments policy (vr_id (sc_vm c))) ;!
  up (hard_delete_vm_ip_assignments_by_vm_id (vr_id (sc_vm c))).

Definition spawn_pipeline (c : SpawnVmContext) : @Pipeline SpawnVmContext VmWorld NetFail :=
  step_with_rollback "save_ips" (on_ips save_ip) unsave_ips (
  step_with_rollback "dns_reverse" (on_ips dns_reverse_ip) (on_ips dns_unreverse_ip) (
  step_with_rollback "dns_forward" (on_ips dns_forward_ip) (on_ips dns_unforward_ip) (
  step_with_rollback "arp_setup" (on_ips arp_setup_ip) (on_ips arp_remove_ip) (
  step_with_rollback "host_spawn" host_spawn host_unspawn (
  step_with_rollback "ip_allocation" ip_allocation rollback_assign_ips (
  with_retry_policy policy (Pipeline_new c))))))).
Definition spawn_vm_pipeline (read_only : bool) (vm_id : Z) : Op VmWorld (@Pipeline SpawnVmContext VmWorld NetFail) :=
  if read_only then fatal ReadOnly else
  c ←! load vm_id;
  get_host_client (sc_host c) ;!
  done (spawn_pipeline c).

(** ** The other operations *)

(** [pipeline.execute().await?] *)
Definition execute {C} (p : @Pipeline C VmWorld NetFail) : Op VmWorld unit := fun w =>
  match Pipeline_execute no_sleep p w with
  | (Done (Ok _), w') => (Some (Ok tt), w')
  | (Done (Err e), w') => (Some (Err (Fatal e)), w')
  | (TryProcedure.Panic, w') | (Stuck, w') => (None, w')
  end.
Definition host_of (vm_id : Z) : Op VmWorld (VmRow * Z) :=
  vm ←! get_vm_row vm_id; host ←! get_host (vr_host_id vm); client ←! get_host_client host; done (vm, client).
Definition delete_vm (vm_id : Z) (purge : bool) : Op VmWorld unit :=
  x ←! host_of vm_id;
  execute (
    step "delete_vm_db" (up (if purge then purge_vm_row vm_id else delete_vm_row vm_id)) (
    step "delete_ips" (up (delete_all_ip_assignments policy vm_id)) (
    step "host_delete_vm" (up (remote (DeleteVm x.2 (vr_id x.1)) : Op VmWorld unit)) (
    Pipeline_new tt)))).
Definition reinstall_vm (read_only : bool) (vm_id : Z) : Op VmWorld unit :=
  if read_only then fatal ReadOnly else
  c ←! load vm_id;
  h ←! get_host_client (sc_host c);
  execute (
    step "start_vm" (up (remote (StartVm h (vr_id (sc_vm c))) : Op VmWorld unit)) (
    step "import_template_disk" (up (remote (ImportDisk h (vr_id (sc_vm c))) : Op VmWorld unit)) (
    step "unlink_disk" (up (remote (UnlinkDisk h (vr_id (sc_vm c))) : Op VmWorld unit)) (
    step "stop_vm" (up (remote (StopVm h (vr_id (sc_vm c))) : Op VmWorld unit)) (
    with_retry_policy policy (Pipeline_new tt)))))).
Definition start_vm (vm_id : Z) : Op VmWorld unit :=
  x ←! host_of vm_id; (remote (StartVm x.2 (vr_id x.1)) : Op VmWorld unit).
Definition stop_vm (vm_id : Z) : Op VmWorld unit :=
  x ←! host_of vm_id; (remote (StopVm x.2 (vr_id x.1)) : Op VmWorld unit).
Definition apply_vm_config_to_host (vm_id : Z) : Op VmWorld unit :=
  c ←! load vm_id;
  h ←! get_host_client (sc_host c);
  (remote (ConfigureVm h (vr_id (sc_vm c))) : Op VmWorld unit).
(** The worker runs the pipeline where it is. *)
Definition spawn_vm (read_only : bool) (vm_id : Z) : Op VmWorld unit :=
  p ←! spawn_vm_pipeline read_only vm_id; execute p.
End spawn.
