(* ===== verification/VmStages.v ===== *)
(** * The stages of a spawn

    What holds of the context and the world between the steps of the spawning
    pipeline ([Stage], [Fresh]), and that each step leads from its stage to the next
    and each rollback back. *)

From Stdlib Require Import Ascii String.
From stdpp Require Import list gmap.
From S2P Require Import Prelude TryProcedure IpAlloc NetText Network VmNet VmLive VmCell VmSpawn.

Section stages.
Context `{NL : !NetLib, RD : !Rand, HX : !HexLib, SV : !Services} (policy : RetryPolicy).
Context (shuffle : list IpRange -> list IpRange) (fuel : nat).
Context (good_mac : string -> Prop) (w0 : VmWorld) (v : VmRow).
Notation base := (live w0).
Notation n0 := (length (vw_log w0)).
Context (RL : reliable good_mac n0 base).

(** ** The machine and the choice of its addresses *)

(** A row of its own, the placeholder MAC address, no addresses and nothing at its
    host. *)
Record blank : Prop := {
  bl_row : v ∈ vw_vms w0; bl_key : forall v', v' ∈ vw_vms w0 -> vr_id v' = vr_id v -> v' = v;
  bl_mac : vr_mac_address v = UNASSIGNED_MAC;
  bl_ips : forall a, a ∈ vw_ips w0 -> ia_vm_id a = vr_id v -> ia_deleted a = true;
  bl_next : 0 < vw_next_ip w0;
  bl_new : VmAt (vr_host_id v) (vr_id v) ∉ base
}.
(** An address that the router has no part in, and that its range takes. *)
Definition easy (a : IpRow) : Prop := exists rg net,
  the_range w0 (ia_range_id a) = Some rg /\ parse_net (ia_ip a) = Some net /\ is_v4 net = false /\
  validate_ip_assignment (plain a) (rg_range rg) = Ok tt /\
  forall ap, rg_access_policy_id rg = Some ap -> is_Some (the_policy w0 ap).
(** What the choice of addresses comes to: an IPv4 address, and an IPv6 address that
    every good MAC address makes one of its range. *)
Definition placeable : Prop := forall h ips, h ∈ vw_hosts w0 ->
  pick_ip_for_region shuffle fuel (net_db w0) (hr_region_id h) = Some (Ok ips) ->
  (forall v4, ip4 ips = Some v4 -> exists net, parse_net (show_ip (addr_of (av_ip v4))) = Some net /\ is_v4 net = true) /\
  (forall v6 mac, ip6 ips = Some v6 -> good_mac mac -> exists v6' a, v6_to_allocation v6 (vr_id v) mac = Ok (v6', a) /\
    easy (new_assignment (vr_id v) (av_range_id v6') (a_ip a))).
(** ** The tables *)

Definition vms_with (mac : string) : list VmRow :=
  (fun old => if decide (vr_id old = vr_id v) then set_mac mac v else old) <$> vw_vms w0.
Lemma vms_blank (BL : blank) : vms_with UNASSIGNED_MAC = vw_vms w0.
Proof.
  unfold vms_with. trans (id <$> vw_vms w0); [|apply list_fmap_id]. apply Forall_fmap_ext_1, Forall_forall. intros x Hx.
  case_decide as Hid; [|done]. apply (bl_key BL) in Hid as ->; [|done]. destruct v eqn:Ev. unfold set_mac. cbn.
  f_equal. rewrite <- (bl_mac BL). by rewrite Ev.
Qed.
Lemma update_vm_with mac mac' w (Hw : vw_vms w = vms_with mac) Φ :
  (forall w', since w w' -> vw_ips w' = vw_ips w -> vw_next_ip w' = vw_next_ip w -> live w' = live w ->
    vw_vms w' = vms_with mac' -> Φ (Ok tt) w') ->
  post (update_vm (set_mac mac' v)) w Φ.
Proof using RL.
  intros HP. apply (post_statement _ _ _ RL). intros w1 [[[] Hv Hi Hn] Hl].
  apply HP; [by constructor|exact Hi|exact Hn|exact Hl|]. cbn. rewrite Hv, Hw. unfold vms_with. rewrite <- list_fmap_compose.
  apply list_fmap_ext. intros i x _. unfold compose. destruct (decide (vr_id x = vr_id v)) as [Hid|Hid]; cbn.
  - by rewrite decide_True.
  - by rewrite decide_False.
Qed.

(** ** Stages *)

Definition mac_of (c : SpawnVmContext) : string := vr_mac_address (sc_vm c).
Record in_ctx (c : SpawnVmContext) (w : VmWorld) : Prop := {
  ic_vm : sc_vm c = set_mac (mac_of c) v; ic_host : hr_id (sc_host c) = vr_host_id v; ic_hosts : sc_host c ∈ vw_hosts w0;
  ic_ranges : forall rg, rg ∈ sc_ranges c -> the_range w0 (r_id (rg_range rg)) = Some rg;
  ic_since : since w0 w; ic_next : 0 < vw_next_ip w
}.
(** The entry that came with the MAC address: the router of the first address holds it. *)
Definition gen_at (c : SpawnVmContext) (g : gset Res) : Prop :=
  match sc_generated_mac c ≫= arp_id with
  | None => g = ∅
  | Some id => exists a rest rg r, sc_ips c = a :: rest /\ rg ∈ sc_ranges c /\
      the_range w0 (ia_range_id a) = Some rg /\ the_router w0 rg = Some r /\ r ∈ vw_routers w0 /\ g = {[ArpAt r id]}
  end.
(** Rows that a failing insertion left behind. *)
Definition stranded (rows : list IpRow) : Prop :=
  (rows = [] \/ exists n, sql_ok n Insert = false) /\ Forall (fun a => ia_vm_id a = vr_id v) rows.
Definition ok_pred : Type := gset Res -> IpRow -> Prop.
(** [X] exists on top of what the addresses and the MAC address own, and every
    address is as [ok] says. *)
Record Stage (ok : ok_pred) (X : gset Res) (s : SpawnVmContext * VmWorld) : Prop := {
  sg_ctx : in_ctx s.1 s.2;
  sg_vms : vw_vms s.2 = vms_with (mac_of s.1);
  sg_ips : exists rows, vw_ips s.2 = vw_ips w0 ++ rows /\ stranded rows;
  sg_mine : Forall (fun a => ia_vm_id a = vr_id v) (sc_ips s.1);
  sg_live : exists g, gen_at s.1 g /\ Forall (ok g) (sc_ips s.1) /\ all_ready n0 base s.2 (sc_ips s.1) (g ∪ X)
}.
(** The host was asked during the spawn to make the machine with this MAC address and
    these addresses, and said that it did. *)
Definition made (mac : string) (ips : list string) (w : VmWorld) : Prop :=
  answered_since n0 (existT (CreateVm (vr_host_id v) (vr_id v) mac ips) (Ok tt)) w.
(** On the way forward nothing is saved yet, and the entry is the first address's. *)
Record Fresh (ok : ok_pred) (X : gset Res) (s : SpawnVmContext * VmWorld) : Prop := {
  fr_stage :> Stage ok X s;
  fr_ids : Forall (fun a => ia_id a = 0 /\ ia_deleted a = false) (sc_ips s.1);
  fr_ips : vw_ips s.2 = vw_ips w0;
  fr_gen : forall g, gen_at s.1 g -> g ⊆ owned_all w0 (sc_ips s.1);
  fr_easy : exists a rest, sc_ips s.1 = a :: rest /\ Forall easy rest;
  fr_host : forall h m, VmAt h m ∈ X -> VmAt h m ∈ live s.2;
  fr_made : X = ∅ \/ made (mac_of s.1) (ia_ip <$> sc_ips s.1) s.2
}.
(** The addresses own nothing but the entry of the MAC address; no DNS records; no
    reverse records. *)
Definition only_gen : ok_pred := fun g a => owned w0 a ⊆ g.
Definition no_dns : ok_pred := fun g a => fwd_of w0 a = ∅ /\ rev_of w0 a = ∅.
Definition no_rev : ok_pred := fun g a => rev_of w0 a = ∅.
Definition anything : ok_pred := fun g a => True.
Definition both (p q : ok_pred) : ok_pred := fun g a => p g a /\ q g a.

Lemma Stage_mono (p q : ok_pred) X s : (forall g a, p g a -> q g a) -> Stage p X s -> Stage q X s.
Proof.
  intros Hpq [H1 H2 H3 H4 (g & Hg & Hf & Hr)]. constructor; [done..|]. exists g. split_and!; [done| |done].
  eapply Forall_impl; [exact Hf|auto].
Qed.
Lemma Fresh_mono (p q : ok_pred) X s : (forall g a, p g a -> q g a) -> Fresh p X s -> Fresh q X s.
Proof. intros Hpq []. constructor; [by eapply Stage_mono|done..]. Qed.
Lemma gen_ips c l g : Forall2 fixed (sc_ips c) l -> gen_at c g -> gen_at (set_sc_ips l c) g.
Proof.
  intros Hf. unfold gen_at. cbn. destruct (_ ≫= arp_id); [|done]. intros (a & rest & rg & r & E & H1 & H2 & H3 & H4 & H5).
  rewrite E in Hf. apply Forall2_cons_inv_l in Hf as (a' & rest' & Ha & _ & ->). exists a', rest', rg, r.
  rewrite (fx_range _ _ Ha). done.
Qed.
Lemma gen_at_eq c g g' : gen_at c g -> gen_at c g' -> g = g'.
Proof.
  unfold gen_at. destruct (_ ≫= arp_id); [|by intros -> ->].
  intros (a & l & rg & r & E & _ & Hg & Hr & _ & ->) (a' & l' & rg' & r' & E' & _ & Hg' & Hr' & _ & ->). congruence.
Qed.
(** An operation on the addresses leads from a stage to a stage. *)
Lemma Stage_ips (p q : ok_pred) X c w l w' : Stage p X (c, w) -> still w w' -> Forall2 fixed (sc_ips c) l ->
  (forall g, gen_at c g -> Forall (p g) (sc_ips c) -> all_ready n0 base w (sc_ips c) (g ∪ X) ->
    Forall (q g) l /\ all_ready n0 base w' l (g ∪ X)) ->
  Stage q X (set_sc_ips l c, w').
Proof.
  intros [[C1 C2 C3 C4 C5 C6] H2 H3 H4 (g & Hg & Hf & Hr)] [Hs Hv Hi Hn] Hfix Hl. cbn [fst snd] in *. constructor; cbn [fst snd].
  - constructor; try done; [by etrans|by rewrite Hn].
  - by rewrite Hv.
  - by rewrite Hi.
  - cbn. clear -H4 Hfix. induction Hfix as [|a a' l l' Ha _ IH]; [done|]. apply Forall_cons in H4 as [H1 H4].
    constructor; [by rewrite (fx_vm _ _ Ha)|by apply IH].
  - exists g. destruct (Hl g Hg Hf Hr). split_and!; [by apply gen_ips|done|done].
Qed.
Definition grows (a a' : IpRow) : Prop := owned w0 a ⊆ owned w0 a'.
Lemma Fresh_ips (p q : ok_pred) X c w l w' : Fresh p X (c, w) -> still w w' -> same_vms w w' ->
  Forall2 (fun a a' => fixed a a' /\ grows a a') (sc_ips c) l ->
  (forall g, gen_at c g -> Forall (p g) (sc_ips c) -> all_ready n0 base w (sc_ips c) (g ∪ X) ->
    Forall (q g) l /\ all_ready n0 base w' l (g ∪ X)) ->
  Fresh q X (set_sc_ips l c, w').
Proof.
  intros [Hst Hids Hips Hgen (a & rest & E & Heasy) Hhost Hmade] Ht Hvm Hf Hl. cbn [fst snd] in *.
  assert (Forall2 fixed (sc_ips c) l) as Hfix by (eapply Forall2_impl; [exact Hf|by intros ? ? []]).
  constructor; cbn [fst snd].
  - by eapply Stage_ips.
  - cbn. clear -Hfix Hids. induction Hfix as [|a a' l l' Ha _ IH]; [done|]. apply Forall_cons in Hids as [[Hi Hd] Hids].
    constructor; [by rewrite (fx_id _ _ Ha), (fx_deleted _ _ Ha)|by apply IH].
  - by rewrite (st_ips _ _ Ht).
  - intros g Hg. destruct (sg_live _ _ _ Hst) as (g' & Hg' & _). assert (g = g') as ->.
    { eapply gen_at_eq; [exact Hg|by apply gen_ips]. }
    specialize (Hgen g' Hg'). etrans; [exact Hgen|]. cbn. clear -Hf. unfold owned_all.
    induction Hf as [|a a' l l' [_ Ha] _ IH]; [done|]. cbn. unfold grows in Ha. set_solver +Ha IH.
  - cbn. rewrite E in Hf. apply Forall2_cons_inv_l in Hf as (a' & rest' & _ & Hrest & ->). exists a', rest'. split; [done|].
    clear -Heasy Hrest. induction Hrest as [|a a' l l' [[Fi Fv Fr Fp Fd] _] _ IH]; [done|].
    apply Forall_cons in Heasy as [Ha Heasy]. constructor; [|by apply IH]. unfold easy, plain in *. by rewrite Fr, Fp, Fv, Fd.
  - intros h m Hin. by apply Hvm, Hhost.
  - destruct Hmade as [?|Hmade]; [by left|right]. cbn. assert (ia_ip <$> l = ia_ip <$> sc_ips c) as ->.
    { clear -Hfix. induction Hfix as [|x x' l l' Hx _ IH]; [done|]. cbn. by rewrite IH, (fx_ip _ _ Hx). }
    by eapply answered_mono; [apply Ht|].
Qed.

(** *** Operations on all the addresses *)

Lemma stage_each (p : ok_pred) X c w (m : Cell unit) (Pre : IpRow -> Prop) (G D : IpRow -> IpRow -> Prop) (K : OpResult unit NetFail -> Prop) :
  Stage p X (c, w) -> Forall Pre (sc_ips c) -> (forall a, G a a) -> K (Ok tt) ->
  (forall a w1 F rg, Pre a -> since w0 w1 -> ready n0 base w1 a rg F -> post m (a, w1) (fun r s =>
    after n0 base w1 s.2 a s.1 rg F /\ G a s.1 /\ (r = Ok tt -> D a s.1) /\ K r)) ->
  post (on_ips m) (c, w) (fun r s' => exists l, s'.1 = set_sc_ips l c /\ still w s'.2 /\
    Forall2 (fun a a' => fixed a a' /\ G a a') (sc_ips c) l /\ (r = Ok tt -> Forall2 D (sc_ips c) l) /\ K r /\
    same_vms w s'.2 /\ forall g, gen_at c g -> all_ready n0 base s'.2 l (g ∪ X)).
Proof.
  intros Hst Hpre Grefl HK Hm r s'. unfold on_ips. destruct (each_ip m (sc_ips c) w) as [o [l w']] eqn:E. intros [= -> <-].
  destruct (sg_live _ _ _ Hst) as (g & Hg & _ & Hr). pose proof (ic_since _ _ (sg_ctx _ _ _ Hst)) as Hs. cbn [fst snd] in *.
  destruct (each_ip_after n0 base w m Pre G D K Grefl HK) with (sc_ips c) w (g ∪ X) r l w' as (Ht & Har & HF & HD & HKr & Hvm); [|done..|].
  - intros a w1 F rg Ha Ht1. apply Hm; [done|]. etrans; [exact Hs|apply Ht1].
  - exists l. split_and!; [done..|]. intros g' Hg'. by rewrite (gen_at_eq _ _ _ Hg' Hg).
Qed.
Lemma Forall_across {A} (P Q : A -> Prop) (R : A -> A -> Prop) l l' :
  Forall P l -> Forall2 R l l' -> (forall a a', P a -> R a a' -> Q a') -> Forall Q l'.
Proof.
  intros HP HF Himp. induction HF as [|a a' l l' Ha _ IH]; [constructor|]. apply Forall_cons in HP as [Ha' HP].
  constructor; eauto.
Qed.
(** Forward: an operation that never fails and only adds. *)
Lemma fresh_step (p q : ok_pred) X s (m : Cell unit) (G : IpRow -> IpRow -> Prop) :
  Fresh p X s -> (forall a, G a a) -> (forall a a', G a a' -> grows a a') -> (forall g a a', p g a -> fixed a a' -> G a a' -> q g a') ->
  (forall a w1 F rg, since w0 w1 -> ready n0 base w1 a rg F -> post m (a, w1) (fun r s =>
    after n0 base w1 s.2 a s.1 rg F /\ G a s.1 /\ r = Ok tt)) ->
  post (on_ips m) s (fun r s' => r = Ok tt /\ Fresh q X s').
Proof.
  intros Hs Hrefl Hgrows Hq Hm. destruct s as [c w].
  eapply post_mono; [apply (stage_each p X c w m (fun _ => True) G (fun _ _ => True) (fun r => r = Ok tt))|].
  - apply Hs.
  - by apply Forall_forall.
  - done.
  - done.
  - intros a w1 F rg _ Hw Hr. eapply post_mono; [by apply (Hm a w1 F rg)|]. naive_solver.
  - intros r [c' w']. cbn [fst snd]. intros (l & -> & Ht & HF & _ & -> & Hvm & Har). split; [done|].
    apply (Fresh_ips p q X c w l w'); [done|done|done| |].
    + eapply Forall2_impl; [exact HF|]. naive_solver.
    + intros g Hg Hp _. split; [|by apply Har]. eapply Forall_across; [exact Hp|exact HF|]. naive_solver.
Qed.
(** Backward: an operation that never fails and takes away. *)
Lemma stage_undo (p q : ok_pred) X s (m : Cell unit) (D : IpRow -> IpRow -> Prop) :
  Stage p X s -> (forall g a a', p g a -> D a a' -> q g a') ->
  (forall a w1 F rg, since w0 w1 -> ready n0 base w1 a rg F -> post m (a, w1) (fun r s =>
    after n0 base w1 s.2 a s.1 rg F /\ D a s.1 /\ r = Ok tt)) ->
  post (on_ips m) s (fun r s' => r = Ok tt /\ Stage q X s').
Proof.
  intros Hs Hq Hm. destruct s as [c w].
  eapply post_mono; [apply (stage_each p X c w m (fun _ => True) (fun _ _ => True) D (fun r => r = Ok tt))|].
  - done.
  - by apply Forall_forall.
  - done.
  - done.
  - intros a w1 F rg _ Hw Hr. eapply post_mono; [by apply (Hm a w1 F rg)|]. naive_solver.
  - intros r [c' w']. cbn [fst snd]. intros (l & -> & Ht & HF & HD & -> & _ & Har). split; [done|].
    apply (Stage_ips p q X c w l w'); [done|done| |].
    + eapply Forall2_impl; [exact HF|]. naive_solver.
    + intros g Hg Hp _. split; [|by apply Har]. eapply Forall_across; [exact Hp|by apply HD|]. naive_solver.
Qed.

(** ** DNS *)

Lemma owned_of_since w1 a : since w0 w1 -> arp_of w1 a = arp_of w0 a /\ fwd_of w1 a = fwd_of w0 a /\ rev_of w1 a = rev_of w0 a.
Proof. intros Hs. by destruct (owned_since w0 w1 a Hs) as (? & ? & ? & _). Qed.
Lemma arp_of_same a a' : fixed a a' -> same_arp a a' -> arp_of w0 a' = arp_of w0 a.
Proof. intros Hf He. unfold arp_of. by rewrite (fx_range _ _ Hf), He. Qed.
Lemma fwd_of_same a a' : fixed a a' -> same_fwd a a' -> fwd_of w0 a' = fwd_of w0 a.
Proof. intros Hf [_ He]. unfold fwd_of. by rewrite (fx_range _ _ Hf), He. Qed.
Lemma rev_of_same a a' : fixed a a' -> same_rev a a' -> rev_of w0 a' = rev_of w0 a.
Proof. intros Hf [_ He]. unfold rev_of. by rewrite (fx_range _ _ Hf), He. Qed.
Lemma post_ignored {S A} (m : Op S A) s Φ : post m s (fun _ s' => Φ (Ok tt) s') -> post (warned m ;! done tt) s Φ.
Proof.
  intros Hm. apply post_bind, post_warned. eapply post_mono; [exact Hm|]. intros [a|e] s' HP; cbn [on_ok]; by apply post_done.
Qed.
Lemma dns_forward_step X s : Fresh no_dns X s -> post (on_ips (dns_forward_ip policy)) s (fun r s' => r = Ok tt /\ Fresh no_rev X s').
Proof using RL.
  intros Hs. apply (fresh_step no_dns no_rev X s _ (fun a a' => fixed a a' /\ fwd_only w0 a a')); [done|done| | |].
  - intros a a' (Hf & Ha & Hr & Hfw). unfold grows, owned. rewrite (arp_of_same _ _ Hf Ha), (rev_of_same _ _ Hf Hr). set_solver +Hfw.
  - intros g a a' [_ Hr0] _ (Hf & _ & Hr & _). unfold no_rev. by rewrite (rev_of_same _ _ Hf Hr).
  - intros a w1 F rg Hw Hr. apply post_ignored. eapply post_mono; [by eapply update_forward_after|].
    intros r [a' w2]. cbn [fst snd]. intros (Haf & Ha & Hrv & Hfw). split; [done|]. split; [|done]. split; [apply Haf|]. split; [done|]. split; [done|].
    by rewrite <- !(proj1 (proj2 (owned_of_since w1 _ Hw))).
Qed.
Lemma dns_reverse_step X s : Fresh no_rev X s -> post (on_ips (dns_reverse_ip policy)) s (fun r s' => r = Ok tt /\ Fresh anything X s').
Proof using RL.
  intros Hs. apply (fresh_step no_rev anything X s _ (fun a a' => fixed a a' /\ rev_only w0 a a')); [done|done| |done|].
  - intros a a' (Hf & Ha & Hr & Hfw). unfold grows, owned. rewrite (arp_of_same _ _ Hf Ha), (fwd_of_same _ _ Hf Hr). set_solver +Hfw.
  - intros a w1 F rg Hw Hr. apply post_ignored. eapply post_mono; [by eapply update_reverse_after|].
    intros r [a' w2]. cbn [fst snd]. intros (Haf & Ha & Hrv & Hfw). split; [done|]. split; [|done]. split; [apply Haf|]. split; [done|]. split; [done|].
    by rewrite <- !(proj2 (proj2 (owned_of_since w1 _ Hw))).
Qed.
Lemma dns_unreverse_step X s : Stage anything X s -> post (on_ips (dns_unreverse_ip policy)) s (fun r s' => r = Ok tt /\ Stage no_rev X s').
Proof using RL.
  intros Hs. apply (stage_undo anything no_rev X s _ (fun _ a' => rev_of w0 a' = ∅)); [done|done|].
  intros a w1 F rg Hw Hr. unfold dns_unreverse_ip. op_steps. destruct (ia_dns_reverse_ref a) as [id|] eqn:E.
  - eapply post_mono; [by eapply remove_ip_dns_after|]. intros r [a' w2]. cbn [fst snd]. intros (-> & Haf & _ & _ & Hrev).
    split_and!; [done| |done]. by rewrite <- (proj2 (proj2 (owned_of_since w1 _ Hw))).
  - op_steps. cbn [fst snd]. split_and!; [by apply after_quiet| |done].
    unfold rev_of. rewrite E. by destruct (_ ≫= _).
Qed.
Lemma dns_unforward_step X s : Stage no_rev X s -> post (on_ips (dns_unforward_ip policy)) s (fun r s' => r = Ok tt /\ Stage no_dns X s').
Proof using RL.
  intros Hs. apply (stage_undo no_rev no_dns X s _ (fun a a' => fwd_of w0 a' = ∅ /\ (rev_of w0 a = ∅ -> rev_of w0 a' = ∅))); [done| |].
  { unfold no_rev, no_dns. naive_solver. }
  intros a w1 F rg Hw Hr. unfold dns_unforward_ip. op_steps. destruct (ia_dns_forward_ref a) as [id|] eqn:E.
  - eapply post_mono; [by eapply remove_ip_dns_after|]. intros r [a' w2]. cbn [fst snd]. intros (-> & Haf & _ & Hfw & Hrev).
    destruct (owned_of_since w1 a' Hw) as (_ & Ef & Er). split_and!; [done|by rewrite <- Ef|by rewrite <- Er|done].
  - op_steps. cbn [fst snd]. split_and!; [by apply after_quiet| |done|done]. unfold fwd_of. rewrite E. by destruct (_ ≫= _).
Qed.
Lemma arp_remove_step X s : Stage no_dns X s -> post (on_ips (arp_remove_ip policy)) s (fun r s' => r = Ok tt /\ Stage only_gen X s').
Proof using RL.
  intros Hs. apply (stage_undo no_dns only_gen X s _ (fun a a' => no_dns ∅ a -> owned w0 a' = ∅)); [done| |].
  { intros g a a' Hp HD. unfold only_gen. rewrite HD by done. apply empty_subseteq. }
  intros a w1 F rg Hw Hr. unfold arp_remove_ip. op_steps. destruct (ia_arp_ref a) as [id|] eqn:E.
  - op_steps. apply (post_get_range _ _ _ RL); intros w2; [intros rg' Hq Erg|intros e _ Hn].
    2: { pose proof (so_range _ _ _ (rd_sound _ _ _ _ _ _ Hr)). congruence. }
    rewrite (so_range _ _ _ (rd_sound _ _ _ _ _ _ Hr)) in Erg. simplify_eq. cbn [on_ok].
    eapply post_mono; [eapply remove_policy_after; [exact RL|by eapply ready_quiet|by intros En; rewrite E in En]|].
    intros r [a' w3]. cbn [fst snd]. intros (Haf & Hfw & Hrv & Harp & Hok). cbn [fst snd] in *. rewrite Hok by by rewrite E.
    split_and!; [by eapply after_trans; [by apply after_quiet|]| |done]. intros [Hf0 Hr0]. unfold owned.
    pose proof (af_fixed _ _ _ _ _ _ _ _ Haf) as Hfix.
    rewrite (fwd_of_same _ _ Hfix Hfw), (rev_of_same _ _ Hfix Hrv), Hf0, Hr0.
    rewrite <- (proj1 (owned_of_since w2 a' ltac:(etrans; [exact Hw|apply Hq]))), Harp by by apply Hok; rewrite E. set_solver.
  - op_steps. cbn [fst snd]. split_and!; [by apply after_quiet| |done]. intros [Hf0 Hr0]. unfold owned, arp_of.
    rewrite Hf0, Hr0, E. destruct (_ ≫= _); cbn; set_solver.
Qed.

(** ** ARP *)

Lemma set_sc_ips_same c : set_sc_ips (sc_ips c) c = c.
Proof. by destruct c. Qed.
Lemma all_ready_quiet w w' l X : quiet w w' -> all_ready n0 base w l X -> all_ready n0 base w' l X.
Proof.
  intros Hq [S1 S2 S3]. pose proof (st_since _ _ (qt_still _ _ Hq)) as Hs. constructor.
  - eapply Forall_impl; [exact S1|]. intros a [rg Ha]. exists rg. by apply (sound_since w w').
  - eapply sw_eq; [exact S2| |apply Hq]. by rewrite (owned_all_since w w').
  - pose proof (si_log _ _ Hs). lia.
Qed.
Lemma Stage_quiet p X c w w' : quiet w w' -> Stage p X (c, w) -> Stage p X (c, w').
Proof.
  intros Hq Hs. rewrite <- (set_sc_ips_same c). apply (Stage_ips p p X c w); [done|apply Hq| |].
  - apply Forall_Forall2_diag, Forall_forall. done.
  - intros g Hg Hf Hr. split; [done|by eapply all_ready_quiet].
Qed.
Lemma Fresh_quiet p X c w w' : quiet w w' -> Fresh p X (c, w) -> Fresh p X (c, w').
Proof.
  intros Hq Hs. rewrite <- (set_sc_ips_same c). apply (Fresh_ips p p X c w); [done|apply Hq|by apply quiet_vms| |].
  - apply Forall_Forall2_diag, Forall_forall. intros a _. split; [done|]. by unfold grows.
  - intros g Hg Hf Hr. split; [done|by eapply all_ready_quiet].
Qed.
Lemma easy_setup a w : easy a -> since w0 w -> post arp_setup_ip (a, w) (fun r s => r = Ok tt /\ s.1 = a /\ quiet w s.2).
Proof using RL.
  intros (rg & net & Erg & Enet & E6 & Hval & Hpol) Hs. unfold arp_setup_ip. op_steps.
  apply (post_get_range _ _ _ RL); rewrite (the_range_since _ _ Hs); intros w1; [intros rg' Hq1 E|intros e _ E; congruence].
  simplify_eq. cbn [on_ok]. unfold check_ip_assignment. op_steps. rewrite Hval. op_steps.
  unfold update_ip_assignment_access_policy, with_policy. destruct (rg_access_policy_id rg) as [ap|]; op_steps; [|done].
  destruct (Hpol _ eq_refl) as [p Ep]. apply (post_get_access_policy _ _ _ RL);
    rewrite (the_policy_since w0 w1) by (etrans; [exact Hs|apply Hq1]); intros w2; [intros p' Hq2 E|intros e _ E; congruence].
  cbn [on_ok]. unfold update_access_policy. op_steps. rewrite Enet. cbn [or_fatal]. op_steps.
  - revert Heqb. unfold apply_arp. destruct (ap_kind p'). congruence.
  - split_and!; [done|done|]. by etrans.
Qed.
Lemma easy_setups l w : Forall easy l -> since w0 w -> forall r l' w', each_ip arp_setup_ip l w = (Some r, (l', w')) ->
  r = Ok tt /\ l' = l /\ quiet w w'.
Proof using RL.
  intros Hl. revert w. induction Hl as [|a l Ha _ IH]; intros w Hs r l' w'; cbn [each_ip]; [by intros [= <- <- <-]|].
  destruct (arp_setup_ip (a, w)) as [[o|] [a1 w1]] eqn:E; [|done].
  destruct (easy_setup _ _ Ha Hs _ _ E) as (-> & Ea & Hq). cbn in Ea. subst a1.
  destruct (each_ip arp_setup_ip l w1) as [o2 [l2 w2]] eqn:El. intros [= -> <- <-].
  destruct (IH w1 ltac:(etrans; [exact Hs|apply Hq]) _ _ _ El) as (-> & -> & Hq2). split_and!; [done|done|by etrans].
Qed.
Definition arp_grows (a a' : IpRow) : Prop := fixed a a' /\ same_fwd a a' /\ same_rev a a' /\ arp_of w0 a ⊆ arp_of w0 a'.
Lemma setup_after a w rg F : since w0 w -> ready n0 base w a rg F -> post arp_setup_ip (a, w) (fun r s =>
  after n0 base w s.2 a s.1 rg F /\ arp_grows a s.1 /\ match r with Ok _ => True | Err _ => s.1 = a /\ quiet w s.2 end).
Proof using RL.
  intros Hs Hr. assert (forall r w', quiet w w' -> after n0 base w w' a a rg F /\ arp_grows a a /\
    match r : OpResult unit NetFail with Ok _ => True | Err _ => a = a /\ quiet w w' end) as Hquiet.
  { intros r w' Hq. split; [by apply after_quiet|]. split; [done|]. by destruct r. }
  pose proof (so_range _ _ _ (rd_sound _ _ _ _ _ _ Hr)) as Hrg. unfold arp_setup_ip. op_steps.
  apply (post_get_range _ _ _ RL); intros w1; [intros rg' Hq1 E|intros e Hq _; by apply Hquiet]. simplify_eq.
  cbn [on_ok]. unfold check_ip_assignment. op_steps. destruct (validate_ip_assignment _ _) as [[]|e]; op_steps; [|by apply (Hquiet (Err (Fatal (Picking e))))].
  eapply post_mono; [by eapply update_policy_after, ready_quiet|]. intros r [a' w2]. cbn [fst snd].
  intros (Haf & Hfw & Hrv & Harp & Herr). cbn [fst snd] in *.
  assert (since w0 w1) as Hs1 by (etrans; [exact Hs|apply Hq1]).
  rewrite !(proj1 (owned_of_since w1 _ Hs1)) in Harp. split; [|split].
  - eapply after_trans; [by apply after_quiet|done].
  - split; [apply Haf|]. done.
  - destruct r; [done|]. destruct Herr as [-> ?]. split; [done|by etrans].
Qed.
Lemma arp_setup_step X s : Fresh (both only_gen no_dns) X s -> post (on_ips arp_setup_ip) s (fun r s' =>
  match r with Ok _ => Fresh no_dns X s' | Err _ => Fresh (both only_gen no_dns) X s' end).
Proof using RL.
  intros Hs. destruct s as [c w].
  assert (post (on_ips arp_setup_ip) (c, w) (fun r s' => match r with Ok _ => True | Err _ => s'.1 = c /\ quiet w s'.2 end)) as Herr.
  { intros r s'. unfold on_ips. destruct (each_ip arp_setup_ip (sc_ips c) w) as [o [l w']] eqn:E. intros [= -> <-].
    destruct (fr_easy _ _ _ Hs) as (a & rest & El & Hrest). cbn in El. rewrite El in E. cbn [each_ip] in E.
    destruct (sg_live _ _ _ Hs) as (g & _ & _ & [Hsound Hsw Hlog]). cbn in Hsound, Hsw, Hlog. rewrite El in Hsound, Hsw.
    apply Forall_cons in Hsound as [[rg Hsa] _].
    pose proof (ic_since _ _ (sg_ctx _ _ _ Hs)) as Hw. cbn in Hw.
    assert (ready n0 base w a rg (owned_all w rest ∪ (g ∪ X))) as Hra.
    { constructor; [done| |done]. eapply sw_eq; [exact Hsw| |done]. unfold owned_all. cbn. set_solver. }
    destruct (arp_setup_ip (a, w)) as [[o|] [a1 w1]] eqn:Ea; [|done].
    destruct (setup_after a w rg _ Hw Hra _ _ Ea) as (Haf & _ & Hc). cbn [fst snd] in *.
    destruct o as [[]|e].
    - destruct (each_ip arp_setup_ip rest w1) as [o2 [l2 w2]] eqn:E2. injection E as -> <- <-.
      destruct (easy_setups rest w1 Hrest ltac:(etrans; [exact Hw|apply Haf]) _ _ _ E2) as (-> & _). done.
    - injection E as <- <- <-. destruct Hc as [-> Hq]. cbn. split; [|done]. by rewrite <- El, set_sc_ips_same. }
  eapply post_mono; [apply post_and; [exact Herr|]|].
  { apply (stage_each (both only_gen no_dns) X c w arp_setup_ip (fun _ => True) arp_grows (fun _ _ => True) (fun _ => True)).
    - apply Hs.
    - by apply Forall_forall.
    - done.
    - done.
    - intros a w1 F rg _ Hw Hr. eapply post_mono; [by apply setup_after|]. naive_solver. }
  intros r [c' w']. cbn [fst snd]. intros [He (l & Hc & Ht & HF & _ & _ & Hvm & Har)].
  destruct r as [[]|e]; [subst c'|destruct He as [-> Hq]; by eapply Fresh_quiet].
  apply (Fresh_ips (both only_gen no_dns) no_dns X c w l w'); [done|done|done| |].
  - eapply Forall2_impl; [exact HF|]. intros a a' [Hf (_ & Hfw & Hrv & Harp)]. split; [done|]. unfold grows, owned.
    rewrite (fwd_of_same _ _ Hf Hfw), (rev_of_same _ _ Hf Hrv). set_solver +Harp.
  - intros g Hg Hp _. split; [|by apply Har]. eapply Forall_across; [exact Hp|exact HF|].
    intros a a' [_ [Hfw0 Hrv0]] [Hf (_ & Hfw & Hrv & Harp)]. unfold no_dns. by rewrite (fwd_of_same _ _ Hf Hfw), (rev_of_same _ _ Hf Hrv).
Qed.

(** ** The machine on its host *)

Definition at_host : gset Res := {[VmAt (vr_host_id v) (vr_id v)]}.
Lemma Stage_live p X X' c w w' : Stage p X (c, w) -> still w w' ->
  (forall Y, sandwich base (Y ∪ X) w -> sandwich base (Y ∪ X') w') -> Stage p X' (c, w').
Proof.
  intros [[C1 C2 C3 C4 C5 C6] H2 H3 H4 (g & Hg & Hf & [S1 S2 S3])] [Hs Hv Hi Hn] Hsw. cbn [fst snd] in *.
  constructor; cbn [fst snd]; [|by rewrite Hv|by rewrite Hi|done|].
  - constructor; try done; [by etrans|by rewrite Hn].
  - exists g. split_and!; [done|done|]. constructor.
    + eapply Forall_impl; [exact S1|]. intros a [rg Ha]. exists rg. by apply (sound_since w w').
    + rewrite (owned_all_since w w') by done. rewrite assoc_L in S2 |- * by apply _. by apply Hsw.
    + pose proof (si_log _ _ Hs). lia.
Qed.
Lemma Fresh_live p X X' c w w' : Fresh p X (c, w) -> still w w' ->
  (forall Y, sandwich base (Y ∪ X) w -> sandwich base (Y ∪ X') w') -> (forall h m, VmAt h m ∈ X' -> VmAt h m ∈ live w') ->
  X' = ∅ \/ made (mac_of c) (ia_ip <$> sc_ips c) w' -> Fresh p X' (c, w').
Proof.
  intros [Hst H2 H3 H4 H5 _ _] Ht Hsw Hhost Hmade. constructor; [by eapply Stage_live|done| |done|done|done|done]. cbn. by rewrite (st_ips _ _ Ht).
Qed.
Lemma ctx_vm_id c w : in_ctx c w -> vr_id (sc_vm c) = vr_id v.
Proof. intros Hc. by rewrite (ic_vm _ _ Hc). Qed.
Lemma host_spawn_step (p : ok_pred) (BL : blank) s : Fresh p ∅ s -> post host_spawn s (fun r s' =>
  match r with Ok _ => Fresh p at_host s' | Err _ => Fresh p ∅ s' end).
Proof.
  intros Hs. destruct s as [c w]. unfold host_spawn. op_steps.
  pose proof (sg_ctx _ _ _ Hs) as Hc. cbn in Hc. rewrite (ic_host _ _ Hc), (ctx_vm_id _ _ Hc).
  apply (post_remote (CreateVm (vr_host_id v) (vr_id v) (vr_mac_address (sc_vm c)) (ia_ip <$> sc_ips c))); intros w1.
  - intros [] Hcall. eapply Fresh_live; [exact Hs|apply Hcall| | |].
    + intros Y Hw. eapply sw_eq; [eapply (sw_add _ _ _ _ _ Hw (cl_live _ _ _ _ Hcall)), BL| |done]. unfold at_host. set_solver +.
    + intros h m Hin. rewrite (cl_live _ _ _ _ Hcall). unfold at_host in Hin. set_solver +Hin.
    + right. eapply answered_less; [|apply (cl_logged _ _ _ _ Hcall)]. apply si_log, (ic_since _ _ Hc).
  - intros e Hq. by eapply Fresh_quiet.
Qed.
Lemma host_unspawn_step (p : ok_pred) s : Stage p at_host s -> post host_unspawn s (fun r s' => r = Ok tt /\ Stage p ∅ s').
Proof using RL.
  intros Hs. destruct s as [c w]. unfold host_unspawn. op_steps.
  pose proof (sg_ctx _ _ _ Hs) as Hc. cbn in Hc. rewrite (ic_host _ _ Hc), (ctx_vm_id _ _ Hc).
  apply (post_remote_ok (DeleteVm (vr_host_id v) (vr_id v)) _ _ tt); [intros; apply (rl_delete_vm _ _ _ RL)|].
  intros w1 Hcall. split; [done|]. eapply Stage_live; [exact Hs|apply Hcall|]. intros Y Hw.
  eapply sw_mono; [| |eapply (sw_del _ _ _ _ _ Hw (cl_live _ _ _ _ Hcall))].
  - unfold at_host. set_solver +.
  - destruct Hw as [_ _ Hn]. set_solver +Hn.
  - eapply sw_out; [exact Hw|]. unfold at_host. set_solver +.
Qed.

(** ** The addresses *)

Record Undone (s : SpawnVmContext * VmWorld) : Prop := {
  un_since : since w0 s.2; un_vms : vw_vms s.2 = vw_vms w0; un_live : live s.2 = base;
  un_ips : exists rows, vw_ips s.2 = vw_ips w0 ++ rows /\ stranded rows
}.
Lemma post_range_router rg w Φ : since w0 w ->
  (forall w' r, quiet w w' -> the_router w0 rg = Some r -> r ∈ vw_routers w0 -> Φ (Ok (Some r)) w') ->
  (forall w', quiet w w' -> the_router w0 rg = None -> Φ (Ok None) w') ->
  (forall w' e, quiet w w' -> ~ (exists r, the_router w0 rg = Some r /\ r ∈ vw_routers w0) -> Φ (Err e) w') ->
  post (get_range_router rg) w Φ.
Proof using RL.
  intros Hs Hok Hnone Herr. unfold get_range_router. destruct (rg_access_policy_id rg) as [ap|] eqn:Eap.
  2: { apply post_done, Hnone; [done|]. unfold the_router. by rewrite Eap. }
  op_steps. apply (post_get_access_policy _ _ _ RL); rewrite (the_policy_since _ _ Hs); intros w1.
  2: { intros e Hq Ep. apply Herr; [done|]. unfold the_router. rewrite Eap. cbn. rewrite Ep. by intros (? & [=] & _). }
  intros p Hq1 Ep. cbn [on_ok]. assert (the_router w0 rg = ap_router_id p) as Er.
  { unfold the_router. rewrite Eap. cbn. by rewrite Ep. }
  destruct (ap_router_id p) as [r|]; op_steps; [|by apply Hnone].
  assert (vw_routers w1 = vw_routers w0) as Ew.
  { rewrite (si_routers _ _ (st_since _ _ (qt_still _ _ Hq1))). apply Hs. }
  apply (post_get_router _ _ _ RL); rewrite Ew; intros w2.
  - intros Hq2 Hin. op_steps. apply Hok; [by etrans|done|done].
  - intros e Hq2 Hin. apply Herr; [by etrans|]. intros (r' & Er' & Hr'). simplify_eq. congruence.
Qed.
Lemma only_gen_all l g : Forall (only_gen g) l -> owned_all w0 l ⊆ g.
Proof. unfold only_gen, owned_all. intros Hl. induction Hl as [|a l Ha _ IH]; cbn; set_solver. Qed.
Lemma unassign_step (BL : blank) c w mac : vw_vms w = vms_with (mac_of c) -> mac = mac_of c -> sc_vm c = set_mac (mac_of c) v ->
  forall (Φ : OpResult unit NetFail -> SpawnVmContext * VmWorld -> Prop),
  (forall c' w', since w w' -> vw_ips w' = vw_ips w -> live w' = live w -> vw_vms w' = vw_vms w0 -> Φ (Ok tt) (c', w')) ->
  post (if String.eqb mac UNASSIGNED_MAC then done tt else
    hold (fun c => set_sc_mac UNASSIGNED_MAC (sc_generated_mac c) c) ;! up (update_vm (set_mac UNASSIGNED_MAC (sc_vm c)))) (c, w) Φ.
Proof using RL.
  intros Hv -> Hc Φ HP. destruct (String.eqb_spec (mac_of c) UNASSIGNED_MAC) as [E|E]; op_steps.
  - apply HP; [done..|]. by rewrite Hv, E, vms_blank.
  - assert (set_mac UNASSIGNED_MAC (sc_vm c) = set_mac UNASSIGNED_MAC v) as -> by by rewrite Hc.
    apply (update_vm_with _ _ _ Hv). intros w' H1 H2 H3 H4 H5. apply HP; [done..|]. by rewrite H5, vms_blank.
Qed.
Lemma rollback_assign_step (BL : blank) s : Stage only_gen ∅ s -> post rollback_assign_ips s (fun r s' => r = Ok tt /\ Undone s').
Proof using RL.
  intros Hs. destruct s as [c w]. pose proof Hs as [Hc Hv Hips _ (g & Hg & Hf & [_ Hsw _])]. cbn [fst snd] in *.
  pose proof (ic_since _ _ Hc) as Hw. rewrite (owned_all_since w0 w) in Hsw by done.
  apply only_gen_all in Hf. assert (sandwich base g w) as Hsw' by (eapply sw_eq; [exact Hsw| |done]; set_solver +Hf).
  assert (forall w1, still w w1 -> live w1 = base -> post (if String.eqb (vr_mac_address (sc_vm c)) UNASSIGNED_MAC then done tt else
    hold (fun c => set_sc_mac UNASSIGNED_MAC (sc_generated_mac c) c) ;! up (update_vm (set_mac UNASSIGNED_MAC (sc_vm c)))) (c, w1)
    (fun r s' => r = Ok tt /\ Undone s')) as Hend.
  { intros w1 Ht Hl. apply unassign_step; [done|by rewrite (st_vms _ _ Ht)|done|apply Hc|].
    intros c' w2 S2 I2 L2 V2. split; [done|]. constructor; cbn [snd]; [|done|by rewrite L2|by rewrite I2, (st_ips _ _ Ht)].
    etrans; [exact Hw|]. etrans; [apply Ht|done]. }
  unfold rollback_assign_ips. apply post_bind, post_held. cbn [on_ok]. apply post_bind. unfold gen_at in Hg.
  change (mbind (fun m => arp_id m) (sc_generated_mac c)) with (sc_generated_mac c ≫= arp_id).
  destruct (sc_generated_mac c ≫= arp_id) as [id|].
  2: { apply post_done. cbn [on_ok]. apply Hend; [done|]. destruct Hsw' as [L1 L2 _]. subst g. set_solver +L1 L2. }
  destruct Hg as (a & rest & rg & r & El & Hin & Hrg & Hro & Hr & ->).
  apply post_bind, post_up. rewrite El. cbn [find_router].
  destruct (head (filter _ (sc_ranges c))) as [rg'|] eqn:Eh.
  2: { eapply head_filter_none in Eh; [|exact Hin]. by destruct Eh; apply the_range_id in Hrg. }
  apply head_filter in Eh as [Eid Hin']. apply (ic_ranges _ _ Hc) in Hin'. rewrite Eid, Hrg in Hin'. injection Hin' as <-.
  apply post_bind, (post_range_router rg w); [done| | |].
  2: { intros w1 _ E. congruence. }
  2: { intros w1 e _ []. by exists r. }
  intros w1 r' Hq1 E _. rewrite Hro in E. injection E as <-. op_steps.
  apply (post_remote_ok (RemoveArp r id) _ _ tt); [intros; apply (rl_remove _ _ _ RL)|]. intros w2 Hcall. cbn [on_ok].
  apply post_done. cbn [on_ok]. assert (still w w2) as Ht by (etrans; [apply Hq1|apply Hcall]). apply Hend; [done|].
  rewrite (cl_live _ _ _ _ Hcall), (qt_live _ _ Hq1). cbn. destruct Hsw' as [L1 L2 L3]. clear -L1 L2 L3. set_solver.
Qed.
End stages.
