(* ===== verification/VmAlloc.v ===== *)
(** * The first and the last step of a spawn: addresses are chosen, and saved *)

From Stdlib Require Import Ascii String.
From stdpp Require Import list gmap.
From S2P Require Import Prelude TryProcedure IpAlloc NetText Network VmNet VmLive VmCell VmSpawn VmStages.

Section alloc.
Context `{NL : !NetLib, RD : !Rand, HX : !HexLib, SV : !Services} (policy : RetryPolicy).
Context (shuffle : list IpRange -> list IpRange) (fuel : nat).
Context (good_mac : string -> Prop) (w0 : VmWorld) (v : VmRow).
Notation base := (live w0).
Notation n0 := (length (vw_log w0)).
Notation pick h := (pick_ip_for_region shuffle fuel (net_db w0) (hr_region_id h)).
Context (RL : reliable good_mac n0 base).

(** Before the first step. *)
Record Start (s : SpawnVmContext * VmWorld) : Prop := {
  su_ctx : in_ctx w0 v s.1 s.2; su_ips : sc_ips s.1 = []; su_gen : sc_generated_mac s.1 = None;
  su_mac : mac_of s.1 = UNASSIGNED_MAC; su_quiet : quiet w0 s.2
}.
Lemma in_ctx_quiet c w w' : quiet w w' -> in_ctx w0 v c w -> in_ctx w0 v c w'.
Proof.
  intros Hq [C1 C2 C3 C4 C5 C6]. constructor; try done; [etrans; [exact C5|apply Hq]|by rewrite (st_next _ _ (qt_still _ _ Hq))].
Qed.
Lemma in_ctx_push c w rg : in_ctx w0 v c w -> the_range w0 (r_id (rg_range rg)) = Some rg -> in_ctx w0 v (push_range rg c) w.
Proof.
  intros [C1 C2 C3 C4 C5 C6] Hrg. unfold push_range. destruct (existsb _ _); [done|]. constructor; try done.
  cbn. intros rg' [Hin|Hin%list_elem_of_singleton]%elem_of_app; [by apply C4|by subst].
Qed.
Lemma push_range_in rg c w : in_ctx w0 v c w -> the_range w0 (r_id (rg_range rg)) = Some rg -> rg ∈ sc_ranges (push_range rg c).
Proof.
  intros Hc Hrg. unfold push_range. destruct (existsb _ (sc_ranges c)) eqn:E; cbn; [|set_solver].
  apply existsb_exists in E as (rg' & Hin%list_elem_of_In & Hid%Z.eqb_eq).
  pose proof (ic_ranges _ _ _ _ Hc _ Hin) as Hrg'. rewrite Hid, Hrg in Hrg'. by injection Hrg' as <-.
Qed.
Lemma push_range_same rg c : sc_ips (push_range rg c) = sc_ips c /\ sc_generated_mac (push_range rg c) = sc_generated_mac c /\
  sc_vm (push_range rg c) = sc_vm c /\ sc_host (push_range rg c) = sc_host c.
Proof. unfold push_range. by destruct (existsb _ _). Qed.
Lemma push_range_sub rg c : sc_ranges c ⊆ sc_ranges (push_range rg c).
Proof. unfold push_range. destruct (existsb _ _); [done|]. intros x Hx. apply elem_of_app. by left. Qed.
Lemma in_ctx_mac c w mac gen : in_ctx w0 v c w -> in_ctx w0 v (set_sc_mac mac gen c) w.
Proof. intros [C1 C2 C3 C4 C5 C6]. constructor; try done. cbn. by rewrite C1. Qed.

Lemma post_fatally {S A} (m : Op S A) s (Φ : OpResult A NetFail -> S -> Prop) :
  post m s (fun r s' => match r with Ok a => Φ (Ok a) s' | Err e => Φ (Err (Fatal (into_inner e))) s' end) -> post (fatally m) s Φ.
Proof.
  unfold post, fatally. intros Hm r s'. destruct (m s) as [[[a|e]|] s1] eqn:E; [| |done];
    intros [= <- <-]; exact (Hm _ _ eq_refl).
Qed.

(** ** The choice *)

Lemma pick_db w : still w0 w -> net_db w = net_db w0.
Proof. intros Ht. unfold net_db. by rewrite (st_ips _ _ Ht), (si_ranges _ _ Ht). Qed.
Lemma post_pick h w Φ : still w0 w ->
  (forall ips w', quiet w w' -> pick h = Some (Ok ips) -> Φ (Ok ips) w') ->
  (forall e w', quiet w w' -> Φ (Err e) w') -> post (pick_ips shuffle fuel (hr_region_id h)) w Φ.
Proof using RL.
  intros Ht Hok Herr r w'. unfold pick_ips. rewrite (rl_select _ _ _ RL), (pick_db _ Ht).
  pose proof (quiet_bump w) as Hq.
  destruct (pick h) as [[ips|[]]|] eqn:E; intros [= <- <-]; by (apply Hok || apply Herr).
Qed.

(** ** The MAC address *)

(** What the MAC address came with. *)
Definition came_with (a a' : IpRow) (mac : ArpEntry) (c : SpawnVmContext) (l : gset Res) : Prop :=
  exists rg, the_range w0 (ia_range_id a) = Some rg /\ rg ∈ sc_ranges c /\
  match arp_id mac with
  | None => l = base /\ ia_arp_ref a' = None
  | Some id => exists r, the_router w0 rg = Some r /\ r ∈ vw_routers w0 /\ ArpAt r id ∉ base /\
      l = {[ArpAt r id]} ∪ base /\ ia_arp_ref a' = Some id
  end.
Record Assigned (a a' : IpRow) (s : SpawnVmContext * VmWorld) : Prop := {
  as_ctx : in_ctx w0 v s.1 s.2; as_still : still w0 s.2; as_ips : sc_ips s.1 = [];
  as_row : a' = set_arp_ref (ia_arp_ref a') a;
  as_mac : exists mac, sc_generated_mac s.1 = Some mac /\ good_mac (mac_of s.1) /\ came_with a a' mac s.1 (live s.2)
}.
Lemma assign_mac_step a s : Start s -> ia_arp_ref a = None -> post (assign_mac a) s (fun r s' =>
  match r with Ok a' => Assigned a a' s' | Err _ => Start s' end).
Proof using RL.
  intros Hs Ha. destruct s as [c w]. pose proof Hs as [Hc Hips Hgen Hmac Hq0]. cbn [fst snd] in *.
  assert (set_arp_ref None a = a) as Ea by (destruct a; cbn in Ha; by subst).
  assert (forall w', quiet w w' -> Start (c, w')) as Hquiet.
  { intros w' Hq. constructor; cbn [fst snd]; [by eapply in_ctx_quiet|done..|by etrans]. }
  unfold assign_mac. op_steps. rewrite Hgen. op_steps.
  apply (post_get_range _ _ _ RL); rewrite (the_range_since w0 w) by apply Hq0; intros w1; [intros rg Hq1 Erg|intros e Hq _; by apply Hquiet].
  op_steps. pose proof Erg as Hid. apply the_range_id in Hid.
  assert (the_range w0 (r_id (rg_range rg)) = Some rg) as Erg' by by rewrite Hid.
  set (c1 := push_range rg c). destruct (push_range_same rg c) as (P1 & P2 & P3 & P4). fold c1 in P1, P2, P3, P4.
  assert (forall w', quiet w1 w' -> Start (c1, w')) as Hquiet1.
  { intros w' Hq. constructor; cbn [fst snd]; [|congruence|congruence| |by etrans; [exact Hq0|etrans]].
    - apply in_ctx_push; [|done]. eapply in_ctx_quiet; [|exact Hc]. by etrans.
    - unfold mac_of. by rewrite P3. }
  assert (still w0 w1) as Ht1 by (etrans; [apply Hq0|apply Hq1]).
  (* the last case, where the host names the MAC address *)
  assert (forall w', quiet w1 w' -> post (op_bind (up (remote (HostMac (hr_id (sc_host c)) (vr_id (sc_vm c)))) : InSpawn string)
    (fun mac => op_bind (hold (set_sc_mac mac (Some {| arp_id := None; arp_address := ia_ip a; arp_mac_address := mac;
       arp_interface := None; arp_comment := None |}))) (fun _ => done a))) (c1, w')
    (fun r s' => match r with Ok a' => Assigned a a' s' | Err _ => Start s' end)) as Hhost.
  { intros w' Hq. op_steps. apply (post_remote (HostMac (hr_id (sc_host c)) (vr_id (sc_vm c)))).
    2: { intros w2 e Hq2. apply Hquiet1. by etrans. }
    intros w2 mac Hcall. op_steps. destruct (cl_answer _ _ _ _ Hcall) as (n & _ & Hm).
    assert (quiet w1 w2) as Hq2 by (etrans; [exact Hq|exact (called_quiet (HostMac _ _) mac _ _ (fun l => eq_refl) Hcall)]).
    destruct (Hquiet1 _ Hq2) as [Hc2 _ _ _ Hq02]. cbn [fst snd] in *. constructor; cbn [fst snd].
    - by apply in_ctx_mac.
    - by apply Hq02.
    - cbn. congruence.
    - by rewrite Ha.
    - eexists. split; [done|]. split; [by eapply (rl_host_mac _ _ _ RL)|]. exists rg. split_and!; [done| |split; [apply Hq02|done]].
      by eapply push_range_in. }
  apply (post_range_router good_mac w0 RL); [apply Ht1| | |]; intros w2.
  2: { intros Hq2 _. cbn [on_ok]. apply post_bind, post_up. unfold generate_mac. apply post_done. apply Hhost, Hq2. }
  2: { intros e Hq2 _. by apply Hquiet1. }
  intros r Hq2 Hro Hr. cbn [on_ok]. apply post_bind, post_up. unfold generate_mac. apply post_fatally.
  apply (post_remote (GenerateMac r (ia_ip a) (vm_name "VM" (ia_vm_id a)))); intros w3.
  2: { intros e Hq3. apply Hquiet1. by etrans. }
  intros [mac|] Hcall; cbn [on_ok].
  2: { apply Hhost. etrans; [exact Hq2|]. exact (called_quiet (GenerateMac _ _ _) None _ _ (fun l => eq_refl) Hcall). }
  op_steps. assert (still w1 w3) as Ht3 by (etrans; [apply Hq2|apply Hcall]).
  destruct (cl_answer _ _ _ _ Hcall) as (n & Hn & Hm). apply (rl_generate _ _ _ RL) in Hm as [Hgood Hnew].
  2: { pose proof (si_log _ _ (st_since _ _ (qt_still _ _ Hq2))). pose proof (si_log _ _ (st_since _ _ Ht1)). lia. }
  assert (live w2 = base) as Hl2.
  { rewrite (qt_live _ _ Hq2), (qt_live _ _ Hq1). apply Hq0. }
  assert (in_ctx w0 v c1 w3) as Hc3.
  { destruct (su_ctx _ (Hquiet1 w1 ltac:(reflexivity))) as [C1 C2 C3 C4 C5 C6]. cbn [fst snd] in *.
    constructor; try done; [by etrans; [|apply Ht3]|by rewrite (st_next _ _ Ht3)]. }
  constructor; cbn [fst snd].
  - by apply in_ctx_mac.
  - by etrans.
  - cbn. congruence.
  - by destruct a.
  - exists mac. split; [done|]. split; [done|]. exists rg. split_and!; [done|by eapply push_range_in|].
    destruct (arp_id mac) as [id|] eqn:Eid.
    + exists r. rewrite (cl_live _ _ _ _ Hcall), Hl2. cbn. rewrite Eid. split_and!; [done|done|by apply Hnew|done|done].
    + rewrite (cl_live _ _ _ _ Hcall), Hl2. cbn. by rewrite Eid.
Qed.
Context (BL : blank w0 v) (PL : placeable shuffle fuel good_mac w0 v).

(** ** The addresses *)

(** A row that has nothing yet. *)
Definition bare (a : IpRow) : Prop := a = new_assignment (vr_id v) (ia_range_id a) (ia_ip a).
Lemma bare_owned a : bare a -> owned w0 a = ∅.
Proof. intros ->. unfold owned, arp_of, fwd_of, rev_of. cbn. destruct (the_range _ _) as [rg|]; cbn; [|done].
  by destruct (the_router w0 rg), (rg_forward_dns_server_id rg), (rg_reverse_dns_server_id rg). Qed.
Lemma bare_sound a : bare a -> easy w0 a -> exists rg, sound w0 a rg.
Proof.
  intros -> (rg & net & H1' & H2' & _). exists rg. constructor; try done; cbn; by intros [].
Qed.
(** The stage, when the rows are the assigned one and others that own nothing. *)
Lemma fresh_start a a' rest c c' w w' : bare a -> Assigned a a' (c, w) ->
  (exists net, parse_net (ia_ip a) = Some net /\ is_v4 net = true) ->
  in_ctx w0 v c' w' -> sc_ips c' = a' :: rest -> sc_generated_mac c' = sc_generated_mac c -> sc_ranges c ⊆ sc_ranges c' ->
  Forall (easy w0) rest -> Forall bare rest ->
  vw_vms w' = vms_with w0 v (mac_of c') -> vw_ips w' = vw_ips w0 -> live w' = live w ->
  Fresh w0 v (both (only_gen w0) (no_dns w0)) ∅ (c', w').
Proof using RL.
  intros Hb Has Hnet Hc Hl Hgen Hrgs Heasy Hbare Hv Hi Hlive.
  destruct Has as [_ _ _ Hrow (mac & Emac & _ & rg & Erg & Hin & Hcase)]. cbn [fst snd] in *.
  assert (ia_range_id a' = ia_range_id a /\ ia_ip a' = ia_ip a /\ ia_vm_id a' = vr_id v /\ ia_id a' = 0 /\ ia_deleted a' = false /\
    ia_dns_forward_ref a' = None /\ ia_dns_reverse_ref a' = None) as (Er & Ei & Ev & Eid0 & Edel & Ef & Eb)
    by (rewrite Hrow; unfold bare in Hb; rewrite Hb; done).
  assert (owned w0 a' = ref_at ArpAt (the_router w0 rg) (ia_arp_ref a')) as Hown.
  { unfold owned, arp_of, fwd_of, rev_of. rewrite Er, Erg, Ef, Eb. cbn. 
    destruct (rg_forward_dns_server_id rg), (rg_reverse_dns_server_id rg); cbn; set_solver +. }
  assert (fwd_of w0 a' = ∅ /\ rev_of w0 a' = ∅) as [Hfw Hrv].
  { unfold fwd_of, rev_of. rewrite Er, Erg, Ef, Eb. cbn. by destruct (rg_forward_dns_server_id rg), (rg_reverse_dns_server_id rg). }
  assert (owned_all w0 rest = ∅) as Hrest.
  { unfold owned_all. clear -Hbare. induction Hbare as [|x l Hx _ IH]; [done|]. cbn. rewrite IH, bare_owned by done. set_solver +. }
  assert (sound w0 a' rg /\ gen_at w0 c' (owned w0 a') /\ live w' = owned w0 a' ∪ base /\ base ## owned w0 a') as (Hs & Hg & Hlw & Hnew).
  { destruct (arp_id mac) as [id|] eqn:Eid.
    - destruct Hcase as (r & Hro & Hr & Hout & Hl' & Ea'). rewrite Hown, Hro, Ea'. cbn [ref_at]. split_and!.
      + constructor; rewrite ?Er, ?Ei, ?Ef, ?Eb; try done; [|by destruct Hnet as (? & -> & _)].
        intros _. split; [done|]. intros ap Hap. revert Hro. unfold the_router. rewrite Hap. cbn.
        destruct (the_policy w0 ap) as [p|]; [|done]. cbn. intros Hp. by exists p, r.
      + unfold gen_at. rewrite Hgen, Emac. cbn. rewrite Eid. exists a', rest, rg, r. rewrite Er. split_and!; try done. by apply Hrgs.
      + by rewrite Hlive, Hl'.
      + set_solver +Hout.
    - destruct Hcase as [Hl' Ea']. rewrite Hown, Ea'. assert (ref_at ArpAt (the_router w0 rg) None = ∅) as -> by by destruct (the_router w0 rg).
      split_and!.
      + constructor; rewrite ?Er, ?Ei, ?Ef, ?Eb, ?Ea'; try done; by destruct Hnet as (? & -> & _).
      + unfold gen_at. rewrite Hgen, Emac. cbn. by rewrite Eid.
      + rewrite Hlive, Hl'. set_solver +.
      + set_solver +. }
  assert (owned_all w0 (a' :: rest) = owned w0 a') as Hall.
  { unfold owned_all in *. cbn. rewrite Hrest. set_solver +. }
  pose proof (ic_since _ _ _ _ Hc) as Hs'.
  constructor; cbn [fst snd]; rewrite ?Hl.
  - constructor; cbn [fst snd]; rewrite ?Hl; [done|done| | |].
    + exists []. rewrite app_nil_r. split; [done|]. split; [by left|constructor].
    + constructor; [done|]. eapply Forall_impl; [exact Hbare|]. by intros x ->.
    + exists (owned w0 a'). split_and!; [done| |].
      * constructor; [split; [by unfold only_gen|by split]|]. eapply Forall_impl; [exact Hbare|]. intros x Hx. pose proof (bare_owned _ Hx) as Hx0.
        split; unfold only_gen, no_dns; rewrite ?Hx0; [apply empty_subseteq|]. unfold owned in Hx0. set_solver +Hx0.
      * constructor.
        -- constructor; [exists rg; by apply (sound_since w0 w')|]. apply Forall_forall. intros x Hx.
           rewrite Forall_forall in Heasy, Hbare. destruct (bare_sound x) as [rg' Hx']; [by apply Hbare|by apply Heasy|].
           exists rg'. by apply (sound_since w0 w').
        -- rewrite (owned_all_since w0 w') by done. rewrite Hall. constructor; rewrite ?Hlw; [set_solver +|set_solver +|set_solver +Hnew].
        -- apply si_log, Hs'.
  - constructor; [done|]. eapply Forall_impl; [exact Hbare|]. by intros x ->.
  - done.
  - intros g Hg'. rewrite Hall, (gen_at_eq _ _ _ _ Hg' Hg). done.
  - by exists a', rest.
  - set_solver +.
  - by left.
Qed.

(** The row of the machine is written last. *)
Lemma write_mac_step a a' rest c c' w w' : bare a -> Assigned a a' (c, w) ->
  (exists net, parse_net (ia_ip a) = Some net /\ is_v4 net = true) ->
  in_ctx w0 v c' w' -> sc_ips c' = a' :: rest -> sc_generated_mac c' = sc_generated_mac c -> sc_ranges c ⊆ sc_ranges c' ->
  Forall (easy w0) rest -> Forall bare rest -> quiet w w' ->
  post (c ←! held; up (update_vm (sc_vm c))) (c', w') (fun r s =>
    match r with Ok _ => Fresh w0 v (both (only_gen w0) (no_dns w0)) ∅ s | Err _ => Start s end).
Proof using RL BL.
  intros Hb Has Hnet Hc Hl Hgen Hrgs Heasy Hbare Hq. op_steps.
  assert (still w0 w') as Ht by (etrans; [apply (as_still _ _ _ Has)|apply Hq]).
  rewrite (ic_vm _ _ _ _ Hc). apply (update_vm_with good_mac w0 v RL UNASSIGNED_MAC).
  { rewrite vms_blank by done. apply Ht. }
  intros w2 Hs2 Hi2 Hn2 Hl2 Hv2. apply (fresh_start a a' rest c c' w w2); try done.
  - destruct Hc as [C1 C2 C3 C4 C5 C6]. constructor; try done; [by etrans|by rewrite Hn2].
  - rewrite Hi2. apply Ht.
  - rewrite Hl2. apply Hq.
Qed.
Lemma assign_v6_step a' c w v6 : in_ctx w0 v c w -> sc_ips c = [a'] ->
  (exists v6' a, v6_to_allocation v6 (vr_id v) (mac_of c) = Ok (v6', a) /\ easy w0 (new_assignment (vr_id v) (av_range_id v6') (a_ip a))) ->
  forall (Φ : OpResult unit NetFail -> SpawnVmContext * VmWorld -> Prop),
  (forall c' w' rest, in_ctx w0 v c' w' -> sc_ips c' = a' :: rest -> sc_generated_mac c' = sc_generated_mac c ->
    sc_ranges c ⊆ sc_ranges c' -> Forall (easy w0) rest -> Forall bare rest -> quiet w w' -> Φ (Ok tt) (c', w')) ->
  post (assign_v6 v6) (c, w) Φ.
Proof using RL.
  intros Hc Hl (v6' & a6 & Ev6 & Heasy) Φ HP. unfold assign_v6. op_steps.
  rewrite (ctx_vm_id _ _ _ _ Hc). fold (mac_of c). rewrite Ev6.
  set (row := new_assignment (vr_id v) (av_range_id v6') (a_ip a6)) in *.
  assert (forall w', quiet w w' -> in_ctx w0 v (set_sc_ips (sc_ips c ++ [row]) c) w') as Hc'.
  { intros w' Hq. destruct (in_ctx_quiet _ _ _ Hq Hc). by constructor. }
  unfold push_ip. op_steps.
  - apply (HP _ _ [row]); [by apply Hc'|cbn; by rewrite Hl|done|done|by constructor|by constructor|done].
  - destruct Heasy as (rg & net & Erg & Hrest). cbn in Erg.
    apply (post_get_range _ _ _ RL); rewrite (the_range_since w0 w) by apply Hc; intros w1; [intros rg' Hq E|intros e _ E; congruence].
    simplify_eq. op_steps. pose proof Erg as Hid. apply the_range_id in Hid.
    apply (HP _ _ [row]).
    + apply in_ctx_push; [by apply Hc'|by rewrite Hid].
    + destruct (push_range_same rg (set_sc_ips (sc_ips c ++ [row]) c)) as (-> & _). cbn. by rewrite Hl.
    + by destruct (push_range_same rg (set_sc_ips (sc_ips c ++ [row]) c)) as (_ & -> & _).
    + exact (push_range_sub rg (set_sc_ips (sc_ips c ++ [row]) c)).
    + constructor; [by exists rg, net|done].
    + by constructor.
    + done.
Qed.
Lemma ip_allocation_step s : Start s -> post (ip_allocation shuffle fuel) s (fun r s' =>
  match r with Ok _ => Fresh w0 v (both (only_gen w0) (no_dns w0)) ∅ s' | Err _ => Start s' end).
Proof using RL BL PL.
  intros Hs. destruct s as [c w]. pose proof Hs as [Hc Hips Hgen Hmac Hq0]. cbn [fst snd] in *.
  unfold ip_allocation. apply post_bind. unfold assign_ips. op_steps. rewrite Hips. op_steps.
  apply post_pick; [apply Hq0| |].
  2: { intros e w' Hq. constructor; cbn [fst snd]; [by eapply in_ctx_quiet|done..|by etrans]. }
  intros ip w1 Hq1 Epick. destruct (PL _ _ (ic_hosts _ _ _ _ Hc) Epick) as [H4 H6].
  assert (Start (c, w1)) as Hs1 by (constructor; cbn [fst snd]; [by eapply in_ctx_quiet|done..|by etrans]).
  op_steps. destruct (ip4 ip) as [v4|]; op_steps; [|done].
  rewrite (ctx_vm_id _ _ _ _ Hc). set (row := new_assignment (vr_id v) (av_range_id v4) (show_ip (addr_of (av_ip v4)))).
  eapply post_mono; [by apply (assign_mac_step row)|]. intros [a'|e] [c2 w2]; [|done]. intros Has. cbn [on_ok].
  destruct (H4 _ eq_refl) as (net & Hnet & Hv4). unfold push_ip. op_steps.
  pose proof (as_ips _ _ _ Has) as Eips. cbn in Eips. rewrite Eips. cbn [app].
  set (c3 := set_sc_ips [a'] c2).
  assert (in_ctx w0 v c3 w2) as Hc3 by (destruct (as_ctx _ _ _ Has); by constructor).
  destruct (ip6 ip) as [v6|]; cbn [on_ok].
  - apply (assign_v6_step a'); [done|done| |].
    + destruct (as_mac _ _ _ Has) as (mac & _ & Hgood & _). cbn in Hgood. by apply H6.
    + intros c' w' rest A1 A2 A3 A4 A5 A6 A7. cbn [on_ok]. by eapply write_mac_step; [| | |done|exact A2|..]; [|exact Has|by exists net|..].
  - apply post_done. cbn [on_ok]. eapply (write_mac_step row a' [] c2 c3); try done. by exists net.
Qed.

(** ** Saving *)

Record moved (w w' : VmWorld) : Prop := {
  mv_since : since w w'; mv_vms : vw_vms w' = vw_vms w; mv_live : live w' = live w; mv_next : 0 < vw_next_ip w'
}.
Definition renumbered (a a' : IpRow) : Prop := exists id, a' = set_row id false a.
(** The rows that were added, and where the operation stands. *)
Record saves (l l' new : list IpRow) (r : OpResult unit NetFail) : Prop := {
  ss_rows : Forall2 renumbered l l';
  ss_in : forall a, a ∈ l' -> ia_id a <> 0 -> a ∈ l \/ a ∈ new;
  ss_new : forall a, a ∈ new -> a ∈ l' /\ ia_id a <> 0;
  ss_kept : forall a, a ∈ l -> ia_id a <> 0 -> a ∈ l';
  ss_ok : r = Ok tt -> Forall (fun a => ia_id a <> 0) l';
  ss_err : r <> Ok tt -> exists n, sql_ok n Insert = false
}.
Lemma renumbered_refl a : ia_deleted a = false -> renumbered a a.
Proof. intros Hd. exists (ia_id a). rewrite <- Hd. by destruct a. Qed.
Lemma save_one a w : ia_deleted a = false -> 0 < vw_next_ip w -> post save_ip (a, w) (fun r s =>
  exists new, vw_ips s.2 = vw_ips w ++ new /\ moved w s.2 /\ saves [a] [s.1] new r).
Proof.
  intros Hd Hn r s. unfold save_ip, op_bind, held. destruct (ia_id a =? 0) eqn:Eid.
  - apply Z.eqb_eq in Eid as Eid'. unfold persist_ip_assignment, op_bind, held. rewrite Eid. unfold up, insert_vm_ip_row.
    assert (forall (l : list IpRow) (x : IpRow), x ∈ [a] -> ia_id x <> 0 -> x ∈ l) as Hnone by (intros l x ->%list_elem_of_singleton; by rewrite Eid').
    destruct (sql_ok (vw_queries w) Insert) eqn:Es; cbn.
    + intros [= <- <-]. rewrite Hd. exists [set_row (vw_next_ip w) false a]. cbn. split; [done|]. split; [constructor; cbn; [by constructor|done|done|lia]|].
      constructor; [by repeat econstructor|set_solver +| |apply Hnone|by constructor; [cbn; lia|]|done].
      intros x ->%list_elem_of_singleton. split; [set_solver +|cbn; lia].
    + intros [= <- <-]. exists []. rewrite app_nil_r. cbn. split; [done|]. split; [by constructor|].
      constructor; [by repeat constructor; apply renumbered_refl|set_solver +|set_solver +|apply Hnone|done|by eexists].
  - cbn. intros [= <- <-]. exists []. rewrite app_nil_r. split; [done|]. split; [by constructor|].
    constructor; [by repeat constructor; apply renumbered_refl|set_solver +|set_solver +|done| |done].
    intros _. constructor; [cbn; lia|done].
Qed.
Lemma saves_cons a a' l l' n1 n2 r : saves [a] [a'] n1 (Ok tt) -> saves l l' n2 r -> saves (a :: l) (a' :: l') (n1 ++ n2) r.
Proof.
  intros [R1 I1 N1 K1 O1 E1] [R2 I2 N2 K2 O2 E2]. constructor.
  - constructor; [by inversion R1|done].
  - intros x [->|Hx]%elem_of_cons Hid.
    + destruct (I1 a') as [H'|H']; [set_solver +|done|set_solver +H'|set_solver +H'].
    + destruct (I2 x) as [H'|H']; [done|done|set_solver +H'|set_solver +H'].
  - intros x [Hx|Hx]%elem_of_app; [apply N1 in Hx as [Hx ?]|apply N2 in Hx as [Hx ?]]; (split; [|done]); set_solver +Hx.
  - intros x [->|Hx]%elem_of_cons Hid; [specialize (K1 a ltac:(set_solver +) Hid); set_solver +K1|]. apply elem_of_cons. right. by apply K2.
  - intros Hr. constructor; [|by apply O2]. specialize (O1 eq_refl). by apply Forall_cons in O1 as [? _].
  - done.
Qed.
Lemma save_all l w : Forall (fun a => ia_deleted a = false) l -> 0 < vw_next_ip w -> forall r l' w',
  each_ip save_ip l w = (Some r, (l', w')) -> exists new, vw_ips w' = vw_ips w ++ new /\ moved w w' /\ saves l l' new r.
Proof.
  intros Hd. revert w. induction Hd as [|a l Ha Hd IH]; intros w Hn r l' w'; cbn [each_ip].
  { intros [= <- <- <-]. exists []. rewrite app_nil_r. split; [done|]. split; [by constructor|].
    constructor; [constructor|set_solver +|set_solver +|done|constructor|done]. }
  destruct (save_ip (a, w)) as [[o|] [a1 w1]] eqn:E; [|done].
  destruct (save_one _ _ Ha Hn _ _ E) as (n1 & En1 & M1 & S1). cbn [fst snd] in *. destruct o as [[]|e].
  - destruct (each_ip save_ip l w1) as [o2 [l2 w2]] eqn:El. intros [= -> <- <-].
    destruct (IH w1 (mv_next _ _ M1) _ _ _ El) as (n2 & En2 & M2 & S2). exists (n1 ++ n2).
    split; [by rewrite En2, En1, assoc_L by apply _|]. split; [|by apply saves_cons].
    destruct M1, M2. constructor; [by etrans|congruence|congruence|done].
  - intros [= <- <- <-]. exists n1. split; [done|]. split; [done|]. destruct S1 as [R1 I1 N1 K1 O1 E1].
    constructor; [|set_solver +I1|set_solver +N1| |done|done].
    + constructor; [by inversion R1|]. apply Forall_Forall2_diag. eapply Forall_impl; [exact Hd|]. apply renumbered_refl.
    + intros x [->|Hx]%elem_of_cons Hid; [specialize (K1 a ltac:(set_solver +) Hid); set_solver +K1|set_solver +Hx].
Qed.

(** While the addresses are being saved. *)
Record Saving (s : SpawnVmContext * VmWorld) : Prop := {
  sv_ctx : in_ctx w0 v s.1 s.2;
  sv_vms : vw_vms s.2 = vms_with w0 v (mac_of s.1);
  sv_ips : exists rows, vw_ips s.2 = vw_ips w0 ++ rows /\ (rows = [] \/ exists n, sql_ok n Insert = false) /\
    (forall a, a ∈ sc_ips s.1 -> ia_id a <> 0 -> a ∈ rows) /\ (forall a, a ∈ rows -> a ∈ sc_ips s.1 /\ ia_id a <> 0);
  sv_mine : sc_ips s.1 <> [] /\ Forall (fun a => ia_vm_id a = vr_id v /\ ia_deleted a = false) (sc_ips s.1);
  sv_live : exists g, gen_at w0 s.1 g /\ g ⊆ owned_all w0 (sc_ips s.1) /\ all_ready n0 base s.2 (sc_ips s.1) (g ∪ at_host v);
  sv_host : VmAt (vr_host_id v) (vr_id v) ∈ live s.2;
  sv_made : made w0 v (mac_of s.1) (ia_ip <$> sc_ips s.1) s.2
}.
(** What a spawn leaves in the world: the machine made with the MAC address of its row
    and the addresses of its rows, and nothing that no row refers to. *)
Record Spawned (w : VmWorld) (mac : string) (rows : list IpRow) : Prop := {
  sp_since : since w0 w;
  sp_vms : vw_vms w = vms_with w0 v mac;
  sp_ips : vw_ips w = vw_ips w0 ++ rows;
  sp_rows : rows <> [] /\ Forall (fun a => ia_vm_id a = vr_id v /\ ia_deleted a = false) rows;
  sp_live : all_ready n0 base w rows (at_host v);
  sp_host : VmAt (vr_host_id v) (vr_id v) ∈ live w;
  sp_made : exists ips, made w0 v mac ips w /\ forall i, i ∈ ips <-> i ∈ ia_ip <$> rows
}.
Lemma fresh_saving s : Fresh w0 v anything (at_host v) s -> Saving s.
Proof.
  intros [[H1' H2' _ H4' (g & Hg & _ & Hr)] Hids Hips Hgen (a & rest & E & _) Hhost Hmade]. constructor.
  - done.
  - done.
  - exists []. rewrite app_nil_r. split_and!; [done|by left| |set_solver +].
    intros x Hx Hid. rewrite Forall_forall in Hids. by apply Hids in Hx as [? _].
  - split; [by rewrite E|]. rewrite Forall_forall in Hids, H4' |- *. intros x Hx. split; [by apply H4'|by apply Hids].
  - exists g. split_and!; [done|by apply Hgen|done].
  - apply Hhost. unfold at_host. set_solver +.
  - destruct Hmade as [E'|]; [|done]. exfalso. unfold at_host in E'. set_solver +E'.
Qed.
Lemma saving_stage s : Saving s -> Stage w0 v (anything) (at_host v) s.
Proof.
  intros [H1' H2' (rows & Er & Hf & _ & Hin) [_ Hm] (g & Hg & _ & Hr) _ _]. constructor; [done|done| | |].
  - exists rows. split; [done|]. split; [done|]. apply Forall_forall. intros x Hx. rewrite Forall_forall in Hm. by apply Hm, Hin.
  - eapply Forall_impl; [exact Hm|]. by intros x [? _].
  - exists g. split_and!; [done|by apply Forall_forall|done].
Qed.
Lemma renumbered_ready w l l' X : Forall2 renumbered l l' -> all_ready n0 base w l X -> all_ready n0 base w l' X.
Proof.
  intros Hf [S1 S2 S3]. constructor; [| |done].
  - eapply Forall_across; [exact S1|exact Hf|]. intros a a' [rg [A1 A2 A3 A4 A5]] [id ->]. exists rg. by constructor.
  - eapply sw_eq; [exact S2| |done]. f_equal. unfold owned_all. clear -Hf. induction Hf as [|a a' l l' [id ->] _ IH]; [done|].
    cbn. by rewrite IH.
Qed.
Lemma renumbered_owned l l' : Forall2 renumbered l l' -> owned_all w0 l' = owned_all w0 l.
Proof. intros Hf. unfold owned_all. induction Hf as [|a a' l l' [id ->] _ IH]; [done|]. cbn. by rewrite IH. Qed.
Lemma same_ready w l l' X : (forall a, a ∈ l <-> a ∈ l') -> all_ready n0 base w l X -> all_ready n0 base w l' X.
Proof.
  intros Hin [S1 S2 S3]. constructor; [| |done].
  - rewrite Forall_forall in S1 |- *. intros x Hx. by apply S1, Hin.
  - eapply sw_eq; [exact S2| |done]. f_equal. apply set_eq. intros x. unfold owned_all. rewrite !elem_of_union_list.
    split; intros (Y & HY & Hx); exists Y; (split; [|done]); apply list_elem_of_fmap in HY as (a & -> & Ha);
      apply list_elem_of_fmap; exists a; (split; [done|]); by apply Hin.
Qed.
End alloc.
