(* ===== verification/VmSpawnProofs.v ===== *)
(** * Spawning is all or nothing

    The pipeline as stages: a spawn that fails leaves what was there, one that
    succeeds has recorded everything it made ([VmDelete] takes it away again). *)

From Stdlib Require Import Ascii String.
From stdpp Require Import list gmap.
From S2P Require Import Prelude TryProcedure IpAlloc NetText Network VmNet VmLive VmCell VmSpawn VmStages VmAlloc.

Section spawned.
Context `{NL : !NetLib, RD : !Rand, HX : !HexLib, SV : !Services} (policy : RetryPolicy).
Context (shuffle : list IpRange -> list IpRange) (fuel : nat).
Context (good_mac : string -> Prop) (w0 : VmWorld) (v : VmRow).
Notation base := (live w0).
Notation n0 := (length (vw_log w0)).
Context (RL : reliable good_mac n0 base).
Context (BL : blank w0 v) (PL : placeable shuffle fuel good_mac w0 v).

Lemma renumbered_gen c l g : Forall2 renumbered (sc_ips c) l -> gen_at w0 c g -> gen_at w0 (set_sc_ips l c) g.
Proof.
  intros Hf. unfold gen_at. cbn. destruct (_ ≫= arp_id); [|done]. intros (a & rest & rg & r & E & Hrest).
  rewrite E in Hf. apply Forall2_cons_inv_l in Hf as (a' & rest' & [id ->] & _ & ->). by exists (set_row id false a), rest', rg, r.
Qed.
Lemma all_ready_moved w w' l X : moved w w' -> all_ready n0 base w l X -> all_ready n0 base w' l X.
Proof.
  intros [Hs _ Hl _] [S1 S2 S3]. constructor.
  - eapply Forall_impl; [exact S1|]. intros a [rg Ha]. exists rg. by apply (sound_since w w').
  - eapply sw_eq; [exact S2| |done]. by rewrite (owned_all_since w w').
  - pose proof (si_log _ _ Hs). lia.
Qed.
Lemma save_step s : Saving w0 v s -> post (on_ips save_ip) s (fun r s' =>
  match r with Ok _ => exists mac rows, Spawned w0 v s'.2 mac rows | Err _ => Saving w0 v s' end).
Proof.
  intros [Hc Hv (rows & Er & Hf & Hin & Hrows) [Hne Hm] (g & Hg & Hsub & Hr) Hh Hmade]. destruct s as [c w]. cbn [fst snd] in *.
  intros r s'. unfold on_ips. destruct (each_ip save_ip (sc_ips c) w) as [o [l w']] eqn:E. intros [= -> <-].
  apply save_all in E as (new & En & M & [R I N K O Er']); [|by eapply Forall_impl; [exact Hm|]; intros x [_ ?]|apply Hc].
  assert (in_ctx w0 v (set_sc_ips l c) w') as Hc'.
  { destruct Hc as [C1 C2 C3 C4 C5 C6]. constructor; try done; [etrans; [exact C5|apply M]|apply M]. }
  assert (forall a, a ∈ rows ++ new -> a ∈ l /\ ia_id a <> 0) as Hrows'.
  { intros a [Ha|Ha]%elem_of_app; [|by apply N]. apply Hrows in Ha as [Ha Hid]. split; [by apply K|done]. }
  assert (forall a, a ∈ l -> ia_id a <> 0 -> a ∈ rows ++ new) as Hin'.
  { intros a Ha Hid. apply elem_of_app. destruct (I a Ha Hid) as [Ha'|Ha']; [left; by apply Hin|by right]. }
  assert (Forall (fun a => ia_vm_id a = vr_id v /\ ia_deleted a = false) l) as Hm'.
  { eapply Forall_across; [exact Hm|exact R|]. by intros a a' [? _] [id ->]. }
  assert (made w0 v (mac_of c) (ia_ip <$> l) w') as Hmade'.
  { assert (ia_ip <$> l = ia_ip <$> sc_ips c) as -> by (clear -R; induction R as [|x x' l l' [id ->] _ IH]; [done|cbn; by rewrite IH]).
    eapply answered_mono; [apply M|exact Hmade]. }
  assert (l <> []) as Hne' by (intros ->; apply Forall2_nil_inv_r in R; done).
  assert (all_ready n0 base w' l (g ∪ at_host v)) as Hr' by (by eapply renumbered_ready; [exact R|eapply all_ready_moved]).
  assert (g ⊆ owned_all w0 l) as Hsub' by by rewrite (renumbered_owned _ _ _ R).
  destruct r as [[]|e].
  - exists (mac_of c), (rows ++ new). specialize (O eq_refl). rewrite Forall_forall in O.
    assert (forall a, a ∈ l <-> a ∈ rows ++ new) as Hsame.
    { intros a. split; [intros Ha; apply Hin'; [done|by apply O]|apply Hrows']. }
    constructor; cbn [fst snd].
    + apply Hc'.
    + by rewrite (mv_vms _ _ M).
    + by rewrite En, Er, assoc_L by apply _.
    + split.
      * destruct l as [|a l0]; [done|]. specialize (proj1 (Hsame a) ltac:(set_solver +)). by destruct (rows ++ new); [set_solver +|].
      * rewrite Forall_forall in Hm' |- *. intros a Ha. by apply Hm', Hsame.
    + eapply same_ready; [exact Hsame|]. destruct Hr' as [S1 S2 S3]. constructor; [done| |done].
      eapply sw_eq; [exact S2| |done]. rewrite (owned_all_since w0 w') by apply Hc'. set_solver +Hsub'.
    + by rewrite (mv_live _ _ M).
    + exists (ia_ip <$> l). split; [done|]. intros i. rewrite !list_elem_of_fmap. by split; intros (x & -> & Hx); exists x; (split; [done|]); apply Hsame.
  - constructor; cbn [fst snd]; [done|by rewrite (mv_vms _ _ M)| | | |by rewrite (mv_live _ _ M)|done].
    + exists (rows ++ new). split; [by rewrite En, Er, assoc_L by apply _|]. split; [right; by apply Er'|]. done.
    + done.
    + exists g. split_and!; [by apply renumbered_gen|done|done].
Qed.

(** ** The pipeline *)

Lemma sure_attempt {Ctx} (st : @PipelineStep Ctx VmWorld NetFail) (P Q : Ctx * VmWorld -> Prop) :
  (forall s, P s -> post (action st) s (fun r s' => r = Ok tt /\ Q s')) -> attempts P st Q.
Proof. intros Ha s r s' Hs E. by destruct (Ha s Hs r s' E) as [-> ?]. Qed.
Lemma spawn_staged c : staged (Start w0 v) (Undone w0 v) (steps (spawn_pipeline policy shuffle fuel c))
  (fun s => exists mac rows, Spawned w0 v s.2 mac rows).
Proof using RL BL PL.
  set (dns_free := both (only_gen w0) (no_dns w0)).
  split. { intros s Hs. constructor; [apply Hs|apply Hs|apply Hs|]. exists []. rewrite app_nil_r. split; [apply Hs|]. split; [by left|constructor]. }
  exists (Fresh w0 v dns_free ∅), (Stage w0 v (only_gen w0) ∅). split; [|split].
  { intros s r s' Hs E. exact (ip_allocation_step _ _ _ _ _ RL BL PL s Hs r s' E). }
  { intros s r s' Hs E. exact (rollback_assign_step _ _ _ RL BL s Hs r s' E). }
  split. { intros s Hs. eapply Stage_mono; [|apply Hs]. by intros g a [? _]. }
  exists (Fresh w0 v dns_free (at_host v)), (Stage w0 v (only_gen w0) (at_host v)). split; [|split].
  { intros s r s' Hs E. exact (host_spawn_step _ _ _ BL s Hs r s' E). }
  { intros s r s' Hs E. exact (host_unspawn_step _ _ _ RL _ s Hs r s' E). }
  split. { intros s Hs. eapply Stage_mono; [|apply Hs]. by intros g a [? _]. }
  exists (Fresh w0 v (no_dns w0) (at_host v)), (Stage w0 v (no_dns w0) (at_host v)). split; [|split].
  { intros s r s' Hs E. exact (arp_setup_step _ _ _ RL _ s Hs r s' E). }
  { intros s r s' Hs E. exact (arp_remove_step _ _ _ _ RL _ s Hs r s' E). }
  split. { by intros s []. }
  exists (Fresh w0 v (no_rev w0) (at_host v)), (Stage w0 v (no_rev w0) (at_host v)). split; [|split].
  { apply sure_attempt. intros s Hs. exact (dns_forward_step _ _ _ _ RL _ s Hs). }
  { intros s r s' Hs E. exact (dns_unforward_step _ _ _ _ RL _ s Hs r s' E). }
  split. { by intros s []. }
  exists (Saving w0 v), (Stage w0 v anything (at_host v)). split; [|split].
  { apply sure_attempt. intros s Hs. eapply post_mono; [exact (dns_reverse_step _ _ _ _ RL _ s Hs)|].
    intros r s' [-> Hs']. split; [done|by apply fresh_saving]. }
  { intros s r s' Hs E. exact (dns_unreverse_step _ _ _ _ RL _ s Hs r s' E). }
  split. { intros s Hs. by apply saving_stage. }
  exists (fun s => exists mac rows, Spawned w0 v s.2 mac rows), (fun _ => False). split; [|split].
  - intros s r s' Hs E. exact (save_step s Hs r s' E).
  - by intros s r s' [].
  - by intros s Hs.
Qed.

(** ** The whole operation *)

Lemma load_start w : quiet w0 w -> post (load (vr_id v)) w (fun r w' =>
  match r with Ok c => Start w0 v (c, w') | Err _ => quiet w0 w' end).
Proof using RL BL PL.
  intros Hq0. unfold load. apply post_fatally. op_steps.
  apply (post_query_one _ _ _ RL); intros w1; [intros v' Hq1 Hv|intros Hq1 _; cbn; by etrans]. cbn [on_ok].
  apply head_filter in Hv as [Hid Hin]. rewrite (st_vms _ _ Hq0) in Hin. apply (bl_key _ _ BL) in Hin as ->; [|done].
  apply post_bind, (post_query_one _ _ _ RL); intros w2; [intros h Hq2 Hh|intros Hq2 _; cbn; by etrans; [exact Hq0|etrans]]. cbn [on_ok].
  apply head_filter in Hh as [Hhid Hhin]. rewrite (si_hosts _ _ (st_since _ _ (qt_still _ _ Hq1))), (si_hosts _ _ (st_since _ _ (qt_still _ _ Hq0))) in Hhin.
  assert (quiet w0 w2) as Hq02 by (etrans; [exact Hq0|by etrans]).
  apply post_bind, post_or_fatal; [intros k _|by intros _]. cbn [on_ok].
  apply post_bind, (post_query _ _ _ RL). intros w3 Hq3. cbn [on_ok].
  assert (filter (fun a => ia_vm_id a = vr_id v /\ ia_deleted a = false) (vw_ips w2) = []) as ->.
  { rewrite (st_ips _ _ Hq02). apply filter_none. intros a Ha [Hm Hd]. by rewrite (bl_ips _ _ BL a Ha Hm) in Hd. }
  apply post_bind, (post_query _ _ _ RL). intros w4 Hq4. cbn [on_ok].
  assert (filter (fun r => r_id (rg_range r) ∈ ia_range_id <$> []) (vw_ranges w3) = []) as ->.
  { apply filter_none. intros r _ Hr. cbn in Hr. by apply elem_of_nil in Hr. }
  assert (quiet w0 w4) as Hq04 by (etrans; [exact Hq02|by etrans]).
  apply post_done. constructor; cbn [fst snd sc_ips sc_generated_mac]; [|done|done|apply BL|done].
  constructor; cbn; [by destruct v|done|done|intros rg Hrg; by apply elem_of_nil in Hrg|apply Hq04|].
  rewrite (st_next _ _ (qt_still _ _ Hq04)). apply BL.
Qed.
Lemma spawn_cases ro w' r : spawn_vm policy shuffle fuel ro (vr_id v) w0 = (Some r, w') ->
  match r with
  | Ok _ => exists mac rows, Spawned w0 v w' mac rows
  | Err _ => exists c, Undone w0 v (c, w')
  end.
Proof using RL BL PL.
  assert (forall c w, quiet w0 w -> Undone w0 v (c, w)) as Hundone.
  { intros c w Hq. constructor; [apply Hq|apply Hq|apply Hq|]. exists []. rewrite app_nil_r. split; [apply Hq|]. split; [by left|constructor]. }
  revert r w'. change (post (spawn_vm policy shuffle fuel ro (vr_id v)) w0 (fun r w' => match r with
    | Ok _ => exists mac rows, Spawned w0 v w' mac rows | Err _ => exists c, Undone w0 v (c, w') end)).
  pose (c0 := {| sc_vm := v; sc_host := {| hr_id := 0; hr_region_id := 0 |}; sc_ips := []; sc_ranges := []; sc_generated_mac := None |}).
  unfold spawn_vm. apply post_bind. unfold spawn_vm_pipeline. destruct ro; [apply post_fatal; exists c0; by apply Hundone|].
  apply post_bind. eapply post_mono; [by apply load_start|]. intros [c|e] w1 Hs; [|exists c0; by apply Hundone].
  cbn [on_ok]. apply post_bind. unfold get_host_client. apply post_fatally. apply post_bind.
  apply (post_remote (OpenHost (hr_id (sc_host c)))).
  2: { intros w2 e Hq. exists c0. apply Hundone. etrans; [apply (su_quiet _ _ _ Hs)|done]. }
  intros w2 [] Hcall. cbn [on_ok]. apply post_done. cbn [on_ok]. apply post_done. cbn [on_ok].
  assert (quiet w1 w2) as Hq by exact (called_quiet (OpenHost _) tt _ _ (fun l => eq_refl) Hcall).
  assert (Start w0 v (c, w2)) as Hs2.
  { destruct Hs as [S1 S2 S3 S4 S5]. constructor; cbn [fst snd] in *; [by eapply in_ctx_quiet|done|done|done|by etrans]. }
  intros r w'. unfold execute, Pipeline_execute.
  destruct (Pipeline_run no_sleep (spawn_pipeline policy shuffle fuel c) w2) as [o [c' w3]] eqn:Erun.
  assert (forall r, o = Done r -> match r with Ok _ => exists mac rows, Spawned w0 v w3 mac rows | Err _ => Undone w0 v (c', w3) end) as Hrun.
  { intros r0 ->. exact (staged_pipeline no_sleep _ _ _ _ _ _ _ (fun _ _ => eq_refl) (spawn_staged c) Hs2 Erun). }
  destruct o as [[[]|e]| |]; intros [= <- <-]; [by apply (Hrun (Ok tt))|exists c'; by apply (Hrun (Err e))].
Qed.
End spawned.

(** C3: A spawn that fails, at whichever step and after however many retries, leaves
    every ARP entry, DNS record and machine at the services as it was, and the row of
    the machine too; only an insertion that the database refused can leave rows
    behind, and they are the machine's own. This is of a machine that had nothing
    before ([blank]: its own row with the placeholder MAC address, no addresses,
    nothing at its host), of services that answer every removal and every opening of a
    connection and give what they create names of its own, of a database that refuses
    insertions at most ([reliable]), and where the range of an IPv6 address makes one
    of every MAC address and leaves it to no router ([placeable]). *)
Theorem failed_spawn_leaves_nothing `{NL : !NetLib, RD : !Rand, HX : !HexLib, SV : !Services} policy shuffle fuel good_mac w0 v ro e w'
    (RL : reliable good_mac (length (vw_log w0)) (live w0)) (BL : blank w0 v) (PL : placeable shuffle fuel good_mac w0 v)
    (Hrun : spawn_vm policy shuffle fuel ro (vr_id v) w0 = (Some (Err e), w')) :
  live w' = live w0 /\ vw_vms w' = vw_vms w0 /\
  exists rows, vw_ips w' = vw_ips w0 ++ rows /\ Forall (fun a => ia_vm_id a = vr_id v) rows /\
    (rows = [] \/ exists n, sql_ok n Insert = false).
Proof.
  destruct (spawn_cases policy shuffle fuel good_mac w0 v RL BL PL ro w' _ Hrun) as (c & [_ Hv Hl (rows & Hr & Hs & Hm)]).
  split_and!; [done|done|]. by exists rows.
Qed.

(** C5: After a spawn that succeeds the machine is at its host; its row has the MAC
    address, and new rows have the addresses, that the host made it with. Nothing that
    existed is gone, and whatever came to exist besides the machine is what one of
    these rows refers to. This is of a machine that had nothing before ([blank]), of
    services that answer removals and give what they create names of its own, of a
    database that refuses insertions at most ([reliable]), and of ranges that take the
    addresses made of a MAC address ([placeable]). *)
Theorem spawned_is_recorded `{NL : !NetLib, RD : !Rand, HX : !HexLib, SV : !Services} policy shuffle fuel good_mac w0 v ro w'
    (RL : reliable good_mac (length (vw_log w0)) (live w0)) (BL : blank w0 v) (PL : placeable shuffle fuel good_mac w0 v)
    (Hrun : spawn_vm policy shuffle fuel ro (vr_id v) w0 = (Some (Ok tt), w')) :
  VmAt (vr_host_id v) (vr_id v) ∈ live w' /\
  exists mac ips rows, made w0 v mac ips w' /\ vw_vms w' = vms_with w0 v mac /\
    vw_ips w' = vw_ips w0 ++ rows /\ rows <> [] /\ (forall i, i ∈ ips <-> i ∈ ia_ip <$> rows) /\
    Forall (fun a => ia_vm_id a = vr_id v /\ ia_deleted a = false) rows /\
    live w0 ⊆ live w' /\ live w' ⊆ live w0 ∪ ({[VmAt (vr_host_id v) (vr_id v)]} ∪ owned_all w' rows).
Proof.
  destruct (spawn_cases policy shuffle fuel good_mac w0 v RL BL PL ro w' _ Hrun)
    as (mac & rows & [_ Hv Hi [Hne Hr] [_ [Hge Hle _] _] Hh (ips & Hm & Hips)]).
  split; [done|]. exists mac, ips, rows. split_and!; try done. unfold at_host in Hle. set_solver +Hle.
Qed.
