(* ===== verification/VmDelete.v ===== *)
(** * Deleting a machine takes away what its rows refer to *)

From Stdlib Require Import Ascii String.
From stdpp Require Import list gmap.
From S2P Require Import Prelude TryProcedure IpAlloc NetText Network VmNet VmLive VmCell VmSpawn VmStages VmAlloc VmSpawnProofs.

Section delete.
Context `{NL : !NetLib, SV : !Services} (policy : RetryPolicy).
Context (good_mac : string -> Prop) (n0 : nat) (base : gset Res) (RL : reliable good_mac n0 base).

(** What happens to the rows of addresses while those with the ids [ids] are deleted. *)
Definition marked (ids : list Z) (x x' : IpRow) : Prop :=
  ia_id x' = ia_id x /\ ia_vm_id x' = ia_vm_id x /\ (ia_deleted x = true \/ ia_id x ∈ ids -> ia_deleted x' = true).
Record deleting (ids : list Z) (w w' : VmWorld) : Prop := {
  dl_since : since w w'; dl_vms : vw_vms w' = vw_vms w; dl_at : same_vms w w';
  dl_ips : Forall2 (marked ids) (vw_ips w) (vw_ips w')
}.
Lemma marked_refl x : marked [] x x.
Proof. split_and!; [done|done|]. intros [?|Hx]; [done|]. by apply elem_of_nil in Hx. Qed.
Lemma deleting_trans i1 i2 w1 w2 w3 : deleting i1 w1 w2 -> deleting i2 w2 w3 -> deleting (i1 ++ i2) w1 w3.
Proof.
  intros [S1 V1 A1 F1] [S2 V2 A2 F2]. constructor; [by etrans|congruence|by etrans|].
  revert F2. generalize (vw_ips w3) as l3. induction F1 as [|x y l1 l2 (E1 & M1 & D1) _ IH]; intros l3 F2.
  { apply Forall2_nil_inv_l in F2 as ->. constructor. }
  apply Forall2_cons_inv_l in F2 as (z & l4 & (E2 & M2 & D2) & F2 & ->). constructor; [|by apply IH].
  split_and!; [congruence|congruence|]. intros [Hd|[Hd|Hd]%elem_of_app]; apply D2; [left; auto..|right; congruence].
Qed.
Lemma still_deleting w w' : still w w' -> same_vms w w' -> deleting [] w w'.
Proof.
  intros [Hs Hv Hi _] Ha. constructor; [done|done|done|]. rewrite Hi. apply Forall_Forall2_diag, Forall_forall. intros x _. apply marked_refl.
Qed.
Lemma deleting_update f ids w (Hf : forall x, marked ids x (f x)) : deleting ids w (set_ips (fmap f) w).
Proof.
  constructor; [by constructor|done|done|]. cbn. induction (vw_ips w) as [|x l IH]; [constructor|]. by constructor.
Qed.

(** ** One address *)

Lemma rollback_after a w rg F : ready n0 base w a rg F -> unlisted base a ->
  post (rollback_ip_assignment_policy policy rg) (a, w) (fun r s =>
    r = Ok tt -> sandwich base F s.2 /\ fixed a s.1 /\ deleting [] w s.2).
Proof using RL.
  intros Hr Hun. unfold rollback_ip_assignment_policy. apply post_bind.
  eapply post_mono; [by eapply (remove_policy_after policy _ _ _ RL)|]. intros r [a1 w1] (Haf & _ & _ & Harp & _).
  cbn [fst snd] in *. destruct r as [[]|e]; [|by intros [=]]. cbn [on_ok].
  eapply post_mono; [eapply (remove_ip_dns_after policy _ _ _ RL), af_ready, Haf|]. intros r [a2 w2]. cbn [fst snd].
  intros (-> & Haf2 & Hsame & Hfw & Hrv) _. pose proof (after_trans _ _ _ _ _ _ _ _ _ _ Haf Haf2) as Hall.
  split_and!; [|apply Hall|apply still_deleting; apply Hall].
  destruct (af_ready _ _ _ _ _ _ _ _ Haf2) as [_ Hsw _]. eapply sw_eq; [exact Hsw| |done].
  pose proof (st_since _ _ (af_still _ _ _ _ _ _ _ _ Haf)) as S1. pose proof (st_since _ _ (af_still _ _ _ _ _ _ _ _ Haf2)) as S2.
  unfold owned. destruct (owned_since w1 w2 a2 S2) as (-> & -> & -> & _). rewrite Hfw, Hrv.
  destruct (owned_since w w1 a2 S1) as (-> & _). specialize (Harp eq_refl).
  assert (arp_of w a2 = arp_of w a1) as ->.
  { unfold arp_of. by rewrite (fx_range _ _ (af_fixed _ _ _ _ _ _ _ _ Haf2)), Hsame. }
  rewrite Harp. set_solver +.
Qed.
Lemma delete_ip_after a w rg F : ready n0 base w a rg F -> unlisted base a ->
  post (local a (delete_ip_assignment policy rg)) w (fun r w' => r = Ok tt -> sandwich base F w' /\ deleting [ia_id a] w w').
Proof using RL.
  intros Hr Hun. apply post_local. unfold delete_ip_assignment. apply post_bind.
  eapply post_mono; [by apply rollback_after|]. intros [[]|e] [a1 w1] Hpost; [|by intros [=]]. cbn [on_ok fst snd] in *.
  destruct (Hpost eq_refl) as (Hsw & Hfix & Hdel). op_steps.
  apply (post_statement _ _ _ RL). intros w2 Hq2. op_steps. apply (post_statement _ _ _ RL). intros w3 Hq3 _.
  assert (live (set_ips (fmap (fun old => if decide (ia_id old = ia_id a1) then set_row (ia_id a1) true old else old)) w3) = live w1) as Hl.
  { change (live w3 = live w1). rewrite (qt_live _ _ Hq3). apply Hq2. }
  split; [by eapply sw_eq; [exact Hsw|done|]|].
  change [ia_id a] with ([] ++ [] ++ [] ++ [] ++ [ia_id a]).
  eapply deleting_trans; [exact Hdel|]. eapply deleting_trans; [apply still_deleting; [apply Hq2|by apply quiet_vms]|].
  pose proof (still_deleting _ _ (qt_still _ _ Hq3) (quiet_vms _ _ Hq3)) as D3.
  eapply deleting_trans; [|eapply deleting_trans; [exact D3|apply deleting_update]]; [apply deleting_update|]; intros x; cbv beta.
  - case_decide; [|apply marked_refl]. by destruct (marked_refl x) as (_ & _ & ?).
  - rewrite <- (fx_id _ _ Hfix). case_decide as Hid; [by split_and!|]. split_and!; [done|done|].
    intros [?|Hx%list_elem_of_singleton]; [done|by destruct Hid].
Qed.

(** ** All of them *)

Lemma each_delete_after rows w X : all_ready n0 base w rows X -> Forall (unlisted base) rows ->
  post (each (fun ip => range ←! get_range (ia_range_id ip); local ip (delete_ip_assignment policy range)) rows) w
    (fun r w' => r = Ok tt -> sandwich base X w' /\ deleting (ia_id <$> rows) w w').
Proof using RL.
  intros Hr Hun. revert w X Hr. induction Hun as [|a rows Ha _ IH]; intros w X [Hs Hsw Hlog]; cbn [each].
  - apply post_done. intros _. split; [eapply sw_eq; [exact Hsw|unfold owned_all; cbn; set_solver +|done]|]. by apply still_deleting.
  - apply Forall_cons in Hs as [[rg Hrg] Hs]. apply post_bind, post_bind.
    apply (post_get_range _ _ _ RL); intros w1; [intros rg' Hq E|by intros e _ _ [=]].
    rewrite (so_range _ _ _ Hrg) in E. injection E as <-. cbn [on_ok].
    assert (ready n0 base w a rg (owned_all w rows ∪ X)) as Hra.
    { constructor; [done| |done]. eapply sw_eq; [exact Hsw| |done]. unfold owned_all. cbn. set_solver +. }
    eapply post_mono; [eapply delete_ip_after; [by eapply ready_quiet|done]|]. intros [[]|e] w2 Hpost; [|by intros [=]].
    destruct (Hpost eq_refl) as [Hsw2 Hdel]. cbn [on_ok].
    assert (since w w2) as Hs2 by (etrans; [apply Hq|apply Hdel]).
    eapply post_mono; [apply (IH w2 X)|].
    + constructor.
      * eapply Forall_impl; [exact Hs|]. intros x [rgx Hx]. exists rgx. by apply (sound_since w w2).
      * eapply sw_eq; [exact Hsw2| |done]. by rewrite (owned_all_since w w2).
      * pose proof (si_log _ _ Hs2). lia.
    + intros r w3 Hpost3 Hok. destruct (Hpost3 Hok) as [Hsw3 Hdel3]. split; [done|].
      change (ia_id <$> a :: rows) with ([] ++ [ia_id a] ++ (ia_id <$> rows)).
      eapply deleting_trans; [apply still_deleting; [apply Hq|by apply quiet_vms]|]. by eapply deleting_trans.
Qed.
Definition rows_of (vm : Z) (w : VmWorld) : list IpRow := filter (fun a => ia_vm_id a = vm /\ ia_deleted a = false) (vw_ips w).
Lemma delete_all_after vm w X : all_ready n0 base w (rows_of vm w) X -> Forall (unlisted base) (rows_of vm w) ->
  post (delete_all_ip_assignments policy vm) w (fun r w' => r = Ok tt ->
    sandwich base X w' /\ since w w' /\ same_vms w w' /\ vw_vms w' = vw_vms w /\
    forall a, a ∈ vw_ips w' -> ia_vm_id a = vm -> ia_deleted a = true).
Proof using RL.
  intros Hr Hun. unfold delete_all_ip_assignments. apply post_bind, (post_query _ _ _ RL). intros w1 Hq. cbn [on_ok].
  fold (rows_of vm w). eapply post_mono; [apply each_delete_after; [|done]|].
  { destruct Hr as [S1 S2 S3]. pose proof (st_since _ _ (qt_still _ _ Hq)) as Hs. constructor.
    - eapply Forall_impl; [exact S1|]. intros x [rgx Hx]. exists rgx. by apply (sound_since w w1).
    - eapply sw_eq; [exact S2| |apply Hq]. by rewrite (owned_all_since w w1).
    - pose proof (si_log _ _ Hs). lia. }
  intros r w2 Hpost Hok. destruct (Hpost Hok) as [Hsw [S V A F]]. rewrite (st_ips _ _ (qt_still _ _ Hq)) in F.
  split_and!; [done|by etrans; [apply Hq|]|by etrans; [by apply quiet_vms|]|by rewrite V, (st_vms _ _ (qt_still _ _ Hq))|].
  intros a' Ha' Hm. apply list_elem_of_lookup in Ha' as [i Hi]. destruct (Forall2_lookup_r _ _ _ _ _ F Hi) as (a & Ha & Eid & Em & Hd).
  apply Hd. destruct (ia_deleted a) eqn:Ed; [by left|]. right. apply list_elem_of_fmap. exists a. split; [done|].
  unfold rows_of. apply list_elem_of_filter. split; [split; [congruence|done]|]. by eapply list_elem_of_lookup_2.
Qed.

(** ** The machine *)

Lemma run_plain {Ctx} (st : @PipelineStep Ctx VmWorld NetFail) sts don s s' :
  run_steps no_sleep None (st :: sts) don s = (Done (Ok tt), s') ->
  exists s1, action st s = (Some (Ok tt), s1) /\ run_steps no_sleep None sts (completed_push st don) s1 = (Done (Ok tt), s').
Proof.
  cbn [run_steps run_action]. unfold mbind, Async_bind, await. destruct (action st s) as [[[[]|e]|] s1]; [by exists s1| |done].
  cbn. by destruct (run_rollbacks _ _ _ _) as [[[]| |] ?].
Qed.
Lemma delete_leaves vm h purge w w' :
  (forall v, v ∈ vw_vms w -> vr_id v = vm -> vr_host_id v = h) ->
  all_ready n0 base w (rows_of vm w) {[VmAt h vm]} -> Forall (unlisted base) (rows_of vm w) ->
  delete_vm policy vm purge w = (Some (Ok tt), w') ->
  live w' = base /\ (forall a, a ∈ vw_ips w' -> ia_vm_id a = vm -> ia_deleted a = true) /\
  (forall v, v ∈ vw_vms w' -> vr_id v = vm -> vr_deleted v = true).
Proof using RL.
  intros Hhost Hr Hun. set (Post := fun w' => live w' = base /\ (forall a, a ∈ vw_ips w' -> ia_vm_id a = vm -> ia_deleted a = true) /\
    (forall v, v ∈ vw_vms w' -> vr_id v = vm -> vr_deleted v = true)). change (delete_vm policy vm purge w = (Some (Ok tt), w') -> Post w').
  assert (post (delete_vm policy vm purge) w (fun r w' => r = Ok tt -> Post w')) as Hpost; [|by intros E; apply (Hpost _ _ E)].
  unfold delete_vm. apply post_bind. unfold host_of. apply post_bind.
  apply (post_query_one _ _ _ RL); intros w1; [intros v Hq1 [Hid Hin]%head_filter|by intros _ _ [=]]. cbn [on_ok].
  apply post_bind, (post_query_one _ _ _ RL); intros w2; [intros hr Hq2 [Hhr _]%head_filter|by intros _ _ [=]]. cbn [on_ok].
  apply post_bind. unfold get_host_client. apply post_fatally. apply post_bind.
  apply (post_remote (OpenHost (hr_id hr))); intros w3; [intros [] Hcall|by intros e _ [=]].
  cbn [on_ok]. apply post_done. cbn [on_ok]. apply post_done. cbn [on_ok fst snd]. rewrite Hhr, (Hhost _ Hin Hid), Hid.
  pose proof (called_quiet (OpenHost _) tt _ _ (fun l => eq_refl) Hcall) as Hq3.
  assert (quiet w w3) as Hq by (etrans; [exact Hq1|by etrans]). clear Hcall Hq1 Hq2 Hq3 w1 w2.
  intros r wf Hrun Hok. subst r. revert Hrun. unfold execute, Pipeline_execute.
  destruct (Pipeline_run _ _ w3) as [[[[]|e]| |] [[] w6]] eqn:E; [|done|done|done]. intros [= <-].
  unfold Pipeline_run in E. cbn [retry_policy step steps Pipeline_new ctx app] in E.
  apply run_plain in E as ([[] w4] & E4 & E). apply run_plain in E as ([[] w5] & E5 & E). apply run_plain in E as ([[] w6'] & E6 & E).
  cbn in E. injection E as ->. cbn [action] in E4, E5, E6.
  assert (called (DeleteVm h vm) tt w3 w4) as Hcall.
  { refine ((_ : post (up (remote (DeleteVm h vm))) (tt, w3) (fun _ s => called (DeleteVm h vm) tt w3 s.2)) _ _ E4).
    apply post_up, (post_remote_ok (DeleteVm h vm) _ _ tt); [intros; apply (rl_delete_vm _ _ _ RL)|done]. }
  assert (still w w4) as Ht by (etrans; [apply Hq|apply Hcall]).
  assert (rows_of vm w4 = rows_of vm w) as Erows by (unfold rows_of; by rewrite (st_ips _ _ Ht)).
  assert (all_ready n0 base w4 (rows_of vm w4) ∅) as Hr4.
  { destruct Hr as [S1 S2 S3]. pose proof (st_since _ _ Ht) as Hs. rewrite Erows. constructor.
    - eapply Forall_impl; [exact S1|]. intros x [rgx Hx]. exists rgx. by apply (sound_since w w4).
    - rewrite (owned_all_since w w4) by done.
      assert (sandwich base (owned_all w (rows_of vm w) ∪ {[VmAt h vm]}) w3) as S2' by (eapply sw_quiet; [exact Hq|exact S2]).
      eapply sw_mono; [| |eapply (sw_del _ _ _ _ _ S2' (cl_live _ _ _ _ Hcall))].
      + set_solver +.
      + destruct S2 as [_ _ Hn]. set_solver +Hn.
      + eapply sw_out; [exact S2|set_solver +].
    - pose proof (si_log _ _ Hs). lia. }
  rewrite <- Erows in Hun.
  unfold up in E5. destruct (delete_all_ip_assignments policy vm w4) as [r5 w5'] eqn:E5'. injection E5 as -> ->.
  destruct (delete_all_after vm w4 ∅ Hr4 Hun _ _ E5' eq_refl) as (Hsw & _ & _ & _ & Hi5).
  assert (live w5 = base) as Hl5 by (destruct Hsw as [L1 L2 _]; set_solver +L1 L2). clear E4 E5'.
  destruct purge.
  - refine ((_ : post (up (purge_vm_row vm)) (tt, w5) (fun _ s => Post s.2)) _ _ E6).
    apply post_up, (post_statement _ _ _ RL). intros w7 Hq7. split_and!.
    + change (live w7 = base). by rewrite (qt_live _ _ Hq7).
    + intros a Ha Hm. cbn in Ha. by apply list_elem_of_filter in Ha as [? _].
    + intros v' Hv' Hid'. cbn in Hv'. by apply list_elem_of_filter in Hv' as [? _].
  - refine ((_ : post (up (delete_vm_row vm)) (tt, w5) (fun _ s => Post s.2)) _ _ E6).
    apply post_up, (post_statement _ _ _ RL). intros w7 Hq7. split_and!.
    + change (live w7 = base). by rewrite (qt_live _ _ Hq7).
    + intros a Ha Hm. cbn in Ha. rewrite (st_ips _ _ (qt_still _ _ Hq7)) in Ha. by apply Hi5.
    + intros v' Hv' Hid'. cbn in Hv'. apply list_elem_of_fmap in Hv' as (x & -> & _). revert Hid'. by case_decide.
Qed.
End delete.

(** C4: Deleting a machine that was spawned takes away all that the spawn made: when
    both answer success and the services answer every removal, exactly what existed
    before the spawn exists again, no address of the machine is left and its row is
    deleted or gone. A removal that a service refuses is only logged, so it is assumed
    that none is ([reliable]: removals and openings of connections are answered,
    creations get names of their own, the database refuses insertions at most), that
    the machine had nothing before the spawn ([blank]), that the ranges take the
    addresses ([placeable]), and that the routers list no older entry under an address
    of the machine ([unlisted]). *)
Theorem deleted_leaves_nothing `{NL : !NetLib, RD : !Rand, HX : !HexLib, SV : !Services} policy shuffle fuel good_mac w0 v ro purge w1 w2
    (RL : reliable good_mac (length (vw_log w0)) (live w0)) (BL : blank w0 v) (PL : placeable shuffle fuel good_mac w0 v)
    (Hspawn : spawn_vm policy shuffle fuel ro (vr_id v) w0 = (Some (Ok tt), w1))
    (Hlist : forall a, a ∈ vw_ips w1 -> ia_vm_id a = vr_id v -> unlisted (live w0) a)
    (Hdelete : delete_vm policy (vr_id v) purge w1 = (Some (Ok tt), w2)) :
  live w2 = live w0 /\ (forall a, a ∈ vw_ips w2 -> ia_vm_id a = vr_id v -> ia_deleted a = true) /\
  (forall v', v' ∈ vw_vms w2 -> vr_id v' = vr_id v -> vr_deleted v' = true).
Proof.
  destruct (spawn_cases policy shuffle fuel good_mac w0 v RL BL PL ro w1 _ Hspawn) as (mac & rows & [_ Hv Hi [_ Hr] Hall _ _]).
  assert (rows_of (vr_id v) w1 = rows) as Erows.
  { unfold rows_of. rewrite Hi, filter_app. rewrite (filter_none _ (vw_ips w0)).
    - cbn. clear -Hr. induction Hr as [|a l Ha _ IH]; [done|]. by rewrite filter_cons_True, IH.
    - intros a Ha [Hm Hd]. by rewrite (bl_ips _ _ BL a Ha Hm) in Hd. }
  apply (delete_leaves policy good_mac _ _ RL _ (vr_host_id v) purge w1 w2).
  - rewrite Hv. intros v' Hin Hid. apply list_elem_of_fmap in Hin as (x & -> & _). revert Hid. by case_decide.
  - rewrite Erows. exact Hall.
  - rewrite Erows. apply Forall_forall. intros a Ha. apply Hlist; [rewrite Hi; apply elem_of_app; by right|].
    rewrite Forall_forall in Hr. by apply Hr.
  - done.
Qed.
