(* ===== verification/VmReturns.v ===== *)
(** * The operations on machines return

    No loop of theirs runs on: a retry loop ends with its policy, a pipeline with its
    steps, and the choice of addresses as [Network] says. Nothing is asked of the
    answers of the services and of the database. *)

From Stdlib Require Import Ascii String.
From stdpp Require Import list gmap.
From S2P Require Import Prelude TryProcedure IpAlloc NetText Network VmNet VmSpawn.

(** It answers, in a state of [I]. *)
Definition returns {S A} (I : S -> Prop) (m : Op S A) : Prop := forall s, I s -> exists r s', m s = (Some r, s') /\ I s'.
(** A policy whose delays are durations. *)
Definition sane (p : RetryPolicy) : Prop :=
  fits 32 (max_retries p) /\ forall n, 0 <= n < max_retries p -> is_Some (delay_for_attempt p n).

Create HintDb returns.

Section returns.
Context {S : Type} (I : S -> Prop).
Lemma returns_done {A} (a : A) : returns I (done a).
Proof. intros s Hs. by exists (Ok a), s. Qed.
Lemma returns_fatal {A} e : returns I (fatal e : Op S A).
Proof. intros s Hs. by exists (Err (Fatal e)), s. Qed.
Lemma returns_bind {A B} (m : Op S A) (k : A -> Op S B) : returns I m -> (forall a, returns I (k a)) -> returns I (op_bind m k).
Proof.
  intros Hm Hk s Hs. unfold op_bind. destruct (Hm s Hs) as ([a|e] & s1 & -> & H1); [by apply Hk|]. by exists (Err e), s1.
Qed.
Lemma returns_or_fatal {A} (o : option A) e : returns I (or_fatal o e : Op S A).
Proof. destruct o; [apply returns_done|apply returns_fatal]. Qed.
Lemma returns_result {A} (r : res NetFail A) : returns I (of_result r : Op S A).
Proof. destruct r; [apply returns_done|apply returns_fatal]. Qed.
Lemma returns_warned {A} (m : Op S A) : returns I m -> returns I (warned m).
Proof. intros Hm s Hs. unfold warned. destruct (Hm s Hs) as ([a|e] & s1 & -> & H1); eauto. Qed.
Lemma returns_fatally {A} (m : Op S A) : returns I m -> returns I (fatally m).
Proof. intros Hm s Hs. unfold fatally. destruct (Hm s Hs) as ([a|e] & s1 & -> & H1); eauto. Qed.
End returns.
#[export] Hint Resolve returns_done returns_fatal returns_bind returns_or_fatal returns_result returns_warned returns_fatally : returns.

(** A loop of retries of such a closure. *)
Lemma retry_returns {S T} (I : S -> Prop) (sleep : Duration -> S -> S) policy (f : Closure S (OpResult T NetFail)) :
  sane policy -> (forall d s, I s -> I (sleep d s)) -> (forall s, I s -> exists r s', f s = (Some r, s') /\ I s') ->
  forall s, I s -> exists r s', retry_loop sleep (retry_fuel policy) policy no_callback f 0 s = (Done r, s') /\ I s'.
Proof.
  intros [Hu Hd] Hsl Hf.
  assert (forall fuel n s, I s -> 0 <= n <= max_retries policy -> (Z.to_nat (max_retries policy - n) < fuel)%nat ->
    exists r s', retry_loop sleep fuel policy no_callback f n s = (Done r, s') /\ I s') as Hloop.
  { intros fuel. induction fuel as [|fuel IH]; intros n s Hs Hn Hfuel; [lia|]. cbn [retry_loop].
    unfold mbind, Async_bind, await at 1. destruct (Hf s Hs) as (r & s1 & -> & H1).
    destruct r as [a|[e|e]]; [by exists (Ok a), s1| |by exists (Err e), s1].
    destruct (Z.leb_spec (max_retries policy) n) as [Hle|Hlt]; [by exists (Err e), s1|].
    destruct (Hd n) as [d Ed]; [lia|]. rewrite Ed. cbn [or_panic no_callback effect mret Async_ret].
    unfold fits in Hu. assert (wadd 32 n 1 = n + 1) as -> by (unfold wadd, wrap; apply Z.mod_small; lia).
    apply IH; [by apply Hsl|lia|lia]. }
  intros s Hs. apply Hloop; [done|unfold fits in Hu; lia|unfold retry_fuel; lia].
Qed.

(** ** Pipelines *)
Section pipeline.
Context {Ctx : Type} (policy : option RetryPolicy) (Hsane : forall p, policy = Some p -> sane p).
Implicit Types I : Ctx * VmWorld -> Prop.
Definition step_returns I (st : @PipelineStep Ctx VmWorld NetFail) : Prop :=
  returns I (action st) /\ match rollback st with Some r => returns I r | None => True end.
Lemma psleep_same d (s : Ctx * VmWorld) : psleep no_sleep d s = s.
Proof. by destruct s. Qed.
Lemma action_returns I (a : @StepFn Ctx VmWorld NetFail) s : returns I a -> I s ->
  exists r s', run_action no_sleep policy a s = (Done r, s') /\ I s'.
Proof using Hsane.
  intros Ha Hs. unfold run_action. destruct policy as [p|].
  - apply (retry_returns I); [by apply Hsane|intros d s1; by rewrite psleep_same|exact Ha|done].
  - unfold mbind, Async_bind, await. destruct (Ha s Hs) as ([[]|e] & s1 & -> & H1).
    + by exists (Ok tt), s1.
    + by exists (Err (into_inner e)), s1.
Qed.
Lemma rollbacks_return I (rs : list (@RollbackFn Ctx VmWorld NetFail)) s : Forall (returns I) rs -> I s ->
  exists s', run_rollbacks no_sleep policy rs s = (Done tt, s') /\ I s'.
Proof using Hsane.
  intros Hrs. revert s. induction Hrs as [|r rs Hr _ IH]; intros s Hs; [by exists s|].
  cbn [run_rollbacks]. unfold mbind, Async_bind at 1.
  assert (exists s', run_rollback no_sleep policy r s = (Done tt, s') /\ I s') as (s1 & -> & H1); [|by apply IH].
  unfold run_rollback. destruct policy as [p|]; unfold mbind, Async_bind.
  - destruct (retry_returns I (psleep no_sleep) p r) with s as (o & s1 & -> & H1);
      [by apply Hsane|intros d s1; by rewrite psleep_same|exact Hr|done|by exists s1].
  - unfold await. destruct (Hr s Hs) as (o & s1 & -> & H1). by exists s1.
Qed.
Lemma steps_return I sts don s : Forall (step_returns I) sts -> Forall (returns I) don -> I s ->
  exists r s', run_steps no_sleep policy sts don s = (Done r, s').
Proof using Hsane.
  intros Hst. revert don s. induction Hst as [|st sts [Ha Hr] _ IH]; intros don s Hdon Hs; cbn [run_steps]; [by exists (Ok tt), s|].
  unfold mbind, Async_bind at 1. destruct (action_returns I _ s Ha Hs) as ([[]|e] & s1 & -> & H1).
  - apply IH; [|done]. unfold completed_push. destruct (rollback st); [|done]. by apply Forall_app; split; [|constructor].
  - unfold Async_bind. match goal with |- context [run_rollbacks _ _ ?l _] => destruct (rollbacks_return I l s1) as (s2 & -> & _) end; [by apply Forall_reverse|done|].
    by exists (Err e), s2.
Qed.
(** A first step that needs more of its state than the others. *)
Lemma first_step_returns I J st sts s : (forall s, I s -> J s) -> returns I (action st) ->
  match rollback st with Some r => returns J r | None => True end -> Forall (step_returns J) sts -> I s ->
  exists r s', run_steps no_sleep policy (st :: sts) [] s = (Done r, s').
Proof using Hsane.
  intros HIJ Ha Hr Hsts Hs. cbn [run_steps]. unfold mbind, Async_bind at 1.
  destruct (action_returns I _ s Ha Hs) as ([[]|e] & s1 & -> & H1).
  - apply (steps_return J); [done| |by apply HIJ]. unfold completed_push. destruct (rollback st); by repeat constructor.
  - cbn. by exists (Err e), s1.
Qed.
End pipeline.
Lemma execute_returns {Ctx} (p : @Pipeline Ctx VmWorld NetFail) w :
  (exists r s', Pipeline_run no_sleep p w = (Done r, s')) -> exists r w', execute p w = (Some r, w').
Proof.
  intros (r & [c w'] & E). unfold execute, Pipeline_execute. rewrite E. destruct r as [[]|e]; eauto.
Qed.

(** ** The operations *)

(** Decompose an operation down to its calls and queries. *)
Ltac returns_tac :=
  repeat first
    [ solve [eauto 3 with returns]
    | match goal with
      | |- forall _, _ => intros ?
      | |- returns _ (if ?b then _ else _) => destruct b
      | |- returns _ (match ?x with _ => _ end) => destruct x
      end
    | apply returns_bind
    | apply returns_warned ].

Section operations.
Context `{NL : !NetLib, SV : !Services} (policy : RetryPolicy) (Hsane : sane policy).
Context (J : VmWorld -> Prop) (Jbump : forall w, J w -> J (bump_queries w)) (Jpush : forall l w, J w -> J (push_log l w)).
Notation JJ := (fun s => J s.2).

Lemma returns_up {X A} (m : Op VmWorld A) : returns J m -> returns JJ (up m : Op (X * VmWorld) A).
Proof. intros Hm [x w] Hw. unfold up. destruct (Hm w Hw) as (r & w1 & -> & H1). by exists r, (x, w1). Qed.
Lemma returns_held {X} : returns JJ (held : Op (X * VmWorld) X).
Proof. intros [x w] Hw. by exists (Ok x), (x, w). Qed.
Lemma returns_hold {X} (f : X -> X) : returns JJ (hold f : Op (X * VmWorld) unit).
Proof. intros [x w] Hw. by exists (Ok tt), (f x, w). Qed.
Lemma returns_query {A} (f : VmWorld -> A) : returns J (query f).
Proof using Jbump. intros w Hw. unfold query. destruct (sql_ok _ _); eauto. Qed.
Lemma returns_query_one {A} (f : VmWorld -> list A) : returns J (query_one f).
Proof using Jbump. apply returns_bind; [apply returns_query|intros; apply returns_or_fatal]. Qed.
Lemma returns_statement f : (forall w, J w -> J (f w)) -> returns J (statement f).
Proof using Jbump. intros Hf w Hw. unfold statement. destruct (sql_ok _ _); eauto 6. Qed.
Lemma returns_remote c : returns J (remote c).
Proof using Jpush. intros w Hw. unfold remote. eauto. Qed.
Lemma returns_retried {A} (m : Op VmWorld A) : returns J m -> returns J (retried policy m).
Proof using Hsane.
  intros Hm w Hw. unfold retried, retry_async.
  destruct (retry_returns J no_sleep policy m Hsane (fun d s Hs => Hs) Hm w Hw) as ([a|e] & w1 & -> & H1); eauto.
Qed.
Hint Resolve returns_up returns_held returns_hold returns_query returns_query_one returns_remote returns_retried : returns.
Hint Extern 1 (returns _ (remote ?c)) => exact (returns_remote c) : returns.
Lemma returns_get_router id : returns J (get_router id).
Proof using Jbump Jpush. unfold get_router. returns_tac. Qed.
Lemma returns_get_dns_server id : returns J (get_dns_server id).
Proof using Jbump Jpush. unfold get_dns_server. returns_tac. Qed.
Lemma returns_get_range id : returns J (get_range id).
Proof using Jbump. unfold get_range. returns_tac. Qed.
Lemma returns_get_access_policy id : returns J (get_access_policy id).
Proof using Jbump. unfold get_access_policy. returns_tac. Qed.
Lemma returns_get_vm_row id : returns J (get_vm_row id).
Proof using Jbump. unfold get_vm_row. returns_tac. Qed.
Lemma returns_get_host id : returns J (get_host id).
Proof using Jbump. unfold get_host. returns_tac. Qed.
Hint Resolve returns_get_router returns_get_dns_server returns_get_range returns_get_access_policy returns_get_vm_row returns_get_host : returns.
Lemma returns_with_policy range f : (forall p, returns JJ (f p)) -> returns JJ (with_policy range f).
Proof using Jbump. unfold with_policy. returns_tac. Qed.
Lemma returns_update_policy p : returns JJ (update_access_policy p).
Proof using Jbump Jpush. unfold update_access_policy. returns_tac; apply returns_up; destruct (ia_arp_ref _);
  [apply (returns_remote (UpdateArp _ _))|apply (returns_remote (AddArp _ _))]. Qed.
Lemma returns_find_arp r a : returns J (find_arp r a).
Proof using Jpush. unfold find_arp. returns_tac. Qed.
Hint Resolve returns_with_policy returns_update_policy returns_find_arp : returns.
Lemma returns_remove_policy p : returns JJ (remove_access_policy policy p).
Proof using Jbump Jpush Hsane. unfold remove_access_policy. returns_tac. Qed.
Lemma returns_remove_reverse range : returns JJ (remove_reverse policy range).
Proof using Jbump Jpush Hsane. unfold remove_reverse. returns_tac. Qed.
Lemma returns_remove_forward range : returns JJ (remove_forward policy range).
Proof using Jbump Jpush Hsane. unfold remove_forward. returns_tac. Qed.
Hint Resolve returns_remove_policy returns_remove_reverse returns_remove_forward : returns.
Lemma returns_remove_dns : returns JJ (remove_ip_dns policy).
Proof using Jbump Jpush Hsane. unfold remove_ip_dns. returns_tac. Qed.
Lemma returns_update_forward : returns JJ (update_forward_ip_dns policy).
Proof using Jbump Jpush Hsane. unfold update_forward_ip_dns. returns_tac; apply returns_up, returns_retried; destruct (br_id _);
  [apply (returns_remote (UpdateRecord _ _))|apply (returns_remote (AddRecord _ _))]. Qed.
Lemma returns_update_reverse : returns JJ (update_reverse_ip_dns policy).
Proof using Jbump Jpush Hsane. unfold update_reverse_ip_dns. returns_tac; apply returns_up, returns_retried; case_bool_decide;
  [apply (returns_remote (UpdateRecord _ _))|apply (returns_remote (AddRecord _ _))]. Qed.
Lemma returns_range_router range : returns J (get_range_router range).
Proof using Jbump Jpush. unfold get_range_router. returns_tac. Qed.
Hint Resolve returns_remove_dns returns_update_forward returns_update_reverse returns_range_router : returns.
Lemma returns_find_router ips ranges : returns J (find_router ips ranges).
Proof using Jbump Jpush. induction ips as [|a ips IH]; cbn [find_router]; returns_tac. Qed.
Lemma returns_client h : returns J (get_host_client h).
Proof using Jpush. unfold get_host_client. apply returns_fatally. returns_tac. Qed.
End operations.

(** The choice of addresses, while the tables of addresses are as they were. *)
Section choice.
Context `{NL : !NetLib, RD : !Rand, HX : !HexLib, SV : !Services}.
Context (shuffle : list IpRange -> list IpRange) (fuel : nat) (db : NetDb).
Context (Hpick : forall region, exists r, pick_ip_for_region shuffle fuel db region = Some r /\ r <> Err Panic).
Definition same_db (w : VmWorld) : Prop := net_db w = db.
Notation JJ := (fun s => same_db s.2).
Lemma same_db_bump w : same_db w -> same_db (bump_queries w).
Proof. done. Qed.
Lemma same_db_push l w : same_db w -> same_db (push_log l w).
Proof. done. Qed.
Hint Resolve returns_up returns_held returns_hold same_db_bump same_db_push returns_get_range returns_range_router : returns.
Lemma returns_pick region : returns same_db (pick_ips shuffle fuel region).
Proof using Hpick.
  intros w Hw. unfold pick_ips. rewrite Hw. destruct (sql_ok _ _); [|by eexists _, _].
  destruct (Hpick region) as ([a|[]] & -> & Hn); first [by destruct Hn|by eexists _, _].
Qed.
Lemma returns_generate_mac r a : returns same_db (generate_mac r a).
Proof.
  unfold generate_mac. destruct r as [r|]; [|apply returns_done].
  apply returns_fatally, (returns_remote same_db same_db_push (GenerateMac r _ _)).
Qed.
Hint Resolve returns_pick returns_generate_mac : returns.
Lemma returns_assign_mac a : returns JJ (assign_mac a).
Proof.
  unfold assign_mac. returns_tac. apply returns_up, (returns_remote same_db same_db_push (HostMac _ _)).
Qed.
Lemma returns_assign_v6 v6 : returns JJ (assign_v6 v6).
Proof. unfold assign_v6, push_ip. returns_tac. Qed.
Hint Resolve returns_assign_mac returns_assign_v6 : returns.
Lemma returns_ip_allocation : returns JJ (ip_allocation shuffle fuel).
Proof using Hpick.
  unfold ip_allocation, assign_ips, push_ip. returns_tac. apply returns_up, returns_statement; [apply same_db_bump|done].
Qed.
End choice.

(** The rest, in any state. *)
Section rest.
Context `{NL : !NetLib, RD : !Rand, HX : !HexLib, SV : !Services} (policy : RetryPolicy) (Hsane : sane policy).
Definition any (w : VmWorld) : Prop := True.
Notation anys := (fun s => any s.2).
Lemma any_bump w : any w -> any (bump_queries w).
Proof. done. Qed.
Lemma any_push l w : any w -> any (push_log l w).
Proof. done. Qed.
Hint Resolve any_bump any_push : returns.
Hint Resolve returns_up returns_held returns_hold returns_query returns_query_one returns_retried : returns.
Hint Resolve returns_get_router returns_get_range returns_get_access_policy returns_get_vm_row returns_get_host : returns.
Hint Resolve returns_with_policy returns_update_policy returns_remove_policy returns_remove_dns : returns.
Hint Resolve returns_update_forward returns_update_reverse returns_find_router returns_client : returns.
Hint Extern 1 (returns _ (remote ?c)) => exact (returns_remote any any_push c) : returns.
Hint Extern 1 (returns _ (statement _)) => apply (returns_statement any any_bump); done : returns.
Lemma returns_local {A} a (m : Cell A) : returns anys m -> returns any (local a m).
Proof. intros Hm w _. unfold local. destruct (Hm (a, w) I) as (r & [a' w'] & -> & _). by exists r, w'. Qed.
Lemma returns_each {A} (f : A -> Op VmWorld unit) l : (forall a, returns any (f a)) -> returns any (each f l).
Proof. intros Hf. induction l as [|a l IH]; cbn [each]; returns_tac. Qed.
Lemma each_ip_returns m l w : returns anys m -> exists r l' w', each_ip m l w = (Some r, (l', w')).
Proof.
  intros Hm. revert w. induction l as [|a l IH]; intros w; cbn [each_ip]; [by exists (Ok tt), [], w|].
  destruct (Hm (a, w) I) as ([[]|e] & [a' w'] & -> & _).
  - destruct (IH w') as (r & l' & w'' & ->). by exists r, (a' :: l'), w''.
  - by exists (Err e), (a' :: l), w'.
Qed.
Lemma returns_on_ips m : returns anys m -> returns anys (on_ips m).
Proof. intros Hm [c w] _. unfold on_ips. destruct (each_ip_returns m (sc_ips c) w Hm) as (r & l & w' & ->). by eexists _, _. Qed.
Lemma returns_delete_ip range : returns anys (delete_ip_assignment policy range).
Proof using Hsane. unfold delete_ip_assignment, rollback_ip_assignment_policy, update_vm_ip_assignment, delete_vm_ip_assignment. returns_tac. Qed.
Hint Resolve returns_local returns_each returns_on_ips returns_delete_ip : returns.
Lemma returns_delete_all vm : returns any (delete_all_ip_assignments policy vm).
Proof using Hsane. unfold delete_all_ip_assignments, list_vm_ip_assignments. returns_tac. apply returns_each. returns_tac. Qed.
Lemma returns_insert a : returns any (insert_vm_ip_row a).
Proof. intros w _. unfold insert_vm_ip_row. destruct (sql_ok _ _); by eexists _, _. Qed.
Hint Resolve returns_delete_all returns_insert : returns.
Lemma returns_save : returns anys save_ip.
Proof. unfold save_ip, persist_ip_assignment, update_vm_ip_assignment. returns_tac. Qed.
Lemma returns_setup : returns anys arp_setup_ip.
Proof. unfold arp_setup_ip, check_ip_assignment, update_ip_assignment_access_policy. returns_tac. Qed.
Lemma returns_arp_remove : returns anys (arp_remove_ip policy).
Proof using Hsane. unfold arp_remove_ip, remove_ip_assignment_access_policy. returns_tac. Qed.
Lemma returns_unsave : returns anys (unsave_ips policy).
Proof using Hsane. unfold unsave_ips, hard_delete_vm_ip_assignments_by_vm_id. returns_tac. Qed.
Lemma returns_rollback_assign : returns anys rollback_assign_ips.
Proof. unfold rollback_assign_ips, update_vm. returns_tac. Qed.
Hint Resolve returns_save returns_setup returns_arp_remove returns_unsave returns_rollback_assign : returns.
Lemma later_steps_return c shuffle fuel :
  Forall (step_returns anys) (tail (steps (spawn_pipeline policy shuffle fuel c))).
Proof using Hsane.
  unfold spawn_pipeline, step_with_rollback, with_retry_policy, Pipeline_new. cbn [steps tail app].
  repeat constructor; cbn [action rollback]; unfold host_spawn, host_unspawn, dns_forward_ip, dns_reverse_ip, dns_unforward_ip, dns_unreverse_ip;
    returns_tac; try (apply returns_on_ips; returns_tac).
Qed.
Lemma execute_steps_return {Ctx} (p : @Pipeline Ctx VmWorld NetFail) w :
  (forall q, retry_policy p = Some q -> sane q) -> Forall (step_returns anys) (steps p) -> exists r w', execute p w = (Some r, w').
Proof. intros Hs Hp. apply execute_returns. by apply (steps_return _ Hs anys). Qed.
Lemma returns_load J vm : (forall w, J w -> J (bump_queries w)) -> returns J (load vm).
Proof. intros Hb. unfold load, list_vm_ip_assignments. apply returns_fatally. returns_tac. Qed.
Lemma spawn_returns shuffle fuel ro vm w :
  (forall region, exists r, pick_ip_for_region shuffle fuel (net_db w) region = Some r /\ r <> Err Panic) ->
  exists r w', spawn_vm policy shuffle fuel ro vm w = (Some r, w').
Proof using Hsane.
  intros Hpick. unfold spawn_vm, spawn_vm_pipeline. destruct ro; [by eexists _, _|]. unfold op_bind at 1 2 3.
  destruct (returns_load (same_db (net_db w)) vm (same_db_bump _) w eq_refl) as ([c|e] & w1 & -> & H1'); [|by eexists _, _].
  destruct (returns_client (same_db (net_db w)) (same_db_push _) (sc_host c) w1 H1') as ([h|e] & w2 & -> & H2'); [|by eexists _, _].
  apply execute_returns. unfold Pipeline_run. pose proof (later_steps_return c shuffle fuel) as Hlater.
  destruct (steps (spawn_pipeline policy shuffle fuel c)) as [|st sts] eqn:E; [done|]. injection E as <- <-.
  assert (forall q, Some policy = Some q -> sane q) as Hs by (by intros q [= <-]).
  apply (first_step_returns (Some policy) Hs (fun s => same_db (net_db w) s.2) anys);
    [done|by apply returns_ip_allocation|apply returns_rollback_assign|exact Hlater|exact H2'].
Qed.
Lemma host_of_returns vm w : exists r w', host_of vm w = (Some r, w').
Proof.
  assert (returns any (host_of vm)) as Hr by (unfold host_of; returns_tac).
  destruct (Hr w I) as (r & w' & E & _). by exists r, w'.
Qed.
Lemma delete_returns vm purge w : exists r w', delete_vm policy vm purge w = (Some r, w').
Proof using Hsane.
  unfold delete_vm, op_bind at 1. destruct (host_of_returns vm w) as ([x|e] & w1 & ->); [|by eexists _, _].
  apply execute_steps_return; [done|]. repeat constructor; cbn [action]; returns_tac.
  destruct purge; apply returns_up, (returns_statement any any_bump); done.
Qed.
Lemma reinstall_returns ro vm w : exists r w', reinstall_vm policy ro vm w = (Some r, w').
Proof using Hsane.
  unfold reinstall_vm. destruct ro; [by eexists _, _|]. unfold op_bind at 1 2.
  destruct (returns_load any vm any_bump w I) as ([c|e] & w1 & -> & _); [|by eexists _, _].
  destruct (returns_client any any_push (sc_host c) w1 I) as ([h|e] & w2 & -> & _); [|by eexists _, _].
  apply execute_steps_return; [by intros q [= <-]|]. repeat constructor; cbn [action]; returns_tac.
Qed.
End rest.

(** C32: Whatever the services and the database answer, deleting and re-installing
    a machine return, with a retry policy whose delays are durations; so does
    spawning one, where the choice of an address in a region returns and does not
    panic. *)
Theorem machine_operations_return `{NL : !NetLib, RD : !Rand, HX : !HexLib, SV : !Services} policy shuffle fuel ro vm purge w
    (Hsane : sane policy) :
  (exists r w', delete_vm policy vm purge w = (Some r, w')) /\
  (exists r w', reinstall_vm policy ro vm w = (Some r, w')) /\
  ((forall region, exists r, pick_ip_for_region shuffle fuel (net_db w) region = Some r /\ r <> Err Panic) ->
   exists r w', spawn_vm policy shuffle fuel ro vm w = (Some r, w')).
Proof. split_and!; [by apply delete_returns|by apply reinstall_returns|by apply spawn_returns]. Qed.
