(* ===== verification/VmWitness.v ===== *)
(** * A machine spawned, deleted and failed

    A router, a DNS server and a host with concrete answers; the theorems about
    spawning at a machine with an IPv4 and an IPv6 address; and two runs that show
    what a failure can leave behind when the database fails too. *)

From Stdlib Require Import Ascii String.
From stdpp Require Import list gmap pretty.
From S2P Require Import Prelude TryProcedure IpAlloc NetText Network VmNet VmLive VmCell VmSpawn VmStages VmAlloc VmSpawnProofs VmDelete VmReturns.

Module VmDemo.
Import RefNet.
Local Open Scope string_scope.

(** [hex::decode] *)
Fixpoint bytes (l : list ascii) : option (list Z) :=
  match l with
  | [] => Some []
  | a :: b :: l => h ← to_digit 16 a; o ← to_digit 16 b; r ← bytes l; Some ((16 * h + o)%Z :: r)
  | [_] => None
  end.
#[export] Instance hex : HexLib := fun s => bytes (text s).

(** The answers of the services, with that of the host to a new machine. *)
Definition id_of (n : nat) : string := String.append "new" (pretty n).
Definition answers (create : OpResult unit NetFail) (n : nat) (c : RemoteCall) : OpResult (Ans c) NetFail :=
  match c return OpResult (Ans c) NetFail with
  | GenerateMac r a com => Ok (Some {| arp_id := Some (id_of n); arp_address := a; arp_mac_address := "02:00:00:00:00:01";
                                       arp_interface := None; arp_comment := Some com |})
  | ListArp _ => Ok []
  | AddArp _ e => Ok {| arp_id := Some (id_of n); arp_address := arp_address e; arp_mac_address := arp_mac_address e;
                        arp_interface := arp_interface e; arp_comment := arp_comment e |}
  | UpdateArp _ e => Ok e
  | AddRecord _ rec => Ok {| br_name := String.append (br_name rec) ".lnvps.net"; br_value := br_value rec; br_id := Some (Id (id_of n));
                             br_kind := br_kind rec; br_ip := br_ip rec; br_zone := br_zone rec |}
  | UpdateRecord _ rec => Ok rec
  | HostMac _ _ => Ok "02:00:00:00:00:02"
  | CreateVm _ _ _ _ => create
  | _ => Ok tt
  end.
Definition services (create : OpResult unit NetFail) (ok : nat -> Stmt -> bool) : Services :=
  {| answer := answers create; sql_ok := ok |}.
Definition all_ok (n : nat) (s : Stmt) : bool := true.
(** The database refuses what the [k]-th query is to do. *)
Definition refuses (k : nat) (n : nat) (s : Stmt) : bool := negb (Nat.eqb n k).
Definition refuses_insert (k : nat) (n : nat) (s : Stmt) : bool :=
  match s with Insert => negb (Nat.eqb n k) | _ => true end.

Definition v4_range : RangeRow :=
  {| rg_range := {| r_id := 1; cidr := "10.0.0.0/29"; gateway := "10.0.0.1"; enabled := true; region_id := 1;
                    allocation_mode := Sequential; use_full_range := false |};
     rg_access_policy_id := Some 1; rg_reverse_dns_server_id := Some 1; rg_reverse_zone_id := Some "rev";
     rg_forward_dns_server_id := Some 1; rg_forward_zone_id := Some "fwd" |}.
Definition v6_range : RangeRow :=
  {| rg_range := {| r_id := 2; cidr := "fd00::/64"; gateway := "fd00::1"; enabled := true; region_id := 1;
                    allocation_mode := SlaacEui64; use_full_range := false |};
     rg_access_policy_id := Some 1; rg_reverse_dns_server_id := None; rg_reverse_zone_id := None;
     rg_forward_dns_server_id := Some 1; rg_forward_zone_id := None |}.
Definition machine : VmRow := {| vr_id := 7; vr_host_id := 3; vr_ssh_key_id := Some 1; vr_mac_address := UNASSIGNED_MAC; vr_deleted := false |}.
(** Another machine's entry is at the router already. *)
Definition old_entry : ArpEntry :=
  {| arp_id := Some "old"; arp_address := "10.0.0.2"; arp_mac_address := "02:00:00:00:00:09"; arp_interface := None; arp_comment := None |}.
Definition old_row : IpRow := set_row 1 false (set_arp_ref (Some "old") (new_assignment 6 1 "10.0.0.2")).
Definition world : VmWorld :=
  {| vw_ranges := [v4_range; v6_range];
     vw_policies := [{| ap_id := 1; ap_kind := StaticArp; ap_router_id := Some 1; ap_interface := Some "bridge1" |}];
     vw_routers := [1]; vw_dns := [1]; vw_hosts := [{| hr_id := 3; hr_region_id := 1 |}];
     vw_vms := [machine]; vw_ips := [old_row]; vw_next_ip := 2; vw_queries := 0;
     vw_log := [existT (AddArp 1 old_entry) (Ok old_entry)] |}.
Definition shuffle (l : list IpRange) : list IpRange := l.
Definition spawn (S : Services) (w : VmWorld) : option (OpResult unit NetFail) * VmWorld :=
  @spawn_vm ref_netlib counting hex S RetryPolicy_default shuffle 8 false 7 w.
Definition delete (S : Services) (w : VmWorld) : option (OpResult unit NetFail) * VmWorld :=
  @delete_vm ref_netlib S RetryPolicy_default 7 false w.
Definition good : Services := services (Ok tt) all_ok.

Definition good_mac (mac : string) : Prop := mac = "02:00:00:00:00:01" \/ mac = "02:00:00:00:00:02".
Lemma live_world : live world = {[ArpAt 1 "old"]}.
Proof. unfold live, world. cbn [vw_log foldl]. unfold live1. cbn [projT1 projT2 effect_of]. cbn [arp_id old_entry]. set_solver. Qed.
Lemma fresh_arp r n : ArpAt r (id_of n) ∉ live world.
Proof. rewrite live_world. intros Hin%elem_of_singleton. done. Qed.
Lemma fresh_dns d n : DnsAt d (id_of n) ∉ live world.
Proof. rewrite live_world. intros Hin%elem_of_singleton. done. Qed.
Lemma services_reliable create ok : (forall n s, s <> Insert -> ok n s = true) ->
  @reliable (services create ok) good_mac (length (vw_log world)) (live world).
Proof.
  intros Hok. constructor; cbn; try done; try (intros; by apply Hok).
  - intros n r e a _ [= <-]. cbn. eexists. split; [done|apply fresh_arp].
  - by intros n r e a [= <-].
  - intros n d rec rec' _ [= <-]. cbn. eexists. split; [done|]. split; [apply fresh_dns|done].
  - by intros n d rec rec' [= <-].
  - intros n r ip c a _ [= <-]. cbn. split; [by left|]. intros id [= <-]. apply fresh_arp.
  - intros n h vm mac [= <-]. by right.
Qed.
Lemma machine_blank : blank world machine.
Proof.
  constructor; cbn; try done.
  - by left.
  - intros v' ->%list_elem_of_singleton. done.
  - intros a ->%list_elem_of_singleton. done.
Qed.
Lemma machine_placeable : @placeable ref_netlib counting hex shuffle 8 good_mac world machine.
Proof.
  intros h ips ->%list_elem_of_singleton Hpick. vm_compute in Hpick. injection Hpick as <-. split.
  - intros v4 [= <-]. eexists. split; vm_compute; reflexivity.
  - intros v6 mac [= <-] [->| ->].
    + eexists _, _. split; [vm_compute; reflexivity|]. exists v6_range. eexists. split_and!; try (vm_compute; reflexivity).
      intros ap [= <-]. eexists. vm_compute. reflexivity.
    + eexists _, _. split; [vm_compute; reflexivity|]. exists v6_range. eexists. split_and!; try (vm_compute; reflexivity).
      intros ap [= <-]. eexists. vm_compute. reflexivity.
Qed.
Lemma sane_default : sane RetryPolicy_default.
Proof.
  split; [split; vm_compute; [discriminate|reflexivity]|]. intros n Hn.
  assert (n = 0 \/ n = 1 \/ n = 2)%Z as [->|[->| ->]] by (cbn in Hn; lia); vm_compute; by eexists.
Qed.
Definition stingy : Services := services (Ok tt) (refuses_insert 24).
Lemma good_reliable : @reliable good good_mac (length (vw_log world)) (live world).
Proof. by apply services_reliable. Qed.
Lemma stingy_reliable : @reliable stingy good_mac (length (vw_log world)) (live world).
Proof. apply services_reliable. by intros n []. Qed.
Lemma run_pair {A} (x : option A * VmWorld) r : x.1 = r -> x = (r, x.2).
Proof. destruct x. by intros <-. Qed.

(** ** Runs *)

(** The addresses, the references and what exists after a spawn. *)
Example spawn_runs :
  (spawn good world).1 = Some (Ok tt) /\
  (fun a => (ia_ip a, ia_arp_ref a, ia_dns_forward_ref a, ia_dns_reverse_ref a)) <$> vw_ips (spawn good world).2 =
    [("10.0.0.2", Some "old", None, None); ("10.0.0.3", Some "new3", Some "new8", Some "new12");
     ("fd00::ff:fe00:1", None, Some "new10", None)] /\
  vr_mac_address <$> vw_vms (spawn good world).2 = ["02:00:00:00:00:01"].
Proof. split_and!; vm_compute; reflexivity. Qed.

(** The rollback of the last step never runs, as it is the step that failed: when the
    database refuses the second of two addresses, the first stays, with references to
    an entry and records that are gone; and the machine, which now has an address but
    the placeholder MAC address, can never be spawned again. *)
Example failed_save_strands_a_row :
  (spawn stingy world).1 = Some (Err (Fatal Sql)) /\
  elements (live (spawn stingy world).2) = [ArpAt 1 "old"] /\
  (fun a => (ia_vm_id a, ia_arp_ref a)) <$> vw_ips (spawn stingy world).2 = [(6, Some "old"); (7, Some "new3")] /\
  (spawn good (spawn stingy world).2).1 = Some (Err (Fatal BlankMac)).
Proof. split_and!; vm_compute; reflexivity. Qed.

(** A step that fails after its own effect does not undo it: when the database
    refuses the MAC address of the machine, the entry that came with the address
    stays at the router, and no row refers to it. *)
Example failed_allocation_leaks_an_entry :
  let s := services (Ok tt) (refuses 9) in
  (spawn s world).1 = Some (Err (Fatal Sql)) /\
  elements (live (spawn s world).2) = [ArpAt 1 "old"; ArpAt 1 "new3"] /\ vw_ips (spawn s world).2 = vw_ips world.
Proof. split_and!; vm_compute; reflexivity. Qed.
End VmDemo.

(** ** The theorems, there *)

Import VmDemo RefNet.
Lemma failed_spawn_leaves_nothing_witness :
  live (spawn stingy world).2 = live world /\ vw_vms (spawn stingy world).2 = vw_vms world.
Proof.
  assert ((spawn stingy world).1 = Some (Err (Fatal Sql))) as Hrun by (vm_compute; reflexivity).
  destruct (@failed_spawn_leaves_nothing ref_netlib counting hex stingy RetryPolicy_default shuffle 8 good_mac world machine false
    (Fatal Sql) (spawn stingy world).2 stingy_reliable machine_blank machine_placeable (run_pair _ _ Hrun)) as (Hl & Hv & _).
  exact (conj Hl Hv).
Defined.
Lemma spawned_is_recorded_witness :
  VmAt 3 7 ∈ live (spawn good world).2 /\
  exists mac, vw_vms (spawn good world).2 = vms_with world machine mac /\ exists ips, made world machine mac ips (spawn good world).2.
Proof.
  assert ((spawn good world).1 = Some (Ok tt)) as Hrun by (vm_compute; reflexivity).
  destruct (@spawned_is_recorded ref_netlib counting hex good RetryPolicy_default shuffle 8 good_mac world machine false
    (spawn good world).2 good_reliable machine_blank machine_placeable (run_pair _ _ Hrun)) as (Hat & mac & ips & rows & Hmade & Hv & _).
  exact (conj Hat (ex_intro _ mac (conj Hv (ex_intro _ ips Hmade)))).
Defined.
Lemma deleted_leaves_nothing_witness :
  live (delete good (spawn good world).2).2 = live world.
Proof.
  assert ((spawn good world).1 = Some (Ok tt)) as Hspawn by (vm_compute; reflexivity).
  assert ((delete good (spawn good world).2).1 = Some (Ok tt)) as Hdelete by (vm_compute; reflexivity).
  refine (proj1 (@deleted_leaves_nothing ref_netlib counting hex good RetryPolicy_default shuffle 8 good_mac world machine false false
    (spawn good world).2 (delete good (spawn good world).2).2 good_reliable machine_blank machine_placeable (run_pair _ _ Hspawn) _
    (run_pair _ _ Hdelete))).
  intros a _ _ _ n r l e id El He. assert (l = []) as -> by (cbn in El; congruence). destruct (not_elem_of_nil e He).
Defined.
Lemma machine_operations_return_witness :
  exists r w', spawn stingy world = (Some r, w').
Proof.
  refine (proj2 (proj2 (@machine_operations_return ref_netlib counting hex stingy RetryPolicy_default shuffle 8 false 7 false world sane_default)) _).
  intros region. destruct (decide (region = 1)) as [->|Hr].
  - eexists. split; [vm_compute; reflexivity|done].
  - exists (Err NoRangeInRegion). split; [|done]. unfold pick_ip_for_region, pick_ip_kind_for_region, list_ip_range_in_region.
    rewrite filter_none; [done|]. intros x Hx [Hregion _]. vm_compute in Hx.
    apply elem_of_cons in Hx as [->|Hx%list_elem_of_singleton]; [|subst x]; by apply Hr.
Defined.
