(* ===== verification/Referral.v ===== *)
(** * Referral commission and its payouts
    ([lnvps_api/src/referral/mod.rs], [lnvps_db/src/model.rs], [lnvps_db/src/mysql.rs])

    A referrer earns a share of the first payment of each machine that was ordered
    with his code. A job pays what is owed in bitcoin, over Lightning one by one and on
    chain in one transaction: it reserves a row, asks for the payment, and records or
    releases the row. Every statement may be refused, or executed with its answer
    lost; the process may die at any statement or call; a payment that fails may have
    moved the money all the same. *)

From Stdlib Require Import Ascii String SpecFloat.
From stdpp Require Import list sorting pretty.
From S2P Require Import Prelude NetText IpAlloc Network HostTypes Exchange.
From S2P Require FwUpgrade.

(** ** Rows *)

Inductive ReferralPayoutMode : Type := LightningAddress | Nwc | AccountCredit | OnChainMode.
#[export] Instance ReferralPayoutMode_eq_dec : EqDecision ReferralPayoutMode.
Proof. solve_decision. Defined.
Definition mode_string (m : ReferralPayoutMode) : string :=
  match m with
  | LightningAddress => "lightning_address" | Nwc => "nwc" | AccountCredit => "account_credit"
  | OnChainMode => "on_chain"
  end.
Definition mode_from_str (s : string) : option ReferralPayoutMode :=
  let s := FwUpgrade.to_lowercase (trim s) in
  if bool_decide (s ∈ ["lightning_address"; "lightning"; "lnaddress"]%string) then Some LightningAddress
  else if bool_decide (s ∈ ["nwc"]%string) then Some Nwc
  else if bool_decide (s ∈ ["account_credit"; "credit"]%string) then Some AccountCredit
  else if bool_decide (s ∈ ["on_chain"; "onchain"]%string) then Some OnChainMode
  else None.

Record Referral := {
  rf_id : Z; rf_user_id : Z; rf_code : string; rf_address : option string; rf_mode : ReferralPayoutMode;
  rf_rate : option f32; rf_payout_threshold : option Z
}.
Record ReferralPayout := {
  po_id : Z; po_referral_id : Z; po_amount : Z; po_fee : Z; po_currency : string; po_is_paid : bool;
  po_mode : ReferralPayoutMode; po_output : option string; po_pre_image : option (list Z)
}.
Record ReferralCostUsage := {
  us_vm_id : Z; us_ref_code : string; us_created : Z; us_amount : Z; us_currency : string; us_rate : f32;
  us_base_currency : string; us_effective_rate : f32
}.
(** [(amount as f64 * (effective_rate as f64 / 100.0)).floor() as u64] *)
Definition commission (u : ReferralCostUsage) : Z :=
  Flt.floor_to 64 (f64_mul (f64_of (us_amount u)) (percent (us_effective_rate u))).

(** *** What was sold: the columns that the usage of a code is read from *)

Record SoldVm := { sv_id : Z; sv_ref_code : option string; sv_host_id : Z; sv_line_item_id : Z }.
Record SoldItem := { si_id : Z; si_subscription_id : Z; si_type : Z }.
Record SoldPayment := {
  sp_subscription_id : Z; sp_created : Z; sp_amount : Z; sp_currency : string; sp_rate : f32; sp_is_paid : bool
}.
Record Seller := { co_id : Z; co_base_currency : string; co_referral_rate : f32 }.
Record Sales := {
  sl_vms : list SoldVm; sl_items : list SoldItem; sl_payments : list SoldPayment;
  sl_hosts : list (Z * Z); sl_regions : list (Z * Z); sl_companies : list Seller
}.
Definition with_vms (f : SoldVm -> SoldVm) (s : Sales) : Sales :=
  {| sl_vms := f <$> sl_vms s; sl_items := sl_items s; sl_payments := sl_payments s; sl_hosts := sl_hosts s;
     sl_regions := sl_regions s; sl_companies := sl_companies s |}.

(** The paid payments of a machine, in the order of the tables. *)
Definition paid_payments (s : Sales) (v : SoldVm) : list SoldPayment :=
  p ← filter (fun p => sp_is_paid p = true) (sl_payments s);
  _ ← filter (fun i => si_subscription_id i = sp_subscription_id p /\ si_type i = 3 /\ sv_line_item_id v = si_id i)
        (sl_items s);
  [p].
(** [ROW_NUMBER() OVER (PARTITION BY v2.id ORDER BY sp2.created ASC) = 1]; among
    payments of the same second it is the first of the table. *)
Definition earlier (a b : SoldPayment) : SoldPayment := if sp_created b <? sp_created a then b else a.
Definition first_paid (s : Sales) (v : SoldVm) : option SoldPayment :=
  match paid_payments s v with [] => None | p :: l => Some (foldl earlier p l) end.
Definition left_join {A} (l : list A) : list (option A) := match l with [] => [None] | _ => Some <$> l end.
Definition newer (a b : ReferralCostUsage) : Prop := us_created b <= us_created a.
#[export] Instance newer_dec a b : Decision (newer a b).
Proof. unfold newer. apply _. Defined.
Definition usage_rows (s : Sales) (referrals : list Referral) (code : string) : list ReferralCostUsage :=
  v ← filter (fun v => sv_ref_code v = Some code) (sl_vms s);
  sp ← option_list (first_paid s v);
  vh ← filter (fun h => h.1 = sv_host_id v) (sl_hosts s);
  vhr ← filter (fun r => r.1 = vh.2) (sl_regions s);
  c ← filter (fun c => co_id c = vhr.2) (sl_companies s);
  r ← left_join (filter (fun r => rf_code r = code) referrals);
  [{| us_vm_id := sv_id v; us_ref_code := code; us_created := sp_created sp; us_amount := sp_amount sp;
      us_currency := sp_currency sp; us_rate := sp_rate sp; us_base_currency := co_base_currency c;
      us_effective_rate := default (co_referral_rate c) (r ≫= rf_rate) |}].

(** ** Amounts *)

Definition effective_min_msat (referral : Referral) (system_min_msat : Z) : Z :=
  match rf_payout_threshold referral with
  | Some sats => Z.max (sat_mul 64 sats 1000) system_min_msat
  | None => system_min_msat
  end.
Definition payable_referral_msat (earned_msat existing_msat min_msat : Z) : option Z :=
  let owed := sat_sub earned_msat existing_msat in
  if owed <? min_msat then None else
  let pay_msat := owed / 1000 * 1000 in
  if pay_msat =? 0 then None else Some pay_msat.
(** [iter().sum()] in a [w]-bit type *)
Definition sum_u (w : Z) (l : list Z) : Z := foldl (wadd w) 0 l.
(** [enumerate().max_by_key(|(_, a)| a)]: of several largest, the last. *)
Fixpoint max_index (i : nat) (best : option (nat * Z)) (l : list Z) : option (nat * Z) :=
  match l with
  | [] => best
  | a :: l =>
      max_index (S i) (match best with Some (j, b) => if a <? b then Some (j, b) else Some (i, a) | None => Some (i, a) end) l
  end.
Definition split_fee_proportional (amounts : list Z) (total_fee : Z) : list Z :=
  let sum := sum_u 128 amounts in
  if (sum =? 0) || (total_fee =? 0) then replicate (length amounts) 0 else
  let shares := (fun a => wrap 64 (wmul 128 a total_fee / sum)) <$> amounts in
  let assigned := sum_u 64 shares in
  let remainder := sat_sub total_fee assigned in
  if 0 <? remainder then
    match max_index 0 None amounts with
    | Some (idx, _) => alter (fun s => wadd 64 s remainder) idx shares
    | None => shares
    end
  else shares.
Definition is_btc (currency : string) : bool := String.eqb (to_uppercase currency) "BTC".
Definition earned_btc (usage : list ReferralCostUsage) : Z :=
  sum_u 64 (commission <$> filter (fun u => is_btc (us_currency u)) usage).
Definition saturating_add (w a b : Z) : Z := Z.min (2 ^ w - 1) (a + b).
Definition existing_btc (payouts : list ReferralPayout) : Z :=
  sum_u 64 ((fun p => saturating_add 64 (po_amount p) (po_fee p)) <$> filter (fun p => is_btc (po_currency p)) payouts).

(** ** The bitcoin crate *)

Class Bitcoin := {
  Address : Type; Script : Type; Script_eq_dec :: EqDecision Script; Tx : Type;
  address_from_str : string -> option Address;
  on_mainnet : Address -> bool; on_regtest : Address -> bool;
  script_pubkey : Address -> Script;
  deserialize : list Z -> option Tx;
  tx_output : Tx -> list Script; vsize : Tx -> Z;
  (** what a BOLT11 invoice asks for *)
  invoice_msat : string -> Z
}.
Definition decode_tx `{!HexLib, !Bitcoin} (raw_tx_hex : string) : option Tx := hex_decode (trim raw_tx_hex) ≫= deserialize.
Definition vout_for_address `{!Bitcoin} (tx : Tx) (address : string) : option Z :=
  a ← address_from_str (trim address);
  i ← list_find (fun o => o = script_pubkey a) (tx_output tx);
  Some (Z.of_nat i.1).

(** ** The world *)

Inductive PayFail : Type :=
| Sql | RowNotFound | Duplicate | NoAddress | NoNwc | NotImplemented | Remote | SendFailed
(* the handlers of the API *)
| NotEnrolled | AlreadyEnrolled | InvalidMode | CreditNotAvailable | AddressRequired | BadAddress | NwcMissing
| BelowMinimum | PayoutPending | PayoutHistory | EmptyCode | CodeTaken | NegativeRate | ZeroAmount | NoCurrency
| BadPreImage | PayoutNotFound.
Record SendOutput := { out_address : string; out_msat : Z }.
Record SendCoinsRequest := { rq_outputs : list SendOutput; rq_sat_per_vbyte : option Z }.
Record SendCoinsResponse := { rs_txid : string; rs_raw_tx : option string; rs_fee : option Z }.
Record PayInvoiceResponse := { pi_payment_preimage : option string; pi_fee_msat : Z }.
Inductive PayCall : Type :=
| LnurlInvoice (address : string) (msat : Z) | NwcInvoice (connection : string) (msat : Z)
| PayInvoice (invoice : string) (timeout_seconds : Z)
| FeeRate | SendCoins (req : SendCoinsRequest)
| ResolveLnurl (address : string)
| Notify (user : Z) (sats fee_sats : Z) (outpoint : option string).
Definition Reply (c : PayCall) : Type :=
  match c with
  | LnurlInvoice _ _ | NwcInvoice _ _ => string
  | PayInvoice _ _ => PayInvoiceResponse
  | FeeRate => Z
  | SendCoins _ => SendCoinsResponse
  | ResolveLnurl _ | Notify _ _ _ _ => unit
  end.
(** What becomes of a statement: executed or not, answered, answered with an error,
    or not answered because the process died. *)
Inductive Fate : Type := Executed | Rejected | AnswerLost | DiesBefore | DiesAfter.
Class PayServices := {
  fate : nat -> Fate;
  (** the answer to the n-th call, and whether it moves money *)
  reply : nat -> forall c, option (res PayFail (Reply c));
  moved : nat -> PayCall -> bool
}.
(** A call, whether it moved money, whether it was answered with an error, and the
    rows that it pays. *)
Record Entry := { en_call : PayCall; en_moved : bool; en_refused : bool; en_rows : list ReferralPayout }.
Definition is_error {A} (r : option (res PayFail A)) : bool := match r with Some (Err _) => true | _ => false end.

Record UserMethod := { um_id : Z; um_user_id : Z; um_provider : string; um_external_id : string; um_enabled : bool; um_is_default : bool }.
Record RefWorld := {
  rw_sales : Sales; rw_methods : list UserMethod; rw_referrals : list Referral; rw_next_referral : Z;
  rw_payouts : list ReferralPayout; rw_next_payout : Z; rw_statements : nat; rw_log : list Entry
}.
Definition set_sales (f : Sales -> Sales) (w : RefWorld) : RefWorld :=
  {| rw_sales := f (rw_sales w); rw_methods := rw_methods w; rw_referrals := rw_referrals w;
     rw_next_referral := rw_next_referral w; rw_payouts := rw_payouts w; rw_next_payout := rw_next_payout w;
     rw_statements := rw_statements w; rw_log := rw_log w |}.
Definition set_referrals (f : list Referral -> list Referral) (next : Z) (w : RefWorld) : RefWorld :=
  {| rw_sales := rw_sales w; rw_methods := rw_methods w; rw_referrals := f (rw_referrals w);
     rw_next_referral := next; rw_payouts := rw_payouts w; rw_next_payout := rw_next_payout w;
     rw_statements := rw_statements w; rw_log := rw_log w |}.
Definition set_payouts (f : list ReferralPayout -> list ReferralPayout) (next : Z) (w : RefWorld) : RefWorld :=
  {| rw_sales := rw_sales w; rw_methods := rw_methods w; rw_referrals := rw_referrals w;
     rw_next_referral := rw_next_referral w; rw_payouts := f (rw_payouts w); rw_next_payout := next;
     rw_statements := rw_statements w; rw_log := rw_log w |}.
Definition count_statement (w : RefWorld) : RefWorld :=
  {| rw_sales := rw_sales w; rw_methods := rw_methods w; rw_referrals := rw_referrals w;
     rw_next_referral := rw_next_referral w; rw_payouts := rw_payouts w; rw_next_payout := rw_next_payout w;
     rw_statements := S (rw_statements w); rw_log := rw_log w |}.
Definition push_entry (e : Entry) (w : RefWorld) : RefWorld :=
  {| rw_sales := rw_sales w; rw_methods := rw_methods w; rw_referrals := rw_referrals w;
     rw_next_referral := rw_next_referral w; rw_payouts := rw_payouts w; rw_next_payout := rw_next_payout w;
     rw_statements := rw_statements w; rw_log := rw_log w ++ [e] |}.

(** A computation that may fail; [None] when the process died. *)
Definition Job (A : Type) : Type := RefWorld -> option (res PayFail A) * RefWorld.
Definition done {A} (a : A) : Job A := fun w => (Some (Ok a), w).
Definition bail {A} (e : PayFail) : Job A := fun w => (Some (Err e), w).
Definition job_bind {A B} (m : Job A) (k : A -> Job B) : Job B := fun w =>
  match m w with
  | (Some (Ok a), w') => k a w'
  | (Some (Err e), w') => (Some (Err e), w')
  | (None, w') => (None, w')
  end.
(** [match m { Ok(..) => .., Err(..) => .. }] *)
Definition attempt {A} (m : Job A) : Job (res PayFail A) := fun w =>
  match m w with (Some r, w') => (Some (Ok r), w') | (None, w') => (None, w') end.
Notation "x ←! m ; k" := (job_bind m (fun x => k)) (at level 20, m at level 100, k at level 200).
Notation "m ;! k" := (job_bind m (fun _ => k)) (at level 100, k at level 200, right associativity).
Definition of_option {A} (e : PayFail) (o : option A) : Job A := match o with Some a => done a | None => bail e end.
Definition of_res {A} (r : res PayFail A) : Job A := match r with Ok a => done a | Err e => bail e end.
(** [if let Err(e) = m { warn!(..) }] *)
Definition warned {A} (m : Job A) : Job unit := attempt m ;! done tt.
Fixpoint for_each {A} (f : A -> Job unit) (l : list A) : Job unit :=
  match l with [] => done tt | a :: l => f a ;! for_each f l end.
Fixpoint collect {A B} (f : A -> Job B) (l : list A) : Job (list B) :=
  match l with [] => done [] | a :: l => b ←! f a; bs ←! collect f l; done (b :: bs) end.

Section referral.
Context `{!HexLib, !Bitcoin, !PayServices}.

(** A statement that reads a value and changes the tables. *)
Definition statement {A} (f : RefWorld -> A * RefWorld) : Job A := fun w =>
  let w1 := count_statement w in
  match fate (rw_statements w) with
  | Executed => let '(a, w2) := f w1 in (Some (Ok a), w2)
  | Rejected => (Some (Err Sql), w1)
  | AnswerLost => (Some (Err Sql), (f w1).2)
  | DiesBefore => (None, w1)
  | DiesAfter => (None, (f w1).2)
  end.
Definition query {A} (f : RefWorld -> A) : Job A := statement (fun w => (f w, w)).
Definition fetch_one {A} (f : RefWorld -> list A) : Job A := l ←! query f; of_option RowNotFound (head l).
Definition call_for (rows : list ReferralPayout) (c : PayCall) : Job (Reply c) := fun w =>
  let n := length (rw_log w) in
  (reply n c, push_entry {| en_call := c; en_moved := moved n c; en_refused := is_error (reply n c); en_rows := rows |} w).
Definition call (c : PayCall) : Job (Reply c) := call_for [] c.

(** ** The database *)

Definition list_all_referrals : Job (list Referral) := query rw_referrals.
(** [ORDER BY sp.created DESC] *)
Definition list_referral_usage (code : string) : Job (list ReferralCostUsage) :=
  query (fun w => merge_sort newer (usage_rows (rw_sales w) (rw_referrals w) code)).
(** Newest first: rows are in the order they were inserted. *)
Definition list_referral_payouts (referral_id : Z) : Job (list ReferralPayout) :=
  query (fun w => rev (filter (fun p => po_referral_id p = referral_id) (rw_payouts w))).
Definition with_payout_id (id : Z) (p : ReferralPayout) : ReferralPayout :=
  {| po_id := id; po_referral_id := po_referral_id p; po_amount := po_amount p; po_fee := po_fee p;
     po_currency := po_currency p; po_is_paid := po_is_paid p; po_mode := po_mode p; po_output := po_output p;
     po_pre_image := po_pre_image p |}.
(** The columns that are inserted; a row starts unpaid. *)
Definition insert_referral_payout (payout : ReferralPayout) : Job Z := statement (fun w =>
  let id := rw_next_payout w in
  (id, set_payouts (fun l => l ++ [
    {| po_id := id; po_referral_id := po_referral_id payout; po_amount := po_amount payout; po_fee := po_fee payout;
       po_currency := po_currency payout; po_is_paid := false; po_mode := po_mode payout;
       po_output := po_output payout; po_pre_image := None |}]) (id + 1) w)).
(** The columns that are updated. *)
Definition update_referral_payout (payout : ReferralPayout) : Job unit := statement (fun w =>
  (tt, set_payouts (fmap (fun old => if decide (po_id old = po_id payout) then
    {| po_id := po_id old; po_referral_id := po_referral_id old; po_amount := po_amount old; po_fee := po_fee payout;
       po_currency := po_currency old; po_is_paid := po_is_paid payout; po_mode := po_mode payout;
       po_output := po_output payout; po_pre_image := po_pre_image payout |}
    else old)) (rw_next_payout w) w)).
Definition delete_referral_payout (payout_id : Z) : Job unit := statement (fun w =>
  (tt, set_payouts (filter (fun p => po_id p <> payout_id)) (rw_next_payout w) w)).
(** [order by is_default desc, id asc] *)
Definition default_first (a b : UserMethod) : Prop :=
  um_is_default a = true /\ um_is_default b = false \/ um_is_default a = um_is_default b /\ um_id a <= um_id b.
#[export] Instance default_first_dec a b : Decision (default_first a b).
Proof. unfold default_first. apply _. Defined.
Definition list_user_payment_methods (user_id : Z) (provider : string) : Job (list UserMethod) :=
  query (fun w => merge_sort default_first (filter (fun m => um_user_id m = user_id /\ um_provider m = provider) (rw_methods w))).

(** ** Lightning payouts *)

Definition nwc_make_invoice (user_id amount_msat : Z) : Job string :=
  methods ←! list_user_payment_methods user_id "nwc";
  nwc_method ←! of_option NoNwc (snd <$> list_find (fun m => um_enabled m = true) methods);
  call (NwcInvoice (um_external_id nwc_method) amount_msat).
(** [as_deref().map(str::trim).filter(|s| !s.is_empty())] *)
Definition payout_address (referral : Referral) : option string :=
  a ← rf_address referral;
  let a := trim a in
  if String.eqb a "" then None else Some a.
(** The row is what the payment is for; the node is only told the invoice. *)
Definition pay_commission (row : ReferralPayout) (referral : Referral) (amount_msat : Z)
  : Job (string * option (list Z) * Z) :=
  bolt11 ←! match rf_mode referral with
            | LightningAddress =>
                addr ←! of_option NoAddress (payout_address referral); call (LnurlInvoice addr amount_msat)
            | Nwc => nwc_make_invoice (rf_user_id referral) amount_msat
            | AccountCredit | OnChainMode => bail NotImplemented
            end;
  resp ←! call_for [row] (PayInvoice bolt11 60);
  done (bolt11, (h ← pi_payment_preimage resp; hex_decode (trim h)), pi_fee_msat resp).

Definition reservation (referral : Referral) (pay_msat : Z) (mode : ReferralPayoutMode) : ReferralPayout :=
  {| po_id := 0; po_referral_id := rf_id referral; po_amount := pay_msat; po_fee := 0; po_currency := "BTC";
     po_is_paid := false; po_mode := mode; po_output := None; po_pre_image := None |}.
Definition settled (fee : Z) (output : option string) (pre_image : option (list Z)) (p : ReferralPayout) : ReferralPayout :=
  {| po_id := po_id p; po_referral_id := po_referral_id p; po_amount := po_amount p; po_fee := fee;
     po_currency := po_currency p; po_is_paid := true; po_mode := po_mode p; po_output := output;
     po_pre_image := pre_image |}.

(** The balance of a referrer, and what is to be paid of it. *)
Definition payable (referral : Referral) (min_msat : Z) : Job (option Z) :=
  usage ←! list_referral_usage (rf_code referral);
  payouts ←! list_referral_payouts (rf_id referral);
  done (payable_referral_msat (earned_btc usage) (existing_btc payouts) (effective_min_msat referral min_msat)).
Definition payable_onchain_msat : Referral -> Z -> Job (option Z) := payable.
(** From the reservation on. *)
Definition pay_reserved (referral : Referral) (pay_msat : Z) : Job unit :=
  let payout := reservation referral pay_msat (rf_mode referral) in
  payout_id ←! insert_referral_payout payout;
  let payout := with_payout_id payout_id payout in
  r ←! attempt (pay_commission payout referral pay_msat);
  match r with
  | Ok (bolt11, pre_image, fee_msat) =>
      update_referral_payout (settled fee_msat (Some bolt11) pre_image payout) ;!
      warned (call (Notify (rf_user_id referral) (pay_msat / 1000) (fee_msat / 1000) None))
  | Err e => warned (delete_referral_payout payout_id) ;! bail e
  end.
Definition process_one (referral : Referral) (min_msat : Z) : Job unit :=
  pay ←! payable referral min_msat;
  match pay with Some pay_msat => pay_reserved referral pay_msat | None => done tt end.

(** ** On-chain payouts *)

Definition payout_batch_request (eligible : list (Referral * string * Z)) (sat_per_vbyte : Z) : SendCoinsRequest :=
  {| rq_outputs := (fun '(_, address, pay_msat) => {| out_address := address; out_msat := pay_msat |}) <$> eligible;
     rq_sat_per_vbyte := Some sat_per_vbyte |}.
Definition reserve (e : Referral * string * Z) : Job (ReferralPayout * Referral * string) :=
  let '(referral, addr, pay_msat) := e in
  let payout := reservation referral pay_msat OnChainMode in
  payout_id ←! insert_referral_payout payout;
  done (with_payout_id payout_id payout, referral, addr).
Definition outpoint (resp : SendCoinsResponse) (tx : option Tx) (address : string) : string :=
  match (tx ≫= fun tx => vout_for_address tx address) with
  | Some vout => rs_txid resp ++ ":" ++ pretty vout
  | None => rs_txid resp
  end.
Definition total_fee_msat (resp : SendCoinsResponse) (tx : option Tx) (sat_per_vbyte : Z) : Z :=
  match rs_fee resp with
  | Some f => f
  | None => match tx with Some tx => wmul 64 (sat_mul 64 sat_per_vbyte (vsize tx)) 1000 | None => 0 end
  end.
Definition record_payout (resp : SendCoinsResponse) (tx : option Tx)
    (e : ReferralPayout * Referral * string * Z) : Job unit :=
  let '(payout, referral, address, fee_msat) := e in
  let out := outpoint resp tx address in
  warned (update_referral_payout (settled fee_msat (Some out) None payout)) ;!
  warned (call (Notify (rf_user_id referral) (po_amount payout / 1000) (fee_msat / 1000) (Some out))).
Definition send_batch (max_onchain_fee_per_vbyte : Z) (eligible : list (Referral * string * Z)) : Job unit :=
  sat_per_vbyte ←! call FeeRate;
  if max_onchain_fee_per_vbyte <? sat_per_vbyte then done tt else
  reserved ←! collect reserve eligible;
  r ←! attempt (call_for ((fun e => e.1.1) <$> reserved) (SendCoins (payout_batch_request eligible sat_per_vbyte)));
  match r with
  | Ok resp =>
      let decoded := rs_raw_tx resp ≫= decode_tx in
      let fee_shares := split_fee_proportional ((fun e => po_amount e.1.1) <$> reserved)
                          (total_fee_msat resp decoded sat_per_vbyte) in
      for_each (record_payout resp decoded) (zip reserved fee_shares)
  | Err e =>
      for_each (fun e => warned (delete_referral_payout (po_id e.1.1))) reserved ;! bail SendFailed
  end.
Definition select_onchain (min_onchain_msat : Z) (referral : Referral) : Job (list (Referral * string * Z)) :=
  if negb (bool_decide (rf_mode referral = OnChainMode)) then done [] else
  match payout_address referral with
  | None => done []
  | Some address =>
      r ←! attempt (payable_onchain_msat referral min_onchain_msat);
      match r with Ok (Some pay_msat) => done [(referral, address, pay_msat)] | _ => done [] end
  end.
Definition process_onchain_batch (max_onchain_fee_per_vbyte : Z) (referrals : list Referral) (min_onchain_msat : Z) : Job unit :=
  eligible ←! collect (select_onchain min_onchain_msat) referrals;
  let eligible := concat eligible in
  if bool_decide (eligible = []) then done tt else send_batch max_onchain_fee_per_vbyte eligible.

(** ** The job *)

Record ReferralPayoutHandler := {
  ph_min_payout_msat : option Z; ph_onchain : bool; ph_min_onchain_payout_msat : option Z;
  ph_max_onchain_fee_per_vbyte : Z
}.
Definition ReferralPayoutHandler_new (min_payout_sats : option Z) (onchain : bool) (min_onchain_payout_sats : option Z)
    (max_onchain_fee_per_vbyte : Z) : ReferralPayoutHandler :=
  {| ph_min_payout_msat := (fun s => sat_mul 64 s 1000) <$> min_payout_sats; ph_onchain := onchain;
     ph_min_onchain_payout_msat := (fun s => sat_mul 64 s 1000) <$> min_onchain_payout_sats;
     ph_max_onchain_fee_per_vbyte := max_onchain_fee_per_vbyte |}.
Definition pay_lightning (min_msat : Z) (referral : Referral) : Job unit :=
  if bool_decide (rf_mode referral = OnChainMode) then done tt else warned (process_one referral min_msat).
Definition process_payouts (h : ReferralPayoutHandler) : Job unit :=
  referrals ←! list_all_referrals;
  match ph_min_payout_msat h with
  | Some min_msat => for_each (pay_lightning min_msat) referrals
  | None => done tt
  end ;!
  match ph_onchain h, ph_min_onchain_payout_msat h with
  | true, Some min_onchain_msat =>
      warned (process_onchain_batch (ph_max_onchain_fee_per_vbyte h) referrals min_onchain_msat)
  | _, _ => done tt
  end.
End referral.
