(* ===== verification/ReferralApi.v ===== *)
(** * The referral programme: enrolment, balances and manual payouts
    ([lnvps_api/src/api/referral.rs], [lnvps_api_admin/src/admin/referrals.rs])

    One function per handler, from the user that the request was authenticated for
    on; what a handler answers is its row or its figures. Texts compare as they are
    written. *)

From Stdlib Require Import Ascii String SpecFloat.
From stdpp Require Import list sorting strings gmap.
From S2P Require Import Prelude NetText IpAlloc Network HostTypes Exchange Referral.

(** ** What is asked of a referrer *)

Definition parse_payout_mode (mode : option string) : res PayFail (option ReferralPayoutMode) :=
  match mode with
  | None => mret None
  | Some s =>
      parsed ← ok_or InvalidMode (mode_from_str s);
      _ ← ensure (bool_decide (parsed <> AccountCredit)) CreditNotAvailable;
      mret (Some parsed)
  end.
Record ReferralConfig := { cf_min_payout_sats : Z; cf_min_onchain_payout_sats : option Z }.
Definition system_min_payout_sats (referral : option ReferralConfig) (mode : ReferralPayoutMode) : Z :=
  match referral with
  | Some r =>
      match mode with
      | OnChainMode => default (cf_min_payout_sats r) (cf_min_onchain_payout_sats r)
      | _ => cf_min_payout_sats r
      end
  | None => 1000
  end.
Definition validate_payout_threshold (threshold : Z) (referral : option ReferralConfig) (mode : ReferralPayoutMode)
  : res PayFail unit := ensure (system_min_payout_sats referral mode <=? threshold) BelowMinimum.
(** [A-Za-z0-9_] *)
Definition ALPHABET : list ascii :=
  String.list_ascii_of_string "ABCDEFGHIJKLMNOPQRSTUVWXYZabcdefghijklmnopqrstuvwxyz0123456789_".
(** The bytes are [rand::random()]. *)
Definition generate_referral_code (bytes : list Z) : string :=
  String.string_of_list_ascii
    ((fun b => nth (Z.to_nat (b mod Z.of_nat (length ALPHABET))) ALPHABET "A"%char) <$> bytes).

Record ApiReferralSignupRequest := { su_address : option string; su_mode : option string; su_payout_threshold : option Z }.
Record ApiReferralPatchRequest := {
  pr_address : option (option string); pr_mode : option string; pr_payout_threshold : option (option Z)
}.
Record AdminUpdateReferralRequest := {
  au_code : option string; au_referral_rate : option (option f32); au_payout_threshold : option (option Z)
}.
Record AdminCreateReferralPayoutRequest := {
  ac_amount : Z; ac_currency : string; ac_output : option string; ac_mode : option string; ac_is_paid : bool
}.
Record AdminUpdateReferralPayoutRequest := {
  up_is_paid : option bool; up_output : option (option string); up_mode : option string;
  up_pre_image : option (option string)
}.
Definition not_blank (s : option string) : option string := s ≫= fun s => if String.eqb (trim s) "" then None else Some s.

Section api.
Context `{!HexLib, !Bitcoin, !PayServices}.

(** Release builds take mainnet addresses, debug builds regtest ones as well. *)
Definition validate_onchain_address (debug : bool) (addr : string) : res PayFail unit :=
  parsed ← ok_or BadAddress (address_from_str (trim addr));
  if on_mainnet parsed then mret tt else
  ensure (debug && on_regtest parsed) BadAddress.
(** The form of the address, its resolution and what is answered there. *)
Definition validate_lightning_address (addr : string) : Job unit :=
  r ←! attempt (call (ResolveLnurl addr));
  match r with Ok _ => done tt | Err _ => bail BadAddress end.
Definition user_has_nwc (uid : Z) : Job bool :=
  r ←! attempt (list_user_payment_methods uid "nwc");
  match r with Ok m => done (existsb um_enabled m) | Err _ => done false end.

(** ** The database *)

Definition get_referral_by_user (uid : Z) : Job Referral := fetch_one (fun w => filter (fun r => rf_user_id r = uid) (rw_referrals w)).
Definition get_referral_by_code (code : string) : Job Referral := fetch_one (fun w => filter (fun r => rf_code r = code) (rw_referrals w)).
Definition admin_get_referral (id : Z) : Job Referral := fetch_one (fun w => filter (fun r => rf_id r = id) (rw_referrals w)).
(** A statement that a constraint may refuse. *)
Definition constrained {A} (ok : RefWorld -> bool) (f : RefWorld -> A * RefWorld) : Job A :=
  r ←! statement (fun w => if ok w then let '(a, w') := f w in (Ok a, w') else (Err Duplicate, w));
  of_res r.
(** [UNIQUE (code)], [UNIQUE (user_id)] *)
Definition insert_referral (referral : Referral) : Job Z := constrained
  (fun w => bool_decide (Forall (fun r => rf_code r <> rf_code referral /\ rf_user_id r <> rf_user_id referral) (rw_referrals w)))
  (fun w =>
    let id := rw_next_referral w in
    (id, set_referrals (fun l => l ++ [
      {| rf_id := id; rf_user_id := rf_user_id referral; rf_code := rf_code referral; rf_address := rf_address referral;
         rf_mode := rf_mode referral; rf_rate := rf_rate referral; rf_payout_threshold := rf_payout_threshold referral |}])
      (id + 1) w)).
(** One transaction: the columns, and the machines that bear the old code. *)
Definition update_referral (referral : Referral) : Job unit := constrained
  (fun w => bool_decide (Forall (fun r => rf_id r <> rf_id referral -> rf_code r <> rf_code referral) (rw_referrals w)))
  (fun w =>
    let old_code := rf_code <$> head (filter (fun r => rf_id r = rf_id referral) (rw_referrals w)) in
    let w' := set_referrals (fmap (fun old => if decide (rf_id old = rf_id referral) then
      {| rf_id := rf_id old; rf_user_id := rf_user_id old; rf_code := rf_code referral; rf_address := rf_address referral;
         rf_mode := rf_mode referral; rf_rate := rf_rate referral; rf_payout_threshold := rf_payout_threshold referral |}
      else old)) (rw_next_referral w) w in
    (tt, match old_code with
         | Some old_code =>
             if String.eqb old_code (rf_code referral) then w' else
             set_sales (with_vms (fun v => if decide (sv_ref_code v = Some old_code) then
               {| sv_id := sv_id v; sv_ref_code := Some (rf_code referral); sv_host_id := sv_host_id v;
                  sv_line_item_id := sv_line_item_id v |} else v)) w'
         | None => w'
         end)).
(** [FOREIGN KEY (referral_id) REFERENCES referral(id)] *)
Definition delete_referral (referral_id : Z) : Job unit := constrained
  (fun w => bool_decide (Forall (fun p => po_referral_id p <> referral_id) (rw_payouts w)))
  (fun w => (tt, set_referrals (filter (fun r => rf_id r <> referral_id)) (rw_next_referral w) w)).
Definition has_paid (s : Sales) (v : SoldVm) : bool :=
  existsb (fun p => sp_is_paid p && existsb (fun i =>
    (si_subscription_id i =? sp_subscription_id p) && (si_type i =? 3) && (sv_line_item_id v =? si_id i)) (sl_items s))
    (sl_payments s).
Definition failed_referrals (s : Sales) (code : string) : Z :=
  Z.of_nat (length (filter (fun v => sv_ref_code v = Some code /\ has_paid s v = false) (sl_vms s))).
Definition count_failed_referrals (code : string) : Job Z := query (fun w => failed_referrals (rw_sales w) code).

(** ** Balances *)

(** [by_currency], sorted by currency *)
Definition by_currency (usage : list ReferralCostUsage) : gmap string Z :=
  foldl (fun m u => <[us_currency u := wadd 64 (default 0 (m !! us_currency u)) (commission u)]> m) ∅ usage.
Definition currency_le (a b : string * Z) : Prop := String.leb a.1 b.1 = true.
#[export] Instance currency_le_dec a b : Decision (currency_le a b).
Proof. unfold currency_le. apply _. Defined.
Record ReferralState := {
  rs_referral : Referral; rs_earned : list (string * Z); rs_payouts : list ReferralPayout;
  rs_referrals_success : Z; rs_referrals_failed : Z
}.
Definition ApiReferralState_build (referral : Referral) (usage : list ReferralCostUsage) (payouts : list ReferralPayout)
    (referrals_failed : Z) : ReferralState :=
  {| rs_referral := referral; rs_earned := merge_sort currency_le (map_to_list (by_currency usage));
     rs_payouts := payouts; rs_referrals_success := Z.of_nat (length usage); rs_referrals_failed := referrals_failed |}.
(** The first company, by id, is the default one. *)
Definition co_le (a b : Seller) : Prop := co_id a <= co_id b.
#[export] Instance co_le_dec a b : Decision (co_le a b).
Proof. unfold co_le. apply _. Defined.
Definition resolve_effective_rate (referral : Referral) : Job f32 :=
  match rf_rate referral with
  | Some r => done r
  | None =>
      r ←! attempt (query (fun w => merge_sort co_le (sl_companies (rw_sales w))));
      match r with Ok (c :: _) => done (co_referral_rate c) | _ => done zero end
  end.
Definition enrolled (uid : Z) : Job Referral :=
  r ←! attempt (get_referral_by_user uid);
  match r with Ok r => done r | Err _ => bail NotEnrolled end.
Definition v1_get_referral (uid : Z) : Job (ReferralState * f32) :=
  referral ←! enrolled uid;
  usage ←! list_referral_usage (rf_code referral);
  payouts ←! list_referral_payouts (rf_id referral);
  referrals_failed ←! count_failed_referrals (rf_code referral);
  effective_rate ←! resolve_effective_rate referral;
  done (ApiReferralState_build referral usage payouts referrals_failed, effective_rate).

(** ** Enrolment *)

Definition check_signup_address (debug : bool) (uid : Z) (mode : ReferralPayoutMode) (address : option string) : Job unit :=
  match mode with
  | LightningAddress =>
      match not_blank address with Some addr => validate_lightning_address addr | None => bail AddressRequired end
  | Nwc => has ←! user_has_nwc uid; if (has : bool) then done tt else bail NwcMissing
  | OnChainMode =>
      match not_blank address with Some addr => of_res (validate_onchain_address debug addr) | None => bail AddressRequired end
  | AccountCredit => fun w => (None, w)
  end.
Definition v1_signup_referral (debug : bool) (settings : option ReferralConfig) (bytes : list Z) (uid : Z)
    (req : ApiReferralSignupRequest) : Job Referral :=
  existing ←! attempt (get_referral_by_user uid);
  match existing with
  | Ok _ => bail AlreadyEnrolled
  | Err _ =>
      mode ←! of_res (parse_payout_mode (su_mode req));
      let mode := default LightningAddress mode in
      check_signup_address debug uid mode (su_address req) ;!
      match su_payout_threshold req with
      | Some threshold => of_res (validate_payout_threshold threshold settings mode)
      | None => done tt
      end ;!
      let referral := {| rf_id := 0; rf_user_id := uid; rf_code := generate_referral_code bytes; rf_address := su_address req;
                         rf_mode := mode; rf_rate := None; rf_payout_threshold := su_payout_threshold req |} in
      id ←! insert_referral referral;
      let created := {| rf_id := id; rf_user_id := uid; rf_code := rf_code referral; rf_address := rf_address referral;
                        rf_mode := mode; rf_rate := None; rf_payout_threshold := rf_payout_threshold referral |} in
      resolve_effective_rate created ;! done created
  end.
Definition set_payout (address : option string) (mode : ReferralPayoutMode) (threshold : option Z) (r : Referral) : Referral :=
  {| rf_id := rf_id r; rf_user_id := rf_user_id r; rf_code := rf_code r; rf_address := address; rf_mode := mode;
     rf_rate := rf_rate r; rf_payout_threshold := threshold |}.
Definition v1_update_referral (debug : bool) (settings : option ReferralConfig) (uid : Z) (req : ApiReferralPatchRequest)
  : Job Referral :=
  referral ←! enrolled uid;
  new_mode ←! of_res (parse_payout_mode (pr_mode req));
  let effective_mode := default (rf_mode referral) new_mode in
  address ←! match pr_address req with
             | Some addr =>
                 match addr, effective_mode with
                 | Some a, LightningAddress => validate_lightning_address a
                 | Some a, OnChainMode => of_res (validate_onchain_address debug a)
                 | _, _ => done tt
                 end ;! done addr
             | None => done (rf_address referral)
             end;
  match new_mode with
  | Some Nwc => has ←! user_has_nwc uid; if (has : bool) then done tt else bail NwcMissing
  | _ => done tt
  end ;!
  match pr_payout_threshold req with
  | Some (Some sats) => of_res (validate_payout_threshold sats settings effective_mode)
  | _ => done tt
  end ;!
  let referral := set_payout address effective_mode (default (rf_payout_threshold referral) (pr_payout_threshold req)) referral in
  update_referral referral ;!
  resolve_effective_rate referral ;! done referral.
Definition v1_delete_referral (uid : Z) : Job unit :=
  referral ←! enrolled uid;
  payouts ←! list_referral_payouts (rf_id referral);
  if existsb (fun p => negb (po_is_paid p)) payouts then bail PayoutPending else
  if negb (bool_decide (payouts = [])) then bail PayoutHistory else
  delete_referral (rf_id referral).

(** ** Administration, after the permission was checked *)

Definition admin_update_referral (id : Z) (req : AdminUpdateReferralRequest) : Job Referral :=
  referral ←! admin_get_referral id;
  code ←! match au_code req with
          | Some code =>
              let code := trim code in
              if String.eqb code "" then bail EmptyCode else
              if String.eqb code (rf_code referral) then done code else
              r ←! attempt (get_referral_by_code code);
              match r with
              | Ok existing => if rf_id existing =? rf_id referral then done code else bail CodeTaken
              | Err _ => done code
              end
          | None => done (rf_code referral)
          end;
  match au_referral_rate req with
  | Some (Some r) => if SFltb r zero then bail NegativeRate else done tt
  | _ => done tt
  end ;!
  update_referral {| rf_id := rf_id referral; rf_user_id := rf_user_id referral; rf_code := code;
                     rf_address := rf_address referral; rf_mode := rf_mode referral;
                     rf_rate := default (rf_rate referral) (au_referral_rate req);
                     rf_payout_threshold := default (rf_payout_threshold referral) (au_payout_threshold req) |} ;!
  admin_get_referral id.
Definition find_payout (id payout_id : Z) : Job ReferralPayout :=
  payouts ←! list_referral_payouts id;
  of_option PayoutNotFound (snd <$> list_find (fun p => po_id p = payout_id) payouts).
Definition admin_create_referral_payout (id : Z) (req : AdminCreateReferralPayoutRequest) : Job ReferralPayout :=
  admin_get_referral id ;!
  if ac_amount req =? 0 then bail ZeroAmount else
  let currency := to_uppercase (trim (ac_currency req)) in
  if String.eqb currency "" then bail NoCurrency else
  mode ←! match ac_mode req with
          | Some m => of_option InvalidMode (mode_from_str m)
          | None => done LightningAddress
          end;
  let payout := {| po_id := 0; po_referral_id := id; po_amount := ac_amount req; po_fee := 0; po_currency := currency;
                   po_is_paid := false; po_mode := mode; po_output := not_blank (ac_output req); po_pre_image := None |} in
  payout_id ←! insert_referral_payout payout;
  (if ac_is_paid req then
     update_referral_payout (settled 0 (po_output payout) None (with_payout_id payout_id payout))
   else done tt) ;!
  find_payout id payout_id.
Definition admin_update_referral_payout (id payout_id : Z) (req : AdminUpdateReferralPayoutRequest) : Job ReferralPayout :=
  payout ←! find_payout id payout_id;
  let is_paid := default (po_is_paid payout) (up_is_paid req) in
  let output := match up_output req with Some o => not_blank o | None => po_output payout end in
  mode ←! match up_mode req with
          | Some m => of_option InvalidMode (mode_from_str m)
          | None => done (po_mode payout)
          end;
  pre_image ←! match up_pre_image req with
               | Some p =>
                   match not_blank p with
                   | Some hex_str => b ←! of_option BadPreImage (hex_decode (trim hex_str)); done (Some b)
                   | None => done None
                   end
               | None => done (po_pre_image payout)
               end;
  update_referral_payout {| po_id := po_id payout; po_referral_id := po_referral_id payout; po_amount := po_amount payout;
    po_fee := po_fee payout; po_currency := po_currency payout; po_is_paid := is_paid; po_mode := mode;
    po_output := output; po_pre_image := pre_image |} ;!
  find_payout id payout_id.
End api.
