(* ===== verification/ReferralProofs.v ===== *)
(** * A referrer is never paid more than he earned

    The payouts that moved money are each backed by a row of their own ([Backed]);
    the rows bound what the job pays next. So however often the job runs, dies or
    fails, and whatever users and administrators do in between, the money that went
    to a referrer stays within what he earned. *)

From Stdlib Require Import Ascii String SpecFloat.
From stdpp Require Import list sorting.
From S2P Require Import Prelude NetText IpAlloc Network HostTypes Exchange Referral ReferralApi.

(** ** Sums *)

Fixpoint total (l : list Z) : Z := match l with [] => 0 | x :: l => x + total l end.
Lemma total_concat l k : total (l ++ k) = total l + total k.
Proof. induction l as [|x l IH]; cbn; lia. Qed.
Lemma total_perm l k : l ≡ₚ k -> total l = total k.
Proof. induction 1; cbn in *; lia. Qed.
Lemma total_nonneg l : Forall (Z.le 0) l -> 0 <= total l.
Proof. induction 1; cbn in *; lia. Qed.
Lemma total_submseteq l k : l ⊆+ k -> Forall (Z.le 0) k -> total l <= total k.
Proof.
  intros (k' & Hk)%submseteq_Permutation Hpos. rewrite (total_perm _ _ Hk), total_concat.
  rewrite Hk, Forall_app in Hpos. pose proof (total_nonneg k' (proj2 Hpos)). lia.
Qed.
Lemma wrap_0 w : wrap w 0 = 0.
Proof. unfold wrap. apply Zmod_0_l. Qed.
Lemma sum_u_wrap w l : 0 < w -> sum_u w l = wrap w (total l).
Proof.
  intros Hw. unfold sum_u. assert (forall a, foldl (wadd w) (wrap w a) l = wrap w (a + total l)) as Hg.
  { unfold wadd, wrap. induction l as [|x l IH]; intros a; cbn; [by rewrite Z.add_0_r|].
    rewrite Z.add_mod_idemp_l, IH by (apply Z.pow_nonzero; lia). f_equal. lia. }
  specialize (Hg 0). by rewrite wrap_0, Z.add_0_l in Hg.
Qed.
Lemma sum_u_fits w l : 0 < w -> 0 <= total l < 2 ^ w -> sum_u w l = total l.
Proof. intros Hw Hl. rewrite sum_u_wrap by done. by apply wrap_small. Qed.

(** ** A fee is split to the unit *)

(** The amount at [j] is one of the largest. *)
Definition largest (l : list Z) (j : nat) : Prop := exists b, l !! j = Some b /\ Forall (fun a => a <= b) l.
Lemma max_index_spec pre l best :
  match best with Some (j, b) => pre !! j = Some b /\ Forall (fun a => a <= b) pre | None => pre = [] end ->
  pre ++ l <> [] -> exists j b, max_index (length pre) best l = Some (j, b) /\ largest (pre ++ l) j.
Proof.
  revert pre best. induction l as [|a l IH]; intros pre best Hb Hne; cbn.
  - rewrite app_nil_r in *. destruct best as [[j b]|]; [|done]. exists j, b. split; [done|by exists b].
  - replace (pre ++ a :: l) with ((pre ++ [a]) ++ l) by by rewrite <- app_assoc.
    replace (S (length pre)) with (length (pre ++ [a])) by (rewrite length_app; cbn; lia).
    apply IH; [|by destruct pre].
    assert (forall b, Forall (fun x => x <= b) pre -> b <= a -> (pre ++ [a]) !! length pre = Some a /\ Forall (fun x => x <= a) (pre ++ [a])) as Hnew.
    { intros b Hp Hba. split; [by apply list_lookup_middle|]. apply Forall_app. split; [|by apply Forall_singleton].
      eapply Forall_impl; [exact Hp|]. cbn. lia. }
    destruct best as [[j b]|]; [|subst pre; by apply (Hnew a)]. destruct Hb as [Hj Hp].
    destruct (Z.ltb_spec a b); [|by apply (Hnew b)].
    split; [by apply lookup_app_l_Some|]. apply Forall_app. split; [done|]. apply Forall_singleton. lia.
Qed.
Lemma total_alter (f : Z -> Z) i l x : l !! i = Some x -> total (alter f i l) = total l + (f x - x).
Proof.
  revert i. induction l as [|y l IH]; intros [|i]; cbn; [done..| |].
  - intros [= ->]. lia.
  - intros Hx. apply IH in Hx. lia.
Qed.
Lemma total_shares amounts fee s : 0 < s -> 0 <= fee -> Forall (Z.le 0) amounts ->
  0 <= total ((fun a => a * fee / s) <$> amounts) <= total amounts * fee / s.
Proof.
  intros Hs Hf. induction 1 as [|a l Ha _ IH]; cbn; [by rewrite Z.div_0_l; lia|].
  assert (0 <= a * fee / s) by (apply Z.div_pos; nia).
  rewrite Z.mul_add_distr_r.
  split; [lia|]. etrans; [apply Z.add_le_mono_l, IH|].
  apply Z.div_le_lower_bound; [done|]. rewrite Z.mul_add_distr_l.
  pose proof (Z.mul_div_le (a * fee) s Hs). pose proof (Z.mul_div_le (total l * fee) s Hs). lia.
Qed.

Lemma total_rests amounts fee s : 0 < s -> amounts <> [] ->
  total amounts * fee < s * (total ((fun a => a * fee / s) <$> amounts) + Z.of_nat (length amounts)).
Proof.
  intros Hs. induction amounts as [|a l IH]; [done|]. intros _. cbn [total fmap list_fmap length].
  pose proof (Z.div_mod (a * fee) s ltac:(lia)) as Hd. pose proof (Z.mod_pos_bound (a * fee) s Hs).
  destruct l as [|b l]; [cbn in *; nia|]. specialize (IH ltac:(done)).
  rewrite (Nat2Z.inj_succ (length (b :: l))). rewrite Z.mul_add_distr_r. nia.
Qed.
Lemma fits_pos (l : list Z) : Forall (fits 64) l -> Forall (Z.le 0) l.
Proof. intros Hl. eapply Forall_impl; [exact Hl|]. by intros x [? _]. Qed.
Lemma total_elem l i x : Forall (Z.le 0) l -> l !! i = Some x -> x <= total l.
Proof.
  intros Hl Hi. rewrite <- (take_drop_middle _ _ _ Hi) in Hl |- *. rewrite Forall_app, Forall_cons in Hl.
  destruct Hl as (Hl & _ & Hr). rewrite total_concat. cbn. pose proof (total_nonneg _ Hl). pose proof (total_nonneg _ Hr). lia.
Qed.

Section fee_shares.
Context (amounts : list Z) (fee : Z) (Ha : Forall (fits 64) amounts) (Hf : fits 64 fee) (Ht : 0 < total amounts < 2 ^ 128).
Notation floors := ((fun a => a * fee / total amounts) <$> amounts).
Lemma floors_computed : (fun a => wrap 64 (wmul 128 a fee / total amounts)) <$> amounts = floors.
Proof using Ha Hf Ht.
  apply list_fmap_ext. intros i a Hi. pose proof (Forall_lookup_1 _ _ _ _ Ha Hi) as Hfa.
  pose proof (total_elem _ _ _ (fits_pos _ Ha) Hi) as HaT.
  unfold fits in *. unfold wmul.
  assert (0 <= a * fee < 2 ^ 64 * 2 ^ 64) by nia. assert (a * fee <= total amounts * fee) by nia.
  assert (total amounts * fee < total amounts * 2 ^ 64) by nia.
  rewrite (wrap_small 128) by (unfold fits; replace (2 ^ 128) with (2 ^ 64 * 2 ^ 64) by done; lia). apply wrap_small.
  split; [apply Z.div_pos; lia|]. apply Z.div_lt_upper_bound; lia.
Qed.
Lemma floors_rest : 0 <= fee - total floors < Z.of_nat (length amounts).
Proof using Ha Hf Ht.
  assert (amounts <> []) as Hne by (intros E; rewrite E in Ht; cbn in Ht; lia).
  pose proof (total_shares amounts fee (total amounts) ltac:(lia) (proj1 Hf) (fits_pos _ Ha)) as [H0 H1].
  pose proof (total_rests amounts fee (total amounts) ltac:(lia) Hne) as H2.
  rewrite Z.mul_comm, Z.div_mul in H1 by lia. apply Z.mul_lt_mono_pos_l in H2; lia.
Qed.
Lemma floors_nonneg : Forall (Z.le 0) floors.
Proof using Ha Hf Ht.
  apply Forall_fmap. eapply Forall_impl; [exact Ha|]. intros y [? _]. cbn. apply Z.div_pos; [|lia]. unfold fits in Hf. nia.
Qed.
Lemma alter_rest_zero j : fee - total floors = 0 -> floors = alter (Z.add (fee - total floors)) j floors.
Proof. intros ->. symmetry. by apply list_alter_id. Qed.
Lemma floors_zero : fee = 0 -> floors = replicate (length amounts) 0.
Proof.
  intros E. clear -E. generalize (total amounts) as T. intros T. induction amounts as [|a l IH]; [done|].
  cbn. f_equal; [|exact IH]. by rewrite E, Z.mul_0_r, Zdiv_0_l.
Qed.
Lemma shares_computed : exists j, largest amounts j /\
  split_fee_proportional amounts fee = alter (Z.add (fee - total floors)) j floors.
Proof using Ha Hf Ht.
  pose proof floors_rest as Hr. pose proof floors_nonneg as Hn.
  destruct (max_index_spec [] amounts None) as (j & b & Ej & Hj); [done|cbn; intros E; rewrite E in Ht; cbn in Ht; lia|].
  cbn in Ej. exists j. split; [done|]. unfold split_fee_proportional. rewrite (sum_u_fits 128) by lia.
  rewrite (proj2 (Z.eqb_neq (total amounts) 0)) by lia. cbn [orb].
  destruct (fee =? 0) eqn:E0; zbool.
  { pose proof (total_nonneg _ Hn). rewrite <- (floors_zero E0). apply alter_rest_zero. lia. }
  rewrite floors_computed. rewrite (sum_u_fits 64) by first [done|pose proof (total_nonneg _ Hn); unfold fits in *; lia].
  unfold sat_sub. rewrite Z.max_r by lia. destruct (0 <? fee - total floors) eqn:Er; zbool; [|apply alter_rest_zero; lia].
  rewrite Ej. apply list_alter_ext; [|done]. intros x Hx. pose proof (total_elem _ _ _ Hn Hx). pose proof (Forall_lookup_1 _ _ _ _ Hn Hx).
  unfold wadd. rewrite wrap_small; [lia|]. unfold fits in *. cbn in *. lia.
Qed.
End fee_shares.

(** C27: The fee of a batch is charged to its payouts, amounts of 64 bits that are not
    all zero, to the unit: the shares add up
    to the fee; each is the payout's proportional share rounded down, but for one of
    the largest payouts, which also gets the whole rest of the divisions, less than
    one unit per payout. *)
Theorem fee_is_split_exactly amounts fee (Ha : Forall (fits 64) amounts) (Hf : fits 64 fee)
    (Ht : 0 < total amounts < 2 ^ 128) :
  let floors := (fun a => a * fee / total amounts) <$> amounts in
  let rest := fee - total floors in
  total (split_fee_proportional amounts fee) = fee /\ 0 <= rest < Z.of_nat (length amounts) /\
  exists j, largest amounts j /\ split_fee_proportional amounts fee = alter (Z.add rest) j floors.
Proof.
  intros floors rest. destruct (shares_computed amounts fee Ha Hf Ht) as (j & Hj & E).
  split_and!; [|by apply floors_rest..|by exists j].
  destruct Hj as (b & Hb & _). rewrite E. erewrite total_alter by (rewrite list_lookup_fmap, Hb; reflexivity).
  fold floors. fold rest. unfold rest at 1. lia.
Qed.

(** ** What was paid *)

Definition is_payment (c : PayCall) : bool := match c with PayInvoice _ _ | SendCoins _ => true | _ => false end.
(** What the node was asked to pay. *)
Definition payments (w : RefWorld) : list Entry := filter (fun e => is_payment (en_call e) = true) (rw_log w).
Definition amounts_of `{!Bitcoin} (c : PayCall) : list Z :=
  match c with PayInvoice invoice _ => [invoice_msat invoice] | SendCoins req => out_msat <$> rq_outputs req | _ => [] end.
(** The rows that money moved for, with the amounts that moved. *)
Definition moved_for `{!Bitcoin} (e : Entry) : list (ReferralPayout * Z) :=
  if en_moved e then zip (en_rows e) (amounts_of (en_call e)) else [].
Definition transfers `{!Bitcoin} (w : RefWorld) : list (bool * (ReferralPayout * Z)) :=
  payments w ≫= fun e => pair (en_refused e) <$> moved_for e.
Definition transfers_to `{!Bitcoin} (r : Z) (w : RefWorld) : list (bool * (ReferralPayout * Z)) :=
  filter (fun x => po_referral_id x.2.1 = r) (transfers w).
(** The money that went to the referrer [r]; what went to him by payments that the node
    reported as failed; and what went to him beyond the amounts of the rows. *)
Definition sent `{!Bitcoin} (r : Z) (w : RefWorld) : Z := total ((fun x => x.2.2) <$> transfers_to r w).
Definition sent_by_failures `{!Bitcoin} (r : Z) (w : RefWorld) : Z :=
  total ((fun x => x.2.2) <$> filter (fun x => x.1 = true) (transfers_to r w)).
Definition sent_beyond `{!Bitcoin} (r : Z) (w : RefWorld) : Z :=
  total ((fun x => Z.max 0 (x.2.2 - po_amount x.2.1)) <$> filter (fun x => x.1 = false) (transfers_to r w)).

(** What a row says of its payout. *)
Definition key (p : ReferralPayout) : Z * Z * Z := (po_id p, po_referral_id p, po_amount p).
(** The rows of the payments that did not fail. *)
Definition booked_for `{!Bitcoin} (e : Entry) : list (Z * Z * Z) :=
  if en_refused e then [] else (fun x => key x.1) <$> moved_for e.
Definition paid `{!Bitcoin} (w : RefWorld) : list (Z * Z * Z) := payments w ≫= booked_for.
(** What they were to pay to the referrer [r]. *)
Definition booked `{!Bitcoin} (r : Z) (w : RefWorld) : Z := total (snd <$> filter (fun x => x.1.2 = r) (paid w)).
Definition typed (p : ReferralPayout) : Prop := fits 64 (po_amount p) /\ 0 <= po_fee p.
(** The identifiers of the tables. *)
Record tidy (w : RefWorld) : Prop := {
  td_keys : NoDup (po_id <$> rw_payouts w);
  td_next : Forall (fun p => po_id p < rw_next_payout w) (rw_payouts w);
  td_typed : Forall typed (rw_payouts w);
  td_referrals : NoDup (rf_id <$> rw_referrals w);
  td_next_referral : Forall (fun r => rf_id r < rw_next_referral w) (rw_referrals w)
}.
(** The bitcoin payouts of the table. *)
Definition btc_keys (w : RefWorld) : list (Z * Z * Z) := key <$> filter (fun p => is_btc (po_currency p) = true) (rw_payouts w).
(** Money moved only for bitcoin payouts with rows of their own. *)
Record backed `{!Bitcoin} (w : RefWorld) : Prop := {
  bk_tidy :> tidy w;
  bk_once : NoDup (paid w).*1.*1;
  bk_rows : forall x, x ∈ paid w -> x ∈ btc_keys w
}.
Definition rows_of (r : Z) (w : RefWorld) : list ReferralPayout := filter (fun p => po_referral_id p = r) (rw_payouts w).
(** What the rows of a referrer come to. *)
Definition debited (r : Z) (w : RefWorld) : Z :=
  total ((fun p => saturating_add 64 (po_amount p) (po_fee p)) <$> filter (fun p => is_btc (po_currency p)) (rows_of r w)).
Definition earned_by (code : string) (w : RefWorld) : Z :=
  earned_btc (merge_sort newer (usage_rows (rw_sales w) (rw_referrals w) code)).

Section paid.
Context `{BC : !Bitcoin}.

Lemma entry_split r (b : bool) (k : list (ReferralPayout * Z)) :
  let l := filter (fun x => po_referral_id x.2.1 = r) (pair b <$> k) in
  total ((fun x => x.2.2) <$> l) <=
    total (snd <$> filter (fun x : Z * Z * Z => x.1.2 = r) (if b then [] else (fun x => key x.1) <$> k)) +
    total ((fun x => x.2.2) <$> filter (fun x => x.1 = true) l) +
    total ((fun x => Z.max 0 (x.2.2 - po_amount x.2.1)) <$> filter (fun x => x.1 = false) l).
Proof.
  cbv zeta. induction k as [|[p a] k IH]; [by destruct b|]. rewrite !fmap_cons.
  destruct b; rewrite ?filter_cons; cbn [fst snd key]; (destruct (decide (po_referral_id p = r)); [|exact IH]);
    rewrite !filter_cons; cbn [fst snd]; repeat (case_decide; try done);
    cbn [fmap list_fmap total fst snd] in *; [lia|]. change ((key p).2) with (po_amount p). lia.
Qed.
Lemma sent_split r w : sent r w <= booked r w + sent_by_failures r w + sent_beyond r w.
Proof.
  unfold sent, booked, sent_by_failures, sent_beyond, transfers_to, transfers, paid. induction (payments w) as [|e l IH]; [done|].
  rewrite !bind_cons, !filter_app, !fmap_app, !total_concat.
  pose proof (entry_split r (en_refused e) (moved_for e)) as He. fold (booked_for e) in He. cbv zeta in He. lia.
Qed.

Lemma saturating_typed p : typed p -> 0 <= po_amount p <= saturating_add 64 (po_amount p) (po_fee p).
Proof. intros [[H0 H1] H2]. unfold saturating_add. change (2 ^ 64) with 18446744073709551616 in *. lia. Qed.
Lemma rows_typed r w : tidy w -> Forall typed (filter (fun p => is_btc (po_currency p)) (rows_of r w)).
Proof.
  intros Ht. apply Forall_forall. intros p [_ [_ Hp]%list_elem_of_filter]%list_elem_of_filter.
  exact (proj1 (Forall_forall _ _) (td_typed _ Ht) p Hp).
Qed.
Lemma debited_nonneg r w : tidy w -> 0 <= debited r w.
Proof.
  intros Ht. apply total_nonneg, Forall_fmap. eapply Forall_impl; [exact (rows_typed r w Ht)|].
  intros p Hp%saturating_typed. cbn. lia.
Qed.
Lemma booked_le r w : backed w -> booked r w <= debited r w.
Proof.
  intros [Htd Ho Hr]. unfold booked, debited. pose proof (rows_typed r w Htd) as Hty.
  set (l := filter (fun x => x.1.2 = r) (paid w)). set (k := filter (fun p => is_btc (po_currency p)) (rows_of r w)) in *.
  assert (l ⊆+ key <$> k) as Hsub.
  { apply NoDup_submseteq.
    - apply NoDup_filter. by do 2 apply NoDup_fmap_1 in Ho.
    - intros x [Hx Hin]%list_elem_of_filter. apply Hr, list_elem_of_fmap in Hin as (p & -> & [Hc Hp]%list_elem_of_filter).
      apply list_elem_of_fmap_2. unfold k, rows_of. rewrite !list_elem_of_filter. split_and!; [by rewrite Hc|exact Hx|done]. }
  etrans; [apply (total_submseteq _ (snd <$> (key <$> k)))|].
  - by apply fmap_submseteq.
  - rewrite !Forall_fmap. eapply Forall_impl; [exact Hty|]. by intros p [[? _] _].
  - clear -Hty. induction Hty as [|p k Hp _ IH]; cbn in *; [done|]. apply saturating_typed in Hp. lia.
Qed.
(** What the job decides to pay is still owed. *)
Lemma payable_room r w earned min p : backed w -> debited r w < 2 ^ 64 ->
  payable_referral_msat earned (existing_btc (rev (rows_of r w))) min = Some p -> booked r w + p <= earned /\ 0 < p.
Proof.
  intros Hb Hf. pose proof (booked_le r w Hb) as Hs. unfold payable_referral_msat.
  pose proof (debited_nonneg r w Hb) as H0.
  assert (existing_btc (rev (rows_of r w)) = debited r w) as ->.
  { unfold existing_btc. rewrite sum_u_wrap by done.
    rewrite (total_perm _ ((fun p => saturating_add 64 (po_amount p) (po_fee p)) <$> filter (fun p => is_btc (po_currency p)) (rows_of r w))).
    - by apply wrap_small.
    - by rewrite <- Permutation_rev. }
  unfold sat_sub. case_match; [done|]. case_match; [done|]. intros [= <-]. zbool.
  pose proof (Z.mul_div_le (Z.max 0 (earned - debited r w)) 1000 ltac:(lia)).
  pose proof (Z.div_pos (Z.max 0 (earned - debited r w)) 1000 ltac:(lia) ltac:(lia)). lia.
Qed.
End paid.

(** ** What one step can do *)

(** Nothing that matters here. *)
Record quiet (w w' : RefWorld) : Prop := {
  qt_payments : payments w' = payments w; qt_payouts : rw_payouts w' = rw_payouts w; qt_next : rw_next_payout w' = rw_next_payout w;
  qt_sales : rw_sales w' = rw_sales w; qt_referrals : rw_referrals w' = rw_referrals w;
  qt_next_referral : rw_next_referral w' = rw_next_referral w; qt_methods : rw_methods w' = rw_methods w;
  qt_log : rw_log w `prefix_of` rw_log w'
}.
(** Only to the rows and the money of the referrers of [X]. *)
Record only `{!Bitcoin} (X : Z -> Prop) (w w' : RefWorld) : Prop := {
  on_sales : rw_sales w' = rw_sales w; on_referrals : rw_referrals w' = rw_referrals w;
  on_next_referral : rw_next_referral w' = rw_next_referral w;
  on_rows r : ~ X r -> rows_of r w' = rows_of r w;
  on_booked r : ~ X r -> booked r w' = booked r w
}.
Definition ends {A} (m : Job A) (w : RefWorld) (Φ : option (res PayFail A) -> RefWorld -> Prop) : Prop := Φ (m w).1 (m w).2.

Section steps.
Context `{HL : !HexLib, BC : !Bitcoin, PS : !PayServices}.

#[export] Instance quiet_preorder : PreOrder quiet.
Proof. split; [done|]. intros x y z [] []. by split; etrans. Qed.
Lemma qt_paid w w' : quiet w w' -> paid w' = paid w.
Proof. intros Hq. unfold paid. by rewrite (qt_payments _ _ Hq). Qed.
#[export] Instance only_preorder X : PreOrder (only X).
Proof.
  split; [done|]. intros x y z [? ? ? Hr Hs] [? ? ? Hr' Hs']. split; [congruence..| |]; intros r HX.
  - by rewrite Hr', Hr.
  - by rewrite Hs', Hs.
Qed.
Lemma only_mono (X Y : Z -> Prop) w w' : (forall r, X r -> Y r) -> only X w w' -> only Y w w'.
Proof. intros HXY []. split; eauto. Qed.
Lemma quiet_only X w w' : quiet w w' -> only X w w'.
Proof.
  intros Hq. pose proof (qt_paid _ _ Hq) as Hp. destruct Hq as [_ Hr _ Hs Hf Hn _ _].
  split; [done..| |]; intros r _; unfold rows_of, booked; by rewrite ?Hr, ?Hp.
Qed.
Lemma quiet_backed w w' : quiet w w' -> backed w -> backed w'.
Proof.
  intros Hq. pose proof (qt_paid _ _ Hq) as Hp. destruct Hq as [_ Hr Hn _ Hf Hm _ _]. intros [[] ? ?]. split; [split|..]; unfold btc_keys in *; by rewrite ?Hp, ?Hr, ?Hn, ?Hf, ?Hm.
Qed.
Lemma quiet_booked r w w' : quiet w w' -> booked r w' = booked r w.
Proof. intros Hq. unfold booked. by rewrite (qt_paid _ _ Hq). Qed.

Lemma ends_mono {A} (m : Job A) w (Φ Ψ : option (res PayFail A) -> RefWorld -> Prop) :
  ends m w Φ -> (forall r w', Φ r w' -> Ψ r w') -> ends m w Ψ.
Proof. intros Hm HP. apply HP, Hm. Qed.
Lemma ends_bind {A B} (m : Job A) (k : A -> Job B) w Φ :
  ends m w (fun r w1 => match r with Some (Ok a) => ends (k a) w1 Φ | Some (Err e) => Φ (Some (Err e)) w1 | None => Φ None w1 end) ->
  ends (job_bind m k) w Φ.
Proof. unfold ends, job_bind. destruct (m w) as [[[a|e]|] w1]; done. Qed.
Lemma ends_done {A} (a : A) w Φ : Φ (Some (Ok a)) w -> ends (done a) w Φ.
Proof. done. Qed.
Lemma ends_attempt {A} (m : Job A) w Φ :
  ends m w (fun r w1 => Φ (match r with Some r => Some (Ok r) | None => None end) w1) -> ends (attempt m) w Φ.
Proof. unfold ends, attempt. destruct (m w) as [[r|] w1]; done. Qed.
Lemma ends_warned {A} (m : Job A) w Φ :
  ends m w (fun r w1 => Φ (match r with Some _ => Some (Ok tt) | None => None end) w1) -> ends (warned m) w Φ.
Proof. unfold ends, warned, job_bind, attempt. destruct (m w) as [[r|] w1]; done. Qed.
(** A statement is executed and answered, or its answer is an error or none. *)
Definition bad {A} (r : option (res PayFail A)) : Prop := match r with Some (Ok _) => False | _ => True end.
Lemma ends_statement {A} (f : RefWorld -> A * RefWorld) w Φ :
  (forall w1, quiet w w1 -> Φ (Some (Ok (f w1).1)) (f w1).2) ->
  (forall w1 r, quiet w w1 -> bad r -> Φ r w1 /\ Φ r (f w1).2) -> ends (statement f) w Φ.
Proof.
  intros Hok Hbad. assert (quiet w (count_statement w)) as Hq by done. unfold ends, statement.
  destruct (fate (rw_statements w)).
  - specialize (Hok _ Hq). by destruct (f (count_statement w)).
  - by apply (Hbad _ (Some (Err Sql)) Hq).
  - by apply (Hbad _ (Some (Err Sql)) Hq).
  - by apply (Hbad _ None Hq).
  - by apply (Hbad _ None Hq).
Qed.
Lemma ends_query {A} (f : RefWorld -> A) w Φ : (forall w1, quiet w w1 -> Φ (Some (Ok (f w1))) w1) ->
  (forall w1 r, quiet w w1 -> bad r -> Φ r w1) -> ends (query f) w Φ.
Proof. intros Hok Hbad. apply ends_statement; [done|]. intros w1 r Hq Hr. split; by apply Hbad. Qed.
Lemma ends_call c w Φ : is_payment c = false -> (forall w1, quiet w w1 -> Φ (reply (length (rw_log w)) c) w1) -> ends (call c) w Φ.
Proof.
  intros Hc HΦ. apply HΦ. split; try done; [|by apply prefix_app_r]. unfold payments. cbn. rewrite filter_app, (filter_none _ [_]), app_nil_r; [done|].
  intros e ->%list_elem_of_singleton. cbn. by rewrite Hc.
Qed.

(** Computations that change nothing that matters. *)
Definition calm {A} (m : Job A) : Prop := forall w, quiet w (m w).2.
Lemma ends_calm {A} (m : Job A) w Φ : calm m -> (forall r w1, quiet w w1 -> Φ r w1) -> ends m w Φ.
Proof. intros Hm HΦ. apply HΦ, Hm. Qed.
Lemma calm_done {A} (a : A) : calm (done a).
Proof. by intros w. Qed.
Lemma calm_bail {A} e : calm (bail (A := A) e).
Proof. by intros w. Qed.
Lemma calm_bind {A B} (m : Job A) (k : A -> Job B) : calm m -> (forall a, calm (k a)) -> calm (job_bind m k).
Proof.
  intros Hm Hk w. unfold job_bind. specialize (Hm w). destruct (m w) as [[[a|e]|] w1]; [|done..].
  etrans; [exact Hm|]. apply Hk.
Qed.
Lemma calm_attempt {A} (m : Job A) : calm m -> calm (attempt m).
Proof. intros Hm w. specialize (Hm w). unfold attempt. by destruct (m w) as [[r|] w1]. Qed.
Lemma calm_warned {A} (m : Job A) : calm m -> calm (warned m).
Proof. intros Hm. unfold warned. apply calm_bind; [by apply calm_attempt|intros ?; apply calm_done]. Qed.
Lemma calm_query {A} (f : RefWorld -> A) : calm (query f).
Proof. intros w. by apply (ends_query f w (fun _ => quiet w)). Qed.
Lemma calm_call c : is_payment c = false -> calm (call c).
Proof. intros Hc w. by apply (ends_call c w (fun _ => quiet w)). Qed.
Lemma calm_of_option {A} e (o : option A) : calm (of_option e o).
Proof. by destruct o. Qed.
Lemma calm_of_res {A} (r : res PayFail A) : calm (of_res r).
Proof. by destruct r. Qed.
End steps.
#[export] Hint Resolve calm_done calm_bail calm_query calm_of_option calm_of_res : calm.
#[export] Hint Extern 1 (calm (call _)) => apply calm_call; reflexivity : calm.
Ltac calm_tac := repeat first
  [ progress unfold warned, fetch_one
  | apply calm_bind; [|intros ?]
  | apply calm_attempt
  | solve [auto with calm]
  | case_match; auto with calm ].

(** ** Rows that come, change and go *)

(** Money stays where it was, and so does what the rows say. *)
Record kept `{!Bitcoin} (X : Z -> Prop) (w w' : RefWorld) : Prop := {
  kp_backed : backed w'; kp_only : only X w w'; kp_paid : paid w' = paid w;
  kp_keys x : x ∈ btc_keys w -> x ∈ btc_keys w'
}.
Definition appended (p : ReferralPayout) (w : RefWorld) : RefWorld :=
  set_payouts (fun l => l ++ [p]) (rw_next_payout w + 1) w.
Definition mapped (f : ReferralPayout -> ReferralPayout) (w : RefWorld) : RefWorld :=
  set_payouts (fmap f) (rw_next_payout w) w.
Definition without (id : Z) (w : RefWorld) : RefWorld :=
  set_payouts (filter (fun p => po_id p <> id)) (rw_next_payout w) w.

Lemma filter_same {A} (P Q : A -> Prop) `{!forall x, Decision (P x), !forall x, Decision (Q x)} (l : list A) :
  (forall x, x ∈ l -> P x <-> Q x) -> filter P l = filter Q l.
Proof.
  induction l as [|x l IH]; intros HPQ; [done|]. rewrite !filter_cons, IH by (intros y Hy; apply HPQ; by right).
  specialize (HPQ x ltac:(by left)). do 2 case_decide; tauto.
Qed.

Section rows.
Context `{BC : !Bitcoin}.

Lemma kept_trans X w1 w2 w3 : kept X w1 w2 -> kept X w2 w3 -> kept X w1 w3.
Proof. intros [_ H1 Hp Hk] [Hb H2 Hp' Hk']. split; [done|by etrans|congruence|auto]. Qed.
Lemma kept_quiet X w w' : backed w -> quiet w w' -> kept X w w'.
Proof.
  intros Hb Hq. split; [by eapply quiet_backed|by apply quiet_only|by apply qt_paid|].
  intros x. unfold btc_keys. by rewrite (qt_payouts _ _ Hq).
Qed.
Lemma kept_mono (X Y : Z -> Prop) w w' : (forall r, X r -> Y r) -> kept X w w' -> kept Y w w'.
Proof. intros HXY [? H ? ?]. split; [done|by eapply only_mono|done..]. Qed.
Lemma kept_booked X r w w' : kept X w w' -> booked r w' = booked r w.
Proof. intros [_ _ Hp _]. unfold booked. by rewrite Hp. Qed.

Lemma btc_keys_app w p : btc_keys (appended p w) = btc_keys w ++ (if is_btc (po_currency p) then [key p] else []).
Proof.
  unfold btc_keys. cbn. rewrite filter_app, fmap_app. f_equal. unfold filter, list_filter.
  by destruct (is_btc (po_currency p)).
Qed.
Lemma paid_next x w : backed w -> x ∈ paid w -> x.1.1 < rw_next_payout w.
Proof.
  intros Hb (p & -> & [_ Hp]%list_elem_of_filter)%(bk_rows _ Hb)%list_elem_of_fmap.
  exact (proj1 (Forall_forall _ _) (td_next _ Hb) p Hp).
Qed.
Lemma appended_kept p w : backed w -> typed p -> po_id p = rw_next_payout w -> kept (eq (po_referral_id p)) w (appended p w).
Proof.
  intros Hb Hp Hid. split.
  - destruct Hb as [[Hk Hn Ht Hr Hm] Ho Hrows]. split; [split; cbn; try done|done|].
    + rewrite fmap_app. apply NoDup_app. split_and!; [done| |apply NoDup_singleton].
      intros i (q & -> & Hq)%list_elem_of_fmap Hi%list_elem_of_singleton.
      pose proof (proj1 (Forall_forall _ _) Hn q Hq). cbn in *. lia.
    + apply Forall_app. split; [|apply Forall_singleton; lia]. eapply Forall_impl; [exact Hn|]. cbn. lia.
    + apply Forall_app. split; [done|by apply Forall_singleton].
    + intros x Hx. rewrite btc_keys_app. apply elem_of_app. left. by apply Hrows.
  - split; try done. intros r Hr. unfold rows_of. cbn. rewrite filter_app, (filter_none _ [p]); [by rewrite app_nil_r|].
    intros q ->%list_elem_of_singleton. congruence.
  - done.
  - intros x Hx. rewrite btc_keys_app. apply elem_of_app. by left.
Qed.
(** A row is found by its identifier. *)
Lemma row_by_id w p q : tidy w -> p ∈ rw_payouts w -> q ∈ rw_payouts w -> po_id p = po_id q -> p = q.
Proof. intros Ht Hp Hq E. by apply (NoDup_key po_id (rw_payouts w)); [apply td_keys| | |]. Qed.
Lemma mapped_kept f r w : backed w -> (forall p, p ∈ rw_payouts w -> typed (f p)) ->
  (forall p, key (f p) = key p /\ po_currency (f p) = po_currency p) ->
  (forall p, p ∈ rw_payouts w -> f p = p \/ po_referral_id p = r) -> kept (eq r) w (mapped f w).
Proof.
  intros Hb Hty Hkey Hf.
  assert (btc_keys (mapped f w) = btc_keys w) as Hbk.
  { unfold btc_keys, mapped. cbn. clear -Hkey. induction (rw_payouts w) as [|p l IH]; [done|]. cbn. unfold filter, list_filter in *.
    destruct (Hkey p) as [Hk Hc]. rewrite Hc. destruct (decide (is_btc (po_currency p) = true)); cbn; rewrite ?Hk, IH; done. }
  assert ((po_id <$> (f <$> rw_payouts w)) = po_id <$> rw_payouts w) as Hids.
  { rewrite <- list_fmap_compose. apply list_fmap_ext. intros i p _. cbn. destruct (Hkey p) as [Hk _]. by injection Hk. }
  split.
  - destruct Hb as [[Hk Hn Ht Hr Hm] Ho Hrows]. split; [split; cbn; try done|done|].
    + by rewrite Hids.
    + rewrite Forall_fmap. eapply Forall_impl; [exact Hn|]. intros p Hp. cbn. destruct (Hkey p) as [Hk' _]. injection Hk' as -> _ _. done.
    + by apply Forall_fmap, Forall_forall.
    + intros x Hx. rewrite Hbk. by apply Hrows.
  - split; try done. intros r' Hr'. unfold rows_of, mapped. cbn. clear -Hkey Hf Hr'.
    induction (rw_payouts w) as [|p l IH]; [done|]. cbn. unfold filter, list_filter in *.
    assert (po_referral_id (f p) = po_referral_id p) as Er by (destruct (Hkey p) as [Hk' _]; by injection Hk').
    rewrite Er, IH by (intros q Hq; apply Hf; by right). case_decide; [|done].
    destruct (Hf p ltac:(by left)) as [->|?]; congruence.
  - done.
  - intros x. by rewrite Hbk.
Qed.
(** A row that no money moved for. *)
Lemma without_only id r w : backed w -> (forall x, x ∈ paid w -> x.1.1 <> id) ->
  (forall p, p ∈ rw_payouts w -> po_id p = id -> po_referral_id p = r) ->
  backed (without id w) /\ only (eq r) w (without id w) /\ paid (without id w) = paid w /\
  forall x, x ∈ btc_keys w -> x.1.1 <> id -> x ∈ btc_keys (without id w).
Proof.
  intros Hb Hp Href.
  assert (forall x, x ∈ btc_keys w -> x.1.1 <> id -> x ∈ btc_keys (without id w)) as Hkeep.
  { intros x (p & -> & [Hc Hin]%list_elem_of_filter)%list_elem_of_fmap Hx. apply list_elem_of_fmap_2.
    cbn. by rewrite !list_elem_of_filter. }
  split_and!; [| |done|done].
  - destruct Hb as [[Hk Hn Ht Hr Hm] Ho Hrows]. split; [split; cbn; try done|done|].
    + by apply NoDup_map_filter.
    + apply Forall_forall. intros p [_ Hin]%list_elem_of_filter. by apply (proj1 (Forall_forall _ _) Hn).
    + apply Forall_forall. intros p [_ Hin]%list_elem_of_filter. by apply (proj1 (Forall_forall _ _) Ht).
    + intros x Hx. apply Hkeep; [by apply Hrows|by apply Hp].
  - split; try done. intros r' Hr'. unfold rows_of, without. cbn. rewrite list_filter_filter.
    apply filter_same. intros p Hin. split; [by intros [? _]|]. intros Hpr. split; [done|]. intros Hid. apply Hr'. by rewrite <- Hpr, (Href p Hin Hid).
Qed.
End rows.

(** ** The statements and the payments of the job *)

(** A fee is an amount. *)
Definition fees_are_amounts `{!PayServices} : Prop :=
  forall n i t resp, reply n (PayInvoice i t) = Some (Ok resp) -> 0 <= pi_fee_msat resp.

(** The row that is stored. *)
Definition inserted (id : Z) (p : ReferralPayout) : ReferralPayout :=
  {| po_id := id; po_referral_id := po_referral_id p; po_amount := po_amount p; po_fee := po_fee p;
     po_currency := po_currency p; po_is_paid := false; po_mode := po_mode p; po_output := po_output p;
     po_pre_image := None |}.

Section job.
Context `{HL : !HexLib, BC : !Bitcoin, PS : !PayServices}.

Lemma held_ref w id r a q : tidy w -> (id, r, a) ∈ btc_keys w -> q ∈ rw_payouts w -> po_id q = id -> po_referral_id q = r.
Proof.
  intros Ht (p & Hk & [_ Hp]%list_elem_of_filter)%list_elem_of_fmap Hq Hid. injection Hk as -> -> ->.
  by rewrite (row_by_id w q p Ht Hq Hp Hid).
Qed.
Lemma ends_insert p w Φ : backed w -> typed p -> is_btc (po_currency p) = true ->
  (forall w1 id, kept (eq (po_referral_id p)) w w1 -> (id, po_referral_id p, po_amount p) ∈ btc_keys w1 ->
     (forall x, x ∈ paid w1 \/ x ∈ btc_keys w -> x.1.1 <> id) -> Φ (Some (Ok id)) w1) ->
  (forall w1 r, kept (eq (po_referral_id p)) w w1 -> bad r -> Φ r w1) -> ends (insert_referral_payout p) w Φ.
Proof.
  intros Hb Hp Hc Hok Hbad.
  assert (forall w1, quiet w w1 -> kept (eq (po_referral_id p)) w (appended (inserted (rw_next_payout w1) p) w1)) as Happ.
  { intros w1 Hq. eapply kept_trans; [by apply kept_quiet|].
    apply (appended_kept (inserted (rw_next_payout w1) p)); [by eapply quiet_backed|done..]. }
  apply ends_statement.
  - intros w1 Hq. apply Hok; [exact (Happ w1 Hq)| |].
    + enough ((rw_next_payout w1, po_referral_id p, po_amount p) ∈ btc_keys (appended (inserted (rw_next_payout w1) p) w1)) by done.
      rewrite btc_keys_app. change (po_currency (inserted _ p)) with (po_currency p). rewrite Hc. apply elem_of_app. right. by left.
    + intros x Hx E. cbn in E. assert (x.1.1 < rw_next_payout w1); [|lia].
      pose proof (quiet_backed _ _ Hq Hb) as Hb1. destruct Hx as [Hx|Hx]; [by apply paid_next|].
      unfold btc_keys in Hx. rewrite <- (qt_payouts _ _ Hq) in Hx. apply list_elem_of_fmap in Hx as (q & -> & [_ Hin]%list_elem_of_filter).
      exact (proj1 (Forall_forall _ _) (td_next _ Hb1) q Hin).
  - intros w1 r Hq Hr. split; apply Hbad; [by apply kept_quiet|done|exact (Happ w1 Hq)|done].
Qed.
Lemma ends_update p r w Φ : backed w -> 0 <= po_fee p -> (forall q, q ∈ rw_payouts w -> po_id q = po_id p -> po_referral_id q = r) ->
  (forall o w1, kept (eq r) w w1 -> Φ o w1) -> ends (update_referral_payout p) w Φ.
Proof.
  intros Hb Hf Href HΦ.
  assert (forall w1, quiet w w1 -> kept (eq r) w (mapped (fun old => if decide (po_id old = po_id p) then
    {| po_id := po_id old; po_referral_id := po_referral_id old; po_amount := po_amount old; po_fee := po_fee p;
       po_currency := po_currency old; po_is_paid := po_is_paid p; po_mode := po_mode p;
       po_output := po_output p; po_pre_image := po_pre_image p |} else old) w1)) as Hmap.
  { intros w1 Hq. eapply kept_trans; [by apply kept_quiet|]. pose proof (quiet_backed _ _ Hq Hb) as Hb1. apply mapped_kept; [done|..].
    - intros q Hq1. pose proof (proj1 (Forall_forall _ _) (td_typed _ Hb1) q Hq1) as [? ?]. by case_decide.
    - intros q. by case_decide.
    - intros q Hq1. rewrite (qt_payouts _ _ Hq) in Hq1. case_decide; [right|by left]. by apply Href. }
  apply ends_statement.
  - intros w1 Hq. by apply HΦ, Hmap.
  - intros w1 o Hq _. split; apply HΦ; [by apply kept_quiet|by apply Hmap].
Qed.
Lemma ends_delete id r w Φ : backed w -> (forall x, x ∈ paid w -> x.1.1 <> id) ->
  (forall p, p ∈ rw_payouts w -> po_id p = id -> po_referral_id p = r) ->
  (forall o w1, backed w1 -> only (eq r) w w1 -> paid w1 = paid w ->
     (forall x, x ∈ btc_keys w -> x.1.1 <> id -> x ∈ btc_keys w1) -> Φ o w1) -> ends (delete_referral_payout id) w Φ.
Proof.
  intros Hb Hp Href HΦ.
  assert (forall o w1, quiet w w1 -> Φ o w1 /\ Φ o (without id w1)) as Hboth.
  { intros o w1 Hq. pose proof (kept_quiet (eq r) _ _ Hb Hq) as [Hb1 Ho1 Hp1 Hk1]. split; [by apply HΦ; auto|].
    destruct (without_only id r w1 Hb1) as (Hb2 & Ho2 & Hp2 & Hk2).
    - by rewrite Hp1.
    - by rewrite (qt_payouts _ _ Hq).
    - apply HΦ; [done|by etrans|congruence|auto]. }
  apply ends_statement.
  - intros w1 Hq. by apply (Hboth (Some (Ok tt))).
  - intros w1 o Hq _. by apply Hboth.
Qed.
(** The node is asked to pay, for rows that it did not pay before. *)
Definition asked (c : PayCall) (ps : list ReferralPayout) (w : RefWorld) : Entry :=
  let n := length (rw_log w) in
  {| en_call := c; en_moved := moved n c; en_refused := is_error (reply n c); en_rows := ps |}.
Lemma booked_for_asked c ps w : length (amounts_of c) = length ps ->
  booked_for (asked c ps w) = if moved (length (rw_log w)) c && negb (is_error (reply (length (rw_log w)) c)) then key <$> ps else [].
Proof.
  intros Hl. unfold booked_for, moved_for. cbn. destruct (is_error _), (moved _ _); try done. cbn [andb negb].
  rewrite <- (fst_zip ps (amounts_of c)) at 2 by lia. by rewrite <- list_fmap_compose.
Qed.
Lemma ends_pay ps c w Φ : is_payment c = true -> backed w -> NoDup (po_id <$> ps) -> length (amounts_of c) = length ps ->
  (forall p, p ∈ ps -> key p ∈ btc_keys w /\ forall x, x ∈ paid w -> x.1.1 <> po_id p) ->
  (forall w1, backed w1 -> only (fun r => r ∈ po_referral_id <$> ps) w w1 -> rw_payouts w1 = rw_payouts w ->
     rw_log w1 = rw_log w ++ [asked c ps w] -> payments w1 = payments w ++ [asked c ps w] ->
     paid w1 = paid w ++ booked_for (asked c ps w) ->
     Φ (reply (length (rw_log w)) c) w1) ->
  ends (call_for ps c) w Φ.
Proof.
  intros Hc Hb Hnd Hl Hps HΦ. unfold ends, call_for. cbn [fst snd]. change (Φ (reply (length (rw_log w)) c) (push_entry (asked c ps w) w)).
  set (w1 := push_entry _ w). assert (payments w1 = payments w ++ [asked c ps w]) as Hpay.
  { unfold payments, w1. cbn. rewrite filter_app, (filter_cons_True _ _ []) by done. done. }
  assert (paid w1 = paid w ++ booked_for (asked c ps w)) as Hpaid.
  { unfold paid. rewrite Hpay, bind_app. cbn. by rewrite app_nil_r. }
  assert (forall x, x ∈ booked_for (asked c ps w) -> exists p, p ∈ ps /\ x = key p) as Hnew.
  { intros x. rewrite booked_for_asked by done. case_match; [|by intros ?%not_elem_of_nil]. intros (p & -> & Hp)%list_elem_of_fmap. eauto. }
  apply HΦ; [| |done..].
  - destruct Hb as [Htd Ho Hr]. split; [by destruct Htd| |].
    + rewrite Hpaid, !fmap_app. apply NoDup_app. split_and!; [done| |].
      * intros i (y & -> & (x & -> & Hx)%list_elem_of_fmap)%list_elem_of_fmap (z & Hz & (x' & -> & (p & Hp & ->)%Hnew)%list_elem_of_fmap)%list_elem_of_fmap.
        by apply (proj2 (Hps p Hp) x Hx).
      * rewrite booked_for_asked by done. case_match; [|constructor]. rewrite <- !list_fmap_compose. exact Hnd.
    + rewrite Hpaid. intros x [Hx|(p & Hp & ->)%Hnew]%elem_of_app; [by apply Hr|by apply Hps].
  - split; try done. intros r Hr. unfold booked. rewrite Hpaid, filter_app.
    rewrite (filter_none _ (booked_for _)), app_nil_r; [done|].
    intros x (p & Hp & ->)%Hnew Hx. apply Hr, list_elem_of_fmap. by exists p.
Qed.

(** The invoice comes from the wallet of the referrer, asked for the amount that is due. *)
Definition invoice_for (rf : Referral) (p : Z) (w : RefWorld) (invoice : string) : Prop :=
  match rf_mode rf with
  | LightningAddress => exists a n, payout_address rf = Some a /\ reply n (LnurlInvoice a p) = Some (Ok invoice)
  | Nwc => exists m n, m ∈ rw_methods w /\ um_user_id m = rf_user_id rf /\ um_provider m = "nwc"%string /\ um_enabled m = true /\
      reply n (NwcInvoice (um_external_id m) p) = Some (Ok invoice)
  | AccountCredit | OnChainMode => False
  end.
(** How an attempt to pay a row ends: the node reports that it paid the invoice of the
    referrer's wallet; or there is an error, and the node was not asked, or gave it. *)
Definition attempted_payment (row : ReferralPayout) (rf : Referral) (w : RefWorld)
    (o : option (res PayFail (string * option (list Z) * Z))) (w' : RefWorld) : Prop :=
  match o with
  | Some (Ok (invoice, _, fee)) => invoice_for rf (po_amount row) w invoice /\ exists e n resp,
      payments w' = payments w ++ [e] /\ rw_log w' !! n = Some e /\ en_call e = PayInvoice invoice 60 /\ en_rows e = [row] /\ en_refused e = false /\
      reply n (PayInvoice invoice 60) = Some (Ok resp) /\ fee = pi_fee_msat resp
  | Some (Err _) => payments w' = payments w \/ exists e, payments w' = payments w ++ [e] /\ en_refused e = true
  | None => True
  end.
Lemma ends_invoice rf p w :
  ends match rf_mode rf with
       | LightningAddress => addr ←! of_option NoAddress (payout_address rf); call (LnurlInvoice addr p)
       | Nwc => nwc_make_invoice (rf_user_id rf) p
       | AccountCredit | OnChainMode => bail NotImplemented
       end w (fun o w1 => quiet w w1 /\ forall i, o = Some (Ok i) -> invoice_for rf p w i).
Proof.
  unfold invoice_for. destruct (rf_mode rf).
  - unfold of_option. destruct (payout_address rf) as [a|]; [|by split].
    apply ends_bind, ends_done. cbv beta iota. apply (ends_call (LnurlInvoice a p)); [done|]. intros w1 Hq. split; [done|].
    intros i Hi. by eexists a, _.
  - apply ends_bind, ends_query; [|intros w1 [[?|?]|] Hq Hr; [done|by split..]]. intros w1 Hq.
    apply ends_bind. destruct (list_find _ _) as [[n m]|] eqn:E; [|by split]. apply ends_done. cbv beta iota.
    apply (ends_call (NwcInvoice (um_external_id m) p)); [done|]. intros w2 Hq2. split; [by etrans|]. intros i Hi.
    apply list_find_Some in E as (Hm%list_elem_of_lookup_2 & He & _).
    rewrite merge_sort_Permutation in Hm. apply list_elem_of_filter in Hm as [[Hu Hp] Hm]. rewrite (qt_methods _ _ Hq) in Hm.
    by eexists m, _.
  - by split.
  - by split.
Qed.

Context (HN : fees_are_amounts).

Lemma ends_commission row rf w Φ : backed w -> key row ∈ btc_keys w -> (forall x, x ∈ paid w -> x.1.1 <> po_id row) ->
  (forall o w1, backed w1 -> only (eq (po_referral_id row)) w w1 -> rw_payouts w1 = rw_payouts w ->
     (paid w1 = paid w \/ paid w1 = paid w ++ [key row]) -> (forall e, o = Some (Err e) -> paid w1 = paid w) ->
     (forall b pre fee, o = Some (Ok (b, pre, fee)) -> 0 <= fee) -> attempted_payment row rf w o w1 -> Φ o w1) ->
  ends (pay_commission row rf (po_amount row)) w Φ.
Proof using HN.
  intros Hb Hk Hp HΦ.
  assert (forall o w1, quiet w w1 -> (forall a, o <> Some (Ok a)) -> Φ o w1) as Hstop.
  { intros o w1 Hq Ho. pose proof (kept_quiet (eq (po_referral_id row)) _ _ Hb Hq) as [? ? Hp1 _].
    apply HΦ; try done; [apply Hq|by left| |].
    - intros b pre fee ->. by destruct (Ho (b, pre, fee)).
    - destruct o as [[a|e]|]; [by destruct (Ho a)|left; apply Hq|done]. }
  unfold pay_commission. apply ends_bind. eapply ends_mono; [apply ends_invoice|]. cbv beta.
  intros [[i|e]|] w1 [Hq Hi]; [|by apply Hstop..].
  specialize (Hi i eq_refl). pose proof (kept_quiet (fun r => r ∈ [po_referral_id row]) _ _ Hb Hq) as [Hb1 Ho1 Hp1 Hk1].
  apply ends_bind, ends_pay; [done|done|apply NoDup_singleton|done| |].
  { intros p ->%list_elem_of_singleton. split; [by apply Hk1|]. by rewrite Hp1. }
  intros w2 Hb2 Ho2 Hr2 Hlog Hpay Hp2. rewrite booked_for_asked, Hp1 in Hp2 by done. rewrite (qt_payments _ _ Hq) in Hpay.
  assert (only (eq (po_referral_id row)) w w2) as Ho.
  { eapply only_mono; [|etrans; [exact Ho1|exact Ho2]]. by intros r ->%list_elem_of_singleton. }
  assert (rw_payouts w2 = rw_payouts w) as Hr by (rewrite Hr2; apply Hq).
  assert (paid w2 = paid w \/ paid w2 = paid w ++ [key row]) as Hor.
  { rewrite Hp2. destruct (moved _ _ && _); [by right|left]. apply app_nil_r. }
  destruct (reply (length (rw_log w1)) (PayInvoice i 60)) as [[resp|e]|] eqn:Er.
  - cbn. apply HΦ; try done.
    + intros b pre fee [= <- <- <-]. by eapply HN.
    + split; [done|]. exists (asked (PayInvoice i 60) [row] w1), (length (rw_log w1)), resp.
      split_and!; [done|change (rw_log w2 !! length (rw_log w1) = Some (asked (PayInvoice i 60) [row] w1)); rewrite Hlog;
        by apply list_lookup_middle|done|done| |done|done]. cbn. by rewrite Er.
  - apply HΦ; try done.
    + intros e' _. cbn [is_error negb] in Hp2. rewrite andb_false_r in Hp2. by rewrite Hp2, app_nil_r.
    + right. eexists. split; [exact Hpay|]. cbn. by rewrite Er.
  - by apply HΦ.
Qed.

(** What a payment to [r] of [p] may leave. *)
Definition paid_up_to (r p : Z) (w w' : RefWorld) : Prop :=
  backed w' /\ only (eq r) w w' /\ (booked r w' = booked r w \/ booked r w' = booked r w + p).
Lemma paid_nothing r p w w' : kept (eq r) w w' -> paid_up_to r p w w'.
Proof. intros Hk. split_and!; [apply Hk|apply Hk|left; by eapply kept_booked]. Qed.
Lemma booked_snoc r i p w w' : paid w' = paid w ++ [(i, r, p)] -> booked r w' = booked r w + p.
Proof.
  intros E. unfold booked. rewrite E, filter_app, fmap_app, total_concat. f_equal. unfold filter, list_filter. cbn.
  case_decide; [cbn; lia|done].
Qed.
Lemma pay_reserved_spec rf p w : backed w -> fits 64 p -> ends (pay_reserved rf p) w (fun _ => paid_up_to (rf_id rf) p w).
Proof using HN.
  intros Hb Hp. unfold pay_reserved. apply ends_bind.
  apply ends_insert; [done|by split|done| |intros w1 r Hk Hr; destruct r as [[]|]; [done|by apply paid_nothing..]].
  cbn [po_referral_id po_amount reservation]. intros w1 id Hk1 Hin Hfresh. cbv beta iota.
  set (row := with_payout_id id (reservation rf p (rf_mode rf))).
  apply ends_bind, ends_attempt.
  change p with (po_amount row) at 1.
  apply ends_commission; [apply Hk1|exact Hin|by intros x Hx; apply Hfresh; left|].
  intros o w2 Hb2 Ho2 Hr2 Hor Herr Hfee _.
  assert (only (eq (rf_id rf)) w w2) as Ho by (etrans; [apply Hk1|exact Ho2]).
  assert (booked (rf_id rf) w2 = booked (rf_id rf) w \/ booked (rf_id rf) w2 = booked (rf_id rf) w + p) as Hbooked.
  { rewrite <- (kept_booked _ _ _ _ Hk1). destruct Hor as [E|E]; [left; unfold booked; by rewrite E|right; exact (booked_snoc _ _ _ _ _ E)]. }
  assert (forall q, q ∈ rw_payouts w2 -> po_id q = id -> po_referral_id q = rf_id rf) as Href.
  { intros q Hq. rewrite Hr2 in Hq. apply (held_ref w1 id _ p); [apply Hk1|exact Hin|done]. }
  destruct o as [[[[b pre] fee]|e]|]; cbv beta iota; [| |done].
  - apply ends_bind. apply (ends_update _ (rf_id rf)); [done|by eapply Hfee|exact Href|].
    intros o w3 Hk3. assert (paid_up_to (rf_id rf) p w w3) as Hup.
    { split_and!; [apply Hk3|etrans; [exact Ho|apply Hk3]|]. by rewrite (kept_booked _ _ _ _ Hk3). }
    destruct o as [[]|]; [|done..]. apply ends_calm; [by apply calm_warned; apply calm_call|].
    intros _ w4 Hq. destruct Hup as (H1 & H2 & H3). split_and!; [by eapply quiet_backed|etrans; [done|by apply quiet_only]|].
    by rewrite (quiet_booked _ _ _ Hq).
  - apply ends_bind, ends_warned.
    apply (ends_delete _ (rf_id rf)); [done|intros x; rewrite (Herr e eq_refl); intros Hx; exact (Hfresh x (or_introl Hx))|exact Href|].
    intros o w3 Hb3 Ho3 Hp3 _. assert (paid_up_to (rf_id rf) p w w3) as Hup.
    { split_and!; [done|by etrans|]. unfold booked in *. by rewrite Hp3. }
    by destruct o as [[]|].
Qed.

(** *** One referrer after the other *)

Definition to_pay (rf : Referral) (min : Z) (w : RefWorld) : option Z :=
  payable_referral_msat (earned_by (rf_code rf) w) (existing_btc (rev (rows_of (rf_id rf) w))) (effective_min_msat rf min).
Lemma quiet_to_pay rf min w w' : quiet w w' -> to_pay rf min w' = to_pay rf min w.
Proof. intros [_ Hr _ Hs Hf _ _ _]. unfold to_pay, earned_by, rows_of. by rewrite Hr, Hs, Hf. Qed.
Lemma ends_payable rf min w Φ : (forall w1, quiet w w1 -> Φ (Some (Ok (to_pay rf min w))) w1) ->
  (forall w1 r, quiet w w1 -> bad r -> Φ r w1) -> ends (payable rf min) w Φ.
Proof.
  intros Hok Hbad. unfold payable.
  apply ends_bind, ends_query; [|intros w1 r Hq Hr; destruct r as [[]|]; [done|by apply Hbad..]]. intros w1 Hq1.
  apply ends_bind, ends_query; [|intros w2 r Hq Hr; destruct r as [[]|]; [done|by apply Hbad; [etrans|]..]]. intros w2 Hq2.
  cbv beta iota. apply ends_done.
  assert (to_pay rf min w1 = payable_referral_msat
    (earned_btc (merge_sort newer (usage_rows (rw_sales w1) (rw_referrals w1) (rf_code rf))))
    (existing_btc (rev (filter (fun p => po_referral_id p = rf_id rf) (rw_payouts w2)))) (effective_min_msat rf min)) as E.
  { unfold to_pay, earned_by, rows_of. by rewrite (qt_payouts _ _ Hq2). }
  rewrite <- E, (quiet_to_pay _ _ _ _ Hq1). apply Hok. by etrans.
Qed.

(** The referrer can be paid within [B]. *)
Definition room (B : Z) (rf : Referral) (w : RefWorld) : Prop := earned_by (rf_code rf) w <= B /\ debited (rf_id rf) w < 2 ^ 64.
Lemma only_room X B rf w w' : only X w w' -> ~ X (rf_id rf) -> room B rf w -> room B rf w'.
Proof.
  intros Ho Hx [He Hd]. unfold room, earned_by, debited. by rewrite (on_sales _ _ _ Ho), (on_referrals _ _ _ Ho), (on_rows _ _ _ Ho _ Hx).
Qed.
Lemma to_pay_room B rf min p w : backed w -> room B rf w -> to_pay rf min w = Some p -> booked (rf_id rf) w + p <= B.
Proof. intros Hb [He Hd] Hp. destruct (payable_room _ _ _ _ _ Hb Hd Hp). lia. Qed.
Lemma to_pay_fits rf min p w : to_pay rf min w = Some p -> fits 64 p.
Proof.
  unfold to_pay, payable_referral_msat, sat_sub, earned_by, earned_btc, existing_btc. rewrite !sum_u_wrap by done.
  match goal with |- context [wrap 64 ?x - wrap 64 ?y] => pose proof (wrap_fits 64 x ltac:(lia)) as Hx; pose proof (wrap_fits 64 y ltac:(lia)) as Hy;
    set (a := wrap 64 x) in *; set (b := wrap 64 y) in * end.
  case_match; [done|]. case_match; [done|]. intros [= <-]. unfold fits in *.
  pose proof (Z.mul_div_le (Z.max 0 (a - b)) 1000 ltac:(lia)). pose proof (Z.div_pos (Z.max 0 (a - b)) 1000 ltac:(lia) ltac:(lia)). lia.
Qed.
(** What happened to [rf] alone is within [B] if he had room. *)
Definition alone (B : Z) (rf : Referral) (w w' : RefWorld) : Prop :=
  backed w' /\ only (eq (rf_id rf)) w w' /\ (room B rf w -> booked (rf_id rf) w <= B -> booked (rf_id rf) w' <= B).
Lemma process_one_spec B rf min w : backed w -> ends (process_one rf min) w (fun _ => alone B rf w).
Proof using HN.
  intros Hb. assert (forall w1, quiet w w1 -> alone B rf w w1) as Hquiet.
  { intros w1 Hq. split_and!; [by eapply quiet_backed|by apply quiet_only|]. by rewrite (quiet_booked _ _ _ Hq). }
  unfold process_one. apply ends_bind, ends_payable; [|intros w1 r Hq Hr; destruct r as [[]|]; [done|by apply Hquiet..]].
  intros w1 Hq. cbv beta iota. destruct (to_pay rf min w) as [p|] eqn:Ep; [|by apply Hquiet].
  eapply ends_mono; [apply pay_reserved_spec; [by eapply quiet_backed|by eapply to_pay_fits]|].
  intros _ w2 (Hb2 & Ho2 & Hs2). split_and!; [done|etrans; [by apply quiet_only|done]|].
  intros Hroom HB. rewrite (quiet_booked _ _ _ Hq) in Hs2. pose proof (to_pay_room _ _ _ _ _ Hb Hroom Ep). lia.
Qed.
Lemma pay_lightning_spec B min rf w : backed w -> ends (pay_lightning min rf) w (fun _ w' =>
  alone B rf w w' /\ (rf_mode rf = OnChainMode -> w' = w)).
Proof using HN.
  intros Hb. unfold pay_lightning. case_bool_decide as Hm; [by apply ends_done|].
  apply ends_warned. eapply ends_mono; [by apply (process_one_spec B)|]. cbv beta. intros o w1 H. split; [exact H|done].
Qed.
(** The referrers of a pass. *)
Definition on_list (l : list Referral) (r : Z) : Prop := exists rf, rf ∈ l /\ rf_id rf = r /\ rf_mode rf <> OnChainMode.
Lemma lightning_pass B r min l w : NoDup (rf_id <$> l) -> backed w -> booked r w <= B ->
  (forall rf, rf ∈ l -> rf_id rf = r -> room B rf w) ->
  ends (for_each (pay_lightning min) l) w (fun _ w' => backed w' /\ only (on_list l) w w' /\ booked r w' <= B).
Proof using HN.
  revert w. induction l as [|rf l IH]; intros w Hnd Hb HB Hroom; [by apply ends_done|].
  rewrite fmap_cons, NoDup_cons in Hnd. destruct Hnd as [Hnot Hnd]. cbn [for_each]. apply ends_bind.
  eapply ends_mono; [by apply (pay_lightning_spec B)|]. cbv beta. intros o w1 [(Hb1 & Ho1 & Hs1) Hsame].
  assert (only (on_list (rf :: l)) w w1) as Ho.
  { destruct (decide (rf_mode rf = OnChainMode)) as [E|E]; [by rewrite (Hsame E)|].
    eapply only_mono; [|exact Ho1]. intros r' <-. exists rf. split_and!; [by left|done..]. }
  assert (booked r w1 <= B) as HB1.
  { destruct (decide (rf_id rf = r)) as [<-|Hr]; [apply Hs1; [apply Hroom; [by left|done]|done]|]. by rewrite (on_booked _ _ _ Ho1 r Hr). }
  destruct o as [[[]|e]|]; [|done..].
  eapply ends_mono; [apply IH; [done..|]|].
  - intros rf' Hin Hid. apply (only_room _ _ _ _ _ Ho1); [|by apply Hroom; [right|]].
    intros E. apply Hnot. rewrite E. by apply list_elem_of_fmap_2.
  - cbv beta. intros _ w2 (Hb2 & Ho2 & Hs2). split_and!; [done| |done]. etrans; [exact Ho|].
    eapply only_mono; [|exact Ho2]. intros r' (rf' & Hin & ? & ?). exists rf'. split_and!; [by right|done..].
Qed.

(** *** The batch *)

Lemma select_spec min l w : ends (collect (select_onchain min) l) w (fun o w1 => quiet w w1 /\ forall es, o = Some (Ok es) ->
  Forall (fun e => e.1.1 ∈ l /\ rf_mode e.1.1 = OnChainMode /\ to_pay e.1.1 min w = Some e.2) (concat es) /\
  sublist ((fun e => rf_id e.1.1) <$> concat es) (rf_id <$> l)).
Proof.
  revert w. induction l as [|rf l IH]; intros w; [apply ends_done; split; [done|]; by intros _ [= <-]|].
  cbn [collect]. apply ends_bind.
  assert (ends (select_onchain min rf) w (fun o w1 => quiet w w1 /\ forall es, o = Some (Ok es) -> es = [] \/
    exists a p, es = [(rf, a, p)] /\ rf_mode rf = OnChainMode /\ to_pay rf min w = Some p)) as Hone.
  { unfold select_onchain. case_bool_decide as Hm; cbn [negb]; [|apply ends_done; split; [done|]; intros _ [= <-]; by left].
    destruct (payout_address rf) as [a|]; [|apply ends_done; split; [done|]; intros _ [= <-]; by left].
    apply ends_bind, ends_attempt, ends_payable; [|intros w1 [[]|] Hq Hr; [done| |by split]; by split; [|intros _ [= <-]; left]].
    intros w1 Hq. cbv beta iota. destruct (to_pay rf min w) as [p|] eqn:Ep; apply ends_done; (split; [done|]); intros _ [= <-].
    - right. by exists a, p.
    - by left. }
  eapply ends_mono; [exact Hone|]. cbv beta. intros [[es1|e]|] w1 [Hq H1]; [|by split..]. specialize (H1 es1 eq_refl).
  apply ends_bind. eapply ends_mono; [apply IH|]. cbv beta. intros [[es|e]|] w2 [Hq2 H2]; [|by split; [etrans|]..].
  specialize (H2 es eq_refl) as [Hall Hsub]. apply ends_done. split; [by etrans|]. intros _ [= <-]. cbn [concat].
  assert (Forall (fun e => e.1.1 ∈ rf :: l /\ rf_mode e.1.1 = OnChainMode /\ to_pay e.1.1 min w = Some e.2) (concat es)) as Hall'.
  { eapply Forall_impl; [exact Hall|]. intros e (Hin & Hm & Hp). rewrite (quiet_to_pay _ _ _ _ Hq) in Hp. split_and!; [by right|done..]. }
  destruct H1 as [->|(a & p & -> & Hm & Hp)]; cbn.
  - split; [done|]. by apply sublist_cons.
  - split; [constructor; [split_and!; [by left|done..]|done]|]. by apply sublist_skip.
Qed.
(** The rows that were reserved. *)
Record reserved (es : list (Referral * string * Z)) (rs : list (ReferralPayout * Referral * string)) (w w' : RefWorld) : Prop := {
  rv_refs : (fun e => po_referral_id e.1.1) <$> rs = (fun e => rf_id e.1.1) <$> es;
  rv_amounts : (fun e => po_amount e.1.1) <$> rs = snd <$> es;
  rv_ids : NoDup ((fun e => po_id e.1.1) <$> rs);
  rv_rows e : e ∈ rs -> key e.1.1 ∈ btc_keys w' /\ forall x, x ∈ paid w' \/ x ∈ btc_keys w -> x.1.1 <> po_id e.1.1
}.
Definition among (es : list (Referral * string * Z)) (r : Z) : Prop := r ∈ (fun e => rf_id e.1.1) <$> es.
Lemma reserve_spec es w : backed w -> Forall (fun e => fits 64 e.2) es ->
  ends (collect reserve es) w (fun o w' => kept (among es) w w' /\ forall rs, o = Some (Ok rs) -> reserved es rs w w').
Proof.
  revert w. induction es as [|[[rf a] p] es IH]; intros w Hb Hf.
  { apply ends_done. split; [by apply kept_quiet|]. intros _ [= <-]. split; [done..|constructor|]. by intros e ?%not_elem_of_nil. }
  apply Forall_cons in Hf as [Hp Hf]. cbn [collect reserve].
  assert (forall w1, kept (eq (rf_id rf)) w w1 -> kept (among ((rf, a, p) :: es)) w w1) as Hhead.
  { intros w1. apply kept_mono. intros r <-. by left. }
  apply ends_bind, ends_bind, ends_insert; [done|by split|done| |intros w1 [[]|] Hk Hr; [done|by split; [apply Hhead|]..]].
  cbn [po_referral_id po_amount reservation]. intros w1 id Hk1 Hin Hfresh. cbv beta iota. apply ends_done. cbv beta iota.
  apply ends_bind. eapply ends_mono; [apply IH; [apply Hk1|done]|]. cbv beta.
  intros o w2 [Hk2 Hrs].
  assert (kept (among ((rf, a, p) :: es)) w w2) as Hk.
  { eapply kept_trans; [by apply Hhead|]. eapply kept_mono; [|exact Hk2]. intros r Hr. by right. }
  destruct o as [[rs|e]|]; [|by split..]. apply ends_done. split; [done|]. intros _ [= <-].
  destruct (Hrs rs eq_refl) as [Er Ea Hn Hrows]. split.
  - cbn. by rewrite Er.
  - cbn. by rewrite Ea.
  - cbn. apply NoDup_cons. split; [|done]. intros (e & Ee & He)%list_elem_of_fmap.
    exact (proj2 (Hrows e He) (id, rf_id rf, p) (or_intror Hin) Ee).
  - intros e [->|He]%elem_of_cons.
    + cbn. split; [exact (kp_keys _ _ _ Hk2 _ Hin)|]. intros x [Hx|Hx]; [|exact (Hfresh x (or_intror Hx))].
      rewrite (kp_paid _ _ _ Hk2) in Hx. exact (Hfresh x (or_introl Hx)).
    + destruct (Hrows e He) as [H1 H2]. split; [done|]. intros x [Hx|Hx]; apply H2; [by left|right]. exact (kp_keys _ _ _ Hk1 _ Hx).
Qed.
Lemma shares_nonneg amounts fee : Forall (Z.le 0) (split_fee_proportional amounts fee).
Proof.
  unfold split_fee_proportional. case_match; [apply Forall_forall; intros x [-> _]%elem_of_replicate; lia|].
  set (shares := _ <$> _). assert (Forall (Z.le 0) shares) as Hs.
  { apply Forall_fmap, Forall_forall. intros x _. cbn. by destruct (wrap_fits 64 (wmul 128 x fee / sum_u 128 amounts) ltac:(lia)). }
  case_match; [|done]. destruct (max_index 0 None amounts) as [[i ?]|]; [|done].
  apply Forall_alter; [done|]. intros s _ _. by destruct (wrap_fits 64 (s + sat_sub fee (sum_u 64 shares)) ltac:(lia)).
Qed.

(** Reservations that are still there. *)
Definition standing (rs : list (ReferralPayout * Referral * string)) (w : RefWorld) : Prop :=
  forall e, e ∈ rs -> key e.1.1 ∈ btc_keys w.
Lemma standing_ref rs w e q : backed w -> standing rs w -> e ∈ rs -> q ∈ rw_payouts w -> po_id q = po_id e.1.1 ->
  po_referral_id q = po_referral_id e.1.1.
Proof. intros Hb Hs He Hq. apply (held_ref w _ _ (po_amount e.1.1)); [apply Hb|by apply Hs|done]. Qed.
Lemma record_all resp tx rs shares w : backed w -> standing rs w -> Forall (Z.le 0) shares ->
  ends (for_each (record_payout resp tx) (zip rs shares)) w (fun _ => kept (fun r => r ∈ (fun e => po_referral_id e.1.1) <$> rs) w).
Proof.
  revert shares w. induction rs as [|[[row rf] a] rs IH]; intros shares w Hb Hs Hf; [by apply ends_done, kept_quiet|].
  destruct shares as [|fee shares]; [by apply ends_done, kept_quiet|]. apply Forall_cons in Hf as [Hfee Hf].
  cbn [zip zip_with for_each]. change (zip_with pair rs shares) with (zip rs shares). apply ends_bind, ends_bind, ends_warned.
  assert (forall w1 w2, kept (eq (po_referral_id row)) w w1 -> quiet w1 w2 ->
    kept (fun r => r ∈ (fun e => po_referral_id e.1.1) <$> (row, rf, a) :: rs) w w2) as Hhead.
  { intros w1 w2 Hk Hq. eapply kept_trans; [eapply kept_mono; [|exact Hk]; intros r <-; by left|]. apply kept_quiet; [apply Hk|done]. }
  apply (ends_update _ (po_referral_id row)); [done|done|intros q Hq; apply (standing_ref ((row, rf, a) :: rs) w (row, rf, a) q Hb Hs); [by left|done]|].
  intros o w1 Hk1. destruct o as [o|]; [|by apply (Hhead w1)]. cbv beta iota.
  apply ends_calm; [by apply calm_warned, calm_call|]. intros o2 w2 Hq2. pose proof (Hhead _ _ Hk1 Hq2) as Hk2.
  destruct o2 as [[[]|]|]; [|done..]. eapply ends_mono; [apply IH; [apply Hk2| |done]|].
  - intros e He. apply (kp_keys _ _ _ Hk2), Hs. by right.
  - cbv beta. intros _ w3 Hk3. eapply kept_trans; [exact Hk2|]. eapply kept_mono; [|exact Hk3]. intros r Hr. by right.
Qed.
Lemma release_all rs w : backed w -> NoDup ((fun e => po_id e.1.1) <$> rs) -> standing rs w ->
  (forall e x, e ∈ rs -> x ∈ paid w -> x.1.1 <> po_id e.1.1) ->
  ends (for_each (fun e => warned (delete_referral_payout (po_id e.1.1))) rs) w (fun _ w' =>
    backed w' /\ only (fun r => r ∈ (fun e => po_referral_id e.1.1) <$> rs) w w' /\ paid w' = paid w).
Proof.
  revert w. induction rs as [|e rs IH]; intros w Hb Hn Hs Hp; [by apply ends_done|].
  cbn [fmap list_fmap] in Hn. apply NoDup_cons in Hn as [Hnot Hn]. cbn [for_each]. apply ends_bind, ends_warned.
  apply (ends_delete _ (po_referral_id e.1.1)); [done|intros x; apply Hp; by left|intros q; apply (standing_ref _ _ _ _ Hb Hs); by left|].
  intros o w1 Hb1 Ho1 Hp1 Hk1.
  assert (only (fun r => r ∈ (fun e => po_referral_id e.1.1) <$> e :: rs) w w1) as Ho.
  { eapply only_mono; [|exact Ho1]. intros r <-. by left. }
  destruct o as [o|]; [|done]. eapply ends_mono; [apply IH; [done..| |]|].
  - intros e' He'. apply Hk1; [apply Hs; by right|]. cbn. intros E. apply Hnot. rewrite <- E. by apply (list_elem_of_fmap_2 (fun e => po_id e.1.1)).
  - rewrite Hp1. intros e' x He'. apply Hp. by right.
  - cbv beta. intros _ w2 (Hb2 & Ho2 & Hp2). split_and!; [done| |congruence]. etrans; [exact Ho|]. eapply only_mono; [|exact Ho2]. intros r Hr. by right.
Qed.
Lemma once_total r (l : list (Z * Z * Z)) : NoDup ((fun x => x.1.2) <$> l) ->
  total (snd <$> filter (fun x => x.1.2 = r) l) = 0 \/ exists x, x ∈ l /\ x.1.2 = r /\ total (snd <$> filter (fun x => x.1.2 = r) l) = x.2.
Proof.
  induction l as [|x l IH]; [by left|]. cbn. intros [Hnot Hn]%NoDup_cons. unfold filter, list_filter in *. cbn.
  case_decide as Hx.
  - right. exists x. split_and!; [by left|done|]. cbn. destruct (IH Hn) as [->|(y & Hy & E & _)]; [lia|].
    exfalso. apply Hnot. rewrite Hx, <- E. by apply (list_elem_of_fmap_2 (fun x : Z * Z * Z => x.1.2)).
  - destruct (IH Hn) as [->|(y & Hy & E & ->)]; [by left|right]. exists y. split_and!; [by right|done..].
Qed.
Lemma reserved_for es rs w w' e : reserved es rs w w' -> e ∈ rs ->
  exists e', e' ∈ es /\ rf_id e'.1.1 = po_referral_id e.1.1 /\ e'.2 = po_amount e.1.1.
Proof.
  intros [Er Ea _ _] [i Hi]%list_elem_of_lookup_1.
  apply (f_equal (fun l => l !! i)) in Er, Ea. rewrite !list_lookup_fmap, Hi in Er, Ea. cbn in Er, Ea.
  destruct (es !! i) as [e'|] eqn:E; [|done]. exists e'. split_and!; [by eapply list_elem_of_lookup_2|by injection Er|by injection Ea].
Qed.
Lemma send_batch_spec cap es w : backed w -> Forall (fun e => fits 64 e.2) es -> NoDup ((fun e => rf_id e.1.1) <$> es) ->
  ends (send_batch cap es) w (fun _ w' => backed w' /\ only (among es) w w' /\
    forall r, booked r w' = booked r w \/ exists e, e ∈ es /\ rf_id e.1.1 = r /\ booked r w' = booked r w + e.2).
Proof using HN.
  intros Hb Hf Hn. unfold send_batch.
  assert (forall w1, kept (among es) w w1 -> backed w1 /\ only (among es) w w1 /\
    forall r, booked r w1 = booked r w \/ exists e, e ∈ es /\ rf_id e.1.1 = r /\ booked r w1 = booked r w + e.2) as Hkept.
  { intros w1 Hk. split_and!; [apply Hk|apply Hk|]. intros r. left. by eapply kept_booked. }
  apply ends_bind, (ends_call FeeRate); [done|]. intros w1 Hq1. pose proof (kept_quiet (among es) _ _ Hb Hq1) as Hk1.
  destruct (reply _ FeeRate) as [[rate|e]|]; [|by apply Hkept..]. cbn [Reply] in rate.
  destruct (cap <? rate); [by apply ends_done, Hkept|].
  apply ends_bind. eapply ends_mono; [apply reserve_spec; [apply Hk1|done]|]. cbv beta. intros o w2 [Hk12 Hrs].
  pose proof (kept_trans _ _ _ _ Hk1 Hk12) as Hk2.
  destruct o as [[rs|e]|]; [|by apply Hkept..]. destruct (Hrs rs eq_refl) as [Er Ea Hids Hrows].
  set (ps := (fun e => e.1.1) <$> rs).
  assert (po_referral_id <$> ps = (fun e => rf_id e.1.1) <$> es) as Erefs by (unfold ps; by rewrite <- list_fmap_compose).
  assert (length (amounts_of (SendCoins (payout_batch_request es rate))) = length ps) as Hlen.
  { apply (f_equal length) in Er. unfold ps. cbn. rewrite !length_fmap in *. by rewrite Er. }
  apply ends_bind, ends_attempt, ends_pay.
  - done.
  - apply Hk2.
  - unfold ps. by rewrite <- list_fmap_compose.
  - exact Hlen.
  - intros p (e & -> & He)%list_elem_of_fmap. split; [by apply Hrows|]. intros x Hx. apply (Hrows e He). by left.
  - fold ps. rewrite Erefs. intros w3 Hb3 Ho3 Hr3 _ _ Hp3. rewrite booked_for_asked in Hp3 by exact Hlen.
    assert (only (among es) w w3) as Ho by (etrans; [apply Hk2|exact Ho3]).
    assert (forall w4, kept (among es) w3 w4 -> backed w4 /\ only (among es) w w4 /\
      forall r, booked r w4 = booked r w \/ exists e, e ∈ es /\ rf_id e.1.1 = r /\ booked r w4 = booked r w + e.2) as Hend.
    { intros w4 Hk4. split_and!; [apply Hk4|etrans; [exact Ho|apply Hk4]|]. intros r. rewrite (kept_booked _ _ _ _ Hk4).
      unfold booked. rewrite Hp3, (kp_paid _ _ _ Hk2), filter_app, fmap_app, total_concat. case_match; [|left; cbn; lia].
      destruct (once_total r (key <$> ps)) as [->|(x & Hx & E & ->)]; [|left; lia|right].
      - rewrite <- list_fmap_compose. change (NoDup (po_referral_id <$> ps)). by rewrite Erefs.
      - apply list_elem_of_fmap in Hx as (p & -> & Hp). cbn in E |- *.
        apply list_elem_of_fmap in Hp as (e & -> & He). destruct (reserved_for _ _ _ _ e (Hrs rs eq_refl) He) as (e' & He' & E1 & E2).
        exists e'. split_and!; [done|congruence|lia]. }
    assert (standing rs w3) as Hst.
    { intros e He. unfold btc_keys. rewrite Hr3. by apply Hrows. }
    assert (forall w4, kept (fun r => r ∈ (fun e => po_referral_id e.1.1) <$> rs) w3 w4 -> kept (among es) w3 w4) as Hmono.
    { intros w4. apply kept_mono. unfold among. by rewrite Er. }
    destruct (reply _ _) as [[resp|e]|]; cbv beta iota; cbn [is_error negb] in Hp3.
    + eapply ends_mono; [apply record_all; [done..|apply shares_nonneg]|]. cbv beta. intros _ w4 Hk4. by apply Hend, Hmono.
    + rewrite andb_false_r, app_nil_r in Hp3.
      apply ends_bind. eapply ends_mono; [apply release_all; [done..|]|].
      * intros e' x He' Hx. rewrite Hp3 in Hx. apply (Hrows e' He'). by left.
      * cbv beta. intros o w4 (Hb4 & Ho4 & Hp4).
        assert (backed w4 /\ only (among es) w w4 /\
          forall r, booked r w4 = booked r w \/ exists e, e ∈ es /\ rf_id e.1.1 = r /\ booked r w4 = booked r w + e.2) as Hfin.
        { split_and!; [done|etrans; [exact Ho|]; eapply only_mono; [|exact Ho4]; unfold among; by rewrite Er|].
          intros r. left. unfold booked. by rewrite Hp4, Hp3, (kp_paid _ _ _ Hk2). }
        by destruct o as [[]|].
    + by apply Hend, kept_quiet.
Qed.

Definition on_chain (l : list Referral) (r : Z) : Prop := exists rf, rf ∈ l /\ rf_id rf = r /\ rf_mode rf = OnChainMode.
Lemma onchain_pass B r cap min l w : NoDup (rf_id <$> l) -> backed w -> booked r w <= B ->
  (forall rf, rf ∈ l -> rf_id rf = r -> rf_mode rf = OnChainMode -> room B rf w) ->
  ends (process_onchain_batch cap l min) w (fun _ w' => backed w' /\ only (on_chain l) w w' /\ booked r w' <= B).
Proof using HN.
  intros Hn Hb HB Hroom.
  assert (forall w1, quiet w w1 -> backed w1 /\ only (on_chain l) w w1 /\ booked r w1 <= B) as Hq.
  { intros w1 Hq. split_and!; [by eapply quiet_backed|by apply quiet_only|by rewrite (quiet_booked _ _ _ Hq)]. }
  unfold process_onchain_batch. apply ends_bind. eapply ends_mono; [apply select_spec|]. cbv beta.
  intros [[es|e]|] w1 [Hq1 Hes]; [|by apply Hq..]. destruct (Hes es eq_refl) as [Hall Hsub].
  case_bool_decide; [by apply Hq|]. eapply ends_mono.
  - apply send_batch_spec; [by eapply quiet_backed| |by eapply sublist_NoDup].
    eapply Forall_impl; [exact Hall|]. intros e (_ & _ & Hp). by eapply to_pay_fits.
  - cbv beta. rewrite Forall_forall in Hall. intros _ w2 (Hb2 & Ho2 & Hs2). split_and!; [done| |].
    { etrans; [by apply quiet_only|]. eapply only_mono; [|exact Ho2]. intros r' (e & -> & He)%list_elem_of_fmap.
      exists e.1.1. by destruct (Hall e He) as (? & ? & _). }
    rewrite <- (quiet_booked r _ _ Hq1) in HB. destruct (Hs2 r) as [->|(e & He & E & ->)]; [done|]. destruct (Hall e He) as (Hin & Hm & Hp).
    rewrite (quiet_booked _ _ _ Hq1), <- E. by eapply to_pay_room, Hp; [|apply Hroom].
Qed.
Lemma process_payouts_spec B r h w : backed w -> booked r w <= B ->
  (forall rf, rf ∈ rw_referrals w -> rf_id rf = r -> room B rf w) ->
  ends (process_payouts h) w (fun _ w' => backed w' /\ booked r w' <= B).
Proof using HN.
  intros Hb HB Hroom. pose proof (td_referrals _ Hb) as Hn. unfold process_payouts.
  apply ends_bind, ends_query; cycle 1.
  { intros w1 o Hq Ho. destruct o as [[]|]; [done|..]; (split; [by eapply quiet_backed|by rewrite (quiet_booked _ _ _ Hq)]). }
  intros w1 Hq. cbv beta iota. rewrite (qt_referrals _ _ Hq). set (l := rw_referrals w) in *.
  pose proof (quiet_backed _ _ Hq Hb) as Hb1. rewrite <- (quiet_booked r _ _ Hq) in HB.
  assert (forall rf, rf ∈ l -> rf_id rf = r -> room B rf w1) as Hroom1.
  { intros rf Hin Hid. eapply (only_room (fun _ => False)); [by apply quiet_only|tauto|by apply Hroom]. }
  apply ends_bind.
  match goal with |- ends ?m w1 _ => assert (ends m w1 (fun _ w2 => backed w2 /\ only (on_list l) w1 w2 /\ booked r w2 <= B)) as Hln end.
  { destruct (ph_min_payout_msat h); [by apply lightning_pass|by apply ends_done]. }
  eapply ends_mono; [exact Hln|]. cbv beta. intros o w2 (Hb2 & Ho2 & HB2). destruct o as [[[]|e]|]; [|done..].
  destruct (ph_onchain h), (ph_min_onchain_payout_msat h) as [min|]; try by apply ends_done.
  apply ends_warned. eapply ends_mono; [apply (onchain_pass B r)|]; [done..| |by intros ? ? (? & _ & ?)].
  intros rf Hin Hid Hm. apply (only_room _ _ _ _ _ Ho2); [|by apply Hroom1].
  intros (rf' & Hin' & Hid' & Hm'). assert (rf' = rf) as ->; [|done]. by apply (NoDup_key rf_id l).
Qed.

(** ** The handlers move nothing *)

Definition kindly {A} (m : Job A) : Prop := forall w, backed w -> backed (m w).2 /\ paid (m w).2 = paid w.
Lemma kindly_calm {A} (m : Job A) : calm m -> kindly m.
Proof. intros Hm w Hb. specialize (Hm w). split; [by eapply quiet_backed|by apply qt_paid]. Qed.
Lemma kindly_bind {A B} (m : Job A) (k : A -> Job B) : kindly m -> (forall a, kindly (k a)) -> kindly (job_bind m k).
Proof.
  intros Hm Hk w Hb. unfold job_bind. destruct (Hm w Hb) as [Hb1 Hp1]. destruct (m w) as [[[a|e]|] w1]; [|done..].
  cbn in *. destruct (Hk a w1 Hb1) as [Hb2 Hp2]. split; [done|congruence].
Qed.
Lemma kindly_statement {A} (f : RefWorld -> A * RefWorld) :
  (forall w, backed w -> backed (f w).2 /\ paid (f w).2 = paid w) -> kindly (statement f).
Proof.
  intros Hf w Hb. assert (forall o w1, quiet w w1 -> (fun (_ : option (res PayFail A)) w2 => backed w2 /\ paid w2 = paid w) o w1 /\
    (fun (_ : option (res PayFail A)) w2 => backed w2 /\ paid w2 = paid w) o (f w1).2) as Hboth.
  { intros _ w1 Hq. pose proof (quiet_backed _ _ Hq Hb) as Hb1. destruct (Hf w1 Hb1) as [? ->]. split; (split; [done|by apply qt_paid]). }
  apply (ends_statement f w (fun _ w2 => backed w2 /\ paid w2 = paid w)); intros; by apply (Hboth None).
Qed.
Lemma kindly_constrained {A} ok (f : RefWorld -> A * RefWorld) :
  (forall w, ok w = true -> backed w -> backed (f w).2 /\ paid (f w).2 = paid w) -> kindly (constrained ok f).
Proof.
  intros Hf. apply kindly_bind; [|intros []; apply kindly_calm; auto with calm].
  apply kindly_statement. intros w Hb. destruct (ok w) eqn:E; [|done]. specialize (Hf w E Hb). by destruct (f w).
Qed.
Lemma kindly_insert_payout p : typed p -> kindly (insert_referral_payout p).
Proof.
  intros Hp. apply kindly_statement. intros w Hb.
  assert (kept (eq (po_referral_id p)) w (appended (inserted (rw_next_payout w) p) w)) as [? _ ? _]; [|done].
  by apply (appended_kept (inserted (rw_next_payout w) p)).
Qed.
Lemma kindly_update_payout p : 0 <= po_fee p -> kindly (update_referral_payout p).
Proof.
  intros Hf w Hb.
  assert (exists r, forall q, q ∈ rw_payouts w -> po_id q = po_id p -> po_referral_id q = r) as [r Hr].
  { destruct (decide (po_id p ∈ po_id <$> rw_payouts w)) as [(q & E & Hq)%list_elem_of_fmap|Hno].
    - exists (po_referral_id q). intros q' Hq' E'. f_equal. apply (row_by_id w); [apply Hb|done..|congruence].
    - exists 0. intros q Hq E. destruct Hno. rewrite <- E. by apply list_elem_of_fmap_2. }
  apply (ends_update p r w (fun _ w1 => backed w1 /\ paid w1 = paid w)); [done..|]. by intros _ w1 [? _ ? _].
Qed.
Lemma kindly_update_referral rf : kindly (update_referral rf).
Proof.
  apply kindly_constrained. intros w _ [[Hk Hn Ht Hr Hm] Ho Hrows].
  assert (forall w2, rw_payouts w2 = rw_payouts w -> rw_next_payout w2 = rw_next_payout w -> rw_next_referral w2 = rw_next_referral w ->
    rf_id <$> rw_referrals w2 = rf_id <$> rw_referrals w -> rw_log w2 = rw_log w -> backed w2 /\ paid w2 = paid w) as Hsame.
  { intros w2 E1 E2 E3 E4 E5. assert (paid w2 = paid w) as Ep by (unfold paid, payments; by rewrite E5). split; [|done].
    split; [split|..]; unfold btc_keys; rewrite ?E1, ?E2, ?E3, ?E4, ?Ep; [done..| |done|done].
    apply (Forall_fmap rf_id (fun i => i < rw_next_referral w)). rewrite E4. by apply Forall_fmap. }
  assert (forall l : list Referral, rf_id <$> ((fun old => if decide (rf_id old = rf_id rf) then
      {| rf_id := rf_id old; rf_user_id := rf_user_id old; rf_code := rf_code rf; rf_address := rf_address rf;
         rf_mode := rf_mode rf; rf_rate := rf_rate rf; rf_payout_threshold := rf_payout_threshold rf |} else old) <$> l)
    = rf_id <$> l) as Hids.
  { intros l. rewrite <- list_fmap_compose. apply list_fmap_ext. intros i x _. cbn. by case_decide. }
  cbn [snd]. case_match; [case_match|]; apply Hsame; try done; apply Hids.
Qed.
Lemma kindly_insert_referral rf : kindly (insert_referral rf).
Proof.
  apply kindly_constrained. intros w _ [[Hk Hn Ht Hr Hm] Ho Hrows]. split; [|done]. split; [split|..]; try done; cbn.
  - rewrite fmap_app. apply NoDup_app. split_and!; [done| |apply NoDup_singleton].
    intros i (q & -> & Hq)%list_elem_of_fmap Hi%list_elem_of_singleton. pose proof (proj1 (Forall_forall _ _) Hm q Hq). cbn in *. lia.
  - apply Forall_app. split; [|apply Forall_singleton; cbn; lia]. eapply Forall_impl; [exact Hm|]. cbn. lia.
Qed.
Lemma kindly_delete_referral id : kindly (delete_referral id).
Proof.
  apply kindly_constrained. intros w _ [[Hk Hn Ht Hr Hm] Ho Hrows]. split; [|done]. split; [split|..]; try done; cbn.
  - by apply NoDup_map_filter.
  - apply Forall_forall. intros p [_ Hin]%list_elem_of_filter. by apply (proj1 (Forall_forall _ _) Hm).
Qed.

Lemma calm_user_has_nwc uid : calm (user_has_nwc uid).
Proof. unfold user_has_nwc, list_user_payment_methods. calm_tac. Qed.
Lemma calm_lightning_address a : calm (validate_lightning_address a).
Proof. unfold validate_lightning_address. calm_tac. Qed.
Lemma calm_signup_address debug uid mode a : calm (check_signup_address debug uid mode a).
Proof.
  unfold check_signup_address. destruct mode; [|apply calm_bind; [apply calm_user_has_nwc|]; intros []; auto with calm|by intros w|].
  - case_match; [apply calm_lightning_address|auto with calm].
  - case_match; auto with calm.
Qed.
Lemma calm_enrolled uid : calm (enrolled uid).
Proof. unfold enrolled, get_referral_by_user. calm_tac. Qed.
Lemma calm_effective_rate rf : calm (resolve_effective_rate rf).
Proof. unfold resolve_effective_rate. calm_tac. Qed.
Lemma calm_find_payout id payout_id : calm (find_payout id payout_id).
Proof. unfold find_payout, list_referral_payouts. calm_tac. Qed.
End job.
#[export] Hint Resolve calm_user_has_nwc calm_lightning_address calm_signup_address calm_enrolled calm_effective_rate calm_find_payout : calm.
#[export] Hint Resolve kindly_update_referral kindly_insert_referral kindly_delete_referral : kindly.
Ltac kindly_tac := repeat first
  [ solve [auto with kindly]
  | solve [apply kindly_calm; auto with calm]
  | apply kindly_bind; [|intros ?]
  | case_match ].

Section history.
Context `{HL : !HexLib, BC : !Bitcoin, PS : !PayServices}.

Lemma kindly_signup debug settings bytes uid req : kindly (v1_signup_referral debug settings bytes uid req).
Proof.
  unfold v1_signup_referral. apply kindly_bind; [apply kindly_calm; unfold get_referral_by_user; calm_tac|intros []]; kindly_tac.
Qed.
Lemma kindly_update debug settings uid req : kindly (v1_update_referral debug settings uid req).
Proof. unfold v1_update_referral. kindly_tac. Qed.
Lemma kindly_delete uid : kindly (v1_delete_referral uid).
Proof. unfold v1_delete_referral, list_referral_payouts. kindly_tac. Qed.
Lemma kindly_admin_update id req : kindly (admin_update_referral id req).
Proof.
  unfold admin_update_referral, admin_get_referral, get_referral_by_code.
  apply kindly_bind; [apply kindly_calm; calm_tac|intros rf]. apply kindly_bind.
  { apply kindly_calm. calm_tac. }
  intros code. apply kindly_bind; [apply kindly_calm; calm_tac|intros _].
  apply kindly_bind; [apply kindly_update_referral|intros _]. apply kindly_calm. calm_tac.
Qed.
Lemma kindly_admin_create id req : fits 64 (ac_amount req) -> kindly (admin_create_referral_payout id req).
Proof.
  intros Ha. unfold admin_create_referral_payout, admin_get_referral. apply kindly_bind; [apply kindly_calm; calm_tac|intros _].
  case_match; [apply kindly_calm; auto with calm|]. case_match; [apply kindly_calm; auto with calm|].
  apply kindly_bind; [apply kindly_calm; calm_tac|intros mode]. apply kindly_bind; [by apply kindly_insert_payout|intros payout_id].
  apply kindly_bind; [case_match; [by apply kindly_update_payout|apply kindly_calm; auto with calm]|intros _]. apply kindly_calm. auto with calm.
Qed.
Lemma find_payout_spec id payout_id w : ends (find_payout id payout_id) w (fun o w1 => quiet w w1 /\
  forall p, o = Some (Ok p) -> p ∈ rw_payouts w1).
Proof.
  unfold find_payout. apply ends_bind, ends_query; [|intros w1 [[]|] Hq Hr; [done|by split..]]. intros w1 Hq. cbv beta iota.
  destruct (list_find _ _) as [[i p]|] eqn:E; [|by split]. split; [done|]. intros _ [= <-].
  apply list_find_Some in E as (Hi & _). apply list_elem_of_lookup_2 in Hi. apply list_elem_of_In, in_rev, list_elem_of_In in Hi.
  by apply list_elem_of_filter in Hi as [_ ?].
Qed.
Lemma kindly_admin_update_payout id payout_id req : kindly (admin_update_referral_payout id payout_id req).
Proof.
  intros w Hb. change (ends (admin_update_referral_payout id payout_id req) w (fun _ w' => backed w' /\ paid w' = paid w)).
  unfold admin_update_referral_payout. apply ends_bind. eapply ends_mono; [apply find_payout_spec|]. cbv beta.
  intros o w1 [Hq Hp]. pose proof (quiet_backed _ _ Hq Hb) as Hb1. rewrite <- (qt_paid _ _ Hq).
  destruct o as [[p|e]|]; [|done..]. specialize (Hp p eq_refl).
  destruct (proj1 (Forall_forall _ _) (td_typed _ Hb1) p Hp) as [_ Hfee].
  match goal with |- ends ?m w1 _ => enough (kindly m) as H by by apply H end.
  apply kindly_bind; [apply kindly_calm; calm_tac|intros mode]. apply kindly_bind; [apply kindly_calm; calm_tac|intros pre].
  apply kindly_bind; [by apply kindly_update_payout|intros _]. apply kindly_calm. auto with calm.
Qed.
End history.
