(* ===== verification/ReferralHistory.v ===== *)
(** * What the referral programme promises

    Over any history of payouts, enrolments, manual records and sales a referrer gets
    no more than he earned; a run pays whom it can, whatever happens to the others;
    and a payment that fails leaves no trace. *)

From Stdlib Require Import Ascii String SpecFloat.
From stdpp Require Import list sorting.
From S2P Require Import Prelude NetText IpAlloc Network HostTypes Exchange Referral ReferralApi ReferralProofs.

(** Machines are sold, paid for and removed, wallets connected. *)
Definition sold (s : Sales) (m : list UserMethod) (w : RefWorld) : RefWorld :=
  {| rw_sales := s; rw_methods := m; rw_referrals := rw_referrals w; rw_next_referral := rw_next_referral w;
     rw_payouts := rw_payouts w; rw_next_payout := rw_next_payout w; rw_statements := rw_statements w; rw_log := rw_log w |}.

Section history.
Context `{HL : !HexLib, BC : !Bitcoin, PS : !PayServices}.

(** What may happen, however it ends. *)
Inductive happens : RefWorld -> RefWorld -> Prop :=
| Payouts h w : happens w (process_payouts h w).2
| Signup debug settings bytes uid req w : happens w (v1_signup_referral debug settings bytes uid req w).2
| Update debug settings uid req w : happens w (v1_update_referral debug settings uid req w).2
| Leave uid w : happens w (v1_delete_referral uid w).2
| AdminUpdate id req w : happens w (admin_update_referral id req w).2
| AdminPayout id req w : fits 64 (ac_amount req) -> happens w (admin_create_referral_payout id req w).2
| AdminRecord id payout_id req w : happens w (admin_update_referral_payout id payout_id req w).2
| Sold s m w : happens w (sold s m w).

Lemma happens_safe B r w w' (HN : fees_are_amounts) : backed w -> booked r w <= B ->
  (forall rf, rf ∈ rw_referrals w -> rf_id rf = r -> room B rf w) -> happens w w' -> backed w' /\ booked r w' <= B.
Proof.
  intros Hb HB Hroom Hh.
  assert (forall A (m : Job A), kindly m -> backed (m w).2 /\ booked r (m w).2 <= B) as Hkind.
  { intros A m Hm. destruct (Hm w Hb) as [? E]. split; [done|]. unfold booked. by rewrite E. }
  destruct Hh.
  - by apply (process_payouts_spec HN B r h w).
  - apply Hkind, kindly_signup.
  - apply Hkind, kindly_update.
  - apply Hkind, kindly_delete.
  - apply Hkind, kindly_admin_update.
  - by apply Hkind, kindly_admin_create.
  - apply Hkind, kindly_admin_update_payout.
  - split; [|done]. destruct Hb as [[] ? ?]. by split.
Qed.
End history.


(** ** A payment that fails *)

Section outcomes.
Context `{HL : !HexLib, BC : !Bitcoin, PS : !PayServices}.

Lemma executed_statement {A} (f : RefWorld -> A * RefWorld) w : fate (rw_statements w) = Executed ->
  statement f w = (Some (Ok (f (count_statement w)).1), (f (count_statement w)).2).
Proof. intros E. unfold statement. rewrite E. by destruct (f _). Qed.
Context (EX : forall n, fate n = Executed).
Lemma ends_executed {A} (f : RefWorld -> A * RefWorld) w Φ :
  (forall w1, quiet w w1 -> Φ (Some (Ok (f w1).1)) (f w1).2) -> ends (statement f) w Φ.
Proof using EX. intros HΦ. unfold ends. rewrite executed_statement by done. by apply HΦ. Qed.
Lemma ends_payable_executed rf min w Φ : (forall w1, quiet w w1 -> Φ (Some (Ok (to_pay rf min w))) w1) -> ends (payable rf min) w Φ.
Proof using EX.
  intros HΦ. apply (ends_mono _ _ (fun o w1 => quiet w w1 /\ o = Some (Ok (to_pay rf min w)))); [|by intros o w1 [Hq ->]; apply HΦ].
  unfold ends, payable, job_bind. cbn. unfold list_referral_usage, list_referral_payouts, query. by rewrite !executed_statement by done.
Qed.
Lemma filter_all {A} (P : A -> Prop) `{!forall x, Decision (P x)} (l : list A) : (forall x, x ∈ l -> P x) -> filter P l = l.
Proof.
  induction l as [|x l IH]; intros Hl; [done|]. rewrite filter_cons_True by (apply Hl; by left). f_equal. apply IH. intros y Hy. apply Hl. by right.
Qed.
(** The table without the row that was just added. *)
Lemma added_and_removed p w : tidy w -> po_id p = rw_next_payout w ->
  filter (fun q => po_id q <> po_id p) (rw_payouts w ++ [p]) = rw_payouts w.
Proof.
  intros Ht E. rewrite filter_app, (filter_none _ [p]), app_nil_r by (intros q ->%list_elem_of_singleton; tauto).
  apply filter_all. intros q Hq. pose proof (proj1 (Forall_forall _ _) (td_next _ Ht) q Hq). cbn in *. lia.
Qed.

(** The row is marked paid, names the invoice that the wallet of the referrer gave for
    the amount, and has the fee that the node reported when it paid that invoice. *)
Definition pays_row (rf : Referral) (p : Z) (w w' : RefWorld) (row : ReferralPayout) (e : Entry) : Prop :=
  po_referral_id row = rf_id rf /\ po_amount row = p /\ po_is_paid row = true /\
  exists invoice n resp, po_output row = Some invoice /\ invoice_for rf p w invoice /\
    rw_log w' !! n = Some e /\ en_call e = PayInvoice invoice 60 /\ po_id <$> en_rows e = [po_id row] /\ en_refused e = false /\
    reply n (PayInvoice invoice 60) = Some (Ok resp) /\ po_fee row = pi_fee_msat resp.
(** From the reservation on: the row is there, paid, or everything is as before and the
    node was not asked, or refused. *)
Definition one_paid (rf : Referral) (p : Z) (w : RefWorld) (o : option (res PayFail unit)) (w' : RefWorld) : Prop :=
  match o with
  | Some (Ok _) => exists row e, rw_payouts w' = rw_payouts w ++ [row] /\ payments w' = payments w ++ [e] /\ pays_row rf p w w' row e
  | Some (Err _) => rw_payouts w' = rw_payouts w /\
      (payments w' = payments w \/ exists e, payments w' = payments w ++ [e] /\ en_refused e = true)
  | None => True
  end.
Lemma invoice_for_quiet rf p w w' i : rw_methods w' = rw_methods w -> invoice_for rf p w' i -> invoice_for rf p w i.
Proof. unfold invoice_for. by intros ->. Qed.
Lemma settled_in_table id fee out pre row (l : list ReferralPayout) : po_id row = id -> (forall q, q ∈ l -> po_id q <> id) ->
  (fun old => if decide (po_id old = id) then
    {| po_id := po_id old; po_referral_id := po_referral_id old; po_amount := po_amount old; po_fee := fee;
       po_currency := po_currency old; po_is_paid := true; po_mode := po_mode row;
       po_output := out; po_pre_image := pre |} else old) <$> (l ++ [row]) = l ++ [settled fee out pre row].
Proof.
  intros Hid Hnew. rewrite fmap_app. cbn. rewrite decide_True by done. f_equal.
  rewrite <- (list_fmap_id l) at 2. apply list_fmap_ext. intros i q Hi%list_elem_of_lookup_2%Hnew. by rewrite decide_False.
Qed.
Lemma pay_reserved_outcome (HN : fees_are_amounts) rf p w : backed w -> fits 64 p -> ends (pay_reserved rf p) w (one_paid rf p w).
Proof using EX.
  intros Hb Hp. unfold pay_reserved. apply ends_bind, ends_executed. intros w1 Hq1. cbn [fst snd].
  pose proof (quiet_backed _ _ Hq1 Hb) as Hb1. set (id := rw_next_payout w1).
  set (row := with_payout_id id (reservation rf p (rf_mode rf))).
  set (w2 := set_payouts _ _ w1). assert (rw_payouts w2 = rw_payouts w ++ [row]) as E2 by (cbn; by rewrite (qt_payouts _ _ Hq1)).
  assert (kept (eq (po_referral_id row)) w1 w2) as Hk2 by by apply (appended_kept row).
  assert (payments w2 = payments w) as Ep2 by exact (qt_payments _ _ Hq1).
  assert (forall q, q ∈ rw_payouts w -> po_id q <> id) as Hnew.
  { intros q Hq. rewrite <- (qt_payouts _ _ Hq1) in Hq. pose proof (proj1 (Forall_forall _ _) (td_next _ Hb1) q Hq). cbn in *. lia. }
  apply ends_bind, ends_attempt. change p with (po_amount row) at 1. apply ends_commission; [done|apply Hk2| | |].
  - change (key row ∈ btc_keys (appended row w1)). rewrite btc_keys_app. apply elem_of_app. right. by left.
  - intros x Hx. rewrite (kp_paid _ _ _ Hk2) in Hx. apply paid_next in Hx; [|done]. cbn. unfold id. lia.
  - intros o w3 Hb3 Ho3 Er3 _ _ _ Htried. rewrite E2 in Er3. unfold attempted_payment in Htried. rewrite Ep2 in Htried.
    destruct o as [[[[b pre] fee]|e]|]; cbv beta iota; [| |done].
    + destruct Htried as (Hi & e & n & resp & Epay & Hn & Hc & Hrows & Href & Hreply & ->).
      apply ends_bind, ends_executed. intros w4 Hq4. cbn [fst snd]. cbv beta iota.
      apply ends_warned, (ends_call (Notify _ _ _ _)); [done|]. intros w5 Hq5. destruct (reply _ (Notify _ _ _ _)); [|done].
      exists (settled (pi_fee_msat resp) (Some b) pre row), e.
      assert (payments w5 = payments w ++ [e]) as E5.
      { rewrite (qt_payments _ _ Hq5), <- Epay. exact (qt_payments _ _ Hq4). }
      split_and!; [|done|split_and!; [done..|]].
      * rewrite (qt_payouts _ _ Hq5). cbn. rewrite (qt_payouts _ _ Hq4), Er3. by apply (settled_in_table id _ _ _ row).
      * exists b, n, resp. split_and!; [done| |by eapply prefix_lookup_Some, (qt_log _ _ Hq5); eapply prefix_lookup_Some, (qt_log _ _ Hq4)|done| |done..].
        -- eapply invoice_for_quiet, Hi. apply (qt_methods _ _ Hq1).
        -- by rewrite Hrows.
    + apply ends_bind, ends_warned, ends_executed. intros w4 Hq4. cbn.
      rewrite (qt_payouts _ _ Hq4), Er3. split.
      * pose proof (added_and_removed row w1 (bk_tidy _ Hb1) eq_refl) as E. rewrite (qt_payouts _ _ Hq1) in E. exact E.
      * destruct Htried as [E|(e0 & E & Hr)]; [left|right; exists e0; split; [|exact Hr]]; rewrite <- E; apply (qt_payments _ _ Hq4).
Qed.

Lemma process_one_outcome (HN : fees_are_amounts) rf min w : backed w -> ends (process_one rf min) w (fun o w' =>
  match to_pay rf min w with
  | Some p => one_paid rf p w o w'
  | None => rw_payouts w' = rw_payouts w /\ payments w' = payments w
  end).
Proof using EX.
  intros Hb. unfold process_one. apply ends_bind, ends_payable_executed. intros w1 Hq. cbv beta iota.
  destruct (to_pay rf min w) as [p|] eqn:Ep; [|by apply ends_done; split; apply Hq].
  eapply ends_mono; [apply pay_reserved_outcome; [done|by eapply quiet_backed|by eapply to_pay_fits]|].
  cbv beta. unfold one_paid, pays_row. rewrite (qt_payouts _ _ Hq), (qt_payments _ _ Hq).
  assert (forall i, invoice_for rf p w1 i <-> invoice_for rf p w i) as Hi.
  { intros i. unfold invoice_for. by rewrite (qt_methods _ _ Hq). }
  intros [[u|e]|] w2; [|done..]. by setoid_rewrite Hi.
Qed.

(** *** Nobody dies *)

Definition alive {A} (m : Job A) : Prop := forall w, (m w).1 <> None.
Context (AL : forall n c, reply n c <> None).
Lemma alive_bind {A B} (m : Job A) (k : A -> Job B) : alive m -> (forall a, alive (k a)) -> alive (job_bind m k).
Proof. intros Hm Hk w. unfold job_bind. specialize (Hm w). destruct (m w) as [[[a|e]|] w1]; [apply Hk|done..]. Qed.
Lemma alive_attempt {A} (m : Job A) : alive m -> alive (attempt m).
Proof. intros Hm w. unfold attempt. specialize (Hm w). by destruct (m w) as [[r|] w1]. Qed.
Lemma alive_done {A} (a : A) : alive (done a).
Proof. done. Qed.
Lemma alive_bail {A} e : alive (bail (A := A) e).
Proof. done. Qed.
Lemma alive_statement {A} (f : RefWorld -> A * RefWorld) : alive (statement f).
Proof using EX. intros w. by rewrite executed_statement. Qed.
Lemma alive_call rows c : alive (call_for rows c).
Proof using AL. intros w. apply AL. Qed.
Lemma alive_of_option {A} e (o : option A) : alive (of_option e o).
Proof. by destruct o. Qed.
Lemma alive_for_each {A} (f : A -> Job unit) l : (forall a, alive (f a)) -> alive (for_each f l).
Proof. intros Hf. induction l; [done|]. by apply alive_bind. Qed.
Lemma alive_collect {A B} (f : A -> Job B) l : (forall a, alive (f a)) -> alive (collect f l).
Proof. intros Hf. induction l; [done|]. apply alive_bind; [done|intros ?]. by apply alive_bind. Qed.
End outcomes.
#[export] Hint Resolve alive_done alive_bail alive_statement alive_call alive_of_option : alive.
Ltac alive_tac := repeat first
  [ progress unfold warned, call, query
  | apply alive_bind; [|intros ?]
  | apply alive_attempt
  | apply alive_for_each; intros ?
  | apply alive_collect; intros ?
  | match goal with |- alive (call_for ?r ?c) => refine (alive_call _ r c); assumption end
  | solve [auto with alive]
  | case_match; auto with alive ].

(** *** The log only grows *)

Section log.
Context `{HL : !HexLib, BC : !Bitcoin, PS : !PayServices}.

Definition grows {A} (m : Job A) : Prop := forall w, rw_log w `prefix_of` rw_log (m w).2.
Lemma grows_bind {A B} (m : Job A) (k : A -> Job B) : grows m -> (forall a, grows (k a)) -> grows (job_bind m k).
Proof. intros Hm Hk w. unfold job_bind. specialize (Hm w). destruct (m w) as [[[a|e]|] w1]; [etrans; [exact Hm|apply Hk]|exact Hm..]. Qed.
Lemma grows_attempt {A} (m : Job A) : grows m -> grows (attempt m).
Proof. intros Hm w. unfold attempt. specialize (Hm w). destruct (m w) as [[r|] w1]; exact Hm. Qed.
Lemma grows_done {A} (a : A) : grows (done a).
Proof. intros w. exists []. by rewrite app_nil_r. Qed.
Lemma grows_bail {A} e : grows (bail (A := A) e).
Proof. intros w. exists []. by rewrite app_nil_r. Qed.
Lemma grows_statement {A} (f : RefWorld -> A * RefWorld) : (forall w, rw_log (f w).2 = rw_log w) -> grows (statement f).
Proof.
  intros Hf w. specialize (Hf (count_statement w)). change (rw_log (count_statement w)) with (rw_log w) in Hf.
  unfold statement. destruct (fate _); [destruct (f _)|..]; cbn in *; rewrite ?Hf; reflexivity.
Qed.
Lemma grows_call rows c : grows (call_for rows c).
Proof. intros w. by apply prefix_app_r. Qed.
Lemma grows_of_option {A} e (o : option A) : grows (of_option e o).
Proof. destruct o; [apply grows_done|apply grows_bail]. Qed.
Lemma grows_for_each {A} (f : A -> Job unit) l : (forall a, grows (f a)) -> grows (for_each f l).
Proof. intros Hf. induction l; [apply grows_done|]. by apply grows_bind. Qed.
Lemma grows_collect {A B} (f : A -> Job B) l : (forall a, grows (f a)) -> grows (collect f l).
Proof. intros Hf. induction l; [apply grows_done|]. apply grows_bind; [done|intros ?]. apply grows_bind; [done|intros ?; apply grows_done]. Qed.
Lemma grows_payments w w' : rw_log w `prefix_of` rw_log w' -> exists k, payments w' = payments w ++ k.
Proof. intros [k E]. unfold payments. rewrite E, filter_app. by eexists. Qed.
End log.
#[export] Hint Resolve grows_done grows_bail grows_call grows_of_option : grows.
#[export] Hint Extern 1 (grows (statement _)) => apply grows_statement; intros ?; reflexivity : grows.
Ltac grows_tac := repeat first
  [ progress unfold warned, call, query
  | apply grows_bind; [|intros ?]
  | apply grows_attempt
  | apply grows_for_each; intros ?
  | apply grows_collect; intros ?
  | match goal with |- grows (call_for ?r ?c) => refine (grows_call r c) end
  | solve [auto with grows]
  | case_match; auto with grows ].

Section everyone.
Context `{HL : !HexLib, BC : !Bitcoin, PS : !PayServices}.
Context (HN : fees_are_amounts) (EX : forall n, fate n = Executed) (AL : forall n c, reply n c <> None).

Lemma alive_process_one rf min : alive (process_one rf min).
Proof using EX AL.
  unfold process_one, payable, list_referral_usage, list_referral_payouts, pay_reserved, pay_commission,
    insert_referral_payout, update_referral_payout, delete_referral_payout, nwc_make_invoice, list_user_payment_methods.
  alive_tac.
Qed.
Lemma alive_onchain cap l min : alive (process_onchain_batch cap l min).
Proof using EX AL.
  unfold process_onchain_batch, select_onchain, payable_onchain_msat, payable, list_referral_usage, list_referral_payouts, send_batch,
    reserve, record_payout, insert_referral_payout, update_referral_payout, delete_referral_payout.
  alive_tac.
Qed.
Lemma grows_process_one rf min : grows (process_one rf min).
Proof.
  unfold process_one, payable, list_referral_usage, list_referral_payouts, pay_reserved, pay_commission,
    insert_referral_payout, update_referral_payout, delete_referral_payout, nwc_make_invoice, list_user_payment_methods.
  grows_tac.
Qed.
Lemma grows_lightning min l : grows (for_each (pay_lightning min) l).
Proof. apply grows_for_each. intros rf. unfold pay_lightning. case_match; [apply grows_done|].
  unfold warned. apply grows_bind; [apply grows_attempt, grows_process_one|intros ?; apply grows_done].
Qed.
Lemma grows_onchain cap l min : grows (process_onchain_batch cap l min).
Proof.
  unfold process_onchain_batch, select_onchain, payable_onchain_msat, payable, list_referral_usage, list_referral_payouts, send_batch,
    reserve, record_payout, insert_referral_payout, update_referral_payout, delete_referral_payout.
  grows_tac.
Qed.
Lemma ends_grows {A} (m : Job A) w Φ : grows m -> ends m w Φ -> ends m w (fun o w1 => rw_log w `prefix_of` rw_log w1 /\ Φ o w1).
Proof. intros Hm HΦ. split; [apply Hm|done]. Qed.
Lemma ends_alive {A} (m : Job A) w Φ : alive m -> ends m w Φ -> ends m w (fun o w1 => o <> None /\ Φ o w1).
Proof. intros Hm HΦ. split; [apply Hm|done]. Qed.
Lemma warned_alive {A} (m : Job A) w Φ : alive m -> ends m w (fun _ w1 => Φ (Some (Ok tt)) w1) -> ends (warned m) w Φ.
Proof. intros Hm Hp. apply ends_warned. specialize (Hm w). unfold ends in *. by destruct (m w) as [[r|] w1]. Qed.
Lemma ends_for_each_app {A} (f : A -> Job unit) l1 l2 w Φ :
  ends (for_each f l1) w (fun o w1 => match o with Some (Ok _) => ends (for_each f l2) w1 Φ | _ => Φ o w1 end) ->
  ends (for_each f (l1 ++ l2)) w Φ.
Proof.
  revert w. induction l1 as [|x l1 IH]; intros w Hp; [exact Hp|]. cbn [app for_each] in *. apply ends_bind.
  unfold ends, job_bind in Hp |- *. destruct (f x w) as [[[[]|e]|] w1]; [|done..]. by apply IH.
Qed.
Lemma pass_returns min l w Φ : ends (for_each (pay_lightning min) l) w (fun _ w1 => Φ (Some (Ok tt)) w1) -> ends (for_each (pay_lightning min) l) w Φ.
Proof using EX AL.
  revert w. induction l as [|rf l IH]; intros w Hp; [done|]. cbn [for_each] in *.
  assert (exists w1, pay_lightning min rf w = (Some (Ok tt), w1)) as [w1 E].
  { unfold pay_lightning. case_bool_decide; [by eexists|]. unfold warned, job_bind, attempt.
    pose proof (alive_process_one rf min w). destruct (process_one rf min w) as [[o|] w1]; [by eexists|done]. }
  unfold ends, job_bind in Hp |- *. rewrite E in Hp |- *. by apply IH.
Qed.

Lemma only_to_pay X rf min w w' : only X w w' -> ~ X (rf_id rf) -> to_pay rf min w' = to_pay rf min w.
Proof.
  intros Ho Hx. unfold to_pay, earned_by. by rewrite (on_sales _ _ _ Ho), (on_referrals _ _ _ Ho), (on_rows _ _ _ Ho _ Hx).
Qed.

(** The wallet of a referrer answers, and the node pays its invoices. *)
Record obliging (a : string) (p : Z) : Prop := {
  ob_invoice n : exists i, reply n (LnurlInvoice a p) = Some (Ok i);
  ob_pay n n' i t : reply n (LnurlInvoice a p) = Some (Ok i) -> exists resp, reply n' (PayInvoice i t) = Some (Ok resp)
}.
Lemma obliging_pays rf a p w : rf_mode rf = LightningAddress -> payout_address rf = Some a -> obliging a p ->
  ends (pay_reserved rf p) w (fun o _ => o = Some (Ok tt)).
Proof using BC EX AL.
  intros Hm Ha Ho. unfold pay_reserved. apply ends_bind, (ends_executed EX). intros w1 _. cbn [fst snd].
  set (w2 := set_payouts _ _ w1). set (row := with_payout_id _ _).
  assert (ends (pay_commission row rf p) w2 (fun o _ => exists b pre fee, o = Some (Ok (b, pre, fee)))) as Hpay.
  { unfold pay_commission. rewrite Hm, Ha. apply ends_bind, ends_bind, ends_done. cbv beta iota.
    apply (ends_call (LnurlInvoice a p)); [done|]. intros w3 _.
    destruct (ob_invoice _ _ Ho (length (rw_log w2))) as [i Hi]. rewrite Hi. apply ends_bind. unfold ends, call_for. cbn [fst snd].
    destruct (ob_pay _ _ Ho _ (length (rw_log w3)) i 60 Hi) as [resp ->]. by repeat eexists. }
  apply ends_bind, ends_attempt. eapply ends_mono; [exact Hpay|]. cbv beta. intros _ w3 (b & pre & fee & ->). cbv beta iota.
  apply ends_bind, (ends_executed EX). intros w4 _. cbn [fst snd].
  apply ends_warned, (ends_call (Notify _ _ _ _)); [done|]. intros w5 _.
  match goal with |- context [reply ?n ?c] => pose proof (AL n c); by destruct (reply n c) end.
Qed.
Lemma obliging_lightning rf a min p w : backed w -> rf_mode rf = LightningAddress -> payout_address rf = Some a -> obliging a p ->
  to_pay rf min w = Some p -> ends (pay_lightning min rf) w (fun o w' => backed w' /\ only (eq (rf_id rf)) w w' /\ o = Some (Ok tt) /\
    exists row e, rw_payouts w' = rw_payouts w ++ [row] /\ payments w' = payments w ++ [e] /\ pays_row rf p w w' row e).
Proof using HN EX AL.
  intros Hb Hm Ha Ho Hp. destruct (pay_lightning_spec HN 0 min rf w Hb) as [(Hb' & Ho' & _) _].
  pose proof (process_one_outcome EX HN rf min w Hb) as Hout. rewrite Hp in Hout.
  assert (exists w1, process_one rf min w = (Some (Ok tt), w1)) as [w1 E].
  { unfold process_one, job_bind at 1.
    assert (ends (payable rf min) w (fun o _ => o = Some (Ok (to_pay rf min w)))) as Hpay by by apply ends_payable_executed.
    unfold ends in Hpay. destruct (payable rf min w) as [o w1]. cbn in Hpay. rewrite Hpay, Hp.
    exists (pay_reserved rf p w1).2. rewrite <- (obliging_pays rf a p w1 Hm Ha Ho). by destruct (pay_reserved rf p w1). }
  unfold ends in *. split_and!; [done..| |].
  - unfold pay_lightning. rewrite bool_decide_false by (by rewrite Hm). unfold warned, job_bind, attempt. by rewrite E.
  - unfold pay_lightning. rewrite bool_decide_false by (by rewrite Hm). unfold warned, job_bind, attempt.
    rewrite E in Hout |- *. exact Hout.
Qed.
End everyone.

(** One of the rows added for a referrer since [w], and one payment, are his payout of [p]. *)
Definition paid_out `{PS : !PayServices} (rf : Referral) (p : Z) (w w' : RefWorld) : Prop :=
  exists row e, rows_of (rf_id rf) w' = rows_of (rf_id rf) w ++ [row] /\
    (exists k1 k2, payments w' = payments w ++ k1 ++ e :: k2) /\ pays_row rf p w w' row e.
Lemma paid_out_later `{PS : !PayServices} rf p w w1 w2 : paid_out rf p w w1 ->
  rows_of (rf_id rf) w2 = rows_of (rf_id rf) w1 -> rw_log w1 `prefix_of` rw_log w2 -> paid_out rf p w w2.
Proof.
  intros (row & e & Hrow & (k1 & k2 & Hk) & Hpays) Er Hpre. exists row, e. split_and!; [by rewrite Er| |].
  - destruct (grows_payments _ _ Hpre) as [k E]. exists k1, (k2 ++ k). rewrite E, Hk. by rewrite <- !app_assoc.
  - destruct Hpays as (? & ? & ? & i & n & resp & Ho1 & Hi & Hn & Hrest). split_and!; [done..|].
    exists i, n, resp. split; [done|]. split; [done|]. split; [by eapply prefix_lookup_Some|done].
Qed.
(** Two passes on the lists around a referrer leave him alone. *)
Lemma around (rf : Referral) l : NoDup (rf_id <$> l) -> rf ∈ l -> exists l1 l2, l = l1 ++ rf :: l2 /\
  NoDup (rf_id <$> l1) /\ NoDup (rf_id <$> l2) /\ (forall x, x ∈ l1 -> x ∈ l) /\ (forall x, x ∈ l2 -> x ∈ l) /\
  (forall x, x ∈ l1 -> rf_id x <> rf_id rf) /\ (forall x, x ∈ l2 -> rf_id x <> rf_id rf).
Proof.
  intros Hn Hin. destruct (list_elem_of_split l rf Hin) as (l1 & l2 & ->). exists l1, l2.
  rewrite fmap_app, fmap_cons in Hn. apply NoDup_app in Hn as (Hn1 & Hn12 & [Hnot Hn2]%NoDup_cons). split_and!; [done..| | | |].
  - intros x Hx. apply elem_of_app. by left.
  - intros x Hx. apply elem_of_app. right. by right.
  - intros x Hx E. apply (Hn12 (rf_id rf)); [rewrite <- E; by apply list_elem_of_fmap_2|by left].
  - intros x Hx E. apply Hnot. rewrite <- E. by apply list_elem_of_fmap_2.
Qed.

(** C8: When every statement is executed and answered and every call is answered, a run
    pays each Lightning referrer whose wallet gives invoices and whose invoices the
    node pays, what he is owed, in whole satoshis, once it reaches his minimum: one row
    more for him, marked paid, with that amount, the invoice and the fee, and in the
    run one payment of that invoice, which came from his wallet for that amount, asked
    for that row and answered with success; whatever errors the other referrers'
    wallets, payments and messages are answered with. The tables are as any history of
    the job leaves them ([backed]), and the fees that the node reports not negative. *)
Theorem owed_commission_is_paid `{HL : !HexLib, BC : !Bitcoin, PS : !PayServices} h min rf a p w
    (HN : fees_are_amounts) (EX : forall n, fate n = Executed) (AL : forall n c, reply n c <> None) (Hb : backed w)
    (Hmin : ph_min_payout_msat h = Some min) (Hin : rf ∈ rw_referrals w) (Hm : rf_mode rf = LightningAddress)
    (Ha : payout_address rf = Some a) (Ho : obliging a p) (Hp : to_pay rf min w = Some p) :
  exists row e k1 k2 w', process_payouts h w = (Some (Ok tt), w') /\ rows_of (rf_id rf) w' = rows_of (rf_id rf) w ++ [row] /\
    payments w' = payments w ++ k1 ++ e :: k2 /\ pays_row rf p w w' row e.
Proof.
  enough (ends (process_payouts h) w (fun o w' => o = Some (Ok tt) /\ paid_out rf p w w')) as [E (row & e & Hrow & (k1 & k2 & Hk) & Hpays)].
  { exists row, e, k1, k2, (process_payouts h w).2. split; [|done]. by destruct (process_payouts h w); cbn in *; subst. }
  unfold process_payouts. apply ends_bind, (ends_executed EX). intros w1 Hq1. cbn [fst snd]. rewrite (qt_referrals _ _ Hq1), Hmin.
  pose proof (quiet_backed _ _ Hq1 Hb) as Hb1. pose proof (td_referrals _ Hb) as Hn.
  set (r0 := rw_next_referral w).
  assert (forall (k : list Referral) B u, (forall x, x ∈ k -> x ∈ rw_referrals w) -> forall x, x ∈ k -> rf_id x = r0 -> room B x u) as Hroom.
  { intros k B u Hk x Hx E. pose proof (proj1 (Forall_forall _ _) (td_next_referral _ Hb) x (Hk x Hx)). cbn in *. unfold r0 in E. lia. }
  set (l := rw_referrals w) in *. destruct (around rf l Hn Hin) as (l1 & l2 & El & Hn1 & Hn2 & Hl1 & Hl2 & Hd1 & Hd2).
  apply ends_bind, (pass_returns EX AL). rewrite El at 1. apply ends_for_each_app, (pass_returns EX AL).
  eapply ends_mono; [apply ends_grows, (lightning_pass HN (booked r0 w1) r0); [apply grows_lightning|done..|by apply Hroom]|].
  cbv beta. intros _ w2 (Hpre2 & Hb2 & Ho2 & _).
  assert (~ on_list l1 (rf_id rf)) as Hrf1 by (intros (x & Hx & E & _); by apply (Hd1 x)).
  cbn [for_each]. apply ends_bind. eapply ends_mono.
  { apply (obliging_lightning HN EX AL rf a min p); [done..|]. rewrite (only_to_pay _ _ _ _ _ Ho2 Hrf1). by rewrite (quiet_to_pay _ _ _ _ Hq1). }
  cbv beta. intros o w3 (Hb3 & Ho3 & -> & row & e & Erow & Epay & Hpays). cbv beta iota.
  assert (paid_out rf p w w3) as H3.
  { exists row, e. split_and!.
    - transitivity (rows_of (rf_id rf) w2 ++ [row]).
      + unfold rows_of. rewrite Erow, filter_app. f_equal. rewrite filter_cons_True; [done|apply Hpays].
      + rewrite (on_rows _ _ _ Ho2 _ Hrf1). unfold rows_of. by rewrite (qt_payouts _ _ Hq1).
    - destruct (grows_payments _ _ Hpre2) as [k E]. exists k, []. rewrite Epay, E, (qt_payments _ _ Hq1). by rewrite <- app_assoc.
    - unfold pays_row, invoice_for in Hpays |- *. by rewrite Hm in Hpays |- *. }
  apply (pass_returns EX AL).
  eapply ends_mono; [apply ends_grows, (lightning_pass HN (booked r0 w3) r0); [apply grows_lightning|done..|by apply Hroom]|].
  cbv beta. intros _ w4 (Hpre4 & Hb4 & Ho4 & _).
  assert (paid_out rf p w w4) as H4.
  { apply (paid_out_later _ _ _ w3); [done| |done]. apply (on_rows _ _ _ Ho4). intros (x & Hx & E & _). by apply (Hd2 x). }
  destruct (ph_onchain h), (ph_min_onchain_payout_msat h) as [min'|]; try (apply ends_done; by split).
  apply warned_alive; [by apply alive_onchain|].
  eapply ends_mono; [apply ends_grows, (onchain_pass HN (booked r0 w4) r0); [apply grows_onchain|done..|intros x Hx Hid _; by apply (Hroom l)]|].
  cbv beta. intros _ w5 (Hpre5 & Hb5 & Ho5 & _). split; [done|]. apply (paid_out_later _ _ _ w4); [done| |done].
  apply (on_rows _ _ _ Ho5). intros (x & Hx & E & Hmode). rewrite (NoDup_key rf_id l x rf Hn Hx Hin E) in Hmode. congruence.
Qed.

(** C26: When every statement is executed and answered, paying one referrer who is owed
    something ends in one of two ways: there is one row more, marked paid, for what he
    is owed, and one payment more, of the invoice that his wallet gave for that amount,
    which the node answered with success; or the run reports an error, the rows are as
    they were, and the node was asked for nothing, or answered the one payment with an
    error. When nothing is due, no row and no payment is made. The tables are as any
    history of the job leaves them ([backed]), and the fees that the node reports not
    negative. *)
Theorem payout_is_all_or_nothing `{HL : !HexLib, BC : !Bitcoin, PS : !PayServices} rf min w o w'
    (HN : fees_are_amounts) (EX : forall n, fate n = Executed) (Hb : backed w) (Hrun : process_one rf min w = (Some o, w')) :
  match to_pay rf min w, o with
  | Some p, Ok _ => exists row e, rw_payouts w' = rw_payouts w ++ [row] /\ payments w' = payments w ++ [e] /\ pays_row rf p w w' row e
  | Some _, Err _ => rw_payouts w' = rw_payouts w /\
      (payments w' = payments w \/ exists e, payments w' = payments w ++ [e] /\ en_refused e = true)
  | None, _ => rw_payouts w' = rw_payouts w /\ payments w' = payments w
  end.
Proof.
  pose proof (process_one_outcome EX HN rf min w Hb) as H. unfold ends in H. rewrite Hrun in H.
  by destruct (to_pay rf min w), o.
Qed.
