(* ===== verification/ReferralWitness.v ===== *)
(** * Referrers, their wallets and what can go wrong

    Two referrers with ten thousand satoshis each, a node and a wallet with concrete
    answers; the theorems at them; and runs that show what the documentation of the
    payouts does not say. *)

From Stdlib Require Import Ascii String SpecFloat.
From stdpp Require Import list sorting.
From S2P Require Import Prelude NetText IpAlloc Network HostTypes Exchange Referral ReferralApi ReferralProofs ReferralHistory.

Module ReferralRuns.
#[export] Instance hex : HexLib := fun _ => Some [].
(** Addresses are their own scripts; every raw transaction pays the same address twice. *)
#[export] Instance bitcoin : Bitcoin := {|
  Address := string; Script := string; Tx := list string;
  address_from_str := fun s => if String.index 0 "@" s then None else Some s;
  on_mainnet := fun _ => true; on_regtest := fun _ => false; script_pubkey := fun a => a;
  deserialize := fun _ => Some ["bc1same"; "bc1same"]%string; tx_output := fun t => t; vsize := fun _ => 140;
  invoice_msat := fun i => if String.eqb i "lnbc10k" then 10000000 else if String.eqb i "lnbc1m" then 1000000000 else 0
|}.
(** The node pays what [pays] says, [leaks] when a payment that failed went through,
    and wallets answer with the invoice [nwc]. *)
Definition services (fate : nat -> Fate) (pays leaks : bool) (nwc : string) : PayServices := {|
  fate := fate;
  reply := fun _ c => match c return option (res PayFail (Reply c)) with
    | LnurlInvoice _ m => Some (if m =? 10000000 then Ok "lnbc10k"%string else Err Remote)
    | NwcInvoice _ m => Some (if m =? 10000000 then Ok nwc else Err Remote)
    | PayInvoice _ _ => Some (if pays then Ok {| pi_payment_preimage := None; pi_fee_msat := 2000 |} else Err Remote)
    | FeeRate => Some (Ok 10)
    | SendCoins req =>
        Some (if forallb (fun o => match address_from_str (out_address o) with Some _ => true | None => false end) (rq_outputs req)
              then Ok {| rs_txid := "txid"; rs_raw_tx := Some "00"%string; rs_fee := Some 300000 |} else Err Remote)
    | ResolveLnurl _ => Some (Ok tt)
    | Notify _ _ _ _ => Some (Ok tt)
    end;
  moved := fun _ c => match c with
    | PayInvoice _ _ => pays || leaks
    | SendCoins req => forallb (fun o => match address_from_str (out_address o) with Some _ => true | None => false end) (rq_outputs req)
    | _ => false
    end
|}.
Definition fine (n : nat) : Fate := Executed.
Definition good : PayServices := services fine true false "lnbc10k".

Definition sales : Sales := {|
  sl_vms := [{| sv_id := 1; sv_ref_code := Some "alice"%string; sv_host_id := 1; sv_line_item_id := 1 |};
             {| sv_id := 2; sv_ref_code := Some "bob"%string; sv_host_id := 1; sv_line_item_id := 2 |}];
  sl_items := [{| si_id := 1; si_subscription_id := 1; si_type := 3 |}; {| si_id := 2; si_subscription_id := 2; si_type := 3 |}];
  sl_payments := [{| sp_subscription_id := 1; sp_created := 5; sp_amount := 900000000; sp_currency := "BTC"; sp_rate := one; sp_is_paid := true |};
                  {| sp_subscription_id := 1; sp_created := 4; sp_amount := 100000000; sp_currency := "BTC"; sp_rate := one; sp_is_paid := true |};
                  {| sp_subscription_id := 2; sp_created := 4; sp_amount := 100000000; sp_currency := "BTC"; sp_rate := one; sp_is_paid := true |}];
  sl_hosts := [(1, 1)]; sl_regions := [(1, 1)];
  sl_companies := [{| co_id := 1; co_base_currency := "EUR"; co_referral_rate := Flt.of_Z 24 128 10 |}]
|}.
Definition referrer (id : Z) (code : string) (mode : ReferralPayoutMode) (address : string) : Referral :=
  {| rf_id := id; rf_user_id := id; rf_code := code; rf_address := Some address; rf_mode := mode; rf_rate := None;
     rf_payout_threshold := None |}.
Definition alice : Referral := referrer 1 "alice" LightningAddress "alice@wallet".
Definition bob : Referral := referrer 2 "bob" OnChainMode "bc1same".
Definition world (l : list Referral) : RefWorld := {|
  rw_sales := sales;
  rw_methods := [{| um_id := 1; um_user_id := 1; um_provider := "nwc"; um_external_id := "nostr"; um_enabled := true; um_is_default := true |}];
  rw_referrals := l; rw_next_referral := 10; rw_payouts := []; rw_next_payout := 1; rw_statements := 0; rw_log := []
|}.
Definition handler : ReferralPayoutHandler := ReferralPayoutHandler_new (Some 1000) true (Some 1000) 50.
Definition run (s : PayServices) (w : RefWorld) : RefWorld := (@process_payouts hex bitcoin s handler w).2.
Definition rows (w : RefWorld) : list (Z * Z * Z * bool) := (fun p => (po_referral_id p, po_amount p, po_fee p, po_is_paid p)) <$> rw_payouts w.

(** One run pays both, the fees are theirs, and a second run pays nothing more. *)
Example run_pays : rows (run good (world [alice; bob])) = [(1, 10000000, 2000, true); (2, 10000000, 300000, true)] /\
  rows (run good (run good (world [alice; bob]))) = rows (run good (world [alice; bob])).
Proof. split; vm_compute; reflexivity. Qed.

(** A referrer changes his mode and keeps his Lightning address: the transaction of
    everybody is refused for it, run after run, and nobody is paid on chain. *)
Example one_address_blocks_the_batch :
  let patch := {| pr_address := None; pr_mode := Some "on_chain"%string; pr_payout_threshold := None |} in
  let w := (@v1_update_referral bitcoin good false None 1 patch (world [alice; bob])).2 in
  (rf_mode <$> rw_referrals w) = [OnChainMode; OnChainMode] /\ rows (run good w) = [] /\ rows (run good (run good w)) = [] /\
  rows (run good (world [bob])) = [(2, 10000000, 300000, true)].
Proof. vm_compute. done. Qed.

(** Two referrers with one address are both recorded at its first output. *)
Example one_outpoint_for_two :
  po_output <$> rw_payouts (run good (world [referrer 1 "alice" OnChainMode "bc1same"; bob])) =
    [Some "txid:0"; Some "txid:0"]%string.
Proof. vm_compute. done. Qed.

(** Two runs that read the balance before either reserved: both pay. *)
Example concurrent_runs_pay_twice :
  let w := world [alice] in
  let first := @payable good alice 1000000 w in
  let second := @payable good alice 1000000 first.2 in
  first.1 = Some (Ok (Some 10000000)) /\ second.1 = Some (Ok (Some 10000000)) /\
  sent 1 (@pay_reserved hex good alice 10000000 (@pay_reserved hex good alice 10000000 second.2).2).2 = 20000000.
Proof. vm_compute. done. Qed.

(** A payment that is reported as failed while it is under way is made again. *)
Example failed_payment_is_repeated :
  let late := services fine false true "lnbc10k" in
  let w := run late (run late (world [alice])) in
  rows w = [] /\ sent 1 w = 20000000 /\ sent_by_failures 1 w = 20000000.
Proof. vm_compute. done. Qed.

(** The database refuses the second reservation of a batch: the first one stays, and
    its referrer is not paid again. *)
Example refused_reservation_strands_another :
  let refuses n := if Nat.eqb n 6 then Rejected else Executed in
  let w := run (services refuses true false "lnbc10k") (world [referrer 1 "alice" OnChainMode "bc1alice"; bob]) in
  rows w = [(1, 10000000, 0, false)] /\ rows (run good w) = [(1, 10000000, 0, false); (2, 10000000, 300000, true)].
Proof. vm_compute. done. Qed.

(** The invoice of a wallet is paid whatever it asks for. *)
Example wallet_names_its_price :
  let w := run (services fine true false "lnbc1m") (world [referrer 1 "alice" Nwc ""]) in
  rows w = [(1, 10000000, 2000, true)] /\ sent 1 w = 1000000000 /\ sent_beyond 1 w = 990000000.
Proof. vm_compute. done. Qed.

Lemma good_fees : @fees_are_amounts good.
Proof. by intros n i t resp [= <-]. Qed.
Lemma world_tidy : tidy (world [alice; bob]).
Proof. split; cbn; [constructor|constructor|constructor| |by repeat constructor]. apply (bool_decide_unpack _). by vm_compute. Qed.
Lemma world_backed : backed (world [alice; bob]).
Proof. split; [apply world_tidy|constructor|]. by intros x ?%not_elem_of_nil. Qed.
End ReferralRuns.
Import ReferralRuns.

Lemma fee_is_split_exactly_witness : total (split_fee_proportional [2000000; 1000000; 1000000] 301) = 301.
Proof. apply (fee_is_split_exactly [2000000; 1000000; 1000000] 301); [repeat (apply Forall_cons; split; [by split|]); by apply Forall_nil|by split|by split]. Defined.
Lemma owed_commission_is_paid_witness : exists row e k1 k2 w',
  @process_payouts hex bitcoin good handler (world [alice; bob]) = (Some (Ok tt), w') /\
  rows_of 1 w' = [] ++ [row] /\ payments w' = [] ++ k1 ++ e :: k2 /\ @pays_row good alice 10000000 (world [alice; bob]) w' row e.
Proof.
  apply (owed_commission_is_paid (PS := good) handler 1000000 alice "alice@wallet" 10000000 (world [alice; bob]) good_fees).
  - done.
  - intros n []; cbn; try done; by case_match.
  - apply world_backed.
  - done.
  - by left.
  - done.
  - done.
  - split; [by eexists|]. intros n n' i t _. by eexists.
  - by vm_compute.
Defined.
Lemma payout_is_all_or_nothing_witness :
  let w' := (@process_one hex good alice 1000000 (world [alice; bob])).2 in
  exists row e, rw_payouts w' = [] ++ [row] /\ payments w' = [] ++ [e] /\ @pays_row good alice 10000000 (world [alice; bob]) w' row e.
Proof.
  assert (@process_one hex good alice 1000000 (world [alice; bob]) =
    (Some (Ok tt), (@process_one hex good alice 1000000 (world [alice; bob])).2)) as Hrun by by vm_compute.
  pose proof (payout_is_all_or_nothing (PS := good) alice 1000000 (world [alice; bob]) (Ok tt) _ good_fees (fun _ => eq_refl) world_backed Hrun) as H.
  assert (to_pay alice 1000000 (world [alice; bob]) = Some 10000000) as Hp by by vm_compute.
  rewrite Hp in H. exact H.
Defined.
