(* ===== verification/Orders.v ===== *)
(** * Orders: machines sold and imported
    ([lnvps_api/src/provisioner/vm.rs])

    An order writes the rows of a machine and of what it is paid by; nothing is made
    on a host. Subscriptions, line items, machines and their
    history are those of [SubDb.World], the tables that are only read those of
    [Pricing.Catalog]. A statement may be refused, which changes nothing; what the
    pricing engine and the capacity service read of the tables counts as one
    statement each. Texts of messages and of history entries are left out. *)

From Stdlib Require Import Ascii String SpecFloat.
From stdpp Require Import list gmap pretty.
From S2P Require Import Prelude TryProcedure NetText IpAlloc Network HostTypes Exchange Capacity SubDb Pricing Renewal.

(** ** Rows *)

(** What a machine may use of a disk and of the network, and of its processors. *)
Record VmLimits := {
  disk_iops_read : option Z; disk_iops_write : option Z; disk_mbps_read : option Z; disk_mbps_write : option Z;
  network_mbps : option Z; cpu_limit : option f32
}.
(** [vm_template], [vm_custom_pricing], [vm_custom_template], [vm_host_disk]: the
    columns of the other components, and the ones that orders read as well. *)
Record PlanRow := {
  pt_template : VmTemplate; pt_name : string; pt_expires : option Z; pt_firewall_rule_limit : option Z
}.
Record OfferRow := { of_pricing : VmCustomPricing; of_name : string; of_expires : option Z; of_limits : VmLimits }.
Record SpecRow := { sp_template : VmCustomTemplate; sp_limits : VmLimits; sp_firewall_rule_limit : option Z }.
Record DiskRow := { dr_disk : VmHostDisk; dr_name : string }.
Record UserSshKey := { k_id : Z; k_user_id : Z }.
Record VmOsImage := { im_id : Z; im_enabled : bool; im_cpu_arch : CpuArch }.
Record HostVmSpec := {
  hv_host_vm_id : Z; hv_mapped_vm_id : option Z; hv_cpu : Z; hv_memory : Z; hv_disk_size : Z;
  hv_disk_storage : option string; hv_mac_address : option string
}.
(** [host::VmResources] *)
Record Specs := { rs_cpu : Z; rs_memory : Z; rs_disk_size : Z }.

(** ** The world *)

Inductive OrderFail : Type :=
| Sql | RowNotFound | DuplicateKey | Crashed
| KeyNotYours | OfferDisabled | OfferExpired | ImageDisabled | WrongArch | NoHostAvailable | NoHostDisk
| Failed (e : Fail) | NoClient | HostFailed | NotOnHost | OutsideManagedRange | AlreadyTracked | NoRegionPricing
| NoOsImage | NotStandardTemplate | NotCustomTemplate | NoCompatiblePricing | CannotDowngrade | NoSshKey.

(** What is asked of a host: connections, the list of its machines, and the rest. *)
Inductive HostCall : Type :=
| Connect (h : Z) | ListVms (h : Z) | Stop (h vm : Z) | Resize (h vm : Z) (to : option Specs)
| Configure (h vm : Z) (to : option Specs) | Start (h vm : Z).
Class OrderServices := {
  sql_ok : nat -> bool;
  host_answers : nat -> HostCall -> OpResult unit OrderFail;
  host_vms : nat -> Z -> list HostVmSpec
}.

Record NextIds := { n_sub : Z; n_item : Z; n_vm : Z; n_spec : Z }.
Section world.
Context `{!PaymentsRs, !IsoCountry}.

Record OrderWorld := {
  o_world : World; o_base : Catalog; o_regions : gmap Z bool; o_ip_ranges : list IpRange;
  o_plans : list PlanRow; o_offers : list OfferRow; o_specs : list SpecRow; o_disks : list DiskRow;
  o_keys : list UserSshKey; o_images : list VmOsImage;
  o_image_id : gmap Z Z; o_ref_code : gmap Z string;
  o_next : NextIds; o_queries : nat; o_log : list (HostCall * OpResult unit OrderFail);
  o_notified : list (Z * Z * option Specs)
}.
Definition set_rows (x : World) (specs : list SpecRow) (images : gmap Z Z) (codes : gmap Z string) (next : NextIds)
    (w : OrderWorld) : OrderWorld :=
  {| o_world := x; o_base := o_base w; o_regions := o_regions w; o_ip_ranges := o_ip_ranges w; o_plans := o_plans w;
     o_offers := o_offers w; o_specs := specs; o_disks := o_disks w; o_keys := o_keys w; o_images := o_images w;
     o_image_id := images; o_ref_code := codes; o_next := next; o_queries := o_queries w; o_log := o_log w;
     o_notified := o_notified w |}.
Definition set_logs (queries : nat) (log : list (HostCall * OpResult unit OrderFail))
    (notified : list (Z * Z * option Specs)) (w : OrderWorld) : OrderWorld :=
  {| o_world := o_world w; o_base := o_base w; o_regions := o_regions w; o_ip_ranges := o_ip_ranges w;
     o_plans := o_plans w; o_offers := o_offers w; o_specs := o_specs w; o_disks := o_disks w; o_keys := o_keys w;
     o_images := o_images w; o_image_id := o_image_id w; o_ref_code := o_ref_code w; o_next := o_next w;
     o_queries := queries; o_log := log; o_notified := notified |}.
Definition set_world (x : World) (w : OrderWorld) : OrderWorld :=
  set_rows x (o_specs w) (o_image_id w) (o_ref_code w) (o_next w) w.
Definition set_specs (f : list SpecRow -> list SpecRow) (next : NextIds) (w : OrderWorld) : OrderWorld :=
  set_rows (o_world w) (f (o_specs w)) (o_image_id w) (o_ref_code w) next w.
Definition bump (w : OrderWorld) : OrderWorld := set_logs (S (o_queries w)) (o_log w) (o_notified w) w.

(** What the pricing engine and the capacity service see of the tables. *)
Definition catalog (w : OrderWorld) : Catalog :=
  let b := o_base w in
  {| cat_users := cat_users b; cat_companies := cat_companies b; cat_regions := cat_regions b; cat_hosts := cat_hosts b;
     cat_templates := pt_template <$> o_plans w; cat_cost_plans := cat_cost_plans b;
     cat_custom_templates := sp_template <$> o_specs w; cat_pricings := of_pricing <$> o_offers w;
     cat_pricing_disks := cat_pricing_disks b; cat_ips := cat_ips b; cat_configs := cat_configs b;
     cat_rates := cat_rates b; cat_vat := cat_vat b |}.
Definition cap_db (w : OrderWorld) : CapDb :=
  {| regions := o_regions w; vm_hosts := cat_hosts (o_base w); host_disks := dr_disk <$> o_disks w;
     vms := w_vms (o_world w); vm_templates := pt_template <$> o_plans w;
     custom_templates := list_to_map ((fun s => (ct_id (sp_template s), sp_template s)) <$> o_specs w);
     line_items := list_to_map ((fun i => (li_id i, li_subscription_id i)) <$> w_items (o_world w));
     subscription_is_setup := list_to_map ((fun s => (s_id s, s_is_setup s)) <$> w_subs (o_world w));
     net_db := {| ip_ranges := o_ip_ranges w; assignments := cat_ips (o_base w) |} |}.

End world.

(** ** Operations that may fail *)

Notation "'Ord' A" := (ST OrderWorld (res OrderFail A)) (at level 20).
Section monad.
Context `{!PaymentsRs, !IsoCountry}.
Definition ord_bind {A B} (m : Ord A) (k : A -> Ord B) : Ord B :=
  r ← m; match r with Ok a => k a | Err e => mret (Err e) end.
End monad.
Notation "x ←o m ; k" := (ord_bind m (fun x => k)) (at level 20, m at level 100, k at level 200).
Notation "m ;o k" := (ord_bind m (fun _ => k)) (at level 100, k at level 200, right associativity).
Section orders.
Context `{!PaymentsRs, !IsoCountry, !NetLib, !Clock, !OrderServices}.

Definition fine {A} (a : A) : Ord A := mret (Ok a).
Definition failing {A} (e : OrderFail) : Ord A := mret (Err e).
Definition require (b : bool) (e : OrderFail) : Ord unit := if b then fine tt else failing e.
Definition or_fail {A} (o : option A) (e : OrderFail) : Ord A := match o with Some a => fine a | None => failing e end.
Definition of_fail {A} (r : res Fail A) : res OrderFail A :=
  match r with Ok a => Ok a | Err SubDb.NotFound => Err RowNotFound | Err e => Err (Failed e) end.
Definition on_world {A} (m : ST World A) : ST OrderWorld A := fun w =>
  let '(a, x) := m (o_world w) in (a, set_world x w).

Definition statement {A} (m : Ord A) : Ord A := fun w =>
  if sql_ok (o_queries w) then m (bump w) else (Err Sql, bump w).
Definition query {A} (f : OrderWorld -> A) : Ord A := statement (fun w => (Ok (f w), w)).
(** [fetch_one] *)
Definition query_one {A} (f : OrderWorld -> list A) : Ord A := statement (fun w => (ok_or RowNotFound (head (f w)), w)).
Definition on_rows {A} (m : Act A) : Ord A := statement (on_world (r ← m; mret (of_fail r))).
Definition utc_now : ST OrderWorld Z := on_world now.

(** ** The database *)

Definition get_user (id : Z) : Ord User := query_one (fun w => filter (fun u => u_id u = id) (cat_users (o_base w))).
Definition get_host (id : Z) : Ord VmHost := query_one (fun w => filter (fun h => h_id h = id) (cat_hosts (o_base w))).
Definition get_host_region (id : Z) : Ord Region :=
  query_one (fun w => filter (fun r => Pricing.r_id r = id) (cat_regions (o_base w))).
Definition get_cost_plan (id : Z) : Ord VmCostPlan :=
  query_one (fun w => filter (fun p => cp_id p = id) (cat_cost_plans (o_base w))).
Definition get_vm_template (id : Z) : Ord PlanRow :=
  query_one (fun w => filter (fun p => t_id (pt_template p) = id) (o_plans w)).
Definition get_custom_pricing (id : Z) : Ord OfferRow :=
  query_one (fun w => filter (fun p => vp_id (of_pricing p) = id) (o_offers w)).
Definition get_custom_vm_template (id : Z) : Ord SpecRow :=
  query_one (fun w => filter (fun s => ct_id (sp_template s) = id) (o_specs w)).
Definition get_os_image (id : Z) : Ord VmOsImage := query_one (fun w => filter (fun i => im_id i = id) (o_images w)).
Definition get_user_ssh_key (id : Z) : Ord UserSshKey := query_one (fun w => filter (fun k => k_id k = id) (o_keys w)).
Definition get_host_disk (id : Z) : Ord DiskRow := query_one (fun w => filter (fun d => d_id (dr_disk d) = id) (o_disks w)).
Definition get_vm (id : Z) : Ord Vm := query_one (fun w => filter (fun v => v_id v = id) (w_vms (o_world w))).
Definition list_custom_pricing (region : Z) : Ord (list OfferRow) :=
  query (fun w => filter (fun p => vp_region_id (of_pricing p) = region) (o_offers w)).
Definition list_custom_pricing_disk (pricing : Z) : Ord (list VmCustomPricingDisk) :=
  query (fun w => filter (fun d => pd_pricing_id d = pricing) (cat_pricing_disks (o_base w))).
Definition list_host_disks (host : Z) : Ord (list DiskRow) :=
  query (fun w => filter (fun d => d_host_id (dr_disk d) = host /\ d_enabled (dr_disk d) = true) (o_disks w)).
Definition list_os_image : Ord (list VmOsImage) := query o_images.

(** The rows as they are stored. *)
Definition stored_subscription (id : Z) (s : Subscription) : Subscription :=
  {| s_id := id; s_user_id := s_user_id s; s_company_id := s_company_id s; s_name := s_name s;
     s_description := s_description s; s_created := whole_seconds (s_created s); s_expires := whole_seconds <$> s_expires s;
     s_is_active := s_is_active s; s_is_setup := s_is_setup s; s_currency := s_currency s;
     s_interval_amount := s_interval_amount s; s_interval_type := s_interval_type s; s_setup_fee := s_setup_fee s;
     s_auto_renewal_enabled := s_auto_renewal_enabled s; s_external_id := s_external_id s |}.
Definition stored_item (id sub : Z) (li : SubscriptionLineItem) : SubscriptionLineItem :=
  {| li_id := id; li_subscription_id := sub; li_type := li_type li; li_name := li_name li;
     li_description := li_description li; li_amount := li_amount li; li_setup_amount := li_setup_amount li;
     li_configuration := li_configuration li |}.
(** One transaction. *)
Definition insert_subscription_with_line_items (s : Subscription) (l : list SubscriptionLineItem) : Ord (Z * list Z) :=
  statement (fun w =>
    let n := o_next w in
    let items := imap (fun i => stored_item (n_item n + Z.of_nat i) (n_sub n)) l in
    let next := {| n_sub := n_sub n + 1; n_item := n_item n + Z.of_nat (length l); n_vm := n_vm n; n_spec := n_spec n |} in
    (Ok (n_sub n, li_id <$> items),
     set_rows (set_items (fun old => old ++ items) (set_subs (fun old => old ++ [stored_subscription (n_sub n) s]) (o_world w)))
       (o_specs w) (o_image_id w) (o_ref_code w) next w)).
(** The row of a machine: an insert leaves the defaults in the other columns. *)
Definition add_vm (id : Z) (vm : Vm) (image : Z) (code : option string) (w : OrderWorld) : OrderWorld :=
  let row := {| v_id := id; v_host_id := v_host_id vm; v_template_id := v_template_id vm;
    v_custom_template_id := v_custom_template_id vm; v_subscription_line_item_id := v_subscription_line_item_id vm;
    v_disk_id := v_disk_id vm; v_deleted := false; v_user_id := v_user_id vm; v_ssh_key_id := v_ssh_key_id vm;
    v_mac_address := v_mac_address vm |} in
  let n := o_next w in
  set_rows (set_vms (fun old => old ++ [row]) (o_world w)) (o_specs w) (<[id := image]> (o_image_id w))
    (match code with Some c => <[id := c]> (o_ref_code w) | None => delete id (o_ref_code w) end)
    {| n_sub := n_sub n; n_item := n_item n; n_vm := Z.max (n_vm n) (id + 1); n_spec := n_spec n |} w.
Definition insert_vm (vm : Vm) (image : Z) (code : option string) : Ord Z :=
  statement (fun w => let id := n_vm (o_next w) in (Ok id, add_vm id vm image code w)).
(** The key of another row, deleted or not, is refused. *)
Definition insert_vm_with_id (vm : Vm) (image : Z) (code : option string) : Ord unit :=
  statement (fun w =>
    if bool_decide (v_id vm ∈ v_id <$> w_vms (o_world w)) then (Err DuplicateKey, w)
    else (Ok tt, add_vm (v_id vm) vm image code w)).
(** The columns that an update sets, among those modelled. *)
Definition update_vm (vm : Vm) : Ord unit := on_rows (exec (set_vms (fmap (fun old => if decide (v_id old = v_id vm) then
  {| v_id := v_id old; v_host_id := v_host_id old; v_template_id := v_template_id vm;
     v_custom_template_id := v_custom_template_id vm; v_subscription_line_item_id := v_subscription_line_item_id vm;
     v_disk_id := v_disk_id vm; v_deleted := v_deleted old; v_user_id := v_user_id old; v_ssh_key_id := v_ssh_key_id vm;
     v_mac_address := v_mac_address vm |} else old)));; mret (Ok tt)).
Definition with_spec_id (id : Z) (t : VmCustomTemplate) : VmCustomTemplate :=
  {| ct_id := id; ct_cpu := ct_cpu t; ct_memory := ct_memory t; ct_disk_size := ct_disk_size t;
     ct_disk_type := ct_disk_type t; ct_disk_interface := ct_disk_interface t; ct_cpu_mfg := ct_cpu_mfg t;
     ct_cpu_arch := ct_cpu_arch t; ct_cpu_features := ct_cpu_features t; ct_pricing_id := ct_pricing_id t |}.
(** Neither statement names the limit of firewall rules. *)
Definition stored_spec (id : Z) (s : SpecRow) : SpecRow :=
  {| sp_template := with_spec_id id (sp_template s); sp_limits := sp_limits s; sp_firewall_rule_limit := None |}.
Definition insert_custom_vm_template (s : SpecRow) : Ord Z := statement (fun w =>
  let n := o_next w in
  (Ok (n_spec n), set_specs (fun old => old ++ [stored_spec (n_spec n) s])
     {| n_sub := n_sub n; n_item := n_item n; n_vm := n_vm n; n_spec := n_spec n + 1 |} w)).
Definition update_custom_vm_template (s : SpecRow) : Ord unit := statement (fun w =>
  (Ok tt, set_specs (fmap (fun old => if decide (ct_id (sp_template old) = ct_id (sp_template s)) then
     {| sp_template := sp_template s; sp_limits := sp_limits s; sp_firewall_rule_limit := sp_firewall_rule_limit old |}
   else old)) (o_next w) w)).
Definition get_subscription (id : Z) : Ord Subscription := on_rows (SubDb.get_subscription id).
Definition get_subscription_line_item (id : Z) : Ord SubscriptionLineItem := on_rows (SubDb.get_subscription_line_item id).
Definition update_subscription (s : Subscription) : Ord unit := on_rows (SubDb.update_subscription s;; mret (Ok tt)).
Definition update_subscription_line_item (li : SubscriptionLineItem) : Ord unit :=
  on_rows (exec (set_items (fmap (fun old => if decide (li_id old = li_id li) then li else old)));; mret (Ok tt)).

(** *** The other services *)

Definition get_host_for_template {T} `{!Template T} (region : Z) (t : T) : Ord HostCapacity := statement (fun w =>
  (match Capacity.get_host_for_template (cap_db w) region t with
   | Ok c => Ok c | Err NoAvailableHosts => Err NoHostAvailable | Err Panicked => Err Crashed end, w)).
Definition get_custom_vm_cost_amount (vm : Z) (t : VmCustomTemplate) : Ord (Currency * PricingData) :=
  statement (fun w => (of_fail (Pricing.get_custom_vm_cost_amount (catalog w) vm t), w)).
Definition validate_custom_vm_spec (t : VmCustomTemplate) : Ord unit :=
  statement (fun w => (of_fail (Pricing.validate_custom_vm_spec (catalog w) t), w)).
Definition host_call (c : HostCall) : ST OrderWorld (OpResult unit OrderFail) := fun w =>
  let r := host_answers (length (o_log w)) c in
  (r, set_logs (o_queries w) (o_log w ++ [(c, r)]) (o_notified w) w).
(** The [?] of a plain [Result]. *)
Definition host_call_ (c : HostCall) : Ord unit :=
  r ← host_call c; match r with Ok _ => fine tt | Err e => failing (into_inner e) end.
Definition get_host_client (h : VmHost) : Ord unit := host_call_ (Connect (h_id h)).
Definition list_host_vms (h : Z) : Ord (list HostVmSpec) :=
  n ← gets (fun w => length (o_log w));
  host_call_ (ListVms h) ;o fine (host_vms n h).

(** ** Placing an order *)

Definition UNASSIGNED_MAC : string := "ff:ff:ff:ff:ff:ff"%string.
Definition vm_label (id : Z) : string := String.append "VM" (pretty (Z.to_N id)).
Definition app3 (a b c : string) : string := String.append a (String.append b c).

(** An unspecified architecture, on either side, goes with any. *)
Definition ensure_image_arch_compatible (image_arch template_arch : CpuArch) : Ord unit :=
  if bool_decide (image_arch = ArchUnknown) || bool_decide (template_arch = ArchUnknown) then fine tt else
  require (bool_decide (image_arch = template_arch)) WrongArch.
(** [if let Some(exp) = expires && exp < Utc::now()] *)
Definition not_expired (expires : option Z) : Ord unit :=
  match expires with
  | Some e => t ← utc_now; require (negb (e <? t)) OfferExpired
  | None => fine tt
  end.

(** The rows that a new machine is paid by. *)
Definition new_subscription (user : User) (region : Region) (name currency : string) (interval : Z) (unit : IntervalType)
    (created : Z) : Subscription :=
  {| s_id := 0; s_user_id := u_id user; s_company_id := r_company_id region; s_name := name; s_description := None;
     s_created := created; s_expires := None; s_is_active := false; s_is_setup := false; s_currency := currency;
     s_interval_amount := interval; s_interval_type := unit; s_setup_fee := 0; s_auto_renewal_enabled := true;
     s_external_id := None |}.
Definition new_line_item (name : string) (amount : Z) : SubscriptionLineItem :=
  {| li_id := 0; li_subscription_id := 0; li_type := Vps; li_name := name; li_description := None; li_amount := amount;
     li_setup_amount := 0; li_configuration := None |}.
Definition new_vm (id host user : Z) (template custom : option Z) (item disk : Z) (key : option Z) (mac : string) : Vm :=
  {| v_id := id; v_host_id := host; v_template_id := template; v_custom_template_id := custom;
     v_subscription_line_item_id := item; v_disk_id := disk; v_deleted := false; v_user_id := user; v_ssh_key_id := key;
     v_mac_address := mac |}.
(** The new row's key. *)
Definition with_vm_id (id : Z) (v : Vm) : Vm :=
  new_vm id (v_host_id v) (v_user_id v) (v_template_id v) (v_custom_template_id v) (v_subscription_line_item_id v)
    (v_disk_id v) (v_ssh_key_id v) (v_mac_address v).
Definition rename_sub (name : string) (s : Subscription) : Subscription :=
  {| s_id := s_id s; s_user_id := s_user_id s; s_company_id := s_company_id s; s_name := name;
     s_description := s_description s; s_created := s_created s; s_expires := s_expires s; s_is_active := s_is_active s;
     s_is_setup := s_is_setup s; s_currency := s_currency s; s_interval_amount := s_interval_amount s;
     s_interval_type := s_interval_type s; s_setup_fee := s_setup_fee s;
     s_auto_renewal_enabled := s_auto_renewal_enabled s; s_external_id := s_external_id s |}.
Definition set_item (name : string) (amount : Z) (type : SubscriptionType) (config : option Json) (li : SubscriptionLineItem)
  : SubscriptionLineItem :=
  {| li_id := li_id li; li_subscription_id := li_subscription_id li; li_type := type; li_name := name;
     li_description := li_description li; li_amount := amount; li_setup_amount := li_setup_amount li;
     li_configuration := config |}.
Definition set_amount (amount : Z) (li : SubscriptionLineItem) : SubscriptionLineItem :=
  set_item (li_name li) amount (li_type li) (li_configuration li) li.
Definition rename_item (name : string) (li : SubscriptionLineItem) : SubscriptionLineItem :=
  set_item name (li_amount li) (li_type li) (li_configuration li) li.

(** The subscription with its only line item. *)
Definition subscribe (s : Subscription) (li : SubscriptionLineItem) : Ord (Z * Z) :=
  ids ←o insert_subscription_with_line_items s [li];
  item ←o or_fail (head ids.2) Crashed;
  fine (ids.1, item).
(** Their names, once the key of the machine is known. *)
Definition name_subscription (sub vm : Z) : Ord unit :=
  s ←o get_subscription sub;
  update_subscription (rename_sub (app3 (vm_label vm) " " "subscription") s).
Definition name_item (item vm : Z) (name : string) : Ord SubscriptionLineItem :=
  li ←o get_subscription_line_item item;
  fine (rename_item (app3 (vm_label vm) " - " name) li).
Definition price_item (vm : Z) (t : VmCustomTemplate) (li : SubscriptionLineItem) : Ord unit :=
  price ←o get_custom_vm_cost_amount vm t;
  update_subscription_line_item (set_amount (pr_total price.2) li).

Definition provision (user_id template_id image_id ssh_key_id : Z) (ref_code : option string) : Ord Vm :=
  user ←o get_user user_id;
  plan ←o get_vm_template template_id;
  let template := pt_template plan in
  image ←o get_os_image image_id;
  ssh_key ←o get_user_ssh_key ssh_key_id;
  require (k_user_id ssh_key =? u_id user) KeyNotYours ;o
  require (t_enabled template) OfferDisabled ;o
  not_expired (pt_expires plan) ;o
  require (im_enabled image) ImageDisabled ;o
  ensure_image_arch_compatible (im_cpu_arch image) (t_cpu_arch template) ;o
  host ←o get_host_for_template (t_region_id template) template;
  pick_disk ←o or_fail (head (disks host)) NoHostDisk;
  region ←o get_host_region (t_region_id template);
  cost_plan ←o get_cost_plan (t_cost_plan_id template);
  created ← utc_now;
  ids ←o subscribe
    (new_subscription user region (String.append (pt_name plan) " subscription") (cp_currency cost_plan)
       (cp_interval_amount cost_plan) (cp_interval_type cost_plan) created)
    (new_line_item (pt_name plan) (cp_amount cost_plan));
  let vm := new_vm 0 (h_id (Capacity.host host)) (u_id user) (Some (t_id template)) None ids.2 (d_id (disk pick_disk))
    (Some (k_id ssh_key)) UNASSIGNED_MAC in
  new_id ←o insert_vm vm (im_id image) ref_code;
  name_subscription ids.1 new_id ;o
  li ←o name_item ids.2 new_id (pt_name plan);
  update_subscription_line_item li ;o
  fine (with_vm_id new_id vm).

(** The caps of the pricing, in place of those asked for. *)
Definition with_limits (l : VmLimits) (s : SpecRow) : SpecRow :=
  {| sp_template := sp_template s; sp_limits := l; sp_firewall_rule_limit := sp_firewall_rule_limit s |}.
Definition provision_custom (user_id : Z) (template : SpecRow) (image_id ssh_key_id : Z) (ref_code : option string) : Ord Vm :=
  user ←o get_user user_id;
  offer ←o get_custom_pricing (ct_pricing_id (sp_template template));
  let pricing := of_pricing offer in
  image ←o get_os_image image_id;
  ssh_key ←o get_user_ssh_key ssh_key_id;
  require (k_user_id ssh_key =? u_id user) KeyNotYours ;o
  require (vp_enabled pricing) OfferDisabled ;o
  not_expired (of_expires offer) ;o
  require (im_enabled image) ImageDisabled ;o
  ensure_image_arch_compatible (im_cpu_arch image) (ct_cpu_arch (sp_template template)) ;o
  validate_custom_vm_spec (sp_template template) ;o
  let template := with_limits (of_limits offer) template in
  host ←o get_host_for_template (vp_region_id pricing) (sp_template template);
  pick_disk ←o or_fail (head (disks host)) NoHostDisk;
  template_id ←o insert_custom_vm_template template;
  region ←o get_host_region (vp_region_id pricing);
  created ← utc_now;
  ids ←o subscribe
    (new_subscription user region "Custom VM subscription" (vp_currency pricing) 1 Month created)
    (new_line_item (of_name offer) 0);
  let vm := new_vm 0 (h_id (Capacity.host host)) (u_id user) None (Some template_id) ids.2 (d_id (disk pick_disk))
    (Some (k_id ssh_key)) UNASSIGNED_MAC in
  new_id ←o insert_vm vm (im_id image) ref_code;
  name_subscription ids.1 new_id ;o
  li ←o name_item ids.2 new_id (of_name offer);
  price_item new_id (sp_template template) li ;o
  fine (with_vm_id new_id vm).

(** [find(|p| p.enabled && p.expires.map(|e| e > Utc::now()).unwrap_or(true))] *)
Fixpoint first_open (l : list OfferRow) : ST OrderWorld (option OfferRow) :=
  match l with
  | [] => mret None
  | p :: l =>
      if vp_enabled (of_pricing p) then
        match of_expires p with
        | None => mret (Some p)
        | Some e => t ← utc_now; if t <? e then mret (Some p) else first_open l
        end
      else first_open l
  end.
(** The disk of the machine's storage pool, else an enabled one, else any. *)
Definition import_disk (spec : HostVmSpec) (l : list DiskRow) : option DiskRow :=
  let named := store ← hv_disk_storage spec; head (filter (fun d => dr_name d = store) l) in
  match named with
  | Some d => Some d
  | None => match head (filter (fun d => d_enabled (dr_disk d) = true) l) with Some d => Some d | None => head l end
  end.
Definition imported_spec (spec : HostVmSpec) (disk : DiskRow) (offer : OfferRow) : SpecRow :=
  let p := of_pricing offer in
  {| sp_template := {| ct_id := 0; ct_cpu := hv_cpu spec; ct_memory := hv_memory spec; ct_disk_size := hv_disk_size spec;
       ct_disk_type := d_kind (dr_disk disk); ct_disk_interface := d_interface (dr_disk disk); ct_cpu_mfg := vp_cpu_mfg p;
       ct_cpu_arch := vp_cpu_arch p; ct_cpu_features := vp_cpu_features p; ct_pricing_id := vp_id p |};
     sp_limits := of_limits offer; sp_firewall_rule_limit := None |}.
(** [if let Ok(existing) = get_vm(id) && !existing.deleted] *)
Definition not_tracked (vm_id : Z) : Ord unit :=
  existing ← get_vm vm_id;
  match existing with Ok v => require (v_deleted v) AlreadyTracked | Err _ => fine tt end.

Definition import_vm (host_id host_vm_id user_id : Z) : Ord Vm :=
  user ←o get_user user_id;
  host ←o get_host host_id;
  get_host_client host ;o
  found ←o list_host_vms (h_id host);
  spec ←o or_fail (head (filter (fun v => hv_host_vm_id v = host_vm_id) found)) NotOnHost;
  vm_id ←o or_fail (hv_mapped_vm_id spec) OutsideManagedRange;
  not_tracked vm_id ;o
  offers ←o list_custom_pricing (h_region_id host);
  open ← first_open offers;
  offer ←o or_fail open NoRegionPricing;
  host_disks ←o list_host_disks (h_id host);
  disk ←o or_fail (import_disk spec host_disks) NoHostDisk;
  images ←o list_os_image;
  image ←o or_fail (head (filter (fun i => im_enabled i = true) images)) NoOsImage;
  let template := imported_spec spec disk offer in
  template_id ←o insert_custom_vm_template template;
  region ←o get_host_region (h_region_id host);
  created ← utc_now;
  ids ←o subscribe
    (new_subscription user region "Imported VM subscription" (vp_currency (of_pricing offer)) 1 Month created)
    (new_line_item (of_name offer) 0);
  let vm := new_vm vm_id (h_id host) (u_id user) None (Some template_id) ids.2 (d_id (dr_disk disk)) None
    (default UNASSIGNED_MAC (hv_mac_address spec)) in
  insert_vm_with_id vm (im_id image) None ;o
  name_subscription ids.1 vm_id ;o
  li ←o name_item ids.2 vm_id (of_name offer);
  price_item vm_id (sp_template template) li ;o
  fine vm.
End orders.
