(* ===== verification/Upgrade.v ===== *)
(** * Upgrades of machines
    ([lnvps_api/src/provisioner/vm.rs], [lnvps_api/src/worker.rs])

    The worker runs an upgrade once it was paid: it changes the size in the rows, where
    a machine of a standard template becomes a custom one, and then on the host. *)

From Stdlib Require Import Ascii String SpecFloat.
From stdpp Require Import list gmap.
From S2P Require Import Prelude TryProcedure NetText IpAlloc Network HostTypes Exchange Capacity SubDb Pricing Renewal Orders.

Section upgrades.
Context `{!PaymentsRs, !IsoCountry, !NetLib, !Clock, !OrderServices}.

(** ** The rows *)

(** The first enabled pricing of the region that has the disk. *)
Fixpoint first_compatible (t : VmTemplate) (l : list OfferRow) : Ord (option OfferRow) :=
  match l with
  | [] => fine None
  | p :: l =>
      if negb (vp_enabled (of_pricing p)) then first_compatible t l else
      disks ←o list_custom_pricing_disk (vp_id (of_pricing p));
      if existsb (fun d => bool_decide (pd_kind d = t_disk_type t) && bool_decide (pd_interface d = t_disk_interface t)) disks
      then fine (Some p) else first_compatible t l
  end.
Definition upgraded_spec (cfg : UpgradeConfig) (t : VmTemplate) (offer : OfferRow) : SpecRow :=
  {| sp_template := {| ct_id := 0; ct_cpu := default (t_cpu t) (new_cpu cfg); ct_memory := default (t_memory t) (new_memory cfg);
       ct_disk_size := default (t_disk_size t) (new_disk cfg); ct_disk_type := t_disk_type t;
       ct_disk_interface := t_disk_interface t; ct_cpu_mfg := t_cpu_mfg t; ct_cpu_arch := t_cpu_arch t;
       ct_cpu_features := t_cpu_features t; ct_pricing_id := vp_id (of_pricing offer) |};
     sp_limits := of_limits offer; sp_firewall_rule_limit := None |}.
Definition create_upgrade_template (vm_id : Z) (cfg : UpgradeConfig) : Ord (Vm * VmTemplate * SpecRow) :=
  vm ←o get_vm vm_id;
  template_id ←o or_fail (v_template_id vm) NotStandardTemplate;
  plan ←o get_vm_template template_id;
  let current := pt_template plan in
  offers ←o list_custom_pricing (t_region_id current);
  compatible ←o first_compatible current offers;
  offer ←o or_fail compatible NoCompatiblePricing;
  let spec := upgraded_spec cfg current offer in
  require (t_cpu current <=? ct_cpu (sp_template spec)) CannotDowngrade ;o
  require (t_memory current <=? ct_memory (sp_template spec)) CannotDowngrade ;o
  require (t_disk_size current <=? ct_disk_size (sp_template spec)) CannotDowngrade ;o
  fine (vm, current, spec).

Definition bill_monthly (s : Subscription) : Subscription :=
  {| s_id := s_id s; s_user_id := s_user_id s; s_company_id := s_company_id s; s_name := s_name s;
     s_description := s_description s; s_created := s_created s; s_expires := s_expires s; s_is_active := s_is_active s;
     s_is_setup := s_is_setup s; s_currency := s_currency s; s_interval_amount := 1; s_interval_type := Month;
     s_setup_fee := s_setup_fee s; s_auto_renewal_enabled := s_auto_renewal_enabled s; s_external_id := s_external_id s |}.
Definition to_custom (custom : Z) (v : Vm) : Vm :=
  {| v_id := v_id v; v_host_id := v_host_id v; v_template_id := None; v_custom_template_id := Some custom;
     v_subscription_line_item_id := v_subscription_line_item_id v; v_disk_id := v_disk_id v; v_deleted := v_deleted v;
     v_user_id := v_user_id v; v_ssh_key_id := v_ssh_key_id v; v_mac_address := v_mac_address v |}.
Definition convert_to_custom_template (vm_id : Z) (cfg : UpgradeConfig) : Ord unit :=
  x ←o create_upgrade_template vm_id cfg;
  let '(vm, _, spec) := x in
  custom_template_id ←o insert_custom_vm_template spec;
  update_vm (to_custom custom_template_id vm) ;o
  line_item ←o get_subscription_line_item (v_subscription_line_item_id vm);
  subscription ←o get_subscription (li_subscription_id line_item);
  update_subscription (bill_monthly subscription) ;o
  new_price ←o get_custom_vm_cost_amount vm_id (sp_template spec);
  update_subscription_line_item
    (set_item (li_name line_item) (pr_total new_price.2) Vps (Some (upgrade_json cfg)) line_item).
Definition update_line_item_cost_for_custom_vm (vm_id : Z) : Ord unit :=
  vm ←o get_vm vm_id;
  custom_template_id ←o or_fail (v_custom_template_id vm) NotCustomTemplate;
  template ←o get_custom_vm_template custom_template_id;
  new_price ←o get_custom_vm_cost_amount vm_id (sp_template template);
  line_item ←o get_subscription_line_item (v_subscription_line_item_id vm);
  update_subscription_line_item (set_amount (pr_total new_price.2) line_item).

(** [FullVmInfo]: the rows that a host is given, without address ranges and rules. *)
Record FullVmInfo := {
  fi_vm : Vm; fi_host : VmHost; fi_image : VmOsImage; fi_disk : DiskRow; fi_ssh_key : UserSshKey;
  fi_ips : list VmIpAssignment; fi_template : option PlanRow; fi_custom_template : option SpecRow
}.
(** [if let Some(id) = id { Some(f(id).await?) } else { None }] *)
Definition opt_row {A} (id : option Z) (f : Z -> Ord A) : Ord (option A) :=
  match id with Some id => a ←o f id; fine (Some a) | None => fine None end.
(** The last query lists the rules. *)
Definition load (vm_id : Z) : Ord FullVmInfo :=
  vm ←o get_vm vm_id;
  host ←o get_host (v_host_id vm);
  image_id ←o query (fun w => o_image_id w !! v_id vm);
  image_id ←o or_fail image_id RowNotFound;
  image ←o get_os_image image_id;
  disk ←o get_host_disk (v_disk_id vm);
  ssh_key_id ←o or_fail (v_ssh_key_id vm) NoSshKey;
  ssh_key ←o get_user_ssh_key ssh_key_id;
  ips ←o query (fun w => list_vm_ip_assignments (catalog w) vm_id);
  template ←o opt_row (v_template_id vm) get_vm_template;
  custom_template ←o opt_row (v_custom_template_id vm) get_custom_vm_template;
  query (fun _ => tt) ;o
  fine {| fi_vm := vm; fi_host := host; fi_image := image; fi_disk := disk; fi_ssh_key := ssh_key; fi_ips := ips;
          fi_template := template; fi_custom_template := custom_template |}.
Definition plan_specs (p : PlanRow) : Specs :=
  {| rs_cpu := t_cpu (pt_template p); rs_memory := t_memory (pt_template p); rs_disk_size := t_disk_size (pt_template p) |}.
Definition custom_specs (s : SpecRow) : Specs :=
  {| rs_cpu := ct_cpu (sp_template s); rs_memory := ct_memory (sp_template s); rs_disk_size := ct_disk_size (sp_template s) |}.
(** [None]: no template. *)
Definition resources (i : FullVmInfo) : option Specs :=
  match fi_template i with
  | Some t => Some (plan_specs t)
  | None => custom_specs <$> fi_custom_template i
  end.
Definition vm_resources (vm_id : Z) : Ord Specs :=
  vm ←o get_vm vm_id;
  match v_template_id vm, v_custom_template_id vm with
  | Some t, _ => p ←o get_vm_template t; fine (plan_specs p)
  | None, Some t => s ←o get_custom_vm_template t; fine (custom_specs s)
  | None, None => failing RowNotFound
  end.

(** A configuration change is put on record; that it cannot be is a warning. *)
Definition log_configuration_changed (vm_id : Z) : Ord unit :=
  _ ← on_rows (insert_vm_history vm_id ConfigurationChanged;; mret (Ok tt));
  fine tt.
Definition with_specs (cfg : UpgradeConfig) (s : SpecRow) : SpecRow :=
  let t := sp_template s in
  {| sp_template := {| ct_id := ct_id t; ct_cpu := default (ct_cpu t) (new_cpu cfg);
       ct_memory := default (ct_memory t) (new_memory cfg); ct_disk_size := default (ct_disk_size t) (new_disk cfg);
       ct_disk_type := ct_disk_type t; ct_disk_interface := ct_disk_interface t; ct_cpu_mfg := ct_cpu_mfg t;
       ct_cpu_arch := ct_cpu_arch t; ct_cpu_features := ct_cpu_features t; ct_pricing_id := ct_pricing_id t |};
     sp_limits := sp_limits s; sp_firewall_rule_limit := sp_firewall_rule_limit s |}.
Definition update_custom (vm_id custom_template_id : Z) (cfg : UpgradeConfig) : Ord unit :=
  old ←o get_custom_vm_template custom_template_id;
  let new := with_specs cfg old in
  let o := sp_template old in
  let n := sp_template new in
  require (ct_cpu o <=? ct_cpu n) CannotDowngrade ;o
  require (ct_memory o <=? ct_memory n) CannotDowngrade ;o
  require (ct_disk_size o <=? ct_disk_size n) CannotDowngrade ;o
  if (ct_cpu o =? ct_cpu n) && (ct_memory o =? ct_memory n) && (ct_disk_size o =? ct_disk_size n) then fine tt else
  update_custom_vm_template new ;o
  update_line_item_cost_for_custom_vm vm_id ;o
  log_configuration_changed vm_id.
Definition update_template (vm_id : Z) (cfg : UpgradeConfig) : Ord unit :=
  vm_before ←o get_vm vm_id;
  match v_custom_template_id vm_before with
  | Some custom_template_id => update_custom vm_id custom_template_id cfg
  | None =>
      convert_to_custom_template vm_id cfg ;o
      get_vm vm_id ;o
      log_configuration_changed vm_id
  end.

(** *** The worker's pipeline *)

(** A closure of the pipeline: [?] on a plain error makes it fatal. *)
Definition Step : Type := Closure (unit * OrderWorld) (OpResult unit OrderFail).
Definition plain_step (m : Ord unit) : Step := fun '(u, w) =>
  match m w with
  | (Ok _, w') => (Some (Ok tt), (u, w'))
  | (Err e, w') => (Some (Err (Fatal e)), (u, w'))
  end.
(** What it asks of the host last decides. *)
Definition host_step (m : Ord HostCall) : Step := fun '(u, w) =>
  match m w with
  | (Ok c, w') => let '(r, w'') := host_call c w' in (Some r, (u, w''))
  | (Err e, w') => (Some (Err (Fatal e)), (u, w'))
  end.
Definition only_if (b : bool) (s : Step) : Step := if b then s else plain_step (fine tt).
Definition has {A} (o : option A) : bool := match o with Some _ => true | None => false end.

Definition client_of_vm (vm_id : Z) : Ord (Vm * VmHost) :=
  vm ←o get_vm vm_id; host ←o get_host (v_host_id vm); get_host_client host ;o fine (vm, host).
Definition client_of_info (vm_id : Z) : Ord (FullVmInfo * VmHost) :=
  full_info ←o load vm_id; host ←o get_host (h_id (fi_host full_info)); get_host_client host ;o fine (full_info, host).
(** That the machine does not stop is a warning. *)
Definition stop_step (vm_id : Z) : Step := plain_step (
  x ←o client_of_vm vm_id; _ ← host_call (Stop (h_id x.2) (v_id x.1)); fine tt).
Definition resize_step (vm_id : Z) : Step := host_step (
  x ←o client_of_info vm_id; fine (Resize (h_id x.2) (v_id (fi_vm x.1)) (resources x.1))).
Definition configure_step (vm_id : Z) : Step := host_step (
  x ←o client_of_info vm_id; fine (Configure (h_id x.2) (v_id (fi_vm x.1)) (resources x.1))).
Definition start_step (vm_id : Z) : Step := host_step (
  x ←o client_of_vm vm_id; fine (Start (h_id x.2) (v_id x.1))).
Definition upgrade_pipeline (vm_id : Z) (cfg : UpgradeConfig) : @Pipeline unit OrderWorld OrderFail :=
  step "start_vm" (start_step vm_id) (
  step "configure_cpu_memory" (only_if (has (new_cpu cfg) || has (new_memory cfg)) (configure_step vm_id)) (
  step "resize_disk" (only_if (has (new_disk cfg)) (resize_step vm_id)) (
  step "stop_vm" (stop_step vm_id) (
  step "update_template" (plain_step (update_template vm_id cfg)) (
  with_retry_policy RetryPolicy_default (Pipeline_new tt)))))).
Definition notify_upgraded (user vm : Z) (specs : option Specs) : ST OrderWorld unit :=
  modify (fun w => set_logs (o_queries w) (o_log w) (o_notified w ++ [(user, vm, specs)]) w).
(** Time passes between tries; nothing here depends on how much. *)
Definition no_wait {S} (d : Duration) (s : S) : S := s.
(** [None]: a panic, or no end. *)
Definition process_vm_upgrade (vm_id : Z) (cfg : UpgradeConfig) : ST OrderWorld (option (res OrderFail unit)) := fun w =>
  match Pipeline_execute no_wait (upgrade_pipeline vm_id cfg) w with
  | (Done (Ok _), w') =>
      let '(r, w'') := (
        upgraded_vm ←o get_vm vm_id;
        specs ← vm_resources vm_id;
        notify_upgraded (v_user_id upgraded_vm) vm_id (match specs with Ok s => Some s | Err _ => None end);;
        fine tt) w' in (Some r, w'')
  | (Done (Err e), w') => (Some (Err e), w')
  | (TryProcedure.Panic, w') | (Stuck, w') => (None, w')
  end.

(** [vm_firewall_rule_limit]: the limit of the machine's rules. *)
Definition DEFAULT_FIREWALL_RULE_LIMIT : Z := 20.
Definition vm_firewall_rule_limit (vm : Vm) : Ord Z :=
  match v_template_id vm, v_custom_template_id vm with
  | Some t, _ => p ←o get_vm_template t; fine (default DEFAULT_FIREWALL_RULE_LIMIT (pt_firewall_rule_limit p))
  | None, Some t => s ←o get_custom_vm_template t; fine (default DEFAULT_FIREWALL_RULE_LIMIT (sp_firewall_rule_limit s))
  | None, None => fine DEFAULT_FIREWALL_RULE_LIMIT
  end.
End upgrades.
