(* ===== verification/OrderProofs.v ===== *)
(** * What orders do to the tables

    An order only adds rows: at most one custom template, one unpaid subscription with
    one line item, and one machine that is linked to them. *)

From Stdlib Require Import Ascii String SpecFloat.
From stdpp Require Import list gmap.
From S2P Require Import Prelude TryProcedure NetText IpAlloc Network HostTypes Exchange Capacity SubDb Pricing Renewal Orders.

Notation subs w := (w_subs (o_world w)).
Notation items w := (w_items (o_world w)).
Notation machines w := (w_vms (o_world w)).

Section order_proofs.
Context `{PR : !PaymentsRs, IC : !IsoCountry, NL : !NetLib, CK : !Clock, OS : !OrderServices}.

(** ** What is added *)

(** What orders and upgrades never change. *)
Definition rest (w : OrderWorld) :=
  (o_base w, o_regions w, o_ip_ranges w, o_plans w, o_offers w, o_disks w, o_keys w, o_images w, w_payments (o_world w)).
Record grown (w0 : OrderWorld) (ns : list Subscription) (ni : list SubscriptionLineItem) (nv : list Vm)
    (np : list SpecRow) (w : OrderWorld) : Prop := {
  gr_subs : subs w = subs w0 ++ ns; gr_items : items w = items w0 ++ ni; gr_vms : machines w = machines w0 ++ nv;
  gr_specs : o_specs w = o_specs w0 ++ np; gr_rest : rest w = rest w0; gr_history : w_history (o_world w) = w_history (o_world w0);
  gr_n_sub : n_sub (o_next w) = n_sub (o_next w0) + Z.of_nat (length ns);
  gr_n_item : n_item (o_next w) = n_item (o_next w0) + Z.of_nat (length ni);
  gr_n_spec : n_spec (o_next w) = n_spec (o_next w0) + Z.of_nat (length np);
  gr_n_vm : n_vm (o_next w) = foldr (fun v => Z.max (v_id v + 1)) (n_vm (o_next w0)) nv;
  gr_log : o_log w0 `prefix_of` o_log w;
  gr_image : forall id, is_Some (o_image_id w0 !! id) \/ id ∈ v_id <$> nv -> is_Some (o_image_id w !! id)
}.
(** Nothing but the logs and the clock. *)
Definition same (w w' : OrderWorld) : Prop := grown w [] [] [] [] w'.

Lemma same_grown w0 ns ni nv np w w' : grown w0 ns ni nv np w -> same w w' -> grown w0 ns ni nv np w'.
Proof.
  intros [] [S' I' V' P' R' H' N1 N2 N3 N4 G M]. rewrite !app_nil_r in *. cbn in N1, N2, N3, N4.
  rewrite Z.add_0_r in N1, N2, N3. constructor; try congruence; [by etrans|]. intros id Hid. apply M. left. auto.
Qed.
#[export] Instance same_pre : PreOrder same.
Proof.
  split; [|by intros w1 w2 w3 H1 H2; eapply same_grown]. intros w. constructor; rewrite ?app_nil_r, ?Z.add_0_r; try done.
  intros id [?|Hid%elem_of_nil]; done.
Qed.
Lemma same_logs q l n w : o_log w `prefix_of` l -> same w (set_logs q l n w).
Proof. intros Hl. constructor; cbn; rewrite ?app_nil_r, ?Z.add_0_r; try done. intros id [?|Hid%elem_of_nil]; done. Qed.
Lemma same_clock n w : same w (set_world (set_reads n (o_world w)) w).
Proof. constructor; cbn; rewrite ?app_nil_r, ?Z.add_0_r; try done. intros id [?|Hid%elem_of_nil]; done. Qed.

(** ** Programs that only read *)

Lemma ord_bind_run {A B} (m : Ord A) (k : A -> Ord B) w :
  ord_bind m k w = match m w with (Ok a, w') => k a w' | (Err e, w') => (Err e, w') end.
Proof. unfold ord_bind. rewrite bind_run. by destruct (m w) as [[a|e] w']. Qed.
Lemma keeps_ord {A B} R `{!PreOrder R} (m : Ord A) (k : A -> Ord B) :
  keeps R m -> (forall a, keeps R (k a)) -> keeps R (ord_bind m k).
Proof.
  intros Hm Hk w. rewrite ord_bind_run. specialize (Hm w). destruct (m w) as [[a|e] w']; [|done].
  cbn in *. etrans; [exact Hm|apply Hk].
Qed.
Lemma keeps_statement {A} (m : Ord A) : keeps same m -> keeps same (statement m).
Proof.
  intros Hm w. unfold statement. destruct (sql_ok (o_queries w)); [|by apply same_logs].
  etrans; [by apply same_logs|apply Hm].
Qed.
Lemma keeps_fine R `{!PreOrder R} {A} (a : A) : keeps R (fine a).
Proof. by intros w. Qed.
Lemma keeps_failing R `{!PreOrder R} {A} e : keeps R (failing (A := A) e).
Proof. by intros w. Qed.
Lemma keeps_pure {A} (f : OrderWorld -> res OrderFail A) : keeps same (fun w => (f w, w)).
Proof. by intros w. Qed.
Lemma keeps_host_call c : keeps same (host_call c).
Proof. intros w. apply same_logs, prefix_app_r. done. Qed.
Lemma keeps_utc_now : keeps same utc_now.
Proof. intros w. apply same_clock. Qed.
Lemma keeps_on_rows {A} (f : World -> res Fail A) : keeps same (on_rows (db f)).
Proof.
  apply keeps_statement. intros w. unfold on_world. rewrite bind_run. cbn. by destruct w.
Qed.
End order_proofs.

Create HintDb reads.
#[export] Hint Resolve keeps_host_call keeps_utc_now : reads.
(** A program that changes no row. *)
Ltac reads_tac :=
  repeat (lazymatch goal with
  | |- keeps _ (ord_bind _ _) => apply keeps_ord; [apply _| |intros ?]
  | |- keeps _ (fine _) => apply keeps_fine, _
  | |- keeps _ (failing _) => apply keeps_failing, _
  | |- keeps _ (require ?b _) => unfold require
  | |- keeps _ (or_fail ?b _) => unfold or_fail
  | |- keeps _ (query_one _) => apply keeps_statement, keeps_pure
  | |- keeps _ (query _) => apply keeps_statement, keeps_pure
  | |- keeps _ (statement (fun _ => (_, _))) => apply keeps_statement, keeps_pure
  | |- keeps _ (mret _) => apply keeps_ret, _
  | |- keeps _ (gets _) => apply keeps_gets, _
  | |- keeps _ (if ?b then _ else _) => destruct b
  | |- keeps _ (match ?x with _ => _ end) => destruct x
  | |- keeps _ (mbind _ _) => apply keeps_bind; [apply _| |intros ?]
  | |- _ => solve [eauto 2 with reads]
  end).

Section readers.
Context `{PR : !PaymentsRs, IC : !IsoCountry, NL : !NetLib, CK : !Clock, OS : !OrderServices}.

Lemma reads_row {A} (f : OrderWorld -> list A) : keeps same (query_one f).
Proof. reads_tac. Qed.
Lemma reads_list {A} (f : OrderWorld -> A) : keeps same (query f).
Proof. reads_tac. Qed.
Lemma reads_sub id : keeps same (get_subscription id).
Proof. apply keeps_on_rows. Qed.
Lemma reads_item id : keeps same (get_subscription_line_item id).
Proof. apply keeps_on_rows. Qed.
Lemma reads_cost vm t : keeps same (get_custom_vm_cost_amount vm t).
Proof. unfold get_custom_vm_cost_amount. reads_tac. Qed.
Lemma reads_spec_check t : keeps same (validate_custom_vm_spec t).
Proof. unfold validate_custom_vm_spec. reads_tac. Qed.
Lemma reads_capacity {T} `{!Template T} region (t : T) : keeps same (get_host_for_template region t).
Proof. unfold get_host_for_template. reads_tac. Qed.
Lemma reads_expiry expires : keeps same (not_expired expires).
Proof. unfold not_expired. reads_tac. Qed.
Lemma reads_arch a b : keeps same (ensure_image_arch_compatible a b).
Proof. unfold ensure_image_arch_compatible. reads_tac. Qed.
Lemma reads_call c : keeps same (host_call_ c).
Proof. unfold host_call_. reads_tac. Qed.
Lemma reads_client h : keeps same (get_host_client h).
Proof. apply reads_call. Qed.
Lemma reads_host_vms h : keeps same (list_host_vms h).
Proof. unfold list_host_vms. apply keeps_bind; [apply _|apply keeps_gets, _|intros n]. apply keeps_ord; [apply _|apply reads_call|intros ?; apply keeps_fine, _]. Qed.
Lemma reads_open l : keeps same (first_open l).
Proof. induction l as [|p l IH]; cbn [first_open]; reads_tac. Qed.
Lemma reads_tracked vm : keeps same (not_tracked vm).
Proof. unfold not_tracked, get_vm. reads_tac. Qed.
End readers.
#[export] Hint Resolve reads_row reads_list reads_sub reads_item reads_cost reads_spec_check reads_capacity reads_expiry reads_arch
  reads_call reads_client reads_host_vms reads_open reads_tracked : reads.

Section adding.
Context `{PR : !PaymentsRs, IC : !IsoCountry, NL : !NetLib, CK : !Clock, OS : !OrderServices}.
Context (w0 : OrderWorld).

(** ** The rows that an order adds *)

Definition unpaid (s : Subscription) : Prop := s_is_active s = false /\ s_is_setup s = false /\ s_expires s = None.
Definition fresh_sub (s : Subscription) : Prop := unpaid s /\ s_id s = n_sub (o_next w0).
Definition fresh_item (i : SubscriptionLineItem) : Prop :=
  li_id i = n_item (o_next w0) /\ li_subscription_id i = n_sub (o_next w0) /\ li_type i = Vps.
Definition fresh_spec (s : SpecRow) : Prop := ct_id (sp_template s) = n_spec (o_next w0).
(** A machine, and what it is a machine of. *)
Definition of_template (np : list SpecRow) (v : Vm) : Prop :=
  match v_template_id v, v_custom_template_id v with
  | Some t, None => t ∈ (fun p => t_id (pt_template p)) <$> o_plans w0
  | None, Some c => c ∈ (fun s => ct_id (sp_template s)) <$> np
  | _, _ => False
  end.
Definition fresh_vm (user : Z) (np : list SpecRow) (v : Vm) : Prop :=
  v_subscription_line_item_id v = n_item (o_next w0) /\ v_user_id v = user /\ v_id v ∉ v_id <$> machines w0 /\
  v_deleted v = false /\ of_template np v.
Definition fresh_specs (np : list SpecRow) : Prop := Forall fresh_spec np /\ (length np <= 1)%nat.
(** At most one of each, in the order in which they are added. *)
Inductive chain : list Subscription -> list SubscriptionLineItem -> list Vm -> list SpecRow -> Prop :=
| chain_specs np : fresh_specs np -> chain [] [] [] np
| chain_subs s i np : fresh_specs np -> fresh_sub s -> fresh_item i -> chain [s] [i] [] np
| chain_vm s i v np : fresh_specs np -> fresh_sub s -> fresh_item i -> fresh_vm (s_user_id s) np v -> chain [s] [i] [v] np.
Definition partial (w : OrderWorld) : Prop := exists ns ni nv np, grown w0 ns ni nv np w /\ chain ns ni nv np.

(** ** Statements that add *)

Lemma wp_ord {A B} (m : Ord A) (k : A -> Ord B) Q w :
  wp m (fun r w' => match r with Ok a => wp (k a) Q w' | Err e => Q (Err e) w' end) w -> wp (ord_bind m k) Q w.
Proof. unfold wp. rewrite ord_bind_run. by destruct (m w) as [[a|e] w']. Qed.
Lemma wp_reading {A} (m : ST OrderWorld A) Q ns ni nv np w : keeps same m -> grown w0 ns ni nv np w ->
  (forall r w', grown w0 ns ni nv np w' -> m w = (r, w') -> Q r w') -> wp m Q w.
Proof.
  intros Hm Hg HQ. unfold wp. specialize (Hm w). destruct (m w) as [r w'] eqn:E. apply (HQ r); [|done].
  by eapply same_grown.
Qed.
Lemma wp_statement {A} (m : Ord A) Q w :
  Q (Err Sql) (bump w) -> wp m Q (bump w) -> wp (statement m) Q w.
Proof. unfold wp, statement. by destruct (sql_ok (o_queries w)). Qed.
Lemma grown_bump ns ni nv np w : grown w0 ns ni nv np w -> grown w0 ns ni nv np (bump w).
Proof. intros Hg. eapply same_grown; [exact Hg|by apply same_logs]. Qed.
Lemma grown_refl : grown w0 [] [] [] [] w0.
Proof. exact (reflexivity (R := same) w0). Qed.

Lemma wp_insert_spec s Q w : grown w0 [] [] [] [] w ->
  (forall w', grown w0 [] [] [] [] w' -> Q (Err Sql) w') ->
  (forall w', grown w0 [] [] [] [stored_spec (n_spec (o_next w0)) s] w' -> Q (Ok (n_spec (o_next w0))) w') ->
  wp (insert_custom_vm_template s) Q w.
Proof.
  intros Hg He Hok. apply wp_statement; [by apply He, grown_bump|]. apply grown_bump in Hg. unfold wp.
  destruct Hg as [S I V P R H N1 N2 N3 N4 G M]. cbn in *. rewrite ?app_nil_r, ?Z.add_0_r in *. rewrite N3. apply Hok.
  constructor; cbn; rewrite ?app_nil_r, ?Z.add_0_r; try done; try lia; by rewrite P.
Qed.
Lemma wp_subscribe s li Q np w : unpaid s -> li_type li = Vps -> grown w0 [] [] [] np w ->
  (forall e w', grown w0 [] [] [] np w' -> Q (Err e) w') ->
  (let s' := stored_subscription (n_sub (o_next w0)) s in let i := stored_item (n_item (o_next w0)) (n_sub (o_next w0)) li in
   forall w', grown w0 [s'] [i] [] np w' -> fresh_sub s' -> fresh_item i -> Q (Ok (s_id s', li_id i)) w') ->
  wp (subscribe s li) Q w.
Proof.
  intros (Ha & Hs & Hx) Ht Hg He Hok. unfold subscribe. apply wp_ord. apply wp_statement; [by apply He, grown_bump|].
  apply grown_bump in Hg. unfold wp. destruct Hg as [S I V P R H N1 N2 N3 N4 G M]. cbn in *. rewrite ?app_nil_r, ?Z.add_0_r in *.
  rewrite N1, N2, bind_run. cbn. apply Hok.
  - constructor; cbn; rewrite ?app_nil_r; try done; try lia; by rewrite ?S, ?I.
  - unfold fresh_sub, unpaid. cbn. by rewrite Ha, Hs, Hx.
  - unfold fresh_item. by rewrite <- Ht.
Qed.
(** Of a machine's row: all columns but the key. *)
Lemma add_vm_grown id vm image code s i np w : grown w0 [s] [i] [] np w -> v_deleted vm = false ->
  grown w0 [s] [i] [with_vm_id id vm] np (add_vm id vm image code w).
Proof.
  intros [S I V P R H N1 N2 N3 N4 G M] Hd. cbn in *. rewrite ?app_nil_r in *. constructor; cbn; try done; try lia; [by rewrite V|].
  intros x [Hx|Hx]; rewrite lookup_insert_is_Some; [destruct (decide (id = x)); [by left|right; auto]|].
  apply list_elem_of_singleton in Hx. auto.
Qed.
Lemma wp_insert_vm vm image code s i np Q w : grown w0 [s] [i] [] np w -> v_deleted vm = false ->
  (forall e w', grown w0 [s] [i] [] np w' -> Q (Err e) w') ->
  (forall w', grown w0 [s] [i] [with_vm_id (n_vm (o_next w0)) vm] np w' -> Q (Ok (n_vm (o_next w0))) w') ->
  wp (insert_vm vm image code) Q w.
Proof.
  intros Hg Hd He Hok. apply wp_statement; [by apply He, grown_bump|]. apply grown_bump in Hg. unfold wp. cbn [fst snd].
  assert (n_vm (o_next (bump w)) = n_vm (o_next w0)) as -> by exact (gr_n_vm _ _ _ _ _ _ Hg). by apply Hok, add_vm_grown.
Qed.
Lemma wp_insert_vm_with_id vm image code s i np Q w : grown w0 [s] [i] [] np w -> v_deleted vm = false ->
  (forall e w', grown w0 [s] [i] [] np w' -> Q (Err e) w') ->
  (forall w', v_id vm ∉ v_id <$> machines w0 -> grown w0 [s] [i] [with_vm_id (v_id vm) vm] np w' -> Q (Ok tt) w') ->
  wp (insert_vm_with_id vm image code) Q w.
Proof.
  intros Hg Hd He Hok. apply wp_statement; [by apply He, grown_bump|]. apply grown_bump in Hg. unfold wp.
  case_bool_decide as Hin; cbn [fst snd]; [by apply He|]. apply Hok; [|by apply add_vm_grown].
  by rewrite (gr_vms _ _ _ _ _ _ Hg), app_nil_r in Hin.
Qed.
End adding.

(** ** Keys *)

Lemma filter_new {A} (f : A -> Z) (l : list A) y : Forall (fun x => f x < f y) l -> filter (fun x => f x = f y) (l ++ [y]) = [y].
Proof.
  intros Hl. rewrite filter_app, filter_cons_True by done. replace (filter _ l) with (@nil A); [done|].
  symmetry. induction Hl as [|x l Hx _ IH]; [done|]. rewrite filter_cons_False by lia. done.
Qed.
Lemma map_new {A} (f : A -> Z) (g : A -> A) (l : list A) k y : Forall (fun x => f x < k) l -> f y = k ->
  (fun old => if decide (f old = k) then g old else old) <$> (l ++ [y]) = l ++ [g y].
Proof.
  intros Hl <-. rewrite fmap_app. cbn. rewrite decide_True by done. f_equal.
  induction Hl as [|x l Hx _ IH]; [done|]. cbn. rewrite decide_False by lia. by rewrite IH.
Qed.

Section naming.
Context `{PR : !PaymentsRs, IC : !IsoCountry, NL : !NetLib, CK : !Clock, OS : !OrderServices}.

(** Keys are unique and below the next ones; a machine has a line item, a
    subscription of its user and a template, and shares its line item and its custom
    template with no other. *)
Definition keyed {A} (f : A -> Z) (next : Z) (l : list A) : Prop := NoDup (f <$> l) /\ Forall (fun x => f x < next) l.
Definition paid_by (w : OrderWorld) (v : Vm) : Prop := exists i s,
  i ∈ items w /\ li_id i = v_subscription_line_item_id v /\ li_type i = Vps /\
  s ∈ subs w /\ s_id s = li_subscription_id i /\ s_user_id s = v_user_id v.
Record sound (w : OrderWorld) : Prop := {
  so_subs : keyed s_id (n_sub (o_next w)) (subs w); so_items : keyed li_id (n_item (o_next w)) (items w);
  so_vms : keyed v_id (n_vm (o_next w)) (machines w);
  so_specs : keyed (fun s => ct_id (sp_template s)) (n_spec (o_next w)) (o_specs w);
  so_paid : Forall (paid_by w) (machines w);
  so_template : Forall (of_template w (o_specs w)) (machines w);
  so_image : Forall (fun v => is_Some (o_image_id w !! v_id v)) (machines w);
  so_own_item : NoDup (v_subscription_line_item_id <$> machines w);
  so_own_spec : forall v v' c, v ∈ machines w -> v' ∈ machines w ->
    v_custom_template_id v = Some c -> v_custom_template_id v' = Some c -> v = v'
}.
Context (w0 : OrderWorld) (HS : sound w0).

Lemma wp_rows {A} (m : Act A) Q w : (forall w', same w w' -> Q (Err Sql) w') ->
  (forall w', o_world w' = o_world w -> same w w' ->
     wp m (fun r x => Q (of_fail r) (set_world x w')) (o_world w')) -> wp (on_rows m) Q w.
Proof.
  intros He Hok. apply wp_statement; [by apply He, same_logs|]. specialize (Hok (bump w) eq_refl (same_logs _ _ _ w (reflexivity _))).
  unfold wp, on_world in *. rewrite bind_run. cbn in *. by destruct (m (o_world w)) as [r x].
Qed.
Lemma grown_sub s i nv np w g : grown w0 [s] [i] nv np w -> s_id s = n_sub (o_next w0) ->
  grown w0 [g s] [i] nv np (set_world (set_subs (map (fun old => if decide (s_id old = s_id s) then g old else old)) (o_world w)) w).
Proof using HS.
  intros [S I V P R H N1 N2 N3 N4 G M] Hid. constructor; try done. cbn. rewrite S, Hid. apply (map_new s_id); [apply HS|done].
Qed.
Lemma grown_item s i i' nv np w : grown w0 [s] [i] nv np w -> li_id i = n_item (o_next w0) ->
  grown w0 [s] [i'] nv np (set_world (set_items (fmap (fun old => if decide (li_id old = li_id i) then i' else old)) (o_world w)) w).
Proof using HS.
  intros [S I V P R H N1 N2 N3 N4 G M] Hid. constructor; try done. cbn. rewrite I, Hid. apply (map_new li_id (fun _ => i')); [apply HS|done].
Qed.
Lemma wp_get_sub s i nv np Q w : grown w0 [s] [i] nv np w -> s_id s = n_sub (o_next w0) ->
  (forall e w', grown w0 [s] [i] nv np w' -> Q (Err e) w') -> (forall w', grown w0 [s] [i] nv np w' -> Q (Ok s) w') ->
  wp (get_subscription (s_id s)) Q w.
Proof using HS.
  intros Hg Hid He Hok. apply wp_rows; intros w'; [|intros Ew]; intros Hs; pose proof (same_grown _ _ _ _ _ _ _ Hg Hs) as Hg'.
  { by apply He. }
  unfold wp, SubDb.get_subscription, SubDb.db. rewrite gets_run. cbn. rewrite (gr_subs _ _ _ _ _ _ Hg').
  rewrite filter_new by (rewrite Hid; apply HS). cbn. apply Hok. by destruct w'.
Qed.
Lemma wp_get_item s i nv np Q w : grown w0 [s] [i] nv np w -> li_id i = n_item (o_next w0) ->
  (forall e w', grown w0 [s] [i] nv np w' -> Q (Err e) w') -> (forall w', grown w0 [s] [i] nv np w' -> Q (Ok i) w') ->
  wp (get_subscription_line_item (li_id i)) Q w.
Proof using HS.
  intros Hg Hid He Hok. apply wp_rows; intros w'; [|intros Ew]; intros Hs; pose proof (same_grown _ _ _ _ _ _ _ Hg Hs) as Hg'.
  { by apply He. }
  unfold wp, SubDb.get_subscription_line_item, SubDb.db. rewrite gets_run. cbn. rewrite (gr_items _ _ _ _ _ _ Hg').
  rewrite filter_new by (rewrite Hid; apply HS). cbn. apply Hok. by destruct w'.
Qed.
Lemma wp_update_item s i i' nv np Q w : grown w0 [s] [i] nv np w -> li_id i = n_item (o_next w0) -> li_id i' = li_id i ->
  (forall e w', grown w0 [s] [i] nv np w' -> Q (Err e) w') -> (forall w', grown w0 [s] [i'] nv np w' -> Q (Ok tt) w') ->
  wp (update_subscription_line_item i') Q w.
Proof using HS.
  intros Hg Hid Hid' He Hok. apply wp_rows; intros w'; [|intros Ew]; intros Hs; pose proof (same_grown _ _ _ _ _ _ _ Hg Hs) as Hg'.
  { by apply He. }
  unfold wp. rewrite bind_run. cbn. rewrite Hid'. by apply Hok, grown_item.
Qed.
(** What [update_subscription] writes. *)
Definition written (s old : Subscription) : Subscription :=
  {| s_id := s_id old; s_user_id := s_user_id s; s_company_id := s_company_id s; s_name := s_name s;
     s_description := s_description s; s_created := s_created old; s_expires := whole_seconds <$> s_expires s;
     s_is_active := s_is_active s; s_is_setup := s_is_setup s; s_currency := s_currency s;
     s_interval_amount := s_interval_amount s; s_interval_type := s_interval_type s; s_setup_fee := s_setup_fee s;
     s_auto_renewal_enabled := s_auto_renewal_enabled s; s_external_id := s_external_id s |}.
(** The columns of an unpaid subscription survive an update. *)
Lemma wp_name_subscription s i nv np vm Q w : grown w0 [s] [i] nv np w -> fresh_sub w0 s ->
  (forall e w', grown w0 [s] [i] nv np w' -> Q (Err e) w') ->
  (forall w', grown w0 [rename_sub (app3 (vm_label vm) " " "subscription") s] [i] nv np w' -> Q (Ok tt) w') ->
  wp (name_subscription (s_id s) vm) Q w.
Proof using HS.
  intros Hg [(Ha & Hb & Hx) Hid] He Hok. unfold name_subscription. apply wp_ord.
  eapply wp_get_sub; [exact Hg|done|by intros; apply He|]. intros w1 Hg1.
  apply wp_rows; intros w'; [|intros Ew]; intros Hs; pose proof (same_grown _ _ _ _ _ _ _ Hg1 Hs) as Hg'.
  { by apply He. }
  unfold wp. rewrite bind_run. cbn. apply Hok.
  eapply (grown_sub _ _ _ _ _ (written (rename_sub (app3 (vm_label vm) " " "subscription") s))) in Hg'; [|done].
  replace (written _ s) with (rename_sub (app3 (vm_label vm) " " "subscription") s) in Hg'; [exact Hg'|].
  unfold written, rename_sub. cbn. rewrite Hx. by cbn.
Qed.
Lemma wp_name_item s i nv np vm name Q w : grown w0 [s] [i] nv np w -> li_id i = n_item (o_next w0) ->
  (forall e w', grown w0 [s] [i] nv np w' -> Q (Err e) w') ->
  (forall w', grown w0 [s] [i] nv np w' -> Q (Ok (rename_item (app3 (vm_label vm) " - " name) i)) w') ->
  wp (name_item (li_id i) vm name) Q w.
Proof using HS.
  intros Hg Hid He Hok. unfold name_item. apply wp_ord. eapply wp_get_item; [exact Hg|done|by intros; apply He|].
  intros w1 Hg1. by apply Hok.
Qed.
Lemma wp_price_item s i i' nv np vm t Q w : grown w0 [s] [i] nv np w -> li_id i = n_item (o_next w0) -> li_id i' = li_id i ->
  (forall e w', grown w0 [s] [i] nv np w' -> Q (Err e) w') ->
  (forall p w' w1, get_custom_vm_cost_amount vm t w = (Ok p, w1) -> grown w0 [s] [set_amount (pr_total p.2) i'] nv np w' -> Q (Ok tt) w') ->
  wp (price_item vm t i') Q w.
Proof using HS.
  intros Hg Hid Hid' He Hok. unfold price_item. apply wp_ord. eapply wp_reading; [apply reads_cost|exact Hg|].
  intros [p|e] w1 Hg1 Ep; [|by apply He]. eapply wp_update_item; [exact Hg1|done|done|by intros; apply He|].
  intros w2 Hg2. by eapply Hok.
Qed.
End naming.
