(* ===== verification/OrderPlaced.v ===== *)
(** * Orders are placed whole, and what fails is never billed *)

From Stdlib Require Import Ascii String SpecFloat.
From stdpp Require Import list gmap.
From S2P Require Import Prelude TryProcedure NetText IpAlloc Network HostTypes Exchange Capacity SubDb Pricing Renewal Orders OrderProofs.

(** The orders, and the operation of each. *)
Inductive Order : Type :=
| Standard (user template image ssh_key : Z) (ref_code : option string)
| Custom (user : Z) (spec : SpecRow) (image ssh_key : Z) (ref_code : option string)
| Imported (host host_vm user : Z).

Section placed.
Context `{PR : !PaymentsRs, IC : !IsoCountry, NL : !NetLib, CK : !Clock, OS : !OrderServices}.

Definition place (o : Order) : Ord Vm :=
  match o with
  | Standard u t i k c => provision u t i k c
  | Custom u s i k c => provision_custom u s i k c
  | Imported h v u => import_vm h v u
  end.

Context (w0 : OrderWorld) (HS : sound w0).

Lemma no_specs : fresh_specs w0 [].
Proof. split; [constructor|cbn; lia]. Qed.
Lemma partial_specs np w : grown w0 [] [] [] np w -> fresh_specs w0 np -> partial w0 w.
Proof. intros Hg Hf. exists [], [], [], np. split; [done|by constructor]. Qed.
Lemma partial_none w : grown w0 [] [] [] [] w -> partial w0 w.
Proof. intros Hg. by eapply partial_specs, no_specs. Qed.
Lemma partial_subs s i np w : grown w0 [s] [i] [] np w -> fresh_specs w0 np -> fresh_sub w0 s -> fresh_item w0 i -> partial w0 w.
Proof. intros. exists [s], [i], [], np. split; [done|by constructor]. Qed.
Lemma partial_vm s i v np w : grown w0 [s] [i] [v] np w -> chain w0 [s] [i] [v] np -> partial w0 w.
Proof. intros. by exists [s], [i], [v], np. Qed.
Lemma wp_query_one {A} (f : OrderWorld -> list A) Q w : (forall e, Q (Err e) (bump w)) ->
  (forall a, head (f (bump w)) = Some a -> Q (Ok a) (bump w)) -> wp (query_one f) Q w.
Proof.
  intros He Hok. apply wp_statement; [done|]. unfold wp. cbn. destruct (head (f (bump w))) as [a|] eqn:Ea; cbn; auto.
Qed.
Lemma head_filter_in {A} (P : A -> Prop) `{forall x, Decision (P x)} l a : head (filter P l) = Some a -> P a /\ a ∈ l.
Proof. intros E. apply (list_elem_of_filter P l a). destruct (filter P l) as [|b l']; [done|]. injection E as ->. by left. Qed.

(** ** The machine and its rows, once its subscription is there *)

Definition linked (user item : Z) (vm : Vm) : Prop :=
  v_subscription_line_item_id vm = item /\ v_user_id vm = user /\ v_deleted vm = false.
Lemma new_key_free : n_vm (o_next w0) ∉ v_id <$> machines w0.
Proof using HS.
  intros (v & E & Hv)%list_elem_of_fmap. destruct (so_vms _ HS) as [_ Hb]. rewrite Forall_forall in Hb. specialize (Hb v Hv). lia.
Qed.
Lemma fresh_vm_with_key id user np vm : id ∉ v_id <$> machines w0 -> linked user (n_item (o_next w0)) vm ->
  of_template w0 np vm -> fresh_vm w0 user np (with_vm_id id vm).
Proof. intros Hid (H1 & H2 & H3) Ht. by split_and!. Qed.
Lemma fresh_renamed name s : fresh_sub w0 s -> fresh_sub w0 (rename_sub name s).
Proof. by intros [(?&?&?) ?]. Qed.
Lemma fresh_set name amount i : fresh_item w0 i -> fresh_item w0 (set_item name amount (li_type i) (li_configuration i) i).
Proof. by intros (?&?&?). Qed.
(** What the naming and pricing of the rows leave. *)
Definition outcome (P : Subscription -> SubscriptionLineItem -> Vm -> list SpecRow -> Prop) (r : res OrderFail Vm) (w : OrderWorld) : Prop :=
  match r with
  | Ok vm => exists s i np, grown w0 [s] [i] [vm] np w /\ chain w0 [s] [i] [vm] np /\ P s i vm np
  | Err _ => partial w0 w
  end.


(** The naming of the rows and what is written of the line item last. *)
Lemma wp_names s i v np id name (fin : SubscriptionLineItem -> Ord unit) (A : Z -> Prop) P w :
  grown w0 [s] [i] [v] np w -> fresh_specs w0 np -> fresh_sub w0 s -> fresh_item w0 i -> fresh_vm w0 (s_user_id s) np v ->
  (forall s' i' Q w, grown w0 [s'] [i] [v] np w -> li_id i' = li_id i -> li_amount i' = li_amount i ->
     (forall e w', grown w0 [s'] [i] [v] np w' -> Q (Err e) w') ->
     (forall a w', A a -> grown w0 [s'] [set_amount a i'] [v] np w' -> Q (Ok tt) w') -> wp (fin i') Q w) ->
  (forall n1 n2 a, A a -> P (rename_sub n1 s) (set_amount a (rename_item n2 i)) v np) ->
  wp (name_subscription (s_id s) id ;o li ←o name_item (li_id i) id name; fin li ;o fine v) (outcome P) w.
Proof using HS.
  intros Hg Hnp Hs Hi Hv Hfin HP. assert (s_id s = n_sub (o_next w0)) as Es by apply Hs.
  assert (li_id i = n_item (o_next w0)) as Ei by apply Hi.
  apply wp_ord. eapply (wp_name_subscription w0 HS); [exact Hg|done|intros e w1 Hg1|intros w1 Hg1].
  { cbn. by eapply partial_vm, chain_vm. }
  assert (chain w0 [rename_sub (app3 (vm_label id) " " "subscription") s] [i] [v] np) as Hc.
  { constructor; [done|by apply fresh_renamed|done|done]. }
  apply wp_ord. eapply (wp_name_item w0 HS); [exact Hg1|done|by intros; eapply partial_vm|intros w2 Hg2].
  apply wp_ord. eapply Hfin; [exact Hg2|done|done|by intros; eapply partial_vm|]. intros a w3 Ha Hg3.
  apply wp_ret. cbn. eexists _, _, np. split_and!; [exact Hg3| |by apply HP].
  constructor; [done|by apply fresh_renamed|by destruct Hi as (?&?&?)|done].
Qed.

(** ** What an order must meet *)

Definition allowed (enabled : bool) (expires : option Z) (arch : CpuArch) (user image ssh_key : Z) : Prop :=
  enabled = true /\ (forall e, expires = Some e -> clk (w_reads (o_world w0)) <= e) /\
    (exists img, img ∈ o_images w0 /\ im_id img = image /\ im_enabled img = true /\
    (im_cpu_arch img = ArchUnknown \/ arch = ArchUnknown \/ im_cpu_arch img = arch)) /\
    (exists key, key ∈ o_keys w0 /\ k_id key = ssh_key /\ k_user_id key = user).
Definition hosted {T} `{!Template T} (region : Z) (t : T) (vm : Vm) : Prop := exists c d,
  Capacity.get_host_for_template (cap_db w0) region t = Ok c /\ head (disks c) = Some d /\
    v_host_id vm = h_id (Capacity.host c) /\ v_disk_id vm = d_id (disk d).
Definition granted_standard (user template image ssh_key : Z) (s : Subscription) (i : SubscriptionLineItem) (vm : Vm) : Prop :=
  exists plan cost, plan ∈ o_plans w0 /\ t_id (pt_template plan) = template /\
    allowed (t_enabled (pt_template plan)) (pt_expires plan) (t_cpu_arch (pt_template plan)) user image ssh_key /\
    hosted (t_region_id (pt_template plan)) (pt_template plan) vm /\
    cost ∈ cat_cost_plans (o_base w0) /\ cp_id cost = t_cost_plan_id (pt_template plan) /\
    s_user_id s = user /\ s_currency s = cp_currency cost /\ s_interval_amount s = cp_interval_amount cost /\
    s_interval_type s = cp_interval_type cost /\ li_amount i = cp_amount cost /\
    v_template_id vm = Some template /\ v_ssh_key_id vm = Some ssh_key.

Lemma arch_ok a b w r w' : ensure_image_arch_compatible a b w = (Ok r, w') -> a = ArchUnknown \/ b = ArchUnknown \/ a = b.
Proof.
  unfold ensure_image_arch_compatible, require. case_bool_decide; [auto|]. case_bool_decide; [auto|]. cbn. case_bool_decide; [auto|done].
Qed.
Lemma not_expired_ok expires x w w' : not_expired expires w = (Ok x, w') ->
  forall e, expires = Some e -> clk (w_reads (o_world w)) <= e.
Proof.
  intros E e ->. unfold not_expired, utc_now in E. rewrite bind_run in E. cbn in E. unfold require in E.
  destruct (Z.ltb_spec e (clk (w_reads (o_world w)))); [done|lia].
Qed.
Lemma cap_db_grown w : grown w0 [] [] [] [] w -> cap_db w = cap_db w0.
Proof.
  intros [S I V P R _ _ _ _ _ _ _]. rewrite !app_nil_r in *. unfold rest in R. simplify_eq. unfold cap_db. congruence.
Qed.
Lemma capacity_ok {T} `{!Template T} region (t : T) c w w' : grown w0 [] [] [] [] w ->
  get_host_for_template region t w = (Ok c, w') -> Capacity.get_host_for_template (cap_db w0) region t = Ok c.
Proof.
  intros Hg. unfold get_host_for_template, statement. destruct (sql_ok _); [|done].
  rewrite <- (cap_db_grown (bump w)) by by apply grown_bump. by destruct (Capacity.get_host_for_template _ _ _) as [?|[]]; intros [= ->].
Qed.
End placed.

(** Failures before anything is written. *)
Ltac none_yet := apply partial_none; repeat apply grown_bump; first [eassumption | apply grown_refl].
(** One step: a row, a condition, or a program that only reads. *)
Ltac row_step a H := apply wp_ord, wp_query_one; [intros ?; cbn [outcome]; none_yet|intros a H%head_filter_in].
Ltac demand H := apply wp_ord; unfold require;
  lazymatch goal with |- wp (if ?b then _ else _) _ _ => destruct b eqn:H; [apply wp_ret|apply wp_ret; cbn [outcome]; none_yet] end.
Ltac read_step a w H Hg := apply wp_ord; eapply wp_reading; [solve [reads_tac]|repeat apply grown_bump; first [eassumption|apply grown_refl]|];
  intros [a|?] w Hg H; cbv beta iota; [|cbn [outcome]; none_yet].
Section standard.
Context `{PR : !PaymentsRs, IC : !IsoCountry, NL : !NetLib, CK : !Clock, OS : !OrderServices}.
Context (w0 : OrderWorld) (HS : sound w0).

Lemma rest_eq ns ni nv np w : grown w0 ns ni nv np w ->
  o_base w = o_base w0 /\ o_plans w = o_plans w0 /\ o_offers w = o_offers w0 /\ o_disks w = o_disks w0 /\ o_images w = o_images w0.
Proof. intros Hg. pose proof (gr_rest _ _ _ _ _ _ Hg) as R. unfold rest in R. by simplify_eq. Qed.
Lemma plan_in ns ni nv np w plan : grown w0 ns ni nv np w -> plan ∈ o_plans w -> plan ∈ o_plans w0.
Proof. intros Hg. by destruct (rest_eq _ _ _ _ _ Hg) as (_ & -> & _). Qed.

Lemma provision_outcome user template image ssh_key code :
  wp (provision user template image ssh_key code)
    (outcome w0 (fun s i vm np => np = [] /\ granted_standard w0 user template image ssh_key s i vm)) w0.
Proof using HS.
  unfold provision. row_step u Hu. row_step plan Hplan. row_step img Himg. row_step key Hkey.
  demand Hown. demand Hen. read_step x w1 Hexp Hg1. demand Himgen. read_step y w2 Harch Hg2.
  read_step c w3 Hcap Hg3. apply wp_ord. unfold or_fail. destruct (head (disks c)) as [d|] eqn:Ed; apply wp_ret; [|cbn [outcome]; none_yet].
  read_step r w4 Hr Hg4. row_step cost Hcost. apply wp_bind. eapply wp_reading; [apply keeps_utc_now|by apply grown_bump|].
  intros created w5 Hg5 _. apply wp_ord. eapply (wp_subscribe w0); [done|done|exact Hg5|by intros; apply partial_none|].
  intros s i w6 Hg6 Hs Hi. apply wp_ord.
  eapply (wp_insert_vm w0); [exact Hg6|done|by intros; eapply partial_subs; [eassumption|apply no_specs|..]|]. intros w7 Hg7.
  apply Z.eqb_eq in Hown. eapply (wp_names w0 HS s i _ [] _ _ _ (fun a => a = cp_amount cost)); [exact Hg7|apply no_specs|done|done| | |].
  - apply fresh_vm_with_key; [by apply new_key_free|done|]. apply list_elem_of_fmap. exists plan. split; [done|apply Hplan].
  - intros s' i' Q w Hg Hid Ha He Hok. eapply wp_update_item; [exact HS|exact Hg|apply Hi|done|done|]. intros w' Hg'.
    apply (Hok (li_amount i')); [by rewrite Ha|]. by destruct i'.
  - intros n1 n2 a ->. split; [done|]. exists plan, cost. destruct Hplan as [Et Hplan], Himg as [Eimg Himg], Hkey as [Ek Hkey].
    destruct (rest_eq _ _ _ _ _ Hg4) as (Eb & _). destruct Hcost as [Ec Hcost].
    split_and!; try done.
    + split_and!; [done|exact (not_expired_ok _ _ _ _ Hexp)|exists img; split_and!; try done; by eapply arch_ok|].
      exists key. split_and!; try done. destruct Hu. congruence.
    + exists c, d. split_and!; try done. exact (capacity_ok w0 _ _ _ _ _ Hg2 Hcap).
    + cbn in Hcost. by rewrite Eb in Hcost.
    + apply Hu.
    + cbn. by rewrite Et.
    + cbn. by rewrite Ek.
Qed.

(** ** Custom machines *)

Lemma catalog_rest w w' : o_base w' = o_base w -> o_offers w' = o_offers w -> forall vm t,
  Pricing.get_custom_vm_cost_amount (catalog w') vm t = Pricing.get_custom_vm_cost_amount (catalog w) vm t /\
  Pricing.validate_custom_vm_spec (catalog w') t = Pricing.validate_custom_vm_spec (catalog w) t.
Proof.
  intros Eb Eo vm t.
  unfold Pricing.get_custom_vm_cost_amount, Pricing.validate_custom_vm_spec, Pricing.get_custom_pricing,
    Pricing.list_custom_pricing_disk, Pricing.list_vm_ip_assignments, catalog. cbn. by rewrite Eb, Eo.
Qed.
(** The price of a configuration, by the tables that no order changes. *)
Definition priced (vm : Z) (t : VmCustomTemplate) (a : Z) : Prop :=
  exists p, Pricing.get_custom_vm_cost_amount (catalog w0) vm t = Ok p /\ a = pr_total p.2.
Lemma cost_ok ns ni nv np vm t p w w' : grown w0 ns ni nv np w -> get_custom_vm_cost_amount vm t w = (Ok p, w') ->
  priced vm t (pr_total p.2).
Proof.
  intros Hg. unfold get_custom_vm_cost_amount, statement. destruct (sql_ok _); [|done].
  destruct (rest_eq _ _ _ _ _ Hg) as (Eb & _ & Eo & _). destruct (catalog_rest w0 (bump w) Eb Eo vm t) as [-> _].
  intros [= E _]. exists p. split; [|done]. by destruct (Pricing.get_custom_vm_cost_amount _ _ _) as [?|[]]; simplify_eq/=.
Qed.
Lemma check_ok t x w w' : grown w0 [] [] [] [] w -> validate_custom_vm_spec t w = (Ok x, w') ->
  Pricing.validate_custom_vm_spec (catalog w0) t = Ok tt.
Proof.
  intros Hg. unfold validate_custom_vm_spec, statement. destruct (sql_ok _); [|done].
  destruct (rest_eq _ _ _ _ _ Hg) as (Eb & _ & Eo & _). destruct (catalog_rest w0 (bump w) Eb Eo 0 t) as [_ ->].
  intros [= E _]. by destruct (Pricing.validate_custom_vm_spec _ _) as [[]|[]].
Qed.
Lemma price_item_fin s i v np vm t s' i' Q w : fresh_item w0 i -> s_id s' = s_id s ->
  grown w0 [s'] [i] [v] np w -> li_id i' = li_id i ->
  (forall e w', grown w0 [s'] [i] [v] np w' -> Q (Err e) w') ->
  (forall a w', priced vm t a -> grown w0 [s'] [set_amount a i'] [v] np w' -> Q (Ok tt) w') -> wp (price_item vm t i') Q w.
Proof using HS.
  intros Hi _ Hg Hid He Hok. eapply (wp_price_item w0 HS); [exact Hg|apply Hi|done|done|].
  intros p w' w1 Ep Hg'. exact (Hok _ w' (cost_ok _ _ _ _ _ _ _ _ _ Hg Ep) Hg').
Qed.
Lemma custom_of_template row v : v_template_id v = None -> v_custom_template_id v = Some (ct_id (sp_template row)) -> of_template w0 [row] v.
Proof. intros Et Ec. unfold of_template. rewrite Et, Ec. by left. Qed.
Lemma one_spec s : fresh_specs w0 [stored_spec (n_spec (o_next w0)) s].
Proof. split; [by apply Forall_singleton|cbn; lia]. Qed.

Definition granted_custom (user : Z) (spec : SpecRow) (image ssh_key : Z) (s : Subscription) (i : SubscriptionLineItem) (vm : Vm)
    (np : list SpecRow) : Prop :=
  let t := sp_template spec in
  exists offer, offer ∈ o_offers w0 /\ vp_id (of_pricing offer) = ct_pricing_id t /\
    allowed w0 (vp_enabled (of_pricing offer)) (of_expires offer) (ct_cpu_arch t) user image ssh_key /\
    Pricing.validate_custom_vm_spec (catalog w0) t = Ok tt /\
    hosted w0 (vp_region_id (of_pricing offer)) t vm /\ np = [stored_spec (n_spec (o_next w0)) (with_limits (of_limits offer) spec)] /\
    s_user_id s = user /\ s_currency s = vp_currency (of_pricing offer) /\ s_interval_amount s = 1 /\ s_interval_type s = Month /\
    priced (v_id vm) t (li_amount i) /\ v_custom_template_id vm = Some (n_spec (o_next w0)) /\ v_ssh_key_id vm = Some ssh_key.
Lemma provision_custom_outcome user spec image ssh_key code :
  wp (provision_custom user spec image ssh_key code) (outcome w0 (granted_custom user spec image ssh_key)) w0.
Proof using HS.
  unfold provision_custom. row_step u Hu. row_step offer Hoffer. row_step img Himg. row_step key Hkey.
  demand Hown. demand Hen. read_step x w1 Hexp Hg1. demand Himgen. read_step y w2 Harch Hg2. read_step z w3 Hchk Hg3.
  read_step c w4 Hcap Hg4. apply wp_ord. unfold or_fail. destruct (head (disks c)) as [d|] eqn:Ed; apply wp_ret; [|cbn [outcome]; none_yet].
  apply wp_ord. eapply (wp_insert_spec w0); [exact Hg4|by intros; apply partial_none|]. intros w5 Hg5. set (row := stored_spec _ _) in Hg5.
  assert (fresh_specs w0 [row]) as Hrow by apply one_spec.
  apply wp_ord. eapply wp_reading; [solve [reads_tac]|exact Hg5|]. intros [r|e] w6 Hg6 _; [|by eapply partial_specs].
  apply wp_bind. eapply wp_reading; [apply keeps_utc_now|exact Hg6|]. intros created w7 Hg7 _.
  apply wp_ord. eapply (wp_subscribe w0); [done|done|exact Hg7|by intros; eapply partial_specs|].
  intros s i w8 Hg8 Hs Hi. apply wp_ord.
  eapply (wp_insert_vm w0); [exact Hg8|done|by intros; eapply partial_subs|]. intros w9 Hg9.
  apply Z.eqb_eq in Hown. eapply (wp_names w0 HS s i _ [row] _ _ _ (priced (n_vm (o_next w0)) (sp_template spec))); [exact Hg9|done|done|done| | |].
  - apply fresh_vm_with_key; [by apply new_key_free|done|]. by apply custom_of_template.
  - intros s' i' Q w Hg Hid _ He Hok. by eapply price_item_fin.
  - intros n1 n2 a Ha. exists offer. destruct Hoffer as [Eo Hoffer], Himg as [Eimg Himg], Hkey as [Ek Hkey]. split_and!; try done.
    + split_and!; [done|exact (not_expired_ok _ _ _ _ Hexp)|exists img; split_and!; try done; by eapply arch_ok|].
      exists key. split_and!; try done. destruct Hu. congruence.
    + exact (check_ok _ _ _ _ Hg2 Hchk).
    + exists c, d. split_and!; try done. exact (capacity_ok w0 _ _ _ _ _ Hg3 Hcap).
    + apply Hu.
    + cbn. by rewrite Ek.
Qed.

(** ** Imported machines *)

Lemma first_open_in l p w w' : first_open l w = (Some p, w') -> p ∈ l /\ vp_enabled (of_pricing p) = true.
Proof.
  revert w. induction l as [|q l IH]; intros w; cbn [first_open]; [done|].
  assert (first_open l w = (Some p, w') -> p ∈ q :: l /\ vp_enabled (of_pricing p) = true) as IHq.
  { intros E. destruct (IH _ E). split; [by right|done]. }
  destruct (vp_enabled (of_pricing q)) eqn:Ev; [|exact IHq]. destruct (of_expires q) as [e|].
  - rewrite bind_run. destruct (utc_now w) as [t w1]. cbn [fst snd]. destruct (t <? e); [rewrite ret_run; intros [= <- _]; split; [by left|done]|].
    intros E. destruct (IH _ E). split; [by right|done].
  - rewrite ret_run. intros [= <- _]. split; [by left|done].
Qed.
Lemma import_disk_in spec l d : import_disk spec l = Some d -> d ∈ l.
Proof.
  unfold import_disk. destruct (hv_disk_storage spec ≫= _) as [d'|] eqn:E.
  - intros [= ->]. destruct (hv_disk_storage spec); [|done]. by apply head_filter_in in E as [_ ?].
  - clear E. destruct (head (filter _ l)) as [d'|] eqn:E; [intros [= ->]; by apply head_filter_in in E as [_ ?]|].
    intros Hd%head_Some_elem_of. done.
Qed.
Lemma host_vms_ok h l w w' : list_host_vms h w = (Ok l, w') -> exists n, l = host_vms n h.
Proof.
  unfold list_host_vms. rewrite bind_run. cbn. rewrite ord_bind_run. destruct (host_call_ _ w) as [[x|e] w1]; [|done].
  intros [= <- _]. by eexists.
Qed.
Lemma query_ok {A} (f : OrderWorld -> A) a w w' : query f w = (Ok a, w') -> a = f (bump w).
Proof. unfold query, statement. destruct (sql_ok _); [|done]. by intros [= <- _]. Qed.
Lemma with_same_id vm : v_deleted vm = false -> with_vm_id (v_id vm) vm = vm.
Proof. destruct vm. by intros [= ->]. Qed.

(** What the host said of the machine is what is recorded of it. *)
Definition granted_import (host host_vm user : Z) (s : Subscription) (i : SubscriptionLineItem) (vm : Vm) (np : list SpecRow) : Prop :=
  exists h n spec offer d img row, h ∈ cat_hosts (o_base w0) /\ h_id h = host /\ spec ∈ host_vms n host /\
    hv_host_vm_id spec = host_vm /\ hv_mapped_vm_id spec = Some (v_id vm) /\
    offer ∈ o_offers w0 /\ vp_enabled (of_pricing offer) = true /\ vp_region_id (of_pricing offer) = h_region_id h /\
    d ∈ o_disks w0 /\ d_host_id (dr_disk d) = host /\ img ∈ o_images w0 /\ im_enabled img = true /\
    row = stored_spec (n_spec (o_next w0)) (imported_spec spec d offer) /\ np = [row] /\
    v_host_id vm = host /\ v_disk_id vm = d_id (dr_disk d) /\ v_ssh_key_id vm = None /\
    v_mac_address vm = default UNASSIGNED_MAC (hv_mac_address spec) /\
    s_user_id s = user /\ s_interval_amount s = 1 /\ s_interval_type s = Month /\
    priced (v_id vm) (sp_template (imported_spec spec d offer)) (li_amount i).
Lemma import_vm_outcome host host_vm user :
  wp (import_vm host host_vm user) (outcome w0 (granted_import host host_vm user)) w0.
Proof using HS.
  unfold import_vm. row_step u Hu. row_step h Hh. read_step x w1 Hcl Hg1. read_step fnd w2 Hfound Hg2.
  apply wp_ord. unfold or_fail at 1. destruct (head (filter _ fnd)) as [spec|] eqn:Espec; apply wp_ret; [|cbn [outcome]; none_yet].
  apply wp_ord. unfold or_fail at 1. destruct (hv_mapped_vm_id spec) as [vm_id|] eqn:Eid; apply wp_ret; [|cbn [outcome]; none_yet].
  read_step y w3 Htr Hg3. read_step offers w4 Hoffers Hg4.
  apply wp_bind. eapply wp_reading; [apply reads_open|exact Hg4|]. intros open w5 Hg5 Hopen.
  apply wp_ord. unfold or_fail at 1. destruct open as [offer|]; apply wp_ret; [|cbn [outcome]; none_yet].
  read_step ds w6 Hds Hg6. apply wp_ord. unfold or_fail at 1. destruct (import_disk spec ds) as [d|] eqn:Ed; apply wp_ret; [|cbn [outcome]; none_yet].
  read_step imgs w7 Himgs Hg7. apply wp_ord. unfold or_fail at 1.
  destruct (head (filter _ imgs)) as [img|] eqn:Eimg; apply wp_ret; [|cbn [outcome]; none_yet].
  apply wp_ord. eapply (wp_insert_spec w0); [exact Hg7|by intros; apply partial_none|]. intros w8 Hg8. set (row := stored_spec _ _) in Hg8.
  assert (fresh_specs w0 [row]) as Hrow by apply one_spec.
  apply wp_ord. eapply wp_reading; [solve [reads_tac]|exact Hg8|]. intros [r|e] w9 Hg9 _; [|by eapply partial_specs].
  apply wp_bind. eapply wp_reading; [apply keeps_utc_now|exact Hg9|]. intros created w10 Hg10 _.
  apply wp_ord. eapply (wp_subscribe w0); [done|done|exact Hg10|by intros; eapply partial_specs|].
  intros s i w11 Hg11 Hs Hi. apply wp_ord.
  eapply (wp_insert_vm_with_id w0); [exact Hg11|done|by intros; eapply partial_subs|]. intros w12 Hfree Hg12. rewrite with_same_id in Hg12 by done.
  eapply (wp_names w0 HS s i _ [row] _ _ _ (priced vm_id (sp_template (imported_spec spec d offer)))); [exact Hg12|done|done|done| | |].
  - rewrite <- (with_same_id (new_vm _ _ _ _ _ _ _ _ _)) by done. apply fresh_vm_with_key; [exact Hfree|done|]. by apply custom_of_template.
  - intros s' i' Q w Hg Hid _ He Hok. by eapply price_item_fin.
  - intros n1 n2 a Ha. destruct (host_vms_ok _ _ _ _ Hfound) as [n ->]. destruct Hh as [Eh Hh].
    apply head_filter_in in Espec as [Evm Espec]. apply import_disk_in in Ed. apply head_filter_in in Eimg as [Een Eimg].
    destruct (first_open_in _ _ _ _ Hopen) as [Hin Hen]. apply query_ok in Hoffers as ->. apply query_ok in Hds as ->. apply query_ok in Himgs as ->.
    apply list_elem_of_filter in Hin as [Ereg Hin]. apply list_elem_of_filter in Ed as [[Edh _] Ed].
    destruct (rest_eq _ _ _ _ _ Hg3) as (_ & _ & Eo3 & _), (rest_eq _ _ _ _ _ Hg5) as (_ & _ & _ & Ed5 & _), (rest_eq _ _ _ _ _ Hg6) as (_ & _ & _ & _ & Ei6).
    exists h, n, spec, offer, d, img, row. rewrite Eh in *. cbn in Hin, Ed, Eimg. split_and!; try done; try congruence.
    apply Hu.
Qed.
Lemma place_outcome o : wp (place o) (fun r w => partial w0 w /\ forall vm, r = Ok vm ->
  exists s i np, grown w0 [s] [i] [vm] np w /\ chain w0 [s] [i] [vm] np /\
    match o with
    | Standard u t m k _ => np = [] /\ granted_standard w0 u t m k s i vm
    | Custom u spec m k _ => granted_custom u spec m k s i vm np
    | Imported h v u => granted_import h v u s i vm np
    end) w0.
Proof using HS.
  assert (forall (m : Ord Vm) P, wp m (outcome w0 P) w0 -> wp m (fun r w => partial w0 w /\ forall vm, r = Ok vm ->
    exists s i np, grown w0 [s] [i] [vm] np w /\ chain w0 [s] [i] [vm] np /\ P s i vm np) w0) as Hout.
  { intros m P Hm. eapply wp_mono; [exact Hm|]. intros [vm|e] w; cbn; [|done].
    intros (s & i & np & Hg & Hc & HP). split; [by eapply partial_vm|]. intros ? [= <-]. by exists s, i, np. }
  destruct o; apply Hout; [apply provision_outcome|apply provision_custom_outcome|apply import_vm_outcome].
Qed.
End standard.

(** * The tables stay sound *)

(** ** Keys *)

Lemma keyed_fresh {A} (f : A -> Z) n m l : keyed f n l -> n <= m -> keyed f m l.
Proof. intros [Hd Hf] Hm. split; [done|]. eapply Forall_impl; [exact Hf|]. intros x. cbn. lia. Qed.
Lemma keyed_snoc {A} (f : A -> Z) n m l x : keyed f n l -> f x ∉ f <$> l -> n <= m -> f x < m -> keyed f m (l ++ [x]).
Proof.
  intros Hk Hx Hm Hlt. destruct (keyed_fresh f n m l Hk Hm) as [Hd Hf]. split.
  - rewrite fmap_app. apply NoDup_app. split_and!; [done| |apply NoDup_singleton].
    intros y Hy Hin%list_elem_of_singleton. by subst.
  - by apply Forall_app_2; [|apply Forall_singleton].
Qed.
Lemma keyed_notin {A} (f : A -> Z) n l k : keyed f n l -> n <= k -> k ∉ f <$> l.
Proof. intros [_ Hf] Hk (x & -> & Hx)%list_elem_of_fmap. rewrite Forall_forall in Hf. specialize (Hf x Hx). lia. Qed.
Lemma keyed_next {A} (f : A -> Z) n l x : keyed f n l -> f x = n -> keyed f (n + 1) (l ++ [x]).
Proof. intros Hk Hx. eapply keyed_snoc; [exact Hk|eapply keyed_notin; [exact Hk|lia]|lia|lia]. Qed.

Section order_sound.
Context `{PR : !PaymentsRs, IC : !IsoCountry, NL : !NetLib, CK : !Clock, OS : !OrderServices}.

Lemma of_template_more w w' np np' v : o_plans w' = o_plans w -> (forall s, s ∈ np -> s ∈ np') ->
  of_template w np v -> of_template w' np' v.
Proof.
  intros Ep Hin. unfold of_template. rewrite Ep. destruct (v_template_id v), (v_custom_template_id v); try done.
  intros (s & -> & Hs)%list_elem_of_fmap. apply list_elem_of_fmap. exists s. auto.
Qed.
Section from.
Context (w w' : OrderWorld) (HS : sound w).

Lemma paid_by_more ns ni nv np v : grown w ns ni nv np w' -> paid_by w v -> paid_by w' v.
Proof.
  intros Hg (i & s & Hi & E1 & E2 & Hs & E3 & E4). exists i, s. rewrite (gr_items _ _ _ _ _ _ Hg), (gr_subs _ _ _ _ _ _ Hg).
  rewrite !elem_of_app. split_and!; auto.
Qed.
Lemma item_used v : v ∈ machines w -> v_subscription_line_item_id v < n_item (o_next w).
Proof using HS.
  intros Hv. destruct (proj1 (Forall_forall _ _) (so_paid _ HS) v Hv) as (i & _ & Hi & <- & _).
  destruct (so_items _ HS) as [_ Hf]. rewrite Forall_forall in Hf. by apply Hf.
Qed.
Lemma spec_used v c : v ∈ machines w -> v_custom_template_id v = Some c -> c < n_spec (o_next w).
Proof using HS.
  intros Hv Ec. pose proof (proj1 (Forall_forall _ _) (so_template _ HS) v Hv) as Ht.
  unfold of_template in Ht. rewrite Ec in Ht. destruct (v_template_id v); [done|].
  apply list_elem_of_fmap in Ht as (s & -> & Hs). destruct (so_specs _ HS) as [_ Hf]. rewrite Forall_forall in Hf. by apply Hf.
Qed.
(** The tables of subscriptions, line items and custom templates. *)
Lemma sound_specs ns ni nv np : grown w ns ni nv np w' -> fresh_specs w np ->
  keyed (fun s => ct_id (sp_template s)) (n_spec (o_next w')) (o_specs w').
Proof using HS.
  intros Hg [Hf Hl]. rewrite (gr_specs _ _ _ _ _ _ Hg), (gr_n_spec _ _ _ _ _ _ Hg).
  destruct np as [|s [|s' np]]; [rewrite app_nil_r; eapply keyed_fresh; [apply HS|cbn; lia]| |cbn in Hl; lia].
  apply (keyed_next (fun s => ct_id (sp_template s))); [apply HS|exact (proj1 (Forall_singleton _ _) Hf)].
Qed.
Lemma sound_same_vms ns ni np : grown w ns ni [] np w' -> fresh_specs w np ->
  keyed s_id (n_sub (o_next w')) (subs w') -> keyed li_id (n_item (o_next w')) (items w') -> sound w'.
Proof using HS.
  intros Hg Hf Hs Hi. pose proof (gr_vms _ _ _ _ _ _ Hg) as Ev. rewrite app_nil_r in Ev.
  destruct (rest_eq _ _ _ _ _ _ Hg) as (_ & Ep & _). constructor; try done; rewrite ?Ev.
  - rewrite (gr_n_vm _ _ _ _ _ _ Hg). apply HS.
  - by eapply sound_specs.
  - eapply Forall_impl; [exact (so_paid _ HS)|]. intros v. by eapply paid_by_more.
  - eapply Forall_impl; [exact (so_template _ HS)|]. intros v. apply of_template_more; [done|]. intros s. rewrite (gr_specs _ _ _ _ _ _ Hg), elem_of_app. auto.
  - eapply Forall_impl; [exact (so_image _ HS)|]. intros v Hv. apply (gr_image _ _ _ _ _ _ Hg). by left.
  - exact (so_own_item _ HS).
  - exact (so_own_spec _ HS).
Qed.
Lemma sound_new_vm s i v np : grown w [s] [i] [v] np w' -> fresh_specs w np -> fresh_sub w s -> fresh_item w i ->
  fresh_vm w (s_user_id s) np v -> sound w'.
Proof using HS.
  intros Hg Hf [Hu Hs] (Hi & Hl & Ht) (Ei & Eu & Hfree & Hd & Hof). destruct (rest_eq _ _ _ _ _ _ Hg) as (_ & Ep & _).
  constructor; rewrite ?(gr_vms _ _ _ _ _ _ Hg).
  - rewrite (gr_subs _ _ _ _ _ _ Hg), (gr_n_sub _ _ _ _ _ _ Hg). by apply keyed_next; [apply HS|].
  - rewrite (gr_items _ _ _ _ _ _ Hg), (gr_n_item _ _ _ _ _ _ Hg). by apply keyed_next; [apply HS|].
  - rewrite (gr_n_vm _ _ _ _ _ _ Hg). cbn. eapply keyed_snoc; [apply HS|done|lia|lia].
  - by eapply sound_specs.
  - apply Forall_app_2; [eapply Forall_impl; [exact (so_paid _ HS)|]; intros x; by eapply paid_by_more|]. apply Forall_singleton.
    exists i, s. rewrite (gr_items _ _ _ _ _ _ Hg), (gr_subs _ _ _ _ _ _ Hg), !elem_of_app, !list_elem_of_singleton.
    split_and!; auto; congruence.
  - apply Forall_app_2.
    + eapply Forall_impl; [exact (so_template _ HS)|]. intros x. apply of_template_more; [done|]. intros r. rewrite (gr_specs _ _ _ _ _ _ Hg), elem_of_app. auto.
    + apply Forall_singleton. eapply of_template_more; [done| |exact Hof]. intros r. rewrite (gr_specs _ _ _ _ _ _ Hg), elem_of_app. auto.
  - apply Forall_app_2; [eapply Forall_impl; [exact (so_image _ HS)|]; intros x Hx; apply (gr_image _ _ _ _ _ _ Hg); by left|].
    apply Forall_singleton, (gr_image _ _ _ _ _ _ Hg). right. by apply list_elem_of_singleton.
  - rewrite fmap_app. apply NoDup_app. split_and!; [exact (so_own_item _ HS)| |apply NoDup_singleton].
    intros x (v' & -> & Hv')%list_elem_of_fmap Hx%list_elem_of_singleton. apply item_used in Hv'. lia.
  - assert (forall c, v_custom_template_id v = Some c -> n_spec (o_next w) <= c) as Hnew.
    { intros c Ec. unfold of_template in Hof. rewrite Ec in Hof. destruct (v_template_id v); [done|].
      apply list_elem_of_fmap in Hof as (r & -> & Hr). destruct Hf as [Hf _]. rewrite Forall_forall in Hf. specialize (Hf r Hr).
      unfold fresh_spec in Hf. lia. }
    intros v1 v2 c [H1| ->%list_elem_of_singleton]%elem_of_app [H2| ->%list_elem_of_singleton]%elem_of_app E1 E2; try done.
    + by eapply (so_own_spec _ HS).
    + pose proof (spec_used _ _ H1 E1). specialize (Hnew _ E2). lia.
    + pose proof (spec_used _ _ H2 E2). specialize (Hnew _ E1). lia.
Qed.
Lemma partial_sound : partial w w' -> sound w'.
Proof using HS.
  intros (ns & ni & nv & np & Hg & Hc). inversion Hc as [np' Hf|s i np' Hf Hs Hi|s i v np' Hf Hs Hi Hv]; subst.
  - eapply sound_same_vms; [exact Hg|done| |].
    + rewrite (gr_subs _ _ _ _ _ _ Hg), (gr_n_sub _ _ _ _ _ _ Hg), app_nil_r, Z.add_0_r. apply HS.
    + rewrite (gr_items _ _ _ _ _ _ Hg), (gr_n_item _ _ _ _ _ _ Hg), app_nil_r, Z.add_0_r. apply HS.
  - eapply sound_same_vms; [exact Hg|done| |].
    + rewrite (gr_subs _ _ _ _ _ _ Hg), (gr_n_sub _ _ _ _ _ _ Hg). by apply keyed_next; [apply HS|apply Hs].
    + rewrite (gr_items _ _ _ _ _ _ Hg), (gr_n_item _ _ _ _ _ _ Hg). by apply keyed_next; [apply HS|apply Hi].
  - by eapply sound_new_vm.
Qed.
End from.
Lemma same_sound w w' : sound w -> same w w' -> sound w'.
Proof. intros HS Hs. apply (partial_sound w); [done|]. apply partial_none. exact Hs. Qed.
Lemma place_sound o w : sound w -> sound (place o w).2.
Proof.
  intros HS. pose proof (place_outcome w HS o) as Hw. unfold wp in Hw. apply (partial_sound w); [done|]. apply Hw.
Qed.
End order_sound.
