(* ===== verification/UpgradeProofs.v ===== *)
(** * What an upgrade does to the rows *)

From Stdlib Require Import Ascii String SpecFloat.
From stdpp Require Import list gmap.
From S2P Require Import Prelude TryProcedure NetText IpAlloc Network HostTypes Exchange Capacity SubDb Pricing Renewal Orders OrderProofs OrderPlaced Upgrade.

Section upgrade_proofs.
Context `{PR : !PaymentsRs, IC : !IsoCountry, NL : !NetLib, CK : !Clock, OS : !OrderServices}.

(** ** The size of a machine *)

Definition size_of (plans : list PlanRow) (specs : list SpecRow) (v : Vm) : option Specs :=
  match v_template_id v, v_custom_template_id v with
  | Some t, _ => plan_specs <$> head (filter (fun p => t_id (pt_template p) = t) plans)
  | None, Some c => custom_specs <$> head (filter (fun s => ct_id (sp_template s) = c) specs)
  | None, None => None
  end.
Definition specs_of (w : OrderWorld) (v : Vm) : option Specs := size_of (o_plans w) (o_specs w) v.
(** What is asked for, in place of what the machine has. *)
Definition wanted (cfg : UpgradeConfig) (x : Specs) : Specs :=
  {| rs_cpu := default (rs_cpu x) (new_cpu cfg); rs_memory := default (rs_memory x) (new_memory cfg);
     rs_disk_size := default (rs_disk_size x) (new_disk cfg) |}.
Definition specs_le (x y : Specs) : Prop :=
  rs_cpu x <= rs_cpu y /\ rs_memory x <= rs_memory y /\ rs_disk_size x <= rs_disk_size y.
#[export] Instance specs_le_pre : PreOrder specs_le.
Proof. split; [intros x|intros x y z]; unfold specs_le; lia. Qed.

Lemma head_filter_key {A} (f : A -> Z) (l : list A) x : NoDup (f <$> l) -> x ∈ l -> head (filter (fun y => f y = f x) l) = Some x.
Proof.
  intros Hd Hx. pose proof (fetch_one_key f l x Hd Hx) as E. unfold fetch_one in E. by destruct (head _) as [y|]; simplify_eq/=.
Qed.
Lemma specs_of_plan w v t p : v_template_id v = Some t -> head (filter (fun p => t_id (pt_template p) = t) (o_plans w)) = Some p ->
  specs_of w v = Some (plan_specs p).
Proof. intros Et Ep. unfold specs_of, size_of. by rewrite Et, Ep. Qed.
Lemma specs_of_custom w v c s : sound w -> v_template_id v = None -> v_custom_template_id v = Some c ->
  s ∈ o_specs w -> ct_id (sp_template s) = c -> specs_of w v = Some (custom_specs s).
Proof.
  intros HS Et Ec Hs <-. unfold specs_of, size_of. rewrite Et, Ec.
  by rewrite (head_filter_key (fun s => ct_id (sp_template s))); [|apply (so_specs _ HS)|].
Qed.

(** ** What billing may change

    The amount of the machine's line item, and the interval of its subscription. *)

Definition same_item (k : Z) (i i' : SubscriptionLineItem) : Prop :=
  li_id i' = li_id i /\ li_subscription_id i' = li_subscription_id i /\ (li_type i = Vps -> li_type i' = Vps) /\ (li_id i <> k -> i' = i).
Definition same_sub (s s' : Subscription) : Prop :=
  s_id s' = s_id s /\ s_user_id s' = s_user_id s /\ s_is_active s' = s_is_active s /\ s_is_setup s' = s_is_setup s.
Record billed (k : Z) (w w' : OrderWorld) : Prop := {
  bl_vms : machines w' = machines w; bl_specs : o_specs w' = o_specs w; bl_rest : rest w' = rest w;
  bl_next : o_next w' = o_next w; bl_log : o_log w `prefix_of` o_log w';
  bl_image : forall id, is_Some (o_image_id w !! id) -> is_Some (o_image_id w' !! id);
  bl_items : Forall2 (same_item k) (items w) (items w'); bl_subs : Forall2 same_sub (subs w) (subs w')
}.
#[export] Instance same_item_pre k : PreOrder (same_item k).
Proof.
  split; [by intros i|]. intros i j l (E1 & E2 & E3 & E4) (F1 & F2 & F3 & F4). split_and!; [congruence|congruence|auto|].
  intros Hk. rewrite F4, E4; congruence.
Qed.
#[export] Instance same_sub_pre : PreOrder same_sub.
Proof. split; [by intros s|]. intros a b c (?&?&?&?) (?&?&?&?). split_and!; congruence. Qed.
#[export] Instance billed_pre k : PreOrder (billed k).
Proof.
  split; [by intros w; constructor|]. intros w1 w2 w3 [] []. constructor; try congruence; try by etrans. auto.
Qed.
Lemma same_billed k w w' : same w w' -> billed k w w'.
Proof.
  intros [S I V P R H N1 N2 N3 N4 G M]. rewrite !app_nil_r in *. cbn in *. rewrite !Z.add_0_r in *.
  constructor; try done; [|auto|by rewrite I|by rewrite S]. destruct (o_next w), (o_next w'). cbn in *. congruence.
Qed.
Lemma billed_rest k w w' : billed k w w' -> o_plans w' = o_plans w /\ o_base w' = o_base w /\ o_offers w' = o_offers w.
Proof. intros Hb. pose proof (bl_rest _ _ _ Hb) as R. unfold rest in R. by simplify_eq. Qed.
Lemma billed_specs k w w' v : billed k w w' -> specs_of w' v = specs_of w v.
Proof. intros Hb. unfold specs_of. by rewrite (bl_specs _ _ _ Hb), (proj1 (billed_rest _ _ _ Hb)). Qed.

Lemma keyed_forall2 {A} (f : A -> Z) (R : A -> A -> Prop) n l l' : (forall x y, R x y -> f y = f x) -> Forall2 R l l' ->
  keyed f n l -> keyed f n l'.
Proof.
  intros HR Hl [Hd Hf]. assert (f <$> l' = f <$> l) as E.
  { clear Hd Hf. induction Hl as [|x y l l' H _ IH]; [done|]. cbn. f_equal; [by apply HR|done]. }
  split; [by rewrite E|]. clear E Hd. induction Hl as [|x y l l' H _ IH]; [constructor|]. apply Forall_cons in Hf as [? ?].
  constructor; [by rewrite (HR x y)|auto].
Qed.
Lemma billed_sound k w w' : billed k w w' -> sound w -> sound w'.
Proof.
  intros Hb HS. destruct (billed_rest _ _ _ Hb) as (Ep & _). destruct Hb as [V P R N G M I S]. constructor; rewrite ?V, ?P, ?N.
  - eapply keyed_forall2; [|exact S|apply HS]. by intros ?? [].
  - eapply keyed_forall2; [|exact I|apply HS]. by intros ?? [].
  - exact (so_vms _ HS).
  - exact (so_specs _ HS).
  - eapply Forall_impl; [exact (so_paid _ HS)|]. intros v (i & s & Hi & E1 & E2 & Hs & E3 & E4).
    apply list_elem_of_lookup in Hi as [x Hx], Hs as [y Hy].
    destruct (Forall2_lookup_l _ _ _ _ _ I Hx) as (i' & Hi' & F1 & F2 & F3 & _).
    destruct (Forall2_lookup_l _ _ _ _ _ S Hy) as (s' & Hs' & G1 & G2 & _).
    exists i', s'. split_and!; try congruence; [by eapply list_elem_of_lookup_2|by apply F3|by eapply list_elem_of_lookup_2].
  - eapply Forall_impl; [exact (so_template _ HS)|]. intros v. apply of_template_more; auto.
  - eapply Forall_impl; [exact (so_image _ HS)|]. intros v. apply M.
  - exact (so_own_item _ HS).
  - exact (so_own_spec _ HS).
Qed.

(** ** The statements that bill *)

Lemma fetch_in {A} (l : list A) (P : A -> Prop) `{forall x, Decision (P x)} a : fetch_one (filter P l) = Ok a -> P a /\ a ∈ l.
Proof. intros Hin%fetch_one_in. by apply list_elem_of_filter in Hin. Qed.
Lemma get_sub_ok id s w w' : get_subscription id w = (Ok s, w') -> s_id s = id /\ s ∈ subs w.
Proof.
  unfold get_subscription, on_rows, statement. destruct (sql_ok _); [|done]. unfold on_world. rewrite bind_run. cbn.
  intros [= E _]. destruct (fetch_one _) as [a|[]] eqn:Ef; simplify_eq/=. by apply fetch_in in Ef.
Qed.
Lemma get_item_ok id i w w' : get_subscription_line_item id w = (Ok i, w') -> li_id i = id /\ i ∈ items w.
Proof.
  unfold get_subscription_line_item, on_rows, statement. destruct (sql_ok _); [|done]. unfold on_world. rewrite bind_run. cbn.
  intros [= E _]. destruct (fetch_one _) as [a|[]] eqn:Ef; simplify_eq/=. by apply fetch_in in Ef.
Qed.
Lemma keyed_unique {A} (f : A -> Z) n l x y : keyed f n l -> x ∈ l -> y ∈ l -> f x = f y -> x = y.
Proof.
  intros [Hd _] Hx Hy E. apply list_elem_of_lookup in Hx as [i Hi], Hy as [j Hj].
  assert (i = j) as <-; [|congruence]. eapply (NoDup_lookup (f <$> l)); [done| |]; rewrite list_lookup_fmap; [by rewrite Hi|by rewrite Hj, E].
Qed.
Lemma update_forall2 {A} (f : A -> Z) (g : A -> A) (R : A -> A -> Prop) `{!Reflexive R} n l x : keyed f n l -> x ∈ l -> R x (g x) ->
  Forall2 R l ((fun old => if decide (f old = f x) then g old else old) <$> l).
Proof.
  intros Hk Hx HR. apply Forall2_fmap_r, Forall_Forall2_diag, Forall_forall. intros y Hy. unfold compose. case_decide as E; [|done].
  by rewrite (keyed_unique f n l y x Hk Hy Hx E).
Qed.
Lemma bill_sub k s w : sound w -> s ∈ subs w ->
  let w' := (update_subscription (bill_monthly s) w).2 in billed k w w' /\ items w' = items w.
Proof.
  intros HS Hs. unfold update_subscription, on_rows, statement. destruct (sql_ok _).
  2: { split; [by apply same_billed, same_logs|done]. }
  unfold on_world. rewrite !bind_run. cbn. split; [|done]. constructor; try done. cbn.
  apply (update_forall2 s_id (fun old => written (bill_monthly s) old) same_sub (n_sub (o_next w))); [apply HS|done|done].
Qed.
Lemma bill_item li li' w : sound w -> li ∈ items w -> same_item (li_id li) li li' ->
  billed (li_id li) w (update_subscription_line_item li' w).2.
Proof.
  intros HS Hli Hsame. unfold update_subscription_line_item, on_rows, statement. destruct (sql_ok _); [|apply same_billed, same_logs; done].
  unfold on_world. rewrite !bind_run. cbn. constructor; try done. cbn. destruct Hsame as (E & Hr). rewrite E.
  by apply (update_forall2 li_id (fun _ => li') (same_item (li_id li)) (n_item (o_next w))); [apply HS|done|].
Qed.
Lemma log_billed k vm : keeps (billed k) (log_configuration_changed vm).
Proof.
  intros w. unfold log_configuration_changed. rewrite bind_run. unfold on_rows, statement. destruct (sql_ok _).
  - constructor; done.
  - by apply same_billed, same_logs.
Qed.

Lemma wp_eq {A} (m : ST OrderWorld A) (Q : A -> OrderWorld -> Prop) w : (forall r w', m w = (r, w') -> Q r w') -> wp m Q w.
Proof. intros HQ. unfold wp. destruct (m w) as [r w'] eqn:E. by apply HQ. Qed.
Lemma wp_billed {A} (m : ST OrderWorld A) k w w1 : billed k w w1 -> billed k w1 (m w1).2 -> wp m (fun _ w' => billed k w w') w1.
Proof. unfold wp. intros. by etrans. Qed.
Lemma reading {A} (m : ST OrderWorld A) w r w' : keeps same m -> m w = (r, w') -> same w w'.
Proof. intros Hm E. specialize (Hm w). by rewrite E in Hm. Qed.
Lemma same_items w w' : same w w' -> items w' = items w.
Proof. intros Hs. pose proof (gr_items _ _ _ _ _ _ Hs) as E. by rewrite app_nil_r in E. Qed.
Lemma same_vms w w' : same w w' -> machines w' = machines w.
Proof. intros Hs. pose proof (gr_vms _ _ _ _ _ _ Hs) as E. by rewrite app_nil_r in E. Qed.
Lemma same_subs w w' : same w w' -> subs w' = subs w.
Proof. intros Hs. pose proof (gr_subs _ _ _ _ _ _ Hs) as E. by rewrite app_nil_r in E. Qed.
Lemma same_specs w w' : same w w' -> o_specs w' = o_specs w.
Proof. intros Hs. pose proof (gr_specs _ _ _ _ _ _ Hs) as E. by rewrite app_nil_r in E. Qed.

Lemma rebill_billed vm t k f w : sound w -> (forall p li, same_item (li_id li) li (f p li)) ->
  billed k w (ord_bind (get_custom_vm_cost_amount vm t) (fun p =>
    ord_bind (get_subscription_line_item k) (fun li => update_subscription_line_item (f p li))) w).2.
Proof.
  intros HS Hf. change (wp (ord_bind (get_custom_vm_cost_amount vm t) (fun p =>
    ord_bind (get_subscription_line_item k) (fun li => update_subscription_line_item (f p li)))) (fun _ w' => billed k w w') w).
  apply wp_ord, wp_eq. intros [p|e] w1 E1; apply (reading _ _ _ _ (reads_cost _ _)) in E1 as S1; [|by apply same_billed].
  apply wp_ord, wp_eq. intros [li|e] w2 E2; apply (reading _ _ _ _ (reads_item _)) in E2 as S2; [|by apply same_billed; etrans].
  apply get_item_ok in E2 as [<- Hli]. apply wp_billed; [apply same_billed; by etrans|].
  rewrite <- (same_items _ _ S2) in Hli. apply bill_item; [|done|apply Hf]. eapply same_sound; [|exact S2]. by eapply same_sound.
Qed.
Lemma convert_tail_billed vm spec cfg k w : sound w ->
  billed k w ((line_item ←o get_subscription_line_item k;
    subscription ←o get_subscription (li_subscription_id line_item);
    update_subscription (bill_monthly subscription) ;o
    new_price ←o get_custom_vm_cost_amount vm (sp_template spec);
    update_subscription_line_item (set_item (li_name line_item) (pr_total new_price.2) Vps (Some (upgrade_json cfg)) line_item)) w).2.
Proof.
  intros HS. match goal with |- billed k w (?m w).2 => change (wp m (fun _ w' => billed k w w') w) end.
  apply wp_ord, wp_eq. intros [li|e] w1 E1; apply (reading _ _ _ _ (reads_item _)) in E1 as S1; [|by apply same_billed].
  apply get_item_ok in E1 as [<- Hli].
  apply wp_ord, wp_eq. intros [s|e] w2 E2; apply (reading _ _ _ _ (reads_sub _)) in E2 as S2; [|by apply same_billed; etrans].
  apply get_sub_ok in E2 as [_ Hs]. rewrite <- (same_subs _ _ S2) in Hs. rewrite <- (same_items _ _ S1), <- (same_items _ _ S2) in Hli.
  assert (sound w2) as HS2 by (eapply same_sound; [by eapply same_sound|done]).
  apply wp_ord, wp_eq. intros r w3 E3. destruct (bill_sub (li_id li) s w2 HS2 Hs) as [B3 I3]. rewrite E3 in B3, I3. cbn in B3, I3.
  assert (billed (li_id li) w w3) as B by (etrans; [apply same_billed; by etrans|done]). destruct r as [[]|e]; [|done].
  assert (sound w3) as HS3 by by eapply billed_sound.
  apply wp_ord, wp_eq. intros [p|e] w4 E4; apply (reading _ _ _ _ (reads_cost _ _)) in E4 as S4; [|etrans; [exact B|by apply same_billed]].
  apply wp_billed; [etrans; [exact B|by apply same_billed]|]. rewrite <- I3, <- (same_items _ _ S4) in Hli.
  apply bill_item; [by eapply same_sound|done|done].
Qed.
End upgrade_proofs.
