(* ===== verification/UpgradeSize.v ===== *)
(** * An upgrade never shrinks a machine, and changes no other *)

From Stdlib Require Import Ascii String SpecFloat.
From stdpp Require Import list gmap.
From S2P Require Import Prelude TryProcedure NetText IpAlloc Network HostTypes Exchange Capacity SubDb Pricing Renewal Orders OrderProofs OrderPlaced Upgrade UpgradeProofs.

Lemma head_filter_some {A} (P : A -> Prop) `{forall x, Decision (P x)} (l : list A) x : x ∈ l -> P x -> exists y, head (filter P l) = Some y.
Proof.
  intros Hx HP. assert (x ∈ filter P l) as Hin by by apply list_elem_of_filter.
  destruct (filter P l) as [|y l']; [by apply elem_of_nil in Hin|by exists y].
Qed.
Lemma head_filter_app {A} (P : A -> Prop) `{forall x, Decision (P x)} (l l' : list A) y :
  head (filter P l) = Some y -> head (filter P (l ++ l')) = Some y.
Proof. rewrite filter_app. by destruct (filter P l). Qed.

Lemma head_filter_update {A} (f : A -> Z) (g : A -> A) k n (l : list A) : (forall x, f x = n -> f (g x) = n) ->
  head (filter (fun x => f x = k) ((fun x => if decide (f x = n) then g x else x) <$> l)) =
  (fun x => if decide (f x = n) then g x else x) <$> head (filter (fun x => f x = k) l).
Proof.
  intros Hg. induction l as [|x l IH]; [done|]. rewrite fmap_cons.
  assert (f (if decide (f x = n) then g x else x) = f x) as E by (case_decide as E; [by rewrite Hg|done]).
  destruct (decide (f x = k)) as [Hk|Hk].
  - rewrite (filter_cons_True _ x l) by done. rewrite filter_cons_True by congruence. done.
  - rewrite (filter_cons_False _ x l) by done. rewrite filter_cons_False by congruence. exact IH.
Qed.

Section sizes.
Context `{PR : !PaymentsRs, IC : !IsoCountry, NL : !NetLib, CK : !Clock, OS : !OrderServices}.
Context (m : Z).

(** ** Before and after *)

Definition moved (v v' : Vm) : Prop := v' = v \/ (v_id v = m /\ exists c, v' = to_custom c v).
Definition grew (w w' : OrderWorld) (v v' : Vm) : Prop := moved v v' /\ exists x y,
  specs_of w v = Some x /\ specs_of w' v' = Some y /\ specs_le x y /\ (v_id v <> m -> y = x).
Record sized (w w' : OrderWorld) : Prop := {
  sz_sound : sound w'; sz_vms : Forall2 (grew w w') (machines w) (machines w');
  sz_items : items w' = items w; sz_subs : subs w' = subs w; sz_log : o_log w `prefix_of` o_log w'
}.
(** Then only the machine's own line item and its subscription are rewritten. *)
Definition upgraded (w w' : OrderWorld) : Prop := exists w1 k, sized w w1 /\ billed k w1 w' /\
  forall v, v ∈ machines w -> v_subscription_line_item_id v = k -> v_id v = m.

Lemma all_sized w v : sound w -> v ∈ machines w -> exists x, specs_of w v = Some x.
Proof.
  intros HS Hv. pose proof (proj1 (Forall_forall _ _) (so_template _ HS) v Hv) as Ht. unfold of_template in Ht. unfold specs_of, size_of.
  destruct (v_template_id v) as [t|], (v_custom_template_id v) as [c|]; try done; apply list_elem_of_fmap in Ht as (r & -> & Hr).
  - destruct (head_filter_some (fun p => t_id (pt_template p) = t_id (pt_template r)) _ _ Hr eq_refl) as [y ->]. by eexists.
  - destruct (head_filter_some (fun s => ct_id (sp_template s) = ct_id (sp_template r)) _ _ Hr eq_refl) as [y ->]. by eexists.
Qed.
(** New custom templates leave the old sizes. *)
Lemma specs_more w w' np v x : o_plans w' = o_plans w -> o_specs w' = o_specs w ++ np -> specs_of w v = Some x -> specs_of w' v = Some x.
Proof.
  intros Ep Es. unfold specs_of, size_of. rewrite Ep, Es. destruct (v_template_id v); [done|]. destruct (v_custom_template_id v); [|done].
  destruct (head (filter _ (o_specs w))) as [y|] eqn:E; [|done]. by rewrite (head_filter_app _ _ np _ E).
Qed.
Lemma grew_refl w w' np v : sound w -> o_plans w' = o_plans w -> o_specs w' = o_specs w ++ np -> v ∈ machines w -> grew w w' v v.
Proof.
  intros HS Ep Es Hv. destruct (all_sized w v HS Hv) as [x Hx]. split; [by left|]. exists x, x. split_and!; try done.
  by eapply specs_more.
Qed.
Lemma sized_grown w w' np : sound w -> fresh_specs w np -> grown w [] [] [] np w' -> sized w w'.
Proof.
  intros HS Hf Hg. constructor.
  - apply (partial_sound w); [done|]. by eapply partial_specs.
  - pose proof (gr_vms _ _ _ _ _ _ Hg) as ->. rewrite app_nil_r. apply Forall_Forall2_diag, Forall_forall. intros v Hv.
    eapply grew_refl; [done|by destruct (rest_eq _ _ _ _ _ _ Hg) as (_ & ? & _)|apply (gr_specs _ _ _ _ _ _ Hg)|done].
  - pose proof (gr_items _ _ _ _ _ _ Hg) as ->. by rewrite app_nil_r.
  - pose proof (gr_subs _ _ _ _ _ _ Hg) as ->. by rewrite app_nil_r.
  - apply (gr_log _ _ _ _ _ _ Hg).
Qed.
Lemma upgraded_sized w w' : sound w -> sized w w' -> upgraded w w'.
Proof.
  intros HS Hs. exists w', (n_item (o_next w)). split_and!; [done|done|]. intros v Hv E. apply item_used in Hv; [lia|done].
Qed.
Lemma upgraded_same w w' : sound w -> same w w' -> upgraded w w'.
Proof. intros HS Hs. apply upgraded_sized; [done|]. eapply sized_grown; [done|apply no_specs|exact Hs]. Qed.
Lemma upgraded_billed w w1 w' v : sound w -> v ∈ machines w -> v_id v = m -> sized w w1 ->
  billed (v_subscription_line_item_id v) w1 w' -> upgraded w w'.
Proof.
  intros HS Hv Em Hs Hb. exists w1, (v_subscription_line_item_id v). split_and!; [done|done|]. intros v' Hv' E. rewrite <- Em. f_equal.
  eapply (keyed_unique v_subscription_line_item_id (n_item (o_next w))); [|exact Hv'|exact Hv|exact E].
  split; [exact (so_own_item _ HS)|]. apply Forall_forall. intros. by apply item_used.
Qed.

(** ** A standard machine becomes a custom one *)

Definition recast (v : Vm) (old : Vm) : Vm := if decide (v_id old = v_id v) then v else old.
Section convert.
Context (w w1 : OrderWorld) (HS : sound w) (v : Vm) (Hv : v ∈ machines w) (Em : v_id v = m).
Context (p : PlanRow) (spec : SpecRow).
Context (Ht : exists t, v_template_id v = Some t /\ head (filter (fun p => t_id (pt_template p) = t) (o_plans w)) = Some p).
Context (Hle : specs_le (plan_specs p) (custom_specs spec)).
Context (Hg : grown w [] [] [] [stored_spec (n_spec (o_next w)) spec] w1).
Notation c := (n_spec (o_next w)).

Lemma recast_eq old : old ∈ machines w -> recast (to_custom c v) old = old \/ (old = v /\ recast (to_custom c v) old = to_custom c v).
Proof using HS Hv.
  intros Ho. unfold recast. case_decide as E; [|by left]. right. split; [|done].
  eapply (keyed_unique v_id); [apply (so_vms _ HS)|done|done|exact E].
Qed.
Let w2 := set_world (set_vms (fmap (recast (to_custom c v))) (o_world w1)) w1.
Lemma converted_size : specs_of w2 (to_custom c v) = Some (custom_specs spec).
Proof using HS Hg.
  assert (sound w1) as [_ _ _ [Hd _] _ _ _ _ _].
  { apply (partial_sound w); [done|]. eapply partial_specs; [exact Hg|apply one_spec]. }
  unfold specs_of, size_of. cbn. change c with (ct_id (sp_template (stored_spec c spec))).
  rewrite (head_filter_key (fun s => ct_id (sp_template s)) _ (stored_spec c spec)); [done|exact Hd|].
  rewrite (gr_specs _ _ _ _ _ _ Hg), elem_of_app. right. by apply list_elem_of_singleton.
Qed.
Lemma in_recast x : x ∈ recast (to_custom c v) <$> machines w1 -> x ∈ machines w \/ x = to_custom c v.
Proof using HS Hv Hg.
  pose proof (gr_vms _ _ _ _ _ _ Hg) as ->. rewrite app_nil_r. intros (y & -> & Hy)%list_elem_of_fmap.
  destruct (recast_eq y Hy) as [->|[_ ->]]; auto.
Qed.
Lemma recast_forall (P : Vm -> Prop) (l : list Vm) : Forall P l -> P (to_custom c v) -> Forall P (recast (to_custom c v) <$> l).
Proof using Type. intros Hl Hc. apply Forall_fmap. eapply Forall_impl; [exact Hl|]. intros x Hx. unfold compose, recast. by case_decide. Qed.
Lemma recast_keys {A} (f : Vm -> A) : f (to_custom c v) = f v -> f <$> (recast (to_custom c v) <$> machines w) = f <$> machines w.
Proof using HS Hv.
  intros E. rewrite <- list_fmap_compose. apply list_fmap_ext. intros i x Hx%list_elem_of_lookup_2. cbn.
  destruct (recast_eq x Hx) as [->|[-> ->]]; done.
Qed.
Lemma converted_sound : sound w2.
Proof using HS Hv Hg.
  assert (sound w1) as HS1.
  { apply (partial_sound w); [done|]. eapply partial_specs; [exact Hg|apply one_spec]. }
  pose proof (gr_vms _ _ _ _ _ _ Hg) as Ev. rewrite app_nil_r in Ev. assert (v ∈ machines w1) as Hv1 by by rewrite Ev.
  constructor; cbn; try apply HS1.
  - destruct (so_vms _ HS1) as [Hd Hf]. split; [rewrite Ev, recast_keys by done; by rewrite <- Ev|]. apply recast_forall; [done|].
    cbn. by apply (proj1 (Forall_forall _ _) Hf).
  - apply recast_forall; [exact (so_paid _ HS1)|]. by apply (proj1 (Forall_forall _ _) (so_paid _ HS1) v).
  - apply recast_forall; [exact (so_template _ HS1)|]. cbn. apply list_elem_of_fmap. exists (stored_spec c spec). split; [done|].
    rewrite (gr_specs _ _ _ _ _ _ Hg), elem_of_app. right. by apply list_elem_of_singleton.
  - apply recast_forall; [exact (so_image _ HS1)|]. by apply (proj1 (Forall_forall _ _) (so_image _ HS1) v).
  - rewrite Ev, recast_keys by done. rewrite <- Ev. exact (so_own_item _ HS1).
  - intros v1 v2 k [H1| ->]%in_recast [H2| ->]%in_recast E1 E2; try done.
    + by eapply (so_own_spec _ HS).
    + pose proof (spec_used _ HS _ _ H1 E1). injection E2 as <-. lia.
    + pose proof (spec_used _ HS _ _ H2 E2). injection E1 as <-. lia.
Qed.
Lemma converted_sized : sized w w2.
Proof using HS Hv Ht Hle Hg Em.
  pose proof (gr_vms _ _ _ _ _ _ Hg) as Ev. rewrite app_nil_r in Ev. destruct Ht as (t & Et & Ep).
  constructor; [apply converted_sound| |..].
  - cbn. rewrite Ev. apply Forall2_fmap_r, Forall_Forall2_diag, Forall_forall. intros x Hx. unfold compose.
    destruct (recast_eq x Hx) as [->|[-> ->]].
    + eapply grew_refl; [done|by destruct (rest_eq _ _ _ _ _ _ Hg) as (_ & ? & _)|apply (gr_specs _ _ _ _ _ _ Hg)|done].
    + split; [right; split; [done|by eexists]|]. exists (plan_specs p), (custom_specs spec). split_and!; [|apply converted_size|done|done].
      unfold specs_of, size_of. by rewrite Et, Ep.
  - cbn. pose proof (gr_items _ _ _ _ _ _ Hg) as ->. by rewrite app_nil_r.
  - cbn. pose proof (gr_subs _ _ _ _ _ _ Hg) as ->. by rewrite app_nil_r.
  - apply (gr_log _ _ _ _ _ _ Hg).
Qed.
End convert.

(** ** The template of a custom machine is rewritten *)

Section rewrite.
Context (w : OrderWorld) (HS : sound w) (v : Vm) (Hv : v ∈ machines w) (Em : v_id v = m).
Context (old new : SpecRow) (Hold : old ∈ o_specs w) (Hc : v_custom_template_id v = Some (ct_id (sp_template old))).
Context (Hid : ct_id (sp_template new) = ct_id (sp_template old)) (Hle : specs_le (custom_specs old) (custom_specs new)).
Notation key s := (ct_id (sp_template s)).
Let swap (s : SpecRow) : SpecRow :=
  {| sp_template := sp_template new; sp_limits := sp_limits new; sp_firewall_rule_limit := sp_firewall_rule_limit s |}.
Let w2 := set_specs (fmap (fun s => if decide (key s = key new) then swap s else s)) (o_next w) w.

Lemma rewritten_specs x : x ∈ machines w -> v_template_id x = None ->
  exists c s, v_custom_template_id x = Some c /\ head (filter (fun s => key s = c) (o_specs w)) = Some s /\
    specs_of w x = Some (custom_specs s) /\ specs_of w2 x = Some (if decide (key s = key new) then custom_specs new else custom_specs s).
Proof using HS Hv Hid.
  intros Hx Et. pose proof (proj1 (Forall_forall _ _) (so_template _ HS) x Hx) as Hof. unfold of_template in Hof. rewrite Et in Hof.
  destruct (v_custom_template_id x) as [c|] eqn:Ec; [|done]. apply list_elem_of_fmap in Hof as (r & Er & Hr).
  destruct (head_filter_some (fun s => key s = c) _ _ Hr (eq_sym Er)) as [s Es]. exists c, s. split_and!; try done.
  - unfold specs_of, size_of. by rewrite Et, Ec, Es.
  - unfold specs_of, size_of. rewrite Et, Ec. cbn. rewrite (head_filter_update (fun s => key s)) by (intros; exact eq_refl). rewrite Es. cbn.
    by case_decide.
Qed.
Lemma old_found s : head (filter (fun s => key s = key old) (o_specs w)) = Some s -> s = old.
Proof using HS Hold. intros E. rewrite (head_filter_key (fun s => key s)) in E; [by injection E|apply (so_specs _ HS)|done]. Qed.
Lemma rewritten_sound : sound w2.
Proof using HS.
  assert (forall s, key (if decide (key s = key new) then swap s else s) = key s) as Hk by (intros s; by case_decide).
  assert ((fun s => key s) <$> o_specs w2 = (fun s => key s) <$> o_specs w) as E.
  { cbn. rewrite <- list_fmap_compose. apply list_fmap_ext. intros i s _. apply Hk. }
  constructor; [exact (so_subs _ HS)|exact (so_items _ HS)|exact (so_vms _ HS)|..].
  - destruct (so_specs _ HS) as [Hd Hf]. split; [by rewrite E|].
    cbn. apply Forall_fmap. eapply Forall_impl; [exact Hf|]. intros s Hs. cbn. by rewrite Hk.
  - exact (so_paid _ HS).
  - eapply Forall_impl; [exact (so_template _ HS)|]. intros x. unfold of_template. by rewrite E.
  - exact (so_image _ HS).
  - exact (so_own_item _ HS).
  - exact (so_own_spec _ HS).
Qed.
Lemma rewritten_sized : sized w w2.
Proof using HS Hv Em Hold Hc Hid Hle.
  constructor; [apply rewritten_sound| |done|done|done].
  apply Forall_Forall2_diag, Forall_forall. intros x Hx. split; [by left|].
  destruct (v_template_id x) as [t|] eqn:Et.
  - destruct (all_sized w x HS Hx) as [y Hy]. exists y, y. split_and!; try done. unfold specs_of, size_of in *. by rewrite Et in *.
  - destruct (rewritten_specs x Hx Et) as (c & s & Ec & Es & E1 & E2). pose proof (head_filter_in _ _ _ Es) as [Hk _]. cbn in Hk.
    rewrite Hid in E2. case_decide as Hd; eexists _, _; (split_and!; [exact E1|exact E2| |]); try done.
    + assert (c = key old) as -> by congruence. by apply old_found in Es as ->.
    + intros Hm. exfalso. apply Hm. rewrite <- Em. f_equal. eapply (so_own_spec _ HS); [done|done|exact Ec|]. congruence.
Qed.
Lemma rewritten_size : v_template_id v = None -> specs_of w v = Some (custom_specs old) /\ specs_of w2 v = Some (custom_specs new).
Proof using HS Hv Hold Hc Hid.
  intros Et. destruct (rewritten_specs v Hv Et) as (c & s & Ec & Es & E1 & E2). rewrite Hc in Ec. injection Ec as <-.
  apply old_found in Es as ->. rewrite decide_True in E2 by done. done.
Qed.
End rewrite.
End sizes.

(** * The parts of an upgrade *)

Section rows.
Context `{PR : !PaymentsRs, IC : !IsoCountry, NL : !NetLib, CK : !Clock, OS : !OrderServices}.
Context (m : Z) (cfg : UpgradeConfig).

Lemma reads_compatible t l : keeps same (first_compatible t l).
Proof. induction l as [|p l IH]; cbn [first_compatible]; reads_tac. Qed.
Hint Resolve reads_compatible : reads.
Lemma reads_upgrade_template : keeps same (create_upgrade_template m cfg).
Proof. unfold create_upgrade_template. reads_tac. Qed.

Lemma ord_ok {A B} (f : Ord A) (k : A -> Ord B) b w w' : ord_bind f k w = (Ok b, w') ->
  exists a w1, f w = (Ok a, w1) /\ k a w1 = (Ok b, w').
Proof. rewrite ord_bind_run. destruct (f w) as [[a|e] w1]; [|done]. intros E. by exists a, w1. Qed.
Lemma row_ok {A} (f : OrderWorld -> list A) a w w' : query_one f w = (Ok a, w') -> head (f (bump w)) = Some a /\ w' = bump w.
Proof. unfold query_one, statement. destruct (sql_ok _); [|done]. intros [= E <-]. by destruct (head _) as [x|]; simplify_eq/=. Qed.
Lemma require_ok b e w x w' : require b e w = (Ok x, w') -> b = true /\ w' = w.
Proof. unfold require. destruct b; [by intros [= _ <-]|done]. Qed.
Lemma or_fail_ok {A} (o : option A) e a w w' : or_fail o e w = (Ok a, w') -> o = Some a /\ w' = w.
Proof. unfold or_fail. destruct o; [by intros [= <- <-]|done]. Qed.

Lemma upgrade_template_ok vm cur spec w w' : create_upgrade_template m cfg w = (Ok (vm, cur, spec), w') ->
  v_id vm = m /\ vm ∈ machines w /\ exists p offer t, v_template_id vm = Some t /\
    head (filter (fun p => t_id (pt_template p) = t) (o_plans w)) = Some p /\ spec = upgraded_spec cfg (pt_template p) offer /\
    specs_le (plan_specs p) (custom_specs spec).
Proof.
  unfold create_upgrade_template. intros (v & w1 & [Ev ->]%row_ok & E)%ord_ok. apply head_filter_in in Ev as [Eid Ev].
  apply ord_ok in E as (t & w2 & [Et ->]%or_fail_ok & E). apply ord_ok in E as (p & w3 & [Ep ->]%row_ok & E).
  apply ord_ok in E as (l & w4 & _ & E). apply ord_ok in E as (co & w5 & _ & E). apply ord_ok in E as (offer & w6 & _ & E).
  apply ord_ok in E as (x1 & w7 & [H1%Z.leb_le ->]%require_ok & E). apply ord_ok in E as (x2 & w8 & [H2%Z.leb_le ->]%require_ok & E).
  apply ord_ok in E as (x3 & w9 & [H3%Z.leb_le ->]%require_ok & E). injection E as <- <- <- <-.
  split_and!; [done|done|]. exists p, offer, t. by split_and!.
Qed.

(** The machine has the size that was asked for. *)
Definition achieved (w w' : OrderWorld) : Prop := exists v v' x, v ∈ machines w /\ v_id v = m /\ v' ∈ machines w' /\ v_id v' = m /\
  specs_of w v = Some x /\ specs_of w' v' = Some (wanted cfg x).
Definition upgrade_outcome (w : OrderWorld) (r : res OrderFail unit) (w' : OrderWorld) : Prop :=
  upgraded m w w' /\ (forall x, r = Ok x -> achieved w w').
Lemma upgraded_more w w1 w2 : upgraded m w w1 -> (forall k, billed k w1 w2) -> upgraded m w w2.
Proof. intros (wa & k & Hs & Hb & Hk) H. exists wa, k. split_and!; [done|by etrans|done]. Qed.
Lemma achieved_more k w w1 w2 : achieved w w1 -> billed k w1 w2 -> achieved w w2.
Proof.
  intros (v & v' & x & H1 & H2 & H3 & H4 & H5 & H6) Hb. exists v, v', x. rewrite (bl_vms _ _ _ Hb).
  split_and!; try done. by rewrite (billed_specs _ _ _ _ Hb).
Qed.

Lemma update_vm_run v w r w' : update_vm v w = (r, w') ->
  (r = Err Sql /\ same w w') \/ (r = Ok tt /\ exists w1, same w w1 /\ o_log w1 = o_log w /\
     w' = set_world (set_vms (fmap (fun old => if decide (v_id old = v_id v) then
       {| v_id := v_id old; v_host_id := v_host_id old; v_template_id := v_template_id v;
          v_custom_template_id := v_custom_template_id v; v_subscription_line_item_id := v_subscription_line_item_id v;
          v_disk_id := v_disk_id v; v_deleted := v_deleted old; v_user_id := v_user_id old; v_ssh_key_id := v_ssh_key_id v;
          v_mac_address := v_mac_address v |} else old)) (o_world w1)) w1).
Proof.
  unfold update_vm, on_rows, statement. destruct (sql_ok _).
  - unfold on_world. rewrite !bind_run. cbn. intros [= <- <-]. right. split; [done|]. exists (bump w). split_and!; [by apply same_logs|done|done].
  - intros [= <- <-]. left. split; [done|by apply same_logs].
Qed.
Lemma update_is_recast v c (l : list Vm) : (forall old, old ∈ l -> v_id old = v_id v -> old = v) ->
  (fun old => if decide (v_id old = v_id (to_custom c v)) then
       {| v_id := v_id old; v_host_id := v_host_id old; v_template_id := v_template_id (to_custom c v);
          v_custom_template_id := v_custom_template_id (to_custom c v);
          v_subscription_line_item_id := v_subscription_line_item_id (to_custom c v);
          v_disk_id := v_disk_id (to_custom c v); v_deleted := v_deleted old; v_user_id := v_user_id old;
          v_ssh_key_id := v_ssh_key_id (to_custom c v); v_mac_address := v_mac_address (to_custom c v) |} else old) <$> l =
  recast (to_custom c v) <$> l.
Proof.
  intros Hl. apply list_fmap_ext. intros i old Ho%list_elem_of_lookup_2. unfold recast. cbn. case_decide as E; [|done].
  by rewrite (Hl old Ho E).
Qed.

Lemma same_sizes w w1 v : same w w1 -> specs_of w1 v = specs_of w v.
Proof. intros Hs. apply (billed_specs 0). by apply same_billed. Qed.
Lemma outcome_before w w1 r w' : same w w1 -> upgrade_outcome w1 r w' -> upgrade_outcome w r w'.
Proof.
  intros Hs [(wa & k & [Z1 Z2 Z3 Z4 Z5] & Hb & Hk) Ha]. split.
  - exists wa, k. split_and!; [constructor|done|by rewrite <- (same_vms _ _ Hs)]; try done.
    + rewrite <- (same_vms _ _ Hs). eapply Forall2_impl; [exact Z2|]. intros v v' [Hm (x & y & E1 & E2 & Hr)]. split; [done|].
      exists x, y. by rewrite <- (same_sizes _ _ _ Hs).
    + by rewrite Z3, (same_items _ _ Hs).
    + by rewrite Z4, (same_subs _ _ Hs).
    + etrans; [apply (gr_log _ _ _ _ _ _ Hs)|done].
  - intros x Hr. destruct (Ha x Hr) as (v & v' & y & H1 & H2 & H3 & H4 & H5 & H6). exists v, v', y.
    rewrite <- (same_vms _ _ Hs), <- (same_sizes _ _ _ Hs). done.
Qed.
Lemma outcome_failed w e w' : sound w -> same w w' -> upgrade_outcome w (Err e) w'.
Proof. intros HS Hs. split; [by apply upgraded_same|done]. Qed.
(** What follows only bills. *)
Lemma outcome_more w w1 w' r : upgraded m w w1 -> achieved w w1 -> (forall k, billed k w1 w') -> upgrade_outcome w r w'.
Proof. intros Hu Ha Hb. split; [by eapply upgraded_more|]. intros x _. by eapply (achieved_more 0). Qed.

Lemma convert_outcome w : sound w -> wp (convert_to_custom_template m cfg) (upgrade_outcome w) w.
Proof using Type.
  intros HS. unfold convert_to_custom_template. apply wp_ord, wp_eq. intros [[[v cur] spec]|e] w1 E1;
    apply (reading _ _ _ _ reads_upgrade_template) in E1 as S1; [|by apply outcome_failed].
  apply upgrade_template_ok in E1 as (Em & Hv & p & offer & t & Et & Ep & Espec & Hle).
  assert (n_spec (o_next w1) = n_spec (o_next w)) as En by (pose proof (gr_n_spec _ _ _ _ _ _ S1); cbn in *; lia).
  apply wp_ord. eapply (wp_insert_spec w); [exact S1|by intros; apply outcome_failed|]. intros w2 Hg2.
  apply wp_ord, wp_eq. intros r w3 E3. apply update_vm_run in E3 as [[-> S3]|(-> & wb & S3 & _ & ->)].
  { split; [|done]. apply upgraded_sized; [done|]. eapply sized_grown; [done|apply one_spec|by eapply same_grown]. }
  pose proof (same_grown _ _ _ _ _ _ _ Hg2 S3) as Hgb.
  pose proof (gr_vms _ _ _ _ _ _ Hgb) as Ev. rewrite app_nil_r in Ev.
  set (w4 := set_world _ _). assert (w4 = set_world (set_vms (fmap (recast (to_custom (n_spec (o_next w)) v))) (o_world wb)) wb) as E4.
  { unfold w4, set_vms. rewrite update_is_recast; [done|]. rewrite Ev. intros old Ho E.
    by eapply (keyed_unique v_id); [apply (so_vms _ HS)|..]. }
  assert (exists t, v_template_id v = Some t /\ head (filter (fun p => t_id (pt_template p) = t) (o_plans w)) = Some p) as Ht by by exists t.
  assert (sized m w w4) as Hz by (rewrite E4; by eapply converted_sized).
  assert (achieved w w4) as Ha.
  { exists v, (to_custom (n_spec (o_next w)) v), (plan_specs p). split_and!; try done.
    - rewrite E4. cbn. rewrite Ev. apply list_elem_of_fmap. exists v. split; [|done]. unfold recast. by rewrite decide_True.
    - unfold specs_of, size_of. by rewrite Et, Ep.
    - rewrite E4. rewrite (converted_size w wb HS v spec Hgb). by rewrite Espec. }
  apply wp_eq. intros r w5 E5. pose proof (convert_tail_billed m spec cfg (v_subscription_line_item_id v) w4 (sz_sound _ _ _ Hz)) as Hb.
  rewrite E5 in Hb. cbn in Hb. split; [by eapply upgraded_billed|]. intros x _. by eapply achieved_more.
Qed.

Lemma reprice_billed w v : sound w -> v ∈ machines w -> v_id v = m ->
  billed (v_subscription_line_item_id v) w (update_line_item_cost_for_custom_vm m w).2.
Proof using Type.
  intros HS Hv Em. set (k := v_subscription_line_item_id v).
  change (wp (update_line_item_cost_for_custom_vm m) (fun _ w' => billed k w w') w). unfold update_line_item_cost_for_custom_vm.
  apply wp_ord, wp_eq. intros [v'|e] w1 E1; apply (reading _ _ _ _ (reads_row _)) in E1 as S1; [|by apply same_billed].
  apply row_ok in E1 as [E1 _]. apply head_filter_in in E1 as [Eid Hv'].
  assert (v' = v) as -> by (eapply (keyed_unique v_id); [apply (so_vms _ HS)|done|done|congruence]).
  apply wp_ord. unfold or_fail. destruct (v_custom_template_id v) as [c|]; apply wp_ret; [|by apply same_billed].
  apply wp_ord, wp_eq. intros [r|e] w2 E2; apply (reading _ _ _ _ (reads_row _)) in E2 as S2; [|apply same_billed; by etrans].
  apply wp_billed; [apply same_billed; by etrans|].
  apply (rebill_billed m (sp_template r) k (fun p li => set_amount (pr_total p.2) li)); [|done].
  eapply same_sound; [|exact S2]. by eapply same_sound.
Qed.
Lemma custom_standard w v c : sound w -> v ∈ machines w -> v_custom_template_id v = Some c -> v_template_id v = None.
Proof.
  intros HS Hv Ec. pose proof (proj1 (Forall_forall _ _) (so_template _ HS) v Hv) as Hof. unfold of_template in Hof.
  rewrite Ec in Hof. by destruct (v_template_id v).
Qed.
Lemma update_custom_outcome w v c : sound w -> v ∈ machines w -> v_id v = m -> v_custom_template_id v = Some c ->
  wp (update_custom m c cfg) (upgrade_outcome w) w.
Proof using Type.
  intros HS Hv Em Ec. pose proof (custom_standard _ _ _ HS Hv Ec) as Et. unfold update_custom.
  apply wp_ord, wp_eq. intros [old|e] w1 E1; apply (reading _ _ _ _ (reads_row _)) in E1 as S1; [|by apply outcome_failed].
  apply row_ok in E1 as [Eold _]. apply head_filter_in in Eold as [Eid Hold]. cbv zeta.
  set (new := with_specs cfg old).
  apply wp_ord. unfold require. destruct (Z.leb_spec (ct_cpu (sp_template old)) (ct_cpu (sp_template new))) as [H1|_]; apply wp_ret; [|by apply outcome_failed].
  apply wp_ord. destruct (Z.leb_spec (ct_memory (sp_template old)) (ct_memory (sp_template new))) as [H2|_]; apply wp_ret; [|by apply outcome_failed].
  apply wp_ord. destruct (Z.leb_spec (ct_disk_size (sp_template old)) (ct_disk_size (sp_template new))) as [H3|_]; apply wp_ret; [|by apply outcome_failed].
  assert (specs_of w v = Some (custom_specs old)) as Esz by by eapply specs_of_custom.
  destruct (_ && _ && _) eqn:Eq.
  { apply wp_ret. apply andb_true_iff in Eq as [[Q1%Z.eqb_eq Q2%Z.eqb_eq]%andb_true_iff Q3%Z.eqb_eq].
    split; [by apply upgraded_same|]. intros _ _. exists v, v, (custom_specs old). rewrite (same_vms _ _ S1), (same_sizes _ _ _ S1).
    split_and!; try done. rewrite Esz. unfold custom_specs, wanted. cbn in Q1, Q2, Q3 |- *. by rewrite <- Q1, <- Q2, <- Q3. }
  apply wp_ord, wp_statement; [apply outcome_failed; [done|]; etrans; [exact S1|by apply same_logs]|].
  assert (same w (bump w1)) as Sb by (etrans; [exact S1|by apply same_logs]).
  unfold wp. cbn [fst snd]. set (w2 := set_specs _ _ _).
  assert (sound (bump w1)) as HSb by by eapply same_sound.
  assert (v ∈ machines (bump w1)) as Hvb by by rewrite (same_vms _ _ Sb).
  assert (old ∈ o_specs (bump w1)) as Hob by by rewrite (same_specs _ _ Sb).
  rewrite <- Eid in Ec.
  assert (sized m (bump w1) w2) as Hz by (by eapply (rewritten_sized m (bump w1) HSb v Hvb Em old new)).
  assert (achieved (bump w1) w2) as Ha.
  { exists v, v, (custom_specs old). by destruct (rewritten_size (bump w1) HSb v Hvb old new Hob Ec eq_refl Et). }
  apply (outcome_before w (bump w1)); [done|].
  match goal with |- upgrade_outcome _ (?f w2).1 (?f w2).2 => change (wp f (upgrade_outcome (bump w1)) w2) end.
  assert (billed (v_subscription_line_item_id v) w2 (update_line_item_cost_for_custom_vm m w2).2) as Hb1 by (apply reprice_billed; [apply Hz|done|done]).
  apply wp_ord, wp_eq. intros r w3 E3. rewrite E3 in Hb1. cbn in Hb1. destruct r as [x|e]; [|split; [by eapply upgraded_billed|done]].
  apply wp_eq. intros r w4 E4. eapply outcome_more; [by eapply upgraded_billed|by eapply achieved_more|].
  intros k. pose proof (log_billed k m w3) as Hk. by rewrite E4 in Hk.
Qed.
Lemma update_template_outcome w : sound w -> wp (update_template m cfg) (upgrade_outcome w) w.
Proof using Type.
  intros HS. unfold update_template. apply wp_ord, wp_eq.
  intros [v|e] w1 E1; apply (reading _ _ _ _ (reads_row _)) in E1 as S1; [|by apply outcome_failed].
  apply row_ok in E1 as [E1 _]. apply head_filter_in in E1 as [Em Hv]. assert (sound w1) as HS1 by by eapply same_sound.
  eapply wp_mono; [|intros r w' Ho; by eapply outcome_before]. assert (v ∈ machines w1) as Hv1 by (rewrite (same_vms _ _ S1); exact Hv).
  destruct (v_custom_template_id v) as [c|] eqn:Ec; [by eapply update_custom_outcome|].
  apply wp_ord. eapply wp_mono; [by apply convert_outcome|]. intros [x|e] w2 [Hu Ha]; [|done].
  apply wp_ord, wp_eq. intros r w3 E3. apply (reading _ _ _ _ (reads_row _)) in E3 as S3.
  assert (forall k, billed k w2 w3) as H3 by (intros; by apply same_billed).
  destruct r as [v'|e]; [|eapply outcome_more; [exact Hu|by apply (Ha x)|exact H3]].
  apply wp_eq. intros r w4 E4. eapply outcome_more; [exact Hu|by apply (Ha x)|]. intros k. etrans; [apply H3|].
  pose proof (log_billed k m w3) as Hk. by rewrite E4 in Hk.
Qed.
End rows.
