(* ===== verification/UpgradePipeline.v ===== *)
(** * The worker's upgrade: it returns, the host is told the new size, a downgrade is refused *)

From Stdlib Require Import Ascii String SpecFloat.
From stdpp Require Import list gmap.
From S2P Require Import Prelude TryProcedure NetText IpAlloc Network HostTypes Exchange Capacity SubDb Pricing Renewal Orders OrderProofs OrderPlaced Upgrade UpgradeProofs UpgradeSize.

(** ** Closures under the default policy *)

Section policy.
Context {S : Type} (R : relation S) {RP : PreOrder R} (sleep : Duration -> S -> S) (Hsleep : forall d s, sleep d s = s).

Lemma default_delay n : (n < 3)%nat -> exists d, delay_for_attempt RetryPolicy_default (Z.of_nat n) = Some d.
Proof. intros Hn. destruct n as [|[|[|n]]]; [vm_compute; by eexists..|lia]. Qed.
Lemma retried_closure {T E} (f : Closure S (OpResult T E)) (HR : forall s, R s (f s).2) (Hs : forall s, is_Some (f s).1) fuel n s :
  (n + fuel = 4)%nat -> (0 < fuel)%nat ->
  exists r s', retry_loop sleep fuel RetryPolicy_default no_callback f (Z.of_nat n) s = (Done r, s') /\ R s s' /\
    forall v, r = Ok v -> exists s1, R s s1 /\ f s1 = (Some (Ok v), s').
Proof using RP Hsleep.
  revert n s. induction fuel as [|fuel IH]; intros n s Hn Hf; [lia|]. cbn [retry_loop]. unfold mbind, Async_bind, await.
  specialize (HR s) as HRs. specialize (Hs s) as [r Er]. destruct (f s) as [o s1] eqn:Ef. cbn in Er, HRs. subst o.
  destruct r as [v|[e|e]].
  - exists (Ok v), s1. split_and!; [done|done|]. intros v' [= <-]. by exists s.
  - destruct (Z.leb_spec (max_retries RetryPolicy_default) (Z.of_nat n)) as [Hle|Hlt].
    { exists (Err e), s1. by split_and!. }
    cbn in Hlt. destruct (default_delay n) as [d Ed]; [lia|]. rewrite Ed. cbn [or_panic no_callback effect mret Async_ret].
    rewrite wadd_small by lia. replace (Z.of_nat n + 1) with (Z.of_nat (Datatypes.S n)) by lia.
    destruct (IH (Datatypes.S n) s1) as (r & s2 & Er & HR2 & Hok); [lia|lia|]. rewrite Hsleep, Er.
    exists r, s2. split_and!; [done|by etrans|]. intros v Hv. destruct (Hok v Hv) as (s3 & ? & ?). exists s3. split; [by etrans|done].
  - exists (Err e), s1. by split_and!.
Qed.
End policy.

Section pipeline.
Context `{PR : !PaymentsRs, IC : !IsoCountry, NL : !NetLib, CK : !Clock, OS : !OrderServices}.
Context (m : Z) (cfg : UpgradeConfig).
Notation sleep := (@psleep unit OrderWorld no_wait).
Notation action_of f := (run_action no_wait (Some RetryPolicy_default) f).

(** ** The steps *)

Definition same2 (s s' : unit * OrderWorld) : Prop := same s.2 s'.2.
#[export] Instance same2_pre : PreOrder same2.
Proof. split; [intros s; exact (reflexivity (R := same) s.2)|]. intros a b c H1 H2. unfold same2 in *. by etrans. Qed.
Lemma sleeps d s : sleep d s = s.
Proof. by destruct s as [[] w]. Qed.
(** A step that changes no row, after which the next one runs. *)
Lemma quiet_stage (f : Step) s : (forall s, same2 s (f s).2) -> (forall s, is_Some (f s).1) ->
  exists r s', action_of f s = (Done r, s') /\ same2 s s' /\ forall v, r = Ok v -> exists s1, same2 s s1 /\ f s1 = (Some (Ok v), s').
Proof. intros HR Hs. apply (retried_closure same2 sleep sleeps f HR Hs 4 0); lia. Qed.
Lemma plain_once (g : Ord unit) s : exists r w', g s.2 = (r, w') /\ action_of (plain_step g) s = (Done r, (s.1, w')).
Proof.
  destruct s as [u w]. destruct (g w) as [r w'] eqn:E. exists r, w'. split; [done|]. cbn. unfold mbind, Async_bind, await. cbn. rewrite E.
  by destruct r as [[]|e].
Qed.
Lemma plain_same (g : Ord unit) : keeps same g -> forall s, same2 s (plain_step g s).2.
Proof. intros Hg [u w]. specialize (Hg w). unfold same2. cbn. destruct (g w) as [[x|e] w']; exact Hg. Qed.
Lemma plain_some (g : Ord unit) s : is_Some (plain_step g s).1.
Proof. destruct s as [u w]. cbn. destruct (g w) as [[x|e] w']; by eexists. Qed.
Lemma host_same (g : Ord HostCall) : keeps same g -> forall s, same2 s (host_step g s).2.
Proof.
  intros Hg [u w]. specialize (Hg w). unfold same2. cbn. destruct (g w) as [[c|e] w']; [|exact Hg]. cbn.
  etrans; [exact Hg|]. apply same_logs, prefix_app_r. done.
Qed.
Lemma host_some (g : Ord HostCall) s : is_Some (host_step g s).1.
Proof. destruct s as [u w]. cbn. destruct (g w) as [[c|e] w']; by eexists. Qed.
Lemma host_ok (g : Ord HostCall) s v s' : host_step g s = (Some (Ok v), s') ->
  exists c w1, g s.2 = (Ok c, w1) /\ o_log s'.2 = o_log w1 ++ [(c, Ok tt)].
Proof.
  destruct s as [u w]. cbn. destruct (g w) as [[c|e] w1]; [|done]. cbn. intros [= E <-]. exists c, w1. split; [done|].
  cbn. rewrite E. by destruct v.
Qed.

Lemma reads_opt {A} id (f : Z -> Ord A) : (forall i, keeps same (f i)) -> keeps same (opt_row id f).
Proof. intros Hf. unfold opt_row. destruct id; [apply keeps_ord; [apply _|apply Hf|intros]|]; apply keeps_fine, _. Qed.
Lemma reads_load : keeps same (load m).
Proof. unfold load. reads_tac. all: apply reads_opt; intros; apply reads_row. Qed.
Lemma reads_client_vm : keeps same (client_of_vm m).
Proof. unfold client_of_vm. reads_tac. Qed.
Lemma reads_client_info : keeps same (client_of_info m).
Proof. unfold client_of_info. apply keeps_ord; [apply _|apply reads_load|intros i]. reads_tac. Qed.

Lemma run_cons (st : @PipelineStep unit OrderWorld OrderFail) sts s : rollback st = None -> (forall s, same2 s (action st s).2) -> (forall s, is_Some (action st s).1) ->
  (exists e s', run_steps no_wait (Some RetryPolicy_default) (st :: sts) [] s = (Done (Err e), s') /\ same2 s s') \/
  (exists s1 s2 v, same2 s s1 /\ action st s1 = (Some (Ok v), s2) /\ same2 s s2 /\
     run_steps no_wait (Some RetryPolicy_default) (st :: sts) [] s = run_steps no_wait (Some RetryPolicy_default) sts [] s2).
Proof.
  intros Hr HR Hs. destruct (quiet_stage (action st) s HR Hs) as (r & s2 & E & H2 & Hok). cbn [run_steps]. unfold mbind, Async_bind.
  rewrite E. destruct r as [v|e]; [|left; exists e, s2; by split].
  right. destruct (Hok v eq_refl) as (s1 & H1 & E1). exists s1, s2, v. split_and!; try done. unfold completed_push. by rewrite Hr.
Qed.

(** ** What the host is told *)

Definition told (c : HostCall) (w w' : OrderWorld) : Prop := exists l, o_log w' = o_log w ++ l ++ [(c, Ok tt)].
Lemma told_after c w w1 w2 : told c w w1 -> same w1 w2 -> exists l1 l2, o_log w2 = o_log w ++ l1 ++ (c, Ok tt) :: l2.
Proof.
  intros [l E] Hs. destruct (gr_log _ _ _ _ _ _ Hs) as [l2 E2]. exists l, l2. by rewrite E2, E, <- !app_assoc.
Qed.
Lemma opt_row_ok {A} id (f : Z -> Ord A) o w w' : opt_row id f w = (Ok o, w') ->
  match id with Some i => exists a, f i w = (Ok a, w') /\ o = Some a | None => o = None end.
Proof.
  unfold opt_row. destruct id as [i|]; [|by intros [= <- _]]. intros (a & w1 & E & [= <- <-])%ord_ok. by exists a.
Qed.
Lemma same_tables w w' : same w w' -> o_plans w' = o_plans w /\ o_specs w' = o_specs w.
Proof. intros Hs. split; [by destruct (rest_eq _ _ _ _ _ _ Hs) as (_ & ? & _)|by apply same_specs]. Qed.
Lemma load_ok i w w' : sound w -> load m w = (Ok i, w') ->
  fi_vm i ∈ machines w /\ v_id (fi_vm i) = m /\ h_id (fi_host i) = v_host_id (fi_vm i) /\ resources i = specs_of w (fi_vm i).
Proof.
  intros HS. unfold load. intros (v & w1 & [Ev Ew1]%row_ok & E)%ord_ok. apply head_filter_in in Ev as [Em Hv].
  assert (same w w1) as S1 by (rewrite Ew1; by apply same_logs). clear Ew1.
  apply ord_ok in E as (h & w2 & Eh & E). apply (reading _ _ _ _ (reads_row _)) in Eh as S2.
  apply row_ok in Eh as [Eh _]. apply head_filter_in in Eh as [Ehid _].
  apply ord_ok in E as (x3 & w3 & S3%(reading _ _ _ _ (reads_list _)) & E). apply ord_ok in E as (x4 & w4 & [_ ->]%or_fail_ok & E).
  apply ord_ok in E as (x5 & w5 & S5%(reading _ _ _ _ (reads_row _)) & E). apply ord_ok in E as (x6 & w6 & S6%(reading _ _ _ _ (reads_row _)) & E).
  apply ord_ok in E as (x7 & w7 & [_ ->]%or_fail_ok & E). apply ord_ok in E as (x8 & w8 & S8%(reading _ _ _ _ (reads_row _)) & E).
  apply ord_ok in E as (x9 & w9 & S9%(reading _ _ _ _ (reads_list _)) & E).
  apply ord_ok in E as (tp & w10 & Et & E). pose proof (reading _ _ _ _ (reads_opt _ _ (fun i => reads_row _)) Et) as S10.
  apply ord_ok in E as (ct & w11 & Ec & E). apply ord_ok in E as (x12 & w12 & _ & [= <- _]). cbn [fi_vm fi_host].
  assert (same w w9) as Sw9 by (do 6 (etrans; [eassumption|]); done). assert (same w w10) as Sw10 by by etrans.
  split_and!; [exact Hv|done|done|]. unfold resources. cbn [fi_template fi_custom_template].
  pose proof (proj1 (Forall_forall _ _) (so_template _ HS) v Hv) as Hof. unfold of_template in Hof. unfold specs_of, size_of.
  apply opt_row_ok in Et, Ec. destruct (v_template_id v) as [t|], (v_custom_template_id v) as [c|]; try done.
  - destruct Et as (p & [Ep _]%row_ok & ->). destruct (same_tables _ _ Sw9) as [Epl _]. cbn in Ep. rewrite Epl in Ep. by rewrite Ep.
  - destruct Ec as (r & [Er _]%row_ok & ->). subst tp. destruct (same_tables _ _ Sw10) as [_ Esp]. cbn in Er. rewrite Esp in Er. by rewrite Er.
Qed.

Section sized_machine.
Context (w1 : OrderWorld) (HS : sound w1) (v : Vm) (y : Specs) (Hv : v ∈ machines w1) (Em : v_id v = m) (Hy : specs_of w1 v = Some y).

Lemma the_machine w x : same w1 w -> x ∈ machines w -> v_id x = m -> x = v.
Proof using HS Hv Em.
  intros Hs Hx E. rewrite (same_vms _ _ Hs) in Hx. eapply (keyed_unique v_id); [apply (so_vms _ HS)|done|done|congruence].
Qed.
Lemma info_ok w x w' : same w1 w -> client_of_info m w = (Ok x, w') ->
  fi_vm x.1 = v /\ h_id x.2 = v_host_id v /\ resources x.1 = Some y.
Proof using HS Hv Em Hy.
  intros Hs. unfold client_of_info. intros (i & w2 & Ei & E)%ord_ok. assert (sound w) as HSw by by eapply same_sound.
  apply load_ok in Ei as (Hi & Eid & Eh & Er); [|done]. apply (the_machine w) in Hi; [|done|done]. subst v.
  apply ord_ok in E as (h & w3 & [Ehh _]%row_ok & E). apply head_filter_in in Ehh as [Ehid _].
  apply ord_ok in E as (z & w4 & _ & [= <- _]). cbn. split_and!; [done|congruence|]. rewrite Er. by rewrite (same_sizes _ _ _ Hs).
Qed.
Lemma vm_ok w x w' : same w1 w -> client_of_vm m w = (Ok x, w') -> x.1 = v /\ h_id x.2 = v_host_id v.
Proof using HS Hv Em.
  intros Hs. unfold client_of_vm. intros (i & w2 & [Ei _]%row_ok & E)%ord_ok. apply head_filter_in in Ei as [Eid Hi].
  apply (the_machine w) in Hi; [|done|done]. subst i.
  apply ord_ok in E as (h & w3 & [Ehh _]%row_ok & E). apply head_filter_in in Ehh as [Ehid _].
  apply ord_ok in E as (z & w4 & _ & [= <- _]). done.
Qed.
Lemma host_told (g : Ord HostCall) c s u s' : keeps same g -> (forall w w' c', same w1 w -> g w = (Ok c', w') -> c' = c) ->
  same w1 s.2 -> host_step g s = (Some (Ok u), s') -> told c s.2 s'.2.
Proof.
  intros Hg Hc Hs (c' & w & E & El)%host_ok. rewrite (Hc _ _ _ Hs E) in El.
  pose proof (reading _ _ _ _ Hg E) as Sg. destruct (gr_log _ _ _ _ _ _ Sg) as [l Ew]. exists l. by rewrite El, Ew, <- app_assoc.
Qed.
Lemma resize_told s u s' : same w1 s.2 -> resize_step m s = (Some (Ok u), s') -> told (Resize (v_host_id v) m (Some y)) s.2 s'.2.
Proof using HS Hv Em Hy.
  apply host_told; [apply keeps_ord; [apply _|apply reads_client_info|intros; apply keeps_fine, _]|].
  intros w w' c Hs (x & w2 & Ex & [= <- _])%ord_ok. destruct (info_ok _ _ _ Hs Ex) as (E1 & E2 & E3). by rewrite E1, E2, E3, Em.
Qed.
Lemma configure_told s u s' : same w1 s.2 -> configure_step m s = (Some (Ok u), s') -> told (Configure (v_host_id v) m (Some y)) s.2 s'.2.
Proof using HS Hv Em Hy.
  apply host_told; [apply keeps_ord; [apply _|apply reads_client_info|intros; apply keeps_fine, _]|].
  intros w w' c Hs (x & w2 & Ex & [= <- _])%ord_ok. destruct (info_ok _ _ _ Hs Ex) as (E1 & E2 & E3). by rewrite E1, E2, E3, Em.
Qed.
Lemma start_told s u s' : same w1 s.2 -> start_step m s = (Some (Ok u), s') -> told (Start (v_host_id v) m) s.2 s'.2.
Proof using HS Hv Em.
  apply host_told; [apply keeps_ord; [apply _|apply reads_client_vm|intros; apply keeps_fine, _]|].
  intros w w' c Hs (x & w2 & Ex & [= <- _])%ord_ok. destruct (vm_ok _ _ _ Hs Ex) as (E1 & E2). by rewrite E1, E2, Em.
Qed.
End sized_machine.

(** ** The pipeline *)

Definition harmless (f : Step) : Prop := (forall s, same2 s (f s).2) /\ (forall s, is_Some (f s).1).
Lemma harmless_host g : keeps same g -> harmless (host_step g).
Proof. intros Hg. split; [by apply host_same|apply host_some]. Qed.
Lemma harmless_plain g : keeps same g -> harmless (plain_step g).
Proof. intros Hg. split; [by apply plain_same|apply plain_some]. Qed.
Lemma harmless_if b f : harmless f -> harmless (only_if b f).
Proof. intros Hf. destruct b; [done|]. apply harmless_plain, keeps_fine, _. Qed.
Lemma harmless_stop : harmless (stop_step m).
Proof.
  apply harmless_plain. apply keeps_ord; [apply _|apply reads_client_vm|intros x]. apply keeps_bind; [apply _|apply keeps_host_call|].
  intros _. apply keeps_fine, _.
Qed.
Lemma harmless_info (f : FullVmInfo * VmHost -> HostCall) : harmless (host_step (x ←o client_of_info m; fine (f x))).
Proof. apply harmless_host, keeps_ord; [apply _|apply reads_client_info|intros; apply keeps_fine, _]. Qed.
Lemma harmless_start : harmless (start_step m).
Proof. apply harmless_host, keeps_ord; [apply _|apply reads_client_vm|intros; apply keeps_fine, _]. Qed.

Notation bare n f := {| name := n; action := f; rollback := None |}.
Definition later : list (@PipelineStep unit OrderWorld OrderFail) :=
  [bare "stop_vm" (stop_step m); bare "resize_disk" (only_if (has (new_disk cfg)) (resize_step m));
   bare "configure_cpu_memory" (only_if (has (new_cpu cfg) || has (new_memory cfg)) (configure_step m));
   bare "start_vm" (start_step m)].
Notation run sts s := (run_steps no_wait (Some RetryPolicy_default) sts [] s).
Lemma run_harmless sts s : Forall (fun st => rollback st = None /\ harmless (action st)) sts ->
  exists r s', run sts s = (Done r, s') /\ same2 s s'.
Proof.
  intros Hs. revert s. induction Hs as [|st sts [Hr [H1 H2]] _ IH]; intros s; [by exists (Ok tt), s|].
  destruct (run_cons st sts s Hr H1 H2) as [(e & s' & E & Hs')|(s1 & s2 & v & _ & _ & Hs2 & ->)]; [by exists (Err e), s'|].
  destruct (IH s2) as (r & s' & E & Hs'). exists r, s'. split; [done|by etrans].
Qed.
Lemma later_harmless : Forall (fun st => rollback st = None /\ harmless (action st)) later.
Proof.
  unfold later. repeat (apply Forall_cons; split; [split; [done|cbn [action]]|]); [..|by apply Forall_nil];
    first [apply harmless_stop|apply harmless_if, harmless_info|apply harmless_start].
Qed.
(** Of a success: each step had its own. *)
Lemma run_ok st sts s s' : rollback st = None -> harmless (action st) -> run (st :: sts) s = (Done (Ok tt), s') ->
  exists s1 s2 v, same2 s s1 /\ action st s1 = (Some (Ok v), s2) /\ same2 s s2 /\ run sts s2 = (Done (Ok tt), s').
Proof.
  intros Hr [H1 H2] E. destruct (run_cons st sts s Hr H1 H2) as [(e & s2 & E2 & _)|(s1 & s2 & v & ? & ? & ? & E2)]; [by rewrite E in E2|].
  exists s1, s2, v. by rewrite <- E2.
Qed.
Lemma told_member c w a b z l : same w a -> told c a b -> same b z -> o_log z = o_log w ++ l -> (c, Ok tt) ∈ l.
Proof.
  intros S1 [l1 E1] S2 E. destruct (gr_log _ _ _ _ _ _ S1) as [l0 E0], (gr_log _ _ _ _ _ _ S2) as [l2 E2].
  rewrite E2, E1, E0, <- !app_assoc in E. apply app_inv_head in E as <-. rewrite !elem_of_app. right. right. left. by apply list_elem_of_singleton.
Qed.
Lemma later_told w1 v y s' : sound w1 -> v ∈ machines w1 -> v_id v = m -> specs_of w1 v = Some y ->
  run later (tt, w1) = (Done (Ok tt), s') -> exists l1 l2, o_log s'.2 = o_log w1 ++ l1 ++ (Start (v_host_id v) m, Ok tt) :: l2 /\
    (has (new_disk cfg) = true -> (Resize (v_host_id v) m (Some y), Ok tt) ∈ l1) /\
    (has (new_cpu cfg) || has (new_memory cfg) = true -> (Configure (v_host_id v) m (Some y), Ok tt) ∈ l1).
Proof.
  intros HS Hv Em Hy E. pose proof later_harmless as Hl. unfold later in *. do 4 apply Forall_cons in Hl as [[? ?] Hl].
  apply run_ok in E as (a1 & b1 & u1 & A1 & _ & B1 & E); [|done|done].
  apply run_ok in E as (a2 & b2 & u2 & A2 & F2 & B2 & E); [|done|done].
  apply run_ok in E as (a3 & b3 & u3 & A3 & F3 & B3 & E); [|done|done].
  apply run_ok in E as (a4 & b4 & u4 & A4 & F4 & B4 & E); [|done|done].
  cbn [action] in *. injection E as <-. unfold same2 in *. cbn [snd] in *.
  assert (same w1 a2.2) as S2 by (etrans; [exact B1|exact A2]). assert (same w1 b2.2) as S2' by (etrans; [exact B1|exact B2]).
  assert (same w1 a3.2) as S3 by (etrans; [exact S2'|exact A3]). assert (same w1 b3.2) as S3' by (etrans; [exact S2'|exact B3]).
  assert (same w1 a4.2) as S4 by (etrans; [exact S3'|exact A4]). assert (same b2.2 a4.2) as S24 by (etrans; [exact B3|exact A4]).
  destruct (gr_log _ _ _ _ _ _ S4) as [l0 E0].
  destruct (start_told w1 HS v Hv Em _ _ _ S4 F4) as [l E4]. exists (l0 ++ l), []. split_and!.
  - by rewrite E4, E0, <- !app_assoc.
  - intros Hd. rewrite Hd in F2. apply elem_of_app. left. eapply (told_member _ w1 a2.2 b2.2 a4.2); [done| |done|done].
    by apply (resize_told w1 HS v y Hv Em Hy _ u2).
  - intros Hd. rewrite Hd in F3. apply elem_of_app. left. eapply (told_member _ w1 a3.2 b3.2 a4.2); [done| |done|done].
    by apply (configure_told w1 HS v y Hv Em Hy _ u3).
Qed.

(** ** The job *)

Lemma job_end r w w' : (upgraded_vm ←o get_vm m; specs ← vm_resources m;
    notify_upgraded (v_user_id upgraded_vm) m (match specs with Ok s => Some s | Err _ => None end);; fine tt) w = (r, w') -> same w w'.
Proof.
  intros E. eapply reading; [|exact E]. apply keeps_ord; [apply _|apply reads_row|intros v].
  apply keeps_bind; [apply _| |intros x].
  { unfold vm_resources, get_vm, get_vm_template, get_custom_vm_template. reads_tac. }
  apply keeps_bind; [apply _|apply keeps_modify; intros w0; by apply same_logs|intros _; apply keeps_fine, _].
Qed.
(** Whatever happens, the job returns, and its rows are those of its first step. *)
Lemma process_run w : exists r w1 w', process_vm_upgrade m cfg w = (Some r, w') /\ update_template m cfg w = (w1) /\ same w1.2 w' /\
  (forall u, r = Ok u -> exists s', w1.1 = Ok tt /\ run later (tt, w1.2) = (Done (Ok tt), s') /\ same s'.2 w') /\
  (forall e, w1.1 = Err e -> r = Err e /\ w' = w1.2).
Proof.
  unfold process_vm_upgrade, Pipeline_execute, Pipeline_run.
  change (steps (upgrade_pipeline m cfg)) with (bare "update_template" (plain_step (update_template m cfg)) :: later).
  change (retry_policy (upgrade_pipeline m cfg)) with (Some RetryPolicy_default). change (ctx (upgrade_pipeline m cfg)) with tt.
  remember later as ls eqn:Els. cbn [run_steps action]. unfold mbind at 1, Async_bind at 1.
  destruct (plain_once (update_template m cfg) (tt, w)) as (r0 & w1 & E0 & ->). cbn [snd fst] in *. rewrite E0.
  destruct r0 as [[]|e].
  2: { exists (Err e), (Err e, w1), w1. split_and!; try done; first [exact (reflexivity (R := same) w1)|by intros e' [= ->]]. }
  unfold completed_push. cbn [rollback]. destruct (run_harmless ls (tt, w1)) as (r & [u w2] & E & Hs); [rewrite Els; apply later_harmless|].
  rewrite E. unfold same2 in Hs. cbn [snd] in Hs. destruct r as [[]|e].
  - match goal with |- context [let '(r, w'') := ?x in (Some r, w'')] => destruct x as [r w3] eqn:E3 end. apply job_end in E3 as S3.
    exists r, (Ok tt, w1), w3. split_and!; try done; [by etrans|]. intros [] ->. exists (u, w2). by split_and!.
  - exists (Err e), (Ok tt, w1), w2. by split_and!.
Qed.
End pipeline.
