(* ===== verification/OrderTheorems.v ===== *)
(** * What orders and upgrades guarantee *)

From Stdlib Require Import Ascii String SpecFloat.
From stdpp Require Import list gmap.
From S2P Require Import Prelude TryProcedure NetText IpAlloc Network HostTypes Exchange Capacity SubDb Pricing Renewal Orders OrderProofs OrderPlaced Upgrade UpgradeProofs UpgradeSize UpgradePipeline.

Section quiet.
Context `{PR : !PaymentsRs, IC : !IsoCountry, NL : !NetLib, CK : !Clock, OS : !OrderServices}.

(** ** The rows of an upgrade are changed without the host *)

Definition unasked (w w' : OrderWorld) : Prop := o_log w' = o_log w.
#[export] Instance unasked_pre : PreOrder unasked.
Proof. split; [by intros w|]. intros a b c H1 H2. unfold unasked in *. congruence. Qed.
Lemma unasked_statement {A} (m : Ord A) : keeps unasked m -> keeps unasked (statement m).
Proof. intros Hm w. unfold statement. destruct (sql_ok _); [|done]. etrans; [|apply Hm]. done. Qed.
Lemma unasked_rows {A} (m : Act A) : keeps unasked (on_rows m).
Proof. apply unasked_statement. intros w. unfold on_world. by match goal with |- context [let '(a, x) := ?e in _] => destruct e end. Qed.
End quiet.
(** Only statements. *)
Ltac unasked_tac :=
  repeat (lazymatch goal with
  | |- keeps _ (ord_bind _ _) => apply keeps_ord; [apply _| |intros ?]
  | |- keeps _ (fine _) => apply keeps_fine, _
  | |- keeps _ (failing _) => apply keeps_failing, _
  | |- keeps _ (require ?b _) => unfold require
  | |- keeps _ (or_fail ?b _) => unfold or_fail
  | |- keeps _ (mret _) => apply keeps_ret, _
  | |- keeps _ (if ?b then _ else _) => destruct b
  | |- keeps _ (match ?x with _ => _ end) => destruct x
  | |- keeps _ (mbind _ _) => apply keeps_bind; [apply _| |intros ?]
  | |- _ => first [apply unasked_rows | apply unasked_statement; by intros w]
  end).

Section theorems.
Context `{PR : !PaymentsRs, IC : !IsoCountry, NL : !NetLib, CK : !Clock, OS : !OrderServices}.

Lemma unasked_compatible t l : keeps unasked (first_compatible t l).
Proof. induction l as [|p l IH]; cbn [first_compatible]; [unasked_tac|]. destruct (negb _); [done|]. apply keeps_ord; [apply _|unasked_tac|intros d]. by case_match; [unasked_tac|]. Qed.
Lemma unasked_upgrade m cfg : keeps unasked (update_template m cfg).
Proof.
  unfold update_template, update_custom, convert_to_custom_template, create_upgrade_template, update_line_item_cost_for_custom_vm,
    log_configuration_changed.
  unasked_tac. all: apply unasked_compatible.
Qed.

Lemma downgrade_stops w m cfg v x : sound w -> v ∈ machines w -> v_id v = m -> specs_of w v = Some x -> ~ specs_le x (wanted cfg x) ->
  wp (update_template m cfg) (fun r w' => (exists e, r = Err e) /\ same w w') w.
Proof.
  intros HS Hv Em Hx Hno. unfold update_template. apply wp_ord, wp_eq.
  intros [v0|e] w1 E1; apply (reading _ _ _ _ (reads_row _)) in E1 as S1; [|by split; [eexists|]].
  apply row_ok in E1 as [E1 _]. apply head_filter_in in E1 as [Em0 Hv0].
  assert (v0 = v) as -> by (eapply (keyed_unique v_id); [apply (so_vms _ HS)|done|done|congruence]).
  assert (sound w1) as HS1 by by eapply same_sound.
  destruct (v_custom_template_id v) as [c|] eqn:Ec.
  - unfold update_custom. apply wp_ord, wp_eq.
    intros [old|e] w2 E2; apply (reading _ _ _ _ (reads_row _)) in E2 as S2; [|by split; [eexists|etrans]].
    apply row_ok in E2 as [E2 _]. apply head_filter_in in E2 as [Eid Hold]. change (old ∈ o_specs w1) in Hold. rewrite (same_specs _ _ S1) in Hold.
    assert (x = custom_specs old) as ->.
    { pose proof (custom_standard _ _ _ HS Hv Ec) as Et. rewrite (specs_of_custom w v c old) in Hx by done. by injection Hx. }
    assert (same w w2) as S by by etrans. cbv zeta. unfold require.
    repeat (apply wp_ord; match goal with |- wp (if ?a <=? ?b then _ else _) _ _ =>
      destruct (Z.leb_spec a b); apply wp_ret; [|by split; [eexists|]] end).
    destruct Hno. by split_and!.
  - apply wp_ord. unfold convert_to_custom_template. apply wp_ord, wp_eq.
    intros [[[v1 cur] spec]|e] w2 E2; apply (reading _ _ _ _ (reads_upgrade_template _ _)) in E2 as S2; [|by split; [eexists|etrans]].
    apply upgrade_template_ok in E2 as (Em1 & Hv1 & p & offer & t & Et & Ep & Espec & Hle).
    rewrite (same_vms _ _ S1) in Hv1.
    assert (v1 = v) as -> by (eapply (keyed_unique v_id); [apply (so_vms _ HS)|done|done|congruence]).
    destruct (same_tables _ _ S1) as [Epl _]. rewrite Epl in Ep. rewrite (specs_of_plan w v t p Et Ep) in Hx. injection Hx as <-.
    destruct Hno. by rewrite Espec in Hle.
Qed.

(** ** Histories *)

Inductive OrderOp : Type :=
| Ordered (o : Order)
| UpgradePaid (vm : Z) (cfg : UpgradeConfig).
Definition order_op (op : OrderOp) (w : OrderWorld) : OrderWorld :=
  match op with Ordered o => (place o w).2 | UpgradePaid vm cfg => (process_vm_upgrade vm cfg w).2 end.
Lemma upgraded_sound m w w' : upgraded m w w' -> sound w'.
Proof. intros (w1 & k & Hs & Hb & _). eapply billed_sound; [exact Hb|apply Hs]. Qed.
Lemma update_outcome m cfg w : sound w -> upgrade_outcome m cfg w (update_template m cfg w).1 (update_template m cfg w).2.
Proof. intros HS. exact (update_template_outcome m cfg w HS). Qed.

(** C13: over any orders, imports and paid upgrades, whatever statements are refused and whatever
    the hosts answer, each machine keeps a line item of its own, a subscription of its
    owner, a template that exists and, if custom, is nobody else's; keys stay unique. *)
Theorem machines_keep_their_rows w (ops : list OrderOp) (HS : sound w) : sound (foldl (fun w op => order_op op w) w ops).
Proof.
  revert w HS. induction ops as [|op ops IH]; intros w HS; [done|]. cbn. apply IH. destruct op as [o|m cfg]; cbn.
  - by apply place_sound.
  - destruct (process_run m cfg w) as (r & w1 & w' & E & <- & Hs & _). rewrite E. cbn. eapply same_sound; [|exact Hs].
    by eapply upgraded_sound, update_outcome.
Qed.

(** C9: an order that succeeds adds exactly one subscription, inactive and without
    expiry, with exactly one line item, and one machine that hangs on them, at most
    one custom template, and changes no other row; and it met every condition: the
    offer was enabled and not expired, the image enabled and of the architecture, the key
    the user's own, the host the one that the capacity service chose, the price that of
    the plan or of the configuration; an import records what the host said. *)
Theorem order_is_placed o w vm w' (HS : sound w) (Hok : place o w = (Ok vm, w')) :
  exists s i np, subs w' = subs w ++ [s] /\ items w' = items w ++ [i] /\ machines w' = machines w ++ [vm] /\
    o_specs w' = o_specs w ++ np /\ w_payments (o_world w') = w_payments (o_world w) /\
    unpaid s /\ s_user_id s = v_user_id vm /\ li_subscription_id i = s_id s /\ li_type i = Vps /\
    v_subscription_line_item_id vm = li_id i /\ v_deleted vm = false /\ v_id vm ∉ v_id <$> machines w /\
    match o with
    | Standard u t m k _ => np = [] /\ granted_standard w u t m k s i vm
    | Custom u spec m k _ => granted_custom w u spec m k s i vm np
    | Imported h v u => granted_import w h v u s i vm np
    end.
Proof.
  pose proof (place_outcome w HS o) as [_ Hp]. rewrite Hok in Hp. destruct (Hp vm eq_refl) as (s & i & np & Hg & Hc & Hgr).
  inversion Hc as [| |? ? ? ? Hf [Hun Hs] (Hi & Hl & Ht) (Ei & Eu & Hfree & Hd & Hof)]; subst.
  exists s, i, np. destruct Hg. split_and!; try done; try congruence.
  unfold rest in gr_rest. cbn in gr_rest. by simplify_eq.
Qed.

(** C11: an order that fails leaves every row as it was and is never billed: what it may
    have added is one custom template, one subscription that is inactive, not set up
    and without expiry, with one line item, and one machine on them. *)
Theorem failed_order_is_not_billed o w e w' (HS : sound w) (Hfail : place o w = (Err e, w')) :
  exists ns ni nv np, subs w' = subs w ++ ns /\ items w' = items w ++ ni /\ machines w' = machines w ++ nv /\
    o_specs w' = o_specs w ++ np /\ w_payments (o_world w') = w_payments (o_world w) /\ rest w' = rest w /\
    (length ns <= 1 /\ length ni = length ns /\ length nv <= length ns /\ length np <= 1)%nat /\ Forall unpaid ns /\
    Forall (fun v => v_subscription_line_item_id v ∈ li_id <$> ni) nv.
Proof.
  pose proof (place_outcome w HS o) as [(ns & ni & nv & np & Hg & Hc) _]. rewrite Hfail in Hg. exists ns, ni, nv, np.
  destruct Hg. split_and!; try done; inversion Hc as [? [? ?]|s i ? [? ?] [Hu ?] ?|s i v ? [? ?] [Hu ?] (Ei & _) (Ev & _)]; subst; cbn;
    try lia; try apply Forall_nil; try done; try (by apply Forall_singleton).
  all: try (unfold rest in gr_rest; cbn in gr_rest; by simplify_eq).
  apply Forall_singleton. rewrite Ev, <- Ei. by apply list_elem_of_singleton.
Qed.

(** C12: an upgrade always returns, and whatever fails on the way no machine is smaller
    for it; every other machine keeps its row, its size and its line item, and the
    upgraded one its owner, host, address and subscription. *)
Theorem upgrade_never_shrinks m cfg w (HS : sound w) :
  exists r w', process_vm_upgrade m cfg w = (Some r, w') /\ Forall2 (fun v v' =>
    v_id v' = v_id v /\ v_user_id v' = v_user_id v /\ v_host_id v' = v_host_id v /\ v_mac_address v' = v_mac_address v /\
    v_subscription_line_item_id v' = v_subscription_line_item_id v /\
    exists x y, specs_of w v = Some x /\ specs_of w' v' = Some y /\ specs_le x y /\
      (v_id v <> m -> v' = v /\ y = x /\ forall i, i ∈ items w -> li_id i = v_subscription_line_item_id v -> i ∈ items w'))
    (machines w) (machines w').
Proof.
  destruct (process_run m cfg w) as (r & w1 & w' & E & Ew & Hs & _). exists r, w'. split; [done|].
  destruct (update_outcome m cfg w HS) as [(wa & k & [Z1 Z2 Z3 Z4 Z5] & Hb & Hk) _]. rewrite Ew in Hb.
  rewrite (same_vms _ _ Hs), (bl_vms _ _ _ Hb).
  apply Forall2_same_length_lookup_2; [by eapply Forall2_length|]. intros i v v' Hv Hv'.
  destruct (Forall2_lookup_lr _ _ _ _ _ _ Z2 Hv Hv') as [Hm (x & y & E1 & E2 & Hle & Hother)].
  assert (specs_of w' v' = Some y) as E3 by by rewrite (same_sizes _ _ _ Hs), (billed_specs _ _ _ _ Hb).
  destruct Hm as [->|(Em & c & ->)]; split_and!; try done; exists x, y; (split_and!; [done|done|done|intros Hne]); [|by destruct Hne].
  split_and!; [done|by apply Hother|]. intros it Hit Eit. rewrite (same_items _ _ Hs). rewrite <- Z3 in Hit.
  apply list_elem_of_lookup in Hit as [j Hj]. destruct (Forall2_lookup_l _ _ _ _ _ (bl_items _ _ _ Hb) Hj) as (it' & Hj' & _ & _ & _ & Hsame).
  rewrite <- Hsame; [by eapply list_elem_of_lookup_2|]. intros Ek. apply Hne, Hk; [by eapply list_elem_of_lookup_2|congruence].
Qed.

(** C10: when an upgrade succeeds the machine has the size that was paid for in the
    rows, the host accepted the new disk and the new cores and memory, as the rows have
    them, and after that started the machine. *)
Theorem upgraded_machine_is_resized m cfg w w' (HS : sound w) (Hok : process_vm_upgrade m cfg w = (Some (Ok tt), w')) :
  exists v v' x l1 l2, v ∈ machines w /\ v_id v = m /\ specs_of w v = Some x /\
    v' ∈ machines w' /\ v_id v' = m /\ specs_of w' v' = Some (wanted cfg x) /\ specs_le x (wanted cfg x) /\
    o_log w' = o_log w ++ l1 ++ (Start (v_host_id v') m, Ok tt) :: l2 /\
    (has (new_disk cfg) = true -> (Resize (v_host_id v') m (Some (wanted cfg x)), Ok tt) ∈ l1) /\
    (has (new_cpu cfg) || has (new_memory cfg) = true -> (Configure (v_host_id v') m (Some (wanted cfg x)), Ok tt) ∈ l1).
Proof.
  destruct (process_run m cfg w) as (r & w1 & w2 & E & Ew & Hs & Hsucc & _). rewrite Hok in E. injection E as <- <-.
  destruct (Hsucc tt eq_refl) as (s' & E1 & Erun & Hend). destruct (update_outcome m cfg w HS) as [Hu Ha]. rewrite Ew in Hu, Ha.
  destruct (Ha tt E1) as (v & v' & x & Hv & Em & Hv' & Em' & Ex & Ey).
  destruct (later_told m cfg w1.2 v' (wanted cfg x) s') as (l1 & l2 & El & Hr & Hc); try done; [by eapply upgraded_sound|].
  destruct (gr_log _ _ _ _ _ _ Hend) as [l3 E3].
  assert (o_log w1.2 = o_log w) as Eq by (rewrite <- Ew; apply (unasked_upgrade m cfg w)).
  exists v, v', x, l1, (l2 ++ l3). rewrite (same_vms _ _ Hs), (same_sizes _ _ _ Hs). split_and!; try done.
  - destruct Hu as (wa & k & [Z1 Z2 Z3 Z4 Z5] & Hb & Hk). apply list_elem_of_lookup in Hv as [i Hi].
    destruct (Forall2_lookup_l _ _ _ _ _ Z2 Hi) as (v2 & Hi2 & Hm & x' & y & F1 & F2 & Hle & _). rewrite Ex in F1. injection F1 as <-.
    assert (v2 = v') as ->.
    { rewrite (bl_vms _ _ _ Hb) in Hv'. eapply (keyed_unique v_id); [apply (so_vms _ Z1)|by eapply list_elem_of_lookup_2|done|].
      destruct Hm as [->|(_ & c & ->)]; cbn; congruence. }
    rewrite (billed_specs _ _ _ _ Hb) in Ey. congruence.
  - by rewrite E3, El, Eq, <- !app_assoc.
Qed.

(** An upgrade that would take cores, memory or disk away is refused before the
    host hears of it, and leaves every row as it was. *)
Theorem downgrade_is_refused m cfg w v x (HS : sound w) (Hv : v ∈ machines w) (Em : v_id v = m)
    (Hx : specs_of w v = Some x) (Hno : ~ specs_le x (wanted cfg x)) :
  exists e w', process_vm_upgrade m cfg w = (Some (Err e), w') /\ o_log w' = o_log w /\
    subs w' = subs w /\ items w' = items w /\ machines w' = machines w /\ o_specs w' = o_specs w.
Proof.
  destruct (process_run m cfg w) as (r & w1 & w' & E & Ew & _ & _ & Herr).
  pose proof (downgrade_stops w m cfg v x HS Hv Em Hx Hno) as [[e He] Hs]. rewrite Ew in He, Hs.
  destruct (Herr e He) as [-> ->]. exists e, w1.2. split_and!; [done|rewrite <- Ew; apply (unasked_upgrade m cfg w)|..];
    [by apply same_subs|by apply same_items|by apply same_vms|by apply same_specs].
Qed.
End theorems.
