(* ===== verification/OrderWitness.v ===== *)
(** * Orders and upgrades at concrete tables

    One host in one region, one template, two custom pricings and one machine of each
    kind; the theorems of [OrderTheorems] there, and runs that show what the code does
    where its parts disagree. *)

From Stdlib Require Import Ascii String SpecFloat.
From stdpp Require Import list gmap.
From S2P Require Import Prelude TryProcedure NetText IpAlloc Network HostTypes Exchange Capacity CapacityProofs SubDb Pricing SubWitness PricingWitness Renewal Orders OrderProofs OrderPlaced Upgrade UpgradeProofs UpgradeSize UpgradePipeline OrderTheorems.

Module OrderRuns.
Import RefNet LifeRuns PriceRuns CapWitness.

(** The hosts: [refuses] says which calls they turn down. *)
Definition services (refuses : HostCall -> bool) (found : list HostVmSpec) : OrderServices := {|
  sql_ok := fun _ => true;
  host_answers := fun _ c => if refuses c then Err (Fatal HostFailed) else Ok tt;
  host_vms := fun _ _ => found
|}.
(** The statements from the given one on are refused. *)
Definition until (n : nat) (s : OrderServices) : OrderServices := {|
  sql_ok := fun k => (k <? n)%nat; host_answers := host_answers; host_vms := host_vms
|}.
Definition found9 : HostVmSpec :=
  {| hv_host_vm_id := 109; hv_mapped_vm_id := Some 9; hv_cpu := 2; hv_memory := 2 * GB; hv_disk_size := 40 * GB;
     hv_disk_storage := None; hv_mac_address := None |}.
Definition willing : OrderServices := services (fun _ => false) [found9].

(** ** The tables *)

Definition no_limits : VmLimits :=
  {| disk_iops_read := None; disk_iops_write := None; disk_mbps_read := None; disk_mbps_write := None;
     network_mbps := None; cpu_limit := None |}.
Definition offer (id : Z) (arch : CpuArch) (cpu_cost : Z) : OfferRow :=
  {| of_pricing := {| vp_id := id; vp_enabled := true; vp_region_id := 1; vp_currency := "EUR"; vp_cpu_mfg := MfgUnknown;
       vp_cpu_arch := arch; vp_cpu_features := []; vp_cpu_cost := cpu_cost; vp_memory_cost := 50; vp_ip4_cost := 100;
       vp_ip6_cost := 0; vp_min_cpu := 1; vp_max_cpu := 8; vp_min_memory := GB; vp_max_memory := 16 * GB |};
     of_name := "custom"; of_expires := None; of_limits := no_limits |}.
Definition disk_price (pricing : Z) : VmCustomPricingDisk :=
  {| pd_id := pricing; pd_pricing_id := pricing; pd_kind := SSD; pd_interface := PCIe; pd_cost := 1;
     min_disk_size := GB; max_disk_size := 200 * GB |}.
Definition base (prices : list VmCustomPricingDisk) : Catalog :=
  {| cat_users := [user5]; cat_companies := [company1]; cat_regions := [{| Pricing.r_id := 1; r_company_id := 1 |}];
     cat_hosts := [h1]; cat_templates := []; cat_cost_plans := [plan1]; cat_custom_templates := []; cat_pricings := [];
     cat_pricing_disks := prices; cat_ips := []; cat_configs := []; cat_rates := ∅; cat_vat := <[DE := f32_of 19]> ∅ |}.
Definition small : PlanRow :=
  {| pt_template := t1 true; pt_name := "small"; pt_expires := None; pt_firewall_rule_limit := Some 50 |}.
Definition disk_row (id size : Z) : DiskRow :=
  {| dr_disk := {| d_id := id; d_host_id := 1; d_size := size; d_kind := SSD; d_interface := PCIe; d_enabled := true |};
     dr_name := "local" |}.
Definition spec9 : SpecRow :=
  {| sp_template := {| ct_id := 1; ct_cpu := 2; ct_memory := 2 * GB; ct_disk_size := 40 * GB; ct_disk_type := SSD;
       ct_disk_interface := PCIe; ct_cpu_mfg := MfgUnknown; ct_cpu_arch := X86_64; ct_cpu_features := [];
       ct_pricing_id := 1 |}; sp_limits := no_limits; sp_firewall_rule_limit := Some 30 |}.
Definition sub (id : Z) : Subscription :=
  {| s_id := id; s_user_id := 5; s_company_id := 1; s_name := "VM"; s_description := None; s_created := 0;
     s_expires := Some (30 * DAY); s_is_active := true; s_is_setup := true; s_currency := "EUR"; s_interval_amount := 1;
     s_interval_type := Month; s_setup_fee := 0; s_auto_renewal_enabled := false; s_external_id := None |}.
Definition item (id : Z) : SubscriptionLineItem :=
  {| li_id := id; li_subscription_id := id; li_type := Vps; li_name := "VM"; li_description := None; li_amount := 500;
     li_setup_amount := 0; li_configuration := None |}.
Definition mach (id item : Z) (template custom key : option Z) (deleted : bool) : Vm :=
  {| v_id := id; v_host_id := 1; v_template_id := template; v_custom_template_id := custom;
     v_subscription_line_item_id := item; v_disk_id := 1; v_deleted := deleted; v_user_id := 5; v_ssh_key_id := key;
     v_mac_address := "bc:24:11:00:00:01" |}.

(** Machine 7 is of the template, machine 8 of the custom template. *)
Definition tables (l : list Vm) (disks : list DiskRow) (offers : list OfferRow) (prices : list VmCustomPricingDisk) : OrderWorld :=
  {| o_world := {| w_subs := sub <$> [1; 2]; w_items := item <$> [1; 2]; w_payments := []; w_vms := l; w_history := [];
       w_spaces := []; w_ranges := []; w_methods := []; w_next_range := 1; w_last_subs := None; w_last_vms := None;
       w_calls := []; w_reads := 0; w_reported := [] |};
     o_base := base prices; o_regions := {[ 1 := true ]}; o_ip_ranges := [rand8]; o_plans := [small]; o_offers := offers;
     o_specs := [spec9]; o_disks := disks; o_keys := [{| k_id := 1; k_user_id := 5 |}; {| k_id := 2; k_user_id := 6 |}];
     o_images := [{| im_id := 1; im_enabled := true; im_cpu_arch := X86_64 |}];
     o_image_id := {[ 7 := 1; 8 := 1; 9 := 1 ]}; o_ref_code := ∅;
     o_next := {| n_sub := 3; n_item := 3; n_vm := 10; n_spec := 2 |}; o_queries := 0; o_log := []; o_notified := [] |}.
Definition standard7 : Vm := mach 7 1 (Some 1) None (Some 1) false.
Definition custom8 : Vm := mach 8 2 None (Some 1) (Some 1) false.
Definition start : OrderWorld := tables [standard7; custom8] [disk_row 1 (200 * GB)] [offer 1 X86_64 200] [disk_price 1].

(** Is the invariant met, row by row? *)
Lemma start_sound : sound start.
Proof.
  constructor.
  - split; [vm_compute; repeat constructor; set_solver|repeat constructor; vm_compute; reflexivity].
  - split; [vm_compute; repeat constructor; set_solver|repeat constructor; vm_compute; reflexivity].
  - split; [vm_compute; repeat constructor; set_solver|repeat constructor; vm_compute; reflexivity].
  - split; [vm_compute; repeat constructor; set_solver|repeat constructor; vm_compute; reflexivity].
  - constructor; [|constructor; [|constructor]];
      [exists (item 1), (sub 1)|exists (item 2), (sub 2)]; cbn; split_and!; try done; set_solver.
  - repeat constructor; vm_compute; set_solver.
  - repeat constructor; by eexists.
  - vm_compute. repeat constructor; set_solver.
  - intros v v' c Hv Hv'. apply elem_of_cons in Hv as [->| ->%list_elem_of_singleton];
      apply elem_of_cons in Hv' as [->| ->%list_elem_of_singleton]; done.
Qed.

Definition standard_order : Order := Standard 5 1 1 1 (Some "alice"%string).
Definition import_order : Order := Imported 1 109 5.
Definition grow : UpgradeConfig := {| new_cpu := Some 4; new_memory := None; new_disk := Some (60 * GB) |}.
Definition shrink : UpgradeConfig := {| new_cpu := Some 4; new_memory := Some GB; new_disk := None |}.

(** ** Where the parts disagree *)

#[local] Existing Instance willing.
Definition code (r : res OrderFail Vm) : Z * Z + OrderFail := match r with Ok v => inl (v_id v, v_disk_id v) | Err e => inr e end.
Definition after {A} (m : ST OrderWorld A) (w : OrderWorld) : OrderWorld := (m w).2.
(** What a run gave, when it is known to give one. *)
Definition succeeded (p : res OrderFail Vm * OrderWorld) : bool := match p.1 with Ok _ => true | Err _ => false end.
Definition got (p : res OrderFail Vm * OrderWorld) : Vm := match p.1 with Ok v => v | Err _ => standard7 end.
Definition why (p : res OrderFail Vm * OrderWorld) : OrderFail := match p.1 with Ok _ => Crashed | Err e => e end.
Lemma got_ok p : succeeded p = true -> p = (Ok (got p), p.2).
Proof. by destruct p as [[v|e] w]. Qed.
Lemma got_err p : succeeded p = false -> p = (Err (why p), p.2).
Proof. by destruct p as [[v|e] w]. Qed.
Lemma first_ok {A B} (p : A * B) a : p.1 = a -> p = (a, p.2).
Proof. destruct p as [x b]. cbn. by intros ->. Qed.
Definition first_limit (w : OrderWorld) : res OrderFail (Z * Z) :=
  match head (machines w) with Some v => pair (v_id v) <$> (vm_firewall_rule_limit v w).1 | None => Err RowNotFound end.
Definition pricings (w : OrderWorld) : list Z := (fun s => ct_pricing_id (sp_template s)) <$> o_specs w.

(** An imported machine has no key, and a host is only given machines that have one:
    its paid upgrade changes the rows, stops the machine and then fails each time it
    is tried, and the machine is never started. *)
Lemma imported_machine_stays_stopped :
  let w := after (place import_order) start in
  let w' := after (process_vm_upgrade 9 grow) w in
  (process_vm_upgrade 9 grow w).1 = Some (Err NoSshKey) /\
  o_log w' = o_log w ++ [(Connect 1, Ok tt); (Stop 1 9, Ok tt)] /\
  (process_vm_upgrade 9 grow w').1 = Some (Err NoSshKey).
Proof. cbv zeta. repeat split; vm_compute; reflexivity. Qed.

(** A machine that was deleted keeps its row, which the import takes for free: it is
    refused only after a custom template and a subscription were written. *)
Lemma deleted_machine_blocks_its_import :
  let w := tables [standard7; custom8; mach 9 2 (Some 1) None (Some 1) true] [disk_row 1 (200 * GB)] [offer 1 X86_64 200] [disk_price 1] in
  let w' := after (place import_order) w in
  code (place import_order w).1 = inr DuplicateKey /\ code (place import_order w').1 = inr DuplicateKey /\
  length (subs (after (place import_order) w')) = (length (subs w) + 2)%nat /\
  length (o_specs (after (place import_order) w')) = (length (o_specs w) + 2)%nat.
Proof. cbv zeta. repeat split; vm_compute; reflexivity. Qed.

(** The quote takes the first pricing that fits the machine, the upgrade itself the
    first one that has the disk. *)
Lemma upgrade_is_priced_by_another_plan :
  let w := tables [standard7; custom8] [disk_row 1 (200 * GB)] [offer 1 ARM64 200; offer 2 X86_64 900] [disk_price 1; disk_price 2] in
  vp_id <$> Pricing.find_custom_pricing (Orders.catalog w) 1 SSD PCIe MfgUnknown X86_64 [AVX2] = Ok 2 /\
  (process_vm_upgrade 7 grow w).1 = Some (Ok tt) /\ pricings (after (process_vm_upgrade 7 grow) w) = pricings w ++ [1].
Proof. cbv zeta. repeat split; vm_compute; reflexivity. Qed.

(** The host was chosen for the room of its second disk (forty gigabytes are asked
    for); the machine is put on the first, where ten are left. *)
Lemma order_takes_the_full_disk :
  let w := tables [standard7; custom8] [disk_row 1 (90 * GB); disk_row 2 (200 * GB)] [offer 1 X86_64 200] [disk_price 1] in
  code (place standard_order w).1 = inl (10, 1) /\
  (fun c => (fun d => (d_id (disk d), d_available_capacity d)) <$> disks c) <$>
    get_host_capacity (cap_db w) h1 (Some SSD) (Some PCIe) = Some [(1, 10 * GB); (2, 200 * GB)].
Proof. cbv zeta. repeat split; vm_compute; reflexivity. Qed.

(** An upgrade to more cores and less memory is quoted and may be paid; the worker
    refuses it. *)
Lemma mixed_upgrade_is_sold_and_refused :
  (fun q => value (amount (uq_upgrade q))) <$>
    (Pricing.calculate_vm_upgrade_cost (Orders.catalog start) 8 shrink Revolut (o_world start)).1 = Ok 344 /\
  (process_vm_upgrade 8 shrink start).1 = Some (Err CannotDowngrade).
Proof. split; vm_compute; reflexivity. Qed.

(** The limit of firewall rules of a template is lost in an upgrade. *)
Lemma upgrade_loses_the_rule_limit :
  first_limit start = Ok (7, 50) /\ first_limit (after (process_vm_upgrade 7 grow) start) = Ok (7, 20).
Proof. split; vm_compute; reflexivity. Qed.

(** An import into a region whose pricing does not sell the disk fails after the
    machine was written. *)
Lemma failed_import_leaves_the_machine :
  let w := tables [standard7; custom8] [disk_row 1 (200 * GB)] [offer 1 X86_64 200] [] in
  code (place import_order w).1 = inr (Failed (PriceFailed NoDiskPrice)) /\
  v_id <$> machines (after (place import_order) w) = [7; 8; 9].
Proof. cbv zeta. repeat split; vm_compute; reflexivity. Qed.
End OrderRuns.

(** ** The theorems *)

Section witnesses.
Import RefNet LifeRuns PriceRuns CapWitness OrderRuns.
#[local] Existing Instance willing.
#[local] Notation run o := (place o start).

Definition history : list OrderOp := [Ordered standard_order; UpgradePaid 7 grow; Ordered import_order; UpgradePaid 8 shrink].
Lemma machines_keep_their_rows_witness :
  v_id <$> machines (foldl (fun w op => order_op op w) start history) = [7; 8; 10; 9] /\
  sound (foldl (fun w op => order_op op w) start history).
Proof. split; [vm_compute; reflexivity|]. apply (machines_keep_their_rows start history start_sound). Defined.

Lemma order_is_placed_witness : exists s i vm, subs (run standard_order).2 = subs start ++ [s] /\
  items (run standard_order).2 = items start ++ [i] /\ machines (run standard_order).2 = machines start ++ [vm] /\
  v_id vm = 10 /\ li_amount i = 500 /\ unpaid s.
Proof.
  assert (run standard_order = (Ok (got (run standard_order)), (run standard_order).2)) as E by (apply got_ok; vm_compute; reflexivity).
  destruct (order_is_placed standard_order start _ _ start_sound E) as (s & i & np & H1 & H2 & H3 & _ & _ & H4 & _).
  exists s, i, (got (run standard_order)). split_and!; [exact H1|exact H2|exact H3|vm_compute; reflexivity| |exact H4].
  revert H2. vm_compute. intros [= <-]. reflexivity.
Defined.

(** The statement that adds the machine is refused. *)
#[local] Notation cut := (@place _ _ _ _ (until 12 willing) standard_order start).
Lemma failed_order_is_not_billed_witness : cut.1 = Err Sql /\
  exists ns ni, subs cut.2 = subs start ++ ns /\ items cut.2 = items start ++ ni /\ length ns = 1%nat /\ Forall unpaid ns.
Proof.
  split; [vm_compute; reflexivity|].
  assert (cut = (Err (why cut), cut.2)) as E by (apply got_err; vm_compute; reflexivity).
  destruct (@failed_order_is_not_billed _ _ _ _ (until 12 willing) standard_order start (why cut) cut.2 start_sound E)
    as (ns & ni & nv & np & H1 & H2 & _ & _ & _ & _ & _ & Hu & _).
  exists ns, ni. split_and!; [exact H1|exact H2| |exact Hu].
  assert (length (subs cut.2) = 3%nat) as El by (vm_compute; reflexivity).
  rewrite H1, length_app in El. change (length (subs start)) with 2%nat in El. lia.
Defined.

Lemma upgrade_never_shrinks_witness : exists r w', process_vm_upgrade 7 grow start = (Some r, w') /\
  specs_of start standard7 = Some {| rs_cpu := 2; rs_memory := 2 * GB; rs_disk_size := 40 * GB |} /\
  exists v' y, head (machines w') = Some v' /\ specs_of w' v' = Some y /\
    specs_le {| rs_cpu := 2; rs_memory := 2 * GB; rs_disk_size := 40 * GB |} y.
Proof.
  destruct (upgrade_never_shrinks 7 grow start start_sound) as (r & w' & E & Hf). exists r, w'. split; [exact E|].
  assert (specs_of start standard7 = Some {| rs_cpu := 2; rs_memory := 2 * GB; rs_disk_size := 40 * GB |}) as Ex
    by (vm_compute; reflexivity). split; [exact Ex|].
  inversion Hf as [|v v' l l' (_ & _ & _ & _ & _ & x & y & E1 & E2 & Hle & _) _ El El']; subst.
  exists v', y. split; [reflexivity|]. split; [exact E2|]. rewrite Ex in E1. injection E1 as <-. exact Hle.
Defined.

Lemma upgraded_machine_is_resized_witness : exists v',
  v' ∈ machines (process_vm_upgrade 7 grow start).2 /\ v_id v' = 7 /\
  specs_of (process_vm_upgrade 7 grow start).2 v' = Some {| rs_cpu := 4; rs_memory := 2 * GB; rs_disk_size := 60 * GB |}.
Proof.
  destruct (upgraded_machine_is_resized 7 grow start (process_vm_upgrade 7 grow start).2 start_sound)
    as (v & v' & x & l1 & l2 & Hv & Em & Ex & Hv' & Em' & Ey & _).
  { apply first_ok. vm_compute. reflexivity. }
  exists v'. split; [exact Hv'|]. split; [exact Em'|]. rewrite Ey.
  assert (v = standard7) as ->.
  { apply elem_of_cons in Hv as [Hv|Hv]; [exact Hv|]. apply list_elem_of_singleton in Hv. by subst v. }
  revert Ex. vm_compute. by intros [= <-].
Defined.

Lemma downgrade_is_refused_witness : exists e w', process_vm_upgrade 8 shrink start = (Some (Err e), w') /\
  o_log w' = [] /\ machines w' = machines start.
Proof.
  destruct (downgrade_is_refused 8 shrink start custom8 {| rs_cpu := 2; rs_memory := 2 * GB; rs_disk_size := 40 * GB |} start_sound)
    as (e & w' & E & El & _ & _ & Ev & _); [right; left|reflexivity|vm_compute; reflexivity|intros (_ & Hm & _); revert Hm; vm_compute; congruence|].
  exists e, w'. split; [exact E|]. split; [exact El|exact Ev].
Defined.
End witnesses.
